(* ===== verification/_CoqProject ===== *)
-Q . S2P
Prelude.v
GoFloat.v
Naza.v
Avc.v
Hevc.v
RtpSeq.v
RtpPacket.v
Base.v
RtpList.v
RtpContainer.v
RtpUnpack.v
RtpPack.v
RtpFlow.v
Rtcp.v
RtmpMsg.v
RtmpChunk.v
GopCache.v
FlvTag.v
Amf0.v
Metadata.v
FlvRemux.v
MessagePacker.v
ServerSession.v
Bits.v
TsPack.v
Crc32.v
Psi.v
Aac.v
HevcSeq.v
AvcSeq.v
Rtmp2Mpegts.v
AvQueue.v
ClientSession.v
Dialogue.v
DummyAudio.v
GroupStream.v
Group.v
PsBits.v
PsUtil.v
PsProto.v
PsPes.v
PsWire.v
PsMux.v
PsDemux.v
PsInput.v
PsFlow.v
GoText.v
Sdp.v
AvRemux.v
AvFlow.v
GroupIn.v
GroupTurns.v
Rtmp2Rtsp.v
Rtmp2RtspFlow.v
HlsPath.v
Hls.v
HlsFlow.v
WebSocket.v
RtspMsg.v
SessionStat.v
RtspIn.v
RtspFlow.v
Url.v
Http.v
RtspOut.v
RtspServer.v
