(* ===== verification/Prelude.v ===== *)
(** * lal: a verification library for the lal live-streaming server

    lal (Go, src/pkg) receives live audio and video over RTMP, RTSP/RTP,
    HTTP-FLV and GB28181, and sends it on over RTMP, RTSP, HTTP-FLV, HTTP-TS
    and HLS.  A publisher's bytes go through a protocol reader to messages or
    packets, a group remuxes and caches them, and each subscriber's protocol
    writer turns them into bytes again.  This library models that path: the
    codecs, the reordering, merging and caching structures, the remuxers, the
    RTMP dialogue, the group with its publishers, players and relays, and the
    HLS muxer.

    ** How Go is modelled

    Bytes and machine integers are [Z]; each wrap-around the code has is
    written ([u8], [u16], [u32], [u64]).  A slice is a list of its bytes.  A
    function that may fail or panic returns [outcome]: [Ret], [Fail] with the
    error value, or [Panic] (index or slice out of range, nil call, division by
    zero).  Code with effects on shared state or a callback is an [eff S A],
    explicit state passing over [outcome].  Loops that are not structural take
    fuel; a theorem of the file shows the fuel given by the callers is enough
    (or that the loop does not end).  Logging and formatting for logs are left
    out; strings are lists of bytes.  A critical section of a mutex is one
    step; where sections of several goroutines interleave (GroupIn), the steps
    are an explicit sequence in any order.  Where an observer calls back into
    the object that called it (Rtmp2Mpegts, Hls), that re-entrance is a step of
    its own.  Maps a loop ranges over are visited in an order that is a
    parameter ([RangeOrder]).

    The naza library is not part of the repository: its byte-order functions
    ([Bele], [Bele64]), stream writers ([BeleStream]), MD5 in hexadecimal
    ([Md5]), growable buffer ([NazaBuffer]),
    bit reader and writer ([NazaBits]), bounded queue ([CircularQueue]), unique
    keys ([Unique]), parser of RTSP messages ([HttpMsg]) and file system layer ([FileSystem]), like the parser of
    net/url ([NetUrl]), are classes, with laws
    for the inputs lal gives them; every theorem is proved for any instance
    with the laws, and there is an instance of each for the witnesses.
    Connections and observers are parameters in the same way.  Between the
    components themselves the classes are [RtpUnpackerProtocol] (the container
    and what unpacks), [HlsMuxer], [RtspRemuxer], [SnapshotRemuxer],
    [SdpContext] (a group and what it feeds) and [MediaSide] (the publishers of
    a group and its media).

    ** Files

    Shared:
    - Prelude: outcomes, effects, slices, integers, byte encodings, tactics
      and hints shared by all files.
    - GoFloat: float64 on the values lal computes (integer conversions,
      AMF numbers, RTP clock scaling, segment durations).
    - GoText: the functions of strings, strconv, base64 and hex lal uses.
    - Naza, Bits: the interfaces to the naza library and their instances.

    Codecs:
    - Avc, Hevc (pkg/avc/avc.go, pkg/h2645, pkg/hevc/hevc.go): NAL unit types,
      Annex-B and AVCC splitting, joining and conversion.  Theorems: join/split
      and AVCC/Annex-B round trips on clean units, totality of splitting.
    - AvcSeq, HevcSeq (pkg/avc/avc.go, beta.go, pkg/hevc/hevc.go): sequence
      headers built and parsed, VPS and SPS fields against a reference layout.
    - Aac (pkg/aac): AudioSpecificConfig and ADTS round trips.

    RTP and RTSP:
    - RtpSeq, RtpPacket (pkg/rtprtcp/rtp.go, rtp_packet.go): sequence number
      comparison as serial-number order, the RTP header; packing and parsing
      are inverse, parsing is total, what malformed packets do.
    - Base (pkg/base/avpacket.go): audio/video packets.
    - RtpList, RtpContainer (rtp_packet_list.go, rtp_unpack_container.go): the
      reorder buffer over [RtpUnpackerProtocol]; bounded size, packets
      delivered in sequence order.
    - RtpUnpack (rtp_unpacker*.go): the raw, AAC and AVC/HEVC protocols as
      instances of the class; aggregate and fragmented units.
    - RtpPack (rtp_packer*.go): the payload packers and the RTP packer.
    - RtpFlow: packing then receiving, in any order of arrival, gives the
      frame back (AVC/HEVC and AAC).
    - Rtcp (rtcp*.go, ntp.go): sender and receiver reports, loss statistics.
    - Sdp (pkg/sdp): descriptions parsed and packed; their round trip.
    - AvQueue (pkg/rtsp/avpacket_queue.go): rebasing and merging of the two
      media; nothing is lost or made up, order and bounds.
    - RtspMsg (pkg/rtsp/rtsp.go, pack.go, auth.go, interleaved.go): the text of
      requests and responses, transport headers, authentication, and frames on
      the command connection; what one side writes the other reads, and who is
      let in.
    - RtspIn (pkg/rtsp/base_in_session.go): the session that receives RTP and
      RTCP; each medium is unpacked as if it were alone, whatever else arrives.
    - RtspFlow: a stream that Rtmp2Rtsp publishes, received by RtspIn.
    - RtspOut (base_out_session.go, server_sub_session.go, and runReadLoop of
      client_command_session.go): the session that sends RTP to a player; what
      it writes on the command connection, a pulling session reads.
    - Http: the messages of requests and responses, read by the parser of naza.
    - RtspServer (server_command_session.go, server_pub_session.go, server.go):
      the command connection of a player or a publisher, from its bytes to what
      the server's observer is told.  Players are let in after the right digest;
      a publisher's dialogue is answered in order and its packets are received.

    RTMP and FLV:
    - RtmpMsg (pkg/base/t_rtmp.go): RTMP messages and the tests on them.
    - RtmpChunk (pkg/rtmp/chunk_divider.go, chunk_composer.go, stream.go): the
      chunk stream.  A message divided is read back whole, chunks of several
      messages interleave freely, and the reading loop ends on any input with
      an error and without a panic of its own.
    - Amf0, Metadata (pkg/rtmp/amf0.go, metadata.go): AMF0 values and the
      metadata message; round trips, and totality of the readers.
    - MessagePacker (pkg/rtmp/message_packer.go): every command and control
      message; what is sent reaches the other side's composer intact.
    - ServerSession, ClientSession (pkg/rtmp/server_session.go,
      client_session.go): the message handlers over the trace of what the
      session did; media only reaches an observer after a publisher was
      announced, and a client is told its result once.
    - Dialogue: a client and a server connected, in any order of their reads;
      pushing and pulling reach their result.
    - FlvTag (pkg/httpflv/tag.go, util.go, flv_file_pump.go): FLV tags, files
      and their replay with monotone timestamps.

    Remuxers (pkg/remux):
    - FlvRemux (flv2rtmp.go, rtmp2flv.go, rtmp.go), GopCache (gop_cache.go,
      gop_cache_mpegts.go: the ring of groups of pictures refines a bounded
      queue), DummyAudio (dummy_audio_filter.go).
    - AvRemux, AvFlow (avpacket2rtmp.go, rtmp2avpacket.go): packets to messages
      and back.
    - Rtmp2Rtsp, Rtmp2RtspFlow (rtmp2rtsp.go): messages to a description and
      RTP packets, and those through the receiving side.
    - Rtmp2Mpegts (rtmp2mpegts*.go): messages to transport stream frames under
      re-entrant flushing, and their continuity counters.

    MPEG-TS and HLS:
    - TsPack, Crc32, Psi (pkg/mpegts): frames cut into packets and taken apart
      by a reference demultiplexer; the checksum is the polynomial division;
      the tables and their parsers.
    - HlsPath (pkg/hls/path_strategy.go, pkg/base/url.go): names of files, and
      which file a request is for.
    - Hls, HlsFlow (pkg/hls/muxer.go, fragment.go, m3u8.go): the ring of
      segments and the playlists; on a working disk, in any order of feeding,
      re-entrant feeding and disposal, the files are those of a plain list of
      all segments.

    Connections and sessions (pkg/base):
    - Url (url.go): addresses of streams; the parts of an RTSP address.
    - WebSocket (websocket.go): frames written and read back.
    - SessionStat (basic_session_stat.go, t_session.go, t_unique.go): counters,
      bit rates and liveness of a session.

    The group (pkg/logic):
    - GroupStream, Group (group__core_streaming.go, group__out_sub.go,
      group__in.go, pkg/base/merge_writer.go): a message of the publisher goes
      to the caches, remuxers and players; players start at key frames.
    - GroupIn, GroupTurns (group__in.go, group__relay_pull.go,
      group__relay_push.go, group__.go): publishers and relays as sections that
      interleave; at most one source at a time, retries with backoff, what one
      publisher leaves to the next.

    GB28181 (pkg/gb28181/mpegps):
    - PsBits, PsUtil, PsProto, PsPes: the bit streams and the headers of the
      program stream, PsWire their wire format with the rules for reading and
      writing it.
    - PsMux, PsDemux: muxer and demuxer; PsInput: the demuxer does not depend
      on how its input is cut; PsFlow: from the muxer to the demuxer.

    ** Fuel

    [RunLoop] takes one unit per chunk (one per byte of input is enough);
    [IterateNaluAnnexb] and [IterateNaluAvcc] one per byte; [PackNal] one per
    byte of the unit ([pack_fuel]), the TS [Pack] likewise; the AMF0 readers
    one level per byte of input; the container's loop one per packet in the
    list; [PopAll] of the queue of RTSP one per packet ([pop_fuel]); the parsers
    of PAT and PMT one per byte; [FlushAudio] one, as its callback does not
    nest deeper; the record of an HEVC sequence header one per array; the
    silence of DummyAudio one per 21 ms ([catch_up_fuel]); the bit fields, the
    descriptors and the units of the program stream one per byte, [Input] of
    the demuxer 8 per byte and 2 more, enough except at an end code (where the
    loop of the code does not advance either); [Split] one cut per byte,
    base64 one quantum per byte, decimal digits one per bit; the command connection of RTSP one more than its
    bytes ([runCmdLoop_fuel]).  [OutOfFuel] is an
    error of the model alone and the termination theorems exclude it.

    ** Not modelled

    Sockets, timers, and what only wraps them: the handshake and the listeners
    of RTMP, the HTTP servers, the requests of RTSP clients and the WebSocket
    upgrade, the SIP signalling and the media servers of GB28181, which call third-party packages for
    nearly all they do.  The server manager and its HTTP interface: JSON,
    configuration and notifications around the groups.  In the modelled parts:
    statistics, pretty printers, and the experimental parsers no code calls.
    In GroupIn the slots of sessions shared between groups are a choice of the
    environment, and a goroutine that panics while it pulls is left out.  The
    applications under src/app. *)

From Stdlib Require Export ZArith Lia.
From stdpp Require Export base numbers option.
From stdpp Require Export list.
From Stdlib Require Export (notations) String.
From Stdlib Require Ascii.

#[global] Open Scope Z_scope.

(** ** Outcomes of Go code

    A Go function either returns a value, returns a non-nil [error], or panics
    (index or slice out of range, nil dereference, division by zero).  The
    errors are the sentinel values of src/pkg/base/error.go and
    src/pkg/gb28181/mpegps/ps_proto.go the modelled code returns, plus [EOF] and
    [UnexpectedEOF], the errors of [io.ReadFull]/[io.ReadAtLeast] on a stream
    that ends.
    [OutOfFuel] is no Go error: a loop of the model ran longer than its bound;
    the termination theorems show that it is never returned. *)

Inductive goerr :=
  | ErrShortBuffer
  | ErrSamplingFrequencyIndex
  | ErrAvc
  | ErrHevc
  | ErrAmfInvalidType
  | ErrAmfTooShort
  | ErrAmfNotExist
  | ErrRtmpShortBuffer
  | ErrRtmpUnexpectedMsg
  | ErrRtpRtcpShortBuffer
  | ErrDupInStream
  | ErrShortWrite
  | ErrInvalidCsid
  | ErrNeedMore
  | ErrParser
  | ErrStreamIdNotFound
  | ErrSdp
  | ErrRtsp
  | ErrRtspUnsupportedTransport
  | ErrHls
  | ErrInvalidUrl
  | ErrSimpleAuthParamNotFound
  | ErrSimpleAuthFailed
  | ErrFmt (* made with fmt.Errorf, errors.New or by the standard library *)
  | EOF
  | UnexpectedEOF
  | OutOfFuel.

#[global] Instance goerr_eq_dec : EqDecision goerr.
Proof. solve_decision. Defined.

Inductive outcome (A : Type) :=
  | Ret (a : A)
  | Fail (e : goerr)
  | Panic.
Arguments Ret {A} a.
Arguments Fail {A} e.
Arguments Panic {A}.

#[global] Instance outcome_eq_dec `{EqDecision A} : EqDecision (outcome A).
Proof. solve_decision. Defined.

#[global] Instance outcome_ret : MRet outcome := fun A a => Ret a.
#[global] Instance outcome_bind : MBind outcome := fun A B f m =>
  match m with Ret a => f a | Fail e => Fail e | Panic => Panic end.

Lemma bind_Ret {A B} (a : A) (f : A → outcome B) : (Ret a ≫= f) = f a.
Proof. reflexivity. Qed.

Lemma bind_Ret_inv {A B} (m : outcome A) (f : A → outcome B) b :
  (m ≫= f) = Ret b → ∃ a, m = Ret a ∧ f a = Ret b.
Proof. destruct m; simpl; intros; try discriminate; eauto. Qed.

(** Go's short-circuit [&&] and [||] on computations that may panic. *)
Definition go_and (a b : outcome bool) : outcome bool := x ← a; if x : bool then b else Ret false.
Definition go_or (a b : outcome bool) : outcome bool := x ← a; if x : bool then Ret true else b.

(** Computations over a state that survives errors and panics (what a callback
    has accumulated when a loop ends with an error). *)
Definition eff (S A : Type) : Type := S → S * outcome A.

#[global] Instance eff_ret {S} : MRet (eff S) := fun A a s => (s, Ret a).
#[global] Instance eff_bind {S} : MBind (eff S) := fun A B f m s =>
  let '(s, r) := m s in
  match r with Ret a => f a s | Fail e => (s, Fail e) | Panic => (s, Panic) end.
Definition lift {S A} (m : outcome A) : eff S A := λ s, (s, m).

Lemma eff_bind_Ret {S A B} (m : eff S A) (f : A → eff S B) s s' a :
  m s = (s', Ret a) → (m ≫= f) s = f a s'.
Proof. unfold mbind, eff_bind. by intros ->. Qed.
Lemma eff_bind_lift {S A B} (a : A) (f : A → eff S B) (s : S) : (lift (Ret a) ≫= f) s = f a s.
Proof. reflexivity. Qed.

(** From a state with [P], [m] returns a value, and [Q] holds of it and of the
    state then. *)
Definition ensures {S A} (P : S → Prop) (m : eff S A) (Q : A → S → Prop) : Prop :=
  ∀ s, P s → ∃ s' a, m s = (s', Ret a) ∧ Q a s'.

Lemma ensures_bind {S A B} (P : S → Prop) (m : eff S A) (f : A → eff S B) Q R :
  ensures P m Q → (∀ a, ensures (Q a) (f a) R) → ensures P (m ≫= f) R.
Proof.
  intros Hm Hf s Hs. destruct (Hm s Hs) as (s1 & a & E & H1). destruct (Hf a s1 H1) as (s2 & b & E2 & H2).
  exists s2, b. split; [|done]. by rewrite (eff_bind_Ret _ _ _ s1 a).
Qed.
Lemma ensures_ret {S A} (P : S → Prop) (Q : A → S → Prop) a : (∀ s, P s → Q a s) → ensures P (mret a) Q.
Proof. intros H s Hs. exists s, a. split; [done|auto]. Qed.
Lemma ensures_lift {S A} (P : S → Prop) (Q : A → S → Prop) m a :
  m = Ret a → (∀ s, P s → Q a s) → ensures P (lift m) Q.
Proof. intros -> H s Hs. exists s, a. split; [done|auto]. Qed.
Lemma ensures_lift_bind {S A B} (P : S → Prop) (m : outcome A) (f : A → eff S B) R a :
  m = Ret a → ensures P (f a) R → ensures P (lift m ≫= f) R.
Proof. intros -> H s Hs. rewrite eff_bind_lift. by apply H. Qed.
Lemma ensures_weaken {S A} (P P' : S → Prop) (m : eff S A) (Q Q' : A → S → Prop) :
  ensures P m Q → (∀ s, P' s → P s) → (∀ a s, Q a s → Q' a s) → ensures P' m Q'.
Proof. intros H HP HQ s Hs. destruct (H s (HP s Hs)) as (s' & a & E & H'). eauto. Qed.
Lemma ensures_pure {S A} (P : S → Prop) (φ : Prop) (m : eff S A) Q :
  (∀ s, P s → φ) → (φ → ensures P m Q) → ensures P m Q.
Proof. intros H Hm s Hs. exact (Hm (H s Hs) s Hs). Qed.

(** No run-time panic. *)
Definition no_panic {A} (m : outcome A) : Prop := m ≠ Panic.

Lemma no_panic_bind {A B} (m : outcome A) (f : A → outcome B) :
  no_panic m → (∀ a, m = Ret a → no_panic (f a)) → no_panic (m ≫= f).
Proof. unfold no_panic. destruct m; simpl; eauto; congruence. Qed.

(** A computation that returns a value with [P] or an error of the code: it
    neither panics nor runs out of fuel. *)
Definition total {A} (P : A → Prop) (m : outcome A) : Prop :=
  match m with Ret a => P a | Fail e => e ≠ OutOfFuel | Panic => False end.

Lemma total_bind {A B} (P : A → Prop) (Q : B → Prop) (m : outcome A) (f : A → outcome B) :
  total P m → (∀ a, P a → total Q (f a)) → total Q (m ≫= f).
Proof. destruct m; simpl; auto. Qed.
Lemma total_impl {A} (P Q : A → Prop) (m : outcome A) :
  total P m → (∀ a, P a → Q a) → total Q m.
Proof. destruct m; simpl; auto. Qed.

(** ** Machine integers

    Unsigned conversions truncate; [int] is 64 bits and is used by the code for
    lengths and offsets only, so it is a plain [Z]. *)

Definition u8 (x : Z) : Z := x mod 256.
Definition u16 (x : Z) : Z := x mod 65536.
Definition u24max : Z := 16777215.
Definition u32 (x : Z) : Z := x mod 4294967296.
Definition u64 (x : Z) : Z := x mod 18446744073709551616.
Definition i64 (x : Z) : Z :=
  (x + 9223372036854775808) mod 18446744073709551616 - 9223372036854775808.

Abbreviation is_u8 x := (0 ≤ x < 256).
Abbreviation is_u16 x := (0 ≤ x < 65536).
Abbreviation is_u24 x := (0 ≤ x < 16777216).
Abbreviation is_u32 x := (0 ≤ x < 4294967296).
Abbreviation is_u64 x := (0 ≤ x < 18446744073709551616).

Ltac zdm := Z.div_mod_to_equations; lia.
Ltac wrap := unfold u8, u16, u32, u64, i64 in *; zdm.

Lemma u8_small x : is_u8 x → u8 x = x.
Proof. apply Z.mod_small. Qed.
Lemma u16_small x : is_u16 x → u16 x = x.
Proof. apply Z.mod_small. Qed.
Lemma u32_small x : is_u32 x → u32 x = x.
Proof. apply Z.mod_small. Qed.
Lemma u8_range x : is_u8 (u8 x).
Proof. apply Z.mod_pos_bound. lia. Qed.
Lemma u16_range x : is_u16 (u16 x).
Proof. apply Z.mod_pos_bound. lia. Qed.
Lemma u32_range x : is_u32 (u32 x).
Proof. apply Z.mod_pos_bound. lia. Qed.

(** ** Byte strings and Go slices *)

Abbreviation len l := (Z.of_nat (length l)).

Definition is_bytes (b : list Z) : Prop := Forall (λ x, is_u8 x) b.

Definition go_index {A} (b : list A) (i : Z) : outcome A :=
  if 0 <=? i then match b !! Z.to_nat i with Some x => Ret x | None => Panic end
  else Panic.

(** [b[i:j]], on slices whose capacity is their length. *)
Definition go_slice {A} (b : list A) (i j : Z) : outcome (list A) :=
  if (0 <=? i) && (i <=? j) && (j <=? len b)
  then Ret (take (Z.to_nat (j - i)) (drop (Z.to_nat i) b)) else Panic.

(** [b[i:]] *)
Definition go_from {A} (b : list A) (i : Z) : outcome (list A) :=
  if (0 <=? i) && (i <=? len b) then Ret (drop (Z.to_nat i) b) else Panic.

(** [b[i] = v] *)
Definition go_set {A} (b : list A) (i : Z) (v : A) : outcome (list A) :=
  if (0 <=? i) && (i <? len b) then Ret (<[Z.to_nat i := v]> b) else Panic.

(** [f(b[i:])] for an [f] that writes through its slice argument. *)
Definition go_upd_from (b : list Z) (i : Z) (f : list Z → outcome (list Z))
    : outcome (list Z) :=
  s ← go_from b i; s' ← f s; Ret (take (Z.to_nat i) b ++ s').

(** [copy(dst, src)] *)
Definition go_copy {A} (dst src : list A) : list A :=
  take (length dst) src ++ drop (length src) dst.

(** [copy(b[i:], src)] *)
Definition go_copy_at (b : list Z) (i : Z) (src : list Z) : outcome (list Z) :=
  go_upd_from b i (λ s, Ret (go_copy s src)).

(** [make([]byte, n)] for [n >= 0] *)
Definition go_make (n : Z) : list Z := replicate (Z.to_nat n) 0.

(** [make([]byte, n)]: a negative size panics. *)
Definition go_make_checked (n : Z) : outcome (list Z) :=
  if n <? 0 then Panic else Ret (go_make n).

(** [io.ReadAtLeast(reader, buf[:n], n)] and [io.ReadFull] on the bytes still
    to come; a short stream is an end of file, unexpected after the first byte. *)
Definition read (n : Z) (input : list Z) : outcome (list Z * list Z) :=
  if n <=? len input then Ret (take (Z.to_nat n) input, drop (Z.to_nat n) input)
  else match input with [] => Fail EOF | _ => Fail UnexpectedEOF end.

(** A Go string constant as its bytes. *)
Definition str (s : String.string) : list Z :=
  map (λ a, Z.of_N (Ascii.N_of_ascii a)) (String.list_ascii_of_string s).

(** ** Big-endian numbers *)

Fixpoint be_bytes (n : nat) (v : Z) : list Z :=
  match n with
  | O => []
  | S n => (v / 256 ^ Z.of_nat n) mod 256 :: be_bytes n v
  end.

Definition be_val (b : list Z) : Z := foldl (λ a x, a * 256 + x) 0 b.

Definition le_bytes (n : nat) (v : Z) : list Z := reverse (be_bytes n v).
Definition le_val (b : list Z) : Z := be_val (reverse b).

Arguments be_bytes : simpl never.
Arguments be_val : simpl never.
Arguments go_make : simpl never.
#[global] Arguments Z.mul : simpl never.
#[global] Arguments Z.add : simpl never.

(** ** Lemmas on bytes and big-endian numbers *)

Lemma is_bytes_app b c : is_bytes (b ++ c) ↔ is_bytes b ∧ is_bytes c.
Proof. apply Forall_app. Qed.
Lemma is_bytes_cons x b : is_bytes (x :: b) ↔ is_u8 x ∧ is_bytes b.
Proof. apply List.Forall_cons_iff. Qed.
Lemma is_bytes_nil : is_bytes [].
Proof. constructor. Qed.
Lemma is_bytes_take n b : is_bytes b → is_bytes (take n b).
Proof. apply Forall_take. Qed.
Lemma is_bytes_drop n b : is_bytes b → is_bytes (drop n b).
Proof. apply Forall_drop. Qed.
Lemma is_bytes_make n : is_bytes (go_make n).
Proof. apply Forall_replicate. lia. Qed.

Lemma be_bytes_length n v : length (be_bytes n v) = n.
Proof. unfold be_bytes. induction n; simpl; auto. Qed.

Lemma be_bytes_S n v :
  be_bytes (S n) v = (v / 256 ^ Z.of_nat n) mod 256 :: be_bytes n v.
Proof. reflexivity. Qed.

Lemma is_bytes_be_bytes n v : is_bytes (be_bytes n v).
Proof.
  induction n as [|n IH]; [constructor|]. rewrite be_bytes_S.
  constructor; [apply Z.mod_pos_bound; lia | done].
Qed.

Lemma be_val_app b c : be_val (b ++ c) = be_val b * 256 ^ len c + be_val c.
Proof.
  assert (H : ∀ l a, foldl (λ a x, a * 256 + x) a l = a * 256 ^ len l + be_val l).
  { unfold be_val. induction l as [|x l IH]; intros a; simpl foldl.
    - change (len (@nil Z)) with 0. rewrite Z.pow_0_r. lia.
    - rewrite IH, (IH (0 * 256 + x)). cbn [length].
      rewrite Nat2Z.inj_succ, Z.pow_succ_r by lia. ring. }
  unfold be_val at 1. rewrite foldl_app. apply H.
Qed.

Lemma be_val_cons x b : be_val (x :: b) = x * 256 ^ len b + be_val b.
Proof. change (x :: b) with ([x] ++ b). by rewrite be_val_app. Qed.

Lemma be_val_nil : be_val [] = 0.
Proof. reflexivity. Qed.

Lemma be_val_range b : is_bytes b → 0 ≤ be_val b < 256 ^ len b.
Proof.
  induction 1 as [|x b Hx Hb IH]; [simpl; rewrite be_val_nil; lia|].
  rewrite be_val_cons. cbn [length]. rewrite Nat2Z.inj_succ, Z.pow_succ_r by lia. nia.
Qed.

Lemma be_val_be_bytes n v : be_val (be_bytes n v) = v mod 256 ^ Z.of_nat n.
Proof.
  induction n as [|n IH];
    [change (be_bytes 0 v) with (@nil Z); simpl; by rewrite be_val_nil, Z.mod_1_r|].
  rewrite be_bytes_S, be_val_cons, be_bytes_length, IH, Nat2Z.inj_succ, Z.pow_succ_r by lia.
  rewrite (Z.mul_comm 256), Z.rem_mul_r by lia. ring.
Qed.

Lemma be_bytes_mod n v : be_bytes n (v mod 256 ^ Z.of_nat n) = be_bytes n v.
Proof.
  assert (H : ∀ k, (k ≤ n)%nat → be_bytes k (v mod 256 ^ Z.of_nat n) = be_bytes k v).
  { induction k as [|k IH]; intros Hk; [done|].
    rewrite !be_bytes_S, IH by lia. f_equal.
    replace (Z.of_nat n) with (Z.of_nat k + Z.succ (Z.of_nat (n - S k))) by lia.
    rewrite Z.pow_add_r, Z.pow_succ_r by lia.
    rewrite Z.rem_mul_r by lia.
    rewrite (Z.mul_comm (256 ^ Z.of_nat k)), Z.div_add by lia.
    rewrite (Z.div_small (v mod _)) by (apply Z.mod_pos_bound; lia).
    rewrite Z.add_0_l, Z.rem_mul_r by lia.
    rewrite (Z.mul_comm 256), Z.mod_add by lia. apply Z.mod_mod. lia. }
  by apply H.
Qed.

Lemma be_bytes_be_val b : is_bytes b → be_bytes (length b) (be_val b) = b.
Proof.
  induction 1 as [|x b Hx Hb IH]; [done|].
  cbn [length]. rewrite be_bytes_S, be_val_cons. f_equal.
  - rewrite Z.div_add_l by lia. rewrite (Z.div_small (be_val b)) by by apply be_val_range.
    rewrite Z.add_0_r. by apply Z.mod_small.
  - rewrite <- be_bytes_mod, Z.add_comm, Z.mod_add by lia.
    rewrite be_bytes_mod. done.
Qed.

Lemma be_val_be_bytes_small n v :
  0 ≤ v < 256 ^ Z.of_nat n → be_val (be_bytes n v) = v.
Proof. intros. rewrite be_val_be_bytes. by apply Z.mod_small. Qed.

Lemma le_bytes_length n v : length (le_bytes n v) = n.
Proof. unfold le_bytes. by rewrite length_reverse, be_bytes_length. Qed.

Lemma is_bytes_reverse b : is_bytes (reverse b) ↔ is_bytes b.
Proof. apply Forall_reverse. Qed.

Lemma is_bytes_le_bytes n v : is_bytes (le_bytes n v).
Proof. apply is_bytes_reverse, is_bytes_be_bytes. Qed.

Lemma le_val_le_bytes n v : le_val (le_bytes n v) = v mod 256 ^ Z.of_nat n.
Proof. unfold le_val, le_bytes. by rewrite reverse_involutive, be_val_be_bytes. Qed.

(** ** Lemmas on slices, and the [go] hint database *)

Lemma length_go_make n : length (go_make n) = Z.to_nat n.
Proof. apply length_replicate. Qed.

Lemma length_go_copy {A} (dst src : list A) : length (go_copy dst src) = length dst.
Proof. unfold go_copy. rewrite length_app, length_take, length_drop. lia. Qed.

Create Rewrite HintDb len.
#[export] Hint Rewrite @length_app @length_take @length_drop @length_insert @length_replicate
  @length_reverse @length_fmap @length_go_copy be_bytes_length le_bytes_length length_go_make
  @length_cons @length_nil : len.

(** Solves goals about lengths of byte strings. *)
Ltac len_lia :=
  cbn [length app] in *; autorewrite with len in *; lia.

Lemma go_index_Ret {A} (b : list A) i x :
  0 ≤ i → b !! Z.to_nat i = Some x → go_index b i = Ret x.
Proof. intros Hi Hx. unfold go_index. rewrite (proj2 (Z.leb_le _ _) Hi). by rewrite Hx. Qed.

Lemma go_index_range {A} (b : list A) i :
  0 ≤ i < len b → ∃ x, go_index b i = Ret x ∧ b !! Z.to_nat i = Some x.
Proof.
  intros Hi. destruct (lookup_lt_is_Some_2 b (Z.to_nat i)) as [x Hx]; [lia|].
  exists x. split; [apply go_index_Ret; [lia | done] | done].
Qed.

Lemma go_index_Panic {A} (b : list A) i : ¬ (0 ≤ i < len b) → go_index b i = Panic.
Proof.
  intros Hi. unfold go_index. destruct (Z.leb_spec 0 i); [|done].
  by rewrite lookup_ge_None_2 by lia.
Qed.

Lemma go_index_bytes b i x : is_bytes b → go_index b i = Ret x → is_u8 x.
Proof.
  unfold go_index. destruct (0 <=? i); [|done].
  destruct (b !! Z.to_nat i) eqn:E; [|done]. intros Hb [= ->].
  eapply Forall_lookup_1 in Hb; eauto.
Qed.

Lemma go_slice_Ret {A} (b : list A) i j :
  0 ≤ i ≤ j → j ≤ len b → go_slice b i j = Ret (take (Z.to_nat (j - i)) (drop (Z.to_nat i) b)).
Proof.
  intros. unfold go_slice.
  by rewrite !(proj2 (Z.leb_le _ _)) by lia.
Qed.

Lemma go_slice_Panic {A} (b : list A) i j :
  ¬ (0 ≤ i ≤ j ∧ j ≤ len b) → go_slice b i j = Panic.
Proof.
  intros H. unfold go_slice.
  destruct (Z.leb_spec 0 i), (Z.leb_spec i j), (Z.leb_spec j (len b)); simpl; auto; lia.
Qed.

Lemma go_from_Ret {A} (b : list A) i :
  0 ≤ i ≤ len b → go_from b i = Ret (drop (Z.to_nat i) b).
Proof. intros. unfold go_from. by rewrite !(proj2 (Z.leb_le _ _)) by lia. Qed.

Lemma go_from_Panic {A} (b : list A) i : ¬ (0 ≤ i ≤ len b) → go_from b i = Panic.
Proof.
  intros H. unfold go_from. destruct (Z.leb_spec 0 i), (Z.leb_spec i (len b)); simpl; auto; lia.
Qed.

Lemma go_set_Ret {A} (b : list A) i v :
  0 ≤ i < len b → go_set b i v = Ret (<[Z.to_nat i := v]> b).
Proof.
  intros. unfold go_set.
  by rewrite (proj2 (Z.leb_le _ _)), (proj2 (Z.ltb_lt _ _)) by lia.
Qed.

Lemma go_upd_from_Ret b i f s :
  0 ≤ i ≤ len b → f (drop (Z.to_nat i) b) = Ret s →
  go_upd_from b i f = Ret (take (Z.to_nat i) b ++ s).
Proof. intros Hi Hf. unfold go_upd_from. rewrite go_from_Ret by lia. simpl. by rewrite Hf. Qed.

(** Reading and writing a buffer that is split where the offset points. *)
Lemma go_index_app {A} (b c : list A) i x :
  i = len b → go_index (b ++ x :: c) i = Ret x.
Proof. intros ->. apply go_index_Ret; [lia|]. rewrite Nat2Z.id. by apply list_lookup_middle. Qed.

Lemma go_from_app {A} (b c : list A) i : i = len b → go_from (b ++ c) i = Ret c.
Proof.
  intros ->. rewrite go_from_Ret by len_lia. by rewrite Nat2Z.id, drop_app_length.
Qed.

Lemma go_slice_app {A} (b c d : list A) i j :
  i = len b → j = len b + len c → go_slice (b ++ c ++ d) i j = Ret c.
Proof.
  intros -> ->. rewrite go_slice_Ret by len_lia.
  rewrite Nat2Z.id, drop_app_length. f_equal. apply take_app_length'. lia.
Qed.

Lemma go_slice_app_end {A} (b c : list A) i j :
  i = len b → j = len b + len c → go_slice (b ++ c) i j = Ret c.
Proof. intros. rewrite <- (app_nil_r (b ++ c)), <- app_assoc. by apply go_slice_app. Qed.

Lemma go_set_app {A} (b c : list A) i x v :
  i = len b → go_set (b ++ x :: c) i v = Ret (b ++ v :: c).
Proof.
  intros ->. rewrite go_set_Ret by len_lia. rewrite Nat2Z.id.
  f_equal. rewrite insert_app_r_alt by lia. by rewrite Nat.sub_diag.
Qed.

Lemma go_upd_from_app b c d i f :
  i = len b → f c = Ret d → go_upd_from (b ++ c) i f = Ret (b ++ d).
Proof.
  intros -> Hf. rewrite (go_upd_from_Ret _ _ _ d).
  - by rewrite Nat2Z.id, take_app_length.
  - len_lia.
  - by rewrite Nat2Z.id, drop_app_length.
Qed.

Lemma go_copy_full {A} (dst src : list A) :
  length dst = length src → go_copy dst src = src.
Proof.
  intros H. unfold go_copy. rewrite take_ge, drop_ge by lia. apply app_nil_r.
Qed.

Lemma go_copy_prefix {A} (d1 d2 src : list A) :
  length d1 = length src → go_copy (d1 ++ d2) src = src ++ d2.
Proof.
  intros H. unfold go_copy. rewrite take_ge by len_lia. by rewrite drop_app_length'.
Qed.

Lemma go_copy_at_app b c d i src :
  i = len b → length c = length src →
  go_copy_at (b ++ c ++ d) i src = Ret (b ++ src ++ d).
Proof.
  intros Hi Hc. unfold go_copy_at. apply go_upd_from_app; [done|].
  by rewrite go_copy_prefix.
Qed.

Lemma go_make_add m n : 0 ≤ m → 0 ≤ n → go_make (m + n) = go_make m ++ go_make n.
Proof. intros. unfold go_make. rewrite Z2Nat.inj_add by lia. apply replicate_add. Qed.

Lemma go_make_S n : 0 < n → go_make n = 0 :: go_make (n - 1).
Proof.
  intros. unfold go_make. replace (Z.to_nat n) with (S (Z.to_nat (n - 1))) by lia. done.
Qed.

(** Case analysis over a finite range, for bit-field identities. *)
Definition for_range (n : Z) (P : Z → bool) : bool := forallb P (seqZ 0 n).

Lemma for_range_spec n P : for_range n P = true → ∀ x, 0 ≤ x < n → P x = true.
Proof.
  intros H x Hx. unfold for_range in H. rewrite forallb_forall in H. apply H.
  apply list_elem_of_In, elem_of_seqZ. lia.
Qed.

(** Case analysis over the 256 byte values. *)
Lemma all_bytes_spec (P : Z → bool) :
  for_range 256 P = true → ∀ b, is_u8 b → P b = true.
Proof. apply for_range_spec. Qed.

(** Bit operations as arithmetic. *)
Lemma land_mask x n : 0 ≤ n → Z.land x (2 ^ n - 1) = x mod 2 ^ n.
Proof. intros. rewrite <- Z.land_ones by done. f_equal. rewrite Z.ones_equiv. lia. Qed.

Lemma lor_disjoint a b n :
  0 ≤ n → 0 ≤ b < 2 ^ n → Z.lor (a * 2 ^ n) b = a * 2 ^ n + b.
Proof.
  intros Hn Hb. rewrite <- Z.shiftl_mul_pow2 by done. apply Z.bits_inj'. intros i Hi.
  rewrite Z.lor_spec. destruct (decide (i < n)) as [Hlt|Hge].
  - rewrite Z.shiftl_spec_low, orb_false_l by done.
    rewrite <- (Z.mod_pow2_bits_low (_ + _) n i) by done.
    rewrite Z.shiftl_mul_pow2, (Z.add_comm _ b), Z.mod_add by lia.
    by rewrite Z.mod_small.
  - assert (Hb' : Z.testbit b i = false).
    { rewrite <- (Z.mod_small b (2 ^ n)) by done. apply Z.mod_pow2_bits_high. lia. }
    rewrite Hb', orb_false_r, Z.shiftl_spec by done.
    rewrite (Z.shiftl_mul_pow2 a n), (Z.add_comm _ b) by lia.
    replace i with ((i - n) + n) at 2 by lia.
    rewrite <- Z.shiftr_spec by lia.
    rewrite Z.shiftr_div_pow2, Z.div_add, Z.div_small by lia. by rewrite Z.add_0_l.
Qed.

(** ** Walking through a buffer

    Rules that move an access past a known prefix, so that a parser can be run
    symbolically on a concatenation and a packer on a fresh buffer.  [go_run]
    applies them to the first access of the goal. *)

Lemma go_index_app_r {A} (a c : list A) i :
  len a ≤ i → go_index (a ++ c) i = go_index c (i - len a).
Proof.
  intros H. unfold go_index. rewrite !(proj2 (Z.leb_le _ _)) by lia.
  rewrite lookup_app_r by lia.
  by replace (Z.to_nat i - length a)%nat with (Z.to_nat (i - len a)) by lia.
Qed.
Lemma go_index_app_l {A} (a c : list A) i : i < len a → go_index (a ++ c) i = go_index a i.
Proof.
  intros H. unfold go_index. destruct (Z.leb_spec 0 i); [|done]. by rewrite lookup_app_l by lia.
Qed.
Lemma go_index_cons_r {A} (x : A) c i : 1 ≤ i → go_index (x :: c) i = go_index c (i - 1).
Proof. intros H. by apply (go_index_app_r [x]). Qed.
Lemma go_index_head {A} (x : A) c i : i = 0 → go_index (x :: c) i = Ret x.
Proof. by intros ->. Qed.

Lemma go_from_app_r {A} (a c : list A) i :
  len a ≤ i → go_from (a ++ c) i = go_from c (i - len a).
Proof.
  intros H. unfold go_from. rewrite length_app, Nat2Z.inj_add.
  rewrite !(proj2 (Z.leb_le 0 _)) by lia. simpl.
  replace (i - len a <=? len c) with (i <=? len a + len c)
    by (destruct (Z.leb_spec i (len a + len c)), (Z.leb_spec (i - len a) (len c)); lia).
  rewrite drop_app_ge by lia. destruct (_ <=? _); [|done]. do 2 f_equal. lia.
Qed.
Lemma go_from_cons_r {A} (x : A) c i : 1 ≤ i → go_from (x :: c) i = go_from c (i - 1).
Proof. intros H. by apply (go_from_app_r [x]). Qed.
Lemma go_from_head {A} (c : list A) i : i = 0 → go_from c i = Ret c.
Proof. intros ->. rewrite go_from_Ret by lia. done. Qed.

Lemma go_slice_app_r {A} (a c : list A) i j :
  len a ≤ i → go_slice (a ++ c) i j = go_slice c (i - len a) (j - len a).
Proof.
  intros H. destruct (decide (i ≤ j ∧ j ≤ len a + len c)).
  - rewrite !go_slice_Ret by len_lia. rewrite drop_app_ge by lia. f_equal.
    f_equal; [lia|]. f_equal. lia.
  - rewrite !go_slice_Panic by len_lia. done.
Qed.
Lemma go_slice_cons_r {A} (x : A) c i j :
  1 ≤ i → go_slice (x :: c) i j = go_slice c (i - 1) (j - 1).
Proof. intros H. by apply (go_slice_app_r [x]). Qed.
Lemma go_slice_head {A} (c d : list A) i j :
  i = 0 → j = len c → go_slice (c ++ d) i j = Ret c.
Proof. intros -> ->. by apply (go_slice_app []). Qed.
Lemma go_slice_all {A} (c : list A) i j : i = 0 → j = len c → go_slice c i j = Ret c.
Proof. intros -> ->. by apply (go_slice_app_end []). Qed.

Lemma go_set_app_r {A} (a c : list A) i v :
  len a ≤ i → go_set (a ++ c) i v = (c ← go_set c (i - len a) v; Ret (a ++ c)).
Proof.
  intros H. unfold go_set. rewrite length_app, Nat2Z.inj_add.
  rewrite !(proj2 (Z.leb_le 0 _)) by lia. simpl.
  replace (i - len a <? len c) with (i <? len a + len c)
    by (destruct (Z.ltb_spec i (len a + len c)), (Z.ltb_spec (i - len a) (len c)); lia).
  destruct (_ <? _); [|done]. simpl. rewrite insert_app_r_alt by lia.
  do 3 f_equal. lia.
Qed.
Lemma go_set_cons_r {A} (x : A) c i v :
  1 ≤ i → go_set (x :: c) i v = (c ← go_set c (i - 1) v; Ret (x :: c)).
Proof. intros H. by apply (go_set_app_r [x]). Qed.
Lemma go_set_head {A} (x : A) c i v : i = 0 → go_set (x :: c) i v = Ret (v :: c).
Proof. intros ->. rewrite go_set_Ret by len_lia. done. Qed.
Lemma go_set_make n i v : i = 0 → 0 < n → go_set (go_make n) i v = Ret (v :: go_make (n - 1)).
Proof. intros -> Hn. rewrite go_make_S by done. by apply go_set_head. Qed.

Lemma bind_ret_r {A} (m : outcome A) : (m ≫= λ a, Ret a) = m.
Proof. by destruct m. Qed.

Lemma go_upd_from_app_r a c i f :
  len a ≤ i → go_upd_from (a ++ c) i f = (c ← go_upd_from c (i - len a) f; Ret (a ++ c)).
Proof.
  intros H. unfold go_upd_from. rewrite go_from_app_r by done.
  destruct (go_from c (i - len a)); simpl; try done. destruct (f a0); simpl; try done.
  rewrite take_app_ge, <- app_assoc by lia. do 4 f_equal. lia.
Qed.
Lemma go_upd_from_cons_r x c i f :
  1 ≤ i → go_upd_from (x :: c) i f = (c ← go_upd_from c (i - 1) f; Ret (x :: c)).
Proof. intros H. by apply (go_upd_from_app_r [x]). Qed.
Lemma go_upd_from_head c i f : i = 0 → go_upd_from c i f = f c.
Proof.
  intros ->. unfold go_upd_from. rewrite go_from_head by done. simpl. apply bind_ret_r.
Qed.

Lemma go_copy_make n src :
  len src ≤ n → go_copy (go_make n) src = src ++ go_make (n - len src).
Proof.
  intros H. rewrite <- (Z.sub_add (len src) n) at 1. rewrite Z.add_comm, go_make_add by lia.
  apply go_copy_prefix. rewrite length_go_make. lia.
Qed.

Lemma go_make_0 n : n ≤ 0 → go_make n = [].
Proof. intros. unfold go_make. by replace (Z.to_nat n) with 0%nat by lia. Qed.

Ltac walk_index :=
  repeat first [rewrite go_index_app_r by len_lia | rewrite go_index_cons_r by len_lia];
  apply go_index_head; len_lia.
Ltac walk_from :=
  repeat first [rewrite go_from_app_r by len_lia | rewrite go_from_cons_r by len_lia];
  apply go_from_head; len_lia.
Ltac walk_slice :=
  repeat first [rewrite go_slice_app_r by len_lia | rewrite go_slice_cons_r by len_lia];
  first [apply go_slice_head; len_lia | apply go_slice_all; len_lia].

(** One access of a parser. *)
Ltac go_read :=
  match goal with
  | |- context [mbind _ (go_index ?b ?i)] =>
      let H := fresh in eassert (H : go_index b i = Ret _) by walk_index;
      rewrite H, bind_Ret; clear H
  | |- context [mbind _ (go_from ?b ?i)] =>
      let H := fresh in eassert (H : go_from b i = Ret _) by walk_from;
      rewrite H, bind_Ret; clear H
  | |- context [mbind _ (go_slice ?b ?i ?j)] =>
      let H := fresh in eassert (H : go_slice b i j = Ret _) by walk_slice;
      rewrite H, bind_Ret; clear H
  end.

(** Decide an integer test by [lia]. *)
Ltac go_test :=
  rewrite ?Z.gtb_ltb, ?Z.geb_leb;
  match goal with
  | |- context [?a <? ?b] =>
      first [rewrite (proj2 (Z.ltb_lt a b)) by len_lia
            | rewrite (proj2 (Z.ltb_ge a b)) by len_lia]
  | |- context [?a <=? ?b] =>
      first [rewrite (proj2 (Z.leb_le a b)) by len_lia
            | rewrite (proj2 (Z.leb_gt a b)) by len_lia]
  | |- context [?a =? ?b] =>
      first [rewrite (proj2 (Z.eqb_eq a b)) by len_lia
            | rewrite (proj2 (Z.eqb_neq a b)) by len_lia]
  end; cbn [negb andb orb]; cbv iota.

(** One write of a packer. *)
Ltac go_write :=
  rewrite ?bind_Ret;
  first
  [ rewrite go_set_app_r by len_lia | rewrite go_set_cons_r by len_lia
  | rewrite go_set_head by len_lia | rewrite go_set_make by len_lia
  | rewrite go_upd_from_app_r by len_lia | rewrite go_upd_from_cons_r by len_lia
  | rewrite go_upd_from_head by len_lia
  | rewrite go_copy_make by len_lia ];
  rewrite ?bind_Ret.

(** Filling a fresh buffer from the left. *)
Lemma set_fill h n i v : len h = i → 1 ≤ n →
  go_set (h ++ go_make n) i v = Ret ((h ++ [v]) ++ go_make (n - 1)).
Proof.
  intros <- Hn. rewrite go_set_app_r by lia. rewrite go_set_make by lia. rewrite bind_Ret.
  by rewrite <- app_assoc.
Qed.

Lemma upd_fill h n i f bs : len h = i → len bs ≤ n →
  f (go_make (len bs) ++ go_make (n - len bs)) = Ret (bs ++ go_make (n - len bs)) →
  go_upd_from (h ++ go_make n) i f = Ret ((h ++ bs) ++ go_make (n - len bs)).
Proof.
  intros <- Hn Hf. rewrite <- app_assoc. apply go_upd_from_app; [done|]. rewrite <- Hf.
  rewrite <- go_make_add by lia. do 2 f_equal. lia.
Qed.

Lemma copy_fill h n i b : len h = i → len b ≤ n →
  go_copy_at (h ++ go_make n) i b = Ret ((h ++ b) ++ go_make (n - len b)).
Proof.
  intros Hi Hn. unfold go_copy_at. apply upd_fill; [done|done|].
  rewrite go_copy_prefix; [done|]. rewrite length_go_make. lia.
Qed.

Lemma read_app n a b : len a = n → read n (a ++ b) = Ret (a, b).
Proof.
  intros <-. unfold read. rewrite (proj2 (Z.leb_le _ _)) by len_lia.
  by rewrite Nat2Z.id, take_app_length, drop_app_length.
Qed.

(** The next step of a computation, shown total by [tac]. *)
Tactic Notation "step" tactic3(tac) := eapply total_bind; [solve [tac]|cbv beta].

(** Accesses in range are total. *)
Lemma total_index b i : is_bytes b → 0 ≤ i < len b → total (λ x, is_u8 x) (go_index b i).
Proof.
  intros Hb Hi. destruct (go_index_range b i Hi) as (x & E & _). rewrite E.
  by apply (go_index_bytes b i).
Qed.
Lemma total_from b i :
  is_bytes b → 0 ≤ i ≤ len b → total (λ s, is_bytes s ∧ len s = len b - i) (go_from b i).
Proof.
  intros Hb Hi. rewrite go_from_Ret by done. split; [by apply is_bytes_drop|len_lia].
Qed.
Lemma total_slice b i j :
  is_bytes b → 0 ≤ i ≤ j → j ≤ len b → total (λ s, is_bytes s ∧ len s = j - i) (go_slice b i j).
Proof.
  intros Hb Hi Hj. rewrite go_slice_Ret by lia.
  split; [by apply is_bytes_take, is_bytes_drop|len_lia].
Qed.

(** ** No run of a bounded loop *)

Ltac bind_inv H :=
  let a := fresh "a" in let H1 := fresh "E" in
  apply bind_Ret_inv in H as (a & H1 & H).

(** A computation built without the fuel error does not return it. *)
Lemma bind_no_fuel {A C} (m : outcome A) (f : A → outcome C) :
  m ≠ Fail OutOfFuel → (∀ a, m = Ret a → f a ≠ Fail OutOfFuel) → (m ≫= f) ≠ Fail OutOfFuel.
Proof. destruct m; simpl; intros; auto; congruence. Qed.

Lemma go_index_no_fuel {A} (b : list A) i : go_index b i ≠ Fail OutOfFuel.
Proof. unfold go_index. destruct (0 <=? i); [|done]. by destruct (b !! _). Qed.
Lemma go_from_no_fuel {A} (b : list A) i : go_from b i ≠ Fail OutOfFuel.
Proof. unfold go_from. by destruct (_ && _). Qed.
Lemma go_slice_no_fuel {A} (b : list A) i j : go_slice b i j ≠ Fail OutOfFuel.
Proof. unfold go_slice. by destruct (_ && _). Qed.
Create HintDb fuel discriminated.
#[export] Hint Resolve go_index_no_fuel go_from_no_fuel go_slice_no_fuel : fuel.

(** Walks a computation, discharging each call by a [fuel] hint. *)
Ltac no_fuel :=
  repeat first
  [ discriminate
  | solve [eauto with fuel nocore]
  | apply bind_no_fuel; [| let a := fresh in let H := fresh in intros a H; clear H; simpl]
  | progress cbv beta iota zeta
  | match goal with |- context [match ?x with _ => _ end] => destruct x end
  | done ].

Lemma no_oof {A} (m : outcome A) : (∀ e, m ≠ Fail e) → m ≠ Fail OutOfFuel.
Proof. auto. Qed.
Lemma go_set_no_fuel {A} (b : list A) i v : go_set b i v ≠ Fail OutOfFuel.
Proof. unfold go_set. by destruct (_ && _). Qed.
Lemma go_copy_at_no_fuel b i c : go_copy_at b i c ≠ Fail OutOfFuel.
Proof. unfold go_copy_at, go_upd_from. no_fuel. Qed.
Lemma go_make_checked_no_fuel n : go_make_checked n ≠ Fail OutOfFuel.
Proof. unfold go_make_checked. by destruct (_ <? _). Qed.
#[export] Hint Resolve go_set_no_fuel go_copy_at_no_fuel
  go_make_checked_no_fuel : fuel.

Lemma go_upd_from_no_fuel b i f : (∀ s, f s ≠ Fail OutOfFuel) → go_upd_from b i f ≠ Fail OutOfFuel.
Proof. intros. unfold go_upd_from. no_fuel. Qed.
#[export] Hint Resolve go_upd_from_no_fuel : fuel.

(** ** Invariants of a run

    [keeps I f]: whatever [f] does, errors and panics included, [I] holds of
    the world it leaves. *)

Definition keeps {W A} (I : W → Prop) (f : eff W A) : Prop := ∀ w, I w → I (f w).1.

Lemma keeps_bind {W A B} (I : W → Prop) (f : eff W A) (g : A → eff W B) :
  keeps I f → (∀ a, keeps I (g a)) → keeps I (f ≫= g).
Proof.
  intros Hf Hg w Hw. unfold mbind, eff_bind. specialize (Hf w Hw).
  destruct (f w) as [w' [a|e|]]; [by apply Hg|done|done].
Qed.
Lemma keeps_lift {W A} (I : W → Prop) (m : outcome A) : keeps I (lift m).
Proof. by intros w Hw. Qed.
Lemma keeps_ret {W A} (I : W → Prop) (a : A) : keeps I (mret a).
Proof. by intros w Hw. Qed.
