(* ===== verification/GoFloat.v ===== *)
(** * Go's float64 on the values lal computes

    IEEE-754 binary64 with round-to-nearest-even, as exact dyadic fractions.
    Infinities, NaN, signed zeros and subnormals are not modelled: the code
    only converts integers, multiplies, divides and truncates back. *)

From S2P Require Import Prelude.

(** The value [num / den], [den] a power of two. *)
Record f64 := mkF64 { num : Z; den : Z }.

#[global] Instance f64_eq_dec : EqDecision f64.
Proof. solve_decision. Defined.

(** Nearest integer to [a / d], ties to even. *)
Definition div_even (a d : Z) : Z :=
  let q := a / d in
  match Z.compare (2 * (a mod d)) d with
  | Lt => q
  | Gt => q + 1
  | Eq => if Z.even q then q else q + 1
  end.

(** [2^e] as a fraction. *)
Definition up (e : Z) : Z := 2 ^ Z.max 0 e.
Definition down (e : Z) : Z := 2 ^ Z.max 0 (- e).

(** The exponent that gives [a / d] a 53-bit significand. *)
Definition exponent (a d : Z) : Z :=
  let e := Z.log2 a - Z.log2 d - 53 in
  if a * down e <? 2 ^ 53 * (d * up e) then e else e + 1.

Definition round_pos (a d : Z) : f64 :=
  let e := exponent a d in
  mkF64 (div_even (a * down e) (d * up e) * up e) (down e).

(** The float64 nearest to [a / d], [d > 0]. *)
Definition round_f64 (a d : Z) : f64 :=
  if a =? 0 then mkF64 0 1
  else if 0 <? a then round_pos a d
  else let r := round_pos (- a) d in mkF64 (- num r) (den r).

Definition f64_of_int (x : Z) : f64 := round_f64 x 1.
Definition f64_mul (x y : f64) : f64 := round_f64 (num x * num y) (den x * den y).
Definition f64_div (x y : f64) : f64 :=
  round_f64 (Z.sgn (num y) * (num x * den y)) (den x * Z.abs (num y)).
Definition f64_add (x y : f64) : f64 :=
  round_f64 (num x * den y + num y * den x) (den x * den y).
Definition f64_trunc (x : f64) : Z := Z.quot (num x) (den x).

(** ** Lemmas *)

Lemma up_down e : 0 < up e ∧ 0 < down e.
Proof. unfold up, down. lia. Qed.

Lemma div_even_exact q d : 0 < d → div_even (q * d) d = q.
Proof.
  intros Hd. unfold div_even. rewrite Z.div_mul, Z.mod_mul by lia.
  by rewrite (proj2 (Z.compare_lt_iff _ _)) by lia.
Qed.

Lemma div_even_near a d : 0 < d → - d ≤ 2 * (div_even a d * d - a) ≤ d.
Proof.
  intros Hd. unfold div_even. pose proof (Z.div_mod a d ltac:(lia)).
  pose proof (Z.mod_pos_bound a d Hd).
  destruct (Z.compare_spec (2 * (a mod d)) d); [destruct (Z.even _)| |]; lia.
Qed.

Lemma exponent_low a d : 0 < a → 0 < d → 2 ^ 52 * (d * up (exponent a d)) ≤ a * down (exponent a d).
Proof.
  intros Ha Hd. unfold exponent. set (e := Z.log2 a - Z.log2 d - 53).
  pose proof (Z.log2_spec a Ha) as [A1 A2]. pose proof (Z.log2_spec d Hd) as [D1 D2].
  pose proof (Z.log2_nonneg a). pose proof (Z.log2_nonneg d).
  assert (E : 2 ^ Z.log2 a * down e = 2 ^ Z.log2 d * (up e * 2 ^ 53)).
  { unfold up, down. rewrite <- !Z.pow_add_r by lia. f_equal. lia. }
  destruct (up_down e). destruct (Z.ltb_spec (a * down e) (2 ^ 53 * (d * up e))).
  - rewrite Z.pow_succ_r in D2 by done.
    assert (2 ^ Z.log2 d * (up e * 2 ^ 53) ≤ a * down e) by nia.
    assert (d * up e * 2 ^ 53 < 2 * 2 ^ Z.log2 d * (up e * 2 ^ 53)) by nia. lia.
  - assert (S : up (e + 1) * down e = 2 * (up e * down (e + 1))).
    { unfold up, down. rewrite <- !Z.pow_add_r by lia.
      rewrite <- Z.pow_succ_r by lia. f_equal. lia. }
    destruct (up_down (e + 1)).
    assert (down e * (2 ^ 52 * (d * up (e + 1))) ≤ down e * (a * down (e + 1))).
    { replace (down e * (2 ^ 52 * (d * up (e + 1)))) with (2 ^ 52 * d * (up (e + 1) * down e)) by ring.
      rewrite S. replace (down e * (a * down (e + 1))) with (a * down e * down (e + 1)) by ring. nia. }
    nia.
Qed.

(** A value below [2^b], [b <= 53], has at least [53 - b] fractional bits. *)
Lemma exponent_neg a d b : 0 < a → 0 < d → a < 2 ^ b * d → 0 ≤ b ≤ 53 → exponent a d ≤ b - 53.
Proof.
  intros Ha Hd Hb Hr. pose proof (exponent_low a d Ha Hd) as H.
  destruct (Z.le_gt_cases (exponent a d) (b - 53)) as [|Hgt]; [done|exfalso].
  set (e := exponent a d) in *.
  assert (H2 : 2 ^ b * down e ≤ 2 ^ 52 * up e).
  { unfold up, down. rewrite <- !Z.pow_add_r by lia.
    apply Z.pow_le_mono_r; lia. }
  destruct (up_down e). nia.
Qed.

(** An integer below [2^53] is represented exactly. *)
Definition is_int (f : f64) (x : Z) : Prop := num f = x * den f ∧ 0 < den f.

Lemma round_int x c : 0 ≤ x < 2 ^ 53 → 0 < c → is_int (round_f64 (x * c) c) x.
Proof.
  intros Hx Hc. unfold is_int, round_f64. destruct (Z.eqb_spec (x * c) 0) as [E|].
  { assert (x = 0) as -> by nia. done. }
  rewrite (proj2 (Z.ltb_lt 0 (x * c))) by nia. unfold round_pos. cbn [num den].
  set (e := exponent _ _). destruct (up_down e) as [Hu Hd]. split; [|done].
  assert (He : e ≤ 53 - 53) by (apply exponent_neg; nia).
  assert (up e = 1) as -> by (unfold up; by rewrite Z.max_l by lia).
  rewrite !Z.mul_1_r. rewrite <- (div_even_exact (x * down e) c) by done. f_equal. ring.
Qed.

(** Truncating the rounded quotient of a value below [2^44] by [d <= 1000]
    (so the fraction part is at least [1/d] away from the next integer) is
    integer division. *)
Lemma round_trunc_div a d c :
  0 ≤ a → 0 < d ≤ 1000 → 0 < c → a < 2 ^ 44 * d → f64_trunc (round_f64 (a * c) (d * c)) = a / d.
Proof.
  intros Ha Hd Hc Hr. unfold f64_trunc, round_f64.
  destruct (Z.eqb_spec (a * c) 0) as [E|].
  { assert (a = 0) as -> by nia. by rewrite Z.div_0_l by lia. }
  rewrite (proj2 (Z.ltb_lt 0 (a * c))) by nia. unfold round_pos. cbn [num den].
  set (e := exponent _ _).
  assert (He : e ≤ 44 - 53) by (apply exponent_neg; nia).
  assert (up e = 1) as -> by (unfold up; by rewrite Z.max_l by lia).
  assert (Hk : 512 ≤ down e).
  { unfold down. rewrite Z.max_r by lia. change 512 with (2 ^ 9). apply Z.pow_le_mono_r; lia. }
  rewrite !Z.mul_1_r. pose proof (div_even_near (a * c * down e) (d * c) ltac:(nia)) as Hn.
  set (m := div_even _ _) in *. clearbody m. set (k := down e) in *. clearbody k e.
  assert (Hn' : - d ≤ 2 * (m * d - a * k) ≤ d) by nia. clear Hn.
  pose proof (Z.div_mod a d ltac:(lia)) as Hq. pose proof (Z.mod_pos_bound a d ltac:(lia)).
  set (q := a / d) in *. set (r := a mod d) in *. clearbody q r.
  assert (0 ≤ q) by nia.
  assert (q * k ≤ m) by nia. assert (m < (q + 1) * k) by nia.
  rewrite Z.quot_div_nonneg by nia. symmetry. apply (Z.div_unique m k q (m - k * q)); nia.
Qed.

Lemma f64_of_int_exact x : 0 ≤ x < 2 ^ 53 → is_int (f64_of_int x) x.
Proof. intros Hx. unfold f64_of_int. rewrite <- (Z.mul_1_r x) at 1. by apply round_int. Qed.

Lemma f64_mul_exact f g x y :
  is_int f x → is_int g y → 0 ≤ x * y < 2 ^ 53 → is_int (f64_mul f g) (x * y).
Proof.
  intros [Hf Hf0] [Hg Hg0] H. unfold f64_mul. rewrite Hf, Hg.
  replace (x * den f * (y * den g)) with (x * y * (den f * den g)) by ring.
  apply round_int; [done|nia].
Qed.

(** Dividing an integer by a small integer and truncating. *)
Lemma f64_div_trunc f g x y :
  is_int f x → is_int g y → 0 ≤ x < 2 ^ 44 * y → 0 < y ≤ 1000 →
  f64_trunc (f64_div f g) = x / y.
Proof.
  intros [Hf Hf0] [Hg Hg0] Hx Hy. unfold f64_div.
  rewrite Z.sgn_pos by nia. rewrite Z.abs_eq by nia. rewrite Hf, Hg, Z.mul_1_l.
  replace (x * den f * den g) with (x * (den f * den g)) by ring.
  replace (den f * (y * den g)) with (y * (den f * den g)) by ring.
  apply round_trunc_div; nia.
Qed.

(** Rounding does not pass an integer, so dividing by a number of at least one
    does not enlarge an integer. *)
Lemma div_even_range a d k : 0 < d → 0 ≤ a ≤ k * d → 0 ≤ div_even a d ≤ k.
Proof.
  intros Hd Ha. unfold div_even. pose proof (Z.div_mod a d ltac:(lia)). pose proof (Z.mod_pos_bound a d Hd).
  set (q := a / d) in *. set (r := a mod d) in *. clearbody q r. assert (0 ≤ q) by nia.
  assert (q < k ∨ q = k ∧ r = 0) as [|[-> ->]] by nia.
  - destruct (2 * r ?= d); [destruct (Z.even q)|..]; lia.
  - rewrite (proj2 (Z.compare_lt_iff _ _)); lia.
Qed.

Lemma round_f64_range a d x :
  0 < d → 0 ≤ a ≤ x * d → 0 ≤ x < 2 ^ 53 → 0 ≤ num (round_f64 a d) ≤ x * den (round_f64 a d) ∧ 0 < den (round_f64 a d).
Proof.
  intros Hd Ha Hx. unfold round_f64. destruct (Z.eqb_spec a 0); [cbn; lia|].
  rewrite (proj2 (Z.ltb_lt 0 a)) by lia. unfold round_pos. cbn [num den]. set (e := exponent _ _).
  destruct (up_down e) as [Hu Hdn]. split; [|done].
  assert (He : e ≤ 53 - 53) by (apply exponent_neg; nia).
  assert (up e = 1) as -> by (unfold up; by rewrite Z.max_l by lia).
  rewrite !Z.mul_1_r. apply div_even_range; nia.
Qed.

Lemma round_f64_opp a d : num (round_f64 (- a) d) = - num (round_f64 a d) ∧ den (round_f64 (- a) d) = den (round_f64 a d).
Proof.
  unfold round_f64. destruct (Z.eqb_spec a 0) as [->|]; [done|]. rewrite (proj2 (Z.eqb_neq (- a) 0)) by lia.
  destruct (Z.ltb_spec 0 a), (Z.ltb_spec 0 (- a)); try lia; cbn [num den]; by rewrite ?Z.opp_involutive.
Qed.

Lemma f64_of_int_signed x : Z.abs x < 2 ^ 53 → is_int (f64_of_int x) x.
Proof.
  intros Hx. destruct (Z.le_gt_cases 0 x); [apply f64_of_int_exact; lia|].
  destruct (f64_of_int_exact (- x) ltac:(lia)) as [H1 H2]. unfold f64_of_int in *.
  destruct (round_f64_opp (- x) 1) as [E1 E2]. rewrite Z.opp_involutive in E1, E2. unfold is_int. rewrite E1, E2. lia.
Qed.

Lemma f64_div_shrinks f s x :
  is_int f x → Z.abs x < 2 ^ 53 → 0 < den s ≤ num s →
  (0 ≤ x → 0 ≤ f64_trunc (f64_div f s) ≤ x) ∧ (x ≤ 0 → x ≤ f64_trunc (f64_div f s) ≤ 0).
Proof.
  intros [Hf Hf0] Hx Hs. unfold f64_div. rewrite Z.sgn_pos, Z.abs_eq, Z.mul_1_l, Hf by lia.
  assert (Hp : ∀ y, 0 ≤ y < 2 ^ 53 → let r := round_f64 (y * den f * den s) (den f * num s) in
    0 ≤ num r ≤ y * den r ∧ 0 < den r) by (intros y Hy; apply round_f64_range; nia).
  unfold f64_trunc. split; intros H0.
  - destruct (Hp x ltac:(lia)) as [? ?]. rewrite Z.quot_div_nonneg by lia. split; [apply Z.div_pos; lia|].
    apply Z.div_le_upper_bound; lia.
  - destruct (Hp (- x) ltac:(lia)) as [H1 H2]. destruct (round_f64_opp (- x * den f * den s) (den f * num s)) as [E1 E2].
    replace (- (- x * den f * den s)) with (x * den f * den s) in E1, E2 by ring.
    set (r := round_f64 (- x * den f * den s) _) in *. rewrite E1, E2, Z.quot_opp_l, Z.quot_div_nonneg by lia.
    assert (0 ≤ num r / den r ≤ - x); [|lia]. split; [apply Z.div_pos; lia|]. apply Z.div_le_upper_bound; lia.
Qed.

Example f64_round_up : f64_of_int (2 ^ 53 + 3) = mkF64 (2 ^ 53 + 4) 1.
Proof. reflexivity. Qed.

(** ** IEEE-754 bit patterns

    A [float64] that only travels (AMF numbers) is its 64-bit pattern. *)

(** [float64(x)] for an [int]; rounding up to the next power of two carries
    into the exponent field. *)
Definition bits_of_pos (x : Z) : Z :=
  let e := Z.log2 x in
  let m := if e <=? 52 then x * 2 ^ (52 - e) else div_even x (2 ^ (e - 52)) in
  (e + 1023) * 2 ^ 52 + (m - 2 ^ 52).
Definition float64_of_int (x : Z) : Z :=
  if x =? 0 then 0 else if 0 <? x then bits_of_pos x else 2 ^ 63 + bits_of_pos (- x).

(** [int(f)]: truncation; a value outside [int] (implementation-specific in
    Go) gives the smallest integer, as on amd64. *)
Definition int_of_float64 (bits : Z) : Z :=
  let e := (bits / 2 ^ 52) mod 2 ^ 11 in
  let m := bits mod 2 ^ 52 + 2 ^ 52 in
  let mag := if e <? 1023 then 0 else if e <? 1075 then m / 2 ^ (1075 - e) else m * 2 ^ (e - 1075) in
  if e =? 2047 then - 2 ^ 63
  else let v := if bits <? 2 ^ 63 then mag else - mag in
       if (- 2 ^ 63 <=? v) && (v <? 2 ^ 63) then v else - 2 ^ 63.

Lemma bits_of_pos_range x : 0 < x < 2 ^ 53 →
  0 ≤ bits_of_pos x < 2 ^ 63 ∧ int_of_float64 (bits_of_pos x) = x ∧
  int_of_float64 (2 ^ 63 + bits_of_pos x) = - x.
Proof.
  intros Hx. unfold bits_of_pos. pose proof (Z.log2_spec x ltac:(lia)) as [L1 L2].
  pose proof (Z.log2_nonneg x). set (e := Z.log2 x) in *.
  assert (He : e ≤ 52).
  { apply Z.lt_succ_r. change (Z.succ 52) with 53. apply Z.log2_lt_pow2; lia. }
  rewrite (proj2 (Z.leb_le e 52)) by done.
  set (p := 2 ^ (52 - e)). assert (Hp : 0 < p) by (unfold p; lia).
  assert (E1 : 2 ^ e * p = 2 ^ 52).
  { unfold p. rewrite <- Z.pow_add_r by lia. f_equal. lia. }
  assert (E2 : 2 ^ Z.succ e = 2 * 2 ^ e) by (apply Z.pow_succ_r; lia).
  set (r := x * p - 2 ^ 52). assert (Hr : 0 ≤ r < 2 ^ 52) by (unfold r; nia).
  set (b := (e + 1023) * 2 ^ 52 + r).
  assert (Hb : 0 ≤ b < 2 ^ 63) by (unfold b; lia).
  assert (Hdec : ∀ s, s = 0 ∨ s = 1 →
    (s * 2 ^ 63 + b) / 2 ^ 52 = s * 2 ^ 11 + e + 1023 ∧ (s * 2 ^ 63 + b) mod 2 ^ 52 = r).
  { intros s Hs. split; symmetry;
      [apply (Z.div_unique _ _ _ r)|apply (Z.mod_unique _ _ (s * 2 ^ 11 + e + 1023))]; unfold b; lia. }
  assert (Hmag : (if e + 1023 <? 1023 then 0 else if e + 1023 <? 1075
                  then (r + 2 ^ 52) / 2 ^ (1075 - (e + 1023))
                  else (r + 2 ^ 52) * 2 ^ (e + 1023 - 1075)) = x).
  { rewrite (proj2 (Z.ltb_ge (e + 1023) 1023)) by lia.
    replace (r + 2 ^ 52) with (x * p) by (unfold r; lia). destruct (Z.ltb_spec (e + 1023) 1075).
    - replace (1075 - (e + 1023)) with (52 - e) by lia. by rewrite Z.div_mul by lia.
    - assert (e = 52) as He2 by lia. unfold p. rewrite He2. change (2 ^ (52 - 52)) with 1.
      change (2 ^ (52 + 1023 - 1075)) with 1. lia. }
  assert (Hint : ∀ s, s = 0 ∨ s = 1 → int_of_float64 (s * 2 ^ 63 + b) = if s =? 0 then x else - x).
  { intros s Hs. destruct (Hdec s Hs) as [D1 D2]. unfold int_of_float64. cbv zeta. rewrite D1, D2.
    replace ((s * 2 ^ 11 + e + 1023) mod 2 ^ 11) with (e + 1023)
      by (apply (Z.mod_unique _ _ s); lia).
    rewrite Hmag, (proj2 (Z.eqb_neq (e + 1023) 2047)) by lia.
    destruct Hs as [-> | ->]; cbn [Z.eqb].
    - rewrite (proj2 (Z.ltb_lt (0 * 2 ^ 63 + b) (2 ^ 63))) by lia.
      by rewrite (proj2 (Z.leb_le _ _)), (proj2 (Z.ltb_lt _ _)) by lia.
    - rewrite (proj2 (Z.ltb_ge (1 * 2 ^ 63 + b) (2 ^ 63))) by lia.
      by rewrite (proj2 (Z.leb_le _ _)), (proj2 (Z.ltb_lt _ _)) by lia. }
  split; [done|]. split.
  - pose proof (Hint 0 ltac:(auto)) as E. exact E.
  - pose proof (Hint 1 ltac:(auto)) as E. rewrite Z.mul_1_l in E. exact E.
Qed.

(** Integers up to 2^53 survive the trip through a float64. *)
Lemma float64_of_int_roundtrip x :
  Z.abs x < 2 ^ 53 → is_u64 (float64_of_int x) ∧ int_of_float64 (float64_of_int x) = x.
Proof.
  intros Hx. unfold float64_of_int. destruct (Z.eqb_spec x 0) as [->|]; [by split|].
  destruct (Z.ltb_spec 0 x).
  - destruct (bits_of_pos_range x ltac:(lia)) as (H1 & H2 & _). split; [lia|done].
  - destruct (bits_of_pos_range (- x) ltac:(lia)) as (H1 & _ & H2). split; [lia|]. rewrite H2. lia.
Qed.
