(* ===== verification/Naza.v ===== *)
(** * Interfaces of the naza library

    lal calls the naza utility library (module github.com/q191201771/naza, not
    part of the repository) for big/little-endian access ([bele]), growable
    buffers ([nazabytes.Buffer]) and bounded queues ([circularqueue]).  Each is
    a class of operations with a class of laws stating the documented
    behaviour on the inputs lal relies on; nothing is assumed about calls
    outside those laws (short buffers, oversized values).  One concrete
    instance per class is given, used by the witnesses. *)

From S2P Require Import Prelude.

(** ** bele *)

Create Rewrite HintDb naza.

Class Bele := {
  BeUint16 : list Z → outcome Z;
  BeUint24 : list Z → outcome Z;
  BeUint32 : list Z → outcome Z;
  LeUint32 : list Z → outcome Z;
  BePutUint16 : Z → list Z → outcome (list Z);
  BePutUint24 : Z → list Z → outcome (list Z);
  BePutUint32 : Z → list Z → outcome (list Z);
  LePutUint32 : Z → list Z → outcome (list Z);
}.

(** A read of an [n]-byte prefix, a write of an [n]-byte prefix. *)
Definition reads (n : nat) (val : list Z → Z) (f : list Z → outcome Z) : Prop :=
  ∀ h t, length h = n → is_bytes h → f (h ++ t) = Ret (val h).
Definition writes (n : nat) (enc : Z → list Z) (f : Z → list Z → outcome (list Z)) : Prop :=
  ∀ v h t, length h = n → 0 ≤ v < 256 ^ Z.of_nat n → f v (h ++ t) = Ret (enc v ++ t).

Class BeleLaws (B : Bele) : Prop := {
  BeUint16_reads : reads 2 be_val BeUint16;
  BeUint24_reads : reads 3 be_val BeUint24;
  BeUint32_reads : reads 4 be_val BeUint32;
  LeUint32_reads : reads 4 le_val LeUint32;
  BePutUint16_writes : writes 2 (be_bytes 2) BePutUint16;
  BePutUint24_writes : writes 3 (be_bytes 3) BePutUint24;
  BePutUint32_writes : writes 4 (be_bytes 4) BePutUint32;
  LePutUint32_writes : writes 4 (le_bytes 4) LePutUint32;
  (* no result of type error: a call returns or panics *)
  BeUint16_no_error b e : BeUint16 b ≠ Fail e;
  BeUint32_no_error b e : BeUint32 b ≠ Fail e;
  BePutUint16_no_error v b e : BePutUint16 v b ≠ Fail e;
  BePutUint24_no_error v b e : BePutUint24 v b ≠ Fail e;
  BePutUint32_no_error v b e : BePutUint32 v b ≠ Fail e;
}.

Lemma prefix_split (n : nat) (b : list Z) :
  (n ≤ length b)%nat → ∃ h t, b = h ++ t ∧ length h = n ∧ h = take n b ∧ t = drop n b.
Proof.
  intros H. exists (take n b), (drop n b). rewrite take_drop, length_take.
  repeat split; try done. lia.
Qed.

Section BeleFacts.
Context {B : Bele} {HB : BeleLaws B}.

Lemma BeUint16_be v t : is_u16 v → BeUint16 (be_bytes 2 v ++ t) = Ret v.
Proof.
  intros. rewrite (BeUint16_reads _ t (be_bytes_length 2 v) (is_bytes_be_bytes 2 v)).
  by rewrite be_val_be_bytes_small.
Qed.
Lemma BeUint24_be v t : is_u24 v → BeUint24 (be_bytes 3 v ++ t) = Ret v.
Proof.
  intros. rewrite (BeUint24_reads _ t (be_bytes_length 3 v) (is_bytes_be_bytes 3 v)).
  by rewrite be_val_be_bytes_small.
Qed.
Lemma BeUint32_be v t : is_u32 v → BeUint32 (be_bytes 4 v ++ t) = Ret v.
Proof.
  intros. rewrite (BeUint32_reads _ t (be_bytes_length 4 v) (is_bytes_be_bytes 4 v)).
  by rewrite be_val_be_bytes_small.
Qed.
Lemma LeUint32_le v t : is_u32 v → LeUint32 (le_bytes 4 v ++ t) = Ret v.
Proof.
  intros. rewrite (LeUint32_reads _ t (le_bytes_length 4 v)).
  - rewrite le_val_le_bytes. by rewrite Z.mod_small.
  - apply is_bytes_reverse, is_bytes_be_bytes.
Qed.

Lemma BeUint16_no_fuel b : BeUint16 b ≠ Fail OutOfFuel.
Proof. apply no_oof, BeUint16_no_error. Qed.
Lemma BeUint32_no_fuel b : BeUint32 b ≠ Fail OutOfFuel.
Proof. apply no_oof, BeUint32_no_error. Qed.
Lemma BePutUint16_no_fuel v b : BePutUint16 v b ≠ Fail OutOfFuel.
Proof. apply no_oof, BePutUint16_no_error. Qed.
Lemma BePutUint24_no_fuel v b : BePutUint24 v b ≠ Fail OutOfFuel.
Proof. apply no_oof, BePutUint24_no_error. Qed.
Lemma BePutUint32_no_fuel v b : BePutUint32 v b ≠ Fail OutOfFuel.
Proof. apply no_oof, BePutUint32_no_error. Qed.

(** Reads of long enough byte strings return a value in range. *)
Lemma reads_Ret n f b :
  reads n be_val f → is_bytes b → (n ≤ length b)%nat →
  f b = Ret (be_val (take n b)) ∧ 0 ≤ be_val (take n b) < 256 ^ Z.of_nat n.
Proof.
  intros Hf Hb Hn. destruct (prefix_split n b Hn) as (h & t & E & Hl & Eh & _).
  rewrite <- Eh. assert (is_bytes h) by (subst h; by apply is_bytes_take).
  split.
  - rewrite E. by apply Hf.
  - rewrite <- Hl. by apply be_val_range.
Qed.

Lemma BeUint16_Ret b : is_bytes b → (2 ≤ length b)%nat →
  ∃ v, BeUint16 b = Ret v ∧ is_u16 v.
Proof. intros. eexists. by apply (reads_Ret 2 _ b BeUint16_reads). Qed.
Lemma BeUint24_Ret b : is_bytes b → (3 ≤ length b)%nat →
  ∃ v, BeUint24 b = Ret v ∧ is_u24 v.
Proof. intros. eexists. by apply (reads_Ret 3 _ b BeUint24_reads). Qed.
Lemma BeUint32_Ret b : is_bytes b → (4 ≤ length b)%nat →
  ∃ v, BeUint32 b = Ret v ∧ is_u32 v.
Proof. intros. eexists. by apply (reads_Ret 4 _ b BeUint32_reads). Qed.

Lemma writes_Ret n enc f v b :
  writes n enc f → (n ≤ length b)%nat → 0 ≤ v < 256 ^ Z.of_nat n →
  f v b = Ret (enc v ++ drop n b).
Proof.
  intros Hf Hn Hv. destruct (prefix_split n b Hn) as (h & t & E & Hl & _ & Et).
  rewrite <- Et, E. by apply Hf.
Qed.

Lemma BePutUint16_Ret v b : (2 ≤ length b)%nat → is_u16 v →
  BePutUint16 v b = Ret (be_bytes 2 v ++ drop 2 b).
Proof. intros. by apply (writes_Ret 2 _ _ _ _ BePutUint16_writes). Qed.
Lemma BePutUint24_Ret v b : (3 ≤ length b)%nat → is_u24 v →
  BePutUint24 v b = Ret (be_bytes 3 v ++ drop 3 b).
Proof. intros. by apply (writes_Ret 3 _ _ _ _ BePutUint24_writes). Qed.
Lemma BePutUint32_Ret v b : (4 ≤ length b)%nat → is_u32 v →
  BePutUint32 v b = Ret (be_bytes 4 v ++ drop 4 b).
Proof. intros. by apply (writes_Ret 4 _ _ _ _ BePutUint32_writes). Qed.
Lemma LePutUint32_Ret v b : (4 ≤ length b)%nat → is_u32 v →
  LePutUint32 v b = Ret (le_bytes 4 v ++ drop 4 b).
Proof. intros. by apply (writes_Ret 4 _ _ _ _ LePutUint32_writes). Qed.
End BeleFacts.
#[export] Hint Resolve BeUint16_no_fuel BeUint32_no_fuel BePutUint16_no_fuel BePutUint24_no_fuel BePutUint32_no_fuel : fuel.

(** The concrete instance: reads and writes panic on short buffers. *)
Definition read_n (n : nat) (val : list Z → Z) (b : list Z) : outcome Z :=
  if Nat.leb n (length b) then Ret (val (take n b)) else Panic.
Definition write_n (n : nat) (enc : Z → list Z) (v : Z) (b : list Z) : outcome (list Z) :=
  if Nat.leb n (length b) then Ret (enc v ++ drop n b) else Panic.

Definition bele_impl : Bele := {|
  BeUint16 := read_n 2 be_val; BeUint24 := read_n 3 be_val;
  BeUint32 := read_n 4 be_val; LeUint32 := read_n 4 le_val;
  BePutUint16 := write_n 2 (be_bytes 2); BePutUint24 := write_n 3 (be_bytes 3);
  BePutUint32 := write_n 4 (be_bytes 4); LePutUint32 := write_n 4 (le_bytes 4);
|}.

Lemma read_n_reads n val : reads n val (read_n n val).
Proof.
  intros h t Hl Hb. unfold read_n. rewrite (proj2 (Nat.leb_le _ _)) by len_lia.
  by rewrite take_app_length'.
Qed.
Lemma write_n_writes n enc : writes n enc (write_n n enc).
Proof.
  intros v h t Hl Hv. unfold write_n. rewrite (proj2 (Nat.leb_le _ _)) by len_lia.
  by rewrite drop_app_length'.
Qed.

#[global] Instance bele_impl_laws : BeleLaws bele_impl.
Proof.
  split; first [apply read_n_reads | apply write_n_writes | idtac].
  1-2: intros b e; simpl; unfold read_n; by destruct (Nat.leb _ _).
  all: intros v b e; simpl; unfold write_n; by destruct (Nat.leb _ _).
Qed.

(** ** io.Writer, and the rest of bele

    [w_write] is the [Write] of an [io.Writer]: it returns the writer after the
    call.  [WriteBe] writes an [n]-byte big-endian number with one [Write];
    a [float64] is its bit pattern. *)

Class Writer (W : Type) := w_write : list Z → W → outcome W.

Class BeleStream := {
  WriteBe : ∀ {W} `{Writer W}, nat → Z → W → outcome W;
  BeFloat64 : list Z → outcome Z;
}.

Class BeleStreamLaws (BS : BeleStream) : Prop := {
  WriteBe_spec {W} `{Writer W} n v (w : W) :
    0 ≤ v < 256 ^ Z.of_nat n → WriteBe n v w = w_write (be_bytes n v) w;
  BeFloat64_reads : reads 8 be_val BeFloat64;
}.

Definition bele_stream_impl : BeleStream := {|
  WriteBe W Wr n v w := w_write (be_bytes n v) w;
  BeFloat64 := read_n 8 be_val;
|}.
#[global] Instance bele_stream_impl_laws : BeleStreamLaws bele_stream_impl.
Proof. split; [done|apply read_n_reads]. Qed.

(** A writer that never fails, as [bytes.Buffer] is: its content. *)
#[global] Instance bytes_writer : Writer (list Z) := λ p w, Ret (w ++ p).

(** What a writer promises its clients: a write of at most [M] bytes succeeds
    and appends to the content. *)
Class WriterLaws (W : Type) `{Writer W} (M : Z) (content : W → list Z → Prop) : Prop :=
  write_ok p w s : content w s → len p ≤ M → ∃ w', w_write p w = Ret w' ∧ content w' (s ++ p).

#[global] Instance bytes_writer_laws M : WriterLaws (list Z) M eq.
Proof. intros p w s -> _. by exists (s ++ p). Qed.

(** A computation that appends [bs] to a writer. *)
Definition appends {W} (content : W → list Z → Prop) (f : W → outcome W) (bs : list Z) : Prop :=
  ∀ w s, content w s → ∃ w', f w = Ret w' ∧ content w' (s ++ bs).

Section Appends.
Context {W} `{Writer W} {M : Z} {content : W → list Z → Prop} {HW : WriterLaws W M content}.
Context {BS : BeleStream} {HBS : BeleStreamLaws BS}.

Lemma appends_write p : len p ≤ M → appends content (w_write p) p.
Proof. intros Hp w s Hw. by apply write_ok. Qed.
Lemma appends_be n v :
  0 ≤ v < 256 ^ Z.of_nat n → Z.of_nat n ≤ M → appends content (WriteBe n v) (be_bytes n v).
Proof.
  intros Hv Hn w s Hw. rewrite WriteBe_spec by done. apply write_ok; [done|].
  by rewrite be_bytes_length.
Qed.
Lemma appends_seq f g a b :
  appends content f a → appends content g b → appends content (λ w, w ← f w; g w) (a ++ b).
Proof.
  intros Hf Hg w s Hw. destruct (Hf w s Hw) as (w1 & -> & H1).
  destruct (Hg w1 _ H1) as (w2 & E & H2). exists w2. rewrite bind_Ret, app_assoc. done.
Qed.
Lemma appends_nil : appends content (λ w, Ret w) [].
Proof. intros w s Hw. exists w. by rewrite app_nil_r. Qed.
End Appends.

(** ** Filling a fresh buffer from the left

    The buffer is what was written ([pre]) and the zeros left; each rule writes
    the next field.  [go_next] runs a packer whose offsets are sequential; what
    it leaves to prove are the ranges of the fields. *)

Lemma put_next n f enc v pre m i :
  writes n enc f → i = len pre → Z.of_nat n ≤ m → 0 ≤ v < 256 ^ Z.of_nat n →
  go_upd_from (pre ++ go_make m) i (f v) = Ret ((pre ++ enc v) ++ go_make (m - Z.of_nat n)).
Proof.
  intros Hf Hi Hm Hv. rewrite <- app_assoc. apply go_upd_from_app; [done|].
  replace (go_make m) with (go_make (Z.of_nat n) ++ go_make (m - Z.of_nat n)).
  - apply Hf; [rewrite length_go_make; lia|done].
  - rewrite <- go_make_add by lia. f_equal. lia.
Qed.

Lemma set_next {pre m i} v :
  i = len pre → 1 ≤ m → go_set (pre ++ go_make m) i v = Ret ((pre ++ [v]) ++ go_make (m - 1)).
Proof. intros -> Hm. rewrite go_make_S, <- app_assoc by lia. by apply go_set_app. Qed.

Lemma copy_next pre m i src :
  i = len pre → len src ≤ m →
  go_copy_at (pre ++ go_make m) i src = Ret ((pre ++ src) ++ go_make (m - len src)).
Proof.
  intros Hi Hm. rewrite <- app_assoc. unfold go_copy_at. apply go_upd_from_app; [done|].
  f_equal. by apply go_copy_make.
Qed.

Ltac go_next :=
  rewrite ?bind_Ret;
  lazymatch goal with
  | |- context [go_set (_ ++ go_make _) _ _] => rewrite set_next by len_lia
  | |- context [go_copy_at (_ ++ go_make _) _ _] => rewrite copy_next by len_lia
  | |- context [go_upd_from (_ ++ go_make _) _ (BePutUint16 ?v)] =>
      rewrite (put_next 2 (BePutUint16) (be_bytes 2) v _ _ _ BePutUint16_writes);
      [|len_lia|len_lia|change (256 ^ Z.of_nat 2) with 65536; try lia]
  | |- context [go_upd_from (_ ++ go_make _) _ (BePutUint24 ?v)] =>
      rewrite (put_next 3 (BePutUint24) (be_bytes 3) v _ _ _ BePutUint24_writes);
      [|len_lia|len_lia|change (256 ^ Z.of_nat 3) with 16777216; try lia]
  | |- context [go_upd_from (_ ++ go_make _) _ (BePutUint32 ?v)] =>
      rewrite (put_next 4 (BePutUint32) (be_bytes 4) v _ _ _ BePutUint32_writes);
      [|len_lia|len_lia|change (256 ^ Z.of_nat 4) with 4294967296; try lia]
  end;
  rewrite ?bind_Ret.

(** ** nazabytes.Buffer

    [bufReserve n] makes room for [n] bytes and returns the writable slice;
    the caller fills the slice and commits it with [Flush(n)].  The slice
    aliases the buffer, so the model hands its final content to [bufFlush]. *)

Class NazaBuffer := {
  buffer : Type;
  NewBuffer : Z → buffer;
  bufBytes : buffer → list Z;
  bufGrow : Z → buffer → buffer;
  bufReserve : Z → buffer → buffer * list Z;
  bufFlush : Z → list Z → buffer → buffer;
  bufWrite : list Z → buffer → buffer;
  bufSkip : Z → buffer → buffer;
  bufReset : buffer → buffer;
  bufResetAndFree : buffer → buffer;
}.

Definition bufLen {NB : NazaBuffer} (b : buffer) : Z := len (bufBytes b).

Class NazaBufferLaws (NB : NazaBuffer) : Prop := {
  bytes_new n : bufBytes (NewBuffer n) = [];
  bytes_grow n b : bufBytes (bufGrow n b) = bufBytes b;
  length_reserve n b : 0 ≤ n → len (snd (bufReserve n b)) = n;
  bytes_flush n d b : len d = n →
    bufBytes (bufFlush n d (fst (bufReserve n b))) = bufBytes b ++ d;
  bytes_write d b : bufBytes (bufWrite d b) = bufBytes b ++ d;
  bytes_skip n b : 0 ≤ n ≤ bufLen b → bufBytes (bufSkip n b) = drop (Z.to_nat n) (bufBytes b);
  bytes_reset b : bufBytes (bufReset b) = [];
  bytes_reset_free b : bufBytes (bufResetAndFree b) = [];
}.

(** A [nazabytes.Buffer] is a writer that never fails. *)
#[global] Instance buffer_writer {NB : NazaBuffer} : Writer buffer := λ p b, Ret (bufWrite p b).
#[global] Instance buffer_writer_laws {NB : NazaBuffer} {HNB : NazaBufferLaws NB} M :
  WriterLaws buffer M (λ b s, bufBytes b = s).
Proof. intros p b s <- _. exists (bufWrite p b). by rewrite bytes_write. Qed.

#[export] Hint Rewrite @bytes_new @bytes_grow @bytes_write @bytes_reset @bytes_reset_free
  using typeclasses eauto : naza.

(** The concrete instance: a buffer is its unread content. *)
Definition buffer_impl : NazaBuffer := {|
  buffer := list Z;
  NewBuffer _ := [];
  bufBytes b := b;
  bufGrow _ b := b;
  bufReserve n b := (b, go_make n);
  bufFlush _ d b := b ++ d;
  bufWrite d b := b ++ d;
  bufSkip n b := drop (Z.to_nat n) b;
  bufReset _ := [];
  bufResetAndFree _ := [];
|}.

#[global] Instance buffer_impl_laws : NazaBufferLaws buffer_impl.
Proof. split; simpl; intros; try done. rewrite length_go_make. lia. Qed.

(** ** circularqueue.CircularQueue

    A queue of bounded capacity: [PushBack] on a full queue is an error, as are
    [Front] and [PopFront] on an empty one. *)
Class CircularQueue (A : Type) := {
  cqueue : Type;
  cqNew : Z → cqueue;
  cqFull : cqueue → bool;
  cqEmpty : cqueue → bool;
  cqPushBack : A → cqueue → option goerr * cqueue;
  cqFront : cqueue → outcome A;
  cqPopFront : cqueue → outcome A * cqueue;
}.
Arguments cqueue A {CircularQueue}.

Class CircularQueueLaws {A} (Q : CircularQueue A) := {
  cq_repr : cqueue A → Z → list A → Prop;
  cq_new cap : 0 < cap → cq_repr (cqNew cap) cap [];
  cq_full q cap l : cq_repr q cap l → cqFull q = (len l =? cap);
  cq_empty q cap l : cq_repr q cap l → cqEmpty q = (len l =? 0);
  cq_push q cap l x : cq_repr q cap l → len l < cap →
    (cqPushBack x q).1 = None ∧ cq_repr (cqPushBack x q).2 cap (l ++ [x]);
  cq_front q cap x l : cq_repr q cap (x :: l) → cqFront q = Ret x;
  cq_pop q cap x l : cq_repr q cap (x :: l) →
    (cqPopFront q).1 = Ret x ∧ cq_repr (cqPopFront q).2 cap l;
}.

(** The concrete instance: the capacity and the content. *)
Definition queue_impl (A : Type) : CircularQueue A := {|
  cqueue := Z * list A;
  cqNew cap := (cap, []);
  cqFull q := len q.2 =? q.1;
  cqEmpty q := len q.2 =? 0;
  cqPushBack x q := if len q.2 <? q.1 then (None, (q.1, q.2 ++ [x])) else (Some ErrShortBuffer, q);
  cqFront q := match q.2 with x :: _ => Ret x | [] => Fail ErrShortBuffer end;
  cqPopFront q := match q.2 with x :: l => (Ret x, (q.1, l)) | [] => (Fail ErrShortBuffer, q) end;
|}.

#[global] Instance queue_impl_laws A : CircularQueueLaws (queue_impl A).
Proof.
  refine {| cq_repr := λ (q : @cqueue A (queue_impl A)) cap l, q = (cap, l) |};
    cbn [cqNew cqFull cqEmpty cqPushBack cqFront cqPopFront queue_impl]; intros; subst; try done.
  cbn [fst snd]. by rewrite (proj2 (Z.ltb_lt _ _)) by lia.
Qed.
