(* ===== verification/Avc.v ===== *)
(** * H.264 NAL units (src/pkg/avc/avc.go, src/pkg/h2645/h2645.go)

    The Annex-B and AVCC framings of a sequence of NAL units: splitting,
    joining, conversion, and the AVC sequence header. *)

From S2P Require Import Prelude Naza.

Definition NaluStartCode4 : list Z := [0; 0; 0; 1].
Definition NaluTypeSlice : Z := 1.
Definition NaluTypeIdrSlice : Z := 5.
Definition NaluTypeSei : Z := 6.
Definition NaluTypeSps : Z := 7.
Definition NaluTypePps : Z := 8.
Definition NaluTypeAud : Z := 9.
Definition NaluTypeFd : Z := 12.

Definition ParseNaluType (v : Z) : Z := Z.land v 31.

(** ** Definitions *)

(** The loop of [IterateNaluStartCode]: [i] is the absolute offset of the head
    of the remaining bytes, [count] the number of zeros just seen. *)
Fixpoint start_code_scan (l : list Z) (i count : Z) : Z * Z :=
  match l with
  | [] => (-1, -1)
  | x :: l =>
      if x =? 0 then start_code_scan l (i + 1) (count + 1)
      else if x =? 1 then
        if count >=? 2 then (i - count, count + 1) else start_code_scan l (i + 1) 0
      else start_code_scan l (i + 1) 0
  end.

Definition IterateNaluStartCode (nalu : list Z) (start : Z) : Z * Z :=
  if start >=? len nalu then (-1, -1)
  else start_code_scan (drop (Z.to_nat start) nalu) start 0.

(** NAL units handed to the callback, and the returned error ([None] is nil).
    A loop that runs out of fuel gives [None] as a whole. *)
Abbreviation nal_result := (option (list (list Z) * option goerr)).

Definition emit (nal : list Z) (r : nal_result) : nal_result :=
  '(l, e) ← r; Some (nal :: l, e).

(** The second loop of [IterateNaluAnnexb]. *)
Fixpoint annexb_loop (fuel : nat) (nals : list Z) (prePos preLength : Z) : nal_result :=
  match fuel with
  | O => None
  | S fuel =>
      let start := prePos + preLength in
      let '(pos, length) := IterateNaluStartCode nals start in
      if pos =? -1 then
        if start <? len nals then Some ([drop (Z.to_nat start) nals], None)
        else Some ([], Some ErrAvc)
      else if start <? pos then
        emit (take (Z.to_nat (pos - start)) (drop (Z.to_nat start) nals))
          (annexb_loop fuel nals pos length)
      else annexb_loop fuel nals pos length
  end.

(** The first loop of [IterateNaluAnnexb]: look for a start code from offset
    [i] on, [n] offsets left. *)
Fixpoint annexb_probe (n : nat) (nals : list Z) (i : Z) : Z * Z :=
  match n with
  | O => (-1, -1)
  | S n =>
      let '(p, l) := IterateNaluStartCode nals i in
      if negb (p =? -1) then (p, l) else annexb_probe n nals (i + 1)
  end.

(** [None] is the nil slice. *)
Definition IterateNaluAnnexb (nals : option (list Z)) : nal_result :=
  match nals with
  | None => Some ([], Some ErrShortBuffer)
  | Some nals =>
      let fuel := S (length nals) in
      let '(prePos, preLength) := IterateNaluStartCode nals 0 in
      if prePos =? -1 then
        let '(prePos, preLength) := annexb_probe (length nals - 1) nals 1 in
        if prePos =? -1 then Some ([nals], Some ErrAvc)
        else annexb_loop fuel nals prePos preLength
      else annexb_loop fuel nals prePos preLength
  end.

Definition SplitNaluAnnexb (nals : option (list Z)) : nal_result := IterateNaluAnnexb nals.

Section Avcc.
Context {B : Bele}.

(** The loop of [IterateNaluAvcc]. *)
Fixpoint avcc_loop (fuel : nat) (nals : list Z) (pos : Z) : outcome nal_result :=
  match fuel with
  | O => Ret None
  | S fuel =>
      tl ← go_from nals pos;
      if len tl <? 4 then Ret (Some ([], Some ErrShortBuffer)) else
      length ← BeUint32 tl;
      let pos := pos + 4 in
      if pos =? len nals then Ret (Some ([], Some ErrShortBuffer)) else
      let epos := pos + length in
      if epos <? len nals then
        if length =? 0 then avcc_loop fuel nals pos
        else
          nal ← go_slice nals pos epos;
          r ← avcc_loop fuel nals (pos + length);
          Ret (emit nal r)
      else if epos =? len nals then
        if length =? 0 then avcc_loop fuel nals pos
        else nal ← go_slice nals pos epos; Ret (Some ([nal], None))
      else nal ← go_from nals pos; Ret (Some ([nal], Some ErrShortBuffer))
  end.

Definition IterateNaluAvcc (nals : option (list Z)) : outcome nal_result :=
  match nals with
  | None => Ret (Some ([], Some ErrShortBuffer))
  | Some nals => avcc_loop (S (length nals)) nals 0
  end.

Definition SplitNaluAvcc (nals : option (list Z)) : outcome nal_result :=
  IterateNaluAvcc nals.

(** The callback of [Avcc2Annexb] appends a start code and the unit. *)
Definition annexb_append (ret : list Z) (nal : list Z) : list Z :=
  ret ++ NaluStartCode4 ++ nal.

(** The returned bytes and error. *)
Definition Avcc2Annexb (nals : option (list Z)) : outcome (option (list Z * option goerr)) :=
  r ← IterateNaluAvcc nals;
  Ret ('(l, e) ← r; Some (foldl annexb_append [] l, e)).

(** h2645.JoinNaluAvcc: the loop that fills [ret]. *)
Fixpoint join_fill (naluList : list (list Z)) (ret : list Z) (pos : Z) : outcome (list Z) :=
  match naluList with
  | [] => Ret ret
  | item :: naluList =>
      ret ← go_upd_from ret pos (BePutUint32 (u32 (len item)));
      let pos := pos + 4 in
      ret ← go_copy_at ret pos item;
      join_fill naluList ret (pos + len item)
  end.

Definition JoinNaluAvcc (naluList : list (list Z)) : outcome (list Z) :=
  match naluList with
  | [] => Ret []
  | _ =>
      let n := len naluList * 4 + foldl (λ n item, n + len item) 0 naluList in
      join_fill naluList (go_make n) 0
  end.

(** The callback of [Annexb2Avcc]: reserve 4 bytes, write the length, flush,
    write the unit. *)
Definition avcc_append {NB : NazaBuffer} (buf : buffer) (nal : list Z) : outcome buffer :=
  let '(buf, slice) := bufReserve 4 buf in
  slice ← BePutUint32 (u32 (len nal)) slice;
  Ret (bufWrite nal (bufFlush 4 slice buf)).

Fixpoint avcc_append_all {NB : NazaBuffer} (buf : buffer) (l : list (list Z)) : outcome buffer :=
  match l with
  | [] => Ret buf
  | nal :: l => buf ← avcc_append buf nal; avcc_append_all buf l
  end.

Definition Annexb2Avcc {NB : NazaBuffer} (nals : option (list Z))
    : outcome (option (list Z * option goerr)) :=
  match IterateNaluAnnexb nals with
  | None => Ret None
  | Some (l, e) =>
      buf ← avcc_append_all (bufGrow (len (default [] nals) + 16) (NewBuffer 0)) l;
      Ret (Some (bufBytes buf, e))
  end.

Definition BuildSpsPps2Annexb (sps pps : list Z) : list Z :=
  NaluStartCode4 ++ sps ++ NaluStartCode4 ++ pps.

Definition ParseSpsPpsFromSeqHeaderWithoutMalloc (payload : list Z)
    : outcome (list Z * list Z) :=
  if len payload <? 13 then Fail ErrShortBuffer else
  p0 ← go_index payload 0; p1 ← go_index payload 1; p2 ← go_index payload 2;
  p3 ← go_index payload 3; p4 ← go_index payload 4;
  if negb (p0 =? 23) || negb (p1 =? 0) || negb (p2 =? 0) || negb (p3 =? 0) || negb (p4 =? 0)
  then Fail ErrAvc else
  let index := 10 in
  v ← go_index payload index;
  let numOfSps := Z.land v 31 in
  let index := index + 1 in
  if negb (numOfSps =? 1) then Fail ErrAvc else
  t ← go_from payload index;
  spsLength ← BeUint16 t;
  let index := index + 2 in
  if len payload <? 13 + spsLength then Fail ErrShortBuffer else
  sps ← go_slice payload index (index + spsLength);
  let index := index + spsLength in
  if len payload <? 16 + spsLength then Fail ErrShortBuffer else
  v ← go_index payload index;
  let numOfPps := Z.land v 31 in
  let index := index + 1 in
  if negb (numOfPps =? 1) then Fail ErrAvc else
  t ← go_from payload index;
  ppsLength ← BeUint16 t;
  let index := index + 2 in
  if len payload <? 16 + spsLength + ppsLength then Fail ErrShortBuffer else
  pps ← go_slice payload index (index + ppsLength);
  Ret (sps, pps).
End Avcc.

(** ** Specification

    A sequence of units in the two framings. *)
Definition annexb_join (l : list (list Z)) : list Z :=
  concat (map (λ n, NaluStartCode4 ++ n) l).
Definition avcc_join (l : list (list Z)) : list Z :=
  concat (map (λ n, be_bytes 4 (len n) ++ n) l).

(** A unit the Annex-B framing can carry: not empty, no start code inside, no
    zero at the end (such a zero is taken for a part of the next start code). *)
Definition clean_nal (n : list Z) : Prop :=
  n ≠ [] ∧ last n ≠ Some 0 ∧ ¬ ∃ a b, n = a ++ [0; 0; 1] ++ b.

(** ** Start codes *)

(** A scan passes over bytes in which, after [count] zeros, no start code is
    completed. *)
Lemma start_code_scan_skip l rest i count :
  0 ≤ count → last l ≠ Some 0 → (l = [] → count = 0) →
  (¬ ∃ a b, replicate (Z.to_nat count) 0 ++ l = a ++ [0; 0; 1] ++ b) →
  start_code_scan (l ++ rest) i count = start_code_scan rest (i + len l) 0.
Proof.
  revert i count. induction l as [|x l IH]; intros i count Hc Hlast Hnil Hno.
  { rewrite Hnil by done. simpl. f_equal. lia. }
  assert (Hlast' : last l ≠ Some 0) by (destruct l; [done | by simpl in *]).
  assert (Hsub : ∀ c, (c ≤ Z.to_nat count)%nat →
            ¬ ∃ a b, replicate c 0 ++ x :: l = a ++ [0; 0; 1] ++ b).
  { intros c Hle (a & b & E). apply Hno. exists (replicate (Z.to_nat count - c) 0 ++ a), b.
    replace (Z.to_nat count) with ((Z.to_nat count - c) + c)%nat at 1 by lia.
    by rewrite replicate_add, <- !app_assoc, E. }
  simpl app. simpl start_code_scan. cbn [length]. rewrite Nat2Z.inj_succ.
  replace (i + Z.succ (len l)) with (i + 1 + len l) by lia.
  assert (Htl : ¬ ∃ a b, l = a ++ [0; 0; 1] ++ b).
  { intros (a & b & ->). apply (Hsub 0%nat); [lia|]. by exists (x :: a), b. }
  destruct (Z.eqb_spec x 0) as [->|Hx0].
  { apply IH; [lia | done | | ].
    - intros ->. by simpl in Hlast.
    - intros (a & b & E). apply Hno. exists a, b. rewrite <- E.
      replace (Z.to_nat (count + 1)) with (Z.to_nat count + 1)%nat by lia.
      by rewrite replicate_add, <- app_assoc. }
  destruct (Z.eqb_spec x 1) as [->|Hx1].
  - rewrite Z.geb_leb. destruct (Z.leb_spec 2 count).
    + exfalso. apply (Hsub 2%nat); [lia|]. by exists [], l.
    + apply IH; try done.
  - apply IH; done.
Qed.

Lemma start_code_scan_none l i count :
  0 ≤ count → (¬ ∃ a b, replicate (Z.to_nat count) 0 ++ l = a ++ [0; 0; 1] ++ b) →
  start_code_scan l i count = (-1, -1).
Proof.
  revert i count. induction l as [|x l IH]; intros i count Hc Hno; [done|].
  assert (Htl : ¬ ∃ a b, l = a ++ [0; 0; 1] ++ b).
  { intros (a & b & ->). apply Hno.
    exists (replicate (Z.to_nat count) 0 ++ x :: a), b. by rewrite <- app_assoc. }
  simpl. destruct (Z.eqb_spec x 0) as [->|].
  { apply IH; [lia|]. intros (a & b & E). apply Hno. exists a, b. rewrite <- E.
    replace (Z.to_nat (count + 1)) with (Z.to_nat count + 1)%nat by lia.
    by rewrite replicate_add, <- app_assoc. }
  destruct (Z.eqb_spec x 1) as [->|]; [|by apply IH].
  rewrite Z.geb_leb. destruct (Z.leb_spec 2 count); [|by apply IH].
  exfalso. apply Hno. exists (replicate (Z.to_nat (count - 2)) 0), l.
  replace (Z.to_nat count) with (Z.to_nat (count - 2) + 2)%nat by lia.
  by rewrite replicate_add, <- app_assoc.
Qed.

(** What a scan finds is a start code at or after the place it started, with
    [count] zeros of look-behind. *)
Lemma start_code_scan_found l i count pos length :
  0 ≤ count → 0 ≤ i → start_code_scan l i count = (pos, length) → pos ≠ -1 →
  i - count ≤ pos ∧ 3 ≤ length ∧ i < pos + length ≤ i + len l.
Proof.
  revert i count. induction l as [|x l IH]; intros i count Hc Hi; simpl; [by intros [= <- _]|].
  intros H Hp. cbn [List.length]. destruct (x =? 0).
  { apply IH in H; [|lia..|done]. lia. }
  destruct (x =? 1); [|apply IH in H; [|lia..|done]; lia].
  rewrite Z.geb_leb in H. destruct (Z.leb_spec 2 count).
  - injection H as <- <-. lia.
  - apply IH in H; [|lia..|done]. lia.
Qed.

Lemma IterateNaluStartCode_found nals start pos length :
  0 ≤ start → IterateNaluStartCode nals start = (pos, length) → pos ≠ -1 →
  start ≤ pos ∧ 3 ≤ length ∧ start < pos + length ≤ len nals.
Proof.
  unfold IterateNaluStartCode. intros Hs. rewrite Z.geb_leb.
  destruct (Z.leb_spec (len nals) start); [by intros [= <- _]|].
  intros H1 Hp. apply start_code_scan_found in H1; [|lia..|done]. len_lia.
Qed.

(** Searching again from a later offset never finds what a search from the
    beginning did not: the first loop of [IterateNaluAnnexb] has no effect. *)
Lemma IterateNaluStartCode_later nals i :
  0 ≤ i → fst (IterateNaluStartCode nals 0) = -1 → IterateNaluStartCode nals i = (-1, -1).
Proof.
  intros Hi. unfold IterateNaluStartCode. rewrite !Z.geb_leb.
  destruct (Z.leb_spec (len nals) i); [done|].
  destruct (Z.leb_spec (len nals) 0); [lia|]. simpl (Z.to_nat 0). rewrite drop_0.
  intros Hscan. apply start_code_scan_none; [lia|]. simpl. intros (a & b & E).
  assert (Hno : ∀ l k c, 0 ≤ k → 0 ≤ c → fst (start_code_scan l k c) = -1 → c ≤ k →
            ¬ ∃ a b, l = a ++ [0; 0; 1] ++ b).
  { clear. induction l as [|x l IH]; intros k c Hk Hc H Hck (a & b & E).
    { by destruct a. }
    destruct a as [|y a]; simpl in E; injection E as -> ->.
    - simpl in H. rewrite Z.geb_leb, (proj2 (Z.leb_le _ _)) in H by lia. simpl in H. lia.
    - simpl in H. destruct (y =? 0); [apply IH in H; [apply H; eauto|lia..]|].
      destruct (y =? 1); [|apply IH in H; [apply H; eauto|lia..]].
      rewrite Z.geb_leb in H. destruct (2 <=? c); [simpl in H; lia|].
      apply IH in H; [apply H; eauto|lia..]. }
  apply (Hno nals 0 0); [lia..|done|lia|].
  exists (take (Z.to_nat i) nals ++ a), b. rewrite <- app_assoc. simpl. by rewrite <- E, take_drop.
Qed.

Lemma annexb_probe_none n nals i :
  0 ≤ i → fst (IterateNaluStartCode nals 0) = -1 → annexb_probe n nals i = (-1, -1).
Proof.
  intros Hi H. revert i Hi. induction n as [|n IH]; intros i Hi; [done|].
  simpl. rewrite IterateNaluStartCode_later by done. simpl. apply IH. lia.
Qed.

Lemma annexb_loop_total nals : ∀ fuel pos ln,
  0 ≤ pos → 0 ≤ ln → pos + ln ≤ len nals → Z.of_nat fuel > len nals - (pos + ln) →
  is_Some (annexb_loop fuel nals pos ln).
Proof.
  induction fuel as [|fuel IH]; intros pos ln Hp Hl Hle Hf; [lia|].
  simpl. destruct (IterateNaluStartCode nals (pos + ln)) as [p l] eqn:E.
  destruct (Z.eqb_spec p (-1)) as [->|Hp1]; [destruct (_ <? _); eauto|].
  apply IterateNaluStartCode_found in E; [|lia|done].
  destruct (IH p l) as [[r e] Hr]; [lia..|].
  destruct (_ <? _); [rewrite Hr; simpl; eauto | eauto].
Qed.

Lemma IterateNaluAnnexb_total nals : is_Some (IterateNaluAnnexb nals).
Proof.
  destruct nals as [nals|]; [|by eexists]. unfold IterateNaluAnnexb.
  destruct (IterateNaluStartCode nals 0) as [p l] eqn:E.
  destruct (Z.eqb_spec p (-1)) as [->|Hp].
  - rewrite annexb_probe_none; [by eexists | lia | by rewrite E].
  - apply IterateNaluStartCode_found in E; [|lia|done].
    apply annexb_loop_total; lia.
Qed.

(** Units after start codes of either length. *)
Definition start_code (four : bool) : list Z := if four then NaluStartCode4 else [0; 0; 1].
Definition mixed_join (l : list (bool * list Z)) : list Z := concat (map (λ u, start_code u.1 ++ u.2) l).

Lemma annexb_join_mixed l : annexb_join l = mixed_join (pair true <$> l).
Proof. unfold annexb_join, mixed_join. by rewrite <- list_fmap_compose. Qed.

Lemma mixed_join_cons u l : mixed_join (u :: l) = start_code u.1 ++ u.2 ++ mixed_join l.
Proof. unfold mixed_join. cbn. by rewrite <- app_assoc. Qed.
Lemma mixed_join_app l1 l2 : mixed_join (l1 ++ l2) = mixed_join l1 ++ mixed_join l2.
Proof. unfold mixed_join. by rewrite map_app, concat_app. Qed.

Lemma start_code_length c : 3 ≤ len (start_code c) ≤ 4.
Proof. destruct c; cbn; lia. Qed.

(** The start code found at a position where one is, and after a clean unit. *)
Lemma IterateNaluStartCode_here c pre rest :
  IterateNaluStartCode (pre ++ start_code c ++ rest) (len pre) = (len pre, len (start_code c)).
Proof.
  unfold IterateNaluStartCode. rewrite Z.geb_leb. pose proof (start_code_length c).
  destruct (Z.leb_spec (len (pre ++ start_code c ++ rest)) (len pre)) as [H'|H']; [len_lia|].
  rewrite Nat2Z.id, drop_app_length. destruct c; simpl; f_equal; lia.
Qed.

Lemma IterateNaluStartCode_next c pre n rest : clean_nal n →
  IterateNaluStartCode (pre ++ n ++ start_code c ++ rest) (len pre) = (len pre + len n, len (start_code c)).
Proof.
  intros (Hn & Hlast & Hno). unfold IterateNaluStartCode. rewrite Z.geb_leb.
  destruct (Z.leb_spec (len (pre ++ n ++ start_code c ++ rest)) (len pre)) as [H|H].
  { destruct n; [done | len_lia]. }
  rewrite Nat2Z.id, drop_app_length, start_code_scan_skip; [|lia|done..].
  destruct c; simpl; f_equal; lia.
Qed.

Lemma IterateNaluStartCode_end pre n : clean_nal n → IterateNaluStartCode (pre ++ n) (len pre) = (-1, -1).
Proof.
  intros (Hn & Hlast & Hno). unfold IterateNaluStartCode. destruct (_ >=? _); [done|].
  rewrite Nat2Z.id, drop_app_length. by apply start_code_scan_none.
Qed.

Lemma annexb_loop_join : ∀ l u pre fuel,
  (length l < fuel)%nat → Forall (clean_nal ∘ snd) (u :: l) →
  annexb_loop fuel (pre ++ mixed_join (u :: l)) (len pre) (len (start_code u.1)) = Some (snd <$> (u :: l), None).
Proof.
  induction l as [|m l IH]; intros [c n] pre fuel Hf Hcl;
    (destruct fuel as [|fuel]; [simpl in Hf; lia|]);
    apply List.Forall_cons_iff in Hcl as [Hn Hl]; cbn in Hn;
    set (pre4 := pre ++ start_code c); rewrite mixed_join_cons; cbn [fst snd];
    assert (Hpos : len pre + len (start_code c) = len pre4) by (unfold pre4; len_lia);
    rewrite (app_assoc pre); fold pre4; cbn [annexb_loop]; rewrite Hpos;
    assert (Hne : 0 < len n) by (destruct Hn as [Hn _]; destruct n; [done | len_lia]).
  - change (mixed_join []) with (@nil Z). rewrite app_nil_r, IterateNaluStartCode_end by done.
    change (-1 =? -1) with true. cbv iota.
    rewrite (proj2 (Z.ltb_lt _ _)) by len_lia.
    by rewrite Nat2Z.id, drop_app_length.
  - rewrite mixed_join_cons at 1. rewrite IterateNaluStartCode_next by done.
    rewrite (proj2 (Z.eqb_neq _ _)), (proj2 (Z.ltb_lt _ _)) by lia.
    replace (len pre4 + len n) with (len (pre4 ++ n)) by len_lia.
    rewrite (app_assoc _ n), IH by (try done; simpl in Hf; lia). simpl emit.
    rewrite <- (app_assoc _ n), Nat2Z.id, drop_app_length.
    change (((c, n) :: m :: l).*2) with (n :: (m :: l).*2). do 3 f_equal.
    apply take_app_length'. len_lia.
Qed.

(** Splitting what was joined gives the units back. *)
Lemma SplitNaluAnnexb_mixed l :
  l ≠ [] → Forall (clean_nal ∘ snd) l → SplitNaluAnnexb (Some (mixed_join l)) = Some (snd <$> l, None).
Proof.
  intros Hl Hcl. destruct l as [|u l]; [done|].
  unfold SplitNaluAnnexb, IterateNaluAnnexb.
  pose proof (IterateNaluStartCode_here u.1 [] (u.2 ++ mixed_join l)) as E.
  rewrite !app_nil_l, <- mixed_join_cons in E. change (len []) with 0 in E. rewrite E.
  change (0 =? -1) with false. cbv iota.
  apply (annexb_loop_join l u []); [|done].
  assert (length l ≤ length (mixed_join l))%nat; [|rewrite mixed_join_cons; len_lia].
  clear. induction l as [|[c n] l IH]; [done|]. rewrite mixed_join_cons. pose proof (start_code_length c). cbn [fst]. len_lia.
Qed.

Lemma SplitNaluAnnexb_join_aux l :
  l ≠ [] → Forall clean_nal l → SplitNaluAnnexb (Some (annexb_join l)) = Some (l, None).
Proof.
  intros Hl Hcl. rewrite annexb_join_mixed, SplitNaluAnnexb_mixed.
  - by rewrite <- list_fmap_compose, list_fmap_id.
  - by destruct l.
  - by apply Forall_fmap.
Qed.

Lemma annexb_join_cons n l : annexb_join (n :: l) = NaluStartCode4 ++ n ++ annexb_join l.
Proof. reflexivity. Qed.

(** ** AVCC framing *)

(** The length field has 32 bits. *)
Definition avcc_nal (n : list Z) : Prop := n ≠ [] ∧ is_u32 (len n).

Lemma avcc_join_cons n l : avcc_join (n :: l) = be_bytes 4 (len n) ++ n ++ avcc_join l.
Proof. reflexivity. Qed.

Lemma avcc_join_length l : len (avcc_join l) = len l * 4 + len (concat l).
Proof.
  induction l as [|n l IH]; [done|]. rewrite avcc_join_cons. simpl concat.
  rewrite !length_app, be_bytes_length, !Nat2Z.inj_add, IH. cbn [length]. lia.
Qed.

Lemma foldl_len_concat (l : list (list Z)) a : foldl (λ n item, n + len item) a l = a + len (concat l).
Proof.
  revert a. induction l as [|x l IH]; intros a; simpl; [lia|]. rewrite IH, length_app. lia.
Qed.

Section AvccFacts.
Context {B : Bele} {HB : BeleLaws B}.

(** Every step of the loop consumes at least the four length bytes, so the
    loop ends; every read is in range, so nothing panics. *)
Lemma avcc_loop_total nals : is_bytes nals → ∀ fuel pos,
  0 ≤ pos ≤ len nals → len nals - pos < Z.of_nat fuel →
  ∃ r, avcc_loop fuel nals pos = Ret (Some r).
Proof.
  intros Hb. induction fuel as [|fuel IH]; intros pos Hp Hf; [lia|].
  cbn [avcc_loop]. rewrite (go_from_Ret nals pos), bind_Ret by lia.
  set (tl := drop (Z.to_nat pos) nals).
  assert (Htl : len tl = len nals - pos) by (unfold tl; rewrite length_drop; lia).
  destruct (Z.ltb_spec (len tl) 4); [by eexists|].
  destruct (BeUint32_Ret tl) as (v & -> & Hv); [by apply is_bytes_drop | lia |].
  rewrite bind_Ret. destruct (Z.eqb_spec (pos + 4) (len nals)); [by eexists|].
  destruct (Z.ltb_spec (pos + 4 + v) (len nals)).
  - destruct (Z.eqb_spec v 0); [apply IH; lia|].
    rewrite go_slice_Ret, bind_Ret by lia.
    destruct (IH (pos + 4 + v)) as [[r e] ->]; [lia..|]. by eexists.
  - destruct (Z.eqb_spec (pos + 4 + v) (len nals)).
    + destruct (Z.eqb_spec v 0); [apply IH; lia|]. rewrite go_slice_Ret by lia. by eexists.
    + rewrite go_from_Ret by lia. by eexists.
Qed.

(** The units the loop finds are not empty. *)
Lemma avcc_loop_nonempty nals : is_bytes nals → ∀ fuel pos l e,
  0 ≤ pos ≤ len nals → avcc_loop fuel nals pos = Ret (Some (l, e)) → Forall (λ n, n ≠ []) l.
Proof.
  intros Hb. induction fuel as [|fuel IH]; intros pos l e Hp; [done|].
  cbn [avcc_loop]. rewrite (go_from_Ret nals pos), bind_Ret by lia.
  set (tl := drop (Z.to_nat pos) nals).
  assert (Htl : len tl = len nals - pos) by (unfold tl; rewrite length_drop; lia).
  destruct (Z.ltb_spec (len tl) 4); [intros [= <- <-]; constructor|].
  destruct (BeUint32_Ret tl) as (v & -> & Hv); [by apply is_bytes_drop | lia |].
  rewrite bind_Ret. destruct (Z.eqb_spec (pos + 4) (len nals)); [intros [= <- <-]; constructor|].
  assert (Hne : ∀ a b, a < b ≤ len nals → 0 ≤ a → take (Z.to_nat (b - a)) (drop (Z.to_nat a) nals) ≠ []).
  { intros a b Hab Ha E. apply (f_equal length) in E. rewrite length_take, length_drop in E. simpl in E. lia. }
  destruct (Z.ltb_spec (pos + 4 + v) (len nals)).
  - destruct (Z.eqb_spec v 0); [apply IH; lia|].
    rewrite go_slice_Ret, bind_Ret by lia.
    destruct (avcc_loop fuel nals (pos + 4 + v)) as [[[l' e']|]| |] eqn:E; cbn; try done. intros [= <- <-].
    constructor; [apply Hne; lia|]. eapply IH, E. lia.
  - destruct (Z.eqb_spec (pos + 4 + v) (len nals)).
    + destruct (Z.eqb_spec v 0); [apply IH; lia|]. rewrite go_slice_Ret by lia. intros [= <- <-].
      repeat constructor. apply Hne; lia.
    + rewrite go_from_Ret by lia. intros [= <- <-]. repeat constructor. intros E.
      apply (f_equal length) in E. rewrite length_drop in E. simpl in E. lia.
Qed.

Lemma SplitNaluAvcc_units nals : is_bytes nals → ∃ l e,
  SplitNaluAvcc (Some nals) = Ret (Some (l, e)) ∧ Forall (λ n, n ≠ []) l.
Proof.
  intros Hb. destruct (avcc_loop_total nals Hb (S (length nals)) 0) as [[l e] E]; [lia..|].
  exists l, e. split; [exact E|]. eapply avcc_loop_nonempty, E; [done|lia].
Qed.

Lemma avcc_loop_join : ∀ l n pre fuel,
  (length l < fuel)%nat → Forall avcc_nal (n :: l) →
  avcc_loop fuel (pre ++ avcc_join (n :: l)) (len pre) = Ret (Some (n :: l, None)).
Proof.
  induction l as [|m l IH]; intros n pre fuel Hf Hl;
    (destruct fuel as [|fuel]; [simpl in Hf; lia|]);
    apply List.Forall_cons_iff in Hl as [[Hne Hn] Hl];
    assert (Hpos : 0 < len n) by (destruct n; [done | len_lia]);
    rewrite avcc_join_cons; cbn [avcc_loop]; rewrite (go_from_app pre _ (len pre)), bind_Ret by done;
    (rewrite (proj2 (Z.ltb_ge _ _)) by len_lia);
    rewrite BeUint32_be, bind_Ret by done.
  - change (avcc_join []) with (@nil Z). rewrite app_nil_r.
    rewrite (proj2 (Z.eqb_neq _ _)), (proj2 (Z.ltb_ge _ _)), (proj2 (Z.eqb_eq _ _)),
      (proj2 (Z.eqb_neq _ _)) by len_lia.
    by rewrite (app_assoc pre), go_slice_app_end by len_lia.
  - assert (Hm : 4 < len (avcc_join (m :: l))).
    { rewrite avcc_join_cons. apply List.Forall_cons_iff in Hl as [[Hm _] _].
      destruct m; [done | len_lia]. }
    rewrite (proj2 (Z.eqb_neq _ _)), (proj2 (Z.ltb_lt _ _)), (proj2 (Z.eqb_neq _ _)) by len_lia.
    rewrite (app_assoc pre), go_slice_app, bind_Ret by len_lia.
    rewrite (app_assoc _ n).
    replace (len pre + 4 + len n) with (len ((pre ++ be_bytes 4 (len n)) ++ n)) by len_lia.
    by rewrite IH by (try done; simpl in Hf; lia).
Qed.

Lemma SplitNaluAvcc_join_aux l :
  l ≠ [] → Forall avcc_nal l → SplitNaluAvcc (Some (avcc_join l)) = Ret (Some (l, None)).
Proof.
  intros Hl Ha. destruct l as [|n l]; [done|]. unfold SplitNaluAvcc, IterateNaluAvcc.
  apply (avcc_loop_join l n []); [|done].
  assert (H : len (n :: l) ≤ len (avcc_join (n :: l))) by (rewrite avcc_join_length; lia).
  len_lia.
Qed.

(** [JoinNaluAvcc] fills its buffer with the specified bytes. *)
Lemma join_fill_spec l pre :
  Forall (λ n, is_u32 (len n)) l →
  join_fill l (pre ++ go_make (len (avcc_join l))) (len pre) = Ret (pre ++ avcc_join l).
Proof.
  revert pre. induction l as [|n l IH]; intros pre Hl; [reflexivity|].
  apply List.Forall_cons_iff in Hl as [Hn Hl].
  replace (len (avcc_join (n :: l))) with (4 + (len n + len (avcc_join l)))
    by (rewrite avcc_join_cons; len_lia).
  rewrite !go_make_add by lia. cbn [join_fill].
  rewrite (go_upd_from_app _ _ (be_bytes 4 (len n) ++ go_make (len n) ++ go_make (len (avcc_join l))));
    [rewrite bind_Ret | done | rewrite u32_small by done; apply BePutUint32_writes; [done|lia]].
  rewrite (app_assoc pre), go_copy_at_app, bind_Ret by (try len_lia; rewrite length_go_make; lia).
  rewrite (app_assoc _ n).
  replace (len pre + 4 + len n) with (len ((pre ++ be_bytes 4 (len n)) ++ n)) by len_lia.
  rewrite IH by done. by rewrite avcc_join_cons, <- !app_assoc.
Qed.

Lemma JoinNaluAvcc_spec l :
  Forall (λ n, is_u32 (len n)) l → JoinNaluAvcc l = Ret (avcc_join l).
Proof.
  intros Hl. unfold JoinNaluAvcc. destruct l as [|n l]; [done|].
  rewrite foldl_len_concat, <- avcc_join_length. by apply (join_fill_spec (n :: l) []).
Qed.

Lemma annexb_append_all l acc : foldl annexb_append acc l = acc ++ annexb_join l.
Proof.
  revert acc. induction l as [|n l IH]; intros acc; [by simpl; rewrite app_nil_r|].
  simpl foldl. rewrite IH, annexb_join_cons. unfold annexb_append. by rewrite <- !app_assoc.
Qed.

Section Buffered.
Context {NB : NazaBuffer} {HNB : NazaBufferLaws NB}.

Lemma avcc_append_spec buf nal :
  is_u32 (len nal) → ∃ buf', avcc_append buf nal = Ret buf' ∧
    bufBytes buf' = bufBytes buf ++ be_bytes 4 (len nal) ++ nal.
Proof.
  intros Hn. unfold avcc_append. destruct (bufReserve 4 buf) as [buf1 slice] eqn:E.
  pose proof (length_reserve 4 buf) as Hs. rewrite E in Hs. simpl in Hs.
  rewrite u32_small by done. rewrite BePutUint32_Ret, bind_Ret by (try done; lia).
  eexists; split; [done|]. rewrite bytes_write.
  pose proof (bytes_flush 4 (be_bytes 4 (len nal) ++ drop 4 slice) buf) as Hf.
  rewrite E in Hf. cbn [fst] in Hf. rewrite Hf; [|rewrite length_app, be_bytes_length, length_drop; lia].
  rewrite drop_ge by lia. by rewrite app_nil_r, <- app_assoc.
Qed.

Lemma avcc_append_all_spec l buf :
  Forall (λ n, is_u32 (len n)) l → ∃ buf', avcc_append_all buf l = Ret buf' ∧
    bufBytes buf' = bufBytes buf ++ avcc_join l.
Proof.
  revert buf. induction l as [|n l IH]; intros buf Hl.
  { exists buf. simpl. by rewrite app_nil_r. }
  apply List.Forall_cons_iff in Hl as [Hn Hl]. simpl.
  destruct (avcc_append_spec buf n Hn) as (buf1 & -> & H1). simpl.
  destruct (IH buf1 Hl) as (buf2 & -> & H2). exists buf2. split; [done|].
  by rewrite H2, H1, avcc_join_cons, <- !app_assoc.
Qed.
End Buffered.
End AvccFacts.

(** ** The sequence header *)

(** The layout of an AVC sequence header message with one SPS and one PPS
    ([fixed]: version, profile, compatibility, level, length size). *)
Definition avc_seq_header (fixed sps pps tail : list Z) : list Z :=
  [23; 0; 0; 0; 0] ++ fixed ++ [225] ++ be_bytes 2 (len sps) ++ sps ++
  [1] ++ be_bytes 2 (len pps) ++ pps ++ tail.

Section SeqHeaderFacts.
Context {B : Bele} {HB : BeleLaws B}.

Lemma ParseSpsPps_layout fixed sps pps tail :
  length fixed = 5%nat → is_u16 (len sps) → is_u16 (len pps) →
  ParseSpsPpsFromSeqHeaderWithoutMalloc (avc_seq_header fixed sps pps tail) = Ret (sps, pps).
Proof.
  intros Hf Hs Hp. unfold ParseSpsPpsFromSeqHeaderWithoutMalloc, avc_seq_header.
  cbn [app]. go_test. do 5 go_read. cbn [negb orb Z.eqb]. cbv iota.
  change (negb _ || _ || _ || _ || _) with false. cbv iota.
  go_read. change (negb (Z.land 225 31 =? 1)) with false. cbv iota.
  go_read. rewrite BeUint16_be, bind_Ret by done. go_test. go_read. go_test.
  go_read. change (negb (Z.land 1 31 =? 1)) with false. cbv iota.
  go_read. rewrite BeUint16_be, bind_Ret by done. go_test. by go_read.
Qed.
End SeqHeaderFacts.

(** ** Properties *)

(** Splitting the Annex-B concatenation of a non-empty list of clean units
    gives exactly these units, without an error. *)
Theorem avc_split_annexb_join l :
  l ≠ [] → Forall clean_nal l → SplitNaluAnnexb (Some (annexb_join l)) = Some (l, None).
Proof. apply SplitNaluAnnexb_join_aux. Qed.

(** For a non-empty list of clean units with 32-bit lengths,
    [JoinNaluAvcc] builds an AVCC string that [SplitNaluAvcc] splits into the
    same units, [Avcc2Annexb] turns it into their Annex-B concatenation, and
    [Annexb2Avcc] turns that back into the AVCC string. *)
Theorem avc_avcc_annexb_roundtrip {B : Bele} {NB : NazaBuffer}
    (HB : BeleLaws B) (HNB : NazaBufferLaws NB) l :
  l ≠ [] → Forall clean_nal l → Forall (λ n, is_u32 (len n)) l →
  ∃ avcc annexb,
    JoinNaluAvcc l = Ret avcc ∧ SplitNaluAvcc (Some avcc) = Ret (Some (l, None)) ∧
    Avcc2Annexb (Some avcc) = Ret (Some (annexb, None)) ∧ annexb = annexb_join l ∧
    Annexb2Avcc (Some annexb) = Ret (Some (avcc, None)).
Proof.
  intros Hl Hc Hu. exists (avcc_join l), (annexb_join l).
  assert (Ha : Forall avcc_nal l).
  { rewrite Forall_forall in *. intros n Hn. split; [by apply Hc | by apply Hu]. }
  pose proof (SplitNaluAvcc_join_aux l Hl Ha) as Hsplit.
  repeat split; [by apply JoinNaluAvcc_spec | done | |].
  - unfold Avcc2Annexb. fold (SplitNaluAvcc (Some (avcc_join l))). rewrite Hsplit. simpl.
    by rewrite annexb_append_all.
  - unfold Annexb2Avcc. fold (SplitNaluAnnexb (Some (annexb_join l))).
    rewrite SplitNaluAnnexb_join_aux by done.
    destruct (avcc_append_all_spec l (bufGrow (len (annexb_join l) + 16) (NewBuffer 0)) Hu)
      as (buf & Hbuf & Hbytes).
    simpl. rewrite Hbuf. simpl. rewrite Hbytes, bytes_grow, bytes_new. done.
Qed.

(** On arbitrary bytes the AVCC and the Annex-B iterations terminate
    within their fuel and never panic. *)
Theorem avc_split_total {B : Bele} (HB : BeleLaws B) nals :
  is_bytes nals →
  (∃ r, IterateNaluAvcc (Some nals) = Ret (Some r)) ∧ is_Some (IterateNaluAnnexb (Some nals)).
Proof.
  intros Hb. split; [|apply IterateNaluAnnexb_total].
  apply avcc_loop_total; [done | lia..].
Qed.

(** [ParseSpsPpsFromSeqHeaderWithoutMalloc] returns the SPS and the PPS of
    a well-formed sequence header, whatever follows them. *)
Theorem avc_seq_header_parse {B : Bele} (HB : BeleLaws B) fixed sps pps tail :
  length fixed = 5%nat → is_u16 (len sps) → is_u16 (len pps) →
  ParseSpsPpsFromSeqHeaderWithoutMalloc (avc_seq_header fixed sps pps tail) = Ret (sps, pps).
Proof. apply ParseSpsPps_layout. Qed.

(** ** Witnesses *)

Definition demo_nals : list (list Z) := [[103; 1; 0; 2]; [104; 3]; [101; 0; 0; 5]].

Lemma demo_clean : Forall clean_nal demo_nals.
Proof.
  assert (H : ∀ n, n ≠ [] → last n ≠ Some 0 → start_code_scan n 0 0 = (-1, -1) → clean_nal n).
  { intros n H1 H2 H3. repeat split; [done..|]. intros (a & b & ->).
    pose proof (IterateNaluStartCode_later (a ++ [0; 0; 1] ++ b) (len a)) as E.
    unfold IterateNaluStartCode in E. rewrite !Z.geb_leb in E.
    rewrite !(proj2 (Z.leb_gt _ _)) in E by len_lia.
    change (Z.to_nat 0) with 0%nat in E. rewrite Nat2Z.id, drop_app_length, drop_0, H3 in E.
    specialize (E ltac:(lia) eq_refl). simpl in E. injection E. lia. }
  repeat constructor; try apply H; done.
Qed.

Lemma avc_split_annexb_join_witness :
  SplitNaluAnnexb (Some (annexb_join demo_nals)) = Some (demo_nals, None).
Proof. apply (avc_split_annexb_join demo_nals); [discriminate | apply demo_clean]. Defined.

Lemma avc_avcc_annexb_roundtrip_witness :
  ∃ avcc annexb,
    @JoinNaluAvcc bele_impl demo_nals = Ret avcc ∧
    @SplitNaluAvcc bele_impl (Some avcc) = Ret (Some (demo_nals, None)) ∧
    @Avcc2Annexb bele_impl (Some avcc) = Ret (Some (annexb, None)) ∧
    annexb = annexb_join demo_nals ∧
    @Annexb2Avcc bele_impl buffer_impl (Some annexb) = Ret (Some (avcc, None)).
Proof.
  apply (avc_avcc_annexb_roundtrip bele_impl_laws buffer_impl_laws demo_nals);
    [discriminate | apply demo_clean | repeat constructor; simpl; lia].
Defined.

Lemma avc_split_total_witness :
  (∃ r, @IterateNaluAvcc bele_impl (Some [0; 0; 0; 9; 1]) = Ret (Some r)) ∧
  is_Some (IterateNaluAnnexb (Some [0; 0; 0; 9; 1])).
Proof. apply (avc_split_total bele_impl_laws). repeat constructor; lia. Defined.

Lemma avc_seq_header_parse_witness :
  @ParseSpsPpsFromSeqHeaderWithoutMalloc bele_impl
    (avc_seq_header [1; 100; 0; 31; 255] [103; 100; 0; 31] [104; 235] []) =
  Ret ([103; 100; 0; 31], [104; 235]).
Proof. apply (avc_seq_header_parse bele_impl_laws); simpl; lia. Defined.
