(* ===== verification/Hevc.v ===== *)
(** * H.265 NAL unit types (src/pkg/hevc/hevc.go) *)

From S2P Require Import Prelude Naza.

Definition NaluTypeSliceTrailN : Z := 0.
Definition NaluTypeSliceRaslR : Z := 9.
Definition NaluTypeSliceBlaWlp : Z := 16.
Definition NaluTypeSliceBlaWradl : Z := 17.
Definition NaluTypeSliceBlaNlp : Z := 18.
Definition NaluTypeSliceIdr : Z := 19.
Definition NaluTypeSliceIdrNlp : Z := 20.
Definition NaluTypeSliceCranut : Z := 21.
Definition NaluTypeSliceRsvIrapVcl22 : Z := 22.
Definition NaluTypeSliceRsvIrapVcl23 : Z := 23.
Definition NaluTypeVps : Z := 32.
Definition NaluTypeSps : Z := 33.
Definition NaluTypePps : Z := 34.
Definition NaluTypeAud : Z := 35.
Definition NaluTypeSei : Z := 39.
Definition NaluTypeSeiSuffix : Z := 40.

(** The keys of [NaluTypeMapping]. *)
Definition NaluTypeMapping : list Z :=
  [0; 1; 2; 3; 4; 5; 6; 7; 8; 9;
   NaluTypeSliceBlaWlp; NaluTypeSliceBlaWradl; NaluTypeSliceBlaNlp; NaluTypeSliceIdr;
   NaluTypeSliceIdrNlp; NaluTypeSliceCranut; NaluTypeSliceRsvIrapVcl22;
   NaluTypeSliceRsvIrapVcl23; NaluTypeVps; NaluTypeSps; NaluTypePps; NaluTypeAud;
   NaluTypeSei; NaluTypeSeiSuffix].

Definition ParseNaluType (v : Z) : Z := Z.shiftr (Z.land v 126) 1.

(** Map membership, as the code tests it. *)
Definition key_in (t : Z) (keys : list Z) : bool := existsb (Z.eqb t) keys.

Definition IsIrapNalu (typ : Z) : bool :=
  (typ >=? NaluTypeSliceBlaWlp) && (typ <=? NaluTypeSliceRsvIrapVcl23).

Lemma ParseNaluType_arith v : is_u8 v → ParseNaluType v = (v / 2) mod 64.
Proof.
  intros Hv. apply Z.eqb_eq. revert v Hv.
  apply (all_bytes_spec (λ v, ParseNaluType v =? (v / 2) mod 64)). vm_compute. reflexivity.
Qed.
