(* ===== verification/RtpSeq.v ===== *)
(** * RTP sequence numbers (src/pkg/rtprtcp/rtp.go)

    [CompareSeq] and [SubSeq] on 16-bit sequence numbers, and their relation to
    serial-number arithmetic modulo 65536. *)

From S2P Require Import Prelude.

Definition NaluTypeAvcSingleMax : Z := 23.
Definition NaluTypeAvcStapa : Z := 24.
Definition NaluTypeAvcFua : Z := 28.
Definition NaluTypeHevcAp : Z := 48.
Definition NaluTypeHevcFua : Z := 49.

Definition CompareSeq (a b : Z) : Z :=
  if a =? b then 0
  else if a >? b then (if u16 (a - b) <? 32768 then 1 else -1)
  else if u16 (b - a) <? 32768 then -1 else 1.

Definition SubSeq (a b : Z) : Z :=
  if a =? b then 0
  else if a >? b then
    let d := u16 (a - b) in if d <? 16384 then d else d - 65536
  else
    let d := u16 (b - a) in if d <? 16384 then - d else 65536 - d.

(** The sequence number [i] steps after [s]. *)
Definition seq_at (s i : Z) : Z := u16 (s + i).

(** How many steps lead forward from [s] to [a]. *)
Definition seq_dist (s a : Z) : Z := u16 (a - s).

Lemma seq_at_range s i : is_u16 (seq_at s i).
Proof. apply u16_range. Qed.

Lemma seq_dist_range s a : is_u16 (seq_dist s a).
Proof. apply u16_range. Qed.

Lemma seq_at_dist s a : is_u16 a → seq_at s (seq_dist s a) = a.
Proof. unfold seq_at, seq_dist. wrap. Qed.

Lemma seq_dist_at s i : is_u16 i → seq_dist s (seq_at s i) = i.
Proof. unfold seq_at, seq_dist. wrap. Qed.

Lemma seq_at_succ s i : seq_at s (i + 1) = u16 (seq_at s i + 1).
Proof. unfold seq_at. wrap. Qed.

Ltac zcases :=
  repeat match goal with
  | |- context [?a =? ?b] => destruct (Z.eqb_spec a b)
  | |- context [?a <? ?b] => destruct (Z.ltb_spec a b)
  | |- context [?a <=? ?b] => destruct (Z.leb_spec a b)
  | |- context [?a >? ?b] => rewrite (Z.gtb_ltb a b)
  end.

Lemma CompareSeq_range a b :
  CompareSeq a b = 0 ∨ CompareSeq a b = 1 ∨ CompareSeq a b = -1.
Proof. unfold CompareSeq. zcases; auto. Qed.

Lemma CompareSeq_refl a : CompareSeq a a = 0.
Proof. unfold CompareSeq. by rewrite Z.eqb_refl. Qed.

Lemma CompareSeq_0 a b : CompareSeq a b = 0 ↔ a = b.
Proof. unfold CompareSeq. zcases; split; intros; try done; lia. Qed.

Lemma CompareSeq_antisym a b : CompareSeq b a = - CompareSeq a b.
Proof. unfold CompareSeq. zcases; lia. Qed.

(** Inside a window of 32768 numbers the comparison is the comparison of the
    distances from the start of the window. *)
Lemma CompareSeq_window s a b :
  is_u16 a → is_u16 b → seq_dist s a < 32768 → seq_dist s b < 32768 →
  CompareSeq a b = Z.sgn (seq_dist s a - seq_dist s b).
Proof.
  intros Ha Hb. unfold CompareSeq, seq_dist. zcases; intros; subst; wrap.
Qed.

(** The result only depends on the difference modulo 65536, except at the
    exact half turn. *)
Lemma CompareSeq_serial a b :
  is_u16 a → is_u16 b → u16 (a - b) ≠ 32768 →
  CompareSeq a b = Z.sgn (if u16 (a - b) <? 32768 then u16 (a - b) else u16 (a - b) - 65536).
Proof.
  intros Ha Hb H. unfold CompareSeq in *.
  zcases; subst; wrap.
Qed.

Lemma SubSeq_1 a b : is_u16 a → is_u16 b → (SubSeq a b = 1 ↔ a = u16 (b + 1)).
Proof. intros Ha Hb. unfold SubSeq. zcases; split; intros; wrap. Qed.

(** [SubSeq] is the signed distance as long as the two numbers are less than
    16384 apart. *)
Lemma SubSeq_near a b d :
  is_u16 b → -16384 < d < 16384 → a = u16 (b + d) → SubSeq a b = d.
Proof. intros Hb Hd ->. unfold SubSeq. zcases; wrap. Qed.

Lemma SubSeq_mod a b : is_u16 a → is_u16 b → u16 (SubSeq a b) = u16 (a - b).
Proof. intros Ha Hb. unfold SubSeq. zcases; wrap. Qed.

(** ** Properties *)

(** On numbers of one window of 32768 [CompareSeq] is the order of their
    distances from the start of the window (so it is total, antisymmetric and
    transitive there, across the wrap-around), and everywhere it is
    antisymmetric and zero exactly on equal numbers. *)
Theorem rtp_compare_seq_order s a b :
  is_u16 a → is_u16 b → seq_dist s a < 32768 → seq_dist s b < 32768 →
  CompareSeq a b = Z.sgn (seq_dist s a - seq_dist s b) ∧
  (∀ x y, CompareSeq y x = - CompareSeq x y ∧ (CompareSeq x y = 0 ↔ x = y)).
Proof.
  intros. split; [by apply CompareSeq_window|]. intros x y.
  split; [apply CompareSeq_antisym | apply CompareSeq_0].
Qed.

(** [SubSeq] is congruent to the difference, exact for numbers less than
    16384 apart, one exactly for the successor; but between 16384 and 32767
    apart it has the opposite sign of [CompareSeq]: a number that is newer is
    reported as older. *)
Theorem rtp_sub_seq a b :
  is_u16 a → is_u16 b →
  u16 (SubSeq a b) = u16 (a - b) ∧
  (∀ d, -16384 < d < 16384 → a = u16 (b + d) → SubSeq a b = d) ∧
  (SubSeq a b = 1 ↔ a = u16 (b + 1)) ∧
  (16384 ≤ a - b < 32768 → CompareSeq a b = 1 ∧ SubSeq a b < 0).
Proof.
  intros Ha Hb. split; [by apply SubSeq_mod|]. split; [intros d; by apply SubSeq_near|].
  split; [by apply SubSeq_1|]. intros Hd. unfold CompareSeq, SubSeq.
  rewrite u16_small by lia.
  zcases; lia.
Qed.

Lemma rtp_compare_seq_order_witness :
  CompareSeq 3 65534 = Z.sgn (seq_dist 65530 3 - seq_dist 65530 65534) ∧
  (∀ x y, CompareSeq y x = - CompareSeq x y ∧ (CompareSeq x y = 0 ↔ x = y)).
Proof.
  apply (rtp_compare_seq_order 65530 3 65534); vm_compute; try split; congruence.
Defined.

Lemma rtp_sub_seq_witness :
  u16 (SubSeq 20000 1) = u16 (20000 - 1) ∧
  (∀ d, -16384 < d < 16384 → 20000 = u16 (1 + d) → SubSeq 20000 1 = d) ∧
  (SubSeq 20000 1 = 1 ↔ 20000 = u16 (1 + 1)) ∧
  (16384 ≤ 20000 - 1 < 32768 → CompareSeq 20000 1 = 1 ∧ SubSeq 20000 1 < 0).
Proof. apply (rtp_sub_seq 20000 1); lia. Defined.
