(* ===== verification/RtpPacket.v ===== *)
(** * RTP packets (src/pkg/rtprtcp/rtp_packet.go)

    The fixed header with CSRC list and header extension: packing, parsing, the
    payload ([Body]), and the key-frame boundary tests. *)

From S2P Require Import Prelude Naza RtpSeq.
From S2P Require Avc Hevc.

Definition RtpFixedHeaderLength : Z := 12.
Definition DefaultRtpVersion : Z := 2.

Definition PositionTypeSingle : Z := 1.
Definition PositionTypeFuaStart : Z := 2.
Definition PositionTypeFuaMiddle : Z := 3.
Definition PositionTypeFuaEnd : Z := 4.
Definition PositionTypeStapa : Z := 5.
Definition PositionTypeAp : Z := 6.

Record RtpHeader := mkRtpHeader {
  Version : Z;
  Padding : Z;
  Extension : Z;
  CsrcCount : Z;
  Mark : Z;
  PacketType : Z;
  Seq : Z;
  Timestamp : Z;
  Ssrc : Z;
  Csrc : list Z;
  ExtensionProfile : Z;
  Extensions : list Z;
  payloadOffset : Z;
  paddingLength : Z;
}.

Record RtpPacket := mkRtpPacket {
  Header : RtpHeader;
  Raw : list Z;
  positionType : Z;
}.

#[global] Instance RtpHeader_eq_dec : EqDecision RtpHeader.
Proof. solve_decision. Defined.
#[global] Instance RtpPacket_eq_dec : EqDecision RtpPacket.
Proof. solve_decision. Defined.

(** [pkt.positionType = pos] *)
Definition set_position (pkt : RtpPacket) (pos : Z) : RtpPacket :=
  mkRtpPacket (Header pkt) (Raw pkt) pos.

Definition MakeDefaultRtpHeader : RtpHeader :=
  mkRtpHeader DefaultRtpVersion 0 0 0 0 0 0 0 0 [] 0 [] RtpFixedHeaderLength 0.

Section Rtp.
Context {B : Bele}.

Definition PackTo (h : RtpHeader) (out : list Z) : outcome (list Z) :=
  out ← go_set out 0
    (Z.lor (Z.lor (Z.lor (CsrcCount h) (u8 (Z.shiftl (Extension h) 4)))
                  (u8 (Z.shiftl (Padding h) 5))) (u8 (Z.shiftl (Version h) 6)));
  out ← go_set out 1 (Z.lor (PacketType h) (u8 (Z.shiftl (Mark h) 7)));
  out ← go_upd_from out 2 (BePutUint16 (Seq h));
  out ← go_upd_from out 4 (BePutUint32 (Timestamp h));
  go_upd_from out 8 (BePutUint32 (Ssrc h)).

Definition MakeRtpPacket (h : RtpHeader) (payload : list Z) : outcome RtpPacket :=
  let raw := go_make (RtpFixedHeaderLength + len payload) in
  raw ← PackTo h raw;
  raw ← go_copy_at raw RtpFixedHeaderLength payload;
  Ret (mkRtpPacket h raw 0).

(** The CSRC loop: [n] entries left, read at [offset]. *)
Fixpoint parse_csrc (b : list Z) (n : nat) (offset : Z) : outcome (list Z * Z) :=
  match n with
  | O => Ret ([], offset)
  | S n =>
      if offset + 4 >? len b then Fail ErrRtpRtcpShortBuffer else
      s ← go_from b offset;
      v ← BeUint32 s;
      '(vs, offset) ← parse_csrc b n (offset + 4);
      Ret (v :: vs, offset)
  end.

(** The extension block: profile, content, new offset.  The content length
    [4*extensionLength] is computed in 16 bits. *)
Definition parse_extension (b : list Z) (offset : Z) : outcome (Z * list Z * Z) :=
  if offset + 4 >? len b then Fail ErrRtpRtcpShortBuffer else
  s ← go_from b offset;
  profile ← BeUint16 s;
  let offset := offset + 2 in
  s ← go_from b offset;
  extensionLength ← BeUint16 s;
  let offset := offset + 2 in
  if offset + u16 (4 * extensionLength) >? len b then Fail ErrRtpRtcpShortBuffer else
  ext ← go_slice b offset (offset + u16 (4 * extensionLength));
  Ret (profile, ext, offset + u16 (4 * extensionLength)).

Definition ParseRtpHeader (b : list Z) : outcome RtpHeader :=
  if len b <? RtpFixedHeaderLength then Fail ErrRtpRtcpShortBuffer else
  b0 ← go_index b 0;
  b1 ← go_index b 1;
  s ← go_from b 2; seq ← BeUint16 s;
  s ← go_from b 4; timestamp ← BeUint32 s;
  s ← go_from b 8; ssrc ← BeUint32 s;
  let padding := Z.land (Z.shiftr b0 5) 1 in
  let extension := Z.land (Z.shiftr b0 4) 1 in
  let csrcCount := Z.land b0 15 in
  '(csrc, offset) ← parse_csrc b (Z.to_nat csrcCount) RtpFixedHeaderLength;
  '(profile, ext, offset) ←
    (if negb (extension =? 0) then parse_extension b offset else Ret (0, [], offset));
  if offset >=? len b then Fail ErrRtpRtcpShortBuffer else
  paddingLength ← (if padding =? 1 then go_index b (len b - 1) else Ret 0);
  Ret (mkRtpHeader (Z.shiftr b0 6) padding extension csrcCount (Z.shiftr b1 7)
         (Z.land b1 127) seq timestamp ssrc csrc profile ext (u32 offset) paddingLength).

Definition ParseRtpPacket (b : list Z) : outcome RtpPacket :=
  h ← ParseRtpHeader b;
  Ret (mkRtpPacket h (go_copy (go_make (len b)) b) 0).
End Rtp.

(** The payload.  (When [payloadOffset] is zero the code also stores 12 in the
    packet; later calls then take the other branch with the same value.) *)
Definition Body (p : RtpPacket) : outcome (list Z) :=
  let h := Header p in
  let off := if payloadOffset h =? 0 then RtpFixedHeaderLength else payloadOffset h in
  if Padding h =? 1 then go_slice (Raw p) off (len (Raw p) - paddingLength h)
  else go_from (Raw p) off.

Definition avc_boundary_types : list Z :=
  [Avc.NaluTypeSps; Avc.NaluTypePps; Avc.NaluTypeIdrSlice].

Definition IsAvcBoundary (pkt : RtpPacket) : outcome bool :=
  b ← Body pkt;
  b0 ← go_index b 0;
  let outer := Avc.ParseNaluType b0 in
  if Hevc.key_in outer avc_boundary_types then Ret true else
  r ← (if outer =? NaluTypeAvcStapa then
         b3 ← go_index b 3; Ret (Hevc.key_in (Avc.ParseNaluType b3) avc_boundary_types)
       else Ret false);
  if r : bool then Ret true else
  if outer =? NaluTypeAvcFua then
    b1 ← go_index b 1;
    Ret (Hevc.key_in (Avc.ParseNaluType b1) avc_boundary_types && negb (Z.land b1 128 =? 0))
  else Ret false.

Definition hevc_boundary_types : list Z :=
  [Hevc.NaluTypeVps; Hevc.NaluTypeSps; Hevc.NaluTypePps; Hevc.NaluTypeSliceBlaWlp;
   Hevc.NaluTypeSliceBlaWradl; Hevc.NaluTypeSliceBlaNlp; Hevc.NaluTypeSliceIdr;
   Hevc.NaluTypeSliceIdrNlp; Hevc.NaluTypeSliceCranut; Hevc.NaluTypeSliceRsvIrapVcl22;
   Hevc.NaluTypeSliceRsvIrapVcl23].

Definition IsHevcBoundary (pkt : RtpPacket) : outcome bool :=
  b ← Body pkt;
  b0 ← go_index b 0;
  let outer := Hevc.ParseNaluType b0 in
  if Hevc.key_in outer hevc_boundary_types then Ret true else
  if outer =? NaluTypeHevcFua then
    b2 ← go_index b 2;
    Ret (Hevc.key_in (Z.land b2 63) hevc_boundary_types && negb (Z.land b2 128 =? 0))
  else Ret false.

(** ** Specification: the wire format of RFC 3550, section 5.1 *)

Definition first_byte (v p x c : Z) : Z :=
  Z.lor (Z.lor (Z.lor c (u8 (Z.shiftl x 4))) (u8 (Z.shiftl p 5))) (u8 (Z.shiftl v 6)).
Definition second_byte (m pt : Z) : Z := Z.lor pt (u8 (Z.shiftl m 7)).

Definition fixed_bytes (h : RtpHeader) : list Z :=
  [first_byte (Version h) (Padding h) (Extension h) (CsrcCount h);
   second_byte (Mark h) (PacketType h)] ++
  be_bytes 2 (Seq h) ++ be_bytes 4 (Timestamp h) ++ be_bytes 4 (Ssrc h).

Definition csrc_bytes (csrc : list Z) : list Z := concat (map (be_bytes 4) csrc).

Definition extension_bytes (h : RtpHeader) : list Z :=
  if Extension h =? 1
  then be_bytes 2 (ExtensionProfile h) ++ be_bytes 2 (len (Extensions h) / 4) ++ Extensions h
  else [].

Definition rtp_wire (h : RtpHeader) (payload pad : list Z) : list Z :=
  fixed_bytes h ++ csrc_bytes (Csrc h) ++ extension_bytes h ++ payload ++ pad.

(** The fields have their widths and agree with each other. *)
Record header_ok (h : RtpHeader) : Prop := {
  ok_version : 0 ≤ Version h < 4;
  ok_padding : 0 ≤ Padding h < 2;
  ok_extension : 0 ≤ Extension h < 2;
  ok_count : CsrcCount h = len (Csrc h);
  ok_count_range : len (Csrc h) < 16;
  ok_mark : 0 ≤ Mark h < 2;
  ok_pt : 0 ≤ PacketType h < 128;
  ok_seq : is_u16 (Seq h);
  ok_ts : is_u32 (Timestamp h);
  ok_ssrc : is_u32 (Ssrc h);
  ok_csrc : Forall (λ v, is_u32 v) (Csrc h);
  ok_profile : is_u16 (ExtensionProfile h);
  ok_ext_bytes : is_bytes (Extensions h);
  ok_ext_len : len (Extensions h) mod 4 = 0 ∧ len (Extensions h) < 65536;
  ok_no_ext : Extension h = 0 → ExtensionProfile h = 0 ∧ Extensions h = [];
  ok_offset : payloadOffset h =
    RtpFixedHeaderLength + 4 * len (Csrc h) + len (extension_bytes h);
}.

(** The padding that goes with the header: none, or a run whose last byte is
    its length. *)
Definition pad_ok (h : RtpHeader) (pad : list Z) : Prop :=
  is_bytes pad ∧ paddingLength h = len pad ∧
  if Padding h =? 1 then last pad = Some (len pad) else pad = [].

Lemma first_byte_fields v p x c :
  0 ≤ v < 4 → 0 ≤ p < 2 → 0 ≤ x < 2 → 0 ≤ c < 16 →
  let b := first_byte v p x c in
  Z.shiftr b 6 = v ∧ Z.land (Z.shiftr b 5) 1 = p ∧ Z.land (Z.shiftr b 4) 1 = x ∧
  Z.land b 15 = c ∧ is_u8 b.
Proof.
  intros Hv Hp Hx Hc. cbv zeta.
  pose (P := λ v p x c, let b := first_byte v p x c in
    (Z.shiftr b 6 =? v) && (Z.land (Z.shiftr b 5) 1 =? p) && (Z.land (Z.shiftr b 4) 1 =? x) &&
    (Z.land b 15 =? c) && (0 <=? b) && (b <? 256)).
  assert (H : P v p x c = true).
  { revert c Hc. apply (for_range_spec 16). revert x Hx.
    apply (for_range_spec 2 (λ x, for_range 16 (P v p x))). revert p Hp.
    apply (for_range_spec 2 (λ p, for_range 2 (λ x, for_range 16 (P v p x)))). revert v Hv.
    apply (for_range_spec 4 (λ v, for_range 2 (λ p, for_range 2 (λ x, for_range 16 (P v p x))))).
    vm_compute. reflexivity. }
  unfold P in H. cbv zeta in H. lia.
Qed.

Lemma second_byte_fields m pt :
  0 ≤ m < 2 → 0 ≤ pt < 128 →
  let b := second_byte m pt in Z.shiftr b 7 = m ∧ Z.land b 127 = pt ∧ is_u8 b.
Proof.
  intros Hm Hp. cbv zeta.
  pose (P := λ m pt, let b := second_byte m pt in
    (Z.shiftr b 7 =? m) && (Z.land b 127 =? pt) && (0 <=? b) && (b <? 256)).
  assert (H : P m pt = true).
  { revert pt Hp. apply (for_range_spec 128). revert m Hm.
    apply (for_range_spec 2 (λ m, for_range 128 (P m))). vm_compute. reflexivity. }
  unfold P in H. cbv zeta in H. lia.
Qed.

Lemma length_fixed_bytes h : length (fixed_bytes h) = 12%nat.
Proof. reflexivity. Qed.

Lemma length_csrc_bytes l : length (csrc_bytes l) = (4 * length l)%nat.
Proof.
  induction l as [|x l IH]; [done|].
  change (csrc_bytes (x :: l)) with (be_bytes 4 x ++ csrc_bytes l). len_lia.
Qed.

#[export] Hint Rewrite length_fixed_bytes length_csrc_bytes : len.

(** The fields read back as parsed, padding length aside. *)
Lemma header_eta h :
  h = mkRtpHeader (Version h) (Padding h) (Extension h) (CsrcCount h) (Mark h) (PacketType h)
        (Seq h) (Timestamp h) (Ssrc h) (Csrc h) (ExtensionProfile h) (Extensions h)
        (payloadOffset h) (paddingLength h).
Proof. by destruct h. Qed.

Section RtpFacts.
Context {B : Bele} {HB : BeleLaws B}.

Lemma PackTo_spec h out :
  12 ≤ len out → is_u16 (Seq h) → is_u32 (Timestamp h) → is_u32 (Ssrc h) →
  PackTo h out = Ret (fixed_bytes h ++ drop 12 out).
Proof.
  intros Hl Hs Ht Hc.
  do 12 (destruct out as [|? out]; [simpl in Hl; lia|]). clear Hl.
  unfold PackTo. repeat go_write.
  rewrite BePutUint16_Ret by (done || len_lia). cbn [drop]. repeat go_write.
  rewrite BePutUint32_Ret by (done || len_lia). cbn [drop]. repeat go_write.
  rewrite BePutUint32_Ret by (done || len_lia). cbn [drop]. by repeat go_write.
Qed.

Lemma parse_csrc_spec l pre rest :
  Forall (λ v, is_u32 v) l →
  parse_csrc (pre ++ csrc_bytes l ++ rest) (length l) (len pre) =
  Ret (l, len pre + 4 * len l).
Proof.
  revert pre. induction l as [|x l IH]; intros pre Hl.
  { simpl. do 2 f_equal. lia. }
  apply List.Forall_cons_iff in Hl as [Hx Hl]. cbn [parse_csrc length].
  change (csrc_bytes (x :: l)) with (be_bytes 4 x ++ csrc_bytes l).
  rewrite Z.gtb_ltb. go_test. go_read.
  rewrite <- (app_assoc (be_bytes 4 x)), BeUint32_be, bind_Ret by done.
  rewrite (app_assoc pre).
  replace (len pre + 4) with (len (pre ++ be_bytes 4 x)) by len_lia.
  rewrite IH by done. simpl. do 2 f_equal. len_lia.
Qed.

Lemma parse_extension_spec prof ext pre rest :
  is_u16 prof → len ext mod 4 = 0 → len ext < 65536 →
  parse_extension (pre ++ be_bytes 2 prof ++ be_bytes 2 (len ext / 4) ++ ext ++ rest) (len pre) =
  Ret (prof, ext, len pre + 4 + len ext).
Proof.
  intros Hp Hm Hl. unfold parse_extension. rewrite !Z.gtb_ltb.
  assert (Hq : is_u16 (len ext / 4)) by zdm.
  assert (Hw : u16 (4 * (len ext / 4)) = len ext) by wrap.
  go_test. go_read. rewrite BeUint16_be, bind_Ret by done.
  go_read. rewrite BeUint16_be, bind_Ret, Hw by done.
  go_test. go_read. do 2 f_equal. lia.
Qed.

Lemma ParseRtpHeader_wire h payload pad :
  header_ok h → pad_ok h pad → payload ≠ [] → len (rtp_wire h payload pad) < 4294967296 →
  ParseRtpHeader (rtp_wire h payload pad) = Ret h.
Proof.
  intros [] (Hpb & Hpl & Hpad) Hne Hlen.
  destruct (first_byte_fields (Version h) (Padding h) (Extension h) (CsrcCount h))
    as (F1 & F2 & F3 & F4 & F5); [lia..|].
  destruct (second_byte_fields (Mark h) (PacketType h)) as (S1 & S2 & S3); [lia..|].
  assert (Hpos : 0 < len payload) by (destruct payload; [done|len_lia]).
  unfold rtp_wire, fixed_bytes in Hlen |- *. cbn [app] in Hlen |- *.
  set (b0 := first_byte _ _ _ _) in *. set (b1 := second_byte _ _) in *.
  unfold ParseRtpHeader, RtpFixedHeaderLength in *.
  rewrite <- !app_assoc. go_test. go_read. go_read. go_read.
  rewrite BeUint16_be, bind_Ret by done. go_read.
  rewrite BeUint32_be, bind_Ret by done. go_read.
  rewrite BeUint32_be, bind_Ret by done. rewrite F1, F2, F3, F4, S1, S2.
  set (w := b0 :: _).
  set (hd := [b0; b1] ++ be_bytes 2 (Seq h) ++ be_bytes 4 (Timestamp h) ++ be_bytes 4 (Ssrc h)).
  assert (Ew : w = hd ++ csrc_bytes (Csrc h) ++ extension_bytes h ++ payload ++ pad)
    by (unfold w, hd; cbn [app]; by rewrite <- !app_assoc).
  assert (Hhd : len hd = 12) by reflexivity.
  rewrite ok_count0, Nat2Z.id. rewrite Ew at 1. rewrite <- Hhd at 1.
  rewrite parse_csrc_spec, bind_Ret by done. cbv beta iota.
  set (off := len hd + 4 * len (Csrc h)).
  assert (Hext : (if negb (Extension h =? 0) then parse_extension w off else Ret (0, [], off)) =
                 Ret (ExtensionProfile h, Extensions h, off + len (extension_bytes h))).
  { rewrite Ew. unfold extension_bytes. destruct (Z.eqb_spec (Extension h) 1) as [E|E].
    - rewrite E. change (negb (1 =? 0)) with true. cbv iota. rewrite (app_assoc hd).
      replace off with (len (hd ++ csrc_bytes (Csrc h))) by (unfold off; len_lia).
      rewrite <- !app_assoc, (app_assoc hd), parse_extension_spec by (try done; lia).
      do 2 f_equal. len_lia.
    - rewrite (proj2 (Z.eqb_eq (Extension h) 0)) by lia. cbn [negb].
      destruct ok_no_ext0 as [-> ->]; [lia|]. do 2 f_equal. simpl. lia. }
  rewrite Hext, bind_Ret. cbv beta iota.
  assert (Hw : len w = off + len (extension_bytes h) + len payload + len pad)
    by (rewrite Ew; unfold off; len_lia).
  assert (Hoff : off + len (extension_bytes h) = payloadOffset h)
    by (unfold off; rewrite Hhd, ok_offset0; unfold RtpFixedHeaderLength; lia).
  rewrite Hoff in *. go_test.
  assert (Hbyte : (if Padding h =? 1 then go_index w (len w - 1) else Ret 0) =
                  Ret (paddingLength h)).
  { rewrite Hpl. destruct (Z.eqb_spec (Padding h) 1); [|by subst pad].
    apply last_Some in Hpad as [pad' Ep]. rewrite Ew, Ep at 1.
    rewrite !(app_assoc _ _ (_ ++ [_])), app_assoc. apply go_index_app.
    rewrite Hw. rewrite Ep at 1. rewrite <- Hoff. unfold off. len_lia. }
  rewrite Hbyte, bind_Ret. rewrite u32_small; [|].
  - rewrite <- ok_count0. by rewrite <- header_eta.
  - rewrite Ew in Hw. cbn [app] in Hlen. rewrite <- !app_assoc in Hlen.
    fold w in Hlen. rewrite Ew in Hlen. lia.
Qed.

Lemma Body_wire h payload pad pos :
  header_ok h → pad_ok h pad →
  Body (mkRtpPacket h (rtp_wire h payload pad) pos) = Ret payload.
Proof.
  intros [] (Hpb & Hpl & Hpad). unfold Body. cbn [Header Raw].
  unfold RtpFixedHeaderLength in *.
  assert (E : rtp_wire h payload pad =
    (fixed_bytes h ++ csrc_bytes (Csrc h) ++ extension_bytes h) ++ payload ++ pad)
    by (unfold rtp_wire; by rewrite <- !app_assoc).
  assert (Hoff : payloadOffset h = len (fixed_bytes h ++ csrc_bytes (Csrc h) ++ extension_bytes h))
    by (rewrite ok_offset0; len_lia).
  go_test. rewrite E. destruct (Padding h =? 1).
  - rewrite Hpl. apply go_slice_app; [done|len_lia].
  - rewrite Hpad, app_nil_r. by apply go_from_app.
Qed.

Lemma MakeRtpPacket_spec h payload :
  is_u16 (Seq h) → is_u32 (Timestamp h) → is_u32 (Ssrc h) →
  MakeRtpPacket h payload = Ret (mkRtpPacket h (fixed_bytes h ++ payload) 0).
Proof.
  intros Hs Ht Hc. unfold MakeRtpPacket, RtpFixedHeaderLength.
  rewrite PackTo_spec, bind_Ret by (try done; rewrite length_go_make; lia).
  replace (drop 12 (go_make (12 + len payload))) with (go_make (len payload)).
  - rewrite <- (app_nil_r (go_make _)), go_copy_at_app, bind_Ret, app_nil_r
      by (try done; rewrite length_go_make; lia). done.
  - rewrite go_make_add by lia. by rewrite drop_app_length'.
Qed.

(** *** Arbitrary input *)

Lemma parse_csrc_cases b n offset :
  is_bytes b → 0 ≤ offset →
  parse_csrc b n offset = Fail ErrRtpRtcpShortBuffer ∨
  ∃ vs, parse_csrc b n offset = Ret (vs, offset + 4 * Z.of_nat n) ∧
    (n = 0%nat ∨ offset + 4 * Z.of_nat n ≤ len b) ∧ length vs = n ∧ Forall (λ v, is_u32 v) vs.
Proof.
  intros Hb. revert offset. induction n as [|n IH]; intros offset Ho.
  { right. exists []. simpl. repeat split; auto. do 2 f_equal. lia. }
  cbn [parse_csrc]. rewrite Z.gtb_ltb.
  destruct (Z.ltb_spec (len b) (offset + 4)); [by left|].
  rewrite (go_from_Ret b offset), bind_Ret by lia.
  destruct (BeUint32_Ret (drop (Z.to_nat offset) b)) as (v & -> & Hv);
    [by apply is_bytes_drop | rewrite length_drop; lia |]. rewrite bind_Ret.
  destruct (IH (offset + 4)) as [->|(vs & -> & Hn & Hl & Hvs)]; [lia|by left|right].
  exists (v :: vs). simpl. repeat split; [|lia|by rewrite Hl|by constructor].
  do 2 f_equal. lia.
Qed.

Lemma parse_extension_cases b offset :
  is_bytes b → 0 ≤ offset →
  parse_extension b offset = Fail ErrRtpRtcpShortBuffer ∨
  ∃ prof ext, parse_extension b offset = Ret (prof, ext, offset + 4 + len ext) ∧
    offset + 4 + len ext ≤ len b ∧ len ext mod 4 = 0 ∧ len ext < 65536.
Proof.
  intros Hb Ho. unfold parse_extension. rewrite !Z.gtb_ltb.
  destruct (Z.ltb_spec (len b) (offset + 4)); [by left|].
  rewrite (go_from_Ret b offset), bind_Ret by lia.
  destruct (BeUint16_Ret (drop (Z.to_nat offset) b)) as (prof & -> & Hv);
    [by apply is_bytes_drop | rewrite length_drop; lia |]. rewrite bind_Ret.
  rewrite (go_from_Ret b (offset + 2)), bind_Ret by lia.
  destruct (BeUint16_Ret (drop (Z.to_nat (offset + 2)) b)) as (el & -> & Hel);
    [by apply is_bytes_drop | rewrite length_drop; lia |]. rewrite bind_Ret, Z.gtb_ltb.
  pose proof (u16_range (4 * el)).
  destruct (Z.ltb_spec (len b) (offset + 2 + 2 + u16 (4 * el))); [by left|right].
  rewrite go_slice_Ret, bind_Ret by lia. do 2 eexists. split.
  - do 2 f_equal. rewrite length_take, length_drop. lia.
  - rewrite length_take, length_drop. split; [lia|].
    replace (Z.of_nat _) with (u16 (4 * el)) by lia. split; [|lia].
    unfold u16. clear -Hel. zdm.
Qed.

(** What parsing arbitrary bytes can do. *)
Lemma ParseRtpHeader_cases b :
  is_bytes b → len b < 4294967296 →
  ParseRtpHeader b = Fail ErrRtpRtcpShortBuffer ∨
  ∃ h, ParseRtpHeader b = Ret h ∧ 12 ≤ payloadOffset h < len b ∧
    is_u16 (Seq h) ∧ is_u32 (Timestamp h) ∧ is_u32 (Ssrc h) ∧
    CsrcCount h = len (Csrc h) ∧
    (Padding h = 0 ∧ paddingLength h = 0 ∨
     Padding h = 1 ∧ last b = Some (paddingLength h)).
Proof.
  intros Hb Hlen. unfold ParseRtpHeader, RtpFixedHeaderLength.
  destruct (Z.ltb_spec (len b) 12); [by left|].
  destruct (go_index_range b 0) as (b0 & E0 & L0); [lia|]. rewrite E0, bind_Ret.
  destruct (go_index_range b 1) as (b1 & E1 & L1); [lia|]. rewrite E1, bind_Ret.
  rewrite (go_from_Ret b 2), bind_Ret by lia.
  destruct (BeUint16_Ret (drop (Z.to_nat 2) b)) as (seq & -> & Hseq);
    [by apply is_bytes_drop | rewrite length_drop; lia |]. rewrite bind_Ret.
  rewrite (go_from_Ret b 4), bind_Ret by lia.
  destruct (BeUint32_Ret (drop (Z.to_nat 4) b)) as (ts & -> & Hts);
    [by apply is_bytes_drop | rewrite length_drop; lia |]. rewrite bind_Ret.
  rewrite (go_from_Ret b 8), bind_Ret by lia.
  destruct (BeUint32_Ret (drop (Z.to_nat 8) b)) as (ssrc & -> & Hssrc);
    [by apply is_bytes_drop | rewrite length_drop; lia |]. rewrite bind_Ret.
  assert (Hb0 : is_u8 b0) by (by eapply go_index_bytes).
  set (c := Z.land b0 15). set (p := Z.land (Z.shiftr b0 5) 1).
  assert (Hc : 0 ≤ c < 16).
  { unfold c. change 15 with (2 ^ 4 - 1). rewrite land_mask by lia. zdm. }
  assert (Hp : p = 0 ∨ p = 1).
  { unfold p. change 1 with (2 ^ 1 - 1). rewrite land_mask by lia. zdm. }
  destruct (parse_csrc_cases b (Z.to_nat c) 12 Hb) as [->|(vs & -> & _ & Hvs & _)];
    [lia | by left |]. rewrite bind_Ret. cbv beta iota.
  set (off := 12 + 4 * Z.of_nat (Z.to_nat c)).
  set (ext := if negb _ then parse_extension b off else _).
  assert (Hext : ext = Fail ErrRtpRtcpShortBuffer ∨
            ∃ prof e o, ext = Ret (prof, e, o) ∧ off ≤ o).
  { unfold ext. destruct (negb _); [|right; do 3 eexists; split; [done|lia]].
    destruct (parse_extension_cases b off Hb) as [->|(prof & e & -> & _)]; [unfold off; lia|by left|].
    right. do 3 eexists; split; [done|lia]. }
  destruct Hext as [->|(prof & e & o & -> & Ho)]; [by left|]. rewrite bind_Ret. cbv beta iota.
  rewrite Z.geb_leb. destruct (Z.leb_spec (len b) o); [by left|]. right.
  assert (Hl : c = len vs) by lia.
  destruct Hp as [Hp|Hp]; rewrite Hp; cbn [Z.eqb Pos.eqb].
  - rewrite bind_Ret. eexists. split; [done|]. simpl.
    rewrite u32_small by (unfold off in *; lia). unfold off in *.
    repeat split; lia.
  - destruct (go_index_range b (len b - 1)) as (x & E & Hx); [lia|]. rewrite E, bind_Ret.
    eexists. split; [done|]. simpl.
    rewrite u32_small by (unfold off in *; lia). unfold off in *.
    repeat split; try lia. right; split; [done|].
    rewrite last_lookup. rewrite <- Hx. f_equal. lia.
Qed.
End RtpFacts.

(** ** Properties *)

(** Parsing a packet in the RFC 3550 wire format (any CSRC list, header
    extension below 2^16 bytes, padding) gives back exactly its header fields
    and a copy of the bytes, and [Body] is exactly the payload. *)
Theorem rtp_parse_wire {B : Bele} (HB : BeleLaws B) h payload pad :
  header_ok h → pad_ok h pad → payload ≠ [] → len (rtp_wire h payload pad) < 4294967296 →
  ∃ pkt, ParseRtpPacket (rtp_wire h payload pad) = Ret pkt ∧
    Header pkt = h ∧ Raw pkt = rtp_wire h payload pad ∧ Body pkt = Ret payload.
Proof.
  intros Hh Hp Hne Hl. unfold ParseRtpPacket. rewrite ParseRtpHeader_wire, bind_Ret by done.
  rewrite go_copy_full by (rewrite length_go_make; lia).
  eexists. repeat split. by apply Body_wire.
Qed.

(** A header as the packers build it. *)
Definition plain_header (h : RtpHeader) : Prop :=
  header_ok h ∧ Csrc h = [] ∧ Extension h = 0 ∧ Padding h = 0 ∧ paddingLength h = 0.

Lemma plain_wire h payload :
  plain_header h → rtp_wire h payload [] = fixed_bytes h ++ payload ∧ pad_ok h [].
Proof.
  intros (Hh & Hc & He & Hp & Hl). unfold rtp_wire, extension_bytes, pad_ok.
  rewrite Hc, He, Hp, Hl. split.
  - simpl. by rewrite app_nil_r.
  - repeat split. constructor.
Qed.

Lemma plain_parse {B : Bele} {HB : BeleLaws B} h payload :
  plain_header h → payload ≠ [] → len payload < 4294967280 →
  ParseRtpPacket (fixed_bytes h ++ payload) = Ret (mkRtpPacket h (fixed_bytes h ++ payload) 0).
Proof.
  intros Hh Hne Hl. destruct (plain_wire h payload Hh) as [Hw Hpad]. destruct Hh as [Hh _].
  rewrite <- Hw. unfold ParseRtpPacket.
  rewrite ParseRtpHeader_wire, bind_Ret by (try done; rewrite Hw; len_lia).
  by rewrite go_copy_full by (rewrite length_go_make; lia).
Qed.

Lemma plain_body h payload pos :
  plain_header h → Body (mkRtpPacket h (fixed_bytes h ++ payload) pos) = Ret payload.
Proof.
  intros Hh. destruct (plain_wire h payload Hh) as [Hw Hpad]. rewrite <- Hw.
  apply Body_wire; [apply Hh | done].
Qed.

(** A packet made by [MakeRtpPacket] from a plain header and a non-empty
    payload parses back to the same packet, with the same payload. *)
Theorem rtp_make_parse {B : Bele} (HB : BeleLaws B) h payload :
  plain_header h → payload ≠ [] → len payload < 4294967280 →
  ∃ pkt, MakeRtpPacket h payload = Ret pkt ∧ ParseRtpPacket (Raw pkt) = Ret pkt ∧
    Body pkt = Ret payload.
Proof.
  intros Hh Hne Hl. eexists. split; [apply MakeRtpPacket_spec; apply Hh|].
  cbn [Raw]. split; [by apply plain_parse | by apply plain_body].
Qed.

(** C40: parsing arbitrary bytes never panics; the body of a parsed packet is what
    follows its header, less the padding that its last byte counts: empty when
    the padding is all of it, and [Body] panics exactly when the padding counts
    more than that. *)
Theorem rtp_parse_total {B : Bele} (HB : BeleLaws B) b :
  is_bytes b → len b < 4294967296 →
  no_panic (ParseRtpPacket b) ∧
  ∀ pkt, ParseRtpPacket b = Ret pkt → let h := Header pkt in let n := len b - payloadOffset h - paddingLength h in
    Raw pkt = b ∧ 12 ≤ payloadOffset h < len b ∧
    (Padding h = 0 ∧ paddingLength h = 0 ∨ Padding h = 1 ∧ last b = Some (paddingLength h)) ∧
    Body pkt = if n <? 0 then Panic else Ret (take (Z.to_nat n) (drop (Z.to_nat (payloadOffset h)) b)).
Proof.
  intros Hb Hl. unfold ParseRtpPacket, no_panic.
  destruct (ParseRtpHeader_cases b Hb Hl) as [->|(h & -> & Hoff & _ & _ & _ & _ & Hpad)]; [done|].
  simpl. split; [done|]. intros pkt [= <-]. cbn [Header Raw].
  rewrite go_copy_full by (rewrite length_go_make; lia). split; [done|]. split; [done|]. split; [done|].
  unfold Body. cbn [Header Raw]. rewrite (proj2 (Z.eqb_neq (payloadOffset h) 0)) by lia.
  destruct Hpad as [[-> ->]|[-> Hlast]]; cbn [Z.eqb].
  - rewrite go_from_Ret, (proj2 (Z.ltb_ge _ 0)) by lia. rewrite take_ge; [done|]. rewrite length_drop. lia.
  - assert (0 ≤ paddingLength h).
    { rewrite last_lookup in Hlast. eapply Forall_lookup_1 in Hlast; [|done]. simpl in Hlast. lia. }
    destruct (Z.ltb_spec (len b - payloadOffset h - paddingLength h) 0).
    + by rewrite go_slice_Panic by lia.
    + rewrite go_slice_Ret by lia. do 3 f_equal. lia.
Qed.

(** The padding count of the last byte is not checked by the parser: this
    14-byte packet parses, and reading its body panics. *)
Definition bad_padding_packet : list Z := [160; 0; 0; 1; 0; 0; 0; 0; 0; 0; 0; 0; 1; 255].

(** There is a packet [ParseRtpPacket] accepts and whose [Body] panics. *)
Theorem rtp_bad_padding_panics :
  ∃ pkt, @ParseRtpPacket bele_impl bad_padding_packet = Ret pkt ∧ Body pkt = Panic.
Proof. eexists. split; [vm_compute; reflexivity | vm_compute; reflexivity]. Qed.

(** The extension length is computed modulo 65536: when the length field
    says [el] 32-bit words, the parser takes only [4*el mod 65536] bytes of
    extension, so for 16384 words it takes none and goes on in the middle of
    the extension. *)
Theorem rtp_extension_truncated {B : Bele} (HB : BeleLaws B) prof el rest :
  is_u16 prof → is_u16 el → 4 * el ≤ len rest →
  ∃ ext, parse_extension (be_bytes 2 prof ++ be_bytes 2 el ++ rest) 0 =
           Ret (prof, ext, 4 + len ext) ∧
    len ext = (4 * el) mod 65536 ∧ (el = 16384 → ext = []).
Proof.
  intros Hp He Hl. unfold parse_extension. go_test. go_read.
  rewrite BeUint16_be, bind_Ret by done. go_read. rewrite BeUint16_be, bind_Ret by done.
  pose proof (u16_range (4 * el)). assert (u16 (4 * el) ≤ 4 * el) by wrap. go_test.
  rewrite go_slice_app_r, go_slice_app_r, go_slice_Ret, bind_Ret by len_lia.
  assert (Hlen : len (take (Z.to_nat (0 + 2 + 2 + u16 (4 * el) - len (be_bytes 2 prof) -
      len (be_bytes 2 el) - (0 + 2 + 2 - len (be_bytes 2 prof) - len (be_bytes 2 el))))
      (drop (Z.to_nat (0 + 2 + 2 - len (be_bytes 2 prof) - len (be_bytes 2 el))) rest)) =
      u16 (4 * el)) by len_lia.
  eexists. split; [do 2 f_equal; rewrite Hlen; lia|]. split; [by rewrite Hlen|].
  intros ->. apply length_zero_iff_nil. change (u16 (4 * 16384)) with 0 in *. lia.
Qed.

(** ** Witnesses *)

Definition demo_header : RtpHeader :=
  mkRtpHeader 2 1 1 2 1 96 65535 4294967295 7 [1; 2] 48862 [49; 0; 2; 0] 28 3.

Lemma rtp_parse_wire_witness :
  ∃ pkt, @ParseRtpPacket bele_impl (rtp_wire demo_header [101; 1; 2] [0; 0; 3]) = Ret pkt ∧
    Header pkt = demo_header ∧ Raw pkt = rtp_wire demo_header [101; 1; 2] [0; 0; 3] ∧
    Body pkt = Ret [101; 1; 2].
Proof.
  apply (rtp_parse_wire bele_impl_laws demo_header [101; 1; 2] [0; 0; 3]).
  - split; simpl; try lia; try done; repeat constructor; simpl; lia.
  - repeat split; simpl; try done. repeat constructor; simpl; lia.
  - discriminate.
  - vm_compute. reflexivity.
Defined.

Definition demo_plain : RtpHeader := mkRtpHeader 2 0 0 0 1 96 10 90000 7 [] 0 [] 12 0.

Lemma demo_plain_ok : plain_header demo_plain.
Proof. repeat split; simpl; try lia; try done; constructor. Qed.

Lemma rtp_make_parse_witness :
  ∃ pkt, @MakeRtpPacket bele_impl demo_plain [101; 1] = Ret pkt ∧
    @ParseRtpPacket bele_impl (Raw pkt) = Ret pkt ∧ Body pkt = Ret [101; 1].
Proof.
  apply (rtp_make_parse bele_impl_laws demo_plain [101; 1] demo_plain_ok);
    [discriminate | vm_compute; reflexivity].
Defined.

Lemma rtp_parse_total_witness :
  no_panic (@ParseRtpPacket bele_impl bad_padding_packet) ∧
  ∀ pkt, @ParseRtpPacket bele_impl bad_padding_packet = Ret pkt → let b := bad_padding_packet in
    let h := Header pkt in let n := len b - payloadOffset h - paddingLength h in
    Raw pkt = b ∧ 12 ≤ payloadOffset h < len b ∧
    (Padding h = 0 ∧ paddingLength h = 0 ∨ Padding h = 1 ∧ last b = Some (paddingLength h)) ∧
    Body pkt = if n <? 0 then Panic else Ret (take (Z.to_nat n) (drop (Z.to_nat (payloadOffset h)) b)).
Proof.
  apply (rtp_parse_total bele_impl_laws bad_padding_packet);
    [repeat constructor; lia | vm_compute; reflexivity].
Defined.

Lemma rtp_extension_truncated_witness :
  ∃ ext, @parse_extension bele_impl (be_bytes 2 48862 ++ be_bytes 2 1 ++ [49; 0; 2; 0; 9]) 0 =
           Ret (48862, ext, 4 + len ext) ∧
    len ext = (4 * 1) mod 65536 ∧ (1 = 16384 → ext = []).
Proof. apply (rtp_extension_truncated bele_impl_laws); simpl; lia. Defined.
