(* ===== verification/Base.v ===== *)
(** * Shared data types of src/pkg/base

    [AvPacket] and its payload types (src/pkg/base/avpacket.go). *)

From S2P Require Import Prelude.

Definition AvPacketPtUnknown : Z := -1.
Definition AvPacketPtG711U : Z := 0.
Definition AvPacketPtG711A : Z := 8.
Definition AvPacketPtMp2 : Z := 14.
Definition AvPacketPtAvc : Z := 96.
Definition AvPacketPtHevc : Z := 98.
Definition AvPacketPtAac : Z := 97.
Definition AvPacketPtOpus : Z := 101.

Record AvPacket := mkAvPacket {
  PayloadType : Z;
  avTimestamp : Z;
  avPts : Z;
  Payload : list Z;
}.

#[global] Instance AvPacket_eq_dec : EqDecision AvPacket.
Proof. solve_decision. Defined.

Definition IsAudio (packet : AvPacket) : bool :=
  (PayloadType packet =? AvPacketPtAac) || (PayloadType packet =? AvPacketPtG711A) ||
  (PayloadType packet =? AvPacketPtG711U) || (PayloadType packet =? AvPacketPtOpus).

Definition IsVideo (packet : AvPacket) : bool :=
  (PayloadType packet =? AvPacketPtAvc) || (PayloadType packet =? AvPacketPtHevc).
