(* ===== verification/RtpList.v ===== *)
(** * The ordered packet list (src/pkg/rtprtcp/rtp_packet_list.go)

    The linked list hangs off a sentinel and is owned by its container alone,
    so its packets are a Rocq list [items], first packet first. *)

From S2P Require Import Prelude Naza RtpSeq RtpPacket.

Record RtpPacketList := mkList {
  items : list RtpPacket;
  Size : Z;
  doneSeqFlag : bool;
  doneSeq : Z;
  maxSize : Z;
}.

Definition pseq (p : RtpPacket) : Z := Seq (Header p).

Definition IsStale (l : RtpPacketList) (seq : Z) : bool :=
  if negb (doneSeqFlag l) then false else CompareSeq seq (doneSeq l) <=? 0.

(** The search of [Insert]; [None] when the packet is already there. *)
Fixpoint insert_walk (pkt : RtpPacket) (l : list RtpPacket) : option (list RtpPacket) :=
  match l with
  | [] => Some [pkt]
  | next :: rest =>
      let res := CompareSeq (pseq pkt) (pseq next) in
      if res =? 0 then None
      else if res =? -1 then Some (pkt :: next :: rest)
      else rest ← insert_walk pkt rest; Some (next :: rest)
  end.

Definition Insert (l : RtpPacketList) (pkt : RtpPacket) : RtpPacketList :=
  match insert_walk pkt (items l) with
  | None => l
  | Some its => mkList its (Size l + 1) (doneSeqFlag l) (doneSeq l) (maxSize l)
  end.

Definition PopFirst (l : RtpPacketList) : outcome (RtpPacket * RtpPacketList) :=
  match items l with
  | [] => Panic
  | pkt :: rest => Ret (pkt, mkList rest (Size l - 1) (doneSeqFlag l) (doneSeq l) (maxSize l))
  end.

Definition PeekFirst (l : RtpPacketList) : outcome RtpPacket :=
  match items l with [] => Panic | pkt :: _ => Ret pkt end.

Definition InitMaxSize (l : RtpPacketList) (maxSize : Z) : RtpPacketList :=
  mkList (items l) (Size l) (doneSeqFlag l) (doneSeq l) maxSize.

Definition Full (l : RtpPacketList) : bool := Size l >=? maxSize l.

Definition IsFirstSequential (l : RtpPacketList) : bool :=
  match items l with
  | [] => false
  | first :: _ => if negb (doneSeqFlag l) then true else SubSeq (pseq first) (doneSeq l) =? 1
  end.

Definition SetDoneSeq (l : RtpPacketList) (seq : Z) : RtpPacketList :=
  mkList (items l) (Size l) true seq (maxSize l).

Definition Reset (l : RtpPacketList) : RtpPacketList :=
  mkList [] (Size l) false 0 (maxSize l).

Definition empty_list : RtpPacketList := mkList [] 0 false 0 0.

(** ** Order and size *)

(** The numbers lie in one window of 32768 starting at [s], in increasing
    order of their distance from [s]. *)
Definition dist (s : Z) (p : RtpPacket) : Z := seq_dist s (pseq p).
Definition in_window (s : Z) (p : RtpPacket) : Prop := is_u16 (pseq p) ∧ dist s p < 32768.

Inductive ordered (s : Z) : Z → list RtpPacket → Prop :=
  | ordered_nil lo : ordered s lo []
  | ordered_cons lo p l :
      in_window s p → lo ≤ dist s p → ordered s (dist s p + 1) l → ordered s lo (p :: l).

Create HintDb rtp discriminated.
#[export] Hint Constructors ordered : rtp.

Lemma ordered_weaken s lo lo' l : lo' ≤ lo → ordered s lo l → ordered s lo' l.
Proof. intros H. destruct 1; constructor; auto; lia. Qed.

Lemma ordered_window s lo l : ordered s lo l → Forall (in_window s) l.
Proof. induction 1; constructor; auto. Qed.

Lemma ordered_lower s lo l p : ordered s lo l → p ∈ l → lo ≤ dist s p.
Proof.
  induction 1 as [|lo q l Hw Hlo H IH]; intros Hin; [by apply not_elem_of_nil in Hin|].
  apply elem_of_cons in Hin as [->|Hin]; [done|]. specialize (IH Hin). lia.
Qed.

Lemma CompareSeq_dist s p q :
  in_window s p → in_window s q → CompareSeq (pseq p) (pseq q) = Z.sgn (dist s p - dist s q).
Proof. intros [??] [??]. by apply CompareSeq_window. Qed.

Lemma dist_inj s p q :
  in_window s p → in_window s q → dist s p = dist s q → pseq p = pseq q.
Proof.
  intros [Hp _] [Hq _]. unfold dist. intros E.
  by rewrite <- (seq_at_dist s (pseq p)), <- (seq_at_dist s (pseq q)), E.
Qed.

Lemma ordered_NoDup s lo l : ordered s lo l → NoDup (pseq <$> l).
Proof.
  induction 1 as [|lo p l Hw Hlo H IH]; [constructor|]. simpl. apply NoDup_cons. split; [|done].
  intros Hin. apply list_elem_of_fmap in Hin as (q & E & Hq).
  pose proof (ordered_lower _ _ _ _ H Hq) as Hd. unfold dist in Hd. rewrite E in Hd. lia.
Qed.

(** What inserting does to an ordered list. *)
Lemma insert_walk_ordered s pkt l lo :
  in_window s pkt → ordered s lo l → lo ≤ dist s pkt →
  match insert_walk pkt l with
  | None => ∃ q, q ∈ l ∧ pseq q = pseq pkt
  | Some l' => ordered s lo l' ∧ l' ≡ₚ pkt :: l ∧ ∀ q, q ∈ l → pseq q ≠ pseq pkt
  end.
Proof.
  intros Hp. revert lo. induction l as [|q l IH]; intros lo Hl Hlo.
  { simpl. split; [eauto with rtp|]. split; [done|]. intros q Hq. by apply not_elem_of_nil in Hq. }
  inversion Hl as [|? ? ? Hq Hlq Hrest]; subst. cbn [insert_walk].
  rewrite (CompareSeq_dist s) by done.
  destruct (Z.lt_trichotomy (dist s pkt) (dist s q)) as [Hlt|[Heq|Hgt]].
  - rewrite Z.sgn_neg by lia. simpl. split.
    + constructor; [done..|]. constructor; [done|lia|done].
    + split; [done|]. intros r Hr E.
      apply elem_of_cons in Hr as [->|Hr].
      * unfold dist in *. rewrite E in *. lia.
      * pose proof (ordered_lower _ _ _ _ Hrest Hr) as H. unfold dist in *. rewrite E in *. lia.
  - rewrite Heq, Z.sub_diag. simpl. exists q. split; [apply elem_of_cons; by left|].
    by apply (dist_inj s).
  - rewrite Z.sgn_pos by lia. simpl. specialize (IH _ Hrest ltac:(lia)).
    destruct (insert_walk pkt l) as [l'|]; simpl.
    + destruct IH as (Ho & Hperm & Hne). split; [by constructor|]. split.
      * rewrite Hperm. by apply Permutation_swap.
      * intros r Hr E. apply elem_of_cons in Hr as [->|Hr]; [|by apply (Hne r)].
        unfold dist in *. rewrite E in *. lia.
    + destruct IH as (r & Hr & E). exists r. split; [apply elem_of_cons; by right|done].
Qed.

(** The list is ordered and its counter is its length. *)
Definition list_ok (s : Z) (l : RtpPacketList) : Prop :=
  ordered s 0 (items l) ∧ Size l = len (items l).

Lemma Insert_ok s l pkt :
  list_ok s l → in_window s pkt → list_ok s (Insert l pkt).
Proof.
  intros [Ho Hs] Hp. unfold Insert.
  pose proof (insert_walk_ordered s pkt (items l) 0 Hp Ho) as H.
  destruct (insert_walk pkt (items l)) as [its|]; [|done].
  destruct H as (H1 & H2 & _); [apply u16_range|]. split; [done|]. simpl.
  rewrite H2. simpl. lia.
Qed.

(** The list that holds a set of packets in order is unique. *)
Lemma ordered_perm_unique s lo l1 l2 :
  ordered s lo l1 → ordered s lo l2 → l1 ≡ₚ l2 → l1 = l2.
Proof.
  intros H1. revert l2. induction H1 as [|lo p l1 Hp Hlo H1 IH]; intros l2 H2 E.
  { by apply Permutation_nil_l in E as <- || by apply Permutation_nil in E. }
  destruct H2 as [|lo q l2 Hq Hlo2 H2].
  { exfalso. by apply Permutation_sym, Permutation_nil_cons in E. }
  assert (Hpq : p = q).
  { assert (Hin : p ∈ q :: l2) by (rewrite <- E; apply elem_of_cons; by left).
    assert (Hin' : q ∈ p :: l1) by (rewrite E; apply elem_of_cons; by left).
    apply elem_of_cons in Hin as [->|Hin]; [done|].
    apply elem_of_cons in Hin' as [->|Hin']; [done|].
    pose proof (ordered_lower _ _ _ _ H2 Hin). pose proof (ordered_lower _ _ _ _ H1 Hin'). lia. }
  subst q. f_equal. apply IH; [done|]. by apply Permutation_cons_inv in E.
Qed.

Lemma foldl_Insert s ps l :
  list_ok s l → Forall (in_window s) ps → NoDup (pseq <$> ps ++ items l) →
  let l' := foldl Insert l ps in
  list_ok s l' ∧ items l' ≡ₚ ps ++ items l ∧ doneSeqFlag l' = doneSeqFlag l ∧
  doneSeq l' = doneSeq l ∧ maxSize l' = maxSize l.
Proof.
  cbv zeta. revert l. induction ps as [|p ps IH]; intros l Hl Hps Hnd; [done|].
  apply List.Forall_cons_iff in Hps as [Hp Hps]. simpl.
  assert (Hins : items (Insert l p) ≡ₚ p :: items l ∧ doneSeqFlag (Insert l p) = doneSeqFlag l ∧
      doneSeq (Insert l p) = doneSeq l ∧ maxSize (Insert l p) = maxSize l).
  { destruct Hl as [Ho _]. unfold Insert.
    pose proof (insert_walk_ordered s p (items l) 0 Hp Ho) as H.
    destruct (insert_walk p (items l)) as [its|]; simpl.
    - destruct H as (_ & H & _); [apply u16_range | done].
    - destruct H as (q & Hq & E); [apply u16_range|]. exfalso.
      simpl in Hnd. apply NoDup_cons in Hnd as [Hnd _]. apply Hnd. rewrite <- E.
      apply list_elem_of_fmap_2. apply elem_of_app. by right. }
  destruct Hins as (Hi & H1 & H2 & H3).
  destruct (IH (Insert l p)) as (G1 & G2 & G3 & G4 & G5); [by apply Insert_ok|done| |].
  { rewrite fmap_app. rewrite Hi. rewrite <- fmap_app.
    eapply NoDup_Permutation_proper; [|exact Hnd].
    apply fmap_Permutation. simpl. symmetry. apply Permutation_middle. }
  split; [done|]. rewrite G3, G4, G5, G2, Hi. repeat split; try done.
  simpl. symmetry. apply Permutation_middle.
Qed.

Lemma list_ok_empty s n : list_ok s (InitMaxSize empty_list n).
Proof. split; [constructor|done]. Qed.

(** ** Properties *)

(** Inserting into an ordered list (all numbers in one window of 32768)
    keeps it strictly ordered with an exact size counter, adds the packet when
    its number is new, and changes nothing when it is there already. *)
Theorem rtp_list_insert s l pkt :
  list_ok s l → in_window s pkt →
  list_ok s (Insert l pkt) ∧
  ((∃ q, q ∈ items l ∧ pseq q = pseq pkt) → Insert l pkt = l) ∧
  ((∀ q, q ∈ items l → pseq q ≠ pseq pkt) → items (Insert l pkt) ≡ₚ pkt :: items l).
Proof.
  intros Hl Hp. split; [by apply Insert_ok|]. unfold Insert.
  pose proof (insert_walk_ordered s pkt (items l) 0 Hp (proj1 Hl)) as H.
  destruct (insert_walk pkt (items l)) as [its|].
  - destruct H as (_ & H1 & H2); [apply u16_range|]. split; [|done].
    intros (q & Hq & E). by destruct (H2 q Hq).
  - destruct H as (q & Hq & E); [apply u16_range|]. split; [done|]. intros Hno.
    by destruct (Hno q Hq).
Qed.

(** The list is a reorder buffer: packets with distinct numbers of one
    window give the same list in whatever order they arrive. *)
Theorem rtp_list_any_order s n ps ps' :
  Forall (in_window s) ps → NoDup (pseq <$> ps) → ps ≡ₚ ps' →
  foldl Insert (InitMaxSize empty_list n) ps = foldl Insert (InitMaxSize empty_list n) ps' ∧
  ordered s 0 (items (foldl Insert (InitMaxSize empty_list n) ps)) ∧
  Size (foldl Insert (InitMaxSize empty_list n) ps) = len ps.
Proof.
  intros Hw Hnd E.
  pose proof (list_ok_empty s n) as Hok.
  destruct (foldl_Insert s ps _ Hok Hw) as ((O1 & S1) & P1 & A1 & B1 & C1);
    [by rewrite app_nil_r|].
  destruct (foldl_Insert s ps' _ Hok) as ((O2 & S2) & P2 & A2 & B2 & C2);
    [by rewrite <- E | rewrite app_nil_r; by rewrite <- E |].
  simpl in P1, P2. rewrite app_nil_r in P1, P2. split; [|split; [done|]].
  - destruct (foldl Insert _ ps) as [i1 z1 f1 d1 m1], (foldl Insert _ ps') as [i2 z2 f2 d2 m2].
    simpl in *. subst. assert (i1 = i2) as ->; [|done].
    apply (ordered_perm_unique s 0); [done..|]. by rewrite P1, P2, E.
  - rewrite S1, P1. done.
Qed.

(** [Reset] empties the list but keeps the size counter: after a reset of
    a non-empty list the counter is wrong, and [Full] can hold of an empty
    list. *)
Theorem rtp_list_reset_size s l :
  list_ok s l → items l ≠ [] →
  items (Reset l) = [] ∧ Size (Reset l) ≠ len (items (Reset l)) ∧
  (Full l = true → Full (Reset l) = true).
Proof.
  intros [_ Hs] Hne. simpl. split; [done|]. split; [|done].
  rewrite Hs. destruct (items l); [done|simpl; lia].
Qed.

(** ** Witnesses *)

Definition demo_packet (seq : Z) : RtpPacket :=
  mkRtpPacket (mkRtpHeader 2 0 0 0 0 96 seq 0 0 [] 0 [] 12 0) [] 1.

Definition demo_list : RtpPacketList := mkList (map demo_packet [65534; 0]) 2 true 65533 8.

Lemma demo_list_ok : list_ok 65500 demo_list.
Proof.
  split; [|done]. repeat (constructor; [split; vm_compute; split; congruence || reflexivity | vm_compute; congruence |]).
  constructor.
Qed.

Lemma rtp_list_insert_witness :
  list_ok 65500 (Insert demo_list (demo_packet 65535)) ∧
  ((∃ q, q ∈ items demo_list ∧ pseq q = pseq (demo_packet 65535)) →
     Insert demo_list (demo_packet 65535) = demo_list) ∧
  ((∀ q, q ∈ items demo_list → pseq q ≠ pseq (demo_packet 65535)) →
     items (Insert demo_list (demo_packet 65535)) ≡ₚ demo_packet 65535 :: items demo_list).
Proof.
  apply (rtp_list_insert 65500 demo_list (demo_packet 65535) demo_list_ok).
  split; vm_compute; [split; congruence | reflexivity].
Defined.

Lemma rtp_list_any_order_witness :
  let ps := map demo_packet [65534; 65535; 0] in
  let ps' := map demo_packet [0; 65534; 65535] in
  foldl Insert (InitMaxSize empty_list 8) ps = foldl Insert (InitMaxSize empty_list 8) ps' ∧
  ordered 65500 0 (items (foldl Insert (InitMaxSize empty_list 8) ps)) ∧
  Size (foldl Insert (InitMaxSize empty_list 8) ps) = len ps.
Proof.
  apply (rtp_list_any_order 65500 8 (map demo_packet [65534; 65535; 0])
           (map demo_packet [0; 65534; 65535])).
  - repeat constructor; vm_compute; congruence.
  - apply (bool_decide_unpack _). vm_compute. exact I.
  - simpl. apply (Permutation_app_comm [demo_packet 65534; demo_packet 65535] [demo_packet 0]).
Defined.

Lemma rtp_list_reset_size_witness :
  items (Reset demo_list) = [] ∧ Size (Reset demo_list) ≠ len (items (Reset demo_list)) ∧
  (Full demo_list = true → Full (Reset demo_list) = true).
Proof. apply (rtp_list_reset_size 65500 demo_list demo_list_ok). discriminate. Defined.
