(* ===== verification/RtpContainer.v ===== *)
(** * The reordering container (src/pkg/rtprtcp/rtp_unpack_container.go)

    [RtpUnpackContainer] feeds packets to an [IRtpUnpackerProtocol]
    (rtp_unpacker.go).  The protocol is a class of operations with laws; the
    container's theorems are proved against the laws, and each protocol file
    gives an instance. *)

From S2P Require Import Prelude Naza RtpSeq RtpPacket Base RtpList.

(** ** The protocol interface

    [TryUnpackOne] gives the flag, the sequence number, the list left behind
    and the packets handed to [onAvPacket], in order. *)
Class UnpackerProtocol := {
  CalcPositionIfNeeded : RtpPacket → outcome RtpPacket;
  TryUnpackOne : RtpPacketList → outcome (bool * Z * RtpPacketList * list AvPacket);
}.

(** [l'] is what is left of [l] after its first packets [used] were consumed. *)
Definition consumed (l : RtpPacketList) (used : list RtpPacket) (seq : Z) (l' : RtpPacketList)
    : Prop :=
  items l = used ++ items l' ∧ last (pseq <$> used) = Some seq ∧
  doneSeqFlag l' = doneSeqFlag l ∧ doneSeq l' = doneSeq l ∧ maxSize l' = maxSize l.

(** The packets hold bytes. *)
Definition bytes_list (l : RtpPacketList) : Prop := Forall (λ p, is_bytes (Raw p)) (items l).

Class UnpackerLaws (P : UnpackerProtocol) : Prop := {
  calc_position pkt pkt' :
    CalcPositionIfNeeded pkt = Ret pkt' → ∃ pos, pkt' = set_position pkt pos;
  try_failed l seq l' out :
    TryUnpackOne l = Ret (false, seq, l', out) → l' = l ∧ out = [];
  try_consumed l seq l' out :
    TryUnpackOne l = Ret (true, seq, l', out) → ∃ used, consumed l used seq l';
  try_no_fuel l : bytes_list l → TryUnpackOne l ≠ Fail OutOfFuel;
  calc_no_fuel pkt : CalcPositionIfNeeded pkt ≠ Fail OutOfFuel;
}.

(** The size counter follows the list. *)
Class UnpackerSize (P : UnpackerProtocol) : Prop :=
  try_size l seq l' out :
    TryUnpackOne l = Ret (true, seq, l', out) →
    Size l' = Size l - (len (items l) - len (items l')).

Section Container.
Context {P : UnpackerProtocol}.

Definition NewRtpUnpackContainer (maxSize : Z) : RtpPacketList :=
  InitMaxSize empty_list maxSize.

Definition tryUnpackOne (l : RtpPacketList) : outcome (bool * RtpPacketList * list AvPacket) :=
  '(flag, seq, l, out) ← TryUnpackOne l;
  Ret (flag, (if flag : bool then SetDoneSeq l seq else l), out).

Definition tryUnpackOneSequential (l : RtpPacketList)
    : outcome (bool * RtpPacketList * list AvPacket) :=
  if negb (IsFirstSequential l) then Ret (false, l, []) else tryUnpackOne l.

(** [for { if !tryUnpackOneSequential() { break }; count++ }] *)
Fixpoint unpack_loop (fuel : nat) (l : RtpPacketList) (count : Z)
    : outcome (Z * RtpPacketList * list AvPacket) :=
  match fuel with
  | O => Fail OutOfFuel
  | S fuel =>
      '(ok, l, out) ← tryUnpackOneSequential l;
      if negb ok then Ret (count, l, out)
      else
        '(count, l, out') ← unpack_loop fuel l (count + 1);
        Ret (count, l, out ++ out')
  end.

Definition loop_fuel (l : RtpPacketList) : nat := S (length (items l)).

(** Feeding a packet: the list left and the packets called back. *)
Definition Feed (l : RtpPacketList) (pkt : RtpPacket)
    : outcome (RtpPacketList * list AvPacket) :=
  if IsStale l (pseq pkt) then Ret (l, []) else
  pkt ← CalcPositionIfNeeded pkt;
  let l := Insert l pkt in
  '(count, l, out) ← unpack_loop (loop_fuel l) l 0;
  if count >? 0 then Ret (l, out) else
  if Full l then
    '(packed, l, out1) ← tryUnpackOne l;
    if negb packed then
      '(_, l) ← PopFirst l; Ret (l, out ++ out1)
    else
      '(_, l, out2) ← unpack_loop (loop_fuel l) l 0;
      Ret (l, out ++ out1 ++ out2)
  else Ret (l, out).

Fixpoint feed_all (l : RtpPacketList) (ps : list RtpPacket)
    : outcome (RtpPacketList * list AvPacket) :=
  match ps with
  | [] => Ret (l, [])
  | p :: ps =>
      '(l, out) ← Feed l p;
      '(l, out') ← feed_all l ps;
      Ret (l, out ++ out')
  end.
End Container.

(** ** Facts from the interface *)

Arguments loop_fuel : simpl never.
Arguments unpack_loop : simpl never.

Lemma insert_walk_perm pkt l l' : insert_walk pkt l = Some l' → l' ≡ₚ pkt :: l.
Proof.
  revert l'. induction l as [|q l IH]; intros l' H; simpl in H; [by injection H as <-|].
  destruct (_ =? 0); [done|]. destruct (_ =? -1); [by injection H as <-|].
  destruct (insert_walk pkt l) as [l1|]; [|done]. injection H as <-.
  rewrite (IH l1) by done. apply Permutation_swap.
Qed.

Section ContainerFacts.
Context {P : UnpackerProtocol} {HP : UnpackerLaws P}.

(** A step of the container on its list: [tryUnpackOne] succeeding. *)
Lemma tryUnpackOne_failed l l' out :
  tryUnpackOne l = Ret (false, l', out) → l' = l ∧ out = [].
Proof.
  unfold tryUnpackOne. intros H. apply bind_Ret_inv in H as ([[[flag seq] l1] o] & H1 & H2).
  injection H2 as -> <- <-. by apply try_failed in H1.
Qed.

Lemma tryUnpackOne_done l l' out :
  tryUnpackOne l = Ret (true, l', out) → ∃ used seq l1,
    consumed l used seq l1 ∧ l' = SetDoneSeq l1 seq ∧
    TryUnpackOne l = Ret (true, seq, l1, out).
Proof.
  unfold tryUnpackOne. intros H. apply bind_Ret_inv in H as ([[[flag seq] l1] o] & H1 & H2).
  injection H2 as -> <- <-. destruct (try_consumed _ _ _ _ H1) as [used Hu]. eauto 10.
Qed.

Lemma consumed_shorter l used seq l' :
  consumed l used seq l' → (length (items l') < length (items l))%nat.
Proof.
  intros (-> & Hl & _). destruct used; [done|]. rewrite length_app. simpl. lia.
Qed.

Lemma unpack_loop_S fuel l count :
  unpack_loop (S fuel) l count =
  ('(ok, l, out) ← tryUnpackOneSequential l;
   if negb ok then Ret (count, l, out)
   else
     '(count, l, out') ← unpack_loop fuel l (count + 1);
     Ret (count, l, out ++ out')).
Proof. reflexivity. Qed.

Lemma consumed_bytes l used seq l' : consumed l used seq l' → bytes_list l → bytes_list l'.
Proof. unfold bytes_list. intros (-> & _). rewrite Forall_app. by intros [_ ?]. Qed.

Lemma Insert_bytes l pkt : bytes_list l → is_bytes (Raw pkt) → bytes_list (Insert l pkt).
Proof.
  unfold bytes_list, Insert. intros Hl Hp.
  destruct (insert_walk pkt (items l)) as [its|] eqn:E; [|done]. simpl.
  apply insert_walk_perm in E. rewrite E. by constructor.
Qed.

(** Every successful turn of the loop shortens the list, so the fuel is
    enough. *)
Lemma unpack_loop_fuel fuel l count :
  bytes_list l → (length (items l) < fuel)%nat → unpack_loop fuel l count ≠ Fail OutOfFuel.
Proof.
  revert l count. induction fuel as [|fuel IH]; intros l count Hb Hf; [lia|].
  rewrite unpack_loop_S. unfold tryUnpackOneSequential.
  destruct (IsFirstSequential l); simpl; [|done].
  destruct (tryUnpackOne l) as [[[ok l1] out]|e|] eqn:E; simpl.
  - destruct ok; simpl; [|done].
    apply tryUnpackOne_done in E as (used & seq & l2 & Hc & -> & _).
    pose proof (consumed_bytes _ _ _ _ Hc Hb). apply consumed_shorter in Hc.
    specialize (IH (SetDoneSeq l2 seq) (count + 1)). simpl in IH.
    destruct (unpack_loop fuel _ _) as [[[c l3] o]| |]; simpl; try done.
    intros [= ->]. apply IH; [done|lia|done].
  - unfold tryUnpackOne in E. pose proof (try_no_fuel l Hb) as H.
    destruct (TryUnpackOne l) as [[[[? ?] ?] ?]|e'|]; simpl in E; congruence.
  - done.
Qed.

Lemma unpack_loop_bytes fuel l count c l' out :
  bytes_list l → unpack_loop fuel l count = Ret (c, l', out) → bytes_list l'.
Proof.
  revert l count c l' out. induction fuel as [|fuel IH]; intros l count c l' out Hb H; [done|].
  rewrite unpack_loop_S in H. apply bind_Ret_inv in H as ([[ok l1] o1] & H1 & H2).
  unfold tryUnpackOneSequential in H1. destruct (IsFirstSequential l); cbn [negb] in H1.
  2:{ injection H1 as <- <- <-. by injection H2 as <- <- <-. }
  destruct ok; cbn [negb] in H2.
  - apply tryUnpackOne_done in H1 as (used & seq & l2 & Hc & -> & _).
    apply consumed_bytes in Hc; [|done].
    apply bind_Ret_inv in H2 as ([[c2 l3] o2] & H2 & H3). injection H3 as -> -> <-.
    by eapply IH; [|apply H2].
  - apply tryUnpackOne_failed in H1 as [-> ->]. by injection H2 as <- <- <-.
Qed.

Lemma tryUnpackOne_fuel l : bytes_list l → tryUnpackOne l ≠ Fail OutOfFuel.
Proof.
  unfold tryUnpackOne. intros Hb. pose proof (try_no_fuel l Hb).
  destruct (TryUnpackOne l) as [[[[? ?] ?] ?]|e'|]; simpl; congruence.
Qed.

Lemma PopFirst_fuel l : PopFirst l ≠ Fail OutOfFuel.
Proof. unfold PopFirst. by destruct (items l). Qed.

Lemma Feed_fuel l pkt :
  bytes_list l → is_bytes (Raw pkt) → Feed l pkt ≠ Fail OutOfFuel.
Proof.
  intros Hb Hp. unfold Feed. destruct (IsStale l (pseq pkt)); [done|].
  pose proof (calc_no_fuel pkt).
  destruct (CalcPositionIfNeeded pkt) as [pkt'|e|] eqn:Ec; simpl; [|congruence|done].
  destruct (calc_position _ _ Ec) as [pos ->].
  set (l0 := Insert l (set_position pkt pos)).
  assert (Hb0 : bytes_list l0) by by apply Insert_bytes.
  pose proof (unpack_loop_fuel (loop_fuel l0) l0 0 Hb0 ltac:(unfold loop_fuel; lia)).
  destruct (unpack_loop _ l0 0) as [[[c l1] o]| |] eqn:E; simpl; [|congruence|done].
  apply unpack_loop_bytes in E; [|done].
  destruct (c >? 0); [done|]. destruct (Full l1); [|done].
  pose proof (tryUnpackOne_fuel l1 E).
  destruct (tryUnpackOne l1) as [[[packed l2] o1]| |] eqn:E1; simpl; [|congruence|done].
  destruct packed; simpl.
  - apply tryUnpackOne_done in E1 as (used & seq & l3 & Hc & -> & _).
    apply consumed_bytes in Hc; [|done].
    set (l4 := SetDoneSeq l3 seq).
    pose proof (unpack_loop_fuel (loop_fuel l4) l4 0 Hc ltac:(unfold loop_fuel; lia)).
    destruct (unpack_loop _ l4 0) as [[[? ?] ?]| |]; simpl; congruence.
  - pose proof (PopFirst_fuel l2). destruct (PopFirst l2) as [[? ?]| |]; simpl; congruence.
Qed.
End ContainerFacts.

(** ** Invariants *)

(** The counter is exact and the list stays below its bound. *)
Definition bounded (l : RtpPacketList) : Prop :=
  Size l = len (items l) ∧ Size l < maxSize l.

(** Everything still in the list comes after what was processed, in order. *)
Definition after_done (s : Z) (l : RtpPacketList) : Prop :=
  ordered s (if doneSeqFlag l then seq_dist s (doneSeq l) + 1 else 0) (items l) ∧
  (doneSeqFlag l = true → is_u16 (doneSeq l) ∧ seq_dist s (doneSeq l) < 32768).

(** How far processing has come: [-1] before the first frame. *)
Definition progress (s : Z) (l : RtpPacketList) : Z :=
  if doneSeqFlag l then seq_dist s (doneSeq l) else -1.

Lemma insert_walk_length pkt l l' :
  insert_walk pkt l = Some l' → length l' = S (length l).
Proof. intros ->%insert_walk_perm. done. Qed.

Lemma Insert_size l pkt :
  Size l = len (items l) →
  Size (Insert l pkt) = len (items (Insert l pkt)) ∧ Size (Insert l pkt) ≤ Size l + 1 ∧
  maxSize (Insert l pkt) = maxSize l.
Proof.
  intros Hs. unfold Insert. destruct (insert_walk pkt (items l)) as [its|] eqn:E; [|split; [done|lia]].
  apply insert_walk_length in E. simpl. rewrite E. lia.
Qed.

Lemma ordered_app s lo used rest seq :
  ordered s lo (used ++ rest) → last (pseq <$> used) = Some seq →
  is_u16 seq ∧ lo ≤ seq_dist s seq < 32768 ∧ ordered s (seq_dist s seq + 1) rest.
Proof.
  revert lo. induction used as [|p used IH]; intros lo Ho Hl; [done|].
  simpl in Ho. inversion Ho as [|? ? ? [Hp1 Hp2] Hlo Hrest]; subst.
  destruct used as [|q used].
  - simpl in Hl. injection Hl as <-. unfold dist in *. split; [done|]. split; [lia|done].
  - destruct (IH _ Hrest) as (H1 & H2 & H3); [done|]. split; [done|]. split; [lia|done].
Qed.

Lemma ordered_0 s lo l : ordered s lo l → ordered s 0 l.
Proof. destruct 1 as [|lo p l Hw Hlo H]; constructor; auto. apply u16_range. Qed.

Section Invariants.
Context {P : UnpackerProtocol} {HP : UnpackerLaws P}.

Definition size_step (l l' : RtpPacketList) : Prop :=
  len (items l') < len (items l) ∧ maxSize l' = maxSize l.

Lemma tryUnpackOne_size `{!UnpackerSize P} l l' out :
  tryUnpackOne l = Ret (true, l', out) → Size l = len (items l) →
  Size l' = len (items l') ∧ size_step l l'.
Proof.
  intros H Hs. apply tryUnpackOne_done in H as (used & seq & l1 & Hc & -> & Ht).
  apply try_size in Ht. pose proof (consumed_shorter _ _ _ _ Hc).
  destruct Hc as (_ & _ & _ & _ & Hm). unfold size_step. simpl. lia.
Qed.

Lemma unpack_loop_size `{!UnpackerSize P} fuel l count c l' out :
  unpack_loop fuel l count = Ret (c, l', out) → Size l = len (items l) →
  Size l' = len (items l') ∧ count ≤ c ∧ maxSize l' = maxSize l ∧
  (c = count ∧ l' = l ∧ out = [] ∨ count < c ∧ size_step l l').
Proof.
  revert l count c l' out. induction fuel as [|fuel IH]; intros l count c l' out H Hs; [done|].
  rewrite unpack_loop_S in H. apply bind_Ret_inv in H as ([[ok l1] o1] & H1 & H2).
  unfold tryUnpackOneSequential in H1.
  destruct (IsFirstSequential l); cbn [negb] in H1.
  2:{ injection H1 as <- <- <-. injection H2 as <- <- <-.
      split; [done|]. split; [lia|]. split; [done|]. by left. }
  destruct ok; cbn [negb] in H2.
  - apply tryUnpackOne_size in H1 as (G1 & G2 & G3); [|done].
    apply bind_Ret_inv in H2 as ([[c2 l2] o2] & H2 & H3). injection H3 as -> -> <-.
    apply IH in H2 as (K1 & K2 & K3 & K4); [|done]. unfold size_step.
    split; [done|]. split; [lia|]. split; [congruence|]. right. split; [lia|].
    split; [|congruence]. destruct K4 as [(_ & -> & _)|(_ & K4 & _)]; lia.
  - apply tryUnpackOne_failed in H1 as [-> ->]. injection H2 as <- <- <-.
    split; [done|]. split; [lia|]. split; [done|]. by left.
Qed.

Lemma Feed_bounded_aux `{!UnpackerSize P} l pkt l' out :
  bounded l → Feed l pkt = Ret (l', out) → bounded l'.
Proof.
  intros [Hs Hm] H. unfold Feed in H.
  destruct (IsStale l (pseq pkt)); [by injection H as <- <-|].
  apply bind_Ret_inv in H as (pkt' & _ & H).
  destruct (Insert_size l pkt' Hs) as (I1 & I2 & I3).
  apply bind_Ret_inv in H as ([[c l1] o1] & H1 & H). 
  apply unpack_loop_size in H1 as (L1 & _ & L3 & L4); [|done]. rewrite Z.gtb_ltb in H.
  unfold bounded, size_step in *. destruct (Z.ltb_spec 0 c).
  { injection H as <- <-. destruct L4 as [[? _]|[_ [? ?]]]; lia. }
  destruct L4 as [(_ & -> & ->)|[? _]]; [|lia].
  unfold Full in H. rewrite Z.geb_leb in H.
  destruct (Z.leb_spec (maxSize (Insert l pkt')) (Size (Insert l pkt'))).
  2:{ injection H as <- <-. lia. }
  apply bind_Ret_inv in H as ([[packed l2] o2] & H2 & H). destruct packed; cbn [negb] in H.
  - apply tryUnpackOne_size in H2 as (G1 & G2 & G3); [|done].
    apply bind_Ret_inv in H as ([[c3 l3] o3] & H3 & H). injection H as <- <-.
    apply unpack_loop_size in H3 as (K1 & _ & K3 & [(_ & -> & _)|(_ & K4 & _)]); [lia| |done]. lia.
  - apply tryUnpackOne_failed in H2 as [-> ->].
    apply bind_Ret_inv in H as ([q l3] & H3 & H). injection H as <- <-.
    unfold PopFirst in H3. destruct (items (Insert l pkt')) as [|q' rest] eqn:E; [done|].
    injection H3 as <- <-. simpl in *. lia.
Qed.

(** *** Order of processing *)

Lemma tryUnpackOne_after s l l' out :
  after_done s l → tryUnpackOne l = Ret (true, l', out) →
  after_done s l' ∧ progress s l < progress s l'.
Proof.
  intros [Ho Hd] H. apply tryUnpackOne_done in H as (used & seq & l1 & (Hi & Hl & _) & -> & _).
  rewrite Hi in Ho. apply ordered_app with (seq := seq) in Ho as (H1 & H2 & H3); [|done].
  unfold after_done, progress. simpl. split; [split; [done|lia]|].
  pose proof (seq_dist_range s seq). destruct (doneSeqFlag l); lia.
Qed.

Lemma unpack_loop_after s fuel l count c l' out :
  after_done s l → unpack_loop fuel l count = Ret (c, l', out) →
  after_done s l' ∧ progress s l ≤ progress s l'.
Proof.
  revert l count c l' out. induction fuel as [|fuel IH]; intros l count c l' out Ha H; [done|].
  rewrite unpack_loop_S in H. apply bind_Ret_inv in H as ([[ok l1] o1] & H1 & H2).
  unfold tryUnpackOneSequential in H1.
  destruct (IsFirstSequential l); cbn [negb] in H1.
  2:{ injection H1 as <- <- <-. injection H2 as <- <- <-. split; [done|lia]. }
  destruct ok; cbn [negb] in H2.
  - apply (tryUnpackOne_after s) in H1 as [G1 G2]; [|done].
    apply bind_Ret_inv in H2 as ([[c2 l2] o2] & H2 & H3). injection H3 as -> -> <-.
    apply IH in H2 as [K1 K2]; [|done]. split; [done|lia].
  - apply tryUnpackOne_failed in H1 as [-> ->]. injection H2 as <- <- <-. split; [done|lia].
Qed.

Lemma in_window_position s pkt pos : in_window s pkt → in_window s (set_position pkt pos).
Proof. done. Qed.

Lemma Insert_after s l pkt :
  after_done s l → in_window s pkt → IsStale l (pseq pkt) = false → after_done s (Insert l pkt).
Proof.
  intros [Ho Hd] Hp Hst. unfold IsStale in Hst.
  assert (Hlo : (if doneSeqFlag l then seq_dist s (doneSeq l) + 1 else 0) ≤ dist s pkt).
  { destruct (doneSeqFlag l); simpl in Hst; [|apply u16_range].
    destruct (Hd eq_refl) as [Hd1 Hd2]. destruct Hp as [Hp1 Hp2].
    rewrite (CompareSeq_window s) in Hst by done. unfold dist in *. lia. }
  pose proof (insert_walk_ordered s pkt (items l) _ Hp Ho Hlo) as H. unfold Insert.
  destruct (insert_walk pkt (items l)) as [its|]; [|done].
  split; simpl; [apply H | done].
Qed.

Lemma Feed_after_aux s l pkt l' out :
  after_done s l → in_window s pkt → Feed l pkt = Ret (l', out) →
  after_done s l' ∧ progress s l ≤ progress s l'.
Proof.
  intros Ha Hp H. unfold Feed in H.
  destruct (IsStale l (pseq pkt)) eqn:Hst; [injection H as <- <-; split; [done|lia]|].
  apply bind_Ret_inv in H as (pkt' & Hc & H). destruct (calc_position _ _ Hc) as [pos ->].
  pose proof (Insert_after s l (set_position pkt pos) Ha Hp Hst) as Hi.
  assert (Hpr : progress s (Insert l (set_position pkt pos)) = progress s l)
    by (unfold progress, Insert; by destruct (insert_walk _ _)).
  apply bind_Ret_inv in H as ([[c l1] o1] & H1 & H).
  apply (unpack_loop_after s) in H1 as [L1 L2]; [|done]. rewrite Hpr in L2.
  destruct (c >? 0); [injection H as <- <-; split; [done|lia]|].
  destruct (Full l1); [|injection H as <- <-; split; [done|lia]].
  apply bind_Ret_inv in H as ([[packed l2] o2] & H2 & H). destruct packed; cbn [negb] in H.
  - apply (tryUnpackOne_after s) in H2 as [G1 G2]; [|done].
    apply bind_Ret_inv in H as ([[c3 l3] o3] & H3 & H). injection H as <- <-.
    apply (unpack_loop_after s) in H3 as [K1 K2]; [|done]. split; [done|lia].
  - apply tryUnpackOne_failed in H2 as [-> ->].
    apply bind_Ret_inv in H as ([q l3] & H3 & H). injection H as <- <-.
    unfold PopFirst in H3. destruct L1 as [Lo Ld].
    destruct (items l1) as [|q' rest] eqn:E; [done|]. injection H3 as <- <-.
    unfold after_done, progress in *. simpl. split; [|done]. split; [|done].
    inversion Lo as [|? ? ? Hw Hlo Hrest]; subst.
    eapply ordered_weaken; [|done]. lia.
Qed.
End Invariants.

(** ** Properties *)

(** With any of the protocols, feeding a packet to a container whose
    counter is exact and below its bound leaves such a container: the list
    never grows to [maxSize], and the unpacking loop terminates. *)
Theorem rtp_feed_bounded {P : UnpackerProtocol} (HP : UnpackerLaws P) (HS : UnpackerSize P) l pkt :
  bounded l → bytes_list l → is_bytes (Raw pkt) →
  Feed l pkt ≠ Fail OutOfFuel ∧ ∀ l' out, Feed l pkt = Ret (l', out) → bounded l'.
Proof.
  intros Hb Hl Hp. split; [by apply Feed_fuel|]. intros l' out. by apply Feed_bounded_aux.
Qed.

(** C39: units are processed in sequence order: as long as the numbers fed lie
    in one window of 32768, whatever is left in the container is strictly
    ordered and lies after the last number processed, and that number only
    moves forward; a stale packet changes nothing. *)
Theorem rtp_feed_order {P : UnpackerProtocol} (HP : UnpackerLaws P) s l pkt :
  after_done s l → in_window s pkt →
  (∀ l' out, Feed l pkt = Ret (l', out) → after_done s l' ∧ progress s l ≤ progress s l') ∧
  (doneSeqFlag l = true → dist s pkt ≤ seq_dist s (doneSeq l) → Feed l pkt = Ret (l, [])).
Proof.
  intros Ha Hp. split; [intros l' out; by apply Feed_after_aux|]. intros Hf Hd.
  destruct Ha as [_ Ha]. destruct (Ha Hf) as [H1 H2]. destruct Hp as [Hp1 Hp2].
  unfold Feed, IsStale. rewrite Hf. cbn [negb]. rewrite (CompareSeq_window s) by done.
  fold (dist s pkt). by rewrite (proj2 (Z.leb_le _ 0)) by (apply Z.sgn_nonpos; lia).
Qed.
