(* ===== verification/RtpUnpack.v ===== *)
(** * The unpacker protocols

    [RtpUnpackerRaw] (rtp_unpacker_raw.go), [RtpUnpackerAac]
    (rtp_unpacker_aac.go) and [RtpUnpackerAvcHevc] (rtp_unpacker_avc_hevc.go) of
    src/pkg/rtprtcp, as instances of the container's protocol interface. *)

From S2P Require Import Prelude Naza RtpSeq RtpPacket Base RtpList RtpContainer.
From S2P Require Avc Hevc.

(** [int64(ts / uint32(clockRate/1000))]; a clock rate below 1000 divides by
    zero. *)
Definition rtp_ms (ts clockRate : Z) : outcome Z :=
  let d := u32 (Z.quot clockRate 1000) in
  if d =? 0 then Panic else Ret (ts / d).

(** [list.Head.Next = rest; list.Size -= n] *)
Definition unlink (l : RtpPacketList) (rest : list RtpPacket) (n : Z) : RtpPacketList :=
  mkList rest (Size l - n) (doneSeqFlag l) (doneSeq l) (maxSize l).

Abbreviation try_result := (outcome (bool * Z * RtpPacketList * list AvPacket)).

(** [return false, 0] *)
Definition try_no (l : RtpPacketList) : try_result := Ret (false, 0, l, []).

(** ** Raw *)

Section Raw.
Variables payloadType clockRate : Z.

Definition raw_TryUnpackOne (l : RtpPacketList) : try_result :=
  match items l with
  | [] => try_no l
  | p :: rest =>
      b ← Body p;
      ts ← rtp_ms (Timestamp (Header p)) clockRate;
      Ret (true, pseq p, unlink l rest 1, [mkAvPacket payloadType ts 0 b])
  end.

Definition RtpUnpackerRaw : UnpackerProtocol := {|
  CalcPositionIfNeeded pkt := Ret pkt;
  TryUnpackOne := raw_TryUnpackOne;
|}.
End Raw.

(** ** AAC *)

Record au := mkAu { au_size : Z; au_pos : Z }.

(** The AU-header loop of [parseAu]: [n] headers left, header at [pauh], unit
    at [pau]. *)
Fixpoint parse_au_loop (b : list Z) (n : nat) (pauh pau : Z) : outcome (list au) :=
  match n with
  | O => Ret []
  | S n =>
      h0 ← go_index b pauh;
      h1 ← go_index b (pauh + 1);
      let auSize := Z.lor (Z.shiftl h0 8) (Z.land h1 248) / 8 in
      r ← parse_au_loop b n (pauh + 2) (pau + auSize);
      Ret (mkAu auSize pau :: r)
  end.

Definition parseAu (b : list Z) : outcome (list au) :=
  b0 ← go_index b 0;
  b1 ← go_index b 1;
  let auHeadersLength := (Z.shiftl b0 8 + b1 + 7) / 8 in
  let nbAuHeaders := auHeadersLength / 2 in
  parse_au_loop b (Z.to_nat nbAuHeaders) 2 (2 + auHeadersLength).

(** The memory a slice of the body can be extended to. *)
Definition body_memory (p : RtpPacket) : outcome (list Z) :=
  let off := payloadOffset (Header p) in
  go_from (Raw p) (if off =? 0 then RtpFixedHeaderLength else off).

Section Aac.
Variables payloadType clockRate : Z.

(** The fragment loop: [seq] of the previous packet, the packets after it,
    the number of packets counted, the bytes collected.  [None] when the unit
    is not complete; otherwise the last packet, the rest, the count and the
    payload. *)
Fixpoint aac_fragments (totalSize timestamp seq : Z) (rest : list RtpPacket)
    (packetCount cacheSize : Z) (acc : list Z)
    : outcome (option (RtpPacket * list RtpPacket * Z * list Z)) :=
  match rest with
  | [] => Ret None
  | p :: rest =>
      let packetCount := packetCount + 1 in
      if negb (SubSeq (pseq p) seq =? 1) then Ret None else
      if negb (Timestamp (Header p) =? timestamp) then Ret None else
      b ← Body p;
      aus ← parseAu b;
      match aus with
      | [a] =>
          if negb (au_size a =? totalSize) then Ret None else
          frag ← go_from b (au_pos a);
          let cacheSize := u32 (cacheSize + u32 (len frag)) in
          let acc := acc ++ frag in
          if cacheSize <? totalSize then
            aac_fragments totalSize timestamp (pseq p) rest packetCount cacheSize acc
          else if cacheSize =? totalSize then Ret (Some (p, rest, packetCount, acc))
          else Ret None
      | _ => Ret None
      end
  end.

(** The loop over several complete units in one packet.  Slicing [b] is
    bounded by its capacity, which reaches to the end of the packet: [b] is
    the memory from the start of the body to there. *)
Fixpoint aac_units (p : RtpPacket) (b : list Z) (aus : list au) (i : Z)
    : outcome (list AvPacket) :=
  match aus with
  | [] => Ret []
  | a :: aus =>
      ts ← rtp_ms (Timestamp (Header p)) clockRate;
      payload ← go_slice b (au_pos a) (au_pos a + au_size a);
      r ← aac_units p b aus (i + 1);
      Ret (mkAvPacket payloadType (ts + u32 (Z.quot (i * (1024 * 1000)) clockRate)) 0 payload :: r)
  end.

Definition aac_TryUnpackOne (l : RtpPacketList) : try_result :=
  match items l with
  | [] => try_no l
  | p :: rest =>
      b ← Body p;
      aus ← parseAu b;
      match aus with
      | [a] =>
          tail ← go_from b (au_pos a);
          if au_size a <=? u32 (len tail) then
            ts ← rtp_ms (Timestamp (Header p)) clockRate;
            payload ← go_slice b (au_pos a) (au_pos a + au_size a);
            Ret (true, pseq p, unlink l rest 1, [mkAvPacket payloadType ts 0 payload])
          else
            r ← aac_fragments (au_size a) (Timestamp (Header p)) (pseq p) rest 0
                  (u32 (len tail)) tail;
            match r with
            | None => try_no l
            | Some (q, rest, packetCount, payload) =>
                ts ← rtp_ms (Timestamp (Header q)) clockRate;
                Ret (true, pseq q, unlink l rest packetCount,
                     [mkAvPacket payloadType ts 0 payload])
            end
      | _ =>
          mem ← body_memory p;
          out ← aac_units p mem aus 0;
          Ret (true, pseq p, unlink l rest 1, out)
      end
  end.

Definition RtpUnpackerAac : UnpackerProtocol := {|
  CalcPositionIfNeeded pkt := Ret pkt;
  TryUnpackOne := aac_TryUnpackOne;
|}.
End Aac.

(** ** AVC and HEVC *)

Definition calcPositionIfNeededAvc (pkt : RtpPacket) : outcome RtpPacket :=
  b ← Body pkt;
  b0 ← go_index b 0;
  let outerNaluType := Avc.ParseNaluType b0 in
  if outerNaluType <=? NaluTypeAvcSingleMax then Ret (set_position pkt PositionTypeSingle)
  else if outerNaluType =? NaluTypeAvcFua then
    fuHeader ← go_index b 1;
    let startCode := negb (Z.land fuHeader 128 =? 0) in
    let endCode := negb (Z.land fuHeader 64 =? 0) in
    if startCode then Ret (set_position pkt PositionTypeFuaStart)
    else if endCode then Ret (set_position pkt PositionTypeFuaEnd)
    else Ret (set_position pkt PositionTypeFuaMiddle)
  else if outerNaluType =? NaluTypeAvcStapa then Ret (set_position pkt PositionTypeStapa)
  else Ret pkt.

Definition calcPositionIfNeededHevc (pkt : RtpPacket) : outcome RtpPacket :=
  b ← Body pkt;
  b0 ← go_index b 0;
  let outerNaluType := Hevc.ParseNaluType b0 in
  if Hevc.key_in outerNaluType Hevc.NaluTypeMapping then Ret (set_position pkt PositionTypeSingle)
  else if outerNaluType =? NaluTypeHevcFua then
    b2 ← go_index b 2;
    let startCode := negb (Z.land b2 128 =? 0) in
    let endCode := negb (Z.land b2 64 =? 0) in
    if startCode then Ret (set_position pkt PositionTypeFuaStart)
    else if endCode then Ret (set_position pkt PositionTypeFuaEnd)
    else Ret (set_position pkt PositionTypeFuaMiddle)
  else if outerNaluType =? NaluTypeHevcAp then Ret (set_position pkt PositionTypeAp)
  else Ret pkt.

(** The search of the FU-A case: the fragments after the first one, up to the
    one with the end flag, and what follows. *)
Fixpoint fua_walk (prev : RtpPacket) (rest : list RtpPacket)
    : option (list RtpPacket * list RtpPacket) :=
  match rest with
  | [] => None
  | p :: rest =>
      if negb (SubSeq (pseq p) (pseq prev) =? 1) then None
      else if positionType p =? PositionTypeFuaMiddle then
        '(used, rest) ← fua_walk p rest; Some (p :: used, rest)
      else if positionType p =? PositionTypeFuaEnd then Some ([p], rest)
      else None
  end.

Section AvcHevc.
Context {B : Bele}.
Variables payloadType clockRate : Z.

Definition avchevc_CalcPosition (pkt : RtpPacket) : outcome RtpPacket :=
  if payloadType =? AvPacketPtAvc then calcPositionIfNeededAvc pkt
  else if payloadType =? AvPacketPtHevc then calcPositionIfNeededHevc pkt
  else Ret pkt.

(** The single-unit case. *)
Definition unpack_single (p : RtpPacket) : outcome AvPacket :=
  ts ← rtp_ms (Timestamp (Header p)) clockRate;
  b ← Body p;
  payload ← BePutUint32 (u32 (len b)) (go_make (len b + 4));
  payload ← go_copy_at payload 4 b;
  Ret (mkAvPacket payloadType ts 0 payload).

(** First pass over an aggregation packet: the total size, [None] if the
    packet is malformed. *)
Fixpoint stap_total (fuel : nat) (buf : list Z) (i totalSize : Z) : outcome (option Z) :=
  match fuel with
  | O => Fail OutOfFuel
  | S fuel =>
      if i =? len buf then Ret (Some totalSize)
      else if len buf - i <? 2 then Ret None
      else
        s ← go_from buf i;
        naluSize ← BeUint16 s;
        stap_total fuel buf (i + (2 + naluSize)) (totalSize + (4 + naluSize))
  end.

(** Second pass: copy the units behind four-byte lengths. *)
Fixpoint stap_fill (fuel : nat) (buf payload : list Z) (i j : Z) : outcome (list Z) :=
  match fuel with
  | O => Fail OutOfFuel
  | S fuel =>
      if i =? len buf then Ret payload
      else
        s ← go_from buf i;
        naluSize ← BeUint16 s;
        payload ← go_upd_from payload j (BePutUint32 (u32 naluSize));
        nal ← go_slice buf (i + 2) (i + 2 + naluSize);
        payload ← go_copy_at payload (j + 4) nal;
        stap_fill fuel buf payload (i + (2 + naluSize)) (j + (4 + naluSize))
  end.

Definition unpack_aggregate (p : RtpPacket) (skip : Z) : outcome (option AvPacket) :=
  ts ← rtp_ms (Timestamp (Header p)) clockRate;
  b ← Body p;
  buf ← go_from b skip;
  total ← stap_total (S (length buf)) buf 0 0;
  match total with
  | None => Ret None
  | Some totalSize =>
      payload ← stap_fill (S (length buf)) buf (go_make totalSize) 0 0;
      Ret (Some (mkAvPacket payloadType ts 0 payload))
  end.

Definition fua_nalu_type (first : RtpPacket) : outcome (list Z) :=
  b ← Body first;
  b0 ← go_index b 0;
  b1 ← go_index b 1;
  if payloadType =? AvPacketPtAvc then Ret [Z.lor (Z.land b0 224) (Z.land b1 31)]
  else
    b2 ← go_index b 2;
    Ret [Z.lor (Z.land b0 129) (u8 (Z.shiftl (Z.land b2 63) 1)); b1].

(** First pass over the fragments: total size of the data. *)
Fixpoint fua_total (naluTypeLen : Z) (pps : list RtpPacket) (totalSize : Z) : outcome Z :=
  match pps with
  | [] => Ret totalSize
  | pp :: pps =>
      b ← Body pp;
      fua_total naluTypeLen pps (totalSize + (len b - (naluTypeLen + 1)))
  end.

(** Second pass: copy the data. *)
Fixpoint fua_fill (naluTypeLen : Z) (pps : list RtpPacket) (payload : list Z) (index : Z)
    : outcome (list Z) :=
  match pps with
  | [] => Ret payload
  | pp :: pps =>
      b ← Body pp;
      data ← go_from b (naluTypeLen + 1);
      payload ← go_copy_at payload index data;
      fua_fill naluTypeLen pps payload (index + (len b - (naluTypeLen + 1)))
  end.

(** [pps]: the fragments, first to last. *)
Definition unpack_fua (first : RtpPacket) (pps : list RtpPacket) (lastp : RtpPacket)
    : outcome AvPacket :=
  ts ← rtp_ms (Timestamp (Header lastp)) clockRate;
  naluType ← fua_nalu_type first;
  let naluTypeLen := len naluType in
  totalSize ← fua_total naluTypeLen pps 0;
  payload ← go_make_checked (4 + naluTypeLen + totalSize);
  payload ← BePutUint32 (u32 (totalSize + naluTypeLen)) payload;
  payload ← go_copy_at payload 4 naluType;
  payload ← fua_fill naluTypeLen pps payload (4 + naluTypeLen);
  Ret (mkAvPacket payloadType ts 0 payload).

Definition avchevc_TryUnpackOne (l : RtpPacketList) : try_result :=
  match items l with
  | [] => try_no l
  | first :: rest =>
      let pos := positionType first in
      if pos =? PositionTypeSingle then
        pkt ← unpack_single first;
        Ret (true, pseq first, unlink l rest 1, [pkt])
      else if (pos =? PositionTypeStapa) || (pos =? PositionTypeAp) then
        r ← unpack_aggregate first (if pos =? PositionTypeStapa then 1 else 2);
        match r with
        | None => try_no l
        | Some pkt => Ret (true, pseq first, unlink l rest 1, [pkt])
        end
      else if pos =? PositionTypeFuaStart then
        match fua_walk first rest with
        | None => try_no l
        | Some (used, rest) =>
            let pps := first :: used in
            let p := List.last used first in
            pkt ← unpack_fua first pps p;
            Ret (true, pseq p, unlink l rest (len pps), [pkt])
        end
      else try_no l
  end.

Definition RtpUnpackerAvcHevc : UnpackerProtocol := {|
  CalcPositionIfNeeded := avchevc_CalcPosition;
  TryUnpackOne := avchevc_TryUnpackOne;
|}.
End AvcHevc.

(** ** The protocols satisfy the interface *)

Lemma consumed_one l p rest n :
  items l = p :: rest → consumed l [p] (pseq p) (unlink l rest n).
Proof. intros E. repeat split; done. Qed.

Lemma Body_no_fuel p : Body p ≠ Fail OutOfFuel.
Proof.
  unfold Body. destruct (Padding (Header p) =? 1); [apply go_slice_no_fuel | apply go_from_no_fuel].
Qed.
Lemma rtp_ms_no_fuel ts c : rtp_ms ts c ≠ Fail OutOfFuel.
Proof. unfold rtp_ms. by destruct (_ =? 0). Qed.

#[export] Hint Resolve Body_no_fuel rtp_ms_no_fuel : fuel.

Section RawFacts.
Variables payloadType clockRate : Z.

#[export] Instance raw_laws : UnpackerLaws (RtpUnpackerRaw payloadType clockRate).
Proof.
  split; simpl.
  - intros pkt pkt' [= <-]. exists (positionType pkt). by destruct pkt.
  - intros l seq l' out. unfold raw_TryUnpackOne, try_no.
    destruct (items l) as [|p rest]; [by intros [= _ <- <-]|]. intros H. by repeat bind_inv H.
  - intros l seq l' out. unfold raw_TryUnpackOne, try_no.
    destruct (items l) as [|p rest] eqn:E; [done|]. intros H. repeat bind_inv H.
    injection H as <- <- <-. eexists. by apply consumed_one.
  - intros l _. unfold raw_TryUnpackOne, try_no. no_fuel.
  - intros pkt. done.
Qed.

#[export] Instance raw_size : UnpackerSize (RtpUnpackerRaw payloadType clockRate).
Proof.
  intros l seq l' out. simpl. unfold raw_TryUnpackOne, try_no.
  destruct (items l) as [|p rest] eqn:E; [done|]. intros H. repeat bind_inv H.
  injection H as <- <- <-. simpl. lia.
Qed.
End RawFacts.

Lemma parse_au_loop_no_fuel b n pauh pau : parse_au_loop b n pauh pau ≠ Fail OutOfFuel.
Proof. revert pauh pau. induction n as [|n IH]; intros pauh pau; cbn [parse_au_loop]; no_fuel. Qed.
#[export] Hint Resolve parse_au_loop_no_fuel : fuel.

Lemma parseAu_no_fuel b : parseAu b ≠ Fail OutOfFuel.
Proof. unfold parseAu. no_fuel. Qed.
#[export] Hint Resolve parseAu_no_fuel : fuel.

Section AacFacts.
Variables payloadType clockRate : Z.

Lemma aac_fragments_no_fuel tot ts seq rest pc cs acc :
  aac_fragments tot ts seq rest pc cs acc ≠ Fail OutOfFuel.
Proof.
  revert seq pc cs acc. induction rest as [|p rest IH]; intros seq pc cs acc;
    cbn [aac_fragments]; no_fuel.
Qed.

Lemma aac_units_no_fuel p b aus i : aac_units payloadType clockRate p b aus i ≠ Fail OutOfFuel.
Proof. revert i. induction aus as [|a aus IH]; intros i; cbn [aac_units]; no_fuel. Qed.

(** What the fragment loop consumes: [n] packets for a count of [n]. *)
Lemma aac_fragments_consumes tot ts seq rest pc cs acc q rest' pc' payload :
  aac_fragments tot ts seq rest pc cs acc = Ret (Some (q, rest', pc', payload)) →
  ∃ used, rest = used ++ [q] ++ rest' ∧ pc' = pc + len used + 1.
Proof.
  revert seq pc cs acc. induction rest as [|p rest IH]; intros seq pc cs acc H; [done|].
  cbn [aac_fragments] in H.
  destruct (negb _); [done|]. destruct (negb _); [done|].
  bind_inv H. bind_inv H. destruct a0 as [|x [|]]; try done.
  destruct (negb _); [done|]. bind_inv H. destruct (_ <? _).
  - apply IH in H as (used & -> & ->). exists (p :: used). split; [done|]. simpl length. lia.
  - destruct (_ =? _); [|done]. injection H as <- <- <- <-. exists []. split; [done|]. simpl. lia.
Qed.

#[export] Instance aac_laws : UnpackerLaws (RtpUnpackerAac payloadType clockRate).
Proof.
  split; simpl.
  - intros pkt pkt' [= <-]. exists (positionType pkt). by destruct pkt.
  - intros l seq l' out. unfold aac_TryUnpackOne, try_no.
    destruct (items l) as [|p rest]; [by intros [= _ <- <-]|]. intros H. bind_inv H. bind_inv H.
    destruct a0 as [|x [|]]; [by repeat bind_inv H| |by repeat bind_inv H].
    bind_inv H. destruct (_ <=? _); [by repeat bind_inv H|]. bind_inv H.
    destruct a1 as [[[[q rest'] pc] payload]|]; [by repeat bind_inv H|].
    by injection H as _ <- <-.
  - intros l seq l' out. unfold aac_TryUnpackOne, try_no.
    destruct (items l) as [|p rest] eqn:E; [done|]. intros H. bind_inv H. bind_inv H.
    destruct a0 as [|x [|]]; [repeat bind_inv H; injection H as <- <- <-; eexists;
      by apply consumed_one | | repeat bind_inv H; injection H as <- <- <-; eexists;
      by apply consumed_one].
    bind_inv H. destruct (_ <=? _).
    { repeat bind_inv H. injection H as <- <- <-. eexists. by apply consumed_one. }
    bind_inv H. destruct a1 as [[[[q rest'] pc] payload]|]; [|done].
    bind_inv H. injection H as <- <- <-. apply aac_fragments_consumes in E3 as (used & -> & _).
    exists (p :: used ++ [q]). repeat split.
    + rewrite E. simpl. by rewrite <- app_assoc.
    + change (p :: used ++ [q]) with ((p :: used) ++ [q]). rewrite fmap_app. by apply last_snoc.
  - intros l _. unfold aac_TryUnpackOne, try_no, body_memory.
    pose proof aac_fragments_no_fuel. pose proof aac_units_no_fuel. no_fuel.
  - done.
Qed.
End AacFacts.

(** The size counter drifts: the [n] fragments after the first are counted,
    the first is not. *)
Lemma aac_fragments_drift payloadType clockRate l p rest seq l' out :
  items l = p :: rest →
  aac_TryUnpackOne payloadType clockRate l = Ret (true, seq, l', out) →
  Size l' = Size l - 1 ∧ items l' = rest ∨
  Size l' = Size l - (len (items l) - len (items l') - 1).
Proof.
  intros E H. unfold aac_TryUnpackOne, try_no in H. rewrite E in H. bind_inv H. bind_inv H.
  destruct a0 as [|x [|]]; [repeat bind_inv H; injection H as <- <- <-; by left | |
    repeat bind_inv H; injection H as <- <- <-; by left].
  bind_inv H. destruct (_ <=? _).
  { repeat bind_inv H. injection H as <- <- <-. by left. }
  bind_inv H. destruct a1 as [[[[q rest'] pc] payload]|]; [|done].
  bind_inv H. injection H as <- <- <-. apply aac_fragments_consumes in E3 as (used & -> & ->).
  right. simpl. rewrite E. len_lia.
Qed.

Section AvcHevcFacts.
Context {B : Bele} {HB : BeleLaws B}.
Variables payloadType clockRate : Z.

(** Each turn of the first pass advances by two bytes at least. *)
Lemma stap_total_no_fuel fuel buf i t :
  is_bytes buf → 0 ≤ i → len buf - i < Z.of_nat fuel → (0 < fuel)%nat →
  stap_total fuel buf i t ≠ Fail OutOfFuel.
Proof.
  intros Hb. revert i t. induction fuel as [|fuel IH]; intros i t Hi Hf H0; [lia|].
  cbn [stap_total]. destruct (Z.eqb_spec i (len buf)); [done|].
  destruct (Z.ltb_spec (len buf - i) 2); [done|].
  rewrite go_from_Ret, bind_Ret by lia.
  destruct (BeUint16_Ret (drop (Z.to_nat i) buf)) as (v & -> & Hv);
    [by apply is_bytes_drop | rewrite length_drop; lia |].
  rewrite bind_Ret. apply IH; lia.
Qed.

(** The second pass follows the path of the first. *)
Lemma stap_fill_no_fuel fuel buf i t t' payload j :
  stap_total fuel buf i t = Ret (Some t') → stap_fill fuel buf payload i j ≠ Fail OutOfFuel.
Proof.
  revert i t payload j. induction fuel as [|fuel IH]; intros i t payload j H; [done|].
  cbn [stap_total stap_fill] in *. destruct (i =? len buf); [done|].
  destruct (len buf - i <? 2); [done|]. bind_inv H. bind_inv H.
  rewrite E, bind_Ret, E0, bind_Ret. repeat (apply bind_no_fuel; [no_fuel|intros ? _]).
  by eapply IH.
Qed.

Lemma Body_bytes p b : is_bytes (Raw p) → Body p = Ret b → is_bytes b.
Proof.
  intros Hb. unfold Body, go_slice, go_from.
  destruct (_ =? 1); destruct (_ && _); try done; intros [= <-].
  - by apply is_bytes_take, is_bytes_drop.
  - by apply is_bytes_drop.
Qed.

Lemma unpack_aggregate_no_fuel p skip :
  is_bytes (Raw p) → unpack_aggregate payloadType clockRate p skip ≠ Fail OutOfFuel.
Proof.
  intros Hb. unfold unpack_aggregate. apply bind_no_fuel; [no_fuel|intros ts _].
  apply bind_no_fuel; [no_fuel|intros b Eb]. apply bind_no_fuel; [no_fuel|intros buf Ebuf].
  apply Body_bytes in Eb; [|done].
  assert (is_bytes buf).
  { revert Ebuf. unfold go_from. destruct (_ && _); [|done]. intros [= <-]. by apply is_bytes_drop. }
  apply bind_no_fuel; [apply stap_total_no_fuel; [done|lia..]|]. intros [t|] Et; [|done].
  apply bind_no_fuel; [by eapply stap_fill_no_fuel|done].
Qed.

Lemma unpack_single_no_fuel p : unpack_single payloadType clockRate p ≠ Fail OutOfFuel.
Proof. unfold unpack_single. no_fuel. Qed.
Lemma fua_total_no_fuel n pps t : fua_total n pps t ≠ Fail OutOfFuel.
Proof. revert t. induction pps; intros t; cbn [fua_total]; no_fuel. Qed.
Lemma fua_fill_no_fuel n pps b i : fua_fill n pps b i ≠ Fail OutOfFuel.
Proof. revert b i. induction pps; intros b i; cbn [fua_fill]; no_fuel. Qed.
Lemma fua_nalu_type_no_fuel p : fua_nalu_type payloadType p ≠ Fail OutOfFuel.
Proof. unfold fua_nalu_type. no_fuel. Qed.
Hint Resolve unpack_single_no_fuel fua_total_no_fuel fua_fill_no_fuel fua_nalu_type_no_fuel : fuel.

Lemma unpack_fua_no_fuel f pps q : unpack_fua payloadType clockRate f pps q ≠ Fail OutOfFuel.
Proof. unfold unpack_fua. no_fuel. Qed.
Hint Resolve unpack_fua_no_fuel : fuel.

Lemma fua_walk_split prev rest used rest' :
  fua_walk prev rest = Some (used, rest') → rest = used ++ rest' ∧ used ≠ [].
Proof.
  revert prev used. induction rest as [|p rest IH]; intros prev used H; [done|].
  cbn [fua_walk] in H. destruct (negb _); [done|]. destruct (_ =? PositionTypeFuaMiddle).
  - destruct (fua_walk p rest) as [[u r]|] eqn:E; [|done]. injection H as <- <-.
    by apply IH in E as [-> _].
  - destruct (_ =? PositionTypeFuaEnd); [|done]. by injection H as <- <-.
Qed.

Lemma last_pseq p used : last (pseq <$> p :: used) = Some (pseq (List.last used p)).
Proof.
  revert p. induction used as [|q used IH]; intros p; [done|].
  change (last (pseq <$> p :: q :: used)) with (last (pseq <$> q :: used)). rewrite IH.
  f_equal. f_equal. clear IH. revert p q. induction used as [|r used IH]; intros p q; [done|].
  change (List.last (r :: used) q = List.last (r :: used) p).
  by rewrite <- (IH p r), <- (IH q r).
Qed.

(** What one call does to the list. *)
Lemma avchevc_try_inv l seq l' out :
  avchevc_TryUnpackOne payloadType clockRate l = Ret (true, seq, l', out) →
  ∃ used, consumed l used seq l' ∧ Size l' = Size l - len used.
Proof.
  unfold avchevc_TryUnpackOne, try_no. destruct (items l) as [|p rest] eqn:E; [done|].
  destruct (_ =? PositionTypeSingle).
  { intros H. bind_inv H. injection H as <- <- <-. exists [p]. split; [by apply consumed_one|done]. }
  destruct (_ || _).
  { intros H. bind_inv H. destruct a; [|done]. injection H as <- <- <-.
    exists [p]. split; [by apply consumed_one|done]. }
  destruct (_ =? PositionTypeFuaStart); [|done].
  destruct (fua_walk p rest) as [[used rest']|] eqn:Ew; [|done]. intros H. bind_inv H.
  injection H as <- <- <-. apply fua_walk_split in Ew as [-> Hne].
  exists (p :: used). split; [|simpl; lia]. split; [by rewrite E|]. split; [|done].
  apply last_pseq.
Qed.

#[export] Instance avchevc_laws : UnpackerLaws (RtpUnpackerAvcHevc payloadType clockRate).
Proof.
  split; simpl.
  - intros pkt pkt' H. unfold avchevc_CalcPosition, calcPositionIfNeededAvc,
      calcPositionIfNeededHevc in H.
    repeat match type of H with
    | Ret pkt = _ => injection H as <-; exists (positionType pkt); by destruct pkt
    | Ret (set_position _ _) = _ => injection H as <-; by eexists
    | (if ?c then _ else _) = _ => destruct c
    | _ ≫= _ = _ => bind_inv H; cbv zeta in H
    end.
  - intros l seq l' out. unfold avchevc_TryUnpackOne, try_no.
    destruct (items l) as [|p rest]; [by intros [= _ <- <-]|].
    destruct (_ =? _); [intros H; by bind_inv H|].
    destruct (_ || _); [intros H; bind_inv H; destruct a; [done|by injection H as _ <- <-]|].
    destruct (_ =? _); [|by intros [= _ <- <-]].
    destruct (fua_walk p rest) as [[u r]|]; [intros H; by bind_inv H|by intros [= _ <- <-]].
  - intros l seq l' out H. apply avchevc_try_inv in H as (used & ? & _). eauto.
  - intros l Hl. unfold avchevc_TryUnpackOne, try_no.
    destruct (items l) as [|p rest] eqn:E; [done|].
    unfold bytes_list in Hl. rewrite E in Hl. inversion Hl; subst.
    pose proof (λ s, unpack_aggregate_no_fuel p s ltac:(done)). no_fuel.
  - intros pkt. unfold avchevc_CalcPosition, calcPositionIfNeededAvc, calcPositionIfNeededHevc.
    no_fuel.
Qed.

#[export] Instance avchevc_size : UnpackerSize (RtpUnpackerAvcHevc payloadType clockRate).
Proof.
  intros l seq l' out H. apply avchevc_try_inv in H as (used & (E & _) & ->).
  rewrite E. len_lia.
Qed.
End AvcHevcFacts.

(** ** Aggregation packets *)

(** The units of an aggregation packet, each behind a two-byte length. *)
Definition aggregate (nals : list (list Z)) : list Z :=
  concat (map (λ n, be_bytes 2 (len n) ++ n) nals).

(** The same units behind four-byte lengths. *)
Definition avcc_units (nals : list (list Z)) : list Z :=
  concat (map (λ n, be_bytes 4 (len n) ++ n) nals).

Lemma aggregate_cons n nals : aggregate (n :: nals) = be_bytes 2 (len n) ++ n ++ aggregate nals.
Proof. exact (eq_sym (app_assoc (be_bytes 2 (len n)) n (aggregate nals))). Qed.
Lemma avcc_units_cons n nals : avcc_units (n :: nals) = be_bytes 4 (len n) ++ n ++ avcc_units nals.
Proof. exact (eq_sym (app_assoc (be_bytes 4 (len n)) n (avcc_units nals))). Qed.

Section Aggregate.
Context {B : Bele} {HB : BeleLaws B}.

Lemma stap_total_spec nals fuel pre t :
  Forall (λ n, is_u16 (len n)) nals → (length (aggregate nals) < fuel)%nat →
  stap_total fuel (pre ++ aggregate nals) (len pre) t = Ret (Some (t + len (avcc_units nals))).
Proof.
  revert fuel pre t. induction nals as [|n nals IH]; intros fuel pre t Hall Hf.
  { destruct fuel as [|fuel]; [lia|]. cbn [stap_total]. rewrite app_nil_r, Z.eqb_refl.
    simpl. do 2 f_equal. lia. }
  apply List.Forall_cons_iff in Hall as [Hn Hall].
  rewrite aggregate_cons, avcc_units_cons in *. destruct fuel as [|fuel]; [lia|].
  cbn [stap_total]. go_test. go_test. rewrite go_from_app, bind_Ret by done.
  rewrite BeUint16_be, bind_Ret by done. rewrite (app_assoc _ n), app_assoc.
  replace (len pre + _) with (len (pre ++ be_bytes 2 (len n) ++ n)) by len_lia.
  rewrite IH; [do 2 f_equal; len_lia|done|revert Hf; len_lia].
Qed.

Lemma stap_fill_spec nals fuel pre out :
  Forall (λ n, is_u16 (len n)) nals → (length (aggregate nals) < fuel)%nat →
  stap_fill fuel (pre ++ aggregate nals) (out ++ go_make (len (avcc_units nals))) (len pre) (len out) =
  Ret (out ++ avcc_units nals).
Proof.
  revert fuel pre out. induction nals as [|n nals IH]; intros fuel pre out Hall Hf.
  { destruct fuel as [|fuel]; [lia|]. cbn [stap_fill]. by rewrite app_nil_r, Z.eqb_refl. }
  apply List.Forall_cons_iff in Hall as [Hn Hall].
  rewrite aggregate_cons, avcc_units_cons in *. destruct fuel as [|fuel]; [lia|].
  cbn [stap_fill]. go_test. rewrite go_from_app, bind_Ret by done.
  rewrite BeUint16_be, bind_Ret by done.
  assert (go_make (len (be_bytes 4 (len n) ++ n ++ avcc_units nals)) =
          go_make 4 ++ go_make (len n) ++ go_make (len (avcc_units nals))) as ->
    by (rewrite <- !go_make_add by lia; f_equal; len_lia).
  rewrite (go_upd_from_app out _
    (be_bytes 4 (len n) ++ go_make (len n) ++ go_make (len (avcc_units nals)))), bind_Ret.
  2:{ done. }
  2:{ rewrite u32_small by lia. apply BePutUint32_writes; [done|].
      change (256 ^ Z.of_nat 4) with 4294967296. lia. }
  set (w := pre ++ be_bytes 2 (len n) ++ n ++ aggregate nals).
  assert (Hs : go_slice w (len pre + 2) (len pre + 2 + len n) = Ret n).
  { unfold w. rewrite app_assoc. apply go_slice_app; len_lia. }
  rewrite Hs, bind_Ret. rewrite app_assoc.
  rewrite go_copy_at_app, bind_Ret by (rewrite ?length_app, ?be_bytes_length, ?length_go_make; lia).
  rewrite app_assoc.
  assert (Ew : w = ((pre ++ be_bytes 2 (len n)) ++ n) ++ aggregate nals)
    by (unfold w; by rewrite <- !app_assoc).
  replace (len pre + (2 + len n)) with (len ((pre ++ be_bytes 2 (len n)) ++ n)) by len_lia.
  replace (len out + (4 + len n)) with (len ((out ++ be_bytes 4 (len n)) ++ n)) by len_lia.
  rewrite Ew, IH; [by rewrite <- !app_assoc|done|revert Hf; len_lia].
Qed.

Lemma unpack_aggregate_spec payloadType clockRate p hd nals ms :
  Forall (λ n, is_u16 (len n)) nals → Body p = Ret (hd ++ aggregate nals) →
  rtp_ms (Timestamp (Header p)) clockRate = Ret ms →
  unpack_aggregate payloadType clockRate p (len hd) =
    Ret (Some (mkAvPacket payloadType ms 0 (avcc_units nals))).
Proof.
  intros Hall Hb Hms. unfold unpack_aggregate. rewrite Hms, bind_Ret, Hb, bind_Ret.
  rewrite go_from_app, bind_Ret by done.
  pose proof (stap_total_spec nals (S (length (aggregate nals))) [] 0 Hall ltac:(lia)) as E.
  simpl app in E. change (len []) with 0 in E. rewrite E, bind_Ret, Z.add_0_l.
  pose proof (stap_fill_spec nals (S (length (aggregate nals))) [] [] Hall ltac:(lia)) as E2.
  simpl app in E2. change (len []) with 0 in E2. by rewrite E2, bind_Ret.
Qed.
End Aggregate.

(** ** Properties *)

(** A STAP-A (AVC) or AP (HEVC) packet that carries any list of units, each
    below 65536 bytes, is unpacked into one [AvPacket] with exactly these units,
    in order, each behind a four-byte length; the packet leaves the list. *)
Theorem rtp_unpack_aggregate {B : Bele} (HB : BeleLaws B) payloadType clockRate l p rest hd nals ms :
  items l = p :: rest →
  positionType p = PositionTypeStapa ∧ len hd = 1 ∨ positionType p = PositionTypeAp ∧ len hd = 2 →
  Forall (λ n, is_u16 (len n)) nals → Body p = Ret (hd ++ aggregate nals) →
  rtp_ms (Timestamp (Header p)) clockRate = Ret ms →
  avchevc_TryUnpackOne payloadType clockRate l =
    Ret (true, pseq p, unlink l rest 1, [mkAvPacket payloadType ms 0 (avcc_units nals)]).
Proof.
  intros Hi Hpos Hall Hb Hms. unfold avchevc_TryUnpackOne. rewrite Hi.
  pose proof (unpack_aggregate_spec payloadType clockRate p hd nals ms Hall Hb Hms) as E.
  destruct Hpos as [[-> Hl]|[-> Hl]]; rewrite Hl in E; simpl; by rewrite E.
Qed.

(** Unpacking an AAC unit that spans [n >= 2] packets takes [n] packets off
    the list but lowers the size counter by [n-1]: the counter drifts up by one
    with every fragmented unit. *)
Theorem rtp_aac_size_drift payloadType clockRate l seq l' out :
  aac_TryUnpackOne payloadType clockRate l = Ret (true, seq, l', out) →
  len (items l') < len (items l) - 1 → Size l = len (items l) → Size l' = len (items l') + 1.
Proof.
  intros H Hl Hs. destruct (items l) as [|p rest] eqn:E.
  { unfold aac_TryUnpackOne in H. by rewrite E in H. }
  destruct (aac_fragments_drift _ _ _ _ _ _ _ _ E H) as [[_ Hi]|Hi].
  - rewrite Hi in Hl. simpl in Hl. lia.
  - rewrite E in Hi. lia.
Qed.

(** ** Witnesses *)

Definition demo_stapa : RtpPacket :=
  mkRtpPacket (mkRtpHeader 2 0 0 0 1 96 5 180000 1 [] 0 [] 12 0)
    (replicate 12 0 ++ [24; 0; 2; 103; 1; 0; 1; 104]) PositionTypeStapa.
Definition demo_container : RtpPacketList := mkList [demo_stapa] 1 true 4 16.

Lemma rtp_unpack_aggregate_witness :
  @avchevc_TryUnpackOne bele_impl AvPacketPtAvc 90000 demo_container =
    Ret (true, 5, unlink demo_container [] 1,
         [mkAvPacket AvPacketPtAvc 2000 0 (avcc_units [[103; 1]; [104]])]).
Proof.
  apply (rtp_unpack_aggregate bele_impl_laws AvPacketPtAvc 90000 demo_container demo_stapa []
           [24] [[103; 1]; [104]] 2000); try reflexivity.
  - left. split; reflexivity.
  - repeat constructor; simpl; lia.
Defined.

Lemma rtp_feed_bounded_witness :
  let P := @RtpUnpackerAvcHevc bele_impl AvPacketPtAvc 90000 in
  @Feed P demo_container (set_position demo_stapa 0) ≠ Fail OutOfFuel ∧
  ∀ l' out, @Feed P demo_container (set_position demo_stapa 0) = Ret (l', out) → bounded l'.
Proof.
  apply (rtp_feed_bounded (avchevc_laws AvPacketPtAvc 90000) (avchevc_size AvPacketPtAvc 90000)).
  - split; vm_compute; reflexivity.
  - apply (bool_decide_unpack _). vm_compute. exact I.
  - apply (bool_decide_unpack _). vm_compute. exact I.
Defined.

Lemma rtp_feed_order_witness :
  let P := @RtpUnpackerAvcHevc bele_impl AvPacketPtAvc 90000 in
  (∀ l' out, @Feed P demo_container demo_stapa = Ret (l', out) →
     after_done 0 l' ∧ progress 0 demo_container ≤ progress 0 l') ∧
  (doneSeqFlag demo_container = true → dist 0 demo_stapa ≤ seq_dist 0 (doneSeq demo_container) →
   @Feed P demo_container demo_stapa = Ret (demo_container, [])).
Proof.
  apply (rtp_feed_order (avchevc_laws AvPacketPtAvc 90000)).
  - split; [|intros _; split; [split|]; vm_compute; congruence].
    constructor; [split; [split|]; vm_compute; congruence | vm_compute; congruence | constructor].
  - split; [split|]; vm_compute; congruence.
Defined.

(** A six-byte unit in two packets. *)
Definition demo_aac_packet (seq : Z) (data : list Z) : RtpPacket :=
  mkRtpPacket (mkRtpHeader 2 0 0 0 0 97 seq 44100 1 [] 0 [] 12 0)
    (replicate 12 0 ++ [0; 16; 0; 48] ++ data) 0.
Definition demo_aac_list : RtpPacketList :=
  mkList [demo_aac_packet 1 [1; 2; 3]; demo_aac_packet 2 [4; 5; 6]] 2 false 0 16.

Lemma rtp_aac_size_drift_witness :
  Size (mkList [] 1 false 0 16) = len (items (mkList [] 1 false 0 16)) + 1.
Proof.
  apply (rtp_aac_size_drift AvPacketPtAac 44100 demo_aac_list 2 (mkList [] 1 false 0 16)
    [mkAvPacket AvPacketPtAac 1002 0 [1; 2; 3; 4; 5; 6]]); vm_compute; reflexivity.
Defined.
