(* ===== verification/RtpPack.v ===== *)
(** * Packing elementary frames into RTP packets

    The payload packers of src/pkg/rtprtcp (rtp_packer_payload_avc_hevc.go,
    rtp_packer_payload_aac.go, rtp_packer_payload_pcm.go,
    rtp_packer_payload_opus.go) behind the interface of rtp_packer_payload.go,
    and [RtpPacker] (rtp_packer.go). *)

From S2P Require Import Prelude GoFloat Naza RtpSeq RtpPacket Base.
From S2P Require Avc Hevc.

(** ** The payload packers *)

Definition RtpPackerPayloadAvcHevcTypeNalu : Z := 1.
Definition RtpPackerPayloadAvcHevcTypeAvcc : Z := 2.
Definition RtpPackerPayloadAvcHevcTypeAnnexb : Z := 3.

(** The two or three header bytes of a fragment, without the start and end
    flags. *)
Definition fu_header (payloadType nri nalType : Z) (item : list Z) : outcome (list Z) :=
  if payloadType =? AvPacketPtAvc then
    item ← go_set item 0 (Z.lor NaluTypeAvcFua nri);
    go_set item 1 nalType
  else
    item ← go_set item 0 (u8 (Z.shiftl NaluTypeHevcFua 1));
    item ← go_set item 1 1;
    go_set item 2 nalType.

(** The fragmentation loop: position [bpos], [isFirstFlag]. *)
Fixpoint fu_loop (fuel : nat) (payloadType : Z) (nal : list Z)
    (maxSize headerSize sepos nri nalType bpos : Z) (isFirstFlag : bool)
    : outcome (list (list Z)) :=
  match fuel with
  | O => Fail OutOfFuel
  | S fuel =>
      if len nal - bpos >? maxSize - headerSize then
        item ← go_make_checked maxSize;
        item ← fu_header payloadType nri nalType item;
        item ← (if isFirstFlag then
                  b ← go_index item sepos; go_set item sepos (Z.lor b 128)
                else Ret item);
        data ← go_slice nal bpos (bpos + maxSize - headerSize);
        item ← go_copy_at item headerSize data;
        r ← fu_loop fuel payloadType nal maxSize headerSize sepos nri nalType
              (bpos + (maxSize - headerSize)) false;
        Ret (item :: r)
      else
        item ← go_make_checked (len nal - bpos + headerSize);
        item ← fu_header payloadType nri (Z.lor nalType 64) item;
        data ← go_from nal bpos;
        item ← go_copy_at item headerSize data;
        Ret [item]
  end.

Definition PackNal (fuel : nat) (payloadType : Z) (nal : list Z) (maxSize : Z)
    : outcome (list (list Z)) :=
  if len nal <=? maxSize then Ret [go_copy (go_make (len nal)) nal]
  else
    nal0 ← go_index nal 0;
    if payloadType =? AvPacketPtAvc then
      fu_loop fuel payloadType nal maxSize 2 1 (Z.land nal0 96) (Z.land nal0 31) 1 true
    else
      fu_loop fuel payloadType nal maxSize 3 2 0 (Z.land (Z.shiftr nal0 1) 63) 2 true.

(** Every turn of the loop moves at least one byte when [maxSize] exceeds the
    fragment header. *)
Definition pack_fuel (nal : list Z) : nat := S (length nal).

(** [out = append(out, f(nal)...)] over the units. *)
Fixpoint pack_nals (payloadType maxSize : Z) (nals : list (list Z)) : outcome (list (list Z)) :=
  match nals with
  | [] => Ret []
  | nal :: nals =>
      nal0 ← go_index nal 0;
      let aud := if payloadType =? AvPacketPtAvc
                 then Avc.ParseNaluType nal0 =? Avc.NaluTypeAud
                 else Hevc.ParseNaluType nal0 =? Hevc.NaluTypeAud in
      if aud then pack_nals payloadType maxSize nals
      else
        items ← PackNal (pack_fuel nal) payloadType nal maxSize;
        r ← pack_nals payloadType maxSize nals;
        Ret (items ++ r)
  end.

(** The units of a split, none on an error. *)
Definition nals_or_none (r : Avc.nal_result) : outcome (list (list Z)) :=
  match r with
  | None => Fail OutOfFuel
  | Some (_, Some _) => Ret []
  | Some (nals, None) => Ret nals
  end.

Definition avchevc_Pack {B : Bele} (payloadType typ : Z) (inb : option (list Z)) (maxSize : Z)
    : outcome (list (list Z)) :=
  match inb with
  | None => Ret []
  | Some b =>
      if maxSize <=? 0 then Ret [] else
      if typ =? RtpPackerPayloadAvcHevcTypeAvcc then
        r ← Avc.SplitNaluAvcc inb; nals ← nals_or_none r; pack_nals payloadType maxSize nals
      else if typ =? RtpPackerPayloadAvcHevcTypeAnnexb then
        nals ← nals_or_none (Avc.SplitNaluAnnexb inb); pack_nals payloadType maxSize nals
      else PackNal (pack_fuel b) payloadType b maxSize
  end.

Definition aac_Pack (inb : option (list Z)) (maxSize : Z) : outcome (list (list Z)) :=
  match inb with
  | None => Ret []
  | Some b =>
      if maxSize <=? 0 then Ret [] else
      let auHeadersLength := 2 in
      let item := go_make (4 + len b) in
      item ← go_set item 0 0;
      item ← go_set item 1 (u8 (auHeadersLength * 8));
      item ← go_set item 2 (u8 (Z.shiftr (len b) 5));
      item ← go_set item 3 (u8 (Z.shiftl (Z.land (len b) 31) 3));
      item ← go_copy_at item 4 b;
      Ret [item]
  end.

Definition pcm_Pack (inb : option (list Z)) (maxSize : Z) : outcome (list (list Z)) :=
  match inb with
  | None => Ret []
  | Some b => if maxSize <=? 0 then Ret [] else Ret [go_copy (go_make (len b)) b]
  end.

Definition opus_Pack (inb : option (list Z)) (maxSize : Z) : outcome (list (list Z)) :=
  match inb with
  | None => Ret []
  | Some b => if maxSize <=? 0 then Ret [] else Ret [go_copy (go_make (len b)) b]
  end.

(** ** RtpPacker *)

(** [IRtpPackerPayload] *)
Class PackerPayload := PayloadPack : option (list Z) → Z → outcome (list (list Z)).

Definition avchevc_packer {B : Bele} (payloadType typ : Z) : PackerPayload :=
  avchevc_Pack payloadType typ.
Definition aac_packer : PackerPayload := aac_Pack.
Definition pcm_packer : PackerPayload := pcm_Pack.
Definition opus_packer : PackerPayload := opus_Pack.

Record RtpPacker := mkPacker {
  clockRate : Z;
  ssrc : Z;
  MaxPayloadSize : Z;
  pseqno : Z;
}.

(** [ret = r.seq; r.seq++] *)
Definition genSeq (r : RtpPacker) : Z * RtpPacker :=
  (pseqno r, mkPacker (clockRate r) (ssrc r) (MaxPayloadSize r) (u16 (pseqno r + 1))).

(** [uint32(float64(ts) * float64(clockRate) / 1000)]; the conversion of an
    out-of-range value is the one of amd64. *)
Definition rtp_timestamp (ts clockRate : Z) : Z :=
  u32 (f64_trunc (f64_div (f64_mul (f64_of_int ts) (f64_of_int clockRate)) (f64_of_int 1000))).

Definition packer_header (r : RtpPacker) (pkt : AvPacket) (mark seq : Z) : RtpHeader :=
  mkRtpHeader DefaultRtpVersion 0 0 0 mark (u8 (PayloadType pkt)) seq
    (rtp_timestamp (avTimestamp pkt) (clockRate r)) (ssrc r) [] 0 [] RtpFixedHeaderLength 0.

(** The loop of [Pack]: the payloads left. *)
Fixpoint pack_payloads {B : Bele} (r : RtpPacker) (pkt : AvPacket) (payloads : list (list Z))
    : outcome (list RtpPacket * RtpPacker) :=
  match payloads with
  | [] => Ret ([], r)
  | payload :: payloads =>
      let mark := match payloads with [] => 1 | _ => 0 end in
      let '(seq, r) := genSeq r in
      p ← MakeRtpPacket (packer_header r pkt mark seq) payload;
      '(out, r) ← pack_payloads r pkt payloads;
      Ret (p :: out, r)
  end.

Definition Pack {B : Bele} {PP : PackerPayload} (r : RtpPacker) (pkt : AvPacket)
    : outcome (list RtpPacket * RtpPacker) :=
  payloads ← PayloadPack (Some (Payload pkt)) (MaxPayloadSize r);
  pack_payloads r pkt payloads.

(** ** Specification of fragmentation *)

(** The fragment header: start and end flags on the unit type. *)
Definition fu_head (payloadType nri nalType flags : Z) : list Z :=
  if payloadType =? AvPacketPtAvc then [Z.lor NaluTypeAvcFua nri; Z.lor nalType flags]
  else [98; 1; Z.lor nalType flags].

(** The fragments of a unit whose data is cut into [chunks]. *)
Fixpoint fu_items (payloadType nri nalType start : Z) (chunks : list (list Z)) : list (list Z) :=
  match chunks with
  | [] => []
  | [c] => [fu_head payloadType nri nalType 64 ++ c]
  | c :: cs => (fu_head payloadType nri nalType start ++ c) :: fu_items payloadType nri nalType 0 cs
  end.

Lemma fu_items_cons pt nri ty st c cs :
  cs ≠ [] → fu_items pt nri ty st (c :: cs) =
    (fu_head pt nri ty st ++ c) :: fu_items pt nri ty 0 cs.
Proof. by destruct cs. Qed.

Definition fu_size (payloadType : Z) : Z := if payloadType =? AvPacketPtAvc then 2 else 3.

Lemma fu_head_length pt nri ty fl : len (fu_head pt nri ty fl) = fu_size pt.
Proof. unfold fu_head, fu_size. by destruct (pt =? _). Qed.

Arguments fu_head : simpl never.

(** Writing the header and the flag into a fresh fragment. *)
Lemma fu_header_spec pt nri ty n :
  fu_size pt ≤ n → 0 ≤ ty → fu_header pt nri ty (go_make n) =
    Ret (fu_head pt nri ty 0 ++ go_make (n - fu_size pt)).
Proof.
  intros Hn Hty. unfold fu_header, fu_head, fu_size in *. rewrite Z.lor_0_r.
  destruct (pt =? _).
  - repeat go_write. cbn [app]. do 3 f_equal. f_equal. lia.
  - repeat go_write. cbn [app]. do 4 f_equal. f_equal. lia.
Qed.

Lemma fu_flag_spec pt nri ty c :
  0 ≤ ty → (b ← go_index (fu_head pt nri ty 0 ++ c) (fu_size pt - 1);
   go_set (fu_head pt nri ty 0 ++ c) (fu_size pt - 1) (Z.lor b 128)) =
  Ret (fu_head pt nri ty 128 ++ c).
Proof.
  intros Hty. unfold fu_head, fu_size. rewrite Z.lor_0_r. destruct (pt =? _); cbn [app].
  - go_read. by repeat go_write.
  - go_read. by repeat go_write.
Qed.

Lemma fu_data_spec pt nri ty fl n data :
  len data = n → go_copy_at (fu_head pt nri ty fl ++ go_make n) (fu_size pt) data =
    Ret (fu_head pt nri ty fl ++ data).
Proof.
  intros Hn. rewrite <- (app_nil_r (go_make n)), go_copy_at_app.
  - by rewrite app_nil_r.
  - by rewrite fu_head_length.
  - rewrite length_go_make. lia.
Qed.

(** The loop cuts what is left of the unit. *)
Lemma fu_loop_spec fuel pt nal mx nri ty bpos first :
  0 ≤ ty → fu_size pt < mx → 0 ≤ bpos < len nal → len nal - bpos < Z.of_nat fuel →
  ∃ chunks, fu_loop fuel pt nal mx (fu_size pt) (fu_size pt - 1) nri ty bpos first =
      Ret (fu_items pt nri ty (if first then 128 else 0) chunks) ∧
    concat chunks = drop (Z.to_nat bpos) nal ∧
    Forall (λ c, 0 < len c ≤ mx - fu_size pt) chunks ∧
    (mx - fu_size pt < len nal - bpos → (2 ≤ length chunks)%nat).
Proof.
  intros Hty Hmx. assert (Hs : 2 ≤ fu_size pt) by (unfold fu_size; destruct (_ =? _); lia).
  revert bpos first. induction fuel as [|fuel IH]; intros bpos first Hb Hf; [lia|].
  cbn [fu_loop]. rewrite Z.gtb_ltb.
  destruct (Z.ltb_spec (mx - fu_size pt) (len nal - bpos)) as [Hlt|Hge].
  - unfold go_make_checked at 1. go_test. rewrite bind_Ret, fu_header_spec, bind_Ret by lia.
    assert (E : (if first then
         b ← go_index (fu_head pt nri ty 0 ++ go_make (mx - fu_size pt)) (fu_size pt - 1);
         go_set (fu_head pt nri ty 0 ++ go_make (mx - fu_size pt)) (fu_size pt - 1) (Z.lor b 128)
       else Ret (fu_head pt nri ty 0 ++ go_make (mx - fu_size pt))) =
       Ret (fu_head pt nri ty (if first then 128 else 0) ++ go_make (mx - fu_size pt))).
    { destruct first; [by apply fu_flag_spec | done]. }
    rewrite E, bind_Ret. clear E. rewrite go_slice_Ret, bind_Ret by lia.
    set (data := take _ _).
    assert (Hd : len data = mx - fu_size pt)
      by (unfold data; rewrite length_take, length_drop; lia).
    rewrite fu_data_spec, bind_Ret by done.
    destruct (IH (bpos + (mx - fu_size pt)) false) as (cs & -> & Hc & Hall & _); [lia..|].
    rewrite bind_Ret. exists (data :: cs).
    assert (Hne : cs ≠ []).
    { intros ->. symmetry in Hc. apply (f_equal length) in Hc. rewrite length_drop in Hc.
      simpl in Hc. lia. }
    split; [by rewrite fu_items_cons|]. split; [|split].
    + simpl. rewrite Hc. unfold data.
      rewrite <- (take_drop (Z.to_nat (bpos + mx - fu_size pt - bpos)) (drop (Z.to_nat bpos) nal)) at 2.
      rewrite drop_drop. do 2 f_equal. lia.
    + constructor; [lia|done].
    + intros _. destruct cs; [done|simpl; lia].
  - unfold go_make_checked. go_test. rewrite bind_Ret.
    assert (E : fu_header pt nri (Z.lor ty 64) (go_make (len nal - bpos + fu_size pt)) =
                Ret (fu_head pt nri ty 64 ++ go_make (len nal - bpos))).
    { rewrite fu_header_spec by (try lia; apply Z.lor_nonneg; lia).
      unfold fu_head. rewrite Z.lor_0_r. do 3 f_equal. lia. }
    rewrite E, bind_Ret. rewrite go_from_Ret, bind_Ret by lia.
    assert (len (drop (Z.to_nat bpos) nal) = len nal - bpos) by (rewrite length_drop; lia).
    rewrite fu_data_spec, bind_Ret by done. exists [drop (Z.to_nat bpos) nal].
    split; [done|]. split; [simpl; by rewrite app_nil_r|]. split; [|lia].
    constructor; [lia|done].
Qed.

(** The flags of fragment [j] of [n]. *)
Definition flag_at (start : Z) (n j : nat) : Z :=
  if Nat.eqb (S j) n then 64 else if Nat.eqb j 0 then start else 0.

Lemma fu_items_lookup pt nri ty st chunks j c :
  chunks !! j = Some c →
  fu_items pt nri ty st chunks !! j = Some (fu_head pt nri ty (flag_at st (length chunks) j) ++ c).
Proof.
  revert st j. induction chunks as [|d chunks IH]; intros st j H; [done|].
  destruct chunks as [|d' chunks].
  { destruct j; [|done]. by injection H as <-. }
  rewrite fu_items_cons by done. destruct j as [|j]; [by injection H as <-|].
  transitivity (fu_items pt nri ty 0 (d' :: chunks) !! j); [done|]. rewrite (IH 0 j H). do 3 f_equal. unfold flag_at.
  change (length (d :: d' :: chunks)) with (S (length (d' :: chunks))).
  change (Nat.eqb (S (S j)) (S (length (d' :: chunks)))) with (Nat.eqb (S j) (length (d' :: chunks))).
  destruct (Nat.eqb _ _); [done|]. by destruct (Nat.eqb j 0).
Qed.

Lemma length_fu_items pt nri ty st chunks : length (fu_items pt nri ty st chunks) = length chunks.
Proof.
  revert st. induction chunks as [|c [|d cs] IH]; intros st; [done..|].
  rewrite fu_items_cons by done. simpl. f_equal. apply IH.
Qed.

(** ** The packets of a frame *)

Definition with_seq (r : RtpPacker) (i : Z) : RtpPacker :=
  mkPacker (clockRate r) (ssrc r) (MaxPayloadSize r) (seq_at (pseqno r) i).

Fixpoint sent (r : RtpPacker) (pkt : AvPacket) (i : Z) (pls : list (list Z)) : list RtpPacket :=
  match pls with
  | [] => []
  | pl :: pls =>
      let h := packer_header r pkt (match pls with [] => 1 | _ => 0 end) (seq_at (pseqno r) i) in
      mkRtpPacket h (fixed_bytes h ++ pl) 0 :: sent r pkt (i + 1) pls
  end.

Lemma length_sent r pkt i pls : length (sent r pkt i pls) = length pls.
Proof. revert i. induction pls; intros; simpl; congruence. Qed.

Lemma sent_lookup r pkt i pls j p :
  sent r pkt i pls !! j = Some p → ∃ pl mark,
    pls !! j = Some pl ∧ (mark = 0 ∨ mark = 1) ∧
    let h := packer_header r pkt mark (seq_at (pseqno r) (i + Z.of_nat j)) in
    p = mkRtpPacket h (fixed_bytes h ++ pl) 0.
Proof.
  revert i j. induction pls as [|pl pls IH]; intros i j H; [done|]. destruct j as [|j].
  - injection H as <-. exists pl, (match pls with [] => 1 | _ => 0 end). split; [done|].
    split; [destruct pls; auto|]. by rewrite Z.add_0_r.
  - apply IH in H as (pl' & mark & H1 & H2 & H3). exists pl', mark. split; [done|].
    split; [done|]. replace (i + Z.of_nat (S j)) with (i + 1 + Z.of_nat j) by lia. done.
Qed.

Section PackFacts.
Context {B : Bele} {HB : BeleLaws B}.

Lemma pack_payloads_spec r pkt i pls :
  is_u32 (ssrc r) →
  pack_payloads (with_seq r i) pkt pls = Ret (sent r pkt i pls, with_seq r (i + len pls)).
Proof.
  intros Hs. revert i. induction pls as [|pl pls IH]; intros i.
  { simpl. by rewrite Z.add_0_r. }
  cbn [pack_payloads sent]. unfold genSeq at 1.
  rewrite MakeRtpPacket_spec, bind_Ret; [|apply seq_at_range|apply u32_range|done].
  assert (E : mkPacker (clockRate (with_seq r i)) (ssrc (with_seq r i))
               (MaxPayloadSize (with_seq r i)) (u16 (pseqno (with_seq r i) + 1)) = with_seq r (i + 1)).
  { unfold with_seq. simpl. by rewrite seq_at_succ. }
  cbv zeta. rewrite E, IH, bind_Ret. do 3 f_equal. rewrite length_cons. lia.
Qed.

Lemma packer_header_plain r pkt mark seq :
  is_u32 (ssrc r) → 0 ≤ PayloadType pkt < 128 → is_u16 seq → mark = 0 ∨ mark = 1 →
  plain_header (packer_header r pkt mark seq).
Proof.
  intros Hs Hp Hq Hm. split; [|done].
  assert (u8 (PayloadType pkt) = PayloadType pkt) as Hu by (apply u8_small; lia).
  split; simpl; try rewrite Hu; try done; try lia; try (constructor; fail).
  apply u32_range.
Qed.
End PackFacts.

(** ** Properties *)

(** A unit that does not fit is cut so that the data of the fragments, in
    order, is the unit without its header bytes, every fragment is at most
    [maxSize] long, and the first carries the start flag, the last the end
    flag; the loop terminates with the fuel [pack_fuel]. *)
Theorem rtp_pack_nal payloadType nal maxSize h :
  fu_size payloadType < maxSize → maxSize < len nal → head nal = Some h → is_u8 h →
  ∃ nri ty chunks,
    PackNal (pack_fuel nal) payloadType nal maxSize = Ret (fu_items payloadType nri ty 128 chunks) ∧
    concat chunks = drop (Z.to_nat (fu_size payloadType - 1)) nal ∧
    Forall (λ c, 0 < len c ≤ maxSize - fu_size payloadType) chunks ∧ (2 ≤ length chunks)%nat ∧
    ∀ i item, fu_items payloadType nri ty 128 chunks !! i = Some item → len item ≤ maxSize.
Proof.
  intros Hm Hl Hh Hb. destruct nal as [|h' rest]; [done|]. injection Hh as ->.
  unfold PackNal. go_test. rewrite go_index_head, bind_Ret by done.
  assert (Hspec : ∀ nri ty, 0 ≤ ty → ∃ chunks,
    fu_loop (pack_fuel (h :: rest)) payloadType (h :: rest) maxSize (fu_size payloadType)
      (fu_size payloadType - 1) nri ty (fu_size payloadType - 1) true =
      Ret (fu_items payloadType nri ty 128 chunks) ∧
    concat chunks = drop (Z.to_nat (fu_size payloadType - 1)) (h :: rest) ∧
    Forall (λ c, 0 < len c ≤ maxSize - fu_size payloadType) chunks ∧ (2 ≤ length chunks)%nat ∧
    ∀ i item, fu_items payloadType nri ty 128 chunks !! i = Some item → len item ≤ maxSize).
  { intros nri ty Ht. assert (2 ≤ fu_size payloadType) by (unfold fu_size; destruct (_ =? _); lia).
    destruct (fu_loop_spec (pack_fuel (h :: rest)) payloadType (h :: rest) maxSize nri ty
      (fu_size payloadType - 1) true) as (cs & E & Hc & Hall & H2);
      [done|done|lia|unfold pack_fuel; lia|].
    exists cs. split; [done|]. split; [done|]. split; [done|]. split; [apply H2; lia|].
    intros i item Hi. assert (Hj := Hi). apply lookup_lt_Some in Hj. rewrite length_fu_items in Hj.
    apply lookup_lt_is_Some_2 in Hj as [c Hcj]. rewrite (fu_items_lookup _ _ _ _ _ _ c) in Hi by done.
    injection Hi as <-. rewrite Forall_lookup in Hall. specialize (Hall i c Hcj).
    pose proof (fu_head_length payloadType nri ty (flag_at 128 (length cs) i)).
    revert Hall. len_lia. }
  unfold fu_size in *. destruct (payloadType =? AvPacketPtAvc); do 2 eexists; apply Hspec;
    apply Z.land_nonneg; lia.
Qed.

(** When [maxSize] is the size of the fragment header (2 for AVC, 3 for
    HEVC) fragmentation never terminates on a longer unit: the loop emits empty
    fragments for ever. *)
Theorem rtp_pack_nal_diverges fuel payloadType nal :
  fu_size payloadType < len nal → is_bytes nal →
  PackNal fuel payloadType nal (fu_size payloadType) = Fail OutOfFuel.
Proof.
  intros Hl Hb. unfold PackNal. go_test. destruct nal as [|h rest]; [simpl in Hl; revert Hl; unfold fu_size; destruct (_ =? _); lia|].
  rewrite go_index_head, bind_Ret by done.
  assert (Hh : 0 ≤ h) by (inversion Hb; lia).
  assert (Hdiv : ∀ nri ty first, 0 ≤ ty →
    fu_loop fuel payloadType (h :: rest) (fu_size payloadType) (fu_size payloadType)
      (fu_size payloadType - 1) nri ty (fu_size payloadType - 1) first = Fail OutOfFuel).
  { assert (2 ≤ fu_size payloadType) by (unfold fu_size; destruct (_ =? _); lia).
    induction fuel as [|f IH]; intros nri ty first Ht; [done|]. cbn [fu_loop].
    rewrite Z.gtb_ltb. go_test. unfold go_make_checked at 1. go_test.
    rewrite bind_Ret, fu_header_spec, bind_Ret by lia. rewrite Z.sub_diag.
    assert (E : (if first then
         b ← go_index (fu_head payloadType nri ty 0 ++ go_make 0) (fu_size payloadType - 1);
         go_set (fu_head payloadType nri ty 0 ++ go_make 0) (fu_size payloadType - 1) (Z.lor b 128)
       else Ret (fu_head payloadType nri ty 0 ++ go_make 0)) =
       Ret (fu_head payloadType nri ty (if first then 128 else 0) ++ go_make 0)).
    { destruct first; [by apply fu_flag_spec | done]. }
    rewrite E, bind_Ret. rewrite go_slice_Ret, bind_Ret by lia.
    rewrite fu_data_spec, bind_Ret by (rewrite length_take; lia).
    rewrite Z.add_0_r. by rewrite IH. }
  unfold fu_size in *. destruct (payloadType =? AvPacketPtAvc); apply Hdiv; apply Z.land_nonneg; lia.
Qed.

Lemma rtp_pack_nal_witness :
  ∃ nri ty chunks,
    PackNal (pack_fuel [101; 1; 2; 3; 4; 5]) AvPacketPtAvc [101; 1; 2; 3; 4; 5] 4 =
      Ret (fu_items AvPacketPtAvc nri ty 128 chunks) ∧
    concat chunks = drop (Z.to_nat (fu_size AvPacketPtAvc - 1)) [101; 1; 2; 3; 4; 5] ∧
    Forall (λ c, 0 < len c ≤ 4 - fu_size AvPacketPtAvc) chunks ∧ (2 ≤ length chunks)%nat ∧
    ∀ i item, fu_items AvPacketPtAvc nri ty 128 chunks !! i = Some item → len item ≤ 4.
Proof.
  apply (rtp_pack_nal AvPacketPtAvc [101; 1; 2; 3; 4; 5] 4 101);
    vm_compute; try split; congruence.
Defined.

Lemma rtp_pack_nal_diverges_witness :
  PackNal 1000 AvPacketPtAvc [101; 1; 2] 2 = Fail OutOfFuel.
Proof.
  apply (rtp_pack_nal_diverges 1000 AvPacketPtAvc [101; 1; 2]);
    [reflexivity | repeat constructor; lia].
Defined.
