(* ===== verification/RtpFlow.v ===== *)
(** * From packer to unpacker

    The packets of one frame, sent by [RtpPacker] and received in any order by
    a container with the AVC/HEVC unpacker, give back the frame. *)

From S2P Require Import Prelude GoFloat Naza RtpSeq RtpPacket Base RtpList RtpContainer.
From S2P Require Import RtpUnpack RtpPack.
From S2P Require Avc Hevc.

(** ** Reassembly of a train of fragments *)

(** Packets numbered consecutively from [i]. *)
Definition numbered (s : Z) (i : nat) (ps : list RtpPacket) : Prop :=
  ∀ j p, ps !! j = Some p → pseq p = seq_at s (Z.of_nat (i + j)).

Lemma numbered_cons s i p ps :
  numbered s i (p :: ps) ↔ pseq p = seq_at s (Z.of_nat i) ∧ numbered s (S i) ps.
Proof.
  split.
  - intros H. split; [rewrite (H 0%nat p eq_refl); do 2 f_equal; lia|].
    intros j q Hj. rewrite (H (S j) q Hj). do 2 f_equal. lia.
  - intros [H1 H2] [|j] q Hj.
    + injection Hj as <-. rewrite H1. do 2 f_equal. lia.
    + rewrite (H2 j q Hj). do 2 f_equal. lia.
Qed.

Lemma numbered_ordered s i ps :
  numbered s i ps → Z.of_nat i + len ps ≤ 32768 → ordered s (Z.of_nat i) ps.
Proof.
  revert i. induction ps as [|p ps IH]; intros i H Hl; [constructor|].
  apply numbered_cons in H as [Hp H]. simpl in Hl.
  assert (Hd : dist s p = Z.of_nat i) by (unfold dist; rewrite Hp; apply seq_dist_at; lia).
  constructor.
  - split; [rewrite Hp; apply seq_at_range | lia].
  - lia.
  - rewrite Hd. replace (Z.of_nat i + 1) with (Z.of_nat (S i)) by lia. apply IH; [done|lia].
Qed.

(** The index of a packet is its distance from the first number. *)
Lemma numbered_dist s ps i p :
  numbered s 0 ps → len ps ≤ 32768 → ps !! i = Some p → dist s p = Z.of_nat i.
Proof.
  intros H Hl Hi. unfold dist. rewrite (H i p Hi). apply lookup_lt_Some in Hi.
  apply seq_dist_at. lia.
Qed.

(** What the container has unpacked, if anything, ends just before [s], and the
    [k] packets from [s] on are not taken for older ones. *)
Definition up_to (s k : Z) (l : RtpPacketList) : Prop :=
  doneSeqFlag l = false ∨ (doneSeqFlag l = true ∧ doneSeq l = seq_at s (-1)) ∧ k ≤ 32767.

(** An empty container that waits for [s]. *)
Definition ready (s n : Z) (l : RtpPacketList) : Prop :=
  items l = [] ∧ Size l = 0 ∧ maxSize l = n ∧ up_to s 1 l.

Lemma ready_up_to s n l k : ready s n l → doneSeqFlag l = false ∨ k ≤ 32767 → up_to s k l.
Proof. intros (_ & _ & _ & [H|[H _]]) [H'|H']; try (by left); by right. Qed.

Lemma container_ready_new s n : ready s n (NewRtpUnpackContainer n).
Proof. repeat split. by left. Qed.

Lemma up_to_fresh s k l q : up_to s k l → is_u16 (pseq q) → dist s q < k → IsStale l (pseq q) = false.
Proof.
  intros Hu Hq Hd. unfold IsStale. destruct Hu as [->|[[-> ->] Hk]]; [done|]. cbn [negb].
  rewrite (CompareSeq_window (seq_at s (-1))); [|done|apply seq_at_range|..].
  - apply Z.leb_gt. unfold dist, seq_dist, seq_at in *. wrap.
  - unfold dist, seq_dist, seq_at in *. wrap.
  - unfold seq_dist. rewrite Z.sub_diag. done.
Qed.

Lemma up_to_first s k l q rest : up_to s k l → items l = q :: rest → pseq q = seq_at s 0 → IsFirstSequential l = true.
Proof.
  intros Hu Hi Hq. unfold IsFirstSequential. rewrite Hi. destruct Hu as [->|[[-> ->] _]]; [done|]. cbn [negb].
  apply Z.eqb_eq, SubSeq_1; [rewrite Hq; apply seq_at_range|apply seq_at_range|]. by rewrite Hq, <-seq_at_succ.
Qed.

Section Train.
Context {B : Bele} {HB : BeleLaws B}.
Variables (payloadType clockRate s : Z) (frags : list RtpPacket).

Definition train_position (i : nat) : Z :=
  if Nat.eqb i 0 then PositionTypeFuaStart
  else if Nat.eqb (S i) (length frags) then PositionTypeFuaEnd else PositionTypeFuaMiddle.

Hypothesis Htwo : (2 ≤ length frags)%nat.
Hypothesis Hmany : len frags ≤ 32768.
Hypothesis Hnum : numbered s 0 frags.
Hypothesis Hpos : ∀ i p, frags !! i = Some p → positionType p = train_position i.

Let P := RtpUnpackerAvcHevc payloadType clockRate.
Local Existing Instance P.

Lemma frags_ordered : ordered s 0 frags.
Proof. apply (numbered_ordered s 0); [done|lia]. Qed.

(** A successful search has seen every fragment up to the last. *)
Lemma fua_walk_complete i prev rest used rest' :
  frags !! i = Some prev → Forall (λ p, p ∈ frags) rest →
  fua_walk prev rest = Some (used, rest') → used = drop (S i) frags.
Proof.
  revert i prev used. induction rest as [|p rest IH]; intros i prev used Hi Hall H; [done|].
  apply List.Forall_cons_iff in Hall as [Hp Hall]. cbn [fua_walk] in H.
  apply list_elem_of_lookup_1 in Hp as [j Hj].
  destruct (Z.eqb_spec (SubSeq (pseq p) (pseq prev)) 1) as [E|]; [|done]. cbn [negb] in H.
  assert (j = S i) as ->.
  { rewrite (Hnum j p Hj), (Hnum i prev Hi) in E. apply SubSeq_1 in E; [|apply seq_at_range..].
    rewrite <- seq_at_succ in E. apply lookup_lt_Some in Hi, Hj.
    apply (f_equal (seq_dist s)) in E. rewrite !seq_dist_at in E by lia. lia. }
  rewrite (Hpos _ p Hj) in H. unfold train_position in H.
  change (Nat.eqb (S i) 0) with false in H. cbv iota in H.
  destruct (Nat.eqb_spec (S (S i)) (length frags)) as [El|].
  - simpl in H. injection H as <- <-.
    rewrite (drop_S _ p) by done. f_equal. symmetry. apply drop_ge. lia.
  - rewrite Z.eqb_refl in H. destruct (fua_walk p rest) as [[u r]|] eqn:Ew; [|done].
    injection H as <- <-. rewrite (drop_S _ p) by done. f_equal. by eapply IH.
Qed.

Lemma fua_walk_all i prev :
  frags !! i = Some prev → (S i < length frags)%nat →
  fua_walk prev (drop (S i) frags) = Some (drop (S i) frags, []).
Proof.
  intros Hi Hl. remember (length frags - S i)%nat as k eqn:Hk.
  revert i prev Hi Hl Hk. induction k as [|k IH]; intros i prev Hi Hl Hk; [lia|].
  destruct (lookup_lt_is_Some_2 frags (S i) Hl) as [p Hp].
  rewrite (drop_S _ p) by done. cbn [fua_walk].
  assert (SubSeq (pseq p) (pseq prev) = 1) as ->.
  { rewrite (Hnum _ _ Hp), (Hnum _ _ Hi). apply SubSeq_1; [apply seq_at_range..|].
    rewrite <- seq_at_succ. f_equal. lia. }
  cbn [Z.eqb Pos.eqb negb]. rewrite (Hpos _ p Hp). unfold train_position.
  change (Nat.eqb (S i) 0) with false. cbv iota.
  destruct (Nat.eqb_spec (S (S i)) (length frags)) as [El|].
  - simpl. by rewrite (drop_ge frags (S (S i))) by lia.
  - rewrite Z.eqb_refl. by rewrite (IH (S i) p) by (done || lia).
Qed.

(** Nothing is unpacked while a fragment is missing. *)
Lemma train_incomplete l :
  Forall (λ p, p ∈ frags) (items l) → (length (items l) < length frags)%nat →
  TryUnpackOne l = try_no l.
Proof.
  intros Hall Hl. change (avchevc_TryUnpackOne payloadType clockRate l = try_no l).
  unfold avchevc_TryUnpackOne. destruct (items l) as [|p rest] eqn:E; [done|].
  apply List.Forall_cons_iff in Hall as [Hp Hall].
  apply list_elem_of_lookup_1 in Hp as [i Hi]. rewrite (Hpos i p Hi). unfold train_position.
  destruct (Nat.eqb_spec i 0) as [->|].
  - simpl. destruct (fua_walk p rest) as [[used rest']|] eqn:Ew; [|done]. exfalso.
    pose proof (fua_walk_complete _ _ _ _ _ Hi Hall Ew) as ->.
    apply fua_walk_split in Ew as [-> _].
    simpl in Hl. rewrite length_app, length_drop in Hl. lia.
  - by destruct (Nat.eqb _ _).
Qed.

Variables (pkt : AvPacket) (first lastp : RtpPacket).
Hypothesis Hfirst : frags !! 0%nat = Some first.
Hypothesis Hlast : last frags = Some lastp.
Hypothesis Hunpack : unpack_fua payloadType clockRate first frags lastp = Ret pkt.

Lemma train_complete l :
  items l = frags →
  TryUnpackOne l = Ret (true, pseq lastp, unlink l [] (len frags), [pkt]).
Proof.
  intros E. change (avchevc_TryUnpackOne payloadType clockRate l =
    Ret (true, pseq lastp, unlink l [] (len frags), [pkt])).
  unfold avchevc_TryUnpackOne. rewrite E.
  assert (Ef : frags = first :: drop 1 frags)
    by (rewrite <- (drop_S frags first 0) by done; by rewrite drop_0).
  rewrite Ef at 1. rewrite (Hpos 0 first) by done. simpl.
  rewrite (fua_walk_all 0 first) by (done || lia). rewrite <- Ef.
  assert (List.last (drop 1 frags) first = lastp) as ->.
  { apply last_Some in Hlast as [fs Hfs]. rewrite Hfs in Ef |- *.
    destruct fs as [|x fs]; [rewrite Hfs in Htwo; simpl in Htwo; lia|].
    simpl. rewrite drop_0. clear. induction fs as [|y [|z fs] IH]; try done. }
  assert (Z.of_nat (S (length (drop 1 frags))) = len frags) as -> by (by rewrite Ef at 2).
  by rewrite Hunpack.
Qed.

Definition train_done (n : Z) : RtpPacketList := mkList [] 0 true (pseq lastp) n.

(** The list after some of the fragments came in. *)
Definition partial (n : Z) (l : RtpPacketList) (seen : list RtpPacket) : Prop :=
  list_ok s l ∧ items l ≡ₚ seen ∧ up_to s (len frags) l ∧ maxSize l = n.

Lemma Insert_partial n l seen others p :
  partial n l seen → p :: seen ++ others ≡ₚ frags → partial n (Insert l p) (p :: seen).
Proof.
  intros (Hok & Hi & Hf & Hm) Hperm.
  assert (Hin : ∀ q, q ∈ p :: seen → q ∈ frags).
  { intros q Hq. rewrite <- Hperm. change (q ∈ (p :: seen) ++ others).
    apply elem_of_app. by left. }
  assert (Hw : in_window s p).
  { pose proof (ordered_window _ _ _ frags_ordered) as Hw. rewrite Forall_forall in Hw.
    apply Hw, Hin, elem_of_cons. by left. }
  assert (Hnew : ∀ q, q ∈ items l → pseq q ≠ pseq p).
  { intros q Hq E. rewrite Hi in Hq. apply list_elem_of_split in Hq as (s1 & s2 & ->).
    assert (Hsub : [p; q] ++ (s1 ++ s2 ++ others) ≡ₚ frags).
    { rewrite <- Hperm, <- app_assoc. simpl. constructor. apply Permutation_middle. }
    pose proof (ordered_NoDup s 0 frags frags_ordered) as Hnd.
    rewrite <- Hsub in Hnd. simpl in Hnd. rewrite E in Hnd.
    apply NoDup_cons in Hnd as [Hnd _]. apply Hnd, elem_of_cons. by left. }
  split; [by apply Insert_ok|]. unfold Insert.
  pose proof (insert_walk_ordered s p (items l) 0 Hw (proj1 Hok) ltac:(apply u16_range)) as H.
  destruct (insert_walk p (items l)) as [its|]; simpl.
  - destruct H as (_ & H & _). split; [by rewrite H, Hi|done].
  - destruct H as (q & Hq & E). by destruct (Hnew q Hq).
Qed.

Lemma calc_seq q p : CalcPositionIfNeeded q = Ret p → pseq q = pseq p.
Proof. intros H. by destruct (calc_position _ _ H) as [pos ->]. Qed.

Lemma frag_not_stale n l seen p : partial n l seen → p ∈ frags → IsStale l (pseq p) = false.
Proof.
  intros (_ & _ & Hu & _) Hp. apply list_elem_of_lookup_1 in Hp as [i Hi]. apply (up_to_fresh s (len frags)); [done| |].
  - rewrite (Hnum i p Hi). apply seq_at_range.
  - rewrite (numbered_dist s frags i p) by (done || lia). apply lookup_lt_Some in Hi. lia.
Qed.

Lemma Feed_incomplete n l seen others q p :
  partial n l seen → p :: seen ++ others ≡ₚ frags → others ≠ [] →
  len frags ≤ n → CalcPositionIfNeeded q = Ret p →
  ∃ l', Feed l q = Ret (l', []) ∧ partial n l' (p :: seen).
Proof.
  intros Hl Hperm Hne Hn Hc. pose proof (Insert_partial _ _ _ _ _ Hl Hperm) as Hp.
  exists (Insert l p). split; [|done]. unfold Feed.
  assert (Hpin : p ∈ frags) by (rewrite <- Hperm; apply elem_of_cons; by left).
  rewrite (calc_seq q p Hc), (frag_not_stale n l seen p Hl Hpin), Hc, bind_Ret.
  destruct Hp as ((Ho & Hs) & Hi & Hf' & Hm).
  assert (Hlen : (length (items (Insert l p)) < length frags)%nat).
  { rewrite Hi, <- Hperm. destruct others; [done|]. len_lia. }
  change (loop_fuel (Insert l p)) with (S (length (items (Insert l p)))).
  assert (Htry : tryUnpackOneSequential (Insert l p) = Ret (false, Insert l p, [])).
  { unfold tryUnpackOneSequential. destruct (IsFirstSequential (Insert l p)); [|done]. cbn [negb].
    unfold tryUnpackOne. rewrite train_incomplete; [done| |done].
    rewrite Hi. apply Forall_forall. intros y Hy. rewrite <- Hperm.
    change (y ∈ (p :: seen) ++ others). apply elem_of_app. by left. }
  rewrite unpack_loop_S, Htry, bind_Ret. cbn [negb]. rewrite bind_Ret. cbv iota beta.
  cbn [Z.gtb Z.compare]. unfold Full. rewrite Z.geb_leb, Hm, Hs. go_test. done.
Qed.

Lemma Feed_complete n l seen q p :
  partial n l seen → p :: seen ≡ₚ frags → CalcPositionIfNeeded q = Ret p →
  Feed l q = Ret (train_done n, [pkt]).
Proof.
  intros Hl Hperm Hc.
  assert (Hp : partial n (Insert l p) (p :: seen))
    by (apply (Insert_partial _ _ _ []); [done|by rewrite app_nil_r]).
  assert (Hpin : p ∈ frags) by (rewrite <- Hperm; apply elem_of_cons; by left).
  unfold Feed. rewrite (calc_seq q p Hc), (frag_not_stale n l seen p Hl Hpin), Hc, bind_Ret.
  destruct Hp as ((Ho & Hs) & Hi & Hf' & Hm).
  assert (E : items (Insert l p) = frags).
  { apply (ordered_perm_unique s 0); [done|apply frags_ordered|by rewrite Hi]. }
  assert (Hseq : IsFirstSequential (Insert l p) = true).
  { apply (up_to_first s (len frags) _ first (drop 1 frags)); [done| |exact (Hnum 0%nat first Hfirst)].
    rewrite E. symmetry. by rewrite <- (drop_S frags first 0), drop_0 by done. }
  assert (Htry : tryUnpackOneSequential (Insert l p) =
      Ret (true, SetDoneSeq (unlink (Insert l p) [] (len frags)) (pseq lastp), [pkt])).
  { unfold tryUnpackOneSequential, tryUnpackOne. rewrite Hseq. cbn [negb].
    by rewrite train_complete. }
  change (loop_fuel (Insert l p)) with (S (length (items (Insert l p)))). rewrite E.
  rewrite unpack_loop_S, Htry, bind_Ret. cbn [negb].
  replace (length frags) with (S (pred (length frags))) at 1 by lia.
  rewrite unpack_loop_S. simpl. unfold train_done, SetDoneSeq, unlink. simpl.
  rewrite Hs, E, Hm, Z.sub_diag. done.
Qed.

(** The fragments in any order give the unit, once. *)
Lemma feed_train n ps qs l seen :
  Forall2 (λ q p, CalcPositionIfNeeded q = Ret p) qs ps → ps ≠ [] →
  partial n l seen → ps ++ seen ≡ₚ frags → len frags ≤ n →
  feed_all l qs = Ret (train_done n, [pkt]).
Proof.
  intros Hqs. revert l seen. induction Hqs as [|q p qs ps Hq Hqs IH]; [done|].
  intros l seen _ Hl Hperm Hn. cbn [feed_all]. destruct ps as [|p' ps].
  - inversion Hqs; subst. rewrite (Feed_complete n l seen q p) by done. by rewrite bind_Ret.
  - destruct (Feed_incomplete n l seen (p' :: ps) q p) as (l' & -> & Hl'); try done.
    { rewrite <- Hperm. simpl. constructor. by rewrite Permutation_app_comm. }
    rewrite bind_Ret. cbv iota beta.
    rewrite (IH l' (p :: seen)); [done|done|done| |done].
    rewrite <- Hperm. simpl. rewrite <- Permutation_middle. simpl.
    by rewrite Permutation_swap.
Qed.
End Train.

(** ** The fragments of a packed unit *)

(** The first bytes the fragment headers can carry, and a unit type the
    unpacker takes as a single unit. *)
Definition packable (payloadType : Z) (nal : list Z) : bool :=
  match nal with
  | [] => false
  | h :: rest =>
      (0 <=? h) && (h <? 128) &&
      if payloadType =? AvPacketPtAvc then Avc.ParseNaluType h <=? NaluTypeAvcSingleMax
      else Hevc.key_in (Hevc.ParseNaluType h) Hevc.NaluTypeMapping &&
           (h mod 2 =? 0) && match rest with t :: _ => t =? 1 | [] => false end
  end.

Definition fl_position (fl : Z) : Z :=
  if fl =? 128 then PositionTypeFuaStart
  else if fl =? 64 then PositionTypeFuaEnd else PositionTypeFuaMiddle.

Lemma avc_fu_bits nri ty fl :
  In nri [0; 32; 64; 96] → 0 ≤ ty < 32 → In fl [0; 64; 128] →
  Avc.ParseNaluType (Z.lor NaluTypeAvcFua nri) = NaluTypeAvcFua ∧
  negb (Z.land (Z.lor ty fl) 128 =? 0) = (fl =? 128) ∧
  negb (Z.land (Z.lor ty fl) 64 =? 0) = (fl =? 64) ∧
  Z.lor (Z.land (Z.lor NaluTypeAvcFua nri) 224) (Z.land (Z.lor ty fl) 31) = nri + ty.
Proof.
  intros Hn Ht Hf.
  assert (H : for_range 32 (λ ty, forallb (λ nri, forallb (λ fl,
    (Avc.ParseNaluType (Z.lor NaluTypeAvcFua nri) =? NaluTypeAvcFua) &&
    Bool.eqb (negb (Z.land (Z.lor ty fl) 128 =? 0)) (fl =? 128) &&
    Bool.eqb (negb (Z.land (Z.lor ty fl) 64 =? 0)) (fl =? 64) &&
    (Z.lor (Z.land (Z.lor NaluTypeAvcFua nri) 224) (Z.land (Z.lor ty fl) 31) =? nri + ty))
    [0; 64; 128]) [0; 32; 64; 96]) = true) by (vm_compute; reflexivity).
  apply (for_range_spec _ _ H) in Ht as H1. cbv beta in H1.
  rewrite forallb_forall in H1. specialize (H1 _ Hn). cbv beta in H1.
  rewrite forallb_forall in H1. specialize (H1 _ Hf). cbv beta in H1.
  rewrite !andb_true_iff, !eqb_true_iff, !Z.eqb_eq in H1. tauto.
Qed.

Lemma hevc_fu_bits ty fl :
  0 ≤ ty < 64 → In fl [0; 64; 128] →
  negb (Z.land (Z.lor ty fl) 128 =? 0) = (fl =? 128) ∧
  negb (Z.land (Z.lor ty fl) 64 =? 0) = (fl =? 64) ∧
  Z.lor (Z.land 98 129) (u8 (Z.shiftl (Z.land (Z.lor ty fl) 63) 1)) = 2 * ty.
Proof.
  intros Ht Hf.
  assert (H : for_range 64 (λ ty, forallb (λ fl,
    Bool.eqb (negb (Z.land (Z.lor ty fl) 128 =? 0)) (fl =? 128) &&
    Bool.eqb (negb (Z.land (Z.lor ty fl) 64 =? 0)) (fl =? 64) &&
    (Z.lor (Z.land 98 129) (u8 (Z.shiftl (Z.land (Z.lor ty fl) 63) 1)) =? 2 * ty))
    [0; 64; 128]) = true) by (vm_compute; reflexivity).
  apply (for_range_spec _ _ H) in Ht as H1. cbv beta in H1.
  rewrite forallb_forall in H1. specialize (H1 _ Hf). cbv beta in H1.
  rewrite !andb_true_iff, !eqb_true_iff, !Z.eqb_eq in H1. tauto.
Qed.

Lemma flag_at_In n j : In (flag_at 128 n j) [0; 64; 128].
Proof. unfold flag_at. destruct (Nat.eqb _ n); [simpl; auto|]. destruct (Nat.eqb j 0); simpl; auto. Qed.

(** What the packer extracts from the first byte. *)
Lemma avc_nal_bits h : 0 ≤ h < 128 →
  In (Z.land h 96) [0; 32; 64; 96] ∧ 0 ≤ Z.land h 31 < 32 ∧ Z.land h 96 + Z.land h 31 = h.
Proof.
  intros Hh.
  assert (H : for_range 128 (λ h, existsb (Z.eqb (Z.land h 96)) [0; 32; 64; 96] &&
    (0 <=? Z.land h 31) && (Z.land h 31 <? 32) && (Z.land h 96 + Z.land h 31 =? h)) = true)
    by (vm_compute; reflexivity).
  apply (for_range_spec _ _ H) in Hh. cbv beta in Hh.
  rewrite !andb_true_iff, existsb_exists in Hh. destruct Hh as [[[(x & Hx & E) ?] ?] ?].
  apply Z.eqb_eq in E. rewrite E. split; [done|]. rewrite E in *. lia.
Qed.

Lemma hevc_nal_bits h : 0 ≤ h < 128 → h mod 2 = 0 →
  0 ≤ Z.land (Z.shiftr h 1) 63 < 64 ∧ 2 * Z.land (Z.shiftr h 1) 63 = h.
Proof.
  intros Hh Hm. change 63 with (2 ^ 6 - 1). rewrite land_mask by lia.
  rewrite Z.shiftr_div_pow2 by lia. zdm.
Qed.

Definition avc_or_hevc (payloadType : Z) : Prop :=
  payloadType = AvPacketPtAvc ∨ payloadType = AvPacketPtHevc.

Section Fragments.
Context {B : Bele} {HB : BeleLaws B}.
Variables payloadType clockRate : Z.
Hypothesis Hpt : avc_or_hevc payloadType.

(** The unit type and the header bits of a unit the packer can carry. *)
Definition nri_ok (nri ty : Z) : Prop :=
  if payloadType =? AvPacketPtAvc then In nri [0; 32; 64; 96] ∧ 0 ≤ ty < 32
  else 0 ≤ ty < 64.

(** The unit header a train gives back. *)
Definition nal_head (nri ty : Z) : list Z :=
  if payloadType =? AvPacketPtAvc then [nri + ty] else [2 * ty; 1].

Lemma nal_head_length nri ty : len (nal_head nri ty) = fu_size payloadType - 1.
Proof. unfold nal_head, fu_size. by destruct (_ =? _). Qed.

Lemma calc_fragment nri ty fl c q :
  nri_ok nri ty → In fl [0; 64; 128] → Body q = Ret (fu_head payloadType nri ty fl ++ c) →
  avchevc_CalcPosition payloadType q = Ret (set_position q (fl_position fl)).
Proof.
  intros Hn Hf Hb. unfold avchevc_CalcPosition, nri_ok, fu_head, fl_position in *.
  destruct Hpt as [-> | ->]; simpl in Hn, Hb |- *.
  - destruct (avc_fu_bits nri ty fl) as (E1 & E2 & E3 & _); [exact (proj1 Hn)|exact (proj2 Hn)|done|].
    unfold calcPositionIfNeededAvc. rewrite Hb, bind_Ret. go_read. rewrite E1. simpl.
    rewrite E2, E3. by destruct (fl =? 128), (fl =? 64).
  - destruct (hevc_fu_bits ty fl) as (E2 & E3 & _); [exact Hn|done|].
    unfold calcPositionIfNeededHevc. rewrite Hb, bind_Ret. go_read.
    change (Hevc.ParseNaluType 98) with 49. cbn [Hevc.key_in].
    change (Hevc.key_in 49 Hevc.NaluTypeMapping) with false. cbv iota.
    change (49 =? NaluTypeHevcFua) with true. cbv iota.
    go_read. rewrite E2, E3. by destruct (fl =? 128), (fl =? 64).
Qed.

(** The data of a fragment, behind its header. *)
Definition frag_body (p : RtpPacket) (c : list Z) : Prop :=
  ∃ hd, Body p = Ret (hd ++ c) ∧ len hd = fu_size payloadType.

Lemma fua_total_spec pps chunks t :
  Forall2 frag_body pps chunks →
  fua_total (fu_size payloadType - 1) pps t = Ret (t + len (concat chunks)).
Proof.
  intros H. revert t. induction H as [|p c pps chunks (hd & Hb & Hl) H IH]; intros t.
  { simpl. f_equal. lia. }
  cbn [fua_total]. rewrite Hb, bind_Ret, IH. simpl. f_equal. len_lia.
Qed.

Lemma fua_fill_spec pps chunks pre :
  Forall2 frag_body pps chunks →
  fua_fill (fu_size payloadType - 1) pps (pre ++ go_make (len (concat chunks))) (len pre) =
  Ret (pre ++ concat chunks).
Proof.
  intros H. revert pre. induction H as [|p c pps chunks (hd & Hb & Hl) H IH]; intros pre.
  { simpl. done. }
  cbn [fua_fill]. rewrite Hb, bind_Ret. rewrite go_from_app, bind_Ret by lia.
  change (concat (c :: chunks)) with (c ++ concat chunks).
  assert (go_make (len (c ++ concat chunks)) = go_make (len c) ++ go_make (len (concat chunks)))
    as -> by (rewrite <- go_make_add by lia; f_equal; len_lia).
  rewrite go_copy_at_app, bind_Ret by (try done; rewrite length_go_make; lia).
  rewrite app_assoc, app_assoc.
  replace (len pre + _) with (len (pre ++ c)) by len_lia. apply IH.
Qed.

Lemma unpack_fua_spec first pps lastp chunks nri ty c ms :
  Forall2 frag_body pps chunks → nri_ok nri ty →
  Body first = Ret (fu_head payloadType nri ty 128 ++ c) →
  rtp_ms (Timestamp (Header lastp)) clockRate = Ret ms →
  let nal := nal_head nri ty ++ concat chunks in
  len nal < 4294967296 →
  unpack_fua payloadType clockRate first pps lastp =
    Ret (mkAvPacket payloadType ms 0 (be_bytes 4 (len nal) ++ nal)).
Proof.
  intros Hpps Hn Hb Hms nal Hlen. unfold unpack_fua. rewrite Hms, bind_Ret.
  assert (E : fua_nalu_type payloadType first = Ret (nal_head nri ty)).
  { unfold fua_nalu_type, nal_head, nri_ok, fu_head in *. rewrite Hb, bind_Ret.
    destruct Hpt as [-> | ->]; simpl in *.
    - destruct (avc_fu_bits nri ty 128) as (_ & _ & _ & E);
        [exact (proj1 Hn)|exact (proj2 Hn)|simpl; auto|]. by rewrite E.
    - destruct (hevc_fu_bits ty 128) as (_ & _ & E); [exact Hn|simpl; auto|]. by rewrite E. }
  rewrite E, bind_Ret. clear E. pose proof (nal_head_length nri ty) as Hnl.
  assert (Hnal : len nal = len (concat chunks) + len (nal_head nri ty)) by (unfold nal; len_lia).
  assert (0 ≤ fu_size payloadType - 1) by lia.
  rewrite Hnl. rewrite (fua_total_spec _ chunks), bind_Ret by done.
  unfold go_make_checked. rewrite (proj2 (Z.ltb_ge _ 0)) by lia. rewrite bind_Ret.
  rewrite Z.add_0_l, u32_small by lia.
  rewrite <- (Z.add_assoc 4), (go_make_add 4), go_make_add by lia.
  rewrite BePutUint32_writes, bind_Ret;
    [|done|change (256 ^ Z.of_nat 4) with 4294967296; lia].
  rewrite go_copy_at_app, bind_Ret by (rewrite ?be_bytes_length, ?length_go_make; lia).
  rewrite app_assoc.
  replace (4 + (fu_size payloadType - 1)) with
    (len (be_bytes 4 (len (concat chunks) + (fu_size payloadType - 1)) ++ nal_head nri ty)) by len_lia.
  rewrite fua_fill_spec, bind_Ret by done. do 2 f_equal. rewrite <- app_assoc.
  unfold nal. do 2 f_equal. len_lia.
Qed.
End Fragments.

(** ** Timestamps *)

Lemma rtp_timestamp_exact ts k :
  0 ≤ ts < 4294967296 → 0 < k < 4294967296 → ts * k < 4294967296 →
  rtp_timestamp ts (1000 * k) = ts * k.
Proof.
  intros Ht Hk Hm. unfold rtp_timestamp.
  rewrite (f64_div_trunc _ _ (ts * (1000 * k)) 1000).
  - replace (ts * (1000 * k)) with (ts * k * 1000) by ring. rewrite Z.div_mul by done.
    apply u32_small. nia.
  - apply f64_mul_exact; [apply f64_of_int_exact; nia..|nia].
  - by apply f64_of_int_exact.
  - nia.
  - done.
Qed.

Lemma rtp_ms_exact ts k :
  0 < k < 4294967296 → rtp_ms (ts * k) (1000 * k) = Ret ts.
Proof.
  intros Hk. unfold rtp_ms. rewrite (Z.mul_comm 1000 k), Z.quot_mul by done.
  rewrite u32_small by lia. rewrite (proj2 (Z.eqb_neq k 0)) by lia.
  by rewrite Z.div_mul by lia.
Qed.

(** ** Packing one unit *)



Lemma packable_avc nal : packable AvPacketPtAvc nal = true →
  ∃ h rest, nal = h :: rest ∧ 0 ≤ h < 128 ∧ (Avc.ParseNaluType h <=? NaluTypeAvcSingleMax) = true.
Proof.
  unfold packable. destruct nal as [|h rest]; [done|]. rewrite Z.eqb_refl.
  rewrite !andb_true_iff. intros [[??]?]. exists h, rest. split; [done|]. split; [lia|done].
Qed.

Lemma packable_hevc nal : packable AvPacketPtHevc nal = true →
  ∃ h rest, nal = h :: 1 :: rest ∧ 0 ≤ h < 128 ∧ h mod 2 = 0 ∧
    Hevc.key_in (Hevc.ParseNaluType h) Hevc.NaluTypeMapping = true.
Proof.
  unfold packable. destruct nal as [|h rest]; [done|].
  change (AvPacketPtHevc =? AvPacketPtAvc) with false. cbv iota.
  rewrite !andb_true_iff, Z.eqb_eq. intros [[??][[??]Ht]]. destruct rest as [|t rest]; [done|].
  apply Z.eqb_eq in Ht as ->. exists h, rest. split; [done|]. split; [lia|done].
Qed.

Section PackUnit.
Variable payloadType : Z.
Hypothesis Hpt : avc_or_hevc payloadType.

Lemma PackNal_cases nal mx :
  packable payloadType nal = true → fu_size payloadType < mx →
  ∃ pls, PackNal (pack_fuel nal) payloadType nal mx = Ret pls ∧
    (len nal ≤ mx ∧ pls = [nal] ∨
     ∃ nri ty chunks, nri_ok payloadType nri ty ∧
       nal = nal_head payloadType nri ty ++ concat chunks ∧
       pls = fu_items payloadType nri ty 128 chunks ∧ (2 ≤ length chunks)%nat ∧
       Forall (λ c, 0 < len c ≤ mx - fu_size payloadType) chunks).
Proof.
  intros Hp Hmx. unfold PackNal. destruct (Z.leb_spec (len nal) mx) as [Hle|Hgt].
  { rewrite go_copy_full by (rewrite length_go_make; lia). eauto. }
  destruct Hpt as [-> | ->].
  - apply packable_avc in Hp as (h & rest & -> & Hh & _). rewrite go_index_head, bind_Ret by done.
    destruct (avc_nal_bits h Hh) as (N1 & N2 & N3). change (fu_size AvPacketPtAvc) with 2 in *.
    destruct (fu_loop_spec (pack_fuel (h :: rest)) AvPacketPtAvc (h :: rest) mx (Z.land h 96)
      (Z.land h 31) 1 true) as (cs & E & Hc & Hall & H2);
      [lia|done|lia|unfold pack_fuel; lia|].
    change (fu_size AvPacketPtAvc) with 2 in *. change (2 - 1) with 1 in E.
    eexists. split; [exact E|]. right. exists (Z.land h 96), (Z.land h 31), cs.
    split; [by split|]. split; [|split; [done|split; [apply H2; lia|done]]].
    rewrite Hc. unfold nal_head. simpl. by rewrite N3, drop_0.
  - apply packable_hevc in Hp as (h & rest & -> & Hh & Hm & _).
    rewrite go_index_head, bind_Ret by done.
    destruct (hevc_nal_bits h Hh Hm) as (N1 & N2). change (fu_size AvPacketPtHevc) with 3 in *.
    destruct (fu_loop_spec (pack_fuel (h :: 1 :: rest)) AvPacketPtHevc (h :: 1 :: rest) mx 0
      (Z.land (Z.shiftr h 1) 63) 2 true) as (cs & E & Hc & Hall & H2);
      [lia|done|lia|unfold pack_fuel; lia|].
    change (fu_size AvPacketPtHevc) with 3 in *. change (3 - 1) with 2 in E.
    eexists. split; [exact E|]. right. exists 0, (Z.land (Z.shiftr h 1) 63), cs.
    split; [exact N1|]. split; [|split; [done|split; [apply H2; lia|done]]].
    rewrite Hc. unfold nal_head. change (AvPacketPtHevc =? AvPacketPtAvc) with false.
    cbv iota. rewrite N2. simpl. by rewrite drop_0.
Qed.

Lemma calc_single q nal :
  packable payloadType nal = true → Body q = Ret nal →
  avchevc_CalcPosition payloadType q = Ret (set_position q PositionTypeSingle).
Proof.
  intros Hp Hb. unfold avchevc_CalcPosition. destruct Hpt as [-> | ->].
  - apply packable_avc in Hp as (h & rest & -> & _ & Ht). rewrite Z.eqb_refl.
    unfold calcPositionIfNeededAvc. rewrite Hb, bind_Ret. go_read. by rewrite Ht.
  - apply packable_hevc in Hp as (h & rest & -> & _ & _ & Ht).
    change (AvPacketPtHevc =? AvPacketPtAvc) with false. rewrite Z.eqb_refl. cbv iota.
    unfold calcPositionIfNeededHevc. rewrite Hb, bind_Ret. go_read. by rewrite Ht.
Qed.
End PackUnit.

Section Receive.
Context {B : Bele} {HB : BeleLaws B}.
Variables payloadType clockRate : Z.
Hypothesis Hpt : avc_or_hevc payloadType.
Let P := RtpUnpackerAvcHevc payloadType clockRate.
Local Existing Instance P.

Lemma Feed_single s n l q nal ms :
  0 < n → ready s n l → pseq q = seq_at s 0 →
  packable payloadType nal = true → Body q = Ret nal → len nal < 4294967296 →
  rtp_ms (Timestamp (Header q)) clockRate = Ret ms →
  ∃ l', Feed l q = Ret (l', [mkAvPacket payloadType ms 0 (be_bytes 4 (len nal) ++ nal)]) ∧ ready (seq_at s 1) n l'.
Proof.
  intros Hn (Hi & Hsz & Hm & Hup) Hq Hp Hb Hl Hms. set (av := mkAvPacket _ _ _ _).
  assert (Hu : unpack_single payloadType clockRate (set_position q PositionTypeSingle) = Ret av).
  { unfold unpack_single. cbn [Header set_position]. rewrite Hms, bind_Ret.
    change (Body (set_position q PositionTypeSingle)) with (Body q). rewrite Hb, bind_Ret.
    rewrite u32_small by lia. rewrite Z.add_comm, go_make_add by lia.
    rewrite BePutUint32_writes, bind_Ret; [|done|change (256 ^ Z.of_nat 4) with 4294967296; lia].
    rewrite <- (app_nil_r (go_make (len nal))), go_copy_at_app, bind_Ret, app_nil_r
      by (rewrite ?be_bytes_length, ?length_go_make; lia). done. }
  set (q' := set_position q PositionTypeSingle) in *.
  assert (Hstale : IsStale l (pseq q) = false).
  { apply (up_to_fresh s 1); [done|rewrite Hq; apply seq_at_range|]. unfold dist. by rewrite Hq, seq_dist_at. }
  set (l0 := Insert l q').
  assert (E0 : l0 = mkList [q'] 1 (doneSeqFlag l) (doneSeq l) n).
  { unfold l0, Insert. by rewrite Hi, Hsz, Hm. }
  assert (Hfirst : IsFirstSequential l0 = true).
  { apply (up_to_first s 1 _ q' []); [by rewrite E0|by rewrite E0|exact Hq]. }
  assert (Htry : tryUnpackOneSequential l0 = Ret (true, SetDoneSeq (unlink l0 [] 1) (pseq q'), [av])).
  { unfold tryUnpackOneSequential, tryUnpackOne. rewrite Hfirst, E0. simpl.
    unfold avchevc_TryUnpackOne. simpl. by rewrite Hu. }
  exists (SetDoneSeq (unlink l0 [] 1) (pseq q')). split.
  - unfold Feed. rewrite Hstale. simpl.
    rewrite (calc_single _ Hpt q nal), bind_Ret by done. fold q' l0.
    replace (loop_fuel l0) with 2%nat by (by rewrite E0). rewrite unpack_loop_S, Htry, bind_Ret. done.
  - rewrite E0. repeat split. right. split; [|lia]. split; [done|]. cbn. change (pseq q') with (pseq q). rewrite Hq.
    unfold seq_at. wrap.
Qed.

(** The packets of a fragmented unit, in any order. *)
Lemma feed_fragments n l pkts received nri ty chunks s ms :
  ready s n l → nri_ok payloadType nri ty → (2 ≤ length chunks)%nat →
  length pkts = length chunks → len chunks ≤ 32768 → doneSeqFlag l = false ∨ len chunks ≤ 32767 → len chunks ≤ n →
  (∀ j p, pkts !! j = Some p → ∃ c, chunks !! j = Some c ∧ pseq p = seq_at s (Z.of_nat j) ∧
     Body p = Ret (fu_head payloadType nri ty (flag_at 128 (length chunks) j) ++ c) ∧
     rtp_ms (Timestamp (Header p)) clockRate = Ret ms) →
  let nal := nal_head payloadType nri ty ++ concat chunks in
  len nal < 4294967296 → received ≡ₚ pkts →
  ∃ l', feed_all l received =
    Ret (l', [mkAvPacket payloadType ms 0 (be_bytes 4 (len nal) ++ nal)]) ∧ ready (seq_at s (len chunks)) n l'.
Proof.
  intros Hready Hn H2 Hlen H32 H32' Hmax Hp nal Hnal Hperm. destruct (Hready) as (Hi & Hsz & Hm & _).
  set (calcf := λ q, match avchevc_CalcPosition payloadType q with Ret p => p | _ => q end).
  set (frags := calcf <$> pkts).
  assert (Hcalc : ∀ j p, pkts !! j = Some p →
    avchevc_CalcPosition payloadType p =
      Ret (set_position p (fl_position (flag_at 128 (length chunks) j)))).
  { intros j p Hj. destruct (Hp j p Hj) as (c & _ & _ & Hb & _).
    eapply calc_fragment; [done|done|apply flag_at_In|exact Hb]. }
  assert (Hfr : ∀ j f, frags !! j = Some f → ∃ p, pkts !! j = Some p ∧
    f = set_position p (fl_position (flag_at 128 (length chunks) j))).
  { intros j f Hj. unfold frags in Hj. rewrite list_lookup_fmap in Hj.
    destruct (pkts !! j) as [p|] eqn:E; [|done]. injection Hj as <-. exists p. split; [done|].
    unfold calcf. by rewrite (Hcalc j p). }
  assert (Hlf : length frags = length chunks) by (unfold frags; by rewrite length_fmap).
  destruct (lookup_lt_is_Some_2 frags 0) as [first Hfirst]; [lia|].
  destruct (last frags) as [lastp|] eqn:Hlast; [|apply last_None in Hlast; rewrite Hlast in Hlf; simpl in Hlf; lia].
  assert (Hu : unpack_fua payloadType clockRate first frags lastp =
               Ret (mkAvPacket payloadType ms 0 (be_bytes 4 (len nal) ++ nal))).
  { destruct (Hfr 0%nat first Hfirst) as (p0 & Hp0 & ->).
    destruct (Hp 0%nat p0 Hp0) as (c0 & _ & _ & Hb0 & _).
    apply (unpack_fua_spec payloadType clockRate Hpt _ frags lastp chunks nri ty c0); try done.
    - apply Forall2_same_length_lookup. split; [done|].
      intros j f c Hf Hc. destruct (Hfr j f Hf) as (p & Hpj & ->).
      destruct (Hp j p Hpj) as (c' & Hc' & _ & Hb & _). rewrite Hc in Hc'. injection Hc' as <-.
      eexists. split; [exact Hb|]. apply fu_head_length.
    - change (Body (set_position p0 (fl_position (flag_at 128 (length chunks) 0)))) with (Body p0). rewrite Hb0. do 3 f_equal.
      unfold flag_at. destruct (Nat.eqb_spec 1 (length chunks)); [lia|done].
    - rewrite last_lookup in Hlast. destruct (Hfr _ _ Hlast) as (p & Hpj & ->).
      by destruct (Hp _ p Hpj) as (_ & _ & _ & _ & Hms). }
  exists (train_done lastp n). split; [|].
  2:{ repeat split. right. split; [|lia]. split; [done|]. cbn. rewrite last_lookup, Hlf in Hlast.
      destruct (Hfr _ _ Hlast) as (p & Hpj & ->). destruct (Hp _ p Hpj) as (_ & _ & Hs & _).
      change (pseq p = seq_at (seq_at s (len chunks)) (-1)). rewrite Hs. unfold seq_at. wrap. }
  apply (feed_train payloadType clockRate s frags) with (first := first) (seen := [])
    (ps := calcf <$> received); try done; try lia.
  - intros j f Hj. destruct (Hfr j f Hj) as (p & Hpj & ->).
    by destruct (Hp j p Hpj) as (_ & _ & Hs & _).
  - intros j f Hj. destruct (Hfr j f Hj) as (p & _ & ->). cbn [positionType set_position].
    unfold train_position, flag_at, fl_position. rewrite Hlf.
    destruct (Nat.eqb_spec (S j) (length chunks)); destruct (Nat.eqb_spec j 0) as [->|];
      try done; lia.
  - apply Forall2_fmap_r, Forall_Forall2_diag. apply Forall_forall. intros q Hq.
    rewrite Hperm in Hq. apply list_elem_of_lookup_1 in Hq as [j Hj]. unfold calcf.
    change (avchevc_CalcPosition payloadType q = Ret match avchevc_CalcPosition payloadType q with
      Ret p => p | _ => q end). by rewrite (Hcalc j q).
  - intros E. apply fmap_nil_inv in E. rewrite E in Hperm. apply Permutation_nil_l in Hperm.
    rewrite <- Hperm in Hlen. simpl in Hlen. lia.
  - split; [split; rewrite Hi; [constructor|done]|]. split; [by rewrite Hi|]. split; [|done].
    rewrite Hlf. by apply (ready_up_to s n).
  - rewrite app_nil_r. by apply fmap_Permutation.
Qed.
End Receive.

(** ** The round trip *)

Lemma mapM_parse {B : Bele} ps :
  Forall (λ p, ParseRtpPacket (Raw p) = Ret p) ps → mapM ParseRtpPacket (Raw <$> ps) = Ret ps.
Proof. induction 1 as [|p ps Hp H IH]; [done|].
  change (mapM ParseRtpPacket (Raw <$> p :: ps)) with
    (y ← ParseRtpPacket (Raw p); k ← mapM ParseRtpPacket (Raw <$> ps); Ret (y :: k)).
  by rewrite Hp, bind_Ret, IH.
Qed.

Section Roundtrip.
Context {B : Bele} {HB : BeleLaws B}.
Variables (r : RtpPacker) (payloadType ts k : Z) (nal : list Z).
Hypothesis Hpt : avc_or_hevc payloadType.
Hypothesis Hssrc : is_u32 (ssrc r).
Hypothesis Hclock : clockRate r = 1000 * k.
Hypothesis Hk : 0 < k < 4294967296.
Hypothesis Hts : 0 ≤ ts < 4294967296 ∧ ts * k < 4294967296.

Let av := mkAvPacket payloadType ts 0 nal.

Lemma payload_type_range : 0 ≤ payloadType < 128.
Proof. by destruct Hpt as [-> | ->]. Qed.

Lemma sent_facts pls j p :
  sent r av 0 pls !! j = Some p → ∃ pl, pls !! j = Some pl ∧
    pseq p = seq_at (pseqno r) (Z.of_nat j) ∧ Body p = Ret pl ∧
    rtp_ms (Timestamp (Header p)) (clockRate r) = Ret ts ∧
    (pl ≠ [] → len pl < 4294967280 → ParseRtpPacket (Raw p) = Ret p).
Proof.
  intros H. apply sent_lookup in H as (pl & mark & Hpl & Hm & ->). exists pl.
  assert (Hh : plain_header (packer_header r av mark (seq_at (pseqno r) (0 + Z.of_nat j)))).
  { apply packer_header_plain; [done|apply payload_type_range|apply seq_at_range|done]. }
  split; [done|]. split; [done|]. split; [by apply plain_body|]. split.
  - simpl. rewrite Hclock, rtp_timestamp_exact by lia. by apply rtp_ms_exact.
  - intros. by apply plain_parse.
Qed.

(** What receiving means: parse every datagram, feed the packets. *)
Definition receive (n : Z) (wires : list (list Z)) : outcome (RtpPacketList * list AvPacket) :=
  received ← mapM ParseRtpPacket wires;
  feed_all (P := RtpUnpackerAvcHevc payloadType (clockRate r)) (NewRtpUnpackContainer n) received.

Lemma receive_perm n pls wires :
  Forall (λ pl, pl ≠ [] ∧ len pl < 4294967280) pls → wires ≡ₚ (Raw <$> sent r av 0 pls) →
  ∃ received, received ≡ₚ sent r av 0 pls ∧ receive n wires =
    feed_all (P := RtpUnpackerAvcHevc payloadType (clockRate r)) (NewRtpUnpackContainer n) received.
Proof.
  intros Hpls Hw. apply Permutation_map_inv in Hw as (received & -> & Hperm).
  exists received. split; [done|]. unfold receive. rewrite mapM_parse, bind_Ret; [done|].
  rewrite <- Hperm. apply Forall_lookup. intros j p Hj.
  destruct (sent_facts _ _ _ Hj) as (pl & Hpl & _ & _ & _ & Hparse).
  rewrite Forall_lookup in Hpls. apply Hparse; by eapply Hpls.
Qed.
End Roundtrip.

(** The fragments are not empty and fit a packet. *)
Lemma fu_items_sendable pt nri ty cs mx :
  mx < 4294967280 → Forall (λ c, 0 < len c ≤ mx - fu_size pt) cs →
  Forall (λ pl, pl ≠ [] ∧ len pl < 4294967280) (fu_items pt nri ty 128 cs).
Proof.
  intros Hmx Hall. rewrite Forall_lookup in Hall |- *. intros j pl Hj.
  assert (Hj' := Hj). apply lookup_lt_Some in Hj'. rewrite length_fu_items in Hj'.
  apply lookup_lt_is_Some_2 in Hj' as [c Hcj]. rewrite (fu_items_lookup _ _ _ _ _ _ c) in Hj by done.
  injection Hj as <-. specialize (Hall j c Hcj).
  pose proof (fu_head_length pt nri ty (flag_at 128 (length cs) j)).
  split; [intros E; apply (f_equal length) in E|]; revert Hall; len_lia.
Qed.

(** [pkts] carry [pls], numbered from [s], with the time [ts]. *)
Definition carries {B : Bele} (s clock ts : Z) (pls : list (list Z)) (pkts : list RtpPacket) : Prop :=
  length pkts = length pls ∧
  ∀ j p, pkts !! j = Some p → ∃ pl, pls !! j = Some pl ∧ pseq p = seq_at s (Z.of_nat j) ∧ Body p = Ret pl ∧
    rtp_ms (Timestamp (Header p)) clock = Ret ts ∧ (pl ≠ [] → len pl < 4294967280 → ParseRtpPacket (Raw p) = Ret p).

Lemma sent_carries {B : Bele} {HB : BeleLaws B} r payloadType ts k nal pls :
  avc_or_hevc payloadType → is_u32 (ssrc r) → clockRate r = 1000 * k → 0 < k < 4294967296 →
  0 ≤ ts < 4294967296 ∧ ts * k < 4294967296 →
  carries (pseqno r) (clockRate r) ts pls (sent r (mkAvPacket payloadType ts 0 nal) 0 pls).
Proof. intros. split; [by rewrite length_sent|]. intros j p. by eapply sent_facts. Qed.

(** The packets of a unit, in any order, come out of a container that waits for
    the first of them as the unit, and leave it waiting for the next one. *)
Lemma unit_received {B : Bele} {HB : BeleLaws B} s clock mx payloadType ts nal n l pls pkts received :
  avc_or_hevc payloadType → packable payloadType nal = true →
  fu_size payloadType < mx → len nal < 4294967280 →
  PackNal (pack_fuel nal) payloadType nal mx = Ret pls → carries s clock ts pls pkts →
  ready s n l → len pls ≤ 32768 → doneSeqFlag l = false ∨ len pls ≤ 32767 → len pls ≤ n →
  received ≡ₚ pkts →
  ∃ l', feed_all (P := RtpUnpackerAvcHevc payloadType clock) l received =
    Ret (l', [mkAvPacket payloadType ts 0 (be_bytes 4 (len nal) ++ nal)]) ∧ ready (seq_at s (len pls)) n l'.
Proof.
  intros Hpt Hp Hmx Hl Epack [Hlen Hf] Hready H32 H32' Hn Hperm.
  destruct (PackNal_cases _ Hpt nal mx Hp Hmx) as (pls' & E & Hcases).
  rewrite Epack in E. injection E as <-.
  destruct Hcases as [[_ ->]|(nri & ty & cs & Hnri & Enal & -> & H2 & Hall)].
  - destruct pkts as [|p [|]]; try done. apply Permutation_sym, Permutation_length_1_inv in Hperm as ->.
    destruct (Hf 0%nat _ eq_refl) as (pl & [= <-] & Hsq & Hb & Hms & _).
    destruct (Feed_single payloadType clock Hpt s n l _ nal ts ltac:(simpl in *; lia)
                Hready Hsq Hp Hb ltac:(lia) Hms) as (l' & E & Hi).
    exists l'. split; [|done]. cbn [feed_all]. by rewrite E.
  - rewrite length_fu_items in *.
    destruct (feed_fragments payloadType clock Hpt n l pkts received nri ty cs s ts) as (l' & E & Hi); try done.
    + intros j p Hj. destruct (Hf j p Hj) as (pl & Hpl & Hsq & Hb & Hms & _).
      assert (Hj' := Hpl). apply lookup_lt_Some in Hj'. rewrite length_fu_items in Hj'.
      apply lookup_lt_is_Some_2 in Hj' as [c Hcj].
      rewrite (fu_items_lookup _ _ _ _ _ _ c) in Hpl by done. injection Hpl as <-. eauto.
    + rewrite <- Enal. lia.
    + rewrite <- Enal in E. by exists l'.
Qed.

(** What is packed can be sent and parsed. *)
Lemma unit_sendable payloadType nal mx pls : avc_or_hevc payloadType → packable payloadType nal = true →
  fu_size payloadType < mx < 4294967280 → len nal < 4294967280 →
  PackNal (pack_fuel nal) payloadType nal mx = Ret pls → Forall (λ pl, pl ≠ [] ∧ len pl < 4294967280) pls.
Proof.
  intros Hpt Hp Hmx Hl Epack. destruct (PackNal_cases _ Hpt nal mx Hp ltac:(lia)) as (pls' & E & Hcases).
  rewrite Epack in E. injection E as <-.
  destruct Hcases as [[_ ->]|(nri & ty & cs & _ & _ & -> & _ & Hall)].
  - constructor; [|constructor]. split; [by intros ->|done].
  - apply (fu_items_sendable _ _ _ _ mx); [lia|done].
Qed.

Lemma with_seq_0 r : is_u16 (pseqno r) → with_seq r 0 = r.
Proof. intros Hq. destruct r. unfold with_seq, seq_at. simpl in *. f_equal. rewrite Z.add_0_r. by apply u16_small. Qed.

(** C2: an AVC or HEVC unit packed by [RtpPacker] (one packet or fragments),
    sent as bytes and received in any order by a fresh container, comes out as
    exactly one [AvPacket] with the same timestamp and the unit behind its
    four-byte length, and nothing stays in the container.  The units are those
    that the two sides agree on ([packable]): AVC units of the types 1 to 23, HEVC
    units of a type the unpacker knows, on layer 0 and with temporal id 0 (the
    second header byte is 1; fragmentation loses any other); the clock rate is a
    multiple of 1000, the timestamp in its units is below 2^32, the payloads of
    packets are larger than the header of a fragment, and the packets
    fit the container and half of the sequence numbers. *)
Theorem rtp_pack_receive {B : Bele} (HB : BeleLaws B) r payloadType ts k nal n :
  avc_or_hevc payloadType → packable payloadType nal = true → is_u32 (ssrc r) → is_u16 (pseqno r) →
  fu_size payloadType < MaxPayloadSize r < 4294967280 → len nal < 4294967280 →
  clockRate r = 1000 * k → 0 < k < 4294967296 → 0 ≤ ts < 4294967296 ∧ ts * k < 4294967296 →
  ∃ pkts r',
    Pack (PP := avchevc_packer payloadType RtpPackerPayloadAvcHevcTypeNalu) r
      (mkAvPacket payloadType ts 0 nal) = Ret (pkts, r') ∧
    (len pkts ≤ 32768 → len pkts ≤ n → ∀ wires, wires ≡ₚ (Raw <$> pkts) →
     ∃ l', receive r payloadType n wires =
       Ret (l', [mkAvPacket payloadType ts 0 (be_bytes 4 (len nal) ++ nal)]) ∧ items l' = []).
Proof.
  intros Hpt Hp Hs Hq Hmx Hl Hc Hk Hts.
  destruct (PackNal_cases _ Hpt nal (MaxPayloadSize r) Hp ltac:(lia)) as (pls & Epack & _).
  set (av := mkAvPacket payloadType ts 0 nal).
  exists (sent r av 0 pls), (with_seq r (0 + len pls)). split.
  { unfold Pack, PayloadPack, avchevc_packer, avchevc_Pack.
    pose proof (fu_head_length payloadType 0 0 0). go_test. change (Payload av) with nal.
    change (RtpPackerPayloadAvcHevcTypeNalu =? RtpPackerPayloadAvcHevcTypeAvcc) with false.
    change (RtpPackerPayloadAvcHevcTypeNalu =? RtpPackerPayloadAvcHevcTypeAnnexb) with false.
    cbv iota. rewrite Epack, bind_Ret. rewrite <- (with_seq_0 r) at 1 by done. by apply pack_payloads_spec. }
  rewrite length_sent. intros H32 Hn wires Hw.
  pose proof (unit_sendable payloadType nal _ pls Hpt Hp Hmx Hl Epack) as Hpls.
  destruct (receive_perm r payloadType ts k nal Hpt Hs Hc Hk Hts n pls wires Hpls Hw)
    as (received & Hperm & ->).
  destruct (unit_received (pseqno r) (clockRate r) (MaxPayloadSize r) payloadType ts nal n (NewRtpUnpackContainer n)
    pls _ received Hpt Hp (proj1 Hmx) Hl Epack (sent_carries r payloadType ts k nal pls Hpt Hs Hc Hk Hts)
    (container_ready_new _ _) H32 (or_introl eq_refl) Hn Hperm) as (l' & E & Hi & _).
  by exists l'.
Qed.

Definition demo_packer : RtpPacker := mkPacker 90000 7 6 65534.

Lemma rtp_pack_receive_witness :
  ∃ pkts r',
    @Pack bele_impl (@avchevc_packer bele_impl AvPacketPtAvc RtpPackerPayloadAvcHevcTypeNalu)
      demo_packer (mkAvPacket AvPacketPtAvc 40 0 [101; 1; 2; 3; 4; 5; 6; 7; 8; 9]) = Ret (pkts, r') ∧
    (len pkts ≤ 32768 → len pkts ≤ 3 → ∀ wires, wires ≡ₚ (Raw <$> pkts) →
     ∃ l', @receive bele_impl demo_packer AvPacketPtAvc 3 wires =
       Ret (l', [mkAvPacket AvPacketPtAvc 40 0
                   (be_bytes 4 10 ++ [101; 1; 2; 3; 4; 5; 6; 7; 8; 9])]) ∧ items l' = []).
Proof.
  apply (rtp_pack_receive bele_impl_laws demo_packer AvPacketPtAvc 40 90
           [101; 1; 2; 3; 4; 5; 6; 7; 8; 9] 3); try (simpl; lia); try (left; reflexivity); try reflexivity;
    vm_compute; auto.
Defined.

(** ** AAC *)

(** The AAC payload: one AU header of 16 bits, then the frame. *)
Definition aac_item (b : list Z) : list Z :=
  [0; 16; len b / 32; (len b mod 32) * 8] ++ b.

Lemma aac_Pack_spec b mx : 0 < mx → len b < 8192 → aac_Pack (Some b) mx = Ret [aac_item b].
Proof.
  intros Hm Hl. unfold aac_Pack, aac_item. go_test.
  replace (u8 (2 * 8)) with 16 by reflexivity.
  replace (u8 (Z.shiftr (len b) 5)) with (len b / 32)
    by (rewrite Z.shiftr_div_pow2 by lia; change (2 ^ 5) with 32; wrap).
  replace (u8 (Z.shiftl (Z.land (len b) 31) 3)) with (len b mod 32 * 8).
  2:{ change 31 with (2 ^ 5 - 1). rewrite land_mask, Z.shiftl_mul_pow2 by lia.
      change (2 ^ 5) with 32. change (2 ^ 3) with 8. wrap. }
  repeat go_write. unfold go_copy_at. repeat go_write. cbn [app]. do 7 f_equal.
  by rewrite go_make_0, app_nil_r by lia.
Qed.

Lemma parseAu_item b : len b < 8192 → parseAu (aac_item b) = Ret [mkAu (len b) 4].
Proof.
  intros Hl. unfold parseAu, aac_item. cbn [app]. go_read. go_read.
  change (Z.to_nat ((Z.shiftl 0 8 + 16 + 7) / 8 / 2)) with 1%nat. cbn [parse_au_loop].
  go_read. go_read. rewrite bind_Ret. do 3 f_equal; try reflexivity.
  assert (E : Z.land (len b mod 32 * 8) 248 = len b mod 32 * 8).
  { assert (H : for_range 32 (λ x, Z.land (x * 8) 248 =? x * 8) = true) by (vm_compute; reflexivity).
    apply Z.eqb_eq. apply (for_range_spec _ _ H). zdm. }
  rewrite E, Z.shiftl_mul_pow2 by lia. rewrite lor_disjoint by (try lia; change (2 ^ 8) with 256; zdm).
  change (2 ^ 8) with 256. zdm.
Qed.

(** An AAC frame below 8192 bytes packed by the AAC packer is unpacked to
    the same frame, in one [AvPacket], whatever follows in the list. *)
Theorem rtp_aac_roundtrip payloadType clock b mx :
  0 < mx → len b < 8192 →
  aac_Pack (Some b) mx = Ret [aac_item b] ∧
  ∀ l p rest ms, items l = p :: rest → Body p = Ret (aac_item b) →
    rtp_ms (Timestamp (Header p)) clock = Ret ms →
    aac_TryUnpackOne payloadType clock l =
      Ret (true, pseq p, unlink l rest 1, [mkAvPacket payloadType ms 0 b]).
Proof.
  intros Hm Hl. split; [by apply aac_Pack_spec|].
  intros l p rest ms Hi Hb Hms. unfold aac_TryUnpackOne.
  rewrite Hi, Hb, bind_Ret, parseAu_item, bind_Ret by done. cbn [au_pos au_size].
  unfold aac_item. rewrite go_from_app, bind_Ret by done. rewrite u32_small by lia. go_test.
  rewrite Hms, bind_Ret. rewrite go_slice_app_end, bind_Ret by (try done; len_lia). done.
Qed.

Lemma rtp_aac_roundtrip_witness :
  aac_Pack (Some [33; 16; 5]) 1200 = Ret [aac_item [33; 16; 5]] ∧
  ∀ l p rest ms, items l = p :: rest → Body p = Ret (aac_item [33; 16; 5]) →
    rtp_ms (Timestamp (Header p)) 44100 = Ret ms →
    aac_TryUnpackOne AvPacketPtAac 44100 l =
      Ret (true, pseq p, unlink l rest 1, [mkAvPacket AvPacketPtAac ms 0 [33; 16; 5]]).
Proof. apply (rtp_aac_roundtrip AvPacketPtAac 44100 [33; 16; 5] 1200); reflexivity. Defined.
