(* ===== verification/Rtcp.v ===== *)
(** * RTCP (src/pkg/rtprtcp/rtcp.go, rtcp_pack.go, rtcp_rr_producer.go, ntp.go)

    Sender reports in, receiver reports out: the header, the packed report, and
    the statistics [RrProducer] keeps. *)

From S2P Require Import Prelude Naza RtpSeq.

Definition RtcpPacketTypeSr : Z := 200.
Definition RtcpPacketTypeRr : Z := 201.
Definition RtcpPacketTypeApp : Z := 204.
Definition RtcpHeaderLength : Z := 4.
Definition RtcpVersion : Z := 2.

Record RtcpHeader := mkRtcpHeader {
  Version : Z;
  Padding : Z;
  CountOrFormat : Z;
  PacketType : Z;
  Length : Z;
}.

Record Sr := mkSr {
  SenderSsrc : Z;
  Msw : Z;
  Lsw : Z;
  Timestamp : Z;
  PktCnt : Z;
  OctetCnt : Z;
}.

Record Rr := mkRr {
  senderSsrc : Z;
  mediaSsrc : Z;
  fraction : Z;
  lost : Z;
  cycles : Z;
  extendedSeq : Z;
  jitter : Z;
  lsr : Z;
}.

(** [GetMiddleNtp] on 64-bit words *)
Definition GetMiddleNtp (s : Sr) : Z :=
  u32 (Z.shiftr (u64 (Z.shiftl (Z.lor (u64 (Z.shiftl (Msw s) 32)) (Lsw s)) 16)) 32).

Section Wire.
Context {B : Bele}.

Definition ParseRtcpHeader (b : list Z) : outcome RtcpHeader :=
  b0 ← go_index b 0;
  b1 ← go_index b 1;
  s ← go_from b 2; length ← BeUint16 s;
  Ret (mkRtcpHeader (Z.shiftr b0 6) (Z.land (Z.shiftr b0 5) 1) (Z.land b0 31) b1 length).

Definition ParseSr (b : list Z) : outcome Sr :=
  s ← go_from b 4; ssrc ← BeUint32 s;
  s ← go_from b 8; msw ← BeUint32 s;
  s ← go_from b 12; lsw ← BeUint32 s;
  s ← go_from b 16; ts ← BeUint32 s;
  s ← go_from b 20; pkts ← BeUint32 s;
  s ← go_from b 24; octets ← BeUint32 s;
  Ret (mkSr ssrc msw lsw ts pkts octets).

Definition rtcp_PackTo (r : RtcpHeader) (out : list Z) : outcome (list Z) :=
  out ← go_set out 0
    (Z.lor (Z.lor (u8 (Z.shiftl (Version r) 6)) (u8 (Z.shiftl (Padding r) 5))) (CountOrFormat r));
  out ← go_set out 1 (PacketType r);
  go_upd_from out 2 (BePutUint16 (Length r)).

Definition lenInWords : Z := 8.

Definition rr_Pack (r : Rr) : outcome (list Z) :=
  let b := go_make (lenInWords * 4) in
  b ← rtcp_PackTo (mkRtcpHeader RtcpVersion 0 1 RtcpPacketTypeRr (lenInWords - 1)) b;
  b ← go_upd_from b 4 (BePutUint32 (senderSsrc r));
  b ← go_upd_from b 8 (BePutUint32 (mediaSsrc r));
  b ← go_set b 12 (fraction r);
  b ← go_upd_from b 13 (BePutUint24 (Z.shiftr (lost r) 8));
  b ← go_upd_from b 16 (BePutUint16 (cycles r));
  b ← go_upd_from b 18 (BePutUint32 (extendedSeq r));
  b ← go_upd_from b 20 (BePutUint32 (jitter r));
  b ← go_upd_from b 24 (BePutUint32 (lsr r));
  go_upd_from b 28 (BePutUint32 0).
End Wire.

(** ** The statistics *)

Record RrProducer := mkProducer {
  p_senderSsrc : Z;
  p_mediaSsrc : Z;
  p_clockRate : Z;
  p_maxSeq : Z;
  p_baseSeq : Z;
  p_cycles : Z;
  p_received : Z;
  p_extendedSeq : Z;
  p_transit : Z;
  p_jitter : Z;
  p_expectedPrior : Z;
  p_receivedPrior : Z;
}.

Definition NewRrProducer (clockRate : Z) : RrProducer :=
  mkProducer 0 0 clockRate (-1) (-1) 0 0 0 (-1) 0 0 0.

Definition FeedRtpPacket (r : RrProducer) (seq : Z) : RrProducer :=
  let received := u32 (p_received r + 1) in
  let baseSeq := if p_baseSeq r =? -1 then seq else p_baseSeq r in
  let '(maxSeq, cycles) :=
    if p_maxSeq r =? -1 then (seq, p_cycles r)
    else if CompareSeq seq (u16 (p_maxSeq r)) >? 0 then
      (seq, if seq <? u16 (p_maxSeq r) then u32 (p_cycles r + 1) else p_cycles r)
    else (p_maxSeq r, p_cycles r) in
  mkProducer (p_senderSsrc r) (p_mediaSsrc r) (p_clockRate r) maxSeq baseSeq cycles received
    (Z.lor (u32 (Z.shiftl cycles 16)) (u32 maxSeq))
    (p_transit r) (p_jitter r) (p_expectedPrior r) (p_receivedPrior r).

Definition getJitter (r : RrProducer) : Z := Z.shiftr (p_jitter r) 4.

Definition updateJitter (r : RrProducer) (arrival timestamp : Z) : RrProducer :=
  let set_tj t j := mkProducer (p_senderSsrc r) (p_mediaSsrc r) (p_clockRate r) (p_maxSeq r)
    (p_baseSeq r) (p_cycles r) (p_received r) (p_extendedSeq r) t j (p_expectedPrior r)
    (p_receivedPrior r) in
  let transit := i64 (arrival * Z.quot (p_clockRate r) 1000 - timestamp) in
  if p_transit r =? -1 then set_tj transit (p_jitter r)
  else
    let d := i64 (transit - p_transit r) in
    let d := if d <? 0 then i64 (- d) else d in
    set_tj (p_transit r)
      (u32 (p_jitter r + u32 d - Z.shiftr (u32 (p_jitter r + 8)) 4)).

(** The fields of the report [Produce] builds, and the state it leaves. *)
Definition produce_report (r : RrProducer) (lsr : Z) : Rr * RrProducer :=
  let expected := u32 (p_extendedSeq r - u32 (p_baseSeq r) + 1) in
  let lost := if expected <? p_received r then 0 else u32 (expected - p_received r) in
  let expectedInterval := u32 (expected - p_expectedPrior r) in
  let receivedInterval := u32 (p_received r - p_receivedPrior r) in
  let lostInterval := u32 (expectedInterval - receivedInterval) in
  let fraction :=
    if (expectedInterval =? 0) || (lostInterval <=? 0) then 0
    else u8 (u32 (Z.shiftl lostInterval 8) / expectedInterval) in
  (mkRr (p_senderSsrc r) (p_mediaSsrc r) fraction lost (u16 (p_cycles r)) (p_extendedSeq r)
     (getJitter r) lsr,
   mkProducer (p_senderSsrc r) (p_mediaSsrc r) (p_clockRate r) (p_maxSeq r) (p_baseSeq r)
     (p_cycles r) (p_received r) (p_extendedSeq r) (p_transit r) (p_jitter r) expected (p_received r)).

Definition Produce {B : Bele} (r : RrProducer) (lsr : Z) : outcome (option (list Z) * RrProducer) :=
  if p_baseSeq r =? -1 then Ret (None, r)
  else
    let '(rr, r) := produce_report r lsr in
    b ← rr_Pack rr;
    Ret (Some b, r).

(** ** NTP time (ntp.go), on 64-bit words *)

Definition ntpOffset : Z := 2208988800.
Definition Ntp2UnixNano (v : Z) : Z :=
  let msw := Z.shiftr v 32 in
  let lsw := Z.land v 4294967295 in
  u64 (u64 ((msw - ntpOffset) * 1000000000) + Z.shiftr (u64 (lsw * 1000000000)) 32).
Definition MswLsw2Ntp (msw lsw : Z) : Z := Z.lor (u64 (Z.shiftl msw 32)) lsw.
Definition MswLsw2UnixNano (msw lsw : Z) : Z := Ntp2UnixNano (MswLsw2Ntp msw lsw).

(** ** Facts *)

Definition rtcp_header_ok (h : RtcpHeader) : Prop :=
  0 ≤ Version h < 4 ∧ 0 ≤ Padding h < 2 ∧ 0 ≤ CountOrFormat h < 32 ∧ is_u8 (PacketType h) ∧
  is_u16 (Length h).

Definition rtcp_first_byte (v p c : Z) : Z :=
  Z.lor (Z.lor (u8 (Z.shiftl v 6)) (u8 (Z.shiftl p 5))) c.

Lemma rtcp_first_byte_fields v p c :
  0 ≤ v < 4 → 0 ≤ p < 2 → 0 ≤ c < 32 →
  let b := rtcp_first_byte v p c in
  Z.shiftr b 6 = v ∧ Z.land (Z.shiftr b 5) 1 = p ∧ Z.land b 31 = c.
Proof.
  intros Hv Hp Hc. cbv zeta.
  pose (P := λ v p c, let b := rtcp_first_byte v p c in
    (Z.shiftr b 6 =? v) && (Z.land (Z.shiftr b 5) 1 =? p) && (Z.land b 31 =? c)).
  assert (H : P v p c = true).
  { revert c Hc. apply (for_range_spec 32). revert p Hp.
    apply (for_range_spec 2 (λ p, for_range 32 (P v p))). revert v Hv.
    apply (for_range_spec 4 (λ v, for_range 2 (λ p, for_range 32 (P v p)))).
    vm_compute. reflexivity. }
  unfold P in H. cbv zeta in H. lia.
Qed.

Definition rtcp_header_bytes (h : RtcpHeader) : list Z :=
  [rtcp_first_byte (Version h) (Padding h) (CountOrFormat h); PacketType h] ++ be_bytes 2 (Length h).

(** Shifting a word left by [n] and adding a value below [2^n]. *)
Lemma lor_shift a b n : 0 ≤ n → 0 ≤ b < 2 ^ n → Z.lor (Z.shiftl a n) b = a * 2 ^ n + b.
Proof. intros. rewrite Z.shiftl_mul_pow2 by done. by apply lor_disjoint. Qed.

Lemma GetMiddleNtp_arith s :
  is_u32 (Msw s) → is_u32 (Lsw s) → GetMiddleNtp s = (Msw s mod 65536) * 65536 + Lsw s / 65536.
Proof.
  intros Hm Hl. unfold GetMiddleNtp.
  assert (E : u64 (Z.shiftl (Msw s) 32) = Z.shiftl (Msw s) 32).
  { rewrite Z.shiftl_mul_pow2 by lia. change (2 ^ 32) with 4294967296. unfold u64. apply Z.mod_small. lia. }
  rewrite E, lor_shift by (lia || (change (2 ^ 32) with 4294967296; lia)).
  rewrite Z.shiftl_mul_pow2, Z.shiftr_div_pow2 by lia.
  change (2 ^ 32) with 4294967296. change (2 ^ 16) with 65536. unfold u64, u32. zdm.
Qed.

Section WireFacts.
Context {B : Bele} {HB : BeleLaws B}.

Lemma rtcp_PackTo_spec h out :
  4 ≤ len out → rtcp_header_ok h → rtcp_PackTo h out = Ret (rtcp_header_bytes h ++ drop 4 out).
Proof.
  intros Hl (_ & _ & _ & _ & Hlen). do 4 (destruct out as [|? out]; [simpl in Hl; lia|]).
  unfold rtcp_PackTo. repeat go_write.
  rewrite BePutUint16_Ret by (done || len_lia). cbn [drop]. by repeat go_write.
Qed.

(** The report on the wire. *)
Definition rr_wire (r : Rr) : list Z :=
  [129; 201; 0; 7] ++ be_bytes 4 (senderSsrc r) ++ be_bytes 4 (mediaSsrc r) ++ [fraction r] ++
  be_bytes 3 (lost r / 256) ++ be_bytes 2 (cycles r) ++ be_bytes 2 (extendedSeq r / 65536) ++
  be_bytes 4 (jitter r) ++ be_bytes 4 (lsr r) ++ be_bytes 4 0.

Definition rr_ok (r : Rr) : Prop :=
  is_u32 (senderSsrc r) ∧ is_u32 (mediaSsrc r) ∧ is_u8 (fraction r) ∧ is_u32 (lost r) ∧
  is_u16 (cycles r) ∧ is_u32 (extendedSeq r) ∧ is_u32 (jitter r) ∧ is_u32 (lsr r).

(** Writing a number over fresh bytes. *)
Lemma put_fresh n f v pre m :
  writes n (be_bytes n) f → 0 ≤ v < 256 ^ Z.of_nat n → Z.of_nat n ≤ m →
  go_upd_from (pre ++ go_make m) (len pre) (f v) = Ret (pre ++ be_bytes n v ++ go_make (m - Z.of_nat n)).
Proof.
  intros Hf Hv Hm. apply go_upd_from_app; [done|].
  replace (go_make m) with (go_make (Z.of_nat n) ++ go_make (m - Z.of_nat n)).
  - apply Hf; [rewrite length_go_make; lia|done].
  - rewrite <- go_make_add by lia. f_equal. lia.
Qed.

Lemma be_bytes_4_split v : is_u32 v → be_bytes 4 v = be_bytes 2 (v / 65536) ++ be_bytes 2 v.
Proof.
  intros Hv. rewrite !be_bytes_S. change (be_bytes 0 v) with (@nil Z).
  change (be_bytes 0 (v / 65536)) with (@nil Z). cbn [app].
  change (256 ^ Z.of_nat 3) with 16777216. change (256 ^ Z.of_nat 2) with 65536.
  change (256 ^ Z.of_nat 1) with 256. change (256 ^ Z.of_nat 0) with 1.
  rewrite !Z.div_div by lia. by rewrite !Z.div_1_r.
Qed.

Lemma rr_Pack_spec r : rr_ok r → rr_Pack r = Ret (rr_wire r).
Proof.
  intros (H1 & H2 & H3 & H4 & H5 & H6 & H7 & H8). unfold rr_Pack. cbv zeta.
  assert (Hlost : 0 ≤ lost r / 256 < 256 ^ Z.of_nat 3) by (change (256 ^ Z.of_nat 3) with 16777216; zdm).
  rewrite rtcp_PackTo_spec, bind_Ret;
    [|vm_compute; congruence | repeat split; vm_compute; congruence].
  change (drop 4 (go_make (lenInWords * 4))) with (go_make 28).
  set (p1 := rtcp_header_bytes _).
  change 4 with (len p1) at 1. rewrite (put_fresh 4 BePutUint32), bind_Ret
    by (first [apply BePutUint32_writes | done]). change (28 - Z.of_nat 4) with 24.
  rewrite app_assoc. set (p2 := p1 ++ _). change 8 with (len p2) at 1.
  rewrite (put_fresh 4 BePutUint32), bind_Ret by (first [apply BePutUint32_writes | done]).
  change (24 - Z.of_nat 4) with 20. rewrite app_assoc. set (p3 := p2 ++ _).
  rewrite go_set_app_r by done. change (12 - len p3) with 0.
  rewrite go_set_make, !bind_Ret by lia. change (20 - 1) with 19.
  change (p3 ++ fraction r :: go_make 19) with (p3 ++ [fraction r] ++ go_make 19).
  rewrite app_assoc. set (p4 := p3 ++ _). change 13 with (len p4) at 1.
  rewrite Z.shiftr_div_pow2 by lia. change (2 ^ 8) with 256.
  rewrite (put_fresh 3 BePutUint24), bind_Ret by (first [apply BePutUint24_writes | done]).
  change (19 - Z.of_nat 3) with 16. rewrite app_assoc. set (p5 := p4 ++ _).
  change 16 with (len p5) at 1.
  rewrite (put_fresh 2 BePutUint16), bind_Ret by (first [apply BePutUint16_writes | done]).
  change (16 - Z.of_nat 2) with 14. rewrite app_assoc. set (p6 := p5 ++ _).
  change 18 with (len p6) at 1.
  rewrite (put_fresh 4 BePutUint32), bind_Ret by (first [apply BePutUint32_writes | done]).
  change (14 - Z.of_nat 4) with 10. rewrite be_bytes_4_split by done.
  rewrite <- (app_assoc (be_bytes 2 _) (be_bytes 2 _)), app_assoc. set (p7 := p6 ++ _).
  change 20 with (len p7) at 1.
  rewrite (go_upd_from_app p7 (be_bytes 2 (extendedSeq r) ++ go_make 10)
            (be_bytes 4 (jitter r) ++ go_make 8)), bind_Ret; [|done|].
  2:{ change (go_make 10) with (go_make 2 ++ go_make 8). rewrite app_assoc.
      apply BePutUint32_writes; done. }
  rewrite app_assoc. set (p8 := p7 ++ _). change 24 with (len p8) at 1.
  rewrite (put_fresh 4 BePutUint32), bind_Ret by (first [apply BePutUint32_writes | done]).
  change (8 - Z.of_nat 4) with 4. rewrite app_assoc. set (p9 := p8 ++ _).
  change 28 with (len p9) at 1.
  rewrite (put_fresh 4 BePutUint32) by (first [apply BePutUint32_writes | done]).
  change (go_make (4 - Z.of_nat 4)) with (@nil Z). rewrite app_nil_r.
  unfold rr_wire, p9, p8, p7, p6, p5, p4, p3, p2, p1. by rewrite <- !app_assoc.
Qed.
End WireFacts.

(** ** Sequence tracking *)

(** [M] is the largest true (unbounded) number seen, [B0] the first. *)
Definition tracks (B0 M : Z) (r : RrProducer) : Prop :=
  0 ≤ B0 < 65536 ∧ B0 ≤ M < 4294967296 ∧
  p_baseSeq r = B0 ∧ p_maxSeq r = M mod 65536 ∧ p_cycles r = M / 65536 ∧ p_extendedSeq r = M.

Lemma extended_word c m : 0 ≤ c < 65536 → is_u16 m →
  Z.lor (u32 (Z.shiftl c 16)) (u32 m) = c * 65536 + m.
Proof.
  intros Hc Hm. rewrite (u32_small m) by lia. rewrite u32_small.
  - by apply (lor_shift c m 16).
  - rewrite Z.shiftl_mul_pow2 by lia. change (2 ^ 16) with 65536. lia.
Qed.

Lemma FeedRtpPacket_first r seq :
  is_u16 seq → p_baseSeq r = -1 → p_maxSeq r = -1 → p_cycles r = 0 →
  tracks seq seq (FeedRtpPacket r seq).
Proof.
  intros Hs Hb Hm Hc. unfold FeedRtpPacket. rewrite Hb, Hm, Hc. simpl. unfold tracks. simpl.
  pose proof (extended_word 0 seq ltac:(lia) Hs) as E. simpl in E. rewrite E.
  repeat split; try lia; zdm.
Qed.

Lemma FeedRtpPacket_tracks B0 M r n :
  tracks B0 M r → M - 32768 < n < M + 32768 → 0 ≤ n < 4294967296 →
  tracks B0 (Z.max M n) (FeedRtpPacket r (n mod 65536)).
Proof.
  intros (HB0 & HM & Hb & Hm & Hc & He) Hn Hn0.
  assert (Hcmp : CompareSeq (n mod 65536) (M mod 65536) = Z.sgn (n - M)).
  { unfold CompareSeq. zcases; unfold u16 in *; zdm. }
  unfold FeedRtpPacket. rewrite Hb, Hm, Hc.
  rewrite (proj2 (Z.eqb_neq B0 (-1))) by lia.
  assert (M mod 65536 ≠ -1) by zdm. rewrite (proj2 (Z.eqb_neq (M mod 65536) (-1))) by done.
  rewrite u16_small by zdm. rewrite Hcmp, Z.gtb_ltb.
  destruct (Z.ltb_spec 0 (Z.sgn (n - M))) as [Hgt|Hle].
  - assert (M < n) by lia. rewrite Z.max_r by lia.
    assert (Hcyc : (if n mod 65536 <? M mod 65536 then u32 (M / 65536 + 1) else M / 65536) = n / 65536).
    { destruct (Z.ltb_spec (n mod 65536) (M mod 65536)); [rewrite u32_small by zdm|]; zdm. }
    rewrite Hcyc. unfold tracks. simpl. rewrite extended_word by zdm. repeat split; try lia. zdm.
  - assert (n ≤ M) by lia. rewrite Z.max_l by lia. unfold tracks. simpl.
    rewrite extended_word by zdm. repeat split; try lia. zdm.
Qed.

(** ** Properties *)

(** RTCP headers round trip: writing a header into the front of a buffer
    and parsing it gives the same fields; parsing never panics on four bytes or
    more. *)
Theorem rtcp_header_roundtrip {B : Bele} (HB : BeleLaws B) h out :
  rtcp_header_ok h → 4 ≤ len out →
  ∃ b, rtcp_PackTo h out = Ret b ∧ ParseRtcpHeader b = Ret h ∧ len b = len out.
Proof.
  intros Hh Hl. eexists. split; [by apply rtcp_PackTo_spec|].
  destruct h as [v p c pt l]. destruct Hh as (Hv & Hp & Hc & Hpt & Hlen). simpl in *.
  destruct (rtcp_first_byte_fields v p c Hv Hp Hc) as (E1 & E2 & E3). split; [|len_lia].
  unfold ParseRtcpHeader, rtcp_header_bytes. cbn [app]. go_read. go_read. go_read.
  change (?x :: ?y :: drop 4 out) with (be_bytes 2 l ++ drop 4 out).
  rewrite BeUint16_be, bind_Ret by done. by rewrite E1, E2, E3.
Qed.

(** A sender report on the wire is read field by field, and
    [GetMiddleNtp] is the middle 32 bits of the 64-bit NTP time. *)
Theorem rtcp_parse_sr {B : Bele} (HB : BeleLaws B) hd s tail :
  len hd = 4 → is_u32 (SenderSsrc s) → is_u32 (Msw s) → is_u32 (Lsw s) → is_u32 (Timestamp s) →
  is_u32 (PktCnt s) → is_u32 (OctetCnt s) →
  ParseSr (hd ++ be_bytes 4 (SenderSsrc s) ++ be_bytes 4 (Msw s) ++ be_bytes 4 (Lsw s) ++
           be_bytes 4 (Timestamp s) ++ be_bytes 4 (PktCnt s) ++ be_bytes 4 (OctetCnt s) ++ tail) = Ret s ∧
  GetMiddleNtp s = ((Msw s * 4294967296 + Lsw s) / 65536) mod 4294967296.
Proof.
  intros Hh H1 H2 H3 H4 H5 H6. split.
  - unfold ParseSr. do 6 (go_read; rewrite BeUint32_be, bind_Ret by done). by destruct s.
  - rewrite GetMiddleNtp_arith by done. zdm.
Qed.

(** The 32 bytes of a receiver report: the jitter at offset 20 overwrites
    the low half of the extended sequence number written at offset 18, and the
    loss count loses its low byte.  With [extendedSeq = cycles * 2^16 + maxSeq],
    as the producer computes it, the "extended highest sequence number" on the
    wire is [cycles * 2^16 + cycles]: it does not depend on [maxSeq], and a
    loss below 256 packets is reported as 0. *)
Theorem rtcp_rr_wire {B : Bele} (HB : BeleLaws B) r maxSeq :
  rr_ok r → is_u16 maxSeq → extendedSeq r = cycles r * 65536 + maxSeq →
  ∃ b, rr_Pack r = Ret b ∧ len b = 32 ∧ ParseRtcpHeader b = Ret (mkRtcpHeader 2 0 1 201 7) ∧
    take 4 (drop 16 b) = be_bytes 4 (cycles r * 65536 + cycles r) ∧
    (lost r < 256 → take 3 (drop 13 b) = [0; 0; 0]).
Proof.
  intros Hr Hm He. exists (rr_wire r). split; [by apply rr_Pack_spec|].
  assert (Hc : extendedSeq r / 65536 = cycles r) by (rewrite He; zdm).
  split; [reflexivity|]. split.
  { unfold ParseRtcpHeader, rr_wire. cbn [app]. go_read. go_read. go_read.
    change (0 :: 7 :: ?l) with (be_bytes 2 7 ++ l). rewrite BeUint16_be, bind_Ret by done. done. }
  split.
  - change (take 4 (drop 16 (rr_wire r))) with (be_bytes 2 (cycles r) ++ be_bytes 2 (extendedSeq r / 65536)).
    rewrite Hc. destruct Hr as (_ & _ & _ & _ & Hcy & _). rewrite be_bytes_4_split by lia.
    replace ((cycles r * 65536 + cycles r) / 65536) with (cycles r) by zdm. f_equal.
    rewrite <- (be_bytes_mod 2). change (256 ^ Z.of_nat 2) with 65536.
    rewrite <- (be_bytes_mod 2 (_ + _)). change (256 ^ Z.of_nat 2) with 65536. f_equal. zdm.
  - intros Hl. change (take 3 (drop 13 (rr_wire r))) with (be_bytes 3 (lost r / 256)).
    destruct Hr as (_ & _ & _ & Hlo & _). replace (lost r / 256) with 0 by zdm. reflexivity.
Qed.

(** As long as every packet is less than 32768 away from the largest
    number so far, the producer tracks the true extended number across
    wrap-arounds: after feeding the 16-bit number of [n] its extended sequence
    number is the larger of [n] and the old one. *)
Theorem rtcp_extended_seq B0 M r n :
  tracks B0 M r → M - 32768 < n < M + 32768 → 0 ≤ n < 4294967296 →
  tracks B0 (Z.max M n) (FeedRtpPacket r (n mod 65536)) ∧
  p_received (FeedRtpPacket r (n mod 65536)) = u32 (p_received r + 1).
Proof.
  intros H Hn Hn0. split; [by apply FeedRtpPacket_tracks|]. unfold FeedRtpPacket.
  by destruct (if p_maxSeq r =? -1 then _ else _).
Qed.

(** The report's fraction is [256 * lost / expected] of the interval when
    packets were lost; but when more packets arrived in the interval than were
    expected (duplicates, or late ones), the unsigned difference wraps around
    and is not treated as "no loss": the fraction is computed from a number
    above [2^31]. *)
Theorem rtcp_fraction r lsr x :
  let expected := p_extendedSeq r - p_baseSeq r + 1 in
  let ei := expected - p_expectedPrior r in
  let ri := p_received r - p_receivedPrior r in
  0 ≤ p_baseSeq r ≤ p_extendedSeq r → p_extendedSeq r < 2147483648 → is_u32 (p_received r) →
  0 ≤ p_expectedPrior r ∧ 0 < ei → 0 ≤ p_receivedPrior r ∧ 0 ≤ ri < 16777216 → ei < 16777216 →
  x = ei - ri →
  (0 ≤ x → fraction (fst (produce_report r lsr)) = (256 * x / ei) mod 256) ∧
  (x < 0 → fraction (fst (produce_report r lsr)) = ((256 * (x mod 16777216)) / ei) mod 256).
Proof.
  intros expected ei ri Hb He Hr Hp Hrp Hei Hx. unfold produce_report. cbn [fst fraction].
  fold expected. rewrite (u32_small (p_baseSeq r)) by lia.
  fold expected. rewrite (u32_small expected) by lia.
  fold ei. rewrite (u32_small ei) by lia. fold ri. rewrite (u32_small ri) by lia.
  rewrite <- Hx. rewrite (proj2 (Z.eqb_neq ei 0)) by lia. cbn [orb].
  rewrite Z.shiftl_mul_pow2 by lia. change (2 ^ 8) with 256. split; intros Hs.
  - rewrite (u32_small x) by lia. destruct (Z.leb_spec x 0).
    + replace x with 0 by lia. by rewrite Z.mul_0_r, Z.div_0_l by lia.
    + rewrite u32_small by lia. unfold u8. do 2 f_equal. lia.
  - rewrite (proj2 (Z.leb_gt (u32 x) 0)) by wrap. unfold u8. do 2 f_equal. unfold u32. zdm.
Qed.

(** ** Witnesses *)

Lemma rtcp_header_roundtrip_witness :
  ∃ b, @rtcp_PackTo bele_impl (mkRtcpHeader 2 1 5 200 6) (go_make 6) = Ret b ∧
    @ParseRtcpHeader bele_impl b = Ret (mkRtcpHeader 2 1 5 200 6) ∧ len b = len (go_make 6).
Proof.
  apply (rtcp_header_roundtrip bele_impl_laws (mkRtcpHeader 2 1 5 200 6) (go_make 6));
    [repeat split; simpl; lia | vm_compute; congruence].
Defined.

Definition demo_sr : Sr := mkSr 7 3883610000 2147483648 90000 4 1000.

Lemma rtcp_parse_sr_witness :
  @ParseSr bele_impl ([128; 200; 0; 6] ++ be_bytes 4 (SenderSsrc demo_sr) ++ be_bytes 4 (Msw demo_sr) ++
    be_bytes 4 (Lsw demo_sr) ++ be_bytes 4 (Timestamp demo_sr) ++ be_bytes 4 (PktCnt demo_sr) ++
    be_bytes 4 (OctetCnt demo_sr) ++ []) = Ret demo_sr ∧
  GetMiddleNtp demo_sr = ((Msw demo_sr * 4294967296 + Lsw demo_sr) / 65536) mod 4294967296.
Proof. apply (rtcp_parse_sr bele_impl_laws [128; 200; 0; 6] demo_sr []); simpl; lia. Defined.

Definition demo_rr : Rr := mkRr 1 2 0 200 1 (1 * 65536 + 7) 3 4.

Lemma rtcp_rr_wire_witness :
  ∃ b, @rr_Pack bele_impl demo_rr = Ret b ∧ len b = 32 ∧
    @ParseRtcpHeader bele_impl b = Ret (mkRtcpHeader 2 0 1 201 7) ∧
    take 4 (drop 16 b) = be_bytes 4 (cycles demo_rr * 65536 + cycles demo_rr) ∧
    (lost demo_rr < 256 → take 3 (drop 13 b) = [0; 0; 0]).
Proof.
  apply (rtcp_rr_wire bele_impl_laws demo_rr 7); [repeat split; simpl; lia | lia | reflexivity].
Defined.

(** A producer that saw 65534, 65535, 1 (true number 65537). *)
Definition demo_producer : RrProducer :=
  foldl FeedRtpPacket (NewRrProducer 90000) [65534; 65535; 1].

Lemma rtcp_extended_seq_witness :
  tracks 65534 (Z.max 65537 65536) (FeedRtpPacket demo_producer (65536 mod 65536)) ∧
  p_received (FeedRtpPacket demo_producer (65536 mod 65536)) = u32 (p_received demo_producer + 1).
Proof.
  apply (rtcp_extended_seq 65534 65537 demo_producer 65536); [|lia|lia].
  repeat split; vm_compute; congruence.
Defined.

(** Ten packets expected since the last report, eleven received. *)
Definition demo_duplicates : RrProducer := mkProducer 1 2 90000 19 0 0 21 19 (-1) 0 10 10.

Lemma rtcp_fraction_witness :
  (0 ≤ -1 → fraction (fst (produce_report demo_duplicates 0)) = (256 * -1 / 10) mod 256) ∧
  (-1 < 0 → fraction (fst (produce_report demo_duplicates 0)) = ((256 * (-1 mod 16777216)) / 10) mod 256).
Proof. apply (rtcp_fraction demo_duplicates 0 (-1)); simpl; lia. Defined.
