(* ===== verification/RtmpMsg.v ===== *)
(** * RTMP messages (src/pkg/base/t_rtmp.go)

    The header and message records shared by the RTMP, HTTP-FLV, remux and
    logic packages, and the tests on payloads. *)

From S2P Require Import Prelude Naza.

Definition RtmpTypeIdAudio : Z := 8.
Definition RtmpTypeIdVideo : Z := 9.
Definition RtmpTypeIdMetadata : Z := 18.
Definition RtmpTypeIdSetChunkSize : Z := 1.
Definition RtmpTypeIdAck : Z := 3.
Definition RtmpTypeIdUserControl : Z := 4.
Definition RtmpTypeIdWinAckSize : Z := 5.
Definition RtmpTypeIdBandwidth : Z := 6.
Definition RtmpTypeIdCommandMessageAmf3 : Z := 17.
Definition RtmpTypeIdCommandMessageAmf0 : Z := 20.
Definition RtmpTypeIdAggregateMessage : Z := 22.

Definition RtmpFrameTypeKey : Z := 1.
Definition RtmpFrameTypeInter : Z := 2.
Definition RtmpCodecIdAvc : Z := 7.
Definition RtmpCodecIdHevc : Z := 12.

Definition RtmpAvcPacketTypeSeqHeader : Z := 0.
Definition RtmpAvcPacketTypeNalu : Z := 1.
Definition RtmpHevcPacketTypeSeqHeader : Z := RtmpAvcPacketTypeSeqHeader.
Definition RtmpHevcPacketTypeNalu : Z := RtmpAvcPacketTypeNalu.

Definition RtmpExPacketTypeSequenceStart : Z := 0.
Definition RtmpExPacketTypeCodedFrames : Z := 1.
Definition RtmpExPacketTypeSequenceEnd : Z := 2.
Definition RtmpExPacketTypeCodedFramesX : Z := 3.
Definition RtmpExFrameTypeKeyFrame : Z := 1.

Definition RtmpAvcKeyFrame : Z := Z.lor (Z.shiftl RtmpFrameTypeKey 4) RtmpCodecIdAvc.
Definition RtmpHevcKeyFrame : Z := Z.lor (Z.shiftl RtmpFrameTypeKey 4) RtmpCodecIdHevc.
Definition RtmpAvcInterFrame : Z := Z.lor (Z.shiftl RtmpFrameTypeInter 4) RtmpCodecIdAvc.
Definition RtmpHevcInterFrame : Z := Z.lor (Z.shiftl RtmpFrameTypeInter 4) RtmpCodecIdHevc.

Definition RtmpSoundFormatG711A : Z := 7.
Definition RtmpSoundFormatG711U : Z := 8.
Definition RtmpSoundFormatAac : Z := 10.
Definition RtmpSoundFormatOpus : Z := 13.
Definition RtmpAacPacketTypeSeqHeader : Z := 0.
Definition RtmpAacPacketTypeRaw : Z := 1.

Record RtmpHeader := mkRtmpHeader {
  Csid : Z;
  MsgLen : Z;
  MsgTypeId : Z;
  MsgStreamId : Z;
  TimestampAbs : Z;
}.

Record RtmpMsg := mkRtmpMsg {
  msgHeader : RtmpHeader;
  msgPayload : list Z;
}.

#[global] Instance RtmpHeader_eq_dec : EqDecision RtmpHeader.
Proof. solve_decision. Defined.
#[global] Instance RtmpMsg_eq_dec : EqDecision RtmpMsg.
Proof. solve_decision. Defined.

(** [payload[i] == v] *)
Definition at_is (b : list Z) (i v : Z) : outcome bool := x ← go_index b i; Ret (x =? v).

(** [payload[0] & 0x80 != 0] *)
Definition IsEnhanced (msg : RtmpMsg) : outcome bool :=
  b0 ← go_index (msgPayload msg) 0; Ret (negb (Z.land b0 128 =? 0)).

(** [payload[1..4] == "hvc1"] *)
Definition is_hvc1 (b : list Z) : outcome bool :=
  go_and (at_is b 1 104) (go_and (at_is b 2 118) (go_and (at_is b 3 99) (at_is b 4 49))).

Definition IsAvcKeySeqHeader (msg : RtmpMsg) : outcome bool :=
  go_and (Ret (MsgTypeId (msgHeader msg) =? RtmpTypeIdVideo))
    (go_and (at_is (msgPayload msg) 0 RtmpAvcKeyFrame)
       (at_is (msgPayload msg) 1 RtmpAvcPacketTypeSeqHeader)).

Definition IsHevcKeySeqHeader (msg : RtmpMsg) : outcome bool :=
  if negb (MsgTypeId (msgHeader msg) =? RtmpTypeIdVideo) then Ret false else
  ext ← IsEnhanced msg;
  if ext : bool then
    b0 ← go_index (msgPayload msg) 0;
    let packetType := Z.land b0 15 in
    go_and (is_hvc1 (msgPayload msg)) (Ret (packetType =? RtmpExPacketTypeSequenceStart))
  else
    go_and (at_is (msgPayload msg) 0 RtmpHevcKeyFrame)
      (at_is (msgPayload msg) 1 RtmpHevcPacketTypeSeqHeader).

Definition IsVideoKeySeqHeader (msg : RtmpMsg) : outcome bool :=
  go_or (IsAvcKeySeqHeader msg) (IsHevcKeySeqHeader msg).

Definition IsAvcKeyNalu (msg : RtmpMsg) : outcome bool :=
  go_and (Ret (MsgTypeId (msgHeader msg) =? RtmpTypeIdVideo))
    (go_and (at_is (msgPayload msg) 0 RtmpAvcKeyFrame)
       (at_is (msgPayload msg) 1 RtmpAvcPacketTypeNalu)).

Definition IsHevcKeyNalu (msg : RtmpMsg) : outcome bool :=
  if negb (MsgTypeId (msgHeader msg) =? RtmpTypeIdVideo) then Ret false else
  ext ← IsEnhanced msg;
  if ext : bool then
    b0 ← go_index (msgPayload msg) 0;
    let frameType := Z.land (Z.shiftr b0 4) 7 in
    let packetType := Z.land b0 15 in
    Ret ((frameType =? RtmpExFrameTypeKeyFrame) && negb (packetType =? RtmpExPacketTypeSequenceStart))
  else
    go_and (at_is (msgPayload msg) 0 RtmpHevcKeyFrame)
      (at_is (msgPayload msg) 1 RtmpHevcPacketTypeNalu).

Definition IsEnchanedHevcNalu (msg : RtmpMsg) : outcome bool :=
  ext ← IsEnhanced msg;
  if ext : bool then
    b0 ← go_index (msgPayload msg) 0;
    let packetType := Z.land b0 15 in
    Ret ((packetType =? RtmpExPacketTypeCodedFrames) || (packetType =? RtmpExPacketTypeCodedFramesX))
  else Ret false.

Definition GetEnchanedHevcNaluIndex (msg : RtmpMsg) : outcome Z :=
  ext ← IsEnhanced msg;
  if ext : bool then
    b0 ← go_index (msgPayload msg) 0;
    let packetType := Z.land b0 15 in
    Ret (if packetType =? RtmpExPacketTypeCodedFrames then 5 + 3
         else if packetType =? RtmpExPacketTypeCodedFramesX then 5 else 0)
  else Ret 0.

Definition IsVideoKeyNalu (msg : RtmpMsg) : outcome bool :=
  go_or (IsAvcKeyNalu msg) (IsHevcKeyNalu msg).

Definition AudioCodecId (msg : RtmpMsg) : outcome Z :=
  b0 ← go_index (msgPayload msg) 0; Ret (Z.shiftr b0 4).

Definition IsAacSeqHeader (msg : RtmpMsg) : outcome bool :=
  go_and (Ret (MsgTypeId (msgHeader msg) =? RtmpTypeIdAudio))
    (go_and (c ← AudioCodecId msg; Ret (c =? RtmpSoundFormatAac))
       (at_is (msgPayload msg) 1 RtmpAacPacketTypeSeqHeader)).

Definition VideoCodecId (msg : RtmpMsg) : outcome Z :=
  ext ← IsEnhanced msg;
  if negb ext then b0 ← go_index (msgPayload msg) 0; Ret (Z.land b0 15)
  else
    hvc1 ← is_hvc1 (msgPayload msg);
    Ret (if hvc1 : bool then RtmpCodecIdHevc else RtmpCodecIdAvc).

Definition Clone (msg : RtmpMsg) : RtmpMsg :=
  mkRtmpMsg (msgHeader msg) (go_copy (go_make (len (msgPayload msg))) (msgPayload msg)).

Definition Dts (msg : RtmpMsg) : Z := TimestampAbs (msgHeader msg).

Definition Pts {B : Bele} (msg : RtmpMsg) : outcome Z :=
  s ← go_from (msgPayload msg) 2; c ← BeUint24 s;
  Ret (u32 (TimestampAbs (msgHeader msg) + c)).

Definition Cts {B : Bele} (msg : RtmpMsg) : outcome Z :=
  if MsgTypeId (msgHeader msg) =? RtmpTypeIdAudio then
    s ← go_from (msgPayload msg) 2; BeUint24 s
  else
    ext ← IsEnhanced msg;
    if ext : bool then
      b0 ← go_index (msgPayload msg) 0;
      let packetType := Z.land b0 15 in
      if packetType =? RtmpExPacketTypeCodedFrames then s ← go_from (msgPayload msg) 5; BeUint24 s
      else if packetType =? RtmpExPacketTypeCodedFramesX then Ret 0
      else Ret 0
    else s ← go_from (msgPayload msg) 2; BeUint24 s.

(** ** Facts *)

Lemma Clone_id msg : Clone msg = msg.
Proof.
  destruct msg as [h p]. unfold Clone. simpl. rewrite go_copy_full; [done|].
  rewrite length_go_make. lia.
Qed.

Lemma at_is_Ret b i v : 0 ≤ i < len b → ∃ r, at_is b i v = Ret r.
Proof.
  intros H. unfold at_is. destruct (go_index_range b i) as (x & -> & _); [done|]. simpl. eauto.
Qed.

Lemma at_is_panic b i v : at_is b i v = Panic ↔ ¬ (0 ≤ i < len b).
Proof.
  split.
  - intros H Hi. destruct (at_is_Ret b i v Hi) as [r E]. congruence.
  - intros H. unfold at_is. by rewrite go_index_Panic.
Qed.

(** ** Properties *)

(** The tests that classify video and audio messages return (do not panic)
    on every payload of five bytes or more, and the sequence-header and the
    key-unit tests exclude each other for legacy AVC and HEVC headers. *)
Theorem rtmp_msg_tests_total msg :
  5 ≤ len (msgPayload msg) →
  (∃ r, IsVideoKeySeqHeader msg = Ret r) ∧ (∃ r, IsVideoKeyNalu msg = Ret r) ∧
  (∃ r, IsAacSeqHeader msg = Ret r) ∧ (∃ r, VideoCodecId msg = Ret r) ∧
  (∃ r, IsEnchanedHevcNalu msg = Ret r) ∧ (∃ r, GetEnchanedHevcNaluIndex msg = Ret r) ∧
  ¬ (IsVideoKeySeqHeader msg = Ret true ∧ IsVideoKeyNalu msg = Ret true).
Proof.
  destruct msg as [h p]. cbn [msgPayload]. intros Hl.
  do 5 (destruct p as [|? p]; [simpl in Hl; lia|]). clear Hl.
  unfold IsVideoKeySeqHeader, IsVideoKeyNalu, IsAvcKeySeqHeader, IsHevcKeySeqHeader, IsAvcKeyNalu,
    IsHevcKeyNalu, IsAacSeqHeader, VideoCodecId, IsEnchanedHevcNalu, GetEnchanedHevcNaluIndex,
    AudioCodecId, IsEnhanced, is_hvc1, at_is, go_or, go_and.
  simpl. do 6 (split; [repeat (case_match; simpl); by eexists|]).
  unfold RtmpAvcPacketTypeSeqHeader, RtmpAvcPacketTypeNalu, RtmpHevcPacketTypeSeqHeader,
    RtmpHevcPacketTypeNalu, RtmpExPacketTypeSequenceStart,
    RtmpAvcPacketTypeSeqHeader, RtmpAvcPacketTypeNalu.
  destruct (MsgTypeId h =? RtmpTypeIdVideo); simpl; [|intros [? ?]; done].
  intros [G1 G2].
  repeat (case_match; simpl in *; try discriminate); simplify_eq;
    repeat match goal with
    | H : (_ =? _) = true |- _ => apply Z.eqb_eq in H
    | H : (_ && _) = true |- _ => apply andb_true_iff in H as [? ?]
    | H : negb _ = true |- _ => apply negb_true_iff in H
    end; subst; simpl in *; try discriminate; try lia; try congruence.
Qed.

Lemma rtmp_msg_tests_total_witness :
  let msg := mkRtmpMsg (mkRtmpHeader 7 5 9 1 0) [23; 0; 0; 0; 0] in
  (∃ r, IsVideoKeySeqHeader msg = Ret r) ∧ (∃ r, IsVideoKeyNalu msg = Ret r) ∧
  (∃ r, IsAacSeqHeader msg = Ret r) ∧ (∃ r, VideoCodecId msg = Ret r) ∧
  (∃ r, IsEnchanedHevcNalu msg = Ret r) ∧ (∃ r, GetEnchanedHevcNaluIndex msg = Ret r) ∧
  ¬ (IsVideoKeySeqHeader msg = Ret true ∧ IsVideoKeyNalu msg = Ret true).
Proof. apply (rtmp_msg_tests_total (mkRtmpMsg (mkRtmpHeader 7 5 9 1 0) [23; 0; 0; 0; 0])). simpl. lia. Defined.
