(* ===== verification/RtmpChunk.v ===== *)
(** * RTMP chunks (src/pkg/rtmp/chunk_divider.go, chunk_composer.go, stream.go)

    [message2Chunks] cuts a message into chunks; [RunLoop] reads chunks and
    composes messages, several streams interleaved. *)

From stdpp Require Import gmap.
From S2P Require Import Prelude Naza RtmpMsg.

Definition maxHeaderSize : Z := 18.
Definition maxTimestampInMessageHeader : Z := 16777215.
Definition defaultChunkSize : Z := 128.
Definition LocalChunkSize : Z := 4096.
Definition initMsgLen : Z := 4096.

(** ** Dividing *)

(** The chunk format and the timestamp field of [calcHeader]. *)
Definition calc_fmt (header : RtmpHeader) (prevHeader : option RtmpHeader) : Z * Z :=
  match prevHeader with
  | None => (0, TimestampAbs header)
  | Some prev =>
      if MsgStreamId header =? MsgStreamId prev then
        let fmt :=
          if (MsgLen header =? MsgLen prev) && (MsgTypeId header =? MsgTypeId prev)
          then (if TimestampAbs header =? TimestampAbs prev then 3 else 2) else 1 in
        (fmt, if TimestampAbs header >? maxTimestampInMessageHeader then TimestampAbs header
              else u32 (TimestampAbs header - TimestampAbs prev))
      else (0, TimestampAbs header)
  end.

Definition write_basic (csid fmt : Z) (out : list Z) (index : Z) : outcome (list Z * Z) :=
  out ← go_set out index (u8 (Z.shiftl fmt 6));
  if (2 <=? csid) && (csid <=? 63) then
    b ← go_index out index; out ← go_set out index (Z.lor b (u8 csid));
    Ret (out, index + 1)
  else if (64 <=? csid) && (csid <=? 319) then
    out ← go_set out (index + 1) (u8 (csid - 64));
    Ret (out, index + 1 + 1)
  else
    b ← go_index out index; out ← go_set out index (Z.lor b 1);
    out ← go_set out (index + 1) (u8 (csid - 64));
    out ← go_set out (index + 1 + 1) (u8 (Z.shiftr (csid - 64) 8));
    Ret (out, index + 1 + 1 + 1).

Section Divider.
Context {B : Bele}.

Definition write_stream_id (header : RtmpHeader) (fmt : Z) (out : list Z) (index : Z)
    : outcome (list Z * Z) :=
  if fmt =? 0 then
    out ← go_upd_from out index (LePutUint32 (u32 (MsgStreamId header)));
    Ret (out, index + 4)
  else Ret (out, index).

Definition write_length_type (header : RtmpHeader) (fmt : Z) (out : list Z) (index : Z)
    : outcome (list Z * Z) :=
  if fmt <=? 1 then
    out ← go_upd_from out index (BePutUint24 (MsgLen header));
    out ← go_set out (index + 3) (MsgTypeId header);
    write_stream_id header fmt out (index + 3 + 1)
  else Ret (out, index).

Definition write_message_header (header : RtmpHeader) (fmt timestamp : Z) (out : list Z) (index : Z)
    : outcome (list Z * Z) :=
  if fmt <=? 2 then
    out ← go_upd_from out index (BePutUint24
      (if timestamp >? maxTimestampInMessageHeader then maxTimestampInMessageHeader else timestamp));
    write_length_type header fmt out (index + 3)
  else Ret (out, index).

Definition write_ext (timestamp : Z) (out : list Z) (index : Z) : outcome (list Z * Z) :=
  if timestamp >? maxTimestampInMessageHeader then
    out ← go_upd_from out index (BePutUint32 timestamp);
    Ret (out, index + 4)
  else Ret (out, index).

(** The slice written and the length of the header. *)
Definition calcHeader (header : RtmpHeader) (prevHeader : option RtmpHeader) (out : list Z)
    : outcome (list Z * Z) :=
  let '(fmt, timestamp) := calc_fmt header prevHeader in
  '(out, index) ← write_basic (Csid header) fmt out 0;
  '(out, index) ← write_message_header header fmt timestamp out index;
  write_ext timestamp out index.

(** The loop over the chunks, [k] left; [copy] puts the data of chunk [i]. *)
Fixpoint chunk_loop (copy : list Z → Z → Z → outcome (list Z)) (header : RtmpHeader)
    (chunkSize lastChunkSize : Z) (k : nat) (i : Z) (prevHeader : option RtmpHeader)
    (out : list Z) (index : Z) : outcome (list Z * Z) :=
  match k with
  | O => Ret (out, index)
  | S k =>
      s ← go_from out index;
      '(s, headLen) ← calcHeader header prevHeader s;
      let out := take (Z.to_nat index) out ++ s in
      let index := index + headLen in
      let n := match k with O => lastChunkSize | _ => chunkSize end in
      s ← go_from out index;
      s ← copy s (i * chunkSize) n;
      let out := take (Z.to_nat index) out ++ s in
      chunk_loop copy header chunkSize lastChunkSize k (i + 1) (Some header) out (index + n)
  end.

Definition message2Chunks (message : list Z) (header : RtmpHeader) (prevHeader : option RtmpHeader)
    (chunkSize : Z) : outcome (list Z) :=
  if chunkSize =? 0 then Panic else
  let q := Z.quot (len message) chunkSize in
  let r := Z.rem (len message) chunkSize in
  let numOfChunk := if negb (r =? 0) then q + 1 else q in
  let lastChunkSize := if negb (r =? 0) then r else chunkSize in
  let maxNeededLen := q * (chunkSize + maxHeaderSize) +
                      (if negb (r =? 0) then r + maxHeaderSize else 0) in
  out ← go_make_checked maxNeededLen;
  '(out, index) ← chunk_loop
     (λ s pos n, data ← go_slice message pos (pos + n); Ret (go_copy s data))
     header chunkSize lastChunkSize (Z.to_nat numOfChunk) 0 prevHeader out 0;
  go_slice out 0 index.

(** [copyBufferFromBuffers] has an empty body. *)
Definition copyBufferFromBuffers (out : list Z) (bs : list (list Z)) (pos length : Z) : list Z := out.

Definition message2ChunksV (message : list (list Z)) (header : RtmpHeader)
    (prevHeader : option RtmpHeader) (chunkSize : Z) : outcome (list Z) :=
  if chunkSize =? 0 then Panic else
  let totalLen := foldl (λ n b, n + len b) 0 message in
  let q := Z.quot totalLen chunkSize in
  let r := Z.rem totalLen chunkSize in
  let numOfChunk := if negb (r =? 0) then q + 1 else q in
  let lastChunkSize := if negb (r =? 0) then r else chunkSize in
  out ← go_make_checked ((chunkSize + maxHeaderSize) * numOfChunk);
  '(out, index) ← chunk_loop
     (λ s pos n, Ret (copyBufferFromBuffers s message pos n))
     header chunkSize lastChunkSize (Z.to_nat numOfChunk) 0 prevHeader out 0;
  go_slice out 0 index.

Definition Message2Chunks (message : list Z) (header : RtmpHeader) : outcome (list Z) :=
  message2Chunks message header None LocalChunkSize.
Definition Message2ChunksV (message : list (list Z)) (header : RtmpHeader) : outcome (list Z) :=
  message2ChunksV message header None LocalChunkSize.
End Divider.

(** ** Composing *)

Section Composer.
Context {B : Bele} {NB : NazaBuffer}.

Record Stream := mkStream {
  header : RtmpHeader;
  msg : buffer;
  absTsFlag : bool;
  timestamp : Z;
}.

Definition zero_header : RtmpHeader := mkRtmpHeader 0 0 0 0 0.
Definition NewStream : Stream := mkStream zero_header (NewBuffer initMsgLen) false 0.

Definition toAvMsg (st : Stream) : RtmpMsg := mkRtmpMsg (header st) (bufBytes (msg st)).

Record ChunkComposer := mkComposer {
  peerChunkSize : Z;
  reuseBufferFlag : bool;
  csid2stream : gmap Z Stream;
}.

Definition NewChunkComposer : ChunkComposer := mkComposer defaultChunkSize false ∅.
Definition SetReuseBufferFlag (c : ChunkComposer) (val : bool) : ChunkComposer :=
  mkComposer (peerChunkSize c) val (csid2stream c).
Definition SetPeerChunkSize (c : ChunkComposer) (val : Z) : ChunkComposer :=
  mkComposer val (reuseBufferFlag c) (csid2stream c).

Definition getOrCreateStream (c : ChunkComposer) (csid : Z) : Stream :=
  default NewStream (csid2stream c !! csid).
Definition put_stream (c : ChunkComposer) (csid : Z) (st : Stream) : ChunkComposer :=
  mkComposer (peerChunkSize c) (reuseBufferFlag c) (<[csid := st]> (csid2stream c)).

(** The basic header: format and chunk stream id. *)
Definition read_basic (input : list Z) : outcome (Z * Z * list Z) :=
  '(b, input) ← read 1 input;
  b0 ← go_index b 0;
  let fmt := Z.land (Z.shiftr b0 6) 3 in
  let csid := Z.land b0 63 in
  if csid =? 0 then
    '(b, input) ← read 1 input;
    x ← go_index b 0;
    Ret (fmt, 64 + x, input)
  else if csid =? 1 then
    '(b, input) ← read 2 input;
    x ← go_index b 0; y ← go_index b 1;
    Ret (fmt, 64 + x + y * 256, input)
  else Ret (fmt, csid, input).

Definition set_ts (h : RtmpHeader) (ts : Z) : RtmpHeader :=
  mkRtmpHeader (Csid h) (MsgLen h) (MsgTypeId h) (MsgStreamId h) ts.

(** The message header of the chunk. *)
Definition read_message_header (fmt : Z) (st : Stream) (input : list Z) : outcome (Stream * list Z) :=
  let h := header st in
  if fmt =? 0 then
    '(b, input) ← read 11 input;
    ts ← BeUint24 b;
    s ← go_from b 3; l ← BeUint24 s;
    t ← go_index b 6;
    s ← go_from b 7; sid ← LeUint32 s;
    Ret (mkStream (mkRtmpHeader (Csid h) l t sid ts) (bufGrow l (msg st)) true ts, input)
  else if fmt =? 1 then
    '(b, input) ← read 7 input;
    ts ← BeUint24 b;
    s ← go_from b 3; l ← BeUint24 s;
    t ← go_index b 6;
    Ret (mkStream (mkRtmpHeader (Csid h) l t (MsgStreamId h) (TimestampAbs h))
           (bufGrow l (msg st)) (absTsFlag st) ts, input)
  else if fmt =? 2 then
    '(b, input) ← read 3 input;
    ts ← BeUint24 b;
    Ret (mkStream h (msg st) (absTsFlag st) ts, input)
  else Ret (st, input).

(** The extended timestamp. *)
Definition read_ext (fmt : Z) (st : Stream) (input : list Z) : outcome (Stream * list Z) :=
  if timestamp st >=? maxTimestampInMessageHeader then
    '(b, input) ← read 4 input;
    newTs ← BeUint32 b;
    let h := header st in
    let h :=
      if fmt =? 0 then set_ts h newTs
      else if (fmt =? 1) || (fmt =? 2) then
        set_ts h (u32 (u32 (TimestampAbs h - maxTimestampInMessageHeader) + newTs))
      else h in
    Ret (mkStream h (msg st) (absTsFlag st) newTs, input)
  else Ret (st, input).

(** How much of the message this chunk carries. *)
Definition needed_size (peer : Z) (st : Stream) : Z :=
  if MsgLen (header st) <=? peer then MsgLen (header st)
  else
    let n := u32 (MsgLen (header st) - u32 (bufLen (msg st))) in
    if n >? peer then peer else n.

Definition set_msg (st : Stream) (b : buffer) : Stream :=
  mkStream (header st) b (absTsFlag st) (timestamp st).

Definition read_payload (peer : Z) (st : Stream) (input : list Z) : outcome (Stream * list Z) :=
  let n := needed_size peer st in
  '(d, input) ← read n input;
  Ret (set_msg st (bufFlush n d (fst (bufReserve n (msg st)))), input).

(** [SetPeerChunkSize] by a complete "set chunk size" message. *)
Definition apply_chunk_size (c : ChunkComposer) (st : Stream) : outcome ChunkComposer :=
  if MsgTypeId (header st) =? RtmpTypeIdSetChunkSize then
    let buf := bufBytes (msg st) in
    if len buf >=? 4 then val ← BeUint32 buf; Ret (SetPeerChunkSize c val) else Ret c
  else Ret c.

(** The header of a completed message. *)
Definition complete_header (csid : Z) (st : Stream) : Stream :=
  let h := header st in
  let ts := if negb (absTsFlag st) then u32 (TimestampAbs h + timestamp st) else TimestampAbs h in
  mkStream (mkRtmpHeader csid (MsgLen h) (MsgTypeId h) (MsgStreamId h) ts) (msg st) false (timestamp st).

Section Callback.
Context {S : Type}.
(** The callback sees the message of the stream ([toAvMsg]); the buffer is
    reset after it returns. *)
Variable cb : RtmpMsg → eff S unit.

(** The sub messages of an aggregate message in [st]; [base] is the
    timestamp of the first one. *)
Fixpoint aggregate_loop (fuel : nat) (st : Stream) (base : option Z) : eff S Stream :=
  match fuel with
  | O => lift (Fail OutOfFuel)
  | Datatypes.S fuel =>
      let b := msg st in
      if u32 (bufLen b) =? 0 then mret st
      else if u32 (bufLen b) <? 11 then lift (Fail ErrRtmpShortBuffer)
      else
        typ ← lift (go_index (bufBytes b) 0);
        let b := bufSkip 1 b in
        msgLen ← lift (BeUint24 (bufBytes b));
        let b := bufSkip 3 b in
        ts ← lift (BeUint24 (bufBytes b));
        let b := bufSkip 3 b in
        x ← lift (go_index (bufBytes b) 0);
        let ts := u32 (ts + u32 (Z.shiftl x 24)) in
        let b := bufSkip 1 b in
        sid ← lift (BeUint24 (bufBytes b));
        let b := bufSkip 3 b in
        let base := default ts base in
        let tsAbs := u32 (u32 (TimestampAbs (header st) + ts) - base) in
        if u32 (bufLen b) <? msgLen then lift (Fail ErrRtmpShortBuffer)
        else
          payload ← lift (go_slice (bufBytes b) 0 msgLen);
          let b := bufSkip msgLen b in
          _ ← cb (mkRtmpMsg (mkRtmpHeader (Csid (header st)) msgLen typ sid tsAbs) payload);
          if u32 (bufLen b) <? 4 then lift (Fail ErrRtmpShortBuffer)
          else aggregate_loop fuel (set_msg st (bufSkip 4 b)) (Some base)
  end.

(** What happens once the message is complete. *)
Definition deliver (c : ChunkComposer) (st : Stream) : eff S Stream :=
  if MsgTypeId (header st) =? RtmpTypeIdAggregateMessage then
    aggregate_loop (Datatypes.S (length (bufBytes (msg st)))) st None
  else
    _ ← cb (toAvMsg st);
    mret (set_msg st (if reuseBufferFlag c then bufReset (msg st) else bufResetAndFree (msg st))).

(** One turn of the loop of [RunLoop]: one chunk. *)
Definition RunLoop_step (c : ChunkComposer) (input : list Z) : eff S (ChunkComposer * list Z) :=
  '(fmt, csid, input) ← lift (read_basic input);
  let st := getOrCreateStream c csid in
  '(st, input) ← lift (read_message_header fmt st input);
  '(st, input) ← lift (read_ext fmt st input);
  '(st, input) ← lift (read_payload (peerChunkSize c) st input);
  '(c, st) ←
    (if u32 (bufLen (msg st)) =? MsgLen (header st) then
       c ← lift (apply_chunk_size c st);
       st ← deliver c (complete_header csid st);
       mret (c, st)
     else mret (c, st));
  if u32 (bufLen (msg st)) >? MsgLen (header st) then lift (Fail ErrRtmpShortBuffer)
  else mret (put_stream c csid st, input).

(** [RunLoop] only returns with an error. *)
Fixpoint RunLoop (fuel : nat) (c : ChunkComposer) (input : list Z) : eff S unit :=
  match fuel with
  | O => lift (Fail OutOfFuel)
  | Datatypes.S fuel =>
      '(c, input) ← RunLoop_step c input;
      RunLoop fuel c input
  end.
End Callback.
End Composer.

(** ** What the divider writes *)

(** [f] appends [bs] to what is written so far in a fresh buffer. *)
Definition emits (f : list Z → Z → outcome (list Z * Z)) (bs : list Z) : Prop :=
  ∀ pre m, len bs ≤ m →
    f (pre ++ go_make m) (len pre) = Ret (pre ++ bs ++ go_make (m - len bs), len pre + len bs).

Lemma emits_nil : emits (λ out index, Ret (out, index)) [].
Proof.
  intros pre m _. simpl. rewrite Z.sub_0_r, Z.add_0_r. done.
Qed.

Lemma emits_seq f g a b :
  emits f a → emits g b → emits (λ out index, '(out, index) ← f out index; g out index) (a ++ b).
Proof.
  intros Hf Hg pre m Hm. rewrite Hf, bind_Ret by (revert Hm; len_lia).
  rewrite app_assoc. replace (len pre + len a) with (len (pre ++ a)) by len_lia.
  rewrite Hg by (revert Hm; len_lia). rewrite <- !app_assoc. do 2 f_equal; [|len_lia].
  do 3 f_equal. f_equal. len_lia.
Qed.

Lemma emits_put n (f : Z → list Z → outcome (list Z)) enc v :
  writes n enc f → 0 ≤ v < 256 ^ Z.of_nat n → length (enc v) = n →
  emits (λ out index, out ← go_upd_from out index (f v); Ret (out, index + Z.of_nat n)) (enc v).
Proof.
  intros Hf Hv He pre m Hm. rewrite He in Hm |- *.
  rewrite (go_upd_from_app pre (go_make m) (enc v ++ go_make (m - Z.of_nat n))); [done|done|].
  replace (go_make m) with (go_make (Z.of_nat n) ++ go_make (m - Z.of_nat n)).
  - apply Hf; [rewrite length_go_make; lia|done].
  - rewrite <- go_make_add by lia. f_equal. lia.
Qed.

Lemma emits_put_then n f enc v g bs :
  writes n enc f → 0 ≤ v < 256 ^ Z.of_nat n → length (enc v) = n → emits g bs →
  emits (λ out index, out ← go_upd_from out index (f v); g out (index + Z.of_nat n)) (enc v ++ bs).
Proof.
  intros Hf Hv He Hg pre m Hm.
  pose proof (emits_seq _ _ _ _ (emits_put n f enc v Hf Hv He) Hg pre m Hm) as E.
  rewrite <- E. by destruct (go_upd_from _ _ _).
Qed.

Lemma emits_set_then v g bs :
  emits g bs → emits (λ out index, out ← go_set out index v; g out (index + 1)) (v :: bs).
Proof.
  intros Hg pre m Hm. rewrite length_cons in Hm.
  rewrite go_set_app_r, Z.sub_diag, go_set_make, !bind_Ret by lia.
  change (pre ++ v :: go_make (m - 1)) with (pre ++ [v] ++ go_make (m - 1)). rewrite app_assoc.
  replace (len pre + 1) with (len (pre ++ [v])) by len_lia.
  rewrite Hg by (revert Hm; len_lia). rewrite <- !app_assoc. simpl. do 2 f_equal; [|len_lia].
  do 4 f_equal. lia.
Qed.

(** Basic header of a valid chunk stream id. *)
Definition basic_bytes (csid fmt : Z) : list Z :=
  if csid <=? 63 then [fmt * 64 + csid]
  else if csid <=? 319 then [fmt * 64; csid - 64]
  else [fmt * 64 + 1; (csid - 64) mod 256; (csid - 64) / 256].

Definition csid_ok (csid : Z) : Prop := 2 ≤ csid < 65600.

Lemma basic_bits fmt csid : 0 ≤ fmt < 4 → 0 ≤ csid < 64 →
  Z.lor (u8 (Z.shiftl fmt 6)) (u8 csid) = fmt * 64 + csid ∧ u8 (Z.shiftl fmt 6) = fmt * 64 ∧
  Z.land (Z.shiftr (fmt * 64 + csid) 6) 3 = fmt ∧ Z.land (fmt * 64 + csid) 63 = csid.
Proof.
  intros Hf Hc.
  assert (H : for_range 4 (λ fmt, for_range 64 (λ csid,
    (Z.lor (u8 (Z.shiftl fmt 6)) (u8 csid) =? fmt * 64 + csid) && (u8 (Z.shiftl fmt 6) =? fmt * 64) &&
    (Z.land (Z.shiftr (fmt * 64 + csid) 6) 3 =? fmt) && (Z.land (fmt * 64 + csid) 63 =? csid))) = true)
    by (vm_compute; reflexivity).
  apply (for_range_spec _ _ H) in Hf. cbv beta in Hf. apply (for_range_spec _ _ Hf) in Hc.
  cbv beta in Hc. lia.
Qed.

Lemma emits_basic csid fmt :
  csid_ok csid → 0 ≤ fmt < 4 → emits (write_basic csid fmt) (basic_bytes csid fmt).
Proof.
  intros Hc Hf pre m Hm. unfold csid_ok in Hc. unfold write_basic, basic_bytes in *.
  destruct (basic_bits fmt 0 Hf ltac:(lia)) as (_ & E & _).
  destruct (Z.leb_spec csid 63); [|destruct (Z.leb_spec csid 319)]; simpl in Hm.
  - destruct (basic_bits fmt csid Hf ltac:(lia)) as (E1 & _). repeat go_test.
    repeat go_write. go_read. repeat go_write. by rewrite E1.
  - repeat go_test. repeat go_write. rewrite E, u8_small by lia. simpl. do 2 f_equal; [|lia].
    do 2 f_equal. f_equal. f_equal. lia.
  - repeat go_test. destruct (basic_bits fmt 1 Hf ltac:(lia)) as (E1 & _).
    change (u8 1) with 1 in E1. repeat go_write. go_read. repeat go_write. rewrite E1.
    rewrite Z.shiftr_div_pow2 by lia. change (2 ^ 8) with 256.
    rewrite (u8_small ((csid - 64) / 256)) by zdm. unfold u8. simpl. do 2 f_equal; [|lia].
    do 3 f_equal. f_equal. f_equal. lia.
Qed.

(** The message header and the extended timestamp. *)
Definition header_bytes (h : RtmpHeader) (fmt ts : Z) : list Z :=
  (if fmt <=? 2 then be_bytes 3 (Z.min ts maxTimestampInMessageHeader) else []) ++
  (if fmt <=? 1 then be_bytes 3 (MsgLen h) ++ [MsgTypeId h] else []) ++
  (if fmt =? 0 then le_bytes 4 (MsgStreamId h) else []).
Definition ext_bytes (ts : Z) : list Z :=
  if ts >? maxTimestampInMessageHeader then be_bytes 4 ts else [].

Definition header_ok (h : RtmpHeader) : Prop :=
  csid_ok (Csid h) ∧ is_u24 (MsgLen h) ∧ is_u8 (MsgTypeId h) ∧ is_u32 (MsgStreamId h) ∧
  is_u32 (TimestampAbs h).

Definition chunk_header (h : RtmpHeader) (prev : option RtmpHeader) : list Z :=
  let '(fmt, ts) := calc_fmt h prev in
  basic_bytes (Csid h) fmt ++ header_bytes h fmt ts ++ ext_bytes ts.

Lemma length_basic_bytes csid fmt : len (basic_bytes csid fmt) ≤ 3.
Proof. unfold basic_bytes. destruct (_ <=? _); [simpl; lia|]. destruct (_ <=? _); simpl; lia. Qed.

Lemma length_chunk_header h prev : len (chunk_header h prev) ≤ 18.
Proof.
  unfold chunk_header. destruct (calc_fmt h prev) as [fmt ts].
  pose proof (length_basic_bytes (Csid h) fmt). unfold header_bytes, ext_bytes.
  destruct (_ <=? 2), (_ <=? 1), (_ =? 0), (_ >? _); rewrite ?length_app, ?be_bytes_length, ?le_bytes_length;
    simpl; lia.
Qed.

Lemma calc_fmt_range h prev :
  is_u32 (TimestampAbs h) → 0 ≤ fst (calc_fmt h prev) < 4 ∧ is_u32 (snd (calc_fmt h prev)).
Proof.
  intros Hh. unfold calc_fmt. destruct prev as [p|]; [|simpl; lia].
  destruct (_ =? _); [|simpl; lia]. cbn [fst snd]. split.
  - destruct (_ && _); [destruct (_ =? _)|]; lia.
  - destruct (_ >? _); [done|]. apply u32_range.
Qed.

Section DividerFacts.
Context {B : Bele} {HB : BeleLaws B}.

Lemma emits_header h fmt ts :
  header_ok h → is_u32 ts → emits (write_message_header h fmt ts) (header_bytes h fmt ts).
Proof.
  intros (_ & Hl & Ht & Hs & _) Hts. unfold header_bytes, write_message_header.
  assert (Hmin : (if ts >? maxTimestampInMessageHeader then maxTimestampInMessageHeader else ts) =
                 Z.min ts maxTimestampInMessageHeader).
  { rewrite Z.gtb_ltb. destruct (Z.ltb_spec maxTimestampInMessageHeader ts); lia. }
  rewrite Hmin. unfold maxTimestampInMessageHeader.
  destruct (Z.leb_spec fmt 2).
  2:{ repeat go_test. apply emits_nil. }
  assert (Hsid : emits (write_stream_id h fmt) (if fmt =? 0 then le_bytes 4 (MsgStreamId h) else [])).
  { unfold write_stream_id. destruct (fmt =? 0); [|apply emits_nil].
    rewrite u32_small by done.
    apply (emits_put 4 LePutUint32 (le_bytes 4)); [apply LePutUint32_writes|done|apply le_bytes_length]. }
  assert (Hlen : emits (write_length_type h fmt)
    ((if fmt <=? 1 then be_bytes 3 (MsgLen h) ++ [MsgTypeId h] else []) ++
     (if fmt =? 0 then le_bytes 4 (MsgStreamId h) else []))).
  { unfold write_length_type. destruct (Z.leb_spec fmt 1).
    2:{ repeat go_test. apply emits_nil. }
    rewrite <- app_assoc.
    apply (emits_put_then 3 BePutUint24 (be_bytes 3) (MsgLen h)
      (λ out index, out ← go_set out index (MsgTypeId h); write_stream_id h fmt out (index + 1)));
      [apply BePutUint24_writes | done | apply be_bytes_length |].
    by apply (emits_set_then (MsgTypeId h) (write_stream_id h fmt)). }
  apply (emits_put_then 3 BePutUint24 (be_bytes 3) (Z.min ts 16777215) (write_length_type h fmt));
    [apply BePutUint24_writes | change (256 ^ Z.of_nat 3) with 16777216; lia
    | apply be_bytes_length | done].
Qed.

Lemma calcHeader_spec h prev m :
  header_ok h → 18 ≤ m →
  calcHeader h prev (go_make m) =
    Ret (chunk_header h prev ++ go_make (m - len (chunk_header h prev)), len (chunk_header h prev)).
Proof.
  intros Hh Hm. pose proof (length_chunk_header h prev) as Hl.
  pose proof (calc_fmt_range h prev ltac:(apply Hh)) as [Hf Ht].
  unfold calcHeader, chunk_header in *. destruct (calc_fmt h prev) as [fmt ts]. simpl in Hf, Ht.
  assert (He : emits (write_ext ts) (ext_bytes ts)).
  { unfold write_ext, ext_bytes. destruct (_ >? _); [|apply emits_nil].
    apply (emits_put 4 BePutUint32 (be_bytes 4)); [apply BePutUint32_writes|done|apply be_bytes_length]. }
  pose proof (emits_seq _ _ _ _ (emits_basic (Csid h) fmt ltac:(apply Hh) Hf)
    (emits_seq _ _ _ _ (emits_header h fmt ts Hh Ht) He)) as E.
  specialize (E [] m ltac:(lia)). simpl app in E. change (len []) with 0 in E.
  rewrite Z.add_0_l in E. rewrite <- E. done.
Qed.

(** [k] pieces of [n] bytes, the last one the rest. *)
Fixpoint pieces (k : nat) (n : Z) (l : list Z) : list (list Z) :=
  match k with
  | O => []
  | 1%nat => [l]
  | S k => take (Z.to_nat n) l :: pieces k n (drop (Z.to_nat n) l)
  end.

Fixpoint chunks_wire (h : RtmpHeader) (prev : option RtmpHeader) (cs : list (list Z)) : list Z :=
  match cs with
  | [] => []
  | c :: cs => chunk_header h prev ++ c ++ chunks_wire h (Some h) cs
  end.

Lemma chunk_loop_spec message h n lst k i prev pre m donep rest :
  header_ok h → message = donep ++ rest → len donep = i * n → 0 < n → 0 < lst ≤ n →
  len rest = (if Nat.eqb k 0 then 0 else (Z.of_nat k - 1) * n + lst) →
  len rest + 18 * Z.of_nat k ≤ m →
  let wire := chunks_wire h prev (pieces k n rest) in
  chunk_loop (λ s pos n, data ← go_slice message pos (pos + n); Ret (go_copy s data))
    h n lst k i prev (pre ++ go_make m) (len pre) =
  Ret (pre ++ wire ++ go_make (m - len wire), len pre + len wire) ∧
  len wire ≤ len rest + 18 * Z.of_nat k.
Proof.
  intros Hh -> Hd Hn Hlst. revert i prev pre m donep rest Hd.
  induction k as [|k IH]; intros i prev pre m donep rest Hd Hr Hm; cbv zeta.
  { simpl in *. rewrite Z.sub_0_r, Z.add_0_r. split; [done|lia]. }
  cbn [chunk_loop Nat.eqb] in *. pose proof (length_chunk_header h prev) as Hch.
  rewrite go_from_app, bind_Ret by done. rewrite calcHeader_spec, bind_Ret by (done || lia).
  rewrite Nat2Z.id, take_app_length. set (hd := chunk_header h prev) in *.
  rewrite app_assoc. replace (len pre + len hd) with (len (pre ++ hd)) by len_lia.
  rewrite go_from_app, bind_Ret by done.
  rewrite Nat2Z.id, take_app_length.
  set (nn := match k with O => lst | _ => n end).
  set (c := match k with O => rest | _ => take (Z.to_nat n) rest end).
  set (rest' := match k with O => [] | _ => drop (Z.to_nat n) rest end).
  assert (Hc : rest = c ++ rest' ∧ len c = nn ∧ pieces (S k) n rest = c :: pieces k n rest' ∧
    len rest' = (if Nat.eqb k 0 then 0 else (Z.of_nat k - 1) * n + lst)).
  { unfold c, rest', nn. destruct k as [|k].
    - rewrite app_nil_r. simpl. repeat split; lia.
    - cbn [Nat.eqb]. rewrite take_drop. split; [done|]. rewrite length_take, length_drop.
      split; [nia|]. split; [done|]. nia. }
  clearbody c rest'. destruct Hc as (-> & Hc & -> & Hr'). cbn [chunks_wire]. fold hd.
  rewrite (go_slice_app donep c rest'), bind_Ret by lia.
  assert (Hnn : 0 ≤ nn) by lia.
  rewrite go_copy_make, bind_Ret by (revert Hm; len_lia).
  rewrite (app_assoc (pre ++ hd) c). replace (len (pre ++ hd) + nn) with (len ((pre ++ hd) ++ c)) by len_lia.
  rewrite (app_assoc donep c rest').
  assert (Hik : nn = n ∨ k = 0%nat) by (unfold nn; destruct k; auto).
  destruct Hik as [Hnn'|Hk0].
  - destruct (IH (i + 1) (Some h) ((pre ++ hd) ++ c) (m - len hd - len c) (donep ++ c) rest')
      as [E Hw].
    + len_lia.
    + done.
    + revert Hm; len_lia.
    + rewrite E. split; [|revert Hw; len_lia]. rewrite <- !app_assoc. do 2 f_equal; [|len_lia].
      do 5 f_equal. len_lia.
  - subst k. cbn [chunk_loop pieces chunks_wire]. rewrite !app_nil_r.
    split; [|revert Hm; len_lia]. rewrite <- !app_assoc. do 2 f_equal; [|len_lia].
    do 4 f_equal. len_lia.
Qed.

(** How many chunks, and the size of the last. *)
Definition chunk_count (n l : Z) : nat := Z.to_nat ((l + n - 1) / n).

Lemma concat_pieces k n l : (k ≠ 0)%nat → concat (pieces k n l) = l.
Proof.
  revert l. induction k as [|[|k] IH]; intros l Hk; [done|simpl; by rewrite app_nil_r|].
  change (take (Z.to_nat n) l ++ concat (pieces (S k) n (drop (Z.to_nat n) l)) = l).
  by rewrite IH, take_drop.
Qed.

Lemma message2Chunks_spec message h prev n :
  header_ok h → 0 < n →
  message2Chunks message h prev n =
    Ret (chunks_wire h prev (pieces (chunk_count n (len message)) n message)).
Proof.
  intros Hh Hn. unfold message2Chunks. rewrite (proj2 (Z.eqb_neq n 0)) by lia. cbv zeta.
  rewrite Z.quot_div_nonneg, Z.rem_mod_nonneg by lia.
  set (q := len message / n). set (r := len message mod n).
  pose proof (Z.div_mod (len message) n ltac:(lia)) as Hqr. fold q r in Hqr.
  pose proof (Z.mod_pos_bound (len message) n Hn) as Hr. fold r in Hr.
  assert (0 ≤ q) by (apply Z.div_pos; lia).
  assert (Hk : chunk_count n (len message) = Z.to_nat (if negb (r =? 0) then q + 1 else q)).
  { unfold chunk_count. f_equal. rewrite Hqr. destruct (Z.eqb_spec r 0) as [->|]; cbn [negb].
    - symmetry. apply (Z.div_unique _ _ _ (n - 1)); lia.
    - symmetry. apply (Z.div_unique _ _ _ (r - 1)); lia. }
  rewrite <- Hk. set (k := chunk_count n (len message)) in *.
  set (lst := if negb (r =? 0) then r else n). set (mx := q * _ + _).
  assert (Hlst : 0 < lst ≤ n) by (unfold lst; destruct (Z.eqb_spec r 0); simpl; lia).
  assert (Hlen : len message = (if Nat.eqb k 0 then 0 else (Z.of_nat k - 1) * n + lst)).
  { unfold lst. destruct (Nat.eqb_spec k 0); destruct (Z.eqb_spec r 0); cbn [negb] in *; nia. }
  assert (Hmx : len message + 18 * Z.of_nat k ≤ mx).
  { unfold mx, maxHeaderSize. destruct (Z.eqb_spec r 0); cbn [negb] in *; nia. }
  unfold go_make_checked. rewrite (proj2 (Z.ltb_ge mx 0)) by lia. rewrite bind_Ret.
  destruct (chunk_loop_spec message h n lst k 0 prev [] mx [] message) as [E Hw]; try done.
  simpl app in E. change (len []) with 0 in E. rewrite E, bind_Ret, Z.add_0_l.
  by rewrite go_slice_head.
Qed.
End DividerFacts.

(** ** What the composer reads *)

Section ComposerFacts.
Context {B : Bele} {HB : BeleLaws B} {NB : NazaBuffer} {HNB : NazaBufferLaws NB}.

Lemma read_basic_spec csid fmt rest :
  csid_ok csid → 0 ≤ fmt < 4 → read_basic (basic_bytes csid fmt ++ rest) = Ret (fmt, csid, rest).
Proof.
  intros Hc Hf. unfold csid_ok in Hc. unfold read_basic, basic_bytes.
  destruct (Z.leb_spec csid 63); [|destruct (Z.leb_spec csid 319)].
  - destruct (basic_bits fmt csid Hf ltac:(lia)) as (_ & _ & E1 & E2).
    rewrite (read_app 1 [fmt * 64 + csid]), bind_Ret by done.
    rewrite go_index_head, bind_Ret by done. cbv zeta. rewrite E1, E2. repeat go_test. done.
  - destruct (basic_bits fmt 0 Hf ltac:(lia)) as (_ & _ & E1 & E2).
    rewrite Z.add_0_r in *. change ([fmt * 64; csid - 64] ++ rest) with ([fmt * 64] ++ [csid - 64] ++ rest).
    rewrite (read_app 1 [fmt * 64]), bind_Ret by done.
    rewrite go_index_head, bind_Ret by done. cbv zeta. rewrite E1, E2. cbn [Z.eqb].
    rewrite (read_app 1 [csid - 64]), bind_Ret by done.
    rewrite go_index_head, bind_Ret by done. do 3 f_equal. lia.
  - destruct (basic_bits fmt 1 Hf ltac:(lia)) as (_ & _ & E1 & E2).
    set (x := (csid - 64) mod 256). set (y := (csid - 64) / 256).
    change ([fmt * 64 + 1; x; y] ++ rest) with ([fmt * 64 + 1] ++ [x; y] ++ rest).
    rewrite (read_app 1 [fmt * 64 + 1]), bind_Ret by done.
    rewrite go_index_head, bind_Ret by done. cbv zeta. rewrite E1, E2. cbn [Z.eqb Pos.eqb].
    rewrite (read_app 2 [x; y]), bind_Ret by done. go_read. go_read.
    do 3 f_equal. unfold x, y. zdm.
Qed.

(** The stream is between messages; it is in the middle of message [h], with
    [done] received. *)
Definition idle (st : Stream) : Prop := bufBytes (msg st) = [].
Definition within (h : RtmpHeader) (done : list Z) (st : Stream) : Prop :=
  (∃ csid, header st = mkRtmpHeader csid (MsgLen h) (MsgTypeId h) (MsgStreamId h) (TimestampAbs h)) ∧
  absTsFlag st = true ∧ timestamp st = TimestampAbs h ∧ bufBytes (msg st) = done.

(** The timestamp is not the value the two sides disagree on. *)
Definition ts_ok (h : RtmpHeader) : Prop := TimestampAbs h ≠ maxTimestampInMessageHeader.

Lemma read_ext_spec fmt st ts rest :
  is_u32 ts → ts ≠ maxTimestampInMessageHeader →
  timestamp st = Z.min ts maxTimestampInMessageHeader ∨ fmt = 3 ∧ timestamp st = ts →
  fmt = 0 ∧ TimestampAbs (header st) = Z.min ts maxTimestampInMessageHeader ∨
  fmt = 3 ∧ TimestampAbs (header st) = ts →
  read_ext fmt st (ext_bytes ts ++ rest) =
    Ret (mkStream (set_ts (header st) ts) (msg st) (absTsFlag st) ts, rest).
Proof.
  intros Hts Hne Ht Hh. unfold read_ext, ext_bytes, maxTimestampInMessageHeader in *.
  rewrite Z.geb_leb, Z.gtb_ltb.
  assert (Heq : ∀ x, TimestampAbs (header st) = x → set_ts (header st) x = header st).
  { intros x <-. unfold set_ts. by destruct (header st). }
  destruct (Z.ltb_spec 16777215 ts).
  - rewrite (proj2 (Z.leb_le _ (timestamp st))) by lia.
    rewrite read_app, bind_Ret by done.
    rewrite <- (app_nil_r (be_bytes 4 ts)), BeUint32_be, bind_Ret by done.
    destruct Hh as [[-> Hh]|[-> Hh]]; [done|]. simpl. by rewrite Heq.
  - rewrite (proj2 (Z.leb_gt _ (timestamp st))) by lia. cbn [app].
    rewrite Heq by lia. assert (timestamp st = ts) as <- by lia. by destruct st.
Qed.

Lemma read_first_header h st rest :
  header_ok h → ts_ok h →
  ∃ st', (_ ← Ret tt; '(st, input) ← read_message_header 0 st
            (header_bytes h 0 (TimestampAbs h) ++ ext_bytes (TimestampAbs h) ++ rest);
          read_ext 0 st input) = Ret (st', rest) ∧
    within h (bufBytes (msg st)) st'.
Proof.
  intros (_ & Hl & Ht & Hs & Hts) Hok. rewrite bind_Ret. unfold read_message_header, header_bytes.
  cbn [Z.leb Z.compare Z.eqb].
  set (ts := TimestampAbs h) in *. set (t3 := Z.min ts maxTimestampInMessageHeader).
  assert (Ht3 : is_u24 t3) by (unfold t3, maxTimestampInMessageHeader; lia).
  rewrite read_app, bind_Ret by done.
  rewrite BeUint24_be, bind_Ret by done. rewrite <- !app_assoc. go_read.
  rewrite <- ?app_assoc, BeUint24_be, bind_Ret by done. go_read. go_read.
  rewrite <- (app_nil_r (le_bytes 4 _)), LeUint32_le, bind_Ret by done.
  rewrite bind_Ret. rewrite read_ext_spec; [|done|done|by left|by left].
  eexists. split; [done|]. split; [eexists; done|]. split; [done|]. split; [done|].
  simpl. by rewrite bytes_grow.
Qed.

Lemma chunk_header_first h :
  chunk_header h None = basic_bytes (Csid h) 0 ++ header_bytes h 0 (TimestampAbs h) ++
                        ext_bytes (TimestampAbs h).
Proof. reflexivity. Qed.

Lemma chunk_header_next h :
  chunk_header h (Some h) = basic_bytes (Csid h) 3 ++ ext_bytes (TimestampAbs h).
Proof.
  unfold chunk_header, calc_fmt. rewrite !Z.eqb_refl. cbn [andb].
  unfold header_bytes. cbn [Z.leb Z.eqb Z.compare Pos.compare Pos.compare_cont app]. f_equal.
  destruct (TimestampAbs h >? maxTimestampInMessageHeader) eqn:E; [done|].
  unfold ext_bytes. rewrite E, Z.sub_diag. done.
Qed.

Lemma read_payload_spec peer st piece rest :
  needed_size peer st = len piece →
  ∃ b, read_payload peer st (piece ++ rest) = Ret (set_msg st b, rest) ∧
    bufBytes b = bufBytes (msg st) ++ piece.
Proof.
  intros Hn. unfold read_payload. rewrite Hn, read_app, bind_Ret by done.
  eexists. split; [done|]. by rewrite bytes_flush.
Qed.

(** The size of the next piece of a message. *)
Definition piece_ok (peer : Z) (h : RtmpHeader) (done : list Z) (piece : list Z) : Prop :=
  len piece = Z.min (MsgLen h - len done) peer ∧ 0 < len piece ∧ (done = [] ∨ peer < MsgLen h).

Lemma needed_size_spec peer h done st piece :
  header_ok h → within h done st → piece_ok peer h done piece → needed_size peer st = len piece.
Proof.
  intros Hh ((csid & Hst) & _ & _ & Hb) (Hp & H0 & Hd). unfold needed_size, bufLen.
  rewrite Hst, Hb. cbn [MsgLen]. destruct Hh as (_ & Hl & _).
  destruct (Z.leb_spec (MsgLen h) peer).
  - destruct Hd as [->|Hd]; [|lia]. simpl in Hp. lia.
  - rewrite (u32_small (len done)) by lia. rewrite u32_small by lia.
    rewrite Z.gtb_ltb. destruct (Z.ltb_spec peer (MsgLen h - len done)); lia.
Qed.

(** The state in which a chunk of message [h] is expected. *)
Definition expects (c : ChunkComposer) (h : RtmpHeader) (done : list Z) : Prop :=
  let st := getOrCreateStream c (Csid h) in
  match done with [] => idle st | _ => within h done st end.

Definition prev_of (h : RtmpHeader) (done : list Z) : option RtmpHeader :=
  match done with [] => None | _ => Some h end.

(** Reading a chunk up to its payload. *)
Lemma read_chunk c h done piece rest :
  header_ok h → ts_ok h → expects c h done → piece_ok (peerChunkSize c) h done piece →
  ∃ fmt input1 st1 input2 st2 input3 st3,
    read_basic (chunk_header h (prev_of h done) ++ piece ++ rest) = Ret (fmt, Csid h, input1) ∧
    read_message_header fmt (getOrCreateStream c (Csid h)) input1 = Ret (st1, input2) ∧
    read_ext fmt st1 input2 = Ret (st2, input3) ∧
    read_payload (peerChunkSize c) st2 input3 = Ret (st3, rest) ∧
    within h (done ++ piece) st3.
Proof.
  intros Hh Hts He Hp.
  assert (Hread : ∃ fmt input1 st1 input2 st2,
    read_basic (chunk_header h (prev_of h done) ++ piece ++ rest) = Ret (fmt, Csid h, input1) ∧
    read_message_header fmt (getOrCreateStream c (Csid h)) input1 = Ret (st1, input2) ∧
    read_ext fmt st1 input2 = Ret (st2, piece ++ rest) ∧ within h done st2).
  { unfold expects in He. destruct done as [|x done]; cbn [prev_of].
    - rewrite chunk_header_first, <- !app_assoc, read_basic_spec by (try lia; apply Hh).
      destruct (read_first_header h (getOrCreateStream c (Csid h)) (piece ++ rest) Hh Hts)
        as (st2 & E & Hw). rewrite bind_Ret in E.
      apply bind_Ret_inv in E as ([st1 input2] & E1 & E2). rewrite He in Hw.
      exists 0. do 3 eexists. exists st2. split; [done|]. split; [exact E1|]. split; [exact E2|done].
    - rewrite chunk_header_next, <- !app_assoc, read_basic_spec by (try lia; apply Hh).
      exists 3. do 4 eexists. split; [done|]. split; [done|].
      destruct He as ((csid & Hst) & Ha & Ht & Hb). rewrite (read_ext_spec 3 _ (TimestampAbs h)).
      + split; [done|]. split; [eexists; simpl; by rewrite Hst|]. done.
      + apply Hh.
      + done.
      + right. done.
      + right. by rewrite Hst. }
  destruct Hread as (fmt & i1 & st1 & i2 & st2 & E1 & E2 & E3 & Hw).
  destruct (read_payload_spec (peerChunkSize c) st2 piece rest) as (b & E4 & Hb).
  { by apply (needed_size_spec _ h done). }
  do 7 eexists. split; [exact E1|]. split; [exact E2|]. split; [exact E3|]. split; [exact E4|].
  destruct Hw as ((csid & Hst) & Ha & Ht & Hbs). split; [by exists csid|]. split; [done|].
  split; [done|]. simpl. by rewrite Hb, Hbs.
Qed.

Section Steps.
Context {S : Type}.
Variable cb : RtmpMsg → eff S unit.

(** Ordinary messages: not an aggregate, not a new chunk size. *)
Definition ordinary (h : RtmpHeader) : Prop :=
  MsgTypeId h ≠ RtmpTypeIdAggregateMessage ∧ MsgTypeId h ≠ RtmpTypeIdSetChunkSize.

(** One chunk that does not complete its message. *)
Lemma step_partial c h done piece rest s :
  header_ok h → ts_ok h → expects c h done → piece_ok (peerChunkSize c) h done piece →
  len (done ++ piece) < MsgLen h →
  ∃ st, RunLoop_step cb c (chunk_header h (prev_of h done) ++ piece ++ rest) s =
    (s, Ret (put_stream c (Csid h) st, rest)) ∧ within h (done ++ piece) st.
Proof.
  intros Hh Hts He Hp Hlt.
  destruct (read_chunk c h done piece rest) as (fmt & i1 & st1 & i2 & st2 & i3 & st3 &
    E1 & E2 & E3 & E4 & Hw); [done..|].
  exists st3. split; [|done]. unfold RunLoop_step. rewrite E1, eff_bind_lift, E2, eff_bind_lift,
    E3, eff_bind_lift, E4, eff_bind_lift.
  destruct Hw as ((csid & Hst) & _ & _ & Hb). unfold bufLen. rewrite Hst, Hb. cbn [MsgLen].
  assert (0 ≤ MsgLen h < 16777216) by apply Hh. rewrite u32_small by lia.
  rewrite (proj2 (Z.eqb_neq _ _)) by lia. unfold mbind, eff_bind, mret, eff_ret.
  rewrite Hst, Hb. cbn [MsgLen]. rewrite u32_small by lia.
  rewrite Z.gtb_ltb, (proj2 (Z.ltb_ge _ _)) by lia. done.
Qed.

(** One chunk that completes its message; [c'] is the composer after a message
    that may set the chunk size. *)
Lemma step_complete_size c c' h done piece rest s :
  header_ok h → ts_ok h → MsgTypeId h ≠ RtmpTypeIdAggregateMessage → expects c h done →
  piece_ok (peerChunkSize c) h done piece → len (done ++ piece) = MsgLen h →
  (∀ st, MsgTypeId (header st) = MsgTypeId h → bufBytes (msg st) = done ++ piece →
    apply_chunk_size c st = Ret c') →
  ∃ st, RunLoop_step cb c (chunk_header h (prev_of h done) ++ piece ++ rest) s =
    (_ ← cb (mkRtmpMsg h (done ++ piece)); mret (put_stream c' (Csid h) st, rest)) s ∧ idle st.
Proof.
  intros Hh Hts Hagg He Hp Hlen Hsize.
  destruct (read_chunk c h done piece rest) as (fmt & i1 & st1 & i2 & st2 & i3 & st3 &
    E1 & E2 & E3 & E4 & Hw); [done..|].
  assert (0 ≤ MsgLen h < 16777216) by apply Hh.
  set (st' := set_msg (complete_header (Csid h) st3)
    (if reuseBufferFlag c' then bufReset (msg st3) else bufResetAndFree (msg st3))).
  assert (Hidle : idle st').
  { unfold idle, st'. simpl. destruct (reuseBufferFlag c'); [apply bytes_reset|apply bytes_reset_free]. }
  exists st'. split; [|done]. unfold RunLoop_step. rewrite E1, eff_bind_lift, E2, eff_bind_lift,
    E3, eff_bind_lift, E4, eff_bind_lift.
  destruct Hw as ((csid & Hst) & Ha & _ & Hb). unfold bufLen. rewrite Hst, Hb. cbn [MsgLen].
  rewrite u32_small by lia. rewrite (proj2 (Z.eqb_eq _ _)) by lia.
  rewrite (Hsize st3) by (rewrite ?Hst; done). unfold deliver.
  assert (Hc : complete_header (Csid h) st3 = mkStream h (msg st3) false (timestamp st3)).
  { unfold complete_header. rewrite Hst, Ha. simpl. by destruct h. }
  rewrite Hc in *. cbn [header msg]. rewrite (proj2 (Z.eqb_neq (MsgTypeId h) _)) by done.
  unfold toAvMsg. cbn [header msg]. rewrite Hb. unfold mbind, eff_bind, lift, mret, eff_ret.
  destruct (cb _ s) as [s' [u|e|]]; try done. unfold set_msg in *. cbn [header msg absTsFlag timestamp] in *.
  unfold idle in Hidle. change (msg st') with
    (if reuseBufferFlag c' then bufReset (msg st3) else bufResetAndFree (msg st3)) in Hidle.
  rewrite Hidle, Z.gtb_ltb, (proj2 (Z.ltb_ge _ _)); [|change (u32 (len [])) with 0; lia].
  unfold st'. by rewrite Hc.
Qed.

Lemma step_complete c h done piece rest s :
  header_ok h → ts_ok h → ordinary h → expects c h done → piece_ok (peerChunkSize c) h done piece →
  len (done ++ piece) = MsgLen h →
  ∃ st, RunLoop_step cb c (chunk_header h (prev_of h done) ++ piece ++ rest) s =
    (_ ← cb (mkRtmpMsg h (done ++ piece)); mret (put_stream c (Csid h) st, rest)) s ∧ idle st.
Proof.
  intros Hh Hts [Hagg Hsize] He Hp Hlen. apply step_complete_size; try done.
  intros st Ht _. unfold apply_chunk_size. by rewrite Ht, (proj2 (Z.eqb_neq _ _)).
Qed.
End Steps.
End ComposerFacts.

(** ** Interleaved messages *)

(** A message under way: its header, what was sent, the pieces to come. *)
Record job := mkJob { jh : RtmpHeader; jdone : list Z; jpieces : list (list Z) }.

(** Every piece but the last fills a chunk. *)
Fixpoint pieces_fill (n : Z) (ps : list (list Z)) : Prop :=
  match ps with
  | [] => False
  | [p] => 0 < len p ≤ n
  | p :: ps => len p = n ∧ pieces_fill n ps
  end.

Record job_ok (n csid : Z) (j : job) : Prop := {
  job_csid : Csid (jh j) = csid;
  job_header : header_ok (jh j);
  job_ts : ts_ok (jh j);
  job_ordinary : ordinary (jh j);
  job_len : MsgLen (jh j) = len (jdone j) + len (concat (jpieces j));
  job_fill : pieces_fill n (jpieces j);
  job_start : jdone j = [] ∨ n < MsgLen (jh j);
}.

(** The bytes on the wire and the completed messages, in order, when the
    chunks of the queued jobs are sent in the order [sched] of their chunk
    streams. *)
Fixpoint mix (js : gmap Z (list job)) (sched : list Z) : option (list Z * list RtmpMsg) :=
  match sched with
  | [] => Some ([], [])
  | csid :: sched =>
      match js !! csid with
      | Some (j :: q) =>
          match jpieces j with
          | [] => None
          | p :: ps =>
              let bytes := chunk_header (jh j) (prev_of (jh j) (jdone j)) ++ p in
              match ps with
              | [] =>
                  '(wire, msgs) ← mix (<[csid := q]> js) sched;
                  Some (bytes ++ wire, mkRtmpMsg (jh j) (jdone j ++ p) :: msgs)
              | _ =>
                  '(wire, msgs) ← mix (<[csid := mkJob (jh j) (jdone j ++ p) ps :: q]> js) sched;
                  Some (bytes ++ wire, msgs)
              end
          end
      | _ => None
      end
  end.

(** The callbacks of a list of messages. *)
Fixpoint deliver_all {S} (cb : RtmpMsg → eff S unit) (msgs : list RtmpMsg) : eff S unit :=
  match msgs with
  | [] => mret tt
  | m :: msgs => _ ← cb m; deliver_all cb msgs
  end.

Section Interleaving.
Context {B : Bele} {HB : BeleLaws B} {NB : NazaBuffer} {HNB : NazaBufferLaws NB}.

(** The composer expects the head of every queue. *)
Definition ready (c : ChunkComposer) (js : gmap Z (list job)) : Prop :=
  ∀ csid q, js !! csid = Some q →
    match q with
    | [] => idle (getOrCreateStream c csid)
    | j :: q => job_ok (peerChunkSize c) csid j ∧ expects c (jh j) (jdone j) ∧
        Forall (λ j, job_ok (peerChunkSize c) csid j ∧ jdone j = []) q
    end.

Lemma pieces_fill_head n p ps :
  pieces_fill n (p :: ps) → 0 < n → 0 < len p ∧ len p = Z.min (len (concat (p :: ps))) n ∧
  (ps ≠ [] → len p = n ∧ pieces_fill n ps).
Proof.
  intros H Hn. simpl concat. destruct ps as [|p' ps].
  - simpl in *. rewrite app_nil_r. split; [lia|]. split; [lia|done].
  - destruct H as [H1 H2]. split; [lia|]. split; [|done]. rewrite length_app. lia.
Qed.

Lemma get_put c csid st csid' :
  getOrCreateStream (put_stream c csid st) csid' =
  if decide (csid = csid') then st else getOrCreateStream c csid'.
Proof.
  unfold getOrCreateStream, put_stream. cbn [csid2stream]. case_decide as E.
  - subst. by rewrite lookup_insert_eq.
  - by rewrite lookup_insert_ne.
Qed.

Lemma ready_put c js csid st q :
  ready c js →
  match q with
  | [] => idle st
  | j :: q => job_ok (peerChunkSize c) csid j ∧
      match jdone j with [] => idle st | _ => within (jh j) (jdone j) st end ∧
      Forall (λ j, job_ok (peerChunkSize c) csid j ∧ jdone j = []) q
  end →
  ready (put_stream c csid st) (<[csid := q]> js).
Proof.
  intros Hr Hq csid' q' Hl. destruct (decide (csid = csid')) as [<-|Hne].
  - rewrite lookup_insert_eq in Hl. injection Hl as <-. destruct q as [|j q].
    + rewrite get_put. by rewrite decide_True.
    + destruct Hq as (H1 & H2 & H3). split; [done|]. split; [|done].
      unfold expects. rewrite (job_csid _ _ _ H1), get_put, decide_True by done. done.
  - rewrite lookup_insert_ne in Hl by done. specialize (Hr _ _ Hl). destruct q' as [|j q'].
    + rewrite get_put. by rewrite decide_False.
    + destruct Hr as (H1 & H2 & H3). split; [done|]. split; [|done].
      unfold expects in *. rewrite (job_csid _ _ _ H1) in *. by rewrite get_put, decide_False.
Qed.

Context {S : Type}.
Variable cb : RtmpMsg → eff S unit.

Lemma RunLoop_mix sched js c wire msgs fuel rest s :
  0 < peerChunkSize c → ready c js → mix js sched = Some (wire, msgs) →
  ∃ c', RunLoop cb (length sched + fuel) c (wire ++ rest) s =
    (_ ← deliver_all cb msgs; RunLoop cb fuel c' rest) s.
Proof.
  revert js c wire msgs s. induction sched as [|csid sched IH]; intros js c wire msgs s Hp Hr Hm.
  { injection Hm as <- <-. by exists c. }
  cbn [mix] in Hm. destruct (js !! csid) as [[|j q]|] eqn:Hj; try done.
  pose proof (Hr _ _ Hj) as (Hok & He & Hq).
  destruct (jpieces j) as [|p ps] eqn:Ep; [done|].
  pose proof (job_fill _ _ _ Hok) as Hfill. rewrite Ep in Hfill.
  destruct (pieces_fill_head _ _ _ Hfill Hp) as (P1 & P2 & P3).
  pose proof (job_len _ _ _ Hok) as Hlen. rewrite Ep in Hlen.
  assert (Hpiece : piece_ok (peerChunkSize c) (jh j) (jdone j) p).
  { split; [rewrite P2, Hlen; f_equal; lia|]. split; [done|]. apply Hok. }
  destruct ps as [|p' ps].
  - destruct (mix (<[csid:=q]> js) sched) as [[wire' msgs']|] eqn:Em; [|done].
    injection Hm as <- <-. rewrite <- !app_assoc. cbn [RunLoop length Nat.add].
    destruct (step_complete cb c (jh j) (jdone j) p (wire' ++ rest) s) as (st & E & Hidle);
      try apply Hok; try done.
    { rewrite Hlen. simpl concat. rewrite app_nil_r. len_lia. }
    pose proof (job_csid _ _ _ Hok) as Hcs.
    assert (Hr' : ready (put_stream c csid st) (<[csid := q]> js)).
    { apply ready_put; [done|]. destruct q as [|j' q]; [done|].
      apply List.Forall_cons_iff in Hq as [[Hq1 Hq2] Hq]. split; [done|]. rewrite Hq2. done. }
    rewrite Hcs in E. unfold mbind at 1, eff_bind at 1. rewrite E.
    cbn [deliver_all]. unfold mbind, eff_bind.
    destruct (cb (mkRtmpMsg (jh j) (jdone j ++ p)) s) as [s' [u|e|]];
      [|by exists c|by exists c].
    cbn [mret eff_ret]. destruct (IH _ (put_stream c csid st) _ _ s' Hp Hr' Em) as (c' & E').
    exists c'. exact E'.
  - destruct (P3 ltac:(done)) as [Hpn Hfill'].
    destruct (mix _ sched) as [[wire' msgs']|] eqn:Em; [|done].
    injection Hm as <- <-. rewrite <- !app_assoc. cbn [RunLoop length Nat.add].
    assert (Hpos : 0 < len (concat (p' :: ps))).
    { simpl concat. destruct ps; simpl in Hfill'; rewrite length_app; lia. }
    assert (Hcat : len (concat (p :: p' :: ps)) = len p + len (concat (p' :: ps)))
      by (change (concat (p :: p' :: ps)) with (p ++ concat (p' :: ps)); len_lia).
    destruct (step_partial cb c (jh j) (jdone j) p (wire' ++ rest) s) as (st & E & Hw);
      try apply Hok; try done.
    { rewrite Hlen, Hcat. len_lia. }
    rewrite (job_csid _ _ _ Hok) in E. rewrite (eff_bind_Ret _ _ _ _ _ E).
    refine (IH _ (put_stream c csid st) _ _ s Hp _ Em).
    apply ready_put; [done|]. cbn [jdone jh]. split; [|split; [|done]].
    + destruct Hok. split; cbn [jh jdone jpieces]; try done.
      * rewrite Hlen, Hcat. len_lia.
      * right. rewrite Hlen, Hcat. lia.
    + destruct (jdone j ++ p) eqn:Ed; [|done]. apply (f_equal length) in Ed.
      rewrite length_app in Ed. simpl in Ed. lia.
Qed.
End Interleaving.

(** ** The loop on arbitrary bytes *)

Section Arbitrary.
Context {B : Bele} {HB : BeleLaws B} {NB : NazaBuffer} {HNB : NazaBufferLaws NB}.

Definition stream_ok (st : Stream) : Prop :=
  is_bytes (bufBytes (msg st)) ∧ 0 ≤ MsgLen (header st) < 16777216 ∧ bufLen (msg st) < 16777216.
Definition composer_ok (c : ChunkComposer) : Prop :=
  is_u32 (peerChunkSize c) ∧ ∀ csid, stream_ok (getOrCreateStream c csid).

(** An ending that is neither a panic nor a lack of fuel. *)
Definition proper_error {A} (m : outcome A) : Prop := ∃ e, m = Fail e ∧ e ≠ OutOfFuel.

Lemma read_cases n input :
  is_bytes input → 0 ≤ n →
  proper_error (read n input) ∨
  ∃ a b, read n input = Ret (a, b) ∧ input = a ++ b ∧ len a = n ∧ is_bytes a ∧ is_bytes b.
Proof.
  intros Hi Hn. unfold read. destruct (Z.leb_spec n (len input)).
  - right. do 2 eexists. split; [done|]. split; [by rewrite take_drop|].
    split; [rewrite length_take; lia|]. split; [by apply is_bytes_take|by apply is_bytes_drop].
  - left. destruct input; by eexists.
Qed.

Lemma proper_bind {A C} (m : outcome A) (f : A → outcome C) :
  proper_error m → proper_error (m ≫= f).
Proof. intros (e & -> & He). by exists e. Qed.

Lemma index_byte b i : is_bytes b → 0 ≤ i < len b → ∃ x, go_index b i = Ret x ∧ is_u8 x.
Proof.
  intros Hb Hi. destruct (go_index_range b i Hi) as (x & E & _). exists x. split; [done|].
  by eapply go_index_bytes.
Qed.

Lemma read_basic_cases input :
  is_bytes input → proper_error (read_basic input) ∨
  ∃ fmt csid rest, read_basic input = Ret (fmt, csid, rest) ∧ is_bytes rest ∧
    (length rest < length input)%nat.
Proof.
  intros Hi. unfold read_basic.
  destruct (read_cases 1 input Hi) as [H|(a & b & -> & -> & Ha & Hab & Hbb)]; [lia|left; by apply proper_bind|].
  rewrite bind_Ret. destruct (index_byte a 0 Hab) as (x & -> & Hx); [lia|]. rewrite bind_Ret.
  cbv zeta. destruct (_ =? 0).
  { destruct (read_cases 1 b Hbb) as [H|(a' & b' & -> & -> & Ha' & Hab' & Hbb')]; [lia|left; by apply proper_bind|].
    rewrite bind_Ret. destruct (index_byte a' 0 Hab') as (y & -> & Hy); [lia|]. rewrite bind_Ret.
    right. do 3 eexists. split; [done|]. split; [done|]. rewrite !length_app. lia. }
  destruct (_ =? 1).
  { destruct (read_cases 2 b Hbb) as [H|(a' & b' & -> & -> & Ha' & Hab' & Hbb')]; [lia|left; by apply proper_bind|].
    rewrite bind_Ret. destruct (index_byte a' 0 Hab') as (y & -> & Hy); [lia|]. rewrite bind_Ret.
    destruct (index_byte a' 1 Hab') as (z & -> & Hz); [lia|]. rewrite bind_Ret.
    right. do 3 eexists. split; [done|]. split; [done|]. rewrite !length_app. lia. }
  right. do 3 eexists. split; [done|]. split; [done|]. rewrite !length_app. lia.
Qed.

Definition good_result (input : list Z) (m : outcome (Stream * list Z)) : Prop :=
  proper_error m ∨ ∃ st rest, m = Ret (st, rest) ∧ stream_ok st ∧ is_bytes rest ∧
    (length rest ≤ length input)%nat.

Lemma slice_u24 b i : is_bytes b → 0 ≤ i → i + 3 ≤ len b →
  ∃ v, (s ← go_from b i; BeUint24 s) = Ret v ∧ is_u24 v.
Proof.
  intros Hb Hi Hl. rewrite go_from_Ret, bind_Ret by lia.
  apply BeUint24_Ret; [by apply is_bytes_drop|rewrite length_drop; lia].
Qed.

Lemma read_message_header_cases fmt st input :
  is_bytes input → stream_ok st → good_result input (read_message_header fmt st input).
Proof.
  intros Hi (Hb & Hl & Hbl). unfold read_message_header, good_result.
  destruct (fmt =? 0); [|destruct (fmt =? 1); [|destruct (fmt =? 2)]].
  - destruct (read_cases 11 input Hi) as [H|(a & b & -> & -> & Ha & Hab & Hbb)]; [lia|left; by apply proper_bind|].
    rewrite bind_Ret. destruct (BeUint24_Ret a Hab) as (ts & -> & Hts); [lia|]. rewrite bind_Ret.
    rewrite (go_from_Ret a 3), bind_Ret by lia.
    destruct (BeUint24_Ret (drop (Z.to_nat 3) a)) as (l & -> & Hl'); [by apply is_bytes_drop|rewrite length_drop; lia|].
    rewrite bind_Ret. destruct (index_byte a 6 Hab) as (t & -> & _); [lia|]. rewrite bind_Ret.
    rewrite (go_from_Ret a 7), bind_Ret by lia.
    assert (Hd : len (drop (Z.to_nat 7) a) = 4) by (rewrite length_drop; lia).
    assert (Hdb : is_bytes (drop (Z.to_nat 7) a)) by by apply is_bytes_drop.
    pose proof (LeUint32_reads (drop (Z.to_nat 7) a) [] ltac:(lia) Hdb) as E.
    rewrite app_nil_r in E. rewrite E, bind_Ret. right. do 2 eexists. split; [done|].
    split; [split; [|split; [done|]]; unfold bufLen; simpl; by rewrite bytes_grow|]. split; [done|]. rewrite length_app. lia.
  - destruct (read_cases 7 input Hi) as [H|(a & b & -> & -> & Ha & Hab & Hbb)]; [lia|left; by apply proper_bind|].
    rewrite bind_Ret. destruct (BeUint24_Ret a Hab) as (ts & -> & Hts); [lia|]. rewrite bind_Ret.
    rewrite (go_from_Ret a 3), bind_Ret by lia.
    destruct (BeUint24_Ret (drop (Z.to_nat 3) a)) as (l & -> & Hl'); [by apply is_bytes_drop|rewrite length_drop; lia|].
    rewrite bind_Ret. destruct (index_byte a 6 Hab) as (t & -> & _); [lia|]. rewrite bind_Ret.
    right. do 2 eexists. split; [done|].
    split; [split; [|split; [done|]]; unfold bufLen; simpl; by rewrite bytes_grow|]. split; [done|]. rewrite length_app. lia.
  - destruct (read_cases 3 input Hi) as [H|(a & b & -> & -> & Ha & Hab & Hbb)]; [lia|left; by apply proper_bind|].
    rewrite bind_Ret. destruct (BeUint24_Ret a Hab) as (ts & -> & Hts); [lia|]. rewrite bind_Ret.
    right. do 2 eexists. split; [done|]. split; [done|]. split; [done|]. rewrite length_app. lia.
  - right. do 2 eexists. split; [done|]. done.
Qed.

Lemma read_ext_cases fmt st input :
  is_bytes input → stream_ok st → good_result input (read_ext fmt st input).
Proof.
  intros Hi (Hb & Hl & Hbl). unfold read_ext, good_result. destruct (_ >=? _).
  - destruct (read_cases 4 input Hi) as [H|(a & b & -> & -> & Ha & Hab & Hbb)]; [lia|left; by apply proper_bind|].
    rewrite bind_Ret. destruct (BeUint32_Ret a Hab) as (v & -> & Hv); [lia|]. rewrite bind_Ret.
    right. do 2 eexists. split; [done|]. split; [|split; [done|rewrite length_app; lia]].
    split; [done|]. split; [|done]. cbn [header]. destruct (fmt =? 0); [done|]. by destruct (_ || _).
  - right. do 2 eexists. done.
Qed.

(** After the payload the buffer may be larger than any message. *)
Definition stream_full (st : Stream) : Prop :=
  is_bytes (bufBytes (msg st)) ∧ 0 ≤ MsgLen (header st) < 16777216 ∧ bufLen (msg st) < 4294967296.

Lemma read_payload_cases peer st input :
  is_bytes input → stream_ok st → 0 ≤ peer → len input < 4278190080 →
  proper_error (read_payload peer st input) ∨
  ∃ st' rest, read_payload peer st input = Ret (st', rest) ∧ stream_full st' ∧ is_bytes rest ∧
    (length rest ≤ length input)%nat.
Proof.
  intros Hi (Hb & Hl & Hbl) Hp Hil. unfold read_payload.
  assert (Hn : 0 ≤ needed_size peer st).
  { unfold needed_size. destruct (_ <=? _); [lia|]. destruct (_ >? _); [lia|]. apply u32_range. }
  destruct (read_cases (needed_size peer st) input Hi Hn) as [H|(a & b & -> & -> & Ha & Hab & Hbb)];
    [left; by apply proper_bind|].
  rewrite bind_Ret. right. do 2 eexists. split; [done|].
  split; [|split; [done|rewrite length_app; lia]]. unfold stream_full, bufLen in *. simpl.
  rewrite bytes_flush by done. rewrite length_app in *.
  split; [by apply is_bytes_app|]. split; [done|lia].
Qed.

Context {S : Type}.
Variable cb : RtmpMsg → eff S unit.

(** A callback that returns, with or without an error. *)
Definition cb_ok : Prop := ∀ m s, (∃ s' u, cb m s = (s', Ret u)) ∨ proper_error (snd (cb m s)).
Hypothesis Hcb : cb_ok.

(** A run that ends with a proper error, or returns a value with [P]. *)
Definition runs {A} (P : A → Prop) (r : S * outcome A) : Prop :=
  proper_error (snd r) ∨ ∃ s' a, r = (s', Ret a) ∧ P a.

Lemma runs_bind {A C} (m : eff S A) (f : A → eff S C) P Q s :
  runs P (m s) → (∀ a s', P a → runs Q (f a s')) → runs Q ((m ≫= f) s).
Proof.
  unfold mbind, eff_bind. intros [H|(s' & a & E & Ha)] Hf.
  - left. destruct (m s) as [s' [a|e|]]; destruct H as (e' & He & Hne); simpl in He; try discriminate.
    injection He as ->. exists e'. done.
  - rewrite E. by apply Hf.
Qed.

Lemma runs_lift_Ret {A} (P : A → Prop) a (s : S) : P a → runs P (lift (Ret a) s).
Proof. intros H. right. by exists s, a. Qed.

Lemma runs_fail {A} (P : A → Prop) e (s : S) : e ≠ OutOfFuel → runs P (lift (Fail e) s).
Proof. intros H. left. by exists e. Qed.

Lemma runs_good input m (s : S) :
  good_result input m →
  runs (λ '(st, rest), stream_ok st ∧ is_bytes rest ∧ (length rest ≤ length input)%nat) (lift m s).
Proof.
  intros [H|(st & rest & -> & H)]; [by left|]. right. by exists s, (st, rest).
Qed.

Lemma runs_cb m s : runs (λ _, True) (cb m s).
Proof. destruct (Hcb m s) as [(s' & u & E)|H]; [right; by exists s', u|by left]. Qed.

Lemma u32_ge x n : 0 ≤ x → n ≤ u32 x → n ≤ x.
Proof. unfold u32. intros. pose proof (Z.mod_le x 4294967296). lia. Qed.

Lemma skip_bytes n b : 0 ≤ n ≤ bufLen b → is_bytes (bufBytes b) →
  is_bytes (bufBytes (bufSkip n b)) ∧ bufLen (bufSkip n b) = bufLen b - n.
Proof.
  intros Hn Hb. unfold bufLen in *. rewrite bytes_skip by done.
  split; [by apply is_bytes_drop|]. rewrite length_drop. lia.
Qed.

Lemma aggregate_loop_runs fuel st base s :
  stream_full st → (length (bufBytes (msg st)) < fuel)%nat →
  runs (λ st', stream_full st') (aggregate_loop cb fuel st base s).
Proof.
  revert st base s. induction fuel as [|fuel IH]; intros st base s (Hb & Hl & Hlen) Hf; [lia|].
  assert (Hu : ∀ x, 0 ≤ bufLen x ≤ bufLen (msg st) → u32 (bufLen x) = bufLen x)
    by (intros; apply u32_small; lia).
  cbn [aggregate_loop]. rewrite Hu by (unfold bufLen; lia).
  destruct (_ =? 0); [by apply runs_lift_Ret|].
  destruct (Z.ltb_spec (bufLen (msg st)) 11); [by apply runs_fail|].
  destruct (index_byte (bufBytes (msg st)) 0 Hb) as (typ & -> & _); [unfold bufLen in *; lia|].
  rewrite eff_bind_lift. cbv zeta.
  destruct (skip_bytes 1 (msg st)) as [Hb1 Hl1]; [lia|done|]. set (b1 := bufSkip 1 _) in *.
  destruct (BeUint24_Ret (bufBytes b1) Hb1) as (ml & -> & Hml); [unfold bufLen in *; lia|].
  rewrite eff_bind_lift.
  destruct (skip_bytes 3 b1) as [Hb2 Hl2]; [lia|done|]. set (b2 := bufSkip 3 b1) in *.
  destruct (BeUint24_Ret (bufBytes b2) Hb2) as (ts & -> & _); [unfold bufLen in *; lia|].
  rewrite eff_bind_lift.
  destruct (skip_bytes 3 b2) as [Hb3 Hl3]; [lia|done|]. set (b3 := bufSkip 3 b2) in *.
  destruct (index_byte (bufBytes b3) 0 Hb3) as (x & -> & _); [unfold bufLen in *; lia|].
  rewrite eff_bind_lift.
  destruct (skip_bytes 1 b3) as [Hb4 Hl4]; [lia|done|]. set (b4 := bufSkip 1 b3) in *.
  destruct (BeUint24_Ret (bufBytes b4) Hb4) as (sid & -> & _); [unfold bufLen in *; lia|].
  rewrite eff_bind_lift.
  destruct (skip_bytes 3 b4) as [Hb5 Hl5]; [lia|done|]. set (b5 := bufSkip 3 b4) in *.
  rewrite (Hu b5) by lia. destruct (Z.ltb_spec (bufLen b5) ml); [by apply runs_fail|].
  rewrite go_slice_Ret by (unfold bufLen in *; lia). rewrite eff_bind_lift.
  eapply runs_bind; [apply runs_cb|]. intros _ s' _. cbv beta.
  destruct (skip_bytes ml b5) as [Hb6 Hl6]; [lia|done|]. set (b6 := bufSkip ml b5) in *.
  rewrite (Hu b6) by lia. destruct (Z.ltb_spec (bufLen b6) 4); [by apply runs_fail|].
  destruct (skip_bytes 4 b6) as [Hb7 Hl7]; [lia|done|].
  apply IH; [|unfold set_msg; cbn [msg]; unfold bufLen in *; lia].
  split; [done|]. split; [done|]. unfold set_msg. cbn [msg]. lia.
Qed.

Lemma deliver_runs c st s :
  stream_full st → runs (λ st', stream_full st') (deliver cb c st s).
Proof.
  intros (Hb & Hl & Hbl). unfold deliver. destruct (_ =? _).
  - apply aggregate_loop_runs; [done|lia].
  - eapply runs_bind; [apply runs_cb|]. intros _ s' _. right. do 2 eexists. split; [done|].
    unfold stream_full, set_msg, bufLen. cbn [msg header].
    destruct (reuseBufferFlag c); rewrite ?bytes_reset, ?bytes_reset_free; (split; [constructor|]; split; [done|simpl; lia]).
Qed.

Lemma RunLoop_step_runs c input s :
  is_bytes input → composer_ok c → len input < 4278190080 →
  runs (λ '(c', rest), composer_ok c' ∧ is_bytes rest ∧ (length rest < length input)%nat)
    (RunLoop_step cb c input s).
Proof.
  intros Hi [Hp Hc] Hil. unfold RunLoop_step.
  destruct (read_basic_cases input Hi) as [H|(fmt & csid & i1 & -> & Hi1 & Hl1)].
  { destruct H as (e & -> & He). left. by exists e. }
  rewrite eff_bind_lift. cbv zeta.
  destruct (read_message_header_cases fmt (getOrCreateStream c csid) i1 Hi1 (Hc csid))
    as [H|(st1 & i2 & -> & Hst1 & Hi2 & Hl2)].
  { destruct H as (e & -> & He). left. by exists e. }
  rewrite eff_bind_lift.
  destruct (read_ext_cases fmt st1 i2 Hi2 Hst1) as [H|(st2 & i3 & -> & Hst2 & Hi3 & Hl3)].
  { destruct H as (e & -> & He). left. by exists e. }
  rewrite eff_bind_lift.
  destruct (read_payload_cases (peerChunkSize c) st2 i3 Hi3 Hst2) as [H|(st3 & i4 & -> & Hst3 & Hi4 & Hl4)];
    [lia|lia| |].
  { destruct H as (e & -> & He). left. by exists e. }
  rewrite eff_bind_lift.
  eapply (runs_bind _ _ (λ '(c', st'), stream_full st' ∧ is_u32 (peerChunkSize c') ∧
    csid2stream c' = csid2stream c)).
  - destruct Hst3 as (Hb3 & Hm3 & Hbl3). destruct (_ =? _); [|right; do 2 eexists; by split].
    assert (Hcs : ∃ c', apply_chunk_size c st3 = Ret c' ∧ is_u32 (peerChunkSize c') ∧
              csid2stream c' = csid2stream c).
    { unfold apply_chunk_size. destruct (_ =? _); [|by exists c]. rewrite Z.geb_leb.
      destruct (Z.leb_spec 4 (len (bufBytes (msg st3)))); [|by exists c].
      destruct (BeUint32_Ret (bufBytes (msg st3)) Hb3) as (v & -> & Hv); [lia|].
      eexists. split; [done|]. done. }
    destruct Hcs as (c' & -> & Hc'1 & Hc'2). rewrite eff_bind_lift.
    eapply runs_bind; [by apply deliver_runs|]. intros st' s' Hst'. right. do 2 eexists. split; [done|].
    done.
  - intros [c' st'] s' (Hst' & Hc'1 & Hc'2). cbv beta iota. rewrite Z.gtb_ltb.
    destruct (Z.ltb_spec (MsgLen (header st')) (u32 (bufLen (msg st')))); [by apply runs_fail|].
    right. do 2 eexists. split; [done|]. destruct Hst' as (Hb' & Hm' & Hbl').
    rewrite u32_small in * by (unfold bufLen in *; lia).
    split; [|split; [done|lia]]. split; [done|]. intros csid'. rewrite get_put. case_decide.
    + split; [done|]. split; [done|lia].
    + specialize (Hc csid'). unfold getOrCreateStream in *. by rewrite Hc'2.
Qed.

Lemma RunLoop_ends fuel c input s :
  is_bytes input → composer_ok c → len input < 4278190080 → (length input < fuel)%nat →
  proper_error (snd (RunLoop cb fuel c input s)).
Proof.
  revert c input s. induction fuel as [|fuel IH]; intros c input s Hi Hc Hl Hf; [lia|].
  cbn [RunLoop].
  assert (H : runs (λ _, False) ((RunLoop_step cb c input ≫= λ '(c, input), RunLoop cb fuel c input) s)).
  { eapply runs_bind; [by apply RunLoop_step_runs|]. intros [c' rest] s' (Hc' & Hr & Hlr).
    left. apply IH; [done|done|lia|lia]. }
  destruct H as [H|(s' & a & _ & [])]. done.
Qed.
End Arbitrary.

(** ** One message *)

Section OneMessage.
Context {B : Bele} {HB : BeleLaws B} {NB : NazaBuffer} {HNB : NazaBufferLaws NB}.

(** Sending the pieces of one job in a row gives its chunks. *)
Lemma mix_one h dn ps csid js :
  js !! csid = Some [mkJob h dn ps] → ps ≠ [] → Forall (λ p, p ≠ []) ps →
  mix js (replicate (length ps) csid) =
    Some (chunks_wire h (prev_of h dn) ps, [mkRtmpMsg h (dn ++ concat ps)]).
Proof.
  revert dn js. induction ps as [|p ps IH]; intros dn js Hj Hne Hall; [done|].
  apply List.Forall_cons_iff in Hall as [Hp Hall].
  cbn [length replicate mix]. rewrite Hj. cbn [jpieces jh jdone]. destruct ps as [|p' ps].
  - cbn [mix replicate length concat app chunks_wire]. simpl. rewrite !app_nil_r. done.
  - rewrite (IH (dn ++ p)); [|by rewrite lookup_insert_eq|done|done].
    simpl. rewrite <- !app_assoc. destruct (dn ++ p) eqn:E; [|done].
    apply app_nil in E as [_ ->]. done.
Qed.

Lemma pieces_props k n l : 0 < n → (Z.of_nat k - 1) * n < len l ≤ Z.of_nat k * n → (k ≠ 0)%nat →
  pieces_fill n (pieces k n l) ∧ pieces k n l ≠ [] ∧ Forall (λ p, p ≠ []) (pieces k n l) ∧
  length (pieces k n l) = k.
Proof.
  intros Hn. revert l. induction k as [|[|k] IH]; intros l Hl Hk; [done| |].
  - simpl. split; [lia|]. split; [done|]. split; [|done]. constructor; [|constructor].
    intros ->. simpl in Hl. lia.
  - destruct (IH (drop (Z.to_nat n) l)) as (H1 & H2 & H3 & H4); [rewrite length_drop; lia|done|].
    change (pieces (S (S k)) n l) with (take (Z.to_nat n) l :: pieces (S k) n (drop (Z.to_nat n) l)).
    set (ps := pieces (S k) n _) in *. clearbody ps. destruct ps as [|p ps]; [done|].
    assert (Ht : len (take (Z.to_nat n) l) = n) by (rewrite length_take; lia).
    split; [by split|]. split; [done|]. split; [|simpl in *; lia]. constructor; [|done].
    intros E. rewrite E in Ht. simpl in Ht. lia.
Qed.

Lemma chunk_count_bounds n l : 0 < n → 0 < l →
  (chunk_count n l ≠ 0)%nat ∧ (Z.of_nat (chunk_count n l) - 1) * n < l ≤ Z.of_nat (chunk_count n l) * n.
Proof.
  intros Hn Hl. unfold chunk_count.
  assert (1 ≤ (l + n - 1) / n) by (apply Z.div_le_lower_bound; lia).
  pose proof (Z.div_mod (l + n - 1) n ltac:(lia)). pose proof (Z.mod_pos_bound (l + n - 1) n Hn).
  split; [lia|]. rewrite Z2Nat.id by lia. nia.
Qed.
End OneMessage.

Section Pieces.
Context {B : Bele} {HB : BeleLaws B} {NB : NazaBuffer} {HNB : NazaBufferLaws NB}.

(** The chunks of one message in a row: the message is delivered, its stream is
    idle again and nothing else of the composer changed. *)
Record delivered (c c' : ChunkComposer) (csid : Z) : Prop := {
  delivered_size : peerChunkSize c' = peerChunkSize c;
  delivered_idle : idle (getOrCreateStream c' csid);
  delivered_other : ∀ csid', csid' ≠ csid → getOrCreateStream c' csid' = getOrCreateStream c csid';
}.

Context {S : Type}.
Variable cb : RtmpMsg → eff S unit.

Lemma RunLoop_pieces ps : ∀ c h done rest fuel s,
  header_ok h → ts_ok h → ordinary h → 0 < peerChunkSize c → expects c h done →
  pieces_fill (peerChunkSize c) ps → MsgLen h = len done + len (concat ps) →
  (done = [] ∨ peerChunkSize c < MsgLen h) →
  ∃ c', delivered c c' (Csid h) ∧
    RunLoop cb (length ps + fuel) c (chunks_wire h (prev_of h done) ps ++ rest) s =
    (_ ← cb (mkRtmpMsg h (done ++ concat ps)); RunLoop cb fuel c' rest) s.
Proof.
  induction ps as [|p ps IH]; intros c h dn rest fuel s Hh Hts Hord Hn He Hf Hlen Hs; [done|].
  destruct (pieces_fill_head _ _ _ Hf Hn) as (P1 & P2 & P3).
  assert (Hpiece : piece_ok (peerChunkSize c) h dn p).
  { split; [rewrite P2, Hlen; f_equal; lia|done]. }
  cbn [chunks_wire length Nat.add RunLoop]. rewrite <- !app_assoc. destruct ps as [|p' ps].
  - destruct (step_complete cb c h dn p (chunks_wire h (Some h) [] ++ rest) s) as (st & E & Hi); try done.
    { rewrite Hlen. simpl concat. rewrite app_nil_r. len_lia. }
    exists (put_stream c (Csid h) st). split.
    { split; [done|by rewrite get_put, decide_True|]. intros. by rewrite get_put, decide_False. }
    unfold mbind, eff_bind in E |- *. rewrite E. cbn [concat]. rewrite app_nil_r.
    by destruct (cb _ s) as [s' [u|e|]].
  - destruct (P3 ltac:(done)) as [Hpn Hf'].
    assert (Hpos : 0 < len (concat (p' :: ps))).
    { simpl concat. destruct ps; simpl in Hf'; rewrite length_app; lia. }
    assert (Hcat : len (concat (p :: p' :: ps)) = len p + len (concat (p' :: ps)))
      by (change (concat (p :: p' :: ps)) with (p ++ concat (p' :: ps)); len_lia).
    destruct (step_partial cb c h dn p (chunks_wire h (Some h) (p' :: ps) ++ rest) s) as (st & E & Hw); try done.
    { rewrite Hlen, Hcat. len_lia. }
    rewrite (eff_bind_Ret _ _ _ _ _ E).
    assert (Hd : prev_of h (dn ++ p) = Some h ∧ dn ++ p ≠ []).
    { destruct p as [|x p]; [simpl in P1; lia|]. by destruct dn. }
    destruct Hd as [Hd Hne].
    destruct (IH (put_stream c (Csid h) st) h (dn ++ p) rest fuel s) as (c' & [D1 D2 D3] & E'); try done.
    + unfold expects. rewrite get_put, decide_True by done. by destruct (dn ++ p).
    + rewrite Hlen, Hcat. len_lia.
    + right. change (peerChunkSize (put_stream c (Csid h) st)) with (peerChunkSize c). rewrite Hlen, Hcat. lia.
    + exists c'. split.
      { split; [done|done|]. intros csid' Hc. rewrite D3 by done. by rewrite get_put, decide_False. }
      rewrite Hd in E'. change (concat (p :: p' :: ps)) with (p ++ concat (p' :: ps)).
      rewrite (app_assoc dn p). exact E'.
Qed.
End Pieces.

(** A whole message, divided and read back. *)
Lemma compose_wire {B : Bele} (HB : BeleLaws B) {NB : NazaBuffer} (HNB : NazaBufferLaws NB)
    {S} (cb : RtmpMsg → eff S unit) message h n c rest fuel s :
  header_ok h → ts_ok h → ordinary h → MsgLen h = len message → message ≠ [] → 0 < n →
  peerChunkSize c = n → idle (getOrCreateStream c (Csid h)) →
  ∃ c', delivered c c' (Csid h) ∧
    RunLoop cb (chunk_count n (len message) + fuel) c
      (chunks_wire h None (pieces (chunk_count n (len message)) n message) ++ rest) s =
    (_ ← cb (mkRtmpMsg h message); RunLoop cb fuel c' rest) s.
Proof.
  intros Hh Hts Hord Hlen Hne Hn Hc Hidle.
  assert (Hl : 0 < len message) by (destruct message; [done|simpl; lia]).
  destruct (chunk_count_bounds n (len message) Hn Hl) as [Hk Hb].
  set (k := chunk_count n (len message)) in *.
  destruct (pieces_props k n message Hn Hb Hk) as (P1 & P2 & P3 & P4).
  pose proof (concat_pieces k n message Hk) as Hcat. subst n.
  destruct (RunLoop_pieces cb (pieces k (peerChunkSize c) message) c h [] rest fuel s) as (c' & D & E);
    try done; [rewrite Hcat; simpl; lia|by left|].
  exists c'. split; [done|]. rewrite P4, Hcat in E. exact E.
Qed.

(** A "set chunk size" message in one chunk changes the chunk size. *)
Lemma compose_chunk_size {B : Bele} (HB : BeleLaws B) {NB : NazaBuffer} (HNB : NazaBufferLaws NB)
    {S} (cb : RtmpMsg → eff S unit) h v c rest fuel s :
  header_ok h → ts_ok h → MsgTypeId h = RtmpTypeIdSetChunkSize → MsgLen h = 4 → is_u32 v →
  4 ≤ peerChunkSize c → idle (getOrCreateStream c (Csid h)) →
  ∃ c', delivered (SetPeerChunkSize c v) c' (Csid h) ∧
    RunLoop cb (1 + fuel) c (chunks_wire h None [be_bytes 4 v] ++ rest) s =
    (_ ← cb (mkRtmpMsg h (be_bytes 4 v)); RunLoop cb fuel c' rest) s.
Proof.
  intros Hh Hts Ht Hl Hv Hc Hidle.
  assert (Hb : len (be_bytes 4 v) = 4) by (by rewrite be_bytes_length).
  destruct (step_complete_size cb c (SetPeerChunkSize c v) h [] (be_bytes 4 v) rest s) as (st & E & Hi); try done.
  - by rewrite Ht.
  - split; [rewrite Hl, Hb; simpl; lia|]. split; [lia|by left].
  - intros st Hst Hbytes. unfold apply_chunk_size. rewrite Hst, Ht, Z.eqb_refl, Hbytes. cbv zeta.
    rewrite app_nil_l. rewrite Hb. cbn [Z.geb Z.compare Pos.compare Pos.compare_cont]. rewrite <- (app_nil_r (be_bytes 4 v)).
    by rewrite BeUint32_be, bind_Ret.
  - exists (put_stream (SetPeerChunkSize c v) (Csid h) st). split.
    { split; [done|by rewrite get_put, decide_True|]. intros. by rewrite get_put, decide_False. }
    cbn [chunks_wire Nat.add RunLoop]. rewrite <- !app_assoc. rewrite app_nil_l.
    rewrite app_nil_l in E. change (prev_of h []) with (@None RtmpHeader) in E.
    unfold mbind, eff_bind in E |- *. rewrite E. by destruct (cb _ s) as [s' [u|e|]].
Qed.

(** Messages one after the other, on a connection where none is under way. *)
Definition msg_ok (m : RtmpMsg) : Prop :=
  header_ok (msgHeader m) ∧ ts_ok (msgHeader m) ∧ ordinary (msgHeader m) ∧
  MsgLen (msgHeader m) = len (msgPayload m) ∧ msgPayload m ≠ [].
Definition msg_turns (n : Z) (m : RtmpMsg) : nat := chunk_count n (len (msgPayload m)).
Definition msg_wire (n : Z) (m : RtmpMsg) : list Z :=
  chunks_wire (msgHeader m) None (pieces (msg_turns n m) n (msgPayload m)).

Section Messages.
Context {B : Bele} {HB : BeleLaws B} {NB : NazaBuffer} {HNB : NazaBufferLaws NB}.

Definition quiet (c : ChunkComposer) : Prop := ∀ csid, idle (getOrCreateStream c csid).

Lemma quiet_new : quiet NewChunkComposer.
Proof. intros csid. unfold idle, getOrCreateStream. cbn. rewrite lookup_empty. apply bytes_new. Qed.

Lemma quiet_delivered c c' csid : quiet c → delivered c c' csid → quiet c'.
Proof.
  intros Hq [_ Hi Ho] csid'. destruct (decide (csid' = csid)) as [->|Hne]; [done|]. by rewrite Ho.
Qed.

Lemma RunLoop_msgs {S} (cb : RtmpMsg → eff S unit) n msgs : ∀ c rest fuel s,
  0 < n → Forall msg_ok msgs → peerChunkSize c = n → quiet c →
  ∃ c', peerChunkSize c' = n ∧ quiet c' ∧
    RunLoop cb (sum_list (map (msg_turns n) msgs) + fuel) c (concat (map (msg_wire n) msgs) ++ rest) s =
    (_ ← deliver_all cb msgs; RunLoop cb fuel c' rest) s.
Proof.
  induction msgs as [|m msgs IH]; intros c rest fuel s Hn Hms Hc Hq; [by exists c|].
  apply List.Forall_cons_iff in Hms as [(Hh & Hts & Ho & Hl & Hne) Hms].
  cbn [map concat sum_list deliver_all]. rewrite <- app_assoc, <- Nat.add_assoc.
  destruct (compose_wire HB HNB cb (msgPayload m) (msgHeader m) n c (concat (map (msg_wire n) msgs) ++ rest)
    (sum_list (map (msg_turns n) msgs) + fuel) s) as (c1 & D & E); try done.
  pose proof (quiet_delivered _ _ _ Hq D) as Hq1. pose proof (delivered_size _ _ _ D) as Hc1.
  destruct m as [h payload]. cbn [msgHeader msgPayload] in *.
  change (sum_list_with id (map (msg_turns n) msgs)) with (sum_list (map (msg_turns n) msgs)).
  destruct (IH c1 rest fuel (cb (mkRtmpMsg h payload) s).1) as (c' & Hc' & Hq' & E'); try congruence; try done.
  exists c'. split; [done|]. split; [done|]. etransitivity; [exact E|].
  unfold mbind, eff_bind in E' |- *. destruct (cb _ s) as [s' [u|e|]]; [exact E'|done|done].
Qed.
End Messages.

(** ** Properties *)

(** C3: a message divided with chunk size [n] and read by a composer with the
    same chunk size and no message under way on its chunk stream is delivered
    exactly once, with its header and its payload; then the loop goes on with
    what follows.  The message has a payload of the length in its header, its
    header fits the wire, it is neither an aggregate nor a Set Chunk Size message
    (which the composer takes apart or obeys), and its timestamp is not 0xFFFFFF,
    on which the two sides disagree ([rtmp_ts_max_lost]). *)
Theorem rtmp_chunk_roundtrip {B : Bele} (HB : BeleLaws B) {NB : NazaBuffer} (HNB : NazaBufferLaws NB)
    message h n :
  header_ok h → ts_ok h → ordinary h → MsgLen h = len message → message ≠ [] → 0 < n →
  ∃ wire, message2Chunks message h None n = Ret wire ∧
    ∀ S (cb : RtmpMsg → eff S unit) c rest fuel s,
      peerChunkSize c = n → idle (getOrCreateStream c (Csid h)) →
      ∃ c', RunLoop cb (chunk_count n (len message) + fuel) c (wire ++ rest) s =
        (_ ← cb (mkRtmpMsg h message); RunLoop cb fuel c' rest) s.
Proof.
  intros Hh Hts Hord Hlen Hne Hn. eexists. split; [by apply message2Chunks_spec|].
  intros S cb c rest fuel s Hc Hidle.
  destruct (compose_wire HB HNB cb message h n c rest fuel s) as (c' & _ & E); try done. by exists c'.
Qed.

(** C4: chunks of several messages on several chunk streams may be interleaved
    in any order: the composer delivers exactly the queued messages, each
    complete, in the order in which their last chunks arrive.  The messages are
    those of [rtmp_chunk_roundtrip]: not empty, with headers that fit the wire,
    no aggregate or Set Chunk Size message and no timestamp 0xFFFFFF; those
    already under way are where the composer expects them. *)
Theorem rtmp_chunk_interleaving {B : Bele} (HB : BeleLaws B) {NB : NazaBuffer}
    (HNB : NazaBufferLaws NB) {S} (cb : RtmpMsg → eff S unit) sched js c wire msgs fuel rest s :
  0 < peerChunkSize c → ready c js → mix js sched = Some (wire, msgs) →
  ∃ c', RunLoop cb (length sched + fuel) c (wire ++ rest) s =
    (_ ← deliver_all cb msgs; RunLoop cb fuel c' rest) s.
Proof. apply RunLoop_mix. Qed.

(** C38: on arbitrary bytes (fewer than 255 * 2^24), with a callback that returns or fails but does not
    panic, the loop ends with an error (end of stream, a malformed aggregate or
    an oversized message, or the callback's own): it never panics and always
    terminates, within one turn per byte. *)
Theorem rtmp_runloop_ends {B : Bele} (HB : BeleLaws B) {NB : NazaBuffer} (HNB : NazaBufferLaws NB)
    {S} (cb : RtmpMsg → eff S unit) input s :
  cb_ok cb → is_bytes input → len input < 4278190080 →
  ∃ s' e, RunLoop cb (Datatypes.S (length input)) NewChunkComposer input s = (s', Fail e) ∧
    e ≠ OutOfFuel.
Proof.
  intros Hcb Hi Hl. destruct (RunLoop_ends cb Hcb (Datatypes.S (length input)) NewChunkComposer input s)
    as (e & He & Hne); [done| |done|lia|].
  - split; [done|]. intros csid. unfold getOrCreateStream, NewChunkComposer. cbn [csid2stream].
    rewrite lookup_empty. unfold stream_ok, bufLen. simpl. rewrite bytes_new. split; [constructor|].
    simpl. lia.
  - destruct (RunLoop _ _ _ _ _) as [s' r]. simpl in He. subst r. by exists s', e.
Qed.

(** A message with timestamp 0xFFFFFF (and up to one chunk long) is lost:
    the divider writes no extended timestamp for it, the composer expects one
    and takes the first four payload bytes, so the message is not complete when
    its bytes end. *)
Theorem rtmp_ts_max_lost {B : Bele} (HB : BeleLaws B) {NB : NazaBuffer} (HNB : NazaBufferLaws NB)
    {S} (cb : RtmpMsg → eff S unit) message h n c s :
  header_ok h → TimestampAbs h = maxTimestampInMessageHeader → MsgLen h = len message →
  4 ≤ len message ≤ n → is_bytes message →
  peerChunkSize c = n → idle (getOrCreateStream c (Csid h)) →
  ∃ wire e, message2Chunks message h None n = Ret wire ∧
    RunLoop_step cb c wire s = (s, Fail e) ∧ (e = EOF ∨ e = UnexpectedEOF).
Proof.
  intros Hh Hts Hlen Hl Hb Hc Hidle. exists (chunks_wire h None (pieces (chunk_count n (len message)) n message)).
  exists (match drop 4 message with [] => EOF | _ => UnexpectedEOF end). split; [apply message2Chunks_spec; [done|lia]|].
  assert (Hk : chunk_count n (len message) = 1%nat).
  { unfold chunk_count. replace ((len message + n - 1) / n) with 1; [done|].
    apply (Z.div_unique _ _ _ (len message - 1)); lia. }
  rewrite Hk. cbn [pieces chunks_wire]. rewrite app_nil_r, chunk_header_first, <- !app_assoc.
  unfold RunLoop_step. rewrite read_basic_spec by (try lia; apply Hh). rewrite eff_bind_lift.
  destruct Hh as (_ & Hlr & Hty & Hsid & _).
  unfold read_message_header, header_bytes. cbn [Z.leb Z.compare Z.eqb].
  rewrite Hts. change (ext_bytes maxTimestampInMessageHeader) with (@nil Z).
  change (Z.min maxTimestampInMessageHeader maxTimestampInMessageHeader) with 16777215.
  rewrite app_nil_l, read_app, bind_Ret by done.
  rewrite BeUint24_be, bind_Ret by done. rewrite <- !app_assoc. go_read.
  rewrite <- ?app_assoc, BeUint24_be, bind_Ret by done. go_read. go_read.
  rewrite <- (app_nil_r (le_bytes 4 _)), LeUint32_le, bind_Ret by done.
  rewrite eff_bind_lift. unfold read_ext. cbn [timestamp].
  change (16777215 >=? maxTimestampInMessageHeader) with true. cbv iota.
  destruct message as [|m0 [|m1 [|m2 [|m3 rest]]]]; try (simpl in Hl; lia).
  assert (E : read 4 (m0 :: m1 :: m2 :: m3 :: rest) = Ret ([m0; m1; m2; m3], rest))
    by (by apply (read_app 4 [m0; m1; m2; m3] rest)).
  rewrite E, bind_Ret.
  assert (Hb4 : is_bytes [m0; m1; m2; m3]) by (apply (is_bytes_take 4) in Hb; exact Hb).
  destruct (BeUint32_Ret [m0; m1; m2; m3] Hb4) as (v & -> & _); [simpl; lia|].
  rewrite bind_Ret, eff_bind_lift. unfold read_payload, needed_size, set_ts. cbn [header MsgLen Z.eqb].
  rewrite (proj2 (Z.leb_le _ _)) by lia.
  unfold read. rewrite (proj2 (Z.leb_gt _ _)) by (rewrite Hlen; simpl; lia).
  destruct rest; (split; [done|]); [by left|by right].
Qed.

(** ** Witnesses *)

(** A callback that records what it is given. *)
Definition record_msg : RtmpMsg → eff (list RtmpMsg) unit := λ m s, (s ++ [m], Ret tt).

Definition demo_h (csid ts len : Z) : RtmpHeader := mkRtmpHeader csid len 9 1 ts.

Lemma demo_h_ok csid ts len :
  csid_ok csid → is_u32 ts → is_u24 len → header_ok (demo_h csid ts len).
Proof. intros. repeat split; simpl; unfold csid_ok in *; lia. Qed.

Lemma rtmp_chunk_roundtrip_witness :
  ∃ wire, @message2Chunks bele_impl [23; 1; 0; 0; 0; 7] (demo_h 7 16777300 6) None 4 = Ret wire ∧
    ∀ S (cb : RtmpMsg → eff S unit) c rest fuel s,
      @peerChunkSize buffer_impl c = 4 → @idle buffer_impl (@getOrCreateStream buffer_impl c 7) →
      ∃ c', @RunLoop bele_impl buffer_impl S cb (chunk_count 4 6 + fuel) c (wire ++ rest) s =
        (_ ← cb (mkRtmpMsg (demo_h 7 16777300 6) [23; 1; 0; 0; 0; 7]);
         @RunLoop bele_impl buffer_impl S cb fuel c' rest) s.
Proof.
  apply (rtmp_chunk_roundtrip bele_impl_laws buffer_impl_laws [23; 1; 0; 0; 0; 7] (demo_h 7 16777300 6) 4);
    try discriminate; try reflexivity.
  - apply demo_h_ok; unfold csid_ok; lia.
  - split; discriminate.
Defined.

Definition demo_jobs : gmap Z (list job) :=
  <[6 := [mkJob (mkRtmpHeader 6 3 8 1 40) [] [[175; 1]; [2]]]]>
  {[7 := [mkJob (mkRtmpHeader 7 3 9 1 41) [] [[23; 1]; [5]]]]}.

Definition demo_composer : @ChunkComposer buffer_impl :=
  @SetPeerChunkSize buffer_impl (@NewChunkComposer buffer_impl) 2.

Lemma demo_jobs_ready : @ready buffer_impl demo_composer demo_jobs.
Proof.
  intros csid q Hq. unfold demo_jobs in Hq.
  apply lookup_insert_Some in Hq as [[<- <-]|[_ Hq]];
    [|apply lookup_singleton_Some in Hq as [<- <-]].
  - split; [|split; [reflexivity|constructor]].
    split; try reflexivity; try (split; discriminate); try discriminate; try (by left);
      repeat split; simpl; lia.
  - split; [|split; [reflexivity|constructor]].
    split; try reflexivity; try (split; discriminate); try discriminate; try (by left);
      repeat split; simpl; lia.
Qed.

Definition demo_mix : list Z * list RtmpMsg :=
  match mix demo_jobs [6; 7; 7; 6] with Some r => r | None => ([], []) end.

Lemma rtmp_chunk_interleaving_witness :
  (snd demo_mix = [mkRtmpMsg (mkRtmpHeader 7 3 9 1 41) [23; 1; 5];
                   mkRtmpMsg (mkRtmpHeader 6 3 8 1 40) [175; 1; 2]]) ∧
  ∃ c', @RunLoop bele_impl buffer_impl _ record_msg (4 + 0) demo_composer (fst demo_mix ++ []) [] =
    (_ ← deliver_all record_msg (snd demo_mix);
     @RunLoop bele_impl buffer_impl _ record_msg 0 c' []) [].
Proof.
  split; [vm_compute; reflexivity|].
  apply (rtmp_chunk_interleaving bele_impl_laws buffer_impl_laws record_msg [6; 7; 7; 6] demo_jobs);
    [reflexivity | exact demo_jobs_ready | vm_compute; reflexivity].
Defined.

Lemma rtmp_runloop_ends_witness :
  ∃ s' e, @RunLoop bele_impl buffer_impl _ record_msg 6 (@NewChunkComposer buffer_impl) [7; 1; 2; 3; 255] [] =
    (s', Fail e) ∧ e ≠ OutOfFuel.
Proof.
  apply (rtmp_runloop_ends bele_impl_laws buffer_impl_laws record_msg [7; 1; 2; 3; 255] []).
  - intros m s. left. by do 2 eexists.
  - repeat constructor; lia.
  - reflexivity.
Defined.

Lemma rtmp_ts_max_lost_witness :
  ∃ wire e, @message2Chunks bele_impl [23; 1; 0; 0; 0; 7] (demo_h 7 16777215 6) None 128 = Ret wire ∧
    @RunLoop_step bele_impl buffer_impl _ record_msg (@NewChunkComposer buffer_impl) wire [] = ([], Fail e) ∧
    (e = EOF ∨ e = UnexpectedEOF).
Proof.
  apply (rtmp_ts_max_lost bele_impl_laws buffer_impl_laws record_msg [23; 1; 0; 0; 0; 7]
    (demo_h 7 16777215 6) 128); try reflexivity; try (simpl; lia).
  - apply demo_h_ok; unfold csid_ok; lia.
  - repeat constructor; lia.
Defined.
