(* ===== verification/GopCache.v ===== *)
(** * The GOP caches (src/pkg/remux/gop_cache.go, gop_cache_mpegts.go)

    A ring of [gopNum + 1] groups of pictures, one slot always free.  The ring
    is shared by both caches; [Feed] of [GopCache] also keeps the sequence
    headers.  The ring refines a queue of at most [gopNum] groups. *)

From S2P Require Import Prelude RtmpMsg.

(** A frame is an opaque block of bytes; a [Gop] is its [data]. *)
Abbreviation gop := (list (list Z)).

Definition gop_Feed (g : gop) (b : list Z) : gop := g ++ [b].
Definition gop_Clear (g : gop) : gop := [].
Definition gop_len (g : gop) : Z := len g.

(** The ring part of both caches. *)
Record GopRing := mkRing {
  gopRing : list gop;
  gopRingFirst : Z;
  gopRingLast : Z;
  gopSize : Z;
  singleGopMaxFrameNum : Z;
}.

(** [make([]Gop, n)] of a negative length panics. *)
Definition NewRing (gopNum maxFrames : Z) : outcome GopRing :=
  if gopNum + 1 <? 0 then Panic
  else Ret (mkRing (replicate (Z.to_nat (gopNum + 1)) []) 0 0 (gopNum + 1) maxFrames).

(** Go's [%] panics on a zero divisor. *)
Definition go_mod (a b : Z) : outcome Z := if b =? 0 then Panic else Ret (Z.rem a b).

Definition GetGopCount (gc : GopRing) : outcome Z :=
  go_mod (gopRingLast gc + gopSize gc - gopRingFirst gc) (gopSize gc).

(** [None] is nil. *)
Definition GetGopDataAt (gc : GopRing) (pos : Z) : outcome (option gop) :=
  n ← GetGopCount gc;
  if (pos >=? n) || (pos <? 0) then Ret None
  else
    i ← go_mod (pos + gopRingFirst gc) (gopSize gc);
    g ← go_index (gopRing gc) i;
    Ret (Some g).

Definition ring_Clear (gc : GopRing) : GopRing :=
  mkRing (gopRing gc) 0 0 (gopSize gc) (singleGopMaxFrameNum gc).

Definition isGopRingFull (gc : GopRing) : outcome bool :=
  n ← go_mod (gopRingLast gc + 1) (gopSize gc); Ret (n =? gopRingFirst gc).

Definition isGopRingEmpty (gc : GopRing) : bool := gopRingFirst gc =? gopRingLast gc.

(** The flag tells whether the frame was kept (or there was nothing to keep it
    in). *)
Definition feedLastGop (gc : GopRing) (b : list Z) : outcome (bool * GopRing) :=
  if negb (isGopRingEmpty gc) then
    gopPos ← go_mod (gopRingLast gc - 1 + gopSize gc) (gopSize gc);
    g ← go_index (gopRing gc) gopPos;
    if (gop_len g <=? singleGopMaxFrameNum gc) || (singleGopMaxFrameNum gc =? 0) then
      ring ← go_set (gopRing gc) gopPos (gop_Feed g b);
      Ret (true, mkRing ring (gopRingFirst gc) (gopRingLast gc) (gopSize gc) (singleGopMaxFrameNum gc))
    else Ret (false, gc)
  else Ret (true, gc).

Definition feedNewGop (gc : GopRing) (b : list Z) : outcome GopRing :=
  full ← isGopRingFull gc;
  first ← (if full : bool then go_mod (gopRingFirst gc + 1) (gopSize gc) else Ret (gopRingFirst gc));
  g ← go_index (gopRing gc) (gopRingLast gc);
  ring ← go_set (gopRing gc) (gopRingLast gc) (gop_Feed (gop_Clear g) b);
  lst ← go_mod (gopRingLast gc + 1) (gopSize gc);
  Ret (mkRing ring first lst (gopSize gc) (singleGopMaxFrameNum gc)).

(** ** The MPEG-TS cache *)

Definition mpegts_Feed (gc : GopRing) (b : list Z) (boundary : bool) : outcome GopRing :=
  if gopSize gc >? 1 then
    if boundary then feedNewGop gc b
    else '(_, gc) ← feedLastGop gc b; Ret gc
  else Ret gc.

(** ** The RTMP / FLV cache; [None] is nil *)

Record GopCache := mkCache {
  MetadataEnsureWithSetDataFrame : option (list Z);
  MetadataEnsureWithoutSetDataFrame : option (list Z);
  VideoSeqHeader : option (list Z);
  AacSeqHeader : option (list Z);
  ring : GopRing;
}.

Definition NewGopCache (gopNum maxFrames : Z) : outcome GopCache :=
  r ← NewRing gopNum maxFrames; Ret (mkCache None None None None r).

Definition SetMetadata (gc : GopCache) (w wo : list Z) : GopCache :=
  mkCache (Some w) (Some wo) (VideoSeqHeader gc) (AacSeqHeader gc) (ring gc).

Definition set_ring (gc : GopCache) (r : GopRing) : GopCache :=
  mkCache (MetadataEnsureWithSetDataFrame gc) (MetadataEnsureWithoutSetDataFrame gc)
    (VideoSeqHeader gc) (AacSeqHeader gc) r.

(** The tail of [Feed], after the header cases. *)
Definition feed_gop (gc : GopCache) (msg : RtmpMsg) (b : list Z) : outcome (bool * GopCache) :=
  if gopSize (ring gc) >? 1 then
    key ← IsVideoKeyNalu msg;
    if key : bool then r ← feedNewGop (ring gc) b; Ret (true, set_ring gc r)
    else '(kept, r) ← feedLastGop (ring gc) b; Ret (kept, set_ring gc r)
  else Ret (true, gc).

Definition Feed (gc : GopCache) (msg : RtmpMsg) (b : list Z) : outcome (bool * GopCache) :=
  let t := MsgTypeId (msgHeader msg) in
  if t =? RtmpTypeIdMetadata then Ret (true, gc)
  else if t =? RtmpTypeIdAudio then
    aac ← IsAacSeqHeader msg;
    if aac : bool then
      Ret (true, mkCache (MetadataEnsureWithSetDataFrame gc) (MetadataEnsureWithoutSetDataFrame gc)
                   (VideoSeqHeader gc) (Some b) (ring gc))
    else feed_gop gc msg b
  else if t =? RtmpTypeIdVideo then
    seqh ← IsVideoKeySeqHeader msg;
    if seqh : bool then
      Ret (true, mkCache (MetadataEnsureWithSetDataFrame gc) (MetadataEnsureWithoutSetDataFrame gc)
                   (Some b) (AacSeqHeader gc) (ring gc))
    else feed_gop gc msg b
  else feed_gop gc msg b.

Definition Clear (gc : GopCache) : GopCache :=
  mkCache None None None None (ring_Clear (ring gc)).

(** ** Specification: a queue of groups *)

(** A new group; the oldest goes when [n] are kept already. *)
Definition spec_new (n : Z) (q : list gop) (b : list Z) : list gop :=
  (if len q =? n then tail q else q) ++ [[b]].

(** A frame for the last group, if there is one and it has room. *)
Definition spec_last (maxFrames : Z) (q : list gop) (b : list Z) : bool * list gop :=
  match last q with
  | None => (true, q)
  | Some g =>
      if (len g <=? maxFrames) || (maxFrames =? 0)
      then (true, take (pred (length q)) q ++ [g ++ [b]]) else (false, q)
  end.

(** ** The ring refines the queue *)

Record ring_ok (gc : GopRing) : Prop := {
  ring_length : len (gopRing gc) = gopSize gc;
  ring_size : 0 < gopSize gc;
  ring_first : 0 ≤ gopRingFirst gc < gopSize gc;
  ring_last : 0 ≤ gopRingLast gc < gopSize gc;
}.

Definition count (gc : GopRing) : Z :=
  (gopRingLast gc + gopSize gc - gopRingFirst gc) mod gopSize gc.

(** Group [i] of the queue. *)
Definition slot (gc : GopRing) (i : Z) : Z := (i + gopRingFirst gc) mod gopSize gc.

(** The ring holds the queue [q]. *)
Definition holds (gc : GopRing) (q : list gop) : Prop :=
  len q = count gc ∧
  ∀ i g, q !! i = Some g → gopRing gc !! Z.to_nat (slot gc (Z.of_nat i)) = Some g.

Lemma wrap_mod a s : 0 < s → 0 ≤ a < 2 * s → a mod s = if a <? s then a else a - s.
Proof.
  intros Hs Ha. destruct (Z.ltb_spec a s).
  - apply Z.mod_small. lia.
  - symmetry. apply (Z.mod_unique _ _ 1); lia.
Qed.

Lemma go_mod_Ret a s : 0 < s → 0 ≤ a → go_mod a s = Ret (a mod s).
Proof.
  intros Hs Ha. unfold go_mod. rewrite (proj2 (Z.eqb_neq s 0)) by lia.
  by rewrite Z.rem_mod_nonneg by lia.
Qed.

Lemma count_range gc : ring_ok gc → 0 ≤ count gc < gopSize gc.
Proof. intros []. unfold count. apply Z.mod_pos_bound. lia. Qed.

(** A sum modulo the size, as a plain sum. *)
Lemma mod_cases a s : 0 < s → 0 ≤ a < 2 * s →
  a < s ∧ a mod s = a ∨ s ≤ a ∧ a mod s = a - s.
Proof. intros Hs Ha. rewrite wrap_mod by lia. destruct (Z.ltb_spec a s); lia. Qed.

(** Replaces every sum modulo the size by its two cases. *)
Ltac ring_arith :=
  unfold count, slot in *; cbn [gopRing gopRingFirst gopRingLast gopSize singleGopMaxFrameNum] in *;
  repeat match goal with
  | |- context [?a mod ?s] =>
      let H := fresh in pose proof (mod_cases a s ltac:(lia) ltac:(lia)) as H;
      let m := fresh "m" in set (m := a mod s) in *; clearbody m
  | H : context [?a mod ?s] |- _ =>
      let H := fresh in pose proof (mod_cases a s ltac:(lia) ltac:(lia)) as H;
      let m := fresh "m" in set (m := a mod s) in *; clearbody m
  end; try lia.

Lemma slot_range gc i : ring_ok gc → 0 ≤ slot gc i < gopSize gc.
Proof. intros []. unfold slot. apply Z.mod_pos_bound. lia. Qed.

Lemma slot_inj gc i j : ring_ok gc → 0 ≤ i < gopSize gc → 0 ≤ j < gopSize gc →
  slot gc i = slot gc j → i = j.
Proof. intros [] Hi Hj. ring_arith. Qed.

Lemma slot_last gc : ring_ok gc → slot gc (count gc) = gopRingLast gc.
Proof. intros []. ring_arith. Qed.

Lemma feedNewGop_refines gc q b :
  ring_ok gc → holds gc q → 1 < gopSize gc →
  ∃ gc', feedNewGop gc b = Ret gc' ∧ ring_ok gc' ∧ gopSize gc' = gopSize gc ∧
    singleGopMaxFrameNum gc' = singleGopMaxFrameNum gc ∧
    holds gc' (spec_new (gopSize gc - 1) q b).
Proof.
  intros Hok [Hl Hq] Hs. pose proof Hok as [H1 H2 H3 H4]. unfold feedNewGop, isGopRingFull.
  rewrite go_mod_Ret, !bind_Ret by lia.
  assert (Hfull : ((gopRingLast gc + 1) mod gopSize gc =? gopRingFirst gc) = (count gc =? gopSize gc - 1)).
  { apply eq_true_iff_eq. rewrite !Z.eqb_eq. split; intros; ring_arith. }
  rewrite Hfull.
  assert (Hfirst : (if count gc =? gopSize gc - 1 then go_mod (gopRingFirst gc + 1) (gopSize gc)
                    else Ret (gopRingFirst gc)) =
    Ret (if count gc =? gopSize gc - 1 then (gopRingFirst gc + 1) mod gopSize gc else gopRingFirst gc)).
  { destruct (count gc =? gopSize gc - 1); [|done]. by apply go_mod_Ret; lia. }
  rewrite Hfirst, bind_Ret. destruct (go_index_range (gopRing gc) (gopRingLast gc)) as (g & -> & _); [lia|].
  rewrite bind_Ret. unfold gop_Feed, gop_Clear. rewrite go_set_Ret, bind_Ret by lia.
  rewrite bind_Ret. eexists. split; [done|].
  set (first := if count gc =? _ then _ else _).
  assert (Hf : 0 ≤ first < gopSize gc).
  { unfold first. destruct (count gc =? gopSize gc - 1); [apply Z.mod_pos_bound; lia|done]. }
  split; [|split; [done|split; [done|]]].
  { split; cbn; [by rewrite length_insert|done|done|apply Z.mod_pos_bound; lia]. }
  unfold spec_new. rewrite Hl. set (off := if count gc =? gopSize gc - 1 then 1 else 0).
  assert (Hlq : len (if count gc =? gopSize gc - 1 then tail q else q) = count gc - off).
  { unfold off. destruct (Z.eqb_spec (count gc) (gopSize gc - 1)); [|lia].
    destruct q; simpl in *; lia. }
  split.
  - rewrite length_app, Nat2Z.inj_add, Hlq. simpl. unfold off, first.
    pose proof (count_range gc Hok). destruct (Z.eqb_spec (count gc) (gopSize gc - 1)); ring_arith.
  - intros i x Hi. cbn [gopRing]. set (gc' := mkRing _ _ _ _ _).
    assert (Hslot : 0 ≤ Z.of_nat i ≤ count gc - off → slot gc' (Z.of_nat i) = slot gc (Z.of_nat i + off)).
    { intros Hr. unfold gc', off, first in *. pose proof (count_range gc Hok).
      destruct (Z.eqb_spec (count gc) (gopSize gc - 1)); ring_arith. }
    pose proof (count_range gc Hok). assert (0 ≤ off ≤ 1) by (unfold off; destruct (count gc =? gopSize gc - 1); lia).
    apply lookup_app_Some in Hi as [Hi|[Hge Hi]].
    + pose proof (lookup_lt_Some _ _ _ Hi). rewrite Hslot by lia.
      rewrite list_lookup_insert_ne.
      * replace (Z.of_nat i + off) with (Z.of_nat (i + Z.to_nat off)) by lia. apply Hq.
        unfold off in *. destruct (count gc =? gopSize gc - 1); [|by rewrite Nat.add_0_r].
        rewrite lookup_tail in Hi. by rewrite Nat.add_1_r.
      * intros E. rewrite <- (slot_last gc Hok) in E.
        pose proof (slot_range gc (count gc) Hok). pose proof (slot_range gc (Z.of_nat i + off) Hok).
        assert (slot gc (count gc) = slot gc (Z.of_nat i + off)) as E' by lia.
        apply slot_inj in E'; [lia|done|lia|lia].
    + assert (i = Z.to_nat (count gc - off)) as ->.
      { apply list_lookup_singleton_Some in Hi as [Hi _]. lia. }
      apply list_lookup_singleton_Some in Hi as [_ <-]. rewrite Hslot by lia.
      replace (Z.of_nat (Z.to_nat (count gc - off)) + off) with (count gc) by lia.
      rewrite slot_last by done. apply list_lookup_insert_eq. lia.
Qed.

Lemma feedLastGop_refines gc q b :
  ring_ok gc → holds gc q →
  ∃ gc', feedLastGop gc b = Ret (fst (spec_last (singleGopMaxFrameNum gc) q b), gc') ∧ ring_ok gc' ∧
    gopSize gc' = gopSize gc ∧ singleGopMaxFrameNum gc' = singleGopMaxFrameNum gc ∧
    holds gc' (snd (spec_last (singleGopMaxFrameNum gc) q b)).
Proof.
  intros Hok [Hl Hq]. pose proof Hok as [H1 H2 H3 H4]. unfold feedLastGop, spec_last, isGopRingEmpty.
  pose proof (count_range gc Hok) as Hc.
  destruct (last q) as [g|] eqn:Hlast.
  2:{ apply last_None in Hlast as ->. simpl in Hl.
      assert (gopRingFirst gc = gopRingLast gc) as -> by ring_arith.
      rewrite Z.eqb_refl. simpl. exists gc. do 4 (split; [done|]). by split. }
  assert (Hlen : (0 < length q)%nat) by (destruct q; [done|simpl; lia]).
  assert (Hne : gopRingFirst gc ≠ gopRingLast gc) by ring_arith.
  rewrite (proj2 (Z.eqb_neq _ _)) by done. cbn [negb]. rewrite go_mod_Ret, bind_Ret by lia.
  rewrite last_lookup in Hlast.
  assert (Hpos : (gopRingLast gc - 1 + gopSize gc) mod gopSize gc = slot gc (Z.of_nat (pred (length q)))).
  { assert (Z.of_nat (pred (length q)) = count gc - 1) as -> by lia. ring_arith. }
  rewrite Hpos. pose proof (slot_range gc (Z.of_nat (pred (length q))) Hok) as Hs.
  rewrite (go_index_Ret _ _ g), bind_Ret by (try lia; by apply Hq). unfold gop_len.
  destruct (_ || _); [|exists gc; do 4 (split; [done|]); by split].
  rewrite go_set_Ret, bind_Ret by lia. eexists. split; [done|]. unfold gop_Feed.
  split; [split; cbn; [by rewrite length_insert|done..]|]. split; [done|]. split; [done|]. split.
  - cbn [snd]. rewrite length_app, length_take. simpl. rewrite Nat.min_l by lia.
    change (count (mkRing _ _ _ _ _)) with (count gc). lia.
  - cbn [snd]. intros i x Hi. cbn [gopRing].
    change (slot (mkRing _ (gopRingFirst gc) (gopRingLast gc) (gopSize gc) _) (Z.of_nat i)) with (slot gc (Z.of_nat i)).
    apply lookup_app_Some in Hi as [Hi|[Hge Hi]].
    + apply lookup_take_Some in Hi as [Hi Hlt]. rewrite list_lookup_insert_ne; [by apply Hq|].
      intros E. pose proof (slot_range gc (Z.of_nat i) Hok).
      assert (slot gc (Z.of_nat (pred (length q))) = slot gc (Z.of_nat i)) as E' by lia.
      apply slot_inj in E'; [lia|done|lia|lia].
    + rewrite length_take, Nat.min_l in Hge, Hi by lia.
      apply list_lookup_singleton_Some in Hi as [Hi <-].
      assert (i = pred (length q)) as -> by lia. apply list_lookup_insert_eq. lia.
Qed.

(** What [Feed] means for the queue. *)
Definition is_seq_header (msg : RtmpMsg) : bool :=
  let t := MsgTypeId (msgHeader msg) in
  (t =? RtmpTypeIdMetadata) ||
  (t =? RtmpTypeIdAudio) && bool_decide (IsAacSeqHeader msg = Ret true) ||
  (t =? RtmpTypeIdVideo) && bool_decide (IsVideoKeySeqHeader msg = Ret true).

Definition spec_frame (n maxFrames : Z) (msg : RtmpMsg) (q : list gop) (b : list Z) : bool * list gop :=
  if n =? 0 then (true, q)
  else if bool_decide (IsVideoKeyNalu msg = Ret true) then (true, spec_new n q b)
  else spec_last maxFrames q b.

Definition spec_Feed (n maxFrames : Z) (msg : RtmpMsg) (q : list gop) (b : list Z) : bool * list gop :=
  if is_seq_header msg then (true, q) else spec_frame n maxFrames msg q b.

(** The tests return on a message with enough bytes. *)
Definition tests_return (msg : RtmpMsg) : Prop :=
  (∃ r, IsAacSeqHeader msg = Ret r) ∧ (∃ r, IsVideoKeySeqHeader msg = Ret r) ∧
  (∃ r, IsVideoKeyNalu msg = Ret r).

Lemma feed_gop_refines gc q msg b :
  ring_ok (ring gc) → holds (ring gc) q → tests_return msg →
  let r := spec_frame (gopSize (ring gc) - 1) (singleGopMaxFrameNum (ring gc)) msg q b in
  ∃ rg, feed_gop gc msg b = Ret (fst r, set_ring gc rg) ∧ ring_ok rg ∧ holds rg (snd r) ∧
    gopSize rg = gopSize (ring gc) ∧ singleGopMaxFrameNum rg = singleGopMaxFrameNum (ring gc).
Proof.
  intros Hok Hq (_ & _ & (key & Hkey)). unfold feed_gop, spec_frame. rewrite Hkey.
  rewrite Z.gtb_ltb. pose proof (ring_size _ Hok).
  destruct (Z.ltb_spec 1 (gopSize (ring gc))).
  - rewrite (proj2 (Z.eqb_neq _ 0)) by lia. rewrite bind_Ret. destruct key.
    + rewrite bool_decide_true by done.
      destruct (feedNewGop_refines (ring gc) q b) as (rg & -> & H1 & H2 & H3 & H4); [done..|].
      exists rg. done.
    + rewrite bool_decide_false by done.
      destruct (feedLastGop_refines (ring gc) q b Hok Hq) as (rg & -> & H1 & H2 & H3 & H4).
      exists rg. done.
  - rewrite (proj2 (Z.eqb_eq _ 0)) by lia. exists (ring gc). by destruct gc.
Qed.

(** The sequence header a message brings replaces the one kept. *)
Definition store (msg : RtmpMsg) (b : list Z) (gc : GopCache) : GopCache :=
  if is_seq_header msg then
    if MsgTypeId (msgHeader msg) =? RtmpTypeIdVideo then
      mkCache (MetadataEnsureWithSetDataFrame gc) (MetadataEnsureWithoutSetDataFrame gc)
        (Some b) (AacSeqHeader gc) (ring gc)
    else if MsgTypeId (msgHeader msg) =? RtmpTypeIdAudio then
      mkCache (MetadataEnsureWithSetDataFrame gc) (MetadataEnsureWithoutSetDataFrame gc)
        (VideoSeqHeader gc) (Some b) (ring gc)
    else gc
  else gc.

Lemma Feed_refines gc q msg b :
  ring_ok (ring gc) → holds (ring gc) q → tests_return msg →
  let r := spec_Feed (gopSize (ring gc) - 1) (singleGopMaxFrameNum (ring gc)) msg q b in
  ∃ rg, Feed gc msg b = Ret (fst r, set_ring (store msg b gc) rg) ∧ ring_ok rg ∧ holds rg (snd r) ∧
    gopSize rg = gopSize (ring gc) ∧ singleGopMaxFrameNum rg = singleGopMaxFrameNum (ring gc).
Proof.
  intros Hok Hq Ht. pose proof Ht as ((aac & Ha) & (vs & Hv) & _).
  destruct (feed_gop_refines gc q msg b Hok Hq Ht) as (rg & Eg & Hr).
  assert (Hsame : gc = set_ring gc (ring gc)) by by destruct gc.
  unfold Feed, spec_Feed, store, is_seq_header. rewrite Ha, Hv. cbv zeta.
  destruct (Z.eqb_spec (MsgTypeId (msgHeader msg)) RtmpTypeIdMetadata) as [E1|N1].
  { rewrite E1. cbn. exists (ring gc). rewrite <- Hsame. done. }
  destruct (Z.eqb_spec (MsgTypeId (msgHeader msg)) RtmpTypeIdAudio) as [E2|N2].
  { rewrite E2, bind_Ret. cbn [andb orb Z.eqb RtmpTypeIdAudio RtmpTypeIdVideo Pos.eqb].
    destruct aac; [rewrite bool_decide_true by done|rewrite bool_decide_false by done]; cbn [orb].
    - by exists (ring gc).
    - by exists rg. }
  destruct (Z.eqb_spec (MsgTypeId (msgHeader msg)) RtmpTypeIdVideo) as [E3|N3].
  { rewrite bind_Ret. cbn [andb orb].
    destruct vs; [rewrite bool_decide_true by done|rewrite bool_decide_false by done]; cbn [orb].
    - by exists (ring gc).
    - by exists rg. }
  cbn [andb orb]. by exists rg.
Qed.

(** ** Properties *)

(** C17: the cache is a queue of at most [gopNum] groups: feeding a metadata
    message changes nothing; feeding a sequence header stores it and leaves the
    queue alone; a key unit starts a new group, dropping the oldest when the queue
    is full; any other message is appended to the newest group if there is one and
    it has room, and is otherwise not kept.  The message is long enough for the
    tests on its payload to return. *)
Theorem gop_cache_refines_queue gc q msg b :
  ring_ok (ring gc) → holds (ring gc) q → tests_return msg →
  let r := spec_Feed (gopSize (ring gc) - 1) (singleGopMaxFrameNum (ring gc)) msg q b in
  ∃ gc', Feed gc msg b = Ret (fst r, gc') ∧ ring_ok (ring gc') ∧ holds (ring gc') (snd r) ∧
    gopSize (ring gc') = gopSize (ring gc) ∧
    (MsgTypeId (msgHeader msg) = RtmpTypeIdMetadata → gc' = gc) ∧
    (is_seq_header msg = true → MsgTypeId (msgHeader msg) = RtmpTypeIdVideo →
       VideoSeqHeader gc' = Some b ∧ AacSeqHeader gc' = AacSeqHeader gc) ∧
    (is_seq_header msg = true → MsgTypeId (msgHeader msg) = RtmpTypeIdAudio →
       AacSeqHeader gc' = Some b ∧ VideoSeqHeader gc' = VideoSeqHeader gc) ∧
    (is_seq_header msg = false →
       VideoSeqHeader gc' = VideoSeqHeader gc ∧ AacSeqHeader gc' = AacSeqHeader gc).
Proof.
  intros Hok Hq Ht r. destruct (Feed_refines gc q msg b Hok Hq Ht) as (rg & E & Hr1 & Hr2 & Hr3 & _).
  exists (set_ring (store msg b gc) rg). do 4 (split; [done|]).
  split; [intros Hm; unfold Feed in E; rewrite Hm in E; by injection E as _ <-|].
  unfold store. cbn. split; [intros -> ->; done|]. split; [intros -> ->; done|]. by intros ->.
Qed.

Lemma GetGopCount_holds gc q : ring_ok gc → holds gc q → GetGopCount gc = Ret (len q).
Proof.
  intros Hok Hq. pose proof Hok as [H1 H2 H3 H4]. pose proof (count_range gc Hok) as Hc.
  unfold GetGopCount. rewrite go_mod_Ret by lia. by rewrite (proj1 Hq).
Qed.

Lemma GetGopDataAt_holds gc q i :
  ring_ok gc → holds gc q → 0 ≤ i → GetGopDataAt gc i = Ret (q !! Z.to_nat i).
Proof.
  intros Hok Hq Hi. pose proof Hok as [H1 H2 H3 H4].
  unfold GetGopDataAt. rewrite (GetGopCount_holds gc q), bind_Ret, Z.geb_leb by done.
  destruct (Z.leb_spec (len q) i).
  - cbn [orb]. by rewrite lookup_ge_None_2 by lia.
  - rewrite (proj2 (Z.ltb_ge i 0)) by lia. cbn [orb].
    destruct (lookup_lt_is_Some_2 q (Z.to_nat i)) as [g Hg]; [lia|]. rewrite Hg.
    rewrite go_mod_Ret, bind_Ret by lia. pose proof (proj2 Hq _ _ Hg) as Hs. rewrite Z2Nat.id in Hs by lia.
    pose proof (slot_range gc i Hok). fold (slot gc i).
    by rewrite (go_index_Ret _ _ g), bind_Ret by (done || lia).
Qed.

Lemma ring_Clear_holds gc : ring_ok gc → ring_ok (ring_Clear gc) ∧ holds (ring_Clear gc) [].
Proof.
  intros [H1 H2 H3 H4]. split; [split; cbn; try done; lia|]. split; [|done].
  unfold count, ring_Clear. cbn. by rewrite Z.sub_0_r, Z_mod_same_full.
Qed.

(** Reading the cache gives the queue: the count is its length, group [i]
    is its [i]-th element, and there is none out of range; a fresh cache is
    the empty queue, and so is a cleared one. *)
Theorem gop_cache_read gc q i :
  ring_ok gc → holds gc q → 0 ≤ i →
  GetGopCount gc = Ret (len q) ∧ GetGopDataAt gc i = Ret (q !! Z.to_nat i) ∧
  GetGopDataAt gc (-1) = Ret None ∧ len q < gopSize gc ∧
  ring_ok (ring_Clear gc) ∧ holds (ring_Clear gc) [].
Proof.
  intros Hok Hq Hi. pose proof (count_range gc Hok) as Hc. destruct (ring_Clear_holds gc Hok).
  split; [by apply GetGopCount_holds|]. split; [by apply GetGopDataAt_holds|].
  split; [|split; [rewrite (proj1 Hq); lia|done]].
  unfold GetGopDataAt. rewrite (GetGopCount_holds gc q), bind_Ret by done. cbn. by rewrite orb_true_r.
Qed.

(** The MPEG-TS cache behaves as the same queue; a group never holds more
    than [singleGopMaxFrameNum + 1] frames (when that number is positive), one
    more than the name says: the test allows a group that already holds the
    maximum to grow. *)
Theorem gop_cache_mpegts_bound gc q b boundary :
  ring_ok gc → holds gc q → 1 < gopSize gc → 0 < singleGopMaxFrameNum gc →
  Forall (λ g, len g ≤ singleGopMaxFrameNum gc + 1) q →
  ∃ gc' q', mpegts_Feed gc b boundary = Ret gc' ∧ ring_ok gc' ∧ holds gc' q' ∧
    q' = (if boundary then spec_new (gopSize gc - 1) q b
          else snd (spec_last (singleGopMaxFrameNum gc) q b)) ∧
    Forall (λ g, len g ≤ singleGopMaxFrameNum gc + 1) q' ∧
    (∀ g, last q = Some g → boundary = false → len g = singleGopMaxFrameNum gc →
       last q' = Some (g ++ [b])).
Proof.
  intros Hok Hq Hs Hmx Hall. unfold mpegts_Feed. rewrite Z.gtb_ltb, (proj2 (Z.ltb_lt 1 _)) by done.
  destruct boundary.
  - destruct (feedNewGop_refines gc q b) as (gc' & -> & H1 & H2 & H3 & H4); [done..|].
    do 2 eexists. split; [done|]. split; [done|]. split; [exact H4|]. split; [done|]. split; [|done].
    unfold spec_new. apply Forall_app. split; [|constructor; [simpl; lia|constructor]].
    destruct (_ =? _); [|done]. by apply Forall_tail.
  - destruct (feedLastGop_refines gc q b Hok Hq) as (gc' & -> & H1 & H2 & H3 & H4).
    rewrite bind_Ret. do 2 eexists. split; [done|]. split; [done|]. split; [exact H4|]. split; [done|].
    unfold spec_last. destruct (last q) as [g|] eqn:Hlast; [|split; [done|]; intros ? [=]].
    split.
    + destruct (_ || _) eqn:Hroom; [|done]. cbn [snd]. apply Forall_app.
      split; [by apply Forall_take|]. constructor; [|constructor]. rewrite length_app. simpl.
      apply orb_true_iff in Hroom as [Hroom|Hroom]; lia.
    + intros ? [= <-] _ Hg. rewrite (proj2 (Z.leb_le _ _)) by lia. simpl. by rewrite last_snoc.
Qed.

(** ** Witnesses *)

Definition demo_ring : GopRing := mkRing [[[7]]; [[1]; [2]]; []] 1 2 3 2.

Lemma demo_ring_ok : ring_ok demo_ring.
Proof. split; simpl; lia. Qed.
Lemma demo_ring_holds : holds demo_ring [[[1]; [2]]].
Proof.
  split; [reflexivity|]. intros [|i] g H; [injection H as <-; reflexivity|].
  simpl in H. by rewrite lookup_nil in H.
Qed.

Definition demo_cache : GopCache := mkCache None None None None demo_ring.
Definition demo_key : RtmpMsg := mkRtmpMsg (mkRtmpHeader 7 5 9 1 0) [23; 1; 0; 0; 0].

Lemma gop_cache_refines_queue_witness :
  let r := spec_Feed (gopSize (ring demo_cache) - 1) (singleGopMaxFrameNum (ring demo_cache))
             demo_key [[[1]; [2]]] [9] in
  r = (true, [[[1]; [2]]; [[9]]]) ∧
  ∃ gc', Feed demo_cache demo_key [9] = Ret (fst r, gc') ∧ ring_ok (ring gc') ∧
    holds (ring gc') (snd r) ∧ gopSize (ring gc') = gopSize (ring demo_cache) ∧
    (MsgTypeId (msgHeader demo_key) = RtmpTypeIdMetadata → gc' = demo_cache) ∧
    (is_seq_header demo_key = true → MsgTypeId (msgHeader demo_key) = RtmpTypeIdVideo →
       VideoSeqHeader gc' = Some [9] ∧ AacSeqHeader gc' = AacSeqHeader demo_cache) ∧
    (is_seq_header demo_key = true → MsgTypeId (msgHeader demo_key) = RtmpTypeIdAudio →
       AacSeqHeader gc' = Some [9] ∧ VideoSeqHeader gc' = VideoSeqHeader demo_cache) ∧
    (is_seq_header demo_key = false →
       VideoSeqHeader gc' = VideoSeqHeader demo_cache ∧ AacSeqHeader gc' = AacSeqHeader demo_cache).
Proof.
  split; [vm_compute; reflexivity|].
  apply (gop_cache_refines_queue demo_cache [[[1]; [2]]] demo_key [9]);
    [exact demo_ring_ok | exact demo_ring_holds |].
  split; [|split]; eexists; vm_compute; reflexivity.
Defined.

Lemma gop_cache_read_witness :
  GetGopCount demo_ring = Ret 1 ∧ GetGopDataAt demo_ring 0 = Ret (Some [[1]; [2]]) ∧
  GetGopDataAt demo_ring (-1) = Ret None ∧ 1 < gopSize demo_ring ∧
  ring_ok (ring_Clear demo_ring) ∧ holds (ring_Clear demo_ring) [].
Proof. apply (gop_cache_read demo_ring [[[1]; [2]]] 0 demo_ring_ok demo_ring_holds). lia. Defined.

Lemma gop_cache_mpegts_bound_witness :
  ∃ gc' q', mpegts_Feed demo_ring [3] false = Ret gc' ∧ ring_ok gc' ∧ holds gc' q' ∧
    q' = snd (spec_last 2 [[[1]; [2]]] [3]) ∧
    Forall (λ g, len g ≤ 2 + 1) q' ∧
    (∀ g, last [[[1]; [2]]] = Some g → false = false → len g = 2 → last q' = Some (g ++ [[3]])).
Proof.
  apply (gop_cache_mpegts_bound demo_ring [[[1]; [2]]] [3] false demo_ring_ok demo_ring_holds);
    [reflexivity | reflexivity |]. repeat constructor. simpl. lia.
Defined.
