(* ===== verification/FlvTag.v ===== *)
(** * FLV tags (src/pkg/httpflv/tag.go, flv_file_pump.go)

    A tag is its parsed header and its serialized form [Raw]: an 11 byte
    header, the body, and the 4 byte size of the tag.  [PumpWithTags] replays
    the tags of a file, once or for ever, with rewritten timestamps. *)

From S2P Require Import Prelude Naza.

Definition TagHeaderSize : Z := 11.
Definition PrevTagSizeFieldSize : Z := 4.
Definition flvHeaderSize : Z := 13.

Definition TagTypeMetadata : Z := 18.
Definition TagTypeVideo : Z := 9.
Definition TagTypeAudio : Z := 8.

Definition frameTypeKey : Z := 1.
Definition codecIdAvc : Z := 7.
Definition codecIdHevc : Z := 12.
Definition AvcKeyFrame : Z := Z.lor (Z.shiftl frameTypeKey 4) codecIdAvc.
Definition HevcKeyFrame : Z := Z.lor (Z.shiftl frameTypeKey 4) codecIdHevc.
Definition AvcPacketTypeSeqHeader : Z := 0.
Definition AvcPacketTypeNalu : Z := 1.
Definition HevcPacketTypeSeqHeader : Z := 0.
Definition HevcPacketTypeNalu : Z := 1.
Definition AacPacketTypeSeqHeader : Z := 0.
Definition SoundFormatAac : Z := 10.

Record TagHeader := mkTagHeader {
  TagType : Z;
  DataSize : Z;
  TagTimestamp : Z;
  TagStreamId : Z;
}.

Record Tag := mkTag {
  Header : TagHeader;
  Raw : list Z;
}.

Definition TagPayload (tag : Tag) : outcome (list Z) :=
  go_slice (Raw tag) TagHeaderSize (len (Raw tag) - PrevTagSizeFieldSize).

(** [tag.Raw[TagHeaderSize+i] == v] *)
Definition raw_is (tag : Tag) (i v : Z) : outcome bool :=
  x ← go_index (Raw tag) (TagHeaderSize + i); Ret (x =? v).

Definition IsMetadata (tag : Tag) : bool := TagType (Header tag) =? TagTypeMetadata.

Definition IsAvc (tag : Tag) : outcome bool :=
  go_and (Ret (TagType (Header tag) =? TagTypeVideo))
    (x ← go_index (Raw tag) TagHeaderSize; Ret (Z.land x 15 =? codecIdAvc)).
Definition IsHevc (tag : Tag) : outcome bool :=
  go_and (Ret (TagType (Header tag) =? TagTypeVideo))
    (x ← go_index (Raw tag) TagHeaderSize; Ret (Z.land x 15 =? codecIdHevc)).

Definition IsAvcKeySeqHeader (tag : Tag) : outcome bool :=
  go_and (Ret (TagType (Header tag) =? TagTypeVideo))
    (go_and (raw_is tag 0 AvcKeyFrame) (raw_is tag 1 AvcPacketTypeSeqHeader)).
Definition IsHevcKeySeqHeader (tag : Tag) : outcome bool :=
  go_and (Ret (TagType (Header tag) =? TagTypeVideo))
    (go_and (raw_is tag 0 HevcKeyFrame) (raw_is tag 1 HevcPacketTypeSeqHeader)).
Definition IsVideoKeySeqHeader (tag : Tag) : outcome bool :=
  go_or (IsAvcKeySeqHeader tag) (IsHevcKeySeqHeader tag).

Definition IsAvcKeyNalu (tag : Tag) : outcome bool :=
  go_and (Ret (TagType (Header tag) =? TagTypeVideo))
    (go_and (raw_is tag 0 AvcKeyFrame) (raw_is tag 1 AvcPacketTypeNalu)).
Definition IsHevcKeyNalu (tag : Tag) : outcome bool :=
  go_and (Ret (TagType (Header tag) =? TagTypeVideo))
    (go_and (raw_is tag 0 HevcKeyFrame) (raw_is tag 1 HevcPacketTypeNalu)).
Definition IsVideoKeyNalu (tag : Tag) : outcome bool :=
  go_or (IsAvcKeyNalu tag) (IsHevcKeyNalu tag).

Definition IsAacSeqHeader (tag : Tag) : outcome bool :=
  go_and (Ret (TagType (Header tag) =? TagTypeAudio))
    (go_and (x ← go_index (Raw tag) TagHeaderSize; Ret (Z.shiftr x 4 =? SoundFormatAac))
       (raw_is tag 1 AacPacketTypeSeqHeader)).

Definition clone (tag : Tag) : Tag := mkTag (Header tag) ([] ++ Raw tag).

Section Codec.
Context {B : Bele}.

Definition ModTagTimestamp (tag : Tag) (timestamp : Z) : outcome Tag :=
  let h := Header tag in
  raw ← go_upd_from (Raw tag) 4 (BePutUint24 (Z.land timestamp 16777215));
  raw ← go_set raw 7 (u8 (Z.shiftr timestamp 24));
  Ret (mkTag (mkTagHeader (TagType h) (DataSize h) timestamp (TagStreamId h)) raw).

Definition PackHttpflvTag (t timestamp : Z) (input : list Z) : outcome (list Z) :=
  let out := go_make (TagHeaderSize + len input + PrevTagSizeFieldSize) in
  out ← go_set out 0 t;
  out ← go_upd_from out 1 (BePutUint24 (u32 (len input)));
  out ← go_upd_from out 4 (BePutUint24 (Z.land timestamp 16777215));
  out ← go_set out 7 (u8 (Z.shiftr timestamp 24));
  out ← go_set out 8 0;
  out ← go_set out 9 0;
  out ← go_set out 10 0;
  out ← go_copy_at out 11 input;
  go_upd_from out (TagHeaderSize + len input) (BePutUint32 (u32 (TagHeaderSize + len input))).

Definition parseTagHeader (rawHeader : list Z) : outcome TagHeader :=
  t ← go_index rawHeader 0;
  s ← go_from rawHeader 1; size ← BeUint24 s;
  x ← go_index rawHeader 7;
  s ← go_from rawHeader 4; ts ← BeUint24 s;
  Ret (mkTagHeader t size (u32 (u32 (Z.shiftl x 24) + ts)) 0).

(** The tag and the bytes still to come. *)
Definition ReadTag (rd : list Z) : outcome (Tag * list Z) :=
  '(rawHeader, rd) ← read TagHeaderSize rd;
  header ← parseTagHeader rawHeader;
  let needed := DataSize header + PrevTagSizeFieldSize in
  let raw := go_copy (go_make (TagHeaderSize + needed)) rawHeader in
  s ← go_from raw TagHeaderSize;
  '(body, rd) ← read (len s) rd;
  raw ← go_copy_at raw TagHeaderSize body;
  Ret (mkTag header raw, rd).

(** The loop of [ReadAllTagsFromFlvFile]: a clean end of file ends it, any
    other error is returned with the tags read so far. *)
Fixpoint read_all_tags (fuel : nat) (tags : list Tag) (rd : list Z)
    : outcome (list Tag * option goerr) :=
  match fuel with
  | O => Fail OutOfFuel
  | S fuel =>
      match ReadTag rd with
      | Ret (tag, rd) => read_all_tags fuel (tags ++ [tag]) rd
      | Fail EOF => Ret (tags, None)
      | Fail e => Ret (tags, Some e)
      | Panic => Panic
      end
  end.

(** [ReadAllTagsFromFlvFile] on the content of a file. [ReadFlvHeader] is one
    [Read] of 13 bytes whose result is not looked at. *)
Definition ReadAllTagsFromFlvFile (file : list Z) : outcome (list Tag * option goerr) :=
  read_all_tags (S (length file)) [] (drop (Z.to_nat flvHeaderSize) file).
End Codec.

(** ** The pump

    The callback may look at everything it was given before ([log]); the waits
    that pace the replay are not modelled. *)

Section Pump.
Variable onFlvTag : list Tag → Tag → bool.

Record PumpState := mkPump {
  totalBaseTs : Z;
  hasReadThisBaseTs : bool;
  thisBaseTs : Z;
  prevTagTs : Z;
}.

Definition with_ts (tag : Tag) (ts : Z) : Tag :=
  let h := Header tag in mkTag (mkTagHeader (TagType h) (DataSize h) ts (TagStreamId h)) (Raw tag).

(** The timestamp given to a tag that is no metadata. *)
Definition pump_ts (st : PumpState) (tag : Tag) : Z * PumpState :=
  let '(ts, st) :=
    if negb (hasReadThisBaseTs st)
    then (totalBaseTs st, mkPump (totalBaseTs st) true (TagTimestamp (Header tag)) (prevTagTs st))
    else (u32 (u32 (totalBaseTs st + TagTimestamp (Header tag)) - thisBaseTs st), st) in
  let ts := if ts <? prevTagTs st then u32 (prevTagTs st + 1) else ts in
  (ts, st).

(** One pass over the tags: what was delivered, the state, and whether the
    callback wants more. *)
Fixpoint pump_round (tags : list Tag) (log : list Tag) (st : PumpState) : list Tag * PumpState * bool :=
  match tags with
  | [] => (log, st, true)
  | tag :: tags =>
      if IsMetadata tag then
        if totalBaseTs st =? 0 then
          let tag := with_ts tag 0 in
          if onFlvTag log tag then pump_round tags (log ++ [tag]) st else (log ++ [tag], st, false)
        else pump_round tags log st
      else
        let '(ts, st) := pump_ts st tag in
        let tag := with_ts tag ts in
        if onFlvTag log tag
        then pump_round tags (log ++ [tag])
               (mkPump (totalBaseTs st) (hasReadThisBaseTs st) (thisBaseTs st) ts)
        else (log ++ [tag], st, false)
  end.

(** [fuel] passes; the flag says whether the pump returned. *)
Fixpoint pump_rounds (fuel : nat) (IsRecursive : bool) (tags log : list Tag) (st : PumpState)
    : list Tag * bool :=
  match fuel with
  | O => (log, false)
  | S fuel =>
      let '(log, st, go) :=
        pump_round tags log (mkPump (totalBaseTs st) false (thisBaseTs st) (prevTagTs st)) in
      if negb go then (log, true) else
      let st := mkPump (u32 (prevTagTs st + 1)) (hasReadThisBaseTs st) (thisBaseTs st) (prevTagTs st) in
      if IsRecursive then pump_rounds fuel IsRecursive tags log st else (log, true)
  end.

Definition PumpWithTags (fuel : nat) (IsRecursive : bool) (tags : list Tag) : list Tag * bool :=
  pump_rounds fuel IsRecursive tags [] (mkPump 0 false 0 0).
End Pump.

(** ** The wire format *)

Definition tag_bytes (t ts : Z) (body : list Z) : list Z :=
  t :: be_bytes 3 (len body) ++ be_bytes 3 (ts mod 16777216) ++ [ts / 16777216; 0; 0; 0] ++
  body ++ be_bytes 4 (11 + len body).

Lemma tag_bytes_length t ts body : len (tag_bytes t ts body) = 15 + len body.
Proof. unfold tag_bytes. len_lia. Qed.

Lemma land_u24 x : Z.land x 16777215 = x mod 16777216.
Proof. by apply (land_mask x 24). Qed.
Lemma ts_high ts : is_u32 ts → u8 (Z.shiftr ts 24) = ts / 16777216.
Proof. intros. rewrite Z.shiftr_div_pow2 by lia. apply u8_small. change (2 ^ 24) with 16777216. zdm. Qed.
Lemma ts_join ts : is_u32 ts → u32 (u32 (Z.shiftl (ts / 16777216) 24) + ts mod 16777216) = ts.
Proof. intros. rewrite Z.shiftl_mul_pow2 by lia. change (2 ^ 24) with 16777216. wrap. Qed.

Section CodecFacts.
Context {B : Bele} {HB : BeleLaws B}.

Lemma PackHttpflvTag_spec t ts body :
  is_u32 ts → len body < 16777216 → PackHttpflvTag t ts body = Ret (tag_bytes t ts body).
Proof.
  intros Hts Hlen. pose proof (Z.mod_pos_bound ts 16777216 eq_refl).
  unfold PackHttpflvTag, TagHeaderSize, PrevTagSizeFieldSize. cbv zeta.
  rewrite !u32_small, land_u24, ts_high by lia.
  change (go_make (11 + len body + 4)) with ([] ++ go_make (11 + len body + 4)).
  repeat go_next.
  rewrite go_make_0, app_nil_r by len_lia.
  unfold tag_bytes. rewrite <- !app_assoc. done.
Qed.

Lemma parseTagHeader_spec t ts n rest :
  is_u32 ts → is_u24 n →
  parseTagHeader (t :: be_bytes 3 n ++ be_bytes 3 (ts mod 16777216) ++ ts / 16777216 :: rest) =
  Ret (mkTagHeader t n ts 0).
Proof.
  intros Hts Hn. unfold parseTagHeader. go_read. go_read. rewrite BeUint24_be, bind_Ret by done.
  go_read. go_read. rewrite BeUint24_be, bind_Ret by (by apply Z.mod_pos_bound).
  by rewrite ts_join.
Qed.

Lemma ReadTag_spec t ts body rest :
  is_u32 ts → len body < 16777216 →
  ReadTag (tag_bytes t ts body ++ rest) =
  Ret (mkTag (mkTagHeader t (len body) ts 0) (tag_bytes t ts body), rest).
Proof.
  intros Hts Hlen. unfold ReadTag, tag_bytes, TagHeaderSize, PrevTagSizeFieldSize.
  set (h := t :: be_bytes 3 (len body) ++ be_bytes 3 (ts mod 16777216) ++ [ts / 16777216; 0; 0; 0]).
  replace ((t :: be_bytes 3 (len body) ++ be_bytes 3 (ts mod 16777216) ++
    [ts / 16777216; 0; 0; 0] ++ body ++ be_bytes 4 (11 + len body)) ++ rest)
    with (h ++ (body ++ be_bytes 4 (11 + len body)) ++ rest)
    by (unfold h; do 3 (cbn [app]; rewrite <- ?app_assoc); done).
  rewrite read_app, bind_Ret by done.
  assert (E : parseTagHeader h = Ret (mkTagHeader t (len body) ts 0))
    by (apply parseTagHeader_spec; [done|lia]).
  rewrite E, bind_Ret.
  cbn [DataSize]. rewrite go_copy_make by (change (len h) with 11; lia).
  change (len h) with 11. rewrite go_from_app, bind_Ret by done.
  rewrite read_app, bind_Ret by len_lia.
  rewrite copy_next, bind_Ret; [|done|len_lia]. rewrite go_make_0, app_nil_r by len_lia.
  unfold h. do 3 (cbn [app]; rewrite <- ?app_assoc). done.
Qed.

Lemma tag_payload_spec h t ts body : TagPayload (mkTag h (tag_bytes t ts body)) = Ret body.
Proof.
  unfold TagPayload, TagHeaderSize, PrevTagSizeFieldSize. cbn [Raw].
  rewrite tag_bytes_length. unfold tag_bytes.
  rewrite <- (bind_ret_r (go_slice _ _ _)).
  replace (15 + len body - 4) with (11 + len body) by lia.
  rewrite !app_comm_cons, !app_assoc. rewrite <- app_assoc.
  rewrite go_slice_app by len_lia. done.
Qed.

Lemma ModTagTimestamp_spec h t ts ts' body :
  is_u32 ts' →
  ModTagTimestamp (mkTag h (tag_bytes t ts body)) ts' =
  Ret (mkTag (mkTagHeader (TagType h) (DataSize h) ts' (TagStreamId h)) (tag_bytes t ts' body)).
Proof.
  intros Hts. unfold ModTagTimestamp. cbn [Header Raw]. rewrite land_u24, ts_high by done.
  pose proof (Z.mod_pos_bound ts' 16777216 eq_refl).
  rewrite (go_upd_from_app (t :: be_bytes 3 (len body))
    (be_bytes 3 (ts mod 16777216) ++ [ts / 16777216; 0; 0; 0] ++ body ++ be_bytes 4 (11 + len body))
    (be_bytes 3 (ts' mod 16777216) ++ [ts / 16777216; 0; 0; 0] ++ body ++ be_bytes 4 (11 + len body)));
    [|done|by apply BePutUint24_writes].
  rewrite bind_Ret. cbn [app]. repeat go_write. done.
Qed.

Lemma read_all_tags_spec ts : ∀ fuel tags tail,
  Forall (λ x, is_u32 (x.1.2) ∧ len (x.2) < 16777216) ts → (length ts < fuel)%nat →
  len tail < 11 →
  read_all_tags fuel tags (concat (map (λ x, tag_bytes (x.1.1) (x.1.2) (x.2)) ts) ++ tail) =
  Ret (tags ++ map (λ x, mkTag (mkTagHeader (x.1.1) (len (x.2)) (x.1.2) 0)
                           (tag_bytes (x.1.1) (x.1.2) (x.2))) ts,
   match tail with [] => None | _ => Some UnexpectedEOF end).
Proof.
  induction ts as [|[[t ts] body] l IH]; intros fuel tags tail Hok Hf Ht;
    (destruct fuel as [|fuel]; [simpl in Hf; lia|]); cbn [concat map read_all_tags].
  - rewrite app_nil_r, app_nil_l. unfold ReadTag, read, TagHeaderSize. go_test. by destruct tail.
  - apply Forall_cons in Hok as [[H1 H2] Hok]. cbn [fst snd] in *.
    rewrite <- app_assoc, ReadTag_spec, IH by (done || simpl in Hf; lia).
    by rewrite <- app_assoc.
Qed.
End CodecFacts.

(** A packed tag, whatever follows it in the stream, is read back by
    [ReadTag] with its type, size and 32-bit timestamp, its payload is the body
    it was packed from, and rewriting its timestamp gives the bytes of packing
    with the new timestamp. *)
Theorem flv_tag_roundtrip {B : Bele} (HB : BeleLaws B) t ts ts' body rest :
  is_u32 ts → is_u32 ts' → len body < 16777216 →
  ∃ raw tag tag',
    PackHttpflvTag t ts body = Ret raw ∧ ReadTag (raw ++ rest) = Ret (tag, rest) ∧
    tag = mkTag (mkTagHeader t (len body) ts 0) raw ∧ TagPayload tag = Ret body ∧
    ModTagTimestamp tag ts' = Ret tag' ∧
    PackHttpflvTag t ts' body = Ret (Raw tag') ∧ TagTimestamp (Header tag') = ts'.
Proof.
  intros Hts Hts' Hlen. exists (tag_bytes t ts body). do 2 eexists.
  split; [by apply PackHttpflvTag_spec|]. split; [by apply ReadTag_spec|].
  split; [done|]. split; [apply tag_payload_spec|].
  split; [by apply ModTagTimestamp_spec|]. split; [by apply PackHttpflvTag_spec|done].
Qed.

(** A file of packed tags is read back tag by tag by
    [ReadAllTagsFromFlvFile]; a partial tag header at the end of the file is
    reported as an unexpected end of file, with the complete tags. *)
Theorem flv_file_roundtrip {B : Bele} (HB : BeleLaws B) header ts raws tail :
  len header = flvHeaderSize →
  Forall (λ x, is_u32 (x.1.2) ∧ len (x.2) < 16777216) ts →
  Forall2 (λ x raw, PackHttpflvTag (x.1.1) (x.1.2) (x.2) = Ret raw) ts raws →
  len tail < TagHeaderSize →
  ∃ tags,
    ReadAllTagsFromFlvFile (header ++ concat raws ++ tail) =
      Ret (tags, match tail with [] => None | _ => Some UnexpectedEOF end) ∧
    map Raw tags = raws ∧
    Forall2 (λ x tag, TagType (Header tag) = x.1.1 ∧ TagTimestamp (Header tag) = x.1.2 ∧
                      TagPayload tag = Ret (x.2)) ts tags.
Proof.
  intros Hh Hok Hp Ht.
  assert (Er : raws = map (λ x, tag_bytes (x.1.1) (x.1.2) (x.2)) ts).
  { clear Ht. induction Hp as [|x raw ts raws Hx Hp IH]; [done|]. apply Forall_cons in Hok as [[H1 H2] Hok].
    rewrite PackHttpflvTag_spec in Hx by done. injection Hx as <-. cbn [map]. f_equal. by apply IH. }
  subst raws. eexists. split.
  - unfold ReadAllTagsFromFlvFile. rewrite drop_app_length' by (unfold flvHeaderSize in *; lia).
    apply read_all_tags_spec; [done| |done].
    assert (E : (length ts ≤ length (concat (map (λ x, tag_bytes x.1.1 x.1.2 x.2) ts)))%nat).
    { clear. induction ts as [|x l IH]; cbn [concat map length]; [lia|]. rewrite length_app.
      pose proof (tag_bytes_length (x.1.1) (x.1.2) (x.2)). lia. }
    len_lia.
  - cbn [app]. clear. split.
    + rewrite map_map. by apply map_ext.
    + induction ts as [|x l IH]; cbn [map]; constructor; [|done].
      split; [done|]. split; [done|]. apply tag_payload_spec.
Qed.

(** ** The pump *)

Definition media_ts (log : list Tag) : list Z :=
  map (λ t, TagTimestamp (Header t)) (filter (λ t, IsMetadata t = false) log).

(** Consecutive elements go up, or wrap from the largest timestamp to 0. *)
Definition climbs (l : list Z) : Prop :=
  ∀ i a b, l !! i = Some a → l !! S i = Some b → a ≤ b ∨ (a = 4294967295 ∧ b = 0).

Lemma climbs_snoc l p x :
  climbs l → last l = Some p → p ≤ x ∨ (p = 4294967295 ∧ x = 0) → climbs (l ++ [x]).
Proof.
  intros Hl Hp Hx i a b Ha Hb. destruct (decide (S i < length l)%nat) as [H|H].
  - rewrite lookup_app_l in Ha, Hb by lia. eauto.
  - apply lookup_lt_Some in Hb as Hlt. rewrite length_app in Hlt. simpl in Hlt.
    rewrite lookup_app_r in Hb by lia. rewrite lookup_app_l in Ha by lia.
    replace (S i - length l)%nat with 0%nat in Hb by lia. injection Hb as <-.
    rewrite last_lookup in Hp. replace (pred (length l)) with i in Hp by lia.
    rewrite Ha in Hp. by injection Hp as <-.
Qed.

Section PumpFacts.
Variable onFlvTag : list Tag → Tag → bool.
Variable source : list Tag.

Definition from_source (t : Tag) : Prop :=
  ∃ t0, t0 ∈ source ∧ Raw t = Raw t0 ∧ TagType (Header t) = TagType (Header t0).

(** What holds of a trace, and of a trace with the pump's state. *)
Definition trace_ok (log : list Tag) : Prop := climbs (media_ts log) ∧ Forall from_source log.
Definition pump_ok (log : list Tag) (st : PumpState) : Prop :=
  trace_ok log ∧ is_u32 (prevTagTs st) ∧ is_u32 (totalBaseTs st) ∧
  (media_ts log = [] ∨ last (media_ts log) = Some (prevTagTs st)).

Lemma trace_meta log tag ts :
  trace_ok log → tag ∈ source → IsMetadata tag = true →
  trace_ok (log ++ [with_ts tag ts]) ∧ media_ts (log ++ [with_ts tag ts]) = media_ts log.
Proof.
  intros [H1 H2] Hin Hm.
  assert (E : media_ts (log ++ [with_ts tag ts]) = media_ts log).
  { unfold media_ts. rewrite filter_app, filter_cons_False; [by rewrite app_nil_r|].
    unfold IsMetadata in *. simpl. by rewrite Hm. }
  split; [|done]. split; [by rewrite E|]. apply Forall_app. split; [done|].
  constructor; [|done]. by exists tag.
Qed.

Lemma trace_media log tag ts prev :
  trace_ok log → tag ∈ source → IsMetadata tag = false →
  (media_ts log = [] ∨ last (media_ts log) = Some prev) →
  prev ≤ ts ∨ (prev = 4294967295 ∧ ts = 0) →
  trace_ok (log ++ [with_ts tag ts]) ∧ last (media_ts (log ++ [with_ts tag ts])) = Some ts.
Proof.
  intros [H1 H2] Hin Hm Hl Hts.
  assert (E : media_ts (log ++ [with_ts tag ts]) = media_ts log ++ [ts]).
  { unfold media_ts. rewrite filter_app, filter_cons_True by done. by rewrite map_app. }
  unfold trace_ok. rewrite E, last_snoc. split; [|done]. split.
  - destruct Hl as [->|Hl]; [|by eapply climbs_snoc]. intros [|i] a b; done.
  - apply Forall_app. split; [done|]. constructor; [|done]. by exists tag.
Qed.

Lemma pump_ts_range st tag ts st' :
  is_u32 (prevTagTs st) → is_u32 (totalBaseTs st) → pump_ts st tag = (ts, st') →
  is_u32 ts ∧ prevTagTs st' = prevTagTs st ∧ totalBaseTs st' = totalBaseTs st ∧
  (prevTagTs st ≤ ts ∨ (prevTagTs st = 4294967295 ∧ ts = 0)).
Proof.
  intros Hp Ht. unfold pump_ts.
  assert (H : ∀ x, is_u32 x →
    let ts := if x <? prevTagTs st then u32 (prevTagTs st + 1) else x in
    is_u32 ts ∧ (prevTagTs st ≤ ts ∨ (prevTagTs st = 4294967295 ∧ ts = 0))).
  { intros x Hx. cbv zeta. destruct (Z.ltb_spec x (prevTagTs st)); [|by auto with lia].
    wrap. }
  destruct (hasReadThisBaseTs st); cbn [negb prevTagTs totalBaseTs]; intros [= <- <-].
  - destruct (H (u32 (u32 (totalBaseTs st + TagTimestamp (Header tag)) - thisBaseTs st)) (u32_range _)).
    auto.
  - destruct (H (totalBaseTs st) Ht). auto.
Qed.

Lemma pump_round_ok : ∀ tags log st,
  (∀ t, t ∈ tags → t ∈ source) → pump_ok log st →
  let '(log, st, go) := pump_round onFlvTag tags log st in
  trace_ok log ∧ (go = true → pump_ok log st).
Proof.
  induction tags as [|tag tags IH]; intros log st Hin Hok; cbn [pump_round].
  { split; [apply Hok|done]. }
  assert (Htag : tag ∈ source) by (apply Hin; left).
  assert (Hin' : ∀ t, t ∈ tags → t ∈ source) by (intros t Ht; apply Hin; by right).
  destruct Hok as (Htr & Hp & Ht & Hl). destruct (IsMetadata tag) eqn:Em.
  - destruct (totalBaseTs st =? 0); [|by apply IH].
    destruct (trace_meta log tag 0 Htr Htag Em) as [H1 H2].
    destruct (onFlvTag log (with_ts tag 0)); [|by split].
    apply IH; [done|]. split; [done|]. by rewrite H2.
  - destruct (pump_ts st tag) as [ts st'] eqn:E.
    destruct (pump_ts_range st tag ts st' Hp Ht E) as (R1 & R2 & R3 & R4).
    destruct (trace_media log tag ts (prevTagTs st) Htr Htag Em Hl R4) as [H1 H2].
    destruct (onFlvTag log (with_ts tag ts)); [|by split].
    apply IH; [done|]. split; [done|]. cbn [prevTagTs totalBaseTs]. rewrite R3. auto.
Qed.

Lemma pump_rounds_ok fuel rec : ∀ log st,
  pump_ok log st →
  let '(log, returned) := pump_rounds onFlvTag fuel rec source log st in
  trace_ok log ∧ (rec = false → (0 < fuel)%nat → returned = true).
Proof.
  induction fuel as [|fuel IH]; intros log st Hok; cbn [pump_rounds].
  { split; [apply Hok|lia]. }
  pose proof (pump_round_ok source log
    (mkPump (totalBaseTs st) false (thisBaseTs st) (prevTagTs st)) (λ _ H, H) Hok) as H.
  destruct (pump_round _ _ _ _) as [[log' st'] [|]]; destruct H as [H1 H2]; cbn [negb].
  - destruct rec; [|done]. destruct (H2 eq_refl) as (K1 & K2 & K3 & K4).
    specialize (IH log' (mkPump (u32 (prevTagTs st' + 1)) (hasReadThisBaseTs st') (thisBaseTs st') (prevTagTs st'))).
    destruct (pump_rounds _ _ _ _ _ _) as [log'' r].
    destruct IH as [IH _]; [|by split].
    split; [done|]. cbn [prevTagTs totalBaseTs]. split; [done|]. split; [apply u32_range|done].
  - done.
Qed.
End PumpFacts.

(** However long the pump runs and whatever its callback decides, the
    timestamps of the audio and video tags it delivers never go back, across
    the passes over the file too, except that they wrap from 2^32-1 to 0; what
    it delivers are the tags of the file with their bytes untouched; and a pump
    that is not recursive returns after one pass. *)
Theorem flv_pump_monotone onFlvTag fuel IsRecursive tags log returned :
  PumpWithTags onFlvTag fuel IsRecursive tags = (log, returned) →
  (∀ i a b, media_ts log !! i = Some a → media_ts log !! S i = Some b →
     a ≤ b ∨ (a = 4294967295 ∧ b = 0)) ∧
  (∀ t, t ∈ log → ∃ t0, t0 ∈ tags ∧ Raw t = Raw t0 ∧ TagType (Header t) = TagType (Header t0)) ∧
  (IsRecursive = false → (0 < fuel)%nat → returned = true).
Proof.
  intros E.
  pose proof (pump_rounds_ok onFlvTag tags fuel IsRecursive [] (mkPump 0 false 0 0)) as H.
  unfold PumpWithTags in E. rewrite E in H.
  destruct H as [[H1 H2] H3].
  { split; [split; [by intros i a b ?|constructor]|]. cbn. auto with lia. }
  split; [done|]. split; [|done]. intros t Ht. by apply (proj1 (Forall_forall _ _) H2).
Qed.

(** ** Witnesses *)

Lemma flv_tag_roundtrip_witness :
  ∃ raw tag tag',
    @PackHttpflvTag bele_impl 9 67108865 [23; 0; 1] = Ret raw ∧
    @ReadTag bele_impl (raw ++ [9; 9]) = Ret (tag, [9; 9]) ∧
    tag = mkTag (mkTagHeader 9 3 67108865 0) raw ∧ TagPayload tag = Ret [23; 0; 1] ∧
    @ModTagTimestamp bele_impl tag 4294967295 = Ret tag' ∧
    @PackHttpflvTag bele_impl 9 4294967295 [23; 0; 1] = Ret (Raw tag') ∧
    TagTimestamp (Header tag') = 4294967295.
Proof.
  apply (flv_tag_roundtrip bele_impl_laws 9 67108865 4294967295 [23; 0; 1] [9; 9]);
    [lia|lia|simpl; lia].
Defined.

Definition demo_tags : list (Z * Z * list Z) := [(9, 40, [23; 1]); (8, 16777217, [175; 0; 18])].

Lemma flv_file_roundtrip_witness :
  ∃ tags,
    @ReadAllTagsFromFlvFile bele_impl
      (replicate 13 1 ++
       concat (map (λ x, default [] (match @PackHttpflvTag bele_impl (x.1.1) (x.1.2) (x.2) with
                                     | Ret r => Some r | _ => None end)) demo_tags) ++ [9; 0; 0]) =
      Ret (tags, Some UnexpectedEOF) ∧
    map Raw tags = map (λ x, default [] (match @PackHttpflvTag bele_impl (x.1.1) (x.1.2) (x.2) with
                                     | Ret r => Some r | _ => None end)) demo_tags ∧
    Forall2 (λ x tag, TagType (Header tag) = x.1.1 ∧ TagTimestamp (Header tag) = x.1.2 ∧
                      TagPayload tag = Ret (x.2)) demo_tags tags.
Proof.
  apply (flv_file_roundtrip bele_impl_laws (replicate 13 1) demo_tags _ [9; 0; 0]).
  - reflexivity.
  - repeat constructor; simpl; lia.
  - repeat constructor.
  - reflexivity.
Defined.

Lemma flv_pump_monotone_witness :
  let tag ts := mkTag (mkTagHeader 9 2 ts 0) [] in
  let log := [tag 0; tag 4294967195; tag 4294967201; tag 4294967202] in
  (∀ i a b, media_ts log !! i = Some a → media_ts log !! S i = Some b →
     a ≤ b ∨ (a = 4294967295 ∧ b = 0)) ∧
  (∀ t, t ∈ log → ∃ t0, t0 ∈ [tag 100; tag 4294967295; tag 5] ∧ Raw t = Raw t0 ∧
     TagType (Header t) = TagType (Header t0)) ∧
  (true = false → (0 < 2)%nat → true = true).
Proof.
  intros tag log.
  apply (flv_pump_monotone (λ log _, Nat.ltb (length log) 3) 2 true
    [tag 100; tag 4294967295; tag 5] log true). reflexivity.
Defined.
