(* ===== verification/Amf0.v ===== *)
(** * AMF0 (src/pkg/rtmp/amf0.go)

    The encoding of RTMP commands and metadata: writing strings, numbers,
    booleans and flat objects; reading them and nested objects and arrays.
    The partial arrays that [ReadObject] and the other readers return next to
    an error are not modelled (no caller looks at them). *)

From S2P Require Import Prelude Naza GoFloat.

Definition Amf0TypeMarkerNumber : Z := 0.
Definition Amf0TypeMarkerBoolean : Z := 1.
Definition Amf0TypeMarkerString : Z := 2.
Definition Amf0TypeMarkerObject : Z := 3.
Definition Amf0TypeMarkerNull : Z := 5.
Definition Amf0TypeMarkerUndefined : Z := 6.
Definition Amf0TypeMarkerEcmaArray : Z := 8.
Definition Amf0TypeMarkerObjectEnd : Z := 9.
Definition Amf0TypeMarkerStrictArray : Z := 10.
Definition Amf0TypeMarkerLongString : Z := 12.
Definition Amf0TypeMarkerUnsupported : Z := 13.

Definition Amf0TypeMarkerObjectEndBytes : list Z := [0; 0; Amf0TypeMarkerObjectEnd].
Definition Amf0TypeMarkerArrayEndBytes : list Z := [0; 0; Amf0TypeMarkerObjectEnd].

(** The values an [ObjectPair] holds; the code writes [int]s and reads back
    [float64]s (bit patterns). *)
Inductive AmfValue :=
  | AmfString (s : list Z)
  | AmfInt (v : Z)
  | AmfNumber (bits : Z)
  | AmfBoolean (b : bool)
  | AmfObject (opa : list (list Z * AmfValue)).

Definition ObjectPair : Type := list Z * AmfValue.
Definition ObjectPairArray : Type := list ObjectPair.

(** The first pair with the key. *)
Fixpoint Find (o : ObjectPairArray) (key : list Z) : option AmfValue :=
  match o with
  | [] => None
  | (k, v) :: o => if decide (k = key) then Some v else Find o key
  end.

Fixpoint FindString (o : ObjectPairArray) (key : list Z) : outcome (list Z) :=
  match o with
  | [] => Fail ErrAmfNotExist
  | (k, v) :: o =>
      if decide (k = key) then match v with AmfString s => Ret s | _ => FindString o key end
      else FindString o key
  end.

Fixpoint FindNumber (o : ObjectPairArray) (key : list Z) : outcome Z :=
  match o with
  | [] => Fail ErrAmfNotExist
  | (k, v) :: o =>
      if decide (k = key) then
        match v with AmfNumber bits => Ret (int_of_float64 bits) | _ => FindNumber o key end
      else FindNumber o key
  end.

(** ** Writing *)

Section Write.
Context {BS : BeleStream} {W : Type} `{Writer W}.

Definition WriteNumber (val : Z) (writer : W) : outcome W :=
  writer ← w_write [Amf0TypeMarkerNumber] writer;
  WriteBe 8 val writer.

Definition WriteString (val : list Z) (writer : W) : outcome W :=
  writer ←
    (if len val <? 65536 then
       writer ← w_write [Amf0TypeMarkerString] writer;
       WriteBe 2 (u16 (len val)) writer
     else
       writer ← w_write [Amf0TypeMarkerLongString] writer;
       WriteBe 4 (u32 (len val)) writer);
  w_write val writer.

Definition WriteNull (writer : W) : outcome W := w_write [Amf0TypeMarkerNull] writer.

Definition WriteBoolean (b : bool) (writer : W) : outcome W :=
  writer ← w_write [Amf0TypeMarkerBoolean] writer;
  w_write [if b then 1 else 0] writer.

Definition write_value (v : AmfValue) (writer : W) : outcome W :=
  match v with
  | AmfString s => WriteString s writer
  | AmfInt i => WriteNumber (float64_of_int i) writer
  | AmfNumber bits => WriteNumber bits writer
  | AmfBoolean b => WriteBoolean b writer
  | AmfObject _ => Panic
  end.

Fixpoint write_pairs (opa : ObjectPairArray) (writer : W) : outcome W :=
  match opa with
  | [] => Ret writer
  | (key, value) :: opa =>
      writer ← WriteBe 2 (u16 (len key)) writer;
      writer ← w_write key writer;
      writer ← write_value value writer;
      write_pairs opa writer
  end.

Definition WriteObject (opa : ObjectPairArray) (writer : W) : outcome W :=
  writer ← w_write [Amf0TypeMarkerObject] writer;
  writer ← write_pairs opa writer;
  w_write Amf0TypeMarkerObjectEndBytes writer.
End Write.

(** ** Reading: the value and the number of bytes consumed *)

Section Read.
Context {B : Bele} {BS : BeleStream}.

Definition ReadStringWithoutType (b : list Z) : outcome (list Z * Z) :=
  if len b <? 2 then Fail ErrAmfTooShort else
  l ← BeUint16 b;
  if l >? len b - 2 then Fail ErrAmfTooShort else
  s ← go_slice b 2 (2 + l); Ret (s, 2 + l).

Definition ReadLongStringWithoutType (b : list Z) : outcome (list Z * Z) :=
  if len b <? 4 then Fail ErrAmfTooShort else
  l ← BeUint32 b;
  if l >? len b - 4 then Fail ErrAmfTooShort else
  s ← go_slice b 4 (4 + l); Ret (s, 4 + l).

Definition ReadString (b : list Z) : outcome (list Z * Z) :=
  if len b <? 1 then Fail ErrAmfTooShort else
  b0 ← go_index b 0;
  if b0 =? Amf0TypeMarkerString then
    s ← go_from b 1; '(val, l) ← ReadStringWithoutType s; Ret (val, l + 1)
  else if b0 =? Amf0TypeMarkerLongString then
    s ← go_from b 1; '(val, l) ← ReadLongStringWithoutType s; Ret (val, l + 1)
  else Fail ErrAmfInvalidType.

Definition ReadNumber (b : list Z) : outcome (Z * Z) :=
  if len b <? 9 then Fail ErrAmfTooShort else
  b0 ← go_index b 0;
  if negb (b0 =? Amf0TypeMarkerNumber) then Fail ErrAmfInvalidType else
  s ← go_from b 1; v ← BeFloat64 s; Ret (v, 9).

Definition ReadBoolean (b : list Z) : outcome (bool * Z) :=
  if len b <? 2 then Fail ErrAmfTooShort else
  b0 ← go_index b 0;
  if negb (b0 =? Amf0TypeMarkerBoolean) then Fail ErrAmfInvalidType else
  b1 ← go_index b 1; Ret (negb (b1 =? 0), 2).

Definition ReadNull (b : list Z) : outcome Z :=
  if len b <? 1 then Fail ErrAmfTooShort else
  b0 ← go_index b 0;
  if negb (b0 =? Amf0TypeMarkerNull) then Fail ErrAmfInvalidType else Ret 1.

Definition ReadUndefinedOrUnsupported (b : list Z) : outcome Z :=
  if len b <? 1 then Fail ErrAmfTooShort else Ret 1.

(** [len(b)-index >= 3 && bytes.Equal(b[index:index+3], end)] *)
Definition at_end (b : list Z) (index : Z) (end_bytes : list Z) : outcome bool :=
  if len b - index >=? 3 then
    s ← go_slice b index (index + 3); Ret (bool_decide (s = end_bytes))
  else Ret false.

(** The readers call each other on nested values; [fuel] bounds the depth of
    the calls and the turns of the loops. *)
Fixpoint read_object (fuel : nat) (b : list Z) : outcome (ObjectPairArray * Z) :=
  match fuel with
  | O => Fail OutOfFuel
  | S fuel =>
      if len b <? 1 then Fail ErrAmfTooShort else
      b0 ← go_index b 0;
      if negb (b0 =? Amf0TypeMarkerObject) then Fail ErrAmfInvalidType else
      object_loop fuel b 1 []
  end
with object_loop (fuel : nat) (b : list Z) (index : Z) (ops : ObjectPairArray)
    : outcome (ObjectPairArray * Z) :=
  match fuel with
  | O => Fail OutOfFuel
  | S fuel =>
      e ← at_end b index Amf0TypeMarkerObjectEndBytes;
      if e : bool then Ret (ops, index + 3) else
      s ← go_from b index;
      '(k, l) ← ReadStringWithoutType s;
      '(ops, index) ← read_value fuel b (index + l) k ops;
      object_loop fuel b index ops
  end
with read_array (fuel : nat) (b : list Z) : outcome (ObjectPairArray * Z) :=
  match fuel with
  | O => Fail OutOfFuel
  | S fuel =>
      if len b <? 5 then Fail ErrAmfTooShort else
      b0 ← go_index b 0;
      if negb (b0 =? Amf0TypeMarkerEcmaArray) then Fail ErrAmfInvalidType else
      s ← go_from b 1; count ← BeUint32 s;
      array_loop fuel b 0 count 5 []
  end
with array_loop (fuel : nat) (b : list Z) (i count index : Z) (ops : ObjectPairArray)
    : outcome (ObjectPairArray * Z) :=
  match fuel with
  | O => Fail OutOfFuel
  | S fuel =>
      if i <? count then
        s ← go_from b index;
        '(k, l) ← ReadStringWithoutType s;
        '(ops, index) ← read_value fuel b (index + l) k ops;
        array_loop fuel b (i + 1) count index ops
      else
        e ← at_end b index Amf0TypeMarkerArrayEndBytes;
        Ret (ops, if e : bool then index + 3 else index)
  end
with read_strict_array (fuel : nat) (b : list Z) : outcome (ObjectPairArray * Z) :=
  match fuel with
  | O => Fail OutOfFuel
  | S fuel =>
      if len b <? 5 then Fail ErrAmfTooShort else
      b0 ← go_index b 0;
      if negb (b0 =? Amf0TypeMarkerStrictArray) then Fail ErrAmfInvalidType else
      s ← go_from b 1; count ← BeUint32 s;
      strict_loop fuel b 0 count 5 []
  end
with strict_loop (fuel : nat) (b : list Z) (i count index : Z) (ops : ObjectPairArray)
    : outcome (ObjectPairArray * Z) :=
  match fuel with
  | O => Fail OutOfFuel
  | S fuel =>
      if i <? count then
        '(ops, index) ← read_value fuel b index [] ops;
        strict_loop fuel b (i + 1) count index ops
      else Ret (ops, index)
  end
with read_value (fuel : nat) (b : list Z) (index : Z) (k : list Z) (ops : ObjectPairArray)
    : outcome (ObjectPairArray * Z) :=
  match fuel with
  | O => Fail OutOfFuel
  | S fuel =>
      if len b - index <? 1 then Fail ErrAmfTooShort else
      vt ← go_index b index;
      s ← go_from b index;
      if vt =? Amf0TypeMarkerNumber then
        '(v, l) ← ReadNumber s; Ret (ops ++ [(k, AmfNumber v)], index + l)
      else if vt =? Amf0TypeMarkerBoolean then
        '(v, l) ← ReadBoolean s; Ret (ops ++ [(k, AmfBoolean v)], index + l)
      else if vt =? Amf0TypeMarkerString then
        '(v, l) ← ReadString s; Ret (ops ++ [(k, AmfString v)], index + l)
      else if vt =? Amf0TypeMarkerNull then
        l ← ReadNull s; Ret (ops, index + l)
      else if vt =? Amf0TypeMarkerObject then
        '(v, l) ← read_object fuel s; Ret (ops ++ [(k, AmfObject v)], index + l)
      else if vt =? Amf0TypeMarkerEcmaArray then
        '(v, l) ← read_array fuel s; Ret (ops ++ [(k, AmfObject v)], index + l)
      else if vt =? Amf0TypeMarkerStrictArray then
        '(v, l) ← read_strict_array fuel s; Ret (ops ++ [(k, AmfObject v)], index + l)
      else if (vt =? Amf0TypeMarkerUndefined) || (vt =? Amf0TypeMarkerUnsupported) then
        l ← ReadUndefinedOrUnsupported s; Ret (ops, index + l)
      else Fail ErrAmfInvalidType
  end.

(** Enough for any nesting of [b]: [amf0_read_total]. *)
Definition amf_fuel (b : list Z) : nat := length b + 4.

Definition ReadObject (b : list Z) : outcome (ObjectPairArray * Z) := read_object (amf_fuel b) b.
Definition ReadArray (b : list Z) : outcome (ObjectPairArray * Z) := read_array (amf_fuel b) b.
Definition ReadStrictArray (b : list Z) : outcome (ObjectPairArray * Z) :=
  read_strict_array (amf_fuel b) b.

Definition ReadObjectOrArray (b : list Z) : outcome (ObjectPairArray * Z) :=
  if len b <? 1 then Fail ErrAmfTooShort else
  b0 ← go_index b 0;
  if b0 =? Amf0TypeMarkerObject then ReadObject b
  else if b0 =? Amf0TypeMarkerEcmaArray then ReadArray b
  else Fail ErrAmfInvalidType.
End Read.

(** ** Reading any bytes *)

Section Total.
Context {B : Bele} {HB : BeleLaws B} {BS : BeleStream} {HBS : BeleStreamLaws BS}.

(** A reader's result: it consumed at least [lo] bytes of [b]. *)
Definition consumed {A} (lo : Z) (b : list Z) (r : A * Z) : Prop := lo ≤ r.2 ≤ len b.
(** A loop's result: it moved from [index] to a place inside [b]. *)
Definition moved {A} (lo index : Z) (b : list Z) (r : A * Z) : Prop := index + lo ≤ r.2 ≤ len b.

Lemma total_read n b f :
  reads n be_val f → is_bytes b → Z.of_nat n ≤ len b →
  total (λ v, 0 ≤ v < 256 ^ Z.of_nat n) (f b).
Proof. intros Hf Hb Hn. destruct (reads_Ret n f b Hf Hb ltac:(lia)) as [E H]. by rewrite E. Qed.

Lemma ReadStringWithoutType_total b :
  is_bytes b → total (consumed 2 b) (ReadStringWithoutType b).
Proof.
  intros Hb. unfold ReadStringWithoutType. destruct (Z.ltb_spec (len b) 2); [done|].
  step (by apply (total_read 2 _ _ BeUint16_reads)).
  intros l Hl. rewrite Z.gtb_ltb. destruct (Z.ltb_spec (len b - 2) l); [done|].
  step (apply total_slice; [done|lia|lia]). intros s _. unfold consumed. simpl. lia.
Qed.

Lemma ReadLongStringWithoutType_total b :
  is_bytes b → total (consumed 4 b) (ReadLongStringWithoutType b).
Proof.
  intros Hb. unfold ReadLongStringWithoutType. destruct (Z.ltb_spec (len b) 4); [done|].
  step (by apply (total_read 4 _ _ BeUint32_reads)).
  intros l Hl. rewrite Z.gtb_ltb. destruct (Z.ltb_spec (len b - 4) l); [done|].
  step (apply total_slice; [done|lia|lia]). intros s _. unfold consumed. simpl. lia.
Qed.

Lemma ReadString_total b : is_bytes b → total (consumed 1 b) (ReadString b).
Proof.
  intros Hb. unfold ReadString. destruct (Z.ltb_spec (len b) 1); [done|].
  step (apply total_index; [done|lia]). intros b0 _.
  destruct (b0 =? _); [|destruct (b0 =? _); [|done]];
    (step (apply total_from; [done|lia]); intros s [Hs Hl];
     step (first [by apply ReadStringWithoutType_total | by apply ReadLongStringWithoutType_total]));
    intros [v l]; unfold consumed; simpl; lia.
Qed.

Lemma ReadNumber_total b : is_bytes b → total (consumed 1 b) (ReadNumber b).
Proof.
  intros Hb. unfold ReadNumber. destruct (Z.ltb_spec (len b) 9); [done|].
  step (apply total_index; [done|lia]). intros b0 _.
  destruct (negb _); [done|].
  step (apply total_from; [done|lia]). intros s [Hs Hl].
  step (apply (total_read 8 _ _ BeFloat64_reads); [done|lia]).
  intros v _. unfold consumed. simpl. lia.
Qed.

Lemma ReadBoolean_total b : is_bytes b → total (consumed 1 b) (ReadBoolean b).
Proof.
  intros Hb. unfold ReadBoolean. destruct (Z.ltb_spec (len b) 2); [done|].
  step (apply total_index; [done|lia]). intros b0 _.
  destruct (negb _); [done|].
  step (apply total_index; [done|lia]). intros b1 _. unfold consumed. simpl. lia.
Qed.

Lemma ReadNull_total b : is_bytes b → 1 ≤ len b → total (λ l, l = 1) (ReadNull b).
Proof.
  intros Hb Hl. unfold ReadNull. destruct (len b <? 1); [done|].
  step (apply total_index; [done|lia]). intros b0 _. by destruct (negb _).
Qed.

Lemma at_end_total b index e :
  is_bytes b → 0 ≤ index ≤ len b →
  total (λ r, r = true → index + 3 ≤ len b) (at_end b index e).
Proof.
  intros Hb Hi. unfold at_end. rewrite Z.geb_leb. destruct (Z.leb_spec 3 (len b - index)); [|done].
  step (apply total_slice; [done|lia|lia]). intros s _. simpl. lia.
Qed.

Definition all_total (fuel : nat) : Prop :=
  let f := Z.of_nat fuel in
  (∀ b, is_bytes b → len b + 2 ≤ f → total (consumed 1 b) (read_object fuel b)) ∧
  (∀ b index ops, is_bytes b → 0 ≤ index ≤ len b → len b - index + 2 ≤ f →
     total (moved 0 index b) (object_loop fuel b index ops)) ∧
  (∀ b, is_bytes b → len b + 2 ≤ f → total (consumed 1 b) (read_array fuel b)) ∧
  (∀ b i count index ops, is_bytes b → 0 ≤ index ≤ len b → len b - index + 2 ≤ f →
     total (moved 0 index b) (array_loop fuel b i count index ops)) ∧
  (∀ b, is_bytes b → len b + 2 ≤ f → total (consumed 1 b) (read_strict_array fuel b)) ∧
  (∀ b i count index ops, is_bytes b → 0 ≤ index ≤ len b → len b - index + 4 ≤ f →
     total (moved 0 index b) (strict_loop fuel b i count index ops)) ∧
  (∀ b index k ops, is_bytes b → 0 ≤ index ≤ len b → len b - index + 3 ≤ f →
     total (moved 1 index b) (read_value fuel b index k ops)).

(** Both arrays start with a marker and a count. *)
Lemma array_head_total {A} b marker (P : A → Prop) (k : Z → outcome A) :
  is_bytes b → (∀ count, 5 ≤ len b → total P (k count)) →
  total P (if len b <? 5 then Fail ErrAmfTooShort else
    b0 ← go_index b 0;
    if negb (b0 =? marker) then Fail ErrAmfInvalidType else
    s ← go_from b 1; count ← BeUint32 s; k count).
Proof.
  intros Hb Hk. destruct (Z.ltb_spec (len b) 5); [done|].
  step (apply total_index; [done|lia]). intros b0 _. destruct (negb _); [done|].
  step (apply total_from; [done|lia]). intros s [Hs Hl].
  step (apply (total_read 4 _ _ BeUint32_reads); [done|lia]). auto.
Qed.

Lemma read_all_total fuel : all_total fuel.
Proof.
  induction fuel as [|fuel IH]; [repeat split; intros; lia|].
  destruct IH as (IO & IOL & IA & IAL & IS & ISL & IV).
  unfold all_total. rewrite Nat2Z.inj_succ.
  assert (Hpair : ∀ b index ops (next : ObjectPairArray → Z → outcome (ObjectPairArray * Z)) lo,
    is_bytes b → 0 ≤ index ≤ len b →
    len b - index + 2 ≤ Z.succ (Z.of_nat fuel) →
    (∀ ops' index', index + 3 ≤ index' ≤ len b → total (moved lo index b) (next ops' index')) →
    total (moved lo index b)
      (s ← go_from b index; '(k, l) ← ReadStringWithoutType s;
       '(ops, index) ← read_value fuel b (index + l) k ops; next ops index)).
  { intros b index ops next lo Hb Hi Hf Hn.
    step (by apply total_from). intros s [Hs Hl].
    step (by apply ReadStringWithoutType_total).
    intros [k l] Hc. unfold consumed in Hc. cbn [snd] in Hc.
    step (apply IV; [done|lia|lia]).
    intros [ops' index'] Hm. unfold moved in Hm. cbn [snd] in Hm. apply Hn. lia. }
  split_and!.
  - intros b Hb Hf. cbn [read_object]. destruct (Z.ltb_spec (len b) 1); [done|].
    step (apply total_index; [done|lia]). intros b0 _. destruct (negb _); [done|].
    eapply total_impl; [apply IOL; [done|lia|lia]|]. intros [o i]. unfold moved, consumed. simpl. lia.
  - intros b index ops Hb Hi Hf. cbn [object_loop].
    step (by apply at_end_total). intros [|] He.
    { unfold moved. simpl. specialize (He eq_refl). lia. }
    apply Hpair; [done..|]. intros ops' index' Hm.
    eapply total_impl; [apply IOL; [done|lia|lia]|]. intros [o i]. unfold moved. simpl. lia.
  - intros b Hb Hf. cbn [read_array]. apply array_head_total; [done|]. intros count Hl.
    eapply total_impl; [apply IAL; [done|lia|lia]|]. intros [o i]. unfold moved, consumed. simpl. lia.
  - intros b i count index ops Hb Hi Hf. cbn [array_loop]. destruct (i <? count).
    + apply Hpair; [done..|]. intros ops' index' Hm.
      eapply total_impl; [apply IAL; [done|lia|lia]|]. intros [o j]. unfold moved. simpl. lia.
    + step (by apply at_end_total). intros e He. unfold moved. simpl.
      destruct e; [specialize (He eq_refl)|]; lia.
  - intros b Hb Hf. cbn [read_strict_array]. apply array_head_total; [done|]. intros count Hl.
    eapply total_impl; [apply ISL; [done|lia|lia]|]. intros [o i]. unfold moved, consumed. simpl. lia.
  - intros b i count index ops Hb Hi Hf. cbn [strict_loop]. destruct (i <? count).
    + step (apply IV; [done|lia|lia]).
      intros [ops' index'] Hm. unfold moved in Hm. cbn [snd] in Hm.
      eapply total_impl; [apply ISL; [done|lia|lia]|]. intros [o j]. unfold moved. simpl. lia.
    + unfold moved. simpl. lia.
  - intros b index k ops Hb Hi Hf. cbn [read_value].
    destruct (Z.ltb_spec (len b - index) 1); [done|].
    step (apply total_index; [done|lia]). intros vt _.
    step (by apply total_from). intros s [Hs Hl].
    assert (Hret : ∀ {A} (m : outcome (A * Z)) (mk : A → ObjectPairArray), total (consumed 1 s) m →
      total (moved 1 index b) ('(v, l) ← m; Ret (mk v, index + l))).
    { intros A m mk Hm. step (exact Hm). intros [v l]. unfold consumed, moved. simpl. lia. }
    assert (Hone : ∀ m : outcome Z, total (λ l, l = 1) m →
      total (moved 1 index b) (l ← m; Ret (ops, index + l))).
    { intros m Hm. step (exact Hm). intros l ->. unfold moved. simpl. lia. }
    repeat (destruct (vt =? _)); cbn [orb];
      first [apply Hret | apply Hone | done];
      first [by apply ReadNumber_total | by apply ReadBoolean_total | by apply ReadString_total
        | apply IO; [done|lia] | apply IA; [done|lia] | apply IS; [done|lia]
        | apply ReadNull_total; [done|lia] | unfold ReadUndefinedOrUnsupported; by destruct (len s <? 1)].
Qed.

Lemma ReadObject_total b : is_bytes b → total (consumed 1 b) (ReadObject b).
Proof. intros Hb. apply read_all_total; [done|]. unfold amf_fuel. lia. Qed.
Lemma ReadArray_total b : is_bytes b → total (consumed 1 b) (ReadArray b).
Proof. intros Hb. apply read_all_total; [done|]. unfold amf_fuel. lia. Qed.
Lemma ReadStrictArray_total b : is_bytes b → total (consumed 1 b) (ReadStrictArray b).
Proof. intros Hb. apply read_all_total; [done|]. unfold amf_fuel. lia. Qed.
Lemma ReadObjectOrArray_total b : is_bytes b → total (consumed 1 b) (ReadObjectOrArray b).
Proof.
  intros Hb. unfold ReadObjectOrArray. destruct (Z.ltb_spec (len b) 1); [done|].
  step (apply total_index; [done|lia]). intros b0 _.
  destruct (b0 =? _); [by apply ReadObject_total|].
  destruct (b0 =? _); [by apply ReadArray_total|done].
Qed.
End Total.

(** ** What the writers write *)

Definition str_bytes (s : list Z) : list Z :=
  if len s <? 65536 then ([Amf0TypeMarkerString] ++ be_bytes 2 (len s)) ++ s
  else ([Amf0TypeMarkerLongString] ++ be_bytes 4 (len s)) ++ s.

Definition num_bytes (bits : Z) : list Z := [Amf0TypeMarkerNumber] ++ be_bytes 8 bits.

Definition value_bytes (v : AmfValue) : list Z :=
  match v with
  | AmfString s => str_bytes s
  | AmfInt i => num_bytes (float64_of_int i)
  | AmfNumber bits => num_bytes bits
  | AmfBoolean b => [Amf0TypeMarkerBoolean] ++ [if b then 1 else 0]
  | AmfObject _ => []
  end.

Fixpoint pairs_bytes (opa : ObjectPairArray) : list Z :=
  match opa with
  | [] => []
  | (k, v) :: opa => be_bytes 2 (len k) ++ k ++ value_bytes v ++ pairs_bytes opa
  end.

Definition object_bytes (opa : ObjectPairArray) : list Z :=
  [Amf0TypeMarkerObject] ++ pairs_bytes opa ++ Amf0TypeMarkerObjectEndBytes.

(** Values the writers write and the readers read back. *)
Definition value_ok (v : AmfValue) : Prop :=
  match v with
  | AmfString s => len s < 65536
  | AmfInt i => Z.abs i < 2 ^ 53
  | AmfNumber bits => is_u64 bits
  | AmfBoolean _ => True
  | AmfObject _ => False
  end.
Definition pair_ok (p : ObjectPair) : Prop := len (p.1) < 65536 ∧ value_ok (p.2).

(** What can be written; a long string cannot be read back. *)
Definition pair_writable (p : ObjectPair) : Prop :=
  len (p.1) < 65536 ∧ match p.2 with AmfString s => len s < 4294967296 | v => value_ok v end.

Lemma pair_ok_writable p : pair_ok p → pair_writable p.
Proof. intros [H1 H2]. split; [done|]. destruct (p.2); cbn [value_ok] in *; try done. lia. Qed.

Definition read_back (v : AmfValue) : AmfValue :=
  match v with AmfInt i => AmfNumber (float64_of_int i) | v => v end.
Definition read_back_pair (p : ObjectPair) : ObjectPair := (p.1, read_back (p.2)).

Section WriteFacts.
Context {BS : BeleStream} {HBS : BeleStreamLaws BS}.
Context {W} `{Writer W} {M : Z} {content : W → list Z → Prop} {HW : WriterLaws W M content}.
Hypothesis HM : 8 ≤ M.

Lemma WriteNumber_appends v : is_u64 v → appends content (WriteNumber v) (num_bytes v).
Proof.
  intros Hv. apply (appends_seq (w_write [Amf0TypeMarkerNumber]) (WriteBe 8 v)).
  - apply appends_write. simpl. lia.
  - by apply appends_be.
Qed.

Lemma WriteString_appends s :
  len s < 4294967296 → len s ≤ M → appends content (WriteString s) (str_bytes s).
Proof.
  intros Hs HsM. unfold WriteString, str_bytes. destruct (Z.ltb_spec (len s) 65536).
  - rewrite u16_small by lia.
    apply (appends_seq (λ w, w ← w_write [Amf0TypeMarkerString] w; WriteBe 2 (len s) w) (w_write s)).
    + apply (appends_seq (w_write [Amf0TypeMarkerString]) (WriteBe 2 (len s))).
      * apply appends_write. simpl. lia.
      * apply appends_be; [change (256 ^ Z.of_nat 2) with 65536|]; lia.
    + by apply appends_write.
  - rewrite u32_small by lia.
    apply (appends_seq (λ w, w ← w_write [Amf0TypeMarkerLongString] w; WriteBe 4 (len s) w) (w_write s)).
    + apply (appends_seq (w_write [Amf0TypeMarkerLongString]) (WriteBe 4 (len s))).
      * apply appends_write. simpl. lia.
      * apply appends_be; [change (256 ^ Z.of_nat 4) with 4294967296|]; lia.
    + by apply appends_write.
Qed.

Lemma WriteNull_appends : appends content WriteNull [Amf0TypeMarkerNull].
Proof. apply appends_write. simpl. lia. Qed.

(** A value and a pair whose strings the writer takes in one write. *)
Definition value_fits (v : AmfValue) : Prop := ∀ s, v = AmfString s → len s ≤ M.
Definition pair_fits (p : ObjectPair) : Prop := len (p.1) ≤ M ∧ value_fits (p.2).

Lemma write_value_appends v :
  pair_writable ([], v) → value_fits v → appends content (write_value v) (value_bytes v).
Proof.
  intros [_ Hv] Hf. destruct v as [s|i|bits|b|o]; cbn [snd value_ok write_value value_bytes] in *.
  - apply WriteString_appends; [done|by apply Hf].
  - by apply WriteNumber_appends, float64_of_int_roundtrip.
  - by apply WriteNumber_appends.
  - apply (appends_seq (w_write [Amf0TypeMarkerBoolean]) (w_write [if b then 1 else 0]));
      apply appends_write; simpl; lia.
  - done.
Qed.

Lemma write_pairs_appends opa :
  Forall pair_writable opa → Forall pair_fits opa → appends content (write_pairs opa) (pairs_bytes opa).
Proof.
  induction opa as [|[k v] opa IH]; intros Hok Hf; [apply appends_nil|].
  apply Forall_cons in Hok as [[Hk Hv] Hok]. apply Forall_cons in Hf as [[Fk Fv] Hf].
  cbn [fst snd] in Hk, Hv, Fk, Fv. cbn [write_pairs pairs_bytes]. rewrite u16_small by lia.
  apply (appends_seq (WriteBe 2 (len k))
    (λ w, w ← w_write k w; w ← write_value v w; write_pairs opa w)).
  - apply appends_be; [change (256 ^ Z.of_nat 2) with 65536|]; lia.
  - apply (appends_seq (w_write k) (λ w, w ← write_value v w; write_pairs opa w)).
    + by apply appends_write.
    + apply (appends_seq (write_value v) (write_pairs opa)); [by apply write_value_appends|by apply IH].
Qed.

Lemma WriteObject_appends opa :
  Forall pair_writable opa → Forall pair_fits opa → appends content (WriteObject opa) (object_bytes opa).
Proof.
  intros Hok Hf.
  apply (appends_seq (w_write [Amf0TypeMarkerObject])
    (λ w, w ← write_pairs opa w; w_write Amf0TypeMarkerObjectEndBytes w)).
  - apply appends_write. simpl. lia.
  - apply (appends_seq (write_pairs opa) (w_write Amf0TypeMarkerObjectEndBytes)).
    + by apply write_pairs_appends.
    + apply appends_write. simpl. lia.
Qed.
End WriteFacts.

(** Writing to a plain buffer. *)
Lemma WriteString_bytes {BS : BeleStream} {HBS : BeleStreamLaws BS} s buf :
  len s < 4294967296 → WriteString s buf = Ret (buf ++ str_bytes s).
Proof.
  intros Hs. destruct (WriteString_appends (M := 4294967296) (content := eq) ltac:(lia) s Hs ltac:(lia)
    buf buf eq_refl) as (w & -> & <-). done.
Qed.

Lemma WriteObject_bytes {BS : BeleStream} {HBS : BeleStreamLaws BS} opa buf :
  Forall pair_ok opa → WriteObject opa buf = Ret (buf ++ object_bytes opa).
Proof.
  intros Hok. assert (Hf : Forall (pair_fits (M := 65536)) opa).
  { eapply Forall_impl; [exact Hok|]. intros [k v] [H1 H2]. split; [exact (Z.lt_le_incl _ _ H1)|].
    intros s E. cbn [snd] in *. subst v. cbn [value_ok] in H2. lia. }
  assert (Hw : Forall pair_writable opa) by (eapply Forall_impl; [exact Hok|apply pair_ok_writable]).
  destruct (WriteObject_appends (M := 65536) (content := eq) ltac:(lia) opa Hw Hf buf buf eq_refl)
    as (w & -> & <-). done.
Qed.

(** ** Reading what was written *)

Section ReadFacts.
Context {B : Bele} {HB : BeleLaws B} {BS : BeleStream} {HBS : BeleStreamLaws BS}.

Lemma ReadStringWithoutType_spec s rest :
  len s < 65536 → ReadStringWithoutType (be_bytes 2 (len s) ++ s ++ rest) = Ret (s, 2 + len s).
Proof.
  intros Hs. unfold ReadStringWithoutType. go_test. rewrite BeUint16_be, bind_Ret by lia.
  go_test. by rewrite go_slice_app by len_lia.
Qed.

Lemma ReadString_spec s rest :
  len s < 65536 → ReadString (str_bytes s ++ rest) = Ret (s, 3 + len s).
Proof.
  intros Hs. unfold ReadString, str_bytes. rewrite (proj2 (Z.ltb_lt (len s) 65536)) by done.
  rewrite <- app_assoc. cbn [app]. go_test. rewrite go_index_head, bind_Ret by done.
  cbn [Z.eqb Amf0TypeMarkerString]. go_read.
  change ((?x :: ?y :: ?t)) with (be_bytes 2 (len s) ++ s ++ rest).
  rewrite ReadStringWithoutType_spec, bind_Ret by done. do 2 f_equal. lia.
Qed.

Lemma ReadNumber_spec v rest : is_u64 v → ReadNumber (num_bytes v ++ rest) = Ret (v, 9).
Proof.
  intros Hv. unfold ReadNumber, num_bytes. rewrite <- app_assoc. cbn [app]. go_test.
  rewrite go_index_head, bind_Ret by done. cbn [Z.eqb Amf0TypeMarkerNumber negb]. go_read.
  rewrite (BeFloat64_reads (be_bytes 8 v) rest); [|apply be_bytes_length|apply is_bytes_be_bytes].
  by rewrite bind_Ret, be_val_be_bytes_small.
Qed.

Lemma ReadBoolean_spec (b : bool) rest :
  ReadBoolean (([Amf0TypeMarkerBoolean] ++ [if b then 1 else 0]) ++ rest) = Ret (b, 2).
Proof.
  unfold ReadBoolean. cbn [app]. go_test. go_read.
  cbn [Z.eqb Amf0TypeMarkerBoolean Pos.eqb negb]. go_read. by destruct b.
Qed.

Lemma str_bytes_short s :
  len s < 65536 → str_bytes s = Amf0TypeMarkerString :: be_bytes 2 (len s) ++ s.
Proof. intros Hs. unfold str_bytes. by rewrite (proj2 (Z.ltb_lt (len s) 65536)). Qed.

Lemma value_bytes_length v :
  value_ok v → 1 ≤ len (value_bytes v) ∧ 
  len (value_bytes v) = match v with AmfString s => 3 + len s | AmfBoolean _ => 2 | _ => 9 end.
Proof.
  destruct v as [s|i|bits|b|o]; cbn [value_ok value_bytes]; intros Hv; try done.
  rewrite str_bytes_short by done. len_lia.
Qed.

Definition marker (v : AmfValue) : Z :=
  match v with
  | AmfString _ => Amf0TypeMarkerString
  | AmfBoolean _ => Amf0TypeMarkerBoolean
  | _ => Amf0TypeMarkerNumber
  end.

Lemma value_bytes_marker v : value_ok v → ∃ t, value_bytes v = marker v :: t.
Proof.
  destruct v as [s|i|bits|b|o]; cbn [value_ok value_bytes marker]; intros Hv;
    try (eexists; reflexivity); [|done].
  rewrite str_bytes_short by done. by eexists.
Qed.

Lemma read_value_spec fuel pre v k ops rest :
  value_ok v →
  read_value (S fuel) (pre ++ value_bytes v ++ rest) (len pre) k ops =
  Ret (ops ++ [(k, read_back v)], len pre + len (value_bytes v)).
Proof.
  intros Hv. destruct (value_bytes_length v Hv) as [L1 L2]. cbn [read_value].
  rewrite (proj2 (Z.ltb_ge _ 1)) by len_lia.
  destruct (value_bytes_marker v Hv) as [t Et].
  assert (Ei : go_index (pre ++ value_bytes v ++ rest) (len pre) = Ret (marker v))
    by (rewrite Et; by apply go_index_app).
  rewrite Ei, (go_from_app pre), !bind_Ret, L2 by done.
  destruct v as [s|i|bits|b|o]; cbn [value_ok value_bytes read_back marker] in *; try done;
    cbn [Z.eqb Amf0TypeMarkerString Amf0TypeMarkerNumber Amf0TypeMarkerBoolean Pos.eqb].
  - by rewrite ReadString_spec.
  - rewrite ReadNumber_spec; [done|]. by apply float64_of_int_roundtrip.
  - by rewrite ReadNumber_spec.
  - by rewrite ReadBoolean_spec.
Qed.

(** The end marker is never mistaken for a pair, nor a pair for it. *)
Lemma at_end_yes pre rest :
  at_end (pre ++ Amf0TypeMarkerObjectEndBytes ++ rest) (len pre) Amf0TypeMarkerObjectEndBytes = Ret true.
Proof.
  unfold at_end. rewrite Z.geb_leb, (proj2 (Z.leb_le 3 _))
    by (unfold Amf0TypeMarkerObjectEndBytes; len_lia).
  by rewrite go_slice_app by done.
Qed.

Lemma at_end_no pre k m t :
  len k < 65536 → m ≠ Amf0TypeMarkerObjectEnd →
  at_end (pre ++ be_bytes 2 (len k) ++ k ++ m :: t) (len pre) Amf0TypeMarkerObjectEndBytes = Ret false.
Proof.
  intros Hk Hm. unfold at_end. rewrite Z.geb_leb, (proj2 (Z.leb_le 3 _)) by len_lia.
  destruct k as [|x k].
  - change (be_bytes 2 (len []) ++ [] ++ m :: t) with ([0; 0; m] ++ t).
    rewrite go_slice_app, bind_Ret by done. rewrite bool_decide_false; [done|]. intros [= ?]. done.
  - change (be_bytes 2 (len (x :: k)) ++ (x :: k) ++ m :: t)
      with ((be_bytes 2 (len (x :: k)) ++ [x]) ++ k ++ m :: t).
    rewrite go_slice_app, bind_Ret by len_lia. rewrite bool_decide_false; [done|].
    intros E. apply (f_equal (λ l, be_val (take 2 l))) in E.
    rewrite take_app_length' in E by (symmetry; apply be_bytes_length).
    rewrite be_val_be_bytes_small in E by (change (256 ^ Z.of_nat 2) with 65536; lia).
    change (be_val _) with 0 in E. simpl in E. lia.
Qed.

Lemma object_loop_eq fuel b index ops :
  object_loop (S fuel) b index ops =
  (e ← at_end b index Amf0TypeMarkerObjectEndBytes;
   if e : bool then Ret (ops, index + 3) else
   s ← go_from b index;
   '(k, l) ← ReadStringWithoutType s;
   '(ops, index) ← read_value fuel b (index + l) k ops;
   object_loop fuel b index ops).
Proof. reflexivity. Qed.

Lemma object_loop_spec opa : ∀ fuel pre ops rest,
  Forall pair_ok opa → (length opa < fuel)%nat →
  object_loop fuel (pre ++ pairs_bytes opa ++ Amf0TypeMarkerObjectEndBytes ++ rest) (len pre) ops =
  Ret (ops ++ map read_back_pair opa, len pre + len (pairs_bytes opa) + 3).
Proof.
  induction opa as [|[k v] opa IH]; intros fuel pre ops rest Hok Hf;
    (destruct fuel as [|fuel]; [simpl in Hf; lia|]).
  - cbn [pairs_bytes map]. rewrite object_loop_eq, app_nil_l, at_end_yes, bind_Ret, app_nil_r.
    do 2 f_equal. simpl. lia.
  - apply Forall_cons in Hok as [[Hk Hv] Hok]. cbn [fst snd] in Hk, Hv. cbn [pairs_bytes].
    set (tail := pairs_bytes opa ++ Amf0TypeMarkerObjectEndBytes ++ rest).
    destruct (value_bytes_marker v Hv) as (t & Em).
    replace (pre ++ (be_bytes 2 (len k) ++ k ++ value_bytes v ++ pairs_bytes opa) ++
      Amf0TypeMarkerObjectEndBytes ++ rest)
      with (pre ++ be_bytes 2 (len k) ++ k ++ value_bytes v ++ tail)
      by (unfold tail; by rewrite <- !app_assoc).
    rewrite object_loop_eq.
    assert (Ee : at_end (pre ++ be_bytes 2 (len k) ++ k ++ value_bytes v ++ tail) (len pre)
      Amf0TypeMarkerObjectEndBytes = Ret false) by (rewrite Em; apply at_end_no; [done|by destruct v]).
    rewrite Ee, bind_Ret, go_from_app, bind_Ret by done.
    rewrite ReadStringWithoutType_spec, bind_Ret by done.
    destruct fuel as [|fuel]; [simpl in Hf; lia|].
    set (pre2 := pre ++ be_bytes 2 (len k) ++ k).
    replace (pre ++ be_bytes 2 (len k) ++ k ++ value_bytes v ++ tail)
      with (pre2 ++ value_bytes v ++ tail) by (unfold pre2; by rewrite <- !app_assoc).
    replace (len pre + (2 + len k)) with (len pre2) by (unfold pre2; len_lia).
    rewrite read_value_spec, bind_Ret by done. unfold tail. rewrite app_assoc.
    replace (len pre2 + len (value_bytes v)) with (len (pre2 ++ value_bytes v)) by len_lia.
    rewrite IH by (done || (simpl in Hf; lia)).
    cbn [map]. rewrite <- app_assoc. do 2 f_equal. unfold pre2. len_lia.
Qed.

Lemma pairs_bytes_length opa : (length opa ≤ length (pairs_bytes opa))%nat.
Proof. induction opa as [|[k v] opa IH]; cbn [pairs_bytes]; len_lia. Qed.

Lemma read_object_eq fuel b :
  read_object (S fuel) b =
  (if len b <? 1 then Fail ErrAmfTooShort else
   b0 ← go_index b 0;
   if negb (b0 =? Amf0TypeMarkerObject) then Fail ErrAmfInvalidType else
   object_loop fuel b 1 []).
Proof. reflexivity. Qed.

Lemma ReadObject_spec opa rest :
  Forall pair_ok opa →
  ReadObject (object_bytes opa ++ rest) = Ret (map read_back_pair opa, len (object_bytes opa)).
Proof.
  intros Hok. unfold ReadObject.
  assert (Hf : (length opa < amf_fuel (object_bytes opa ++ rest) - 1)%nat).
  { pose proof (pairs_bytes_length opa). unfold amf_fuel, object_bytes. len_lia. }
  replace (amf_fuel (object_bytes opa ++ rest))
    with (S (amf_fuel (object_bytes opa ++ rest) - 1)) by lia.
  generalize dependent (amf_fuel (object_bytes opa ++ rest) - 1)%nat. intros fuel Hf.
  rewrite read_object_eq. unfold object_bytes. rewrite <- !app_assoc. go_test.
  rewrite (go_index_head Amf0TypeMarkerObject (pairs_bytes opa ++ Amf0TypeMarkerObjectEndBytes ++ rest)), bind_Ret by done.
  cbn [Z.eqb Amf0TypeMarkerObject Pos.eqb negb].
  change 1 with (len [Amf0TypeMarkerObject]) at 1. rewrite object_loop_spec by done.
  do 2 f_equal. unfold Amf0TypeMarkerObjectEndBytes. len_lia.
Qed.

Lemma ReadObjectOrArray_spec opa rest :
  Forall pair_ok opa →
  ReadObjectOrArray (object_bytes opa ++ rest) = Ret (map read_back_pair opa, len (object_bytes opa)).
Proof.
  intros Hok. unfold ReadObjectOrArray.
  rewrite (proj2 (Z.ltb_ge _ 1)) by (unfold object_bytes; len_lia).
  assert (E : go_index (object_bytes opa ++ rest) 0 = Ret Amf0TypeMarkerObject)
    by (unfold object_bytes; rewrite <- app_assoc; by apply go_index_head).
  rewrite E, bind_Ret. by apply ReadObject_spec.
Qed.

Lemma Find_read_back opa key v :
  Find opa key = Some v → Find (map read_back_pair opa) key = Some (read_back v).
Proof.
  induction opa as [|[k w] opa IH]; cbn [Find map read_back_pair fst snd]; [done|].
  destruct (decide (k = key)); [by intros [= ->]|apply IH].
Qed.
Lemma Find_number o key bits :
  Find o key = Some (AmfNumber bits) → FindNumber o key = Ret (int_of_float64 bits).
Proof.
  induction o as [|[k w] o IH]; cbn [Find FindNumber]; [done|].
  destruct (decide (k = key)); [by intros [= ->]|apply IH].
Qed.
Lemma Find_string o key s : Find o key = Some (AmfString s) → FindString o key = Ret s.
Proof.
  induction o as [|[k w] o IH]; cbn [Find FindString]; [done|].
  destruct (decide (k = key)); [by intros [= ->]|apply IH].
Qed.
Lemma Find_ok opa key v : Forall pair_ok opa → Find opa key = Some v → value_ok v.
Proof.
  induction 1 as [|[k w] opa [H1 H2] Hok IH]; cbn [Find]; [done|].
  destruct (decide (k = key)); [by intros [= <-]|done].
Qed.
End ReadFacts.

(** C36: an object written to a buffer is read back, from any longer input, with
    its keys in order, its strings, booleans and floats, and its integers as
    floats; the reader consumes exactly what was written, and looking a key up
    in the result gives the string or the integer the pair was written with.  The
    keys and strings are shorter than 65536 bytes (longer strings are written but
    not read, [amf0_long_string_lost]), the integers have less than 53 bits, and no
    value is an object. *)
Theorem amf0_object_roundtrip {B : Bele} (HB : BeleLaws B) {BS : BeleStream} (HBS : BeleStreamLaws BS)
    opa buf :
  Forall pair_ok opa →
  ∃ wire, WriteObject opa buf = Ret (buf ++ wire) ∧
    (∀ rest, ReadObject (wire ++ rest) = Ret (map read_back_pair opa, len wire) ∧
             ReadObjectOrArray (wire ++ rest) = Ret (map read_back_pair opa, len wire)) ∧
    (∀ key i, Find opa key = Some (AmfInt i) → FindNumber (map read_back_pair opa) key = Ret i) ∧
    (∀ key s, Find opa key = Some (AmfString s) → FindString (map read_back_pair opa) key = Ret s).
Proof.
  intros Hok. exists (object_bytes opa). split; [|split; [|split]].
  - by apply WriteObject_bytes.
  - intros rest. split; [by apply ReadObject_spec|by apply ReadObjectOrArray_spec].
  - intros key i E. apply Find_ok in E as Hi; [|done].
    rewrite (Find_number _ _ _ (Find_read_back _ _ _ E)). f_equal.
    by apply float64_of_int_roundtrip.
  - intros key s E. apply (Find_string _ _ _ (Find_read_back _ _ _ E)).
Qed.

(** On any bytes every AMF reader returns a value and a length between 1
    and the size of its input, or one of its errors: malformed, truncated or
    deeply nested data never makes it index out of range or loop. *)
Theorem amf0_read_total {B : Bele} (HB : BeleLaws B) {BS : BeleStream} (HBS : BeleStreamLaws BS) b :
  is_bytes b →
  total (consumed 1 b) (ReadString b) ∧ total (consumed 1 b) (ReadNumber b) ∧
  total (consumed 1 b) (ReadBoolean b) ∧ total (consumed 1 b) (ReadObject b) ∧
  total (consumed 1 b) (ReadArray b) ∧ total (consumed 1 b) (ReadStrictArray b) ∧
  total (consumed 1 b) (ReadObjectOrArray b).
Proof.
  intros Hb. split_and!; by (apply ReadString_total || apply ReadNumber_total ||
    apply ReadBoolean_total || apply ReadObject_total || apply ReadArray_total ||
    apply ReadStrictArray_total || apply ReadObjectOrArray_total).
Qed.

(** A string of 65536 bytes or more in an object is written as a long
    string, which the object reader does not accept: the object cannot be read
    back. *)
Theorem amf0_long_string_lost {B : Bele} (HB : BeleLaws B) {BS : BeleStream} (HBS : BeleStreamLaws BS)
    k s buf :
  len k < 65536 → 65536 ≤ len s < 4294967296 →
  ∃ wire, WriteObject [(k, AmfString s)] buf = Ret (buf ++ wire) ∧
    ReadObject wire = Fail ErrAmfInvalidType.
Proof.
  intros Hk Hs.
  exists (object_bytes [(k, AmfString s)]). split.
  - destruct (WriteObject_appends (M := 4294967296) (content := eq) ltac:(lia) [(k, AmfString s)])
      with (w := buf) (s := buf) as (w & -> & <-); [| |done|done].
    + constructor; [|done]. split; [exact Hk|]. simpl. lia.
    + constructor; [|done]. split; [simpl; lia|]. intros s' [= ->]. lia.
  - unfold ReadObject, amf_fuel. rewrite Nat.add_comm. cbn [Nat.add].
    rewrite read_object_eq. unfold object_bytes. cbn [pairs_bytes]. rewrite app_nil_r.
    set (tail := str_bytes s ++ Amf0TypeMarkerObjectEndBytes).
    replace ((be_bytes 2 (len k) ++ k ++ value_bytes (AmfString s)) ++ Amf0TypeMarkerObjectEndBytes)
      with (be_bytes 2 (len k) ++ k ++ tail) by (unfold tail; by rewrite <- !app_assoc).
    assert (Et : ∃ t, tail = Amf0TypeMarkerLongString :: t).
    { unfold tail, str_bytes. rewrite (proj2 (Z.ltb_ge (len s) 65536)) by lia. by eexists. }
    destruct Et as [t ->].
    rewrite (proj2 (Z.ltb_ge _ 1)) by len_lia.
    rewrite (go_index_head Amf0TypeMarkerObject (be_bytes 2 (len k) ++ k ++ Amf0TypeMarkerLongString :: t)), bind_Ret by done.
    cbn [Z.eqb Amf0TypeMarkerObject Pos.eqb negb].
    rewrite object_loop_eq. change 1 with (len [Amf0TypeMarkerObject]).
    rewrite at_end_no, bind_Ret, go_from_app, bind_Ret by done.
    rewrite ReadStringWithoutType_spec, bind_Ret by done.
    cbn [read_value]. rewrite (proj2 (Z.ltb_ge _ 1)) by len_lia.
    rewrite app_assoc, (app_assoc _ k).
    replace (len [Amf0TypeMarkerObject] + (2 + len k))
      with (len (([Amf0TypeMarkerObject] ++ be_bytes 2 (len k)) ++ k)) by len_lia.
    by rewrite go_index_app, bind_Ret, go_from_app, bind_Ret by done.
Qed.

(** ** Witnesses *)

Definition demo_opa : ObjectPairArray :=
  [(str "app", AmfString (str "live")); (str "audiocodecid", AmfInt 10); (str "fpad", AmfBoolean false);
   ([], AmfNumber 4607182418800017408)].

Lemma demo_opa_ok : Forall pair_ok demo_opa.
Proof. repeat constructor; vm_compute; intuition congruence. Qed.

Lemma amf0_object_roundtrip_witness :
  ∃ wire, @WriteObject bele_stream_impl _ _ demo_opa [2] = Ret ([2] ++ wire) ∧
    (∀ rest, @ReadObject bele_impl bele_stream_impl (wire ++ rest) = Ret (map read_back_pair demo_opa, len wire) ∧
       @ReadObjectOrArray bele_impl bele_stream_impl (wire ++ rest) =
         Ret (map read_back_pair demo_opa, len wire)) ∧
    (∀ key i, Find demo_opa key = Some (AmfInt i) → FindNumber (map read_back_pair demo_opa) key = Ret i) ∧
    (∀ key s, Find demo_opa key = Some (AmfString s) → FindString (map read_back_pair demo_opa) key = Ret s).
Proof. exact (amf0_object_roundtrip bele_impl_laws bele_stream_impl_laws demo_opa [2] demo_opa_ok). Defined.

Lemma amf0_read_total_witness :
  let b := [3; 0; 1; 97; 10; 255; 255; 255; 255; 3; 0] in
  total (consumed 1 b) (@ReadString bele_impl b) ∧
  total (consumed 1 b) (@ReadNumber bele_stream_impl b) ∧
  total (consumed 1 b) (ReadBoolean b) ∧ total (consumed 1 b) (@ReadObject bele_impl bele_stream_impl b) ∧
  total (consumed 1 b) (@ReadArray bele_impl bele_stream_impl b) ∧
  total (consumed 1 b) (@ReadStrictArray bele_impl bele_stream_impl b) ∧
  total (consumed 1 b) (@ReadObjectOrArray bele_impl bele_stream_impl b).
Proof.
  apply (amf0_read_total bele_impl_laws bele_stream_impl_laws). repeat constructor; lia.
Defined.

Lemma amf0_long_string_lost_witness :
  ∃ wire, @WriteObject bele_stream_impl _ _ [([97], AmfString (replicate (Z.to_nat 65536) 98))] [] = Ret ([] ++ wire) ∧
    @ReadObject bele_impl bele_stream_impl wire = Fail ErrAmfInvalidType.
Proof.
  apply (amf0_long_string_lost bele_impl_laws bele_stream_impl_laws [97] (replicate (Z.to_nat 65536) 98) []).
  - simpl. lia.
  - rewrite length_replicate. lia.
Defined.
