(* ===== verification/Metadata.v ===== *)
(** * RTMP metadata (src/pkg/rtmp/metadata.go)

    The payload of a metadata message: a string, "@setDataFrame" first when a
    publisher sends it, and an object or array. *)

From S2P Require Import Prelude Naza GoFloat Amf0.

Definition setDataFrame : list Z := str "@setDataFrame".

(** The version strings of src/pkg/base/t_version.go that end up in messages. *)
Record Versions := mkVersions {
  LalRtmpBuildMetadataEncoder : list Z;
  LalVersionDot : list Z;
  LalRtmpConnectResultVersion : list Z;
  LalRtmpPushSessionConnectVersion : list Z;
}.

Section Metadata.
Context {B : Bele} {BS : BeleStream} {NB : NazaBuffer}.

Definition ParseMetadata (b : list Z) : outcome ObjectPairArray :=
  let pos := 0 in
  s ← go_from b pos;
  '(v, l) ← ReadString s;
  let pos := pos + l in
  pos ←
    (if bool_decide (v = setDataFrame) then
       s ← go_from b pos;
       '(_, l) ← ReadString s;
       Ret (pos + l)
     else Ret pos);
  s ← go_from b pos;
  '(opa, _) ← ReadObjectOrArray s;
  Ret opa.

(** The bytes returned, next to the error if there is one. *)
Definition MetadataEnsureWithSdf (b : list Z) : outcome (list Z * option goerr) :=
  match ReadString b with
  | Panic => Panic
  | Fail e => Ret ([] ++ b, Some e)
  | Ret (v, _) =>
      if bool_decide (v = setDataFrame) then Ret ([] ++ b, None) else
      let buf := NewBuffer (16 + len b) in
      match WriteString setDataFrame buf with
      | Panic => Panic
      | Fail e => Ret ([] ++ b, Some e)
      | Ret buf => buf ← w_write b buf; Ret (bufBytes buf, None)
      end
  end.

Definition MetadataEnsureWithoutSdf (b : list Z) : outcome (list Z * option goerr) :=
  match ReadString b with
  | Panic => Panic
  | Fail e => Ret ([] ++ b, Some e)
  | Ret (v, l) =>
      if negb (bool_decide (v = setDataFrame)) then Ret ([] ++ b, None) else
      s ← go_from b l; Ret ([] ++ s, None)
  end.

(** The pairs of [BuildMetadata]; -1 leaves a field out. *)
Definition build_pairs (ver : Versions) (width height audiocodecid videocodecid : Z) : ObjectPairArray :=
  let field key v := if negb (v =? -1) then [(str key, AmfInt v)] else [] in
  field "width"%string width ++ field "height"%string height ++
  field "audiocodecid"%string audiocodecid ++ field "videocodecid"%string videocodecid ++
  [(str "version", AmfString (LalRtmpBuildMetadataEncoder ver));
   (str "lal", AmfString (LalVersionDot ver))].

Definition BuildMetadata (ver : Versions) (width height audiocodecid videocodecid : Z)
    : outcome (list Z) :=
  buf ← WriteString (str "onMetaData") ([] : list Z);
  WriteObject (build_pairs ver width height audiocodecid videocodecid) buf.
End Metadata.

Section Facts.
Context {B : Bele} {HB : BeleLaws B} {BS : BeleStream} {HBS : BeleStreamLaws BS}.
Context {NB : NazaBuffer} {HNB : NazaBufferLaws NB}.

Lemma setDataFrame_len : len setDataFrame = 13.
Proof. reflexivity. Qed.

(** Metadata that does not start with "@setDataFrame" gets it in front. *)
Lemma ensure_with b v l :
  ReadString b = Ret (v, l) → v ≠ setDataFrame →
  MetadataEnsureWithSdf b = Ret (str_bytes setDataFrame ++ b, None).
Proof.
  intros E Hv. unfold MetadataEnsureWithSdf. rewrite E, bool_decide_false by done. cbv zeta.
  destruct (WriteString_appends (M := 65536) (content := λ b s, bufBytes b = s) ltac:(lia) setDataFrame
    ltac:(rewrite setDataFrame_len; lia) ltac:(rewrite setDataFrame_len; lia)
    (NewBuffer (16 + len b)) [] (bytes_new _)) as (w & -> & Hw).
  destruct (write_ok (M := len b) b w _ Hw ltac:(lia)) as (w' & -> & Hw').
  by rewrite bind_Ret, Hw'.
Qed.

Lemma read_with b : ReadString (str_bytes setDataFrame ++ b) = Ret (setDataFrame, 16).
Proof. by rewrite ReadString_spec. Qed.

Lemma ensure_without b :
  MetadataEnsureWithoutSdf (str_bytes setDataFrame ++ b) = Ret (b, None).
Proof.
  unfold MetadataEnsureWithoutSdf. rewrite read_with, bool_decide_true by done. cbn [negb].
  by rewrite go_from_app, bind_Ret by done.
Qed.

Lemma parse_with b v l :
  0 ≤ l → ReadString b = Ret (v, l) → v ≠ setDataFrame →
  ParseMetadata (str_bytes setDataFrame ++ b) = ParseMetadata b.
Proof.
  intros Hl E Hv. unfold ParseMetadata. cbv zeta. rewrite !go_from_head, !bind_Ret by done.
  rewrite read_with, E, !bind_Ret. rewrite bool_decide_true, bool_decide_false by done.
  rewrite go_from_app, bind_Ret by done. rewrite E, !bind_Ret.
  change (len (str_bytes setDataFrame)) with 16. rewrite go_from_app_r;
    change (len (str_bytes setDataFrame)) with 16; [do 2 f_equal; lia|lia].
Qed.

(** What [FindNumber] finds for a field of [BuildMetadata]. *)
Definition field_read (opa : ObjectPairArray) (key : list Z) (v : Z) : Prop :=
  FindNumber opa key = if v =? -1 then Fail ErrAmfNotExist else Ret v.

Definition versions_ok (ver : Versions) : Prop :=
  len (LalRtmpBuildMetadataEncoder ver) < 65536 ∧ len (LalVersionDot ver) < 65536.

Lemma build_pairs_ok ver w h a v :
  versions_ok ver → Z.abs w < 2 ^ 53 → Z.abs h < 2 ^ 53 → Z.abs a < 2 ^ 53 → Z.abs v < 2 ^ 53 →
  Forall pair_ok (build_pairs ver w h a v).
Proof.
  intros [V1 V2] Hw Hh Ha Hv. unfold build_pairs.
  assert (F : ∀ key x, len (str key) < 65536 → Z.abs x < 2 ^ 53 →
    Forall pair_ok (if negb (x =? -1) then [(str key, AmfInt x)] else [])).
  { intros key x Hk Hx. destruct (negb _); [|done]. constructor; [|done]. done. }
  rewrite !Forall_app. split_and!; try (apply F; [reflexivity|done]).
  repeat constructor; done.
Qed.

Lemma BuildMetadata_bytes ver w h a v :
  versions_ok ver → Z.abs w < 2 ^ 53 → Z.abs h < 2 ^ 53 → Z.abs a < 2 ^ 53 → Z.abs v < 2 ^ 53 →
  BuildMetadata ver w h a v = Ret (str_bytes (str "onMetaData") ++ object_bytes (build_pairs ver w h a v)).
Proof.
  intros. unfold BuildMetadata. rewrite WriteString_bytes, bind_Ret by done.
  rewrite app_nil_l. by apply WriteObject_bytes, build_pairs_ok.
Qed.

Lemma build_pairs_read ver w h a v :
  Z.abs w < 2 ^ 53 → Z.abs h < 2 ^ 53 → Z.abs a < 2 ^ 53 → Z.abs v < 2 ^ 53 →
  let opa := map read_back_pair (build_pairs ver w h a v) in
  field_read opa (str "width") w ∧ field_read opa (str "height") h ∧
  field_read opa (str "audiocodecid") a ∧ field_read opa (str "videocodecid") v ∧
  FindString opa (str "version") = Ret (LalRtmpBuildMetadataEncoder ver).
Proof.
  intros Hw Hh Ha Hv. unfold field_read, build_pairs.
  destruct (w =? -1), (h =? -1), (a =? -1), (v =? -1);
    cbv -[int_of_float64 float64_of_int Z.abs Z.pow];
    rewrite ?(proj2 (float64_of_int_roundtrip _ Hw)), ?(proj2 (float64_of_int_roundtrip _ Hh)),
      ?(proj2 (float64_of_int_roundtrip _ Ha)), ?(proj2 (float64_of_int_roundtrip _ Hv)); done.
Qed.
End Facts.

(** "@setDataFrame" is put in front of metadata that lacks it, once, taking
    it off gives the metadata back, and metadata parses the same with it and
    without. *)
Theorem metadata_sdf {B : Bele} (HB : BeleLaws B) {BS : BeleStream} (HBS : BeleStreamLaws BS)
    {NB : NazaBuffer} (HNB : NazaBufferLaws NB) b v l :
  is_bytes b → ReadString b = Ret (v, l) → v ≠ setDataFrame →
  ∃ b', MetadataEnsureWithSdf b = Ret (b', None) ∧ MetadataEnsureWithSdf b' = Ret (b', None) ∧
    MetadataEnsureWithoutSdf b' = Ret (b, None) ∧ MetadataEnsureWithoutSdf b = Ret (b, None) ∧
    ParseMetadata b' = ParseMetadata b.
Proof.
  intros Hb E Hv. exists (str_bytes setDataFrame ++ b).
  split; [by eapply ensure_with|]. split; [|split; [apply ensure_without|split]].
  - unfold MetadataEnsureWithSdf. by rewrite read_with, bool_decide_true.
  - unfold MetadataEnsureWithoutSdf. by rewrite E, bool_decide_false.
  - eapply parse_with; [|done|done].
    pose proof (ReadString_total b Hb) as Ht. rewrite E in Ht. unfold consumed in Ht. simpl in Ht. lia.
Qed.

(** The metadata lal builds parses, with or without "@setDataFrame", to an
    object in which every field asked for has its value, and the fields given
    as -1 are absent. *)
Theorem build_metadata_parse {B : Bele} (HB : BeleLaws B) {BS : BeleStream} (HBS : BeleStreamLaws BS)
    {NB : NazaBuffer} (HNB : NazaBufferLaws NB) ver w h a v :
  versions_ok ver → Z.abs w < 2 ^ 53 → Z.abs h < 2 ^ 53 → Z.abs a < 2 ^ 53 → Z.abs v < 2 ^ 53 →
  ∃ b b' opa, BuildMetadata ver w h a v = Ret b ∧ MetadataEnsureWithSdf b = Ret (b', None) ∧
    ParseMetadata b = Ret opa ∧ ParseMetadata b' = Ret opa ∧
    field_read opa (str "width") w ∧ field_read opa (str "height") h ∧
    field_read opa (str "audiocodecid") a ∧ field_read opa (str "videocodecid") v ∧
    FindString opa (str "version") = Ret (LalRtmpBuildMetadataEncoder ver).
Proof.
  intros Hver Hw Hh Ha Hv. set (opa := build_pairs ver w h a v).
  assert (Hok : Forall pair_ok opa) by by apply build_pairs_ok.
  exists (str_bytes (str "onMetaData") ++ object_bytes opa).
  exists (str_bytes setDataFrame ++ str_bytes (str "onMetaData") ++ object_bytes opa).
  exists (map read_back_pair opa).
  assert (Er : ∀ t, ReadString (str_bytes (str "onMetaData") ++ t) = Ret (str "onMetaData", 13))
    by (intros t; by apply ReadString_spec).
  assert (Ep : ParseMetadata (str_bytes (str "onMetaData") ++ object_bytes opa) = Ret (map read_back_pair opa)).
  { unfold ParseMetadata. cbv zeta. rewrite go_from_head, bind_Ret, Er, !bind_Ret by done.
    rewrite bool_decide_false, bind_Ret, go_from_app, bind_Ret by done.
    rewrite <- (app_nil_r (object_bytes opa)). rewrite ReadObjectOrArray_spec by done. done. }
  assert (Hne : str "onMetaData" ≠ setDataFrame) by done.
  split; [|split; [|split; [done|split]]].
  - by apply BuildMetadata_bytes.
  - by apply (ensure_with _ _ _ (Er _)).
  - rewrite (parse_with _ _ 13 ltac:(lia) (Er _)) by done. done.
  - by apply build_pairs_read.
Qed.

(** ** Witnesses *)

Definition demo_versions : Versions :=
  mkVersions (str "lal0.37.4") (str "0.37.4") (str "0,37,4") (str "lal0.37.4").

Lemma metadata_sdf_witness :
  let b := str_bytes (str "onMetaData") ++ object_bytes [(str "width", AmfInt 640)] in
  ∃ b', @MetadataEnsureWithSdf bele_impl bele_stream_impl buffer_impl b = Ret (b', None) ∧
    @MetadataEnsureWithSdf bele_impl bele_stream_impl buffer_impl b' = Ret (b', None) ∧
    @MetadataEnsureWithoutSdf bele_impl b' = Ret (b, None) ∧
    @MetadataEnsureWithoutSdf bele_impl b = Ret (b, None) ∧
    @ParseMetadata bele_impl bele_stream_impl b' = @ParseMetadata bele_impl bele_stream_impl b.
Proof.
  intros b.
  apply (metadata_sdf bele_impl_laws bele_stream_impl_laws buffer_impl_laws b (str "onMetaData") 13).
  - apply (bool_decide_unpack _). vm_compute. exact I.
  - vm_compute. reflexivity.
  - discriminate.
Defined.

Lemma build_metadata_parse_witness :
  ∃ b b' opa, @BuildMetadata bele_stream_impl demo_versions 1280 (-1) 10 7 = Ret b ∧
    @MetadataEnsureWithSdf bele_impl bele_stream_impl buffer_impl b = Ret (b', None) ∧
    @ParseMetadata bele_impl bele_stream_impl b = Ret opa ∧
    @ParseMetadata bele_impl bele_stream_impl b' = Ret opa ∧
    field_read opa (str "width") 1280 ∧ field_read opa (str "height") (-1) ∧
    field_read opa (str "audiocodecid") 10 ∧ field_read opa (str "videocodecid") 7 ∧
    FindString opa (str "version") = Ret (str "lal0.37.4").
Proof.
  apply (build_metadata_parse bele_impl_laws bele_stream_impl_laws buffer_impl_laws demo_versions
    1280 (-1) 10 7); first [lia | split; reflexivity].
Defined.
