(* ===== verification/FlvRemux.v ===== *)
(** * RTMP messages and FLV tags (src/pkg/remux/flv2rtmp.go, rtmp2flv.go, rtmp.go)

    The conversions between messages, tags and chunks the group uses to feed
    RTMP and HTTP-FLV subscribers, and their cached ([Lazy...]) versions. *)

From stdpp Require Import gmap.
From S2P Require Import Prelude Naza GoFloat RtmpMsg RtmpChunk Amf0 Metadata.
From S2P Require FlvTag.

Definition CsidAmf : Z := 5.
Definition CsidAudio : Z := 6.
Definition CsidVideo : Z := 7.
Definition Msid1 : Z := 1.

Definition MakeDefaultRtmpHeader (h : RtmpHeader) : RtmpHeader :=
  mkRtmpHeader
    (if MsgTypeId h =? RtmpTypeIdMetadata then CsidAmf
     else if MsgTypeId h =? RtmpTypeIdAudio then CsidAudio
     else if MsgTypeId h =? RtmpTypeIdVideo then CsidVideo else 0)
    (MsgLen h) (MsgTypeId h) Msid1 (TimestampAbs h).

Definition FlvTagHeader2RtmpHeader (h : FlvTag.TagHeader) : RtmpHeader :=
  mkRtmpHeader
    (if FlvTag.TagType h =? FlvTag.TagTypeMetadata then CsidAmf
     else if FlvTag.TagType h =? FlvTag.TagTypeAudio then CsidAudio
     else if FlvTag.TagType h =? FlvTag.TagTypeVideo then CsidVideo else 0)
    (FlvTag.DataSize h) (FlvTag.TagType h) Msid1 (FlvTag.TagTimestamp h).

Definition FlvTag2RtmpMsg (tag : FlvTag.Tag) : outcome RtmpMsg :=
  payload ← FlvTag.TagPayload tag;
  Ret (mkRtmpMsg (FlvTagHeader2RtmpHeader (FlvTag.Header tag)) payload).

Section Remux.
Context {B : Bele} {BS : BeleStream} {NB : NazaBuffer}.

Definition FlvTag2RtmpChunks (tag : FlvTag.Tag) : outcome (list Z) :=
  let rtmpHeader := FlvTagHeader2RtmpHeader (FlvTag.Header tag) in
  payload ← FlvTag.TagPayload tag;
  Message2Chunks payload rtmpHeader.

Definition RtmpMsg2FlvTag (msg : RtmpMsg) : outcome FlvTag.Tag :=
  let h := msgHeader msg in
  raw ← FlvTag.PackHttpflvTag (MsgTypeId h) (TimestampAbs h) (msgPayload msg);
  Ret (FlvTag.mkTag (FlvTag.mkTagHeader (MsgTypeId h) (MsgLen h) (TimestampAbs h) 0) raw).

Record LazyRtmpMsg2FlvTag := mkLazyTag {
  lazyTagMsg : RtmpMsg;
  tagWithoutSdf : option (list Z);
}.

Definition LazyTag_Init (msg : RtmpMsg) : LazyRtmpMsg2FlvTag := mkLazyTag msg None.

Definition tag_GetEnsureWithoutSdf (l : LazyRtmpMsg2FlvTag) : outcome (list Z * LazyRtmpMsg2FlvTag) :=
  match tagWithoutSdf l with
  | Some raw => Ret (raw, l)
  | None =>
      tag ←
        (if MsgTypeId (msgHeader (lazyTagMsg l)) =? RtmpTypeIdMetadata then
           let msg2 := Clone (lazyTagMsg l) in
           '(payload, _) ← MetadataEnsureWithoutSdf (msgPayload msg2);
           RtmpMsg2FlvTag (mkRtmpMsg (msgHeader msg2) payload)
         else RtmpMsg2FlvTag (lazyTagMsg l));
      Ret (FlvTag.Raw tag, mkLazyTag (lazyTagMsg l) (Some (FlvTag.Raw tag)))
  end.

(** "not implemented": the same as without. *)
Definition tag_GetEnsureWithSdf (l : LazyRtmpMsg2FlvTag) : outcome (list Z * LazyRtmpMsg2FlvTag) :=
  tag_GetEnsureWithoutSdf l.

Record LazyRtmpChunkDivider := mkLazyChunks {
  lazyChunksMsg : RtmpMsg;
  chunksWithSdf : option (list Z);
  chunksWithoutSdf : option (list Z);
}.

Definition LazyChunks_Init (msg : RtmpMsg) : LazyRtmpChunkDivider := mkLazyChunks msg None None.

Definition set_len (h : RtmpHeader) (n : Z) : RtmpHeader :=
  mkRtmpHeader (Csid h) n (MsgTypeId h) (MsgStreamId h) (TimestampAbs h).

(** The chunks of a message, its metadata edited by [ensure]. *)
Definition lazy_chunks (ensure : list Z → outcome (list Z * option goerr)) (msg : RtmpMsg)
    : outcome (list Z) :=
  if MsgTypeId (msgHeader msg) =? RtmpTypeIdMetadata then
    let msg2 := Clone msg in
    '(payload, _) ← ensure (msgPayload msg2);
    let h := MakeDefaultRtmpHeader (set_len (msgHeader msg2) (u32 (len payload))) in
    Message2Chunks payload h
  else Message2Chunks (msgPayload msg) (MakeDefaultRtmpHeader (msgHeader msg)).

Definition chunks_GetEnsureWithSdf (l : LazyRtmpChunkDivider) : outcome (list Z * LazyRtmpChunkDivider) :=
  match chunksWithSdf l with
  | Some c => Ret (c, l)
  | None =>
      c ← lazy_chunks MetadataEnsureWithSdf (lazyChunksMsg l);
      Ret (c, mkLazyChunks (lazyChunksMsg l) (Some c) (chunksWithoutSdf l))
  end.

Definition chunks_GetEnsureWithoutSdf (l : LazyRtmpChunkDivider) : outcome (list Z * LazyRtmpChunkDivider) :=
  match chunksWithoutSdf l with
  | Some c => Ret (c, l)
  | None =>
      c ← lazy_chunks MetadataEnsureWithoutSdf (lazyChunksMsg l);
      Ret (c, mkLazyChunks (lazyChunksMsg l) (chunksWithSdf l) (Some c))
  end.
End Remux.

(** ** Facts *)

Section Facts.
Context {B : Bele} {HB : BeleLaws B} {BS : BeleStream} {HBS : BeleStreamLaws BS}.
Context {NB : NazaBuffer} {HNB : NazaBufferLaws NB}.

Definition msg_fits (msg : RtmpMsg) : Prop :=
  MsgLen (msgHeader msg) = len (msgPayload msg) ∧ len (msgPayload msg) < 16777216 ∧
  is_u32 (TimestampAbs (msgHeader msg)).

Lemma RtmpMsg2FlvTag_spec msg :
  msg_fits msg →
  RtmpMsg2FlvTag msg = Ret (FlvTag.mkTag
    (FlvTag.mkTagHeader (MsgTypeId (msgHeader msg)) (MsgLen (msgHeader msg)) (TimestampAbs (msgHeader msg)) 0)
    (FlvTag.tag_bytes (MsgTypeId (msgHeader msg)) (TimestampAbs (msgHeader msg)) (msgPayload msg))).
Proof.
  intros (H1 & H2 & H3). unfold RtmpMsg2FlvTag. cbv zeta.
  by rewrite FlvTag.PackHttpflvTag_spec, bind_Ret.
Qed.

(** The header conversion and the default header are the same function. *)
Lemma header_conversion h :
  FlvTagHeader2RtmpHeader (FlvTag.mkTagHeader (MsgTypeId h) (MsgLen h) (TimestampAbs h) 0) =
  MakeDefaultRtmpHeader h.
Proof. reflexivity. Qed.

(** [ensure] leaves the payload of the message alone if it is metadata. *)
Definition sent_as_is (ensure : list Z → outcome (list Z * option goerr)) (msg : RtmpMsg) : Prop :=
  MsgTypeId (msgHeader msg) = RtmpTypeIdMetadata → ∃ e, ensure (msgPayload msg) = Ret (msgPayload msg, e).

Lemma lazy_chunks_as_is ensure msg : msg_fits msg → sent_as_is ensure msg →
  lazy_chunks ensure msg = Message2Chunks (msgPayload msg) (MakeDefaultRtmpHeader (msgHeader msg)).
Proof.
  intros (H1 & H2 & H3) Ha. unfold lazy_chunks. destruct (Z.eqb_spec (MsgTypeId (msgHeader msg)) RtmpTypeIdMetadata) as [E|]; [|done].
  destruct (Ha E) as (e & Ee). cbv zeta. rewrite Clone_id, Ee, bind_Ret. cbv beta iota.
  rewrite (u32_small (len _)) by (split; [lia|]; lia). rewrite <- H1. by destruct (msgHeader msg).
Qed.

Lemma raw_byte t ts body h i v :
  0 ≤ i < len body →
  FlvTag.raw_is (FlvTag.mkTag h (FlvTag.tag_bytes t ts body)) i v = at_is body i v.
Proof.
  intros Hi. unfold FlvTag.raw_is, at_is, FlvTag.TagHeaderSize. cbn [FlvTag.Raw].
  set (hd := t :: be_bytes 3 (len body) ++ be_bytes 3 (ts mod 16777216) ++ [ts / 16777216; 0; 0; 0]).
  change (FlvTag.tag_bytes t ts body) with (hd ++ body ++ be_bytes 4 (11 + len body)).
  rewrite go_index_app_r by (change (len hd) with 11; lia).
  rewrite go_index_app_l by (change (len hd) with 11; lia).
  change (len hd) with 11. by replace (11 + i - 11) with i by lia.
Qed.

Lemma raw_index t ts body h :
  1 ≤ len body →
  go_index (FlvTag.Raw (FlvTag.mkTag h (FlvTag.tag_bytes t ts body))) FlvTag.TagHeaderSize = go_index body 0.
Proof.
  intros Hi. unfold FlvTag.TagHeaderSize. cbn [FlvTag.Raw].
  set (hd := t :: be_bytes 3 (len body) ++ be_bytes 3 (ts mod 16777216) ++ [ts / 16777216; 0; 0; 0]).
  change (FlvTag.tag_bytes t ts body) with (hd ++ body ++ be_bytes 4 (11 + len body)).
  rewrite go_index_app_r by (change (len hd) with 11; lia).
  by rewrite go_index_app_l by (change (len hd) with 11; lia).
Qed.
End Facts.

(** C37: a message, with the length and a timestamp that its header can hold, becomes
    a tag that carries its payload and its header, read back as it was written from
    any stream; the tag becomes the message again, with the standard chunk stream
    and message stream; and sent as chunks it gives the very bytes of the message's
    own chunks, with and without @setDataFrame: for audio and video always, for
    metadata when its payload already has that form, since the tag is sent as it is
    and the message's own chunks are edited. *)
Theorem rtmp_flv_roundtrip {B : Bele} (HB : BeleLaws B) {BS : BeleStream} (HBS : BeleStreamLaws BS)
    {NB : NazaBuffer} (HNB : NazaBufferLaws NB) msg rest :
  msg_fits msg →
  ∃ tag, RtmpMsg2FlvTag msg = Ret tag ∧ FlvTag.ReadTag (FlvTag.Raw tag ++ rest) = Ret (tag, rest) ∧
    FlvTag2RtmpMsg tag = Ret (mkRtmpMsg (MakeDefaultRtmpHeader (msgHeader msg)) (msgPayload msg)) ∧
    (sent_as_is MetadataEnsureWithSdf msg →
     FlvTag2RtmpChunks tag =
       ('(c, _) ← chunks_GetEnsureWithSdf (LazyChunks_Init msg); Ret c)) ∧
    (sent_as_is MetadataEnsureWithoutSdf msg →
     FlvTag2RtmpChunks tag =
       ('(c, _) ← chunks_GetEnsureWithoutSdf (LazyChunks_Init msg); Ret c)).
Proof.
  intros Hm. pose proof Hm as (H1 & H2 & H3).
  eexists. split; [by apply RtmpMsg2FlvTag_spec|].
  split; [cbn [FlvTag.Raw]; rewrite H1; by apply FlvTag.ReadTag_spec|].
  unfold FlvTag2RtmpMsg, FlvTag2RtmpChunks. rewrite FlvTag.tag_payload_spec, bind_Ret. cbn [FlvTag.Header].
  rewrite header_conversion. split; [done|]. rewrite bind_Ret.
  unfold chunks_GetEnsureWithSdf, chunks_GetEnsureWithoutSdf.
  cbn [LazyChunks_Init chunksWithSdf chunksWithoutSdf lazyChunksMsg].
  split; intros Ha; rewrite lazy_chunks_as_is by done; by destruct (Message2Chunks _ _).
Qed.

(** On a payload of two bytes or more the tests of the FLV tag agree with
    the tests of the RTMP message it was made from, except that a tag never
    recognises an enhanced (hvc1) HEVC header. *)
Theorem rtmp_flv_tests_agree {B : Bele} (HB : BeleLaws B) msg tag :
  msg_fits msg → 2 ≤ len (msgPayload msg) → RtmpMsg2FlvTag msg = Ret tag →
  FlvTag.IsAvcKeySeqHeader tag = IsAvcKeySeqHeader msg ∧
  FlvTag.IsAvcKeyNalu tag = IsAvcKeyNalu msg ∧
  FlvTag.IsAacSeqHeader tag = IsAacSeqHeader msg ∧
  (IsEnhanced msg = Ret false →
   FlvTag.IsVideoKeySeqHeader tag = IsVideoKeySeqHeader msg ∧
   FlvTag.IsVideoKeyNalu tag = IsVideoKeyNalu msg) ∧
  (IsEnhanced msg = Ret true →
   FlvTag.IsHevcKeySeqHeader tag = Ret false ∧ FlvTag.IsHevcKeyNalu tag = Ret false).
Proof.
  intros Hm Hl E. rewrite RtmpMsg2FlvTag_spec in E by done. injection E as <-.
  destruct msg as [h p]. cbn [msgHeader msgPayload] in *.
  assert (A1 : FlvTag.IsAvcKeySeqHeader (FlvTag.mkTag
    (FlvTag.mkTagHeader (MsgTypeId h) (MsgLen h) (TimestampAbs h) 0)
    (FlvTag.tag_bytes (MsgTypeId h) (TimestampAbs h) p)) = IsAvcKeySeqHeader (mkRtmpMsg h p)).
  { unfold FlvTag.IsAvcKeySeqHeader. by rewrite !raw_byte by lia. }
  assert (A2 : FlvTag.IsAvcKeyNalu (FlvTag.mkTag
    (FlvTag.mkTagHeader (MsgTypeId h) (MsgLen h) (TimestampAbs h) 0)
    (FlvTag.tag_bytes (MsgTypeId h) (TimestampAbs h) p)) = IsAvcKeyNalu (mkRtmpMsg h p)).
  { unfold FlvTag.IsAvcKeyNalu. by rewrite !raw_byte by lia. }
  split; [exact A1|]. split; [exact A2|]. split.
  { unfold FlvTag.IsAacSeqHeader, IsAacSeqHeader, AudioCodecId. rewrite raw_byte, raw_index by lia.
    cbn [msgHeader msgPayload FlvTag.Header FlvTag.TagType]. f_equal. f_equal. by destruct (go_index p 0). }
  unfold FlvTag.IsVideoKeySeqHeader, FlvTag.IsVideoKeyNalu, IsVideoKeySeqHeader, IsVideoKeyNalu.
  rewrite A1, A2. unfold FlvTag.IsHevcKeySeqHeader, FlvTag.IsHevcKeyNalu, IsHevcKeySeqHeader, IsHevcKeyNalu.
  rewrite !raw_byte by lia. cbn [msgHeader msgPayload FlvTag.Header FlvTag.TagType].
  unfold FlvTag.TagTypeVideo, RtmpTypeIdVideo. split; intros He; rewrite ?He, ?bind_Ret.
  - destruct (MsgTypeId h =? 9); done.
  - unfold IsEnhanced in He. cbn [msgPayload] in He. unfold at_is.
    destruct (go_index_range p 0 ltac:(lia)) as (b0 & E0 & _). rewrite E0 in *. rewrite bind_Ret in He.
    assert (Hb : (b0 =? FlvTag.HevcKeyFrame) = false).
    { apply Z.eqb_neq. intros ->. discriminate He. }
    rewrite !bind_Ret, Hb. by destruct (MsgTypeId h =? 9).
Qed.

(** ** Witnesses *)

Definition demo_msg : RtmpMsg := mkRtmpMsg (mkRtmpHeader 6 5 9 1 16777300) [23; 1; 0; 0; 0].
Lemma demo_msg_fits : msg_fits demo_msg.
Proof. repeat split; simpl; lia. Qed.

Lemma rtmp_flv_roundtrip_witness :
  ∃ tag, @RtmpMsg2FlvTag bele_impl demo_msg = Ret tag ∧
    @FlvTag.ReadTag bele_impl (FlvTag.Raw tag ++ [8]) = Ret (tag, [8]) ∧
    FlvTag2RtmpMsg tag = Ret (mkRtmpMsg (MakeDefaultRtmpHeader (msgHeader demo_msg)) (msgPayload demo_msg)) ∧
    (sent_as_is (@MetadataEnsureWithSdf bele_impl bele_stream_impl buffer_impl) demo_msg →
     @FlvTag2RtmpChunks bele_impl tag =
       ('(c, _) ← @chunks_GetEnsureWithSdf bele_impl bele_stream_impl buffer_impl (LazyChunks_Init demo_msg); Ret c)) ∧
    (sent_as_is (@MetadataEnsureWithoutSdf bele_impl) demo_msg →
     @FlvTag2RtmpChunks bele_impl tag =
       ('(c, _) ← @chunks_GetEnsureWithoutSdf bele_impl (LazyChunks_Init demo_msg); Ret c)).
Proof.
  exact (rtmp_flv_roundtrip bele_impl_laws bele_stream_impl_laws buffer_impl_laws demo_msg [8] demo_msg_fits).
Defined.

Lemma rtmp_flv_tests_agree_witness :
  ∃ tag, @RtmpMsg2FlvTag bele_impl demo_msg = Ret tag ∧
  FlvTag.IsAvcKeySeqHeader tag = IsAvcKeySeqHeader demo_msg ∧
  FlvTag.IsAvcKeyNalu tag = IsAvcKeyNalu demo_msg ∧
  FlvTag.IsAacSeqHeader tag = IsAacSeqHeader demo_msg ∧
  (IsEnhanced demo_msg = Ret false →
   FlvTag.IsVideoKeySeqHeader tag = IsVideoKeySeqHeader demo_msg ∧
   FlvTag.IsVideoKeyNalu tag = IsVideoKeyNalu demo_msg) ∧
  (IsEnhanced demo_msg = Ret true →
   FlvTag.IsHevcKeySeqHeader tag = Ret false ∧ FlvTag.IsHevcKeyNalu tag = Ret false).
Proof.
  eexists. split; [reflexivity|].
  apply (rtmp_flv_tests_agree bele_impl_laws demo_msg); [apply demo_msg_fits|simpl; lia|reflexivity].
Defined.
