(* ===== verification/MessagePacker.v ===== *)
(** * RTMP signalling messages (src/pkg/rtmp/message_packer.go)

    [MessagePacker] encodes a command behind twelve reserved bytes of its
    buffer, writes the chunk header into them and sends the buffer. *)

From stdpp Require Import gmap.
From S2P Require Import Prelude Naza GoFloat RtmpMsg RtmpChunk Amf0 Metadata.

Definition RtmpUserControlStreamBegin : Z := 0.
Definition RtmpUserControlRecorded : Z := 4.
Definition RtmpUserControlPingRequest : Z := 6.
Definition RtmpUserControlPingResponse : Z := 7.

Definition csidProtocolControl : Z := 2.
Definition csidOverConnection : Z := 3.
Definition csidOverStream : Z := 5.

Definition tidClientConnect : Z := 1.
Definition tidClientCreateStream : Z := 2.
Definition tidClientPlay : Z := 3.
Definition tidClientPublish : Z := 3.
Definition Msid1 : Z := 1.

(** ** The buffer *)

Record Buffer := mkBuffer {
  core : list Z;
  readPos : Z;
  writePos : Z;
}.

Definition NewPackerBuffer (n : Z) : Buffer := mkBuffer (go_make n) 0 0.

Definition Bytes (b : Buffer) : outcome (list Z) := go_slice (core b) (readPos b) (writePos b).
Definition Len (b : Buffer) : Z := writePos b - readPos b.
Definition Reset (b : Buffer) : Buffer := mkBuffer (core b) 0 0.
Definition ModWritePos (pos : Z) (b : Buffer) : Buffer := mkBuffer (core b) (readPos b) pos.

(** [cap(b.core)] is [len(b.core)]: the slices come from [make]. *)
Definition grow (n : Z) (b : Buffer) : outcome Buffer :=
  if len (core b) - writePos b >=? n then Ret b else
  let newLen := if len (core b) =? 0 then 128 else len (core b) * 2 in
  let buf := go_make newLen in
  old ← go_slice (core b) (readPos b) (writePos b);
  let readPos := 0 in
  Ret (mkBuffer (go_copy buf old) readPos (writePos b - readPos)).

Definition Write (p : list Z) (b : Buffer) : outcome Buffer :=
  b ← grow (len p) b;
  core' ← go_copy_at (core b) (writePos b) p;
  Ret (mkBuffer core' (readPos b) (writePos b + len p)).

Definition WriteByte (c : Z) (b : Buffer) : outcome Buffer :=
  b ← grow 1 b;
  core' ← go_set (core b) (writePos b) c;
  Ret (mkBuffer core' (readPos b) (writePos b + 1)).

#[global] Instance packer_buffer_writer : Writer Buffer := Write.

(** ** Sending

    A connection answers a write with the number of bytes it took and an
    error.  The result of sending: the buffer after it, the bytes the
    connection was given, and the error. *)

Definition Sent : Type := Buffer * list Z * option goerr.

Definition WriteTo (conn : list Z → Z * option goerr) (b : Buffer) : outcome Sent :=
  if Len b >? 0 then
    bytes ← Bytes b;
    let '(m, e) := conn bytes in
    if m >? Len b then Panic else
    let b' := mkBuffer (core b) (readPos b + m) (writePos b) in
    match e with
    | Some e => Ret (b', take (Z.to_nat m) bytes, Some e)
    | None =>
        if negb (m =? Len b) then Ret (b', take (Z.to_nat m) bytes, Some ErrShortWrite)
        else Ret (Reset b', bytes, None)
    end
  else Ret (Reset b, [], None).

Section Packer.
Context {B : Bele} {BS : BeleStream}.
Variable ver : Versions.
Variable conn : list Z → Z * option goerr.

Definition writeSingleChunkHeader (out : list Z) (csid bodyLen typeid streamid : Z) : outcome (list Z) :=
  if csid >? 63 then Fail ErrInvalidCsid else
  let format := 0 in
  out ← go_set out 0 (u8 (Z.lor (Z.shiftl format 6) csid));
  out ← go_set out 1 0;
  out ← go_set out 2 0;
  out ← go_set out 3 0;
  out ← go_upd_from out 4 (BePutUint24 (u32 bodyLen));
  out ← go_set out 7 typeid;
  go_upd_from out 8 (LePutUint32 (u32 streamid)).

Definition ChunkAndWrite (csid typeid streamid : Z) (b : Buffer) : outcome Sent :=
  let bodyLen := Len b - 12 in
  if bodyLen <=? LocalChunkSize then
    bytes ← Bytes b;
    match writeSingleChunkHeader bytes csid bodyLen typeid streamid with
    | Ret bytes =>
        (* the header is written through the slice into [core] *)
        WriteTo conn (mkBuffer (take (Z.to_nat (readPos b)) (core b) ++ bytes ++
                                drop (Z.to_nat (writePos b)) (core b)) (readPos b) (writePos b))
    | Fail e => Ret (b, [], Some e)
    | Panic => Panic
    end
  else
    let h := mkRtmpHeader csid (u32 bodyLen) typeid streamid 0 in
    bytes ← Bytes b;
    message ← go_from bytes 12;
    chunks ← Message2Chunks message h;
    let b := Reset b in
    let '(m, e) := conn chunks in
    Ret (b, take (Z.to_nat m) chunks, e).

(** A message: the body written after twelve bytes kept for the header. *)
Definition send (body : Buffer → outcome Buffer) (csid typeid streamid : Z) (b : Buffer) : outcome Sent :=
  b ← body (ModWritePos 12 b);
  ChunkAndWrite csid typeid streamid b.

Definition writeProtocolControlMessage (typeid val : Z) (b : Buffer) : outcome Sent :=
  send (λ b, WriteBe 4 (u32 val) b) csidProtocolControl typeid 0 b.

Definition writeChunkSize (val : Z) (b : Buffer) : outcome Sent :=
  writeProtocolControlMessage RtmpTypeIdSetChunkSize val b.

Definition writeWinAckSize (val : Z) (b : Buffer) : outcome Sent :=
  writeProtocolControlMessage RtmpTypeIdWinAckSize val b.

Definition writePeerBandwidth (val limitType : Z) (b : Buffer) : outcome Sent :=
  send (λ b, b ← WriteBe 4 (u32 val) b; WriteByte limitType b) csidProtocolControl RtmpTypeIdBandwidth 0 b.

Definition connect_pairs (appName tcUrl : list Z) (isPush : bool) : ObjectPairArray :=
  let flashVer :=
    if isPush then str "FMLE/3.0 (compatible; " ++ LalRtmpPushSessionConnectVersion ver ++ str ")"
    else str "LNX 9,0,124,2" in
  [(str "app", AmfString appName); (str "type", AmfString (str "nonprivate"));
   (str "flashVer", AmfString flashVer); (str "fpad", AmfBoolean false); (str "tcUrl", AmfString tcUrl)].

Definition writeConnect (appName tcUrl : list Z) (isPush : bool) (b : Buffer) : outcome Sent :=
  send (λ b,
    b ← WriteString (str "connect") b;
    b ← WriteNumber (float64_of_int tidClientConnect) b;
    WriteObject (connect_pairs appName tcUrl isPush) b)
    csidOverConnection RtmpTypeIdCommandMessageAmf0 0 b.

Definition connect_result_pairs1 : ObjectPairArray :=
  [(str "fmsVer", AmfString (str "FMS/3,0,1,123")); (str "capabilities", AmfInt 31)].
Definition connect_result_pairs2 (objectEncoding : Z) : ObjectPairArray :=
  [(str "level", AmfString (str "status"));
   (str "code", AmfString (str "NetConnection.Connect.Success"));
   (str "description", AmfString (str "Connection succeeded."));
   (str "objectEncoding", AmfInt objectEncoding);
   (str "version", AmfString (LalRtmpConnectResultVersion ver))].

Definition writeConnectResult (tid objectEncoding : Z) (b : Buffer) : outcome Sent :=
  send (λ b,
    b ← WriteString (str "_result") b;
    b ← WriteNumber (float64_of_int tid) b;
    b ← WriteObject connect_result_pairs1 b;
    WriteObject (connect_result_pairs2 objectEncoding) b)
    csidOverConnection RtmpTypeIdCommandMessageAmf0 0 b.

Definition writeCreateStream (b : Buffer) : outcome Sent :=
  send (λ b,
    b ← WriteString (str "createStream") b;
    b ← WriteNumber (float64_of_int tidClientCreateStream) b;
    WriteNull b)
    csidOverConnection RtmpTypeIdCommandMessageAmf0 0 b.

Definition writeCreateStreamResult (tid : Z) (b : Buffer) : outcome Sent :=
  send (λ b,
    b ← WriteString (str "_result") b;
    b ← WriteNumber (float64_of_int tid) b;
    b ← WriteNull b;
    WriteNumber (float64_of_int Msid1) b)
    csidOverConnection RtmpTypeIdCommandMessageAmf0 0 b.

Definition writePlay (streamName : list Z) (streamid : Z) (b : Buffer) : outcome Sent :=
  send (λ b,
    b ← WriteString (str "play") b;
    b ← WriteNumber (float64_of_int tidClientPlay) b;
    b ← WriteNull b;
    WriteString streamName b)
    csidOverStream RtmpTypeIdCommandMessageAmf0 streamid b.

Definition writePublish (appName streamName : list Z) (streamid : Z) (b : Buffer) : outcome Sent :=
  send (λ b,
    b ← WriteString (str "publish") b;
    b ← WriteNumber (float64_of_int tidClientPublish) b;
    b ← WriteNull b;
    b ← WriteString streamName b;
    WriteString (str "live") b)
    csidOverStream RtmpTypeIdCommandMessageAmf0 streamid b.

Definition on_status_pairs (code description : list Z) : ObjectPairArray :=
  [(str "level", AmfString (str "status")); (str "code", AmfString code);
   (str "description", AmfString description)].

Definition writeOnStatusPublish (streamid : Z) (b : Buffer) : outcome Sent :=
  send (λ b,
    b ← WriteString (str "onStatus") b;
    b ← WriteNumber (float64_of_int 0) b;
    b ← WriteNull b;
    WriteObject (on_status_pairs (str "NetStream.Publish.Start") (str "Start publishing")) b)
    csidOverStream RtmpTypeIdCommandMessageAmf0 streamid b.

Definition writeOnStatusPlay (streamid : Z) (b : Buffer) : outcome Sent :=
  send (λ b,
    b ← WriteString (str "onStatus") b;
    b ← WriteNumber (float64_of_int 0) b;
    b ← WriteNull b;
    WriteObject (on_status_pairs (str "NetStream.Play.Start") (str "Start live")) b)
    csidOverStream RtmpTypeIdCommandMessageAmf0 streamid b.

Definition user_control (event value : Z) (b : Buffer) : outcome Sent :=
  send (λ b, b ← WriteBe 2 (u16 event) b; WriteBe 4 (u32 value) b)
    csidProtocolControl RtmpTypeIdUserControl 0 b.

Definition writeStreamIsRecorded (streamid : Z) (b : Buffer) : outcome Sent :=
  user_control RtmpUserControlRecorded streamid b.
Definition writeStreamBegin (streamid : Z) (b : Buffer) : outcome Sent :=
  user_control RtmpUserControlStreamBegin streamid b.
Definition writePingRequest (timestamp : Z) (b : Buffer) : outcome Sent :=
  user_control RtmpUserControlPingRequest timestamp b.
Definition writePingResponse (timestamp : Z) (b : Buffer) : outcome Sent :=
  user_control RtmpUserControlPingResponse timestamp b.

Definition writeAcknowledgement (seqNum : Z) (b : Buffer) : outcome Sent :=
  send (λ b, WriteBe 4 seqNum b) csidProtocolControl RtmpTypeIdAck 0 b.
End Packer.

(** ** The buffer as a writer *)

(** What has been written, in a buffer read from its start; a buffer made by
    [NewMessagePacker] keeps a capacity of 256 bytes or more. *)
Definition content (b : Buffer) (s : list Z) : Prop :=
  (∃ rest, core b = s ++ rest) ∧ readPos b = 0 ∧ writePos b = len s ∧ 256 ≤ len (core b).

Definition ready (b : Buffer) : Prop := readPos b = 0 ∧ 256 ≤ len (core b).

Lemma ready_new : ready (NewPackerBuffer 256).
Proof. split; [done|]. unfold NewPackerBuffer. cbn [core]. len_lia. Qed.

Lemma content_ready b s : content b s → ready b.
Proof. by intros (_ & ? & _ & ?). Qed.

Lemma ready_reserve b : ready b → content (ModWritePos 12 b) (take 12 (core b)).
Proof.
  intros [H1 H2]. split; [|split; [done|split; [simpl; len_lia|done]]].
  exists (drop 12 (core b)). simpl. by rewrite take_drop.
Qed.

(** One doubling is enough for a write of at most 256 bytes. *)
Lemma grow_ok n b s :
  content b s → 0 ≤ n ≤ 256 →
  ∃ b' rest, grow n b = Ret b' ∧ core b' = s ++ rest ∧ n ≤ len rest ∧
    readPos b' = 0 ∧ writePos b' = len s ∧ 256 ≤ len (core b').
Proof.
  intros ([rest E] & Hr & Hw & Hc) Hn. unfold grow. rewrite Z.geb_leb.
  destruct (Z.leb_spec n (len (core b) - writePos b)).
  - exists b, rest. rewrite E in *. repeat split; try done. revert H. rewrite Hw. len_lia.
  - rewrite (proj2 (Z.eqb_neq (len (core b)) 0)) by lia. cbv zeta.
    rewrite Hr, Hw, E. rewrite go_slice_head, bind_Ret by done.
    rewrite E in *. rewrite length_app in *.
    exists (mkBuffer (s ++ go_make ((Z.of_nat (length s + length rest)) * 2 - len s)) 0 (len s)).
    exists (go_make ((Z.of_nat (length s + length rest)) * 2 - len s)).
    rewrite go_copy_make by lia. rewrite Z.sub_0_r. cbn [core readPos writePos].
    repeat split; try done; rewrite ?length_app, ?length_go_make; lia.
Qed.

#[global] Instance packer_writer_laws : WriterLaws Buffer 256 content.
Proof.
  intros p b s Hb Hp. destruct (grow_ok (len p) b s Hb ltac:(lia)) as (b1 & rest & E & Ec & Hl & Hr & Hw & Hn).
  unfold w_write, packer_buffer_writer, Write. rewrite E, bind_Ret, Ec, Hw.
  destruct (prefix_split (length p) rest ltac:(lia)) as (h & t & -> & Hh & _).
  rewrite go_copy_at_app, bind_Ret by done. eexists. split; [done|].
  unfold content. cbn [core readPos writePos]. split; [exists t; by rewrite app_assoc|].
  split; [done|]. rewrite Ec in Hn. revert Hn. len_lia.
Qed.

Lemma WriteByte_appends c : appends content (WriteByte c) [c].
Proof.
  intros b s Hb. destruct (grow_ok 1 b s Hb ltac:(lia)) as (b1 & rest & E & Ec & Hl & Hr & Hw & Hn).
  unfold WriteByte. rewrite E, bind_Ret, Ec, Hw. destruct rest as [|x rest]; [simpl in Hl; lia|].
  rewrite go_set_app, bind_Ret by done. eexists. split; [done|].
  unfold content. cbn [core readPos writePos]. split; [exists rest; by rewrite <- app_assoc|].
  split; [done|]. rewrite Ec in Hn. revert Hn. len_lia.
Qed.

(** As long as the content fits, the capacity of a fresh buffer stays. *)
Definition fresh_content (b : Buffer) (s : list Z) : Prop :=
  content b s ∧ (len s ≤ 256 → len (core b) = 256).

#[global] Instance fresh_writer_laws : WriterLaws Buffer 256 fresh_content.
Proof.
  intros p b s [Hb Hc] Hp. destruct (packer_writer_laws p b s Hb Hp) as (b' & E & Hb').
  exists b'. split; [done|]. split; [done|]. intros Hl.
  assert (H256 : len (core b) = 256) by (apply Hc; revert Hl; len_lia).
  unfold w_write, packer_buffer_writer, Write, grow in E. destruct Hb as (_ & _ & Hw & _).
  rewrite Z.geb_leb, (proj2 (Z.leb_le (len p) _)), bind_Ret in E by (revert Hl; rewrite Hw; len_lia).
  unfold go_copy_at, go_upd_from in E. rewrite go_from_Ret, !bind_Ret in E by (revert Hl; rewrite Hw; len_lia).
  injection E as <-. cbn [core]. revert Hl. rewrite Hw. len_lia.
Qed.

(** ** What is sent *)

Definition accepts (conn : list Z → Z * option goerr) : Prop := ∀ bytes, conn bytes = (len bytes, None).

(** The header of the message and its chunks of [LocalChunkSize]. *)
Definition packed_header (csid typeid streamid : Z) (body : list Z) : RtmpHeader :=
  mkRtmpHeader csid (len body) typeid streamid 0.
Definition packed_wire (csid typeid streamid : Z) (body : list Z) : list Z :=
  chunks_wire (packed_header csid typeid streamid body) None
    (pieces (chunk_count LocalChunkSize (len body)) LocalChunkSize body).

Section SendFacts.
Context {B : Bele} {HB : BeleLaws B} {BS : BeleStream} {HBS : BeleStreamLaws BS}.
Variable conn : list Z → Z * option goerr.
Hypothesis Hconn : accepts conn.

Lemma single_header_spec hd body csid bodyLen typeid streamid :
  len hd = 12 → 2 ≤ csid ≤ 63 → is_u24 bodyLen → is_u32 streamid →
  writeSingleChunkHeader (hd ++ body) csid bodyLen typeid streamid =
  Ret (chunk_header (mkRtmpHeader csid bodyLen typeid streamid 0) None ++ body).
Proof.
  intros Hh Hc Hl Hs. unfold writeSingleChunkHeader. go_test. cbv zeta.
  rewrite (u32_small bodyLen), (u32_small streamid) by lia.
  assert (Ec : u8 (Z.lor (Z.shiftl 0 6) csid) = csid) by (rewrite Z.shiftl_0_l; apply u8_small; lia).
  rewrite Ec.
  destruct hd as [|x0 [|x1 [|x2 [|x3 [|x4 [|x5 [|x6 [|x7 [|x8 [|x9 [|xa [|xb [|? ?]]]]]]]]]]]]];
    try (simpl in Hh; lia). cbn [app].
  rewrite go_set_head, bind_Ret by done.
  do 3 (repeat (rewrite go_set_cons_r, ?bind_Ret by lia); rewrite go_set_head, !bind_Ret by lia).
  assert (E4 : go_upd_from (csid :: 0 :: 0 :: 0 :: x4 :: x5 :: x6 :: x7 :: x8 :: x9 :: xa :: xb :: body) 4
    (BePutUint24 bodyLen) = Ret ([csid; 0; 0; 0] ++ be_bytes 3 bodyLen ++ x7 :: x8 :: x9 :: xa :: xb :: body)).
  { apply (go_upd_from_app [csid; 0; 0; 0] (x4 :: x5 :: x6 :: x7 :: x8 :: x9 :: xa :: xb :: body)); [done|].
    by apply (BePutUint24_writes bodyLen [x4; x5; x6]). }
  rewrite E4, bind_Ret. rewrite app_assoc, go_set_app, bind_Ret by done.
  set (pre := [csid; 0; 0; 0] ++ be_bytes 3 bodyLen).
  replace (pre ++ typeid :: x8 :: x9 :: xa :: xb :: body)
      with ((pre ++ [typeid]) ++ x8 :: x9 :: xa :: xb :: body) by (by rewrite <- app_assoc).
  rewrite (go_upd_from_app (pre ++ [typeid]) (x8 :: x9 :: xa :: xb :: body) (le_bytes 4 streamid ++ body));
    [|done|by apply (LePutUint32_writes streamid [x8; x9; xa; xb])].
  unfold chunk_header, calc_fmt, basic_bytes. cbn [Csid TimestampAbs].
  rewrite (proj2 (Z.leb_le csid 63)) by lia. rewrite app_assoc. do 2 f_equal.
Qed.

Lemma packed_wire_single csid typeid streamid body :
  0 < len body ≤ LocalChunkSize →
  packed_wire csid typeid streamid body = chunk_header (packed_header csid typeid streamid body) None ++ body.
Proof.
  intros Hl. unfold packed_wire, LocalChunkSize in *.
  assert (chunk_count 4096 (len body) = 1%nat) as ->.
  { unfold chunk_count. replace ((len body + 4096 - 1) / 4096) with 1; [done|].
    apply (Z.div_unique _ _ _ (len body - 1)); lia. }
  cbn [pieces chunks_wire]. by rewrite app_nil_r.
Qed.

Lemma WriteTo_accepted b bytes :
  Bytes b = Ret bytes → Len b = len bytes → 0 < len bytes →
  WriteTo conn b = Ret (mkBuffer (core b) 0 0, bytes, None).
Proof.
  intros Hb Hl Hp. unfold WriteTo. rewrite Hl, Hb, bind_Ret, Hconn. go_test. go_test.
  by rewrite Z.eqb_refl.
Qed.

(** The message in place and the message cut by [Message2Chunks] are sent as
    the same bytes. *)
Lemma ChunkAndWrite_spec b hd body csid typeid streamid :
  content b (hd ++ body) → len hd = 12 → 0 < len body < 16777216 → 2 ≤ csid ≤ 63 → is_u8 typeid →
  is_u32 streamid →
  ∃ b', ChunkAndWrite conn csid typeid streamid b =
      Ret (b', packed_wire csid typeid streamid body, None) ∧ ready b'.
Proof.
  intros ([rest E] & Hr & Hw & Hn) Hh Hl Hc Ht Hs. unfold ChunkAndWrite.
  assert (Hlen : Len b - 12 = len body) by (unfold Len; rewrite Hr, Hw; len_lia).
  assert (Hbytes : Bytes b = Ret (hd ++ body))
    by (unfold Bytes; rewrite Hr, Hw, E; by apply go_slice_head).
  rewrite Hlen, Hbytes. cbv zeta. destruct (Z.leb_spec (len body) LocalChunkSize) as [Hsm|Hbg].
  - rewrite bind_Ret, single_header_spec by (try done; lia).
    rewrite packed_wire_single by lia.
    change (mkRtmpHeader csid (len body) typeid streamid 0) with (packed_header csid typeid streamid body).
    set (hdr := chunk_header (packed_header csid typeid streamid body) None).
    assert (Hhdr : len hdr = 12).
    { unfold hdr, chunk_header, calc_fmt, basic_bytes, packed_header. cbn [Csid TimestampAbs].
      rewrite (proj2 (Z.leb_le csid 63)) by lia. reflexivity. }
    rewrite Hr, Hw, E. change (Z.to_nat 0) with 0%nat. rewrite take_0, app_nil_l. rewrite Nat2Z.id, drop_app_length.
    rewrite (WriteTo_accepted _ (hdr ++ body)).
    + eexists. split; [done|]. split; [done|]. cbn [core]. rewrite E in Hn. revert Hn. len_lia.
    + unfold Bytes. cbn [core readPos writePos]. apply go_slice_head; [done|len_lia].
    + unfold Len. cbn [readPos writePos]. len_lia.
    + len_lia.
  - rewrite u32_small by lia. rewrite bind_Ret, go_from_app, bind_Ret by done.
    unfold Message2Chunks. rewrite message2Chunks_spec, bind_Ret, Hconn.
    + rewrite Nat2Z.id, take_ge by lia. eexists. split; [done|]. split; done.
    + unfold header_ok, csid_ok. cbn [Csid MsgLen MsgTypeId MsgStreamId TimestampAbs]. lia.
    + done.
Qed.

Lemma send_spec f body csid typeid streamid b :
  appends content f body → ready b → 0 < len body < 16777216 → 2 ≤ csid ≤ 63 → is_u8 typeid →
  is_u32 streamid →
  ∃ b', send conn f csid typeid streamid b = Ret (b', packed_wire csid typeid streamid body, None) ∧ ready b'.
Proof.
  intros Hf Hb Hl Hc Ht Hs. unfold send. pose proof (ready_reserve b Hb) as H12.
  destruct (Hf _ _ H12) as (b1 & -> & H1). rewrite bind_Ret.
  apply (ChunkAndWrite_spec b1 (take 12 (core b))); try done. destruct Hb. len_lia.
Qed.
End SendFacts.

(** ** Commands

    A command is a sequence of AMF items; [read_items] reads one back with the
    readers of the sessions. *)

Inductive Item :=
  | IStr (s : list Z)
  | INum (n : Z)
  | INull
  | IObj (opa : ObjectPairArray).

Inductive Command :=
  | Connect (appName tcUrl : list Z) (isPush : bool)
  | ConnectResult (tid objectEncoding : Z)
  | CreateStream
  | CreateStreamResult (tid : Z)
  | Play (streamName : list Z) (streamid : Z)
  | Publish (appName streamName : list Z) (streamid : Z)
  | OnStatusPublish (streamid : Z)
  | OnStatusPlay (streamid : Z).

Definition send_command {B : Bele} {BS : BeleStream} (ver : Versions) (conn : list Z → Z * option goerr)
    (cmd : Command) (b : Buffer) : outcome Sent :=
  match cmd with
  | Connect app url push => writeConnect ver conn app url push b
  | ConnectResult tid oe => writeConnectResult ver conn tid oe b
  | CreateStream => writeCreateStream conn b
  | CreateStreamResult tid => writeCreateStreamResult conn tid b
  | Play name sid => writePlay conn name sid b
  | Publish app name sid => writePublish conn app name sid b
  | OnStatusPublish sid => writeOnStatusPublish conn sid b
  | OnStatusPlay sid => writeOnStatusPlay conn sid b
  end.

(** The items a command stands for, its chunk stream and its message stream. *)
Definition command_items (ver : Versions) (cmd : Command) : list Item :=
  match cmd with
  | Connect app url push => [IStr (str "connect"); INum 1; IObj (connect_pairs ver app url push)]
  | ConnectResult tid oe =>
      [IStr (str "_result"); INum tid; IObj connect_result_pairs1; IObj (connect_result_pairs2 ver oe)]
  | CreateStream => [IStr (str "createStream"); INum 2; INull]
  | CreateStreamResult tid => [IStr (str "_result"); INum tid; INull; INum 1]
  | Play name _ => [IStr (str "play"); INum 3; INull; IStr name]
  | Publish _ name _ => [IStr (str "publish"); INum 3; INull; IStr name; IStr (str "live")]
  | OnStatusPublish _ =>
      [IStr (str "onStatus"); INum 0; INull;
       IObj (on_status_pairs (str "NetStream.Publish.Start") (str "Start publishing"))]
  | OnStatusPlay _ =>
      [IStr (str "onStatus"); INum 0; INull;
       IObj (on_status_pairs (str "NetStream.Play.Start") (str "Start live"))]
  end.
Definition command_csid (cmd : Command) : Z :=
  match cmd with
  | Connect _ _ _ | ConnectResult _ _ | CreateStream | CreateStreamResult _ => csidOverConnection
  | _ => csidOverStream
  end.
Definition command_sid (cmd : Command) : Z :=
  match cmd with
  | Play _ sid | Publish _ _ sid | OnStatusPublish sid | OnStatusPlay sid => sid
  | _ => 0
  end.

(** Strings short enough for the buffer (see [rtmp_packer_overflow] for longer
    ones), numbers a float64 holds. *)
Definition command_ok (ver : Versions) (cmd : Command) : Prop :=
  len (LalRtmpPushSessionConnectVersion ver) ≤ 200 ∧ len (LalRtmpConnectResultVersion ver) ≤ 200 ∧
  is_u32 (command_sid cmd) ∧
  match cmd with
  | Connect app url _ => len app ≤ 256 ∧ len url ≤ 256
  | ConnectResult tid oe => Z.abs tid < 2 ^ 53 ∧ Z.abs oe < 2 ^ 53
  | CreateStreamResult tid => Z.abs tid < 2 ^ 53
  | Play name _ | Publish _ name _ => len name ≤ 256
  | _ => True
  end.

Definition item_bytes (i : Item) : list Z :=
  match i with
  | IStr s => str_bytes s
  | INum n => num_bytes (float64_of_int n)
  | INull => [Amf0TypeMarkerNull]
  | IObj opa => object_bytes opa
  end.
Definition item_back (i : Item) : Item :=
  match i with IObj opa => IObj (map read_back_pair opa) | i => i end.
Definition item_ok (i : Item) : Prop :=
  match i with
  | IStr s => len s ≤ 256
  | INum n => Z.abs n < 2 ^ 53
  | INull => True
  | IObj opa => Forall pair_ok opa ∧ Forall (pair_fits (M := 256)) opa ∧ (length opa ≤ 5)%nat
  end.
Definition items_bytes (l : list Item) : list Z := concat (map item_bytes l).

Section Items.
Context {B : Bele} {BS : BeleStream}.

Definition read_item (b : list Z) : outcome (Item * Z) :=
  m ← go_index b 0;
  if m =? Amf0TypeMarkerString then '(s, l) ← ReadString b; Ret (IStr s, l)
  else if m =? Amf0TypeMarkerNumber then '(v, l) ← ReadNumber b; Ret (INum (int_of_float64 v), l)
  else if m =? Amf0TypeMarkerNull then l ← ReadNull b; Ret (INull, l)
  else '(o, l) ← ReadObject b; Ret (IObj o, l).

(** [n] items and the bytes after them. *)
Fixpoint read_items (n : nat) (b : list Z) : outcome (list Item * list Z) :=
  match n with
  | O => Ret ([], b)
  | S n =>
      '(i, l) ← read_item b;
      rest ← go_from b l;
      '(items, rest) ← read_items n rest;
      Ret (i :: items, rest)
  end.
End Items.

(** One item written by the writer of its type, to any writer that takes 256
    bytes at once. *)
Section ItemWriters.
Context {BS : BeleStream} {HBS : BeleStreamLaws BS}.
Context {W} `{Writer W} {content : W → list Z → Prop} {HW : WriterLaws W 256 content}.

Lemma IStr_appends s : item_ok (IStr s) → appends content (WriteString s) (item_bytes (IStr s)).
Proof. intros Hs. cbn in Hs. apply (WriteString_appends (M := 256)); lia. Qed.
Lemma INum_appends n : item_ok (INum n) → appends content (WriteNumber (float64_of_int n)) (item_bytes (INum n)).
Proof. intros Hn. apply (WriteNumber_appends (M := 256)); [lia|]. by apply float64_of_int_roundtrip. Qed.
Lemma INull_appends : appends content WriteNull (item_bytes INull).
Proof. by apply (WriteNull_appends (M := 256)). Qed.
Lemma IObj_appends opa : item_ok (IObj opa) → appends content (WriteObject opa) (item_bytes (IObj opa)).
Proof.
  intros (H1 & H2 & _). apply (WriteObject_appends (M := 256)); [lia| |done].
  eapply Forall_impl; [exact H1|apply pair_ok_writable].
Qed.
End ItemWriters.

Section ItemFacts.
Context {B : Bele} {HB : BeleLaws B} {BS : BeleStream} {HBS : BeleStreamLaws BS}.

Lemma read_item_spec i rest :
  item_ok i → read_item (item_bytes i ++ rest) = Ret (item_back i, len (item_bytes i)).
Proof.
  intros Hi. unfold read_item. destruct i as [s|n| |opa]; cbn [item_ok item_bytes item_back] in *.
  - assert (E : go_index (str_bytes s ++ rest) 0 = Ret Amf0TypeMarkerString)
      by (rewrite str_bytes_short by lia; by apply go_index_head).
    rewrite E, bind_Ret. cbn [Z.eqb Amf0TypeMarkerString Pos.eqb].
    rewrite ReadString_spec, bind_Ret by lia. rewrite str_bytes_short by lia. do 2 f_equal. len_lia.
  - assert (E : go_index (num_bytes (float64_of_int n) ++ rest) 0 = Ret Amf0TypeMarkerNumber) by done.
    destruct (float64_of_int_roundtrip n Hi) as [H1 H2].
    rewrite E, bind_Ret. cbn [Z.eqb Amf0TypeMarkerNumber Amf0TypeMarkerString].
    by rewrite ReadNumber_spec, bind_Ret, H2.
  - cbn [app]. rewrite go_index_head, bind_Ret by done. unfold ReadNull.
    rewrite (proj2 (Z.ltb_ge _ 1)) by len_lia. by rewrite go_index_head by done.
  - assert (E : go_index (object_bytes opa ++ rest) 0 = Ret Amf0TypeMarkerObject) by done.
    rewrite E, bind_Ret.
    cbn [Z.eqb Amf0TypeMarkerNumber Amf0TypeMarkerString Amf0TypeMarkerNull Amf0TypeMarkerObject Pos.eqb].
    by rewrite ReadObject_spec by apply Hi.
Qed.

Lemma read_items_spec l rest :
  Forall item_ok l → read_items (length l) (items_bytes l ++ rest) = Ret (map item_back l, rest).
Proof.
  induction 1 as [|i l Hi Hl IH]; [done|]. unfold items_bytes in *. cbn [length map concat read_items].
  rewrite <- app_assoc, read_item_spec, bind_Ret by done.
  by rewrite go_from_app, bind_Ret, IH.
Qed.

Lemma appends_last {W} (content : W → list Z → Prop) f (a : list Z) :
  appends content f a → appends content f (a ++ []).
Proof. by rewrite app_nil_r. Qed.

Lemma string_pair_ok k v :
  len k ≤ 256 → len v ≤ 256 →
  pair_ok (k, AmfString v) ∧ pair_fits (M := 256) (k, AmfString v).
Proof.
  intros Hk Hv. repeat split; cbn [fst snd value_ok]; try lia. intros s [= <-]. lia.
Qed.

Lemma other_pair_ok k v :
  len k ≤ 256 → value_ok v → (∀ s, v ≠ AmfString s) → pair_ok (k, v) ∧ pair_fits (M := 256) (k, v).
Proof.
  intros Hk Hv Hn. repeat split; cbn [fst snd]; try lia; try done. intros s ->. by destruct (Hn s).
Qed.

Lemma IObj_ok opa :
  Forall (λ p, pair_ok p ∧ pair_fits (M := 256) p) opa → (length opa ≤ 5)%nat → item_ok (IObj opa).
Proof. intros H Hl. apply Forall_and in H as [H1 H2]. by split. Qed.

Ltac object_ok :=
  apply IObj_ok; [|simpl; lia]; repeat apply List.Forall_cons; try apply List.Forall_nil;
  first [apply string_pair_ok; [done|first [done | len_lia]]
        | apply other_pair_ok; [done|done|done]].

Lemma command_items_ok ver cmd : command_ok ver cmd → Forall item_ok (command_items ver cmd).
Proof.
  intros (V1 & V2 & Hs & Hc).
  destruct cmd as [app url push|tid oe| |tid|name sid|app name sid|sid|sid]; cbn [command_items];
    repeat apply List.Forall_cons; try apply List.Forall_nil; try (cbn [item_ok]; (done || lia));
    try object_ok.
  - destruct Hc as [Ha Hu].
    assert (Hf : len (str "FMLE/3.0 (compatible; " ++ LalRtmpPushSessionConnectVersion ver ++ str ")") ≤ 256).
    { rewrite !length_app. change (length (str "FMLE/3.0 (compatible; ")) with 22%nat.
      change (length (str ")")) with 1%nat. lia. }
    unfold connect_pairs. destruct push; object_ok.
  - unfold connect_result_pairs2. destruct Hc. object_ok.
Qed.

Lemma pairs_bytes_bound opa :
  Forall pair_ok opa → Forall (pair_fits (M := 256)) opa → len (pairs_bytes opa) ≤ 520 * len opa.
Proof.
  induction opa as [|[k v] opa IH]; intros H1 H2; [done|].
  apply Forall_cons in H1 as [[K1 V1] H1]. apply Forall_cons in H2 as [[K2 V2] H2]. cbn [fst snd] in *.
  specialize (IH H1 H2). destruct (value_bytes_length v V1) as [_ L].
  assert (len (value_bytes v) ≤ 259).
  { rewrite L. destruct v as [s| | | | ]; try lia. specialize (V2 s eq_refl). lia. }
  cbn [pairs_bytes]. len_lia.
Qed.

Lemma item_bytes_bound i : item_ok i → 0 < len (item_bytes i) ≤ 2604.
Proof.
  destruct i as [s|n| |opa]; cbn [item_ok item_bytes]; intros Hi.
  - rewrite str_bytes_short by lia. len_lia.
  - unfold num_bytes. len_lia.
  - simpl. lia.
  - destruct Hi as (H1 & H2 & H3). pose proof (pairs_bytes_bound opa H1 H2).
    unfold object_bytes, Amf0TypeMarkerObjectEndBytes. len_lia.
Qed.

Lemma items_bytes_bound l :
  Forall item_ok l → l ≠ [] → (length l ≤ 5)%nat → 0 < len (items_bytes l) < 16777216.
Proof.
  intros Hl Hne H5.
  assert (H : Z.of_nat (length l) ≤ len (items_bytes l) ≤ 2604 * Z.of_nat (length l)).
  { clear Hne H5. unfold items_bytes. induction Hl as [|i l Hi Hl IH]; [done|].
    cbn [map concat]. pose proof (item_bytes_bound i Hi). len_lia. }
  destruct l; [done|]. cbn [length] in *. lia.
Qed.

Ltac one_item :=
  first [by apply IStr_appends | by apply INum_appends | apply INull_appends | by apply IObj_appends].
Ltac write_items :=
  repeat lazymatch goal with
  | |- appends _ (λ w, mbind _ (?f w)) (?x ++ ?y) => apply (appends_seq f _ x y); [one_item|]
  | |- appends _ _ (_ ++ []) => apply appends_last; one_item
  end.

(** Every command writes its items and hands them to [ChunkAndWrite]. *)
Lemma send_command_spec ver conn cmd b :
  accepts conn → command_ok ver cmd → ready b →
  ∃ b', send_command ver conn cmd b =
      Ret (b', packed_wire (command_csid cmd) RtmpTypeIdCommandMessageAmf0 (command_sid cmd)
                 (items_bytes (command_items ver cmd)), None) ∧ ready b'.
Proof.
  intros Hconn Hc Hb. pose proof (command_items_ok ver cmd Hc) as Hi.
  assert (Hn : 0 < len (items_bytes (command_items ver cmd)) < 16777216)
    by (apply items_bytes_bound; [done|by destruct cmd|destruct cmd; simpl; lia]).
  assert (Hs : ∀ f csid, appends content f (items_bytes (command_items ver cmd)) → csid = command_csid cmd →
    ∃ b', send conn f csid RtmpTypeIdCommandMessageAmf0 (command_sid cmd) b =
      Ret (b', packed_wire (command_csid cmd) RtmpTypeIdCommandMessageAmf0 (command_sid cmd)
                 (items_bytes (command_items ver cmd)), None) ∧ ready b').
  { intros f csid Hf ->. apply send_spec; try done; [by destruct cmd|]. apply Hc. }
  destruct cmd as [app url push|tid oe| |tid|name sid|app name sid|sid|sid];
    (apply Hs; [|reflexivity]); clear Hs; unfold items_bytes; cbn [command_items map concat];
    cbn [command_items] in Hi;
    repeat match type of Hi with
    | Forall _ (_ :: _) => let H := fresh in apply List.Forall_cons_iff in Hi as [H Hi]
    end;
    write_items.
Qed.
End ItemFacts.

(** ** Properties *)

(** C5: a command sent by a packer with an empty buffer of 256 bytes or more,
    on a connection that takes all bytes, reaches the other side intact: the bytes
    sent are one message that a composer with the same chunk size delivers, on the
    command's chunk stream and message stream, and whose payload reads back as
    exactly the items of the command; and the packer is ready for the next one.
    The names and addresses in the command have at most 256 bytes (the buffer is
    doubled only once, and much longer ones panic, [rtmp_packer_overflow]), the
    version strings at most 200, and the numbers less than 53 bits. *)
Theorem rtmp_command_delivered {B : Bele} (HB : BeleLaws B) {BS : BeleStream} (HBS : BeleStreamLaws BS)
    {NB : NazaBuffer} (HNB : NazaBufferLaws NB) ver conn cmd b :
  accepts conn → command_ok ver cmd → ready b →
  ∃ b' wire payload,
    send_command ver conn cmd b = Ret (b', wire, None) ∧ ready b' ∧
    read_items (length (command_items ver cmd)) payload =
      Ret (map item_back (command_items ver cmd), []) ∧
    ∀ S (cb : RtmpMsg → eff S unit) c rest fuel s,
      peerChunkSize c = LocalChunkSize → idle (getOrCreateStream c (command_csid cmd)) →
      ∃ c' turns, RunLoop cb (turns + fuel) c (wire ++ rest) s =
        (_ ← cb (mkRtmpMsg (mkRtmpHeader (command_csid cmd) (len payload) RtmpTypeIdCommandMessageAmf0
                             (command_sid cmd) 0) payload);
         RunLoop cb fuel c' rest) s.
Proof.
  intros Hconn Hc Hb. pose proof (command_items_ok ver cmd Hc) as Hi.
  destruct (send_command_spec ver conn cmd b Hconn Hc Hb) as (b' & E & Hr).
  exists b'. eexists. exists (items_bytes (command_items ver cmd)). split; [exact E|]. split; [exact Hr|].
  split; [rewrite <- (app_nil_r (items_bytes _)); by apply read_items_spec|].
  assert (Hn : 0 < len (items_bytes (command_items ver cmd)) < 16777216)
    by (apply items_bytes_bound; [done|by destruct cmd|destruct cmd; simpl; lia]).
  intros S cb c rest fuel s Hp Hidle. unfold packed_wire.
  destruct (compose_wire HB HNB cb (items_bytes (command_items ver cmd))
    (packed_header (command_csid cmd) RtmpTypeIdCommandMessageAmf0 (command_sid cmd)
       (items_bytes (command_items ver cmd))) LocalChunkSize c rest fuel s) as (c' & _ & E'); try done.
  - destruct Hc as (_ & _ & Hs & _). unfold header_ok, csid_ok.
    cbn [packed_header Csid MsgLen MsgTypeId MsgStreamId TimestampAbs].
    split; [by destruct cmd|]. unfold RtmpTypeIdCommandMessageAmf0. lia.
  - intros E0. rewrite E0 in Hn. simpl in Hn. lia.
  - by exists c', (chunk_count LocalChunkSize (len (items_bytes (command_items ver cmd)))).
Qed.

(** A write that one doubling cannot hold leaves the write position past the
    end, and sending the buffer panics. *)
Lemma write_overflow conn p b csid typeid sid {B : Bele} :
  readPos b = 0 → len (core b) = 256 → 0 ≤ writePos b ≤ 256 → 512 < writePos b + len p →
  ∃ b', Write p b = Ret b' ∧ ChunkAndWrite conn csid typeid sid b' = Panic.
Proof.
  intros Hr Hc Hw Hp. unfold Write, grow. rewrite Hc, Hr, Z.geb_leb, (proj2 (Z.leb_gt (len p) _)) by lia.
  cbn [Z.eqb]. cbv zeta. change (256 * 2) with 512. rewrite go_slice_Ret, !bind_Ret by lia.
  cbn [core writePos readPos]. rewrite Z.sub_0_r. unfold go_copy_at, go_upd_from.
  rewrite go_from_Ret, !bind_Ret by len_lia. eexists. split; [reflexivity|].
  unfold ChunkAndWrite, Bytes, Len. cbn [core writePos readPos]. cbv zeta.
  rewrite go_slice_Panic by len_lia. by destruct (_ <=? _).
Qed.

(** A play command for a stream name of more than 480 bytes makes a fresh
    packer panic: [grow] doubles the buffer once, whatever the size asked for,
    and the write position runs past the end. *)
Theorem rtmp_packer_overflow {B : Bele} {BS : BeleStream} (HBS : BeleStreamLaws BS) conn name sid :
  480 < len name < 65536 → writePlay conn name sid (NewPackerBuffer 256) = Panic.
Proof.
  intros Hn. unfold writePlay, send.
  assert (H : appends fresh_content (λ b, b ← WriteString (str "play") b;
     b ← WriteNumber (float64_of_int 3) b; b ← WriteNull b;
     b ← w_write [Amf0TypeMarkerString] b; WriteBe 2 (len name) b)
     (item_bytes (IStr (str "play")) ++ item_bytes (INum 3) ++ item_bytes INull ++
      [Amf0TypeMarkerString] ++ be_bytes 2 (len name))).
  { apply (appends_seq (WriteString (str "play"))); [by apply IStr_appends|].
    apply (appends_seq (WriteNumber (float64_of_int 3))); [by apply INum_appends|].
    apply (appends_seq WriteNull); [apply INull_appends|].
    apply (appends_seq (w_write [Amf0TypeMarkerString])).
    - apply (appends_write (M := 256)). simpl. lia.
    - apply (appends_be (M := 256)); [change (256 ^ Z.of_nat 2) with 65536|]; lia. }
  destruct (H (ModWritePos 12 (NewPackerBuffer 256)) (take 12 (core (NewPackerBuffer 256))))
    as (b & E & ([rest Ec] & Hr & Hw & _) & H256).
  { split; [by apply ready_reserve, ready_new|done]. }
  clear H. assert (Hwp : writePos b = 32) by (rewrite Hw, !length_app, be_bytes_length; reflexivity).
  assert (Hc : len (core b) = 256) by (apply H256; rewrite !length_app, be_bytes_length; by vm_compute).
  destruct (write_overflow conn name b csidOverStream RtmpTypeIdCommandMessageAmf0 sid Hr Hc
    ltac:(lia) ltac:(lia)) as (b' & Ew & Hpanic).
  set (b0 := ModWritePos 12 (NewPackerBuffer 256)) in *.
  destruct (bind_Ret_inv _ _ _ E) as (b1 & E1 & E'). clear E.
  destruct (bind_Ret_inv _ _ _ E') as (b2 & E2 & E''). clear E'.
  destruct (bind_Ret_inv _ _ _ E'') as (b3 & E3 & E4). clear E''.
  rewrite E1, bind_Ret. change (float64_of_int tidClientPlay) with (float64_of_int 3).
  rewrite E2, bind_Ret, E3, bind_Ret. unfold WriteString.
  rewrite (proj2 (Z.ltb_lt (len name) 65536)), u16_small by lia. rewrite E4, bind_Ret.
  unfold w_write, packer_buffer_writer. by rewrite Ew, bind_Ret.
Qed.

(** ** Witnesses *)

Definition demo_conn : list Z → Z * option goerr := λ bytes, (len bytes, None).

Definition demo_cmd : Command := Publish (str "live") (str "test110") 1.

Lemma rtmp_command_delivered_witness :
  ∃ b' wire payload,
    @send_command bele_impl bele_stream_impl demo_versions demo_conn demo_cmd (NewPackerBuffer 256) =
      Ret (b', wire, None) ∧ ready b' ∧
    @read_items bele_impl bele_stream_impl 5 payload =
      Ret (map item_back (command_items demo_versions demo_cmd), []) ∧
    ∀ S (cb : RtmpMsg → eff S unit) c rest fuel s,
      peerChunkSize c = LocalChunkSize → idle (getOrCreateStream c 5) →
      ∃ c' turns, @RunLoop bele_impl buffer_impl S cb (turns + fuel) c (wire ++ rest) s =
        (_ ← cb (mkRtmpMsg (mkRtmpHeader 5 (len payload) RtmpTypeIdCommandMessageAmf0 1 0) payload);
         @RunLoop bele_impl buffer_impl S cb fuel c' rest) s.
Proof.
  apply (rtmp_command_delivered bele_impl_laws bele_stream_impl_laws buffer_impl_laws demo_versions
    demo_conn demo_cmd (NewPackerBuffer 256)).
  - intros bytes. reflexivity.
  - repeat split; vm_compute; congruence.
  - apply ready_new.
Defined.

Lemma rtmp_packer_overflow_witness :
  @writePlay bele_impl bele_stream_impl demo_conn (replicate 500 97) 1 (NewPackerBuffer 256) = Panic.
Proof. apply (rtmp_packer_overflow bele_stream_impl_laws demo_conn (replicate 500 97) 1). vm_compute. split; reflexivity. Defined.
