(* ===== verification/ServerSession.v ===== *)
(** * RTMP server sessions (src/pkg/rtmp/server_session.go, stream.go)

    What a session does with each message the composer delivers: commands of
    the client, acknowledgements, and audio and video for the publisher's
    observer.  The world of a session is its state and the trace of what it
    did: the events given to its observers and the bytes written. *)

From stdpp Require Import gmap.
From S2P Require Import Prelude Naza GoFloat RtmpMsg RtmpChunk Amf0 Metadata MessagePacker.

Definition windowAcknowledgementSize : Z := 5000000.
Definition peerBandwidth : Z := 5000000.
Definition peerBandwidthLimitTypeDynamic : Z := 2.
Definition ackSeqMax : Z := 4026531840.

(** ** Reading a message (StreamMsg)

    The unread bytes of the message; [Skip] of the buffer past its end is the
    buffer's business. *)

Class MsgSkip := msg_skip : Z → list Z → outcome (list Z).
Class MsgSkipLaws (SK : MsgSkip) : Prop :=
  msg_skip_spec n b : 0 ≤ n ≤ len b → msg_skip n b = Ret (drop (Z.to_nat n) b).

Definition msg_skip_impl : MsgSkip := λ n b, go_from b n.
#[global] Instance msg_skip_impl_laws : MsgSkipLaws msg_skip_impl.
Proof. intros n b Hn. unfold msg_skip, msg_skip_impl. by apply go_from_Ret. Qed.

Section StreamMsg.
Context {B : Bele} {BS : BeleStream} {SK : MsgSkip}.

Definition peekStringWithType (msg : list Z) : outcome (list Z) :=
  '(s, _) ← ReadString msg; Ret s.

Definition readStringWithType (msg : list Z) : outcome (list Z * list Z) :=
  '(s, l) ← ReadString msg; msg ← msg_skip (u32 l) msg; Ret (s, msg).

Definition readNumberWithType (msg : list Z) : outcome (Z * list Z) :=
  '(v, l) ← ReadNumber msg; msg ← msg_skip (u32 l) msg; Ret (int_of_float64 v, msg).

Definition readObjectWithType (msg : list Z) : outcome (ObjectPairArray * list Z) :=
  '(o, l) ← ReadObject msg; msg ← msg_skip (u32 l) msg; Ret (o, msg).

Definition readNull (msg : list Z) : outcome (list Z) :=
  l ← ReadNull msg; msg_skip (u32 l) msg.
End StreamMsg.

(** ** The session *)

Inductive BaseType := SessionBaseTypePubSub | SessionBaseTypePub | SessionBaseTypeSub.

#[global] Instance BaseType_eq_dec : EqDecision BaseType.
Proof. solve_decision. Defined.

Record ServerSession := mkSession {
  url : list Z;
  tcUrl : list Z;
  streamNameWithRawQuery : list Z;
  appName : list Z;
  streamName : list Z;
  rawQuery : list Z;
  packer : Buffer;
  baseType : BaseType;
  avObserver : bool; (* an observer is set *)
  DisposeByObserverFlag : bool;
  peerWinAckSize : Z;
  recvLastAck : Z;
  seqNum : Z;
}.

Definition NewServerSession : ServerSession :=
  mkSession [] [] [] [] [] [] (NewPackerBuffer 256) SessionBaseTypePubSub false false 0 0 0.

Inductive Event :=
  | EvConnect (opa : ObjectPairArray)
  | EvNewPub (app stream : list Z)
  | EvNewSub (app stream : list Z)
  | EvAvMsg (m : RtmpMsg)
  | EvWrite (bytes : list Z).

Definition World : Type := ServerSession * list Event.

Definition set_names (s : ServerSession) (url tcUrl full app name query : list Z) : ServerSession :=
  mkSession url tcUrl full app name query (packer s) (baseType s) (avObserver s)
    (DisposeByObserverFlag s) (peerWinAckSize s) (recvLastAck s) (seqNum s).
Definition set_packer (s : ServerSession) (b : Buffer) : ServerSession :=
  mkSession (url s) (tcUrl s) (streamNameWithRawQuery s) (appName s) (streamName s) (rawQuery s)
    b (baseType s) (avObserver s) (DisposeByObserverFlag s) (peerWinAckSize s) (recvLastAck s) (seqNum s).
Definition set_roles (s : ServerSession) (t : BaseType) (av disposed : bool) : ServerSession :=
  mkSession (url s) (tcUrl s) (streamNameWithRawQuery s) (appName s) (streamName s) (rawQuery s)
    (packer s) t av disposed (peerWinAckSize s) (recvLastAck s) (seqNum s).
Definition set_acks (s : ServerSession) (win last seq : Z) : ServerSession :=
  mkSession (url s) (tcUrl s) (streamNameWithRawQuery s) (appName s) (streamName s) (rawQuery s)
    (packer s) (baseType s) (avObserver s) (DisposeByObserverFlag s) win last seq.

Definition get : eff World ServerSession := λ w, (w, Ret w.1).
Definition modify (f : ServerSession → ServerSession) : eff World unit := λ w, ((f w.1, w.2), Ret tt).
Definition event (e : Event) : eff World unit := λ w, ((w.1, w.2 ++ [e]), Ret tt).

(** A message sent by the packer: what the connection was given is an event,
    an error of the packer is the error of the caller. *)
Definition sends (f : Buffer → outcome Sent) : eff World unit := λ w,
  match f (packer w.1) with
  | Panic => (w, Panic)
  | Fail e => (w, Fail e)
  | Ret (b, out, err) =>
      ((set_packer w.1 b, w.2 ++ [EvWrite out]), match err with Some e => Fail e | None => Ret tt end)
  end.

(** [strings.Split(s, "?")] *)
Fixpoint split_query (s : list Z) : list (list Z) :=
  match s with
  | [] => [[]]
  | x :: s =>
      if x =? 63 then [] :: split_query s
      else match split_query s with
           | [] => [[x]]
           | p :: ps => (x :: p) :: ps
           end
  end.

(** The observers: whether a new publisher or subscriber is accepted (an error
    closes it) and whether a publisher's observer was set meanwhile; the bytes
    the connection has read so far. *)
Class Observer := {
  OnNewRtmpPubSession : ServerSession → option goerr * bool;
  OnNewRtmpSubSession : ServerSession → option goerr;
  ReadBytesSum : World → Z;
}.

Section Session.
Context {B : Bele} {BS : BeleStream} {SK : MsgSkip} {O : Observer}.
Variable ver : Versions.
Variable conn : list Z → Z * option goerr.

Definition doWinAckSize (msg : list Z) : eff World unit :=
  if u32 (len msg) <? 4 then lift (Fail ErrRtmpShortBuffer) else
  v ← lift (BeUint32 msg);
  modify (λ s, set_acks s v (recvLastAck s) (seqNum s)).

Definition doAck (msg : list Z) : eff World unit :=
  if len msg <? 4 then lift (Fail ErrRtmpShortBuffer) else
  _ ← lift (BeUint32 msg); mret tt.

Definition doUserControl (msg : list Z) : eff World unit :=
  userControlType ← lift (BeUint16 msg);
  if userControlType =? RtmpUserControlPingRequest then
    msg ← lift (msg_skip 2 msg);
    timestamp ← lift (BeUint32 msg);
    sends (writePingResponse conn timestamp)
  else mret tt.

(** [s.avObserver.OnReadRtmpAvMsg(..)]: a call on a nil interface panics. *)
Definition deliver_av (m : RtmpMsg) : eff World unit :=
  s ← get;
  if avObserver s then event (EvAvMsg m) else lift Panic.

Definition doDataMessageAmf0 (m : RtmpMsg) : eff World unit :=
  s ← get;
  if negb (bool_decide (baseType s = SessionBaseTypePub)) then lift (Fail ErrRtmpUnexpectedMsg) else
  val ← lift (peekStringWithType (msgPayload m));
  if bool_decide (val = str "|RtmpSampleAccess") then mret tt else deliver_av m.

Definition writeAcknowledgementIfNeeded : eff World unit := λ w,
  let s := w.1 in
  if peerWinAckSize s <=? 0 then (w, Ret tt) else
  let sum := ReadBytesSum w in
  let delta := u32 (sum - recvLastAck s) in
  if delta <? u32 (Z.quot windowAcknowledgementSize 2) then (w, Ret tt) else
  let seq := u32 (seqNum s + delta) in
  let seq := if seq >? ackSeqMax then delta else seq in
  sends (writeAcknowledgement conn seq) (set_acks s (peerWinAckSize s) sum seq, w.2).

Definition doConnect (tid : Z) (msg : list Z) : eff World unit :=
  '(val, _) ← lift (readObjectWithType msg);
  let app_found := FindString val (str "app") in
  (* assigned before the error is looked at *)
  _ ← modify (λ s, set_names s (url s) (tcUrl s) (streamNameWithRawQuery s)
        (match app_found with Ret a => a | _ => [] end) (streamName s) (rawQuery s));
  _ ← lift app_found;
  let url_found := FindString val (str "tcUrl") in
  _ ← modify (λ s, set_names s (url s) (match url_found with Ret u => u | _ => [] end)
        (streamNameWithRawQuery s) (appName s) (streamName s) (rawQuery s));
  _ ← event (EvConnect val);
  _ ← sends (writeWinAckSize conn windowAcknowledgementSize);
  _ ← sends (writePeerBandwidth conn peerBandwidth peerBandwidthLimitTypeDynamic);
  _ ← sends (writeChunkSize conn LocalChunkSize);
  let oe := match FindNumber val (str "objectEncoding") with Ret n => n | _ => -1 end in
  let oe := if negb (oe =? 0) && negb (oe =? 3) then 0 else oe in
  sends (writeConnectResult ver conn tid oe).

Definition doCreateStream (tid : Z) : eff World unit := sends (writeCreateStreamResult conn tid).

(** The stream name of a publish or play, stored in the session. *)
Definition read_stream_name (msg : list Z) : eff World (list Z) :=
  msg ← lift (readNull msg);
  let name_read := readStringWithType msg in
  _ ← modify (λ s, set_names s (url s) (tcUrl s) (match name_read with Ret (f, _) => f | _ => [] end)
        (appName s) (streamName s) (rawQuery s));
  '(full, msg) ← lift name_read;
  let ss := split_query full in
  _ ← modify (λ s, set_names s (tcUrl s ++ str "/" ++ full) (tcUrl s) full (appName s)
        (hd [] ss) (match ss with [_; q] => q | _ => rawQuery s end));
  mret msg.

(** A failed [readStringWithType] of the type of publishing is ignored; the
    bytes after it are not looked at. *)
Definition doPublish (tid : Z) (msg : list Z) : eff World unit :=
  msg ← read_stream_name msg;
  _ ← lift (match readStringWithType msg with Panic => Panic | _ => Ret tt end);
  _ ← sends (writeOnStatusPublish conn Msid1);
  _ ← modify (λ s, set_roles s SessionBaseTypePub (avObserver s) (DisposeByObserverFlag s));
  s ← get;
  _ ← event (EvNewPub (appName s) (streamName s));
  let '(err, observed) := OnNewRtmpPubSession s in
  _ ← modify (λ s, set_roles s (baseType s) (avObserver s || observed)
        (match err with Some _ => true | None => DisposeByObserverFlag s end));
  match err with Some e => lift (Fail e) | None => mret tt end.

Definition doPlay (tid : Z) (msg : list Z) : eff World unit :=
  _ ← read_stream_name msg;
  _ ← sends (writeStreamIsRecorded conn Msid1);
  _ ← sends (writeStreamBegin conn Msid1);
  _ ← sends (writeOnStatusPlay conn Msid1);
  _ ← modify (λ s, set_roles s SessionBaseTypeSub (avObserver s) (DisposeByObserverFlag s));
  s ← get;
  _ ← event (EvNewSub (appName s) (streamName s));
  match OnNewRtmpSubSession s with
  | Some e =>
      _ ← modify (λ s, set_roles s (baseType s) (avObserver s) true);
      lift (Fail e)
  | None => mret tt
  end.

Definition doCommandMessage (msg : list Z) : eff World unit :=
  '(cmd, msg) ← lift (readStringWithType msg);
  '(tid, msg) ← lift (readNumberWithType msg);
  if bool_decide (cmd = str "connect") then doConnect tid msg
  else if bool_decide (cmd = str "createStream") then doCreateStream tid
  else if bool_decide (cmd = str "publish") then doPublish tid msg
  else if bool_decide (cmd = str "play") then doPlay tid msg
  else mret tt.

Definition doCommandAmf3Message (msg : list Z) : eff World unit :=
  msg ← lift (msg_skip 1 msg);
  doCommandMessage msg.

Definition doMsg (m : RtmpMsg) : eff World unit :=
  _ ← writeAcknowledgementIfNeeded;
  let msg := msgPayload m in
  let t := MsgTypeId (msgHeader m) in
  if t =? RtmpTypeIdWinAckSize then doWinAckSize msg
  else if t =? RtmpTypeIdSetChunkSize then mret tt
  else if t =? RtmpTypeIdCommandMessageAmf0 then doCommandMessage msg
  else if t =? RtmpTypeIdCommandMessageAmf3 then doCommandAmf3Message msg
  else if t =? RtmpTypeIdMetadata then doDataMessageAmf0 m
  else if t =? RtmpTypeIdAck then doAck msg
  else if t =? RtmpTypeIdUserControl then doUserControl msg
  else if (t =? RtmpTypeIdAudio) || (t =? RtmpTypeIdVideo) then
    s ← get;
    let err := negb (bool_decide (baseType s = SessionBaseTypePub)) in
    _ ← deliver_av m;
    if err then lift (Fail ErrRtmpUnexpectedMsg) else mret tt
  else mret tt.

(** [runReadLoop] on the bytes the client sends after the handshake. *)
Definition runReadLoop {NB : NazaBuffer} (fuel : nat) (input : list Z) : eff World unit :=
  RunLoop doMsg fuel NewChunkComposer input.
End Session.

(** ** Invariants of a run *)

(** The composer only touches the world through its callback. *)
Section RunLoopKeeps.
Context {B : Bele} {NB : NazaBuffer} {W : Type}.
Variable I : W → Prop.
Variable cb : RtmpMsg → eff W unit.
Hypothesis Hcb : ∀ m, keeps I (cb m).

Ltac keep :=
  repeat first
    [ apply keeps_lift | apply keeps_ret | apply Hcb
    | apply keeps_bind; [|intros ?]
    | case_match ].

Lemma aggregate_keeps fuel : ∀ st base, keeps I (aggregate_loop cb fuel st base).
Proof. induction fuel as [|fuel IH]; intros st base; cbn [aggregate_loop]; keep. apply IH. Qed.

Lemma deliver_keeps c st : keeps I (deliver cb c st).
Proof. unfold deliver. case_match; [apply aggregate_keeps|keep]. Qed.

Lemma RunLoop_step_keeps c input : keeps I (RunLoop_step cb c input).
Proof. unfold RunLoop_step. keep. apply deliver_keeps. Qed.

Lemma RunLoop_keeps fuel : ∀ c input, keeps I (RunLoop cb fuel c input).
Proof.
  induction fuel as [|fuel IH]; intros c input; cbn [RunLoop]; [apply keeps_lift|].
  apply keeps_bind; [apply RunLoop_step_keeps|]. intros [c' i']. apply IH.
Qed.
End RunLoopKeeps.

Definition has_pub (tr : list Event) : Prop := ∃ app name, EvNewPub app name ∈ tr.
Definition has_sub (tr : list Event) : Prop := ∃ app name, EvNewSub app name ∈ tr.

(** Media reaches an observer only after a publisher was announced, and the
    roles of the session were announced. *)
Record role_ok (w : World) : Prop := {
  role_observer : avObserver w.1 = true → has_pub w.2;
  role_pub : baseType w.1 = SessionBaseTypePub → has_pub w.2;
  role_sub : baseType w.1 = SessionBaseTypeSub → has_sub w.2;
  role_media : ∀ i m, w.2 !! i = Some (EvAvMsg m) →
    ∃ j app name, (j < i)%nat ∧ w.2 !! j = Some (EvNewPub app name);
}.

Lemma has_pub_app tr e : has_pub tr → has_pub (tr ++ [e]).
Proof. intros (a & n & H). exists a, n. apply elem_of_app. by left. Qed.
Lemma has_sub_app tr e : has_sub tr → has_sub (tr ++ [e]).
Proof. intros (a & n & H). exists a, n. apply elem_of_app. by left. Qed.

(** Another event; a media event needs a publisher. *)
Lemma role_event s s' tr e :
  role_ok (s, tr) → avObserver s' = avObserver s → baseType s' = baseType s →
  (∀ m, e = EvAvMsg m → has_pub tr) → role_ok (s', tr ++ [e]).
Proof.
  intros [H1 H2 H3 H4] Ea Eb He. cbn [fst snd] in *. split; cbn [fst snd].
  - rewrite Ea. intros. by apply has_pub_app, H1.
  - rewrite Eb. intros. by apply has_pub_app, H2.
  - rewrite Eb. intros. by apply has_sub_app, H3.
  - intros i m Hi. apply lookup_snoc_Some in Hi as [[Hl Hi]|[-> ->]].
    + destruct (H4 i m Hi) as (j & a & n & Hj & E). exists j, a, n. split; [done|].
      by apply lookup_app_l_Some.
    + destruct (He m eq_refl) as (a & n & Hin). apply list_elem_of_lookup in Hin as [j Hj].
      exists j, a, n. split; [by eapply lookup_lt_Some|by apply lookup_app_l_Some].
Qed.

Lemma role_state s s' tr :
  role_ok (s, tr) → avObserver s' = avObserver s → baseType s' = baseType s → role_ok (s', tr).
Proof.
  intros [H1 H2 H3 H4] Ea Eb. cbn [fst snd] in *.
  split; cbn [fst snd]; rewrite ?Ea, ?Eb; done.
Qed.

(** Runs the state operations at the head of a computation. *)
Ltac run := unfold mbind, eff_bind, get, modify, event, lift, mret, eff_ret; cbn.

Section Roles.
Context {B : Bele} {BS : BeleStream} {SK : MsgSkip} {O : Observer}.
Variable ver : Versions.
Variable conn : list Z → Z * option goerr.

Lemma sends_keeps f : keeps role_ok (sends f).
Proof.
  intros [s tr] H. unfold sends. cbn [fst snd]. destruct (f (packer s)) as [[[b out] err]|e|]; [|done|done].
  by eapply role_event.
Qed.
Lemma event_keeps e : (∀ m, e ≠ EvAvMsg m) → keeps role_ok (event e).
Proof. intros He [s tr] H. eapply role_event; try done. intros m ->. by destruct (He m). Qed.

(** A change that leaves the roles alone. *)
Lemma modify_keeps f :
  (∀ s, avObserver (f s) = avObserver s ∧ baseType (f s) = baseType s) → keeps role_ok (modify f).
Proof. intros Hf [s tr] H. destruct (Hf s). by eapply role_state. Qed.

Lemma get_keeps : keeps role_ok get.
Proof. by intros w Hw. Qed.

Lemma deliver_av_keeps m : keeps role_ok (deliver_av m).
Proof.
  intros [s tr] H. unfold deliver_av. run. destruct (avObserver s) eqn:E; [|done].
  apply (role_event s); try done. intros ? ?. exact (role_observer _ H E).
Qed.

Ltac keep_roles :=
  cbv zeta;
  repeat first
    [ apply keeps_lift | apply keeps_ret | apply sends_keeps | apply deliver_av_keeps | apply get_keeps
    | apply event_keeps; intros ?; discriminate
    | apply modify_keeps; intros ?; by split
    | apply keeps_bind; [|intros ?]
    | case_match ].

Lemma read_stream_name_keeps msg : keeps role_ok (read_stream_name msg).
Proof. unfold read_stream_name. keep_roles. Qed.

Lemma doConnect_keeps tid msg : keeps role_ok (doConnect ver conn tid msg).
Proof. unfold doConnect. keep_roles. Qed.

Lemma doPublish_keeps tid msg : keeps role_ok (doPublish conn tid msg).
Proof.
  unfold doPublish. apply keeps_bind; [apply read_stream_name_keeps|]. intros msg'.
  apply keeps_bind; [apply keeps_lift|]. intros _. apply keeps_bind; [apply sends_keeps|]. intros _.
  intros [s tr] H. run. destruct (OnNewRtmpPubSession _) as [err observed].
  assert (Hr : role_ok (set_roles s SessionBaseTypePub (avObserver s || observed)
    match err with Some _ => true | None => DisposeByObserverFlag s end,
    tr ++ [EvNewPub (appName s) (streamName s)])).
  { pose proof (role_event s s tr (EvNewPub (appName s) (streamName s)) H eq_refl eq_refl
      ltac:(discriminate)) as [H1 H2 H3 H4].
    assert (Hp : has_pub (tr ++ [EvNewPub (appName s) (streamName s)])).
    { exists (appName s), (streamName s). apply elem_of_app. right. left. }
    by split. }
  by destruct err.
Qed.

Lemma doPlay_keeps tid msg : keeps role_ok (doPlay conn tid msg).
Proof.
  unfold doPlay. apply keeps_bind; [apply read_stream_name_keeps|]. intros msg'.
  do 3 (apply keeps_bind; [apply sends_keeps|]; intros _).
  intros [s tr] H. run.
  assert (Hr : ∀ d, role_ok (set_roles s SessionBaseTypeSub (avObserver s) d,
    tr ++ [EvNewSub (appName s) (streamName s)])).
  { intros d. pose proof (role_event s s tr (EvNewSub (appName s) (streamName s)) H eq_refl eq_refl
      ltac:(discriminate)) as [H1 H2 H3 H4].
    assert (Hp : has_sub (tr ++ [EvNewSub (appName s) (streamName s)])).
    { exists (appName s), (streamName s). apply elem_of_app. right. left. }
    by split. }
  destruct (OnNewRtmpSubSession _); apply Hr.
Qed.

Lemma writeAcknowledgement_keeps : keeps role_ok (writeAcknowledgementIfNeeded conn).
Proof.
  intros [s tr] H. unfold writeAcknowledgementIfNeeded. cbn [fst snd]. cbv zeta.
  destruct (_ <=? 0); [done|]. destruct (_ <? _); [done|].
  apply sends_keeps. by eapply role_state.
Qed.

Lemma doCommandMessage_keeps msg : keeps role_ok (doCommandMessage ver conn msg).
Proof.
  unfold doCommandMessage. apply keeps_bind; [apply keeps_lift|]. intros [cmd msg'].
  apply keeps_bind; [apply keeps_lift|]. intros [tid msg''].
  repeat case_bool_decide;
    [apply doConnect_keeps|apply sends_keeps|apply doPublish_keeps|apply doPlay_keeps|apply keeps_ret].
Qed.

Lemma doCommandAmf3Message_keeps msg : keeps role_ok (doCommandAmf3Message ver conn msg).
Proof.
  unfold doCommandAmf3Message. apply keeps_bind; [apply keeps_lift|]. intros msg'.
  apply doCommandMessage_keeps.
Qed.

Lemma doMsg_keeps m : keeps role_ok (doMsg ver conn m).
Proof.
  unfold doMsg. apply keeps_bind; [apply writeAcknowledgement_keeps|]. intros _. cbv zeta.
  repeat (case_match; [first
    [ apply doCommandMessage_keeps | apply doCommandAmf3Message_keeps
    | solve [unfold doWinAckSize, doDataMessageAmf0, doAck, doUserControl; keep_roles] ]|]).
  apply keeps_ret.
Qed.
End Roles.

(** ** The dialogue with a publisher *)

(** The message that carries a command (what [rtmp_command_delivered] shows the
    composer delivers). *)
Definition command_msg (ver : Versions) (cmd : Command) : RtmpMsg :=
  let payload := items_bytes (command_items ver cmd) in
  mkRtmpMsg (mkRtmpHeader (command_csid cmd) (len payload) RtmpTypeIdCommandMessageAmf0 (command_sid cmd) 0)
    payload.

(** What the client reads: the bytes of a command, and of a control message. *)
Definition command_wire (ver : Versions) (cmd : Command) : list Z :=
  packed_wire (command_csid cmd) RtmpTypeIdCommandMessageAmf0 (command_sid cmd)
    (items_bytes (command_items ver cmd)).
Definition control_wire (typeid : Z) (body : list Z) : list Z :=
  packed_wire csidProtocolControl typeid 0 body.

Definition connect_events (ver : Versions) (app url : list Z) (push : bool) (tid : Z) : list Event :=
  [EvConnect (map read_back_pair (connect_pairs ver app url push));
   EvWrite (control_wire RtmpTypeIdWinAckSize (be_bytes 4 windowAcknowledgementSize));
   EvWrite (control_wire RtmpTypeIdBandwidth (be_bytes 4 peerBandwidth ++ [peerBandwidthLimitTypeDynamic]));
   EvWrite (control_wire RtmpTypeIdSetChunkSize (be_bytes 4 LocalChunkSize));
   EvWrite (command_wire ver (ConnectResult tid 0))].

Section Dialogue.
Context {B : Bele} {HB : BeleLaws B} {BS : BeleStream} {HBS : BeleStreamLaws BS}.
Context {SK : MsgSkip} {HSK : MsgSkipLaws SK} {O : Observer}.
Variable ver : Versions.
Variable conn : list Z → Z * option goerr.
Hypothesis Hconn : accepts conn.

(** Reading items off a message. *)
Lemma skip_item i rest :
  item_ok i → msg_skip (u32 (len (item_bytes i))) (item_bytes i ++ rest) = Ret rest.
Proof.
  intros Hi. pose proof (item_bytes_bound i Hi). rewrite u32_small by lia.
  rewrite msg_skip_spec by len_lia. by rewrite Nat2Z.id, drop_app_length.
Qed.

Lemma readStringWithType_spec s rest :
  item_ok (IStr s) → readStringWithType (item_bytes (IStr s) ++ rest) = Ret (s, rest).
Proof.
  intros Hs. pose proof (skip_item (IStr s) rest Hs) as E. cbn [item_ok item_bytes] in *.
  unfold readStringWithType. rewrite ReadString_spec, bind_Ret by lia.
  replace (len (str_bytes s)) with (3 + len s) in E by (rewrite str_bytes_short by lia; len_lia).
  by rewrite E.
Qed.

Lemma readNumberWithType_spec n rest :
  item_ok (INum n) → readNumberWithType (item_bytes (INum n) ++ rest) = Ret (n, rest).
Proof.
  intros Hn. pose proof (skip_item (INum n) rest Hn) as E. cbn [item_ok item_bytes] in *.
  destruct (float64_of_int_roundtrip n Hn) as [H1 H2].
  unfold readNumberWithType. rewrite ReadNumber_spec, bind_Ret by done.
  change (len (num_bytes (float64_of_int n))) with 9 in E. by rewrite E, bind_Ret, H2.
Qed.

Lemma readNull_spec rest : readNull (item_bytes INull ++ rest) = Ret rest.
Proof.
  pose proof (skip_item INull rest I) as E. cbn [item_bytes] in *. unfold readNull, ReadNull.
  rewrite (proj2 (Z.ltb_ge _ 1)) by len_lia. cbn [app]. rewrite go_index_head, bind_Ret by done. exact E.
Qed.

Lemma readObjectWithType_spec opa rest :
  item_ok (IObj opa) →
  readObjectWithType (item_bytes (IObj opa) ++ rest) = Ret (map read_back_pair opa, rest).
Proof.
  intros Ho. pose proof (skip_item (IObj opa) rest Ho) as E. cbn [item_bytes] in *.
  unfold readObjectWithType. rewrite ReadObject_spec, bind_Ret by apply Ho. by rewrite E.
Qed.

(** [answers f ev]: a send of a ready packer always succeeds and is the event
    [ev]. *)
Definition answers (f : Buffer → outcome Sent) (ev : Event) : Prop :=
  ∀ s tr, ready (packer s) →
    ∃ b, ready b ∧ sends f (s, tr) = ((set_packer s b, tr ++ [ev]), Ret tt).

Lemma answers_send f body csid typeid streamid :
  appends content f body → 0 < len body < 16777216 → 2 ≤ csid ≤ 63 → is_u8 typeid → is_u32 streamid →
  answers (send conn f csid typeid streamid) (EvWrite (packed_wire csid typeid streamid body)).
Proof.
  intros Hf Hl Hc Ht Hs s tr Hr.
  destruct (send_spec conn Hconn f body csid typeid streamid (packer s) Hf Hr Hl Hc Ht Hs) as (b & E & Hb).
  exists b. split; [done|]. unfold sends. cbn [fst snd]. by rewrite E.
Qed.

Lemma answers_word v typeid :
  is_u32 v → is_u8 typeid →
  answers (writeProtocolControlMessage conn typeid v) (EvWrite (control_wire typeid (be_bytes 4 v))).
Proof.
  intros Hv Ht. unfold writeProtocolControlMessage. rewrite u32_small by done.
  apply answers_send; try done. by apply (appends_be (M := 256)).
Qed.

Lemma answers_bandwidth v t :
  is_u32 v →
  answers (writePeerBandwidth conn v t) (EvWrite (control_wire RtmpTypeIdBandwidth (be_bytes 4 v ++ [t]))).
Proof.
  intros Hv. unfold writePeerBandwidth. rewrite u32_small by done.
  apply answers_send; try done. apply (appends_seq (WriteBe 4 v) (WriteByte t)).
  - by apply (appends_be (M := 256)).
  - apply WriteByte_appends.
Qed.

Lemma answers_user_control ev v :
  is_u16 ev → is_u32 v →
  answers (user_control conn ev v) (EvWrite (control_wire RtmpTypeIdUserControl (be_bytes 2 ev ++ be_bytes 4 v))).
Proof.
  intros He Hv. unfold user_control. rewrite u16_small, u32_small by done.
  apply answers_send; try done.
  apply (appends_seq (WriteBe 2 ev) (WriteBe 4 v)); by apply (appends_be (M := 256)).
Qed.

Lemma answers_command cmd :
  command_ok ver cmd → answers (send_command ver conn cmd) (EvWrite (command_wire ver cmd)).
Proof.
  intros Hc s tr Hr. destruct (send_command_spec ver conn cmd (packer s) Hconn Hc Hr) as (b & E & Hb).
  exists b. split; [done|]. unfold sends. cbn [fst snd]. by rewrite E.
Qed.

(** Steps of a dialogue: a send with what follows it, a last send, and the
    state operations. *)
Lemma answers_step {A} f ev (k : unit → eff World A) s tr (P : World * outcome A → Prop) :
  answers f ev → ready (packer s) →
  (∀ b, ready b → P (k tt (set_packer s b, tr ++ [ev]))) → P ((sends f ≫= k) (s, tr)).
Proof.
  intros Hf Hr Hk. destruct (Hf s tr Hr) as (b & Hb & E). rewrite (eff_bind_Ret _ _ _ _ _ E). by apply Hk.
Qed.
Lemma answers_last f ev s tr (P : World * outcome unit → Prop) :
  answers f ev → ready (packer s) →
  (∀ b, ready b → P ((set_packer s b, tr ++ [ev]), Ret tt)) → P (sends f (s, tr)).
Proof. intros Hf Hr Hk. destruct (Hf s tr Hr) as (b & Hb & E). rewrite E. by apply Hk. Qed.
Lemma modify_step {A} f (k : unit → eff World A) s tr (P : World * outcome A → Prop) :
  P (k tt (f s, tr)) → P ((modify f ≫= k) (s, tr)).
Proof. done. Qed.
Lemma event_step {A} e (k : unit → eff World A) s tr (P : World * outcome A → Prop) :
  P (k tt (s, tr ++ [e])) → P ((event e ≫= k) (s, tr)).
Proof. done. Qed.

(** A command arrives: its name and transaction are read off. *)
Lemma doMsg_command cmd name tid rest_items s tr :
  peerWinAckSize s ≤ 0 → command_items ver cmd = IStr name :: INum tid :: rest_items →
  item_ok (IStr name) → item_ok (INum tid) →
  doMsg ver conn (command_msg ver cmd) (s, tr) =
  (if bool_decide (name = str "connect") then doConnect ver conn tid (items_bytes rest_items)
   else if bool_decide (name = str "createStream") then doCreateStream conn tid
   else if bool_decide (name = str "publish") then doPublish conn tid (items_bytes rest_items)
   else if bool_decide (name = str "play") then doPlay conn tid (items_bytes rest_items)
   else mret tt) (s, tr).
Proof.
  intros Hw Hi Hn Ht. unfold doMsg.
  assert (Ea : writeAcknowledgementIfNeeded conn (s, tr) = ((s, tr), Ret tt)).
  { unfold writeAcknowledgementIfNeeded. cbn [fst]. by rewrite (proj2 (Z.leb_le _ 0)). }
  rewrite (eff_bind_Ret _ _ _ _ _ Ea). cbv zeta.
  assert (Ep : msgPayload (command_msg ver cmd) =
    item_bytes (IStr name) ++ item_bytes (INum tid) ++ items_bytes rest_items).
  { unfold command_msg. cbn [msgPayload]. by rewrite Hi. }
  rewrite Ep. clear Ep.
  change (MsgTypeId (msgHeader (command_msg ver cmd))) with RtmpTypeIdCommandMessageAmf0.
  unfold RtmpTypeIdCommandMessageAmf0, RtmpTypeIdWinAckSize, RtmpTypeIdSetChunkSize. cbn [Z.eqb Pos.eqb].
  unfold doCommandMessage. rewrite readStringWithType_spec, eff_bind_lift by done.
  by rewrite readNumberWithType_spec, eff_bind_lift.
Qed.

Lemma doConnect_spec tid app url push s tr :
  command_ok ver (Connect app url push) → command_ok ver (ConnectResult tid 0) → ready (packer s) →
  ∃ b, ready b ∧
    doConnect ver conn tid (items_bytes [IObj (connect_pairs ver app url push)]) (s, tr) =
    ((set_packer (set_names s (ServerSession.url s) url (streamNameWithRawQuery s) app (streamName s) (rawQuery s)) b,
      tr ++ connect_events ver app url push tid), Ret tt).
Proof.
  intros Hc Hcr Hr. pose proof (command_items_ok ver _ Hc) as Hi. cbn [command_items] in Hi.
  apply List.Forall_cons_iff in Hi as [_ Hi]. apply List.Forall_cons_iff in Hi as [_ Hi].
  apply List.Forall_cons_iff in Hi as [Hobj _].
  unfold doConnect, items_bytes. cbn [map concat]. rewrite readObjectWithType_spec, eff_bind_lift by done.
  set (val := map read_back_pair (connect_pairs ver app url push)).
  assert (E1 : FindString val (str "app") = Ret app) by reflexivity.
  assert (E2 : FindString val (str "tcUrl") = Ret url) by (unfold val, connect_pairs; by destruct push).
  assert (E3 : FindNumber val (str "objectEncoding") = Fail ErrAmfNotExist)
    by (unfold val, connect_pairs; by destruct push).
  rewrite E1, E2, E3. clear E1 E2 E3. cbv zeta. cbn [Z.eqb negb andb].
  match goal with |- ∃ b, ready b ∧ ?x = _ => pattern x end.
  apply modify_step. rewrite eff_bind_lift. apply modify_step, event_step.
  eapply answers_step; [by apply answers_word|done|]. intros b1 R1.
  eapply answers_step; [by apply answers_bandwidth|done|]. intros b2 R2.
  eapply answers_step; [by apply answers_word|done|]. intros b3 R3.
  eapply answers_last; [exact (answers_command (ConnectResult tid 0) Hcr)|done|]. intros b4 R4.
  exists b4. split; [done|]. unfold connect_events. rewrite <- !app_assoc. reflexivity.
Qed.
Lemma doCreateStream_spec tid s tr :
  command_ok ver (CreateStreamResult tid) → ready (packer s) →
  ∃ b, ready b ∧ doCreateStream conn tid (s, tr) =
    ((set_packer s b, tr ++ [EvWrite (command_wire ver (CreateStreamResult tid))]), Ret tt).
Proof. intros Hc Hr. by apply (answers_command (CreateStreamResult tid)). Qed.

(** The session after the name of its stream was read. *)
Definition named (s : ServerSession) (name : list Z) : ServerSession :=
  set_names s (tcUrl s ++ str "/" ++ name) (tcUrl s) name (appName s) (hd [] (split_query name))
    (match split_query name with [_; q] => q | _ => rawQuery s end).

Lemma read_stream_name_spec {A} name rest_items (k : list Z → eff World A) s tr :
  item_ok (IStr name) →
  (read_stream_name (items_bytes (INull :: IStr name :: rest_items)) ≫= k) (s, tr) =
  k (items_bytes rest_items) (named s name, tr).
Proof.
  intros Hn. unfold read_stream_name.
  assert (E : items_bytes (INull :: IStr name :: rest_items) =
    item_bytes INull ++ item_bytes (IStr name) ++ items_bytes rest_items) by done.
  assert (H : ∀ msg : list Z, readNull (items_bytes (INull :: IStr name :: rest_items)) = Ret msg →
    readStringWithType msg = Ret (name, items_bytes rest_items) →
    (read_stream_name (items_bytes (INull :: IStr name :: rest_items)) ≫= k) (s, tr) =
    k (items_bytes rest_items) (named s name, tr)).
  { intros msg E1 E2. unfold read_stream_name. rewrite E1. run. by rewrite E2. }
  eapply H; [rewrite E; apply readNull_spec|by apply readStringWithType_spec].
Qed.

Lemma doPublish_spec tid app name sid s tr :
  command_ok ver (Publish app name sid) → (∀ s, OnNewRtmpPubSession s = (None, true)) → ready (packer s) →
  ∃ b, ready b ∧ doPublish conn tid (items_bytes [INull; IStr name; IStr (str "live")]) (s, tr) =
    ((set_packer (set_roles (named s name) SessionBaseTypePub true (DisposeByObserverFlag s)) b,
      tr ++ [EvWrite (command_wire ver (OnStatusPublish Msid1));
             EvNewPub (appName s) (hd [] (split_query name))]), Ret tt).
Proof.
  intros Hc HO Hr. pose proof (command_items_ok ver _ Hc) as Hi. cbn [command_items] in Hi.
  do 3 apply List.Forall_cons_iff in Hi as [_ Hi]. apply List.Forall_cons_iff in Hi as [Hname _].
  assert (Hs : command_ok ver (OnStatusPublish Msid1)) by (destruct Hc as (? & ? & _); by repeat split).
  unfold doPublish. rewrite read_stream_name_spec by done.
  assert (Ep : readStringWithType (items_bytes [IStr (str "live")]) = Ret (str "live", [])) by
    (apply (readStringWithType_spec (str "live") []); by vm_compute).
  rewrite Ep, eff_bind_lift. match goal with |- ∃ b, ready b ∧ ?x = _ => pattern x end.
  eapply answers_step; [exact (answers_command (OnStatusPublish Msid1) Hs)|done|]. intros b Hb.
  exists b. split; [done|]. run. rewrite HO. by rewrite <- app_assoc, orb_true_r.
Qed.

Lemma doPlay_spec tid name sid s tr :
  command_ok ver (Play name sid) → (∀ s, OnNewRtmpSubSession s = None) → ready (packer s) →
  ∃ b, ready b ∧ doPlay conn tid (items_bytes [INull; IStr name]) (s, tr) =
    ((set_packer (set_roles (named s name) SessionBaseTypeSub (avObserver s) (DisposeByObserverFlag s)) b,
      tr ++ [EvWrite (control_wire RtmpTypeIdUserControl (be_bytes 2 RtmpUserControlRecorded ++ be_bytes 4 Msid1));
             EvWrite (control_wire RtmpTypeIdUserControl (be_bytes 2 RtmpUserControlStreamBegin ++ be_bytes 4 Msid1));
             EvWrite (command_wire ver (OnStatusPlay Msid1));
             EvNewSub (appName s) (hd [] (split_query name))]), Ret tt).
Proof.
  intros Hc HO Hr. pose proof (command_items_ok ver _ Hc) as Hi. cbn [command_items] in Hi.
  do 3 apply List.Forall_cons_iff in Hi as [_ Hi]. apply List.Forall_cons_iff in Hi as [Hname _].
  assert (Hs : command_ok ver (OnStatusPlay Msid1)) by (destruct Hc as (? & ? & _); by repeat split).
  unfold doPlay. rewrite read_stream_name_spec by done.
  match goal with |- ∃ b, ready b ∧ ?x = _ => pattern x end.
  eapply answers_step; [by apply (answers_user_control RtmpUserControlRecorded Msid1)|done|]. intros b1 R1.
  eapply answers_step; [by apply (answers_user_control RtmpUserControlStreamBegin Msid1)|done|]. intros b2 R2.
  eapply answers_step; [exact (answers_command (OnStatusPlay Msid1) Hs)|done|]. intros b3 R3.
  exists b3. split; [done|]. run. rewrite HO. by rewrite <- !app_assoc.
Qed.

(** Media of a publisher. *)
Definition is_media (m : RtmpMsg) : Prop :=
  MsgTypeId (msgHeader m) = RtmpTypeIdAudio ∨ MsgTypeId (msgHeader m) = RtmpTypeIdVideo.

Lemma no_ack s tr : peerWinAckSize s ≤ 0 → writeAcknowledgementIfNeeded conn (s, tr) = ((s, tr), Ret tt).
Proof. intros Hw. unfold writeAcknowledgementIfNeeded. cbn [fst]. by rewrite (proj2 (Z.leb_le _ 0)). Qed.

Lemma doMsg_media m s tr :
  is_media m → peerWinAckSize s ≤ 0 → avObserver s = true → baseType s = SessionBaseTypePub →
  doMsg ver conn m (s, tr) = ((s, tr ++ [EvAvMsg m]), Ret tt).
Proof.
  intros Hm Hw Ha Hb. unfold doMsg. rewrite (eff_bind_Ret _ _ _ _ _ (no_ack s tr Hw)). cbv zeta.
  assert (E : deliver_av m (s, tr) = ((s, tr ++ [EvAvMsg m]), Ret tt)).
  { unfold deliver_av. run. by rewrite Ha. }
  destruct Hm as [-> | ->];
    unfold RtmpTypeIdAudio, RtmpTypeIdVideo, RtmpTypeIdWinAckSize, RtmpTypeIdSetChunkSize,
      RtmpTypeIdCommandMessageAmf0, RtmpTypeIdCommandMessageAmf3, RtmpTypeIdMetadata, RtmpTypeIdAck,
      RtmpTypeIdUserControl; cbn [Z.eqb Pos.eqb orb];
    (etransitivity; [apply (eff_bind_Ret get _ (s, tr) (s, tr) s); reflexivity|]);
    cbv zeta; rewrite (eff_bind_Ret _ _ _ _ _ E), Hb; by rewrite bool_decide_true.
Qed.

Lemma deliver_all_media msgs : ∀ s tr,
  Forall is_media msgs → peerWinAckSize s ≤ 0 → avObserver s = true → baseType s = SessionBaseTypePub →
  deliver_all (doMsg ver conn) msgs (s, tr) = ((s, tr ++ map EvAvMsg msgs), Ret tt).
Proof.
  induction msgs as [|m msgs IH]; intros s tr Hm Hw Ha Hb.
  { cbn [deliver_all map]. by rewrite app_nil_r. }
  apply List.Forall_cons_iff in Hm as [Hm Hms]. cbn [deliver_all map].
  rewrite (eff_bind_Ret _ _ _ _ _ (doMsg_media m s tr Hm Hw Ha Hb)), IH by done. by rewrite <- app_assoc.
Qed.
End Dialogue.

(** ** A client and a server *)

(** What a client writes when it sends messages one after the other. *)
Fixpoint send_all (fs : list (Buffer → outcome Sent)) (b : Buffer) : outcome (list Z) :=
  match fs with
  | [] => Ret []
  | f :: fs =>
      '(b, out, err) ← f b;
      match err with
      | Some e => Fail e
      | None => rest ← send_all fs b; Ret (out ++ rest)
      end
  end.

(** A client announces its chunk size, then sends its commands. *)
Definition client_sends {B : Bele} {BS : BeleStream} (ver : Versions) (conn : list Z → Z * option goerr)
    (cmds : list Command) : outcome (list Z) :=
  send_all (writeChunkSize conn LocalChunkSize :: map (send_command ver conn) cmds) (NewPackerBuffer 256).

Section EndToEnd.
Context {B : Bele} {HB : BeleLaws B} {BS : BeleStream} {HBS : BeleStreamLaws BS}.
Context {NB : NazaBuffer} {HNB : NazaBufferLaws NB}.
Context {SK : MsgSkip} {HSK : MsgSkipLaws SK} {O : Observer}.
Variable ver : Versions.

Definition chunk_size_wire : list Z := control_wire RtmpTypeIdSetChunkSize (be_bytes 4 LocalChunkSize).

Lemma send_all_commands conn cmds : ∀ b,
  accepts conn → Forall (command_ok ver) cmds → MessagePacker.ready b →
  send_all (map (send_command ver conn) cmds) b = Ret (concat (map (command_wire ver) cmds)).
Proof.
  induction cmds as [|cmd cmds IH]; intros b Hconn Hc Hb; [done|].
  apply List.Forall_cons_iff in Hc as [Hc Hcs]. cbn [map send_all concat].
  destruct (send_command_spec ver conn cmd b Hconn Hc Hb) as (b' & E & Hb').
  by rewrite E, bind_Ret, IH, bind_Ret.
Qed.

Lemma client_sends_spec conn cmds :
  accepts conn → Forall (command_ok ver) cmds →
  client_sends ver conn cmds = Ret (chunk_size_wire ++ concat (map (command_wire ver) cmds)).
Proof.
  intros Hconn Hc. unfold client_sends. cbn [send_all].
  destruct (send_spec conn Hconn (λ b, WriteBe 4 (u32 LocalChunkSize) b) (be_bytes 4 LocalChunkSize)
    csidProtocolControl RtmpTypeIdSetChunkSize 0 (NewPackerBuffer 256)) as (b & E & Hb); try done;
    [by apply (appends_be (M := 256))|].
  unfold writeChunkSize, writeProtocolControlMessage. rewrite E, bind_Ret.
  by rewrite (send_all_commands conn cmds b Hconn Hc Hb), bind_Ret.
Qed.

Lemma command_msg_ok cmd : command_ok ver cmd → msg_ok (command_msg ver cmd).
Proof.
  intros Hc. pose proof (command_items_ok ver cmd Hc) as Hi.
  assert (Hn : 0 < len (items_bytes (command_items ver cmd)) < 16777216)
    by (apply items_bytes_bound; [done|by destruct cmd|destruct cmd; simpl; lia]).
  destruct Hc as (_ & _ & Hs & _). unfold msg_ok, header_ok, csid_ok. cbn [command_msg msgHeader msgPayload
    Csid MsgLen MsgTypeId MsgStreamId TimestampAbs].
  assert (Hcs : 2 ≤ command_csid cmd < 65600) by by destruct cmd.
  repeat split; try done; try lia. intros E. rewrite E in Hn. simpl in Hn. lia.
Qed.

Lemma RunLoop_eof {S} (cb : RtmpMsg → eff S unit) fuel c s :
  RunLoop cb (Datatypes.S fuel) c [] s = (s, Fail EOF).
Proof. done. Qed.

(** A fresh session on a client's bytes: each message in turn, then the end. *)
Lemma runReadLoop_messages conn msgs fuel w :
  Forall msg_ok msgs → peerWinAckSize w.1 ≤ 0 →
  runReadLoop ver conn (1 + sum_list (map (msg_turns LocalChunkSize) msgs) + Datatypes.S fuel)
    (chunk_size_wire ++ concat (map (msg_wire LocalChunkSize) msgs)) w =
  (_ ← deliver_all (doMsg ver conn) msgs; lift (Fail EOF)) w.
Proof.
  intros Hms Hw. unfold runReadLoop. rewrite <- Nat.add_assoc.
  destruct (compose_chunk_size HB HNB (doMsg ver conn)
    (packed_header csidProtocolControl RtmpTypeIdSetChunkSize 0 (be_bytes 4 LocalChunkSize)) LocalChunkSize
    NewChunkComposer (concat (map (msg_wire LocalChunkSize) msgs))
    (sum_list (map (msg_turns LocalChunkSize) msgs) + Datatypes.S fuel) w) as (c1 & D & E);
    try done; [apply quiet_new|].
  etransitivity; [exact E|].
  assert (Ed : doMsg ver conn (mkRtmpMsg
    (packed_header csidProtocolControl RtmpTypeIdSetChunkSize 0 (be_bytes 4 LocalChunkSize))
    (be_bytes 4 LocalChunkSize)) w = (w, Ret tt)).
  { destruct w as [s tr]. unfold doMsg. by rewrite (eff_bind_Ret _ _ _ _ _ (no_ack conn s tr Hw)). }
  rewrite (eff_bind_Ret _ _ _ _ _ Ed).
  destruct (RunLoop_msgs (doMsg ver conn) LocalChunkSize msgs c1 [] (Datatypes.S fuel) w) as (c' & _ & _ & E');
    try done; [by rewrite (delivered_size _ _ _ D)|eapply quiet_delivered; [|exact D]; apply quiet_new|].
  rewrite app_nil_r in E'. etransitivity; [exact E'|].
  unfold mbind, eff_bind. by destruct (deliver_all (doMsg ver conn) msgs w) as [w' [[]|e|]].
Qed.

(** The bytes of a client's commands and of what follows them. *)
Lemma client_messages conn cmds msgs fuel :
  Forall (command_ok ver) cmds → Forall msg_ok msgs →
  runReadLoop ver conn
    (1 + sum_list (map (msg_turns LocalChunkSize) (map (command_msg ver) cmds ++ msgs)) + Datatypes.S fuel)
    (chunk_size_wire ++ concat (map (command_wire ver) cmds) ++ concat (map (msg_wire LocalChunkSize) msgs))
    (NewServerSession, []) =
  (_ ← deliver_all (doMsg ver conn) (map (command_msg ver) cmds ++ msgs); lift (Fail EOF)) (NewServerSession, []).
Proof.
  intros Hcs Hms. rewrite <- runReadLoop_messages with (fuel := fuel); [|apply List.Forall_app; split; [|done]|done].
  - rewrite (map_app (msg_wire LocalChunkSize)), concat_app, map_map. done.
  - apply List.Forall_map. eapply List.Forall_impl; [|exact Hcs]. intros cmd. apply command_msg_ok.
Qed.

(** The first two commands of a client. *)
Lemma deliver_connect conn app url push msgs :
  accepts conn → command_ok ver (Connect app url push) →
  ∃ b, MessagePacker.ready b ∧
    deliver_all (doMsg ver conn)
      (command_msg ver (Connect app url push) :: command_msg ver CreateStream :: msgs) (NewServerSession, []) =
    deliver_all (doMsg ver conn) msgs
      (set_packer (set_names NewServerSession [] url [] app [] []) b,
       connect_events ver app url push tidClientConnect ++
       [EvWrite (command_wire ver (CreateStreamResult tidClientCreateStream))]).
Proof.
  intros Hconn Hc.
  assert (Hr1 : command_ok ver (ConnectResult 1 0)) by (destruct Hc as (? & ? & _); by repeat split).
  assert (Hr2 : command_ok ver (CreateStreamResult 2)) by (destruct Hc as (? & ? & _); by repeat split).
  destruct (doConnect_spec ver conn Hconn tidClientConnect app url push NewServerSession [] Hc Hr1 ready_new)
    as (b1 & R1 & E1).
  set (s1 := set_packer (set_names NewServerSession [] url [] app [] []) b1).
  assert (M1 : doMsg ver conn (command_msg ver (Connect app url push)) (NewServerSession, []) =
    ((s1, connect_events ver app url push tidClientConnect), Ret tt)).
  { rewrite (doMsg_command ver conn (Connect app url push) (str "connect") tidClientConnect
      [IObj (connect_pairs ver app url push)]) by (by vm_compute). exact E1. }
  destruct (doCreateStream_spec ver conn Hconn tidClientCreateStream s1
    (connect_events ver app url push tidClientConnect) Hr2 R1) as (b2 & R2 & E2).
  exists b2. split; [done|]. cbn [deliver_all]. rewrite (eff_bind_Ret _ _ _ _ _ M1).
  assert (M2 : doMsg ver conn (command_msg ver CreateStream)
    (s1, connect_events ver app url push tidClientConnect) =
    ((set_packer s1 b2, connect_events ver app url push tidClientConnect ++
      [EvWrite (command_wire ver (CreateStreamResult tidClientCreateStream))]), Ret tt)).
  { rewrite (doMsg_command ver conn CreateStream (str "createStream") tidClientCreateStream
      [INull]) by (by vm_compute). exact E2. }
  by rewrite (eff_bind_Ret _ _ _ _ _ M2).
Qed.

Lemma deliver_publish conn app url name msgs :
  accepts conn → (∀ s, OnNewRtmpPubSession s = (None, true)) →
  command_ok ver (Connect app url true) → command_ok ver (Publish app name Msid1) → Forall is_media msgs →
  ∃ s, deliver_all (doMsg ver conn)
      (map (command_msg ver) [Connect app url true; CreateStream; Publish app name Msid1] ++ msgs)
      (NewServerSession, []) =
    ((s, connect_events ver app url true tidClientConnect ++
         [EvWrite (command_wire ver (CreateStreamResult tidClientCreateStream));
          EvWrite (command_wire ver (OnStatusPublish Msid1));
          EvNewPub app (hd [] (split_query name))] ++ map EvAvMsg msgs), Ret tt) ∧
    baseType s = SessionBaseTypePub ∧ appName s = app ∧ streamName s = hd [] (split_query name) ∧
    ServerSession.url s = url ++ str "/" ++ name.
Proof.
  intros Hconn HO Hc Hp Hm. cbn [map Datatypes.app].
  destruct (deliver_connect conn app url true (command_msg ver (Publish app name Msid1) :: msgs) Hconn Hc)
    as (b & Hb & E).
  set (s2 := set_packer _ b) in E. set (tr2 := connect_events _ _ _ _ _ ++ _) in E.
  destruct (doPublish_spec ver conn Hconn tidClientPublish app name Msid1 s2 tr2 Hp HO Hb) as (b3 & R3 & E3).
  set (s3 := set_packer _ b3) in E3. exists s3. split; [|done].
  etransitivity; [exact E|]. cbn [deliver_all].
  assert (M : doMsg ver conn (command_msg ver (Publish app name Msid1)) (s2, tr2) =
    doPublish conn tidClientPublish (items_bytes [INull; IStr name; IStr (str "live")]) (s2, tr2)).
  { rewrite (doMsg_command ver conn (Publish app name Msid1) (str "publish") tidClientPublish
      [INull; IStr name; IStr (str "live")]) by (by vm_compute). done. }
  rewrite E3 in M. rewrite (eff_bind_Ret _ _ _ _ _ M).
  rewrite deliver_all_media by done. unfold tr2. by rewrite <- !app_assoc.
Qed.

Lemma deliver_play conn app url name :
  accepts conn → (∀ s, OnNewRtmpSubSession s = None) →
  command_ok ver (Connect app url false) → command_ok ver (Play name Msid1) →
  ∃ s, deliver_all (doMsg ver conn)
      (map (command_msg ver) [Connect app url false; CreateStream; Play name Msid1]) (NewServerSession, []) =
    ((s, connect_events ver app url false tidClientConnect ++
         [EvWrite (command_wire ver (CreateStreamResult tidClientCreateStream));
          EvWrite (control_wire RtmpTypeIdUserControl (be_bytes 2 RtmpUserControlRecorded ++ be_bytes 4 Msid1));
          EvWrite (control_wire RtmpTypeIdUserControl (be_bytes 2 RtmpUserControlStreamBegin ++ be_bytes 4 Msid1));
          EvWrite (command_wire ver (OnStatusPlay Msid1));
          EvNewSub app (hd [] (split_query name))]), Ret tt) ∧
    baseType s = SessionBaseTypeSub ∧ appName s = app ∧ streamName s = hd [] (split_query name) ∧
    avObserver s = false.
Proof.
  intros Hconn HO Hc Hp. cbn [map].
  destruct (deliver_connect conn app url false [command_msg ver (Play name Msid1)] Hconn Hc)
    as (b & Hb & E).
  set (s2 := set_packer _ b) in E. set (tr2 := connect_events _ _ _ _ _ ++ _) in E.
  destruct (doPlay_spec ver conn Hconn tidClientPlay name Msid1 s2 tr2 Hp HO Hb) as (b3 & R3 & E3).
  set (s3 := set_packer _ b3) in E3. exists s3. split; [|done].
  etransitivity; [exact E|]. cbn [deliver_all].
  assert (M : doMsg ver conn (command_msg ver (Play name Msid1)) (s2, tr2) =
    doPlay conn tidClientPlay (items_bytes [INull; IStr name]) (s2, tr2)).
  { rewrite (doMsg_command ver conn (Play name Msid1) (str "play") tidClientPlay
      [INull; IStr name]) by (by vm_compute). done. }
  rewrite E3 in M. rewrite (eff_bind_Ret _ _ _ _ _ M). cbn [mret eff_ret].
  unfold tr2. by rewrite <- !app_assoc.
Qed.
End EndToEnd.

(** ** Properties *)

(** C8: whatever bytes a client sends, in the trace of a fresh session every
    media message given to an observer comes after a publisher was announced,
    and a session that is a publisher or a subscriber was announced as one. *)
Theorem server_media_after_publish {B : Bele} {BS : BeleStream} {NB : NazaBuffer} {SK : MsgSkip}
    {O : Observer} ver conn fuel input s tr res :
  runReadLoop ver conn fuel input (NewServerSession, []) = ((s, tr), res) →
  (∀ i m, tr !! i = Some (EvAvMsg m) →
     ∃ j app name, (j < i)%nat ∧ tr !! j = Some (EvNewPub app name)) ∧
  (baseType s = SessionBaseTypePub → ∃ app name, EvNewPub app name ∈ tr) ∧
  (baseType s = SessionBaseTypeSub → ∃ app name, EvNewSub app name ∈ tr).
Proof.
  intros E.
  assert (H : role_ok (runReadLoop ver conn fuel input (NewServerSession, [])).1).
  { apply (RunLoop_keeps role_ok (doMsg ver conn)); [apply doMsg_keeps|]. by split. }
  rewrite E in H. destruct H as [_ H2 H3 H4]. by split; [|split].
Qed.

(** C1: a publishing client and a server: the client announces its chunk size,
    connects, creates a stream and publishes, then sends media.  The session
    answers each command in the order the protocol asks for, announces the
    publisher under the name before the query, and hands every media message
    to the observer, in order and unchanged; the loop ends when the bytes do.
    The connections take all bytes and the observer accepts the publisher; the
    application, the URL and the name have at most 256 bytes, and the media messages
    are those of [rtmp_chunk_roundtrip]: not empty, with headers that fit the wire and
    no timestamp 0xFFFFFF. *)
Theorem server_publish_dialogue {B : Bele} (HB : BeleLaws B) {BS : BeleStream} (HBS : BeleStreamLaws BS)
    {NB : NazaBuffer} (HNB : NazaBufferLaws NB) {SK : MsgSkip} (HSK : MsgSkipLaws SK) {O : Observer}
    ver client conn app url name msgs :
  accepts client → accepts conn → (∀ s, OnNewRtmpPubSession s = (None, true)) →
  command_ok ver (Connect app url true) → command_ok ver (Publish app name Msid1) →
  Forall msg_ok msgs → Forall is_media msgs →
  ∃ bytes s turns,
    client_sends ver client [Connect app url true; CreateStream; Publish app name Msid1] = Ret bytes ∧
    (∀ fuel, runReadLoop ver conn (turns + Datatypes.S fuel)
        (bytes ++ concat (map (msg_wire LocalChunkSize) msgs)) (NewServerSession, []) =
      ((s, connect_events ver app url true tidClientConnect ++
           [EvWrite (command_wire ver (CreateStreamResult tidClientCreateStream));
            EvWrite (command_wire ver (OnStatusPublish Msid1));
            EvNewPub app (hd [] (split_query name))] ++ map EvAvMsg msgs), Fail EOF)) ∧
    baseType s = SessionBaseTypePub ∧ appName s = app ∧ streamName s = hd [] (split_query name) ∧
    ServerSession.url s = url ++ str "/" ++ name.
Proof.
  intros Hcl Hconn HO Hc Hp Hms Hmd.
  destruct (deliver_publish ver conn app url name msgs Hconn HO Hc Hp Hmd) as (s & E & Hs).
  set (cmds := [Connect app url true; CreateStream; Publish app name Msid1]) in *.
  assert (Hcs : Forall (command_ok ver) cmds)
    by (destruct (Hc) as (? & ? & _); repeat constructor; try done; apply Hc || apply Hp).
  exists (chunk_size_wire ++ concat (map (command_wire ver) cmds)), s. eexists.
  split; [by apply client_sends_spec|]. split; [|done].
  intros fuel. rewrite <- app_assoc.
  rewrite (client_messages ver conn cmds msgs), (eff_bind_Ret _ _ _ _ _ E) by done. done.
Qed.

(** A client that plays: the session answers with the stream's events and
    announces the subscriber under the name before the query. *)
Theorem server_play_dialogue {B : Bele} (HB : BeleLaws B) {BS : BeleStream} (HBS : BeleStreamLaws BS)
    {NB : NazaBuffer} (HNB : NazaBufferLaws NB) {SK : MsgSkip} (HSK : MsgSkipLaws SK) {O : Observer}
    ver client conn app url name :
  accepts client → accepts conn → (∀ s, OnNewRtmpSubSession s = None) →
  command_ok ver (Connect app url false) → command_ok ver (Play name Msid1) →
  ∃ bytes s turns,
    client_sends ver client [Connect app url false; CreateStream; Play name Msid1] = Ret bytes ∧
    (∀ fuel, runReadLoop ver conn (turns + Datatypes.S fuel) bytes (NewServerSession, []) =
      ((s, connect_events ver app url false tidClientConnect ++
           [EvWrite (command_wire ver (CreateStreamResult tidClientCreateStream));
            EvWrite (control_wire RtmpTypeIdUserControl (be_bytes 2 RtmpUserControlRecorded ++ be_bytes 4 Msid1));
            EvWrite (control_wire RtmpTypeIdUserControl (be_bytes 2 RtmpUserControlStreamBegin ++ be_bytes 4 Msid1));
            EvWrite (command_wire ver (OnStatusPlay Msid1));
            EvNewSub app (hd [] (split_query name))]), Fail EOF)) ∧
    baseType s = SessionBaseTypeSub ∧ appName s = app ∧ streamName s = hd [] (split_query name) ∧
    avObserver s = false.
Proof.
  intros Hcl Hconn HO Hc Hp.
  destruct (deliver_play ver conn app url name Hconn HO Hc Hp) as (s & E & Hs).
  set (cmds := [Connect app url false; CreateStream; Play name Msid1]) in *.
  assert (Hcs : Forall (command_ok ver) cmds)
    by (destruct (Hc) as (? & ? & _); repeat constructor; try done; apply Hc || apply Hp).
  exists (chunk_size_wire ++ concat (map (command_wire ver) cmds)), s. eexists.
  split; [by apply client_sends_spec|]. split; [|done].
  intros fuel. pose proof (client_messages ver conn cmds [] fuel Hcs ltac:(constructor)) as Em.
  cbn [concat] in Em. change (map (msg_wire LocalChunkSize) []) with (@nil (list Z)) in Em.
  cbn [concat] in Em. rewrite !app_nil_r in Em. rewrite Em, (eff_bind_Ret _ _ _ _ _ E). done.
Qed.

(** Audio or video as the first message of a session, before any publish,
    makes the session call an observer it does not have: the loop panics,
    whatever follows. *)
Theorem server_media_before_publish_panics {B : Bele} (HB : BeleLaws B) {BS : BeleStream}
    {NB : NazaBuffer} (HNB : NazaBufferLaws NB) {SK : MsgSkip} {O : Observer} ver conn m rest fuel :
  msg_ok m → is_media m →
  (runReadLoop ver conn (msg_turns defaultChunkSize m + fuel) (msg_wire defaultChunkSize m ++ rest)
     (NewServerSession, [])).2 = Panic.
Proof.
  intros Hm Hmd. unfold runReadLoop.
  destruct (RunLoop_msgs (doMsg ver conn) defaultChunkSize [m] NewChunkComposer rest fuel (NewServerSession, []))
    as (c' & _ & _ & E); [done|by constructor|done|apply quiet_new|].
  cbn [map concat sum_list sum_list_with] in E. rewrite Nat.add_0_r, app_nil_r in E.
  etransitivity; [apply (f_equal snd E)|].
  assert (Ep : doMsg ver conn m (NewServerSession, []) = ((NewServerSession, []), Panic)).
  { unfold doMsg. destruct Hmd as [-> | ->]; reflexivity. }
  cbn [deliver_all]. unfold mbind, eff_bind. by rewrite Ep.
Qed.

(** ** Witnesses *)

Definition demo_observer : Observer :=
  {| OnNewRtmpPubSession := λ _, (None, true); OnNewRtmpSubSession := λ _, None; ReadBytesSum := λ _, 0 |}.

Definition demo_video : RtmpMsg := mkRtmpMsg (mkRtmpHeader 6 3 RtmpTypeIdVideo 1 40) [23; 1; 0].

Lemma demo_video_ok : msg_ok demo_video ∧ is_media demo_video.
Proof. split; [|by right]. unfold msg_ok, header_ok, csid_ok, ts_ok, ordinary. cbn. repeat split; (lia || done). Qed.

Definition demo_input : list Z :=
  match @client_sends bele_impl bele_stream_impl demo_versions demo_conn
          [Connect (str "live") (str "rtmp://h/live") true; CreateStream; Publish (str "live") (str "a") Msid1] with
  | Ret bytes => bytes ++ msg_wire LocalChunkSize demo_video
  | _ => []
  end.
Definition demo_session_run : (ServerSession * list Event) * outcome unit :=
  @runReadLoop bele_impl bele_stream_impl msg_skip_impl demo_observer demo_versions demo_conn buffer_impl 10
    demo_input (NewServerSession, []).
Definition demo_session : ServerSession := demo_session_run.1.1.
Definition demo_trace : list Event := demo_session_run.1.2.

Lemma server_media_after_publish_witness :
  demo_trace !! 8%nat = Some (EvAvMsg demo_video) ∧
  ∃ j app name, (j < 8)%nat ∧ demo_trace !! j = Some (EvNewPub app name).
Proof.
  assert (H : demo_trace !! 8%nat = Some (EvAvMsg demo_video)) by (vm_compute; reflexivity).
  split; [exact H|].
  apply (proj1 (@server_media_after_publish bele_impl bele_stream_impl buffer_impl msg_skip_impl demo_observer
    demo_versions demo_conn 10 demo_input demo_session demo_trace (Fail EOF)
    ltac:(vm_compute; reflexivity)) 8%nat demo_video H).
Defined.

Lemma server_publish_dialogue_witness :
  ∃ bytes s turns,
    @client_sends bele_impl bele_stream_impl demo_versions demo_conn
      [Connect (str "live") (str "rtmp://h/live") true; CreateStream; Publish (str "live") (str "a?k=1") Msid1] =
      Ret bytes ∧
    (∀ fuel, @runReadLoop bele_impl bele_stream_impl msg_skip_impl demo_observer demo_versions demo_conn
        buffer_impl (turns + Datatypes.S fuel)
        (bytes ++ concat (map (msg_wire LocalChunkSize) [demo_video])) (NewServerSession, []) =
      ((s, connect_events demo_versions (str "live") (str "rtmp://h/live") true tidClientConnect ++
           [EvWrite (command_wire demo_versions (CreateStreamResult tidClientCreateStream));
            EvWrite (command_wire demo_versions (OnStatusPublish Msid1));
            EvNewPub (str "live") (str "a")] ++ [EvAvMsg demo_video]), Fail EOF)) ∧
    baseType s = SessionBaseTypePub ∧ appName s = str "live" ∧ streamName s = str "a" ∧
    ServerSession.url s = str "rtmp://h/live" ++ str "/" ++ str "a?k=1".
Proof.
  apply (@server_publish_dialogue bele_impl bele_impl_laws bele_stream_impl bele_stream_impl_laws buffer_impl
    buffer_impl_laws msg_skip_impl msg_skip_impl_laws demo_observer demo_versions demo_conn demo_conn
    (str "live") (str "rtmp://h/live") (str "a?k=1") [demo_video]); try (intros ?; reflexivity).
  - repeat split; vm_compute; congruence.
  - repeat split; vm_compute; congruence.
  - repeat constructor; apply demo_video_ok.
  - repeat constructor; apply demo_video_ok.
Defined.

Lemma server_play_dialogue_witness :
  ∃ bytes s turns,
    @client_sends bele_impl bele_stream_impl demo_versions demo_conn
      [Connect (str "live") (str "rtmp://h/live") false; CreateStream; Play (str "a?k=1") Msid1] =
      Ret bytes ∧
    (∀ fuel, @runReadLoop bele_impl bele_stream_impl msg_skip_impl demo_observer demo_versions demo_conn
        buffer_impl (turns + Datatypes.S fuel) bytes (NewServerSession, []) =
      ((s, connect_events demo_versions (str "live") (str "rtmp://h/live") false tidClientConnect ++
           [EvWrite (command_wire demo_versions (CreateStreamResult tidClientCreateStream));
            EvWrite (control_wire RtmpTypeIdUserControl (be_bytes 2 RtmpUserControlRecorded ++ be_bytes 4 Msid1));
            EvWrite (control_wire RtmpTypeIdUserControl (be_bytes 2 RtmpUserControlStreamBegin ++ be_bytes 4 Msid1));
            EvWrite (command_wire demo_versions (OnStatusPlay Msid1));
            EvNewSub (str "live") (str "a")]), Fail EOF)) ∧
    baseType s = SessionBaseTypeSub ∧ appName s = str "live" ∧ streamName s = str "a" ∧ avObserver s = false.
Proof.
  apply (@server_play_dialogue bele_impl bele_impl_laws bele_stream_impl bele_stream_impl_laws buffer_impl
    buffer_impl_laws msg_skip_impl msg_skip_impl_laws demo_observer demo_versions demo_conn demo_conn
    (str "live") (str "rtmp://h/live") (str "a?k=1")); try (intros ?; reflexivity).
  - repeat split; vm_compute; congruence.
  - repeat split; vm_compute; congruence.
Defined.

Lemma server_media_before_publish_panics_witness :
  (@runReadLoop bele_impl bele_stream_impl msg_skip_impl demo_observer demo_versions demo_conn buffer_impl
     (msg_turns defaultChunkSize demo_video + 0) (msg_wire defaultChunkSize demo_video ++ [1; 2])
     (NewServerSession, [])).2 = Panic.
Proof.
  apply (@server_media_before_publish_panics bele_impl bele_impl_laws bele_stream_impl buffer_impl
    buffer_impl_laws msg_skip_impl demo_observer demo_versions demo_conn demo_video [1; 2] 0); apply demo_video_ok.
Defined.
