(* ===== verification/Bits.v ===== *)
(** * Bit strings and naza's bit reader and writer

    Bit strings, most significant bit first, and the interface to the package
    nazabits of the naza library, which the MPEG-TS, AAC and parameter-set code
    of lal reads and writes bit fields with. *)

From S2P Require Import Prelude.

(** ** Bit strings *)

(** The low [n] bits of [v], and the number a bit string stands for. *)
Fixpoint num_bits (n : nat) (v : Z) : list bool :=
  match n with
  | O => []
  | S n => Z.testbit v (Z.of_nat n) :: num_bits n v
  end.

Definition bits_val (l : list bool) : Z := foldl (λ a b, a * 2 + Z.b2z b) 0 l.

Definition byte_bits (b : list Z) : list bool := mjoin (num_bits 8 <$> b).

(** The bytes of a bit string whose length is a multiple of eight. *)
Fixpoint pack_bits (n : nat) (l : list bool) : list Z :=
  match n with
  | O => []
  | S n => bits_val (take 8 l) :: pack_bits n (drop 8 l)
  end.

Lemma num_bits_length n v : length (num_bits n v) = n.
Proof. induction n; simpl; auto. Qed.

Lemma bits_val_app a b : bits_val (a ++ b) = bits_val a * 2 ^ len b + bits_val b.
Proof.
  assert (H : ∀ l x, foldl (λ a b, a * 2 + Z.b2z b) x l = x * 2 ^ len l + bits_val l).
  { unfold bits_val. induction l as [|y l IH]; intros x; simpl foldl.
    - change (len (@nil bool)) with 0. rewrite Z.pow_0_r. lia.
    - rewrite IH, (IH (0 * 2 + _)). cbn [length]. rewrite Nat2Z.inj_succ, Z.pow_succ_r by lia. ring. }
  unfold bits_val at 1. rewrite foldl_app. apply H.
Qed.

Lemma bits_val_cons x b : bits_val (x :: b) = Z.b2z x * 2 ^ len b + bits_val b.
Proof. change (x :: b) with ([x] ++ b). by rewrite bits_val_app. Qed.

Lemma bits_val_range l : 0 ≤ bits_val l < 2 ^ len l.
Proof.
  induction l as [|x l IH]; [by cbv|]. rewrite bits_val_cons. cbn [length].
  rewrite Nat2Z.inj_succ, Z.pow_succ_r by lia. destruct x; cbn [Z.b2z]; lia.
Qed.

Lemma mod_pow2_succ v n : 0 ≤ n →
  v mod 2 ^ Z.succ n = Z.b2z (Z.testbit v n) * 2 ^ n + v mod 2 ^ n.
Proof.
  intros Hn. rewrite Z.pow_succ_r, (Z.mul_comm 2), Z.rem_mul_r by lia.
  rewrite Z.testbit_spec' by done. ring.
Qed.

Lemma bits_val_num n v : bits_val (num_bits n v) = v mod 2 ^ Z.of_nat n.
Proof.
  induction n as [|n IH]; [simpl; by rewrite Z.mod_1_r|].
  cbn [num_bits]. rewrite bits_val_cons, num_bits_length, IH, Nat2Z.inj_succ.
  by rewrite mod_pow2_succ by lia.
Qed.

Lemma bits_val_num_small n v : 0 ≤ v < 2 ^ Z.of_nat n → bits_val (num_bits n v) = v.
Proof. intros. rewrite bits_val_num. by apply Z.mod_small. Qed.

Lemma num_bits_mod n v : num_bits n (v mod 2 ^ Z.of_nat n) = num_bits n v.
Proof.
  assert (H : ∀ k, (k ≤ n)%nat → num_bits k (v mod 2 ^ Z.of_nat n) = num_bits k v).
  { induction k as [|k IH]; intros Hk; [done|]. cbn [num_bits].
    rewrite IH by lia. f_equal. apply Z.mod_pow2_bits_low. lia. }
  by apply H.
Qed.

(** Bits of a number with a high and a low part. *)
Lemma num_bits_split n m v :
  num_bits (n + m) v = num_bits n (v / 2 ^ Z.of_nat m) ++ num_bits m v.
Proof.
  induction n as [|n IH]; [done|]. cbn [Nat.add num_bits app]. rewrite IH. f_equal.
  rewrite <- Z.shiftr_div_pow2, Z.shiftr_spec by lia. f_equal. lia.
Qed.

Lemma num_bits_add n m a b :
  0 ≤ b < 2 ^ Z.of_nat m → num_bits (n + m) (a * 2 ^ Z.of_nat m + b) = num_bits n a ++ num_bits m b.
Proof.
  intros Hb. rewrite num_bits_split. f_equal.
  - by rewrite Z.div_add_l, Z.div_small, Z.add_0_r by lia.
  - rewrite <- (num_bits_mod m (_ + b)), Z.add_comm, Z.mod_add, num_bits_mod by lia. done.
Qed.

Lemma byte_bits_app a b : byte_bits (a ++ b) = byte_bits a ++ byte_bits b.
Proof. unfold byte_bits. by rewrite fmap_app, join_app. Qed.
Lemma byte_bits_cons x b : byte_bits (x :: b) = num_bits 8 x ++ byte_bits b.
Proof. done. Qed.
Lemma byte_bits_length b : length (byte_bits b) = (8 * length b)%nat.
Proof. induction b; [done|]. rewrite byte_bits_cons, length_app, num_bits_length, IHb. cbn [length]. lia. Qed.

Lemma pack_bits_length n l : length (pack_bits n l) = n.
Proof. revert l. induction n; intros l; simpl; auto. Qed.

Lemma pack_byte_bits b : is_bytes b → pack_bits (length b) (byte_bits b) = b.
Proof.
  induction 1 as [|x b Hx Hb IH]; [done|]. rewrite byte_bits_cons. cbn [length pack_bits].
  rewrite take_app_length', drop_app_length', IH by (by rewrite num_bits_length). f_equal.
  by apply bits_val_num_small.
Qed.

Lemma num_bits_val l : num_bits (length l) (bits_val l) = l.
Proof.
  induction l as [|x l IH]; [done|]. rewrite bits_val_cons.
  rewrite (num_bits_add 1 (length l)), IH by apply bits_val_range. by destruct x.
Qed.

Lemma byte_bits_pack n l : length l = (8 * n)%nat → byte_bits (pack_bits n l) = l.
Proof.
  revert l. induction n as [|n IH]; intros l Hl; [by destruct l|]. cbn [pack_bits].
  rewrite byte_bits_cons, IH by (rewrite length_drop; lia).
  assert (E : length (take 8 l) = 8%nat) by (rewrite length_take; lia).
  rewrite <- E at 1. rewrite num_bits_val. apply take_drop.
Qed.

Lemma pack_bits_app_bytes b n l :
  is_bytes b → pack_bits (length b + n) (byte_bits b ++ l) = b ++ pack_bits n l.
Proof.
  induction 1 as [|x b Hx Hb IH]; [done|]. rewrite byte_bits_cons, <- app_assoc.
  cbn [length Nat.add pack_bits app]. rewrite take_app_length', drop_app_length', IH by (by rewrite num_bits_length).
  f_equal. by apply bits_val_num_small.
Qed.

Lemma is_bytes_pack_bits n l : (8 * n ≤ length l)%nat → is_bytes (pack_bits n l).
Proof.
  revert l. induction n as [|n IH]; intros l Hl; [constructor|]. cbn [pack_bits]. constructor.
  - pose proof (bits_val_range (take 8 l)) as H. rewrite length_take_le in H by lia. done.
  - apply IH. rewrite length_drop. lia.
Qed.

(** Big-endian fields are bytes. *)
Lemma byte_bits_be n v : byte_bits (be_bytes n v) = num_bits (8 * n) v.
Proof.
  induction n as [|n IH]; [done|]. rewrite be_bytes_S, byte_bits_cons, IH.
  replace (8 * S n)%nat with (8 + 8 * n)%nat by lia. rewrite num_bits_split.
  f_equal. change 256 with (2 ^ Z.of_nat 8) at 2. rewrite num_bits_mod. f_equal. f_equal.
  rewrite Nat2Z.inj_mul, Z.pow_mul_r by lia. done.
Qed.

Lemma byte_bits_val b : is_bytes b → byte_bits b = num_bits (8 * length b) (be_val b).
Proof. intros Hb. by rewrite <- byte_bits_be, be_bytes_be_val. Qed.

(** ** The bit reader and writer

    A reader is a cursor on the bits of a slice; a read of [n] bits past the
    end is an error.  A writer fills a slice from its first bit; [bwSlice] is
    the slice as the caller sees it. *)

Class NazaBits := {
  BitReader : Type;
  NewBitReader : list Z → BitReader;
  ReadBits : Z → BitReader → Z * option goerr * BitReader;
  ReadBytes : Z → BitReader → list Z * option goerr * BitReader;
  ReadGolomb : BitReader → Z * option goerr * BitReader;
  ReadUeGolomb : BitReader → Z * option goerr * BitReader;
  ReadSeGolomb : BitReader → Z * option goerr * BitReader;
  BitErr : BitReader → option goerr;
  SkipBits : Z → BitReader → option goerr * BitReader;
  BitWriter : Type;
  NewBitWriter : list Z → BitWriter;
  WriteBits : Z → Z → BitWriter → BitWriter;
  bwSlice : BitWriter → list Z;
}.

(** Exponential-Golomb codes: as many zeros as bits after the first one. *)
Definition golomb_bits (v : Z) : list bool :=
  let n := Z.to_nat (Z.log2 (v + 1)) in replicate n false ++ num_bits (S n) (v + 1).

(** Signed codes: 0, 1, -1, 2, -2, ... *)
Definition se_code (v : Z) : Z := if 0 <? v then 2 * v - 1 else -2 * v.
Definition se_value (k : Z) : Z := if Z.odd k then (k + 1) / 2 else - (k / 2).

Class NazaBitsLaws (NB : NazaBits) := {
  br_bits : BitReader → list bool;
  br_new b : br_bits (NewBitReader b) = byte_bits b;
  br_read n r : 0 ≤ n ≤ len (br_bits r) →
    (ReadBits n r).1 = (bits_val (take (Z.to_nat n) (br_bits r)), None) ∧
    br_bits (ReadBits n r).2 = drop (Z.to_nat n) (br_bits r);
  br_read_short n r : len (br_bits r) < n → (ReadBits n r).1.2 ≠ None;
  br_bytes n r : 0 ≤ 8 * n ≤ len (br_bits r) →
    (ReadBytes n r).1 = (pack_bits (Z.to_nat n) (br_bits r), None) ∧
    br_bits (ReadBytes n r).2 = drop (Z.to_nat (8 * n)) (br_bits r);
  br_skip n r : 0 ≤ n ≤ len (br_bits r) →
    (SkipBits n r).1 = None ∧ br_bits (SkipBits n r).2 = drop (Z.to_nat n) (br_bits r);
  br_golomb v rest r : is_u32 (v + 1) → 0 ≤ v → br_bits r = golomb_bits v ++ rest →
    (ReadGolomb r).1 = (v, None) ∧ br_bits (ReadGolomb r).2 = rest;
  br_ue v rest r : is_u32 (v + 1) → 0 ≤ v → br_bits r = golomb_bits v ++ rest →
    (ReadUeGolomb r).1 = (v, None) ∧ br_bits (ReadUeGolomb r).2 = rest;
  br_se v rest r : is_u32 (se_code v + 1) → br_bits r = golomb_bits (se_code v) ++ rest →
    (ReadSeGolomb r).1 = (v, None) ∧ br_bits (ReadSeGolomb r).2 = rest;
  (* the first error sticks *)
  br_err_new b : BitErr (NewBitReader b) = None;
  br_err_read n r : (ReadBits n r).1.2 = None → BitErr (ReadBits n r).2 = BitErr r;
  br_err_bytes n r : (ReadBytes n r).1.2 = None → BitErr (ReadBytes n r).2 = BitErr r;
  br_err_golomb r : (ReadGolomb r).1.2 = None → BitErr (ReadGolomb r).2 = BitErr r;
  br_err_ue r : (ReadUeGolomb r).1.2 = None → BitErr (ReadUeGolomb r).2 = BitErr r;
  br_err_se r : (ReadSeGolomb r).1.2 = None → BitErr (ReadSeGolomb r).2 = BitErr r;
  bw_bits : BitWriter → Z → list bool → Prop;
  bw_new m : 0 ≤ m → bw_bits (NewBitWriter (go_make m)) m [];
  bw_write n v w m bs : bw_bits w m bs → 0 ≤ n → len bs + n ≤ 8 * m →
    bw_bits (WriteBits n v w) m (bs ++ num_bits (Z.to_nat n) v);
  bw_slice w m bs : bw_bits w m bs →
    bwSlice w = pack_bits (Z.to_nat m) (bs ++ replicate (Z.to_nat (8 * m) - length bs) false);
}.

(** Reads and writes whose error the caller ignores. *)
Definition rbits {NB : NazaBits} (n : Z) (r : BitReader) : Z * BitReader :=
  ((ReadBits n r).1.1, (ReadBits n r).2).
Definition rskip {NB : NazaBits} (n : Z) (r : BitReader) : BitReader := (ReadBits n r).2.
Definition bskip {NB : NazaBits} (n : Z) (r : BitReader) : BitReader := (SkipBits n r).2.

Section ReadFacts.
Context {NB : NazaBits} {HNB : NazaBitsLaws NB}.

(** Reading a field whose bits are next. *)
Lemma rbits_field k n v rest r :
  k = Z.of_nat n → 0 ≤ v < 2 ^ Z.of_nat n → br_bits r = num_bits n v ++ rest →
  ∃ r', rbits k r = (v, r') ∧ br_bits r' = rest.
Proof.
  intros -> Hv Hr. destruct (br_read (Z.of_nat n) r) as [E1 E2].
  { rewrite Hr, length_app, num_bits_length. lia. }
  rewrite Nat2Z.id, Hr, take_app_length' in E1 by (by rewrite num_bits_length).
  rewrite Nat2Z.id, Hr, drop_app_length' in E2 by (by rewrite num_bits_length).
  rewrite bits_val_num_small in E1 by done.
  exists (ReadBits (Z.of_nat n) r).2. unfold rbits. by rewrite E1.
Qed.

(** A field read at its width, whatever number it was written from. *)
Lemma rbits_field_mod k n v rest r :
  k = Z.of_nat n → br_bits r = num_bits n v ++ rest →
  ∃ r', rbits k r = (v mod 2 ^ Z.of_nat n, r') ∧ br_bits r' = rest.
Proof.
  intros Hk Hr. rewrite <- num_bits_mod in Hr. apply (rbits_field k n); [done| |done].
  apply Z.mod_pos_bound. lia.
Qed.

Lemma rskip_field k n v rest r :
  k = Z.of_nat n → br_bits r = num_bits n v ++ rest → br_bits (rskip k r) = rest.
Proof.
  intros -> Hr. destruct (br_read (Z.of_nat n) r) as [_ E2].
  { rewrite Hr, length_app, num_bits_length. lia. }
  unfold rskip. by rewrite E2, Nat2Z.id, Hr, drop_app_length' by (by rewrite num_bits_length).
Qed.

Lemma bskip_bits k a rest r : k = len a → br_bits r = a ++ rest → br_bits (bskip k r) = rest.
Proof.
  intros -> Hr. destruct (br_skip (len a) r) as [_ E]; [rewrite Hr, length_app; lia|].
  unfold bskip. by rewrite E, Nat2Z.id, Hr, drop_app_length.
Qed.
End ReadFacts.

(** Runs the next read of the goal; [H] says what bits are left. *)
Ltac read_field H :=
  lazymatch type of H with
  | br_bits ?r = num_bits ?n ?v ++ ?rest =>
      lazymatch goal with
      | |- context [rbits ?k r] =>
          let r' := fresh "br" in let E := fresh "E" in let H' := fresh "H" in
          destruct (rbits_field k n v rest r eq_refl) as (r' & E & H');
          [change (2 ^ Z.of_nat n) with (2 ^ k); try lia | exact H |
           rewrite E; cbv beta iota; clear E H; rename H' into H]
      end
  end.

(** Skips the field that is next. *)
Ltac skip_field H :=
  lazymatch type of H with
  | br_bits ?r = num_bits ?n ?v ++ ?rest =>
      lazymatch goal with
      | |- context [rskip ?k r] =>
          let r' := fresh "br" in let E := fresh "E" in
          apply (rskip_field k n v rest r eq_refl) in H;
          set (r' := rskip k r) in *; clearbody r'
      end
  end.

(** As [read_field], for a number that may be wider than its field. *)
Ltac read_field_mod H :=
  lazymatch type of H with
  | br_bits ?r = num_bits ?n ?v ++ ?rest =>
      lazymatch goal with
      | |- context [rbits ?k r] =>
          let r' := fresh "br" in let E := fresh "E" in let H' := fresh "H" in
          destruct (rbits_field_mod k n v rest r eq_refl H) as (r' & E & H');
          change (2 ^ Z.of_nat n) with (2 ^ k) in E;
          rewrite E; cbv beta iota; clear E H; rename H' into H
      end
  end.

(** *** What writers emit *)

Section Emits.
Context {NB : NazaBits} {HNB : NazaBitsLaws NB}.

Definition emits (f : BitWriter → BitWriter) (bs : list bool) : Prop :=
  ∀ w m b, bw_bits w m b → len b + len bs ≤ 8 * m → bw_bits (f w) m (b ++ bs).

Lemma emits_id : emits (λ w, w) [].
Proof. intros w m b Hw _. by rewrite app_nil_r. Qed.

Lemma emits_write n v f a :
  emits f a → 0 ≤ n → emits (λ w, WriteBits n v (f w)) (a ++ num_bits (Z.to_nat n) v).
Proof.
  intros Hf Hn w m b Hw Hl. rewrite length_app, num_bits_length in Hl. rewrite app_assoc.
  apply bw_write; [apply Hf; [done|lia]|done|]. rewrite length_app. lia.
Qed.

Lemma emits_then f g a b : emits f a → emits g b → emits (λ w, g (f w)) (a ++ b).
Proof.
  intros Hf Hg w m c Hw Hl. rewrite length_app in Hl. rewrite app_assoc.
  apply Hg; [apply Hf; [done|lia]|]. rewrite length_app. lia.
Qed.

Lemma emits_foldl {A} (f : BitWriter → A → BitWriter) (bits : A → list bool) l :
  Forall (λ x, emits (λ w, f w x) (bits x)) l → emits (λ w, foldl f w l) (mjoin (bits <$> l)).
Proof.
  induction 1 as [|x l Hx _ IH]; [apply emits_id|].
  change (mjoin (bits <$> x :: l)) with (bits x ++ mjoin (bits <$> l)).
  by apply (emits_then (λ w, f w x) (λ w, foldl f w l)).
Qed.

Lemma emits_exact f a b : emits f a → a = b → emits f b.
Proof. by intros ? <-. Qed.
End Emits.

(** Runs the writes of a writer, last first. *)
Ltac emit :=
  repeat (eapply emits_write; [|lia]); try apply emits_id.

(** *** The concrete instance *)

Fixpoint golomb_zeros (l : list bool) : option (nat * list bool) :=
  match l with
  | [] => None
  | true :: _ => Some (O, l)
  | false :: l => '(n, r) ← golomb_zeros l; Some (S n, r)
  end.

(** The bits left and the first error. *)
Definition bits_reader : Type := list bool * option goerr.

Definition short_bits (r : bits_reader) : Z * option goerr * bits_reader :=
  (0, Some ErrShortBuffer, (r.1, match r.2 with None => Some ErrShortBuffer | e => e end)).

Definition golomb_read (val : Z → Z) (r : bits_reader) : Z * option goerr * bits_reader :=
  match golomb_zeros r.1 with
  | Some (n, l) =>
      if Nat.leb (S n) (length l) then (val (bits_val (take (S n) l) - 1), None, (drop (S n) l, r.2))
      else short_bits r
  | None => short_bits r
  end.

Definition bits_impl : NazaBits := {|
  BitReader := bits_reader;
  NewBitReader b := (byte_bits b, None);
  ReadBits n r :=
    if n <=? len r.1 then (bits_val (take (Z.to_nat n) r.1), None, (drop (Z.to_nat n) r.1, r.2))
    else short_bits r;
  ReadBytes n r :=
    if 8 * n <=? len r.1 then (pack_bits (Z.to_nat n) r.1, None, (drop (Z.to_nat (8 * n)) r.1, r.2))
    else ([], Some ErrShortBuffer, (short_bits r).2);
  ReadGolomb := golomb_read id;
  ReadUeGolomb := golomb_read id;
  ReadSeGolomb := golomb_read se_value;
  BitErr := snd;
  SkipBits n r :=
    if n <=? len r.1 then (None, (drop (Z.to_nat n) r.1, r.2)) else (Some ErrShortBuffer, (short_bits r).2);
  BitWriter := Z * list bool;
  NewBitWriter b := (len b, []);
  WriteBits n v w := (w.1, w.2 ++ num_bits (Z.to_nat n) v);
  bwSlice w := pack_bits (Z.to_nat w.1) (w.2 ++ replicate (Z.to_nat (8 * w.1) - length w.2) false);
|}.

Lemma golomb_zeros_spec n l : golomb_zeros (replicate n false ++ true :: l) = Some (n, true :: l).
Proof. induction n as [|n IH]; [done|]. simpl. by rewrite IH. Qed.

Lemma num_bits_log2 v : 0 < v →
  num_bits (S (Z.to_nat (Z.log2 v))) v = true :: num_bits (Z.to_nat (Z.log2 v)) v.
Proof.
  intros Hv. cbn [num_bits]. rewrite Z2Nat.id by apply Z.log2_nonneg. by rewrite Z.bit_log2.
Qed.

Lemma golomb_read_spec val v rest r : 0 ≤ v → r.1 = golomb_bits v ++ rest →
  golomb_read val r = (val v, None, (rest, r.2)).
Proof.
  intros H0 Hr. unfold golomb_read. rewrite Hr. unfold golomb_bits.
  rewrite num_bits_log2, <- app_assoc by lia.
  rewrite <- app_comm_cons, golomb_zeros_spec. rewrite app_comm_cons, <- num_bits_log2 by lia.
  set (n := Z.to_nat (Z.log2 (v + 1))).
  rewrite (proj2 (Nat.leb_le _ _)) by (rewrite length_app, num_bits_length; lia).
  rewrite take_app_length', drop_app_length' by (by rewrite num_bits_length).
  rewrite bits_val_num_small; [by replace (v + 1 - 1) with v by lia|]. unfold n.
  rewrite Nat2Z.inj_succ, Z2Nat.id by apply Z.log2_nonneg. pose proof (Z.log2_spec (v + 1) ltac:(lia)). lia.
Qed.

Lemma se_value_code v : se_value (se_code v) = v.
Proof.
  unfold se_value, se_code. destruct (Z.ltb_spec 0 v).
  - replace (2 * v - 1) with (1 + 2 * (v - 1)) by lia. rewrite Z.odd_add_mul_2. cbn.
    replace (1 + 2 * (v - 1) + 1) with (v * 2) by lia. by rewrite Z.div_mul.
  - rewrite (Z.odd_mul (-2)). cbn. replace (-2 * v) with (- v * 2) by lia. rewrite Z.div_mul; lia.
Qed.

Lemma golomb_read_err val r : (golomb_read val r).1.2 = None → (golomb_read val r).2.2 = r.2.
Proof. unfold golomb_read. destruct (golomb_zeros _) as [[n l]|]; [destruct (Nat.leb _ _)|]; done. Qed.

#[global] Instance bits_impl_laws : NazaBitsLaws bits_impl.
Proof.
  refine {| br_bits := λ r : @BitReader bits_impl, r.1;
            bw_bits := λ (w : @BitWriter bits_impl) m bs, w = (m, bs) |};
    cbn [ReadBits ReadBytes ReadGolomb ReadUeGolomb ReadSeGolomb BitErr SkipBits bits_impl NewBitReader
         NewBitWriter WriteBits bwSlice]; try done.
  - intros n r Hn. by rewrite (proj2 (Z.leb_le _ _)) by lia.
  - intros n r Hn. by rewrite (proj2 (Z.leb_gt _ _)) by lia.
  - intros n r Hn. by rewrite (proj2 (Z.leb_le _ _)) by lia.
  - intros n r Hn. by rewrite (proj2 (Z.leb_le _ _)) by lia.
  - intros v rest r _ H0 Hr. by rewrite (golomb_read_spec id v rest r).
  - intros v rest r _ H0 Hr. by rewrite (golomb_read_spec id v rest r).
  - intros v rest r Hv Hr. rewrite (golomb_read_spec se_value (se_code v) rest r), se_value_code; [done| |done].
    unfold se_code. destruct (0 <? v) eqn:E; [apply Z.ltb_lt in E|apply Z.ltb_ge in E]; lia.
  - intros n r. by destruct (n <=? _).
  - intros n r. by destruct (8 * n <=? _).
  - apply golomb_read_err.
  - apply golomb_read_err.
  - apply golomb_read_err.
  - intros m Hm. rewrite length_go_make. f_equal. lia.
  - intros n v w m bs -> Hn Hl. done.
  - intros w m bs ->. done.
Qed.
