(* ===== verification/TsPack.v ===== *)
(** * MPEG-TS frames (src/pkg/mpegts/pack.go, pes.go, ts_packet_header.go)

    [Frame.Pack] cuts one audio or video frame into transport packets of 188
    bytes: the packet header, the adaptation field of a key frame, the PES
    header and the payload.  [ParseTsPacketHeader] and [ParsePes] read the
    headers back; a reference demultiplexer takes the payloads out. *)

From S2P Require Import Prelude Naza Bits.

Definition syncByte : Z := 71.
Definition delay : Z := 63000.
Definition PidPmt : Z := 4097.
Definition PidVideo : Z := 256.
Definition PidAudio : Z := 257.
Definition StreamIdAudio : Z := 192.
Definition StreamIdVideo : Z := 224.

Record Frame := mkFrame {
  Pts : Z;
  Cts : Z;
  Dts : Z;
  Cc : Z;
  Pid : Z;
  Sid : Z;
  Key : bool;
  Raw : list Z;
}.

Definition set_cc (f : Frame) (cc : Z) : Frame :=
  mkFrame (Pts f) (Cts f) (Dts f) cc (Pid f) (Sid f) (Key f) (Raw f).

Definition packPcr (pcr : Z) (out : list Z) : outcome (list Z) :=
  out ← go_set out 0 (u8 (Z.shiftr pcr 25));
  out ← go_set out 1 (u8 (Z.shiftr pcr 17));
  out ← go_set out 2 (u8 (Z.shiftr pcr 9));
  out ← go_set out 3 (u8 (Z.shiftr pcr 1));
  out ← go_set out 4 (Z.lor (u8 (Z.shiftl pcr 7)) 126);
  go_set out 5 0.

Definition packPts (fb pts : Z) (out : list Z) : outcome (list Z) :=
  out ← go_set out 0 (Z.lor (Z.lor (u8 (Z.shiftl fb 4)) (Z.land (u8 (Z.shiftr pts 30)) 7)) 1);
  let val := Z.lor (u64 (Z.shiftl (Z.land (Z.shiftr pts 15) 32767) 1)) 1 in
  out ← go_set out 1 (u8 (Z.shiftr val 8));
  out ← go_set out 2 (u8 val);
  let val := Z.lor (u64 (Z.shiftl (Z.land pts 32767) 1)) 1 in
  out ← go_set out 3 (u8 (Z.shiftr val 8));
  go_set out 4 (u8 val).

(** ** One packet *)

Definition put_ts_header (first : bool) (pid cc : Z) (packet : list Z) : outcome (list Z) :=
  packet ← go_set packet 0 syncByte;
  packet ← go_set packet 1 0;
  packet ← (if first then go_set packet 1 64 else Ret packet);
  b1 ← go_index packet 1;
  packet ← go_set packet 1 (Z.lor b1 (u8 (Z.land (Z.shiftr pid 8) 31)));
  packet ← go_set packet 2 (u8 (Z.land pid 255));
  go_set packet 3 (Z.lor 16 (Z.land cc 15)).

Definition put_adaptation (dts : Z) (packet : list Z) : outcome (list Z) :=
  b3 ← go_index packet 3;
  packet ← go_set packet 3 (Z.lor b3 32);
  packet ← go_set packet 4 7;
  packet ← go_set packet 5 80;
  let pcr := if dts >? delay then u64 (dts - delay) else 0 in
  go_upd_from packet 6 (packPcr pcr).

(** The PES header from [wpos] on; the new writing position. *)
Definition put_pes_header (f : Frame) (rpos : Z) (packet : list Z) (wpos : Z) : outcome (list Z * Z) :=
  packet ← go_set packet wpos 0;
  packet ← go_set packet (wpos + 1) 0;
  packet ← go_set packet (wpos + 2) 1;
  packet ← go_set packet (wpos + 3) (Sid f);
  let wpos := wpos + 4 in
  let headerSize := if negb (Dts f =? Pts f) then 10 else 5 in
  let flags := if negb (Dts f =? Pts f) then 192 else 128 in
  let pesSize := rpos + headerSize + 3 in
  let pesSize := if pesSize >? 65535 then 0 else pesSize in
  packet ← go_set packet wpos (u8 (Z.shiftr pesSize 8));
  packet ← go_set packet (wpos + 1) (u8 (Z.land pesSize 255));
  packet ← go_set packet (wpos + 2) 128;
  packet ← go_set packet (wpos + 3) flags;
  packet ← go_set packet (wpos + 4) headerSize;
  let wpos := wpos + 5 in
  packet ← go_upd_from packet wpos (packPts (Z.shiftr flags 6) (u64 (Pts f + delay)));
  let wpos := wpos + 5 in
  if negb (Pts f =? Dts f) then
    packet ← go_upd_from packet wpos (packPts 1 (u64 (Dts f + delay)));
    Ret (packet, wpos + 5)
  else Ret (packet, wpos).

(** [for i := 0; i < n; i++ { packet[base+i] = 0xFF }] *)
Fixpoint fill_ff (n : nat) (packet : list Z) (base : Z) : outcome (list Z) :=
  match n with
  | O => Ret packet
  | S n => packet ← go_set packet base 255; fill_ff n packet (base + 1)
  end.

(** [copy(packet[dst:], packet[src:wpos])] *)
Definition move (packet : list Z) (dst src wpos : Z) : outcome (list Z) :=
  s ← go_slice packet src wpos; go_copy_at packet dst s.

(** The unused [stuffSize] bytes go to the adaptation field. *)
Definition put_stuffing (packet : list Z) (wpos stuffSize : Z) : outcome (list Z * Z) :=
  b3 ← go_index packet 3;
  b4 ← go_index packet 4;
  if negb (Z.land b3 32 =? 0) then
    let base := u8 (4 + b4) in
    packet ← (if wpos >? base then move packet (base + stuffSize) base wpos else Ret packet);
    let wpos := base + stuffSize in
    packet ← go_set packet 4 (u8 (b4 + u8 stuffSize));
    packet ← fill_ff (Z.to_nat stuffSize) packet base;
    Ret (packet, wpos)
  else
    packet ← go_set packet 3 (Z.lor b3 32);
    let base := 4 in
    packet ← (if wpos >? base then move packet (base + stuffSize) base wpos else Ret packet);
    let wpos := wpos + stuffSize in
    packet ← go_set packet 4 (u8 (stuffSize - 1));
    packet ← (if stuffSize >=? 2 then
                packet ← go_set packet 5 0;
                fill_ff (Z.to_nat (stuffSize - 2)) packet 6
              else Ret packet);
    Ret (packet, wpos).

(** The payload from [lpos] on; the packet and the new [lpos]. *)
Definition put_body (f : Frame) (lpos rpos : Z) (packet : list Z) (wpos : Z) : outcome (list Z * Z) :=
  let bodySize := 188 - wpos in
  let inSize := rpos - lpos in
  body ← go_slice (Raw f) lpos (lpos + inSize);
  if bodySize <=? inSize then
    packet ← go_copy_at packet wpos body;
    Ret (packet, lpos + bodySize)
  else
    '(packet, wpos) ← put_stuffing packet wpos (bodySize - inSize);
    packet ← go_copy_at packet wpos body;
    Ret (packet, rpos).

Definition put_packet (f : Frame) (lpos rpos : Z) (first : bool) (cc : Z) (packet : list Z)
    : outcome (list Z * Z) :=
  packet ← put_ts_header first (Pid f) cc packet;
  '(packet, wpos) ←
    (if first then
       '(packet, wpos) ←
         (if Key f then packet ← put_adaptation (Dts f) packet; Ret (packet, 12) else Ret (packet, 4));
       put_pes_header f rpos packet wpos
     else Ret (packet, 4));
  put_body f lpos rpos packet wpos.

(** ** The frame *)

(** [packet] is a window of [buf]. *)
Fixpoint pack_loop (fuel : nat) (f : Frame) (rpos lpos : Z) (first : bool) (cc pos : Z) (buf : list Z)
    : outcome (list Z * Z * Z) :=
  if lpos =? rpos then Ret (buf, pos, cc) else
  match fuel with
  | O => Fail OutOfFuel
  | S fuel =>
      let buf := if pos + 188 >? len buf then go_copy (go_make (pos + 188)) buf else buf in
      packet ← go_slice buf pos (pos + 188);
      let cc := u8 (cc + 1) in
      '(packet, lpos) ← put_packet f lpos rpos first cc packet;
      buf ← go_copy_at buf pos packet;
      pack_loop fuel f rpos lpos false cc (pos + 188) buf
  end.

(** Every turn takes a byte of the frame. *)
Definition pack_fuel (f : Frame) : nat := length (Raw f).

Definition Pack (f : Frame) : outcome (list Z * Frame) :=
  let bufLen := len (Raw f) * 2 in
  let bufLen := if bufLen <? 1024 then 1024 else bufLen in
  let buf := go_make bufLen in
  '(buf, pos, cc) ← pack_loop (pack_fuel f) f (len (Raw f)) 0 true (Cc f) 0 buf;
  out ← go_slice buf 0 pos;
  Ret (out, set_cc f cc).

(** ** Reading headers back *)

Record TsPacketHeader := mkTsHeader {
  Sync : Z;
  Err : Z;
  PayloadUnitStart : Z;
  Prio : Z;
  hPid : Z;
  Scra : Z;
  Adaptation : Z;
  hCc : Z;
}.

Record Pes := mkPes {
  pscp : Z;
  sid : Z;
  ppl : Z;
  pad1 : Z;
  ptsDtsFlag : Z;
  pad2 : Z;
  phdl : Z;
  pts : Z;
  dts : Z;
}.

Section Parse.
Context {BI : NazaBits}.

Definition ParseTsPacketHeader (b : list Z) : TsPacketHeader :=
  let br := NewBitReader b in
  let '(sync, br) := rbits 8 br in
  let '(err, br) := rbits 1 br in
  let '(start, br) := rbits 1 br in
  let '(prio, br) := rbits 1 br in
  let '(pid, br) := rbits 13 br in
  let '(scra, br) := rbits 2 br in
  let '(adaptation, br) := rbits 2 br in
  let '(cc, br) := rbits 4 br in
  mkTsHeader sync err start prio pid scra adaptation cc.

(** [ParseTsPacketAdaptation]: the length of the field. *)
Definition ParseTsPacketAdaptation (b : list Z) : Z := (rbits 8 (NewBitReader b)).1.

Definition readPts (b : list Z) : outcome (Z * Z) :=
  b0 ← go_index b 0;
  let fb := Z.shiftr b0 4 in
  let pts := Z.shiftl (Z.land (Z.shiftr b0 1) 7) 30 in
  b1 ← go_index b 1;
  b2 ← go_index b 2;
  let pts := Z.lor pts (Z.shiftl (Z.shiftr (Z.lor (Z.shiftl b1 8) b2) 1) 15) in
  b3 ← go_index b 3;
  b4 ← go_index b 4;
  Ret (fb, Z.lor pts (Z.shiftr (Z.lor (Z.shiftl b3 8) b4) 1)).

Definition ParsePes (b : list Z) : outcome (Pes * Z) :=
  let br := NewBitReader b in
  let '(pscp, br) := rbits 24 br in
  let '(sid, br) := rbits 8 br in
  let '(ppl, br) := rbits 16 br in
  let '(pad1, br) := rbits 8 br in
  let '(flag, br) := rbits 2 br in
  let '(pad2, br) := rbits 6 br in
  let '(phdl, br) := rbits 8 br in
  let _ := ReadBytes phdl br in
  let length := 9 + phdl in
  '(_, pts) ← (if negb (Z.land flag 2 =? 0) then s ← go_from b 9; readPts s else Ret (0, 0));
  dts ← (if negb (Z.land flag 1 =? 0) then s ← go_from b 14; '(_, d) ← readPts s; Ret d else Ret pts);
  Ret (mkPes pscp sid ppl pad1 flag pad2 phdl pts dts, length).
End Parse.

(** ** What a packet holds *)

Definition ts_header (first : bool) (pid afc cc : Z) : list Z :=
  [syncByte; (if first then 64 else 0) + pid / 256; pid mod 256; 16 * afc + cc mod 16].

Definition pcr_bytes (pcr : Z) : list Z :=
  [u8 (Z.shiftr pcr 25); u8 (Z.shiftr pcr 17); u8 (Z.shiftr pcr 9); u8 (Z.shiftr pcr 1);
   Z.lor (u8 (Z.shiftl pcr 7)) 126; 0].
Definition frame_pcr (f : Frame) : Z := if Dts f >? delay then u64 (Dts f - delay) else 0.

(** The adaptation field of a key frame, without its length. *)
Definition key_field (f : Frame) : list Z := 80 :: pcr_bytes (frame_pcr f).

Definition pts_bytes (fb pts : Z) : list Z :=
  let hi := Z.lor (u64 (Z.shiftl (Z.land (Z.shiftr pts 15) 32767) 1)) 1 in
  let lo := Z.lor (u64 (Z.shiftl (Z.land pts 32767) 1)) 1 in
  [Z.lor (Z.lor (u8 (Z.shiftl fb 4)) (Z.land (u8 (Z.shiftr pts 30)) 7)) 1;
   u8 (Z.shiftr hi 8); u8 hi; u8 (Z.shiftr lo 8); u8 lo].

Lemma pts_bytes_length fb v : length (pts_bytes fb v) = 5%nat.
Proof. done. Qed.
Lemma pcr_bytes_length v : length (pcr_bytes v) = 6%nat.
Proof. done. Qed.
Lemma ts_header_length first pid afc cc : length (ts_header first pid afc cc) = 4%nat.
Proof. done. Qed.
#[local] Hint Rewrite pts_bytes_length pcr_bytes_length ts_header_length : len.

Definition has_dts (f : Frame) : bool := negb (Dts f =? Pts f).
Definition pes_length (f : Frame) : Z :=
  let n := len (Raw f) + (if has_dts f then 10 else 5) + 3 in if n >? 65535 then 0 else n.

Definition pes_bytes (f : Frame) : list Z :=
  [0; 0; 1; Sid f; u8 (Z.shiftr (pes_length f) 8); u8 (Z.land (pes_length f) 255); 128;
   if has_dts f then 192 else 128; if has_dts f then 10 else 5] ++
  pts_bytes (if has_dts f then 3 else 2) (u64 (Pts f + delay)) ++
  (if has_dts f then pts_bytes 1 (u64 (Dts f + delay)) else []).

Lemma pes_bytes_length f : len (pes_bytes f) = if has_dts f then 19 else 14.
Proof. unfold pes_bytes. by destruct (has_dts f). Qed.

(** The adaptation field that fills [n] bytes of a packet without one. *)
Definition stuffing (n : Z) : list Z :=
  n - 1 :: (if 2 <=? n then 0 :: replicate (Z.to_nat (n - 2)) 255 else []).

Lemma stuffing_length n : 1 ≤ n → len (stuffing n) = n.
Proof.
  intros Hn. unfold stuffing. destruct (Z.leb_spec 2 n); cbn [length]; rewrite ?length_replicate; lia.
Qed.

Lemma packPcr_make pcr m : 6 ≤ m → packPcr pcr (go_make m) = Ret (pcr_bytes pcr ++ go_make (m - 6)).
Proof.
  intros Hm. unfold packPcr. repeat go_write. unfold pcr_bytes. cbn [app].
  by replace (m - 1 - 1 - 1 - 1 - 1 - 1) with (m - 6) by lia.
Qed.

Lemma packPts_make fb v m : 5 ≤ m → packPts fb v (go_make m) = Ret (pts_bytes fb v ++ go_make (m - 5)).
Proof.
  intros Hm. unfold packPts. cbv zeta. repeat go_write. unfold pts_bytes. cbn [app].
  by replace (m - 1 - 1 - 1 - 1 - 1) with (m - 5) by lia.
Qed.

Lemma packPts_next fb v pre m i :
  i = len pre → 5 ≤ m →
  go_upd_from (pre ++ go_make m) i (packPts fb v) = Ret ((pre ++ pts_bytes fb v) ++ go_make (m - 5)).
Proof. intros Hi Hm. rewrite <- app_assoc. apply go_upd_from_app; [done|]. by apply packPts_make. Qed.

Lemma put_ts_header_spec first pid cc :
  0 ≤ pid < 8192 → put_ts_header first pid cc (go_make 188) = Ret (ts_header first pid 1 cc ++ go_make 184).
Proof.
  intros Hp. unfold put_ts_header, ts_header.
  assert (E1 : u8 (Z.land (Z.shiftr pid 8) 31) = pid / 256).
  { change 31 with (2 ^ 5 - 1). rewrite land_mask, Z.shiftr_div_pow2 by lia. change (2 ^ 8) with 256.
    change (2 ^ 5) with 32. assert (0 ≤ pid / 256 < 32) by zdm.
    rewrite (Z.mod_small (pid / 256)) by lia. apply u8_small. lia. }
  assert (E2 : u8 (Z.land pid 255) = pid mod 256).
  { change 255 with (2 ^ 8 - 1). rewrite land_mask by lia. change (2 ^ 8) with 256.
    apply u8_small, Z.mod_pos_bound. lia. }
  assert (E3 : Z.lor 16 (Z.land cc 15) = 16 * 1 + cc mod 16).
  { change 15 with (2 ^ 4 - 1). rewrite land_mask by lia. change 16 with (1 * 2 ^ 4) at 1.
    rewrite lor_disjoint by (try lia; apply Z.mod_pos_bound; lia). done. }
  assert (E4 : 0 ≤ pid / 256 < 32) by zdm.
  rewrite E1, E2, E3.
  assert (E5 : Z.lor (if first then 64 else 0) (pid / 256) = (if first then 64 else 0) + pid / 256).
  { destruct first; [|done]. change 64 with (1 * 2 ^ 6) at 1. rewrite lor_disjoint by lia. done. }
  change (go_make 188) with (0 :: 0 :: 0 :: 0 :: go_make 184).
  rewrite go_set_head, bind_Ret by done. rewrite go_set_cons_r, go_set_head, !bind_Ret by lia.
  assert (Ef : (if first then go_set (syncByte :: 0 :: 0 :: 0 :: go_make 184) 1 64
      else Ret (syncByte :: 0 :: 0 :: 0 :: go_make 184)) =
    Ret (syncByte :: (if first then 64 else 0) :: 0 :: 0 :: go_make 184)) by by destruct first.
  rewrite Ef, bind_Ret. rewrite go_index_cons_r, go_index_head, bind_Ret, E5 by lia.
  rewrite go_set_cons_r, go_set_head, !bind_Ret by lia.
  do 2 rewrite go_set_cons_r by lia. rewrite go_set_head, !bind_Ret by lia.
  do 3 rewrite go_set_cons_r by lia. by rewrite go_set_head, !bind_Ret by lia.
Qed.

Lemma set_afc b : b < 16 → 0 ≤ b → Z.lor (16 * 1 + b) 32 = 16 * 3 + b.
Proof.
  intros H1 H2. assert (H : for_range 16 (λ b, Z.lor (16 * 1 + b) 32 =? 16 * 3 + b) = true) by done.
  by apply Z.eqb_eq, (for_range_spec 16 _ H).
Qed.

Lemma put_adaptation_spec f first pid cc :
  put_adaptation (Dts f) (ts_header first pid 1 cc ++ go_make 184) =
  Ret ((ts_header first pid 3 cc ++ 7 :: key_field f) ++ go_make 176).
Proof.
  unfold put_adaptation, ts_header. cbn [app]. go_read. rewrite set_afc by (apply Z.mod_pos_bound; lia).
  fold (frame_pcr f). do 3 rewrite go_set_cons_r by lia. rewrite go_set_head, !bind_Ret by lia.
  change (go_make 184) with (0 :: 0 :: go_make 182).
  do 4 rewrite go_set_cons_r by lia. rewrite go_set_head, !bind_Ret by lia.
  do 5 rewrite go_set_cons_r by lia. rewrite go_set_head, !bind_Ret by lia.
  do 6 rewrite go_upd_from_cons_r by lia. rewrite go_upd_from_head by lia.
  rewrite packPcr_make, !bind_Ret by lia. done.
Qed.

Lemma Ret_app_make p p' m m' (w w' : Z) :
  p = p' → m = m' → w = w' → Ret (p ++ go_make m, w) = Ret (p' ++ go_make m', w').
Proof. by intros -> -> ->. Qed.

Lemma put_pes_header_spec f pre m :
  19 ≤ m →
  put_pes_header f (len (Raw f)) (pre ++ go_make m) (len pre) =
  Ret ((pre ++ pes_bytes f) ++ go_make (m - len (pes_bytes f)), len pre + len (pes_bytes f)).
Proof.
  intros Hm. unfold put_pes_header. cbv zeta. fold (has_dts f).
  assert (E : negb (Pts f =? Dts f) = has_dts f) by (unfold has_dts; by rewrite Z.eqb_sym).
  rewrite E.
  fold (pes_length f). rewrite pes_bytes_length. unfold pes_bytes.
  do 9 go_next. rewrite packPts_next by len_lia. rewrite bind_Ret.
  assert (Es : Z.shiftr (if has_dts f then 192 else 128) 6 = if has_dts f then 3 else 2) by by destruct (has_dts f).
  rewrite Es. destruct (has_dts f).
  - rewrite packPts_next by len_lia. rewrite bind_Ret.
    apply Ret_app_make; [by rewrite <- !app_assoc|lia|lia].
  - rewrite app_nil_r. apply Ret_app_make; [by rewrite <- !app_assoc|lia|lia].
Qed.

(** ** The payload *)

Lemma copy_at_cut pre m src i :
  i = len pre → 0 ≤ m ≤ len src →
  go_copy_at (pre ++ go_make m) i src = Ret (pre ++ take (Z.to_nat m) src).
Proof.
  intros -> Hm. unfold go_copy_at. apply go_upd_from_app; [done|]. f_equal. unfold go_copy.
  rewrite length_go_make, drop_ge, app_nil_r by (rewrite length_go_make; lia). done.
Qed.

Lemma fill_ff_spec a b c : fill_ff (length b) (a ++ b ++ c) (len a) = Ret (a ++ replicate (length b) 255 ++ c).
Proof.
  revert a. induction b as [|x b IH]; intros a; [done|]. cbn [length fill_ff app].
  rewrite go_set_app, bind_Ret by done.
  replace (len a + 1) with (len (a ++ [255])) by len_lia.
  change (a ++ 255 :: b ++ c) with (a ++ [255] ++ b ++ c). rewrite app_assoc, IH, <- app_assoc. done.
Qed.

(** The length and the filling of an adaptation field over [n] bytes. *)
Lemma write_stuffing a b c d junk tl n :
  len junk = n → 1 ≤ n ≤ 256 →
  (packet ← go_set (a :: b :: c :: d :: junk ++ tl) 4 (u8 (n - 1));
   if n >=? 2 then packet ← go_set packet 5 0; fill_ff (Z.to_nat (n - 2)) packet 6 else Ret packet) =
  Ret (a :: b :: c :: d :: stuffing n ++ tl).
Proof.
  intros Hj Hn. destruct junk as [|x junk]; [simpl in Hj; lia|]. cbn [length app] in *.
  rewrite (go_set_app [a; b; c; d] (junk ++ tl) 4 x), bind_Ret by done. cbn [app].
  rewrite u8_small by lia. rewrite Z.geb_leb. unfold stuffing. destruct (Z.leb_spec 2 n).
  - destruct junk as [|y junk]; [simpl in Hj; lia|]. cbn [length app] in *.
    rewrite (go_set_app [a; b; c; d; n - 1] (junk ++ tl) 5 y), bind_Ret by done. cbn [app].
    replace (Z.to_nat (n - 2)) with (length junk) by lia.
    exact (fill_ff_spec [a; b; c; d; n - 1; 0] junk tl).
  - destruct junk; [done|]. cbn [length] in Hj. lia.
Qed.

Lemma put_stuffing_spec a b c d pes m n :
  Z.land d 32 = 0 → 1 ≤ n ≤ m → 4 + len pes + m = 188 →
  put_stuffing (a :: b :: c :: d :: pes ++ go_make m) (4 + len pes) n =
  Ret (a :: b :: c :: Z.lor d 32 :: stuffing n ++ pes ++ go_make (m - n), 4 + len pes + n).
Proof.
  intros Hd Hn Hm. unfold put_stuffing.
  go_read.
  destruct (go_index_range (a :: b :: c :: d :: pes ++ go_make m) 4) as (b4 & E4 & _).
  { cbn [length]. rewrite length_app, length_go_make. lia. }
  rewrite E4, bind_Ret, Hd. cbn [Z.eqb negb].
  rewrite (go_set_app [a; b; c] (pes ++ go_make m) 3 d), bind_Ret by done. cbn [app]. cbv zeta.
  set (h := [a; b; c; Z.lor d 32]).
  assert (Emove : ∃ junk, len junk = n ∧
    (if 4 + len pes >? 4 then move (h ++ pes ++ go_make m) (4 + n) 4 (4 + len pes)
     else Ret (h ++ pes ++ go_make m)) = Ret (h ++ junk ++ pes ++ go_make (m - n))).
  { rewrite Z.gtb_ltb. destruct (Z.ltb_spec 4 (4 + len pes)).
    - unfold move. rewrite (go_slice_app h pes (go_make m)), bind_Ret by done.
      set (t := pes ++ go_make m).
      assert (Ht : len t = len pes + m) by (unfold t; rewrite length_app, length_go_make; lia).
      exists (take (Z.to_nat n) t). split; [rewrite length_take; lia|].
      assert (Et : t = take (Z.to_nat n) t ++ take (length pes) (drop (Z.to_nat n) t) ++
        drop (length pes) (drop (Z.to_nat n) t)) by by rewrite !take_drop.
      rewrite Et at 1. rewrite (app_assoc h).
      rewrite go_copy_at_app; [|rewrite length_app, length_take; cbn [length h]; lia|rewrite length_take, length_drop; lia].
      rewrite <- app_assoc. do 4 f_equal. rewrite drop_drop. unfold t. rewrite drop_app_ge by lia.
      unfold go_make. rewrite drop_replicate. f_equal. lia.
    - destruct pes; [|cbn [length] in *; lia]. exists (go_make n). cbn [app].
      split; [rewrite length_go_make; lia|]. rewrite <- go_make_add by lia. do 3 f_equal. lia. }
  destruct Emove as (junk & Hj & Emove). unfold h in Emove. cbn [app] in Emove. rewrite Emove, bind_Ret.
  pose proof (write_stuffing a b c (Z.lor d 32) junk (pes ++ go_make (m - n)) n Hj ltac:(lia)) as E.
  revert E. destruct (go_set _ 4 _) as [p|e|]; [|done|done]. rewrite !bind_Ret. intros ->. by rewrite bind_Ret.
Qed.

(** ** A packet, and the reference demultiplexer *)

Definition first_field (f : Frame) (first : bool) : list Z :=
  if first && Key f then 7 :: key_field f else [].
Definition first_pes (f : Frame) (first : bool) : list Z := if first then pes_bytes f else [].
Definition space (f : Frame) (first : bool) : Z := 184 - len (first_field f first) - len (first_pes f first).

Definition ts_packet (f : Frame) (first : bool) (cc : Z) (rest : list Z) : list Z :=
  let n := space f first in
  if n <=? len rest
  then ts_header first (Pid f) (if first && Key f then 3 else 1) cc ++ first_field f first ++
       first_pes f first ++ take (Z.to_nat n) rest
  else ts_header first (Pid f) 3 cc ++ stuffing (n - len rest) ++ first_pes f first ++ rest.

(** ISO 13818-1: the payload of a packet follows its adaptation field. *)
Definition ts_payload (p : list Z) : option (list Z) :=
  match p with
  | b0 :: _ :: _ :: b3 :: tl =>
      if negb (b0 =? syncByte) then None else
      let afc := Z.land (Z.shiftr b3 4) 3 in
      if afc =? 1 then Some tl
      else if afc =? 3 then
        match tl with n :: tl => Some (drop (Z.to_nat n) tl) | [] => None end
      else None
  | _ => None
  end.

Lemma space_bounds f first : 157 ≤ space f first ≤ 184.
Proof.
  unfold space, first_field, first_pes. destruct first; cbn [andb]; [|cbn [length]; lia].
  rewrite pes_bytes_length. destruct (Key f), (has_dts f); cbn [length key_field]; rewrite ?pcr_bytes_length; lia.
Qed.

Lemma afc_bits afc x : afc = 1 ∨ afc = 3 → 0 ≤ x < 16 → Z.land (Z.shiftr (16 * afc + x) 4) 3 = afc.
Proof.
  intros Ha Hx. assert (H : for_range 16 (λ x, (Z.land (Z.shiftr (16 * 1 + x) 4) 3 =? 1) &&
    (Z.land (Z.shiftr (16 * 3 + x) 4) 3 =? 3)) = true) by done.
  apply (for_range_spec 16 _ H) in Hx. cbv beta in Hx. destruct Ha as [-> | ->]; lia.
Qed.

Lemma ts_payload_spec f first cc rest :
  (first && Key f = true → space f first ≤ len rest) →
  ts_payload (ts_packet f first cc rest) = Some (first_pes f first ++ take (Z.to_nat (space f first)) rest).
Proof.
  intros Hk. pose proof (space_bounds f first) as Hs. assert (Hc : 0 ≤ cc mod 16 < 16) by (apply Z.mod_pos_bound; lia).
  unfold ts_packet. destruct (Z.leb_spec (space f first) (len rest)); unfold ts_header; cbn [app ts_payload];
    rewrite Z.eqb_refl; cbn [negb]; cbv zeta.
  - unfold first_field. destruct (first && Key f); rewrite afc_bits by auto; [|done].
    done.
  - rewrite afc_bits by auto. cbn [Z.eqb Pos.eqb].
    assert (Hl : len (stuffing (space f first - len rest)) = space f first - len rest) by (apply stuffing_length; lia).
    unfold stuffing in *. cbn [app]. f_equal. rewrite (take_ge rest) by lia.
    apply drop_app_length'. cbn [length] in Hl. lia.
Qed.

Lemma ts_packet_length f first cc rest :
  (first && Key f = true → space f first ≤ len rest) → len (ts_packet f first cc rest) = 188.
Proof.
  intros Hk. pose proof (space_bounds f first) as Hs. unfold ts_packet.
  destruct (Z.leb_spec (space f first) (len rest)).
  - rewrite !length_app, length_take, ts_header_length. unfold space in *. lia.
  - assert (Hl : len (stuffing (space f first - len rest)) = space f first - len rest) by (apply stuffing_length; lia).
    rewrite !length_app, ts_header_length. unfold space, first_field in *.
    destruct (first && Key f); [specialize (Hk eq_refl); lia|]. cbn [length] in *. lia.
Qed.

Lemma put_body_spec f first lpos cc rest :
  0 ≤ lpos ≤ len (Raw f) → rest = drop (Z.to_nat lpos) (Raw f) →
  (first && Key f = true → space f first ≤ len rest) →
  put_body f lpos (len (Raw f))
    (ts_header first (Pid f) (if first && Key f then 3 else 1) cc ++ (first_field f first ++ first_pes f first) ++
     go_make (space f first)) (188 - space f first) =
  Ret (ts_packet f first cc rest, lpos + Z.min (space f first) (len rest)).
Proof.
  intros Hl Hr Hk. pose proof (space_bounds f first) as Hs. unfold put_body. cbv zeta.
  assert (Hlr : len rest = len (Raw f) - lpos) by (rewrite Hr, length_drop; lia).
  rewrite go_slice_Ret, bind_Ret by lia. rewrite <- Hr. rewrite (take_ge rest) by lia.
  replace (188 - (188 - space f first)) with (space f first) by lia. rewrite <- Hlr. unfold ts_packet.
  destruct (Z.leb_spec (space f first) (len rest)).
  - rewrite (app_assoc (ts_header _ _ _ _)). rewrite copy_at_cut by
      (try rewrite !length_app, ts_header_length; unfold space in *; lia).
    rewrite bind_Ret. f_equal. f_equal; [by rewrite <- !app_assoc|lia].
  - assert (Hnk : first && Key f = false) by (destruct (first && Key f); [specialize (Hk eq_refl); lia|done]).
    assert (Hsp : 4 + len (first_pes f first) = 188 - space f first)
      by (unfold space, first_field; rewrite Hnk; cbn [length]; lia).
    unfold first_field. rewrite Hnk, <- Hsp. cbn [app]. unfold ts_header. cbn [app].
    assert (Hc : 0 ≤ cc mod 16 < 16) by (apply Z.mod_pos_bound; lia).
    rewrite put_stuffing_spec; [|..].
    + rewrite bind_Ret, set_afc by lia. set (h := [syncByte; (if first then 64 else 0) + Pid f / 256; Pid f mod 256; 16 * 3 + cc mod 16]).
      change (?a :: ?b :: ?c :: ?d :: ?t) with ([a; b; c; d] ++ t). fold h.
      assert (Hst : len (stuffing (space f first - len rest)) = space f first - len rest)
        by (apply stuffing_length; lia).
      rewrite !(app_assoc h), (app_assoc (h ++ _)). rewrite copy_at_cut.
      * rewrite take_ge, bind_Ret by lia. f_equal. f_equal; [by rewrite <- !app_assoc|lia].
      * rewrite !length_app. cbn [length h]. lia.
      * lia.
    + assert (Hr16 : for_range 16 (λ x, Z.land (16 * 1 + x) 32 =? 0) = true) by done.
      by apply Z.eqb_eq, (for_range_spec 16 _ Hr16).
    + lia.
    + lia.
Qed.

Lemma put_packet_spec f first lpos cc rest :
  0 ≤ Pid f < 8192 → 0 ≤ lpos ≤ len (Raw f) → rest = drop (Z.to_nat lpos) (Raw f) →
  (first && Key f = true → space f first ≤ len rest) →
  put_packet f lpos (len (Raw f)) first cc (go_make 188) =
  Ret (ts_packet f first cc rest, lpos + Z.min (space f first) (len rest)).
Proof.
  intros Hp Hl Hr Hk. unfold put_packet. rewrite put_ts_header_spec, bind_Ret by done.
  rewrite <- (put_body_spec f first lpos cc rest Hl Hr Hk). unfold space, first_field, first_pes.
  destruct first; cbn [andb app]; [|by rewrite Z.sub_0_r].
  pose proof (pes_bytes_length f) as Hpl. assert (len (pes_bytes f) ≤ 19) by (rewrite Hpl; destruct (has_dts f); lia).
  destruct (Key f).
  - rewrite put_adaptation_spec, !bind_Ret.
    pose proof (put_pes_header_spec f (ts_header true (Pid f) 3 cc ++ 7 :: key_field f) 176 ltac:(lia)) as E.
    change (len (ts_header true (Pid f) 3 cc ++ 7 :: key_field f)) with 12 in E. rewrite E, bind_Ret.
    change (len (7 :: key_field f)) with 8. rewrite <- !app_assoc. f_equal; lia.
  - rewrite !bind_Ret. pose proof (put_pes_header_spec f (ts_header true (Pid f) 1 cc) 184 ltac:(lia)) as E.
    change (len (ts_header true (Pid f) 1 cc)) with 4 in E. rewrite E, bind_Ret.
    rewrite <- !app_assoc. cbn [length app]. f_equal; lia.
Qed.

(** ** The loop *)

(** What the [i]-th packet of a run of packets carries in its header. *)
Definition header_is (f : Frame) (start : bool) (cc : Z) (p : list Z) : Prop :=
  ∃ afc tl, (afc = 1 ∨ afc = 3) ∧ p = ts_header start (Pid f) afc cc ++ tl.

Record packets_ok (f : Frame) (first : bool) (cc : Z) (rest : list Z) (ps : list (list Z)) : Prop := {
  packets_size : Forall (λ p, len p = 188) ps;
  packets_payload : ∃ pls, mapM ts_payload ps = Some pls ∧ mjoin pls = first_pes f first ++ rest;
  packets_header : ∀ i p, ps !! i = Some p →
    header_is f (first && Nat.eqb i 0) (cc + 1 + Z.of_nat i) p;
}.

Lemma ts_packet_header f first cc rest : header_is f first cc (ts_packet f first cc rest).
Proof.
  unfold ts_packet, header_is. destruct (_ <=? _).
  - exists (if first && Key f then 3 else 1). eexists. split; [destruct (first && Key f); auto|done].
  - exists 3. eexists. split; [auto|done].
Qed.

Lemma ts_header_mod first pid afc cc : ts_header first pid afc (u8 cc) = ts_header first pid afc cc.
Proof. unfold ts_header, u8. do 4 f_equal. f_equal. Z.div_mod_to_equations. lia. Qed.

Lemma header_is_u8 f first cc p : header_is f first (u8 cc) p → header_is f first cc p.
Proof. intros (afc & tl & Ha & ->). exists afc, tl. by rewrite ts_header_mod. Qed.

Lemma grow_zeros dn k n :
  0 ≤ k → 0 ≤ n →
  ∃ k', n ≤ k' ∧ (if len dn + n >? len (dn ++ go_make k) then go_copy (go_make (len dn + n)) (dn ++ go_make k)
            else dn ++ go_make k) = dn ++ go_make k'.
Proof.
  intros Hk Hn. rewrite Z.gtb_ltb, length_app, length_go_make.
  destruct (Z.ltb_spec (Z.of_nat (length dn + Z.to_nat k)) (len dn + n)).
  - exists n. split; [lia|]. rewrite go_copy_make by (rewrite length_app, length_go_make; lia).
    rewrite <- app_assoc. f_equal. rewrite <- go_make_add by (rewrite ?length_app, ?length_go_make; lia).
    f_equal. rewrite length_app, length_go_make. lia.
  - exists k. split; [lia|done].
Qed.

Lemma Ret3 {A B C} (a a' : A) (b b' : B) (c c' : C) :
  a = a' → b = b' → c = c' → Ret (a, b, c) = Ret (a', b', c').
Proof. by intros -> -> ->. Qed.

Lemma pack_loop_spec f fuel : ∀ rest lpos first cc dn k,
  0 ≤ Pid f < 8192 → 0 ≤ lpos ≤ len (Raw f) → rest = drop (Z.to_nat lpos) (Raw f) → 0 ≤ k →
  (first && Key f = true → space f first ≤ len rest) → (length rest ≤ fuel)%nat → (first = true → rest ≠ []) →
  ∃ ps k', packets_ok f first cc rest ps ∧
    pack_loop fuel f (len (Raw f)) lpos first cc (len dn) (dn ++ go_make k) =
    Ret (dn ++ mjoin ps ++ go_make k', len dn + len (mjoin ps), match ps with [] => cc | _ => u8 (cc + len ps) end).
Proof.
  induction fuel as [|fuel IH]; intros rest lpos first cc dn k Hp Hl Hr Hk0 Hk Hf Hne;
    (assert (Hlr : len rest = len (Raw f) - lpos) by (rewrite Hr, length_drop; lia));
    cbn [pack_loop]; (destruct (Z.eqb_spec lpos (len (Raw f))); [|try lia]).
  1,2: destruct rest; [|cbn [length] in *; lia]; destruct first; [by specialize (Hne eq_refl)|];
    exists [], k; split; [split; [constructor|by exists []|done]|cbn; do 3 f_equal; lia].
  pose proof (space_bounds f first) as Hs. cbv zeta.
  destruct (grow_zeros dn k 188 Hk0 ltac:(lia)) as (k1 & Hk1 & ->).
  assert (Ez : go_make k1 = go_make 188 ++ go_make (k1 - 188)) by (rewrite <- go_make_add by lia; f_equal; lia).
  rewrite Ez, go_slice_app, bind_Ret by (rewrite ?length_go_make; lia).
  rewrite (put_packet_spec f first lpos _ rest), bind_Ret by done.
  pose proof (ts_packet_length f first (u8 (cc + 1)) rest Hk) as Hpl. set (p := ts_packet _ _ _ _) in *.
  rewrite go_copy_at_app, bind_Ret by (rewrite ?length_go_make; lia). rewrite app_assoc.
  set (w := Z.min (space f first) (len rest)).
  destruct (IH (drop (Z.to_nat w) rest) (lpos + w) false (u8 (cc + 1)) (dn ++ p) (k1 - 188)) as (ps & k' & [P1 P2 P3] & E);
    try done; try lia.
  { rewrite Hr, drop_drop. f_equal. lia. }
  { rewrite length_drop. destruct rest; cbn [length] in *; lia. }
  exists (p :: ps), k'. split.
  - split; [by constructor| |].
    + destruct P2 as (pls & Em & Ej). exists ((first_pes f first ++ take (Z.to_nat (space f first)) rest) :: pls).
      pose proof (ts_payload_spec f first (u8 (cc + 1)) rest Hk) as Hpay. fold p in Hpay.
      cbn [mapM]. rewrite Hpay. cbn [mbind option_bind]. rewrite Em. split; [done|].
      change (mjoin (?a :: ?l)) with (a ++ mjoin l). rewrite Ej. cbn [first_pes app]. rewrite <- app_assoc. f_equal.
      unfold w. destruct (Z.min_spec (space f first) (len rest)) as [[? ->]|[? ->]]; [apply take_drop|].
      rewrite (take_ge rest), (drop_ge rest) by lia. apply app_nil_r.
    + intros [|i] q Hq.
      * injection Hq as <-. rewrite andb_true_r, Z.add_0_r. apply header_is_u8, ts_packet_header.
      * specialize (P3 i q Hq). rewrite andb_false_r. cbn [andb] in P3.
        destruct P3 as (afc & tl & Ha & ->). exists afc, tl. split; [done|].
        rewrite <- (ts_header_mod _ _ _ (_ + _ + Z.of_nat (S i))), <- (ts_header_mod _ _ _ (u8 _ + _ + _)).
        do 2 f_equal. unfold u8. rewrite <- !Z.add_assoc, Zplus_mod_idemp_l. f_equal. lia.
  - replace (len dn + 188) with (len (dn ++ p)) by len_lia. etransitivity; [exact E|].
    change (mjoin (p :: ps)) with (p ++ mjoin ps). rewrite <- !app_assoc, !length_app. apply Ret3; [done|lia|].
    destruct ps; [cbn [length]; f_equal; lia|]. unfold u8. rewrite Zplus_mod_idemp_l. cbn [length]. f_equal. lia.
Qed.

(** ** Every frame is packed

    Also a key frame smaller than a packet, whose payload is spoilt: the packet
    has its size and its header. *)

(** [p'] is [p] with other bytes after the header. *)
Definition same_head (p p' : list Z) : Prop := len p' = len p ∧ take 4 p' = take 4 p.

Lemma same_head_set p i v : 4 ≤ i < len p → ∃ p', go_set p i v = Ret p' ∧ same_head p p'.
Proof.
  intros Hi. exists (<[Z.to_nat i := v]> p). split; [apply go_set_Ret; lia|]. split; [len_lia|].
  apply take_insert_ge. lia.
Qed.

Lemma same_head_copy p i src : 4 ≤ i ≤ len p → ∃ p', go_copy_at p i src = Ret p' ∧ same_head p p'.
Proof.
  intros Hi. unfold go_copy_at. eexists. split; [apply go_upd_from_Ret; [lia|reflexivity]|]. split.
  - rewrite length_app, length_go_copy, length_take, length_drop. lia.
  - rewrite take_app_le by (rewrite length_take; lia). rewrite take_take. f_equal. lia.
Qed.

Lemma same_head_fill n p b : 4 ≤ b → b + Z.of_nat n ≤ len p → ∃ p', fill_ff n p b = Ret p' ∧ same_head p p'.
Proof.
  revert p b. induction n as [|n IH]; intros p b Hb Hn; [by exists p|]. cbn [fill_ff].
  destruct (same_head_set p b 255) as (q & -> & Hl & Ht); [lia|]. rewrite bind_Ret.
  destruct (IH q (b + 1)) as (p' & -> & Hl' & Ht'); [lia|lia|]. exists p'. split; [done|]. split; congruence.
Qed.

Lemma small_key_packet f cc :
  0 ≤ Pid f < 8192 → Key f = true → len (Raw f) < space f true →
  ∃ p, put_packet f 0 (len (Raw f)) true cc (go_make 188) = Ret (p, len (Raw f)) ∧
    len p = 188 ∧ header_is f true cc p.
Proof.
  intros Hp Hk Hs. unfold put_packet. rewrite put_ts_header_spec, bind_Ret, Hk by done.
  rewrite put_adaptation_spec, !bind_Ret.
  pose proof (put_pes_header_spec f (ts_header true (Pid f) 3 cc ++ 7 :: key_field f) 176 ltac:(lia)) as E.
  change (len (ts_header true (Pid f) 3 cc ++ 7 :: key_field f)) with 12 in E. rewrite E, bind_Ret. clear E.
  pose proof (pes_bytes_length f) as Hpl. unfold space, first_field, first_pes in Hs. rewrite Hk in Hs. cbn [andb] in Hs.
  change (len (7 :: key_field f)) with 8 in Hs.
  assert (Hpb : len (pes_bytes f) = 14 ∨ len (pes_bytes f) = 19) by (rewrite Hpl; destruct (has_dts f); lia).
  set (n := len (pes_bytes f)) in *. set (p0 := _ ++ go_make (176 - n)).
  assert (H0 : len p0 = 188 ∧ take 4 p0 = ts_header true (Pid f) 3 cc ∧ go_index p0 3 = Ret (16 * 3 + cc mod 16) ∧
               go_index p0 4 = Ret 7).
  { unfold p0. repeat split. rewrite !length_app, length_go_make. fold n. cbn [length key_field]. rewrite pcr_bytes_length. cbn [length ts_header]. lia. }
  destruct H0 as (Hl & Ht & E3 & E4). clearbody p0.
  unfold put_body. cbv zeta. rewrite go_slice_all, bind_Ret by lia.
  rewrite (proj2 (Z.leb_gt _ _)) by lia. unfold put_stuffing. rewrite E3, E4, !bind_Ret.
  assert (E32 : negb (Z.land (16 * 3 + cc mod 16) 32 =? 0) = true).
  { assert (H : for_range 16 (λ x, negb (Z.land (16 * 3 + x) 32 =? 0)) = true) by done.
    apply (for_range_spec 16 _ H (cc mod 16)). apply Z.mod_pos_bound. lia. }
  rewrite E32. change (u8 (4 + 7)) with 11. cbv zeta. set (st := 188 - (12 + n) - (len (Raw f) - 0)).
  rewrite Z.gtb_ltb, (proj2 (Z.ltb_lt _ _)) by lia. unfold move.
  rewrite go_slice_Ret, bind_Ret by lia.
  edestruct (same_head_copy p0 (11 + st)) as (p1 & -> & L1 & T1); [lia|]. rewrite bind_Ret.
  destruct (same_head_set p1 4 (u8 (7 + u8 st))) as (p2 & -> & L2 & T2); [lia|]. rewrite bind_Ret.
  destruct (same_head_fill (Z.to_nat st) p2 11) as (p3 & -> & L3 & T3); [lia|lia|]. rewrite !bind_Ret.
  edestruct (same_head_copy p3 (11 + st)) as (p4 & -> & L4 & T4); [lia|]. rewrite bind_Ret.
  exists p4. split; [done|]. split; [lia|]. exists 3, (drop 4 p4). split; [by right|].
  rewrite <- Ht, <- T1, <- T2, <- T3, <- T4. by rewrite take_drop.
Qed.

Lemma small_key_Pack f :
  0 ≤ Pid f < 8192 → Raw f ≠ [] → Key f = true → len (Raw f) < space f true →
  ∃ p, Pack f = Ret (p, set_cc f (u8 (Cc f + 1))) ∧ len p = 188 ∧ header_is f true (Cc f + 1) p.
Proof.
  intros Hp Hne Hk Hs. destruct (small_key_packet f (u8 (Cc f + 1)) Hp Hk Hs) as (p & E & Hl & Hh).
  exists p. split; [|split; [done|by apply header_is_u8]]. pose proof (space_bounds f true).
  assert (Hpos : 0 < len (Raw f)) by (destruct (Raw f); [done|cbn [length]; lia]).
  unfold Pack. cbv zeta. rewrite (proj2 (Z.ltb_lt _ 1024)) by lia.
  assert (Ef : ∃ n, pack_fuel f = S n) by (exists (pred (pack_fuel f)); unfold pack_fuel; lia).
  destruct Ef as [n ->]. cbn [pack_loop].
  rewrite (proj2 (Z.eqb_neq 0 _)) by lia. rewrite Z.gtb_ltb, (proj2 (Z.ltb_ge _ _)) by (rewrite length_go_make; lia).
  assert (Eg : go_make 1024 = go_make 188 ++ go_make 836) by by rewrite <- go_make_add.
  rewrite Eg, go_slice_head, bind_Ret by done. cbv zeta. rewrite E, bind_Ret.
  pose proof (go_copy_at_app [] (go_make 188) (go_make 836) 0 p eq_refl) as Ec. cbn [app] in Ec.
  rewrite Ec, bind_Ret by (rewrite length_go_make; lia).
  assert (El : ∀ n cc pos buf, pack_loop n f (len (Raw f)) (len (Raw f)) false cc pos buf = Ret (buf, pos, cc)).
  { intros n'. destruct n'; intros; cbn [pack_loop]; by rewrite Z.eqb_refl. }
  rewrite El, bind_Ret, go_slice_head by lia. done.
Qed.

(** Packets of 188 bytes with consecutive continuity counters. *)
Definition continues (f : Frame) (ps : list (list Z)) : Prop :=
  Forall (λ p, len p = 188) ps ∧ ∀ i p, ps !! i = Some p → header_is f (Nat.eqb i 0) (Cc f + 1 + Z.of_nat i) p.

Lemma Pack_continues f :
  0 ≤ Pid f < 8192 → Raw f ≠ [] →
  ∃ ps, ps ≠ [] ∧ Pack f = Ret (mjoin ps, set_cc f (u8 (Cc f + len ps))) ∧ continues f ps ∧
    ((Key f = true → space f true ≤ len (Raw f)) →
     ∃ pls, mapM ts_payload ps = Some pls ∧ mjoin pls = pes_bytes f ++ Raw f).
Proof.
  intros Hp Hne. destruct (decide (Key f = true ∧ len (Raw f) < space f true)) as [[Hk Hs]|Hn].
  { destruct (small_key_Pack f Hp Hne Hk Hs) as (p & E & Hl & Hh). exists [p]. rewrite E.
    split; [done|]. split; [by rewrite <- (app_nil_r p) at 1|].
    split; [|intros Hk'; specialize (Hk' Hk); lia]. split; [by constructor|].
    intros [|i] q Hq; [|done]. injection Hq as <-. by rewrite Z.add_0_r. }
  assert (Hk : Key f = true → space f true ≤ len (Raw f)) by (intros ?; apply Z.nlt_ge; auto).
  unfold Pack. cbv zeta.
  destruct (pack_loop_spec f (pack_fuel f) (Raw f) 0 true (Cc f) []
    (if len (Raw f) * 2 <? 1024 then 1024 else len (Raw f) * 2)) as (ps & k' & [P1 (pls & Em & Ej) P3] & E);
    try done; try lia.
  { destruct (Z.ltb_spec (len (Raw f) * 2) 1024); lia. }
  assert (Hps : ps ≠ []).
  { intros ->. injection Em as <-. cbn in Ej. by destruct (Raw f). }
  exists ps. split; [done|]. split; [|split; [by split|by exists pls]].
  change ([] ++ go_make ?x) with (go_make x) in E. change (len []) with 0 in E. rewrite E, bind_Ret, !app_nil_l.
  rewrite go_slice_head, bind_Ret by (try done; lia). by destruct ps.
Qed.

(** ** The headers read back *)

Section ParseFacts.
Context {BI : NazaBits} {HBI : NazaBitsLaws BI}.

Lemma ts_header_bits start pid afc cc :
  0 ≤ pid < 8192 → afc = 1 ∨ afc = 3 →
  byte_bits (ts_header start pid afc cc) =
  num_bits 8 71 ++ num_bits 1 0 ++ num_bits 1 (if start : bool then 1 else 0) ++ num_bits 1 0 ++
  num_bits 13 pid ++ num_bits 2 0 ++ num_bits 2 afc ++ num_bits 4 (cc mod 16).
Proof.
  intros Hp Ha. unfold ts_header. rewrite !byte_bits_cons. f_equal.
  assert (E1 : num_bits 8 ((if start then 64 else 0) + pid / 256) =
    num_bits 3 (if start then 2 else 0) ++ num_bits 5 (pid / 256)).
  { replace (if start then 64 else 0) with ((if start then 2 else 0) * 2 ^ Z.of_nat 5) by by destruct start.
    apply (num_bits_add 3 5). change (2 ^ Z.of_nat 5) with 32. zdm. }
  assert (E2 : num_bits 13 pid = num_bits 5 (pid / 256) ++ num_bits 8 (pid mod 256)).
  { rewrite (num_bits_split 5 8). f_equal. change 256 with (2 ^ Z.of_nat 8). by rewrite num_bits_mod. }
  assert (E3 : num_bits 8 (16 * afc + cc mod 16) = num_bits 4 afc ++ num_bits 4 (cc mod 16)).
  { rewrite (Z.mul_comm 16). apply (num_bits_add 4 4). apply Z.mod_pos_bound. lia. }
  rewrite E1, E2, E3. rewrite <- !app_assoc. change (byte_bits []) with (@nil bool). rewrite app_nil_r.
  by destruct start, Ha as [-> | ->].
Qed.

Lemma ParseTsPacketHeader_spec start pid afc cc tl :
  0 ≤ pid < 8192 → afc = 1 ∨ afc = 3 →
  ParseTsPacketHeader (ts_header start pid afc cc ++ tl) =
  mkTsHeader syncByte 0 (if start : bool then 1 else 0) 0 pid 0 afc (cc mod 16).
Proof.
  intros Hp Ha. unfold ParseTsPacketHeader. pose proof (br_new (ts_header start pid afc cc ++ tl)) as H.
  rewrite byte_bits_app, ts_header_bits, <- !app_assoc in H by done.
  assert (Hc : 0 ≤ cc mod 16 < 16) by (apply Z.mod_pos_bound; lia). cbv zeta.
  destruct start; do 8 read_field H; done.
Qed.

(** What [readPts] makes of a timestamp: bits 30 to 32 are written one place too
    low, so only the low 30 bits survive, and bits 31 and 32 move down. *)
Definition pts_back (v : Z) : Z := v / 2147483648 mod 4 * 1073741824 + v mod 1073741824.

Lemma pts_top_bits x fb :
  0 ≤ x < 8 → 0 ≤ fb < 16 →
  let b := Z.lor (Z.lor (u8 (Z.shiftl fb 4)) (Z.land x 7)) 1 in
  Z.shiftr b 4 = fb ∧ Z.land (Z.shiftr b 1) 7 = x / 2.
Proof.
  intros Hx Hfb. assert (H : for_range 8 (λ x, for_range 16 (λ fb,
    let b := Z.lor (Z.lor (u8 (Z.shiftl fb 4)) (Z.land x 7)) 1 in
    (Z.shiftr b 4 =? fb) && (Z.land (Z.shiftr b 1) 7 =? x / 2))) = true) by by vm_compute.
  apply (for_range_spec 8 _ H) in Hx. cbv beta in Hx. apply (for_range_spec 16 _ Hx) in Hfb.
  cbv beta zeta in Hfb |- *. lia.
Qed.

(** Fifteen bits and a marker in two bytes. *)
Lemma marker_bits b :
  0 ≤ b < 32768 →
  let v := Z.lor (u64 (Z.shiftl b 1)) 1 in
  Z.shiftr (Z.lor (Z.shiftl (u8 (Z.shiftr v 8)) 8) (u8 v)) 1 = b.
Proof.
  intros Hb. cbv zeta. rewrite (Z.shiftl_mul_pow2 b) by lia. change (2 ^ 1) with 2.
  assert (E1 : u64 (b * 2) = b * 2 ^ 1) by (unfold u64; rewrite Z.mod_small; lia).
  rewrite E1, lor_disjoint by lia. change (2 ^ 1) with 2.
  rewrite (Z.shiftr_div_pow2 _ 8), (Z.shiftl_mul_pow2 _ 8) by lia. change (2 ^ 8) with 256.
  unfold u8. change 256 with (2 ^ 8) at 3. rewrite lor_disjoint by (try lia; apply Z.mod_pos_bound; lia).
  rewrite Z.shiftr_div_pow2 by lia. change (2 ^ 8) with 256. change (2 ^ 1) with 2. zdm.
Qed.

Lemma readPts_spec fb v tl :
  0 ≤ fb < 16 → 0 ≤ v < 8589934592 → readPts (pts_bytes fb v ++ tl) = Ret (fb, pts_back v).
Proof.
  intros Hfb Hv. unfold readPts, pts_bytes. cbn [app]. repeat go_read.
  assert (Ex : Z.land (u8 (Z.shiftr v 30)) 7 = Z.land (v / 1073741824) 7 ∧ 0 ≤ v / 1073741824 < 8).
  { rewrite Z.shiftr_div_pow2 by lia. change (2 ^ 30) with 1073741824.
    assert (0 ≤ v / 1073741824 < 8) by zdm. by rewrite u8_small by lia. }
  destruct Ex as [-> Hx]. destruct (pts_top_bits _ fb Hx Hfb) as [-> ->].
  assert (Hm : ∀ w, 0 ≤ Z.land w 32767 < 32768).
  { intros w. change 32767 with (2 ^ 15 - 1). rewrite land_mask by lia. apply Z.mod_pos_bound. lia. }
  pose proof (marker_bits _ (Hm (Z.shiftr v 15))) as E1. pose proof (marker_bits _ (Hm v)) as E2.
  cbv zeta in E1, E2 |- *. rewrite E1, E2. clear E1 E2 Hm. f_equal. f_equal.
  change 32767 with (2 ^ 15 - 1). rewrite !land_mask by lia. rewrite Z.shiftr_div_pow2 by lia.
  rewrite (Z.shiftl_mul_pow2 _ 30), (Z.shiftl_mul_pow2 _ 15) by lia.
  assert (0 ≤ v / 2 ^ 15 mod 2 ^ 15 < 2 ^ 15) by (apply Z.mod_pos_bound; lia).
  assert (0 ≤ v mod 2 ^ 15 < 2 ^ 15) by (apply Z.mod_pos_bound; lia).
  rewrite lor_disjoint by lia.
  replace (v / 1073741824 / 2 * 2 ^ 30 + v / 2 ^ 15 mod 2 ^ 15 * 2 ^ 15) with
    ((v / 1073741824 / 2 * 2 ^ 15 + v / 2 ^ 15 mod 2 ^ 15) * 2 ^ 15) by ring.
  rewrite lor_disjoint by lia. unfold pts_back. change (2 ^ 15) with 32768 in *. zdm.
Qed.

Lemma pes_bits f tl :
  is_u8 (Sid f) →
  byte_bits (pes_bytes f ++ tl) =
  num_bits 24 1 ++ num_bits 8 (Sid f) ++ num_bits 16 (pes_length f) ++ num_bits 8 128 ++
  num_bits 2 (if has_dts f then 3 else 2) ++ num_bits 6 0 ++ num_bits 8 (if has_dts f then 10 else 5) ++
  byte_bits (drop 9 (pes_bytes f) ++ tl).
Proof.
  intros Hs. unfold pes_bytes.
  assert (El : [u8 (Z.shiftr (pes_length f) 8); u8 (Z.land (pes_length f) 255)] = be_bytes 2 (pes_length f)).
  { change (be_bytes 2 (pes_length f)) with [(pes_length f / 256 ^ 1) mod 256; (pes_length f / 256 ^ 0) mod 256].
    change 255 with (2 ^ 8 - 1). rewrite land_mask, Z.shiftr_div_pow2 by lia.
    change (256 ^ 0) with 1. change (256 ^ 1) with 256. change (2 ^ 8) with 256.
    unfold u8. by rewrite Z.mod_mod, Z.div_1_r by lia. }
  assert (Eb : byte_bits (be_bytes 2 (pes_length f)) = num_bits 16 (pes_length f)) by apply (byte_bits_be 2).
  rewrite <- El in Eb. cbn [app drop]. rewrite !byte_bits_cons in *. rewrite <- Eb, <- !app_assoc.
  change (byte_bits []) with (@nil bool). cbn [app]. by destruct (has_dts f).
Qed.

Lemma ParsePes_spec f raw :
  is_u8 (Sid f) → 0 ≤ u64 (Pts f + delay) < 8589934592 → 0 ≤ u64 (Dts f + delay) < 8589934592 →
  ParsePes (pes_bytes f ++ raw) =
  Ret (mkPes 1 (Sid f) (pes_length f) 128 (if has_dts f then 3 else 2) 0 (if has_dts f then 10 else 5)
         (pts_back (u64 (Pts f + delay))) (pts_back (u64 (Dts f + delay))), len (pes_bytes f)).
Proof.
  intros Hs Hp Hd. pose proof (br_new (pes_bytes f ++ raw)) as H. rewrite pes_bits in H by done.
  assert (Hpl : 0 ≤ pes_length f < 65536).
  { unfold pes_length. destruct (Z.gtb_spec (len (Raw f) + (if has_dts f then 10 else 5) + 3) 65535);
      destruct (has_dts f); lia. }
  assert (E9 : go_from (pes_bytes f ++ raw) 9 = Ret (pts_bytes (if has_dts f then 3 else 2) (u64 (Pts f + delay)) ++
    (if has_dts f then pts_bytes 1 (u64 (Dts f + delay)) else []) ++ raw)).
  { unfold pes_bytes. rewrite <- !app_assoc. by apply (go_from_app [_; _; _; _; _; _; _; _; _]). }
  rewrite pes_bytes_length. unfold ParsePes. cbv zeta. destruct (has_dts f) eqn:Ehd; do 7 read_field H; clear H.
  - change (negb (Z.land 3 2 =? 0)) with true. change (negb (Z.land 3 1 =? 0)) with true. cbv iota.
    rewrite E9, bind_Ret, readPts_spec, bind_Ret by lia.
    assert (E14 : go_from (pes_bytes f ++ raw) 14 = Ret (pts_bytes 1 (u64 (Dts f + delay)) ++ raw)).
    { unfold pes_bytes. rewrite Ehd, app_assoc, <- app_assoc. by apply go_from_app. }
    by rewrite E14, bind_Ret, readPts_spec, !bind_Ret by lia.
  - change (negb (Z.land 2 2 =? 0)) with true. change (negb (Z.land 2 1 =? 0)) with false. cbv iota.
    rewrite E9, bind_Ret, readPts_spec, !bind_Ret by lia.
    assert (Eq : Dts f = Pts f) by (unfold has_dts in Ehd; lia). by rewrite Eq.
Qed.
End ParseFacts.

(** ** Properties *)

(** C10: demultiplexing what [Pack] made gives the frame back: every packet is 188
    bytes, starts with the sync byte, carries the frame's PID and the next
    continuity counter, only the first starts a unit; and the payloads in order
    are one PES packet with the stream id, both timestamps (below 2^30 with the
    delay) and exactly the frame's bytes.  The exception, a key frame smaller
    than one packet, is [ts_small_key_frame_corrupt]. *)
Theorem ts_pack_demux {BI : NazaBits} (HBI : NazaBitsLaws BI) f :
  0 ≤ Pid f < 8192 → is_u8 (Sid f) → Raw f ≠ [] → (Key f = true → space f true ≤ len (Raw f)) →
  0 ≤ Pts f → Pts f + delay < 1073741824 → 0 ≤ Dts f → Dts f + delay < 1073741824 →
  ∃ ps pls pes n,
    Pack f = Ret (mjoin ps, set_cc f (u8 (Cc f + len ps))) ∧ Forall (λ p, len p = 188) ps ∧
    (∀ i p, ps !! i = Some p → ∃ afc, ParseTsPacketHeader p =
       mkTsHeader syncByte 0 (if Nat.eqb i 0 then 1 else 0) 0 (Pid f) 0 afc ((Cc f + 1 + Z.of_nat i) mod 16)) ∧
    mapM ts_payload ps = Some pls ∧ ParsePes (mjoin pls) = Ret (pes, n) ∧
    sid pes = Sid f ∧ pts pes = Pts f + delay ∧ dts pes = Dts f + delay ∧
    drop (Z.to_nat n) (mjoin pls) = Raw f.
Proof.
  intros Hp Hs Hne Hk Hp0 Hp1 Hd0 Hd1. unfold Pack. cbv zeta.
  destruct (pack_loop_spec f (pack_fuel f) (Raw f) 0 true (Cc f) []
    (if len (Raw f) * 2 <? 1024 then 1024 else len (Raw f) * 2)) as (ps & k' & [P1 (pls & Em & Ej) P3] & E);
    try done; try lia.
  { destruct (Z.ltb_spec (len (Raw f) * 2) 1024); lia. }
  assert (Hu : ∀ v, 0 ≤ v < 1073741824 → pts_back (u64 v) = v ∧ 0 ≤ u64 v < 8589934592).
  { intros v Hv. unfold u64. rewrite (Z.mod_small v) by lia. split; [unfold pts_back; zdm|lia]. }
  destruct (Hu (Pts f + delay)) as [Ep Hpu]; [unfold delay in *; lia|].
  destruct (Hu (Dts f + delay)) as [Ed Hdu]; [unfold delay in *; lia|].
  exists ps, pls. do 2 eexists. split; [|split; [done|split; [|split; [exact Em|split; [rewrite Ej; by apply ParsePes_spec|]]]]].
  - change ([] ++ go_make ?x) with (go_make x) in E. change (len []) with 0 in E. rewrite E, bind_Ret, !app_nil_l.
    rewrite go_slice_head, bind_Ret by (try done; lia). do 3 f_equal.
    destruct ps; [|done]. injection Em as <-. cbn in Ej. by destruct (Raw f).
  - intros i p Hi. destruct (P3 i p Hi) as (afc & tl & Ha & ->). exists afc. by apply ParseTsPacketHeader_spec.
  - cbn [sid pts dts]. rewrite Ep, Ed, Ej. repeat split. rewrite Nat2Z.id. apply drop_app_length.
Qed.

(** A timestamp written by [packPts] reads back as [pts_back] of it, which is
    the timestamp exactly below 2^30 (three hours and a quarter): the three top
    bits are written one place too low. *)
Theorem ts_pts_top_bits fb v m tl :
  0 ≤ fb < 16 → 0 ≤ v < 8589934592 → 5 ≤ m →
  ∃ out, packPts fb v (go_make m) = Ret (out ++ go_make (m - 5)) ∧
    readPts (out ++ tl) = Ret (fb, pts_back v) ∧ (pts_back v = v ↔ v < 1073741824).
Proof.
  intros Hfb Hv Hm. exists (pts_bytes fb v). split; [by apply packPts_make|]. split; [by apply readPts_spec|].
  unfold pts_back. split; zdm.
Qed.

Definition small_key_frame : Frame :=
  mkFrame 90 0 90 0 PidVideo StreamIdVideo true (repeat 170 100).

(** A key frame that fits in one packet is lost: the payload is copied over the
    PES header it should follow. *)
Theorem ts_small_key_frame_corrupt :
  ∃ p f', Pack small_key_frame = Ret (p, f') ∧ len p = 188 ∧
    ts_payload p ≠ Some (pes_bytes small_key_frame ++ Raw small_key_frame) ∧
    (take 3 <$> ts_payload p) = Some [170; 170; 170].
Proof. do 2 eexists. split; [vm_compute; reflexivity|]. by vm_compute. Qed.

(** ** Witnesses *)

Definition demo_frame : Frame := mkFrame 3690 0 90 14 PidVideo StreamIdVideo true (repeat 7 400).

Lemma ts_pack_demux_witness :
  ∃ ps pls pes n,
    Pack demo_frame = Ret (mjoin ps, set_cc demo_frame (u8 (14 + len ps))) ∧ Forall (λ p, len p = 188) ps ∧
    (∀ i p, ps !! i = Some p → ∃ afc, @ParseTsPacketHeader bits_impl p =
       mkTsHeader 71 0 (if Nat.eqb i 0 then 1 else 0) 0 256 0 afc ((14 + 1 + Z.of_nat i) mod 16)) ∧
    mapM ts_payload ps = Some pls ∧ @ParsePes bits_impl (mjoin pls) = Ret (pes, n) ∧
    sid pes = 224 ∧ pts pes = 66690 ∧ dts pes = 63090 ∧ drop (Z.to_nat n) (mjoin pls) = Raw demo_frame.
Proof.
  apply (@ts_pack_demux bits_impl bits_impl_laws demo_frame);
    first [by vm_compute | vm_compute; congruence].
Defined.

Lemma ts_pts_top_bits_witness :
  ∃ out, packPts 2 1073741824 (go_make 8) = Ret (out ++ go_make 3) ∧
    readPts (out ++ []) = Ret (2, 0) ∧ (0 = 1073741824 ↔ 1073741824 < 1073741824).
Proof. apply (ts_pts_top_bits 2 1073741824 8 []); lia. Defined.
