(* ===== verification/Crc32.v ===== *)
(** * CRC-32/MPEG-2 (src/pkg/mpegts/crc32.go)

    The table-driven checksum of MPEG-2 sections and its equivalence with the
    bit-by-bit division by the polynomial of ISO 13818-1.  The program keeps
    the register with its bytes reversed and shifts it right. *)

From S2P Require Import Prelude.

Definition crc32table : list Z :=
  [0; 3072180484; 1849393673; 3643163405; 3698721811; 1802224919; 2991425050; 89147166;
   3102541862; 267438370; 3604384303; 1640713003; 1687882805; 3548826929; 178294332; 3183300408;
   1893405004; 3351695432; 518034245; 2851951169; 2897024351; 464573531; 3264649046; 1972065874;
   3358988650; 2133579886; 2785909603; 286284391; 339746169; 2740837501; 2054922096; 3446038132;
   3770033048; 1470882460; 2391646609; 965763221; 1019225995; 2346575503; 1392223618; 3857081478;
   1482369982; 4014402234; 912304567; 2172479667; 2217553837; 858844841; 3927354788; 1561029792;
   2423075540; 661713872; 4267094237; 1229681113; 1276851911; 4211537859; 572568782; 2503833034;
   679492338; 2677930998; 1186707707; 4054219263; 4109778657; 1139539941; 2597174504; 768638444;
   2003863092; 3228387120; 424346685; 2924922169; 2869330471; 471548707; 3309109294; 1914749226;
   3483209234; 2021674774; 2712013851; 381406495; 334203393; 2767604485; 2110785544; 3402483980;
   128685944; 2964739708; 1771050353; 3733836917; 3688731499; 1824543343; 3051753826; 50057318;
   3209076574; 140205658; 3514637655; 1717623891; 1664129869; 3559742025; 218831172; 3122059328;
   2546378156; 551249064; 4194117541; 1323361953; 1269866943; 4239220923; 629875638; 2459361970;
   791391626; 2553703566; 1091579779; 4128108167; 4083001753; 1145071773; 2640718736; 712764052;
   3877483744; 1342207460; 2300983017; 1044117485; 996913395; 2356572663; 1431319290; 3796759550;
   1609612486; 3907878338; 835403471; 2262237131; 2206644437; 882604497; 3988601564; 1520499672;
   4007660649; 1509805421; 2161872480; 935743332; 848693370; 2240530814; 1554877043; 3954199415;
   1443693647; 3775972683; 943097414; 2401978178; 2323316828; 1030144344; 3829432917; 1398621009;
   2654674213; 690412577; 4026572588; 1193106984; 1112348982; 4115716146; 745970495; 2607503931;
   651564291; 2446054407; 1223530250; 4293940750; 4204794128; 1304285204; 2493223705; 596005405;
   240529393; 3108761333; 1617800696; 3614469372; 3525323746; 1698556646; 3155929579; 184969455;
   3065718743; 27715283; 3632309726; 1872585946; 1791828932; 3721454272; 83272141; 3018547401;
   2123185853; 3381723065; 280411316; 2813033904; 2734373550; 367459242; 3435182247; 2078112163;
   3328194203; 1904080799; 2824582290; 524711318; 437662344; 2903241612; 1949151361; 3274731909;
   2576386653; 781011801; 4155181140; 1085720912; 1172737614; 4076556106; 735906887; 2629881155;
   561873531; 2522891135; 1329987698; 4166762870; 4245390952; 1242974060; 2469397601; 606979429;
   3914046225; 1582717461; 2272270616; 812505116; 893230850; 2183159302; 1527127307; 3961248783;
   1369871159; 3871035955; 1067258174; 2290143290; 2379257636; 986535456; 3823834413; 1425462313;
   2032576965; 3459999937; 387787724; 2684414664; 2773528022; 307064018; 3412799455; 2088169179;
   3251347939; 1993760999; 2951750634; 418243310; 498968048; 2862638324; 1938171897; 3298551549;
   167622793; 3202382221; 1741044352; 3504077700; 3582704794; 1654029726; 3148889747; 212729751;
   2970661039; 101544363; 3744150182; 1748431778; 1835447484; 3665524152; 56440501; 3024156593].

(** [crc32.Update] of hash/crc32 with a table of the caller: it complements the
    register before and after. *)
Definition u32_not (x : Z) : Z := Z.lxor x 4294967295.
Definition update_byte (tab : list Z) (crc v : Z) : Z :=
  Z.lxor (nth (Z.to_nat (Z.lxor (Z.land crc 255) v)) tab 0) (Z.shiftr crc 8).
Definition crc32_Update (crc : Z) (tab : list Z) (p : list Z) : Z :=
  u32_not (foldl (update_byte tab) (u32_not crc) p).

Definition CalcCrc32 (crc : Z) (buf : list Z) : Z :=
  u32_not (crc32_Update (u32_not crc) crc32table buf).

(** ** The reference: one bit at a time, most significant first *)

Definition poly : Z := 79764919.
Definition bit_step (c : Z) : Z := Z.lxor (Z.land (Z.shiftl c 1) 4294967295) (if Z.testbit c 31 then poly else 0).
Definition byte_step (c v : Z) : Z := Nat.iter 8 bit_step (Z.lxor c (Z.shiftl v 24)).
Definition crc32_mpeg2 (buf : list Z) : Z := foldl byte_step 4294967295 buf.

(** ** Registers byte by byte *)

Lemma land_lxor_l a b m : Z.land (Z.lxor a b) m = Z.lxor (Z.land a m) (Z.land b m).
Proof.
  apply Z.bits_inj'. intros i Hi. rewrite !Z.land_spec, !Z.lxor_spec, !Z.land_spec.
  by destruct (Z.testbit a i), (Z.testbit b i), (Z.testbit m i).
Qed.

Lemma mod_lxor n a b : 0 ≤ n → Z.lxor a b mod 2 ^ n = Z.lxor (a mod 2 ^ n) (b mod 2 ^ n).
Proof. intros. rewrite <- !Z.land_ones by done. apply land_lxor_l. Qed.

Lemma lxor_range n a b : 0 ≤ n → 0 ≤ a < 2 ^ n → 0 ≤ b < 2 ^ n → 0 ≤ Z.lxor a b < 2 ^ n.
Proof.
  intros Hn Ha Hb. rewrite <- (Z.mod_small a (2 ^ n)), <- (Z.mod_small b (2 ^ n)), <- mod_lxor by done.
  apply Z.mod_pos_bound. lia.
Qed.

Lemma be_bytes_lxor n a b : be_bytes n (Z.lxor a b) = zip_with Z.lxor (be_bytes n a) (be_bytes n b).
Proof.
  induction n as [|n IH]; [done|]. rewrite !be_bytes_S, IH. cbn [zip_with]. f_equal.
  replace (256 ^ Z.of_nat n) with (2 ^ (8 * Z.of_nat n)) by (rewrite Z.pow_mul_r by lia; done).
  rewrite <- !Z.shiftr_div_pow2, Z.shiftr_lxor by lia. by apply (mod_lxor 8).
Qed.

Lemma reverse_zip_with {A B C} (f : A → B → C) l k :
  length l = length k → reverse (zip_with f l k) = zip_with f (reverse l) (reverse k).
Proof.
  revert k. induction l as [|x l IH]; intros [|y k] H; try done. cbn [zip_with].
  injection H as H. rewrite !reverse_cons, IH, zip_with_app by (rewrite ?length_reverse; done). done.
Qed.

Lemma le_bytes_lxor n a b : le_bytes n (Z.lxor a b) = zip_with Z.lxor (le_bytes n a) (le_bytes n b).
Proof.
  unfold le_bytes. rewrite be_bytes_lxor. apply reverse_zip_with.
  by rewrite !be_bytes_length.
Qed.

(** The register of the program is the reversed register of the reference. *)
Definition same_crc (c C : Z) : Prop := le_bytes 4 c = be_bytes 4 C.

Lemma same_crc_lxor a b A B : same_crc a A → same_crc b B → same_crc (Z.lxor a b) (Z.lxor A B).
Proof. unfold same_crc. intros Ha Hb. by rewrite le_bytes_lxor, be_bytes_lxor, Ha, Hb. Qed.

(** [m0] is the most significant byte of the reference. *)
Lemma be4 C : be_bytes 4 C = [C / 16777216 mod 256; C / 65536 mod 256; C / 256 mod 256; C mod 256].
Proof.
  unfold be_bytes. change (256 ^ Z.of_nat 3) with 16777216. change (256 ^ Z.of_nat 2) with 65536.
  change (256 ^ Z.of_nat 1) with 256. change (256 ^ Z.of_nat 0) with 1. by rewrite Z.div_1_r.
Qed.
Lemma le4 c : le_bytes 4 c = [c mod 256; c / 256 mod 256; c / 65536 mod 256; c / 16777216 mod 256].
Proof. unfold le_bytes. by rewrite be4. Qed.

(** Shifting a byte out. *)
Lemma same_crc_shift c C :
  is_u32 c → is_u32 C → same_crc c C →
  Z.land c 255 = C / 16777216 ∧ same_crc (Z.shiftr c 8) (C mod 16777216 * 256).
Proof.
  intros Hc HC H. unfold same_crc in *. rewrite le4, be4 in *. injection H as H0 H1 H2 H3.
  change 255 with (2 ^ 8 - 1). rewrite land_mask, Z.shiftr_div_pow2 by lia. change (2 ^ 8) with 256.
  rewrite !Z.div_div by lia. change (256 * 256) with 65536. change (256 * 65536) with 16777216.
  change (256 * 16777216) with 4294967296. rewrite H0, H1, H2, H3, (Z.div_small c 4294967296) by lia.
  split; [zdm|]. clear. f_equal; [zdm|f_equal; [zdm|f_equal; [zdm|f_equal; zdm]]].
Qed.

(** ** One byte of the reference *)

Lemma bit_step_lxor a b : bit_step (Z.lxor a b) = Z.lxor (bit_step a) (bit_step b).
Proof.
  unfold bit_step. rewrite Z.shiftl_lxor, land_lxor_l, Z.lxor_spec.
  set (x := Z.land (Z.shiftl a 1) _). set (y := Z.land (Z.shiftl b 1) _).
  destruct (Z.testbit a 31), (Z.testbit b 31); cbn [xorb]; rewrite ?Z.lxor_0_r; try done.
  - rewrite Z.lxor_assoc, (Z.lxor_comm poly), Z.lxor_assoc, Z.lxor_nilpotent, Z.lxor_0_r. done.
  - by rewrite !Z.lxor_assoc, (Z.lxor_comm poly).
  - by rewrite Z.lxor_assoc.
Qed.

Lemma bit_steps_lxor n a b : Nat.iter n bit_step (Z.lxor a b) = Z.lxor (Nat.iter n bit_step a) (Nat.iter n bit_step b).
Proof.
  induction n as [|n IH]; [done|].
  assert (E : ∀ c, Nat.iter (S n) bit_step c = bit_step (Nat.iter n bit_step c)) by done.
  by rewrite !E, IH, bit_step_lxor.
Qed.

Lemma bit_step_small c : 0 ≤ c < 2147483648 → bit_step c = c * 2.
Proof.
  intros Hc. unfold bit_step. rewrite <- (Z.mod_small c (2 ^ 31)) at 2 by lia.
  rewrite Z.mod_pow2_bits_high, Z.lxor_0_r by lia.
  change 4294967295 with (2 ^ 32 - 1). rewrite land_mask, Z.shiftl_mul_pow2 by lia.
  change (2 ^ 1) with 2. apply Z.mod_small. lia.
Qed.

Lemma bit_steps_shift n c :
  0 ≤ c → c * 2 ^ Z.of_nat n < 4294967296 → Nat.iter n bit_step c = c * 2 ^ Z.of_nat n.
Proof.
  intros Hc. induction n as [|n IH]; intros Hn; [simpl; lia|].
  rewrite Nat2Z.inj_succ, Z.pow_succ_r in * by lia.
  change (Nat.iter (S n) bit_step c) with (bit_step (Nat.iter n bit_step c)).
  rewrite IH, bit_step_small by nia. ring.
Qed.

Lemma bit_steps_small c : 0 ≤ c < 16777216 → Nat.iter 8 bit_step c = c * 256.
Proof. intros Hc. apply (bit_steps_shift 8); lia. Qed.

Lemma bit_steps_top : ∀ i, is_u8 i →
  same_crc (nth (Z.to_nat i) crc32table 0) (Nat.iter 8 bit_step (i * 16777216)) ∧
  is_u32 (nth (Z.to_nat i) crc32table 0) ∧ is_u32 (Nat.iter 8 bit_step (i * 16777216)).
Proof.
  intros i Hi. assert (H : for_range 256 (λ i,
    let t := nth (Z.to_nat i) crc32table 0 in let m := Nat.iter 8 bit_step (i * 16777216) in
    bool_decide (le_bytes 4 t = be_bytes 4 m) && (0 <=? t) && (t <? 4294967296) && (0 <=? m) && (m <? 4294967296)) = true)
    by (vm_compute; reflexivity).
  apply (for_range_spec 256 _ H) in Hi. cbv beta zeta in Hi.
  repeat (apply andb_true_iff in Hi as [Hi ?]). apply bool_decide_eq_true in Hi. split; [done|]. lia.
Qed.

Lemma byte_step_split C v :
  is_u32 C → is_u8 v →
  byte_step C v = Z.lxor (Nat.iter 8 bit_step (Z.lxor (C / 16777216) v * 16777216)) (C mod 16777216 * 256).
Proof.
  intros HC Hv. unfold byte_step. rewrite <- (bit_steps_small (C mod 16777216)) by (apply Z.mod_pos_bound; lia).
  rewrite <- bit_steps_lxor. f_equal. change 16777216 with (2 ^ 24) at 2.
  rewrite <- (Z.shiftl_mul_pow2 _ 24), Z.shiftl_lxor by lia.
  rewrite Z.lxor_assoc, (Z.lxor_comm (Z.shiftl v 24)), <- Z.lxor_assoc. f_equal.
  rewrite Z.shiftl_mul_pow2 by lia. change (2 ^ 24) with 16777216.
  assert (Hlo : 0 ≤ C mod 16777216 < 2 ^ 24) by (apply Z.mod_pos_bound; lia).
  assert (E : Z.land (C / 16777216 * 2 ^ 24) (C mod 16777216) = 0).
  { apply Z.bits_inj'. intros i Hi. rewrite Z.land_spec, Z.bits_0. destruct (decide (i < 24)).
    - rewrite <- Z.shiftl_mul_pow2, Z.shiftl_spec_low by lia. done.
    - rewrite <- (Z.mod_small (C mod 16777216) (2 ^ 24)) by done.
      rewrite Z.mod_pow2_bits_high, andb_false_r by lia. done. }
  rewrite <- Z.add_nocarry_lxor by exact E. change (2 ^ 24) with 16777216. zdm.
Qed.

Lemma update_byte_same c C v :
  is_u32 c → is_u32 C → is_u8 v → same_crc c C →
  same_crc (update_byte crc32table c v) (byte_step C v) ∧
  is_u32 (update_byte crc32table c v) ∧ is_u32 (byte_step C v).
Proof.
  intros Hc HC Hv H. destruct (same_crc_shift c C Hc HC H) as [Hi Hs].
  rewrite byte_step_split by done. unfold update_byte. rewrite Hi.
  assert (Hx : is_u8 (Z.lxor (C / 16777216) v)) by (apply (lxor_range 8); [lia|zdm|done]).
  destruct (bit_steps_top _ Hx) as (T & T1 & T2).
  assert (0 ≤ Z.shiftr c 8 < 2 ^ 32) by (rewrite Z.shiftr_div_pow2 by lia; change (2 ^ 8) with 256; change (2 ^ 32) with 4294967296; zdm).
  assert (0 ≤ C mod 16777216 * 256 < 2 ^ 32) by (change (2 ^ 32) with 4294967296; zdm).
  split; [by apply same_crc_lxor|]. split; by apply (lxor_range 32).
Qed.

Lemma u32_not_not c : u32_not (u32_not c) = c.
Proof. unfold u32_not. by rewrite Z.lxor_assoc, Z.lxor_nilpotent, Z.lxor_0_r. Qed.

Lemma CalcCrc32_fold crc buf : CalcCrc32 crc buf = foldl (update_byte crc32table) crc buf.
Proof. unfold CalcCrc32, crc32_Update. by rewrite !u32_not_not. Qed.

Lemma fold_same buf : ∀ c C,
  is_bytes buf → is_u32 c → is_u32 C → same_crc c C →
  same_crc (foldl (update_byte crc32table) c buf) (foldl byte_step C buf) ∧
  is_u32 (foldl (update_byte crc32table) c buf) ∧ is_u32 (foldl byte_step C buf).
Proof.
  induction buf as [|v buf IH]; intros c C Hb Hc HC H; [done|]. apply is_bytes_cons in Hb as [Hv Hb].
  destruct (update_byte_same c C v Hc HC Hv H) as (H1 & H2 & H3). by apply IH.
Qed.

Lemma CalcCrc32_same buf :
  is_bytes buf → same_crc (CalcCrc32 4294967295 buf) (crc32_mpeg2 buf) ∧
  is_u32 (CalcCrc32 4294967295 buf) ∧ is_u32 (crc32_mpeg2 buf).
Proof. intros Hb. rewrite CalcCrc32_fold. by apply fold_same. Qed.

(** A register divided by itself. *)
Lemma residue C : is_u32 C → foldl byte_step C (be_bytes 4 C) = 0.
Proof.
  intros HC. rewrite be4. cbn [foldl].
  assert (Hz : ∀ D, is_u32 D → byte_step D (D / 16777216) = D mod 16777216 * 256).
  { intros D HD. rewrite byte_step_split by (try done; zdm). by rewrite Z.lxor_nilpotent. }
  assert (E0 : C / 16777216 mod 256 = C / 16777216) by zdm. rewrite E0, Hz by done.
  set (D1 := C mod 16777216 * 256).
  assert (H1 : is_u32 D1 ∧ C / 65536 mod 256 = D1 / 16777216) by (unfold D1; zdm).
  destruct H1 as [H1 ->]. rewrite Hz by done. set (D2 := D1 mod 16777216 * 256).
  assert (H2 : is_u32 D2 ∧ C / 256 mod 256 = D2 / 16777216) by (unfold D2, D1; zdm).
  destruct H2 as [H2 ->]. rewrite Hz by done. set (D3 := D2 mod 16777216 * 256).
  assert (H3 : is_u32 D3 ∧ C mod 256 = D3 / 16777216 ∧ D3 mod 16777216 = 0) by (unfold D3, D2, D1; zdm).
  destruct H3 as (H3 & -> & E3). by rewrite Hz, E3 by done.
Qed.

(** ** Properties *)

(** For every byte string the checksum lal appends to a section, stored in
    little-endian order, is the CRC-32/MPEG-2 of the section in the big-endian
    order of the standard, and a receiver that divides the section with its
    checksum gets zero. *)
Theorem crc32_table_reference buf :
  is_bytes buf →
  le_bytes 4 (CalcCrc32 4294967295 buf) = be_bytes 4 (crc32_mpeg2 buf) ∧
  crc32_mpeg2 (buf ++ le_bytes 4 (CalcCrc32 4294967295 buf)) = 0.
Proof.
  intros Hb. destruct (CalcCrc32_same buf Hb) as (E & _ & H). unfold same_crc in E. rewrite E.
  split; [done|]. unfold crc32_mpeg2 in *. rewrite foldl_app. by apply residue.
Qed.

Lemma crc32_table_reference_witness :
  le_bytes 4 (CalcCrc32 4294967295 [49; 50; 51]) = be_bytes 4 (crc32_mpeg2 [49; 50; 51]) ∧
  crc32_mpeg2 ([49; 50; 51] ++ le_bytes 4 (CalcCrc32 4294967295 [49; 50; 51])) = 0.
Proof. apply crc32_table_reference. repeat constructor; lia. Defined.
