(* ===== verification/Psi.v ===== *)
(** * MPEG-TS tables (src/pkg/mpegts/psi.go, pat.go, pmt.go)

    The program association and program map tables: packing a section with its
    checksum, the two packets lal sends ahead of a stream, and parsing. *)

From S2P Require Import Prelude Naza Bits Crc32 RtmpMsg.
From S2P Require TsPack.

Definition TsPsiIdPas : Z := 0.
Definition TsPsiIdPms : Z := 2.
Definition DescriptorTagRegistration : Z := 5.
Definition DescriptorTagExtension : Z := 127.
Definition opusIdentifier : Z := 1332770163.
Definition StreamTypeUnknown : Z := 0.
Definition StreamTypePrivate : Z := 6.
Definition StreamTypeAac : Z := 15.
Definition StreamTypeAvc : Z := 27.
Definition StreamTypeHevc : Z := 36.

(** ** Sections *)

Record DescriptorRegistration := mkRegistration {
  AdditionalIdentificationInfo : list Z;
  FormatIdentifier : Z;
}.

(** The supplementary audio of an extension is never written. *)
Record DescriptorExtension := mkExtension {
  extTag : Z;
  extUnknown : list Z;
}.

Record Descriptor := mkDescriptor {
  descLength : Z;
  descTag : Z;
  Registration : DescriptorRegistration;
  Extension : DescriptorExtension;
}.

Record PatProgramElement := mkPatPe {
  pn : Z;
  pmpid : Z;
}.

Record PmtProgramElement := mkPmtPe {
  StreamType : Z;
  pePid : Z;
  peLength : Z;
  Descriptors : list Descriptor;
}.

Record PsiTableHeader := mkPsiHeader {
  tableId : Z;
  sectionSyntaxIndicator : Z;
}.

Record PsiTableSyntaxSection := mkPsiSyntax {
  tableIdExtension : Z;
  versionNumber : Z;
  currentNextIndicator : Z;
  sectionNumber : Z;
  lastSectionNumber : Z;
}.

Record PmtSpecificData := mkPmtData {
  pcrPid : Z;
  programInfoLength : Z;
  pmtPes : list PmtProgramElement;
}.

Record PsiSection := mkPsi {
  pointerFileld : Z;
  header : PsiTableHeader;
  section : PsiTableSyntaxSection;
  patPes : list PatProgramElement;
  pmtData : PmtSpecificData;
}.

(** *** Lengths, in the widths of the code *)

Definition calcDescriptorRegistrationLength (d : DescriptorRegistration) : Z :=
  u8 (4 + len (AdditionalIdentificationInfo d)).
Definition calcDescriptorExtensionLength (d : DescriptorExtension) : Z := u8 (1 + len (extUnknown d)).

Definition calcDescriptorLength (d : Descriptor) : Z :=
  if descLength d =? 0 then 0
  else if descTag d =? DescriptorTagRegistration then calcDescriptorRegistrationLength (Registration d)
  else if descTag d =? DescriptorTagExtension then calcDescriptorExtensionLength (Extension d)
  else 0.

Definition calcDescriptorsLength (ds : list Descriptor) : Z :=
  foldl (λ length d, u16 (u16 (length + 2) + calcDescriptorLength d)) 0 ds.

Definition calaPatSectionLength (psi : PsiSection) : Z := u16 (4 * len (patPes psi)).

Definition calaPmtSectionLength (psi : PsiSection) : Z :=
  foldl (λ length pe, let length := u16 (length + 5) in
    match Descriptors pe with [] => length | ds => u16 (length + calcDescriptorsLength ds) end)
    4 (pmtPes (pmtData psi)).

Definition calcPsiSectionLength (psi : PsiSection) : Z :=
  let id := tableId (header psi) in
  let length := if (id =? TsPsiIdPas) || (id =? TsPsiIdPms) then 5 else 0 in
  let length :=
    if id =? TsPsiIdPas then u16 (length + calaPatSectionLength psi)
    else if id =? TsPsiIdPms then u16 (length + calaPmtSectionLength psi) else length in
  u16 (length + 4).

(** *** Writing *)

Section Write.
Context {BI : NazaBits}.

Definition writeDescriptorRegistration (d : DescriptorRegistration) (bw : BitWriter) : BitWriter :=
  let bw := WriteBits 16 (Z.land (Z.shiftr (FormatIdentifier d) 16) 65535) bw in
  let bw := WriteBits 16 (Z.land (FormatIdentifier d) 65535) bw in
  foldl (λ bw b, WriteBits 8 b bw) bw (AdditionalIdentificationInfo d).

Definition writeDescriptorExtension (d : DescriptorExtension) (bw : BitWriter) : BitWriter :=
  foldl (λ bw b, WriteBits 8 b bw) (WriteBits 8 (extTag d) bw) (extUnknown d).

Definition writeDescriptor (bw : BitWriter) (d : Descriptor) : BitWriter :=
  let bw := WriteBits 8 (descTag d) bw in
  let bw := WriteBits 8 (calcDescriptorLength d) bw in
  if descTag d =? DescriptorTagRegistration then writeDescriptorRegistration (Registration d) bw
  else if descTag d =? DescriptorTagExtension then writeDescriptorExtension (Extension d) bw
  else bw.

Definition writeDescriptorsWithLength (bw : BitWriter) (dps : list Descriptor) : BitWriter :=
  let bw := WriteBits 4 255 bw in
  let bw := WriteBits 12 (calcDescriptorsLength dps) bw in
  foldl writeDescriptor bw dps.

Definition writePatElement (bw : BitWriter) (pe : PatProgramElement) : BitWriter :=
  let bw := WriteBits 16 (pn pe) bw in
  let bw := WriteBits 3 255 bw in
  WriteBits 13 (pmpid pe) bw.

Definition writePatSection (psi : PsiSection) (bw : BitWriter) : BitWriter :=
  foldl writePatElement bw (patPes psi).

Definition writePmtElement (bw : BitWriter) (pe : PmtProgramElement) : BitWriter :=
  let bw := WriteBits 8 (StreamType pe) bw in
  let bw := WriteBits 3 255 bw in
  let bw := WriteBits 13 (pePid pe) bw in
  writeDescriptorsWithLength bw (Descriptors pe).

Definition writePmtSection (psi : PsiSection) (bw : BitWriter) : BitWriter :=
  let bw := WriteBits 3 255 bw in
  let bw := WriteBits 13 (pcrPid (pmtData psi)) bw in
  let bw := WriteBits 4 255 bw in
  let bw := WriteBits 12 (programInfoLength (pmtData psi)) bw in
  foldl writePmtElement bw (pmtPes (pmtData psi)).

Definition writePsiTableHeader (psi : PsiSection) (bw : BitWriter) : BitWriter :=
  let bw := WriteBits 8 (tableId (header psi)) bw in
  let bw := WriteBits 1 (sectionSyntaxIndicator (header psi)) bw in
  let bw := WriteBits 1 0 bw in
  let bw := WriteBits 2 255 bw in
  WriteBits 12 (calcPsiSectionLength psi) bw.

Definition writePsiTableSyntaxSectionHeader (psi : PsiSection) (bw : BitWriter) : BitWriter :=
  let s := section psi in
  let bw := WriteBits 16 (tableIdExtension s) bw in
  let bw := WriteBits 2 255 bw in
  let bw := WriteBits 5 (versionNumber s) bw in
  let bw := WriteBits 1 (currentNextIndicator s) bw in
  let bw := WriteBits 8 (sectionNumber s) bw in
  WriteBits 8 (lastSectionNumber s) bw.

Definition writePsiTableSyntaxSectionData (psi : PsiSection) (bw : BitWriter) : BitWriter :=
  let id := tableId (header psi) in
  if id =? TsPsiIdPas then writePatSection psi bw
  else if id =? TsPsiIdPms then writePmtSection psi bw else bw.

(** [writePsiTableHeader] also stores the length it writes in the section. *)
Definition Pack {B : Bele} (psi : PsiSection) : outcome (Z * list Z) :=
  let length := calcPsiSectionLength psi in
  let psiSection := go_make (u16 (4 + length)) in
  let bw := NewBitWriter psiSection in
  let bw := WriteBits 8 (pointerFileld psi) bw in
  let bw := writePsiTableHeader psi bw in
  let bw := writePsiTableSyntaxSectionHeader psi bw in
  let bw := writePsiTableSyntaxSectionData psi bw in
  let psiSection := bwSlice bw in
  body ← go_slice psiSection 1 (len psiSection - 4);
  let crc := CalcCrc32 4294967295 body in
  psiSection ← go_upd_from psiSection (u16 (u16 (4 + length) - 4)) (LePutUint32 crc);
  Ret (u16 (4 + length), psiSection).

(** ** The two packets *)

Definition NewPsi : PsiSection :=
  mkPsi 0 (mkPsiHeader 0 0) (mkPsiSyntax 0 0 0 0 0) [] (mkPmtData 0 0 []).

(** [PackPat] and [PackPmt] put a section into a packet and fill it up. *)
Definition psi_packet {B : Bele} (tsheader : list Z) (psi : PsiSection) : outcome (list Z) :=
  let ts := go_copy (go_make 188) tsheader in
  '(psilen, psiData) ← Pack psi;
  ts ← go_copy_at ts 4 psiData;
  TsPack.fill_ff (Z.to_nat (188 - 4 - psilen)) ts (4 + psilen).

Definition pat_psi : PsiSection :=
  mkPsi 0 (mkPsiHeader TsPsiIdPas 1) (mkPsiSyntax 1 0 1 0 0) [mkPatPe 1 TsPack.PidPmt] (mkPmtData 0 0 []).

Definition PackPat {B : Bele} : outcome (list Z) := psi_packet [71; 64; 0; 16] pat_psi.

Definition no_registration : DescriptorRegistration := mkRegistration [] 0.
Definition no_extension : DescriptorExtension := mkExtension 0 [].

Definition opus_descriptors : list Descriptor :=
  [mkDescriptor 4 DescriptorTagRegistration (mkRegistration [] opusIdentifier) no_extension;
   mkDescriptor 2 DescriptorTagExtension no_registration (mkExtension 128 [2])].

Definition video_elements (videoCodecId : Z) : list PmtProgramElement :=
  let videoStreamType :=
    if videoCodecId =? RtmpCodecIdAvc then StreamTypeAvc
    else if videoCodecId =? RtmpCodecIdHevc then StreamTypeHevc else StreamTypeUnknown in
  if negb (videoStreamType =? StreamTypeUnknown) then [mkPmtPe videoStreamType TsPack.PidVideo 0 []] else [].

Definition audio_elements (audioCodecId : Z) : list PmtProgramElement :=
  let audioStreamType :=
    if audioCodecId =? RtmpSoundFormatAac then StreamTypeAac
    else if audioCodecId =? RtmpSoundFormatOpus then StreamTypePrivate else StreamTypeUnknown in
  if negb (audioStreamType =? StreamTypeUnknown) then
    [mkPmtPe audioStreamType TsPack.PidAudio 0
       (if audioCodecId =? RtmpSoundFormatOpus then opus_descriptors else [])]
  else [].

Definition pmt_psi (videoCodecId audioCodecId : Z) : PsiSection :=
  mkPsi 0 (mkPsiHeader TsPsiIdPms 1) (mkPsiSyntax 1 0 1 0 0) []
    (mkPmtData 256 0 (video_elements videoCodecId ++ audio_elements audioCodecId)).

Definition PackPmt {B : Bele} (videoCodecId audioCodecId : Z) : outcome (list Z) :=
  psi_packet [71; 80; 1; 16] (pmt_psi videoCodecId audioCodecId).
End Write.

(** ** Parsing *)

Record Pat := mkPat {
  pat_tid : Z;
  pat_ssi : Z;
  pat_sl : Z;
  pat_tsi : Z;
  pat_vn : Z;
  pat_cni : Z;
  pat_sn : Z;
  pat_lsn : Z;
  ppes : list PatProgramElement;
  pat_crc32 : Z;
}.

Record Pmt := mkPmt {
  pmt_tid : Z;
  pmt_ssi : Z;
  pmt_sl : Z;
  pmt_pn : Z;
  pmt_vn : Z;
  pmt_cni : Z;
  pmt_sn : Z;
  pmt_lsn : Z;
  pmt_pp : Z;
  pmt_pil : Z;
  ProgramElements : list PmtProgramElement;
}.

Section Parse.
Context {BI : NazaBits}.

(** [for i := uint16(0); i < length; i += 4] *)
Fixpoint pat_loop (fuel : nat) (i length : Z) (br : BitReader) (acc : list PatProgramElement)
    : outcome (list PatProgramElement * BitReader) :=
  if negb (i <? length) then Ret (acc, br) else
  match fuel with
  | O => Fail OutOfFuel
  | S fuel =>
      let '(pn, br) := rbits 16 br in
      let br := rskip 3 br in
      let '(pmpid, br) := rbits 13 br in
      pat_loop fuel (u16 (i + 4)) length br (acc ++ [mkPatPe pn pmpid])
  end.

Definition ParsePat (fuel : nat) (b : list Z) : outcome Pat :=
  let br := NewBitReader b in
  let '(tid, br) := rbits 8 br in
  let '(ssi, br) := rbits 1 br in
  let br := rskip 3 br in
  let '(sl, br) := rbits 12 br in
  let '(tsi, br) := rbits 16 br in
  let br := rskip 2 br in
  let '(vn, br) := rbits 5 br in
  let '(cni, br) := rbits 1 br in
  let '(sn, br) := rbits 8 br in
  let '(lsn, br) := rbits 8 br in
  '(pes, br) ← pat_loop fuel 0 (u16 (sl - 9)) br [];
  let '(crc, br) := rbits 32 br in
  Ret (mkPat tid ssi sl tsi vn cni sn lsn pes crc).

Definition pat_SearchPid (pat : Pat) (pid : Z) : bool := existsb (λ ppe, pid =? pmpid ppe) (ppes pat).

(** A descriptor of [n] bytes is skipped as [n] bits. *)
Fixpoint pmt_loop (fuel : nat) (i length : Z) (br : BitReader) (acc : list PmtProgramElement)
    : outcome (list PmtProgramElement) :=
  if negb (i <? length) then Ret acc else
  match fuel with
  | O => Fail OutOfFuel
  | S fuel =>
      let '(ty, br) := rbits 8 br in
      let br := rskip 3 br in
      let '(pid, br) := rbits 13 br in
      let br := rskip 4 br in
      let '(l, br) := rbits 12 br in
      let br := if negb (l =? 0) then rskip l br else br in
      pmt_loop fuel (u16 (i + 5)) length br (acc ++ [mkPmtPe ty pid l []])
  end.

Definition ParsePmt (fuel : nat) (b : list Z) : outcome Pmt :=
  let br := NewBitReader b in
  let '(tid, br) := rbits 8 br in
  let '(ssi, br) := rbits 1 br in
  let br := rskip 3 br in
  let '(sl, br) := rbits 12 br in
  let '(pn, br) := rbits 16 br in
  let br := rskip 2 br in
  let '(vn, br) := rbits 5 br in
  let '(cni, br) := rbits 1 br in
  let '(sn, br) := rbits 8 br in
  let '(lsn, br) := rbits 8 br in
  let br := rskip 3 br in
  let '(pp, br) := rbits 13 br in
  let br := rskip 4 br in
  let '(pil, br) := rbits 12 br in
  let br := if negb (pil =? 0) then (ReadBytes pil br).2 else br in
  pes ← pmt_loop fuel 0 (u16 (sl - 13)) br [];
  Ret (mkPmt tid ssi sl pn vn cni sn lsn pp pil pes).

Definition pmt_SearchPid (pmt : Pmt) (pid : Z) : option PmtProgramElement :=
  List.find (λ ppe, pePid ppe =? pid) (ProgramElements pmt).
End Parse.

(** ** What the writers emit *)

Section Emits.
Context {BI : NazaBits} {HBI : NazaBitsLaws BI}.

Definition pat_element_bits (pe : PatProgramElement) : list bool :=
  num_bits 16 (pn pe) ++ num_bits 3 255 ++ num_bits 13 (pmpid pe).

Definition pmt_element_bits (pe : PmtProgramElement) : list bool :=
  num_bits 8 (StreamType pe) ++ num_bits 3 255 ++ num_bits 13 (pePid pe) ++
  num_bits 4 255 ++ num_bits 12 0.

Definition pmt_bits (d : PmtSpecificData) : list bool :=
  num_bits 3 255 ++ num_bits 13 (pcrPid d) ++ num_bits 4 255 ++ num_bits 12 (programInfoLength d) ++
  mjoin (pmt_element_bits <$> pmtPes d).

(** The section from the table id to the end of its data, [n] data bytes. *)
Definition section_bits (psi : PsiSection) (n : Z) (data : list bool) : list bool :=
  let h := header psi in let s := section psi in
  num_bits 8 (tableId h) ++ num_bits 1 (sectionSyntaxIndicator h) ++ num_bits 1 0 ++ num_bits 2 255 ++
  num_bits 12 (9 + n) ++ num_bits 16 (tableIdExtension s) ++ num_bits 2 255 ++
  num_bits 5 (versionNumber s) ++ num_bits 1 (currentNextIndicator s) ++ num_bits 8 (sectionNumber s) ++
  num_bits 8 (lastSectionNumber s) ++ data.

Lemma emits_pat_element pe : emits (λ w, writePatElement w pe) (pat_element_bits pe).
Proof. eapply emits_exact; [unfold writePatElement; emit|]. by rewrite <- !app_assoc. Qed.

Lemma emits_pmt_element pe :
  Descriptors pe = [] → emits (λ w, writePmtElement w pe) (pmt_element_bits pe).
Proof.
  intros Hd. eapply emits_exact.
  - unfold writePmtElement, writeDescriptorsWithLength. rewrite Hd. cbn [foldl calcDescriptorsLength]. emit.
  - by rewrite <- !app_assoc.
Qed.

Lemma emits_pmt psi :
  Forall (λ pe, Descriptors pe = []) (pmtPes (pmtData psi)) → emits (writePmtSection psi) (pmt_bits (pmtData psi)).
Proof.
  intros Hd. eapply emits_exact.
  - unfold writePmtSection. apply (emits_then _ (λ w, foldl writePmtElement w _)); [emit|].
    apply emits_foldl. eapply Forall_impl; [exact Hd|]. intros pe. apply emits_pmt_element.
  - unfold pmt_bits. rewrite <- !app_assoc. done.
Qed.

Lemma section_bits_length psi n data : length (section_bits psi n data) = (64 + length data)%nat.
Proof. unfold section_bits. repeat rewrite ?length_app, ?num_bits_length. lia. Qed.

(** A packed section: the pointer field, the section and its checksum. *)
Definition section_body (psi : PsiSection) (n : nat) (data : list bool) : list Z :=
  pack_bits (8 + n) (section_bits psi (Z.of_nat n) data).

Definition with_crc (body : list Z) : list Z := body ++ le_bytes 4 (CalcCrc32 4294967295 body).

Lemma with_crc_residue body : is_bytes body → crc32_mpeg2 (with_crc body) = 0.
Proof.
  intros Hb. destruct (CalcCrc32_same body Hb) as (H & _ & HC). unfold same_crc in H.
  unfold with_crc. rewrite H. unfold crc32_mpeg2. rewrite foldl_app. by apply residue.
Qed.

Lemma section_body_bytes psi n data : length data = (8 * n)%nat → is_bytes (section_body psi n data).
Proof. intros Hd. apply is_bytes_pack_bits. rewrite section_bits_length. lia. Qed.

Lemma packed_zeros p (body : list bool) n k :
  is_u8 p → length body = (8 * n)%nat →
  pack_bits (1 + (n + k)) ((num_bits 8 p ++ body) ++ replicate (8 * k) false) =
  p :: pack_bits n body ++ replicate k 0.
Proof.
  intros Hp Hb. rewrite <- app_assoc. cbn [pack_bits Nat.add].
  rewrite take_app_length', drop_app_length', bits_val_num_small by (by rewrite ?num_bits_length). f_equal.
  rewrite <- (byte_bits_pack n body) at 1 by done. rewrite <- (pack_bits_length n body) at 1.
  rewrite pack_bits_app_bytes by (apply is_bytes_pack_bits; lia). f_equal.
  clear. induction k as [|k IH]; [done|]. replace (8 * S k)%nat with (8 + 8 * k)%nat by lia.
  cbn [replicate Nat.add pack_bits]. rewrite <- IH at 1. done.
Qed.

Lemma Pack_spec {B : Bele} {HB : BeleLaws B} psi (n : nat) data :
  is_u8 (pointerFileld psi) → length data = (8 * n)%nat → Z.of_nat n ≤ 4000 →
  emits (writePsiTableSyntaxSectionData psi) data → calcPsiSectionLength psi = 9 + Z.of_nat n →
  Pack psi = Ret (13 + Z.of_nat n, pointerFileld psi :: with_crc (section_body psi n data)).
Proof.
  intros Hp Hd Hn Hw Hl. unfold Pack. rewrite Hl, !u16_small by lia.
  set (sb := section_bits psi (Z.of_nat n) data).
  assert (He : emits (λ w, writePsiTableSyntaxSectionData psi (writePsiTableSyntaxSectionHeader psi
     (writePsiTableHeader psi (WriteBits 8 (pointerFileld psi) w)))) (num_bits 8 (pointerFileld psi) ++ sb)).
  { eapply emits_exact.
    - apply (emits_then (λ w, writePsiTableSyntaxSectionHeader psi (writePsiTableHeader psi
        (WriteBits 8 (pointerFileld psi) w)))); [|exact Hw].
      unfold writePsiTableSyntaxSectionHeader, writePsiTableHeader. cbv zeta. emit.
    - unfold sb, section_bits. rewrite Hl, <- !app_assoc. done. }
  assert (Hs : bwSlice (writePsiTableSyntaxSectionData psi (writePsiTableSyntaxSectionHeader psi
     (writePsiTableHeader psi (WriteBits 8 (pointerFileld psi) (NewBitWriter (go_make (4 + (9 + Z.of_nat n))))))))
     = pointerFileld psi :: section_body psi n data ++ go_make 4).
  { erewrite bw_slice; [|eapply (He _ _ []); [apply bw_new; lia|]].
    - unfold section_body. fold sb. rewrite <- (packed_zeros _ sb (8 + n) 4); [|done|].
      + f_equal; [lia|]. rewrite app_nil_l. f_equal. f_equal. rewrite length_app, num_bits_length.
        unfold sb. rewrite section_bits_length. lia.
      + unfold sb. rewrite section_bits_length. lia.
    - rewrite length_app, num_bits_length. unfold sb. rewrite section_bits_length. cbn [length]. lia. }
  rewrite Hs. pose proof (section_body_bytes psi n data Hd) as Hb.
  destruct (CalcCrc32_same _ Hb) as (_ & HC & _).
  assert (El : length (section_body psi n data) = (8 + n)%nat) by apply pack_bits_length.
  assert (Eg : ∀ p b, go_slice (p :: b ++ go_make 4) 1 (len (p :: b ++ go_make 4) - 4) = Ret b).
  { intros p b. apply (go_slice_app [p]); len_lia. }
  rewrite Eg. cbn [mbind outcome_bind]. rewrite app_comm_cons.
  rewrite (go_upd_from_app _ _ (le_bytes 4 (CalcCrc32 4294967295 (section_body psi n data)))).
  - cbn [mbind outcome_bind]. unfold with_crc. f_equal. f_equal. lia.
  - len_lia.
  - rewrite LePutUint32_Ret; [|len_lia|done]. done.
Qed.
End Emits.

(** ** Parsing what was packed *)

Section Tables.
Context {BI : NazaBits} {HBI : NazaBitsLaws BI} {B : Bele} {HB : BeleLaws B}.

Definition pat_element_ok (pe : PatProgramElement) : Prop := is_u16 (pn pe) ∧ 0 ≤ pmpid pe < 8192.

Definition syntax_ok (psi : PsiSection) : Prop :=
  is_u8 (pointerFileld psi) ∧ 0 ≤ sectionSyntaxIndicator (header psi) < 2 ∧
  is_u16 (tableIdExtension (section psi)) ∧ 0 ≤ versionNumber (section psi) < 32 ∧
  0 ≤ currentNextIndicator (section psi) < 2 ∧ is_u8 (sectionNumber (section psi)) ∧
  is_u8 (lastSectionNumber (section psi)).

Lemma pat_elements_length pes : length (mjoin (pat_element_bits <$> pes)) = (8 * (4 * length pes))%nat.
Proof.
  induction pes as [|pe pes IH]; [done|].
  change (mjoin (pat_element_bits <$> pe :: pes)) with (pat_element_bits pe ++ mjoin (pat_element_bits <$> pes)).
  rewrite length_app, IH. unfold pat_element_bits. rewrite !length_app, !num_bits_length. cbn [length]. lia.
Qed.

Lemma pmt_elements_length pes : length (mjoin (pmt_element_bits <$> pes)) = (8 * (5 * length pes))%nat.
Proof.
  induction pes as [|pe pes IH]; [done|].
  change (mjoin (pmt_element_bits <$> pe :: pes)) with (pmt_element_bits pe ++ mjoin (pmt_element_bits <$> pes)).
  rewrite length_app, IH. unfold pmt_element_bits. rewrite !length_app, !num_bits_length. cbn [length]. lia.
Qed.

Lemma pmt_bits_length d : length (pmt_bits d) = (8 * (4 + 5 * length (pmtPes d)))%nat.
Proof. unfold pmt_bits. rewrite !length_app, pmt_elements_length, !num_bits_length. lia. Qed.

Lemma pat_loop_spec pes : ∀ fuel i length br acc rest,
  Forall pat_element_ok pes → (Datatypes.length pes ≤ fuel)%nat → 0 ≤ i → length < 65000 →
  length = i + 4 * len pes → br_bits br = mjoin (pat_element_bits <$> pes) ++ rest →
  ∃ br', pat_loop fuel i length br acc = Ret (acc ++ pes, br') ∧ br_bits br' = rest.
Proof.
  induction pes as [|pe pes IH]; intros fuel i length br acc rest Hok Hf Hi Hl Hlen Hbr; cbn [Datatypes.length] in *.
  - exists br. rewrite app_nil_r. unfold pat_loop. destruct fuel; go_test; done.
  - destruct fuel as [|fuel]; [lia|]. inversion Hok as [|? ? [Hpn Hpid] Hok']; subst x l.
    change (mjoin (pat_element_bits <$> pe :: pes)) with
      (pat_element_bits pe ++ mjoin (pat_element_bits <$> pes)) in Hbr.
    unfold pat_element_bits at 1 in Hbr. rewrite <- !app_assoc in Hbr. cbn [pat_loop].
    rewrite (proj2 (Z.ltb_lt _ _)) by lia. cbn [negb].
    read_field Hbr. skip_field Hbr. read_field Hbr.
    rewrite u16_small by lia. destruct (IH fuel (i + 4) length br2 (acc ++ [mkPatPe (pn pe) (pmpid pe)]) rest)
      as (br' & E & H'); [done|lia|lia|lia|lia|done|].
    exists br'. rewrite E, <- app_assoc. by destruct pe.
Qed.

(** An elementary stream without descriptors. *)
Definition pmt_element_ok (pe : PmtProgramElement) : Prop :=
  is_u8 (StreamType pe) ∧ 0 ≤ pePid pe < 8192 ∧ peLength pe = 0 ∧ Descriptors pe = [].

Lemma pmt_loop_spec pes : ∀ fuel i length br acc rest,
  Forall pmt_element_ok pes → (Datatypes.length pes ≤ fuel)%nat → 0 ≤ i → length < 65000 →
  length = i + 5 * len pes → br_bits br = mjoin (pmt_element_bits <$> pes) ++ rest →
  pmt_loop fuel i length br acc = Ret (acc ++ pes).
Proof.
  induction pes as [|pe pes IH]; intros fuel i length br acc rest Hok Hf Hi Hl Hlen Hbr; cbn [Datatypes.length] in *.
  - rewrite app_nil_r. unfold pmt_loop. destruct fuel; go_test; done.
  - destruct fuel as [|fuel]; [lia|].
    inversion Hok as [|? ? (Hty & Hpid & Hpl & Hds) Hok']; subst x l.
    change (mjoin (pmt_element_bits <$> pe :: pes)) with
      (pmt_element_bits pe ++ mjoin (pmt_element_bits <$> pes)) in Hbr.
    unfold pmt_element_bits at 1 in Hbr. rewrite <- !app_assoc in Hbr. cbn [pmt_loop].
    rewrite (proj2 (Z.ltb_lt _ _)) by lia. cbn [negb].
    read_field Hbr. skip_field Hbr. read_field Hbr. skip_field Hbr. read_field Hbr.
    rewrite u16_small by lia. cbn [Z.eqb negb].
    rewrite (IH fuel (i + 5) length br4 (acc ++ [mkPmtPe (StreamType pe) (pePid pe) 0 []]) rest)
      by (done || lia).
    rewrite <- app_assoc. destruct pe as [ty pid l ds]. cbn in Hpl, Hds. by subst.
Qed.

Lemma ParsePat_spec psi (n : nat) rest fuel :
  syntax_ok psi → tableId (header psi) = 0 → Forall pat_element_ok (patPes psi) →
  len (patPes psi) ≤ 1000 → (length (patPes psi) ≤ fuel)%nat → n = (4 * length (patPes psi))%nat →
  let s := with_crc (section_body psi n (mjoin (pat_element_bits <$> patPes psi))) in
  ParsePat fuel (s ++ rest) =
  Ret (mkPat 0 (sectionSyntaxIndicator (header psi)) (9 + Z.of_nat n) (tableIdExtension (section psi))
         (versionNumber (section psi)) (currentNextIndicator (section psi)) (sectionNumber (section psi))
         (lastSectionNumber (section psi)) (patPes psi) (be_val (drop (8 + n) s))).
Proof.
  intros (_ & Hssi & Htsi & Hvn & Hcni & Hsn & Hlsn) Hid Hpes Hlen Hfuel Hn. cbv zeta.
  set (body := section_body _ _ _).
  pose proof (br_new (with_crc body ++ rest)) as H. unfold ParsePat.
  unfold with_crc in H at 2. rewrite !byte_bits_app in H. unfold body at 2 in H. unfold section_body in H.
  rewrite byte_bits_pack in H by (rewrite section_bits_length, pat_elements_length; lia).
  unfold section_bits in H. rewrite Hid, <- !app_assoc in H.
  change (num_bits 1 0 ++ num_bits 2 255 ++ ?x) with (num_bits 3 3 ++ x) in H.
  read_field H. read_field H. skip_field H. read_field H. read_field H. skip_field H.
  do 4 read_field H. rewrite u16_small by lia.
  edestruct (pat_loop_spec (patPes psi) fuel 0 (9 + Z.of_nat n - 9)) as (br' & E & H');
    [done|done|lia|lia|lia|exact H|].
  rewrite E. clear E H. cbn [mbind outcome_bind app].
  assert (Hc : byte_bits (le_bytes 4 (CalcCrc32 4294967295 body)) =
    num_bits 32 (be_val (le_bytes 4 (CalcCrc32 4294967295 body)))).
  { by rewrite byte_bits_val, le_bytes_length by apply is_bytes_le_bytes. }
  rewrite Hc in H'.
  assert (Hb : is_bytes (le_bytes 4 (CalcCrc32 4294967295 body))) by apply is_bytes_le_bytes.
  pose proof (be_val_range _ Hb) as Hr. rewrite le_bytes_length in Hr. change (256 ^ Z.of_nat 4) with (2 ^ 32) in Hr.
  read_field H'. unfold with_crc. rewrite drop_app_length' by (symmetry; apply pack_bits_length). done.
Qed.

Lemma ParsePmt_spec psi (n : nat) rest fuel :
  let d := pmtData psi in
  syntax_ok psi → tableId (header psi) = 2 → Forall pmt_element_ok (pmtPes d) →
  0 ≤ pcrPid d < 8192 → programInfoLength d = 0 →
  len (pmtPes d) ≤ 800 → (length (pmtPes d) ≤ fuel)%nat → n = (4 + 5 * length (pmtPes d))%nat →
  ParsePmt fuel (with_crc (section_body psi n (pmt_bits d)) ++ rest) =
  Ret (mkPmt 2 (sectionSyntaxIndicator (header psi)) (9 + Z.of_nat n) (tableIdExtension (section psi))
         (versionNumber (section psi)) (currentNextIndicator (section psi)) (sectionNumber (section psi))
         (lastSectionNumber (section psi)) (pcrPid d) 0 (pmtPes d)).
Proof.
  cbv zeta. intros (_ & Hssi & Htsi & Hvn & Hcni & Hsn & Hlsn) Hid Hpes Hpcr Hpil Hlen Hfuel Hn.
  set (body := section_body _ _ _).
  pose proof (br_new (with_crc body ++ rest)) as H. unfold ParsePmt.
  unfold with_crc in H at 2. rewrite !byte_bits_app in H. unfold body at 2 in H. unfold section_body in H.
  rewrite byte_bits_pack in H by (rewrite section_bits_length, pmt_bits_length; lia).
  unfold section_bits, pmt_bits in H. rewrite Hid, Hpil, <- !app_assoc in H.
  change (num_bits 1 0 ++ num_bits 2 255 ++ ?x) with (num_bits 3 3 ++ x) in H.
  read_field H. read_field H. skip_field H. read_field H. read_field H. skip_field H.
  do 4 read_field H. skip_field H. read_field H. skip_field H. read_field H.
  rewrite u16_small by lia. cbn [Z.eqb negb].
  erewrite (pmt_loop_spec (pmtPes (pmtData psi))); [|done|done|lia|lia|lia|exact H]. done.
Qed.

Lemma Pack_pat psi :
  is_u8 (pointerFileld psi) → tableId (header psi) = 0 → len (patPes psi) ≤ 1000 →
  Pack psi = Ret (13 + 4 * len (patPes psi), pointerFileld psi ::
    with_crc (section_body psi (4 * length (patPes psi)) (mjoin (pat_element_bits <$> patPes psi)))).
Proof.
  intros Hp Hid Hl. rewrite (Pack_spec psi (4 * length (patPes psi)) (mjoin (pat_element_bits <$> patPes psi))).
  - do 2 f_equal. lia.
  - done.
  - by rewrite pat_elements_length.
  - lia.
  - unfold writePsiTableSyntaxSectionData. rewrite Hid. apply emits_foldl, Forall_forall. intros pe _.
    apply emits_pat_element.
  - unfold calcPsiSectionLength, calaPatSectionLength. rewrite Hid. cbn [Z.eqb orb TsPsiIdPas TsPsiIdPms]. 
    rewrite (u16_small (4 * _)), (u16_small (5 + _)), u16_small by lia. lia.
Qed.

Lemma pmt_length_fold pes : ∀ a, 0 ≤ a → a + 5 * len pes < 65536 → Forall pmt_element_ok pes →
  foldl (λ length pe, let length := u16 (length + 5) in
    match Descriptors pe with [] => length | ds => u16 (length + calcDescriptorsLength ds) end) a pes
  = a + 5 * len pes.
Proof.
  induction pes as [|pe pes IH]; intros a Ha Hl Hok; cbn [foldl length] in *; [lia|].
  inversion Hok as [|? ? (_ & _ & _ & Hds) Hok']; subst. rewrite Hds, IH; rewrite ?u16_small; lia || done.
Qed.

Lemma Pack_pmt psi :
  is_u8 (pointerFileld psi) → tableId (header psi) = 2 → Forall pmt_element_ok (pmtPes (pmtData psi)) →
  len (pmtPes (pmtData psi)) ≤ 700 →
  Pack psi = Ret (17 + 5 * len (pmtPes (pmtData psi)), pointerFileld psi ::
    with_crc (section_body psi (4 + 5 * length (pmtPes (pmtData psi))) (pmt_bits (pmtData psi)))).
Proof.
  intros Hp Hid Hok Hl.
  rewrite (Pack_spec psi (4 + 5 * length (pmtPes (pmtData psi))) (pmt_bits (pmtData psi))).
  - do 2 f_equal. lia.
  - done.
  - apply pmt_bits_length.
  - lia.
  - unfold writePsiTableSyntaxSectionData. rewrite Hid. apply emits_pmt.
    eapply Forall_impl; [exact Hok|]. by intros pe (_ & _ & _ & ?).
  - unfold calcPsiSectionLength, calaPmtSectionLength. rewrite Hid, pmt_length_fold by (done || lia).
    change (2 =? TsPsiIdPas) with false. change (2 =? TsPsiIdPms) with true. cbn [orb].
    rewrite (u16_small (5 + _)), u16_small by lia. lia.
Qed.

(** A section with any list of programs (up to 1000), or with any list of
    elementary streams without descriptors (up to 700), is packed at the length
    the table announces, with a checksum that makes the standard CRC-32/MPEG-2
    of the section zero, and parsing the packed bytes, whatever follows them,
    gives back every field and every element. *)
Theorem psi_section_roundtrip psi rest fuel :
  syntax_ok psi →
  (tableId (header psi) = 0 → Forall pat_element_ok (patPes psi) → len (patPes psi) ≤ 1000 →
   (length (patPes psi) ≤ fuel)%nat →
   ∃ s crc, Pack psi = Ret (13 + 4 * len (patPes psi), pointerFileld psi :: s) ∧
     len s = 12 + 4 * len (patPes psi) ∧ crc32_mpeg2 s = 0 ∧
     ParsePat fuel (s ++ rest) =
     Ret (mkPat 0 (sectionSyntaxIndicator (header psi)) (9 + 4 * len (patPes psi)) (tableIdExtension (section psi))
            (versionNumber (section psi)) (currentNextIndicator (section psi)) (sectionNumber (section psi))
            (lastSectionNumber (section psi)) (patPes psi) crc)) ∧
  (let d := pmtData psi in
   tableId (header psi) = 2 → Forall pmt_element_ok (pmtPes d) → len (pmtPes d) ≤ 700 →
   0 ≤ pcrPid d < 8192 → programInfoLength d = 0 → (length (pmtPes d) ≤ fuel)%nat →
   ∃ s, Pack psi = Ret (17 + 5 * len (pmtPes d), pointerFileld psi :: s) ∧
     len s = 16 + 5 * len (pmtPes d) ∧ crc32_mpeg2 s = 0 ∧
     ParsePmt fuel (s ++ rest) =
     Ret (mkPmt 2 (sectionSyntaxIndicator (header psi)) (13 + 5 * len (pmtPes d)) (tableIdExtension (section psi))
            (versionNumber (section psi)) (currentNextIndicator (section psi)) (sectionNumber (section psi))
            (lastSectionNumber (section psi)) (pcrPid d) 0 (pmtPes d))).
Proof.
  intros Hok. split.
  - intros Hid Hpes Hl Hf. eexists _, _. split; [apply Pack_pat; [apply Hok|done|done]|]. split; [|split].
    + unfold with_crc, section_body. rewrite length_app, le_bytes_length, pack_bits_length. lia.
    + apply with_crc_residue, section_body_bytes, pat_elements_length.
    + rewrite (ParsePat_spec psi _ rest fuel Hok Hid Hpes Hl Hf eq_refl). do 2 f_equal. lia.
  - cbv zeta. intros Hid Hpes Hl Hpcr Hpil Hf. eexists. split; [apply Pack_pmt; [apply Hok|done|done|done]|].
    split; [|split].
    + unfold with_crc, section_body. rewrite length_app, le_bytes_length, pack_bits_length. lia.
    + apply with_crc_residue, section_body_bytes, pmt_bits_length.
    + rewrite (ParsePmt_spec psi _ rest fuel Hok Hid Hpes Hpcr Hpil ltac:(lia) Hf eq_refl). do 2 f_equal. lia.
Qed.

Lemma psi_packet_spec hdr psi n p s :
  length hdr = 4%nat → Pack psi = Ret (n, p :: s) → n = 1 + len s → n ≤ 184 →
  psi_packet hdr psi = Ret (hdr ++ p :: s ++ replicate (Z.to_nat (184 - n)) 255) ∧
  len (hdr ++ p :: s ++ replicate (Z.to_nat (184 - n)) 255) = 188.
Proof.
  intros Hh Hp Hn Hl. split; [|len_lia]. unfold psi_packet. rewrite Hp, bind_Ret.
  rewrite go_copy_make by lia. rewrite copy_next by len_lia. rewrite bind_Ret.
  cbn [length]. set (z := go_make _).
  assert (Hz : length z = Z.to_nat (184 - n)) by (unfold z; rewrite length_go_make; lia).
  replace (Z.to_nat (188 - 4 - n)) with (length z) by lia.
  rewrite <- (app_nil_r ((hdr ++ p :: s) ++ z)), <- app_assoc.
  replace (4 + n) with (len (hdr ++ p :: s)) by (rewrite length_app; cbn [length]; lia).
  rewrite TsPack.fill_ff_spec, app_nil_r, Hz, <- app_assoc. done.
Qed.

(** The elements of the map table [PackPmt] builds. *)
Lemma pmt_psi_elements v a :
  a ≠ RtmpSoundFormatOpus →
  Forall pmt_element_ok (video_elements v ++ audio_elements a) ∧ len (video_elements v ++ audio_elements a) ≤ 2.
Proof.
  intros Ha. unfold video_elements, audio_elements. rewrite (proj2 (Z.eqb_neq a RtmpSoundFormatOpus)) by done.
  destruct (v =? RtmpCodecIdAvc), (v =? RtmpCodecIdHevc), (a =? RtmpSoundFormatAac);
    cbn;
    (split; [|lia]); repeat (apply Forall_cons; split); try apply Forall_nil_2;
    repeat split; by vm_compute.
Qed.

(** The two table packets, for any codecs. *)
Lemma PackPat_Ret : ∃ s, PackPat = Ret (TsPack.ts_header true 0 1 0 ++ 0 :: s) ∧ len s = 183.
Proof.
  pose proof (Pack_pat pat_psi ltac:(done) eq_refl ltac:(cbn; lia)) as E.
  eapply psi_packet_spec with (hdr := TsPack.ts_header true 0 1 0) in E; [|done| |cbn; lia].
  2: { unfold with_crc, section_body. rewrite length_app, le_bytes_length, pack_bits_length. cbn. lia. }
  destruct E as [E L]. eexists. split; [exact E|].
  rewrite length_app, TsPack.ts_header_length, length_cons in L. lia.
Qed.

Lemma pmt_emits v a :
  ∃ n data, emits (writePsiTableSyntaxSectionData (pmt_psi v a)) data ∧ length data = (8 * n)%nat ∧
    (n ≤ 40)%nat ∧ calcPsiSectionLength (pmt_psi v a) = 9 + Z.of_nat n.
Proof.
  exists (Z.to_nat (calcPsiSectionLength (pmt_psi v a) - 9)). unfold pmt_psi, video_elements, audio_elements.
  destruct (v =? RtmpCodecIdAvc), (v =? RtmpCodecIdHevc), (a =? RtmpSoundFormatAac), (a =? RtmpSoundFormatOpus);
    eexists; (split; [unfold writePsiTableSyntaxSectionData, writePmtSection, writePmtElement,
      writeDescriptorsWithLength; cbn -[num_bits]; emit|]);
    repeat rewrite ?length_app, ?num_bits_length.
  all: split; [by vm_compute|]; split; [|by vm_compute].
  all: apply Nat.leb_le; vm_compute; reflexivity.
Qed.

Lemma PackPmt_Ret v a :
  ∃ s, PackPmt v a = Ret (TsPack.ts_header true TsPack.PidPmt 1 0 ++ 0 :: s) ∧ len s = 183.
Proof.
  destruct (pmt_emits v a) as (n & data & He & Hd & Hn & Hl).
  pose proof (Pack_spec (pmt_psi v a) n data ltac:(done) Hd ltac:(lia) He Hl) as E.
  eapply psi_packet_spec with (hdr := TsPack.ts_header true TsPack.PidPmt 1 0) in E; [|done| |lia].
  2: { unfold with_crc, section_body. rewrite length_app, le_bytes_length, pack_bits_length. lia. }
  destruct E as [E L]. eexists. split; [exact E|].
  rewrite length_app, TsPack.ts_header_length, length_cons in L. lia.
Qed.

Definition found (ty pid : Z) : option PmtProgramElement := Some (mkPmtPe ty pid 0 []).

Lemma pmt_find v a :
  a ≠ RtmpSoundFormatOpus →
  let find pid := List.find (λ ppe, pePid ppe =? pid) (video_elements v ++ audio_elements a) in
  find TsPack.PidVideo =
    (if v =? RtmpCodecIdAvc then found StreamTypeAvc TsPack.PidVideo
     else if v =? RtmpCodecIdHevc then found StreamTypeHevc TsPack.PidVideo else None) ∧
  find TsPack.PidAudio = (if a =? RtmpSoundFormatAac then found StreamTypeAac TsPack.PidAudio else None).
Proof.
  intros Ha. unfold video_elements, audio_elements. rewrite (proj2 (Z.eqb_neq a RtmpSoundFormatOpus)) by done.
  by destruct (v =? RtmpCodecIdAvc), (v =? RtmpCodecIdHevc), (a =? RtmpSoundFormatAac).
Qed.
(** The two table packets lal sends ahead of every stream are 188 bytes, start
    a payload on PID 0 and on PID 0x1001, and carry tables from which a player finds
    the map table's PID and then the video and audio streams exactly when their
    codecs are AVC or HEVC, and AAC; the audio codec is any but Opus. *)
Theorem psi_tables_locate_streams v a fuel :
  a ≠ RtmpSoundFormatOpus → (2 ≤ fuel)%nat →
  ∃ tpat tpmt pat pmt,
    PackPat = Ret tpat ∧ PackPmt v a = Ret tpmt ∧ len tpat = 188 ∧ len tpmt = 188 ∧
    TsPack.ParseTsPacketHeader tpat = TsPack.mkTsHeader 71 0 1 0 0 0 1 0 ∧
    TsPack.ParseTsPacketHeader tpmt = TsPack.mkTsHeader 71 0 1 0 TsPack.PidPmt 0 1 0 ∧
    ParsePat fuel (drop 5 tpat) = Ret pat ∧ pat_SearchPid pat TsPack.PidPmt = true ∧
    ParsePmt fuel (drop 5 tpmt) = Ret pmt ∧
    pmt_SearchPid pmt TsPack.PidVideo =
      (if v =? RtmpCodecIdAvc then found StreamTypeAvc TsPack.PidVideo
       else if v =? RtmpCodecIdHevc then found StreamTypeHevc TsPack.PidVideo else None) ∧
    pmt_SearchPid pmt TsPack.PidAudio =
      (if a =? RtmpSoundFormatAac then found StreamTypeAac TsPack.PidAudio else None).
Proof.
  intros Ha Hf. destruct (pmt_psi_elements v a Ha) as [Hok Hlen].
  assert (Hp : Forall pat_element_ok (patPes pat_psi)).
  { apply Forall_singleton. repeat split; by vm_compute. }
  assert (Hs : syntax_ok pat_psi ∧ syntax_ok (pmt_psi v a)) by (unfold syntax_ok; cbn; lia).
  destruct Hs as [Hs1 Hs2].
  pose proof (Pack_pat pat_psi (proj1 Hs1) eq_refl ltac:(cbn; lia)) as E1.
  pose proof (Pack_pmt (pmt_psi v a) (proj1 Hs2) eq_refl Hok ltac:(cbn [pmt_psi pmtData pmtPes]; lia)) as E2.
  eapply psi_packet_spec with (hdr := TsPack.ts_header true 0 1 0) in E1; [|done| |cbn; lia].
  2: { unfold with_crc, section_body. rewrite length_app, le_bytes_length, pack_bits_length. cbn. lia. }
  eapply psi_packet_spec with (hdr := TsPack.ts_header true TsPack.PidPmt 1 0) in E2; [|done| |cbn [pmt_psi pmtData pmtPes]; lia].
  2: { unfold with_crc, section_body. rewrite length_app, le_bytes_length, pack_bits_length. lia. }
  destruct E1 as [E1 L1], E2 as [E2 L2].
  do 4 eexists. split; [exact E1|]. split; [exact E2|]. split; [exact L1|]. split; [exact L2|].
  split; [|split; [|split; [|split; [|split; [|split]]]]].
  - by apply TsPack.ParseTsPacketHeader_spec; [|left].
  - by apply TsPack.ParseTsPacketHeader_spec; [|left].
  - change (drop 5 (TsPack.ts_header true 0 1 0 ++ ?p :: ?x)) with x.
    apply (ParsePat_spec pat_psi _ _ fuel Hs1 eq_refl Hp); [cbn; lia|cbn; lia|done].
  - done.
  - change (drop 5 (TsPack.ts_header true TsPack.PidPmt 1 0 ++ ?p :: ?x)) with x.
    apply (ParsePmt_spec (pmt_psi v a) _ _ fuel Hs2 eq_refl Hok); cbn [pmt_psi pmtData pmtPes pcrPid programInfoLength]; done || lia.
  - unfold pmt_SearchPid. cbn [ProgramElements pmt_psi pmtData pmtPes]. by apply pmt_find.
  - unfold pmt_SearchPid. cbn [ProgramElements pmt_psi pmtData pmtPes]. by apply pmt_find.
Qed.

(** With Opus audio the map table carries two descriptors, and parsing it back
    loses its place: a descriptor of ten bytes is skipped as ten bits, and the
    loop counts five bytes for an element whatever its descriptors take, so
    four streams come out where two were announced. *)
Theorem pmt_opus_misparsed :
  ∃ t pmt, @PackPmt bits_impl bele_impl RtmpCodecIdAvc RtmpSoundFormatOpus = Ret t ∧
    @ParsePmt bits_impl 100 (drop 5 t) = Ret pmt ∧
    len (video_elements RtmpCodecIdAvc ++ audio_elements RtmpSoundFormatOpus) = 2 ∧
    len (ProgramElements pmt) = 4.
Proof. do 2 eexists. split; [vm_compute; reflexivity|]. split; [vm_compute; reflexivity|]. by vm_compute. Qed.

(** *** Termination of the loop over the programs *)

Lemma pat_loop_diverges fuel : ∀ i length br acc,
  0 ≤ i < 65536 → i mod 4 = 0 → 65533 ≤ length → pat_loop fuel i length br acc = Fail OutOfFuel.
Proof.
  induction fuel as [|fuel IH]; intros i length br acc Hi Hm Hl; cbn [pat_loop];
    rewrite (proj2 (Z.ltb_lt _ _)) by zdm; [done|]. cbn [negb].
  destruct (rbits 16 br), (rbits 13 _). apply IH; [wrap..|done].
Qed.

Lemma pat_loop_ends fuel : ∀ i length br acc,
  0 ≤ i → i mod 4 = 0 → length ≤ 65532 → length ≤ i + 4 * Z.of_nat fuel →
  pat_loop fuel i length br acc ≠ Fail OutOfFuel.
Proof.
  induction fuel as [|fuel IH]; intros i length br acc Hi Hm Hl Hf; cbn [pat_loop].
  - by rewrite (proj2 (Z.ltb_ge _ _)) by lia.
  - destruct (Z.ltb_spec i length); [|done]. cbn [negb].
    destruct (rbits 16 br), (rbits 13 _). rewrite u16_small by zdm. apply IH; [lia|zdm|lia|lia].
Qed.

(** Whatever follows the first three bytes, parsing a program association table
    ends (within 16384 turns of its loop) unless the section length it announces
    is 6, 7 or 8, where the loop's 16-bit counter never reaches its bound and no
    number of turns is enough. *)
Theorem pat_parse_ends_unless t h l rest fuel :
  is_u8 t → is_u8 h → is_u8 l → 65532 ≤ 4 * Z.of_nat fuel →
  (ParsePat fuel (t :: h :: l :: rest) = Fail OutOfFuel ↔ 6 ≤ h mod 16 * 256 + l ≤ 8).
Proof.
  intros Ht Hh Hl Hf. unfold ParsePat. pose proof (br_new (t :: h :: l :: rest)) as H.
  rewrite !byte_bits_cons in H.
  assert (E : num_bits 8 h ++ num_bits 8 l = num_bits 1 (h / 128) ++ num_bits 3 (h / 16) ++
                                            num_bits 12 (h mod 16 * 256 + l)).
  { pose proof (num_bits_split 1 7 h) as E1. pose proof (num_bits_split 3 4 h) as E2.
    pose proof (num_bits_add 4 8 (h mod 16) l Hl) as E3. cbn [Nat.add] in E1, E2, E3.
    rewrite E1, E2, <- !app_assoc. change (2 ^ Z.of_nat 8) with 256 in E3. rewrite E3.
    by rewrite <- (num_bits_mod 4 h). }
  rewrite (app_assoc (num_bits 8 h)), E, <- !app_assoc in H. rewrite <- (num_bits_mod 1) in H.
  change (2 ^ Z.of_nat 1) with 2 in H.
  read_field H. read_field H; [zdm|]. skip_field H. read_field H; [zdm|].
  destruct (rbits 16 _) as [tsi b1], (rbits 5 _) as [vn b2], (rbits 1 _) as [cni b3], (rbits 8 _) as [sn b4],
    (rbits 8 _) as [lsn b5].
  set (sl := h mod 16 * 256 + l). assert (Hsl : 0 ≤ sl < 4096) by (unfold sl; zdm).
  destruct (decide (6 ≤ sl ≤ 8)) as [Hd|Hd].
  - rewrite pat_loop_diverges by (done || wrap). done.
  - split; [|done]. intros Hr. exfalso.
    pose proof (pat_loop_ends fuel 0 (u16 (sl - 9)) b5 []) as Hn.
    destruct (pat_loop fuel 0 (u16 (sl - 9)) b5 []) as [[pes br']|e|] eqn:Ep; cbn [mbind outcome_bind] in Hr.
    + by destruct (rbits 32 br').
    + apply Hn; [done|done|wrap|wrap|]. by injection Hr as ->.
    + done.
Qed.
End Tables.

(** ** Witnesses *)

Lemma psi_section_roundtrip_witness :
  syntax_ok pat_psi ∧
  ∃ s crc, @Pack bits_impl bele_impl pat_psi = Ret (17, 0 :: s) ∧ len s = 16 ∧ crc32_mpeg2 s = 0 ∧
    @ParsePat bits_impl 1 (s ++ [9]) = Ret (mkPat 0 1 13 1 0 1 0 0 [mkPatPe 1 TsPack.PidPmt] crc).
Proof.
  assert (Hs : syntax_ok pat_psi) by (unfold syntax_ok; cbn; lia). split; [exact Hs|].
  apply (@psi_section_roundtrip bits_impl bits_impl_laws bele_impl bele_impl_laws pat_psi [9] 1 Hs);
    [done|apply Forall_singleton; repeat split; by vm_compute|cbn; lia|cbn; lia].
Defined.

Lemma psi_tables_locate_streams_witness :
  ∃ tpat tpmt pat pmt,
    @PackPat bits_impl bele_impl = Ret tpat ∧ @PackPmt bits_impl bele_impl 12 10 = Ret tpmt ∧
    len tpat = 188 ∧ len tpmt = 188 ∧
    @TsPack.ParseTsPacketHeader bits_impl tpat = TsPack.mkTsHeader 71 0 1 0 0 0 1 0 ∧
    @TsPack.ParseTsPacketHeader bits_impl tpmt = TsPack.mkTsHeader 71 0 1 0 4097 0 1 0 ∧
    @ParsePat bits_impl 2 (drop 5 tpat) = Ret pat ∧ pat_SearchPid pat 4097 = true ∧
    @ParsePmt bits_impl 2 (drop 5 tpmt) = Ret pmt ∧
    pmt_SearchPid pmt 256 = found 36 256 ∧ pmt_SearchPid pmt 257 = found 15 257.
Proof. apply (@psi_tables_locate_streams bits_impl bits_impl_laws bele_impl bele_impl_laws 12 10 2); [done|lia]. Defined.

Lemma pat_parse_ends_unless_witness :
  @ParsePat bits_impl (Z.to_nat 20000) [0; 176; 7] = Fail OutOfFuel ↔ 6 ≤ 176 mod 16 * 256 + 7 ≤ 8.
Proof.
  apply (@pat_parse_ends_unless bits_impl bits_impl_laws 0 176 7 []); lia.
Defined.
