(* ===== verification/Aac.v ===== *)
(** * AAC configurations and headers (src/pkg/aac/aac.go, seqheader.go)

    The AudioSpecificConfig of RTMP, FLV and SDP, the ADTS header of MPEG-TS,
    and the two bytes in front of the audio data of RTMP. *)

From S2P Require Import Prelude Naza Bits.

Definition AdtsHeaderLength : Z := 7.
Definition minAscLength : Z := 2.

Record AscContext := mkAsc {
  AudioObjectType : Z;
  SamplingFrequencyIndex : Z;
  ChannelConfiguration : Z;
}.

Record AdtsHeaderContext := mkAdts {
  AscCtx : AscContext;
  AdtsLength : Z;
}.

Record SequenceHeaderContext := mkSeqHeader {
  SoundFormat : Z;
  SoundRate : Z;
  SoundSize : Z;
  SoundType : Z;
  AacPacketType : Z;
}.

Section Aac.
Context {BI : NazaBits}.

(** ** AudioSpecificConfig *)

Definition asc_Unpack (asc : list Z) : outcome AscContext :=
  if len asc <? minAscLength then Fail ErrShortBuffer else
  let br := NewBitReader asc in
  let '(ty, br) := rbits 5 br in
  let '(idx, br) := rbits 4 br in
  let '(ch, br) := rbits 4 br in
  Ret (mkAsc ty idx ch).

Definition NewAscContext (asc : list Z) : outcome AscContext := asc_Unpack asc.

Definition asc_write (c : AscContext) (bw : BitWriter) : BitWriter :=
  let bw := WriteBits 5 (AudioObjectType c) bw in
  let bw := WriteBits 4 (SamplingFrequencyIndex c) bw in
  WriteBits 4 (ChannelConfiguration c) bw.

Definition asc_Pack (c : AscContext) : list Z := bwSlice (asc_write c (NewBitWriter (go_make minAscLength))).

(** ** ADTS *)

Definition adts_write (c : AscContext) (frameLength : Z) (bw : BitWriter) : BitWriter :=
  let bw := WriteBits 12 4095 bw in
  let bw := WriteBits 4 1 bw in
  let bw := WriteBits 2 (u8 (AudioObjectType c - 1)) bw in
  let bw := WriteBits 4 (SamplingFrequencyIndex c) bw in
  let bw := WriteBits 1 0 bw in
  let bw := WriteBits 3 (ChannelConfiguration c) bw in
  let bw := WriteBits 4 0 bw in
  let bw := WriteBits 13 (u16 (frameLength + AdtsHeaderLength)) bw in
  let bw := WriteBits 11 2047 bw in
  WriteBits 2 0 bw.

(** The slice [out] as the caller sees it afterwards. *)
Definition PackToAdtsHeader (c : AscContext) (out : list Z) (frameLength : Z) : outcome (list Z) :=
  if len out <? AdtsHeaderLength then Fail ErrShortBuffer else
  Ret (bwSlice (adts_write c frameLength (NewBitWriter out))).

(** The error is dropped: the slice made here is long enough. *)
Definition PackAdtsHeader (c : AscContext) (frameLength : Z) : list Z :=
  let out := go_make AdtsHeaderLength in
  match PackToAdtsHeader c out frameLength with Ret out => out | _ => out end.

Definition GetSamplingFrequency (c : AscContext) : outcome Z :=
  let i := SamplingFrequencyIndex c in
  if i =? 0 then Ret 96000
  else if i =? 1 then Ret 88200
  else if i =? 2 then Ret 64000
  else if i =? 3 then Ret 48000
  else if i =? 4 then Ret 44100
  else if i =? 5 then Ret 32000
  else if i =? 6 then Ret 24000
  else if i =? 7 then Ret 22050
  else if i =? 8 then Ret 16000
  else if i =? 9 then Ret 12000
  else if i =? 10 then Ret 11025
  else if i =? 11 then Ret 8000
  else if i =? 12 then Ret 7350
  else Fail ErrSamplingFrequencyIndex.

Definition adts_Unpack (adtsHeader : list Z) : outcome AdtsHeaderContext :=
  if len adtsHeader <? AdtsHeaderLength then Fail ErrShortBuffer else
  let br := bskip 16 (NewBitReader adtsHeader) in
  let '(v, br) := rbits 2 br in
  let '(idx, br) := rbits 4 br in
  let br := bskip 1 br in
  let '(ch, br) := rbits 3 br in
  let br := bskip 4 br in
  let '(l, br) := rbits 13 br in
  Ret (mkAdts (mkAsc (u8 (v + 1)) idx ch) l).

Definition NewAdtsHeaderContext (adtsHeader : list Z) : outcome AdtsHeaderContext := adts_Unpack adtsHeader.

Definition MakeAscWithAdtsHeader (adtsHeader : list Z) : outcome (list Z) :=
  ctx ← NewAdtsHeaderContext adtsHeader; Ret (asc_Pack (AscCtx ctx)).

(** ** The sequence header of RTMP and FLV *)

Definition seqheader_Unpack (b : list Z) : SequenceHeaderContext :=
  let br := NewBitReader b in
  let '(fmt, br) := rbits 4 br in
  let '(rate, br) := rbits 2 br in
  let '(size, br) := rbits 1 br in
  let '(ty, br) := rbits 1 br in
  let '(pt, br) := rbits 8 br in
  mkSeqHeader fmt rate size ty pt.

Definition MakeAudioDataSeqHeaderWithAsc (asc : list Z) : outcome (list Z) :=
  if len asc <? minAscLength then Fail ErrShortBuffer else
  let out := go_make (2 + len asc) in
  out ← go_set out 0 175;
  out ← go_set out 1 0;
  go_copy_at out 2 asc.

Definition MakeAudioDataSeqHeaderWithAdtsHeader (adtsHeader : list Z) : outcome (list Z) :=
  asc ← MakeAscWithAdtsHeader adtsHeader; MakeAudioDataSeqHeaderWithAsc asc.
End Aac.

(** ** Correctness *)

Section AacFacts.
Context {BI : NazaBits} {HBI : NazaBitsLaws BI}.

(** What a field of [n] bits keeps of a configuration. *)
Definition asc_fields (c : AscContext) : AscContext :=
  mkAsc (AudioObjectType c mod 32) (SamplingFrequencyIndex c mod 16) (ChannelConfiguration c mod 16).
Definition adts_fields (c : AscContext) : AscContext :=
  mkAsc ((AudioObjectType c - 1) mod 4 + 1) (SamplingFrequencyIndex c mod 16) (ChannelConfiguration c mod 8).

Definition asc_ok (c : AscContext) : Prop :=
  0 ≤ AudioObjectType c < 32 ∧ 0 ≤ SamplingFrequencyIndex c < 16 ∧ 0 ≤ ChannelConfiguration c < 16.
Definition adts_ok (c : AscContext) : Prop :=
  1 ≤ AudioObjectType c ≤ 4 ∧ 0 ≤ SamplingFrequencyIndex c < 16 ∧ 0 ≤ ChannelConfiguration c < 8.

Definition asc_bits (c : AscContext) : list bool :=
  num_bits 5 (AudioObjectType c) ++ num_bits 4 (SamplingFrequencyIndex c) ++ num_bits 4 (ChannelConfiguration c).
Definition adts_bits (c : AscContext) (frameLength : Z) : list bool :=
  num_bits 12 4095 ++ num_bits 4 1 ++ num_bits 2 (u8 (AudioObjectType c - 1)) ++
  num_bits 4 (SamplingFrequencyIndex c) ++ num_bits 1 0 ++ num_bits 3 (ChannelConfiguration c) ++ num_bits 4 0 ++
  num_bits 13 (u16 (frameLength + AdtsHeaderLength)) ++ num_bits 11 2047 ++ num_bits 2 0.

(** A slice filled through a writer. *)
Lemma emitted f bs m :
  emits f bs → 0 ≤ m → len bs ≤ 8 * m →
  bwSlice (f (NewBitWriter (go_make m))) =
  pack_bits (Z.to_nat m) (bs ++ replicate (Z.to_nat (8 * m) - length bs) false).
Proof. intros Hf Hm Hl. apply bw_slice. apply (Hf _ _ []); [by apply bw_new|done]. Qed.

Lemma asc_Pack_bits c : byte_bits (asc_Pack c) = asc_bits c ++ num_bits 3 0 ∧ len (asc_Pack c) = 2.
Proof.
  unfold asc_Pack. rewrite (emitted _ (asc_bits c)); [|eapply emits_exact; [unfold asc_write; emit|]|done|].
  - split; [|by rewrite pack_bits_length]. by rewrite byte_bits_pack.
  - by rewrite <- !app_assoc.
  - done.
Qed.

Lemma adts_Pack_bits c n : byte_bits (PackAdtsHeader c n) = adts_bits c n ∧ len (PackAdtsHeader c n) = 7.
Proof.
  unfold PackAdtsHeader, PackToAdtsHeader.
  change (len (go_make AdtsHeaderLength) <? AdtsHeaderLength) with false. cbv iota.
  rewrite (emitted _ (adts_bits c n)); [|eapply emits_exact; [unfold adts_write; emit|]|done|].
  - split; [|by rewrite pack_bits_length]. by rewrite byte_bits_pack, app_nil_r.
  - by rewrite <- !app_assoc.
  - done.
Qed.

Lemma asc_Unpack_Pack c rest : asc_Unpack (asc_Pack c ++ rest) = Ret (asc_fields c).
Proof.
  destruct (asc_Pack_bits c) as [Hb Hl]. unfold asc_Unpack.
  rewrite (proj2 (Z.ltb_ge _ _)) by (unfold minAscLength; len_lia).
  pose proof (br_new (asc_Pack c ++ rest)) as H. rewrite byte_bits_app, Hb in H.
  unfold asc_bits in H. rewrite <- !app_assoc in H. do 3 read_field_mod H. done.
Qed.

Lemma adts_Unpack_Pack c n rest :
  adts_Unpack (PackAdtsHeader c n ++ rest) = Ret (mkAdts (adts_fields c) ((n + 7) mod 8192)).
Proof.
  destruct (adts_Pack_bits c n) as [Hb Hl]. unfold adts_Unpack.
  rewrite (proj2 (Z.ltb_ge _ _)) by (unfold AdtsHeaderLength; len_lia).
  pose proof (br_new (PackAdtsHeader c n ++ rest)) as H. rewrite byte_bits_app, Hb in H.
  unfold adts_bits in H. rewrite <- !app_assoc in H.
  rewrite app_assoc in H. apply (bskip_bits 16) in H; [|done].
  do 2 read_field_mod H. apply (bskip_bits 1) in H; [|done]. read_field_mod H.
  apply (bskip_bits 4) in H; [|done]. read_field_mod H. unfold adts_fields. 
  do 2 f_equal; [f_equal; change (2 ^ 2) with 4; wrap|]. change (2 ^ 13) with 8192. unfold AdtsHeaderLength. wrap.
Qed.

Lemma seqheader_unpack_asc b : seqheader_Unpack (175 :: 0 :: b) = mkSeqHeader 10 3 1 1 0.
Proof.
  unfold seqheader_Unpack. pose proof (br_new (175 :: 0 :: b)) as H. rewrite !byte_bits_cons in H.
  change (num_bits 8 175 ++ ?x) with (num_bits 4 10 ++ num_bits 2 3 ++ num_bits 1 1 ++ num_bits 1 1 ++ x) in H.
  do 5 read_field H. done.
Qed.

Lemma MakeAudioDataSeqHeaderWithAsc_Ret asc :
  2 ≤ len asc → MakeAudioDataSeqHeaderWithAsc asc = Ret (175 :: 0 :: asc).
Proof.
  intros Hl. unfold MakeAudioDataSeqHeaderWithAsc. rewrite (proj2 (Z.ltb_ge _ _)) by (unfold minAscLength; lia).
  rewrite <- (app_nil_l (go_make _)). do 2 go_next. rewrite copy_next by len_lia.
  rewrite go_make_0, app_nil_r by len_lia. done.
Qed.

(** For any configuration, and whatever follows, an ADTS header is seven bytes
    and reads back as the configuration and the length of the ADTS frame exactly
    when the object type is one of the first four, the channel configuration
    below 8 and the frame below 8185 bytes; otherwise each field is cut to its width.
    The AudioSpecificConfig and the RTMP sequence header derived from the header
    carry the configuration the header does, and the sequence header announces AAC. *)
Theorem aac_adts_roundtrip c n frame :
  let h := PackAdtsHeader c n in
  len h = 7 ∧
  NewAdtsHeaderContext (h ++ frame) = Ret (mkAdts (adts_fields c) ((n + 7) mod 8192)) ∧
  (adts_fields c = c ∧ (n + 7) mod 8192 = n + 7 ↔ adts_ok c ∧ -7 ≤ n < 8185) ∧
  (∃ asc, MakeAscWithAdtsHeader (h ++ frame) = Ret asc ∧ len asc = 2 ∧
     NewAscContext asc = Ret (adts_fields c) ∧
     MakeAudioDataSeqHeaderWithAdtsHeader (h ++ frame) = Ret (175 :: 0 :: asc) ∧
     seqheader_Unpack (175 :: 0 :: asc) = mkSeqHeader 10 3 1 1 0) ∧
  NewAscContext (asc_Pack c) = Ret (asc_fields c) ∧ (asc_fields c = c ↔ asc_ok c).
Proof.
  cbv zeta. pose proof (adts_Unpack_Pack c n frame) as E.
  split; [apply adts_Pack_bits|]. split; [exact E|]. split; [|split; [|split]].
  - destruct c as [ty idx ch]. unfold adts_fields, adts_ok. cbn [AudioObjectType SamplingFrequencyIndex ChannelConfiguration].
    split; [intros [[= H1 H2 H3] Hn]|intros (? & ?); split; [f_equal|]]; zdm.
  - unfold MakeAudioDataSeqHeaderWithAdtsHeader, MakeAscWithAdtsHeader, NewAdtsHeaderContext. rewrite E, !bind_Ret.
    cbn [AscCtx]. eexists. split; [done|]. destruct (asc_Pack_bits (adts_fields c)) as [_ Hl].
    split; [done|]. split; [|split; [|apply seqheader_unpack_asc]].
    + unfold NewAscContext. rewrite <- (app_nil_r (asc_Pack _)), asc_Unpack_Pack.
      unfold asc_fields, adts_fields. cbn [AudioObjectType SamplingFrequencyIndex ChannelConfiguration]. do 2 f_equal; zdm.
    + apply MakeAudioDataSeqHeaderWithAsc_Ret. lia.
  - unfold NewAscContext. by rewrite <- (app_nil_r (asc_Pack c)), asc_Unpack_Pack.
  - destruct c as [ty idx ch]. unfold asc_fields, asc_ok. cbn [AudioObjectType SamplingFrequencyIndex ChannelConfiguration].
    split; [intros [= H1 H2 H3]|intros (? & ? & ?); f_equal]; zdm.
Qed.
End AacFacts.

(** ** Witnesses *)

Lemma aac_adts_roundtrip_witness :
  let c := mkAsc 2 4 2 in let h := @PackAdtsHeader bits_impl c 300 in
  len h = 7 ∧ @NewAdtsHeaderContext bits_impl (h ++ [1; 2]) = Ret (mkAdts c 307).
Proof.
  destruct (@aac_adts_roundtrip bits_impl bits_impl_laws (mkAsc 2 4 2) 300 [1; 2]) as (H1 & H2 & _).
  split; [exact H1|exact H2].
Defined.
