(* ===== verification/HevcSeq.v ===== *)
(** * H.265 parameter sets and sequence headers (src/pkg/hevc/hevc.go)

    The sequence header (HVCC record) in its RTMP message, built from and split
    into VPS, SPS and PPS; the fields lal reads from the VPS and the SPS with
    the bit reader of naza.  The proofs run the parsers against a reference
    layout of the bits and a reference emulation prevention. *)

From S2P Require Import Prelude Naza Bits Hevc.

Definition NaluStartCode4 : list Z := [0; 0; 0; 1].
Definition AudNalu : list Z := [0; 0; 0; 1; 70; 1; 16].

Record Context := mkContext {
  PicWidthInLumaSamples : Z;
  PicHeightInLumaSamples : Z;
  ConfigurationVersion : Z;
  GeneralProfileSpace : Z;
  GeneralTierFlag : Z;
  GeneralProfileIdc : Z;
  GeneralProfileCompatibilityFlags : Z;
  GeneralConstraintIndicatorFlags : Z;
  GeneralLevelIdc : Z;
  LengthSizeMinusOne : Z;
  NumTemporalLayers : Z;
  TemporalIdNested : Z;
  ChromaFormat : Z;
  BitDepthLumaMinus8 : Z;
  BitDepthChromaMinus8 : Z;
}.

Definition newContext : Context :=
  mkContext 0 0 1 0 0 0 4294967295 281474976710655 0 3 0 0 0 0 0.

(** ** Field updates *)

Definition set_layers (c : Context) (n : Z) : Context :=
  mkContext (PicWidthInLumaSamples c) (PicHeightInLumaSamples c) (ConfigurationVersion c)
    (GeneralProfileSpace c) (GeneralTierFlag c) (GeneralProfileIdc c)
    (GeneralProfileCompatibilityFlags c) (GeneralConstraintIndicatorFlags c) (GeneralLevelIdc c)
    (LengthSizeMinusOne c) n (TemporalIdNested c) (ChromaFormat c)
    (BitDepthLumaMinus8 c) (BitDepthChromaMinus8 c).

Definition set_nested (c : Context) (v : Z) : Context :=
  mkContext (PicWidthInLumaSamples c) (PicHeightInLumaSamples c) (ConfigurationVersion c)
    (GeneralProfileSpace c) (GeneralTierFlag c) (GeneralProfileIdc c)
    (GeneralProfileCompatibilityFlags c) (GeneralConstraintIndicatorFlags c) (GeneralLevelIdc c)
    (LengthSizeMinusOne c) (NumTemporalLayers c) v (ChromaFormat c)
    (BitDepthLumaMinus8 c) (BitDepthChromaMinus8 c).

(** Width, height, chroma format and bit depths. *)
Definition set_picture (c : Context) (w h cf bl bc : Z) : Context :=
  mkContext w h (ConfigurationVersion c)
    (GeneralProfileSpace c) (GeneralTierFlag c) (GeneralProfileIdc c)
    (GeneralProfileCompatibilityFlags c) (GeneralConstraintIndicatorFlags c) (GeneralLevelIdc c)
    (LengthSizeMinusOne c) (NumTemporalLayers c) (TemporalIdNested c) cf bl bc.

(** The profile, tier and level fields of a [Context]. *)
Record Ptl := mkPtl {
  ptlSpace : Z; ptlTier : Z; ptlProfile : Z; ptlCompat : Z; ptlConstraint : Z; ptlLevel : Z;
}.

Definition updatePtl (c : Context) (p : Ptl) : Context :=
  let '(level, tier) :=
    if ptlTier p >? GeneralTierFlag c then (ptlLevel p, ptlTier p)
    else (if ptlLevel p >? GeneralLevelIdc c then ptlLevel p else GeneralLevelIdc c, GeneralTierFlag c) in
  mkContext (PicWidthInLumaSamples c) (PicHeightInLumaSamples c) (ConfigurationVersion c)
    (ptlSpace p) tier
    (if ptlProfile p >? GeneralProfileIdc c then ptlProfile p else GeneralProfileIdc c)
    (Z.land (GeneralProfileCompatibilityFlags c) (ptlCompat p))
    (Z.land (GeneralConstraintIndicatorFlags c) (ptlConstraint p)) level
    (LengthSizeMinusOne c) (NumTemporalLayers c) (TemporalIdNested c) (ChromaFormat c)
    (BitDepthLumaMinus8 c) (BitDepthChromaMinus8 c).

(** [bytes.Replace(nal, 00 00 03, 00 00, -1)] *)
Fixpoint nal2rbsp (nal : list Z) : list Z :=
  match nal with
  | a :: nal' =>
      match nal' with
      | b :: c :: l =>
          if (a =? 0) && (b =? 0) && (c =? 3) then 0 :: 0 :: nal2rbsp l else a :: nal2rbsp nal'
      | _ => nal
      end
  | [] => nal
  end.

Section Parse.
Context {BI : NazaBits}.

(** Reads whose error is returned. *)
Definition rd (n : Z) (br : BitReader) : outcome (Z * BitReader) :=
  match ReadBits n br with (v, None, br) => Ret (v, br) | (_, Some e, _) => Fail e end.
Definition ue (br : BitReader) : outcome (Z * BitReader) :=
  match ReadGolomb br with (v, None, br) => Ret (v, br) | (_, Some e, _) => Fail e end.
Fixpoint rds (k : nat) (n : Z) (br : BitReader) : outcome BitReader :=
  match k with O => Ret br | S k => '(_, br) ← rd n br; rds k n br end.
Fixpoint ues (k : nat) (br : BitReader) : outcome BitReader :=
  match k with O => Ret br | S k => '(_, br) ← ue br; ues k br end.

(** [nazaerrors.Wrap(base.ErrHevc)] for any error of the reader. *)
Definition or_hevc {A} (m : outcome A) : outcome A :=
  match m with Fail _ => Fail ErrHevc | _ => m end.

(** The present flags of the sub-layers. *)
Fixpoint ptl_flags (n : nat) (br : BitReader) : outcome (list (Z * Z) * BitReader) :=
  match n with
  | O => Ret ([], br)
  | S n =>
      '(p, br) ← rd 1 br; '(l, br) ← rd 1 br;
      '(flags, br) ← ptl_flags n br;
      Ret ((p, l) :: flags, br)
  end.

Fixpoint ptl_skip (flags : list (Z * Z)) (br : BitReader) : outcome BitReader :=
  match flags with
  | [] => Ret br
  | (p, l) :: flags =>
      br ← (if negb (p =? 0) then
              '(_, br) ← rd 32 br; '(_, br) ← rd 32 br; '(_, br) ← rd 24 br; Ret br
            else Ret br);
      br ← (if negb (l =? 0) then '(_, br) ← rd 8 br; Ret br else Ret br);
      ptl_skip flags br
  end.

Definition parsePtl (br : BitReader) (ctx : Context) (maxSubLayersMinus1 : Z)
    : outcome (Context * BitReader) :=
  '(space, br) ← rd 2 br;
  '(tier, br) ← rd 1 br;
  '(idc, br) ← rd 5 br;
  '(compat, br) ← rd 32 br;
  '(constr, br) ← rd 48 br;
  '(level, br) ← rd 8 br;
  let ctx := updatePtl ctx (mkPtl space tier idc compat constr level) in
  if maxSubLayersMinus1 =? 0 then Ret (ctx, br) else
  '(flags, br) ← ptl_flags (Z.to_nat maxSubLayersMinus1) br;
  br ← (if maxSubLayersMinus1 >? 0 then rds (Z.to_nat (8 - maxSubLayersMinus1)) 2 br else Ret br);
  br ← ptl_skip flags br;
  Ret (ctx, br).

Definition max_layers (ctx : Context) (minus1 : Z) : Context :=
  if u8 (minus1 + 1) >? NumTemporalLayers ctx then set_layers ctx (u8 (minus1 + 1)) else ctx.

Definition ParseVps (vps : list Z) (ctx : Context) : outcome Context :=
  if len vps <? 2 then Fail ErrHevc else
  tl ← go_from vps 2;
  let br := NewBitReader (nal2rbsp tl) in
  '(_, br) ← or_hevc (rd 12 br);
  '(vpsMaxSubLayersMinus1, br) ← or_hevc (rd 3 br);
  let ctx := max_layers ctx vpsMaxSubLayersMinus1 in
  '(_, br) ← or_hevc (rd 17 br);
  '(ctx, _) ← parsePtl br ctx vpsMaxSubLayersMinus1;
  Ret ctx.

Definition ParseSps (sps : list Z) (ctx : Context) : outcome Context :=
  if len sps <? 2 then Fail ErrHevc else
  tl ← go_from sps 2;
  let br := NewBitReader (nal2rbsp tl) in
  '(_, br) ← rd 4 br;
  '(spsMaxSubLayersMinus1, br) ← rd 3 br;
  let ctx := max_layers ctx spsMaxSubLayersMinus1 in
  '(nested, br) ← rd 1 br;
  let ctx := set_nested ctx nested in
  '(ctx, br) ← parsePtl br ctx spsMaxSubLayersMinus1;
  '(_, br) ← ue br;
  '(cf, br) ← ue br;
  let cf := u8 cf in
  br ← (if cf =? 3 then '(_, br) ← rd 1 br; Ret br else Ret br);
  '(w, br) ← ue br;
  '(h, br) ← ue br;
  '(conformanceWindowFlag, br) ← rd 1 br;
  br ← (if negb (conformanceWindowFlag =? 0) then ues 4 br else Ret br);
  '(bdlm8, br) ← ue br;
  '(bdcm8, br) ← ue br;
  '(_, br) ← ue br;
  '(orderingInfo, br) ← rd 1 br;
  let i := if negb (orderingInfo =? 0) then 0 else spsMaxSubLayersMinus1 in
  br ← ues (3 * Z.to_nat (spsMaxSubLayersMinus1 - i + 1)) br;
  br ← ues 6 br;
  Ret (set_picture ctx w h cf (u8 bdlm8) (u8 bdcm8)).
End Parse.

(** ** The sequence header *)

(** [bytes.Index], -1 when there is none. *)
Fixpoint bytes_Index (b sep : list Z) : Z :=
  if bool_decide (take (length sep) b = sep) then 0 else
  match b with
  | [] => -1
  | _ :: b => let i := bytes_Index b sep in if i =? -1 then -1 else i + 1
  end.

Record Units := mkUnits { uVps : list Z; uSps : list Z; uPps : list Z }.

Definition add_unit (u : Units) (nal : list Z) (typ : Z) : Units :=
  if typ =? NaluTypeVps then mkUnits (uVps u ++ nal) (uSps u) (uPps u)
  else if typ =? NaluTypeSps then mkUnits (uVps u) (uSps u ++ nal) (uPps u)
  else if typ =? NaluTypePps then mkUnits (uVps u) (uSps u) (uPps u ++ nal)
  else u.

Fixpoint annexb_record_loop (fuel : nat) (payload : list Z) (i : Z) (u : Units) : outcome Units :=
  if negb (i <? len payload - 4) then Ret u else
  match fuel with
  | O => Fail OutOfFuel
  | S fuel =>
      t ← go_from payload i;
      let start := bytes_Index t NaluStartCode4 in
      if start =? -1 then Ret u else
      let i := i + start in
      t ← go_from payload (i + 4);
      let endIdx := bytes_Index t NaluStartCode4 in
      let stop := if negb (endIdx =? -1) then endIdx + 4 else len payload - i in
      nal ← go_slice payload (i + 4) (i + stop);
      n0 ← go_index nal 0;
      annexb_record_loop fuel payload (i + stop) (add_unit u nal (ParseNaluType n0))
  end.

(** Every turn goes at least four bytes on. *)
Definition parseVpsSpsPpsAnnexbFromRecord (payload : list Z) : outcome Units :=
  u ← annexb_record_loop (length payload) payload 0 (mkUnits [] [] []);
  if (len (uVps u) =? 0) || (len (uSps u) =? 0) || (len (uPps u) =? 0) then Fail ErrHevc else Ret u.

Section Record.
Context {B : Bele}.

(** One array of the record: its type and its only unit; [base] is the length
    the record must have for an empty unit. *)
Definition parse_array (payload : list Z) (index base typ : Z) : outcome (list Z) :=
  b ← go_index payload index;
  if negb (Z.land b 63 =? typ) then Fail ErrHevc else
  t ← go_from payload (index + 1);
  numNalus ← BeUint16 t;
  if negb (numNalus =? 1) then Fail ErrHevc else
  t ← go_from payload (index + 3);
  l ← BeUint16 t;
  if len payload <? base + l then Fail ErrHevc else
  go_slice payload (index + 5) (index + 5 + l).

Definition parseVpsSpsPpsFromRecord (payload : list Z) : outcome Units :=
  let index := 27 in
  numOfArrays ← go_index payload index;
  if negb (numOfArrays =? 3) && negb (numOfArrays =? 4) then Fail ErrHevc else
  let index := index + 1 in
  vps ← parse_array payload index 33 NaluTypeVps;
  let index := index + 5 + len vps in
  if len payload <? 38 + len vps then Fail ErrHevc else
  sps ← parse_array payload index (38 + len vps) NaluTypeSps;
  let index := index + 5 + len sps in
  if len payload <? 43 + len vps + len sps then Fail ErrHevc else
  pps ← parse_array payload index (43 + len vps + len sps) NaluTypePps;
  Ret (mkUnits vps sps pps).

Definition ParseVpsSpsPpsFromSeqHeaderWithoutMalloc (TryAnnexb : bool) (payload : list Z) : outcome Units :=
  if len payload <? 5 then Fail ErrShortBuffer else
  p0 ← go_index payload 0; p1 ← go_index payload 1; p2 ← go_index payload 2;
  p3 ← go_index payload 3; p4 ← go_index payload 4;
  if negb (p0 =? 28) || negb (p1 =? 0) || negb (p2 =? 0) || negb (p3 =? 0) || negb (p4 =? 0)
  then Fail ErrHevc else
  if len payload <? 33 then Fail ErrHevc else
  match parseVpsSpsPpsFromRecord payload with
  | Fail e => if TryAnnexb then parseVpsSpsPpsAnnexbFromRecord payload else Fail e
  | r => r
  end.

(** The same units, copied. *)
Definition ParseVpsSpsPpsFromSeqHeader (TryAnnexb : bool) (payload : list Z) : outcome Units :=
  ParseVpsSpsPpsFromSeqHeaderWithoutMalloc TryAnnexb payload.

Definition ParseVpsSpsPpsFromEnhancedSeqHeader (payload : list Z) : outcome Units :=
  b ← go_index payload 0;
  let packetType := Z.land b 15 in
  if packetType =? 0 then parseVpsSpsPpsFromRecord payload else Fail ErrHevc.

Definition units_annexb (u : Units) : list Z :=
  NaluStartCode4 ++ uVps u ++ NaluStartCode4 ++ uSps u ++ NaluStartCode4 ++ uPps u.

Definition VpsSpsPpsSeqHeader2Annexb (TryAnnexb : bool) (payload : list Z) : outcome (list Z) :=
  u ← ParseVpsSpsPpsFromSeqHeaderWithoutMalloc TryAnnexb payload; Ret (units_annexb u).

Definition VpsSpsPpsEnhancedSeqHeader2Annexb (payload : list Z) : outcome (list Z) :=
  u ← ParseVpsSpsPpsFromEnhancedSeqHeader payload; Ret (units_annexb u).

Context {BI : NazaBits}.

Definition BuildVpsSpsPps2Annexb (vps sps pps : list Z) : outcome (list Z) :=
  ctx ← ParseVps vps newContext;
  _ ← ParseSps sps ctx;
  Ret (units_annexb (mkUnits vps sps pps)).

(** [f(b[i:])] writing through the slice. *)
Definition put16 (i v : Z) (sh : list Z) : outcome (list Z) := go_upd_from sh i (BePutUint16 v).
Definition put32 (i v : Z) (sh : list Z) : outcome (list Z) := go_upd_from sh i (BePutUint32 v).

(** One array with one unit at [i]; also returns where the next one starts. *)
Definition put_array (typ : Z) (unit : list Z) (i : Z) (sh : list Z) : outcome (Z * list Z) :=
  sh ← go_set sh i typ;
  sh ← put16 (i + 1) 1 sh;
  sh ← put16 (i + 3) (u16 (len unit)) sh;
  sh ← go_copy_at sh (i + 5) unit;
  Ret (i + 5 + len unit, sh).

(** Bytes 6 to 26. *)
Definition put_config (ctx : Context) (sh : list Z) : outcome (list Z) :=
  sh ← go_set sh 6 (Z.lor (Z.lor (u8 (Z.shiftl (GeneralProfileSpace ctx) 6))
                                 (u8 (Z.shiftl (GeneralTierFlag ctx) 5))) (GeneralProfileIdc ctx));
  sh ← put32 7 (GeneralProfileCompatibilityFlags ctx) sh;
  sh ← put32 11 (u32 (Z.shiftr (GeneralConstraintIndicatorFlags ctx) 16)) sh;
  sh ← put16 15 (u16 (GeneralConstraintIndicatorFlags ctx)) sh;
  sh ← go_set sh 17 (GeneralLevelIdc ctx);
  sh ← put16 18 61440 sh;
  sh ← go_set sh 20 252;
  sh ← go_set sh 21 (Z.lor (ChromaFormat ctx) 252);
  sh ← go_set sh 22 (Z.lor (BitDepthLumaMinus8 ctx) 248);
  sh ← go_set sh 23 (Z.lor (BitDepthChromaMinus8 ctx) 248);
  sh ← put16 24 0 sh;
  go_set sh 26 (Z.lor (Z.lor (u8 (Z.shiftl (NumTemporalLayers ctx) 3))
                             (u8 (Z.shiftl (TemporalIdNested ctx) 2))) (LengthSizeMinusOne ctx)).

Definition BuildSeqHeaderFromVpsSpsPps (vps sps pps : list Z) : outcome (list Z) :=
  let sh := go_make (43 + len vps + len sps + len pps) in
  sh ← go_set sh 0 28; sh ← go_set sh 1 0; sh ← go_set sh 2 0; sh ← go_set sh 3 0; sh ← go_set sh 4 0;
  sh ← go_set sh 5 1;
  ctx ← ParseVps vps newContext;
  ctx ← ParseSps sps ctx;
  sh ← put_config ctx sh;
  sh ← go_set sh 27 3;
  '(i, sh) ← put_array NaluTypeVps vps 28 sh;
  '(i, sh) ← put_array NaluTypeSps sps i sh;
  '(_, sh) ← put_array NaluTypePps pps i sh;
  Ret sh.
End Record.

(** ** Filling a buffer from the left *)

Section Fill.
Context {B : Bele} {HB : BeleLaws B}.

Lemma put16_fill h n i v : len h = i → 2 ≤ n → is_u16 v →
  put16 i v (h ++ go_make n) = Ret ((h ++ be_bytes 2 v) ++ go_make (n - 2)).
Proof.
  intros Hi Hn Hv. unfold put16. apply (upd_fill h n i _ (be_bytes 2 v)); [done|done|].
  apply BePutUint16_writes; [done|exact Hv].
Qed.

Lemma put32_fill h n i v : len h = i → 4 ≤ n → is_u32 v →
  put32 i v (h ++ go_make n) = Ret ((h ++ be_bytes 4 v) ++ go_make (n - 4)).
Proof.
  intros Hi Hn Hv. unfold put32. apply (upd_fill h n i _ (be_bytes 4 v)); [done|done|].
  apply BePutUint32_writes; [done|exact Hv].
Qed.
End Fill.

(** The next write goes where the zeros begin. *)
Ltac fill :=
  first [rewrite set_fill by len_lia | rewrite put16_fill by first [len_lia | apply u16_range]
        | rewrite put32_fill by first [len_lia | apply u32_range] | rewrite copy_fill by len_lia];
  rewrite bind_Ret.

Definition array_bytes (typ : Z) (unit : list Z) : list Z :=
  [typ] ++ be_bytes 2 1 ++ be_bytes 2 (len unit) ++ unit.

(** The record, with its 21 bytes of configuration, after five bytes of header. *)
Definition hevc_record (hdr cfg : list Z) (u : Units) : list Z :=
  hdr ++ [1] ++ cfg ++ [3] ++ array_bytes NaluTypeVps (uVps u) ++
  array_bytes NaluTypeSps (uSps u) ++ array_bytes NaluTypePps (uPps u).

Definition hevc_seq_header (cfg : list Z) (u : Units) : list Z := hevc_record [28; 0; 0; 0; 0] cfg u.

Definition units_ok (u : Units) : Prop := is_u16 (len (uVps u)) ∧ is_u16 (len (uSps u)) ∧ is_u16 (len (uPps u)).

Section Build.
Context {B : Bele} {HB : BeleLaws B}.

(** [f] writes [m] bytes, from offset [i] on. *)
Definition fills (i : Z) (f : list Z → outcome (list Z)) (m : Z) : Prop :=
  ∀ h n, len h = i → m ≤ n →
    ∃ bs, len bs = m ∧ f (h ++ go_make n) = Ret ((h ++ bs) ++ go_make (n - m)).

Lemma fills_set i v : fills i (λ sh, go_set sh i v) 1.
Proof. intros h n Hh Hn. exists [v]. split; [done|]. by apply set_fill. Qed.
Lemma fills_put16 i v : is_u16 v → fills i (put16 i v) 2.
Proof. intros Hv h n Hh Hn. exists (be_bytes 2 v). split; [done|]. by apply put16_fill. Qed.
Lemma fills_put32 i v : is_u32 v → fills i (put32 i v) 4.
Proof. intros Hv h n Hh Hn. exists (be_bytes 4 v). split; [done|]. by apply put32_fill. Qed.

Lemma fills_bind i f g m k :
  0 ≤ k → fills i f m → fills (i + m) g k → fills i (λ sh, sh ← f sh; g sh) (m + k).
Proof.
  intros Hk Hf Hg h n Hh Hn. destruct (Hf h n Hh ltac:(lia)) as (a & Ha & ->). rewrite bind_Ret.
  destruct (Hg (h ++ a) (n - m)) as (b & Hb & ->); [rewrite length_app; lia|lia|].
  exists (a ++ b). rewrite length_app, app_assoc. split; [lia|]. do 3 f_equal. lia.
Qed.

Definition compat_ok (c : Context) : Prop := is_u32 (GeneralProfileCompatibilityFlags c).

Lemma put_config_fills c : compat_ok c → fills 6 (put_config c) 21.
Proof.
  intros Hc. unfold put_config. change 21 with (1 + (4 + (4 + (2 + (1 + (2 + (1 + (1 + (1 + (1 + (2 + 1))))))))))).
  repeat (apply fills_bind;
    [done | first [apply fills_set | apply fills_put32; first [exact Hc | apply u32_range]
                  | apply fills_put16; first [apply u16_range | done]] | ]).
  apply fills_set.
Qed.

Lemma put_array_spec typ unit i h n : len h = i → 5 + len unit ≤ n → is_u16 (len unit) →
  put_array typ unit i (h ++ go_make n) =
  Ret (i + 5 + len unit, (h ++ array_bytes typ unit) ++ go_make (n - (5 + len unit))).
Proof.
  intros Hi Hn Hu. unfold put_array, array_bytes. rewrite (u16_small (len unit)) by done.
  do 4 fill. rewrite <- !app_assoc.
  replace (n - 1 - 2 - 2 - len unit) with (n - (5 + len unit)) by lia. done.
Qed.

Lemma array_bytes_length typ unit : len (array_bytes typ unit) = 5 + len unit.
Proof. unfold array_bytes. len_lia. Qed.

Context {BI : NazaBits}.

Lemma land_u32 a b : is_u32 a → is_u32 (Z.land a b).
Proof.
  intros Ha. rewrite <- (Z.mod_small a (2 ^ 32)) by done. rewrite <- Z.land_ones by done.
  rewrite <- Z.land_assoc, (Z.land_comm (Z.ones 32)), Z.land_assoc, Z.land_ones by done.
  by apply Z.mod_pos_bound.
Qed.

Lemma updatePtl_compat c p : compat_ok c → compat_ok (updatePtl c p).
Proof.
  unfold compat_ok, updatePtl. intros Hc. destruct (_ >? _); cbn [GeneralProfileCompatibilityFlags].
  all: by apply land_u32.
Qed.

Lemma max_layers_compat c m : compat_ok c → compat_ok (max_layers c m).
Proof. unfold max_layers. by destruct (_ >? _). Qed.
End Build.

(** Goes through the binds of a computation that returned. *)
Ltac inv_binds H :=
  repeat lazymatch type of H with
  | (if ?b then _ else _) = Ret _ => destruct b; [try discriminate H|try discriminate H]
  | (_ ≫= _) = Ret _ =>
      let a := fresh "a" in let Ha := fresh "Ha" in
      apply bind_Ret_inv in H as (a & Ha & H); try destruct a as [? ?]; cbn beta iota in H
  end.

Section BuildFacts.
Context {B : Bele} {HB : BeleLaws B} {BI : NazaBits}.

Lemma parsePtl_compat br c m c' br' : parsePtl br c m = Ret (c', br') → compat_ok c → compat_ok c'.
Proof.
  unfold parsePtl. intros H Hc. inv_binds H. all: simplify_eq. all: by apply updatePtl_compat.
Qed.

Lemma ParseVps_compat vps c c' : ParseVps vps c = Ret c' → compat_ok c → compat_ok c'.
Proof.
  unfold ParseVps. intros H Hc. inv_binds H. simplify_eq.
  eapply parsePtl_compat; [done|]. by apply max_layers_compat.
Qed.

Lemma ParseSps_compat sps c c' : ParseSps sps c = Ret c' → compat_ok c → compat_ok c'.
Proof.
  unfold ParseSps. intros H Hc. inv_binds H. simplify_eq.
  change (compat_ok c0). eapply parsePtl_compat; [done|]. by apply max_layers_compat.
Qed.

Lemma hevc_BuildSeqHeader_spec u c1 c2 :
  units_ok u → ParseVps (uVps u) newContext = Ret c1 → ParseSps (uSps u) c1 = Ret c2 →
  ∃ cfg, length cfg = 21%nat ∧
    BuildSeqHeaderFromVpsSpsPps (uVps u) (uSps u) (uPps u) = Ret (hevc_seq_header cfg u).
Proof.
  intros (Hv & Hs & Hp) E1 E2. unfold BuildSeqHeaderFromVpsSpsPps. cbv zeta.
  rewrite <- (app_nil_l (go_make _)). do 6 fill. rewrite E1, bind_Ret, E2, bind_Ret.
  edestruct (put_config_fills c2) as (cfg & Hcfg & ->); [|reflexivity|len_lia|rewrite bind_Ret].
  { eapply ParseSps_compat, ParseVps_compat; done. }
  exists cfg. split; [lia|]. fill.
  pose proof (array_bytes_length NaluTypeVps (uVps u)). pose proof (array_bytes_length NaluTypeSps (uSps u)).
  rewrite put_array_spec by len_lia. rewrite bind_Ret.
  rewrite put_array_spec by len_lia. rewrite bind_Ret.
  rewrite put_array_spec by len_lia. rewrite bind_Ret.
  rewrite go_make_0, app_nil_r by lia. by rewrite <- !app_assoc.
Qed.

Lemma parse_array_spec pre typ unit tl index base :
  len pre = index → typ ∈ [NaluTypeVps; NaluTypeSps; NaluTypePps] → is_u16 (len unit) →
  base + len unit ≤ len (pre ++ array_bytes typ unit ++ tl) →
  parse_array (pre ++ array_bytes typ unit ++ tl) index base typ = Ret unit.
Proof.
  intros Hi Ht Hu Hb. unfold parse_array, array_bytes in *. rewrite <- !app_assoc in *. cbn [app] in *.
  assert (Et : (Z.land typ 63 =? typ) = true).
  { repeat (apply elem_of_cons in Ht as [->|Ht]; [done|]). by apply not_elem_of_nil in Ht. }
  go_read. rewrite Et. cbn [negb]. go_read. rewrite BeUint16_be, bind_Ret by lia. cbn [Z.eqb Pos.eqb negb].
  go_read. rewrite BeUint16_be, bind_Ret by lia. go_test. walk_slice.
Qed.

Lemma parse_record_spec hdr cfg u :
  length hdr = 5%nat → length cfg = 21%nat → units_ok u →
  parseVpsSpsPpsFromRecord (hevc_record hdr cfg u) = Ret u.
Proof.
  intros Hh Hc (Hv & Hs & Hp). unfold parseVpsSpsPpsFromRecord, hevc_record.
  pose proof (array_bytes_length NaluTypeVps (uVps u)). pose proof (array_bytes_length NaluTypeSps (uSps u)).
  pose proof (array_bytes_length NaluTypePps (uPps u)).
  set (p := hdr ++ _).
  assert (E1 : p = (hdr ++ [1] ++ cfg ++ [3]) ++ array_bytes NaluTypeVps (uVps u) ++
    array_bytes NaluTypeSps (uSps u) ++ array_bytes NaluTypePps (uPps u)).
  { unfold p. by rewrite <- !app_assoc. }
  assert (Hl : len p = 28 + (5 + len (uVps u)) + (5 + len (uSps u)) + (5 + len (uPps u))).
  { rewrite E1. len_lia. }
  assert (E0 : go_index p 27 = Ret 3) by (unfold p; cbn [app]; walk_index).
  rewrite E0, bind_Ret. change (negb (3 =? 3) && _) with false. cbv iota. clearbody p.
  assert (Ev : parse_array p (27 + 1) 33 NaluTypeVps = Ret (uVps u)).
  { rewrite E1 in Hl |- *. apply parse_array_spec; [len_lia|rewrite !elem_of_cons; auto|done|rewrite Hl; lia]. }
  assert (Es : parse_array p (27 + 1 + 5 + len (uVps u)) (38 + len (uVps u)) NaluTypeSps = Ret (uSps u)).
  { rewrite app_assoc in E1. rewrite E1 in Hl |- *. apply parse_array_spec; [len_lia|rewrite !elem_of_cons; auto|done|rewrite Hl; lia]. }
  assert (Ep : parse_array p (27 + 1 + 5 + len (uVps u) + 5 + len (uSps u)) (43 + len (uVps u) + len (uSps u))
                 NaluTypePps = Ret (uPps u)).
  { rewrite !app_assoc in E1. rewrite <- (app_nil_r p), E1 in Hl |- *. rewrite <- (app_assoc _ _ []) in Hl |- *.
    apply parse_array_spec; [len_lia|rewrite !elem_of_cons; auto|done|rewrite Hl; lia]. }
  rewrite Ev, bind_Ret. rewrite (proj2 (Z.ltb_ge _ _)) by lia. rewrite Es, bind_Ret.
  rewrite (proj2 (Z.ltb_ge _ _)) by lia. rewrite Ep, bind_Ret. by destruct u.
Qed.

Lemma ParseSeqHeader_spec flag cfg u :
  length cfg = 21%nat → units_ok u →
  ParseVpsSpsPpsFromSeqHeaderWithoutMalloc flag (hevc_seq_header cfg u) = Ret u.
Proof.
  intros Hc Hu. unfold ParseVpsSpsPpsFromSeqHeaderWithoutMalloc. unfold hevc_seq_header. rewrite parse_record_spec by done.
  assert (Hl : 33 ≤ len (hevc_record [28; 0; 0; 0; 0] cfg u)).
  { unfold hevc_record. pose proof (array_bytes_length NaluTypeVps (uVps u)).
    pose proof (array_bytes_length NaluTypeSps (uSps u)). len_lia. }
  rewrite !(proj2 (Z.ltb_ge _ _)) by lia. done.
Qed.
End BuildFacts.

(** ** Emulation prevention

    The reference encoder: a 3 before a byte of at most 3 that follows two
    zeros; [z] zeros were written last. *)

Fixpoint escape (z : nat) (b : list Z) : list Z :=
  match b with
  | [] => []
  | x :: b =>
      if Nat.leb 2 z && (x <=? 3)
      then 3 :: x :: escape (if x =? 0 then 1 else 0) b
      else x :: escape (if x =? 0 then S z else 0) b
  end.

Lemma nal2rbsp_cons_nz x l : x ≠ 0 → nal2rbsp (x :: l) = x :: nal2rbsp l.
Proof. intros Hx. destruct l as [|y [|z l]]; cbn; [done|done|]. by rewrite (proj2 (Z.eqb_neq x 0)). Qed.

Lemma nal2rbsp_003 l : nal2rbsp (0 :: 0 :: 3 :: l) = 0 :: 0 :: nal2rbsp l.
Proof. reflexivity. Qed.

Lemma nal2rbsp_0_nz x l : x ≠ 0 → nal2rbsp (0 :: x :: l) = 0 :: nal2rbsp (x :: l).
Proof. intros Hx. destruct l; cbn; [done|]. by rewrite (proj2 (Z.eqb_neq x 0)). Qed.

Lemma nal2rbsp_00_not3 x l : x ≠ 3 → nal2rbsp (0 :: 0 :: x :: l) = 0 :: nal2rbsp (0 :: x :: l).
Proof. intros Hx. cbn [nal2rbsp Z.eqb andb]. by rewrite (proj2 (Z.eqb_neq x 3)). Qed.

Lemma nal2rbsp_escape_aux b z :
  is_bytes b → (z ≤ 2)%nat → nal2rbsp (replicate z 0 ++ escape z b) = replicate z 0 ++ b.
Proof.
  revert z. induction b as [|x b IH]; intros z Hb Hz.
  { cbn [escape]. rewrite app_nil_r. by destruct z as [|[|[|z]]]; [..|lia]. }
  apply is_bytes_cons in Hb as [Hx Hb]. cbn [escape].
  destruct (decide (x = 0)) as [->|Hx0].
  - cbn [Z.eqb]. destruct (decide (z = 2%nat)) as [->|Hz2].
    + cbn [Nat.leb andb Z.leb Z.compare replicate app]. rewrite nal2rbsp_003.
      specialize (IH 1%nat Hb ltac:(lia)). cbn [replicate app] in IH. by rewrite IH.
    + rewrite (proj2 (Nat.leb_gt 2 z)) by lia. cbn [andb].
      specialize (IH (S z) Hb ltac:(lia)). rewrite !replicate_S_end, <- !app_assoc in IH. exact IH.
  - specialize (IH 0%nat Hb ltac:(lia)). cbn [replicate app] in IH.
    rewrite (proj2 (Z.eqb_neq x 0)) by done.
    destruct z as [|[|[|z]]]; cbn [Nat.leb andb replicate app]; [| | |lia].
    + by rewrite nal2rbsp_cons_nz, IH.
    + by rewrite nal2rbsp_0_nz, nal2rbsp_cons_nz, IH.
    + destruct (Z.leb_spec x 3).
      * rewrite nal2rbsp_003. by rewrite nal2rbsp_cons_nz, IH.
      * rewrite nal2rbsp_00_not3 by lia. by rewrite nal2rbsp_0_nz, nal2rbsp_cons_nz, IH.
Qed.

Lemma nal2rbsp_escape b : is_bytes b → nal2rbsp (escape 0 b) = b.
Proof. intros Hb. apply (nal2rbsp_escape_aux b 0); [done|lia]. Qed.

(** ** The bits of an SPS

    The syntax of 7.3.2.2 up to the last field lal reads. *)

Record SubLayer := mkSubLayer {
  subProfile : option (Z * Z * Z);
  subLevel : option Z;
}.

Definition flag {A} (o : option A) : Z := match o with Some _ => 1 | None => 0 end.

Definition sub_flags (s : SubLayer) : list bool :=
  num_bits 1 (flag (subProfile s)) ++ num_bits 1 (flag (subLevel s)).
Definition sub_body (s : SubLayer) : list bool :=
  match subProfile s with
  | Some (a, b, c) => num_bits 32 a ++ num_bits 32 b ++ num_bits 24 c
  | None => []
  end ++
  match subLevel s with Some l => num_bits 8 l | None => [] end.

Definition ptl_bits (p : Ptl) (subs : list SubLayer) : list bool :=
  num_bits 2 (ptlSpace p) ++ num_bits 1 (ptlTier p) ++ num_bits 5 (ptlProfile p) ++
  num_bits 32 (ptlCompat p) ++ num_bits 48 (ptlConstraint p) ++ num_bits 8 (ptlLevel p) ++
  (if bool_decide (subs = []) then []
   else mjoin (sub_flags <$> subs) ++ mjoin (replicate (8 - length subs) (num_bits 2 0)) ++
        mjoin (sub_body <$> subs)).

Record Sps := mkSps {
  spsVpsId : Z; spsSubs : list SubLayer; spsNested : Z; spsPtl : Ptl; spsId : Z;
  spsChroma : Z; spsPlane : Z; spsWidth : Z; spsHeight : Z; spsWindow : list Z;
  spsLuma : Z; spsChromaDepth : Z; spsPoc : Z; spsOrderAll : bool; spsOrder : list Z;
  spsBlocks : list Z;
}.

Definition sps_bits (s : Sps) : list bool :=
  num_bits 4 (spsVpsId s) ++ num_bits 3 (len (spsSubs s)) ++ num_bits 1 (spsNested s) ++
  ptl_bits (spsPtl s) (spsSubs s) ++ golomb_bits (spsId s) ++ golomb_bits (spsChroma s) ++
  (if spsChroma s =? 3 then num_bits 1 (spsPlane s) else []) ++
  golomb_bits (spsWidth s) ++ golomb_bits (spsHeight s) ++
  num_bits 1 (if bool_decide (spsWindow s = []) then 0 else 1) ++ mjoin (golomb_bits <$> spsWindow s) ++
  golomb_bits (spsLuma s) ++ golomb_bits (spsChromaDepth s) ++ golomb_bits (spsPoc s) ++
  num_bits 1 (if spsOrderAll s then 1 else 0) ++ mjoin (golomb_bits <$> spsOrder s) ++
  mjoin (golomb_bits <$> spsBlocks s).

Definition golomb_ok (v : Z) : Prop := 0 ≤ v ∧ is_u32 (v + 1).

Definition ptl_ok (p : Ptl) : Prop :=
  0 ≤ ptlSpace p < 4 ∧ 0 ≤ ptlTier p < 2 ∧ 0 ≤ ptlProfile p < 32 ∧ is_u32 (ptlCompat p) ∧
  0 ≤ ptlConstraint p < 281474976710656 ∧ is_u8 (ptlLevel p).

Record sps_ok (s : Sps) : Prop := {
  ok_vps : 0 ≤ spsVpsId s < 16;
  ok_subs : (length (spsSubs s) < 8)%nat;
  ok_nested : 0 ≤ spsNested s < 2;
  ok_ptl : ptl_ok (spsPtl s);
  ok_ues : Forall golomb_ok [spsId s; spsWidth s; spsHeight s; spsLuma s; spsChromaDepth s; spsPoc s];
  ok_chroma : is_u8 (spsChroma s);
  ok_window : spsWindow s = [] ∨ length (spsWindow s) = 4%nat;
  ok_order : length (spsOrder s) = (3 * if spsOrderAll s then S (length (spsSubs s)) else 1)%nat;
  ok_blocks : length (spsBlocks s) = 6%nat;
  ok_lists : Forall golomb_ok (spsWindow s ++ spsOrder s ++ spsBlocks s);
}.

Section SpsFacts.
Context {BI : NazaBits} {HBI : NazaBitsLaws BI}.

Lemma rd_bits k a rest br : k = len a → br_bits br = a ++ rest →
  ∃ br', rd k br = Ret (bits_val a, br') ∧ br_bits br' = rest.
Proof.
  intros -> Hr. destruct (br_read (len a) br) as [E1 E2]; [rewrite Hr, length_app; lia|].
  rewrite Nat2Z.id, Hr, take_app_length in E1. rewrite Nat2Z.id, Hr, drop_app_length in E2.
  unfold rd. destruct (ReadBits (len a) br) as [[v e] br']. cbn in E1, E2. simplify_eq. by exists br'.
Qed.

Lemma rd_field k n v rest br : k = Z.of_nat n → 0 ≤ v < 2 ^ Z.of_nat n → br_bits br = num_bits n v ++ rest →
  ∃ br', rd k br = Ret (v, br') ∧ br_bits br' = rest.
Proof.
  intros -> Hv Hr. destruct (rd_bits (Z.of_nat n) (num_bits n v) rest br) as (br' & E & H).
  { by rewrite num_bits_length. }
  { done. }
  rewrite bits_val_num_small in E by done. by exists br'.
Qed.

Lemma rd_skip k n v rest br : k = Z.of_nat n → br_bits br = num_bits n v ++ rest →
  ∃ x br', rd k br = Ret (x, br') ∧ br_bits br' = rest.
Proof.
  intros -> Hr. destruct (rd_bits (Z.of_nat n) (num_bits n v) rest br) as (br' & E & H);
    [by rewrite num_bits_length|done|eauto].
Qed.

Lemma ue_field v rest br : golomb_ok v → br_bits br = golomb_bits v ++ rest →
  ∃ br', ue br = Ret (v, br') ∧ br_bits br' = rest.
Proof.
  intros [H0 Hv] Hr. destruct (br_golomb v rest br Hv H0 Hr) as [E1 E2]. unfold ue.
  destruct (ReadGolomb br) as [[x e] br']. cbn in E1, E2. simplify_eq. eauto.
Qed.

Lemma ues_fields l rest br : Forall golomb_ok l → br_bits br = mjoin (golomb_bits <$> l) ++ rest →
  ∃ br', ues (length l) br = Ret br' ∧ br_bits br' = rest.
Proof.
  revert br. induction l as [|v l IH]; intros br Hl Hr; [by exists br|].
  apply List.Forall_cons_iff in Hl as [Hv Hl]. change (mjoin (golomb_bits <$> v :: l))
    with (golomb_bits v ++ mjoin (golomb_bits <$> l)) in Hr. rewrite <- app_assoc in Hr.
  destruct (ue_field v _ br Hv Hr) as (br' & E & H). cbn [length ues]. rewrite E, bind_Ret. by apply IH.
Qed.

Lemma rds_fields k rest br : br_bits br = mjoin (replicate k (num_bits 2 0)) ++ rest →
  ∃ br', rds k 2 br = Ret br' ∧ br_bits br' = rest.
Proof.
  revert br. induction k as [|k IH]; intros br Hr; [by exists br|].
  cbn [replicate] in Hr. change (mjoin (?x :: ?l)) with (x ++ mjoin l) in Hr. rewrite <- app_assoc in Hr.
  destruct (rd_skip 2 2 0 _ br eq_refl Hr) as (x & br' & E & H). cbn [rds]. rewrite E, bind_Ret. by apply IH.
Qed.
End SpsFacts.

(** Runs the next read whose error is checked; [H] says what bits are left.
    [rd_val] needs the range of the field, [rd_any] forgets its value. *)
Ltac rd_val H :=
  lazymatch type of H with
  | br_bits ?r = num_bits ?n ?v ++ ?rest =>
      lazymatch goal with
      | |- context [rd ?k r] =>
          let r' := fresh "br" in let E := fresh "E" in let H' := fresh "H" in
          destruct (rd_field k n v rest r eq_refl) as (r' & E & H');
          [change (2 ^ Z.of_nat n) with (2 ^ k); try lia | exact H |
           rewrite E; clear E H; rename H' into H]
      end
  end; cbn [or_hevc]; rewrite ?bind_Ret; cbv beta iota.
Ltac rd_any H :=
  lazymatch type of H with
  | br_bits ?r = num_bits ?n ?v ++ ?rest =>
      lazymatch goal with
      | |- context [rd ?k r] =>
          let r' := fresh "br" in let E := fresh "E" in let H' := fresh "H" in let x := fresh "x" in
          destruct (rd_skip k n v rest r eq_refl H) as (x & r' & E & H');
          rewrite E; clear E H; rename H' into H
      end
  end; cbn [or_hevc]; rewrite ?bind_Ret; cbv beta iota.
Ltac ue_val H Hok :=
  lazymatch type of H with
  | br_bits ?r = golomb_bits ?v ++ ?rest =>
      let r' := fresh "br" in let E := fresh "E" in let H' := fresh "H" in
      destruct (ue_field v rest r Hok H) as (r' & E & H'); rewrite E; clear E H; rename H' into H
  end; rewrite ?bind_Ret; cbv beta iota.

Section PtlFacts.
Context {BI : NazaBits} {HBI : NazaBitsLaws BI}.

Lemma flag_range {A} (o : option A) : 0 ≤ flag o < 2.
Proof. by destruct o. Qed.

Lemma ptl_flags_spec subs rest br :
  br_bits br = mjoin (sub_flags <$> subs) ++ rest →
  ∃ br', ptl_flags (length subs) br = Ret ((λ s, (flag (subProfile s), flag (subLevel s))) <$> subs, br') ∧
         br_bits br' = rest.
Proof.
  revert br. induction subs as [|s subs IH]; intros br Hr; [by exists br|].
  change (mjoin (sub_flags <$> s :: subs)) with (sub_flags s ++ mjoin (sub_flags <$> subs)) in Hr.
  unfold sub_flags in Hr. rewrite <- !app_assoc in Hr. cbn [length ptl_flags].
  rd_val Hr; [apply flag_range|]. rd_val Hr; [apply flag_range|].
  destruct (IH _ Hr) as (br' & -> & H). rewrite bind_Ret. by exists br'.
Qed.

Lemma ptl_skip_spec subs rest br :
  br_bits br = mjoin (sub_body <$> subs) ++ rest →
  ∃ br', ptl_skip ((λ s, (flag (subProfile s), flag (subLevel s))) <$> subs) br = Ret br' ∧
         br_bits br' = rest.
Proof.
  revert br. induction subs as [|s subs IH]; intros br Hr; [by exists br|].
  change (mjoin (sub_body <$> s :: subs)) with (sub_body s ++ mjoin (sub_body <$> subs)) in Hr.
  unfold sub_body in Hr. destruct s as [[[[a b] c]|] [l|]]; cbn [subProfile subLevel] in Hr;
    rewrite <- ?app_assoc in Hr; cbn [fmap list_fmap ptl_skip subProfile subLevel flag Z.eqb negb].
  all: cbn [app] in Hr; rewrite ?bind_Ret; repeat rd_any Hr; by apply IH.
Qed.

Lemma parsePtl_spec p subs c rest br :
  ptl_ok p → (length subs < 8)%nat → br_bits br = ptl_bits p subs ++ rest →
  ∃ br', parsePtl br c (len subs) = Ret (updatePtl c p, br') ∧ br_bits br' = rest.
Proof.
  intros (H1 & H2 & H3 & H4 & H5 & H6) Hn Hr. unfold ptl_bits in Hr. rewrite <- !app_assoc in Hr.
  unfold parsePtl. do 6 rd_val Hr. replace (mkPtl _ _ _ _ _ _) with p by by destruct p.
  case_bool_decide as Hs; [subst subs; by eexists|].
  assert (Hl : length subs ≠ 0%nat) by by destruct subs.
  go_test. go_test. rewrite <- !app_assoc in Hr. rewrite Nat2Z.id.
  destruct (ptl_flags_spec subs _ _ Hr) as (bf & -> & Hr1). rewrite bind_Ret.
  replace (Z.to_nat (8 - len subs)) with (8 - length subs)%nat by lia.
  destruct (rds_fields _ _ _ Hr1) as (bz & -> & Hr2). rewrite bind_Ret.
  destruct (ptl_skip_spec subs _ _ Hr2) as (bs & -> & Hr3). rewrite bind_Ret. by exists bs.
Qed.

Lemma golomb_ok_u8 v : is_u8 v → golomb_ok v.
Proof. split; lia. Qed.

Lemma opt_plane cf v rest br :
  br_bits br = (if cf =? 3 then num_bits 1 v else []) ++ rest →
  ∃ br', (if cf =? 3 then '(_, br) ← rd 1 br; Ret br else Ret br) = Ret br' ∧ br_bits br' = rest.
Proof. intros Hr. destruct (cf =? 3); [rd_any Hr|]; eauto. Qed.

Lemma opt_window l rest br :
  l = [] ∨ length l = 4%nat → Forall golomb_ok l → br_bits br = mjoin (golomb_bits <$> l) ++ rest →
  ∃ br', (if negb ((if bool_decide (l = []) then 0 else 1) =? 0) then ues 4 br else Ret br) = Ret br' ∧
         br_bits br' = rest.
Proof.
  intros [->|Hl] Hok Hr; [by exists br|]. rewrite bool_decide_false by by intros ->. cbn [Z.eqb negb].
  rewrite <- Hl. by apply ues_fields.
Qed.

(** What [ParseSps] makes of an SPS. *)
Definition sps_context (s : Sps) (c : Context) : Context :=
  set_picture (updatePtl (set_nested (max_layers c (len (spsSubs s))) (spsNested s)) (spsPtl s))
    (spsWidth s) (spsHeight s) (spsChroma s) (u8 (spsLuma s)) (u8 (spsChromaDepth s)).

Lemma hevc_ParseSps_spec s h0 h1 n tl c :
  sps_ok s → length (sps_bits s ++ tl) = (8 * n)%nat →
  ParseSps (h0 :: h1 :: escape 0 (pack_bits n (sps_bits s ++ tl))) c = Ret (sps_context s c).
Proof.
  intros [] Hn. unfold ParseSps. go_test. go_read.
  rewrite nal2rbsp_escape by (apply is_bytes_pack_bits; lia).
  set (br := NewBitReader _). assert (Hr : br_bits br = sps_bits s ++ tl).
  { unfold br. by rewrite br_new, byte_bits_pack. }
  clearbody br. unfold sps_bits in Hr. rewrite <- !app_assoc in Hr.
  apply Forall_app in ok_lists0 as [Hw Hob]. apply Forall_app in Hob as [Ho Hb].
  rewrite !List.Forall_cons_iff in ok_ues0. destruct ok_ues0 as (U1 & U2 & U3 & U4 & U5 & U6 & _).
  rd_any Hr. rd_val Hr. rd_val Hr.
  edestruct parsePtl_spec as (br' & E & Hr'); [exact ok_ptl0|exact ok_subs0|exact Hr|].
  rewrite E, bind_Ret. clear E Hr. rename Hr' into Hr.
  ue_val Hr U1. ue_val Hr (golomb_ok_u8 _ ok_chroma0). rewrite (u8_small (spsChroma s)) by done.
  destruct (opt_plane _ _ _ _ Hr) as (bp & -> & H). clear Hr. rewrite bind_Ret.
  ue_val H U2. ue_val H U3. rd_val H; [by case_bool_decide|].
  destruct (opt_window _ _ _ ok_window0 Hw H) as (bw & -> & H'). clear H. rewrite bind_Ret.
  ue_val H' U4. ue_val H' U5. ue_val H' U6. rd_val H'; [by destruct (spsOrderAll s)|].
  replace (3 * Z.to_nat _)%nat with (length (spsOrder s)).
  2: { rewrite ok_order0. destruct (spsOrderAll s); cbn [Z.eqb negb]; lia. }
  destruct (ues_fields _ _ _ Ho H') as (b1 & -> & H1). rewrite bind_Ret.
  rewrite <- ok_blocks0. destruct (ues_fields _ _ _ Hb H1) as (b2 & -> & _). by rewrite bind_Ret.
Qed.
End PtlFacts.

(** ** Properties *)

(** C13: A sequence header built from a VPS, an SPS and a PPS that lal can parse
    splits into the same three units again, as an RTMP payload, as the payload
    of an enhanced header and, joined with start codes, as the Annex-B form
    lal keeps for key frames. *)
Theorem hevc_seq_header_roundtrip {B : Bele} (HB : BeleLaws B) {BI : NazaBits} u c1 c2 flag :
  units_ok u → ParseVps (uVps u) newContext = Ret c1 → ParseSps (uSps u) c1 = Ret c2 →
  ∃ sh, BuildSeqHeaderFromVpsSpsPps (uVps u) (uSps u) (uPps u) = Ret sh ∧
    ParseVpsSpsPpsFromSeqHeader flag sh = Ret u ∧
    (∀ x hdr, Z.land x 15 = 0 → length hdr = 4%nat →
       ParseVpsSpsPpsFromEnhancedSeqHeader ((x :: hdr) ++ drop 5 sh) = Ret u) ∧
    VpsSpsPpsSeqHeader2Annexb flag sh = BuildVpsSpsPps2Annexb (uVps u) (uSps u) (uPps u).
Proof.
  intros Hu E1 E2. destruct (hevc_BuildSeqHeader_spec u c1 c2 Hu E1 E2) as (cfg & Hc & ->).
  exists (hevc_seq_header cfg u). split; [done|]. split; [by apply ParseSeqHeader_spec|]. split.
  - intros x hdr Hx Hh. unfold ParseVpsSpsPpsFromEnhancedSeqHeader.
    cbn [app]. rewrite go_index_head by done. rewrite bind_Ret, Hx. cbn [Z.eqb].
    apply (parse_record_spec (x :: hdr) cfg u); [by rewrite length_cons, Hh|done|done].
  - unfold VpsSpsPpsSeqHeader2Annexb. rewrite ParseSeqHeader_spec by done.
    unfold BuildVpsSpsPps2Annexb. rewrite E1, !bind_Ret, E2. by destruct u.
Qed.

(** C15: Whatever the picture size, profile, sub-layers and conformance window of
    an SPS laid out as the standard says, with emulation prevention bytes and
    anything behind, [ParseSps] reads that size, chroma format, bit depths,
    nesting flag and number of layers, and merges its profile, tier and level
    into the context. *)
Theorem hevc_sps_parse {BI : NazaBits} (HBI : NazaBitsLaws BI) s h0 h1 n tl c :
  sps_ok s → length (sps_bits s ++ tl) = (8 * n)%nat →
  ParseSps (h0 :: h1 :: escape 0 (pack_bits n (sps_bits s ++ tl))) c = Ret (sps_context s c).
Proof. apply hevc_ParseSps_spec. Qed.

(** Witnesses: a 1920x1080 SPS and a VPS. *)
Definition demo_ptl : Ptl := mkPtl 0 0 1 1610612736 158329674399744 93.
Definition demo_sps : Sps :=
  mkSps 0 [] 1 demo_ptl 0 1 0 1920 1080 [] 0 0 4 true [4; 2; 0] [0; 3; 0; 3; 0; 0].
Definition demo_tail : list bool := replicate ((8 - length (sps_bits demo_sps) mod 8) mod 8) true.
Definition demo_sps_nal : list Z :=
  66 :: 1 :: escape 0 (pack_bits (length (sps_bits demo_sps ++ demo_tail) / 8) (sps_bits demo_sps ++ demo_tail)).
Definition demo_vps_nal : list Z :=
  64 :: 1 :: escape 0 (pack_bits 16
    (num_bits 12 15 ++ num_bits 3 0 ++ num_bits 17 131071 ++ ptl_bits demo_ptl [] ++ replicate 8 true)).
Definition demo_units : Units := mkUnits demo_vps_nal demo_sps_nal [68; 1; 193; 98].

Definition ret_or {A} (d : A) (m : outcome A) : A := match m with Ret a => a | _ => d end.

Lemma hevc_seq_header_roundtrip_witness :
  ∃ sh, BuildSeqHeaderFromVpsSpsPps (B := bele_impl) (BI := bits_impl)
          (uVps demo_units) (uSps demo_units) (uPps demo_units) = Ret sh ∧
    ParseVpsSpsPpsFromSeqHeader (B := bele_impl) true sh = Ret demo_units.
Proof.
  destruct (hevc_seq_header_roundtrip (B := bele_impl) bele_impl_laws (BI := bits_impl) demo_units
    (ret_or newContext (ParseVps (BI := bits_impl) demo_vps_nal newContext))
    (ret_or newContext (ParseSps (BI := bits_impl) demo_sps_nal
       (ret_or newContext (ParseVps (BI := bits_impl) demo_vps_nal newContext)))) true)
    as (sh & H1 & H2 & _).
  - repeat split; by vm_compute.
  - vm_compute. reflexivity.
  - vm_compute. reflexivity.
  - exists sh. split; [exact H1|exact H2].
Defined.

Lemma hevc_sps_parse_witness :
  ParseSps (BI := bits_impl) demo_sps_nal newContext = Ret (sps_context demo_sps newContext) ∧
  PicWidthInLumaSamples (sps_context demo_sps newContext) = 1920.
Proof.
  split; [|reflexivity].
  apply (hevc_sps_parse (BI := bits_impl) bits_impl_laws demo_sps 66 1 _ demo_tail newContext).
  - split; cbn [demo_sps spsVpsId spsSubs spsNested spsPtl spsId spsChroma spsWindow spsOrder spsOrderAll
      spsBlocks spsWidth spsHeight spsLuma spsChromaDepth spsPoc length app]; try lia; try reflexivity.
    + repeat split; by vm_compute.
    + repeat apply List.Forall_cons; repeat split; try apply List.Forall_nil; by vm_compute.
    + by left.
    + repeat apply List.Forall_cons; repeat split; try apply List.Forall_nil; by vm_compute.
  - vm_compute. reflexivity.
Defined.

(** What malformed headers do: an enhanced header shorter than 28 bytes, and an
    empty unit met by the Annex-B fallback, make the parsers panic. *)
Lemma hevc_short_enhanced_panics {B : Bele} :
  ParseVpsSpsPpsFromEnhancedSeqHeader (144 :: replicate 20 0) = Panic.
Proof. reflexivity. Qed.

Definition empty_unit_header : list Z :=
  [28; 0; 0; 0; 0] ++ [0; 0; 0; 1; 0; 0; 0; 1] ++ replicate 20 255.

Lemma hevc_annexb_fallback_panics {B : Bele} :
  ParseVpsSpsPpsFromSeqHeader true empty_unit_header = Panic.
Proof. reflexivity. Qed.
