(* ===== verification/AvcSeq.v ===== *)
(** * H.264 parameter sets and sequence headers (src/pkg/avc/avc.go, beta.go)

    The AVC sequence header built from and split into parameter sets (also
    several of each), slice types, and the fields of the SPS from which lal
    takes the size of the picture.  An SPS is a map from its fields to numbers,
    filled while the bits are read: when reading fails half-way, what was read
    so far is what counts. *)

From S2P Require Import Prelude Naza Bits.
From S2P Require Avc.

Definition NaluStartCode3 : list Z := [0; 0; 1].
Definition NaluStartCode4 : list Z := Avc.NaluStartCode4.
Definition AudNalu : list Z := [0; 0; 0; 1; 9; 240].

(** ** The SPS *)

Inductive SpsField :=
  | ProfileIdc | ConstraintSet0Flag | ConstraintSet1Flag | ConstraintSet2Flag | LevelIdc | SpsId
  | ChromaFormatIdc | ResidualColorTransformFlag | BitDepthLuma | BitDepthChroma | TransFormBypass
  | Log2MaxFrameNumMinus4 | PicOrderCntType | Log2MaxPicOrderCntLsb
  | NumRefFrames | GapsInFrameNumValueAllowedFlag | PicWidthInMbsMinusOne | PicHeightInMapUnitsMinusOne
  | FrameMbsOnlyFlag | MbAdaptiveFrameFieldFlag | Direct8X8InferenceFlag
  | FrameCroppingFlag | FrameCropLeftOffset | FrameCropRightOffset | FrameCropTopOffset
  | FrameCropBottomOffset | SarNum | SarDen.

#[global] Instance SpsField_eq_dec : EqDecision SpsField.
Proof. solve_decision. Defined.

Definition Sps : Type := SpsField → Z.
Definition zero_sps : Sps := λ _, 0.
Definition upd (f : SpsField) (v : Z) (s : Sps) : Sps := λ g, if decide (g = f) then v else s g.

Record Context := mkContext {
  Profile : Z;
  Level : Z;
  Width : Z;
  Height : Z;
  ctxSps : Sps;
}.

Section Parse.
Context {BI : NazaBits}.

(** The SPS so far and the reader. *)
Definition St : Type := Sps * BitReader.

Definition check {A} (a : A) (e : option goerr) : outcome A :=
  match e with None => Ret a | Some e => Fail e end.

(** [sps.f, err = br.Read...; if err != nil { return ... }] *)
Definition field (n : Z) (f : SpsField) : eff St unit := λ '(s, br),
  let '(v, e, br) := ReadBits n br in ((upd f v s, br), check tt e).
Definition field_golomb (f : SpsField) : eff St unit := λ '(s, br),
  let '(v, e, br) := ReadGolomb br in ((upd f v s, br), check tt e).
Definition field_ue (f : SpsField) : eff St unit := λ '(s, br),
  let '(v, e, br) := ReadUeGolomb br in ((upd f v s, br), check tt e).
(** The same with the error dropped. *)
Definition field_ (n : Z) (f : SpsField) : eff St unit := λ '(s, br),
  let '(v, _, br) := ReadBits n br in ((upd f v s, br), Ret tt).
Definition field_ue_ (f : SpsField) : eff St unit := λ '(s, br),
  let '(v, _, br) := ReadUeGolomb br in ((upd f v s, br), Ret tt).
(** Reads into a local variable. *)
Definition bits (n : Z) : eff St Z := λ '(s, br),
  let '(v, e, br) := ReadBits n br in ((s, br), check v e).
Definition ueg : eff St Z := λ '(s, br),
  let '(v, e, br) := ReadUeGolomb br in ((s, br), check v e).
Definition seg : eff St Z := λ '(s, br),
  let '(v, e, br) := ReadSeGolomb br in ((s, br), check v e).
Definition bits_ (n : Z) : eff St unit := λ '(s, br), ((s, (ReadBits n br).2), Ret tt).
Definition seg_ : eff St unit := λ '(s, br), ((s, (ReadSeGolomb br).2), Ret tt).

Definition get (f : SpsField) : eff St Z := λ st, (st, Ret (st.1 f)).
Definition put (f : SpsField) (v : Z) : eff St unit := λ '(s, br), ((upd f v s, br), Ret tt).

(** [if br.Err() != nil { return nazaerrors.Wrap(err) }]; [err] is nil here,
    and the caller only logs what it gets. *)
Definition check_reader : eff St unit := λ '(s, br),
  ((s, br), match BitErr br with None => Ret tt | Some _ => Fail ErrFmt end).

Definition parseSpsBasic : eff St unit :=
  _ ← bits 8;
  _ ← field 8 ProfileIdc;
  _ ← field 1 ConstraintSet0Flag;
  _ ← field 1 ConstraintSet1Flag;
  _ ← field 1 ConstraintSet2Flag;
  _ ← bits 5;
  _ ← field 8 LevelIdc;
  _ ← field_golomb SpsId;
  id ← get SpsId;
  if id >=? 32 then lift (Fail ErrAvc) else mret tt.

(** One scaling list of [n] entries. *)
Fixpoint scaling_list (n : nat) (lastScale nextScale : Z) : eff St unit :=
  match n with
  | O => mret tt
  | S n =>
      nextScale ← (if negb (nextScale =? 0) then
                     v ← seg; mret (Z.land (lastScale + v) 255)
                   else mret nextScale);
      scaling_list n (if negb (nextScale =? 0) then nextScale else lastScale) nextScale
  end.

(** Lists [i], ..., [i + n - 1]. *)
Fixpoint scaling_lists (n : nat) (i : Z) : eff St unit :=
  match n with
  | O => mret tt
  | S n =>
      flag ← bits 1;
      _ ← (if flag =? 0 then mret tt
           else scaling_list (if i >=? 6 then 64 else 16) 8 8);
      scaling_lists n (i + 1)
  end.

Definition high_profiles : list Z := [100; 110; 122; 244; 44; 83; 86; 118; 128; 138; 139; 134].

Definition gamma_chroma : eff St unit :=
  idc ← get ProfileIdc;
  if bool_decide (idc ∈ high_profiles) then
    _ ← field_ue ChromaFormatIdc;
    cf ← get ChromaFormatIdc;
    _ ← (if cf =? 3 then field 1 ResidualColorTransformFlag else mret tt);
    _ ← field_ue BitDepthLuma;
    v ← get BitDepthLuma; _ ← put BitDepthLuma (u32 (v + 8));
    _ ← field_ue BitDepthChroma;
    v ← get BitDepthChroma; _ ← put BitDepthChroma (u32 (v + 8));
    _ ← field 1 TransFormBypass;
    flag ← bits 1;
    if flag =? 1 then scaling_lists (if cf =? 3 then 12 else 8) 0 else mret tt
  else
    _ ← put ChromaFormatIdc 1;
    _ ← put BitDepthLuma 8;
    put BitDepthChroma 8.

Fixpoint segs (n : nat) : eff St unit :=
  match n with O => mret tt | S n => _ ← seg; segs n end.

Definition gamma_poc : eff St unit :=
  t ← get PicOrderCntType;
  if t =? 0 then
    _ ← field_ue Log2MaxPicOrderCntLsb;
    v ← get Log2MaxPicOrderCntLsb; put Log2MaxPicOrderCntLsb (u32 (v + 4))
  else if t =? 1 then
    _ ← bits_ 1; _ ← seg_; _ ← seg_;
    _ ← check_reader;
    nrfipocc ← ueg;
    segs (Z.to_nat nrfipocc)
  else mret tt.

Definition gamma_size : eff St unit :=
  _ ← field_ue_ NumRefFrames;
  _ ← field_ 1 GapsInFrameNumValueAllowedFlag;
  _ ← field_ue_ PicWidthInMbsMinusOne;
  _ ← field_ue_ PicHeightInMapUnitsMinusOne;
  _ ← check_reader;
  _ ← field 1 FrameMbsOnlyFlag;
  f ← get FrameMbsOnlyFlag;
  _ ← (if f =? 0 then field 1 MbAdaptiveFrameFieldFlag else mret tt);
  _ ← field 1 Direct8X8InferenceFlag;
  _ ← field 1 FrameCroppingFlag;
  c ← get FrameCroppingFlag;
  if c =? 1 then
    _ ← field_ue_ FrameCropLeftOffset;
    _ ← field_ue_ FrameCropRightOffset;
    _ ← field_ue_ FrameCropTopOffset;
    _ ← field_ue_ FrameCropBottomOffset;
    check_reader
  else mret tt.

Definition sar_mapping : list (Z * Z) :=
  [(0, 1); (1, 1); (12, 11); (10, 11); (16, 11); (40, 33); (24, 11); (20, 11); (32, 11); (80, 33);
   (18, 11); (15, 11); (64, 33); (160, 99); (4, 3); (3, 2); (2, 1)].

Definition gamma_vui : eff St unit :=
  flag ← bits 1;
  _ ← (if flag =? 1 then
         flag ← bits 1;
         if flag =? 1 then
           ari ← bits 8;
           if ari =? 255 then
             v ← bits 16; _ ← put SarNum v;
             v ← bits 16; put SarDen v
           else if ari <? 17 then
             '(n, d) ← lift (go_index sar_mapping ari);
             _ ← put SarNum n; put SarDen d
           else mret tt
         else mret tt
       else mret tt);
  den ← get SarDen;
  if den =? 0 then _ ← put SarNum 1; put SarDen 1 else mret tt.

Definition parseSpsGamma : eff St unit :=
  _ ← gamma_chroma;
  _ ← field_ue Log2MaxFrameNumMinus4;
  _ ← field_ue PicOrderCntType;
  _ ← gamma_poc;
  _ ← gamma_size;
  gamma_vui.

Definition sps_width (s : Sps) : Z :=
  u32 ((s PicWidthInMbsMinusOne + 1) * 16 - (s FrameCropLeftOffset + s FrameCropRightOffset) * 2).
Definition sps_height (s : Sps) : Z :=
  u32 ((2 - s FrameMbsOnlyFlag) * (s PicHeightInMapUnitsMinusOne + 1) * 16 -
       (s FrameCropTopOffset + s FrameCropBottomOffset) * 2).

(** The error of [parseSpsGamma] is logged only. *)
Definition ParseSps (payload : list Z) : outcome Context :=
  let '((sps, br), r) := parseSpsBasic (zero_sps, NewBitReader payload) in
  match r with
  | Ret _ =>
      let '((sps, _), r) := parseSpsGamma (sps, br) in
      match r with
      | Panic => Panic
      | _ => Ret (mkContext (sps ProfileIdc) (sps LevelIdc) (sps_width sps) (sps_height sps) sps)
      end
  | Fail e => Fail e
  | Panic => Panic
  end.

(** ** Slice types *)

Definition ParseSliceType (nalu : list Z) : outcome Z :=
  if len nalu <? 2 then Fail ErrShortBuffer else
  t ← go_from nalu 1;
  let br := NewBitReader t in
  let '(_, e, br) := ReadGolomb br in
  _ ← check tt e;
  let '(sliceType, e, _) := ReadGolomb br in
  _ ← check tt e;
  if sliceType >? 9 then Fail ErrAvc
  else Ret (u8 (if sliceType >? 4 then sliceType - 5 else sliceType)).

(** ** Sequence headers *)

Definition ParseSpsPpsFromSeqHeader {B : Bele} (payload : list Z) : outcome (list Z * list Z) :=
  Avc.ParseSpsPpsFromSeqHeaderWithoutMalloc payload.

Definition bytes (n : Z) (br : BitReader) : outcome (list Z * BitReader) :=
  let '(v, e, br) := ReadBytes n br in _ ← check tt e; Ret (v, br).

(** [n] parameter sets, each after its length. *)
Fixpoint read_sets {B : Bele} (n : nat) (br : BitReader) : outcome (list (list Z) * BitReader) :=
  match n with
  | O => Ret ([], br)
  | S n =>
      '(vbs, br) ← bytes 2 br;
      length ← BeUint16 vbs;
      '(vbs, br) ← bytes length br;
      '(l, br) ← read_sets n br;
      Ret (vbs :: l, br)
  end.

Definition read_count (br : BitReader) : outcome (Z * BitReader) :=
  let '(v8, e, br) := ReadBits 8 br in _ ← check tt e; Ret (Z.land v8 31, br).

Definition parseSpsPpsListFromSeqHeaderWithoutMalloc {B : Bele} (payload : list Z)
    : outcome (list (list Z) * list (list Z)) :=
  if len payload <? 5 then Fail ErrShortBuffer else
  p5 ← go_slice payload 0 5;
  if negb (bool_decide (p5 = [23; 0; 0; 0; 0])) then Fail ErrAvc else
  let br := NewBitReader payload in
  '(_, br) ← bytes 10 br;
  '(numOfSps, br) ← read_count br;
  '(spsList, br) ← read_sets (Z.to_nat numOfSps) br;
  '(numOfPps, br) ← read_count br;
  '(ppsList, _) ← read_sets (Z.to_nat numOfPps) br;
  Ret (spsList, ppsList).

Definition SpsPpsSeqHeader2Annexb {B : Bele} (payload : list Z) : outcome (list Z) :=
  '(spsList, ppsList) ← parseSpsPpsListFromSeqHeaderWithoutMalloc payload;
  Ret (foldl Avc.annexb_append (foldl Avc.annexb_append [] spsList) ppsList).

Definition BuildSeqHeaderFromSpsPps (sps pps : list Z) : outcome (list Z) :=
  let sh := go_make (16 + len sps + len pps) in
  sh ← go_set sh 0 23; sh ← go_set sh 1 0; sh ← go_set sh 2 0; sh ← go_set sh 3 0; sh ← go_set sh 4 0;
  sh ← go_set sh 5 1;
  ctx ← ParseSps sps;
  sh ← go_set sh 6 (Profile ctx); sh ← go_set sh 7 0; sh ← go_set sh 8 (Level ctx);
  sh ← go_set sh 9 255; sh ← go_set sh 10 225;
  sh ← go_set sh 11 (u8 (Z.land (Z.shiftr (len sps) 8) 255));
  sh ← go_set sh 12 (u8 (Z.land (len sps) 255));
  let i := 13 in
  sh ← go_copy_at sh i sps;
  let i := i + len sps in
  sh ← go_set sh i 1;
  let i := i + 1 in
  sh ← go_set sh i (u8 (Z.land (Z.shiftr (len pps) 8) 255));
  sh ← go_set sh (i + 1) (u8 (Z.land (len pps) 255));
  let i := i + 2 in
  go_copy_at sh i pps.

(** ** Capture

    The state is what was written; only the first unit of a message is. *)
Definition w_out (p : list Z) : eff (list Z) unit := λ w, (w ++ p, Ret tt).

Definition CaptureAvcc2Annexb {B : Bele} (payload : list Z) : eff (list Z) unit :=
  p0 ← lift (go_index payload 0);
  p1 ← lift (if p0 =? 23 then go_index payload 1 else Ret 1);
  if (p0 =? 23) && (p1 =? 0) then
    spspps ← lift (SpsPpsSeqHeader2Annexb payload);
    w_out spspps
  else if negb (5 =? len payload) then
    t ← lift (go_from payload 5);
    naluLen ← lift (BeUint32 t);
    _ ← w_out NaluStartCode4;
    nal ← lift (go_slice payload 9 (9 + naluLen));
    w_out nal
  else mret tt.
End Parse.

(** ** The bits of an SPS

    The syntax of 7.3.2.1.1, without scaling lists, up to the cropping fields
    and with an empty VUI. *)

Inductive PocSpec :=
  | Poc0 (lsb : Z)
  | Poc1 (always_zero non_ref top : Z) (offsets : list Z)
  | Poc2 (t : Z).

Record HighSpec := mkHigh { hChroma : Z; hPlane : Z; hLuma : Z; hDepth : Z; hBypass : Z }.

Record SpsSpec := mkSpec {
  sNal : Z; sProfile : Z; sSet0 : Z; sSet1 : Z; sSet2 : Z; sLevel : Z; sId : Z; sHigh : HighSpec;
  sFrameNum : Z; sPoc : PocSpec; sRefs : Z; sGaps : Z; sWidth : Z; sHeight : Z;
  sMbsOnly : Z; sAdaptive : Z; sDirect : Z; sCrop : option (Z * Z * Z * Z);
}.

Definition is_high (s : SpsSpec) : bool := bool_decide (sProfile s ∈ high_profiles).

Definition high_bits (h : HighSpec) : list bool :=
  golomb_bits (hChroma h) ++ (if hChroma h =? 3 then num_bits 1 (hPlane h) else []) ++
  golomb_bits (hLuma h) ++ golomb_bits (hDepth h) ++ num_bits 1 (hBypass h) ++ num_bits 1 0.

Definition poc_bits (p : PocSpec) : list bool :=
  match p with
  | Poc0 lsb => golomb_bits 0 ++ golomb_bits lsb
  | Poc1 z a b l =>
      golomb_bits 1 ++ num_bits 1 z ++ golomb_bits (se_code a) ++ golomb_bits (se_code b) ++
      golomb_bits (len l) ++ mjoin ((golomb_bits ∘ se_code) <$> l)
  | Poc2 t => golomb_bits t
  end.

Definition crop_bits (c : option (Z * Z * Z * Z)) : list bool :=
  match c with
  | Some (l, r, t, b) => num_bits 1 1 ++ golomb_bits l ++ golomb_bits r ++ golomb_bits t ++ golomb_bits b
  | None => num_bits 1 0
  end.

Definition sps_bits (s : SpsSpec) : list bool :=
  num_bits 8 (sNal s) ++ num_bits 8 (sProfile s) ++
  num_bits 1 (sSet0 s) ++ num_bits 1 (sSet1 s) ++ num_bits 1 (sSet2 s) ++ num_bits 5 0 ++
  num_bits 8 (sLevel s) ++ golomb_bits (sId s) ++
  (if is_high s then high_bits (sHigh s) else []) ++
  golomb_bits (sFrameNum s) ++ poc_bits (sPoc s) ++
  golomb_bits (sRefs s) ++ num_bits 1 (sGaps s) ++ golomb_bits (sWidth s) ++ golomb_bits (sHeight s) ++
  num_bits 1 (sMbsOnly s) ++ (if sMbsOnly s =? 0 then num_bits 1 (sAdaptive s) else []) ++
  num_bits 1 (sDirect s) ++ crop_bits (sCrop s) ++ num_bits 1 0.

Definition golomb_ok (v : Z) : Prop := 0 ≤ v ∧ is_u32 (v + 1).
Definition se_ok (v : Z) : Prop := is_u32 (se_code v + 1).

Definition poc_ok (p : PocSpec) : Prop :=
  match p with
  | Poc0 lsb => golomb_ok lsb
  | Poc1 z a b l => 0 ≤ z < 2 ∧ se_ok a ∧ se_ok b ∧ golomb_ok (len l) ∧ Forall se_ok l
  | Poc2 t => golomb_ok t ∧ 2 ≤ t
  end.

Definition crop_ok (c : option (Z * Z * Z * Z)) : Prop :=
  match c with Some (l, r, t, b) => Forall golomb_ok [l; r; t; b] | None => True end.

Record spec_ok (s : SpsSpec) : Prop := {
  ok_nal : is_u8 (sNal s);
  ok_profile : is_u8 (sProfile s);
  ok_flags : Forall (λ v, 0 ≤ v < 2) [sSet0 s; sSet1 s; sSet2 s; hPlane (sHigh s); hBypass (sHigh s);
    sGaps s; sMbsOnly s; sAdaptive s; sDirect s];
  ok_level : is_u8 (sLevel s);
  ok_id : 0 ≤ sId s < 32;
  ok_high : Forall golomb_ok [hChroma (sHigh s); hLuma (sHigh s); hDepth (sHigh s)];
  ok_poc : poc_ok (sPoc s);
  ok_ues : Forall golomb_ok [sFrameNum s; sRefs s; sWidth s; sHeight s];
  ok_crop : crop_ok (sCrop s);
}.

Definition crop4 (s : SpsSpec) : Z * Z * Z * Z := default (0, 0, 0, 0) (sCrop s).

Section Runs.
Context {BI : NazaBits} {HBI : NazaBitsLaws BI}.

(** [m] reads exactly the bits [bs], takes the fields from [s] to [s'] and
    returns [a]; nothing has failed. *)
Definition runs {A} (m : eff St A) (s : Sps) (bs : list bool) (s' : Sps) (a : A) : Prop :=
  ∀ br rest, br_bits br = bs ++ rest → BitErr br = None →
    ∃ br', m (s, br) = ((s', br'), Ret a) ∧ br_bits br' = rest ∧ BitErr br' = None.

Lemma sps_runs_bind {A C} (m : eff St A) (f : A → eff St C) s s1 s2 b1 b2 a c :
  runs m s b1 s1 a → runs (f a) s1 b2 s2 c → runs (m ≫= f) s (b1 ++ b2) s2 c.
Proof.
  intros Hm Hf br rest Hr He. rewrite <- app_assoc in Hr.
  destruct (Hm br _ Hr He) as (br1 & E1 & H1 & E1'). destruct (Hf br1 _ H1 E1') as (br2 & E2 & H2 & E2').
  exists br2. split; [|done]. by rewrite (eff_bind_Ret _ _ _ (s1, br1) a).
Qed.

Lemma runs_bind_nil {A C} (m : eff St A) (f : A → eff St C) s s1 s2 b a c :
  runs m s [] s1 a → runs (f a) s1 b s2 c → runs (m ≫= f) s b s2 c.
Proof. apply (sps_runs_bind m f s s1 s2 [] b a c). Qed.

Lemma runs_assoc {A C D} (m : eff St A) (f : A → eff St C) (g : C → eff St D) s s' b d :
  runs ((m ≫= f) ≫= g) s b s' d → runs (m ≫= λ a, f a ≫= g) s b s' d.
Proof.
  intros H br rest Hr He. destruct (H br rest Hr He) as (br' & E & H'). exists br'. split; [|done].
  rewrite <- E. unfold mbind, eff_bind. by destruct (m (s, br)) as [st [a|e|]].
Qed.

Lemma runs_get f s : runs (get f) s [] s (s f).
Proof. intros br rest Hr He. by exists br. Qed.
Lemma runs_put f v s : runs (put f v) s [] (upd f v s) tt.
Proof. intros br rest Hr He. by exists br. Qed.
Lemma runs_ret {A} (a : A) s : runs (mret a) s [] s a.
Proof. intros br rest Hr He. by exists br. Qed.
Lemma runs_check s : runs check_reader s [] s tt.
Proof. intros br rest Hr He. exists br. unfold check_reader. by rewrite He. Qed.

Lemma read_bits_runs k n v rest br :
  k = Z.of_nat n → 0 ≤ v < 2 ^ Z.of_nat n → br_bits br = num_bits n v ++ rest → BitErr br = None →
  ∃ br', ReadBits k br = (v, None, br') ∧ br_bits br' = rest ∧ BitErr br' = None.
Proof.
  intros -> Hv Hr He. destruct (br_read (Z.of_nat n) br) as [E1 E2].
  { rewrite Hr, length_app, num_bits_length. lia. }
  rewrite Nat2Z.id, Hr, take_app_length' in E1 by (by rewrite num_bits_length).
  rewrite Nat2Z.id, Hr, drop_app_length' in E2 by (by rewrite num_bits_length).
  rewrite bits_val_num_small in E1 by done. pose proof (br_err_read (Z.of_nat n) br) as E3.
  destruct (ReadBits (Z.of_nat n) br) as [[x e] br']. cbn in *. simplify_eq. eexists.
  rewrite E3 by done. done.
Qed.

Lemma runs_field k n f v s : k = Z.of_nat n → 0 ≤ v < 2 ^ Z.of_nat n → runs (field k f) s (num_bits n v) (upd f v s) tt.
Proof.
  intros Hk Hv br rest Hr He. destruct (read_bits_runs k n v rest br Hk Hv Hr He) as (br' & E & H).
  unfold field. rewrite E. by exists br'.
Qed.
Lemma runs_field_ k n f v s : k = Z.of_nat n → 0 ≤ v < 2 ^ Z.of_nat n → runs (field_ k f) s (num_bits n v) (upd f v s) tt.
Proof.
  intros Hk Hv br rest Hr He. destruct (read_bits_runs k n v rest br Hk Hv Hr He) as (br' & E & H).
  unfold field_. rewrite E. by exists br'.
Qed.
Lemma runs_bits k n v s : k = Z.of_nat n → 0 ≤ v < 2 ^ Z.of_nat n → runs (bits k) s (num_bits n v) s v.
Proof.
  intros Hk Hv br rest Hr He. destruct (read_bits_runs k n v rest br Hk Hv Hr He) as (br' & E & H).
  unfold bits. rewrite E. by exists br'.
Qed.
Lemma runs_bits_ k n v s : k = Z.of_nat n → 0 ≤ v < 2 ^ Z.of_nat n → runs (bits_ k) s (num_bits n v) s tt.
Proof.
  intros Hk Hv br rest Hr He. destruct (read_bits_runs k n v rest br Hk Hv Hr He) as (br' & E & H).
  unfold bits_. rewrite E. by exists br'.
Qed.

Lemma read_ue_runs v rest br :
  golomb_ok v → br_bits br = golomb_bits v ++ rest → BitErr br = None →
  ∃ br', ReadUeGolomb br = (v, None, br') ∧ br_bits br' = rest ∧ BitErr br' = None.
Proof.
  intros [H0 Hv] Hr He. destruct (br_ue v rest br Hv H0 Hr) as [E1 E2]. pose proof (br_err_ue br) as E3.
  destruct (ReadUeGolomb br) as [[x e] br']. cbn in *. simplify_eq. eexists. rewrite E3 by done. done.
Qed.
Lemma runs_ue f v s : golomb_ok v → runs (field_ue f) s (golomb_bits v) (upd f v s) tt.
Proof.
  intros Hv br rest Hr He. destruct (read_ue_runs v rest br Hv Hr He) as (br' & E & H).
  unfold field_ue. rewrite E. by exists br'.
Qed.
Lemma runs_ue_ f v s : golomb_ok v → runs (field_ue_ f) s (golomb_bits v) (upd f v s) tt.
Proof.
  intros Hv br rest Hr He. destruct (read_ue_runs v rest br Hv Hr He) as (br' & E & H).
  unfold field_ue_. rewrite E. by exists br'.
Qed.
Lemma runs_ueg v s : golomb_ok v → runs ueg s (golomb_bits v) s v.
Proof.
  intros Hv br rest Hr He. destruct (read_ue_runs v rest br Hv Hr He) as (br' & E & H).
  unfold ueg. rewrite E. by exists br'.
Qed.

Lemma runs_golomb f v s : golomb_ok v → runs (field_golomb f) s (golomb_bits v) (upd f v s) tt.
Proof.
  intros [H0 Hv] br rest Hr He. destruct (br_golomb v rest br Hv H0 Hr) as [E1 E2].
  pose proof (br_err_golomb br) as E3. unfold field_golomb.
  destruct (ReadGolomb br) as [[x e] br']. cbn in *. simplify_eq. eexists. rewrite E3 by done. done.
Qed.

Lemma read_se_runs v rest br :
  se_ok v → br_bits br = golomb_bits (se_code v) ++ rest → BitErr br = None →
  ∃ br', ReadSeGolomb br = (v, None, br') ∧ br_bits br' = rest ∧ BitErr br' = None.
Proof.
  intros Hv Hr He. destruct (br_se v rest br Hv Hr) as [E1 E2]. pose proof (br_err_se br) as E3.
  destruct (ReadSeGolomb br) as [[x e] br']. cbn in *. simplify_eq. eexists. rewrite E3 by done. done.
Qed.
Lemma runs_seg v s : se_ok v → runs seg s (golomb_bits (se_code v)) s v.
Proof.
  intros Hv br rest Hr He. destruct (read_se_runs v rest br Hv Hr He) as (br' & E & H).
  unfold seg. rewrite E. by exists br'.
Qed.
Lemma runs_seg_ v s : se_ok v → runs seg_ s (golomb_bits (se_code v)) s tt.
Proof.
  intros Hv br rest Hr He. destruct (read_se_runs v rest br Hv Hr He) as (br' & E & H).
  unfold seg_. rewrite E. by exists br'.
Qed.

Lemma runs_segs l s : Forall se_ok l → runs (segs (length l)) s (mjoin ((golomb_bits ∘ se_code) <$> l)) s tt.
Proof.
  induction 1 as [|v l Hv _ IH]; [apply runs_ret|].
  change (mjoin (?f <$> v :: l)) with (golomb_bits (se_code v) ++ mjoin (f <$> l)).
  eapply sps_runs_bind; [by apply runs_seg|exact IH].
Qed.
End Runs.

(** Runs a sequence of reads on the bits of their fields. *)
Ltac runs_next :=
  lazymatch goal with
  | |- runs (get _ ≫= _) _ _ _ _ => eapply runs_bind_nil; [apply runs_get|]
  | |- runs (put _ _ ≫= _) _ _ _ _ => eapply runs_bind_nil; [apply runs_put|]
  | |- runs (check_reader ≫= _) _ _ _ _ => eapply runs_bind_nil; [apply runs_check|]
  | |- runs (mret _ ≫= _) _ _ _ _ => eapply runs_bind_nil; [apply runs_ret|]
  | |- runs (_ ≫= _) _ _ _ _ =>
      eapply sps_runs_bind;
        [first [apply runs_field | apply runs_field_ | apply runs_bits | apply runs_bits_
               | apply runs_ue | apply runs_ue_ | apply runs_ueg | apply runs_seg | apply runs_seg_
               | apply runs_golomb]; try reflexivity; try assumption;
         try (lazymatch goal with |- context [2 ^ Z.of_nat ?n] => let k := eval vm_compute in (2 ^ Z.of_nat n) in change (2 ^ Z.of_nat n) with k end; lia)
        |]
  end; cbv beta.

(** *** The state of the SPS after each part *)

Definition basic_state (p : SpsSpec) : Sps :=
  upd SpsId (sId p) (upd LevelIdc (sLevel p) (upd ConstraintSet2Flag (sSet2 p)
    (upd ConstraintSet1Flag (sSet1 p) (upd ConstraintSet0Flag (sSet0 p)
      (upd ProfileIdc (sProfile p) zero_sps))))).

Definition chroma_state (p : SpsSpec) (s : Sps) : Sps :=
  if is_high p then
    let s := upd ChromaFormatIdc (hChroma (sHigh p)) s in
    let s := if hChroma (sHigh p) =? 3 then upd ResidualColorTransformFlag (hPlane (sHigh p)) s else s in
    let s := upd BitDepthLuma (u32 (hLuma (sHigh p) + 8)) (upd BitDepthLuma (hLuma (sHigh p)) s) in
    let s := upd BitDepthChroma (u32 (hDepth (sHigh p) + 8)) (upd BitDepthChroma (hDepth (sHigh p)) s) in
    upd TransFormBypass (hBypass (sHigh p)) s
  else upd BitDepthChroma 8 (upd BitDepthLuma 8 (upd ChromaFormatIdc 1 s)).

Section SpsFacts.
Context {BI : NazaBits} {HBI : NazaBitsLaws BI}.

Lemma golomb_ok_le v n : 0 ≤ v < n → n ≤ 4294967295 → golomb_ok v.
Proof. split; lia. Qed.

Lemma basic_runs p : spec_ok p →
  runs parseSpsBasic zero_sps
    (num_bits 8 (sNal p) ++ num_bits 8 (sProfile p) ++
     num_bits 1 (sSet0 p) ++ num_bits 1 (sSet1 p) ++ num_bits 1 (sSet2 p) ++ num_bits 5 0 ++
     num_bits 8 (sLevel p) ++ golomb_bits (sId p)) (basic_state p) tt.
Proof.
  intros []. rewrite !List.Forall_cons_iff in *. destruct_and?. unfold parseSpsBasic.
  do 7 runs_next. rewrite <- (app_nil_r (golomb_bits _)).
  eapply sps_runs_bind; [by apply runs_golomb, (golomb_ok_le _ 32)|]. eapply runs_bind_nil; [apply runs_get|].
  change (_ (sId p) _ SpsId) with (sId p). rewrite Z.geb_leb, (proj2 (Z.leb_gt _ _)) by lia. apply runs_ret.
Qed.

Lemma chroma_runs p s : spec_ok p → s ProfileIdc = sProfile p →
  runs gamma_chroma s (if is_high p then high_bits (sHigh p) else []) (chroma_state p s) tt.
Proof.
  intros [] Hp. rewrite !List.Forall_cons_iff in *. destruct_and?. unfold gamma_chroma, chroma_state.
  eapply runs_bind_nil; [apply runs_get|]. rewrite Hp. fold (is_high p). destruct (is_high p).
  - unfold high_bits. runs_next. eapply runs_bind_nil; [apply runs_get|].
    change (_ (hChroma _) _ ChromaFormatIdc) with (hChroma (sHigh p)).
    eapply sps_runs_bind with (s1 := if hChroma (sHigh p) =? 3 then _ else _).
    { destruct (_ =? 3); [by apply runs_field|apply runs_ret]. }
    do 7 runs_next. rewrite <- (app_nil_r (num_bits 1 0)). runs_next. apply runs_ret.
  - do 2 runs_next. apply runs_put.
Qed.

Definition poc_state (q : PocSpec) (s : Sps) : Sps :=
  match q with
  | Poc0 lsb => upd Log2MaxPicOrderCntLsb (u32 (lsb + 4)) (upd Log2MaxPicOrderCntLsb lsb (upd PicOrderCntType 0 s))
  | Poc1 _ _ _ _ => upd PicOrderCntType 1 s
  | Poc2 t => upd PicOrderCntType t s
  end.

Lemma poc_runs q s : poc_ok q →
  runs (_ ← field_ue PicOrderCntType; gamma_poc) s (poc_bits q) (poc_state q s) tt.
Proof.
  destruct q as [lsb|z a b l|t]; cbn [poc_ok poc_bits]; intros Hq; destruct_and?; unfold gamma_poc.
  - eapply sps_runs_bind; [by apply runs_ue, (golomb_ok_le _ 1)|]. runs_next.
    change (_ PicOrderCntType =? 0) with true. cbv iota. rewrite <- (app_nil_r (golomb_bits lsb)).
    do 2 runs_next. apply runs_put.
  - eapply sps_runs_bind; [by apply runs_ue, (golomb_ok_le _ 2)|]. runs_next.
    change (_ PicOrderCntType =? 0) with false. change (_ PicOrderCntType =? 1) with true. cbv iota.
    do 5 runs_next. rewrite Nat2Z.id. by apply runs_segs.
  - rewrite <- (app_nil_r (golomb_bits t)). eapply sps_runs_bind; [by apply runs_ue|]. runs_next.
    change (upd PicOrderCntType t s PicOrderCntType) with t. rewrite !(proj2 (Z.eqb_neq t _)) by lia. apply runs_ret.
Qed.

Definition crop_state (c : option (Z * Z * Z * Z)) (s : Sps) : Sps :=
  match c with
  | Some (l, r, t, b) =>
      upd FrameCropBottomOffset b (upd FrameCropTopOffset t (upd FrameCropRightOffset r
        (upd FrameCropLeftOffset l (upd FrameCroppingFlag 1 s))))
  | None => upd FrameCroppingFlag 0 s
  end.

Definition size_state (p : SpsSpec) (s : Sps) : Sps :=
  let s := upd FrameMbsOnlyFlag (sMbsOnly p) (upd PicHeightInMapUnitsMinusOne (sHeight p)
    (upd PicWidthInMbsMinusOne (sWidth p) (upd GapsInFrameNumValueAllowedFlag (sGaps p)
       (upd NumRefFrames (sRefs p) s)))) in
  let s := if sMbsOnly p =? 0 then upd MbAdaptiveFrameFieldFlag (sAdaptive p) s else s in
  crop_state (sCrop p) (upd Direct8X8InferenceFlag (sDirect p) s).

Lemma size_runs p s : spec_ok p →
  runs gamma_size s
    (golomb_bits (sRefs p) ++ num_bits 1 (sGaps p) ++ golomb_bits (sWidth p) ++ golomb_bits (sHeight p) ++
     num_bits 1 (sMbsOnly p) ++ (if sMbsOnly p =? 0 then num_bits 1 (sAdaptive p) else []) ++
     num_bits 1 (sDirect p) ++ crop_bits (sCrop p)) (size_state p s) tt.
Proof.
  intros []. rewrite !List.Forall_cons_iff in *. destruct_and?. unfold gamma_size, size_state.
  do 7 runs_next. change (_ (sMbsOnly p) _ FrameMbsOnlyFlag) with (sMbsOnly p).
  eapply sps_runs_bind with (s1 := if sMbsOnly p =? 0 then _ else _).
  { destruct (sMbsOnly p =? 0); [by apply runs_field|apply runs_ret]. }
  runs_next. destruct (sCrop p) as [[[[l r] t] b]|]; cbn [crop_bits crop_state].
  - cbn [crop_ok] in ok_crop0. rewrite !List.Forall_cons_iff in ok_crop0. destruct_and?.
    eapply sps_runs_bind; [by apply (runs_field 1 1)|]. runs_next.
    change (_ FrameCroppingFlag =? 1) with true. cbv iota.
    do 3 runs_next. rewrite <- (app_nil_r (golomb_bits b)). runs_next. apply runs_check.
  - rewrite <- (app_nil_r (num_bits 1 0)). eapply sps_runs_bind; [by apply (runs_field 1 1)|]. runs_next.
    apply runs_ret.
Qed.

Lemma vui_runs s : s SarDen = 0 →
  runs gamma_vui s (num_bits 1 0) (upd SarDen 1 (upd SarNum 1 s)) tt.
Proof.
  intros Hs. unfold gamma_vui. rewrite <- (app_nil_r (num_bits 1 0)).
  eapply sps_runs_bind; [by apply (runs_bits 1 1)|]. cbv beta. change (0 =? 1) with false. cbv iota.
  do 2 runs_next. rewrite Hs. change (0 =? 0) with true. cbv iota. runs_next. apply runs_put.
Qed.

Definition sps_state (p : SpsSpec) : Sps :=
  upd SarDen 1 (upd SarNum 1 (size_state p (poc_state (sPoc p)
    (upd Log2MaxFrameNumMinus4 (sFrameNum p) (chroma_state p (basic_state p)))))).

Lemma gamma_runs p : spec_ok p →
  runs parseSpsGamma (basic_state p)
    ((if is_high p then high_bits (sHigh p) else []) ++
     golomb_bits (sFrameNum p) ++ poc_bits (sPoc p) ++
     (golomb_bits (sRefs p) ++ num_bits 1 (sGaps p) ++ golomb_bits (sWidth p) ++ golomb_bits (sHeight p) ++
      num_bits 1 (sMbsOnly p) ++ (if sMbsOnly p =? 0 then num_bits 1 (sAdaptive p) else []) ++
      num_bits 1 (sDirect p) ++ crop_bits (sCrop p)) ++ num_bits 1 0) (sps_state p) tt.
Proof.
  intros Hp. pose proof (ok_ues _ Hp) as Hu. apply List.Forall_cons_iff in Hu as [Hf _].
  unfold parseSpsGamma. eapply sps_runs_bind; [by apply chroma_runs|]. runs_next.
  apply runs_assoc. eapply sps_runs_bind; [by apply poc_runs, ok_poc|].
  eapply sps_runs_bind; [by apply size_runs|]. apply vui_runs.
  unfold size_state, crop_state, poc_state, chroma_state.
  by destruct (sCrop p) as [[[[? ?] ?] ?]|], (sMbsOnly p =? 0), (sPoc p), (is_high p), (hChroma (sHigh p) =? 3).
Qed.

Lemma sps_bits_split p :
  sps_bits p =
    (num_bits 8 (sNal p) ++ num_bits 8 (sProfile p) ++
     num_bits 1 (sSet0 p) ++ num_bits 1 (sSet1 p) ++ num_bits 1 (sSet2 p) ++ num_bits 5 0 ++
     num_bits 8 (sLevel p) ++ golomb_bits (sId p)) ++
    ((if is_high p then high_bits (sHigh p) else []) ++
     golomb_bits (sFrameNum p) ++ poc_bits (sPoc p) ++
     (golomb_bits (sRefs p) ++ num_bits 1 (sGaps p) ++ golomb_bits (sWidth p) ++ golomb_bits (sHeight p) ++
      num_bits 1 (sMbsOnly p) ++ (if sMbsOnly p =? 0 then num_bits 1 (sAdaptive p) else []) ++
      num_bits 1 (sDirect p) ++ crop_bits (sCrop p)) ++ num_bits 1 0).
Proof. unfold sps_bits. by rewrite <- !app_assoc. Qed.

(** What [ParseSps] makes of an SPS. *)
Definition sps_context (p : SpsSpec) : Context :=
  let '(l, r, t, b) := crop4 p in
  mkContext (sProfile p) (sLevel p)
    (u32 ((sWidth p + 1) * 16 - (l + r) * 2))
    (u32 ((2 - sMbsOnly p) * (sHeight p + 1) * 16 - (t + b) * 2)) (sps_state p).

Lemma avc_ParseSps_spec p n tl :
  spec_ok p → length (sps_bits p ++ tl) = (8 * n)%nat →
  ParseSps (pack_bits n (sps_bits p ++ tl)) = Ret (sps_context p).
Proof.
  intros Hp Hn. unfold ParseSps. set (br := NewBitReader _).
  assert (Hr : br_bits br = sps_bits p ++ tl) by (unfold br; by rewrite br_new, byte_bits_pack).
  assert (He : BitErr br = None) by apply br_err_new. clearbody br.
  rewrite sps_bits_split, <- app_assoc in Hr.
  destruct (basic_runs p Hp br _ Hr He) as (br1 & -> & Hr1 & He1).
  destruct (gamma_runs p Hp br1 _ Hr1 He1) as (br2 & -> & _). unfold sps_context, crop4, sps_width, sps_height.
  unfold sps_state, size_state, crop_state, poc_state, chroma_state.
  by destruct (sCrop p) as [[[[? ?] ?] ?]|], (sMbsOnly p =? 0), (sPoc p), (is_high p), (hChroma (sHigh p) =? 3).
Qed.
End SpsFacts.

(** ** Sequence headers *)

Section SeqHeader.
Context {B : Bele} {HB : BeleLaws B} {BI : NazaBits} {HBI : NazaBitsLaws BI}.

Lemma be_bytes_2 n : is_u16 n →
  [u8 (Z.land (Z.shiftr n 8) 255); u8 (Z.land n 255)] = be_bytes 2 n.
Proof.
  intros Hn. rewrite !(land_mask _ 8) by done. rewrite Z.shiftr_div_pow2 by done.
  unfold u8. rewrite !Z.mod_mod by done. change (be_bytes 2 n) with [(n / 256 ^ 1) mod 256; (n / 256 ^ 0) mod 256].
  by rewrite Z.pow_1_r, Z.pow_0_r, Z.div_1_r.
Qed.

Ltac fill := first [rewrite set_fill by len_lia | rewrite copy_fill by len_lia]; rewrite ?bind_Ret.

Lemma avc_BuildSeqHeader_spec sps pps ctx :
  ParseSps sps = Ret ctx → is_u16 (len sps) → is_u16 (len pps) →
  BuildSeqHeaderFromSpsPps sps pps =
    Ret (Avc.avc_seq_header [1; Profile ctx; 0; Level ctx; 255] sps pps []).
Proof.
  intros E Hs Hp. unfold BuildSeqHeaderFromSpsPps. cbv zeta. rewrite <- (app_nil_l (go_make _)).
  do 6 fill. rewrite E, bind_Ret. do 12 fill. rewrite go_make_0, app_nil_r by lia.
  unfold Avc.avc_seq_header. rewrite <- !(be_bytes_2 (len _)) by done. by rewrite <- !app_assoc, app_nil_r.
Qed.

Lemma bytes_spec n a rest br :
  n = len a → is_bytes a → br_bits br = byte_bits a ++ rest →
  ∃ br', bytes n br = Ret (a, br') ∧ br_bits br' = rest.
Proof.
  intros -> Ha Hr. destruct (br_bytes (len a) br) as [E1 E2].
  { rewrite Hr, length_app, byte_bits_length. lia. }
  rewrite Nat2Z.id, Hr in E1. pose proof (pack_bits_app_bytes a 0 rest Ha) as E3.
  rewrite Nat.add_0_r in E3. rewrite E3, app_nil_r in E1.
  rewrite Hr, drop_app_length' in E2 by (rewrite byte_bits_length; lia).
  unfold bytes. destruct (ReadBytes (len a) br) as [[v e] br']. cbn in E1, E2. simplify_eq.
  by exists br'.
Qed.

Lemma read_set_spec s rest br :
  is_bytes s → is_u16 (len s) → br_bits br = byte_bits (be_bytes 2 (len s)) ++ byte_bits s ++ rest →
  ∃ br', read_sets 1 br = Ret ([s], br') ∧ br_bits br' = rest.
Proof.
  intros Hs Hl Hr. cbn [read_sets].
  destruct (bytes_spec 2 (be_bytes 2 (len s)) _ br eq_refl (is_bytes_be_bytes 2 (len s)) Hr) as (br1 & -> & H1). rewrite bind_Ret.
  rewrite <- (app_nil_r (be_bytes 2 _)), BeUint16_be, bind_Ret by done.
  destruct (bytes_spec (len s) s rest br1 eq_refl Hs H1) as (br2 & -> & H2). rewrite !bind_Ret. by exists br2.
Qed.

Lemma read_count_spec v rest br : is_u8 v → br_bits br = byte_bits [v] ++ rest →
  ∃ br', read_count br = Ret (Z.land v 31, br') ∧ br_bits br' = rest.
Proof.
  intros Hv Hr. rewrite byte_bits_cons in Hr. cbn [app] in Hr. rewrite app_nil_r in Hr.
  destruct (br_read 8 br) as [E1 E2]; [rewrite Hr, length_app, num_bits_length; lia|].
  change (Z.to_nat 8) with 8%nat in E1, E2. rewrite Hr in E1, E2.
  rewrite take_app_length' in E1 by (by rewrite num_bits_length).
  rewrite drop_app_length' in E2 by (by rewrite num_bits_length).
  rewrite bits_val_num_small in E1 by done. unfold read_count.
  destruct (ReadBits 8 br) as [[x e] br']. cbn in E1, E2. simplify_eq. by exists br'.
Qed.

Lemma parse_lists_spec fixed sps pps tl :
  length fixed = 5%nat → is_bytes fixed → is_bytes sps → is_bytes pps →
  is_u16 (len sps) → is_u16 (len pps) →
  parseSpsPpsListFromSeqHeaderWithoutMalloc (Avc.avc_seq_header fixed sps pps tl) = Ret ([sps], [pps]).
Proof.
  intros Hf Bf Bs Bp Hs Hp. unfold parseSpsPpsListFromSeqHeaderWithoutMalloc.
  set (p := Avc.avc_seq_header fixed sps pps tl).
  assert (Ep : p = ([23; 0; 0; 0; 0] ++ fixed) ++ [225] ++ (be_bytes 2 (len sps) ++ sps) ++
                   [1] ++ (be_bytes 2 (len pps) ++ pps) ++ tl).
  { unfold p, Avc.avc_seq_header. by rewrite <- !app_assoc. }
  rewrite (proj2 (Z.ltb_ge _ _)) by (rewrite Ep; len_lia).
  assert (E5 : go_slice p 0 5 = Ret [23; 0; 0; 0; 0]).
  { rewrite Ep, <- !app_assoc. by apply go_slice_head. }
  rewrite E5, bind_Ret. change (negb (bool_decide ([23; 0; 0; 0; 0] = _))) with false. cbv iota.
  pose proof (br_new p) as Hr. set (br := NewBitReader p) in *. clearbody br. rewrite Ep in Hr. clearbody p.
  rewrite !byte_bits_app in Hr. rewrite <- !app_assoc in Hr.
  rewrite (app_assoc (byte_bits [23; 0; 0; 0; 0])), <- byte_bits_app in Hr.
  edestruct (bytes_spec 10 ([23; 0; 0; 0; 0] ++ fixed)) as (br1 & -> & H1);
    [len_lia|apply is_bytes_app; split; [by repeat constructor|done]|exact Hr|rewrite bind_Ret].
  edestruct (read_count_spec 225) as (br2 & -> & H2); [done|exact H1|rewrite bind_Ret].
  edestruct (read_set_spec sps) as (br3 & E3 & H3); [done|done|exact H2|].
  change (Z.to_nat (Z.land 225 31)) with 1%nat. rewrite E3, bind_Ret.
  edestruct (read_count_spec 1) as (br4 & -> & H4); [done|exact H3|rewrite bind_Ret].
  edestruct (read_set_spec pps) as (br5 & E5' & H5); [done|done|exact H4|].
  change (Z.to_nat (Z.land 1 31)) with 1%nat. by rewrite E5'.
Qed.
End SeqHeader.

(** ** Properties *)

(** C14: A sequence header built from an SPS that parses and a PPS has the profile
    and level of the SPS, splits into the same two sets, and its Annex-B form
    is that of the sets. *)
Theorem avc_seq_header_roundtrip {B : Bele} (HB : BeleLaws B) {BI : NazaBits} (HBI : NazaBitsLaws BI)
    sps pps ctx :
  ParseSps sps = Ret ctx → is_u8 (Profile ctx) → is_u8 (Level ctx) → is_bytes sps → is_bytes pps →
  is_u16 (len sps) → is_u16 (len pps) →
  ∃ sh, BuildSeqHeaderFromSpsPps sps pps = Ret sh ∧
    take 10 sh = [23; 0; 0; 0; 0; 1; Profile ctx; 0; Level ctx; 255] ∧
    ParseSpsPpsFromSeqHeader sh = Ret (sps, pps) ∧
    SpsPpsSeqHeader2Annexb sh = Ret (Avc.BuildSpsPps2Annexb sps pps).
Proof.
  intros E Hpr Hlv Bs Bp Hs Hp. eexists. split; [by apply avc_BuildSeqHeader_spec|]. split; [done|]. split.
  - by apply Avc.ParseSpsPps_layout.
  - unfold SpsPpsSeqHeader2Annexb. rewrite parse_lists_spec; try done.
    repeat apply List.Forall_cons; try apply List.Forall_nil; lia.
Qed.

(** For any SPS laid out as the standard says but without scaling lists, and
    given as its payload bytes (the code does not remove emulation prevention
    bytes), of any profile, with or without cropping, interlaced or not, of each
    picture order count type, [ParseSps] finds the profile, the level and every
    field up to the VUI, and computes the size of the picture in 32-bit
    arithmetic from them. *)
Theorem avc_sps_parse {BI : NazaBits} (HBI : NazaBitsLaws BI) p n tl :
  spec_ok p → length (sps_bits p ++ tl) = (8 * n)%nat →
  ParseSps (pack_bits n (sps_bits p ++ tl)) = Ret (sps_context p).
Proof. apply avc_ParseSps_spec. Qed.

(** The size the standard gives for 4:2:0 pictures (7.4.2.1.1): cropping is in
    units of two samples, of four rows when the picture may be interlaced. *)
Definition standard_height (p : SpsSpec) : Z :=
  let '(_, _, t, b) := crop4 p in
  (2 - sMbsOnly p) * (sHeight p + 1) * 16 - 2 * (2 - sMbsOnly p) * (t + b).

(** The height lal computes is the standard's for frame-only pictures; for
    interlaced ones only half of the cropping is taken off. *)
Lemma avc_interlaced_height p :
  Height (sps_context p) =
    u32 (standard_height p + 2 * (1 - sMbsOnly p) * let '(_, _, t, b) := crop4 p in t + b).
Proof.
  unfold sps_context, standard_height. destruct (crop4 p) as [[[l r] t] b]. cbn [Height].
  f_equal. nia.
Qed.

Definition demo_1080i : SpsSpec :=
  mkSpec 103 77 0 0 0 40 0 (mkHigh 0 0 0 0 0) 0 (Poc0 2) 1 0 119 33 0 1 1 (Some (0, 0, 0, 2)).
Definition demo_tail : list bool := replicate ((8 - length (sps_bits demo_1080i) mod 8) mod 8) false.
Definition demo_sps : list Z :=
  pack_bits (length (sps_bits demo_1080i ++ demo_tail) / 8) (sps_bits demo_1080i ++ demo_tail).

Lemma demo_parses : ParseSps (BI := bits_impl) demo_sps = Ret (sps_context demo_1080i).
Proof.
  apply (avc_ParseSps_spec (BI := bits_impl) (HBI := bits_impl_laws) demo_1080i _ demo_tail).
  - split; cbn; try lia; repeat apply List.Forall_cons; repeat split; try apply List.Forall_nil; by vm_compute.
  - vm_compute. reflexivity.
Qed.

Lemma avc_sps_parse_witness :
  ParseSps (BI := bits_impl) demo_sps = Ret (sps_context demo_1080i) ∧
  Width (sps_context demo_1080i) = 1920 ∧ Height (sps_context demo_1080i) = 1084 ∧
  standard_height demo_1080i = 1080.
Proof.
  split; [|done]. apply (avc_sps_parse (BI := bits_impl) bits_impl_laws demo_1080i _ demo_tail).
  - split; cbn; try lia; repeat apply List.Forall_cons; repeat split; try apply List.Forall_nil; by vm_compute.
  - vm_compute. reflexivity.
Defined.

Lemma avc_seq_header_roundtrip_witness :
  ∃ sh, BuildSeqHeaderFromSpsPps (BI := bits_impl) demo_sps [104; 206; 60; 128] = Ret sh ∧
    ParseSpsPpsFromSeqHeader (B := bele_impl) sh = Ret (demo_sps, [104; 206; 60; 128]).
Proof.
  destruct (avc_seq_header_roundtrip (B := bele_impl) bele_impl_laws (BI := bits_impl) bits_impl_laws
    demo_sps [104; 206; 60; 128] _ demo_parses) as (sh & H1 & _ & H2 & _).
  1, 2: by vm_compute.
  1, 2: repeat apply List.Forall_cons; try apply List.Forall_nil; by vm_compute.
  1, 2: by vm_compute.
  exists sh. by split.
Defined.
