(* ===== verification/Rtmp2Mpegts.v ===== *)
(** * RTMP to MPEG-TS (src/pkg/remux/rtmp2mpegts.go, rtmp2mpegts_filter_.go,
    rtmp2mpegts_filter__timestamp.go)

    Messages go through the probe filter, which holds the first ones back until
    both codecs are known and then emits the tables; audio is gathered into
    frames of up to 150 ms, video becomes one Annex-B access unit per message;
    frames get timestamps from zero and are packed.

    The observer (the group) is a parameter: its callback may call [FlushAudio]
    again before it has used the packets it was given, as the HLS muxer does
    when it opens a fragment.  [calls] records the callbacks in the order in
    which the observer's handling of them ends. *)

From S2P Require Import Prelude Naza Bits RtmpMsg.
From S2P Require Avc AvcSeq Hevc HevcSeq TsPack Psi Aac.
Import TsPack(Frame, mkFrame).

Definition calcFragmentHeaderQueueSize : Z := 16.
Definition maxAudioCacheDelayByAudio : Z := 150 * 90.
Definition maxAudioCacheDelayByVideo : Z := 300 * 90.
Definition MaxUint64 : Z := 18446744073709551615.

Inductive TsCall :=
  | OnPatPmt (b : list Z)
  | OnTsPackets (tsPackets : list Z) (frame : Frame) (boundary : bool).

(** ** The probe filter *)

Record Filter := mkFilter {
  maxMsgSize : Z;
  data : list RtmpMsg;
  audioCodecId : Z;
  videoCodecId : Z;
  filterDone : bool;
}.

Definition newRtmp2MpegtsFilter (n : Z) : Filter := mkFilter n [] (-1) (-1) false.

(** ** The timestamp filter *)

Record TimestampFilter := mkTsFilter { basicAudioDts : Z; basicVideoDts : Z }.

Definition tsFilter_Init : TimestampFilter := mkTsFilter MaxUint64 MaxUint64.

Definition set_times (f : Frame) (dts : Z) : Frame :=
  mkFrame (u64 (dts + 90 * TsPack.Cts f)) (TsPack.Cts f) dts (TsPack.Cc f) (TsPack.Pid f) (TsPack.Sid f)
    (TsPack.Key f) (TsPack.Raw f).

(** A base is taken from the first frame; a time before it is left as it is. *)
Definition rebase (base dts : Z) : Z * Z :=
  let base := if base =? MaxUint64 then dts else base in
  (base, if dts <? base then dts else dts - base).

Definition tsFilter_Do (t : TimestampFilter) (frame : Frame) : TimestampFilter * Frame :=
  if TsPack.Sid frame =? TsPack.StreamIdAudio then
    let '(base, dts) := rebase (basicAudioDts t) (TsPack.Dts frame) in
    (mkTsFilter base (basicVideoDts t), set_times frame dts)
  else if TsPack.Sid frame =? TsPack.StreamIdVideo then
    let '(base, dts) := rebase (basicVideoDts t) (TsPack.Dts frame) in
    (mkTsFilter (basicAudioDts t) base, set_times frame dts)
  else (t, frame).

(** ** The remuxer *)

Record Rtmp2MpegtsRemuxer := mkRemuxer {
  filter : Filter;
  spspps : option (list Z);
  ascCtx : option Aac.AscContext;
  audioCc : Z;
  videoCc : Z;
  timestampFilter : TimestampFilter;
  audioCacheFrames : list Z;
  audioCacheFirstFramePts : Z;
  opened : bool;
}.

Definition NewRtmp2MpegtsRemuxer : Rtmp2MpegtsRemuxer :=
  mkRemuxer (newRtmp2MpegtsFilter calcFragmentHeaderQueueSize) None None 0 0 tsFilter_Init [] 0 false.

Definition set_filter (s : Rtmp2MpegtsRemuxer) (f : Filter) : Rtmp2MpegtsRemuxer :=
  mkRemuxer f (spspps s) (ascCtx s) (audioCc s) (videoCc s) (timestampFilter s) (audioCacheFrames s)
    (audioCacheFirstFramePts s) (opened s).
Definition set_spspps (s : Rtmp2MpegtsRemuxer) (b : option (list Z)) : Rtmp2MpegtsRemuxer :=
  mkRemuxer (filter s) b (ascCtx s) (audioCc s) (videoCc s) (timestampFilter s) (audioCacheFrames s)
    (audioCacheFirstFramePts s) (opened s).
Definition set_asc (s : Rtmp2MpegtsRemuxer) (c : option Aac.AscContext) : Rtmp2MpegtsRemuxer :=
  mkRemuxer (filter s) (spspps s) c (audioCc s) (videoCc s) (timestampFilter s) (audioCacheFrames s)
    (audioCacheFirstFramePts s) (opened s).
Definition set_audioCc (s : Rtmp2MpegtsRemuxer) (cc : Z) : Rtmp2MpegtsRemuxer :=
  mkRemuxer (filter s) (spspps s) (ascCtx s) cc (videoCc s) (timestampFilter s) (audioCacheFrames s)
    (audioCacheFirstFramePts s) (opened s).
Definition set_videoCc (s : Rtmp2MpegtsRemuxer) (cc : Z) : Rtmp2MpegtsRemuxer :=
  mkRemuxer (filter s) (spspps s) (ascCtx s) (audioCc s) cc (timestampFilter s) (audioCacheFrames s)
    (audioCacheFirstFramePts s) (opened s).
Definition set_tsFilter (s : Rtmp2MpegtsRemuxer) (t : TimestampFilter) : Rtmp2MpegtsRemuxer :=
  mkRemuxer (filter s) (spspps s) (ascCtx s) (audioCc s) (videoCc s) t (audioCacheFrames s)
    (audioCacheFirstFramePts s) (opened s).
Definition set_cache (s : Rtmp2MpegtsRemuxer) (b : list Z) (pts : Z) : Rtmp2MpegtsRemuxer :=
  mkRemuxer (filter s) (spspps s) (ascCtx s) (audioCc s) (videoCc s) (timestampFilter s) b pts (opened s).
Definition set_opened (s : Rtmp2MpegtsRemuxer) : Rtmp2MpegtsRemuxer :=
  mkRemuxer (filter s) (spspps s) (ascCtx s) (audioCc s) (videoCc s) (timestampFilter s) (audioCacheFrames s)
    (audioCacheFirstFramePts s) true.

Definition audioCacheEmpty (s : Rtmp2MpegtsRemuxer) : bool := len (audioCacheFrames s) =? 0.
Definition videoSeqHeaderCached (s : Rtmp2MpegtsRemuxer) : bool :=
  negb (len (default [] (spspps s)) =? 0).
Definition audioSeqHeaderCached (s : Rtmp2MpegtsRemuxer) : bool :=
  match ascCtx s with Some _ => true | None => false end.

(** The observer: what it does with a call first, and whether it calls
    [FlushAudio] then; what it does with the call after that. *)
Class TsObserver (Ob : Type) := {
  before : TsCall → Ob → bool * Ob;
  after : TsCall → Ob → Ob;
}.

Section Remuxer.
Context {Ob : Type} {OB : TsObserver Ob}.

(** The remuxer, the callbacks whose handling has ended, the observer. *)
Definition World : Type := Rtmp2MpegtsRemuxer * list TsCall * Ob.

Definition get : eff World Rtmp2MpegtsRemuxer := λ w, (w, Ret w.1.1).
Definition modify (f : Rtmp2MpegtsRemuxer → Rtmp2MpegtsRemuxer) : eff World unit := λ '(s, tr, o),
  ((f s, tr, o), Ret tt).

(** A callback, in which the observer may make the call [nested]. *)
Definition callback (nested : eff World unit) (c : TsCall) : eff World unit := λ '(s, tr, o),
  let '(flush, o) := before c o in
  let '((s, tr, o), r) := (if flush : bool then nested (s, tr, o) else ((s, tr, o), Ret tt)) in
  match r with
  | Ret _ => ((s, tr ++ [c], after c o), Ret tt)
  | r => ((s, tr, o), r)
  end.

Definition boundary_of (s : Rtmp2MpegtsRemuxer) (frame : Frame) : bool :=
  if TsPack.Sid frame =? TsPack.StreamIdAudio then negb (videoSeqHeaderCached s)
  else TsPack.Key frame && (negb (audioSeqHeaderCached s) || negb (opened s) || negb (audioCacheEmpty s)).

(** The frame as it is afterwards: retimed, with the next continuity counter. *)
Definition onFrame (nested : eff World unit) (frame : Frame) : eff World Frame :=
  s ← get;
  let '(t, frame) := tsFilter_Do (timestampFilter s) frame in
  _ ← modify (λ s, set_tsFilter s t);
  let boundary := boundary_of s frame in
  _ ← modify (λ s, if boundary then set_opened s else s);
  '(packets, frame) ← lift (TsPack.Pack frame);
  _ ← callback nested (OnTsPackets packets frame boundary);
  mret frame.

(** The call may come back from its own callback; the cache is empty then. *)
Fixpoint FlushAudio (fuel : nat) : eff World unit :=
  s ← get;
  if audioCacheEmpty s then mret tt else
  match fuel with
  | O => lift (Fail OutOfFuel)
  | S fuel =>
      let frame := mkFrame (audioCacheFirstFramePts s) 0 (audioCacheFirstFramePts s) (audioCc s)
                     TsPack.PidAudio TsPack.StreamIdAudio false (audioCacheFrames s) in
      _ ← modify (λ s, set_cache s [] (audioCacheFirstFramePts s));
      frame ← onFrame (FlushAudio fuel) frame;
      modify (λ s, set_audioCc s (TsPack.Cc frame))
  end.

Definition flush : eff World unit := FlushAudio 1.

(** *** Audio *)

Context {B : Bele} {BI : NazaBits}.

(** The context is nil when the header cannot be parsed; the error is logged. *)
Definition cacheAacSeqHeader (msg : RtmpMsg) : eff World unit :=
  asc ← lift (go_from (msgPayload msg) 2);
  match Aac.NewAscContext asc with
  | Ret c => modify (λ s, set_asc s (Some c))
  | Fail _ => modify (λ s, set_asc s None)
  | Panic => lift Panic
  end.

(** What is left of the audio message is media. *)
Definition feed_aac (c : Aac.AscContext) (msg : RtmpMsg) : eff World unit :=
  let pts := u64 (TimestampAbs (msgHeader msg) * 90) in
  s ← get;
  _ ← (if negb (audioCacheEmpty s) && (u64 (audioCacheFirstFramePts s + maxAudioCacheDelayByAudio) <? pts)
       then flush else mret tt);
  _ ← modify (λ s, if audioCacheEmpty s then set_cache s (audioCacheFrames s) pts else s);
  frame ← lift (go_from (msgPayload msg) 2);
  modify (λ s, set_cache s (audioCacheFrames s ++
    Aac.PackAdtsHeader c (u32 (MsgLen (msgHeader msg) - 2)) ++ frame) (audioCacheFirstFramePts s)).

Definition feed_opus (msg : RtmpMsg) : eff World unit :=
  frame ← lift (go_from (msgPayload msg) 1);
  _ ← modify (λ s, set_cache s (audioCacheFrames s ++ frame) (u64 (TimestampAbs (msgHeader msg) * 90)));
  flush.

Definition feedAudio (msg : RtmpMsg) : eff World unit :=
  if len (msgPayload msg) <=? 2 then mret tt else
  codec ← lift (AudioCodecId msg);
  if codec =? RtmpSoundFormatAac then
    p1 ← lift (go_index (msgPayload msg) 1);
    if p1 =? RtmpAacPacketTypeSeqHeader then cacheAacSeqHeader msg
    else
      s ← get;
      match ascCtx s with
      | None => mret tt
      | Some c => feed_aac c msg
      end
  else feed_opus msg.

(** *** Video *)

(** The locals of the loop over the units of a message. *)
Record VideoLoop := mkVideoLoop {
  videoOut : list Z;
  audSent : bool;
  spsppsSent : bool;
  vps : list Z;
  sps : list Z;
  pps : list Z;
}.

Definition set_out (l : VideoLoop) (b : list Z) (aud sent : bool) : VideoLoop :=
  mkVideoLoop b aud sent (vps l) (sps l) (pps l).
Definition set_units (l : VideoLoop) (v s p : list Z) : VideoLoop :=
  mkVideoLoop (videoOut l) (audSent l) (spsppsSent l) v s p.

Definition join_units (l : list (list Z)) : list Z := foldl Avc.annexb_append [] l.

(** Delimiters, parameter sets and (H.265) SEI units: [None] when the unit is
    none of these, else the loop state and the parameter sets to keep. *)
Definition skip_unit (codecId nalType : Z) (nal : list Z) (l : VideoLoop)
    : option (VideoLoop * option (list Z)) :=
  if codecId =? RtmpCodecIdAvc then
    if nalType =? Avc.NaluTypeAud then Some (l, None)
    else if nalType =? Avc.NaluTypeSps then Some (set_units l (vps l) nal (pps l), None)
    else if nalType =? Avc.NaluTypePps then
      Some (set_units l (vps l) (sps l) nal,
        if negb (len (sps l) =? 0) && negb (len nal =? 0) then Some (join_units [sps l; nal]) else None)
    else None
  else
    if (nalType =? Hevc.NaluTypeSei) || (nalType =? Hevc.NaluTypeSeiSuffix) then Some (l, None)
    else if nalType =? Hevc.NaluTypeAud then Some (l, None)
    else if nalType =? Hevc.NaluTypeVps then Some (set_units l nal (sps l) (pps l), None)
    else if nalType =? Hevc.NaluTypeSps then Some (set_units l (vps l) nal (pps l), None)
    else if nalType =? Hevc.NaluTypePps then
      Some (set_units l (vps l) (sps l) nal,
        if negb (len (vps l) =? 0) && negb (len (sps l) =? 0) && negb (len nal =? 0)
        then Some (join_units [vps l; sps l; nal]) else None)
    else None.

(** Whether the unit is a key frame, and what it makes of [spsppsSent]. *)
Definition is_key_unit (codecId nalType : Z) : bool :=
  if codecId =? RtmpCodecIdAvc then nalType =? Avc.NaluTypeIdrSlice else Hevc.IsIrapNalu nalType.
Definition sent_after (codecId nalType : Z) (sent : bool) : bool :=
  if codecId =? RtmpCodecIdAvc then
    if nalType =? Avc.NaluTypeIdrSlice then true
    else if nalType =? Avc.NaluTypeSlice then false else sent
  else Hevc.IsIrapNalu nalType.

(** A unit that is sent; [None] is the early return without parameter sets. *)
Definition send_unit (spspps : option (list Z)) (codecId nalType : Z) (nal : list Z) (l : VideoLoop)
    : option VideoLoop :=
  let out := if audSent l then videoOut l
             else videoOut l ++ (if codecId =? RtmpCodecIdAvc then AvcSeq.AudNalu else HevcSeq.AudNalu) in
  out ← (if is_key_unit codecId nalType && negb (spsppsSent l) then b ← spspps; Some (out ++ b) else Some out);
  let out := out ++ (if len out =? 0 then AvcSeq.NaluStartCode4 else AvcSeq.NaluStartCode3) ++ nal in
  Some (set_out l out true (sent_after codecId nalType (spsppsSent l))).

Definition feed_unit (codecId : Z) (nal : list Z) (l : VideoLoop) : eff World (option VideoLoop) :=
  n0 ← lift (go_index nal 0);
  let nalType := if codecId =? RtmpCodecIdAvc then Avc.ParseNaluType n0 else Hevc.ParseNaluType n0 in
  match skip_unit codecId nalType nal l with
  | Some (l, sets) =>
      _ ← modify (λ s, match sets with Some b => set_spspps s (Some b) | None => s end);
      mret (Some l)
  | None => s ← get; mret (send_unit (spspps s) codecId nalType nal l)
  end.

Fixpoint feed_units (codecId : Z) (nals : list (list Z)) (l : VideoLoop) : eff World (option VideoLoop) :=
  match nals with
  | [] => mret (Some l)
  | nal :: nals =>
      r ← feed_unit codecId nal l;
      match r with Some l => feed_units codecId nals l | None => mret None end
  end.

(** [StrategyTryAnnexbWhenParseVspFromSeqHeaderFailed] of package hevc. *)
Context (TryAnnexb : bool).

(** The result of a sequence header; an error is logged and leaves nil. *)
Definition keep_sets (m : outcome (list Z)) : eff World unit :=
  match m with
  | Ret b => modify (λ s, set_spspps s (Some b))
  | Fail _ => modify (λ s, set_spspps s None)
  | Panic => lift Panic
  end.

Definition video_frame (msg : RtmpMsg) (raw : list Z) : eff World unit :=
  let dts := u64 (TimestampAbs (msgHeader msg) * 90) in
  s ← get;
  _ ← (if negb (audioCacheEmpty s) && (u64 (audioCacheFirstFramePts s + maxAudioCacheDelayByVideo) <? dts)
       then flush else mret tt);
  s ← get;
  cts ← lift (Cts msg);
  key ← lift (IsVideoKeyNalu msg);
  let frame := mkFrame (u64 (dts + 90 * cts)) cts dts (videoCc s)
                 TsPack.PidVideo TsPack.StreamIdVideo key raw in
  frame ← onFrame flush frame;
  modify (λ s, set_videoCc s (TsPack.Cc frame)).

(** The units of a message that is not a sequence header. *)
Definition video_units (codecId : Z) (msg : RtmpMsg) : outcome (list (list Z) * option goerr) :=
  enh ← go_and (Ret (codecId =? RtmpCodecIdHevc)) (IsEnchanedHevcNalu msg);
  index ← (if enh : bool then GetEnchanedHevcNaluIndex msg else Ret 5);
  t ← go_from (msgPayload msg) index;
  r ← Avc.SplitNaluAvcc (Some t);
  match r with Some r => Ret r | None => Fail OutOfFuel end.

Definition feedVideo (msg : RtmpMsg) : eff World unit :=
  if len (msgPayload msg) <=? 5 then mret tt else
  codecId ← lift (VideoCodecId msg);
  if negb (codecId =? RtmpCodecIdAvc) && negb (codecId =? RtmpCodecIdHevc) then mret tt else
  avcSeq ← lift (IsAvcKeySeqHeader msg);
  if avcSeq : bool then keep_sets (AvcSeq.SpsPpsSeqHeader2Annexb (msgPayload msg)) else
  hevcSeq ← lift (IsHevcKeySeqHeader msg);
  if hevcSeq : bool then
    enh ← lift (IsEnhanced msg);
    keep_sets (if enh : bool then HevcSeq.VpsSpsPpsEnhancedSeqHeader2Annexb (msgPayload msg)
               else HevcSeq.VpsSpsPpsSeqHeader2Annexb TryAnnexb (msgPayload msg))
  else
    '(nals, err) ← lift (video_units codecId msg);
    match err with
    | Some _ => mret tt
    | None =>
        r ← feed_units codecId nals (mkVideoLoop [] false false [] [] []);
        match r with
        | Some l => if len (videoOut l) =? 0 then mret tt else video_frame msg (videoOut l)
        | None => mret tt
        end
    end.

(** ** From the filter to the remuxer *)

Definition onPop (msg : RtmpMsg) : eff World unit :=
  let t := MsgTypeId (msgHeader msg) in
  if t =? RtmpTypeIdAudio then
    c ← lift (AudioCodecId msg);
    if negb (c =? RtmpSoundFormatAac) && negb (c =? RtmpSoundFormatOpus) then mret tt else feedAudio msg
  else if t =? RtmpTypeIdVideo then feedVideo msg
  else mret tt.

Fixpoint pop_all (l : list RtmpMsg) : eff World unit :=
  match l with [] => mret tt | msg :: l => _ ← onPop msg; pop_all l end.

Definition drain : eff World unit :=
  s ← get;
  pat ← lift (Psi.PackPat);
  pmt ← lift (Psi.PackPmt (videoCodecId (filter s)) (audioCodecId (filter s)));
  _ ← callback (mret tt) (OnPatPmt (pat ++ pmt));
  _ ← pop_all (data (filter s));
  modify (λ s, set_filter s (mkFilter (maxMsgSize (filter s)) [] (audioCodecId (filter s))
                               (videoCodecId (filter s)) true)).

Definition Push (msg : RtmpMsg) : eff World unit :=
  s ← get;
  if filterDone (filter s) then onPop msg else
  _ ← modify (λ s, set_filter s (mkFilter (maxMsgSize (filter s)) (data (filter s) ++ [Clone msg])
                                   (audioCodecId (filter s)) (videoCodecId (filter s)) (filterDone (filter s))));
  let t := MsgTypeId (msgHeader msg) in
  s ← get;
  '(a, v) ← lift
    (if t =? RtmpTypeIdAudio then
       p0 ← go_index (msgPayload msg) 0; Ret (Z.shiftr p0 4, videoCodecId (filter s))
     else if t =? RtmpTypeIdVideo then v ← VideoCodecId msg; Ret (audioCodecId (filter s), v)
     else Ret (audioCodecId (filter s), videoCodecId (filter s)));
  _ ← modify (λ s, set_filter s (mkFilter (maxMsgSize (filter s)) (data (filter s)) a v (filterDone (filter s))));
  if negb (v =? -1) && negb (a =? -1) then drain
  else if len (data (filter s)) >=? maxMsgSize (filter s) then drain
  else mret tt.

Definition FeedRtmpMessage (msg : RtmpMsg) : eff World unit := Push msg.
Definition Dispose : eff World unit := flush.
End Remuxer.

(** ** The elementary streams

    What the messages carry, without the filter, the gathering of audio, the
    packets and the times of audio: the ADTS (or Opus) bytes, and one access
    unit per video message. *)

Record AccessUnit := mkAu { auDts : Z; auCts : Z; auKey : bool; auRaw : list Z }.

Record Es := mkEs {
  esAsc : option Aac.AscContext;
  esSets : option (list Z);
  esBase : Z;
  esAudio : list Z;
  esVideo : list AccessUnit;
}.

Definition es_init : Es := mkEs None None MaxUint64 [] [].

Definition es_asc (e : Es) (c : option Aac.AscContext) : Es := mkEs c (esSets e) (esBase e) (esAudio e) (esVideo e).
Definition es_sets (e : Es) (b : option (list Z)) : Es := mkEs (esAsc e) b (esBase e) (esAudio e) (esVideo e).
Definition es_audio (e : Es) (b : list Z) : Es :=
  mkEs (esAsc e) (esSets e) (esBase e) (esAudio e ++ b) (esVideo e).
Definition es_unit (e : Es) (base : Z) (au : AccessUnit) : Es :=
  mkEs (esAsc e) (esSets e) base (esAudio e) (esVideo e ++ [au]).

Definition ret_opt {A} (m : outcome A) : option A := match m with Ret a => Some a | _ => None end.

Section Spec.
Context {B : Bele} {BI : NazaBits} (TryAnnexb : bool).

Definition es_feed_audio (e : Es) (msg : RtmpMsg) : Es :=
  let p := msgPayload msg in
  if len p <=? 2 then e
  else if Z.shiftr (nth 0 p 0) 4 =? RtmpSoundFormatAac then
    if nth 1 p 0 =? RtmpAacPacketTypeSeqHeader then es_asc e (ret_opt (Aac.NewAscContext (drop 2 p)))
    else match esAsc e with
         | Some c => es_audio e (Aac.PackAdtsHeader c (u32 (MsgLen (msgHeader msg) - 2)) ++ drop 2 p)
         | None => e
         end
  else if Z.shiftr (nth 0 p 0) 4 =? RtmpSoundFormatOpus then es_audio e (drop 1 p)
  else e.

(** The loop over the units with the parameter sets threaded through. *)
Fixpoint es_units (codecId : Z) (nals : list (list Z)) (l : VideoLoop) (sets : option (list Z))
    : option VideoLoop * option (list Z) :=
  match nals with
  | [] => (Some l, sets)
  | nal :: nals =>
      let t := if codecId =? RtmpCodecIdAvc then Avc.ParseNaluType (nth 0 nal 0)
               else Hevc.ParseNaluType (nth 0 nal 0) in
      match skip_unit codecId t nal l with
      | Some (l, s) => es_units codecId nals l (match s with Some b => Some b | None => sets end)
      | None =>
          match send_unit sets codecId t nal l with
          | Some l => es_units codecId nals l sets
          | None => (None, sets)
          end
      end
  end.

Definition es_frame (e : Es) (msg : RtmpMsg) (raw : list Z) : Es :=
  match Cts msg, IsVideoKeyNalu msg with
  | Ret cts, Ret key =>
      let '(base, dts) := rebase (esBase e) (u64 (TimestampAbs (msgHeader msg) * 90)) in
      es_unit e base (mkAu dts cts key raw)
  | _, _ => e
  end.

Definition es_feed_video (e : Es) (msg : RtmpMsg) : Es :=
  if len (msgPayload msg) <=? 5 then e else
  match VideoCodecId msg, IsAvcKeySeqHeader msg, IsHevcKeySeqHeader msg, IsEnhanced msg with
  | Ret codecId, Ret avcSeq, Ret hevcSeq, Ret enh =>
      if negb (codecId =? RtmpCodecIdAvc) && negb (codecId =? RtmpCodecIdHevc) then e
      else if avcSeq : bool then es_sets e (ret_opt (AvcSeq.SpsPpsSeqHeader2Annexb (msgPayload msg)))
      else if hevcSeq : bool then
        es_sets e (ret_opt (if enh : bool then HevcSeq.VpsSpsPpsEnhancedSeqHeader2Annexb (msgPayload msg)
                            else HevcSeq.VpsSpsPpsSeqHeader2Annexb TryAnnexb (msgPayload msg)))
      else
        match video_units codecId msg with
        | Ret (nals, None) =>
            let '(r, sets) := es_units codecId nals (mkVideoLoop [] false false [] [] []) (esSets e) in
            let e := es_sets e sets in
            match r with
            | Some l => if len (videoOut l) =? 0 then e else es_frame e msg (videoOut l)
            | None => e
            end
        | _ => e
        end
  | _, _, _, _ => e
  end.

Definition es_step (e : Es) (msg : RtmpMsg) : Es :=
  let t := MsgTypeId (msgHeader msg) in
  if t =? RtmpTypeIdAudio then es_feed_audio e msg
  else if t =? RtmpTypeIdVideo then es_feed_video e msg
  else e.
End Spec.

(** The codecs the first messages tell, and whether the filter stops there. *)
Definition codec_step (c : Z * Z) (msg : RtmpMsg) : Z * Z :=
  let t := MsgTypeId (msgHeader msg) in
  if t =? RtmpTypeIdAudio then (Z.shiftr (nth 0 (msgPayload msg) 0) 4, c.2)
  else if t =? RtmpTypeIdVideo then (c.1, match VideoCodecId msg with Ret v => v | _ => c.2 end)
  else c.
Definition codecs_of (l : list RtmpMsg) : Z * Z := foldl codec_step (-1, -1) l.
Definition ready (l : list RtmpMsg) : bool :=
  (negb ((codecs_of l).2 =? -1) && negb ((codecs_of l).1 =? -1)) || (len l >=? calcFragmentHeaderQueueSize).

(** The messages until the filter stops, if it does. *)
Fixpoint probe_from (seen l : list RtmpMsg) : option (list RtmpMsg) :=
  match l with
  | [] => None
  | msg :: l => if ready (seen ++ [msg]) then Some (seen ++ [msg]) else probe_from (seen ++ [msg]) l
  end.
Definition probe (l : list RtmpMsg) : option (list RtmpMsg) := probe_from [] l.

Definition tables_of {B : Bele} {BI : NazaBits} (c : Z * Z) : outcome (list Z) :=
  pat ← Psi.PackPat; pmt ← Psi.PackPmt c.2 c.1; Ret (pat ++ pmt).

(** ** What the observer has been given *)

Definition audio_bytes (tr : list TsCall) : list Z :=
  mjoin ((λ c, match c with
               | OnTsPackets _ f _ => if TsPack.Sid f =? TsPack.StreamIdAudio then TsPack.Raw f else []
               | OnPatPmt _ => [] end) <$> tr).
Definition video_units_of (tr : list TsCall) : list AccessUnit :=
  omap (λ c, match c with
             | OnTsPackets _ f _ =>
                 if TsPack.Sid f =? TsPack.StreamIdVideo
                 then Some (mkAu (TsPack.Dts f) (TsPack.Cts f) (TsPack.Key f) (TsPack.Raw f)) else None
             | OnPatPmt _ => None end) tr.

(** The tables come first and once; every other callback carries the packets of
    its frame, and the continuity counters of each stream go on from callback to
    callback: they stand at [a] and [v]. *)
Inductive packed (tables : list Z) : Z → Z → list TsCall → Prop :=
  | packed_tables : packed tables 0 0 [OnPatPmt tables]
  | packed_audio a v tr f p f' bd :
      packed tables a v tr →
      TsPack.Cc f = a → TsPack.Pid f = TsPack.PidAudio → TsPack.Sid f = TsPack.StreamIdAudio →
      TsPack.Raw f ≠ [] → TsPack.Pack f = Ret (p, f') →
      packed tables (TsPack.Cc f') v (tr ++ [OnTsPackets p f' bd])
  | packed_video a v tr f p f' bd :
      packed tables a v tr →
      TsPack.Cc f = v → TsPack.Pid f = TsPack.PidVideo → TsPack.Sid f = TsPack.StreamIdVideo →
      TsPack.Raw f ≠ [] → TsPack.Pack f = Ret (p, f') →
      packed tables a (TsPack.Cc f') (tr ++ [OnTsPackets p f' bd]).

(** The remuxer has given, and holds back, exactly the streams [e]. *)
Record inv (tables : list Z) (F : Filter) (e : Es) (s : Rtmp2MpegtsRemuxer) (tr : list TsCall) : Prop := {
  inv_filter : filter s = F;
  inv_packed : packed tables (audioCc s) (videoCc s) tr;
  inv_audio : audio_bytes tr ++ audioCacheFrames s = esAudio e;
  inv_video : video_units_of tr = esVideo e;
  inv_asc : ascCtx s = esAsc e;
  inv_sets : spspps s = esSets e;
  inv_base : basicVideoDts (timestampFilter s) = esBase e;
}.

Section Facts.
Context {Ob : Type} {OB : TsObserver Ob} {B : Bele} {HB : BeleLaws B} {BI : NazaBits} {HBI : NazaBitsLaws BI}.
Context (tables : list Z).

(** Conditions on the remuxer and the trace, whatever the observer's state. *)
Definition on (J : Rtmp2MpegtsRemuxer → list TsCall → Prop) : @World Ob → Prop := λ w, J w.1.1 w.1.2.

Lemma ensures_get J Q : (∀ s, ensures (λ w, on J w ∧ w.1.1 = s) (mret s) Q) → ensures (on J) get Q.
Proof.
  intros H [[s tr] o] Hw. destruct (H s ((s, tr), o)) as (w & a & E & HQ); [by split|].
  injection E as <- <-. by exists ((s, tr), o), s.
Qed.

Lemma ensures_modify J K f : (∀ s tr, J s tr → K (f s) tr) → ensures (on J) (modify f) (λ _, on K).
Proof. intros H [[s tr] o] Hw. eexists _, tt. split; [reflexivity|]. by apply H. Qed.

(** Reading the state keeps it; what follows may use the value. *)
Lemma ensures_get_bind {X} J (f : Rtmp2MpegtsRemuxer → eff World X) Q :
  (∀ s0, ensures (on (λ s tr, J s tr ∧ s = s0)) (f s0) Q) → ensures (on J) (get ≫= f) Q.
Proof.
  intros H [[s tr] o] Hw. destruct (H s ((s, tr), o)) as (w & a & E & HQ); [by split|].
  exists w, a. split; [|done]. by rewrite (eff_bind_Ret _ _ _ ((s, tr), o) s).
Qed.

Lemma ensures_modify_bind {X} J K g (f : unit → eff World X) Q :
  (∀ s tr, J s tr → K (g s) tr) → ensures (on K) (f tt) Q → ensures (on J) (modify g ≫= f) Q.
Proof.
  intros H Hf. eapply ensures_bind; [by apply (ensures_modify J K)|]. by intros [].
Qed.

Lemma ensures_callback J K nested c :
  ensures (on J) nested (λ _, on K) → (∀ s tr, J s tr → K s tr) →
  ensures (on J) (callback nested c) (λ _, on (λ s tr, ∃ tr0, tr = tr0 ++ [c] ∧ K s tr0)).
Proof.
  intros Hn HJ [[s tr] o] Hw. unfold callback. destruct (before c o) as [flush o1]. destruct flush.
  - destruct (Hn (s, tr, o1) Hw) as ([[s' tr'] o'] & a & -> & Hk). eexists _, tt.
    split; [reflexivity|]. by exists tr'.
  - eexists _, tt. split; [reflexivity|]. exists tr. split; [done|]. by apply HJ.
Qed.

(** Retiming keeps all but the times. *)
Definition same_data (f g : Frame) : Prop :=
  TsPack.Cts g = TsPack.Cts f ∧ TsPack.Cc g = TsPack.Cc f ∧ TsPack.Pid g = TsPack.Pid f ∧
  TsPack.Sid g = TsPack.Sid f ∧ TsPack.Key g = TsPack.Key f ∧ TsPack.Raw g = TsPack.Raw f.

Lemma tsFilter_same t f : same_data f (tsFilter_Do t f).2.
Proof.
  unfold tsFilter_Do. destruct (_ =? _); [destruct (rebase _ _); by repeat split|].
  destruct (_ =? _); [destruct (rebase _ _)|]; by repeat split.
Qed.

(** [onFrame] gives the observer the packets of the retimed frame, after what
    the nested call gave it. *)
Lemma onFrame_spec (P J K : Rtmp2MpegtsRemuxer → list TsCall → Prop) (T : TimestampFilter → Prop) nested f :
  0 ≤ TsPack.Pid f < 8192 → TsPack.Raw f ≠ [] →
  (∀ s tr, P s tr → T (timestampFilter s) ∧ J (set_tsFilter s (tsFilter_Do (timestampFilter s) f).1) tr) →
  (∀ s tr, J s tr → J (set_opened s) tr) →
  ensures (on J) nested (λ _, on K) → (∀ s tr, J s tr → K s tr) →
  ensures (on P) (onFrame nested f) (λ f', on (λ s tr, ∃ tf p bd tr0,
    T tf ∧ TsPack.Pack (tsFilter_Do tf f).2 = Ret (p, f') ∧ tr = tr0 ++ [OnTsPackets p f' bd] ∧ K s tr0)).
Proof.
  intros Hp Hr HP HJ Hn HK. unfold onFrame. apply ensures_get_bind. intros s0.
  destruct (tsFilter_Do (timestampFilter s0) f) as [t f1] eqn:Et.
  pose proof (tsFilter_same (timestampFilter s0) f) as Hs. rewrite Et in Hs. destruct Hs as (_ & _ & Hpid & _ & _ & Hraw).
  cbn [snd] in Hpid, Hraw.
  eapply (ensures_modify_bind _ (λ s tr, T (timestampFilter s0) ∧ J s tr)).
  { intros s tr [H ->]. destruct (HP _ _ H) as [H1 H2]. by rewrite Et in H2. }
  eapply (ensures_modify_bind _ (λ s tr, T (timestampFilter s0) ∧ J s tr)).
  { intros s tr [H1 H2]. split; [done|]. destruct (boundary_of s0 f1); auto. }
  destruct (TsPack.Pack_continues f1) as (ps & _ & Epk & _); [by rewrite Hpid|by rewrite Hraw|].
  eapply ensures_lift_bind; [exact Epk|]. cbv beta iota.
  eapply ensures_bind.
  { apply (ensures_callback _ (λ s tr, T (timestampFilter s0) ∧ K s tr)).
    - intros w [H1 H2]. destruct (Hn w H2) as (w' & a & E & H3). exists w', a. split; [done|by split].
    - intros s tr [H1 H2]. auto. }
  intros []. apply ensures_ret. intros [[s tr] o] (tr0 & Htr & H1 & H2).
  exists (timestampFilter s0). rewrite Et. eauto 10.
Qed.

Lemma audio_bytes_snoc tr c : audio_bytes (tr ++ [c]) = audio_bytes tr ++ audio_bytes [c].
Proof. unfold audio_bytes. by rewrite fmap_app, join_app. Qed.
Lemma video_units_snoc tr c : video_units_of (tr ++ [c]) = video_units_of tr ++ video_units_of [c].
Proof. unfold video_units_of. by rewrite omap_app. Qed.

Lemma Pack_same f p f' : 0 ≤ TsPack.Pid f < 8192 → TsPack.Raw f ≠ [] → TsPack.Pack f = Ret (p, f') →
  ∃ cc, f' = TsPack.set_cc f cc.
Proof.
  intros Hp Hr E. destruct (TsPack.Pack_continues f Hp Hr) as (ps & _ & E' & _). rewrite E in E'. simplify_eq. eauto.
Qed.

Lemma flush0_spec J : (∀ s tr, J s tr → audioCacheFrames s = []) →
  ensures (on J) (FlushAudio 0) (λ _, on J).
Proof.
  intros HJ. cbn [FlushAudio]. apply ensures_get_bind. intros s0.
  destruct (audioCacheEmpty s0) eqn:E.
  - apply ensures_ret. by intros w [H _].
  - intros [[s tr] o] [H Es]. cbn in Es. subst s0. unfold audioCacheEmpty in E. by rewrite (HJ s tr H) in E.
Qed.

(** The packets of a retimed audio frame, and of a retimed video frame. *)
Lemma audio_call tf f0 p f' bd a v tr :
  TsPack.Pid f0 = TsPack.PidAudio → TsPack.Sid f0 = TsPack.StreamIdAudio → TsPack.Raw f0 ≠ [] →
  TsPack.Pack (tsFilter_Do tf f0).2 = Ret (p, f') → TsPack.Cc f0 = a → packed tables a v tr →
  packed tables (TsPack.Cc f') v (tr ++ [OnTsPackets p f' bd]) ∧
  audio_bytes (tr ++ [OnTsPackets p f' bd]) = audio_bytes tr ++ TsPack.Raw f0 ∧
  video_units_of (tr ++ [OnTsPackets p f' bd]) = video_units_of tr.
Proof.
  intros Hp Hs Hr E Hcc Ht. destruct (tsFilter_same tf f0) as (_ & E2 & E3 & E4 & _ & E6).
  assert (Hp' : 0 ≤ TsPack.Pid (tsFilter_Do tf f0).2 < 8192) by (rewrite E3, Hp; done).
  destruct (Pack_same _ p f' Hp') as (cc & ->); [by rewrite E6|done|].
  split; [eapply (packed_audio _ a v tr); [done| | | | |exact E]; congruence|].
  rewrite audio_bytes_snoc, video_units_snoc. unfold audio_bytes at 2, video_units_of at 2. cbn.
  rewrite E4, Hs, E6. cbn. by rewrite !app_nil_r.
Qed.

Lemma video_call tf f0 p f' bd a v tr :
  TsPack.Pid f0 = TsPack.PidVideo → TsPack.Sid f0 = TsPack.StreamIdVideo → TsPack.Raw f0 ≠ [] →
  TsPack.Pack (tsFilter_Do tf f0).2 = Ret (p, f') → TsPack.Cc f0 = v → packed tables a v tr →
  packed tables a (TsPack.Cc f') (tr ++ [OnTsPackets p f' bd]) ∧
  audio_bytes (tr ++ [OnTsPackets p f' bd]) = audio_bytes tr ∧
  video_units_of (tr ++ [OnTsPackets p f' bd]) = video_units_of tr ++
    [mkAu (rebase (basicVideoDts tf) (TsPack.Dts f0)).2 (TsPack.Cts f0) (TsPack.Key f0) (TsPack.Raw f0)].
Proof.
  intros Hp Hs Hr E Hcc Ht. destruct (tsFilter_same tf f0) as (E1 & E2 & E3 & E4 & E5 & E6).
  assert (Hp' : 0 ≤ TsPack.Pid (tsFilter_Do tf f0).2 < 8192) by (rewrite E3, Hp; done).
  destruct (Pack_same _ p f' Hp') as (cc & ->); [by rewrite E6|done|].
  split; [eapply (packed_video _ a v tr); [done| | | | |exact E]; congruence|].
  rewrite audio_bytes_snoc, video_units_snoc. unfold audio_bytes at 2, video_units_of at 2. cbn.
  rewrite E4, Hs, E6, E1, E5. cbn. rewrite app_nil_r. split; [done|].
  unfold tsFilter_Do. rewrite Hs. cbn. by destruct (rebase (basicVideoDts tf) (TsPack.Dts f0)).
Qed.

Lemma flush_spec F e c : ensures (on (λ s tr, inv tables F e s tr ∧ videoCc s = c)) flush
  (λ _, on (λ s tr, (inv tables F e s tr ∧ videoCc s = c) ∧ audioCacheFrames s = [])).
Proof.
  unfold flush. cbn [FlushAudio]. fold (@FlushAudio Ob OB 0). apply ensures_get_bind. intros s0.
  destruct (audioCacheEmpty s0) eqn:E.
  { apply ensures_ret. intros [[s tr] o] [H Es]. cbn in Es. subst s0. split; [done|].
    unfold audioCacheEmpty in E. apply Z.eqb_eq in E. cbn in *. by destruct (audioCacheFrames s). }
  set (f0 := mkFrame _ _ _ _ _ _ _ _). set (raw := audioCacheFrames s0) in *.
  assert (Hraw : raw ≠ []).
  { unfold audioCacheEmpty in E. apply Z.eqb_neq in E. unfold raw in *. by destruct (audioCacheFrames s0). }
  set (J := λ (s : Rtmp2MpegtsRemuxer) tr, filter s = F ∧ packed tables (audioCc s) (videoCc s) tr ∧ audioCc s = audioCc s0 ∧
     audio_bytes tr ++ raw = esAudio e ∧ video_units_of tr = esVideo e ∧ ascCtx s = esAsc e ∧ spspps s = esSets e ∧
     basicVideoDts (timestampFilter s) = esBase e ∧ audioCacheFrames s = [] ∧ videoCc s = c).
  eapply (ensures_modify_bind _ J).
  { intros s tr [[[] ?] ->]. by repeat split. }
  eapply ensures_bind.
  { apply (onFrame_spec J J J (λ _, True)); [done|done| | | |done].
    - intros s tr (H1&H2&Hcc&H3&H4&H5&H6&H7&H8). split; [done|].
      refine (conj H1 (conj H2 (conj Hcc (conj H3 (conj H4 (conj H5 (conj H6 (conj _ H8)))))))).
      cbn [timestampFilter set_tsFilter].
      unfold tsFilter_Do. destruct (TsPack.Sid f0 =? _) eqn:Es; [|done]. by destruct (rebase _ _).
    - intros s tr H. exact H.
    - apply flush0_spec. by intros s tr (?&?&?&?&?&?&?&?&?&?). }
  intros f'. eapply ensures_modify. intros s tr (tf & p & bd & tr0 & _ & Epk & -> & (H1&H2&Hcc&H3&H4&H5&H6&H7&H8&H9)).
  destruct (audio_call tf f0 p f' bd (audioCc s0) (videoCc s) tr0) as (Ht & Ha & Hv); try done; [by rewrite <- Hcc|].
  split; [|done]. split; [|done]. split; cbn; try done; [by rewrite Ha, H8, app_nil_r|by rewrite Hv].
Qed.

Lemma flush_empties F e : ensures (on (inv tables F e)) flush
  (λ _, on (λ s tr, inv tables F e s tr ∧ audioCacheFrames s = [])).
Proof.
  intros w H. destruct (flush_spec F e (videoCc w.1.1) w) as (w' & a & E & [[H' _] H'']); [by split|].
  exists w', a. split; [done|by split].
Qed.
Lemma flush_inv F e : ensures (on (inv tables F e)) flush (λ _, on (inv tables F e)).
Proof. eapply ensures_weaken; [apply flush_empties|done|]. by intros a w [H _]. Qed.

(** *** The messages a publisher sends *)

(** Sequence headers whose conversion does not panic (an enhanced HEVC header
    shorter than 28 bytes does, [HevcSeq.hevc_short_enhanced_panics]). *)
Definition header_ok (TryAnnexb : bool) (msg : RtmpMsg) : Prop :=
  no_panic (AvcSeq.SpsPpsSeqHeader2Annexb (msgPayload msg)) ∧
  no_panic (HevcSeq.VpsSpsPpsEnhancedSeqHeader2Annexb (msgPayload msg)) ∧
  no_panic (HevcSeq.VpsSpsPpsSeqHeader2Annexb TryAnnexb (msgPayload msg)).

(** Whether the message is a sequence header, as [feedVideo] finds out. *)
Definition is_header (msg : RtmpMsg) : bool :=
  match IsAvcKeySeqHeader msg, IsHevcKeySeqHeader msg with
  | Ret a, Ret h => a || h
  | _, _ => false
  end.

Record feedable (TryAnnexb : bool) (msg : RtmpMsg) : Prop := {
  fd_bytes : is_bytes (msgPayload msg);
  fd_nonempty : 0 < len (msgPayload msg);
  fd_enhanced : MsgTypeId (msgHeader msg) = RtmpTypeIdVideo →
    128 ≤ nth 0 (msgPayload msg) 0 → 8 ≤ len (msgPayload msg);
  fd_header : MsgTypeId (msgHeader msg) = RtmpTypeIdVideo → is_header msg = true → header_ok TryAnnexb msg;
}.

Lemma NewAscContext_no_panic asc : no_panic (Aac.NewAscContext asc).
Proof.
  unfold no_panic, Aac.NewAscContext, Aac.asc_Unpack. case_match; [done|]. by repeat (destruct (rbits _ _)).
Qed.

Lemma IsEnhanced_Ret h b0 p : is_u8 b0 → IsEnhanced (mkRtmpMsg h (b0 :: p)) = Ret (128 <=? b0).
Proof.
  intros Hb. change (IsEnhanced _) with (Ret (negb (Z.land b0 (2 ^ 7) =? 0))). f_equal.
  destruct (Z.leb_spec 128 b0) as [H|H].
  - apply negb_true_iff, Z.eqb_neq. intros E. apply (f_equal (λ z, Z.testbit z 7)) in E.
    rewrite Z.land_spec, Z.pow2_bits_true, andb_true_r, Z.bits_0 in E by lia.
    rewrite Z.testbit_eqb in E by lia. apply Z.eqb_neq in E. apply E.
    replace (b0 / 2 ^ 7) with 1; [done|]. apply Z.div_unique with (b0 - 128); lia.
  - apply negb_false_iff, Z.eqb_eq, Z.bits_inj_0. intros n.
    rewrite Z.land_spec, Z.pow2_bits_eqb by lia. destruct (Z.eqb_spec 7 n); [subst n|by rewrite andb_false_r].
    rewrite Z.testbit_eqb by lia. by rewrite Z.div_small by lia.
Qed.

Ltac video_test :=
  unfold VideoCodecId, IsAvcKeySeqHeader, IsHevcKeySeqHeader, IsVideoKeyNalu, IsAvcKeyNalu, IsHevcKeyNalu,
    IsEnchanedHevcNalu, is_hvc1, at_is, go_and, go_or;
  cbn; repeat (case_match; cbn); first [done | by eexists].

(** What [feedVideo] asks of a message of more than five bytes is answered. *)
Lemma video_tests msg : is_bytes (msgPayload msg) → 5 < len (msgPayload msg) →
  (∃ c, VideoCodecId msg = Ret c) ∧ (∃ a, IsAvcKeySeqHeader msg = Ret a) ∧ (∃ h, IsHevcKeySeqHeader msg = Ret h) ∧
  (∃ e, IsEnhanced msg = Ret e) ∧ (∃ k, IsVideoKeyNalu msg = Ret k) ∧ (∃ n, IsEnchanedHevcNalu msg = Ret n).
Proof.
  destruct msg as [h p]. cbn [msgPayload]. intros Hb Hl.
  do 6 (destruct p as [|? p]; [simpl in Hl; lia|]). apply Forall_cons in Hb as [Hb _].
  unfold VideoCodecId, IsHevcKeySeqHeader, IsVideoKeyNalu, IsHevcKeyNalu, IsEnchanedHevcNalu.
  rewrite !IsEnhanced_Ret by done. split_and!; [video_test|video_test|video_test|by eexists|video_test|video_test].
Qed.

(** *** Steps of the remuxer on the streams *)

Lemma inv_update F e s tr s' e' :
  inv tables F e s tr → filter s' = filter s → audioCc s' = audioCc s → videoCc s' = videoCc s →
  (audioCacheFrames s' = audioCacheFrames s ∧ esAudio e' = esAudio e ∨
   ∃ b, audioCacheFrames s' = audioCacheFrames s ++ b ∧ esAudio e' = esAudio e ++ b) →
  esVideo e' = esVideo e → ascCtx s' = esAsc e' → spspps s' = esSets e' →
  basicVideoDts (timestampFilter s') = esBase e' → inv tables F e' s' tr.
Proof.
  intros [] E1 E2 E3 E4 E5 E6 E7 E8. split; try congruence.
  destruct E4 as [[-> ->]|(b & -> & ->)]; [done|]. by rewrite app_assoc, inv_audio0.
Qed.

Lemma flush_if_spec F e b : ensures (on (inv tables F e)) (if b : bool then flush else mret tt) (λ _, on (inv tables F e)).
Proof.
  destruct b; [apply flush_inv|by apply ensures_ret].
Qed.

Lemma feed_aac_spec F e c msg : 2 < len (msgPayload msg) →
  ensures (on (inv tables F e)) (feed_aac c msg) (λ _, on (inv tables F (es_audio e
    (Aac.PackAdtsHeader c (u32 (MsgLen (msgHeader msg) - 2)) ++ drop 2 (msgPayload msg))))).
Proof.
  intros Hl. unfold feed_aac. apply ensures_get_bind. intros s0.
  eapply ensures_bind.
  { eapply ensures_weaken; [apply flush_if_spec| |]; [by intros w [H _]|by intros a w H; exact H]. }
  intros []. eapply (ensures_modify_bind _ (inv tables F e)).
  { intros s tr H. destruct (audioCacheEmpty s); [|done]. eapply inv_update; try done; try apply H. by left. }
  eapply ensures_lift_bind; [apply go_from_Ret; lia|]. apply ensures_modify. intros s tr H.
  eapply inv_update; try done; try apply H. right. by eexists.
Qed.

Lemma feed_opus_spec F e msg : 2 < len (msgPayload msg) →
  ensures (on (inv tables F e)) (feed_opus msg) (λ _, on (inv tables F (es_audio e (drop 1 (msgPayload msg))))).
Proof.
  intros Hl. unfold feed_opus. eapply ensures_lift_bind; [apply go_from_Ret; lia|].
  eapply (ensures_modify_bind _ (inv tables F (es_audio e (drop 1 (msgPayload msg))))).
  { intros s tr H. eapply inv_update; try done; try apply H. right. by eexists. }
  apply flush_inv.
Qed.

Lemma cache_asc_spec F e msg : 2 < len (msgPayload msg) →
  ensures (on (inv tables F e)) (cacheAacSeqHeader msg)
    (λ _, on (inv tables F (es_asc e (ret_opt (Aac.NewAscContext (drop 2 (msgPayload msg))))))).
Proof.
  intros Hl. unfold cacheAacSeqHeader. eapply ensures_lift_bind; [apply go_from_Ret; lia|].
  change (Z.to_nat 2) with 2%nat.
  pose proof (NewAscContext_no_panic (drop 2 (msgPayload msg))) as Hn.
  destruct (Aac.NewAscContext _); [| |by destruct Hn];
    apply ensures_modify; intros s tr H; (eapply inv_update; try done; try apply H; by left).
Qed.

Lemma feedAudio_spec F e msg :
  0 < len (msgPayload msg) →
  (Z.shiftr (nth 0 (msgPayload msg) 0) 4 = RtmpSoundFormatAac ∨
   Z.shiftr (nth 0 (msgPayload msg) 0) 4 = RtmpSoundFormatOpus) →
  ensures (on (inv tables F e)) (feedAudio msg) (λ _, on (inv tables F (es_feed_audio e msg))).
Proof.
  intros H0 Hc. unfold feedAudio, es_feed_audio. destruct (Z.leb_spec (len (msgPayload msg)) 2); [by apply ensures_ret|].
  assert (E0 : go_index (msgPayload msg) 0 = Ret (nth 0 (msgPayload msg) 0)) by by destruct (msgPayload msg).
  assert (E1 : go_index (msgPayload msg) 1 = Ret (nth 1 (msgPayload msg) 0)).
  { destruct (msgPayload msg) as [|? [|? ?]]; simpl in *; try lia. done. }
  eapply ensures_lift_bind; [unfold AudioCodecId; by rewrite E0|]. cbv zeta.
  destruct (Z.eqb_spec (Z.shiftr (nth 0 (msgPayload msg) 0) 4) RtmpSoundFormatAac) as [Ea|Ea].
  - eapply ensures_lift_bind; [exact E1|]. destruct (_ =? RtmpAacPacketTypeSeqHeader); [by apply cache_asc_spec|].
    apply ensures_get_bind. intros s0. destruct (ascCtx s0) as [c|] eqn:Es.
    + intros [[s tr] o] [Hi Hs]. cbn in Hi, Hs. subst s0. rewrite <- (inv_asc _ _ _ _ _ Hi), Es.
      by apply feed_aac_spec.
    + apply ensures_ret. intros [[s tr] o] [Hi Hs]. cbn in Hi, Hs. subst s0.
      by rewrite <- (inv_asc _ _ _ _ _ Hi), Es.
  - destruct Hc as [?|Hc]; [done|]. rewrite Hc. change (_ =? _) with true. cbv iota. by apply feed_opus_spec.
Qed.
Lemma es_sets_sets e a b : es_sets (es_sets e a) b = es_sets e b.
Proof. done. Qed.
Lemma es_sets_id e : es_sets e (esSets e) = e.
Proof. by destruct e. Qed.

Lemma keep_sets_spec F e m : no_panic m → ensures (on (inv tables F e)) (keep_sets m) (λ _, on (inv tables F (es_sets e (ret_opt m)))).
Proof.
  intros Hn. destruct m; [| |by destruct Hn];
    apply ensures_modify; intros s tr H; (eapply inv_update; try done; try apply H; by left).
Qed.

Lemma feed_units_spec F codecId : ∀ nals l e, Forall (λ n, n ≠ []) nals →
  ensures (on (inv tables F e)) (feed_units codecId nals l)
    (λ r, on (λ s tr, r = (es_units codecId nals l (esSets e)).1 ∧
                      inv tables F (es_sets e (es_units codecId nals l (esSets e)).2) s tr)).
Proof.
  induction nals as [|nal nals IH]; intros l e Hne; cbn [feed_units es_units].
  { apply ensures_ret. intros w H. by rewrite es_sets_id. }
  apply Forall_cons in Hne as [H0 Hne]. unfold feed_unit.
  destruct nal as [|n0 nal]; [done|]. cbn [nth].
  set (t := if codecId =? RtmpCodecIdAvc then _ else _).
  destruct (skip_unit codecId t (n0 :: nal) l) as [[l' sets]|] eqn:Es.
  - eapply (ensures_bind _ _ _ (λ r, on (λ s tr, r = Some l' ∧
      inv tables F (es_sets e (match sets with Some b => Some b | None => esSets e end)) s tr))).
    { eapply ensures_lift_bind; [reflexivity|]. fold t. rewrite Es.
      eapply ensures_modify_bind; [|apply ensures_ret; intros w H; split; [done|exact H]].
      intros s tr H. cbn beta. destruct sets; [|by rewrite es_sets_id].
      eapply inv_update; try done; try apply H; by left. }
    intros r [[s tr] o] [-> H]. apply (IH l' (es_sets e _) Hne). exact H.
  - eapply (ensures_bind _ _ _ (λ r, on (λ s tr, r = send_unit (esSets e) codecId t (n0 :: nal) l ∧ inv tables F e s tr))).
    { eapply ensures_lift_bind; [reflexivity|]. fold t. rewrite Es. apply ensures_get_bind. intros s0.
      apply ensures_ret. intros [[s tr] o] [H Hs]. cbn in H, Hs. subst s0. split; [|done].
      by rewrite (inv_sets _ _ _ _ _ H). }
    intros r [[s tr] o] [-> H]. destruct (send_unit _ _ _ _ _); [by apply (IH _ e Hne)|].
    eexists _, _. split; [reflexivity|]. split; [done|]. by rewrite es_sets_id.
Qed.

Lemma BeUint24_at (p : list Z) i : is_bytes p → 0 ≤ i → i + 3 ≤ len p →
  ∃ v, (t ← go_from p i; BeUint24 t) = Ret v.
Proof.
  intros Hb Hi Hl. rewrite go_from_Ret, bind_Ret by lia.
  destruct (BeUint24_Ret (drop (Z.to_nat i) p)) as (v & E & _); [by apply is_bytes_drop|rewrite length_drop; lia|eauto].
Qed.

Lemma Cts_Ret T msg : feedable T msg → MsgTypeId (msgHeader msg) = RtmpTypeIdVideo → 5 < len (msgPayload msg) →
  ∃ c, Cts msg = Ret c.
Proof.
  intros Hf Hv Hl. unfold Cts. rewrite Hv. change (RtmpTypeIdVideo =? RtmpTypeIdAudio) with false. cbv iota.
  pose proof (fd_bytes _ _ Hf) as Hb. pose proof (fd_enhanced _ _ Hf Hv) as He.
  destruct msg as [h [|b0 p]]; [simpl in Hl; lia|]. cbn [msgPayload nth] in *.
  pose proof Hb as [H0 _]%Forall_cons. rewrite IsEnhanced_Ret, bind_Ret by done.
  destruct (Z.leb_spec 128 b0); [|apply BeUint24_at; [done|lia..]].
  change (go_index _ 0) with (Ret b0). rewrite bind_Ret. cbv zeta.
  specialize (He H). destruct (_ =? _); [apply BeUint24_at; [done|lia..]|case_match; by eexists].
Qed.
(** A frame of [video_frame] is given with what the retiming makes of it. *)
Lemma video_frame_spec F T e msg raw :
  feedable T msg → MsgTypeId (msgHeader msg) = RtmpTypeIdVideo → 5 < len (msgPayload msg) → raw ≠ [] →
  ensures (on (inv tables F e)) (video_frame msg raw) (λ _, on (inv tables F (es_frame e msg raw))).
Proof.
  intros Hf Hv Hl Hr. unfold video_frame. apply ensures_get_bind. intros s0. cbv zeta.
  eapply ensures_bind.
  { eapply ensures_weaken; [apply flush_if_spec| |]; [by intros w [H _]|by intros a w H; exact H]. }
  intros []. apply ensures_get_bind. intros s1. clear s0.
  destruct (Cts_Ret T msg) as (cts & Ec); [done..|]. destruct (video_tests msg) as (_ & _ & _ & _ & (key & Ek) & _); [apply Hf|lia|].
  eapply ensures_lift_bind; [exact Ec|]. eapply ensures_lift_bind; [exact Ek|].
  set (dts := u64 (TimestampAbs (msgHeader msg) * 90)). set (f0 := mkFrame _ _ _ _ _ _ _ _).
  unfold es_frame. rewrite Ec, Ek. fold dts.
  set (P := λ s tr, inv tables F e s tr ∧ s = s1).
  set (J := λ s tr, inv tables F (mkEs (esAsc e) (esSets e) (rebase (esBase e) dts).1 (esAudio e) (esVideo e)) s tr ∧
                    videoCc s = videoCc s1).
  eapply ensures_bind.
  { apply (onFrame_spec P J J (λ tf, basicVideoDts tf = esBase e)); [done|done| | |eapply ensures_weaken; [apply flush_spec|done|by intros a w [H _]]|done].
    - intros s tr [H ->]. split; [apply H|]. split; [|done].
      eapply inv_update; try done; try apply H; [by left|].
      cbn [timestampFilter set_tsFilter esBase]. unfold tsFilter_Do. cbn.
      rewrite (inv_base _ _ _ _ _ H). by destruct (rebase _ _).
    - intros s tr [H ?]. split; [|done]. eapply inv_update; try done; try apply H; by left. }
  intros f'. apply ensures_modify. intros s tr (tf & p & bd & tr0 & Hb & Epk & -> & [H Hcc]).
  destruct (video_call tf f0 p f' bd (audioCc s) (videoCc s1) tr0) as (Ht & Ha & Hd); try done.
  { rewrite <- Hcc. apply H. }
  rewrite Hb in Hd. change (TsPack.Dts f0) with dts in Hd. destruct (rebase (esBase e) dts) as [base d] eqn:Er.
  destruct H as [G1 G2 G3 G4 G5 G6 G7]. cbn in *. split; cbn; try done; [by rewrite Ha|by rewrite Hd, G4].
Qed.

Lemma video_units_Ret T codecId msg :
  feedable T msg → MsgTypeId (msgHeader msg) = RtmpTypeIdVideo → 5 < len (msgPayload msg) →
  ∃ nals err, video_units codecId msg = Ret (nals, err) ∧ Forall (λ n, n ≠ []) nals.
Proof.
  intros Hf Hv Hl. unfold video_units.
  destruct (video_tests msg) as (_ & _ & _ & _ & _ & (enh & Ee)); [apply Hf|lia|].
  assert (E1 : ∃ b, go_and (Ret (codecId =? RtmpCodecIdHevc)) (IsEnchanedHevcNalu msg) = Ret b).
  { unfold go_and. rewrite Ee. cbn. case_match; by eexists. }
  destruct E1 as (b & ->). rewrite bind_Ret.
  assert (E2 : ∃ i, (if b then GetEnchanedHevcNaluIndex msg else Ret 5) = Ret i ∧ 0 ≤ i ≤ len (msgPayload msg)).
  { destruct b; [|exists 5; split; [done|lia]]. unfold GetEnchanedHevcNaluIndex.
    pose proof (fd_bytes _ _ Hf) as Hb. pose proof (fd_enhanced _ _ Hf Hv) as He.
    destruct msg as [h [|b0 p]]; [simpl in Hl; lia|]. cbn [msgPayload nth] in *.
    pose proof Hb as [H0 _]%Forall_cons. rewrite IsEnhanced_Ret, bind_Ret by done.
    destruct (Z.leb_spec 128 b0); [|exists 0; split; [done|lia]].
    change (go_index _ 0) with (Ret b0). rewrite bind_Ret. cbv zeta. specialize (He H).
    eexists. split; [done|]. repeat case_match; lia. }
  destruct E2 as (i & -> & Hi). rewrite bind_Ret, go_from_Ret, bind_Ret by lia.
  destruct (Avc.SplitNaluAvcc_units (drop (Z.to_nat i) (msgPayload msg))) as (l & e & -> & Hne);
    [apply is_bytes_drop, Hf|]. rewrite bind_Ret. by exists l, e.
Qed.

Lemma feedVideo_spec F T e msg : feedable T msg → MsgTypeId (msgHeader msg) = RtmpTypeIdVideo →
  ensures (on (inv tables F e)) (feedVideo T msg) (λ _, on (inv tables F (es_feed_video T e msg))).
Proof.
  intros Hf Hv. unfold feedVideo, es_feed_video.
  destruct (Z.leb_spec (len (msgPayload msg)) 5); [by apply ensures_ret|].
  destruct (video_tests msg) as ((c & Ec) & (a & Ea) & (h & Eh) & (enh & Ee) & _); [apply Hf|lia|].
  pose proof (fd_header _ _ Hf Hv) as Hh. unfold is_header in Hh.
  rewrite Ec, Ea, Eh, Ee in *. eapply ensures_lift_bind; [reflexivity|].
  destruct (_ && _); [by apply ensures_ret|]. eapply ensures_lift_bind; [reflexivity|].
  destruct a; [apply keep_sets_spec, Hh; done|]. eapply ensures_lift_bind; [reflexivity|].
  destruct h; [eapply ensures_lift_bind; [reflexivity|]; apply keep_sets_spec; by destruct enh; apply Hh|].
  destruct (video_units_Ret T c msg) as (nals & err & Eu & Hne); [done..|].
  rewrite Eu. eapply ensures_lift_bind; [reflexivity|].
  destruct err; [by apply ensures_ret|]. cbv beta iota.
  eapply ensures_bind; [by apply feed_units_spec|]. intros r.
  destruct (es_units _ _ _ _) as [r' sets] eqn:Eus. cbn [fst snd].
  intros [[s tr] o] [-> Hi]. cbn in Hi. destruct r' as [l|]; [|by eexists _, _].
  destruct (Z.eqb_spec (len (videoOut l)) 0); [by eexists _, _|].
  by apply (video_frame_spec F T); [..|lia|destruct (videoOut l)|].
Qed.

Lemma onPop_spec F T e msg : feedable T msg →
  ensures (on (inv tables F e)) (onPop T msg) (λ _, on (inv tables F (es_step T e msg))).
Proof.
  intros Hf. unfold onPop, es_step.
  destruct (Z.eqb_spec (MsgTypeId (msgHeader msg)) RtmpTypeIdAudio) as [Ha|Ha].
  - pose proof (fd_nonempty _ _ Hf) as Hn.
    assert (E0 : AudioCodecId msg = Ret (Z.shiftr (nth 0 (msgPayload msg) 0) 4)).
    { unfold AudioCodecId. by destruct (msgPayload msg). }
    eapply ensures_lift_bind; [exact E0|].
    destruct (_ && _) eqn:E.
    + apply ensures_ret. intros w H. unfold es_feed_audio.
      apply andb_true_iff in E as [->%negb_true_iff ->%negb_true_iff]. by destruct (_ <=? _).
    + apply feedAudio_spec; [done|]. apply andb_false_iff in E as [E|E]; apply negb_false_iff, Z.eqb_eq in E; auto.
  - destruct (Z.eqb_spec (MsgTypeId (msgHeader msg)) RtmpTypeIdVideo); [by apply feedVideo_spec|by apply ensures_ret].
Qed.
Lemma ts_pop_all_spec F T : ∀ l e, Forall (feedable T) l →
  ensures (on (inv tables F e)) (pop_all T l) (λ _, on (inv tables F (foldl (es_step T) e l))).
Proof.
  induction l as [|msg l IH]; intros e Hl; cbn [pop_all foldl]; [by apply ensures_ret|].
  apply Forall_cons in Hl as [Hm Hl]. eapply ensures_bind; [by apply onPop_spec|]. intros []. by apply IH.
Qed.

Lemma inv_set_filter F e s tr F' : inv tables F e s tr → inv tables F' e (set_filter s F') tr.
Proof. by intros []. Qed.
End Facts.

Section Feeding.
Context {Ob : Type} {OB : TsObserver Ob} {B : Bele} {HB : BeleLaws B} {BI : NazaBits} {HBI : NazaBitsLaws BI}.
Context (TryAnnexb : bool).

Definition feed_all : list RtmpMsg → eff (@World Ob) unit :=
  fix feed_all l := match l with [] => mret tt | msg :: l => _ ← FeedRtmpMessage TryAnnexb msg; feed_all l end.

Definition held (l : list RtmpMsg) : Rtmp2MpegtsRemuxer :=
  set_filter NewRtmp2MpegtsRemuxer
    (mkFilter calcFragmentHeaderQueueSize l (codecs_of l).1 (codecs_of l).2 false).

(** After the messages [l]. *)
Definition fed (l : list RtmpMsg) (s : Rtmp2MpegtsRemuxer) (tr : list TsCall) : Prop :=
  match probe l with
  | None => s = held l ∧ tr = []
  | Some first => ∃ tables F, tables_of (codecs_of first) = Ret tables ∧ filterDone F = true ∧
      inv tables F (foldl (es_step TryAnnexb) es_init l) s tr
  end.

Lemma probe_from_snoc seen l msg :
  probe_from seen (l ++ [msg]) =
  match probe_from seen l with
  | Some first => Some first
  | None => if ready (seen ++ l ++ [msg]) then Some (seen ++ l ++ [msg]) else None
  end.
Proof.
  revert seen. induction l as [|m l IH]; intros seen; cbn [probe_from app]; [by case_match|].
  destruct (ready (seen ++ [m])); [done|]. rewrite IH, <- !app_assoc. done.
Qed.

Lemma tables_Ret c : ∃ t, tables_of c = Ret t.
Proof.
  unfold tables_of. destruct Psi.PackPat_Ret as (p & -> & _). rewrite bind_Ret.
  destruct (Psi.PackPmt_Ret c.2 c.1) as (q & -> & _). rewrite bind_Ret. by eexists.
Qed.

Lemma codecs_of_snoc l msg : codecs_of (l ++ [msg]) = codec_step (codecs_of l) msg.
Proof. unfold codecs_of. by rewrite foldl_app. Qed.

(** A fact that the precondition gives may be assumed. *)

Lemma inv_start tables F : inv tables F es_init (set_filter NewRtmp2MpegtsRemuxer F) [OnPatPmt tables].
Proof. split; try done. apply packed_tables. Qed.

Lemma drain_spec l : Forall (feedable TryAnnexb) l →
  ensures (on (λ s tr, s = held l ∧ tr = [])) (drain TryAnnexb)
    (λ _, on (λ s tr, ∃ tables F, tables_of (codecs_of l) = Ret tables ∧ filterDone F = true ∧
      inv tables F (foldl (es_step TryAnnexb) es_init l) s tr)).
Proof.
  intros Hl. unfold drain. apply ensures_get_bind. intros s0.
  apply (ensures_pure _ (s0 = held l)); [by intros [[s tr] o] [[-> _] ->]|]. intros ->.
  destruct (tables_Ret (codecs_of l)) as (t & Et). rewrite Et. unfold tables_of in Et. cbn [held filter set_filter audioCodecId videoCodecId].
  destruct Psi.PackPat as [pat| |]; [|done|done]. rewrite bind_Ret in Et.
  destruct (Psi.PackPmt (codecs_of l).2 (codecs_of l).1) as [pmt| |]; [|done|done]. injection Et as <-.
  do 2 (eapply ensures_lift_bind; [reflexivity|]).
  eapply ensures_bind.
  { apply (ensures_callback _ (λ s tr, s = held l ∧ tr = [])).
    - apply ensures_ret. by intros w [H _].
    - by intros s tr [H _]. }
  intros []. eapply ensures_bind.
  { eapply ensures_weaken; [apply (ts_pop_all_spec (pat ++ pmt) (filter (held l)) TryAnnexb l es_init Hl)| |by intros a w H; exact H].
    intros w (tr0 & Htr & Hs & ->). unfold on. rewrite Htr, Hs. apply inv_start. }
  intros []. apply ensures_modify. intros s tr H. eexists _, _. split; [done|]. split; [|by eapply inv_set_filter].
  done.
Qed.

(** The codec the filter reads from a message. *)
Definition codec_seen (c : Z * Z) (msg : RtmpMsg) : outcome (Z * Z) :=
  let t := MsgTypeId (msgHeader msg) in
  if t =? RtmpTypeIdAudio then p0 ← go_index (msgPayload msg) 0; Ret (Z.shiftr p0 4, c.2)
  else if t =? RtmpTypeIdVideo then v ← VideoCodecId msg; Ret (c.1, v)
  else Ret (c.1, c.2).

Lemma codec_seen_step c msg : feedable TryAnnexb msg → codec_seen c msg = Ret (codec_step c msg).
Proof.
  intros Hf. unfold codec_seen, codec_step. pose proof (fd_nonempty _ _ Hf) as Hn. cbv zeta.
  destruct (_ =? _); [by destruct (msgPayload msg)|].
  destruct (Z.eqb_spec (MsgTypeId (msgHeader msg)) RtmpTypeIdVideo) as [Hv|]; [|by destruct c].
  assert (E : ∃ v, VideoCodecId msg = Ret v); [|by destruct E as (v & ->)].
  destruct (Z.le_gt_cases (len (msgPayload msg)) 5) as [Hl|Hl]; [|apply video_tests; [apply Hf|lia]].
  pose proof (fd_enhanced _ _ Hf Hv) as He. pose proof (fd_bytes _ _ Hf) as Hb.
  destruct msg as [h [|b0 p]]; [done|]. cbn [msgPayload nth] in *. apply Forall_cons in Hb as [H0 _].
  unfold VideoCodecId. rewrite IsEnhanced_Ret, bind_Ret by done.
  destruct (Z.leb_spec 128 b0); [specialize (He ltac:(done)); lia|]. by eexists.
Qed.

Lemma Push_spec l msg : Forall (feedable TryAnnexb) l → feedable TryAnnexb msg →
  ensures (on (fed l)) (FeedRtmpMessage TryAnnexb msg) (λ _, on (fed (l ++ [msg]))).
Proof.
  intros Hl Hm. unfold FeedRtmpMessage, Push. apply ensures_get_bind. intros s0. unfold fed.
  unfold probe. rewrite probe_from_snoc. fold (probe l). destruct (probe l) as [first|] eqn:Ep.
  - apply (ensures_pure _ (filterDone (filter s0) = true)).
    { intros w [(t & F & _ & Hd & Hi) <-]. by rewrite (inv_filter _ _ _ _ _ Hi). }
    intros ->. intros [[s tr] o] [(t & F & Et & Hd & Hi) _]. rewrite foldl_app. cbn [foldl].
    destruct (onPop_spec t F TryAnnexb (foldl (es_step TryAnnexb) es_init l) msg Hm (s, tr, o)) as (w & a & E & H);
      [done|]. exists w, a. split; [exact E|]. by exists t, F.
  - apply (ensures_pure _ (s0 = held l)); [by intros [[s tr] o] [[-> _] ->]|]. intros ->.
    change (filterDone (filter (held l))) with false. cbv iota. rewrite Clone_id.
    set (h1 := set_filter NewRtmp2MpegtsRemuxer
      (mkFilter calcFragmentHeaderQueueSize (l ++ [msg]) (codecs_of l).1 (codecs_of l).2 false)).
    eapply (ensures_modify_bind _ (λ s tr, s = h1 ∧ tr = [])).
    { by intros s tr [[-> ->] _]. }
    apply ensures_get_bind. intros s0. apply (ensures_pure _ (s0 = h1)); [by intros w [[H _] <-]|]. intros ->.
    cbn [h1 filter set_filter audioCodecId videoCodecId data maxMsgSize].
    eapply ensures_lift_bind; [exact (codec_seen_step (codecs_of l) msg Hm)|]. rewrite <- codecs_of_snoc.
    pose proof (drain_spec (l ++ [msg]) ltac:(by apply Forall_app_2; [|constructor])) as Hdr.
    destruct (codecs_of (l ++ [msg])) as [a v] eqn:Ec. rewrite <- Ec in Hdr.
    eapply (ensures_modify_bind _ (λ s tr, s = held (l ++ [msg]) ∧ tr = [])).
    { intros s tr [[-> ->] _]. unfold held. by rewrite Ec. }
    cbn [app]. unfold ready. rewrite Ec. cbn [fst snd].
    destruct (negb (v =? -1) && negb (a =? -1)); cbn [orb]; [|destruct (_ >=? _)].
    + exact Hdr.
    + exact Hdr.
    + by apply ensures_ret.
Qed.

Lemma feed_all_spec : ∀ l2 l1, Forall (feedable TryAnnexb) l1 → Forall (feedable TryAnnexb) l2 →
  ensures (on (fed l1)) (feed_all l2) (λ _, on (fed (l1 ++ l2))).
Proof.
  induction l2 as [|msg l2 IH]; intros l1 H1 H2; cbn [feed_all].
  { apply ensures_ret. by rewrite app_nil_r. }
  apply Forall_cons in H2 as [Hm H2]. eapply ensures_bind; [by apply Push_spec|]. intros [].
  replace (l1 ++ msg :: l2) with ((l1 ++ [msg]) ++ l2) by (by rewrite <- app_assoc).
  apply IH; [apply Forall_app_2; [done|by constructor]|done].
Qed.
End Feeding.

(** ** Continuity counters *)

Definition stream_packets (sid : Z) (tr : list TsCall) : list Z :=
  mjoin ((λ c, match c with
               | OnTsPackets p f _ => if TsPack.Sid f =? sid then p else []
               | OnPatPmt _ => [] end) <$> tr).

(** The packets of one stream, numbered from 1. *)
Definition numbered (pid : Z) (ps : list (list Z)) : Prop := ∀ i p, ps !! i = Some p →
  len p = 188 ∧ ∃ start afc tl, (afc = 1 ∨ afc = 3) ∧ p = TsPack.ts_header start pid afc (1 + Z.of_nat i) ++ tl.

Definition counts (sid pid cc : Z) (tr : list TsCall) : Prop :=
  ∃ ps, stream_packets sid tr = mjoin ps ∧ cc = u8 (len ps) ∧ numbered pid ps.

Lemma stream_packets_snoc sid tr c : stream_packets sid (tr ++ [c]) = stream_packets sid tr ++ stream_packets sid [c].
Proof. unfold stream_packets. by rewrite fmap_app, join_app. Qed.

Lemma counts_other sid pid cc tr p f bd : TsPack.Sid f ≠ sid → counts sid pid cc tr →
  counts sid pid cc (tr ++ [OnTsPackets p f bd]).
Proof.
  intros Hs (ps & E & H). exists ps. split; [|done]. rewrite stream_packets_snoc. unfold stream_packets at 2. cbn.
  rewrite (proj2 (Z.eqb_neq _ _)) by done. by rewrite app_nil_r.
Qed.

Lemma counts_next sid f p f' bd tr : 0 ≤ TsPack.Pid f < 8192 → TsPack.Raw f ≠ [] → TsPack.Sid f = sid →
  TsPack.Pack f = Ret (p, f') → counts sid (TsPack.Pid f) (TsPack.Cc f) tr →
  counts sid (TsPack.Pid f) (TsPack.Cc f') (tr ++ [OnTsPackets p f' bd]).
Proof.
  intros Hp Hr Hs E (ps & E1 & E2 & Hn).
  destruct (TsPack.Pack_continues f Hp Hr) as (qs & _ & Ep & [Hl Hh] & _). rewrite E in Ep. injection Ep as -> ->.
  exists (ps ++ qs). split; [|split].
  - rewrite stream_packets_snoc, E1, join_app. f_equal. unfold stream_packets. cbn. rewrite Hs, Z.eqb_refl. apply app_nil_r.
  - cbn. rewrite E2, length_app. unfold u8. by rewrite Zplus_mod_idemp_l, Nat2Z.inj_add.
  - intros i q Hq. apply lookup_app_Some in Hq as [Hq|[Hi Hq]]; [by apply Hn|].
    split; [by eapply Forall_lookup_1 in Hl|]. destruct (Hh _ _ Hq) as (afc & tl & Ha & ->).
    eexists _, afc, tl. split; [done|]. unfold TsPack.ts_header. do 6 f_equal. rewrite E2. unfold u8.
    rewrite <- Z.add_assoc. Z.div_mod_to_equations. lia.
Qed.

Lemma packed_counts tables a v tr : packed tables a v tr →
  counts TsPack.StreamIdAudio TsPack.PidAudio a tr ∧ counts TsPack.StreamIdVideo TsPack.PidVideo v tr.
Proof.
  induction 1 as [|a v tr f p f' bd _ [IHa IHv] Hc Hp Hs Hr E|a v tr f p f' bd _ [IHa IHv] Hc Hp Hs Hr E].
  - by split; exists [].
  - assert (Hs' : TsPack.Sid f' = TsPack.Sid f) by (destruct (Pack_same f p f') as (cc & ->); [by rewrite Hp|done..]).
    split; [rewrite <- Hp in *; subst a; by apply counts_next; [rewrite Hp|..]|].
    apply counts_other; [by rewrite Hs', Hs|done].
  - assert (Hs' : TsPack.Sid f' = TsPack.Sid f) by (destruct (Pack_same f p f') as (cc & ->); [by rewrite Hp|done..]).
    split; [apply counts_other; [by rewrite Hs', Hs|done]|].
    rewrite <- Hp in *; subst v; by apply counts_next; [rewrite Hp|..].
Qed.

Lemma packed_tables_first tables a v tr : packed tables a v tr →
  ∃ tl, tr = OnPatPmt tables :: tl ∧ Forall (λ c, match c with OnPatPmt _ => False | _ => True end) tl.
Proof.
  induction 1 as [|a v tr f p f' bd _ (tl & -> & H) _ _ _ _ _|a v tr f p f' bd _ (tl & -> & H) _ _ _ _ _];
    [by exists []|..]; eexists; (split; [reflexivity|]); by apply Forall_app_2; [|constructor].
Qed.

(** ** What an access unit holds *)

Definition unit_type (codecId : Z) (nal : list Z) : Z :=
  if codecId =? RtmpCodecIdAvc then Avc.ParseNaluType (nth 0 nal 0) else Hevc.ParseNaluType (nth 0 nal 0).
Definition is_set (codecId : Z) (nal : list Z) : bool :=
  let t := unit_type codecId nal in
  if codecId =? RtmpCodecIdAvc then (t =? Avc.NaluTypeSps) || (t =? Avc.NaluTypePps)
  else (t =? Hevc.NaluTypeVps) || (t =? Hevc.NaluTypeSps) || (t =? Hevc.NaluTypePps).
Definition is_dropped (codecId : Z) (nal : list Z) : bool :=
  let t := unit_type codecId nal in
  if codecId =? RtmpCodecIdAvc then t =? Avc.NaluTypeAud
  else (t =? Hevc.NaluTypeSei) || (t =? Hevc.NaluTypeSeiSuffix) || (t =? Hevc.NaluTypeAud).
Definition aud_unit (codecId : Z) : list Z := if codecId =? RtmpCodecIdAvc then [9; 240] else [70; 1; 16].

(** Key units (IDR, or H.265 IRAP); a run of them ends at a coded slice (AVC) or
    at any other unit (HEVC). *)
Definition is_key (codecId : Z) (nal : list Z) : bool :=
  let t := unit_type codecId nal in
  if codecId =? RtmpCodecIdAvc then t =? 5 else (16 <=? t) && (t <=? 23).
Definition in_run (codecId : Z) (nal : list Z) (before : bool) : bool :=
  is_key codecId nal ||
  (if codecId =? RtmpCodecIdAvc then before && negb (unit_type codecId nal =? 1) else false).

(** The units with the parameter sets in front of each run of key units. *)
Fixpoint with_sets (codecId : Z) (sets : list (list Z)) (sent : bool) (nals : list (list Z)) : list (list Z) :=
  match nals with
  | [] => []
  | nal :: nals =>
      (if is_key codecId nal && negb sent then sets else []) ++
      nal :: with_sets codecId sets (in_run codecId nal sent) nals
  end.
Definition unit_seq (codecId : Z) (sets nals : list (list Z)) : list (list Z) :=
  match List.filter (λ n, negb (is_dropped codecId n)) nals with
  | [] => []
  | kept => aud_unit codecId :: with_sets codecId sets false kept
  end.

Lemma IsIrapNalu_range t : Hevc.IsIrapNalu t = (16 <=? t) && (t <=? 23).
Proof. unfold Hevc.IsIrapNalu. by rewrite Z.geb_leb. Qed.
Lemma is_key_unit_spec codecId nal : is_key_unit codecId (unit_type codecId nal) = is_key codecId nal.
Proof. unfold is_key_unit, is_key. destruct (codecId =? _); [done|]. apply IsIrapNalu_range. Qed.
Lemma sent_after_spec codecId nal sent :
  sent_after codecId (unit_type codecId nal) sent = in_run codecId nal sent.
Proof.
  unfold sent_after, in_run, is_key. destruct (codecId =? _); [|rewrite orb_false_r; apply IsIrapNalu_range].
  change Avc.NaluTypeIdrSlice with 5. change Avc.NaluTypeSlice with 1.
  destruct (_ =? 5); [done|]. cbn. by destruct (_ =? 1), sent.
Qed.

Lemma skip_unit_media codecId nal l : is_set codecId nal = false →
  skip_unit codecId (unit_type codecId nal) nal l = if is_dropped codecId nal then Some (l, None) else None.
Proof.
  unfold is_set, is_dropped, skip_unit. cbv zeta. destruct (codecId =? RtmpCodecIdAvc).
  - intros [-> ->]%orb_false_iff. done.
  - intros [[-> ->]%orb_false_iff ->]%orb_false_iff. by destruct (_ || _), (_ =? _).
Qed.

Lemma send_unit_media codecId ss nal l acc :
  videoOut l = Avc.mixed_join acc → audSent l = negb (bool_decide (acc = [])) →
  ∃ l' new, send_unit (Some (Avc.annexb_join ss)) codecId (unit_type codecId nal) nal l = Some l' ∧
    videoOut l' = Avc.mixed_join (acc ++ new) ∧ audSent l' = true ∧
    spsppsSent l' = sent_after codecId (unit_type codecId nal) (spsppsSent l) ∧ new ≠ [] ∧
    snd <$> new = (if audSent l then [] else [aud_unit codecId]) ++
      (if is_key_unit codecId (unit_type codecId nal) && negb (spsppsSent l) then ss else []) ++ [nal].
Proof.
  intros Ho Ha. unfold send_unit.
  set (aud := if audSent l then [] else [(true, aud_unit codecId)]).
  assert (E1 : (if audSent l then videoOut l else videoOut l ++ (if codecId =? RtmpCodecIdAvc then AvcSeq.AudNalu
    else HevcSeq.AudNalu)) = Avc.mixed_join (acc ++ aud)).
  { rewrite Ho. unfold aud. destruct (audSent l); [by rewrite app_nil_r|]. rewrite Avc.mixed_join_app. f_equal.
    unfold aud_unit. by destruct (_ =? _). }
  assert (Hne : acc ++ aud ≠ []).
  { intros E. apply app_eq_nil in E as [-> E]. unfold aud in E. rewrite Ha in E. done. }
  rewrite E1. set (t := unit_type codecId nal).
  set (sets := if is_key_unit codecId t && negb (spsppsSent l) then pair true <$> ss else []).
  assert (E2 : (if is_key_unit codecId t && negb (spsppsSent l) then b ← Some (Avc.annexb_join ss);
    Some (Avc.mixed_join (acc ++ aud) ++ b) else Some (Avc.mixed_join (acc ++ aud))) =
    Some (Avc.mixed_join ((acc ++ aud) ++ sets))).
  { unfold sets. destruct (_ && _); [|by rewrite app_nil_r]. cbn.
    by rewrite Avc.annexb_join_mixed, (Avc.mixed_join_app (acc ++ aud)). }
  rewrite E2. eexists _, (aud ++ sets ++ [(false, nal)]). split; [reflexivity|]. cbn [videoOut audSent spsppsSent set_out].
  split; [|split; [done|split; [done|split; [by destruct aud, sets|]]]].
  - assert (Hl : len (Avc.mixed_join ((acc ++ aud) ++ sets)) ≠ 0).
    { destruct (acc ++ aud) as [|u tl]; [done|]. cbn [app]. rewrite Avc.mixed_join_cons.
      pose proof (Avc.start_code_length u.1). len_lia. }
    rewrite (proj2 (Z.eqb_neq _ 0)) by done.
    replace (acc ++ aud ++ sets ++ [(false, nal)]) with (((acc ++ aud) ++ sets) ++ [(false, nal)])
      by (by rewrite <- !app_assoc).
    rewrite (Avc.mixed_join_app _ [_]). f_equal. unfold Avc.mixed_join. cbn. by rewrite app_nil_r.
  - rewrite !fmap_app. unfold aud, sets. destruct (audSent l), (_ && _); cbn; try done.
    all: rewrite <- list_fmap_compose; f_equal; rewrite ?list_fmap_id; done.
Qed.

Lemma es_units_media codecId ss : ∀ nals l acc, Forall (λ n, is_set codecId n = false) nals →
  videoOut l = Avc.mixed_join acc → audSent l = negb (bool_decide (acc = [])) →
  let kept := List.filter (λ n, negb (is_dropped codecId n)) nals in
  ∃ l' new, es_units codecId nals l (Some (Avc.annexb_join ss)) = (Some l', Some (Avc.annexb_join ss)) ∧
    videoOut l' = Avc.mixed_join (acc ++ new) ∧
    snd <$> new = match kept with [] => [] | _ => (if audSent l then [] else [aud_unit codecId]) ++
                                                  with_sets codecId ss (spsppsSent l) kept end.
Proof.
  induction nals as [|nal nals IH]; intros l acc Hn Ho Ha; cbn [es_units List.filter].
  { exists l, []. by rewrite app_nil_r. }
  apply Forall_cons in Hn as [Hs Hn]. fold (unit_type codecId nal). rewrite skip_unit_media by done.
  destruct (is_dropped codecId nal); cbn [negb]; [by apply IH|].
  destruct (send_unit_media codecId ss nal l acc Ho Ha) as (l1 & new1 & -> & Ho1 & Ha1 & Hs1 & Hne & En1).
  destruct (IH l1 (acc ++ new1) Hn Ho1) as (l' & new & -> & Ho' & En').
  { rewrite Ha1. symmetry. apply negb_true_iff, bool_decide_eq_false. intros E. by apply app_eq_nil in E as [_ E]. }
  exists l', (new1 ++ new). split; [done|]. split; [by rewrite app_assoc|].
  rewrite fmap_app, En1, En', Ha1, Hs1, is_key_unit_spec, sent_after_spec. cbn [with_sets]. rewrite <- !app_assoc. do 2 f_equal.
  cbn [app]. f_equal. by destruct (List.filter _ nals).
Qed.

Lemma aud_unit_clean codecId : Avc.clean_nal (aud_unit codecId).
Proof.
  unfold aud_unit. split; [by destruct (_ =? _)|]. split; [by destruct (_ =? _)|].
  intros (a & b & E). destruct (_ =? _); (do 4 (destruct a as [|? a]; [by simplify_eq/=|])); by simplify_eq/=.
Qed.

Lemma unit_seq_clean codecId ss nals : Forall Avc.clean_nal ss → Forall Avc.clean_nal nals →
  Forall Avc.clean_nal (unit_seq codecId ss nals).
Proof.
  intros Hss Hn.
  assert (Hw : ∀ l sent, Forall Avc.clean_nal l → Forall Avc.clean_nal (with_sets codecId ss sent l)).
  { induction l as [|n l IH]; intros sent Hl; [done|]. apply Forall_cons in Hl as [H0 Hl]. cbn [with_sets].
    apply Forall_app_2; [by destruct (_ && _)|]. constructor; [done|by apply IH]. }
  unfold unit_seq. set (kept := List.filter _ nals).
  assert (Hk : Forall Avc.clean_nal kept).
  { subst kept. induction Hn as [|n l H _ IH]; [done|]. cbn. by destruct (negb _); [constructor|]. }
  destruct kept as [|n l]; [done|]. constructor; [apply aud_unit_clean|by apply Hw].
Qed.

(** ** Properties *)

(** C11: the remuxer delivers exactly what the messages carry: for every observer
    (which may call [FlushAudio] from its callbacks), feeding well-formed messages
    and disposing ends without a panic; if the probe filter never stopped nothing
    was given, else the audio bytes of the frames given, in order, are the
    concatenation of the ADTS (Opus) packets of the messages, and the video frames
    are one access unit per message with its times, key flag and bytes. *)
Theorem ts_streams {Ob : Type} {OB : TsObserver Ob} {B : Bele} (HB : BeleLaws B) {BI : NazaBits} (HBI : NazaBitsLaws BI)
    TryAnnexb l (o : Ob) :
  Forall (feedable TryAnnexb) l →
  ∃ s tr o', (_ ← feed_all TryAnnexb l; Dispose) (NewRtmp2MpegtsRemuxer, [], o) = ((s, tr, o'), Ret tt) ∧
  let e := foldl (es_step TryAnnexb) es_init l in
  match probe l with
  | None => tr = []
  | Some _ => audio_bytes tr = esAudio e ∧ video_units_of tr = esVideo e
  end.
Proof.
  intros Hl. destruct (feed_all_spec TryAnnexb l [] ltac:(constructor) Hl (NewRtmp2MpegtsRemuxer, [], o))
    as ([[s tr] o1] & [] & E & Hf); [done|]. rewrite (eff_bind_Ret _ _ _ _ _ E). unfold on, fed in Hf.
  cbn [fst snd app] in Hf. unfold Dispose. destruct (probe l) as [first|].
  - destruct Hf as (t & F & _ & _ & Hi).
    destruct (flush_empties t F _ (s, tr, o1) Hi) as ([[s' tr'] o'] & [] & E' & [Hi' Hc]).
    exists s', tr', o'. split; [exact E'|]. cbn in Hi', Hc. destruct Hi' as [_ _ Ha Hv _ _ _].
    by rewrite Hc, app_nil_r in Ha.
  - destruct Hf as [-> ->]. by exists (held l), [], o1.
Qed.

(** C12: whatever well-formed messages were fed (payloads of bytes that are not
    empty, enhanced video headers of at least 8 bytes, sequence headers that can be
    read, [feedable]), the remuxer does not panic and the observer has been given
    nothing, or the PAT and the PMT for the codecs probed, first and once; and then
    the packets of each stream, over all callbacks, are whole, carry its PID, and
    count 1, 2, 3, ... modulo 16. *)
Theorem ts_continuity {Ob : Type} {OB : TsObserver Ob} {B : Bele} (HB : BeleLaws B) {BI : NazaBits} (HBI : NazaBitsLaws BI)
    TryAnnexb l (o : Ob) :
  Forall (feedable TryAnnexb) l →
  ∃ s tr o', feed_all TryAnnexb l (NewRtmp2MpegtsRemuxer, [], o) = ((s, tr, o'), Ret tt) ∧
  match probe l with
  | None => tr = []
  | Some first => ∃ tables tl, tables_of (codecs_of first) = Ret tables ∧ tr = OnPatPmt tables :: tl ∧
      Forall (λ c, match c with OnPatPmt _ => False | _ => True end) tl ∧
      ∀ sid pid, (sid, pid) = (TsPack.StreamIdAudio, TsPack.PidAudio) ∨ (sid, pid) = (TsPack.StreamIdVideo, TsPack.PidVideo) →
      ∃ ps, stream_packets sid tr = mjoin ps ∧ ∀ i p, ps !! i = Some p → len p = 188 ∧
        ∃ start afc, TsPack.ParseTsPacketHeader p =
          TsPack.mkTsHeader TsPack.syncByte 0 start 0 pid 0 afc ((1 + Z.of_nat i) mod 16)
  end.
Proof.
  intros Hl. destruct (feed_all_spec TryAnnexb l [] ltac:(constructor) Hl (NewRtmp2MpegtsRemuxer, [], o))
    as ([[s tr] o1] & [] & E & Hf); [done|]. exists s, tr, o1. split; [exact E|]. unfold on, fed in Hf.
  cbn [fst snd app] in Hf. destruct (probe l) as [first|]; [|apply Hf].
  destruct Hf as (t & F & Et & _ & Hi). pose proof (inv_packed _ _ _ _ _ Hi) as Hp.
  destruct (packed_tables_first _ _ _ _ Hp) as (tl & Etr & Htl). exists t, tl. split; [done|]. split; [done|]. split; [done|].
  assert (Hc : ∀ sid pid cc, 0 ≤ pid < 8192 → counts sid pid cc tr → ∃ ps, stream_packets sid tr = mjoin ps ∧
    ∀ i p, ps !! i = Some p → len p = 188 ∧ ∃ start afc, TsPack.ParseTsPacketHeader p =
      TsPack.mkTsHeader TsPack.syncByte 0 start 0 pid 0 afc ((1 + Z.of_nat i) mod 16)).
  { intros sid pid cc Hpid (ps & Es & _ & Hn). exists ps. split; [done|]. intros i p Hip.
    destruct (Hn i p Hip) as (Hlen & start & afc & tl' & Ha & ->). split; [done|].
    eexists _, afc. by apply TsPack.ParseTsPacketHeader_spec. }
  destruct (packed_counts _ _ _ _ Hp) as [Ha Hv]. intros sid pid [[= -> ->]|[= -> ->]]; by eapply Hc.
Qed.

(** Splitting the access unit of a message without parameter sets gives a
    delimiter and the message's units in order, delimiters and H.265 SEI units
    dropped, with the parameter sets in front of each run of key units. *)
Theorem ts_access_unit codecId ss nals :
  Forall Avc.clean_nal ss →
  Forall Avc.clean_nal nals → Forall (λ n, is_set codecId n = false) nals →
  ∃ l, es_units codecId nals (mkVideoLoop [] false false [] [] []) (Some (Avc.annexb_join ss)) =
         (Some l, Some (Avc.annexb_join ss)) ∧
    (unit_seq codecId ss nals = [] → videoOut l = []) ∧
    (unit_seq codecId ss nals ≠ [] → Avc.SplitNaluAnnexb (Some (videoOut l)) = Some (unit_seq codecId ss nals, None)).
Proof.
  intros Hss Hn Hs.
  destruct (es_units_media codecId ss nals (mkVideoLoop [] false false [] [] []) [] Hs eq_refl eq_refl)
    as (l & new & -> & Ho & En). exists l. split; [done|]. cbn [app] in Ho. rewrite Ho.
  replace (match List.filter _ nals with [] => [] | _ => _ end) with (unit_seq codecId ss nals) in En
    by (unfold unit_seq; by destruct (List.filter _ nals)).
  rewrite <- En. split; [by destruct new|]. intros Hne. apply Avc.SplitNaluAnnexb_mixed; [by destruct new|].
  apply Forall_fmap. rewrite En. by apply unit_seq_clean.
Qed.

(** ** Witnesses *)

(** An observer that flushes the audio when it opens a segment; it counts them. *)
#[local] Instance demo_observer : TsObserver nat := {
  before c n := match c with OnTsPackets _ _ bd => (bd, n) | OnPatPmt _ => (false, n) end;
  after c n := match c with OnTsPackets _ _ true => S n | _ => n end;
}.

Definition demo_msgs : list RtmpMsg :=
  [mkRtmpMsg (mkRtmpHeader 6 4 8 1 0) [175; 0; 18; 16];
   mkRtmpMsg (mkRtmpHeader 6 6 8 1 0) [175; 1; 33; 34; 35; 36];
   mkRtmpMsg (mkRtmpHeader 7 21 9 1 0) [23; 0; 0; 0; 0; 1; 66; 0; 30; 255; 225; 0; 2; 103; 66; 1; 0; 2; 104; 206; 56];
   mkRtmpMsg (mkRtmpHeader 7 12 9 1 40) [23; 1; 0; 0; 80; 0; 0; 0; 3; 101; 136; 7];
   mkRtmpMsg (mkRtmpHeader 6 4 8 1 46) [175; 1; 33; 37]].

#[local] Existing Instances bele_impl bits_impl.

Lemma demo_feedable : Forall (feedable false) demo_msgs.
Proof.
  unfold demo_msgs. repeat apply List.Forall_cons; try apply List.Forall_nil; split; cbn [msgPayload msgHeader MsgTypeId];
    try (cbn; lia); try (intros H; by vm_compute in H);
    try (repeat apply List.Forall_cons; try apply List.Forall_nil; lia).
  all: try (intros _ H; by vm_compute in H).
Qed.

Lemma ts_streams_witness : ∃ s tr o',
  (_ ← feed_all false demo_msgs; Dispose) (NewRtmp2MpegtsRemuxer, [], 0%nat) = ((s, tr, o'), Ret tt) ∧
  audio_bytes tr = [255; 241; 80; 128; 1; 127; 252; 33; 34; 35; 36; 255; 241; 80; 128; 1; 63; 252; 33; 37] ∧
  video_units_of tr = [mkAu 0 80 true [0; 0; 0; 1; 9; 240; 0; 0; 0; 1; 103; 66; 0; 0; 0; 1; 104; 206; 0; 0; 1; 101; 136; 7]].
Proof.
  destruct (ts_streams bele_impl_laws bits_impl_laws false demo_msgs 0%nat demo_feedable) as (s & tr & o' & E & H).
  exists s, tr, o'. split; [exact E|]. exact H.
Defined.

Lemma ts_continuity_witness : ∃ s tr o',
  feed_all false demo_msgs (NewRtmp2MpegtsRemuxer, [], 0%nat) = ((s, tr, o'), Ret tt) ∧
  ∃ tables tl, tr = OnPatPmt tables :: tl.
Proof.
  destruct (ts_continuity bele_impl_laws bits_impl_laws false demo_msgs 0%nat demo_feedable) as (s & tr & o' & E & H).
  exists s, tr, o'. split; [exact E|]. destruct H as (tables & tl & _ & H & _). by exists tables, tl.
Defined.

Lemma ts_access_unit_witness : ∃ l,
  es_units RtmpCodecIdAvc [[6; 5]; [101; 136; 7]; [101; 9]] (mkVideoLoop [] false false [] [] [])
    (Some (Avc.annexb_join [[103; 66]; [104; 206]])) = (Some l, Some (Avc.annexb_join [[103; 66]; [104; 206]])) ∧
  Avc.SplitNaluAnnexb (Some (videoOut l)) =
    Some ([[9; 240]; [6; 5]; [103; 66]; [104; 206]; [101; 136; 7]; [101; 9]], None).
Proof.
  assert (Hc : ∀ n : list Z, n ≠ [] → (length n <= 3)%nat → nth 0 n 0 ≠ 0 → last n ≠ Some 0 → Avc.clean_nal n).
  { intros n H0 H3 Hn Hl. split; [done|]. split; [done|]. intros (a & b & ->). rewrite !length_app in H3.
    destruct a; [by apply Hn|]. cbn in H3. lia. }
  destruct (ts_access_unit RtmpCodecIdAvc [[103; 66]; [104; 206]] [[6; 5]; [101; 136; 7]; [101; 9]])
    as (l & E & _ & H).
  1, 2: repeat apply List.Forall_cons; try apply List.Forall_nil; apply Hc; first [done | cbn; lia].
  1: repeat apply List.Forall_cons; try apply List.Forall_nil; done.
  exists l. split; [exact E|]. by apply H.
Defined.
