(* ===== verification/AvQueue.v ===== *)
(** * The audio/video queue of RTSP input (src/pkg/rtsp/avpacket_queue.go)

    Timestamps of the two media are rebased to zero, kept continuous when the
    source's clock goes back, scaled for fast playback, and the media are
    merged by timestamp through two bounded queues. *)

From S2P Require Import Prelude Naza GoFloat Base.

Definition maxQueueSize : Z := 128.
Definition maxInterval : Z := 90000 * 60.
Definition maxIterations : nat := 50.

(** What is remembered of one medium; [fn] gets pointers to these fields. *)
Record track := mkTrack {
  prevOriginTs : Z;
  prevModTs : Z;
  prevIntervalTs : Z;
  originBaseTs : Z;
  prevRawOriginTs : Z;
}.

Record AvPacketQueue {Q : CircularQueue AvPacket} := mkAvQueue {
  audioQueue : cqueue AvPacket;
  videoQueue : cqueue AvPacket;
  audioBaseTs : Z;
  videoBaseTs : Z;
  audioTrack : track;
  videoTrack : track;
  scale : f64;
}.
Arguments AvPacketQueue : clear implicits.
Arguments AvPacketQueue {Q}.

Definition with_ts (p : AvPacket) (ts : Z) : AvPacket := mkAvPacket (PayloadType p) ts (avPts p) (Payload p).

(** ** Timestamps *)

Definition f64_one : f64 := mkF64 1 1.
Definition f64_eqb (x y : f64) : bool := num x * den y =? num y * den x.

(** [int64(f)]; out of range as on amd64. *)
Definition int64_of_f64 (f : f64) : Z :=
  let v := f64_trunc f in
  if (-9223372036854775808 <=? v) && (v <? 9223372036854775808) then v else -9223372036854775808.

Definition SetScale_value (s : f64) : f64 := if 0 <? num s then s else f64_one.

(** A step back of more than a second starts a new origin and goes on at the
    pace of the previous packets. *)
Definition rotated (scale : f64) (t : track) (ts : Z) : track * Z :=
  let adjustedInterval := int64_of_f64 (f64_div (f64_of_int (prevIntervalTs t)) scale) in
  (mkTrack ts (prevModTs t) (prevIntervalTs t) ts ts, i64 (prevModTs t + adjustedInterval)).

Definition raw_interval (t : track) (ts : Z) : Z :=
  let rawInterval := i64 (ts - prevRawOriginTs t) in
  if (rawInterval >? maxInterval) || (rawInterval <? - maxInterval) then
    let rawInterval := prevIntervalTs t in if rawInterval <=? 0 then 1 else rawInterval
  else rawInterval.

Definition adjusted_interval (scale : f64) (t : track) (rawInterval : Z) : Z :=
  let adjustedInterval :=
    if f64_eqb scale f64_one then rawInterval
    else int64_of_f64 (f64_div (f64_of_int rawInterval) scale) in
  if adjustedInterval <? 0 then
    let adjustedInterval := prevIntervalTs t in if adjustedInterval <=? 0 then 1 else adjustedInterval
  else if (adjustedInterval =? 0) && (rawInterval >? 0) then 1
  else adjustedInterval.

Definition advanced (scale : f64) (t : track) (ts : Z) : track * Z :=
  let adjustedInterval := adjusted_interval scale t (raw_interval t ts) in
  let ts' := i64 (prevModTs t + adjustedInterval) in
  (mkTrack ts' (prevModTs t) adjustedInterval (originBaseTs t) ts, ts').

(** The function [fn]: the track and the timestamp given to the packet. *)
Definition rotate_fn (scale : f64) (t : track) (ts : Z) : track * Z :=
  if prevOriginTs t =? -1 then (mkTrack ts 0 (prevIntervalTs t) ts ts, 0)
  else
    let interval := i64 (ts - prevRawOriginTs t) in
    let '(t, ts) := if interval <? -1000 then rotated scale t ts else advanced scale t ts in
    let ts := if ts <? 0 then 0 else ts in
    (mkTrack (prevOriginTs t) ts (prevIntervalTs t) (originBaseTs t) (prevRawOriginTs t), ts).

(** ** Operations

    An operation returns the queue and the packets it gave to [onAvPacket]. *)

Section Queue.
Context {Q : CircularQueue AvPacket}.

Definition new_track : track := mkTrack (-1) (-1) (-1) (-1) (-1).

Definition NewAvPacketQueue : AvPacketQueue :=
  mkAvQueue _ (cqNew maxQueueSize) (cqNew maxQueueSize) (-1) (-1) new_track new_track f64_one.

Definition SetScale (a : AvPacketQueue) (s : f64) : AvPacketQueue :=
  mkAvQueue _ (audioQueue a) (videoQueue a) (audioBaseTs a) (videoBaseTs a) (audioTrack a) (videoTrack a)
    (SetScale_value s).

Definition set_audioQueue (a : AvPacketQueue) (q : cqueue AvPacket) : AvPacketQueue :=
  mkAvQueue _ q (videoQueue a) (audioBaseTs a) (videoBaseTs a) (audioTrack a) (videoTrack a) (scale a).
Definition set_videoQueue (a : AvPacketQueue) (q : cqueue AvPacket) : AvPacketQueue :=
  mkAvQueue _ (audioQueue a) q (audioBaseTs a) (videoBaseTs a) (audioTrack a) (videoTrack a) (scale a).
Definition set_bases (a : AvPacketQueue) (ab vb : Z) : AvPacketQueue :=
  mkAvQueue _ (audioQueue a) (videoQueue a) ab vb (audioTrack a) (videoTrack a) (scale a).
Definition set_audioTrack (a : AvPacketQueue) (t : track) : AvPacketQueue :=
  mkAvQueue _ (audioQueue a) (videoQueue a) (audioBaseTs a) (videoBaseTs a) t (videoTrack a) (scale a).
Definition set_videoTrack (a : AvPacketQueue) (t : track) : AvPacketQueue :=
  mkAvQueue _ (audioQueue a) (videoQueue a) (audioBaseTs a) (videoBaseTs a) (audioTrack a) t (scale a).

(** [for !queue.Empty()]: [Front], [PopFront], [onAvPacket]. *)
Fixpoint pop_all (fuel : nat) (q : cqueue AvPacket) : cqueue AvPacket * list AvPacket :=
  if cqEmpty q then (q, []) else
  match fuel with
  | O => (q, [])
  | S fuel =>
      match cqFront q with
      | Ret pkt => let '(q, out) := pop_all fuel (cqPopFront q).2 in (q, pkt :: out)
      | _ => (q, [])
      end
  end.
Definition pop_fuel : nat := Z.to_nat maxQueueSize.

Definition popAllAudio (a : AvPacketQueue) : AvPacketQueue * list AvPacket :=
  let '(q, out) := pop_all pop_fuel (audioQueue a) in (set_audioQueue a q, out).
Definition popAllVideo (a : AvPacketQueue) : AvPacketQueue * list AvPacket :=
  let '(q, out) := pop_all pop_fuel (videoQueue a) in (set_videoQueue a q, out).

Definition PopAllByForce (a : AvPacketQueue) : AvPacketQueue * list AvPacket :=
  let a := set_bases a (-1) (-1) in
  if cqEmpty (audioQueue a) && cqEmpty (videoQueue a) then (a, [])
  else if cqEmpty (audioQueue a) && negb (cqEmpty (videoQueue a)) then popAllVideo a
  else if negb (cqEmpty (audioQueue a)) && cqEmpty (videoQueue a) then popAllAudio a
  else popAllVideo a.

Definition adjustTsHandleRotate (a : AvPacketQueue) (pkt : AvPacket) : AvPacketQueue :=
  if IsVideo pkt then
    let '(t, ts) := rotate_fn (scale a) (videoTrack a) (avTimestamp pkt) in
    let a := set_videoTrack a t in
    if cqFull (videoQueue a) then a
    else set_videoQueue a (cqPushBack (with_ts pkt ts) (videoQueue a)).2
  else
    let '(t, ts) := rotate_fn (scale a) (audioTrack a) (avTimestamp pkt) in
    let a := set_audioTrack a t in
    if cqFull (audioQueue a) then a
    else set_audioQueue a (cqPushBack (with_ts pkt ts) (audioQueue a)).2.

Definition adjustTs (a : AvPacketQueue) (pkt : AvPacket) : AvPacketQueue * list AvPacket :=
  let ts := avTimestamp pkt in
  if IsVideo pkt then
    let '(a, out) := if ts <? videoBaseTs a then PopAllByForce a else (a, []) in
    let a := if videoBaseTs a =? -1 then set_bases a (audioBaseTs a) ts else a in
    (set_videoQueue a (cqPushBack (with_ts pkt (i64 (ts - videoBaseTs a))) (videoQueue a)).2, out)
  else
    let '(a, out) := if ts <? audioBaseTs a then PopAllByForce a else (a, []) in
    let a := if audioBaseTs a =? -1 then set_bases a ts (videoBaseTs a) else a in
    (set_audioQueue a (cqPushBack (with_ts pkt (i64 (ts - audioBaseTs a))) (audioQueue a)).2, out).

(** The front of the medium that is behind; video first when they are level. *)
Definition merge_step (a : AvPacketQueue) : option (AvPacketQueue * AvPacket) :=
  match cqFront (audioQueue a), cqFront (videoQueue a) with
  | Ret aapkt, Ret vvpkt =>
      let tsDiff := i64 (avTimestamp aapkt - avTimestamp vvpkt) in
      if tsDiff <? -1 then Some (set_audioQueue a (cqPopFront (audioQueue a)).2, aapkt)
      else Some (set_videoQueue a (cqPopFront (videoQueue a)).2, vvpkt)
  | _, _ => None
  end.

(** [n] turns are left; also says how many remain at the end. *)
Fixpoint merge_loop (n : nat) (a : AvPacketQueue) : nat * AvPacketQueue * list AvPacket :=
  if cqEmpty (audioQueue a) || cqEmpty (videoQueue a) then (n, a, []) else
  match n with
  | O => (O, a, [])
  | S n =>
      match merge_step a with
      | Some (a, pkt) => let '(n, a, out) := merge_loop n a in (n, a, pkt :: out)
      | None => (n, a, [])
      end
  end.

Definition force_video (n : nat) (a : AvPacketQueue) : AvPacketQueue * list AvPacket :=
  if Nat.eqb n 0 && negb (cqEmpty (audioQueue a)) && negb (cqEmpty (videoQueue a)) then
    match cqFront (videoQueue a) with
    | Ret vvpkt => (set_videoQueue a (cqPopFront (videoQueue a)).2, [vvpkt])
    | _ => (a, [])
    end
  else (a, []).

(** A full queue is handed over; the other one is asserted to be empty. *)
Definition flush_full (a : AvPacketQueue) : AvPacketQueue * list AvPacket :=
  if cqFull (videoQueue a) then popAllVideo a
  else if cqFull (audioQueue a) then popAllAudio a
  else (a, []).

(** The queue as [Feed] finds it when it tests for full queues. *)
Definition feed_merged (TimestampFilterHandleRotateFlag : bool) (a : AvPacketQueue) (pkt : AvPacket)
    : AvPacketQueue * list AvPacket :=
  let '(a, out1) := if TimestampFilterHandleRotateFlag then (adjustTsHandleRotate a pkt, []) else adjustTs a pkt in
  let '(n, a, out2) := merge_loop maxIterations a in
  let '(a, out3) := force_video n a in
  (a, out1 ++ out2 ++ out3).

Definition Feed (TimestampFilterHandleRotateFlag : bool) (a : AvPacketQueue) (pkt : AvPacket)
    : AvPacketQueue * list AvPacket :=
  let '(a, out) := feed_merged TimestampFilterHandleRotateFlag a pkt in
  let '(a, out') := flush_full a in
  (a, out ++ out').
End Queue.

(** ** Nothing is lost, duplicated or reordered within a medium *)

Definition audio_of (l : list AvPacket) : list AvPacket := List.filter (λ p, negb (IsVideo p)) l.
Definition video_of (l : list AvPacket) : list AvPacket := List.filter IsVideo l.

Lemma audio_of_app l k : audio_of (l ++ k) = audio_of l ++ audio_of k.
Proof. apply List.filter_app. Qed.
Lemma video_of_app l k : video_of (l ++ k) = video_of l ++ video_of k.
Proof. apply List.filter_app. Qed.

Lemma Forall_audio_of (P : AvPacket → Prop) l : Forall P l → Forall P (audio_of l).
Proof. unfold audio_of. induction 1; cbn; [done|]. destruct (IsVideo _); cbn; auto. Qed.
Lemma Forall_video_of (P : AvPacket → Prop) l : Forall P l → Forall P (video_of l).
Proof. unfold video_of. induction 1; cbn; [done|]. destruct (IsVideo _); cbn; auto. Qed.

Definition all_audio (l : list AvPacket) : Prop := Forall (λ p, IsVideo p = false) l.
Definition all_video (l : list AvPacket) : Prop := Forall (λ p, IsVideo p = true) l.

Lemma of_all_audio l : all_audio l → audio_of l = l ∧ video_of l = [].
Proof. induction 1 as [|p l Hp _ [IH1 IH2]]; [done|].
  unfold audio_of, video_of in *. cbn. by rewrite Hp, IH1, IH2. Qed.
Lemma of_all_video l : all_video l → audio_of l = [] ∧ video_of l = l.
Proof. induction 1 as [|p l Hp _ [IH1 IH2]]; [done|].
  unfold audio_of, video_of in *. cbn. by rewrite Hp, IH1, IH2. Qed.

Lemma audio_video_length l : (length (audio_of l) + length (video_of l) = length l)%nat.
Proof.
  unfold audio_of, video_of. induction l as [|p l IH]; [done|]. cbn. destruct (IsVideo p); cbn; lia.
Qed.

Section Moves.
Context {Q : CircularQueue AvPacket} {HQ : CircularQueueLaws Q}.

(** The content of the two queues. *)
Record holds (a : AvPacketQueue) (av vv : list AvPacket) : Prop := {
  holds_audio : cq_repr (audioQueue a) maxQueueSize av;
  holds_video : cq_repr (videoQueue a) maxQueueSize vv;
  holds_all_audio : all_audio av;
  holds_all_video : all_video vv;
}.

(** An operation that gives away [out] and leaves the rest. *)
Record moves (av vv : list AvPacket) (r : AvPacketQueue * list AvPacket) (av' vv' : list AvPacket) : Prop := {
  moves_holds : holds r.1 av' vv';
  moves_av : av = audio_of r.2 ++ av';
  moves_vv : vv = video_of r.2 ++ vv';
}.

Lemma moves_none a av vv : holds a av vv → moves av vv (a, []) av vv.
Proof. by split. Qed.

Lemma moves_app av vv a1 o1 av1 vv1 a2 o2 av2 vv2 :
  moves av vv (a1, o1) av1 vv1 → moves av1 vv1 (a2, o2) av2 vv2 → moves av vv (a2, o1 ++ o2) av2 vv2.
Proof.
  intros [_ E1 E2] [H E3 E4]. cbn [fst snd] in *. split; [done|..]; cbn [fst snd].
  - by rewrite audio_of_app, <- app_assoc, <- E3.
  - by rewrite video_of_app, <- app_assoc, <- E4.
Qed.

Lemma moves_count av vv r av' vv' :
  moves av vv r av' vv' → (length av + length vv = length r.2 + length av' + length vv')%nat.
Proof.
  intros [_ -> ->]. rewrite !length_app. pose proof (audio_video_length r.2). lia.
Qed.

Lemma holds_empty a av vv :
  holds a av vv → cqEmpty (audioQueue a) = (len av =? 0) ∧ cqEmpty (videoQueue a) = (len vv =? 0).
Proof. intros [Ha Hv _ _]. by rewrite (cq_empty _ _ _ Ha), (cq_empty _ _ _ Hv). Qed.
Lemma holds_full a av vv :
  holds a av vv → cqFull (audioQueue a) = (len av =? 128) ∧ cqFull (videoQueue a) = (len vv =? 128).
Proof. intros [Ha Hv _ _]. by rewrite (cq_full _ _ _ Ha), (cq_full _ _ _ Hv). Qed.

Lemma len0 {A} (l : list A) : (len l =? 0) = true → l = [].
Proof. by destruct l. Qed.

Lemma pop_all_spec l : ∀ fuel q cap,
  cq_repr q cap l → (length l ≤ fuel)%nat → ∃ q', pop_all fuel q = (q', l) ∧ cq_repr q' cap [].
Proof.
  induction l as [|p l IH]; intros fuel q cap Hq Hf.
  - exists q. split; [|done]. destruct fuel; cbn [pop_all]; by rewrite (cq_empty _ _ _ Hq).
  - destruct fuel as [|fuel]; [cbn in Hf; lia|]. cbn [pop_all].
    rewrite (cq_empty _ _ _ Hq), (proj2 (Z.eqb_neq _ _)) by (cbn [length]; lia). rewrite (cq_front _ _ _ _ Hq).
    destruct (IH fuel (cqPopFront q).2 cap) as (q' & E & H'); [apply (cq_pop _ _ _ _ Hq)|cbn in Hf; lia|].
    exists q'. by rewrite E.
Qed.

Lemma popAllVideo_moves a av vv :
  holds a av vv → len vv ≤ 128 → moves av vv (popAllVideo a) av [].
Proof.
  intros [Ha Hv Haa Hvv] Hl. unfold popAllVideo.
  destruct (pop_all_spec vv pop_fuel _ _ Hv) as (q' & -> & Hq); [unfold pop_fuel, maxQueueSize; lia|].
  destruct (of_all_video _ Hvv) as [E1 E2]. split; cbn [fst snd].
  - split; [exact Ha|exact Hq|done|constructor].
  - by rewrite E1.
  - by rewrite E2, app_nil_r.
Qed.
Lemma popAllAudio_moves a av vv :
  holds a av vv → len av ≤ 128 → moves av vv (popAllAudio a) [] vv.
Proof.
  intros [Ha Hv Haa Hvv] Hl. unfold popAllAudio.
  destruct (pop_all_spec av pop_fuel _ _ Ha) as (q' & -> & Hq); [unfold pop_fuel, maxQueueSize; lia|].
  destruct (of_all_audio _ Haa) as [E1 E2]. split; cbn [fst snd].
  - split; [exact Hq|exact Hv|constructor|done].
  - by rewrite E1, app_nil_r.
  - by rewrite E2.
Qed.

Lemma pop_video_moves a av v vv :
  holds a av (v :: vv) → moves av (v :: vv) (set_videoQueue a (cqPopFront (videoQueue a)).2, [v]) av vv.
Proof.
  intros [Ha Hv Haa Hvv]. inversion Hvv as [|? ? Hp Hvv']; subst. split; cbn [fst snd].
  - split; [exact Ha|apply (cq_pop _ _ _ _ Hv)|done|done].
  - cbn. by rewrite Hp.
  - cbn. by rewrite Hp.
Qed.
Lemma pop_audio_moves a x av vv :
  holds a (x :: av) vv → moves (x :: av) vv (set_audioQueue a (cqPopFront (audioQueue a)).2, [x]) av vv.
Proof.
  intros [Ha Hv Haa Hvv]. inversion Haa as [|? ? Hp Haa']; subst. split; cbn [fst snd].
  - split; [apply (cq_pop _ _ _ _ Ha)|exact Hv|done|done].
  - cbn. by rewrite Hp.
  - cbn. by rewrite Hp.
Qed.

Lemma merge_step_moves a x av v vv :
  holds a (x :: av) (v :: vv) →
  ∃ a' p av' vv', merge_step a = Some (a', p) ∧ moves (x :: av) (v :: vv) (a', [p]) av' vv'.
Proof.
  intros H. unfold merge_step.
  rewrite (cq_front _ _ _ _ (holds_audio _ _ _ H)), (cq_front _ _ _ _ (holds_video _ _ _ H)).
  destruct (_ <? -1).
  - do 4 eexists. split; [done|]. by apply pop_audio_moves.
  - do 4 eexists. split; [done|]. by apply pop_video_moves.
Qed.

Lemma merge_loop_moves n : ∀ a av vv,
  holds a av vv →
  ∃ n' a' out av' vv', merge_loop n a = (n', a', out) ∧ moves av vv (a', out) av' vv' ∧
    (n' + length out = n)%nat ∧ (av' = [] ∨ vv' = [] ∨ n' = 0%nat).
Proof.
  induction n as [|n IH]; intros a av vv H; destruct (holds_empty _ _ _ H) as [Ea Ev]; cbn [merge_loop];
    rewrite Ea, Ev.
  - exists 0%nat, a, [], av, vv. split; [by destruct (_ || _)|]. split; [by apply moves_none|]. auto.
  - destruct av as [|x av], vv as [|v vv]; cbn [length orb];
      try (by do 5 eexists; split; [done|]; split; [by apply moves_none|]; cbn [length]; split; [lia|auto]).
    rewrite !(proj2 (Z.eqb_neq _ _)) by lia. cbn [orb].
    destruct (merge_step_moves _ _ _ _ _ H) as (a1 & p & av1 & vv1 & -> & H1).
    destruct (IH a1 av1 vv1 (moves_holds _ _ _ _ _ H1)) as (n' & a' & out & av' & vv' & -> & H2 & Hn & Hd).
    exists n', a', (p :: out), av', vv'. split; [done|]. split; [|cbn [length]; split; [lia|done]].
    exact (moves_app _ _ _ _ _ _ _ _ _ _ H1 H2).
Qed.

(** Between calls one medium is waiting, below capacity, or both queues are short. *)
Definition calm (av vv : list AvPacket) : Prop :=
  len av < 128 ∧ len vv < 128 ∧ (av = [] ∨ vv = [] ∨ len av + len vv ≤ 77).

Record inv (a : AvPacketQueue) (av vv : list AvPacket) : Prop := {
  inv_holds : holds a av vv;
  inv_calm : calm av vv;
}.

(** A packet goes to the end of its queue with a new timestamp. *)
Definition pushed (p : AvPacket) (ts : Z) (av vv av' vv' : list AvPacket) : Prop :=
  if IsVideo p then av' = av ∧ vv' = vv ++ [with_ts p ts] else av' = av ++ [with_ts p ts] ∧ vv' = vv.

Lemma push_holds a p ts av vv :
  holds a av vv → len av < 128 → len vv < 128 →
  if IsVideo p then holds (set_videoQueue a (cqPushBack (with_ts p ts) (videoQueue a)).2) av (vv ++ [with_ts p ts])
  else holds (set_audioQueue a (cqPushBack (with_ts p ts) (audioQueue a)).2) (av ++ [with_ts p ts]) vv.
Proof.
  intros [Ha Hv Haa Hvv] La Lv. destruct (IsVideo p) eqn:Ep; split; try done.
  - cbn [videoQueue set_videoQueue]. by apply (cq_push _ _ _ _ Hv).
  - apply Forall_app. split; [done|]. apply Forall_singleton. exact Ep.
  - cbn [audioQueue set_audioQueue]. by apply (cq_push _ _ _ _ Ha).
  - apply Forall_app. split; [done|]. apply Forall_singleton. exact Ep.
Qed.

(** The timestamp a packet gets from the rotation filter. *)
Definition track_of (a : AvPacketQueue) (p : AvPacket) : track :=
  if IsVideo p then videoTrack a else audioTrack a.
Definition feed_ts (a : AvPacketQueue) (p : AvPacket) : Z := (rotate_fn (scale a) (track_of a p) (avTimestamp p)).2.

Lemma adjustTsHandleRotate_spec a p av vv :
  holds a av vv → len av < 128 → len vv < 128 →
  ∃ av' vv', holds (adjustTsHandleRotate a p) av' vv' ∧ pushed p (feed_ts a p) av vv av' vv'.
Proof.
  intros H La Lv. destruct (holds_full _ _ _ H) as [Fa Fv]. unfold adjustTsHandleRotate, pushed, feed_ts, track_of.
  pose proof (push_holds a p) as Hp. destruct (IsVideo p).
  - destruct (rotate_fn _ _ _) as [t ts]. cbn [videoQueue set_videoTrack].
    rewrite Fv, (proj2 (Z.eqb_neq _ _)) by lia. do 2 eexists. split; [|done].
    destruct (Hp ts av vv H La Lv). by split.
  - destruct (rotate_fn _ _ _) as [t ts]. cbn [audioQueue set_audioTrack].
    rewrite Fa, (proj2 (Z.eqb_neq _ _)) by lia. do 2 eexists. split; [|done].
    destruct (Hp ts av vv H La Lv). by split.
Qed.

Lemma PopAllByForce_moves a av vv :
  holds a av vv → len av ≤ 128 → len vv ≤ 128 →
  ∃ av' vv', moves av vv (PopAllByForce a) av' vv' ∧ len av' ≤ len av ∧ len vv' ≤ len vv ∧ (av' = [] ∨ vv' = []).
Proof.
  intros H La Lv. unfold PopAllByForce. set (a' := set_bases a (-1) (-1)).
  assert (H' : holds a' av vv) by (destruct H; by split).
  destruct (holds_empty _ _ _ H') as [-> ->].
  destruct av as [|x av], vv as [|v vv]; cbn [length];
    rewrite ?(proj2 (Z.eqb_neq (Z.of_nat (S _)) 0)) by lia; cbn [Z.of_nat Z.eqb andb negb].
  - do 2 eexists. split; [by apply moves_none|]. cbn; auto with lia.
  - do 2 eexists. split; [by apply popAllVideo_moves|]. cbn [length]. auto with lia.
  - do 2 eexists. split; [by apply popAllAudio_moves|]. cbn [length]. auto with lia.
  - do 2 eexists. split; [by apply popAllVideo_moves|]. cbn [length]. auto with lia.
Qed.

Lemma adjustTs_spec a p av vv :
  holds a av vv → len av < 128 → len vv < 128 → 
  ∃ ts a' out av1 vv1 av' vv', adjustTs a p = (a', out) ∧ holds a' av' vv' ∧
    av = audio_of out ++ av1 ∧ vv = video_of out ++ vv1 ∧ pushed p ts av1 vv1 av' vv' ∧
    (out = [] ∨ av1 = [] ∨ vv1 = []).
Proof.
  intros H La Lv. unfold adjustTs, pushed.
  assert (Hr : ∀ b : bool, ∃ a1 out av1 vv1, (if b then PopAllByForce a else (a, [])) = (a1, out) ∧
    moves av vv (a1, out) av1 vv1 ∧ len av1 < 128 ∧ len vv1 < 128 ∧ (out = [] ∨ av1 = [] ∨ vv1 = [])).
  { intros []; [|do 4 eexists; split; [done|split; [by apply moves_none|auto]]].
    destruct (PopAllByForce_moves a av vv H) as (av1 & vv1 & M & ? & ? & ?); [lia..|].
    destruct (PopAllByForce a) as [a1 out]. do 4 eexists. split; [done|]. split; [exact M|]. auto with lia. }
  destruct (IsVideo p) eqn:Ep.
  - destruct (Hr (avTimestamp p <? videoBaseTs a)) as (a1 & out & av1 & vv1 & -> & [H1 E1 E2] & L1 & L2 & D).
    set (a2 := if videoBaseTs a1 =? -1 then _ else _).
    assert (H2 : holds a2 av1 vv1) by (unfold a2; destruct (_ =? _), H1; by split).
    pose proof (push_holds a2 p (i64 (avTimestamp p - videoBaseTs a2)) _ _ H2 L1 L2) as H3. rewrite Ep in H3.
    by do 7 eexists.
  - destruct (Hr (avTimestamp p <? audioBaseTs a)) as (a1 & out & av1 & vv1 & -> & [H1 E1 E2] & L1 & L2 & D).
    set (a2 := if audioBaseTs a1 =? -1 then _ else _).
    assert (H2 : holds a2 av1 vv1) by (unfold a2; destruct (_ =? _), H1; by split).
    pose proof (push_holds a2 p (i64 (avTimestamp p - audioBaseTs a2)) _ _ H2 L1 L2) as H3. rewrite Ep in H3.
    by do 7 eexists.
Qed.

Lemma force_video_moves n a av vv :
  holds a av vv → (av = [] ∨ vv = [] ∨ n = 0%nat) →
  ∃ av' vv', moves av vv (force_video n a) av' vv' ∧
    (av' = av ∧ vv' = vv ∧ (av = [] ∨ vv = []) ∨ n = 0%nat ∧ length (force_video n a).2 = 1%nat).
Proof.
  intros H Hd. unfold force_video. destruct (holds_empty _ _ _ H) as [-> ->].
  destruct (Nat.eqb_spec n 0) as [En|En]; cbn [andb];
    [|exists av, vv; split; [by apply moves_none|]; left; intuition lia].
  destruct av as [|x av], vv as [|v vv]; cbn [length];
    rewrite ?(proj2 (Z.eqb_neq (Z.of_nat (S _)) 0)) by lia; cbn [Z.of_nat Z.eqb andb negb];
    try (eexists _, _; split; [by apply moves_none|]; by auto).
  rewrite (cq_front _ _ _ _ (holds_video _ _ _ H)).
  eexists _, _. split; [by apply pop_video_moves|]. auto.
Qed.

(** What a fed packet adds to the stream of each medium. *)
Definition add_audio (p : AvPacket) (ts : Z) : list AvPacket := if IsVideo p then [] else [with_ts p ts].
Definition add_video (p : AvPacket) (ts : Z) : list AvPacket := if IsVideo p then [with_ts p ts] else [].

Lemma pushed_add p ts av vv av' vv' :
  pushed p ts av vv av' vv' → av' = av ++ add_audio p ts ∧ vv' = vv ++ add_video p ts.
Proof.
  unfold pushed, add_audio, add_video. destruct (IsVideo p); intros [-> ->]; by rewrite app_nil_r.
Qed.

Lemma pushed_length p ts av vv av' vv' :
  pushed p ts av vv av' vv' → (length av' + length vv' = S (length av + length vv))%nat.
Proof. unfold pushed. destruct (IsVideo p); intros [-> ->]; rewrite length_app; cbn; lia. Qed.

Lemma adjust_spec flag a p av vv :
  inv a av vv →
  ∃ ts a' out av1 vv1 av2 vv2,
    (if flag : bool then (adjustTsHandleRotate a p, []) else adjustTs a p) = (a', out) ∧ holds a' av2 vv2 ∧
    av = audio_of out ++ av1 ∧ vv = video_of out ++ vv1 ∧ calm av1 vv1 ∧ pushed p ts av1 vv1 av2 vv2 ∧
    (flag = true → ts = feed_ts a p).
Proof.
  intros [H C]. pose proof C as (La & Lv & Cd). destruct flag.
  - destruct (adjustTsHandleRotate_spec a p av vv H La Lv) as (av' & vv' & H' & Hp). by do 7 eexists.
  - destruct (adjustTs_spec a p av vv H La Lv) as (ts & a' & out & av1 & vv1 & av' & vv' & E & H' & Ea & Ev & Hp & D).
    do 7 eexists. split; [exact E|]. split; [exact H'|]. split; [exact Ea|]. split; [exact Ev|]. split; [|by split].
    rewrite Ea, length_app in La. rewrite Ev, length_app in Lv. split; [lia|]. split; [lia|].
    destruct D as [-> |D]; [|tauto]. cbn in Ea, Ev. by subst.
Qed.

Lemma merged_lengths (av1 vv1 av2 vv2 av3 vv3 av4 vv4 out2 out3 : list AvPacket) p ts (n : nat) :
  calm av1 vv1 → pushed p ts av1 vv1 av2 vv2 →
  (length av2 + length vv2 = length out2 + length av3 + length vv3)%nat → (n + length out2 = 50)%nat →
  (length av3 + length vv3 = length out3 + length av4 + length vv4)%nat →
  (av4 = av3 ∧ vv4 = vv3 ∧ (av3 = [] ∨ vv3 = []) ∨ n = 0%nat ∧ length out3 = 1%nat) →
  len av4 ≤ 128 ∧ len vv4 ≤ 128 ∧ (av4 = [] ∨ vv4 = [] ∨ len av4 + len vv4 ≤ 77).
Proof.
  intros (La & Lv & Cd) Hp C2 Hn C3 D. pose proof (pushed_length _ _ _ _ _ _ Hp) as C1.
  assert (length av1 + length vv1 ≤ 127)%nat by (destruct Cd as [-> |[-> |]]; cbn in *; lia).
  destruct D as [(-> & -> & [-> | ->])|[-> D]]; cbn [length] in *; split; try lia; split; try lia; auto.
Qed.

Lemma feed_merged_spec flag a p av vv :
  inv a av vv →
  ∃ ts a' out av' vv', feed_merged flag a p = (a', out) ∧ holds a' av' vv' ∧
    audio_of out ++ av' = av ++ add_audio p ts ∧ video_of out ++ vv' = vv ++ add_video p ts ∧
    len av' ≤ 128 ∧ len vv' ≤ 128 ∧ (av' = [] ∨ vv' = [] ∨ len av' + len vv' ≤ 77) ∧
    (flag = true → ts = feed_ts a p).
Proof.
  intros Hi. unfold feed_merged.
  destruct (adjust_spec flag a p av vv Hi) as (ts & a1 & o1 & av1 & vv1 & av2 & vv2 & -> & H1 & Ea & Ev & C & Hp & Hts).
  destruct (merge_loop_moves maxIterations a1 av2 vv2 H1) as (n & a2 & o2 & av3 & vv3 & -> & M2 & Hn & Hd).
  destruct (force_video_moves n a2 av3 vv3 (moves_holds _ _ _ _ _ M2) Hd) as (av4 & vv4 & M3 & D).
  destruct (force_video n a2) as [a3 o3] eqn:Ef.
  exists ts, a3, (o1 ++ o2 ++ o3), av4, vv4. split; [done|]. split; [apply M3|].
  destruct (moves_app _ _ _ _ _ _ _ _ _ _ M2 M3) as [_ Ma Mv]. cbn [snd] in Ma, Mv.
  destruct (pushed_add _ _ _ _ _ _ Hp) as [Pa Pv].
  split; [|split].
  - rewrite audio_of_app, <- app_assoc, <- Ma, Pa, Ea, app_assoc. done.
  - rewrite video_of_app, <- app_assoc, <- Mv, Pv, Ev, app_assoc. done.
  - destruct (merged_lengths _ _ _ _ _ _ _ _ o2 o3 p ts n C Hp (moves_count _ _ _ _ _ M2) Hn
      (moves_count _ _ _ _ _ M3) D) as (? & ? & ?). auto.
Qed.

Lemma flush_full_moves a av vv :
  holds a av vv → len av ≤ 128 → len vv ≤ 128 → (av = [] ∨ vv = [] ∨ len av + len vv ≤ 77) →
  ∃ av' vv', moves av vv (flush_full a) av' vv' ∧ calm av' vv'.
Proof.
  intros H La Lv D. unfold flush_full, calm. destruct (holds_full _ _ _ H) as [-> ->].
  destruct (Z.eqb_spec (len vv) 128).
  - eexists _, _. split; [by apply popAllVideo_moves|]. cbn [length]. split; [|auto with lia].
    destruct D as [-> |[-> |]]; cbn [length] in *; lia.
  - destruct (Z.eqb_spec (len av) 128).
    + eexists _, _. split; [by apply popAllAudio_moves|]. cbn [length]. auto with lia.
    + eexists _, _. split; [by apply moves_none|]. auto with lia.
Qed.

Lemma Feed_spec flag a p av vv :
  inv a av vv →
  ∃ ts a' out av' vv', Feed flag a p = (a', out) ∧ inv a' av' vv' ∧
    audio_of out ++ av' = av ++ add_audio p ts ∧ video_of out ++ vv' = vv ++ add_video p ts ∧
    (flag = true → ts = feed_ts a p).
Proof.
  intros Hi. unfold Feed.
  destruct (feed_merged_spec flag a p av vv Hi) as (ts & a1 & o1 & av1 & vv1 & -> & H1 & Ea & Ev & La & Lv & D & Hts).
  destruct (flush_full_moves a1 av1 vv1 H1 La Lv D) as (av2 & vv2 & [H2 Ma Mv] & C).
  destruct (flush_full a1) as [a2 o2]. cbn [fst snd] in *.
  exists ts, a2, (o1 ++ o2), av2, vv2. split; [done|]. split; [by split|].
  rewrite audio_of_app, video_of_app, <- !app_assoc, <- Ma, <- Mv. auto.
Qed.

(** ** Histories *)

Inductive avq_op :=
  | OpFeed (pkt : AvPacket)
  | OpSetScale (s : f64)
  | OpPopAllByForce.

Definition avq_step (flag : bool) (a : AvPacketQueue) (op : avq_op) : AvPacketQueue * list AvPacket :=
  match op with
  | OpFeed pkt => Feed flag a pkt
  | OpSetScale s => (SetScale a s, [])
  | OpPopAllByForce => PopAllByForce a
  end.

Fixpoint avq_run (flag : bool) (a : AvPacketQueue) (ops : list avq_op) : AvPacketQueue * list AvPacket :=
  match ops with
  | [] => (a, [])
  | op :: ops =>
      let '(a, out1) := avq_step flag a op in
      let '(a, out2) := avq_run flag a ops in
      (a, out1 ++ out2)
  end.

Definition fed (ops : list avq_op) : list AvPacket :=
  mjoin ((λ op, match op with OpFeed p => [p] | _ => [] end) <$> ops).

(** A packet but for its timestamp, which the queue replaces. *)
Definition unstamp (p : AvPacket) : AvPacket := with_ts p 0.

Lemma fed_cons op ops : fed (op :: ops) = (match op with OpFeed p => [p] | _ => [] end) ++ fed ops.
Proof. done. Qed.

Lemma unstamp_add p ts :
  unstamp <$> add_audio p ts = unstamp <$> audio_of [p] ∧ unstamp <$> add_video p ts = unstamp <$> video_of [p].
Proof. unfold add_audio, add_video, audio_of, video_of. cbn. by destruct (IsVideo p). Qed.

Lemma avq_step_spec flag a op av vv :
  inv a av vv →
  ∃ a' out av' vv', avq_step flag a op = (a', out) ∧ inv a' av' vv' ∧
    unstamp <$> (audio_of out ++ av') = unstamp <$> (av ++ audio_of (fed [op])) ∧
    unstamp <$> (video_of out ++ vv') = unstamp <$> (vv ++ video_of (fed [op])).
Proof.
  intros Hi. destruct op as [p|s|]; cbn [avq_step]; unfold fed.
  - destruct (Feed_spec flag a p av vv Hi) as (ts & a' & out & av' & vv' & -> & Hi' & Ea & Ev & _).
    exists a', out, av', vv'. split; [done|]. split; [exact Hi'|]. destruct (unstamp_add p ts) as [E1 E2].
    rewrite Ea, Ev. by rewrite !fmap_app, E1, E2.
  - exists (SetScale a s), [], av, vv. split; [done|]. split.
    + destruct Hi as [[H1 H2 H3 H4] C]. by split; [split|].
    + cbn. by rewrite !app_nil_r.
  - destruct Hi as [H (La & Lv & D)].
    destruct (PopAllByForce_moves a av vv H ltac:(lia) ltac:(lia)) as (av' & vv' & [H' Ea Ev] & La' & Lv' & D').
    destruct (PopAllByForce a) as [a' out]. cbn [fst snd] in *.
    exists a', out, av', vv'. split; [done|]. split; [split; [done|]|].
    + split; [lia|]. split; [lia|]. tauto.
    + cbn. by rewrite !app_nil_r, <- Ea, <- Ev.
Qed.

Lemma inv_new : inv NewAvPacketQueue [] [].
Proof.
  split; [split; try constructor; by apply cq_new|]. split; [cbn; lia|]. split; [cbn; lia|auto].
Qed.

Lemma avq_run_spec flag ops : ∀ a av vv,
  inv a av vv →
  ∃ a' out av' vv', avq_run flag a ops = (a', out) ∧ inv a' av' vv' ∧
    unstamp <$> (audio_of out ++ av') = unstamp <$> (av ++ audio_of (fed ops)) ∧
    unstamp <$> (video_of out ++ vv') = unstamp <$> (vv ++ video_of (fed ops)).
Proof.
  induction ops as [|op ops IH]; intros a av vv Hi.
  - exists a, [], av, vv. cbn. by rewrite !app_nil_r.
  - cbn [avq_run].
    destruct (avq_step_spec flag a op av vv Hi) as (a1 & o1 & av1 & vv1 & -> & H1 & Ea1 & Ev1).
    destruct (IH a1 av1 vv1 H1) as (a2 & o2 & av2 & vv2 & -> & H2 & Ea2 & Ev2).
    exists a2, (o1 ++ o2), av2, vv2. split; [done|]. split; [exact H2|].
    replace (fed (op :: ops)) with (fed [op] ++ fed ops) by (rewrite !fed_cons; cbn; by rewrite app_nil_r).
    rewrite audio_of_app, video_of_app, <- !app_assoc in *. rewrite !audio_of_app, !video_of_app.
    rewrite !fmap_app in *. rewrite Ea2, Ev2, !app_assoc, Ea1, Ev1. by rewrite <- ?app_assoc.
Qed.

(** C16: After any sequence of packets fed, scale changes and forced pops, whatever
    the timestamps and with either timestamp filter, what was handed over of each
    medium followed by what still waits is exactly what was fed of it, in order:
    no packet is lost, duplicated or reordered, the queues stay below their
    capacity between calls, and whenever a queue is full the other one is empty,
    as the code asserts. *)
Theorem avq_conserves flag ops :
  ∃ a out av vv, avq_run flag NewAvPacketQueue ops = (a, out) ∧ holds a av vv ∧
    len av < 128 ∧ len vv < 128 ∧
    (unstamp <$> audio_of out) ++ (unstamp <$> av) = unstamp <$> audio_of (fed ops) ∧
    (unstamp <$> video_of out) ++ (unstamp <$> vv) = unstamp <$> video_of (fed ops) ∧
    ∀ pkt, let a' := (feed_merged flag a pkt).1 in
      (cqFull (videoQueue a') = true → cqEmpty (audioQueue a') = true) ∧
      (cqFull (audioQueue a') = true → cqEmpty (videoQueue a') = true).
Proof.
  destruct (avq_run_spec flag ops _ _ _ inv_new) as (a & out & av & vv & E & Hi & Ea & Ev).
  exists a, out, av, vv. split; [exact E|]. split; [apply Hi|]. destruct (inv_calm _ _ _ Hi) as (La & Lv & _).
  split; [done|]. split; [done|]. rewrite <- !fmap_app. split; [exact Ea|]. split; [exact Ev|].
  intros pkt. destruct (feed_merged_spec flag a pkt av vv Hi) as (ts & a' & o & av' & vv' & -> & H' & _ & _ & ? & ? & D & _).
  cbn [fst]. destruct (holds_full _ _ _ H') as [-> ->], (holds_empty _ _ _ H') as [-> ->].
  rewrite !Z.eqb_eq. destruct D as [-> |[-> |]]; cbn [length]; lia.
Qed.
End Moves.

(** ** The clock of one medium *)

(** What the track of a medium may be after [n] packets. *)
Definition track_ok (n : Z) (t : track) : Prop :=
  prevOriginTs t = -1 ∧ prevIntervalTs t = -1 ∨
  0 ≤ prevOriginTs t ∧ 0 ≤ prevRawOriginTs t < 2 ^ 62 ∧ 0 ≤ prevModTs t ≤ n * maxInterval ∧
  (prevIntervalTs t = -1 ∧ prevModTs t = 0 ∨ 0 ≤ prevIntervalTs t ≤ maxInterval).

Lemma int64_small v f : f64_trunc f = v → -9223372036854775808 ≤ v < 9223372036854775808 → int64_of_f64 f = v.
Proof.
  intros <- H. unfold int64_of_f64. rewrite (proj2 (Z.leb_le _ _)), (proj2 (Z.ltb_lt _ _)) by lia. done.
Qed.

Lemma scaled_shrinks s x :
  Z.abs x < 2 ^ 53 → 0 < den s ≤ num s →
  (0 ≤ x → 0 ≤ int64_of_f64 (f64_div (f64_of_int x) s) ≤ x) ∧
  (x ≤ 0 → x ≤ int64_of_f64 (f64_div (f64_of_int x) s) ≤ 0).
Proof.
  intros Hx Hs. destruct (f64_div_shrinks _ s x (f64_of_int_signed x Hx) Hx Hs) as [H1 H2].
  split; intros H0; rewrite (int64_small _ _ eq_refl); lia.
Qed.

Lemma raw_interval_range t ts n :
  track_ok n t → 0 ≤ prevOriginTs t → 0 ≤ ts < 2 ^ 62 → -1000 ≤ i64 (ts - prevRawOriginTs t) →
  -1000 ≤ raw_interval t ts ≤ maxInterval.
Proof.
  intros [[? _]|(_ & Hr & _ & Hi)] H0 Ht Hb; [lia|]. unfold raw_interval. set (r := i64 _) in *.
  unfold maxInterval in *. destruct (Z.gtb_spec r (90000 * 60)), (Z.ltb_spec r (- (90000 * 60))); cbn [orb];
    try lia; destruct (Z.leb_spec (prevIntervalTs t) 0); lia.
Qed.

Lemma adjusted_interval_range s t raw :
  0 < den s ≤ num s → -1 ≤ prevIntervalTs t ≤ maxInterval → -1000 ≤ raw ≤ maxInterval →
  0 ≤ adjusted_interval s t raw ≤ maxInterval.
Proof.
  intros Hs Hp Hr. unfold adjusted_interval, maxInterval in *.
  destruct (scaled_shrinks s raw ltac:(lia) Hs) as [H1 H2].
  set (v := if f64_eqb s f64_one then raw else _).
  assert (Hv : v ≤ 90000 * 60) by (unfold v; destruct (f64_eqb _ _); lia).
  destruct (Z.ltb_spec v 0); [destruct (Z.leb_spec (prevIntervalTs t) 0); lia|].
  destruct ((v =? 0) && (raw >? 0)); lia.
Qed.

Lemma rotate_fn_spec s t ts n :
  0 < den s ≤ num s → 0 ≤ ts < 2 ^ 62 → 0 ≤ n < 2 ^ 32 → track_ok n t →
  let r := rotate_fn s t ts in
  track_ok (n + 1) r.1 ∧ 0 ≤ prevOriginTs r.1 ∧ prevModTs r.1 = r.2 ∧
  (if prevOriginTs t =? -1 then r.2 = 0 else prevModTs t ≤ r.2 ≤ prevModTs t + maxInterval).
Proof.
  intros Hs Ht Hn Hok. unfold rotate_fn. destruct (Z.eqb_spec (prevOriginTs t) (-1)) as [E|E].
  { cbn. split; [|lia]. destruct Hok as [[_ Hi]|]; [|lia]. right. cbn. unfold maxInterval. lia. }
  pose proof Hok as [[? _]|(Ho & Hr & Hm & Hi)]; [lia|].
  destruct (Z.ltb_spec (i64 (ts - prevRawOriginTs t)) (-1000)) as [Hb|Hb].
  - unfold rotated. destruct (scaled_shrinks s (prevIntervalTs t)) as [S1 S2]; [unfold maxInterval in *; lia|done|].
    set (d := int64_of_f64 _) in *. clearbody d.
    assert (Hd : i64 (prevModTs t + d) = prevModTs t + d) by (unfold maxInterval in *; wrap).
    rewrite Hd. cbv zeta. cbn [fst snd prevOriginTs prevModTs prevIntervalTs prevRawOriginTs originBaseTs].
    unfold track_ok, maxInterval in *. cbn [prevOriginTs prevModTs prevIntervalTs prevRawOriginTs].
    destruct (Z.ltb_spec (prevModTs t + d) 0); lia.
  - unfold advanced. pose proof (raw_interval_range t ts n Hok Ho Ht Hb) as Hraw.
    pose proof (adjusted_interval_range s t _ Hs ltac:(unfold maxInterval in *; lia) Hraw) as Hd.
    set (d := adjusted_interval _ _ _) in *. clearbody d.
    assert (He : i64 (prevModTs t + d) = prevModTs t + d) by (unfold maxInterval in *; wrap).
    rewrite He. cbv zeta. cbn [fst snd prevOriginTs prevModTs prevIntervalTs prevRawOriginTs originBaseTs].
    rewrite (proj2 (Z.ltb_ge _ _)) by lia.
    unfold track_ok, maxInterval in *. cbn [prevOriginTs prevModTs prevIntervalTs prevRawOriginTs]. lia.
Qed.

(** The timestamps given to a medium's packets. *)
Fixpoint clock (s : f64) (t : track) (tss : list Z) : list Z :=
  match tss with
  | [] => []
  | ts :: tss => let r := rotate_fn s t ts in r.2 :: clock s r.1 tss
  end.

Lemma clock_nil s t : clock s t [] = [].
Proof. done. Qed.
Lemma clock_cons s t ts tss :
  clock s t (ts :: tss) = (rotate_fn s t ts).2 :: clock s (rotate_fn s t ts).1 tss.
Proof. done. Qed.

Lemma clock_length s tss : ∀ t, length (clock s t tss) = length tss.
Proof. induction tss as [|ts tss IH]; intros t; [done|]. rewrite clock_cons. cbn [length]. by rewrite IH. Qed.

(** Each timestamp is at least the one before it, and at most a minute (at 90 kHz) later. *)
Fixpoint paced (prev : Z) (l : list Z) : Prop :=
  match l with [] => True | x :: l => prev ≤ x ≤ prev + maxInterval ∧ paced x l end.
Definition paced_from_zero (l : list Z) : Prop :=
  match l with [] => True | x :: l => x = 0 ∧ paced 0 l end.

Lemma clock_paced s tss : ∀ t n,
  0 < den s ≤ num s → Forall (λ ts, 0 ≤ ts < 2 ^ 62) tss → 0 ≤ n → n + len tss ≤ 2 ^ 32 →
  track_ok n t → 0 ≤ prevOriginTs t → paced (prevModTs t) (clock s t tss).
Proof.
  induction tss as [|ts tss IH]; intros t n Hs Hts Hn Hl Hok Ho; [done|].
  inversion Hts as [|? ? Ht Hts']; subst. cbn [length] in Hl. rewrite clock_cons.
  destruct (rotate_fn_spec s t ts n Hs Ht ltac:(lia) Hok) as (H1 & H2 & H3 & H4).
  rewrite (proj2 (Z.eqb_neq _ _)) in H4 by lia. split; [done|].
  rewrite <- H3. apply (IH _ (n + 1)); lia || done.
Qed.

Lemma clock_new_paced s tss :
  0 < den s ≤ num s → Forall (λ ts, 0 ≤ ts < 2 ^ 62) tss → len tss ≤ 2 ^ 32 →
  paced_from_zero (clock s new_track tss).
Proof.
  intros Hs Hts Hl. destruct tss as [|ts tss]; [done|]. inversion Hts as [|? ? Ht Hts']; subst.
  cbn [length] in Hl. rewrite clock_cons.
  assert (H0 : track_ok 0 new_track) by by left.
  destruct (rotate_fn_spec s new_track ts 0 Hs Ht ltac:(lia) H0) as (H1 & H2 & H3 & H4).
  change (prevOriginTs new_track =? -1) with true in H4. cbv iota in H4. split; [done|].
  rewrite <- H4, <- H3. apply (clock_paced _ _ _ 1); lia || done.
Qed.

(** At normal speed, on timestamps that go forward by less than a minute at a
    time, the clock is the distance from the first timestamp. *)
Fixpoint forward (prev : Z) (l : list Z) : Prop :=
  match l with [] => True | x :: l => prev ≤ x ≤ prev + maxInterval ∧ forward x l end.

Lemma raw_interval_forward t ts :
  0 ≤ prevRawOriginTs t < 2 ^ 62 → prevRawOriginTs t ≤ ts ≤ prevRawOriginTs t + maxInterval →
  raw_interval t ts = ts - prevRawOriginTs t.
Proof.
  intros Hr Ht. unfold raw_interval, maxInterval in *.
  assert (Hi : i64 (ts - prevRawOriginTs t) = ts - prevRawOriginTs t) by wrap. rewrite Hi.
  destruct (Z.gtb_spec (ts - prevRawOriginTs t) (90000 * 60)); [lia|].
  by rewrite (proj2 (Z.ltb_ge _ _)) by lia.
Qed.

Lemma adjusted_interval_one t raw : 0 ≤ raw → adjusted_interval f64_one t raw = raw.
Proof.
  intros Hr. unfold adjusted_interval. change (f64_eqb f64_one f64_one) with true. cbv iota zeta.
  rewrite (proj2 (Z.ltb_ge _ _)) by lia. by destruct raw.
Qed.

Lemma clock_forward base tss : ∀ t,
  forward (prevRawOriginTs t) tss → Forall (λ ts, 0 ≤ ts < 2 ^ 62) tss → 0 ≤ base →
  0 ≤ prevRawOriginTs t → base ≤ prevRawOriginTs t < 2 ^ 62 →
  0 ≤ prevOriginTs t → prevModTs t = prevRawOriginTs t - base →
  clock f64_one t tss = (λ ts, ts - base) <$> tss.
Proof.
  induction tss as [|ts tss IH]; intros t Hfw Hts Hb Hr Hbr Ho Hm; [done|].
  destruct Hfw as [Hf Hf'].
  inversion Hts as [|? ? Ht Hts']; subst. rewrite clock_cons.
  assert (E : rotate_fn f64_one t ts =
    (mkTrack (ts - base) (ts - base) (ts - prevRawOriginTs t) (originBaseTs t) ts, ts - base)).
  { unfold rotate_fn. rewrite (proj2 (Z.eqb_neq _ _)), (proj2 (Z.ltb_ge (i64 _) _)) by (unfold maxInterval in *; wrap).
    unfold advanced. rewrite raw_interval_forward, adjusted_interval_one, Hm by lia.
    replace (prevRawOriginTs t - base + (ts - prevRawOriginTs t)) with (ts - base) by lia.
    assert (Hi2 : i64 (ts - base) = ts - base) by wrap. rewrite Hi2.
    cbn [prevOriginTs prevIntervalTs prevRawOriginTs originBaseTs]. by rewrite (proj2 (Z.ltb_ge _ _)) by lia. }
  rewrite E. cbn [fst snd]. change ((λ ts, ts - base) <$> ts :: tss) with (ts - base :: ((λ ts, ts - base) <$> tss)).
  f_equal. apply IH; cbn [prevOriginTs prevModTs prevRawOriginTs]; try done; lia.
Qed.

(** ** The tracks of a queue that is fed *)

Section Timeline.
Context {Q : CircularQueue AvPacket} {HQ : CircularQueueLaws Q}.

Definition clocks (a : AvPacketQueue) : track * track * f64 := (audioTrack a, videoTrack a, scale a).

Lemma popAll_clocks a : clocks (popAllVideo a).1 = clocks a ∧ clocks (popAllAudio a).1 = clocks a.
Proof. unfold popAllVideo, popAllAudio. by destruct (pop_all _ (videoQueue a)), (pop_all _ (audioQueue a)). Qed.

Lemma merge_step_clocks a a' p : merge_step a = Some (a', p) → clocks a' = clocks a.
Proof.
  unfold merge_step. destruct (cqFront (audioQueue a)), (cqFront (videoQueue a)); try done.
  destruct (_ <? -1); by intros [= <- _].
Qed.

Lemma merge_loop_clocks n : ∀ a, clocks (merge_loop n a).1.2 = clocks a.
Proof.
  induction n as [|n IH]; intros a; cbn [merge_loop]; destruct (_ || _); try done.
  destruct (merge_step a) as [[a1 p]|] eqn:E; [|done]. specialize (IH a1).
  destruct (merge_loop n a1) as [[n' a2] out]. cbn [fst snd] in *. by rewrite IH, (merge_step_clocks _ _ _ E).
Qed.

Lemma force_video_clocks n a : clocks (force_video n a).1 = clocks a.
Proof. unfold force_video. destruct (_ && _); [|done]. by destruct (cqFront _). Qed.

Lemma flush_full_clocks a : clocks (flush_full a).1 = clocks a.
Proof. unfold flush_full. destruct (cqFull (videoQueue a)), (cqFull (audioQueue a)); try done; apply popAll_clocks. Qed.

Lemma Feed_clocks a p :
  clocks (Feed true a p).1 =
  let t := (rotate_fn (scale a) (track_of a p) (avTimestamp p)).1 in
  if IsVideo p then (audioTrack a, t, scale a) else (t, videoTrack a, scale a).
Proof.
  unfold Feed, feed_merged.
  assert (E : clocks (adjustTsHandleRotate a p) =
    let t := (rotate_fn (scale a) (track_of a p) (avTimestamp p)).1 in
    if IsVideo p then (audioTrack a, t, scale a) else (t, videoTrack a, scale a)).
  { unfold adjustTsHandleRotate, track_of.
    destruct (IsVideo p), (rotate_fn _ _ _) as [t ts]; cbn [videoQueue audioQueue set_videoTrack set_audioTrack fst];
      destruct (cqFull _); done. }
  cbv zeta in *. rewrite <- E. clear E. set (a1 := adjustTsHandleRotate a p). pose proof (merge_loop_clocks maxIterations a1) as E2.
  destruct (merge_loop maxIterations a1) as [[n a2] o2]. pose proof (force_video_clocks n a2) as E3.
  destruct (force_video n a2) as [a3 o3]. pose proof (flush_full_clocks a3) as E4.
  destruct (flush_full a3) as [a4 o4]. cbn [fst snd] in *. congruence.
Qed.

(** The packets of one medium with the timestamps of its clock. *)
Definition timed (s : f64) (t : track) (l : list AvPacket) : list AvPacket :=
  zip_with with_ts l (clock s t (avTimestamp <$> l)).

Lemma timed_cons s t p l :
  timed s t (p :: l) = with_ts p (rotate_fn s t (avTimestamp p)).2 :: timed s (rotate_fn s t (avTimestamp p)).1 l.
Proof. done. Qed.

Lemma feeds_timed pkts : ∀ a av vv,
  inv a av vv →
  ∃ a' out av' vv', avq_run true a (OpFeed <$> pkts) = (a', out) ∧ inv a' av' vv' ∧
    audio_of out ++ av' = av ++ timed (scale a) (audioTrack a) (audio_of pkts) ∧
    video_of out ++ vv' = vv ++ timed (scale a) (videoTrack a) (video_of pkts).
Proof.
  induction pkts as [|p pkts IH]; intros a av vv Hi.
  - exists a, [], av, vv. cbn. by rewrite !app_nil_r.
  - change (OpFeed <$> p :: pkts) with (OpFeed p :: (OpFeed <$> pkts)). cbn [avq_run avq_step].
    destruct (Feed_spec true a p av vv Hi) as (ts & a1 & o1 & av1 & vv1 & E1 & H1 & Ea & Ev & Hts).
    specialize (Hts eq_refl). pose proof (Feed_clocks a p) as Hc. rewrite E1 in *. cbn [fst] in Hc.
    destruct (IH a1 av1 vv1 H1) as (a2 & o2 & av2 & vv2 & -> & H2 & Ea2 & Ev2).
    exists a2, (o1 ++ o2), av2, vv2. split; [done|]. split; [exact H2|].
    rewrite audio_of_app, video_of_app, <- !app_assoc, Ea2, Ev2, !app_assoc, Ea, Ev, <- !app_assoc.
    unfold clocks, add_audio, add_video, feed_ts, track_of, audio_of, video_of in *. cbn [List.filter] in *.
    destruct (IsVideo p); cbn [negb] in *; injection Hc as -> -> ->; rewrite timed_cons, Hts; done.
Qed.

(** Feeding packets of both media, interleaved in any way, at any speed of at
    least one, with timestamps below 2^62: each medium is handed over in order on a
    timeline of its own that starts at zero and never goes back, whatever jumps its
    source's clock makes. At normal speed, when a medium's timestamps do go forward
    (by at most a minute at a time), that timeline is the distance from its first one. *)
Theorem avq_timeline s pkts :
  0 < den s ≤ num s → Forall (λ p, 0 ≤ avTimestamp p < 2 ^ 62) pkts → len pkts ≤ 2 ^ 32 →
  ∃ a out av vv ats vts, avq_run true NewAvPacketQueue (OpSetScale s :: (OpFeed <$> pkts)) = (a, out) ∧
    holds a av vv ∧
    audio_of out ++ av = zip_with with_ts (audio_of pkts) ats ∧ length ats = length (audio_of pkts) ∧
    video_of out ++ vv = zip_with with_ts (video_of pkts) vts ∧ length vts = length (video_of pkts) ∧
    paced_from_zero ats ∧ paced_from_zero vts ∧
    (∀ p l, s = f64_one → video_of pkts = p :: l → forward (avTimestamp p) (avTimestamp <$> l) →
       vts = (λ ts, ts - avTimestamp p) <$> (avTimestamp <$> video_of pkts)).
Proof.
  intros Hs Hts Hl. cbn [avq_run avq_step].
  assert (Hi : inv (SetScale NewAvPacketQueue s) [] []) by (destruct inv_new as [[? ? ? ?] ?]; by split; [split|]).
  destruct (feeds_timed pkts _ _ _ Hi) as (a & out & av & vv & -> & H & Ea & Ev). cbn [Datatypes.app].
  set (s' := scale (SetScale NewAvPacketQueue s)) in *.
  assert (Es : s' = s) by (unfold s'; cbn; unfold SetScale_value; by rewrite (proj2 (Z.ltb_lt _ _)) by lia).
  clearbody s'. subst s'. change (audioTrack _) with new_track in Ea. change (videoTrack _) with new_track in Ev.
  exists a, out, av, vv, (clock s new_track (avTimestamp <$> audio_of pkts)),
    (clock s new_track (avTimestamp <$> video_of pkts)).
  split; [done|]. split; [apply H|]. split; [exact Ea|]. split; [by rewrite clock_length, length_fmap|].
  split; [exact Ev|]. split; [by rewrite clock_length, length_fmap|].
  pose proof (audio_video_length pkts) as Hlen.
  split; [|split].
  - apply clock_new_paced; [done| |rewrite length_fmap; lia]. apply Forall_fmap. by apply Forall_audio_of.
  - apply clock_new_paced; [done| |rewrite length_fmap; lia]. apply Forall_fmap. by apply Forall_video_of.
  - intros p l -> Hp Hf. pose proof (Forall_video_of _ _ Hts) as Hv. rewrite Hp in *.
    inversion Hv as [|? ? Hv1 Hv2]; subst. change (avTimestamp <$> p :: l) with (avTimestamp p :: (avTimestamp <$> l)).
    rewrite clock_cons. cbn [fst snd rotate_fn]. change ((λ ts, ts - avTimestamp p) <$> ?x :: ?y) with
      (x - avTimestamp p :: ((λ ts, ts - avTimestamp p) <$> y)). f_equal; [cbn; lia|].
    apply clock_forward; cbn; try lia; try done. by apply Forall_fmap.
Qed.
End Timeline.

(** ** Witnesses *)

Definition demo_packet (ty ts : Z) : AvPacket := mkAvPacket ty ts 0 [].
Definition demo_feed : list AvPacket :=
  [demo_packet AvPacketPtAvc 9000; demo_packet AvPacketPtAac 500; demo_packet AvPacketPtAvc 12600;
   demo_packet AvPacketPtAac 1524].

Lemma avq_conserves_witness :
  ∃ a out av vv,
    @avq_run (queue_impl AvPacket) true NewAvPacketQueue (OpFeed <$> demo_feed) = (a, out) ∧ holds a av vv ∧
    len av < 128 ∧ len vv < 128 ∧
    (unstamp <$> audio_of out) ++ (unstamp <$> av) = unstamp <$> audio_of (fed (OpFeed <$> demo_feed)) ∧
    (unstamp <$> video_of out) ++ (unstamp <$> vv) = unstamp <$> video_of (fed (OpFeed <$> demo_feed)) ∧
    ∀ pkt, let a' := (feed_merged true a pkt).1 in
      (cqFull (videoQueue a') = true → cqEmpty (audioQueue a') = true) ∧
      (cqFull (audioQueue a') = true → cqEmpty (videoQueue a') = true).
Proof. exact (@avq_conserves (queue_impl AvPacket) (queue_impl_laws AvPacket) true (OpFeed <$> demo_feed)). Defined.

Lemma avq_timeline_witness :
  ∃ a out av vv ats vts,
    @avq_run (queue_impl AvPacket) true NewAvPacketQueue (OpSetScale f64_one :: (OpFeed <$> demo_feed)) = (a, out) ∧
    holds a av vv ∧
    audio_of out ++ av = zip_with with_ts (audio_of demo_feed) ats ∧ length ats = length (audio_of demo_feed) ∧
    video_of out ++ vv = zip_with with_ts (video_of demo_feed) vts ∧ length vts = length (video_of demo_feed) ∧
    paced_from_zero ats ∧ paced_from_zero vts ∧
    (∀ p l, f64_one = f64_one → video_of demo_feed = p :: l → forward (avTimestamp p) (avTimestamp <$> l) →
       vts = (λ ts, ts - avTimestamp p) <$> (avTimestamp <$> video_of demo_feed)).
Proof.
  apply (@avq_timeline (queue_impl AvPacket) (queue_impl_laws AvPacket) f64_one demo_feed).
  - cbn. lia.
  - repeat constructor; cbn; lia.
  - cbn. lia.
Defined.
