(* ===== verification/ClientSession.v ===== *)
(** * RTMP client sessions (src/pkg/rtmp/client_session.go)

    What a pushing or pulling session writes after the handshake and what it
    does with each message of the server.  As for the server, the world of a
    session is its state and the trace of what it did. *)

From stdpp Require Import gmap.
From S2P Require Import Prelude Naza GoFloat RtmpMsg RtmpChunk Amf0 Metadata MessagePacker.
From S2P Require ServerSession.

(** ** Strings *)

(** [strings.Split(s, sep)] for a separator of one byte. *)
Fixpoint str_split (sep : Z) (s : list Z) : list (list Z) :=
  match s with
  | [] => [[]]
  | x :: s =>
      if x =? sep then [] :: str_split sep s
      else match str_split sep s with
           | [] => [[x]]
           | p :: ps => (x :: p) :: ps
           end
  end.

Definition has_prefix (p s : list Z) : bool := bool_decide (take (length p) s = p).

(** [strings.Contains(s, sub)] *)
Fixpoint str_contains (sub s : list Z) : bool :=
  has_prefix sub s || match s with [] => false | _ :: s => str_contains sub s end.

(** [strings.Replace(s, old, "", -1)], [old] not empty. *)
Fixpoint str_remove (fuel : nat) (old s : list Z) : list Z :=
  match fuel with
  | O => s
  | S fuel =>
      if has_prefix old s then str_remove fuel old (drop (length old) s)
      else match s with [] => [] | x :: s => x :: str_remove fuel old s end
  end.

(** [info[:pos]] and [info[pos+1:]] at the first [sep], when [pos > 0]. *)
Fixpoint str_cut (sep : Z) (s : list Z) : option (list Z * list Z) :=
  match s with
  | [] => None
  | x :: s => if x =? sep then Some ([], s) else '(k, v) ← str_cut sep s; Some (x :: k, v)
  end.

(** ** The session *)

Inductive SessionType := SessionBaseTypePush | SessionBaseTypePull.

#[global] Instance SessionType_eq_dec : EqDecision SessionType.
Proof. solve_decision. Defined.

Record UrlContext := mkUrl {
  Scheme : list Z;
  Username : list Z;
  Password : list Z;
  StdHost : list Z;
  PathWithoutLastItem : list Z;
  LastItemOfPath : list Z;
  RawQuery : list Z;
}.

Record AuthInfo := mkAuth {
  challenge : list Z;
  salt : list Z;
  opaque : list Z;
}.

Record ClientSession := mkClient {
  BaseType : SessionType;
  urlCtx : UrlContext;
  packer : Buffer;
  hasNotifyDoResultSucc : bool;
  PeerWinAckSize : Z;
  recvLastAck : Z;
  seqNum : Z;
  authInfo : AuthInfo;
}.

Definition NewClientSession (t : SessionType) (u : UrlContext) (PeerWinAckSize : Z) : ClientSession :=
  mkClient t u (NewPackerBuffer 256) false PeerWinAckSize 0 0 (mkAuth [] [] []).

(** [EvDoResult]: [onDoResult] is called and [Start] returns.  [EvError]: an
    error of [connect] that goes to [errChan].  [EvDispose]: the end of a read
    loop, whose error disposes of the session. *)
Inductive Event :=
  | EvWrite (bytes : list Z)
  | EvAvMsg (m : RtmpMsg)
  | EvDoResult
  | EvError (e : goerr)
  | EvDispose (e : goerr).

Definition World : Type := ClientSession * list Event.

Definition set_url (s : ClientSession) (u : UrlContext) (a : AuthInfo) : ClientSession :=
  mkClient (BaseType s) u (packer s) (hasNotifyDoResultSucc s) (PeerWinAckSize s) (recvLastAck s) (seqNum s) a.
Definition set_packer (s : ClientSession) (b : Buffer) : ClientSession :=
  mkClient (BaseType s) (urlCtx s) b (hasNotifyDoResultSucc s) (PeerWinAckSize s) (recvLastAck s) (seqNum s)
    (authInfo s).
Definition set_notified (s : ClientSession) : ClientSession :=
  mkClient (BaseType s) (urlCtx s) (packer s) true (PeerWinAckSize s) (recvLastAck s) (seqNum s) (authInfo s).
Definition set_acks (s : ClientSession) (win last seq : Z) : ClientSession :=
  mkClient (BaseType s) (urlCtx s) (packer s) (hasNotifyDoResultSucc s) win last seq (authInfo s).

Definition with_path (u : UrlContext) (p : list Z) : UrlContext :=
  mkUrl (Scheme u) (Username u) (Password u) (StdHost u) p (LastItemOfPath u) (RawQuery u).

Definition get : eff World ClientSession := λ w, (w, Ret w.1).
Definition modify (f : ClientSession → ClientSession) : eff World unit := λ w, ((f w.1, w.2), Ret tt).
Definition event (e : Event) : eff World unit := λ w, ((w.1, w.2 ++ [e]), Ret tt).

Definition sends (f : Buffer → outcome Sent) : eff World unit := λ w,
  match f (packer w.1) with
  | Panic => (w, Panic)
  | Fail e => (w, Fail e)
  | Ret (b, out, err) =>
      ((set_packer w.1 b, w.2 ++ [EvWrite out]), match err with Some e => Fail e | None => Ret tt end)
  end.

Definition tcUrl (s : ClientSession) : list Z :=
  Scheme (urlCtx s) ++ str "://" ++ StdHost (urlCtx s) ++ str "/" ++ PathWithoutLastItem (urlCtx s).
Definition appName (s : ClientSession) : list Z := PathWithoutLastItem (urlCtx s).
Definition streamNameWithRawQuery (s : ClientSession) : list Z :=
  if bool_decide (RawQuery (urlCtx s) = []) then LastItemOfPath (urlCtx s)
  else LastItemOfPath (urlCtx s) ++ str "?" ++ RawQuery (urlCtx s).
Definition isPush (s : ClientSession) : bool := bool_decide (BaseType s = SessionBaseTypePush).

(** What the session is given: the bytes read from the connection so far, and
    base64 of an MD5 digest. *)
Class Client := {
  ReadBytesSum : World → Z;
  md5_base64 : list Z → list Z;
}.

Section Session.
Context {B : Bele} {BS : BeleStream} {SK : ServerSession.MsgSkip} {C : Client}.
Variable ver : Versions.
Variable conn : list Z → Z * option goerr.
(** [s.conn.Close(); s.connect()] inside a handler: a whole dialogue on a new
    connection. *)
Variable reconnect : eff World unit.

(** [connect] after the handshake, before its read loop. *)
Definition connect_writes : eff World unit :=
  _ ← sends (writeChunkSize conn LocalChunkSize);
  s ← get;
  sends (writeConnect ver conn (appName s) (tcUrl s) (isPush s)).

Definition doAck (msg : list Z) : eff World unit := _ ← lift (BeUint32 msg); mret tt.

Definition doUserControl (msg : list Z) : eff World unit :=
  userControlType ← lift (BeUint16 msg);
  if userControlType =? RtmpUserControlPingRequest then
    msg ← lift (ServerSession.msg_skip 2 msg);
    timestamp ← lift (BeUint32 msg);
    sends (writePingResponse conn timestamp)
  else mret tt.

Definition doDataMessageAmf0 (m : RtmpMsg) : eff World unit :=
  val ← lift (ServerSession.peekStringWithType (msgPayload m));
  if bool_decide (val = str "|RtmpSampleAccess") then mret tt else event (EvAvMsg m).

Definition doProtocolControlMessage (t : Z) (msg : list Z) : eff World unit :=
  if len msg <? 4 then lift (Fail ErrRtmpShortBuffer) else
  val ← lift (BeUint32 msg);
  if t =? RtmpTypeIdWinAckSize then modify (λ s, set_acks s val (recvLastAck s) (seqNum s)) else mret tt.

Definition writeAcknowledgementIfNeeded : eff World unit := λ w,
  let s := w.1 in
  if PeerWinAckSize s <=? 0 then (w, Ret tt) else
  let sum := ReadBytesSum w in
  let delta := u32 (sum - recvLastAck s) in
  if delta <? u32 (Z.quot (PeerWinAckSize s) 2) then (w, Ret tt) else
  let seq := u32 (seqNum s + delta) in
  let seq := if seq >? ServerSession.ackSeqMax then delta else seq in
  sends (writeAcknowledgement conn seq) (set_acks s (PeerWinAckSize s) sum seq, w.2).

(** The first result only; the second signal on [doResultChan] would block. *)
Definition notifyDoResultSucc : eff World unit :=
  s ← get;
  if hasNotifyDoResultSucc s then mret tt else
  _ ← modify set_notified;
  event EvDoResult.

Definition doOnStatusMessage (msg : list Z) : eff World unit :=
  msg ← lift (ServerSession.readNull msg);
  '(infos, _) ← lift (ServerSession.readObjectWithType msg);
  code ← lift (FindString infos (str "code"));
  s ← get;
  match BaseType s with
  | SessionBaseTypePush =>
      if bool_decide (code = str "NetStream.Publish.Start") then notifyDoResultSucc else mret tt
  | SessionBaseTypePull =>
      if bool_decide (code = str "NetStream.Play.Start") then notifyDoResultSucc else mret tt
  end.

Definition tidClientConnect : Z := 1.
Definition tidClientCreateStream : Z := 2.

Definition doResultMessage (msg : list Z) (tid : Z) : eff World unit :=
  if tid =? tidClientConnect then
    '(_, msg) ← lift (ServerSession.readObjectWithType msg);
    '(infos, _) ← lift (ServerSession.readObjectWithType msg);
    code ← lift (FindString infos (str "code"));
    if bool_decide (code = str "NetConnection.Connect.Success") then sends (writeCreateStream conn) else mret tt
  else if tid =? tidClientCreateStream then
    msg ← lift (ServerSession.readNull msg);
    '(sid, _) ← lift (ServerSession.readNumberWithType msg);
    s ← get;
    match BaseType s with
    | SessionBaseTypePush => sends (writePublish conn (appName s) (streamNameWithRawQuery s) sid)
    | SessionBaseTypePull => sends (writePlay conn (streamNameWithRawQuery s) sid)
    end
  else mret tt.

(** *** Authentication of a push *)

Definition set_auth_field (a : AuthInfo) (info : list Z) : AuthInfo :=
  match str_cut 61 info with
  | Some (k, v) =>
      if bool_decide (k = str "salt") then mkAuth (challenge a) v (opaque a)
      else if bool_decide (k = str "challenge") then mkAuth v (salt a) (opaque a)
      else if bool_decide (k = str "opaque") then mkAuth (challenge a) (salt a) v
      else a
  | None => a
  end.
Definition parseAuthorityInfo (a : AuthInfo) (auth : list Z) : AuthInfo :=
  foldl set_auth_field a (str_split 38 auth).

Definition remove_all (old s : list Z) : list Z := str_remove (length s) old s.

Definition auth_response (u : UrlContext) (a : AuthInfo) : list Z :=
  let salt1 := md5_base64 (Username u ++ salt a ++ Password u) in
  md5_base64 (salt1 ++ opaque a ++ challenge a).

Definition dealErrorMessage (description : list Z) : eff World unit :=
  if str_contains (str "code=403 need auth") description then
    _ ← modify (λ s, let u := urlCtx s in
          set_url s (with_path u (PathWithoutLastItem u ++ str "/" ++ LastItemOfPath u ++
            str "?authmod=adobe&user=" ++ Username u)) (authInfo s));
    reconnect
  else if str_contains (str "?reason=needauth") description then
    match str_split 58 description with
    | [_; _; d2] =>
        _ ← modify (λ s, let u := urlCtx s in
              let d2 := remove_all (str " ") d2 in
              let replacestr := str "?reason=needauth&user=" ++ Username u ++ str "&" in
              let a := parseAuthorityInfo (authInfo s) (remove_all replacestr d2) in
              set_url s (with_path u (PathWithoutLastItem u ++ str "&challenge=" ++ challenge a ++
                str "&response=" ++ auth_response u a ++ str "&opaque=" ++ opaque a)) a);
        reconnect
    | _ => lift (Fail ErrFmt)
    end
  else lift (Fail ErrFmt).

Definition doErrorMessage (msg : list Z) : eff World unit :=
  msg ← lift (ServerSession.readNull msg);
  '(infos, _) ← lift (ServerSession.readObjectWithType msg);
  s ← get;
  if isPush s then
    description ← lift (FindString infos (str "description"));
    dealErrorMessage description
  else mret tt.

Definition doCommandMessage (msg : list Z) : eff World unit :=
  '(cmd, msg) ← lift (ServerSession.readStringWithType msg);
  '(tid, msg) ← lift (ServerSession.readNumberWithType msg);
  if bool_decide (cmd = str "onBWDone") then mret tt
  else if bool_decide (cmd = str "_result") then doResultMessage msg tid
  else if bool_decide (cmd = str "onStatus") then doOnStatusMessage msg
  else if bool_decide (cmd = str "_error") then doErrorMessage msg
  else mret tt.

Definition doMsg (m : RtmpMsg) : eff World unit :=
  _ ← writeAcknowledgementIfNeeded;
  let msg := msgPayload m in
  let t := MsgTypeId (msgHeader m) in
  if (t =? RtmpTypeIdWinAckSize) || (t =? RtmpTypeIdBandwidth) || (t =? RtmpTypeIdSetChunkSize)
  then doProtocolControlMessage t msg
  else if t =? RtmpTypeIdCommandMessageAmf0 then doCommandMessage msg
  else if t =? RtmpTypeIdMetadata then doDataMessageAmf0 m
  else if t =? RtmpTypeIdAck then doAck msg
  else if t =? RtmpTypeIdUserControl then doUserControl msg
  else if (t =? RtmpTypeIdAudio) || (t =? RtmpTypeIdVideo) then event (EvAvMsg m)
  else lift (Fail ErrFmt).

(** [runReadLoop]: with [fuel] chunks to read at most.  The composer is that of
    the session, which all its connections share, as the last one has left it. *)
Definition runReadLoop {NB : NazaBuffer} (c : ChunkComposer) (fuel : nat) (input : list Z) : eff World unit := λ w,
  match RunLoop doMsg fuel c input w with
  | (w, Fail e) => event (EvDispose e) w
  | r => r
  end.
End Session.

(** What comes of a connection, given all that was done before: [tcpConnect] or
    the handshake fail, or it carries these bytes; with the composer of the
    session at that time and the number of chunks that the bytes have at most. *)
Class Dials {NB : NazaBuffer} := dial : World → goerr + ChunkComposer * nat * list Z.

(** [connect]: when it cannot connect or write its first messages the error goes
    to [errChan]; it returns nothing.  [depth] bounds the connections that are
    opened inside handlers of connections. *)
Fixpoint connect {B : Bele} {BS : BeleStream} {SK : ServerSession.MsgSkip} {C : Client} {NB : NazaBuffer} {D : Dials}
    (ver : Versions) (conn : list Z → Z * option goerr) (depth : nat) : eff World unit :=
  match depth with
  | O => lift (Fail OutOfFuel)
  | S depth => λ w,
      match dial w with
      | inl e => event (EvError e) w
      | inr (c, fuel, input) =>
          match connect_writes ver conn w with
          | (w, Fail e) => event (EvError e) w
          | (w, Panic) => (w, Panic)
          | (w, Ret _) => runReadLoop conn (connect ver conn depth) c fuel input w
          end
      end
  end.

(** ** The result is announced once *)

Definition is_result (e : Event) : bool := match e with EvDoResult => true | _ => false end.
Definition results (tr : list Event) : list Event := List.filter is_result tr.

(** The results announced are those the session remembers. *)
Definition notified_ok (w : World) : Prop :=
  results w.2 = if hasNotifyDoResultSucc w.1 then [EvDoResult] else [].

Lemma notified_event s s' tr e :
  notified_ok (s, tr) → hasNotifyDoResultSucc s' = hasNotifyDoResultSucc s → is_result e = false →
  notified_ok (s', tr ++ [e]).
Proof.
  unfold notified_ok, results. cbn [fst snd]. intros H E1 E2. rewrite List.filter_app, H, E1. cbn.
  by rewrite E2, app_nil_r.
Qed.

Section Once.
Context {B : Bele} {BS : BeleStream} {SK : ServerSession.MsgSkip} {C : Client}.
Variable ver : Versions.
Variable conn : list Z → Z * option goerr.
Variable reconnect : eff World unit.
Hypothesis Hreconnect : Prelude.keeps notified_ok reconnect.

Abbreviation keeps := (Prelude.keeps notified_ok).

Lemma client_get_keeps : keeps get.
Proof. by intros w Hw. Qed.
Lemma client_sends_keeps f : keeps (sends f).
Proof.
  intros [s tr] H. unfold sends. cbn [fst snd]. destruct (f (packer s)) as [[[b out] err]|e|]; [|done|done].
  by apply (notified_event s).
Qed.
Lemma client_event_keeps e : is_result e = false → keeps (event e).
Proof. intros He [s tr] H. by apply (notified_event s). Qed.
Lemma client_modify_keeps f : (∀ s, hasNotifyDoResultSucc (f s) = hasNotifyDoResultSucc s) → keeps (modify f).
Proof. intros Hf [s tr] H. unfold notified_ok in *. cbn [fst snd modify] in *. by rewrite Hf. Qed.

Lemma notify_keeps : keeps notifyDoResultSucc.
Proof.
  intros [s tr] H. unfold notifyDoResultSucc, notified_ok in *. ServerSession.run.
  destruct (hasNotifyDoResultSucc s) eqn:E; cbn [fst snd] in *; rewrite E in *; [done|].
  cbn. unfold results in *. by rewrite List.filter_app, H.
Qed.

Ltac keep_with tac :=
  cbv zeta;
  repeat first
    [ tac | apply keeps_lift | apply keeps_ret | apply client_sends_keeps | apply client_get_keeps
    | apply notify_keeps | exact Hreconnect | apply client_event_keeps; reflexivity
    | apply client_modify_keeps; intros ?; reflexivity
    | apply keeps_bind; [|intros ?]
    | case_match ].

Lemma ack_keeps : keeps (writeAcknowledgementIfNeeded conn).
Proof.
  intros [s tr] H. unfold writeAcknowledgementIfNeeded. cbn [fst snd]. cbv zeta.
  destruct (_ <=? 0); [done|]. destruct (_ <? _); [done|]. by apply client_sends_keeps.
Qed.

Lemma dealErrorMessage_keeps d : keeps (dealErrorMessage reconnect d).
Proof. unfold dealErrorMessage. keep_with fail. Qed.

Lemma client_doCommandMessage_keeps msg : keeps (doCommandMessage conn reconnect msg).
Proof.
  unfold doCommandMessage, doResultMessage, doOnStatusMessage, doErrorMessage.
  keep_with ltac:(apply dealErrorMessage_keeps).
Qed.

Lemma client_doMsg_keeps m : keeps (doMsg conn reconnect m).
Proof.
  unfold doMsg. apply keeps_bind; [apply ack_keeps|]. intros _. cbv zeta.
  unfold doProtocolControlMessage, doDataMessageAmf0, doAck, doUserControl.
  keep_with ltac:(apply client_doCommandMessage_keeps).
Qed.
End Once.

Section Connections.
Context {B : Bele} {BS : BeleStream} {SK : ServerSession.MsgSkip} {C : Client} {NB : NazaBuffer} {D : Dials}.
Context (ver : Versions) (conn : list Z → Z * option goerr).

Lemma connect_writes_keeps : Prelude.keeps notified_ok (connect_writes ver conn).
Proof.
  unfold connect_writes. apply keeps_bind; [apply client_sends_keeps|]. intros [].
  apply keeps_bind; [apply client_get_keeps|]. intros s. apply client_sends_keeps.
Qed.

Lemma runReadLoop_keeps reconnect c fuel input : Prelude.keeps notified_ok reconnect →
  Prelude.keeps notified_ok (runReadLoop conn reconnect c fuel input).
Proof.
  intros Hr w Hw. unfold runReadLoop.
  pose proof (ServerSession.RunLoop_keeps notified_ok (doMsg conn reconnect) (client_doMsg_keeps conn reconnect Hr) fuel c input w Hw) as H.
  destruct (RunLoop _ _ _ _ w) as [w' [[]|e|]]; [done| |done]. by apply client_event_keeps.
Qed.

Lemma connect_keeps depth : Prelude.keeps notified_ok (connect ver conn depth).
Proof.
  induction depth as [|depth IH]; intros w Hw; cbn [connect]; [done|].
  destruct (dial w) as [e|[[c fuel] input]]; [by apply client_event_keeps|].
  pose proof (connect_writes_keeps w Hw) as H. destruct (connect_writes ver conn w) as [w1 [a|e|]].
  - by apply runReadLoop_keeps.
  - by apply client_event_keeps.
  - done.
Qed.
End Connections.

(** C35: a session that is started announces its result (publish or play accepted)
    at most once, and remembers that it did, whatever bytes the server sends,
    whatever connections it opens again to authenticate, whatever comes on these,
    and even when a handler panics: [Start] is released by the first result and a
    server that repeats itself is ignored. *)
Theorem client_result_once {B : Bele} {BS : BeleStream} {NB : NazaBuffer} {SK : ServerSession.MsgSkip}
    {C : Client} {D : Dials} ver conn depth t u win :
  let w := (connect ver conn depth (NewClientSession t u win, [])).1 in
  results w.2 = if hasNotifyDoResultSucc w.1 then [EvDoResult] else [].
Proof. by apply connect_keeps. Qed.

(** ** Examples *)

Definition demo_url : UrlContext :=
  mkUrl (str "rtmp") (str "me") (str "pw") (str "h") (str "live") (str "a") (str "k=1").
Definition demo_client : Client := {| ReadBytesSum := λ _, 0; md5_base64 := λ b, b |}.

(** The error message of a server that asks for a user. *)
Definition demo_need_auth : list Z :=
  packed_wire 3 RtmpTypeIdCommandMessageAmf0 0 (items_bytes [IStr (str "_error"); INum 1; INull;
    IObj [(str "description", AmfString (str "code=403 need auth"))]]).
(** The first connection asks for a user, the second accepts the push twice. *)
Definition demo_dials : @Dials buffer_impl := λ w,
  if bool_decide (len w.2 ≤ 0) then inr (NewChunkComposer, 10%nat, demo_need_auth)
  else let s := ServerSession.command_wire demo_versions (OnStatusPublish 1) in inr (NewChunkComposer, 10%nat, s ++ s).
Definition demo_connect (depth : nat) : World :=
  (@connect bele_impl bele_stream_impl ServerSession.msg_skip_impl demo_client buffer_impl demo_dials demo_versions demo_conn
    depth (NewClientSession SessionBaseTypePush demo_url 0, [])).1.

(** The second connection is asked for with the name of the user, and the session
    is told once that its push was accepted. *)
Example client_authenticates :
  PathWithoutLastItem (urlCtx (demo_connect 2).1) = str "live/a?authmod=adobe&user=me" ∧
  results (demo_connect 2).2 = [EvDoResult] ∧ results (demo_connect 1).2 = [].
Proof. vm_compute. done. Qed.
