(* ===== verification/Dialogue.v ===== *)
(** * A client session and a server session connected to each other

    The closed loop of src/pkg/rtmp/client_session.go and server_session.go
    after the handshake: each side reads chunk by chunk what the other wrote,
    in any order of the two; a read that does not have its bytes yet waits. *)

From stdpp Require Import gmap.
From S2P Require Import Prelude Naza GoFloat RtmpMsg RtmpChunk Amf0 Metadata MessagePacker.
From S2P Require ServerSession ClientSession.

(** ** Turns of the read loop *)

Section Serves.
Context {B : Bele} {HB : BeleLaws B} {NB : NazaBuffer} {HNB : NazaBufferLaws NB}.
Context {S : Type}.
Variable cb : RtmpMsg → eff S unit.

(** Turns of the loop of which only the last one changes the world. *)
Inductive serves : ChunkComposer → list Z → S → ChunkComposer → list Z → S → Prop :=
  | serves_last c q w c' q' w' :
      RunLoop_step cb c q w = (w', Ret (c', q')) → serves c q w c' q' w'
  | serves_more c q w c1 q1 c' q' w' :
      RunLoop_step cb c q w = (w, Ret (c1, q1)) → serves c1 q1 w c' q' w' → serves c q w c' q' w'.

Lemma serves_pieces ps : ∀ c h done rest w w',
  header_ok h → ts_ok h → ordinary h → 0 < peerChunkSize c → expects c h done →
  pieces_fill (peerChunkSize c) ps → MsgLen h = len done + len (concat ps) →
  (done = [] ∨ peerChunkSize c < MsgLen h) →
  cb (mkRtmpMsg h (done ++ concat ps)) w = (w', Ret tt) →
  ∃ c', delivered c c' (Csid h) ∧ serves c (chunks_wire h (prev_of h done) ps ++ rest) w c' rest w'.
Proof.
  induction ps as [|p ps IH]; intros c h dn rest w w' Hh Hts Hord Hn He Hf Hlen Hs Hcb; [done|].
  destruct (pieces_fill_head _ _ _ Hf Hn) as (P1 & P2 & P3).
  assert (Hpiece : piece_ok (peerChunkSize c) h dn p).
  { split; [rewrite P2, Hlen; f_equal; lia|done]. }
  cbn [chunks_wire]. rewrite <- !app_assoc. destruct ps as [|p' ps].
  - destruct (step_complete cb c h dn p (chunks_wire h (Some h) [] ++ rest) w) as (st & E & Hi); try done.
    { rewrite Hlen. simpl concat. rewrite app_nil_r. len_lia. }
    exists (put_stream c (Csid h) st). split.
    { split; [done|by rewrite get_put, decide_True|]. intros. by rewrite get_put, decide_False. }
    apply serves_last. rewrite E. cbn [concat] in Hcb. rewrite app_nil_r in Hcb.
    by rewrite (eff_bind_Ret _ _ _ _ _ Hcb).
  - destruct (P3 ltac:(done)) as [Hpn Hf'].
    assert (Hpos : 0 < len (concat (p' :: ps))).
    { simpl concat. destruct ps; simpl in Hf'; rewrite length_app; lia. }
    assert (Hcat : len (concat (p :: p' :: ps)) = len p + len (concat (p' :: ps)))
      by (change (concat (p :: p' :: ps)) with (p ++ concat (p' :: ps)); len_lia).
    destruct (step_partial cb c h dn p (chunks_wire h (Some h) (p' :: ps) ++ rest) w) as (st & E & Hw); try done.
    { rewrite Hlen, Hcat. len_lia. }
    assert (Hd : prev_of h (dn ++ p) = Some h ∧ dn ++ p ≠ []).
    { destruct p as [|x p]; [simpl in P1; lia|]. by destruct dn. }
    destruct Hd as [Hd Hne].
    destruct (IH (put_stream c (Csid h) st) h (dn ++ p) rest w w') as (c' & [D1 D2 D3] & E'); try done.
    + unfold expects. rewrite get_put, decide_True by done. by destruct (dn ++ p).
    + rewrite Hlen, Hcat. len_lia.
    + right. change (peerChunkSize (put_stream c (Csid h) st)) with (peerChunkSize c). rewrite Hlen, Hcat. lia.
    + by rewrite <- app_assoc.
    + exists c'. split.
      { split; [done|done|]. intros csid' Hc. rewrite D3 by done. by rewrite get_put, decide_False. }
      rewrite Hd in E'. by eapply serves_more.
Qed.

(** A composer between messages. *)
Definition at_rest (n : Z) (c : ChunkComposer) : Prop := peerChunkSize c = n ∧ quiet c.

(** A whole message is read and handled. *)
Lemma serves_msg m n c rest w w' :
  0 < n → at_rest n c → msg_ok m → cb m w = (w', Ret tt) →
  ∃ c', at_rest n c' ∧ serves c (msg_wire n m ++ rest) w c' rest w'.
Proof.
  intros Hn [Hc Hq] (Hh & Hts & Ho & Hl & Hne) Hcb. destruct m as [h message]. cbn [msgHeader msgPayload] in *.
  assert (Hpos : 0 < len message) by (destruct message; [done|simpl; lia]).
  destruct (chunk_count_bounds n (len message) Hn Hpos) as [Hk Hb].
  unfold msg_wire. cbn [msgHeader msgPayload]. set (k := chunk_count n (len message)) in *.
  destruct (pieces_props k n message Hn Hb Hk) as (P1 & P2 & P3 & P4).
  pose proof (concat_pieces k n message Hk) as Hcat. subst n.
  destruct (serves_pieces (pieces k (peerChunkSize c) message) c h [] rest w w') as (c' & D & E);
    try done; [apply Hq|rewrite Hcat; simpl; lia|by left|by rewrite Hcat|].
  exists c'. split; [|done]. split; [by rewrite (delivered_size _ _ _ D)|by eapply quiet_delivered].
Qed.

(** A new chunk size is obeyed from the next chunk on. *)
Lemma serves_chunk_size h v c rest w w' n :
  header_ok h → ts_ok h → MsgTypeId h = RtmpTypeIdSetChunkSize → MsgLen h = 4 → is_u32 v → 4 ≤ n →
  at_rest n c → cb (mkRtmpMsg h (be_bytes 4 v)) w = (w', Ret tt) →
  ∃ c', at_rest v c' ∧ serves c (chunks_wire h None [be_bytes 4 v] ++ rest) w c' rest w'.
Proof.
  intros Hh Hts Ht Hl Hv Hn [Hc Hq] Hcb.
  assert (Hb : len (be_bytes 4 v) = 4) by (by rewrite be_bytes_length).
  destruct (step_complete_size cb c (SetPeerChunkSize c v) h [] (be_bytes 4 v) rest w) as (st & E & Hi); try done.
  - by rewrite Ht.
  - apply Hq.
  - split; [rewrite Hl, Hb; simpl; lia|]. split; [lia|by left].
  - intros st Hst Hbytes. unfold apply_chunk_size. rewrite Hst, Ht, Z.eqb_refl, Hbytes. cbv zeta.
    rewrite app_nil_l. rewrite Hb. cbn [Z.geb Z.compare Pos.compare Pos.compare_cont]. rewrite <- (app_nil_r (be_bytes 4 v)).
    by rewrite BeUint32_be, bind_Ret.
  - exists (put_stream (SetPeerChunkSize c v) (Csid h) st). split.
    { split; [done|]. intros csid. rewrite get_put. case_decide; [done|apply Hq]. }
    cbn [chunks_wire]. rewrite <- !app_assoc, app_nil_l. apply serves_last.
    rewrite app_nil_l in E. change (prev_of h []) with (@None RtmpHeader) in E. rewrite E.
    by rewrite (eff_bind_Ret _ _ _ _ _ Hcb).
Qed.

(** Nothing to read: the loop waits. *)
Lemma waits c w : ∃ r, RunLoop_step cb c [] w = (w, Fail r).
Proof. by eexists. Qed.
End Serves.

(** ** The two sessions *)

Definition client_bytes (tr : list ClientSession.Event) : list Z :=
  concat (map (λ e, match e with ClientSession.EvWrite b => b | _ => [] end) tr).
Definition server_bytes (tr : list ServerSession.Event) : list Z :=
  concat (map (λ e, match e with ServerSession.EvWrite b => b | _ => [] end) tr).

Section System.
Context {B : Bele} {HB : BeleLaws B} {BS : BeleStream} {HBS : BeleStreamLaws BS}.
Context {NB : NazaBuffer} {HNB : NazaBufferLaws NB}.
Context {SK : ServerSession.MsgSkip} {HSK : ServerSession.MsgSkipLaws SK}.
Context {O : ServerSession.Observer} {C : ClientSession.Client}.
Variable ver : Versions.
Variables cconn sconn : list Z → Z * option goerr.
Variable reconnect : eff ClientSession.World unit.

(** Each side's composer and world, and the bytes it has not read. *)
Record System := mkSystem {
  ccomp : ChunkComposer;
  cworld : ClientSession.World;
  cunread : list Z;
  scomp : ChunkComposer;
  sworld : ServerSession.World;
  sunread : list Z;
}.

Definition client_msg : RtmpMsg → eff ClientSession.World unit := ClientSession.doMsg cconn reconnect.
Definition server_msg : RtmpMsg → eff ServerSession.World unit := ServerSession.doMsg ver sconn.

(** One turn of one side's loop; what it writes is for the other side to read. *)
Inductive sys_step : System → System → Prop :=
  | client_turn cc cw cq sc sw sq cc' cw' cq' :
      RunLoop_step client_msg cc cq cw = (cw', Ret (cc', cq')) →
      sys_step (mkSystem cc cw cq sc sw sq)
        (mkSystem cc' cw' cq' sc sw (sq ++ client_bytes (drop (length cw.2) cw'.2)))
  | server_turn cc cw cq sc sw sq sc' sw' sq' :
      RunLoop_step server_msg sc sq sw = (sw', Ret (sc', sq')) →
      sys_step (mkSystem cc cw cq sc sw sq)
        (mkSystem cc cw (cq ++ server_bytes (drop (length sw.2) sw'.2)) sc' sw' sq').

(** [P] is reached whichever side takes its turn whenever both can. *)
Inductive eventually (P : System → Prop) : System → Prop :=
  | now s : P s → eventually P s
  | later s : (∃ s', sys_step s s') → (∀ s', sys_step s s' → eventually P s') → eventually P s.

Lemma client_serves P cc cq cw cc' cq' cw' sc sw :
  serves client_msg cc cq cw cc' cq' cw' →
  eventually P (mkSystem cc' cw' cq' sc sw (client_bytes (drop (length cw.2) cw'.2))) →
  eventually P (mkSystem cc cw cq sc sw []).
Proof.
  induction 1 as [c q w c' q' w' E|c q w c1 q1 c' q' w' E _ IH]; intros HP; apply later.
  - eexists. by apply client_turn.
  - intros s' Hs. inversion Hs as [? ? ? ? ? ? ? ? ? E'|? ? ? ? ? ? ? ? ? E']; subst.
    + rewrite E in E'. by injection E' as <- <- <-.
    + done.
  - eexists. by apply client_turn.
  - intros s' Hs. inversion Hs as [? ? ? ? ? ? ? ? ? E'|? ? ? ? ? ? ? ? ? E']; subst.
    + rewrite E in E'. injection E' as <- <- <-. rewrite drop_all. by apply IH.
    + done.
Qed.

Lemma server_serves P sc sq sw sc' sq' sw' cc cw :
  serves server_msg sc sq sw sc' sq' sw' →
  eventually P (mkSystem cc cw (server_bytes (drop (length sw.2) sw'.2)) sc' sw' sq') →
  eventually P (mkSystem cc cw [] sc sw sq).
Proof.
  induction 1 as [c q w c' q' w' E|c q w c1 q1 c' q' w' E _ IH]; intros HP; apply later.
  - eexists. by apply server_turn.
  - intros s' Hs. inversion Hs as [? ? ? ? ? ? ? ? ? E'|? ? ? ? ? ? ? ? ? E']; subst.
    + done.
    + rewrite E in E'. by injection E' as <- <- <-.
  - eexists. by apply server_turn.
  - intros s' Hs. inversion Hs as [? ? ? ? ? ? ? ? ? E'|? ? ? ? ? ? ? ? ? E']; subst.
    + done.
    + rewrite E in E'. injection E' as <- <- <-. rewrite drop_all. by apply IH.
Qed.

(** ** The client's handling of the server's messages *)

Hypothesis Hcconn : accepts cconn.
Hypothesis Hsconn : accepts sconn.
(** The dialogue is far shorter than half an acknowledgement window. *)
Hypothesis Hread : ∀ w, 0 ≤ ClientSession.ReadBytesSum w < 2500000.

Definition control_msg (typeid : Z) (body : list Z) : RtmpMsg :=
  mkRtmpMsg (packed_header csidProtocolControl typeid 0 body) body.

Definition patient (s : ClientSession.ClientSession) : Prop :=
  (ClientSession.PeerWinAckSize s = 0 ∨ ClientSession.PeerWinAckSize s = ServerSession.windowAcknowledgementSize) ∧
  ClientSession.recvLastAck s = 0.

Lemma client_no_ack s tr : patient s → ClientSession.writeAcknowledgementIfNeeded cconn (s, tr) = ((s, tr), Ret tt).
Proof.
  intros [Hw Hr]. unfold ClientSession.writeAcknowledgementIfNeeded. cbn [fst]. rewrite Hr, Z.sub_0_r.
  destruct Hw as [-> | ->]; [done|]. pose proof (Hread (s, tr)). rewrite u32_small by lia.
  change (ServerSession.windowAcknowledgementSize <=? 0) with false. cbv iota zeta.
  change (u32 (Z.quot ServerSession.windowAcknowledgementSize 2)) with 2500000.
  by rewrite (proj2 (Z.ltb_lt _ _)) by lia.
Qed.

Lemma client_sends f body csid typeid streamid s tr :
  appends content f body → 0 < len body < 16777216 → 2 ≤ csid ≤ 63 → is_u8 typeid → is_u32 streamid →
  MessagePacker.ready (ClientSession.packer s) →
  ∃ b, MessagePacker.ready b ∧ ClientSession.sends (send cconn f csid typeid streamid) (s, tr) =
    ((ClientSession.set_packer s b, tr ++ [ClientSession.EvWrite (packed_wire csid typeid streamid body)]), Ret tt).
Proof.
  intros Hf Hl Hc Ht Hs Hr.
  destruct (send_spec cconn Hcconn f body csid typeid streamid (ClientSession.packer s) Hf Hr Hl Hc Ht Hs)
    as (b & E & Hb).
  exists b. split; [done|]. unfold ClientSession.sends. cbn [fst snd]. by rewrite E.
Qed.

Lemma client_sends_command cmd s tr :
  command_ok ver cmd → MessagePacker.ready (ClientSession.packer s) →
  ∃ b, MessagePacker.ready b ∧ ClientSession.sends (send_command ver cconn cmd) (s, tr) =
    ((ClientSession.set_packer s b, tr ++ [ClientSession.EvWrite (ServerSession.command_wire ver cmd)]), Ret tt).
Proof.
  intros Hc Hr. destruct (send_command_spec ver cconn cmd (ClientSession.packer s) Hcconn Hc Hr) as (b & E & Hb).
  exists b. split; [done|]. unfold ClientSession.sends. cbn [fst snd]. by rewrite E.
Qed.

Lemma client_command cmd name tid rest_items s tr :
  patient s → command_items ver cmd = IStr name :: INum tid :: rest_items →
  item_ok (IStr name) → item_ok (INum tid) →
  client_msg (ServerSession.command_msg ver cmd) (s, tr) =
  (if bool_decide (name = str "onBWDone") then mret tt
   else if bool_decide (name = str "_result") then ClientSession.doResultMessage cconn (items_bytes rest_items) tid
   else if bool_decide (name = str "onStatus") then ClientSession.doOnStatusMessage (items_bytes rest_items)
   else if bool_decide (name = str "_error") then ClientSession.doErrorMessage reconnect (items_bytes rest_items)
   else mret tt) (s, tr).
Proof.
  intros Hp Hi Hn Ht. unfold client_msg, ClientSession.doMsg. rewrite (eff_bind_Ret _ _ _ _ _ (client_no_ack s tr Hp)).
  cbv zeta.
  assert (Ep : msgPayload (ServerSession.command_msg ver cmd) =
    item_bytes (IStr name) ++ item_bytes (INum tid) ++ items_bytes rest_items).
  { unfold ServerSession.command_msg. cbn [msgPayload]. by rewrite Hi. }
  rewrite Ep. clear Ep.
  change (MsgTypeId (msgHeader (ServerSession.command_msg ver cmd))) with RtmpTypeIdCommandMessageAmf0.
  cbn [Z.eqb Pos.eqb orb RtmpTypeIdCommandMessageAmf0 RtmpTypeIdWinAckSize RtmpTypeIdBandwidth RtmpTypeIdSetChunkSize].
  unfold ClientSession.doCommandMessage. rewrite ServerSession.readStringWithType_spec, eff_bind_lift by done.
  by rewrite ServerSession.readNumberWithType_spec, eff_bind_lift.
Qed.

Lemma client_control typeid v s tr tl :
  patient s → is_u32 v →
  typeid = RtmpTypeIdWinAckSize ∨ typeid = RtmpTypeIdBandwidth ∨ typeid = RtmpTypeIdSetChunkSize →
  client_msg (control_msg typeid (be_bytes 4 v ++ tl)) (s, tr) =
  ((if typeid =? RtmpTypeIdWinAckSize
    then ClientSession.set_acks s v (ClientSession.recvLastAck s) (ClientSession.seqNum s) else s, tr), Ret tt).
Proof.
  intros Hp Hv Ht. unfold client_msg, ClientSession.doMsg. rewrite (eff_bind_Ret _ _ _ _ _ (client_no_ack s tr Hp)).
  unfold control_msg, packed_header, ClientSession.doProtocolControlMessage. cbn [msgPayload msgHeader MsgTypeId].
  assert (Hb : (typeid =? RtmpTypeIdWinAckSize) || (typeid =? RtmpTypeIdBandwidth) ||
    (typeid =? RtmpTypeIdSetChunkSize) = true) by (by destruct Ht as [-> |[-> | ->]]).
  rewrite Hb, (proj2 (Z.ltb_ge _ _)) by len_lia. rewrite BeUint32_be, eff_bind_lift by done.
  by destruct (typeid =? RtmpTypeIdWinAckSize).
Qed.

Lemma client_user_control ev v s tr :
  patient s → is_u16 ev → ev ≠ RtmpUserControlPingRequest →
  client_msg (control_msg RtmpTypeIdUserControl (be_bytes 2 ev ++ be_bytes 4 v)) (s, tr) = ((s, tr), Ret tt).
Proof.
  intros Hp Hv Hne. unfold client_msg, ClientSession.doMsg. rewrite (eff_bind_Ret _ _ _ _ _ (client_no_ack s tr Hp)).
  unfold control_msg, packed_header. cbn [msgPayload msgHeader MsgTypeId].
  cbn [Z.eqb Pos.eqb orb RtmpTypeIdUserControl RtmpTypeIdWinAckSize RtmpTypeIdBandwidth RtmpTypeIdSetChunkSize
    RtmpTypeIdCommandMessageAmf0 RtmpTypeIdMetadata RtmpTypeIdAck].
  unfold ClientSession.doUserControl. rewrite BeUint16_be, eff_bind_lift by done.
  by rewrite (proj2 (Z.eqb_neq _ _)).
Qed.

Lemma client_connect_result s tr :
  command_ok ver (ConnectResult 1 0) → command_ok ver CreateStream → patient s →
  MessagePacker.ready (ClientSession.packer s) →
  ∃ b, MessagePacker.ready b ∧ client_msg (ServerSession.command_msg ver (ConnectResult 1 0)) (s, tr) =
    ((ClientSession.set_packer s b, tr ++ [ClientSession.EvWrite (ServerSession.command_wire ver CreateStream)]), Ret tt).
Proof.
  intros Hc Hcs Hp Hr. pose proof (command_items_ok ver _ Hc) as Hi. cbn [command_items] in Hi.
  do 2 apply List.Forall_cons_iff in Hi as [_ Hi]. apply List.Forall_cons_iff in Hi as [Ho1 Hi].
  apply List.Forall_cons_iff in Hi as [Ho2 _].
  rewrite (client_command (ConnectResult 1 0) (str "_result") 1
    [IObj connect_result_pairs1; IObj (connect_result_pairs2 ver 0)]) by (done || by vm_compute).
  change (bool_decide (str "_result" = str "onBWDone")) with false.
  change (bool_decide (str "_result" = str "_result")) with true. cbv iota.
  unfold ClientSession.doResultMessage, items_bytes. cbn [map concat].
  change (1 =? ClientSession.tidClientConnect) with true. cbv iota.
  rewrite ServerSession.readObjectWithType_spec, eff_bind_lift by done.
  rewrite ServerSession.readObjectWithType_spec, eff_bind_lift by done.
  assert (Ef : FindString (map read_back_pair (connect_result_pairs2 ver 0)) (str "code") =
    Ret (str "NetConnection.Connect.Success")) by reflexivity.
  rewrite Ef, eff_bind_lift. rewrite bool_decide_true by done.
  exact (client_sends_command CreateStream s tr Hcs Hr).
Qed.

Lemma client_create_stream_result s tr :
  command_ok ver (CreateStreamResult 2) → patient s →
  client_msg (ServerSession.command_msg ver (CreateStreamResult 2)) (s, tr) =
  (match ClientSession.BaseType s with
   | ClientSession.SessionBaseTypePush => ClientSession.sends (send_command ver cconn
       (Publish (ClientSession.appName s) (ClientSession.streamNameWithRawQuery s) Msid1))
   | ClientSession.SessionBaseTypePull => ClientSession.sends (send_command ver cconn
       (Play (ClientSession.streamNameWithRawQuery s) Msid1))
   end) (s, tr).
Proof.
  intros Hc Hp. rewrite (client_command (CreateStreamResult 2) (str "_result") 2 [INull; INum 1])
    by (done || by vm_compute).
  change (bool_decide (str "_result" = str "onBWDone")) with false.
  change (bool_decide (str "_result" = str "_result")) with true. cbv iota.
  unfold ClientSession.doResultMessage.
  change (items_bytes [INull; INum 1]) with (item_bytes INull ++ item_bytes (INum 1) ++ []).
  change (2 =? ClientSession.tidClientConnect) with false.
  change (2 =? ClientSession.tidClientCreateStream) with true. cbv iota.
  rewrite ServerSession.readNull_spec, eff_bind_lift.
  rewrite ServerSession.readNumberWithType_spec, eff_bind_lift by (by vm_compute).
  unfold ClientSession.get. ServerSession.run. by destruct (ClientSession.BaseType s).
Qed.

Lemma client_on_status cmd code desc s tr :
  patient s → ClientSession.hasNotifyDoResultSucc s = false → command_ok ver cmd →
  command_items ver cmd = [IStr (str "onStatus"); INum 0; INull; IObj (on_status_pairs code desc)] →
  (ClientSession.BaseType s = ClientSession.SessionBaseTypePush ∧ code = str "NetStream.Publish.Start" ∨
   ClientSession.BaseType s = ClientSession.SessionBaseTypePull ∧ code = str "NetStream.Play.Start") →
  client_msg (ServerSession.command_msg ver cmd) (s, tr) =
  ((ClientSession.set_notified s, tr ++ [ClientSession.EvDoResult]), Ret tt).
Proof.
  intros Hp Hn Hc Hi Hcode. pose proof (command_items_ok ver _ Hc) as Hok. rewrite Hi in Hok.
  do 3 apply List.Forall_cons_iff in Hok as [_ Hok]. apply List.Forall_cons_iff in Hok as [Ho _].
  rewrite (client_command cmd (str "onStatus") 0 [INull; IObj (on_status_pairs code desc)])
    by (done || by vm_compute).
  change (bool_decide (str "onStatus" = str "onBWDone")) with false.
  change (bool_decide (str "onStatus" = str "_result")) with false.
  change (bool_decide (str "onStatus" = str "onStatus")) with true. cbv iota.
  unfold ClientSession.doOnStatusMessage.
  change (items_bytes [INull; IObj (on_status_pairs code desc)]) with
    (item_bytes INull ++ item_bytes (IObj (on_status_pairs code desc)) ++ []).
  rewrite ServerSession.readNull_spec, eff_bind_lift.
  rewrite ServerSession.readObjectWithType_spec, eff_bind_lift by done.
  assert (Ef : FindString (map read_back_pair (on_status_pairs code desc)) (str "code") = Ret code) by reflexivity.
  rewrite Ef, eff_bind_lift. unfold ClientSession.notifyDoResultSucc, ClientSession.get. ServerSession.run.
  destruct Hcode as [[-> ->]|[-> ->]]; rewrite bool_decide_true by done; cbn [fst]; by rewrite Hn.
Qed.

(** ** One message of one side *)

Lemma client_bytes_new tr ev : client_bytes (drop (length tr) (tr ++ ev)) = client_bytes ev.
Proof. by rewrite drop_app_length. Qed.
Lemma server_bytes_new tr ev : server_bytes (drop (length tr) (tr ++ ev)) = server_bytes ev.
Proof. by rewrite drop_app_length. Qed.

Lemma client_reads P m n cc rest s tr s' ev sc sw :
  0 < n → at_rest n cc → msg_ok m → client_msg m (s, tr) = ((s', tr ++ ev), Ret tt) →
  (∀ cc', at_rest n cc' → eventually P (mkSystem cc' (s', tr ++ ev) rest sc sw (client_bytes ev))) →
  eventually P (mkSystem cc (s, tr) (msg_wire n m ++ rest) sc sw []).
Proof.
  intros Hn Hc Hm E HP. destruct (serves_msg client_msg m n cc rest (s, tr) _ Hn Hc Hm E) as (c' & Hc' & Hs).
  apply (client_serves P _ _ _ _ _ _ _ _ Hs). cbn [snd]. rewrite client_bytes_new. by apply HP.
Qed.

Lemma server_reads P m n sc rest s tr s' ev cc cw :
  0 < n → at_rest n sc → msg_ok m → server_msg m (s, tr) = ((s', tr ++ ev), Ret tt) →
  (∀ sc', at_rest n sc' → eventually P (mkSystem cc cw (server_bytes ev) sc' (s', tr ++ ev) rest)) →
  eventually P (mkSystem cc cw [] sc (s, tr) (msg_wire n m ++ rest)).
Proof.
  intros Hn Hc Hm E HP. destruct (serves_msg server_msg m n sc rest (s, tr) _ Hn Hc Hm E) as (c' & Hc' & Hs).
  apply (server_serves P _ _ _ _ _ _ _ _ Hs). cbn [snd]. rewrite server_bytes_new. by apply HP.
Qed.

Definition window_msg : RtmpMsg :=
  control_msg RtmpTypeIdWinAckSize (be_bytes 4 ServerSession.windowAcknowledgementSize).
Definition bandwidth_msg : RtmpMsg :=
  control_msg RtmpTypeIdBandwidth
    (be_bytes 4 ServerSession.peerBandwidth ++ [ServerSession.peerBandwidthLimitTypeDynamic]).
Definition user_msg (ev : Z) : RtmpMsg :=
  control_msg RtmpTypeIdUserControl (be_bytes 2 ev ++ be_bytes 4 Msid1).

Lemma window_msg_ok : msg_ok window_msg.
Proof. unfold msg_ok, header_ok, csid_ok, ts_ok, ordinary. cbn. repeat split; (lia || done). Qed.
Lemma bandwidth_msg_ok : msg_ok bandwidth_msg.
Proof. unfold msg_ok, header_ok, csid_ok, ts_ok, ordinary. cbn. repeat split; (lia || done). Qed.
Lemma user_msg_ok ev : msg_ok (user_msg ev).
Proof. unfold msg_ok, header_ok, csid_ok, ts_ok, ordinary. cbn. repeat split; (lia || done). Qed.

Definition chunk_size_msg : RtmpMsg := control_msg RtmpTypeIdSetChunkSize (be_bytes 4 LocalChunkSize).

Lemma client_reads_chunk_size P cc rest s tr sc sw :
  at_rest defaultChunkSize cc → patient s →
  (∀ cc', at_rest LocalChunkSize cc' → eventually P (mkSystem cc' (s, tr) rest sc sw [])) →
  eventually P (mkSystem cc (s, tr) (ServerSession.chunk_size_wire ++ rest) sc sw []).
Proof.
  intros Hc Hp HP.
  assert (E : client_msg chunk_size_msg (s, tr) = ((s, tr), Ret tt)).
  { unfold chunk_size_msg. rewrite <- (app_nil_r (be_bytes 4 LocalChunkSize)). rewrite client_control; auto. done. }
  destruct (serves_chunk_size client_msg (msgHeader chunk_size_msg) LocalChunkSize cc rest (s, tr) (s, tr) defaultChunkSize)
    as (c' & Hc' & Hs); try done.
  apply (client_serves P _ _ _ _ _ _ _ _ Hs). rewrite drop_all. by apply HP.
Qed.

Lemma server_reads_chunk_size P sc rest s tr cc cw :
  at_rest defaultChunkSize sc → ServerSession.peerWinAckSize s ≤ 0 →
  (∀ sc', at_rest LocalChunkSize sc' → eventually P (mkSystem cc cw [] sc' (s, tr) rest)) →
  eventually P (mkSystem cc cw [] sc (s, tr) (ServerSession.chunk_size_wire ++ rest)).
Proof.
  intros Hc Hp HP.
  assert (E : server_msg chunk_size_msg (s, tr) = ((s, tr), Ret tt)).
  { unfold server_msg, ServerSession.doMsg. by rewrite (eff_bind_Ret _ _ _ _ _ (ServerSession.no_ack sconn s tr Hp)). }
  destruct (serves_chunk_size server_msg (msgHeader chunk_size_msg) LocalChunkSize sc rest (s, tr) (s, tr) defaultChunkSize)
    as (c' & Hc' & Hs); try done.
  apply (server_serves P _ _ _ _ _ _ _ _ Hs). rewrite drop_all. by apply HP.
Qed.

(** ** The dialogue *)

Variable t : ClientSession.SessionType.
Variable u : ClientSession.UrlContext.

Definition client0 : ClientSession.ClientSession := ClientSession.NewClientSession t u 0.
Definition app : list Z := ClientSession.appName client0.
Definition url : list Z := ClientSession.tcUrl client0.
Definition name : list Z := ClientSession.streamNameWithRawQuery client0.
Definition push : bool := ClientSession.isPush client0.

(** Both sides after the handshake, the client having written its first two messages. *)
Definition connected (cw : ClientSession.World) : System :=
  mkSystem NewChunkComposer cw [] NewChunkComposer (ServerSession.NewServerSession, []) (client_bytes cw.2).

Hypothesis Hconnect : command_ok ver (Connect app url push).

Lemma at_rest_new : at_rest defaultChunkSize NewChunkComposer.
Proof. split; [done|apply quiet_new]. Qed.

Lemma connect_writes_spec :
  ∃ b, MessagePacker.ready b ∧ ClientSession.connect_writes ver cconn (client0, []) =
    ((ClientSession.set_packer client0 b,
      [ClientSession.EvWrite ServerSession.chunk_size_wire;
       ClientSession.EvWrite (ServerSession.command_wire ver (Connect app url push))]), Ret tt).
Proof.
  unfold ClientSession.connect_writes.
  destruct (client_sends (λ b, WriteBe 4 (u32 LocalChunkSize) b) (be_bytes 4 LocalChunkSize)
    csidProtocolControl RtmpTypeIdSetChunkSize 0 client0 []) as (b & Hb & E); try done;
    [by apply (appends_be (M := 256))|].
  unfold writeChunkSize, writeProtocolControlMessage. rewrite (eff_bind_Ret _ _ _ _ _ E).
  destruct (client_sends_command (Connect app url push) (ClientSession.set_packer client0 b)
    [ClientSession.EvWrite ServerSession.chunk_size_wire] Hconnect Hb) as (b' & Hb' & E').
  exists b'. split; [done|]. exact E'.
Qed.

(** The commands and answers of the dialogue fit. *)
Lemma dialogue_ok :
  command_ok ver (ConnectResult 1 0) ∧ command_ok ver CreateStream ∧ command_ok ver (CreateStreamResult 2) ∧
  command_ok ver (OnStatusPublish Msid1) ∧ command_ok ver (OnStatusPlay Msid1).
Proof. destruct Hconnect as (H1 & H2 & _). by repeat split. Qed.

(** Up to the client's publish or play. *)
Lemma until_stream P b :
  MessagePacker.ready b →
  (∀ b1 b2 sc cc st0 cs, MessagePacker.ready b1 → MessagePacker.ready b2 →
     at_rest LocalChunkSize sc → at_rest LocalChunkSize cc → patient cs →
     ClientSession.BaseType cs = t → ClientSession.urlCtx cs = u → ClientSession.packer cs = b2 →
     ClientSession.hasNotifyDoResultSucc cs = false →
     eventually P (mkSystem cc
       (cs, [ClientSession.EvWrite ServerSession.chunk_size_wire;
        ClientSession.EvWrite (ServerSession.command_wire ver (Connect app url push));
        ClientSession.EvWrite (ServerSession.command_wire ver CreateStream)])
       (ServerSession.command_wire ver (CreateStreamResult 2)) sc
       (ServerSession.set_packer (ServerSession.set_names ServerSession.NewServerSession [] url [] app [] []) b1, st0) [])) →
  eventually P (connected (ClientSession.set_packer client0 b,
      [ClientSession.EvWrite ServerSession.chunk_size_wire;
       ClientSession.EvWrite (ServerSession.command_wire ver (Connect app url push))])).
Proof.
  intros Hb HP. destruct dialogue_ok as (Hr1 & Hcs & Hr2 & _).
  unfold connected. cbn [snd client_bytes map concat].
  apply server_reads_chunk_size; [apply at_rest_new|done|]. intros sc1 Hsc1.
  destruct (ServerSession.doConnect_spec ver sconn Hsconn 1 app url push ServerSession.NewServerSession []
    Hconnect Hr1 ready_new) as (b1 & R1 & E1).
  eapply (server_reads P (ServerSession.command_msg ver (Connect app url push)) LocalChunkSize);
    [done|done|by apply ServerSession.command_msg_ok| |].
  { unfold server_msg. rewrite (ServerSession.doMsg_command ver sconn (Connect app url push) (str "connect") 1
      [IObj (connect_pairs ver app url push)]) by (by vm_compute). exact E1. }
  intros sc2 Hsc2. set (s1 := ServerSession.set_packer _ b1) in *.
  set (cs0 := ClientSession.set_packer client0 b). set (tr0 := [_; _]).
  assert (Hp0 : patient cs0) by (split; [by left|done]).
  assert (Eb : server_bytes (ServerSession.connect_events ver app url push 1) =
    msg_wire defaultChunkSize window_msg ++ msg_wire defaultChunkSize bandwidth_msg ++
    ServerSession.chunk_size_wire ++ ServerSession.command_wire ver (ConnectResult 1 0)).
  { unfold server_bytes, ServerSession.connect_events. cbn [map concat]. by rewrite app_nil_l, app_nil_r. }
  rewrite Eb. clear Eb.
  set (cs1 := ClientSession.set_acks cs0 ServerSession.windowAcknowledgementSize 0 0).
  apply (client_reads P window_msg defaultChunkSize NewChunkComposer _ cs0 tr0 cs1 []);
    [done|apply at_rest_new|apply window_msg_ok| |].
  { rewrite app_nil_r. unfold window_msg. rewrite <- (app_nil_r (be_bytes 4 _)).
    rewrite client_control; [done|done|done|by left]. }
  intros cc1 Hcc1. rewrite app_nil_r.
  assert (Hp1 : patient cs1) by (split; [by right|done]).
  apply (client_reads P bandwidth_msg defaultChunkSize cc1 _ cs1 tr0 cs1 []);
    [done|done|apply bandwidth_msg_ok| |].
  { rewrite app_nil_r. unfold bandwidth_msg. rewrite client_control; [done|done|done|by right; left]. }
  intros cc2 Hcc2. rewrite app_nil_r. apply client_reads_chunk_size; [done|done|]. intros cc3 Hcc3.
  destruct (client_connect_result cs1 tr0 Hr1 Hcs Hp1 Hb) as (b2 & R2 & E2).
  rewrite <- (app_nil_r (ServerSession.command_wire ver (ConnectResult 1 0))).
  eapply (client_reads P (ServerSession.command_msg ver (ConnectResult 1 0)) LocalChunkSize);
    [done|done|by apply ServerSession.command_msg_ok|exact E2|].
  intros cc4 Hcc4. cbn [client_bytes map concat]. 
  destruct (ServerSession.doCreateStream_spec ver sconn Hsconn 2 s1
    (ServerSession.connect_events ver app url push 1) Hr2 R1) as (b3 & R3 & E3).
  eapply (server_reads P (ServerSession.command_msg ver CreateStream) LocalChunkSize);
    [done|done|by apply ServerSession.command_msg_ok| |].
  { unfold server_msg. rewrite (ServerSession.doMsg_command ver sconn CreateStream (str "createStream") 2 [INull])
      by (by vm_compute). exact E3. }
  intros sc3 Hsc3. cbn [server_bytes map concat]. rewrite app_nil_r.
  by apply (HP b3 b2 sc3 cc4 _ (ClientSession.set_packer cs1 b2)).
Qed.

(** A push: connected until the server has a publisher and the client knows. *)
Lemma push_eventually b :
  MessagePacker.ready b → t = ClientSession.SessionBaseTypePush → command_ok ver (Publish app name Msid1) →
  (∀ s, ServerSession.OnNewRtmpPubSession s = (None, true)) →
  eventually (λ st,
    cunread st = [] ∧ sunread st = [] ∧ ClientSession.EvDoResult ∈ (cworld st).2 ∧
    ServerSession.baseType (sworld st).1 = ServerSession.SessionBaseTypePub ∧
    ServerSession.avObserver (sworld st).1 = true ∧
    ServerSession.EvNewPub app (hd [] (ServerSession.split_query name)) ∈ (sworld st).2)
    (connected (ClientSession.set_packer client0 b,
      [ClientSession.EvWrite ServerSession.chunk_size_wire;
       ClientSession.EvWrite (ServerSession.command_wire ver (Connect app url push))])).
Proof.
  intros Hb Ht Hpub HO. destruct dialogue_ok as (_ & _ & Hr2 & Hst & _).
  apply until_stream; [done|]. intros b1 b2 sc cc st0 cs R1 R2 Hsc Hcc Hp Hbt Hu Hpk Hn.
  rewrite <- (app_nil_r (ServerSession.command_wire ver (CreateStreamResult 2))).
  assert (Ea : ClientSession.appName cs = app) by (unfold ClientSession.appName; by rewrite Hu).
  assert (En : ClientSession.streamNameWithRawQuery cs = name)
    by (unfold ClientSession.streamNameWithRawQuery; by rewrite Hu).
  pose proof (client_create_stream_result cs) as E1.
  set (tr := [_; _; _]). specialize (E1 tr Hr2 Hp). rewrite Hbt, Ht, Ea, En in E1.
  destruct (client_sends_command (Publish app name Msid1) cs tr Hpub ltac:(by rewrite Hpk)) as (b3 & R3 & E2).
  rewrite E2 in E1.
  eapply (client_reads _ (ServerSession.command_msg ver (CreateStreamResult 2)) LocalChunkSize);
    [done|done|by apply ServerSession.command_msg_ok|exact E1|].
  intros cc1 Hcc1. cbn [client_bytes map concat].
  set (s2 := ServerSession.set_packer _ b1).
  destruct (ServerSession.doPublish_spec ver sconn Hsconn 3 app name Msid1 s2 st0 Hpub HO R1) as (b4 & R4 & E4).
  eapply (server_reads _ (ServerSession.command_msg ver (Publish app name Msid1)) LocalChunkSize);
    [done|done|by apply ServerSession.command_msg_ok| |].
  { unfold server_msg. rewrite (ServerSession.doMsg_command ver sconn (Publish app name Msid1) (str "publish") 3
      [INull; IStr name; IStr (str "live")]) by (by vm_compute). exact E4. }
  intros sc1 Hsc1. cbn [server_bytes map concat]. rewrite app_nil_l.
  eapply (client_reads _ (ServerSession.command_msg ver (OnStatusPublish Msid1)) LocalChunkSize);
    [done|done|by apply ServerSession.command_msg_ok| |].
  { apply (client_on_status _ (str "NetStream.Publish.Start") (str "Start publishing")); try done.
    left. split; [by rewrite <- Ht|done]. }
  intros cc2 Hcc2. apply now. cbn [cunread sunread cworld sworld fst snd]. split; [done|]. split; [done|].
  split; [apply elem_of_app; right; by left|]. split; [done|]. split; [done|].
  apply elem_of_app. right. right. by left.
Qed.

(** A pull: until the server has a subscriber and the client knows. *)
Lemma pull_eventually b :
  MessagePacker.ready b → t = ClientSession.SessionBaseTypePull → command_ok ver (Play name Msid1) →
  (∀ s, ServerSession.OnNewRtmpSubSession s = None) →
  eventually (λ st,
    cunread st = [] ∧ sunread st = [] ∧ ClientSession.EvDoResult ∈ (cworld st).2 ∧
    ServerSession.baseType (sworld st).1 = ServerSession.SessionBaseTypeSub ∧
    ServerSession.EvNewSub app (hd [] (ServerSession.split_query name)) ∈ (sworld st).2)
    (connected (ClientSession.set_packer client0 b,
      [ClientSession.EvWrite ServerSession.chunk_size_wire;
       ClientSession.EvWrite (ServerSession.command_wire ver (Connect app url push))])).
Proof.
  intros Hb Ht Hplay HO. destruct dialogue_ok as (_ & _ & Hr2 & _ & Hst).
  apply until_stream; [done|]. intros b1 b2 sc cc st0 cs R1 R2 Hsc Hcc Hp Hbt Hu Hpk Hn.
  rewrite <- (app_nil_r (ServerSession.command_wire ver (CreateStreamResult 2))).
  assert (En : ClientSession.streamNameWithRawQuery cs = name)
    by (unfold ClientSession.streamNameWithRawQuery; by rewrite Hu).
  pose proof (client_create_stream_result cs) as E1.
  set (tr := [_; _; _]). specialize (E1 tr Hr2 Hp). rewrite Hbt, Ht, En in E1.
  destruct (client_sends_command (Play name Msid1) cs tr Hplay ltac:(by rewrite Hpk)) as (b3 & R3 & E2).
  rewrite E2 in E1.
  eapply (client_reads _ (ServerSession.command_msg ver (CreateStreamResult 2)) LocalChunkSize);
    [done|done|by apply ServerSession.command_msg_ok|exact E1|].
  intros cc1 Hcc1. cbn [client_bytes map concat].
  set (s2 := ServerSession.set_packer _ b1).
  destruct (ServerSession.doPlay_spec ver sconn Hsconn 3 name Msid1 s2 st0 Hplay HO R1) as (b4 & R4 & E4).
  eapply (server_reads _ (ServerSession.command_msg ver (Play name Msid1)) LocalChunkSize);
    [done|done|by apply ServerSession.command_msg_ok| |].
  { unfold server_msg. rewrite (ServerSession.doMsg_command ver sconn (Play name Msid1) (str "play") 3
      [INull; IStr name]) by (by vm_compute). exact E4. }
  intros sc1 Hsc1. cbn [server_bytes map concat]. rewrite app_nil_l, app_nil_r.
  change (ServerSession.control_wire RtmpTypeIdUserControl (be_bytes 2 ?e ++ be_bytes 4 Msid1))
    with (msg_wire LocalChunkSize (user_msg e)).
  assert (Hp3 : patient (ClientSession.set_packer cs b3)) by exact Hp.
  assert (Eu : ∀ e tr, is_u16 e → e ≠ RtmpUserControlPingRequest →
    client_msg (user_msg e) (ClientSession.set_packer cs b3, tr) = ((ClientSession.set_packer cs b3, tr ++ []), Ret tt)).
  { intros e tr' He Hne. rewrite app_nil_r. by apply client_user_control. }
  eapply (client_reads _ (user_msg RtmpUserControlRecorded) LocalChunkSize);
    [done|done|apply user_msg_ok|by apply Eu|]. intros cc2 Hcc2.
  eapply (client_reads _ (user_msg RtmpUserControlStreamBegin) LocalChunkSize);
    [done|done|apply user_msg_ok|by apply Eu|]. intros cc3 Hcc3.
  rewrite !app_nil_r. rewrite <- (app_nil_r (ServerSession.command_wire ver (OnStatusPlay Msid1))).
  eapply (client_reads _ (ServerSession.command_msg ver (OnStatusPlay Msid1)) LocalChunkSize);
    [done|done|by apply ServerSession.command_msg_ok| |].
  { apply (client_on_status _ (str "NetStream.Play.Start") (str "Start live")); try done.
    right. split; [by rewrite <- Ht|done]. }
  intros cc4 Hcc4. apply now. cbn [cunread sunread cworld sworld fst snd]. split; [done|]. split; [done|].
  split; [apply elem_of_app; right; by left|]. split; [done|].
  apply elem_of_app. right. do 3 right. by left.
Qed.
End System.

(** C9: A pushing client and a server, connected to each other after the handshake,
    reach, however the turns of their read loops interleave, a state where the server
    has announced the publisher under its application and stream name and takes its
    media, the client's [Start] is released, and neither has anything left to read.
    No deadlock, no error and no message left over on the way.  The connections take
    all bytes, too few are read for an acknowledgement to be due, the observer accepts
    the publisher, and the application, the URL and the name have at most 256 bytes. *)
Theorem rtmp_push_live {B : Bele} (HB : BeleLaws B) {BS : BeleStream} (HBS : BeleStreamLaws BS)
    {NB : NazaBuffer} (HNB : NazaBufferLaws NB) {SK : ServerSession.MsgSkip} (HSK : ServerSession.MsgSkipLaws SK)
    {O : ServerSession.Observer} {C : ClientSession.Client} ver cconn sconn reconnect u :
  let c := ClientSession.NewClientSession ClientSession.SessionBaseTypePush u 0 in
  let app := ClientSession.appName c in
  let name := ClientSession.streamNameWithRawQuery c in
  accepts cconn → accepts sconn → (∀ w, 0 ≤ ClientSession.ReadBytesSum w < 2500000) →
  (∀ s, ServerSession.OnNewRtmpPubSession s = (None, true)) →
  command_ok ver (Connect app (ClientSession.tcUrl c) true) → command_ok ver (Publish app name Msid1) →
  ∃ cw, ClientSession.connect_writes ver cconn (c, []) = (cw, Ret tt) ∧
    eventually ver cconn sconn reconnect (λ st,
      cunread st = [] ∧ sunread st = [] ∧ ClientSession.EvDoResult ∈ (cworld st).2 ∧
      ServerSession.baseType (sworld st).1 = ServerSession.SessionBaseTypePub ∧
      ServerSession.avObserver (sworld st).1 = true ∧
      ServerSession.EvNewPub app (hd [] (ServerSession.split_query name)) ∈ (sworld st).2)
    (connected cw).
Proof.
  cbv zeta. intros Hcc Hsc Hread HO Hconnect Hpub.
  destruct (connect_writes_spec ver cconn Hcc ClientSession.SessionBaseTypePush u Hconnect) as (b & Hb & E).
  eexists. split; [exact E|].
  by apply (push_eventually ver cconn sconn reconnect Hcc Hsc Hread ClientSession.SessionBaseTypePush u Hconnect).
Qed.

(** A pulling client and a server likewise reach a state where the server has
    announced the subscriber and the client's [Start] is released. *)
Theorem rtmp_pull_live {B : Bele} (HB : BeleLaws B) {BS : BeleStream} (HBS : BeleStreamLaws BS)
    {NB : NazaBuffer} (HNB : NazaBufferLaws NB) {SK : ServerSession.MsgSkip} (HSK : ServerSession.MsgSkipLaws SK)
    {O : ServerSession.Observer} {C : ClientSession.Client} ver cconn sconn reconnect u :
  let c := ClientSession.NewClientSession ClientSession.SessionBaseTypePull u 0 in
  let app := ClientSession.appName c in
  let name := ClientSession.streamNameWithRawQuery c in
  accepts cconn → accepts sconn → (∀ w, 0 ≤ ClientSession.ReadBytesSum w < 2500000) →
  (∀ s, ServerSession.OnNewRtmpSubSession s = None) →
  command_ok ver (Connect app (ClientSession.tcUrl c) false) → command_ok ver (Play name Msid1) →
  ∃ cw, ClientSession.connect_writes ver cconn (c, []) = (cw, Ret tt) ∧
    eventually ver cconn sconn reconnect (λ st,
      cunread st = [] ∧ sunread st = [] ∧ ClientSession.EvDoResult ∈ (cworld st).2 ∧
      ServerSession.baseType (sworld st).1 = ServerSession.SessionBaseTypeSub ∧
      ServerSession.EvNewSub app (hd [] (ServerSession.split_query name)) ∈ (sworld st).2)
    (connected cw).
Proof.
  cbv zeta. intros Hcc Hsc Hread HO Hconnect Hplay.
  destruct (connect_writes_spec ver cconn Hcc ClientSession.SessionBaseTypePull u Hconnect) as (b & Hb & E).
  eexists. split; [exact E|].
  by apply (pull_eventually ver cconn sconn reconnect Hcc Hsc Hread ClientSession.SessionBaseTypePull u Hconnect).
Qed.

(** ** Witnesses *)

Lemma rtmp_push_live_witness :
  ∃ cw, @ClientSession.connect_writes bele_impl bele_stream_impl demo_versions demo_conn
      (ClientSession.NewClientSession ClientSession.SessionBaseTypePush ClientSession.demo_url 0, []) = (cw, Ret tt) ∧
    @eventually bele_impl bele_stream_impl buffer_impl ServerSession.msg_skip_impl ServerSession.demo_observer
      ClientSession.demo_client demo_versions demo_conn demo_conn (mret tt) (λ st,
      cunread st = [] ∧ sunread st = [] ∧ ClientSession.EvDoResult ∈ (cworld st).2 ∧
      ServerSession.baseType (sworld st).1 = ServerSession.SessionBaseTypePub ∧
      ServerSession.avObserver (sworld st).1 = true ∧
      ServerSession.EvNewPub (str "live") (str "a") ∈ (sworld st).2)
    (connected cw).
Proof.
  apply (@rtmp_push_live bele_impl bele_impl_laws bele_stream_impl bele_stream_impl_laws buffer_impl
    buffer_impl_laws ServerSession.msg_skip_impl ServerSession.msg_skip_impl_laws ServerSession.demo_observer
    ClientSession.demo_client demo_versions demo_conn demo_conn (mret tt) ClientSession.demo_url);
    try (intros ?; reflexivity).
  - intros w. cbn. lia.
  - repeat split; vm_compute; congruence.
  - repeat split; vm_compute; congruence.
Defined.

Lemma rtmp_pull_live_witness :
  ∃ cw, @ClientSession.connect_writes bele_impl bele_stream_impl demo_versions demo_conn
      (ClientSession.NewClientSession ClientSession.SessionBaseTypePull ClientSession.demo_url 0, []) = (cw, Ret tt) ∧
    @eventually bele_impl bele_stream_impl buffer_impl ServerSession.msg_skip_impl ServerSession.demo_observer
      ClientSession.demo_client demo_versions demo_conn demo_conn (mret tt) (λ st,
      cunread st = [] ∧ sunread st = [] ∧ ClientSession.EvDoResult ∈ (cworld st).2 ∧
      ServerSession.baseType (sworld st).1 = ServerSession.SessionBaseTypeSub ∧
      ServerSession.EvNewSub (str "live") (str "a") ∈ (sworld st).2)
    (connected cw).
Proof.
  apply (@rtmp_pull_live bele_impl bele_impl_laws bele_stream_impl bele_stream_impl_laws buffer_impl
    buffer_impl_laws ServerSession.msg_skip_impl ServerSession.msg_skip_impl_laws ServerSession.demo_observer
    ClientSession.demo_client demo_versions demo_conn demo_conn (mret tt) ClientSession.demo_url);
    try (intros ?; reflexivity).
  - intros w. cbn. lia.
  - repeat split; vm_compute; congruence.
  - repeat split; vm_compute; congruence.
Defined.
