(* ===== verification/DummyAudio.v ===== *)
(** * The dummy audio filter (src/pkg/remux/dummy_audio_filter.go)

    Messages are held back until an audio message shows up, after which all go
    through unchanged, or until the video has lasted [waitAudioMs]; then the
    filter makes silent AAC frames of 1024 samples at 48 kHz itself.

    [onPop] is the observer's callback; it never touches the filter, so an effect
    here ends with the list of the messages popped.  The timestamps of the silent
    frames are [t0 + floor(64 k / 3)] ([silent_ts]). *)

From S2P Require Import Prelude RtmpMsg.
From S2P Require FlvRemux.

Inductive Stage := StageAnalysis | StageNormal | StageDummy.

Definition MaxUint32 : Z := 4294967295.

Record DummyAudioFilter := mkFilter {
  waitAudioMs : Z;
  stage : Stage;
  earlyStageQueue : list RtmpMsg;
  firstVideoTs : Z;
  prevAudioTs : Z;
  audioCount : Z;
}.

Definition NewDummyAudioFilter (waitAudioMs : Z) : DummyAudioFilter :=
  mkFilter waitAudioMs StageAnalysis [] MaxUint32 MaxUint32 0.

Definition set_stage (f : DummyAudioFilter) (s : Stage) : DummyAudioFilter :=
  mkFilter (waitAudioMs f) s (earlyStageQueue f) (firstVideoTs f) (prevAudioTs f) (audioCount f).
Definition set_queue (f : DummyAudioFilter) (q : list RtmpMsg) : DummyAudioFilter :=
  mkFilter (waitAudioMs f) (stage f) q (firstVideoTs f) (prevAudioTs f) (audioCount f).
Definition set_first (f : DummyAudioFilter) (ts : Z) : DummyAudioFilter :=
  mkFilter (waitAudioMs f) (stage f) (earlyStageQueue f) ts (prevAudioTs f) (audioCount f).
Definition set_prev (f : DummyAudioFilter) (ts : Z) : DummyAudioFilter :=
  mkFilter (waitAudioMs f) (stage f) (earlyStageQueue f) (firstVideoTs f) ts (audioCount f).
Definition set_count (f : DummyAudioFilter) (n : Z) : DummyAudioFilter :=
  mkFilter (waitAudioMs f) (stage f) (earlyStageQueue f) (firstVideoTs f) (prevAudioTs f) n.

(** The filter and the messages popped. *)
Definition World : Type := DummyAudioFilter * list RtmpMsg.
Definition get : eff World DummyAudioFilter := λ w, (w, Ret w.1).
Definition modify (g : DummyAudioFilter → DummyAudioFilter) : eff World unit := λ '(f, out), ((g f, out), Ret tt).
Definition onPopProxy (msg : RtmpMsg) : eff World unit := λ '(f, out), ((f, out ++ [msg]), Ret tt).

Definition cache (msg : RtmpMsg) : eff World unit :=
  modify (λ f, set_queue f (earlyStageQueue f ++ [Clone msg])).
Definition clearCache : eff World unit := modify (λ f, set_queue f []).

(** AAC LC, 48000 Hz, stereo. *)
Definition makeAudioSeqHeader (ts : Z) : RtmpMsg :=
  mkRtmpMsg (mkRtmpHeader FlvRemux.CsidAudio 4 RtmpTypeIdAudio FlvRemux.Msid1 ts) [175; 0; 17; 144].

Definition silent_msg (ts : Z) : RtmpMsg :=
  mkRtmpMsg (mkRtmpHeader FlvRemux.CsidAudio 8 RtmpTypeIdAudio FlvRemux.Msid1 ts) [175; 1; 33; 16; 4; 96; 140; 28].
Definition makeOneAudio (ts : Z) : eff World RtmpMsg :=
  _ ← modify (λ f, set_count f (audioCount f + 1));
  mret (silent_msg ts).

Definition calcAudioDurationMs (f : DummyAudioFilter) : Z :=
  let v := Z.rem (audioCount f) 3 in if (v =? 1) || (v =? 2) then 21 else 22.

(** The loop that catches up with the video. *)
Fixpoint catch_up (fuel : nat) (ts : Z) : eff World unit :=
  match fuel with
  | O => lift (Fail OutOfFuel)
  | S fuel =>
      f ← get;
      let ats := u32 (prevAudioTs f + calcAudioDurationMs f) in
      if ats >? ts then mret tt else
      amsg ← makeOneAudio ats;
      _ ← onPopProxy amsg;
      _ ← modify (λ f, set_prev f ats);
      catch_up fuel ts
  end.

Definition catch_up_fuel (ts : Z) : nat := Z.to_nat (ts / 21 + 2).

Definition handleDummyStage (msg : RtmpMsg) : eff World unit :=
  let t := MsgTypeId (msgHeader msg) in
  let ts := TimestampAbs (msgHeader msg) in
  if t =? RtmpTypeIdAudio then mret tt else
  if t =? RtmpTypeIdMetadata then onPopProxy msg else
  seqh ← lift (IsVideoKeySeqHeader msg);
  if seqh : bool then
    _ ← onPopProxy (makeAudioSeqHeader ts);
    onPopProxy msg
  else
    f ← get;
    if prevAudioTs f =? MaxUint32 then
      amsg ← makeOneAudio ts;
      _ ← onPopProxy amsg;
      _ ← onPopProxy msg;
      modify (λ f, set_prev f ts)
    else
      _ ← catch_up (catch_up_fuel ts) ts;
      onPopProxy msg.

Definition handleNormalStage (msg : RtmpMsg) : eff World unit := onPopProxy msg.

Fixpoint each (handle : RtmpMsg → eff World unit) (l : list RtmpMsg) : eff World unit :=
  match l with [] => mret tt | msg :: l => _ ← handle msg; each handle l end.

Definition handleAnalysisStage (msg : RtmpMsg) : eff World unit :=
  let t := MsgTypeId (msgHeader msg) in
  let ts := TimestampAbs (msgHeader msg) in
  if t =? RtmpTypeIdMetadata then cache msg
  else if t =? RtmpTypeIdAudio then
    f ← get;
    _ ← each onPopProxy (earlyStageQueue f);
    _ ← onPopProxy msg;
    modify (λ f, set_stage f StageNormal)
  else if t =? RtmpTypeIdVideo then
    seqh ← lift (IsVideoKeySeqHeader msg);
    if seqh : bool then cache msg else
    f ← get;
    if firstVideoTs f =? MaxUint32 then
      _ ← cache msg;
      modify (λ f, set_first f ts)
    else if u32 (ts - firstVideoTs f) <? u32 (waitAudioMs f) then cache msg
    else
      _ ← modify (λ f, set_stage f StageDummy);
      f ← get;
      _ ← each handleDummyStage (earlyStageQueue f);
      _ ← clearCache;
      handleDummyStage msg
  else mret tt.

Definition Feed (msg : RtmpMsg) : eff World unit :=
  f ← get;
  match stage f with
  | StageAnalysis => handleAnalysisStage msg
  | StageNormal => handleNormalStage msg
  | StageDummy => handleDummyStage msg
  end.

Definition OnReadRtmpAvMsg (msg : RtmpMsg) : eff World unit := Feed msg.

(** ** Specification *)

Definition is_audio (m : RtmpMsg) : bool := MsgTypeId (msgHeader m) =? RtmpTypeIdAudio.
(** The messages of [out] that came in, and the times of the silent frames. *)
Definition originals (out : list RtmpMsg) : list RtmpMsg := List.filter (λ m, negb (is_audio m)) out.
Definition silences (out : list RtmpMsg) : list Z :=
  omap (λ m, if is_audio m && bool_decide (len (msgPayload m) = 8) then Some (TimestampAbs (msgHeader m)) else None) out.

Definition silent_ts (t0 k : Z) : Z := t0 + 64 * k / 3.
(** The first [n] silent frames after [t0]. *)
Definition silent_seq (t0 : Z) (n : nat) : list Z := silent_ts t0 <$> (Z.of_nat <$> seq 0 n).

(** Video and metadata, the tests do not panic, more than a frame before the
    timestamps wrap around. *)
Record plain (m : RtmpMsg) : Prop := {
  pl_type : MsgTypeId (msgHeader m) = RtmpTypeIdVideo ∧ (∃ b, IsVideoKeySeqHeader m = Ret b) ∨
            MsgTypeId (msgHeader m) = RtmpTypeIdMetadata;
  pl_ts : 0 ≤ TimestampAbs (msgHeader m) ∧ TimestampAbs (msgHeader m) + 22 ≤ MaxUint32;
}.

(** The silent frames so far: none, or those from [t0] on, of which [prev] is the
    last. *)
Definition made (f : DummyAudioFilter) (out : list RtmpMsg) : Prop :=
  (audioCount f = 0 ∧ prevAudioTs f = MaxUint32 ∧ silences out = []) ∨
  (∃ t0 n, 0 ≤ t0 ∧ audioCount f = Z.of_nat (S n) ∧ prevAudioTs f = silent_ts t0 (Z.of_nat n) ∧
     prevAudioTs f + 22 ≤ MaxUint32 ∧ silences out = silent_seq t0 (S n)).

(** Silence reaches up to the time [ts]. *)
Definition covers (f : DummyAudioFilter) (ts : Z) : Prop :=
  prevAudioTs f ≠ MaxUint32 ∧ ts < prevAudioTs f + calcAudioDurationMs f.

Lemma originals_app a b : originals (a ++ b) = originals a ++ originals b.
Proof. apply List.filter_app. Qed.
Lemma silences_app a b : silences (a ++ b) = silences a ++ silences b.
Proof. apply omap_app. Qed.

Lemma silent_ts_next t0 n f : audioCount f = Z.of_nat (S n) →
  silent_ts t0 (Z.of_nat n) + calcAudioDurationMs f = silent_ts t0 (Z.of_nat (S n)).
Proof.
  intros E. unfold silent_ts, calcAudioDurationMs. rewrite E. rewrite Z.rem_mod_nonneg by lia.
  destruct (Z.eqb_spec (Z.of_nat (S n) mod 3) 1), (Z.eqb_spec (Z.of_nat (S n) mod 3) 2); cbn [orb];
    Z.div_mod_to_equations; lia.
Qed.

Lemma silent_seq_snoc t0 n : silent_seq t0 (S n) = silent_seq t0 n ++ [silent_ts t0 (Z.of_nat n)].
Proof. unfold silent_seq. by rewrite seq_S, !fmap_app. Qed.

(** [made] with at least one frame, while the originals are [l]. *)
Definition making (l : list RtmpMsg) : World → Prop := λ w,
  (stage w.1 = StageDummy ∧ originals w.2 = l) ∧ ∃ t0 n, 0 ≤ t0 ∧ audioCount w.1 = Z.of_nat (S n) ∧
    prevAudioTs w.1 = silent_ts t0 (Z.of_nat n) ∧ prevAudioTs w.1 + 22 ≤ MaxUint32 ∧ silences w.2 = silent_seq t0 (S n).

Lemma catch_up_step l ts f out : making l (f, out) → ts + 22 ≤ MaxUint32 →
  let ats := u32 (prevAudioTs f + calcAudioDurationMs f) in
  ats = prevAudioTs f + calcAudioDurationMs f ∧ 21 ≤ calcAudioDurationMs f ≤ 22 ∧
  (ats ≤ ts → making l (set_prev (set_count f (audioCount f + 1)) ats, out ++ [silent_msg ats])).
Proof.
  intros ([Hst Ho] & t0 & n & H0 & Hc & Hp & Hm & Hs) Hts. cbn [fst snd] in *. cbv zeta.
  assert (Hd : 21 ≤ calcAudioDurationMs f ≤ 22) by (unfold calcAudioDurationMs; case_match; lia).
  assert (Hp0 : 0 ≤ prevAudioTs f) by (rewrite Hp; unfold silent_ts; Z.div_mod_to_equations; lia).
  rewrite u32_small by (unfold MaxUint32 in *; lia). split; [done|]. split; [done|]. intros Hle.
  split; [cbn [fst snd]; by rewrite originals_app, Ho, app_nil_r|]. exists t0, (S n). cbn [fst snd set_prev set_count audioCount prevAudioTs].
  split; [done|]. split; [lia|]. split; [by rewrite Hp, silent_ts_next|]. split; [lia|].
  rewrite silences_app, Hs, (silent_seq_snoc t0 (S n)). f_equal. cbn. f_equal. by rewrite Hp, silent_ts_next.
Qed.

Lemma catch_up_spec l ts : ts + 22 ≤ MaxUint32 → ∀ fuel,
  ensures (λ w, making l w ∧ ts - prevAudioTs w.1 < 21 * Z.of_nat fuel ∧ (0 < fuel)%nat) (catch_up fuel ts)
    (λ _ w, making l w ∧ covers w.1 ts).
Proof.
  intros Hts. induction fuel as [|fuel IH]; intros [f out] (Hm & Hf & H0); [lia|]. cbn [fst] in Hf.
  destruct (catch_up_step l ts f out Hm Hts) as (E & Hd & Hnext). cbn [catch_up].
  change (get ≫= ?k) with (λ w : World, k w.1 w). cbv beta. cbn [fst].
  set (ats := u32 _) in *. destruct (Z.gtb_spec ats ts) as [Hgt|Hle].
  - exists (f, out), tt. split; [done|]. split; [done|]. destruct Hm as (_ & t0 & n & _ & _ & _ & Hm & _).
    cbn in *. split; cbn; lia.
  - specialize (Hnext Hle).
    destruct (IH (set_prev (set_count f (audioCount f + 1)) ats, out ++ [silent_msg ats])) as (w & a & E1 & H1).
    { split; [done|]. cbn. lia. }
    exists w, a. split; [exact E1|done].
Qed.

Definition kept (l : list RtmpMsg) (w : World) : Prop :=
  (stage w.1 = StageDummy ∧ originals w.2 = l) ∧ made w.1 w.2.

Lemma plain_not_audio msg : plain msg → is_audio msg = false.
Proof. intros [[[E _]|E] _]; unfold is_audio; by rewrite E. Qed.

(** Popping a message that came in. *)
Lemma pop_plain l f out msg : is_audio msg = false → kept l (f, out) → kept (l ++ [msg]) (f, out ++ [msg]).
Proof.
  intros Ha [[Hst Ho] Hm]. cbn [fst snd] in *. split; cbn [fst snd].
  - split; [done|]. rewrite originals_app, Ho. cbn. by rewrite Ha.
  - unfold made in *. rewrite silences_app. cbn. rewrite Ha. cbn. by rewrite app_nil_r.
Qed.

Lemma making_made l w : making l w → kept l w.
Proof. intros [Ho H]. split; [done|by right]. Qed.

Lemma making_start l f out ts : kept l (f, out) → prevAudioTs f = MaxUint32 → 0 ≤ ts → ts + 22 ≤ MaxUint32 →
  making l (set_prev (set_count f (audioCount f + 1)) ts, out ++ [silent_msg ts]).
Proof.
  intros [[Hst Ho] [(Hc & _ & Hs)|(t0 & n & _ & _ & _ & Hm & _)]] Hp H0 Hts; cbn [fst snd] in *; [|lia].
  split; [cbn [fst snd]; by rewrite originals_app, Ho, app_nil_r|]. exists ts, 0%nat.
  cbn [fst snd set_prev set_count audioCount prevAudioTs]. split; [done|]. split; [lia|].
  split; [unfold silent_ts; rewrite Z.mul_0_r, Z.div_0_l by done; lia|]. split; [done|].
  rewrite silences_app, Hs. cbn. unfold silent_seq. cbn. unfold silent_ts. by rewrite Z.mul_0_r, Z.div_0_l, Z.add_0_r.
Qed.

Lemma making_covers_first l f out ts : making l (f, out) → prevAudioTs f = ts → covers f ts.
Proof.
  intros (_ & t0 & n & _ & _ & _ & Hm & _) E. cbn in Hm. unfold covers, calcAudioDurationMs. case_match; lia.
Qed.

(** Every message is popped, silence made up to it. *)
Lemma handleDummy_spec l msg : plain msg →
  ensures (kept l) (handleDummyStage msg) (λ _ w, kept (l ++ [msg]) w ∧
    (MsgTypeId (msgHeader msg) = RtmpTypeIdVideo → IsVideoKeySeqHeader msg = Ret false →
     covers w.1 (TimestampAbs (msgHeader msg)))).
Proof.
  intros Hm [f out] Hk. pose proof (plain_not_audio _ Hm) as Ha. destruct Hm as [Ht [H0 Hts]].
  unfold handleDummyStage. unfold is_audio in Ha. rewrite Ha. cbv zeta.
  set (ts := TimestampAbs (msgHeader msg)) in *.
  destruct (Z.eqb_spec (MsgTypeId (msgHeader msg)) RtmpTypeIdMetadata) as [E|E].
  { exists (f, out ++ [msg]), tt. split; [done|]. split; [by apply pop_plain|]. intros E'. by rewrite E' in E. }
  destruct Ht as [[Ev (b & Eb)]|]; [|done]. rewrite Eb, eff_bind_lift. destruct b.
  { eexists _, tt. split; [reflexivity|]. split; [|done]. apply pop_plain; [done|].
    destruct Hk as [[Hst Ho] Hk]. split; cbn [fst snd] in *; [by rewrite originals_app, Ho, app_nil_r|].
    unfold made in *. rewrite silences_app. cbn. by rewrite app_nil_r. }
  change (get ≫= ?k) with (λ w : World, k w.1 w). cbv beta. cbn [fst].
  destruct (Z.eqb_spec (prevAudioTs f) MaxUint32) as [Ep|Ep].
  - eexists _, tt. split; [reflexivity|]. pose proof (making_start l f out ts Hk Ep H0 Hts) as Hs.
    split; [|intros _ _; by eapply making_covers_first].
    apply (pop_plain _ _ _ msg Ha). by apply making_made.
  - assert (Hmk : making l (f, out)) by (destruct Hk as [Ho [(_ & ? & _)|H]]; by split).
    destruct (catch_up_spec l ts Hts (catch_up_fuel ts) (f, out)) as ([f' out'] & [] & E1 & H1 & H2).
    { split; [done|]. destruct Hmk as (_ & t0 & n & G0 & _ & Gp & _). cbn [fst] in *. rewrite Gp.
      unfold catch_up_fuel, silent_ts. split; Z.div_mod_to_equations; lia. }
    exists (f', out' ++ [msg]), tt. split; [by rewrite (eff_bind_Ret _ _ _ _ _ E1)|].
    split; [|intros _ _; exact H2]. apply pop_plain; [done|]. by apply making_made.
Qed.

Lemma each_dummy_spec : ∀ msgs l, Forall plain msgs →
  ensures (kept l) (each handleDummyStage msgs) (λ _, kept (l ++ msgs)).
Proof.
  induction msgs as [|m msgs IH]; intros l Hp; cbn [each]; [rewrite app_nil_r; by apply ensures_ret|].
  apply Forall_cons in Hp as [Hm Hp]. apply (ensures_bind _ _ _ (λ _, kept (l ++ [m]))).
  { eapply ensures_weaken; [by apply handleDummy_spec|done|]. by intros [] w [H _]. }
  intros []. replace (l ++ m :: msgs) with ((l ++ [m]) ++ msgs) by (by rewrite <- app_assoc). by apply IH.
Qed.

(** *** The stages *)

Definition feed_all (l : list RtmpMsg) : eff World unit := each Feed l.

(** After messages without audio. *)
Definition fed (wait : Z) (l : list RtmpMsg) (w : World) : Prop :=
  match stage w.1 with
  | StageAnalysis => w.2 = [] ∧ earlyStageQueue w.1 = l ∧ audioCount w.1 = 0 ∧ prevAudioTs w.1 = MaxUint32
  | StageNormal => False
  | StageDummy => kept l w
  end.

Lemma Feed_says wait l msg : 0 ≤ wait → Forall plain l → plain msg →
  ensures (fed wait l) (Feed msg) (λ _, fed wait (l ++ [msg])).
Proof.
  intros Hw Hl Hm [f out] Hf. unfold Feed. change (get ≫= ?k) with (λ w : World, k w.1 w). cbv beta. cbn [fst].
  unfold fed in Hf. cbn [fst] in Hf. destruct (stage f) eqn:Es; [|done|].
  2:{ destruct (handleDummy_spec l msg Hm (f, out) Hf) as (w & a & E & H & _). exists w, a. split; [done|].
      unfold fed. destruct H as [[Hs ?] ?] eqn:Eh. rewrite Hs. exact H. }
  destruct Hf as (Ho & Hq & Hc & Hp). cbn [fst snd] in *. subst out. unfold handleAnalysisStage. cbv zeta.
  pose proof (plain_not_audio _ Hm) as Ha. unfold is_audio in Ha. rewrite Ha.
  assert (Hcache : ∀ g, stage g = StageAnalysis → earlyStageQueue g = l ++ [msg] → audioCount g = 0 →
    prevAudioTs g = MaxUint32 → fed wait (l ++ [msg]) (g, [])).
  { intros g G1 G2 G3 G4. unfold fed. cbn [fst]. by rewrite G1. }
  destruct (Z.eqb_spec (MsgTypeId (msgHeader msg)) RtmpTypeIdMetadata) as [E|E].
  { eexists _, tt. split; [reflexivity|]. apply Hcache; try done. cbn. by rewrite Hq, Clone_id. }
  pose proof (pl_type _ Hm) as [[Ev (b & Eb)]|?]; [|done]. rewrite Ev, Z.eqb_refl, Eb, eff_bind_lift.
  destruct b.
  { eexists _, tt. split; [reflexivity|]. apply Hcache; try done. cbn. by rewrite Hq, Clone_id. }
  change (get ≫= ?k) with (λ w : World, k w.1 w). cbv beta. cbn [fst].
  destruct (_ =? MaxUint32).
  { eexists _, tt. split; [reflexivity|]. apply Hcache; try done. cbn. by rewrite Hq, Clone_id. }
  destruct (_ <? _).
  { eexists _, tt. split; [reflexivity|]. apply Hcache; try done. cbn. by rewrite Hq, Clone_id. }
  destruct (each_dummy_spec l [] Hl (set_stage f StageDummy, [])) as ([f1 out1] & [] & E1 & Hk1).
  { split; [done|]. left. done. }
  destruct (handleDummy_spec l msg Hm (set_queue f1 [], out1)) as (w & [] & E2 & H2 & _); [exact Hk1|].
  exists w, tt. split.
  - transitivity ((_ ← each handleDummyStage l; _ ← clearCache; handleDummyStage msg) (set_stage f StageDummy, []));
      [by rewrite <- Hq|].
    rewrite (eff_bind_Ret _ _ _ _ _ E1). exact E2.
  - unfold fed. destruct H2 as [[Hs ?] ?] eqn:Eh. rewrite Hs. exact H2.
Qed.

Lemma filter_all_says wait : 0 ≤ wait → ∀ l2 l1, Forall plain l1 → Forall plain l2 →
  ensures (fed wait l1) (feed_all l2) (λ _, fed wait (l1 ++ l2)).
Proof.
  intros Hw. induction l2 as [|m l2 IH]; intros l1 H1 H2; unfold feed_all; cbn [each].
  { rewrite app_nil_r. by apply ensures_ret. }
  apply Forall_cons in H2 as [Hm H2]. eapply ensures_bind; [by apply Feed_says|].
  intros []. replace (l1 ++ m :: l2) with ((l1 ++ [m]) ++ l2) by (by rewrite <- app_assoc).
  apply IH; [apply Forall_app_2; [done|by constructor]|done].
Qed.

Lemma each_pop l f out : each onPopProxy l (f, out) = ((f, out ++ l), Ret tt).
Proof.
  revert out. induction l as [|m l IH]; intros out; cbn [each]; [by rewrite app_nil_r|].
  change ((_ ← onPopProxy m; each onPopProxy l) (f, out)) with (each onPopProxy l (f, out ++ [m])).
  rewrite IH. by rewrite <- app_assoc.
Qed.

Lemma feed_normal : ∀ l f out, stage f = StageNormal → feed_all l (f, out) = ((f, out ++ l), Ret tt).
Proof.
  induction l as [|m l IH]; intros f out Hs; unfold feed_all; cbn [each]; [by rewrite app_nil_r|].
  rewrite (eff_bind_Ret _ _ _ (f, out ++ [m]) tt).
  - fold (feed_all l). rewrite IH by done. by rewrite <- app_assoc.
  - unfold Feed. change (get ≫= ?k) with (λ w : World, k w.1 w). cbv beta. cbn [fst]. by rewrite Hs.
Qed.

(** ** Properties *)


(** Each video frame after the filter started to make audio is popped with
    silence made up to its time: the next silent frame would be later. *)
Theorem dummy_audio_covers l f out msg : stage f = StageDummy → originals out = l → made f out →
  plain msg → MsgTypeId (msgHeader msg) = RtmpTypeIdVideo → IsVideoKeySeqHeader msg = Ret false →
  ∃ f' out', Feed msg (f, out) = ((f', out'), Ret tt) ∧ stage f' = StageDummy ∧ originals out' = l ++ [msg] ∧ made f' out' ∧
    covers f' (TimestampAbs (msgHeader msg)).
Proof.
  intros Hs Ho Hm Hp Hv Hk. destruct (handleDummy_spec l msg Hp (f, out)) as ([f' out'] & [] & E & [[H1 H2] H3] & H4).
  { by split. }
  exists f', out'. split; [|split; [done|split; [done|split; [done|by apply H4]]]].
  unfold Feed. change (get ≫= ?k) with (λ w : World, k w.1 w). cbv beta. cbn [fst]. by rewrite Hs.
Qed.

(** If audio comes while the filter is still waiting, the output is the input:
    nothing is lost, added or reordered, then and later. *)
Theorem dummy_audio_transparent wait l a rest : 0 ≤ wait → Forall plain l → is_audio a = true →
  (∀ f out, feed_all l (NewDummyAudioFilter wait, []) = ((f, out), Ret tt) → stage f = StageAnalysis) →
  ∃ f, feed_all (l ++ a :: rest) (NewDummyAudioFilter wait, []) = ((f, l ++ a :: rest), Ret tt).
Proof.
  intros Hw Hl Ha Hst. destruct (filter_all_says wait Hw l [] ltac:(constructor) Hl (NewDummyAudioFilter wait, []))
    as ([f out] & [] & E & Hf); [by repeat split|]. pose proof (Hst _ _ E) as Hs. unfold fed in Hf. cbn [fst snd app] in Hf.
  rewrite Hs in Hf. destruct Hf as (-> & Hq & _). exists (set_stage f StageNormal).
  assert (Happ : ∀ l1 l2 w, feed_all (l1 ++ l2) w = (_ ← feed_all l1; feed_all l2) w).
  { induction l1 as [|m l1 IH]; intros l2 w; [done|]. unfold feed_all in *. cbn [each app].
    unfold mbind, eff_bind. destruct (Feed m w) as [w' [[]| |]]; [|done..]. rewrite IH. done. }
  rewrite Happ, (eff_bind_Ret _ _ _ _ _ E). unfold feed_all. cbn [each].
  rewrite (eff_bind_Ret _ _ _ (set_stage f StageNormal, l ++ [a]) tt).
  - fold (feed_all rest). rewrite feed_normal by done. by rewrite <- app_assoc.
  - unfold Feed. change (get ≫= ?k) with (λ w : World, k w.1 w). cbv beta. cbn [fst]. rewrite Hs.
    unfold handleAnalysisStage. cbv zeta. unfold is_audio in Ha. apply Z.eqb_eq in Ha. rewrite Ha.
    change (RtmpTypeIdAudio =? RtmpTypeIdMetadata) with false. rewrite Z.eqb_refl. cbv iota.
    change (get ≫= ?k) with (λ w : World, k w.1 w). cbv beta. cbn [fst]. rewrite Hq.
    by rewrite (eff_bind_Ret _ _ _ _ _ (each_pop l f [])).
Qed.

(** Near the end of the range of timestamps the next silent frame wraps around to
    a small time, and the loop starts over from there: it makes silent frames for
    all of the 49 days before it comes back. *)
Lemma dummy_audio_wraps fuel f out ts : 0 ≤ prevAudioTs f → 0 ≤ audioCount f → ts ≤ MaxUint32 →
  prevAudioTs f + 22 * Z.of_nat fuel ≤ ts → (catch_up fuel ts (f, out)).2 = Fail OutOfFuel.
Proof.
  revert f out. induction fuel as [|fuel IH]; intros f out H0 H1 Hts Hf; [done|]. cbn [catch_up].
  change (get ≫= ?k) with (λ w : World, k w.1 w). cbv beta. cbn [fst].
  assert (Hd : 21 ≤ calcAudioDurationMs f ≤ 22) by (unfold calcAudioDurationMs; case_match; lia).
  rewrite u32_small by (unfold MaxUint32 in *; lia).
  destruct (Z.gtb_spec (prevAudioTs f + calcAudioDurationMs f) ts); [lia|].
  apply (IH (set_prev (set_count f (audioCount f + 1)) (prevAudioTs f + calcAudioDurationMs f))); cbn; lia.
Qed.

(** Two frames 10 ms apart, just before the wrap: more than 190 million silent
    frames are made for the second one. *)
Lemma dummy_audio_wrap_hangs (fuel : nat) out : Z.of_nat fuel ≤ 190000000 →
  (catch_up (S fuel) 4294967290 (mkFilter 150 StageDummy [] 0 4294967280 1, out)).2 = Fail OutOfFuel.
Proof.
  intros Hf. cbn [catch_up]. change (get ≫= ?k) with (λ w : World, k w.1 w). cbv beta. cbn [fst prevAudioTs].
  change (u32 _ >? 4294967290) with false. cbv iota.
  apply (dummy_audio_wraps fuel (mkFilter 150 StageDummy [] 0 5 2)); unfold MaxUint32; cbn; lia.
Qed.

(** ** Witnesses *)

Definition demo_video (ts : Z) (b : Z) : RtmpMsg := mkRtmpMsg (mkRtmpHeader 6 5 9 1 ts) [23; b; 0; 0; 0].
Definition demo_audio : RtmpMsg := mkRtmpMsg (mkRtmpHeader 6 4 8 1 7) [175; 1; 0; 0].
Definition demo_msgs : list RtmpMsg := [demo_video 0 0; demo_video 10 1; demo_video 50 1; demo_video 170 1].

Lemma demo_plain : Forall plain demo_msgs.
Proof.
  repeat apply List.Forall_cons; try apply List.Forall_nil;
    (split; [left; split; [done|by eexists]|unfold MaxUint32; cbn; lia]).
Qed.


Lemma demo_made : made (mkFilter 150 StageDummy [] 10 10 1) [silent_msg 10].
Proof. right. exists 10, 0%nat. unfold MaxUint32, silent_seq, silent_ts. cbn. split_and!; done || lia. Qed.

Lemma dummy_audio_covers_witness : ∃ f' out',
  Feed (demo_video 210 1) (mkFilter 150 StageDummy [] 10 10 1, [silent_msg 10]) = ((f', out'), Ret tt) ∧
  originals out' = [demo_video 210 1] ∧ covers f' 210.
Proof.
  assert (Hp : plain (demo_video 210 1)).
  { split; [left; split; [done|by eexists]|unfold MaxUint32; cbn; lia]. }
  destruct (dummy_audio_covers [] (mkFilter 150 StageDummy [] 10 10 1) [silent_msg 10] (demo_video 210 1)
    eq_refl eq_refl demo_made Hp eq_refl eq_refl) as (f' & out' & E & _ & Ho & _ & Hc).
  exists f', out'. exact (conj E (conj Ho Hc)).
Defined.

Lemma dummy_audio_transparent_witness : ∃ f,
  feed_all ([demo_video 0 0; demo_video 10 1] ++ demo_audio :: demo_msgs) (NewDummyAudioFilter 150, []) =
  ((f, [demo_video 0 0; demo_video 10 1] ++ demo_audio :: demo_msgs), Ret tt).
Proof.
  apply (dummy_audio_transparent 150 [demo_video 0 0; demo_video 10 1] demo_audio demo_msgs); [done| |done|].
  - pose proof demo_plain as H. inversion_clear H as [|? ? H1 H']. inversion_clear H' as [|? ? H2 _].
    repeat apply List.Forall_cons; try apply List.Forall_nil; done.
  - intros f out E. vm_compute in E. by injection E as <- <-.
Defined.
