(* ===== verification/GroupStream.v ===== *)
(** * Distribution in a group (src/pkg/logic/group__core_streaming.go,
    group__out_sub.go, src/pkg/base/merge_writer.go)

    A group hands each message of its publisher to the remuxers and to every
    subscriber.  Subscribers are kept in maps and visited in any order
    ([RangeOrder]); what was written to one is its [written] list.  The RTMP side
    goes through a merge writer, which gathers chunks and gives them to all
    subscribers together.

    Locks and logs are left out: each entry point runs alone under the mutex of
    the group.  [recover] ends an entry point that panics in the state the panic
    left ([recovered]). *)

From stdpp Require Import gmap.
From S2P Require Import Prelude Naza Bits RtmpMsg.
From S2P Require GopCache FlvRemux RtpPacket TsPack Rtmp2Mpegts AvcSeq HevcSeq Base Metadata Amf0 DummyAudio.
Import GopCache(GopRing, GopCache).
Import RtpPacket(RtpPacket).

(** ** Loops over maps *)

(** Go visits the keys of a map in no particular order. *)
Class RangeOrder := {
  range_keys {A} : gmap Z A → list Z;
  range_keys_perm {A} (m : gmap Z A) : range_keys m ≡ₚ (map_to_list m).*1;
}.

Fixpoint for_each {S} (ks : list Z) (body : Z → eff S unit) : eff S unit :=
  match ks with [] => mret tt | k :: ks => _ ← body k; for_each ks body end.

Section Zoom.
Context {S T : Type} (view : S → T) (put : S → T → S).
(** An effect on a part of the state. *)
Definition zoom {A} (m : eff T A) : eff S A := λ s, let '(t, r) := m (view s) in (put s t, r).
End Zoom.

Definition state {S} : eff S S := λ s, (s, Ret s).
Definition update {S} (f : S → S) : eff S unit := λ s, (f s, Ret tt).

(** A deferred [recover]: the panic is logged and forgotten. *)
Definition recovered {S} (m : eff S unit) : eff S unit := λ s,
  match m s with (s, Panic) => (s, Ret tt) | r => r end.

Lemma state_bind {S A} (f : S → eff S A) s : (state ≫= f) s = f s s.
Proof. done. Qed.

(** ** Subscribers *)

(** [ShouldWait] is ShouldWaitVideoKeyFrame, or ShouldWaitBoundary of an httpts
    subscriber; [written] is what was written to the connection. *)
Record Sub := mkSub { IsFresh : bool; ShouldWait : bool; written : list (list Z) }.

Definition write_sub (bs : list (list Z)) (s : Sub) : Sub := mkSub (IsFresh s) (ShouldWait s) (written s ++ bs).
Definition no_wait (s : Sub) : Sub := mkSub (IsFresh s) false (written s).
Definition no_fresh (s : Sub) : Sub := mkSub false (ShouldWait s) (written s).

Definition on_sub (f : Sub → Sub) (k : Z) : eff (gmap Z Sub) unit := update (alter f k).

Section Write.
Context {St : Type} (write : list Z → eff St unit).

Definition write_opt (o : option (list Z)) : eff St unit :=
  match o with Some b => write b | None => mret tt end.
Fixpoint write_all (l : list (list Z)) : eff St unit :=
  match l with [] => mret tt | b :: l => _ ← write b; write_all l end.
(** [for i := start; i < start + n; i++] over the groups of a cache. *)
Fixpoint write_gops (gc : GopRing) (n : nat) (i : Z) : eff St unit :=
  match n with
  | O => mret tt
  | S n => d ← lift (GopCache.GetGopDataAt gc i); _ ← write_all (default [] d); write_gops gc n (i + 1)
  end.
End Write.

(** ** The merge writer (src/pkg/base/merge_writer.go) *)

Record MergeWriter := mkMw { size : Z; currSize : Z; bs : list (list Z) }.

(** ** RTMP subscribers and relayed pushes *)

Record RtmpOut := mkRtmpOut {
  rtmpGopCache : GopCache;
  rtmpSubSessionSet : gmap Z Sub;
  rtmpMergeWriter : option MergeWriter;
  pushEnable : bool;
  url2PushProxy : gmap Z (option Sub);
}.

Definition set_subs (o : RtmpOut) (m : gmap Z Sub) : RtmpOut :=
  mkRtmpOut (rtmpGopCache o) m (rtmpMergeWriter o) (pushEnable o) (url2PushProxy o).
Definition set_mw (o : RtmpOut) (w : option MergeWriter) : RtmpOut :=
  mkRtmpOut (rtmpGopCache o) (rtmpSubSessionSet o) w (pushEnable o) (url2PushProxy o).
Definition set_push (o : RtmpOut) (p : gmap Z (option Sub)) : RtmpOut :=
  mkRtmpOut (rtmpGopCache o) (rtmpSubSessionSet o) (rtmpMergeWriter o) (pushEnable o) p.
Definition set_rtmp_cache (o : RtmpOut) (c : GopCache) : RtmpOut :=
  mkRtmpOut c (rtmpSubSessionSet o) (rtmpMergeWriter o) (pushEnable o) (url2PushProxy o).

Definition active (s : Sub) : bool := negb (IsFresh s || ShouldWait s).

(** The loops over all subscribers, whose rounds do not touch each other. *)
Definition write2RtmpSubSessions (b : list Z) : eff RtmpOut unit :=
  update (λ o, set_subs o ((λ s, if active s then write_sub [b] s else s) <$> rtmpSubSessionSet o)).
Definition writev2RtmpSubSessions (l : list (list Z)) : eff RtmpOut unit :=
  update (λ o, set_subs o ((λ s, if active s then write_sub l s else s) <$> rtmpSubSessionSet o)).

Definition flush (w : MergeWriter) : eff RtmpOut unit :=
  _ ← writev2RtmpSubSessions (bs w);
  update (λ o, set_mw o (Some (mkMw (size w) 0 []))).

Definition mw_Write (w : MergeWriter) (b : list Z) : eff RtmpOut unit :=
  let w := mkMw (size w) (currSize w + len b) (bs w ++ [b]) in
  if currSize w >=? size w then flush w else update (λ o, set_mw o (Some w)).

(** [if group.rtmpMergeWriter != nil { group.rtmpMergeWriter.Flush() }] *)
Definition Flush : eff RtmpOut unit :=
  o ← state;
  match rtmpMergeWriter o with
  | Some w => if currSize w >? 0 then flush w else mret tt
  | None => mret tt
  end.

(** *** A round of the loop over the RTMP subscribers *)

Definition on_rtmp (f : Sub → Sub) (k : Z) : eff RtmpOut unit :=
  update (λ o, set_subs o (alter f k (rtmpSubSessionSet o))).

(** What a fresh subscriber is given of the cache. *)
Definition rtmp_fresh (k : Z) : eff RtmpOut unit :=
  o ← state;
  let c := rtmpGopCache o in
  let write b := on_rtmp (write_sub [b]) k in
  _ ← write_opt write (GopCache.MetadataEnsureWithoutSetDataFrame c);
  _ ← write_opt write (GopCache.VideoSeqHeader c);
  _ ← write_opt write (GopCache.AacSeqHeader c);
  gopCount ← lift (GopCache.GetGopCount (GopCache.ring c));
  _ ← (if gopCount >? 0 then on_rtmp no_wait k else mret tt);
  _ ← write_gops write (GopCache.ring c) (Z.to_nat gopCount) 0;
  _ ← Flush;
  on_rtmp no_fresh k.

Definition rtmp_round (msg : RtmpMsg) (k : Z) : eff RtmpOut unit :=
  o ← state;
  match rtmpSubSessionSet o !! k with
  | None => mret tt
  | Some s =>
      _ ← (if IsFresh s then rtmp_fresh k else mret tt);
      o ← state;
      let waits := match rtmpSubSessionSet o !! k with Some s => ShouldWait s | None => false end in
      key ← lift (go_and (Ret waits) (IsVideoKeyNalu msg));
      if key : bool then _ ← Flush; on_rtmp no_wait k else mret tt
  end.

Section Broadcast.
Context {RO : RangeOrder} {B : Bele} {BS : BeleStream} {NB : NazaBuffer} {BI : NazaBits}.

(** The bytes of a message for the three kinds of readers; the code keeps them
    once computed. *)
Definition chunks_without (msg : RtmpMsg) : outcome (list Z) :=
  '(b, _) ← FlvRemux.chunks_GetEnsureWithoutSdf (FlvRemux.LazyChunks_Init msg); Ret b.
Definition chunks_with (msg : RtmpMsg) : outcome (list Z) :=
  '(b, _) ← FlvRemux.chunks_GetEnsureWithSdf (FlvRemux.LazyChunks_Init msg); Ret b.
Definition tag_without (msg : RtmpMsg) : outcome (list Z) :=
  '(b, _) ← FlvRemux.tag_GetEnsureWithoutSdf (FlvRemux.LazyTag_Init msg); Ret b.

Definition rtmp_subs (msg : RtmpMsg) : eff RtmpOut unit :=
  o ← state;
  _ ← for_each (range_keys (rtmpSubSessionSet o)) (rtmp_round msg);
  o ← state;
  if bool_decide (rtmpSubSessionSet o = ∅) then mret tt else
  b ← lift (chunks_without msg);
  match rtmpMergeWriter o with
  | None => write2RtmpSubSessions b
  | Some w => mw_Write w b
  end.

(** *** Relayed pushes *)

Definition on_push (f : Sub → Sub) (k : Z) : eff (gmap Z (option Sub)) unit := update (alter (fmap f) k).

Definition push_fresh (c : GopCache) (k : Z) : eff (gmap Z (option Sub)) unit :=
  let write b := on_push (write_sub [b]) k in
  _ ← write_opt write (GopCache.MetadataEnsureWithSetDataFrame c);
  _ ← write_opt write (GopCache.VideoSeqHeader c);
  _ ← write_opt write (GopCache.AacSeqHeader c);
  gopCount ← lift (GopCache.GetGopCount (GopCache.ring c));
  _ ← write_gops write (GopCache.ring c) (Z.to_nat gopCount) 0;
  on_push no_fresh k.

Definition push_round (c : GopCache) (msg : RtmpMsg) (k : Z) : eff (gmap Z (option Sub)) unit :=
  m ← state;
  match m !! k with
  | Some (Some s) =>
      _ ← (if IsFresh s then push_fresh c k else mret tt);
      b ← lift (chunks_with msg);
      on_push (write_sub [b]) k
  | _ => mret tt
  end.

Definition rtmp_pushes (msg : RtmpMsg) : eff RtmpOut unit :=
  o ← state;
  if pushEnable o || negb (bool_decide (url2PushProxy o = ∅)) then
    zoom url2PushProxy set_push (for_each (range_keys (url2PushProxy o)) (push_round (rtmpGopCache o) msg))
  else mret tt.

(** ** HTTP-FLV subscribers and the FLV record *)

Record FlvOut := mkFlvOut {
  httpflvGopCache : GopCache;
  httpflvSubSessionSet : gmap Z Sub;
  recordFlv : option (list (list Z));
}.

Definition set_flv_subs (o : FlvOut) (m : gmap Z Sub) : FlvOut := mkFlvOut (httpflvGopCache o) m (recordFlv o).
Definition set_flv_record (o : FlvOut) (r : option (list (list Z))) : FlvOut :=
  mkFlvOut (httpflvGopCache o) (httpflvSubSessionSet o) r.
Definition set_flv_cache (o : FlvOut) (c : GopCache) : FlvOut :=
  mkFlvOut c (httpflvSubSessionSet o) (recordFlv o).

Definition flv_fresh (c : GopCache) (k : Z) : eff (gmap Z Sub) unit :=
  let write b := on_sub (write_sub [b]) k in
  _ ← write_opt write (GopCache.MetadataEnsureWithoutSetDataFrame c);
  _ ← write_opt write (GopCache.VideoSeqHeader c);
  _ ← write_opt write (GopCache.AacSeqHeader c);
  gopCount ← lift (GopCache.GetGopCount (GopCache.ring c));
  _ ← (if gopCount >? 0 then on_sub no_wait k else mret tt);
  _ ← write_gops write (GopCache.ring c) (Z.to_nat gopCount) 0;
  on_sub no_fresh k.

Definition flv_round (c : GopCache) (msg : RtmpMsg) (k : Z) : eff (gmap Z Sub) unit :=
  m ← state;
  match m !! k with
  | None => mret tt
  | Some s =>
      _ ← (if IsFresh s then flv_fresh c k else mret tt);
      m ← state;
      if match m !! k with Some s => ShouldWait s | None => false end then
        key ← lift (IsVideoKeyNalu msg);
        if key : bool then
          b ← lift (tag_without msg);
          _ ← on_sub (write_sub [b]) k;
          on_sub no_wait k
        else mret tt
      else
        b ← lift (tag_without msg);
        on_sub (write_sub [b]) k
  end.

Definition flv_subs (msg : RtmpMsg) : eff FlvOut unit :=
  o ← state;
  _ ← zoom httpflvSubSessionSet set_flv_subs
        (for_each (range_keys (httpflvSubSessionSet o)) (flv_round (httpflvGopCache o) msg));
  match recordFlv o with
  | Some r => b ← lift (tag_without msg); update (λ o, set_flv_record o (Some (r ++ [b])))
  | None => mret tt
  end.

(** ** Caches *)

Definition feed_rtmp_cache (msg : RtmpMsg) : eff RtmpOut unit :=
  o ← state;
  b ← lift (chunks_without msg);
  '(_, c) ← lift (GopCache.Feed (rtmpGopCache o) msg b);
  _ ← update (λ o, set_rtmp_cache o c);
  if MsgTypeId (msgHeader msg) =? RtmpTypeIdMetadata then
    w ← lift (chunks_with msg);
    update (λ o, set_rtmp_cache o (GopCache.SetMetadata (rtmpGopCache o) w b))
  else mret tt.

Definition feed_flv_cache (msg : RtmpMsg) : eff FlvOut unit :=
  o ← state;
  b ← lift (tag_without msg);
  '(_, c) ← lift (GopCache.Feed (httpflvGopCache o) msg b);
  _ ← update (λ o, set_flv_cache o c);
  if MsgTypeId (msgHeader msg) =? RtmpTypeIdMetadata then
    update (λ o, set_flv_cache o (GopCache.SetMetadata (httpflvGopCache o) b b))
  else mret tt.
End Broadcast.

(** ** MPEG-TS: the group as the observer of the remuxer *)

(** The HLS muxer.  Its [FeedMpegts] is in two parts: up to the opening of a
    fragment, on which it makes the group call [FlushAudio] (the boolean), and
    after it. *)
Class HlsMuxer (H : Type) := {
  FeedPatPmt : list Z → H → H;
  FeedMpegts_open : TsPack.Frame → bool → H → bool * H;
  FeedMpegts_write : list Z → TsPack.Frame → bool → H → H;
}.

Section Ts.
Context {RO : RangeOrder} {H : Type} {HM : HlsMuxer H}.

Record TsOut := mkTsOut {
  patpmt : list Z;
  hlsMuxer : option H;
  httptsSubSessionSet : gmap Z Sub;
  recordMpegts : option (list (list Z));
  httptsGopCache : GopRing;
}.

Definition set_patpmt (o : TsOut) (b : list Z) : TsOut :=
  mkTsOut b (hlsMuxer o) (httptsSubSessionSet o) (recordMpegts o) (httptsGopCache o).
Definition set_hls (o : TsOut) (h : option H) : TsOut :=
  mkTsOut (patpmt o) h (httptsSubSessionSet o) (recordMpegts o) (httptsGopCache o).
Definition set_ts_subs (o : TsOut) (m : gmap Z Sub) : TsOut :=
  mkTsOut (patpmt o) (hlsMuxer o) m (recordMpegts o) (httptsGopCache o).
Definition set_ts_record (o : TsOut) (r : option (list (list Z))) : TsOut :=
  mkTsOut (patpmt o) (hlsMuxer o) (httptsSubSessionSet o) r (httptsGopCache o).
Definition set_ts_cache (o : TsOut) (c : GopRing) : TsOut :=
  mkTsOut (patpmt o) (hlsMuxer o) (httptsSubSessionSet o) (recordMpegts o) c.

Definition record_ts (b : list Z) (o : TsOut) : TsOut :=
  match recordMpegts o with Some r => set_ts_record o (Some (r ++ [b])) | None => o end.

Definition group_OnPatPmt (b : list Z) (o : TsOut) : TsOut :=
  let o := set_patpmt o b in
  let o := match hlsMuxer o with Some h => set_hls o (Some (FeedPatPmt b h)) | None => o end in
  record_ts b o.

(** The first step of [feedTsPackets]. *)
Definition feed_hls (frame : TsPack.Frame) (boundary : bool) (o : TsOut) : bool * TsOut :=
  match hlsMuxer o with
  | Some h => let '(opened, h) := FeedMpegts_open frame boundary h in (opened, set_hls o (Some h))
  | None => (false, o)
  end.
Definition feed_hls_rest (b : list Z) (frame : TsPack.Frame) (boundary : bool) (o : TsOut) : TsOut :=
  match hlsMuxer o with Some h => set_hls o (Some (FeedMpegts_write b frame boundary h)) | None => o end.

Definition ts_fresh (tables : list Z) (c : GopRing) (k : Z) : eff (gmap Z Sub) unit :=
  let write b := on_sub (write_sub [b]) k in
  _ ← write tables;
  gopCount ← lift (GopCache.GetGopCount c);
  _ ← write_gops write c (Z.to_nat gopCount) 0;
  _ ← (if gopCount >? 0 then on_sub no_wait k else mret tt);
  on_sub no_fresh k.

Definition ts_round (tables : list Z) (c : GopRing) (b : list Z) (boundary : bool) (k : Z)
    : eff (gmap Z Sub) unit :=
  m ← state;
  match m !! k with
  | None => mret tt
  | Some s =>
      _ ← (if IsFresh s then ts_fresh tables c k else mret tt);
      m ← state;
      if match m !! k with Some s => ShouldWait s | None => false end then
        if boundary then _ ← on_sub (write_sub [b]) k; on_sub no_wait k else mret tt
      else on_sub (write_sub [b]) k
  end.

(** The rest of [feedTsPackets]. *)
Definition feed_ts_subs (b : list Z) (boundary : bool) : eff TsOut unit :=
  o ← state;
  _ ← zoom httptsSubSessionSet set_ts_subs
        (for_each (range_keys (httptsSubSessionSet o)) (ts_round (patpmt o) (httptsGopCache o) b boundary));
  _ ← update (record_ts b);
  c ← lift (GopCache.mpegts_Feed (httptsGopCache o) b boundary);
  update (λ o, set_ts_cache o c).

#[export] Instance group_ts_observer : Rtmp2Mpegts.TsObserver TsOut := {
  before c o := match c with
                | Rtmp2Mpegts.OnPatPmt _ => (false, o)
                | Rtmp2Mpegts.OnTsPackets _ frame boundary => feed_hls frame boundary o
                end;
  after c o := match c with
               | Rtmp2Mpegts.OnPatPmt b => group_OnPatPmt b o
               | Rtmp2Mpegts.OnTsPackets b frame boundary =>
                   (recovered (feed_ts_subs b boundary) (feed_hls_rest b frame boundary o)).1
               end;
}.
End Ts.

(** ** RTSP subscribers *)

(** The session description, of which the group asks the video payload type. *)
Class SdpContext (Sdp : Type) := { GetVideoPayloadTypeBase : Sdp → Z }.

Inductive SubSessionStage := StageReadDescribe | StageWriteSdp | StageReadPlay.
#[global] Instance SubSessionStage_eq_dec : EqDecision SubSessionStage.
Proof. solve_decision. Defined.

(** [rtps] are the packets sent, [sdps] the descriptions answered. *)
Record RtspSub (Sdp : Type) := mkRtspSub {
  rWait : bool;
  rStage : SubSessionStage;
  rtps : list RtpPacket;
  sdps : list Sdp;
}.
Arguments mkRtspSub {Sdp}. Arguments rWait {Sdp}. Arguments rStage {Sdp}.
Arguments rtps {Sdp}. Arguments sdps {Sdp}.

Section Rtsp.
Context {RO : RangeOrder} {Sdp : Type} {SC : SdpContext Sdp}.

Record RtspOut := mkRtspOut {
  OutWaitKeyFrameFlag : bool;
  sdpCtx : option Sdp;
  rtspSubSessionSet : gmap Z (RtspSub Sdp);
}.

Definition set_sdp (o : RtspOut) (s : option Sdp) : RtspOut :=
  mkRtspOut (OutWaitKeyFrameFlag o) s (rtspSubSessionSet o).
Definition set_rtsp_subs (o : RtspOut) (m : gmap Z (RtspSub Sdp)) : RtspOut :=
  mkRtspOut (OutWaitKeyFrameFlag o) (sdpCtx o) m.

(** rtsp.SubSession: a packet is sent only while playing. *)
Definition NewSubSession : RtspSub Sdp := mkRtspSub true StageReadDescribe [] [].
Definition WriteRtpPacket (pkt : RtpPacket) (s : RtspSub Sdp) : RtspSub Sdp :=
  if bool_decide (rStage s = StageReadPlay)
  then mkRtspSub (rWait s) (rStage s) (rtps s ++ [pkt]) (sdps s) else s.
Definition FeedSdp (sdp : Sdp) (s : RtspSub Sdp) : RtspSub Sdp :=
  mkRtspSub (rWait s) StageWriteSdp (rtps s) (sdps s ++ [sdp]).
Definition rtsp_no_wait (s : RtspSub Sdp) : RtspSub Sdp :=
  mkRtspSub false (rStage s) (rtps s) (sdps s).

Definition describing (s : RtspSub Sdp) : bool := bool_decide (rStage s = StageReadDescribe).

(** [*group.sdpCtx] of nil panics. *)
Definition feedWaitRtspSubSessions : eff RtspOut unit := λ o,
  match sdpCtx o with
  | Some sdp => (set_rtsp_subs o ((λ s, if describing s then FeedSdp sdp s else s) <$> rtspSubSessionSet o), Ret tt)
  | None => (o, if bool_decide (map_Forall (λ _ s, describing s = false) (rtspSubSessionSet o)) then Ret tt else Panic)
  end.

(** Whether the packet starts a GOP; a nil description panics. *)
Definition gop_start (sdp : option Sdp) (pkt : RtpPacket) : outcome bool :=
  match sdp with
  | None => Panic
  | Some sdp =>
      let t := GetVideoPayloadTypeBase sdp in
      if t =? Base.AvPacketPtAvc then RtpPacket.IsAvcBoundary pkt
      else if t =? Base.AvPacketPtHevc then RtpPacket.IsHevcBoundary pkt
      else Ret true
  end.

(** The subscribers and whether the packet was found to start a GOP. *)
Definition rtsp_round (sdp : option Sdp) (pkt : RtpPacket) (k : Z)
    : eff (gmap Z (RtspSub Sdp) * option bool) unit :=
  '(m, checked) ← state;
  match m !! k with
  | None => mret tt
  | Some s =>
      if negb (rWait s) then update (λ p, (alter (WriteRtpPacket pkt) k p.1, p.2)) else
      boundary ← match checked with
                 | Some b => mret b
                 | None => b ← lift (gop_start sdp pkt); _ ← update (λ p, (p.1, Some b)); mret b
                 end;
      if boundary : bool then
        update (λ p, (alter (λ s, rtsp_no_wait (WriteRtpPacket pkt s)) k p.1, p.2))
      else mret tt
  end.

Definition feedRtpPacket (pkt : RtpPacket) : eff RtspOut unit := recovered (
  o ← state;
  if negb (OutWaitKeyFrameFlag o) then
    update (λ o, set_rtsp_subs o (WriteRtpPacket pkt <$> rtspSubSessionSet o))
  else
    zoom rtspSubSessionSet set_rtsp_subs (λ m,
      let '((m, _), r) := for_each (range_keys m) (rtsp_round (sdpCtx o) pkt) (m, None) in (m, r))).

Definition OnSdp (sdp : Sdp) : eff RtspOut unit :=
  _ ← update (λ o, set_sdp o (Some sdp)); feedWaitRtspSubSessions.
End Rtsp.

(** ** Specification: what one subscriber receives *)

(** A new subscriber is given the headers and the cached groups; it goes on
    waiting for a key frame only if there are none. *)
Definition join (hdr : list (list Z)) (q : list (list (list Z))) (s : Sub) : Sub :=
  if IsFresh s then mkSub false (ShouldWait s && bool_decide (q = [])) (written s ++ hdr ++ concat q) else s.

(** A message is skipped by a subscriber that waits, unless it is a key frame. *)
Definition deliver (key : bool) (b : list Z) (s : Sub) : Sub :=
  if ShouldWait s && negb key then s else write_sub [b] (no_wait s).

Definition receive (hdr : list (list Z)) (q : list (list (list Z))) (key : bool) (b : list Z) (s : Sub) : Sub :=
  deliver key b (join hdr q s).

Definition opt_list {A} (o : option A) : list A := match o with Some a => [a] | None => [] end.

Definition headers (c : GopCache) : list (list Z) :=
  opt_list (GopCache.MetadataEnsureWithoutSetDataFrame c) ++ opt_list (GopCache.VideoSeqHeader c) ++
  opt_list (GopCache.AacSeqHeader c).
Definition push_headers (c : GopCache) : list (list Z) :=
  opt_list (GopCache.MetadataEnsureWithSetDataFrame c) ++ opt_list (GopCache.VideoSeqHeader c) ++
  opt_list (GopCache.AacSeqHeader c).

(** ** Loops over maps, point by point *)

Section RangeFacts.
Context {RO : RangeOrder}.

Lemma range_keys_NoDup {A} (m : gmap Z A) : NoDup (range_keys m).
Proof. rewrite range_keys_perm. apply NoDup_fst_map_to_list. Qed.

Lemma elem_of_range_keys {A} (m : gmap Z A) k : k ∈ range_keys m ↔ is_Some (m !! k).
Proof.
  rewrite range_keys_perm, list_elem_of_fmap. split.
  - intros ([k' a] & -> & H). apply elem_of_map_to_list in H. by eexists.
  - intros [a H]. exists (k, a). by rewrite elem_of_map_to_list.
Qed.

(** A loop whose rounds change only their own subscriber, as seen by [view]. *)
Lemma for_each_view {St V} (view : St → gmap Z V) (inv : St → Prop) (f : V → V) (body : Z → eff St unit) :
  (∀ k s, inv s → ∃ s', body k s = (s', Ret tt) ∧ inv s' ∧ view s' = alter f k (view s)) →
  ∀ ks s, NoDup ks → inv s →
  ∃ s', for_each ks body s = (s', Ret tt) ∧ inv s' ∧
    ∀ k, view s' !! k = (if bool_decide (k ∈ ks) then f <$> view s !! k else view s !! k).
Proof.
  intros Hbody ks. induction ks as [|k ks IH]; intros s Hnd Hs.
  { exists s. split; [done|]. split; [done|]. intros k. by rewrite bool_decide_false by set_solver. }
  apply NoDup_cons in Hnd as [Hk Hnd]. destruct (Hbody k s Hs) as (s1 & E1 & H1 & Hv1).
  destruct (IH s1 Hnd H1) as (s2 & E2 & H2 & Hv2). exists s2. cbn [for_each].
  rewrite (eff_bind_Ret _ _ _ s1 tt) by done. split; [done|]. split; [done|].
  intros j. rewrite Hv2, Hv1. destruct (decide (j = k)) as [->|Hjk].
  - rewrite bool_decide_false, bool_decide_true by set_solver. by rewrite lookup_alter_eq.
  - rewrite lookup_alter_ne by done.
    destruct (decide (j ∈ ks)); [rewrite !bool_decide_true by set_solver|rewrite !bool_decide_false by set_solver]; done.
Qed.

Lemma for_each_all {St V A} (view : St → gmap Z V) (inv : St → Prop) (f : V → V) (body : Z → eff St unit) (m : gmap Z A) s :
  (∀ k s, inv s → ∃ s', body k s = (s', Ret tt) ∧ inv s' ∧ view s' = alter f k (view s)) →
  inv s → dom (view s) = dom m →
  ∃ s', for_each (range_keys m) body s = (s', Ret tt) ∧ inv s' ∧ view s' = f <$> view s.
Proof.
  intros Hbody Hs Hd. destruct (for_each_view view inv f body Hbody (range_keys m) s) as (s' & E & H & Hv).
  { apply range_keys_NoDup. } { done. }
  exists s'. split; [done|]. split; [done|]. apply map_eq. intros k. rewrite Hv, lookup_fmap.
  case_bool_decide as Hk; [done|]. rewrite elem_of_range_keys, <- elem_of_dom, <- Hd, elem_of_dom in Hk.
  apply eq_None_not_Some in Hk. by rewrite Hk.
Qed.
End RangeFacts.

(** ** Writing the cache out *)

Section WriteFacts.
Context {St : Type} (write : list Z → eff St unit) (upd : list (list Z) → St → St).
Context (upd_nil : ∀ s, upd [] s = s) (upd_app : ∀ l l' s, upd (l ++ l') s = upd l' (upd l s)).
Context (write_upd : ∀ b s, write b s = (upd [b] s, Ret tt)).

Lemma write_opt_upd o s : write_opt write o s = (upd (opt_list o) s, Ret tt).
Proof. destruct o; cbn; [done|by rewrite upd_nil]. Qed.

Lemma write_all_upd l : ∀ s, write_all write l s = (upd l s, Ret tt).
Proof.
  induction l as [|b l IH]; intros s; cbn [write_all]; [by rewrite upd_nil|].
  rewrite (eff_bind_Ret _ _ _ _ _ (write_upd b s)), IH. by rewrite <- upd_app.
Qed.

Lemma write_gops_upd gc q : GopCache.ring_ok gc → GopCache.holds gc q → ∀ n i s,
  Z.of_nat n + i = len q → 0 ≤ i →
  write_gops write gc n i s = (upd (concat (drop (Z.to_nat i) q)) s, Ret tt).
Proof.
  intros Hok Hq n. induction n as [|n IH]; intros i s Hn Hi; cbn [write_gops].
  { rewrite drop_ge by lia. cbn. by rewrite upd_nil. }
  rewrite (GopCache.GetGopDataAt_holds gc q i), eff_bind_lift by done.
  destruct (lookup_lt_is_Some_2 q (Z.to_nat i)) as [g Hg]; [lia|]. rewrite Hg. cbn [default from_option].
  rewrite (eff_bind_Ret _ _ _ _ _ (write_all_upd g s)), IH by lia.
  rewrite (drop_S q g (Z.to_nat i)) by done. cbn [concat]. rewrite upd_app.
  by replace (Z.to_nat (i + 1)) with (S (Z.to_nat i)) by lia.
Qed.

Lemma write_cache_upd gc q s : GopCache.ring_ok gc → GopCache.holds gc q →
  write_gops write gc (Z.to_nat (len q)) 0 s = (upd (concat q) s, Ret tt).
Proof. intros Hok Hq. rewrite (write_gops_upd gc q) by (done || lia). done. Qed.
End WriteFacts.

(** Changes of one subscriber, in sequence. *)
Lemma alter_alter {A} (f g : A → A) k (m : gmap Z A) : alter g k (alter f k m) = alter (λ a, g (f a)) k m.
Proof.
  apply map_eq. intros j. destruct (decide (j = k)) as [->|].
  - rewrite !lookup_alter_eq. by destruct (m !! k).
  - by rewrite !lookup_alter_ne.
Qed.
Lemma alter_same {A} (f : A → A) k (m : gmap Z A) :
  (∀ a, m !! k = Some a → f a = a) → alter f k m = m.
Proof. apply alter_id. Qed.

Lemma write_sub_nil s : write_sub [] s = s.
Proof. destruct s as [f w l]. unfold write_sub. cbn. by rewrite app_nil_r. Qed.
Lemma write_sub_app l l' s : write_sub (l ++ l') s = write_sub l' (write_sub l s).
Proof. unfold write_sub. cbn. by rewrite app_assoc. Qed.

(** A cache that holds the queue [q] of groups. *)
Definition cached (r : GopRing) (q : list (list (list Z))) : Prop := GopCache.ring_ok r ∧ GopCache.holds r q.

Definition joined (hdr : list (list Z)) (q : list (list (list Z))) (s : Sub) : Sub :=
  mkSub false (ShouldWait s && bool_decide (q = [])) (written s ++ hdr ++ concat q).

Lemma join_fresh hdr q s : IsFresh s = true → joined hdr q s = join hdr q s.
Proof. unfold join. by intros ->. Qed.
Lemma join_old hdr q s : IsFresh s = false → join hdr q s = s.
Proof. unfold join. by intros ->. Qed.
Lemma join_wait hdr q s : IsFresh (join hdr q s) = false.
Proof. unfold join. by destruct (IsFresh s) eqn:E. Qed.

Lemma deliver_waiting b s : ShouldWait s = true → deliver false b s = s.
Proof. unfold deliver. by intros ->. Qed.
Lemma deliver_active key b s : ShouldWait s = false → deliver key b s = write_sub [b] s.
Proof. unfold deliver. destruct s as [f w l]. cbn. by intros ->. Qed.

Lemma count_zero (q : list (list (list Z))) : (len q >? 0) = negb (bool_decide (q = [])).
Proof. destruct q; [done|]. rewrite bool_decide_false by done. rewrite length_cons. apply Z.gtb_lt. lia. Qed.

Section SetWriter.
Context (k : Z).
Let write b := on_sub (write_sub [b]) k.
Let upd l (m : gmap Z Sub) := alter (write_sub l) k m.
Lemma sub_upd_nil m : upd [] m = m.
Proof. apply alter_same. intros. apply write_sub_nil. Qed.
Lemma sub_upd_app l l' m : upd (l ++ l') m = upd l' (upd l m).
Proof. unfold upd. rewrite alter_alter. apply alter_ext. intros. apply write_sub_app. Qed.
Lemma sub_write_upd b m : write b m = (upd [b] m, Ret tt).
Proof. done. Qed.

Definition sub_opt := write_opt_upd write upd sub_upd_nil sub_write_upd.
Definition sub_cache := write_cache_upd write upd sub_upd_nil sub_upd_app sub_write_upd.
End SetWriter.

Lemma no_wait_upd b k (m : gmap Z Sub) : (if negb b then on_sub no_wait k else mret tt) m =
  (alter (λ s, mkSub (IsFresh s) (ShouldWait s && b) (written s)) k m, Ret tt).
Proof.
  destruct b; cbn.
  - rewrite alter_same; [done|]. intros [] _. cbn. by rewrite andb_true_r.
  - unfold on_sub, update. f_equal. apply alter_ext. intros [] _. unfold no_wait. cbn. by rewrite andb_false_r.
Qed.

Lemma flv_fresh_upd c q k m : cached (GopCache.ring c) q →
  flv_fresh c k m = (alter (joined (headers c) q) k m, Ret tt).
Proof.
  intros [Hok Hq]. unfold flv_fresh. cbv zeta.
  rewrite (eff_bind_Ret _ _ _ _ _ (sub_opt k _ _)), (eff_bind_Ret _ _ _ _ _ (sub_opt k _ _)),
    (eff_bind_Ret _ _ _ _ _ (sub_opt k _ _)).
  rewrite (GopCache.GetGopCount_holds _ q), eff_bind_lift, count_zero by done.
  rewrite (eff_bind_Ret _ _ _ _ _ (no_wait_upd _ _ _)), (eff_bind_Ret _ _ _ _ _ (sub_cache k _ q _ Hok Hq)).
  unfold on_sub, update, joined, headers. f_equal. rewrite !alter_alter. apply alter_ext.
  intros [f w l] _. unfold write_sub, no_fresh. cbn. by rewrite <- !app_assoc.
Qed.

Lemma fresh_upd (fresh : eff (gmap Z Sub) unit) hdr q k s m :
  m !! k = Some s → fresh m = (alter (joined hdr q) k m, Ret tt) →
  (if IsFresh s then fresh else mret tt) m = (alter (join hdr q) k m, Ret tt).
Proof.
  intros Hk Hf. destruct (IsFresh s) eqn:Es.
  - rewrite Hf. f_equal. apply alter_ext. intros s' Hs. simplify_eq. by apply join_fresh.
  - rewrite alter_same; [done|]. intros s' Hs. simplify_eq. by apply join_old.
Qed.

(** The message after that, as both kinds of HTTP readers are given it. *)
Lemma deliver_upd key b k s m : m !! k = Some s →
  (if ShouldWait s then if key : bool then _ ← on_sub (write_sub [b]) k; on_sub no_wait k else mret tt
   else on_sub (write_sub [b]) k) m = (alter (deliver key b) k m, Ret tt).
Proof.
  intros Hk.
  assert (Hd : ∀ f, f s = deliver key b s → alter f k m = alter (deliver key b) k m).
  { intros f Hf. apply alter_ext. intros s' Hs. by simplify_eq. }
  destruct (ShouldWait s) eqn:Ew.
  - destruct key.
    + rewrite (eff_bind_Ret _ _ _ _ _ (sub_write_upd k b _)).
      unfold on_sub, update. f_equal. rewrite alter_alter. apply Hd. unfold deliver. by rewrite Ew.
    + unfold mret, eff_ret. f_equal. rewrite <- (Hd (λ s, s)); [by rewrite alter_same|]. by rewrite deliver_waiting.
  - rewrite sub_write_upd. f_equal. apply Hd. by rewrite deliver_active.
Qed.

Section Readers.
Context {RO : RangeOrder} {B : Bele} {BS : BeleStream} {NB : NazaBuffer} {BI : NazaBits}.

Lemma flv_round_upd c q msg key b k m :
  cached (GopCache.ring c) q → IsVideoKeyNalu msg = Ret key → tag_without msg = Ret b →
  flv_round c msg k m = (alter (receive (headers c) q key b) k m, Ret tt).
Proof.
  intros Hc Hkey Hb. unfold flv_round. rewrite state_bind.
  destruct (m !! k) as [s|] eqn:Hk.
  2:{ rewrite alter_same; [done|]. intros s Hs. by rewrite Hk in Hs. }
  rewrite (eff_bind_Ret _ _ _ _ _ (fresh_upd _ (headers c) q k s m Hk (flv_fresh_upd c q k m Hc))).
  rewrite state_bind, lookup_alter_eq, Hk.
  cbn [fmap option_fmap option_map]. rewrite Hkey, Hb. unfold receive. rewrite <- (alter_alter (join (headers c) q)).
  rewrite <- (deliver_upd key b k (join (headers c) q s)) by (by rewrite lookup_alter_eq, Hk).
  by destruct (ShouldWait _), key.
Qed.

Lemma flv_subs_upd o q msg key b :
  cached (GopCache.ring (httpflvGopCache o)) q → IsVideoKeyNalu msg = Ret key → tag_without msg = Ret b →
  flv_subs msg o = (mkFlvOut (httpflvGopCache o)
    (receive (headers (httpflvGopCache o)) q key b <$> httpflvSubSessionSet o)
    ((λ r, r ++ [b]) <$> recordFlv o), Ret tt).
Proof.
  intros Hc Hkey Hb. unfold flv_subs. rewrite state_bind.
  destruct (for_each_all id (λ _, True) (receive (headers (httpflvGopCache o)) q key b)
    (flv_round (httpflvGopCache o) msg) (httpflvSubSessionSet o) (httpflvSubSessionSet o)) as (m & E & _ & Hm); [|done|done|].
  { intros k m _. eexists. split; [by apply flv_round_upd|done]. }
  unfold zoom. rewrite (eff_bind_Ret _ _ o (set_flv_subs o m) tt) by (by rewrite E).
  cbv [id] in Hm. rewrite Hm. destruct (recordFlv o) as [r|] eqn:Er.
  - rewrite Hb, eff_bind_lift. unfold update, set_flv_record, set_flv_subs. done.
  - unfold set_flv_subs. by rewrite Er.
Qed.

Lemma ts_fresh_upd tables r q k m : cached r q →
  ts_fresh tables r k m = (alter (joined [tables] q) k m, Ret tt).
Proof.
  intros [Hok Hq]. unfold ts_fresh. cbv zeta.
  rewrite (eff_bind_Ret _ _ _ _ _ (sub_write_upd k _ _)).
  rewrite (GopCache.GetGopCount_holds _ q), eff_bind_lift, count_zero by done.
  rewrite (eff_bind_Ret _ _ _ _ _ (sub_cache k _ q _ Hok Hq)), (eff_bind_Ret _ _ _ _ _ (no_wait_upd _ _ _)).
  unfold on_sub, update, joined. f_equal. rewrite !alter_alter. apply alter_ext.
  intros [f w l] _. unfold write_sub, no_fresh. cbn. by rewrite <- !app_assoc.
Qed.

Lemma ts_round_upd tables r q b boundary k m : cached r q →
  ts_round tables r b boundary k m = (alter (receive [tables] q boundary b) k m, Ret tt).
Proof.
  intros Hc. unfold ts_round. rewrite state_bind.
  destruct (m !! k) as [s|] eqn:Hk.
  2:{ rewrite alter_same; [done|]. intros s Hs. by rewrite Hk in Hs. }
  rewrite (eff_bind_Ret _ _ _ _ _ (fresh_upd _ [tables] q k s m Hk (ts_fresh_upd tables r q k m Hc))).
  rewrite state_bind, lookup_alter_eq, Hk.
  cbn [fmap option_fmap option_map]. unfold receive. rewrite <- (alter_alter (join [tables] q)).
  by rewrite <- (deliver_upd boundary b k (join [tables] q s)) by (by rewrite lookup_alter_eq, Hk).
Qed.
End Readers.

(** ** The merge writer hides only when data is sent

    An RTMP subscriber's data as a subscriber that is written at once would have
    it: what the merge writer holds counts for those that will be given it. *)
Definition pending (o : RtmpOut) : list (list Z) :=
  match rtmpMergeWriter o with Some w => bs w | None => [] end.
Definition seen (p : list (list Z)) (s : Sub) : Sub := if active s then write_sub p s else s.
Definition rtmp_view (o : RtmpOut) : gmap Z Sub := seen (pending o) <$> rtmpSubSessionSet o.

Definition mw_ok (o : RtmpOut) : Prop :=
  match rtmpMergeWriter o with Some w => (bs w = [] ∧ currSize w = 0) ∨ 0 < currSize w | None => True end.

(** What the rounds leave alone. *)
Definition rest_same (o o' : RtmpOut) : Prop :=
  rtmpGopCache o' = rtmpGopCache o ∧ pushEnable o' = pushEnable o ∧ url2PushProxy o' = url2PushProxy o.

Lemma seen_nil s : seen [] s = s.
Proof. unfold seen. destruct (active s); [apply write_sub_nil|done]. Qed.
Lemma view_subs o : pending o = [] → rtmp_view o = rtmpSubSessionSet o.
Proof.
  unfold rtmp_view. intros ->. rewrite <- (map_fmap_id (rtmpSubSessionSet o)) at 2.
  apply map_fmap_ext. intros. apply seen_nil.
Qed.
Lemma seen_flags p s : IsFresh (seen p s) = IsFresh s ∧ ShouldWait (seen p s) = ShouldWait s.
Proof. unfold seen. by destruct (active s). Qed.
Lemma active_write l s : active (write_sub l s) = active s.
Proof. done. Qed.

Lemma flush_view o w : rtmpMergeWriter o = Some w →
  ∃ o', flush w o = (o', Ret tt) ∧ pending o' = [] ∧ mw_ok o' ∧ rtmp_view o' = rtmp_view o ∧ rest_same o o'.
Proof.
  intros Ew. eexists. split; [reflexivity|]. split; [done|]. split; [by left|]. split; [|done].
  rewrite view_subs by done. unfold rtmp_view, pending. rewrite Ew. done.
Qed.

Lemma Flush_view o : mw_ok o →
  ∃ o', Flush o = (o', Ret tt) ∧ pending o' = [] ∧ mw_ok o' ∧ rtmp_view o' = rtmp_view o ∧ rest_same o o'.
Proof.
  intros Hw. unfold Flush. rewrite state_bind. unfold mw_ok in Hw.
  destruct (rtmpMergeWriter o) as [w|] eqn:Ew.
  - destruct Hw as [[Hbs Hc]|Hc]; [rewrite Hc; cbn|].
    + exists o. unfold pending, mw_ok. rewrite Ew. split; [done|]. split; [done|]. split; [by left|done].
    + rewrite (proj2 (Z.gtb_lt _ _)) by done. by apply flush_view.
  - exists o. unfold pending, mw_ok. by rewrite Ew.
Qed.

(** A change of a subscriber that commutes with what is pending. *)
Lemma on_rtmp_view f k o :
  (∀ s, rtmpSubSessionSet o !! k = Some s → seen (pending o) (f s) = f (seen (pending o) s)) →
  rtmp_view (set_subs o (alter f k (rtmpSubSessionSet o))) = alter f k (rtmp_view o).
Proof.
  intros Hf. unfold rtmp_view. cbn [rtmpSubSessionSet set_subs].
  change (pending (set_subs o _)) with (pending o). apply map_eq. intros j.
  rewrite lookup_fmap. destruct (decide (j = k)) as [->|].
  - rewrite !lookup_alter_eq, lookup_fmap. destruct (_ !! k) eqn:E; [|done]. cbn. by rewrite Hf.
  - by rewrite !lookup_alter_ne, lookup_fmap.
Qed.

Section RtmpWriter.
Context (k : Z).
Let write b := on_rtmp (write_sub [b]) k.
Let upd l (o : RtmpOut) := set_subs o (alter (write_sub l) k (rtmpSubSessionSet o)).
Lemma rtmp_upd_nil o : upd [] o = o.
Proof. unfold upd. rewrite (sub_upd_nil k). by destruct o. Qed.
Lemma rtmp_upd_app l l' o : upd (l ++ l') o = upd l' (upd l o).
Proof. unfold upd. by rewrite (sub_upd_app k). Qed.
Lemma rtmp_write_upd b o : write b o = (upd [b] o, Ret tt).
Proof. done. Qed.

Definition rtmp_opt := write_opt_upd write upd rtmp_upd_nil rtmp_write_upd.
Definition rtmp_cache := write_cache_upd write upd rtmp_upd_nil rtmp_upd_app rtmp_write_upd.
End RtmpWriter.

Lemma rtmp_no_wait_upd b k o : (if negb b then on_rtmp no_wait k else mret tt) o =
  (set_subs o (alter (λ s, mkSub (IsFresh s) (ShouldWait s && b) (written s)) k (rtmpSubSessionSet o)), Ret tt).
Proof.
  destruct b; cbn [negb].
  - rewrite alter_same; [by destruct o|]. intros [] _. cbn. by rewrite andb_true_r.
  - unfold on_rtmp, update. do 2 f_equal. apply alter_ext. intros [] _. unfold no_wait. cbn. by rewrite andb_false_r.
Qed.

Lemma rtmp_fresh_view k q s o :
  cached (GopCache.ring (rtmpGopCache o)) q → mw_ok o → rtmp_view o !! k = Some s → IsFresh s = true →
  ∃ o', rtmp_fresh k o = (o', Ret tt) ∧ mw_ok o' ∧ rest_same o o' ∧
    rtmp_view o' = alter (joined (headers (rtmpGopCache o)) q) k (rtmp_view o).
Proof.
  intros [Hok Hq] Hw Hk Hs. unfold rtmp_fresh. rewrite state_bind. cbv zeta.
  rewrite (eff_bind_Ret _ _ _ _ _ (rtmp_opt k _ _)), (eff_bind_Ret _ _ _ _ _ (rtmp_opt k _ _)),
    (eff_bind_Ret _ _ _ _ _ (rtmp_opt k _ _)).
  rewrite (GopCache.GetGopCount_holds _ q), eff_bind_lift, count_zero by done.
  rewrite (eff_bind_Ret _ _ _ _ _ (rtmp_no_wait_upd _ _ _)), (eff_bind_Ret _ _ _ _ _ (rtmp_cache k _ q _ Hok Hq)).
  set (g s := mkSub (IsFresh s) (ShouldWait s && bool_decide (q = [])) (written s ++ headers (rtmpGopCache o) ++ concat q)).
  match goal with |- ∃ o', (Flush ≫= _) ?o1 = _ ∧ _ => assert (H1 : o1 = set_subs o (alter g k (rtmpSubSessionSet o))) end.
  { unfold set_subs. cbn. f_equal. rewrite !alter_alter. apply alter_ext. intros [f w l] _.
    unfold write_sub, g, headers. cbn. by rewrite <- !app_assoc. }
  rewrite H1. clear H1. set (o1 := set_subs o _).
  destruct (Flush_view o1) as (o2 & E2 & P2 & W2 & V2 & F2); [done|]. rewrite (eff_bind_Ret _ _ _ _ _ E2).
  eexists. split; [reflexivity|]. split; [done|]. split; [done|].
  rewrite on_rtmp_view by (intros; by rewrite P2, !seen_nil).
  rewrite V2. unfold o1. rewrite on_rtmp_view, alter_alter; [done|].
  intros s' Hs'. unfold rtmp_view in Hk. rewrite lookup_fmap, Hs' in Hk. injection Hk as <-.
  rewrite (proj1 (seen_flags _ _)) in Hs. unfold seen, active. cbn [g IsFresh]. by rewrite Hs.
Qed.

(** What a round does: [join], and the wait ends at a key frame. *)
Definition joining (hdr : list (list Z)) (q : list (list (list Z))) (key : bool) (s : Sub) : Sub :=
  let s := join hdr q s in if key then no_wait s else s.

Lemma view_lookup o k s : rtmp_view o !! k = Some s →
  ∃ s0, rtmpSubSessionSet o !! k = Some s0 ∧ s = seen (pending o) s0.
Proof. unfold rtmp_view. rewrite lookup_fmap, fmap_Some. done. Qed.

Lemma rtmp_join_view k q s o :
  cached (GopCache.ring (rtmpGopCache o)) q → mw_ok o → rtmp_view o !! k = Some s →
  ∃ o', (if IsFresh s then rtmp_fresh k else mret tt) o = (o', Ret tt) ∧ mw_ok o' ∧ rest_same o o' ∧
    rtmp_view o' = alter (join (headers (rtmpGopCache o)) q) k (rtmp_view o).
Proof.
  intros Hc Hw Hv. destruct (IsFresh s) eqn:Es.
  - destruct (rtmp_fresh_view k q s o) as (o1 & E1 & W1 & F1 & V1); [done..|].
    exists o1. split; [done|]. split; [done|]. split; [done|]. rewrite V1. apply alter_ext.
    intros s' Hs'. simplify_eq. by apply join_fresh.
  - exists o. split; [done|]. split; [done|]. split; [done|]. symmetry. apply alter_same.
    intros s' Hs'. simplify_eq. by apply join_old.
Qed.

Lemma rtmp_wait_view k (key : bool) o s : mw_ok o → rtmp_view o !! k = Some s →
  ∃ o', (if ShouldWait s && key then _ ← Flush; on_rtmp no_wait k else mret tt) o = (o', Ret tt) ∧
    mw_ok o' ∧ rest_same o o' ∧ rtmp_view o' = alter (λ s, if key then no_wait s else s) k (rtmp_view o).
Proof.
  intros Hw Hv. destruct (ShouldWait s && key) eqn:E.
  - apply andb_prop in E as [_ ->]. destruct (Flush_view o) as (o2 & E2 & P2 & W2 & V2 & F2); [done|].
    rewrite (eff_bind_Ret _ _ _ _ _ E2). eexists. split; [reflexivity|]. split; [done|]. split; [done|].
    by rewrite on_rtmp_view, V2 by (intros; by rewrite P2, !seen_nil).
  - exists o. split; [done|]. split; [done|]. split; [done|]. symmetry. apply alter_same.
    intros s' Hs'. simplify_eq. destruct key; [|done]. rewrite andb_true_r in E.
    destruct s as [f w l]. cbn in E. by subst w.
Qed.

Lemma rtmp_round_view k msg key q o :
  cached (GopCache.ring (rtmpGopCache o)) q → mw_ok o → IsVideoKeyNalu msg = Ret key →
  ∃ o', rtmp_round msg k o = (o', Ret tt) ∧ mw_ok o' ∧ rest_same o o' ∧
    rtmp_view o' = alter (joining (headers (rtmpGopCache o)) q key) k (rtmp_view o).
Proof.
  intros Hc Hw Hkey. unfold rtmp_round. rewrite state_bind.
  destruct (rtmpSubSessionSet o !! k) as [s|] eqn:Hk.
  2:{ exists o. split; [done|]. split; [done|]. split; [done|]. symmetry. apply alter_same.
      intros s Hs. apply view_lookup in Hs as (s0 & Hs & _). by rewrite Hk in Hs. }
  assert (Hv : rtmp_view o !! k = Some (seen (pending o) s)) by (unfold rtmp_view; by rewrite lookup_fmap, Hk).
  destruct (rtmp_join_view k q _ o Hc Hw Hv) as (o1 & E1 & W1 & F1 & V1).
  rewrite (proj1 (seen_flags _ _)) in E1. rewrite (eff_bind_Ret _ _ _ _ _ E1), state_bind. cbv zeta.
  assert (Hv1 : rtmp_view o1 !! k = Some (join (headers (rtmpGopCache o)) q (seen (pending o) s)))
    by (by rewrite V1, lookup_alter_eq, Hv).
  destruct (view_lookup _ _ _ Hv1) as (s1 & -> & Hs1).
  destruct (rtmp_wait_view k key o1 _ W1 Hv1) as (o2 & E2 & W2 & F2 & V2).
  exists o2. split; [|split; [done|split; [unfold rest_same in *; intuition congruence|]]].
  - rewrite <- E2, Hs1, (proj2 (seen_flags _ _)), Hkey. by destruct (ShouldWait s1), key.
  - by rewrite V2, V1, alter_alter.
Qed.

(** A relayed push waits for no key frame. *)
Definition push_receive (hdr : list (list Z)) (q : list (list (list Z))) (b : list Z) (s : Sub) : Sub :=
  mkSub false (ShouldWait s) (written s ++ (if IsFresh s then hdr ++ concat q else []) ++ [b]).

Section PushWriter.
Context (k : Z).
Let write b := on_push (write_sub [b]) k.
Let upd l (m : gmap Z (option Sub)) := alter (fmap (write_sub l)) k m.
Lemma push_upd_nil m : upd [] m = m.
Proof. apply alter_same. intros [s|] _; [|done]. cbn. by rewrite write_sub_nil. Qed.
Lemma push_upd_app l l' m : upd (l ++ l') m = upd l' (upd l m).
Proof. unfold upd. rewrite alter_alter. apply alter_ext. intros [s|] _; [|done]. cbn. by rewrite write_sub_app. Qed.
Lemma push_write_upd b m : write b m = (upd [b] m, Ret tt).
Proof. done. Qed.

Definition push_opt := write_opt_upd write upd push_upd_nil push_write_upd.
Definition push_cache := write_cache_upd write upd push_upd_nil push_upd_app push_write_upd.
End PushWriter.

Lemma push_fresh_upd c q k m : cached (GopCache.ring c) q →
  push_fresh c k m = (alter (fmap (λ s, mkSub false (ShouldWait s) (written s ++ push_headers c ++ concat q))) k m, Ret tt).
Proof.
  intros [Hok Hq]. unfold push_fresh. cbv zeta.
  rewrite (eff_bind_Ret _ _ _ _ _ (push_opt k _ _)), (eff_bind_Ret _ _ _ _ _ (push_opt k _ _)),
    (eff_bind_Ret _ _ _ _ _ (push_opt k _ _)).
  rewrite (GopCache.GetGopCount_holds _ q), eff_bind_lift by done.
  rewrite (eff_bind_Ret _ _ _ _ _ (push_cache k _ q _ Hok Hq)).
  unfold on_push, update, push_headers. f_equal. rewrite !alter_alter. apply alter_ext.
  intros [[f w l]|] _; [|done]. unfold write_sub, no_fresh. cbn. by rewrite <- !app_assoc.
Qed.

Section RtmpReaders.
Context {RO : RangeOrder} {B : Bele} {BS : BeleStream} {NB : NazaBuffer} {BI : NazaBits}.

Lemma push_round_upd c q msg b k m : cached (GopCache.ring c) q → chunks_with msg = Ret b →
  push_round c msg k m = (alter (fmap (push_receive (push_headers c) q b)) k m, Ret tt).
Proof.
  intros Hc Hb. unfold push_round. rewrite state_bind.
  destruct (m !! k) as [[s|]|] eqn:Hk.
  2,3: rewrite alter_same; [done|]; intros s Hs; by simplify_eq.
  assert (E : (if IsFresh s then push_fresh c k else mret tt) m = (alter (fmap (λ s, mkSub false (ShouldWait s)
    (written s ++ (if IsFresh s then push_headers c ++ concat q else [])))) k m, Ret tt)).
  { destruct (IsFresh s) eqn:Es.
    - rewrite (push_fresh_upd c q) by done. f_equal. apply alter_ext. intros s' Hs'. simplify_eq.
      cbn. by rewrite Es.
    - rewrite alter_same; [done|]. intros s' Hs'. simplify_eq. destruct s as [f w l]. cbn in *. subst f.
      by rewrite app_nil_r. }
  rewrite (eff_bind_Ret _ _ _ _ _ E), Hb, eff_bind_lift. unfold on_push, update. f_equal.
  rewrite alter_alter. apply alter_ext. intros [[f w l]|] _; [|done]. cbn. unfold write_sub, push_receive. cbn.
  by rewrite <- app_assoc.
Qed.

Lemma rtmp_pushes_upd o q msg b : cached (GopCache.ring (rtmpGopCache o)) q → chunks_with msg = Ret b →
  rtmp_pushes msg o =
    (set_push o ((λ p : option Sub, push_receive (push_headers (rtmpGopCache o)) q b <$> p) <$> url2PushProxy o), Ret tt).
Proof.
  intros Hc Hb. unfold rtmp_pushes. rewrite state_bind.
  destruct (pushEnable o || negb (bool_decide (url2PushProxy o = ∅))) eqn:E.
  - destruct (for_each_all id (λ _, True) (fmap (push_receive (push_headers (rtmpGopCache o)) q b))
      (push_round (rtmpGopCache o) msg) (url2PushProxy o) (url2PushProxy o)) as (m & Em & _ & Hm); [|done|done|].
    { intros k m _. eexists. split; [by apply push_round_upd|done]. }
    unfold zoom. rewrite Em. cbv [id] in Hm. by rewrite Hm.
  - apply orb_false_elim in E as [_ E]. rewrite negb_false_iff, bool_decide_eq_true in E.
    rewrite E, fmap_empty. rewrite <- E. by destruct o.
Qed.

Lemma joining_deliver hdr q key b s :
  (λ s, if active s then write_sub [b] s else s) (joining hdr q key s) = receive hdr q key b s.
Proof.
  unfold joining, receive, deliver, active, no_wait. pose proof (join_wait hdr q s).
  destruct (join hdr q s) as [f w l]. cbn in *. subst f. by destruct key, w.
Qed.

Lemma write_view o b : mw_ok o → b ≠ [] →
  ∃ o', match rtmpMergeWriter o with None => write2RtmpSubSessions b | Some w => mw_Write w b end o = (o', Ret tt) ∧
    mw_ok o' ∧ rest_same o o' ∧ rtmp_view o' = (λ s, if active s then write_sub [b] s else s) <$> rtmp_view o.
Proof.
  intros Hw Hb. assert (0 < len b) by (destruct b; [done|rewrite length_cons; lia]).
  unfold mw_ok in Hw. destruct (rtmpMergeWriter o) as [w|] eqn:Ew.
  - unfold mw_Write. cbv zeta. set (w' := mkMw _ _ _).
    assert (Hv : (λ s, if active s then write_sub [b] s else s) <$> rtmp_view o =
      seen (bs w') <$> rtmpSubSessionSet o).
    { unfold rtmp_view, pending. rewrite Ew, <- map_fmap_compose. apply map_fmap_ext. intros k s _.
      unfold seen. cbn. destruct (active s) eqn:Ea; [|by rewrite Ea]. by rewrite active_write, Ea, write_sub_app. }
    destruct (currSize w' >=? size w').
    + eexists. split; [reflexivity|]. split; [by left|]. split; [done|]. by rewrite Hv, view_subs.
    + eexists. split; [reflexivity|]. split; [right; cbn; lia|]. by split.
  - eexists. split; [reflexivity|]. split; [unfold mw_ok; cbn; by rewrite Ew|]. split; [done|].
    by rewrite (view_subs o), view_subs by (unfold pending; cbn; by rewrite Ew).
Qed.

Lemma rtmp_subs_view o q msg key b :
  cached (GopCache.ring (rtmpGopCache o)) q → mw_ok o → IsVideoKeyNalu msg = Ret key →
  chunks_without msg = Ret b → b ≠ [] →
  ∃ o', rtmp_subs msg o = (o', Ret tt) ∧ mw_ok o' ∧ rest_same o o' ∧
    rtmp_view o' = receive (headers (rtmpGopCache o)) q key b <$> rtmp_view o.
Proof.
  intros Hc Hw Hkey Hb Hb0. unfold rtmp_subs. rewrite state_bind.
  destruct (for_each_all rtmp_view (λ o', mw_ok o' ∧ rest_same o o') (joining (headers (rtmpGopCache o)) q key)
    (rtmp_round msg) (rtmpSubSessionSet o) o) as (o1 & E1 & [W1 F1] & V1); [|done|apply dom_fmap_L|].
  { intros k o1 [W1 F1]. pose proof (proj1 F1) as Hcache. rewrite <- Hcache in Hc |- *.
    destruct (rtmp_round_view k msg key q o1 Hc W1 Hkey) as (o2 & E2 & W2 & F2 & V2).
    exists o2. split; [done|]. split; [split; [done|unfold rest_same in *; intuition congruence]|done]. }
  rewrite (eff_bind_Ret _ _ _ _ _ E1), state_bind.
  assert (Hview : (λ s, if active s then write_sub [b] s else s) <$> rtmp_view o1 =
    receive (headers (rtmpGopCache o)) q key b <$> rtmp_view o).
  { rewrite V1, <- map_fmap_compose. apply map_fmap_ext. intros. apply joining_deliver. }
  case_bool_decide as He.
  - exists o1. split; [done|]. split; [done|]. split; [done|]. rewrite <- Hview. unfold rtmp_view.
    by rewrite He, !fmap_empty.
  - rewrite Hb, eff_bind_lift. destruct (write_view o1 b W1 Hb0) as (o2 & E2 & W2 & F2 & V2).
    exists o2. split; [done|]. split; [done|]. split; [unfold rest_same in *; intuition congruence|by rewrite V2].
Qed.
End RtmpReaders.

(** ** Feeding the caches *)

Section Caches.
Context {RO : RangeOrder} {B : Bele} {BS : BeleStream} {NB : NazaBuffer} {BI : NazaBits}.

Definition cache_spec (c : GopCache) (msg : RtmpMsg) (q : list (list (list Z))) (b : list Z) : list (list (list Z)) :=
  snd (GopCache.spec_Feed (GopCache.gopSize (GopCache.ring c) - 1)
         (GopCache.singleGopMaxFrameNum (GopCache.ring c)) msg q b).

Lemma feed_rtmp_cache_ok o q msg b w :
  cached (GopCache.ring (rtmpGopCache o)) q → GopCache.tests_return msg →
  chunks_without msg = Ret b → chunks_with msg = Ret w →
  ∃ c, feed_rtmp_cache msg o = (set_rtmp_cache o c, Ret tt) ∧
    cached (GopCache.ring c) (cache_spec (rtmpGopCache o) msg q b).
Proof.
  intros [Hok Hq] Ht Hb Hw. unfold feed_rtmp_cache. rewrite state_bind, Hb, eff_bind_lift.
  destruct (GopCache.Feed_refines (rtmpGopCache o) q msg b Hok Hq Ht) as (rg & E & Hr1 & Hr2 & _).
  rewrite E, eff_bind_lift. destruct (_ =? RtmpTypeIdMetadata).
  - rewrite Hw. eexists. split; [reflexivity|]. by split.
  - eexists. split; [reflexivity|]. by split.
Qed.

Lemma feed_flv_cache_ok o q msg b :
  cached (GopCache.ring (httpflvGopCache o)) q → GopCache.tests_return msg → tag_without msg = Ret b →
  ∃ c, feed_flv_cache msg o = (set_flv_cache o c, Ret tt) ∧
    cached (GopCache.ring c) (cache_spec (httpflvGopCache o) msg q b).
Proof.
  intros [Hok Hq] Ht Hb. unfold feed_flv_cache. rewrite state_bind, Hb, eff_bind_lift.
  destruct (GopCache.Feed_refines (httpflvGopCache o) q msg b Hok Hq Ht) as (rg & E & Hr1 & Hr2 & _).
  rewrite E, eff_bind_lift. destruct (_ =? RtmpTypeIdMetadata).
  - eexists. split; [reflexivity|]. by split.
  - eexists. split; [reflexivity|]. by split.
Qed.
End Caches.

(** ** The wait of an RTSP player *)

Section RtspFacts.
Context {RO : RangeOrder} {Sdp : Type} {SC : SdpContext Sdp}.

(** The start of a GOP that arrives after DESCRIBE and before PLAY is not sent,
    and yet it ends the wait: the player will start inside the GOP. *)
Lemma rtsp_wait_lost_before_play (o : RtspOut (Sdp := Sdp)) k s pkt :
  OutWaitKeyFrameFlag o = true → gop_start (sdpCtx o) pkt = Ret true →
  rtspSubSessionSet o = {[ k := s ]} → rWait s = true → rStage s ≠ StageReadPlay →
  feedRtpPacket pkt o = (set_rtsp_subs o {[ k := rtsp_no_wait s ]}, Ret tt) ∧
  ∀ pkt', WriteRtpPacket pkt' (mkRtspSub (rWait (rtsp_no_wait s)) StageReadPlay (rtps s) (sdps s)) =
    mkRtspSub false StageReadPlay (rtps s ++ [pkt']) (sdps s).
Proof.
  intros Hf Hg Hs Hw Hp. split; [|done].
  assert (Hk : range_keys (rtspSubSessionSet o) = [k]).
  { apply Permutation_singleton_r. rewrite range_keys_perm, Hs, map_to_list_singleton. done. }
  assert (E : for_each [k] (rtsp_round (sdpCtx o) pkt) ({[ k := s ]}, None) =
    (({[ k := rtsp_no_wait s ]}, Some true), Ret tt)).
  { cbn [for_each]. unfold rtsp_round. erewrite eff_bind_Ret; [reflexivity|].
    rewrite state_bind, lookup_singleton_eq, Hw. cbn [negb].
    unfold lift, mbind, eff_bind. rewrite Hg. unfold update. cbn. do 3 f_equal.
    apply map_eq. intros j. destruct (decide (j = k)) as [->|].
    - rewrite lookup_alter_eq, !lookup_singleton_eq. cbn. unfold WriteRtpPacket.
      by rewrite bool_decide_false by done.
    - by rewrite lookup_alter_ne, !lookup_singleton_ne. }
  unfold feedRtpPacket, recovered. rewrite state_bind, Hf. cbn [negb].
  unfold zoom. cbv beta. by rewrite Hk, Hs, E.
Qed.
End RtspFacts.
