(* ===== verification/Group.v ===== *)
(** * The media side of a group (src/pkg/logic/group__core_streaming.go,
    group__in.go, group__out_sub.go)

    [Media] is what a group keeps about the stream: caches, remuxers, subscribers
    and statistics.  [broadcastByRtmpMsg] hands a message to all of it in the
    order of the code; [delIn] ends a publisher.  The remuxers to RTSP and to
    snapshots are reached through classes. *)

From stdpp Require Import gmap strings.
From S2P Require Import Prelude Naza Bits RtmpMsg.
From S2P Require GopCache FlvRemux RtpPacket TsPack Rtmp2Mpegts AvcSeq HevcSeq Metadata DummyAudio.
From S2P Require Import GroupStream.
Import GopCache(GopRing, GopCache).
Import RtpPacket(RtpPacket).

(** The RTMP to RTSP remuxer and the one that finds pictures for snapshots: the
    events of the first are what it gave its callbacks. *)
Class RtspRemuxer (R Sdp : Type) := {
  rtsp_FeedRtmpMsg : RtmpMsg → R → (R * list (Sdp + RtpPacket)) * outcome unit;
}.
Class SnapshotRemuxer (P : Type) := { av_FeedRtmpMsg : RtmpMsg → P → P * outcome unit }.

Record Stat := mkStat {
  AudioCodec : string; VideoCodec : string; VideoHeight : Z; VideoWidth : Z;
}.
Definition AudioCodecAac : string := "AAC".
Definition AudioCodecG711U : string := "PCMU".
Definition AudioCodecG711A : string := "PCMA".
Definition AudioCodecOpus : string := "OPUS".
Definition VideoCodecAvc : string := "H264".
Definition VideoCodecHevc : string := "H265".

Section Media.
Context {RO : RangeOrder} {B : Bele} {BS : BeleStream} {NB : NazaBuffer} {BI : NazaBits}.
Context {H : Type} {HM : HlsMuxer H} {R Sdp : Type} {SC : SdpContext Sdp} {RR : RtspRemuxer R Sdp}.
Context {P : Type} {SR : SnapshotRemuxer P} (TryAnnexb : bool).

Record Media := mkMedia {
  rtmpCacheEnable : bool;
  flvCacheEnable : bool;
  rtmp2AvPacketRemuxer : option P;
  rtmp2MpegtsRemuxer : option Rtmp2Mpegts.Rtmp2MpegtsRemuxer;
  tsOut : TsOut (H := H);
  rtmp2RtspRemuxer : option R;
  rtspOut : RtspOut (Sdp := Sdp);
  hook : option (list RtmpMsg);
  rtmpOut : RtmpOut;
  flvOut : FlvOut;
  stat : Stat;
  dummyAudioFilter : option DummyAudio.DummyAudioFilter;
}.

Definition set_snapshot (g : Media) (p : option P) : Media :=
  mkMedia (rtmpCacheEnable g) (flvCacheEnable g) p (rtmp2MpegtsRemuxer g) (tsOut g) (rtmp2RtspRemuxer g)
    (rtspOut g) (hook g) (rtmpOut g) (flvOut g) (stat g) (dummyAudioFilter g).
Definition set_ts (g : Media) (r : option Rtmp2Mpegts.Rtmp2MpegtsRemuxer) (o : TsOut) : Media :=
  mkMedia (rtmpCacheEnable g) (flvCacheEnable g) (rtmp2AvPacketRemuxer g) r o (rtmp2RtspRemuxer g)
    (rtspOut g) (hook g) (rtmpOut g) (flvOut g) (stat g) (dummyAudioFilter g).
Definition set_rtsp (g : Media) (r : option R) (o : RtspOut) : Media :=
  mkMedia (rtmpCacheEnable g) (flvCacheEnable g) (rtmp2AvPacketRemuxer g) (rtmp2MpegtsRemuxer g) (tsOut g) r
    o (hook g) (rtmpOut g) (flvOut g) (stat g) (dummyAudioFilter g).
Definition set_hook (g : Media) (h : option (list RtmpMsg)) : Media :=
  mkMedia (rtmpCacheEnable g) (flvCacheEnable g) (rtmp2AvPacketRemuxer g) (rtmp2MpegtsRemuxer g) (tsOut g)
    (rtmp2RtspRemuxer g) (rtspOut g) h (rtmpOut g) (flvOut g) (stat g) (dummyAudioFilter g).
Definition set_rtmp (g : Media) (o : RtmpOut) : Media :=
  mkMedia (rtmpCacheEnable g) (flvCacheEnable g) (rtmp2AvPacketRemuxer g) (rtmp2MpegtsRemuxer g) (tsOut g)
    (rtmp2RtspRemuxer g) (rtspOut g) (hook g) o (flvOut g) (stat g) (dummyAudioFilter g).
Definition set_flv (g : Media) (o : FlvOut) : Media :=
  mkMedia (rtmpCacheEnable g) (flvCacheEnable g) (rtmp2AvPacketRemuxer g) (rtmp2MpegtsRemuxer g) (tsOut g)
    (rtmp2RtspRemuxer g) (rtspOut g) (hook g) (rtmpOut g) o (stat g) (dummyAudioFilter g).
Definition set_stat (g : Media) (s : Stat) : Media :=
  mkMedia (rtmpCacheEnable g) (flvCacheEnable g) (rtmp2AvPacketRemuxer g) (rtmp2MpegtsRemuxer g) (tsOut g)
    (rtmp2RtspRemuxer g) (rtspOut g) (hook g) (rtmpOut g) (flvOut g) s (dummyAudioFilter g).
Definition set_filter (g : Media) (f : option DummyAudio.DummyAudioFilter) : Media :=
  mkMedia (rtmpCacheEnable g) (flvCacheEnable g) (rtmp2AvPacketRemuxer g) (rtmp2MpegtsRemuxer g) (tsOut g)
    (rtmp2RtspRemuxer g) (rtspOut g) (hook g) (rtmpOut g) (flvOut g) (stat g) f.

(** ** The remuxers *)

(** Errors are dropped; only a panic goes on. *)
Definition feed_snapshot (msg : RtmpMsg) : eff Media unit := λ g,
  match rtmp2AvPacketRemuxer g with
  | Some p =>
      if MsgTypeId (msgHeader msg) =? RtmpTypeIdVideo then
        let '(p, r) := av_FeedRtmpMsg msg p in
        (set_snapshot g (Some p), match r with Panic => Panic | _ => Ret tt end)
      else (g, Ret tt)
  | None => (g, Ret tt)
  end.

(** The metadata is only logged. *)
Definition log_metadata (msg : RtmpMsg) : eff Media unit :=
  if MsgTypeId (msgHeader msg) =? RtmpTypeIdMetadata then
    lift (match Metadata.ParseMetadata (msgPayload msg) with Panic => Panic | _ => Ret tt end)
  else mret tt.

Definition feed_mpegts (msg : RtmpMsg) : eff Media unit := λ g,
  match rtmp2MpegtsRemuxer g with
  | Some r =>
      let '((r, _, o), res) := Rtmp2Mpegts.FeedRtmpMessage TryAnnexb msg (r, [], tsOut g) in
      (set_ts g (Some r) o, res)
  | None => (g, Ret tt)
  end.

Definition rtsp_event (e : Sdp + RtpPacket) : eff (RtspOut (Sdp := Sdp)) unit :=
  match e with inl sdp => OnSdp sdp | inr pkt => feedRtpPacket pkt end.
Fixpoint rtsp_events (l : list (Sdp + RtpPacket)) : eff (RtspOut (Sdp := Sdp)) unit :=
  match l with [] => mret tt | e :: l => _ ← rtsp_event e; rtsp_events l end.

Definition feed_rtsp (msg : RtmpMsg) : eff Media unit := λ g,
  match rtmp2RtspRemuxer g with
  | Some r =>
      let '((r, evs), res) := rtsp_FeedRtmpMsg msg r in
      let '(o, res') := rtsp_events evs (rtspOut g) in
      (set_rtsp g (Some r) o, match res' with Ret _ => res | _ => res' end)
  | None => (g, Ret tt)
  end.

Definition feed_hook (msg : RtmpMsg) : eff Media unit :=
  update (λ g, set_hook g ((λ l, l ++ [msg]) <$> hook g)).

(** ** Statistics *)

Definition audio_stat (msg : RtmpMsg) (s : Stat) : outcome Stat :=
  if bool_decide (AudioCodec s = "") && (MsgTypeId (msgHeader msg) =? RtmpTypeIdAudio) then
    c ← AudioCodecId msg;
    let set name := mkStat name (VideoCodec s) (VideoHeight s) (VideoWidth s) in
    if c =? RtmpSoundFormatAac then
      seqh ← IsAacSeqHeader msg; Ret (if seqh : bool then set AudioCodecAac else s)
    else Ret (if c =? RtmpSoundFormatG711U then set AudioCodecG711U
              else if c =? RtmpSoundFormatG711A then set AudioCodecG711A
              else if c =? RtmpSoundFormatOpus then set AudioCodecOpus else s)
  else Ret s.

Definition video_stat (msg : RtmpMsg) (s : Stat) : outcome Stat :=
  if bool_decide (VideoCodec s = "") then
    let set name := mkStat (AudioCodec s) name (VideoHeight s) (VideoWidth s) in
    avc ← IsAvcKeySeqHeader msg;
    let s := if avc : bool then set VideoCodecAvc else s in
    hevc ← IsHevcKeySeqHeader msg;
    Ret (if hevc : bool then set VideoCodecHevc else s)
  else Ret s.

(** Zero contexts, of which the parsers set the sizes. *)
Definition zero_hevc : HevcSeq.Context := HevcSeq.mkContext 0 0 0 0 0 0 0 0 0 0 0 0 0 0 0.

Definition avc_size (msg : RtmpMsg) : outcome (Z * Z) :=
  '(sps, _) ← AvcSeq.ParseSpsPpsFromSeqHeader (msgPayload msg);
  ctx ← AvcSeq.ParseSps sps;
  Ret (AvcSeq.Height ctx, AvcSeq.Width ctx).
Definition hevc_size (msg : RtmpMsg) : outcome (Z * Z) :=
  enh ← IsEnhanced msg;
  u ← (if enh : bool then HevcSeq.ParseVpsSpsPpsFromEnhancedSeqHeader (msgPayload msg)
       else HevcSeq.ParseVpsSpsPpsFromSeqHeader TryAnnexb (msgPayload msg));
  ctx ← HevcSeq.ParseSps (HevcSeq.uSps u) zero_hevc;
  Ret (HevcSeq.PicHeightInLumaSamples ctx, HevcSeq.PicWidthInLumaSamples ctx).

(** A size that cannot be read is skipped. *)
Definition keep_size (m : outcome (Z * Z)) (s : Stat) : outcome Stat :=
  match m with
  | Ret (h, w) => Ret (mkStat (AudioCodec s) (VideoCodec s) h w)
  | Fail _ => Ret s
  | Panic => Panic
  end.

Definition size_stat (msg : RtmpMsg) (s : Stat) : outcome Stat :=
  if (VideoHeight s =? 0) || (VideoWidth s =? 0) then
    avc ← IsAvcKeySeqHeader msg;
    s ← (if avc : bool then keep_size (avc_size msg) s else Ret s);
    hevc ← IsHevcKeySeqHeader msg;
    if hevc : bool then keep_size (hevc_size msg) s else Ret s
  else Ret s.

Definition stat_step (f : Stat → outcome Stat) : eff Media unit :=
  g ← state; s ← lift (f (stat g)); update (λ g, set_stat g s).

(** ** Broadcasting *)

Definition broadcast_body (msg : RtmpMsg) : eff Media unit :=
  _ ← feed_snapshot msg;
  _ ← log_metadata msg;
  if len (msgPayload msg) =? 0 then mret tt else
  _ ← feed_mpegts msg;
  _ ← feed_rtsp msg;
  _ ← feed_hook msg;
  _ ← zoom rtmpOut set_rtmp (rtmp_subs msg);
  _ ← zoom rtmpOut set_rtmp (rtmp_pushes msg);
  _ ← zoom flvOut set_flv (flv_subs msg);
  g ← state;
  _ ← (if rtmpCacheEnable g then zoom rtmpOut set_rtmp (feed_rtmp_cache msg) else mret tt);
  _ ← (if flvCacheEnable g then zoom flvOut set_flv (feed_flv_cache msg) else mret tt);
  _ ← stat_step (audio_stat msg);
  _ ← stat_step (video_stat msg);
  stat_step (size_stat msg).

Definition broadcastByRtmpMsg (msg : RtmpMsg) : eff Media unit := recovered (broadcast_body msg).

Fixpoint broadcast_all (l : list RtmpMsg) : eff Media unit :=
  match l with [] => mret tt | msg :: l => _ ← broadcastByRtmpMsg msg; broadcast_all l end.

(** The filter's callback is [broadcastByRtmpMsg], which does not reach the
    filter; so the messages it popped are broadcast after it ran. *)
Definition filter_Feed (f : DummyAudio.DummyAudioFilter) (msg : RtmpMsg) : eff Media unit := λ g,
  let '((f, out), r) := DummyAudio.Feed msg (f, []) in
  let '(g, _) := broadcast_all out (set_filter g (Some f)) in
  (g, r).

(** Also [onRtmpMsgFromRemux], which has no [recover] of its own. *)
Definition feed_in (msg : RtmpMsg) : eff Media unit :=
  g ← state;
  match dummyAudioFilter g with
  | Some f => filter_Feed f msg
  | None => broadcastByRtmpMsg msg
  end.

Definition OnReadRtmpAvMsg (msg : RtmpMsg) : eff Media unit := recovered (feed_in msg).

(** ** Subscribers come and go *)

(** What a session starts with. *)
Definition new_sub (g : Media) : Sub := mkSub true (negb (bool_decide (VideoCodec (stat g) = ""))) [].

Definition AddRtmpSubSession (k : Z) : eff Media unit :=
  update (λ g, set_rtmp g (set_subs (rtmpOut g) (<[k := new_sub g]> (rtmpSubSessionSet (rtmpOut g))))).
Definition AddHttpflvSubSession (k : Z) : eff Media unit :=
  update (λ g, set_flv g (set_flv_subs (flvOut g) (<[k := new_sub g]> (httpflvSubSessionSet (flvOut g))))).
Definition AddHttptsSubSession (k : Z) : eff Media unit :=
  update (λ g, set_ts g (rtmp2MpegtsRemuxer g)
    (set_ts_subs (tsOut g) (<[k := mkSub true true []]> (httptsSubSessionSet (tsOut g))))).
Definition DelRtmpSubSession (k : Z) : eff Media unit :=
  update (λ g, set_rtmp g (set_subs (rtmpOut g) (delete k (rtmpSubSessionSet (rtmpOut g))))).
Definition DelHttpflvSubSession (k : Z) : eff Media unit :=
  update (λ g, set_flv g (set_flv_subs (flvOut g) (delete k (httpflvSubSessionSet (flvOut g))))).
Definition DelHttptsSubSession (k : Z) : eff Media unit :=
  update (λ g, set_ts g (rtmp2MpegtsRemuxer g) (set_ts_subs (tsOut g) (delete k (httptsSubSessionSet (tsOut g))))).

(** The answer is the description, if there is one. *)
Definition HandleNewRtspSubSessionDescribe (k : Z) : eff Media (option Sdp) := λ g,
  (set_rtsp g (rtmp2RtspRemuxer g) (set_rtsp_subs (rtspOut g) (<[k := NewSubSession]> (rtspSubSessionSet (rtspOut g)))),
   Ret (sdpCtx (rtspOut g))).
Definition HandleNewRtspSubSessionPlay (k : Z) : eff Media unit :=
  update (λ g, set_rtsp g (rtmp2RtspRemuxer g) (set_rtsp_subs (rtspOut g)
    (if bool_decide (VideoCodec (stat g) = "") then alter rtsp_no_wait k (rtspSubSessionSet (rtspOut g))
     else rtspSubSessionSet (rtspOut g)))).
Definition DelRtspSubSession (k : Z) : eff Media unit :=
  update (λ g, set_rtsp g (rtmp2RtspRemuxer g) (set_rtsp_subs (rtspOut g) (delete k (rtspSubSessionSet (rtspOut g))))).

(** ** The end of a publisher *)

Definition dispose_mpegts : eff Media unit := λ g,
  match rtmp2MpegtsRemuxer g with
  | Some r =>
      let '((_, _, o), res) := Rtmp2Mpegts.Dispose (r, [], tsOut g) in
      (set_ts g (match res with Ret _ => None | _ => Some r end) o, res)
  | None => (g, Ret tt)
  end.

(** [stopPushIfNeeded]. *)
Definition stop_push (o : RtmpOut) : RtmpOut :=
  if pushEnable o then set_push o ((λ _, None) <$> url2PushProxy o) else o.

(** The assignments that follow the remuxer's end. *)
Definition stop_in (g : Media) : Media :=
  let g := set_hook g None in
  let g := set_rtmp g (stop_push (rtmpOut g)) in
  let g := set_ts g (rtmp2MpegtsRemuxer g) (set_hls (tsOut g) None) in
  let g := set_flv g (set_flv_record (flvOut g) None) in
  let g := set_ts g (rtmp2MpegtsRemuxer g) (set_ts_record (tsOut g) None) in
  let g := set_rtsp g None (rtspOut g) in
  let g := set_filter g None in
  let g := set_rtmp g (set_rtmp_cache (rtmpOut g) (GopCache.Clear (rtmpGopCache (rtmpOut g)))) in
  let g := set_flv g (set_flv_cache (flvOut g) (GopCache.Clear (httpflvGopCache (flvOut g)))) in
  let g := set_ts g (rtmp2MpegtsRemuxer g) (set_ts_cache (tsOut g) (GopCache.ring_Clear (httptsGopCache (tsOut g)))) in
  let g := set_rtsp g (rtmp2RtspRemuxer g) (set_sdp (rtspOut g) None) in
  set_ts g (rtmp2MpegtsRemuxer g) (set_patpmt (tsOut g) []).

Definition delIn : eff Media unit := _ ← dispose_mpegts; update stop_in.
End Media.

(** ** What a subscriber receives of a sequence of messages *)

Definition ret_or {A} (d : A) (m : outcome A) : A := match m with Ret a => a | _ => d end.

(** From the first key frame on. *)
Fixpoint from_key (l : list RtmpMsg) : list RtmpMsg :=
  match l with
  | [] => []
  | m :: l => if bool_decide (IsVideoKeyNalu m = Ret true) then m :: l else from_key l
  end.

(** A subscriber after the messages [l], when [hdr] and [q] were cached before. *)
Definition after (hdr : list (list Z)) (q : list (list (list Z))) (bytes : RtmpMsg → list Z) (l : list RtmpMsg)
    (s : Sub) : Sub :=
  match l with
  | [] => s
  | _ =>
      let s := join hdr q s in
      let got := if ShouldWait s then from_key l else l in
      mkSub false (ShouldWait s && bool_decide (got = [])) (written s ++ (bytes <$> got))
  end.

Lemma after_cons hdr q bytes m l s key :
  IsVideoKeyNalu m = Ret key →
  after hdr q bytes (m :: l) s = after hdr q bytes l (receive hdr q key (bytes m) s).
Proof.
  intros Hkey.
  assert (Hf : ∀ b s, IsFresh (deliver key b (join hdr q s)) = false).
  { intros b s'. pose proof (join_wait hdr q s') as Hj. unfold deliver. by destruct (ShouldWait _ && _). }
  unfold receive. destruct l as [|m' l].
  - cbn [after from_key]. rewrite Hkey. pose proof (join_wait hdr q s) as Hj. unfold deliver.
    destruct (join hdr q s) as [f w x]. cbn in *. subst f.
    destruct w; [destruct key|]; cbn; by rewrite ?app_nil_r.
  - cbn [after]. rewrite (join_old hdr q (deliver _ _ _)) by apply Hf. cbn [from_key]. rewrite Hkey.
    destruct (join hdr q s) as [f w x]. unfold deliver.
    destruct w; [destruct key|]; cbn; rewrite ?bool_decide_false by done; by rewrite <- ?app_assoc.
Qed.

Section MediaFacts.
Context {RO : RangeOrder} {B : Bele} {BS : BeleStream} {NB : NazaBuffer} {BI : NazaBits}.
Context {H : Type} {HM : HlsMuxer H} {R Sdp : Type} {SC : SdpContext Sdp} {RR : RtspRemuxer R Sdp}.
Context {P : Type} {SR : SnapshotRemuxer P} (TryAnnexb : bool).

(** The bytes of a message for RTMP and for HTTP-FLV players. *)
Definition chunk_bytes (m : RtmpMsg) : list Z := ret_or [] (chunks_without m).
Definition tag_bytes (m : RtmpMsg) : list Z := ret_or [] (tag_without m).

(** A message the group can write, with the bytes its tests look at. *)
Record writable (m : RtmpMsg) : Prop := {
  wr_payload : msgPayload m ≠ [];
  wr_tests : GopCache.tests_return m;
  wr_without : chunks_without m = Ret (chunk_bytes m) ∧ chunk_bytes m ≠ [];
  wr_with : ∃ b, chunks_with m = Ret b;
  wr_tag : tag_without m = Ret (tag_bytes m);
}.

(** The part of [broadcast_body] before the subscribers of RTMP. *)
Definition remux (m : RtmpMsg) : eff (Media (H := H) (R := R) (Sdp := Sdp) (P := P)) unit :=
  _ ← feed_snapshot m; _ ← log_metadata m; _ ← feed_mpegts TryAnnexb m; feed_rtsp m.

(** No remuxer panics on the messages. *)
Fixpoint accepts (l : list RtmpMsg) (g : Media) : Prop :=
  match l with
  | [] => True
  | m :: l => (remux m g).2 = Ret tt ∧ accepts l (broadcastByRtmpMsg TryAnnexb m g).1
  end.

Record flowing (qr qf : list (list (list Z))) (g : Media (H := H) (R := R) (Sdp := Sdp) (P := P)) : Prop := {
  fl_rtmp : cached (GopCache.ring (rtmpGopCache (rtmpOut g))) qr;
  fl_flv : cached (GopCache.ring (httpflvGopCache (flvOut g))) qf;
  fl_mw : mw_ok (rtmpOut g);
}.

(** What the remuxers leave alone. *)
Definition media_same (g g' : Media (H := H) (R := R) (Sdp := Sdp) (P := P)) : Prop :=
  rtmpOut g' = rtmpOut g ∧ flvOut g' = flvOut g ∧
  rtmpCacheEnable g' = rtmpCacheEnable g ∧ flvCacheEnable g' = flvCacheEnable g.

Lemma media_same_refl g : media_same g g.
Proof. done. Qed.
Lemma media_same_trans g1 g2 g3 : media_same g1 g2 → media_same g2 g3 → media_same g1 g3.
Proof. unfold media_same. intuition congruence. Qed.

(** [m] changes neither. *)
Definition apart {A} (m : eff (Media (H := H) (R := R) (Sdp := Sdp) (P := P)) A) : Prop :=
  ∀ g, media_same g (m g).1.

Lemma apart_bind {A C} (m : eff Media A) (f : A → eff Media C) :
  apart m → (∀ a, apart (f a)) → apart (m ≫= f).
Proof.
  intros Hm Hf g. unfold mbind, eff_bind. specialize (Hm g). destruct (m g) as [g1 [a|e|]]; try done.
  cbn in *. eapply media_same_trans; [done|apply Hf].
Qed.

Lemma remux_apart m : apart (remux m).
Proof.
  unfold remux. repeat (apply apart_bind; [|intros []]); intros g.
  - unfold feed_snapshot. repeat (case_match; try done).
  - unfold log_metadata. case_match; done.
  - unfold feed_mpegts. repeat (case_match; try done).
  - unfold feed_rtsp. repeat (case_match; try done).
Qed.

Lemma stat_step_apart f : apart (stat_step f).
Proof. intros g. unfold stat_step, state, mbind, eff_bind, lift, update. by destruct (f (stat g)). Qed.

(** The subscribers and the caches, after the remuxers. *)
Definition spread (m : RtmpMsg) : eff (Media (H := H) (R := R) (Sdp := Sdp) (P := P)) unit :=
  _ ← feed_hook m;
  _ ← zoom rtmpOut set_rtmp (rtmp_subs m);
  _ ← zoom rtmpOut set_rtmp (rtmp_pushes m);
  _ ← zoom flvOut set_flv (flv_subs m);
  g ← state;
  _ ← (if rtmpCacheEnable g then zoom rtmpOut set_rtmp (feed_rtmp_cache m) else mret tt);
  if flvCacheEnable g then zoom flvOut set_flv (feed_flv_cache m) else mret tt.

Definition stats (m : RtmpMsg) : eff (Media (H := H) (R := R) (Sdp := Sdp) (P := P)) unit :=
  _ ← stat_step (audio_stat m); _ ← stat_step (video_stat m); stat_step (size_stat TryAnnexb m).

Lemma eff_assoc {S A C D} (m : eff S A) (f : A → eff S C) (h : C → eff S D) s :
  ((m ≫= f) ≫= h) s = (m ≫= (λ a, f a ≫= h)) s.
Proof. unfold mbind, eff_bind. destruct (m s) as [s1 [a|e|]]; done. Qed.

Lemma broadcast_body_split m g g1 :
  msgPayload m ≠ [] → remux m g = (g1, Ret tt) →
  broadcast_body TryAnnexb m g = (_ ← spread m; stats m) g1.
Proof.
  intros Hp. unfold remux, broadcast_body, mbind, eff_bind. rewrite (proj2 (Z.eqb_neq (len (msgPayload m)) 0))
    by (destruct (msgPayload m); [done|rewrite length_cons; lia]).
  destruct (feed_snapshot m g) as [g2 [[]|e|]]; try discriminate.
  destruct (log_metadata m g2) as [g3 [[]|e|]]; try discriminate.
  destruct (feed_mpegts TryAnnexb m g3) as [g4 [[]|e|]]; try discriminate.
  intros ->. unfold spread, stats, mbind, eff_bind.
  destruct (feed_hook m g1) as [h1 [[]|e|]]; try done.
  destruct (zoom rtmpOut set_rtmp (rtmp_subs m) h1) as [h2 [[]|e|]]; try done.
  destruct (zoom rtmpOut set_rtmp (rtmp_pushes m) h2) as [h3 [[]|e|]]; try done.
  destruct (zoom flvOut set_flv (flv_subs m) h3) as [h4 [[]|e|]]; try done.
  destruct (state h4) as [h5 [h|e|]]; try done.
  destruct ((if rtmpCacheEnable h then zoom rtmpOut set_rtmp (feed_rtmp_cache m) else mret tt) h5) as [h6 [[]|e|]]; done.
Qed.

(** A message through [spread], seen by the subscribers. *)
Record spread_to (m : RtmpMsg) (key : bool) (qr qf : list (list (list Z)))
    (g g' : Media (H := H) (R := R) (Sdp := Sdp) (P := P)) : Prop := {
  sp_rtmp : rtmp_view (rtmpOut g') =
    receive (headers (rtmpGopCache (rtmpOut g))) qr key (chunk_bytes m) <$> rtmp_view (rtmpOut g);
  sp_flv : httpflvSubSessionSet (flvOut g') =
    receive (headers (httpflvGopCache (flvOut g))) qf key (tag_bytes m) <$> httpflvSubSessionSet (flvOut g);
  sp_record : recordFlv (flvOut g') = (λ r, r ++ [tag_bytes m]) <$> recordFlv (flvOut g);
  sp_flows : flowing
    (if rtmpCacheEnable g then cache_spec (rtmpGopCache (rtmpOut g)) m qr (chunk_bytes m) else qr)
    (if flvCacheEnable g then cache_spec (httpflvGopCache (flvOut g)) m qf (tag_bytes m) else qf) g';
  sp_config : rtmpCacheEnable g' = rtmpCacheEnable g ∧ flvCacheEnable g' = flvCacheEnable g;
}.

Lemma zoom_run {S T A} (view : S → T) (put : S → T → S) (m : eff T A) s t r :
  m (view s) = (t, r) → zoom view put m s = (put s t, r).
Proof. unfold zoom. by intros ->. Qed.

Lemma spread_ok m key qr qf g :
  flowing qr qf g → writable m → IsVideoKeyNalu m = Ret key →
  ∃ g', spread m g = (g', Ret tt) ∧ spread_to m key qr qf g g'.
Proof.
  intros [Hr Hf Hw] Hm Hkey. pose proof (wr_without _ Hm) as [Hb Hb0]. destruct (wr_with _ Hm) as [w Hwb].
  unfold spread. erewrite eff_bind_Ret by reflexivity.
  destruct (rtmp_subs_view (rtmpOut g) qr m key (chunk_bytes m)) as (o1 & E1 & W1 & F1 & V1); [done..|].
  erewrite eff_bind_Ret by (apply zoom_run; exact E1).
  destruct F1 as (Fc & _ & _).
  erewrite eff_bind_Ret by (apply zoom_run; eapply (rtmp_pushes_upd o1 qr m w); [by rewrite Fc|done]).
  erewrite eff_bind_Ret by (apply zoom_run; eapply (flv_subs_upd (flvOut g) qf m key); [done|done|apply Hm]).
  rewrite state_bind. set (o2 := set_push o1 _). set (f2 := mkFlvOut _ _ _).
  cbn [rtmpCacheEnable flvCacheEnable set_flv set_rtmp set_hook].
  destruct (feed_rtmp_cache_ok o2 qr m (chunk_bytes m) w) as (c & Ec & Hc);
    [unfold o2; cbn; by rewrite Fc|apply Hm|done|done|].
  destruct (feed_flv_cache_ok f2 qf m (tag_bytes m)) as (c' & Ec' & Hc'); [done|apply Hm|apply Hm|].
  unfold cache_spec in Hc. change (rtmpGopCache o2) with (rtmpGopCache o1) in Hc. rewrite Fc in Hc.
  destruct (rtmpCacheEnable g) eqn:Er, (flvCacheEnable g) eqn:Ef.
  all: repeat first [erewrite eff_bind_Ret by (apply zoom_run; exact Ec) | erewrite eff_bind_Ret by reflexivity].
  all: try (erewrite zoom_run by exact Ec').
  all: eexists; split; [reflexivity|]; split; try rewrite Er; try rewrite Ef; try done.
  all: try (split; try done; unfold o2; cbn; by rewrite ?Fc).
Qed.

(** The tests on a message return or panic. *)
Definition no_fail {A} (m : outcome A) : Prop := match m with Fail _ => False | _ => True end.

Lemma no_fail_bind {A C} (m : outcome A) (f : A → outcome C) :
  no_fail m → (∀ a, no_fail (f a)) → no_fail (m ≫= f).
Proof. by destruct m; cbn. Qed.
Lemma no_fail_index {A} (l : list A) i : no_fail (go_index l i).
Proof. unfold go_index. by repeat case_match. Qed.
Lemma no_fail_keep m s : no_fail (keep_size m s).
Proof. by destruct m as [[]| |]. Qed.

Ltac no_fail := repeat first
  [ apply no_fail_index | apply no_fail_keep | apply no_fail_bind; [|intros] | exact I
  | progress unfold IsAvcKeySeqHeader, IsHevcKeySeqHeader, IsAacSeqHeader, AudioCodecId, IsEnhanced, is_hvc1,
      at_is, go_and, go_or | case_match ].

Lemma stat_step_runs f : (∀ s, no_fail (f s)) →
  ∀ g, ∃ g' r, stat_step f g = (g', r) ∧ media_same g g' ∧ no_fail r.
Proof.
  intros Hf g. unfold stat_step, state, mbind, eff_bind, lift, update. specialize (Hf (stat g)).
  destruct (f (stat g)); eexists _, _; (split; [reflexivity|done]).
Qed.

Lemma stats_ok m g : ∃ g', recovered (stats m) g = (g', Ret tt) ∧ media_same g g'.
Proof.
  assert (H1 : ∀ s, no_fail (audio_stat m s)) by (intros s; unfold audio_stat; no_fail).
  assert (H2 : ∀ s, no_fail (video_stat m s)) by (intros s; unfold video_stat; no_fail).
  assert (H3 : ∀ s, no_fail (size_stat TryAnnexb m s)) by (intros s; unfold size_stat; no_fail).
  unfold recovered, stats, mbind, eff_bind.
  destruct (stat_step_runs _ H1 g) as (g1 & [[]| |] & -> & S1 & N1); [|done|by exists g1].
  destruct (stat_step_runs _ H2 g1) as (g2 & [[]| |] & -> & S2 & N2);
    [|done|exists g2; split; [done|by eapply media_same_trans]].
  destruct (stat_step_runs _ H3 g2) as (g3 & [[]| |] & -> & S3 & N3); [|done|];
    (exists g3; split; [done|eapply media_same_trans; [done|by eapply media_same_trans]]).
Qed.

Lemma broadcast_step m g qr qf :
  flowing qr qf g → writable m → (remux m g).2 = Ret tt →
  ∃ key g', IsVideoKeyNalu m = Ret key ∧ broadcastByRtmpMsg TryAnnexb m g = (g', Ret tt) ∧
    spread_to m key qr qf g g'.
Proof.
  intros Hfl Hm Hx. destruct (wr_tests _ Hm) as (_ & _ & [key Hkey]). exists key.
  pose proof (remux_apart m g) as Hs. destruct (remux m g) as [g1 x] eqn:E1. cbn in Hx, Hs. subst x.
  destruct Hs as (Hs1 & Hs2 & Hs3 & Hs4).
  destruct (spread_ok m key qr qf g1) as (g2 & E2 & [V1 V2 V3 V4 [V5 V6]]); [|done..|].
  { destruct Hfl. split; by rewrite ?Hs1, ?Hs2. }
  destruct (stats_ok m g2) as (g3 & E3 & (Ht1 & Ht2 & Ht3 & Ht4)). exists g3. split; [done|]. split.
  - unfold broadcastByRtmpMsg, recovered. rewrite (broadcast_body_split m g g1) by (by destruct Hm).
    by rewrite (eff_bind_Ret _ _ _ _ _ E2).
  - rewrite Hs1, Hs2, Hs3, Hs4 in *. split; rewrite ?Ht1, ?Ht2, ?Ht3, ?Ht4; try done.
    destruct V4. split; by rewrite ?Ht1, ?Ht2.
Qed.

(** ** Properties *)

Lemma after_old hdr q hdr' q' bytes l s :
  IsFresh s = false → after hdr q bytes l s = after hdr' q' bytes l s.
Proof. intros Hs. destruct l; [done|]. cbn [after]. by rewrite !join_old. Qed.

Lemma receive_old hdr q key b s : IsFresh (receive hdr q key b s) = false.
Proof.
  unfold receive, deliver. pose proof (join_wait hdr q s) as Hj.
  destruct (join hdr q s) as [f w x]. cbn in *. subst f. by destruct (w && negb key).
Qed.

Lemma after_step hdr q hdr' q' bytes m l key (v : gmap Z Sub) : IsVideoKeyNalu m = Ret key →
  after hdr' q' bytes l <$> (receive hdr q key (bytes m) <$> v) = after hdr q bytes (m :: l) <$> v.
Proof.
  intros Hkey. rewrite <- map_fmap_compose. apply map_fmap_ext. intros k s _.
  unfold compose. rewrite (after_cons hdr q bytes m l s key) by done. apply after_old, receive_old.
Qed.

(** What the players see of a run. *)
Record fanned (l : list RtmpMsg) (qr qf : list (list (list Z)))
    (g g' : Media (H := H) (R := R) (Sdp := Sdp) (P := P)) : Prop := {
  fan_rtmp : rtmp_view (rtmpOut g') =
    after (headers (rtmpGopCache (rtmpOut g))) qr chunk_bytes l <$> rtmp_view (rtmpOut g);
  fan_flv : httpflvSubSessionSet (flvOut g') =
    after (headers (httpflvGopCache (flvOut g))) qf tag_bytes l <$> httpflvSubSessionSet (flvOut g);
  fan_record : recordFlv (flvOut g') = (λ r, r ++ (tag_bytes <$> l)) <$> recordFlv (flvOut g);
}.

Lemma fanned_nil qr qf g : fanned [] qr qf g g.
Proof.
  split; [by rewrite <- (map_fmap_id (rtmp_view _)) at 1|by rewrite <- (map_fmap_id (httpflvSubSessionSet _)) at 1|].
  destruct (recordFlv _); [|done]. cbn. by rewrite app_nil_r.
Qed.

Lemma fanned_cons m l key qr qf qr' qf' g g1 g' : IsVideoKeyNalu m = Ret key →
  spread_to m key qr qf g g1 → fanned l qr' qf' g1 g' → fanned (m :: l) qr qf g g'.
Proof.
  intros Hkey [V1 V2 V3 _ _] [F1 F2 F3]. split.
  - by rewrite F1, V1, (after_step _ _ _ _ chunk_bytes m l key).
  - by rewrite F2, V2, (after_step _ _ _ _ tag_bytes m l key).
  - rewrite F3, V3. destruct (recordFlv (flvOut g)); [|done]. cbn. by rewrite <- app_assoc.
Qed.

Lemma fan_out l : ∀ g qr qf, flowing qr qf g → Forall writable l → accepts l g →
  ∃ g' qr' qf', broadcast_all TryAnnexb l g = (g', Ret tt) ∧ flowing qr' qf' g' ∧ fanned l qr qf g g'.
Proof.
  induction l as [|m l IH]; intros g qr qf Hfl Hw Hx.
  { exists g, qr, qf. split; [done|]. split; [done|apply fanned_nil]. }
  apply Forall_cons in Hw as [Hm Hw]. destruct Hx as [Hx Hx'].
  destruct (broadcast_step m g qr qf Hfl Hm Hx) as (key & g1 & Hkey & E1 & Hs).
  rewrite E1 in Hx'. destruct (IH g1 _ _ (sp_flows _ _ _ _ _ _ Hs) Hw Hx') as (g' & qr' & qf' & E' & Hfl' & Hf).
  exists g', qr', qf'. cbn [broadcast_all]. rewrite (eff_bind_Ret _ _ _ _ _ E1). split; [done|].
  split; [done|]. by eapply fanned_cons.
Qed.

(** C6: whatever the order in which the maps are visited and however much the
    merge writer holds back, each RTMP player's data (with what the merge writer
    still holds for it) and each HTTP-FLV player's is: for a new player the
    cached headers and groups, then every message once and in order, from the
    first key frame on if it waits for one and no group was cached; the FLV
    record is every message; and the broadcast of all messages ends without
    failing.  This holds of messages that can be written as chunks and tags
    ([writable]) and on which none of the remuxers that the group runs before the
    players (snapshots, MPEG-TS, RTSP) panics ([accepts]): a panic there takes the
    message, and all that follow, from every player. *)
Theorem group_fans_out l g qr qf :
  flowing qr qf g → Forall writable l → accepts l g →
  ∃ g' qr' qf', broadcast_all TryAnnexb l g = (g', Ret tt) ∧ flowing qr' qf' g' ∧
    (∀ k s, rtmp_view (rtmpOut g) !! k = Some s → rtmp_view (rtmpOut g') !! k =
       Some (after (headers (rtmpGopCache (rtmpOut g))) qr chunk_bytes l s)) ∧
    (∀ k s, httpflvSubSessionSet (flvOut g) !! k = Some s → httpflvSubSessionSet (flvOut g') !! k =
       Some (after (headers (httpflvGopCache (flvOut g))) qf tag_bytes l s)) ∧
    recordFlv (flvOut g') = (λ r, r ++ (tag_bytes <$> l)) <$> recordFlv (flvOut g).
Proof.
  intros Hfl Hw Hx. destruct (fan_out l g qr qf Hfl Hw Hx) as (g' & qr' & qf' & E & Hfl' & [F1 F2 F3]).
  exists g', qr', qf'. split; [done|]. split; [done|]. split; [|split; [|done]].
  - intros k s Hk. by rewrite F1, lookup_fmap, Hk.
  - intros k s Hk. by rewrite F2, lookup_fmap, Hk.
Qed.

(** *** Players that wait start at a key frame *)

Definition starts_at_key (l : list RtmpMsg) : Prop :=
  match l with [] => True | m :: _ => IsVideoKeyNalu m = Ret true end.

(** Every cached group begins with a key frame. *)
Definition keyed (bytes : RtmpMsg → list Z) (q : list (list (list Z))) : Prop :=
  ∃ gops : list (list RtmpMsg), q = map (map bytes) gops ∧ Forall (λ gop, gop ≠ [] ∧ starts_at_key gop) gops.

Lemma keyed_feed bytes c m q : keyed bytes q → keyed bytes (cache_spec c m q (bytes m)).
Proof.
  intros (gops & -> & Hg). unfold cache_spec, GopCache.spec_Feed.
  destruct (GopCache.is_seq_header m); [by exists gops|]. unfold GopCache.spec_frame.
  destruct (_ =? 0); [by exists gops|]. case_bool_decide as Hk.
  - unfold GopCache.spec_new. cbn. destruct (_ =? _).
    + exists (tail gops ++ [[m]]). split; [rewrite map_app; by destruct gops|].
      apply Forall_app. split; [destruct gops; [done|]; by apply Forall_cons in Hg as [_ Hg]|]. by repeat constructor.
    + exists (gops ++ [[m]]). split; [by rewrite map_app|]. apply Forall_app. split; [done|]. by repeat constructor.
  - unfold GopCache.spec_last. destruct gops as [|gop gops _] using rev_ind; [by exists []|].
    rewrite map_app. cbn [map]. rewrite last_snoc. apply Forall_app in Hg as [Hg Hgop].
    case_match; [|exists (gops ++ [gop]); split; [by rewrite map_app|by apply Forall_app]].
    exists (gops ++ [gop ++ [m]]). cbn [snd]. split.
    + rewrite length_app, Nat.add_1_r. cbn [Init.Nat.pred]. rewrite take_app_length, map_app. cbn [map]. by rewrite map_app.
    + apply Forall_app. split; [done|]. apply Forall_singleton in Hgop as [Hn Hs].
      constructor; [|done]. by destruct gop.
Qed.

Lemma from_key_starts l : starts_at_key (from_key l).
Proof. induction l as [|m l IH]; [done|]. cbn. by case_bool_decide. Qed.

Lemma keyed_starts gops : Forall (λ gop, gop ≠ [] ∧ starts_at_key gop) gops → gops ≠ [] →
  ∀ l, starts_at_key (concat gops ++ l).
Proof. intros Hg Hn l. destruct gops as [|[|m gop] gops]; [done| |]; apply Forall_cons in Hg as [[? ?] _]; done. Qed.

(** What a new player that waits has been given. *)
Lemma after_waiting hdr q bytes l s :
  keyed bytes q → IsFresh s = true → ShouldWait s = true →
  ∃ d, starts_at_key d ∧
    written (after hdr q bytes l s) = written s ++ (if bool_decide (l = []) then [] else hdr) ++ (bytes <$> d).
Proof.
  intros (gops & -> & Hg) Hf Hw. destruct l as [|m l].
  { exists []. split; [done|]. cbn. by rewrite app_nil_r. }
  rewrite bool_decide_false by done. cbn [after]. unfold join. rewrite Hf. cbn [ShouldWait written].
  rewrite Hw. cbn [andb]. destruct gops as [|gop gops].
  - exists (from_key (m :: l)). split; [apply from_key_starts|].
    rewrite bool_decide_true by done. cbn [map concat]. by rewrite app_nil_r, <- app_assoc.
  - exists (concat (gop :: gops) ++ m :: l). split; [by apply keyed_starts|].
    rewrite bool_decide_false by done. rewrite fmap_app, <- !app_assoc. do 3 f_equal.
    apply (eq_sym (concat_map bytes (gop :: gops))).
Qed.

(** C18: a player that waits for a key frame is given nothing before one: from
    caches whose groups begin with key frames (as the empty ones do), all the
    media it has received after any messages is the headers cached when it joined
    and then data that begins with a key frame.  The messages are those of
    [group_fans_out]: [writable], and such that no remuxer panics on them ([accepts]). *)
Theorem group_players_start_at_key_frames l g qr qf :
  flowing qr qf g → keyed chunk_bytes qr → keyed tag_bytes qf → Forall writable l → accepts l g →
  ∃ g', broadcast_all TryAnnexb l g = (g', Ret tt) ∧
    (∀ k s, rtmp_view (rtmpOut g) !! k = Some s → IsFresh s = true → ShouldWait s = true →
       ∃ s' d, rtmp_view (rtmpOut g') !! k = Some s' ∧ starts_at_key d ∧ written s' = written s ++
         (if bool_decide (l = []) then [] else headers (rtmpGopCache (rtmpOut g))) ++ (chunk_bytes <$> d)) ∧
    (∀ k s, httpflvSubSessionSet (flvOut g) !! k = Some s → IsFresh s = true → ShouldWait s = true →
       ∃ s' d, httpflvSubSessionSet (flvOut g') !! k = Some s' ∧ starts_at_key d ∧ written s' = written s ++
         (if bool_decide (l = []) then [] else headers (httpflvGopCache (flvOut g))) ++ (tag_bytes <$> d)).
Proof.
  intros Hfl Hkr Hkf Hw Hx. destruct (fan_out l g qr qf Hfl Hw Hx) as (g' & qr' & qf' & E & _ & [F1 F2 _]).
  exists g'. split; [done|]. split; intros k s Hk Hf Hwait.
  - destruct (after_waiting (headers (rtmpGopCache (rtmpOut g))) qr chunk_bytes l s Hkr Hf Hwait) as (d & Hd & Hs).
    eexists _, d. split; [by rewrite F1, lookup_fmap, Hk|]. done.
  - destruct (after_waiting (headers (httpflvGopCache (flvOut g))) qf tag_bytes l s Hkf Hf Hwait) as (d & Hd & Hs).
    eexists _, d. split; [by rewrite F2, lookup_fmap, Hk|]. done.
Qed.

(** *** Between two publishers *)

(** A [delIn] that returns empties the caches and forgets neither the codecs of
    the stream that ended nor what the merge writer holds. *)
Lemma delIn_ends (g g1 : Media (H := H) (R := R) (Sdp := Sdp) (P := P)) : delIn g = (g1, Ret tt) →
  rtmpGopCache (rtmpOut g1) = GopCache.Clear (rtmpGopCache (rtmpOut g)) ∧
  httpflvGopCache (flvOut g1) = GopCache.Clear (httpflvGopCache (flvOut g)) ∧
  stat g1 = stat g ∧ pending (rtmpOut g1) = pending (rtmpOut g) ∧ (mw_ok (rtmpOut g) → mw_ok (rtmpOut g1)).
Proof.
  unfold delIn. intros E. destruct (dispose_mpegts g) as [g0 r] eqn:E0.
  assert (Hs : media_same g g0 ∧ stat g0 = stat g).
  { unfold dispose_mpegts in E0. repeat (case_match; simplify_eq; try done). }
  destruct Hs as [(Hr & Hf & _) Hst]. destruct r as [[]|e|]; unfold mbind, eff_bind in E; rewrite E0 in E; [|done|done].
  unfold update in E. injection E as <-. unfold stop_in. cbn. rewrite Hr, Hf.
  unfold pending, mw_ok, stop_push. by destruct (pushEnable (rtmpOut g)).
Qed.

Lemma cleared_cache c q : cached (GopCache.ring c) q →
  cached (GopCache.ring (GopCache.Clear c)) [] ∧ headers (GopCache.Clear c) = [].
Proof. intros [Hok _]. split; [|done]. by apply GopCache.ring_Clear_holds. Qed.

(** A player that joins after a publisher of video has gone waits for a key
    frame, but it stops being new at the first message of the next publisher:
    what comes before the key frame, the sequence header included, is not sent
    to it, then or later. *)
Lemma rejoined_player_misses_headers (g g1 : Media (H := H) (R := R) (Sdp := Sdp) (P := P)) k l qr qf :
  flowing qr qf g → delIn g = (g1, Ret tt) → VideoCodec (stat g) ≠ ""%string →
  let g2 := (AddRtmpSubSession k g1).1 in
  Forall writable l → accepts l g2 → l ≠ [] →
  ∃ g' s, broadcast_all TryAnnexb l g2 = (g', Ret tt) ∧ rtmp_view (rtmpOut g') !! k = Some s ∧
    written s = chunk_bytes <$> from_key l.
Proof.
  intros [Hr Hf Hw] E Hv g2 Hl Hx Hn. destruct (delIn_ends g g1 E) as (E1 & E2 & E3 & _ & E5).
  destruct (cleared_cache _ _ Hr) as [Hr' Hh]. destruct (cleared_cache _ _ Hf) as [Hf' _].
  rewrite <- E1 in Hr', Hh. rewrite <- E2 in Hf'.
  destruct (fan_out l g2 [] []) as (g' & qr' & qf' & E' & _ & [F1 _ _]); [split; [done|done|by apply E5]|done|done|].
  assert (Hk : rtmp_view (rtmpOut g2) !! k = Some (mkSub true true [])).
  { unfold rtmp_view. cbn. rewrite lookup_fmap, lookup_insert_eq. unfold new_sub.
    by rewrite E3, bool_decide_false by done. }
  eexists g', _. split; [done|]. rewrite F1, lookup_fmap, Hk. split; [reflexivity|].
  change (rtmpGopCache (rtmpOut g2)) with (rtmpGopCache (rtmpOut g1)). rewrite Hh. by destruct l.
Qed.
End MediaFacts.


(** ** Witnesses *)

#[local] Instance range_impl : RangeOrder :=
  {| range_keys A m := (map_to_list m).*1; range_keys_perm A m := Permutation_refl _ |}.
#[local] Existing Instances bele_impl bele_stream_impl buffer_impl bits_impl.
#[local] Instance no_hls : HlsMuxer unit := {| FeedPatPmt _ h := h; FeedMpegts_open _ _ h := (false, h); FeedMpegts_write _ _ _ h := h |}.
#[local] Instance no_sdp : SdpContext unit := {| GetVideoPayloadTypeBase _ := 0 |}.
#[local] Instance no_rtsp : RtspRemuxer unit unit := {| rtsp_FeedRtmpMsg _ r := ((r, []), Ret tt) |}.
#[local] Instance no_snapshot : SnapshotRemuxer unit := {| av_FeedRtmpMsg _ p := (p, Ret tt) |}.

Definition empty_ring : GopRing := GopCache.mkRing [[]; []] 0 0 2 0.
Definition demo_cache : GopCache := GopCache.mkCache None None None (Some [7]) empty_ring.
Definition demo_players : gmap Z Sub := {[ 1 := mkSub true true []; 2 := mkSub false false [[5]] ]}.
(** A new player that waits and an old one, over RTMP and over HTTP-FLV. *)
Definition demo_group : Media (H := unit) (R := unit) (Sdp := unit) (P := unit) :=
  mkMedia true true (Some tt) None (mkTsOut [] None ∅ None empty_ring) (Some tt) (mkRtspOut false None ∅) None
    (mkRtmpOut demo_cache demo_players (Some (mkMw 100 1 [[9]])) false ∅)
    (mkFlvOut demo_cache demo_players (Some []))
    (mkStat "" "H264" 0 0) None.

Definition demo_inter : RtmpMsg := mkRtmpMsg (mkRtmpHeader 6 5 9 1 40) [39; 1; 0; 0; 0].
Definition demo_key : RtmpMsg := mkRtmpMsg (mkRtmpHeader 6 5 9 1 80) [23; 1; 0; 0; 0].
Definition demo_header : RtmpMsg := mkRtmpMsg (mkRtmpHeader 6 5 9 1 0) [23; 0; 0; 0; 0].
Definition demo_msgs : list RtmpMsg := [demo_inter; demo_key; demo_inter].

Lemma demo_flowing : flowing [] [] demo_group.
Proof.
  assert (cached empty_ring []) by (split; [split; cbn; lia|by split]).
  split; [done|done|right; cbn; lia].
Qed.
Lemma demo_keyed bytes : keyed bytes [].
Proof. by exists []. Qed.

Ltac demo_writable := split; [done|split_and!; by eexists|split; [vm_compute; reflexivity|by vm_compute]|by eexists; vm_compute|by vm_compute].
Lemma demo_writable : Forall writable demo_msgs.
Proof. unfold demo_msgs. rewrite !Forall_cons, Forall_nil. split_and!; [demo_writable..|done]. Qed.
Lemma demo_accepts : accepts false demo_msgs demo_group.
Proof. vm_compute. done. Qed.

Lemma group_fans_out_witness :
  ∃ g' qr' qf', broadcast_all false demo_msgs demo_group = (g', Ret tt) ∧ flowing qr' qf' g' ∧
    (∀ k s, rtmp_view (rtmpOut demo_group) !! k = Some s → rtmp_view (rtmpOut g') !! k =
       Some (after [[7]] [] chunk_bytes demo_msgs s)) ∧
    (∀ k s, demo_players !! k = Some s → httpflvSubSessionSet (flvOut g') !! k =
       Some (after [[7]] [] tag_bytes demo_msgs s)) ∧
    recordFlv (flvOut g') = Some (tag_bytes <$> demo_msgs).
Proof. exact (group_fans_out false demo_msgs demo_group [] [] demo_flowing demo_writable demo_accepts). Defined.

(** The waiting player 1 is given the message [demo_key] first. *)
Lemma group_players_start_at_key_frames_witness :
  from_key demo_msgs = [demo_key; demo_inter] ∧
  ∃ g', broadcast_all false demo_msgs demo_group = (g', Ret tt) ∧
    (∀ k s, rtmp_view (rtmpOut demo_group) !! k = Some s → IsFresh s = true → ShouldWait s = true →
       ∃ s' d, rtmp_view (rtmpOut g') !! k = Some s' ∧ starts_at_key d ∧ written s' = written s ++
         [[7]] ++ (chunk_bytes <$> d)) ∧
    (∀ k s, demo_players !! k = Some s → IsFresh s = true → ShouldWait s = true →
       ∃ s' d, httpflvSubSessionSet (flvOut g') !! k = Some s' ∧ starts_at_key d ∧ written s' = written s ++
         [[7]] ++ (tag_bytes <$> d)).
Proof.
  split; [reflexivity|].
  exact (group_players_start_at_key_frames false demo_msgs demo_group [] [] demo_flowing (demo_keyed _)
    (demo_keyed _) demo_writable demo_accepts).
Defined.

(** The key frame arrives, its header does not. *)
Example rejoined_player_example :
  let g1 := (delIn demo_group).1 in
  let g2 := (AddRtmpSubSession 3 g1).1 in
  delIn demo_group = (g1, Ret tt) ∧ accepts false [demo_header; demo_key] g2 ∧
  ∃ g' s, broadcast_all false [demo_header; demo_key] g2 = (g', Ret tt) ∧
    rtmp_view (rtmpOut g') !! 3 = Some s ∧ written s = [chunk_bytes demo_key].
Proof.
  cbv zeta. split; [reflexivity|]. split; [by vm_compute|].
  apply (rejoined_player_misses_headers false demo_group _ 3 [demo_header; demo_key] [] [] demo_flowing eq_refl);
    [done| |by vm_compute|done].
  rewrite !Forall_cons, Forall_nil. split_and!; [demo_writable..|done].
Qed.
