(* ===== verification/PsBits.v ===== *)
(** * Bit streams of the program stream code (src/pkg/gb28181/mpegps/bitstream.go)

    The reader and the writer of the package, on buffers of bytes with a byte
    offset and a bit offset.  An offset past the end makes an operation panic. *)

From S2P Require Import Prelude Bits.

Definition BitMask : list Z := [1; 3; 7; 15; 31; 63; 127; 255].

(** ** The reader *)

Record BitStream := mkBitStream {
  bits : list Z;
  bytesOffset : Z;
  bitsOffset : Z;
  bitsmark : Z;
  bytemark : Z;
}.

Definition NewBitStream (buf : list Z) : BitStream := mkBitStream buf 0 0 0 0.

Definition bs_at (bs : BitStream) (bytes bits_ : Z) : BitStream :=
  mkBitStream (bits bs) bytes bits_ (bitsmark bs) (bytemark bs).

Definition bs_get : eff BitStream BitStream := λ bs, (bs, Ret bs).
Definition bs_put (bytes bits_ : Z) : eff BitStream unit := λ bs, (bs_at bs bytes bits_, Ret tt).

Definition GetBytes (n : Z) : eff BitStream (list Z) :=
  bs ← bs_get;
  if bytesOffset bs + n >? len (bits bs) then lift Panic else
  if negb (bitsOffset bs =? 0) then lift Panic else
  data ← lift (go_slice (bits bs) (bytesOffset bs) (bytesOffset bs + n));
  _ ← bs_put (bytesOffset bs + n) (bitsOffset bs);
  mret data.

(** The whole bytes and the last bits of a field. *)
Fixpoint get_loop (fuel : nat) (n ret : Z) : eff BitStream Z :=
  match fuel with
  | O => lift (Fail OutOfFuel)
  | S fuel =>
      if n >? 0 then
        bs ← bs_get;
        if bytesOffset bs >=? len (bits bs) then lift Panic else
        b ← lift (go_index (bits bs) (bytesOffset bs));
        if n >=? 8 then
          _ ← bs_put (bytesOffset bs + 1) (bitsOffset bs);
          get_loop fuel (n - 8) (u64 (Z.lor (Z.shiftl ret 8) b))
        else
          mask ← lift (go_index BitMask (n - 1));
          _ ← bs_put (bytesOffset bs) n;
          mret (u64 (Z.lor (Z.shiftl ret n) (Z.land (Z.shiftr b (8 - n)) mask)))
      else mret ret
  end.

Definition GetBits (n : Z) : eff BitStream Z :=
  bs ← bs_get;
  if bytesOffset bs >=? len (bits bs) then lift Panic else
  b ← lift (go_index (bits bs) (bytesOffset bs));
  if 8 - bitsOffset bs >=? n then
    mask ← lift (go_index BitMask (n - 1));
    let off := bitsOffset bs + n in
    _ ← (if off =? 8 then bs_put (bytesOffset bs + 1) 0 else bs_put (bytesOffset bs) off);
    mret (Z.land (Z.shiftr b (8 - bitsOffset bs - n)) mask)
  else
    mask ← lift (go_index BitMask (8 - bitsOffset bs - 1));
    _ ← bs_put (bytesOffset bs + 1) 0;
    let n := n - (8 - bitsOffset bs) in
    get_loop (S (Z.to_nat n)) n (Z.land b mask).

Definition Uint8 (n : Z) : eff BitStream Z := v ← GetBits n; mret (u8 v).
Definition Uint16 (n : Z) : eff BitStream Z := v ← GetBits n; mret (u16 v).
Definition Uint32 (n : Z) : eff BitStream Z := v ← GetBits n; mret (u32 v).

Definition GetBit : eff BitStream Z :=
  bs ← bs_get;
  if bytesOffset bs >=? len (bits bs) then lift Panic else
  b ← lift (go_index (bits bs) (bytesOffset bs));
  let off := bitsOffset bs + 1 in
  _ ← (if off >=? 8 then bs_put (bytesOffset bs + 1) 0 else bs_put (bytesOffset bs) off);
  mret (Z.land (Z.shiftr b (7 - bitsOffset bs)) 1).

(** Go's [/] and [%] truncate towards zero. *)
Definition SkipBits (n : Z) : eff BitStream unit :=
  bs ← bs_get;
  let bytecount := Z.quot n 8 in
  let bitscount := Z.rem n 8 in
  if bitsOffset bs + bitscount <? 8
  then bs_put (bytesOffset bs + bytecount) (bitsOffset bs + bitscount)
  else bs_put (bytesOffset bs + bytecount + 1) (bitsOffset bs + bitscount - 8).

Definition Markdot : eff BitStream unit := λ bs,
  (mkBitStream (bits bs) (bytesOffset bs) (bitsOffset bs) (bitsOffset bs) (bytesOffset bs), Ret tt).

Definition DistanceFromMarkDot (bs : BitStream) : Z :=
  (bytesOffset bs - bytemark bs - 1) * 8 + (bitsOffset bs + (8 - bitsmark bs)).

Definition RemainBytes (bs : BitStream) : Z :=
  if bitsOffset bs >? 0 then len (bits bs) - bytesOffset bs - 1 else len (bits bs) - bytesOffset bs.

Definition RemainBits (bs : BitStream) : Z :=
  if bitsOffset bs >? 0 then RemainBytes bs * 8 + 8 - bitsOffset bs else RemainBytes bs * 8.

Definition RemainData (bs : BitStream) : outcome (list Z) := go_from (bits bs) (bytesOffset bs).

(** [for least >= 8] of [UnRead], then the last byte. *)
Definition UnRead (n : Z) : eff BitStream unit :=
  bs ← bs_get;
  if n - bitsOffset bs <=? 0 then bs_put (bytesOffset bs) (bitsOffset bs - n) else
  let least := n - bitsOffset bs in
  let bytes := bytesOffset bs - least / 8 in
  let least := least mod 8 in
  if least >? 0 then bs_put (bytes - 1) (8 - least) else bs_put bytes (bitsOffset bs).

Definition NextBits (n : Z) : eff BitStream Z :=
  r ← GetBits n; _ ← UnRead n; mret r.

Definition EOS (bs : BitStream) : bool := (bytesOffset bs =? len (bits bs)) && (bitsOffset bs =? 0).

(** The unsigned Exp-Golomb code; [fuel] bounds the leading zeros. *)
Fixpoint leading_zeros (fuel : nat) (k : Z) : eff BitStream Z :=
  match fuel with
  | O => lift (Fail OutOfFuel)
  | S fuel => b ← GetBit; if b =? 0 then leading_zeros fuel (k + 1) else mret k
  end.

Definition ReadUE : eff BitStream Z :=
  bs ← bs_get;
  k ← leading_zeros (S (8 * length (bits bs))) 0;
  if k =? 0 then mret 0 else
  info ← GetBits k;
  mret (u64 (u64 (Z.shiftl 1 k) - 1 + info)).

Definition ReadSE : eff BitStream Z :=
  v ← ReadUE;
  mret (if v mod 2 =? 0 then -1 * i64 (v / 2) else Z.quot (i64 (u64 (v + 1))) 2).

(** ** The writer *)

Record BitStreamWriter := mkWriter {
  wbits : list Z;
  byteoffset : Z;
  bitsoffset : Z;
  wbitsmark : Z;
  wbytemark : Z;
}.

Definition NewBitStreamWriter (n : Z) : BitStreamWriter := mkWriter (go_make n) 0 0 0 0.

Definition w_at (w : BitStreamWriter) (b : list Z) (bytes bits_ : Z) : BitStreamWriter :=
  mkWriter b bytes bits_ (wbitsmark w) (wbytemark w).

Definition expandSpace (n : Z) (w : BitStreamWriter) : BitStreamWriter :=
  if (len (wbits w) - byteoffset w - 1) * 8 + 8 - bitsoffset w <? n then
    let newlen := if len (wbits w) * 8 <? n then len (wbits w) + n / 8 + 1 else len (wbits w) * 2 in
    w_at w (go_copy (go_make newlen) (wbits w)) (byteoffset w) (bitsoffset w)
  else w.

Definition ByteOffset (w : BitStreamWriter) : Z := byteoffset w.

Definition w_Markdot (w : BitStreamWriter) : BitStreamWriter :=
  mkWriter (wbits w) (byteoffset w) (bitsoffset w) (bitsoffset w) (byteoffset w).

Definition w_DistanceFromMarkDot (w : BitStreamWriter) : Z :=
  (byteoffset w - wbytemark w - 1) * 8 + (bitsoffset w + (8 - wbitsmark w)).

(** [bits[i] |= v] *)
Definition or_byte (b : list Z) (i v : Z) : outcome (list Z) :=
  x ← go_index b i; go_set b i (Z.lor x v).

Definition PutByte (v : Z) (w : BitStreamWriter) : outcome BitStreamWriter :=
  let w := expandSpace 8 w in
  if bitsoffset w =? 0 then
    b ← go_set (wbits w) (byteoffset w) v;
    Ret (w_at w b (byteoffset w + 1) (bitsoffset w))
  else
    b ← or_byte (wbits w) (byteoffset w) (Z.shiftr v (bitsoffset w));
    mask ← go_index BitMask (bitsoffset w - 1);
    b ← go_set b (byteoffset w + 1) (Z.land v mask);
    Ret (w_at w b (byteoffset w + 1) (bitsoffset w)).

Definition PutBytes (v : list Z) (w : BitStreamWriter) : outcome BitStreamWriter :=
  if negb (bitsoffset w =? 0) then Panic else
  let w := expandSpace (8 * len v) w in
  b ← go_copy_at (wbits w) (byteoffset w) v;
  Ret (w_at w b (byteoffset w + len v) (bitsoffset w)).

Fixpoint put_repeat (n : nat) (v : Z) (w : BitStreamWriter) : outcome BitStreamWriter :=
  match n with
  | O => Ret w
  | S n => b ← go_set (wbits w) (byteoffset w) v; put_repeat n v (w_at w b (byteoffset w + 1) (bitsoffset w))
  end.
Definition PutRepetValue (v n : Z) (w : BitStreamWriter) : outcome BitStreamWriter :=
  if negb (bitsoffset w =? 0) then Panic else
  put_repeat (Z.to_nat n) v (expandSpace (8 * n) w).

(** [for n - 8 >= 0]; also what is left of [n]. *)
Fixpoint put_loop (fuel : nat) (v n : Z) (w : BitStreamWriter) : outcome (Z * BitStreamWriter) :=
  match fuel with
  | O => Fail OutOfFuel
  | S fuel =>
      if n - 8 >=? 0 then
        b ← go_set (wbits w) (byteoffset w) (Z.land (u8 (Z.shiftr v (n - 8))) 255);
        put_loop fuel v (n - 8) (w_at w b (byteoffset w + 1) (bitsoffset w))
      else Ret (n, w)
  end.

Definition PutUint64 (v n : Z) (w : BitStreamWriter) : outcome BitStreamWriter :=
  let w := expandSpace n w in
  if 8 - bitsoffset w >=? n then
    mask ← go_index BitMask (n - 1);
    b ← or_byte (wbits w) (byteoffset w) (u8 (Z.shiftl (Z.land (u8 v) mask) (8 - bitsoffset w - n)));
    let off := bitsoffset w + n in
    Ret (if off =? 8 then w_at w b (byteoffset w + 1) 0 else w_at w b (byteoffset w) off)
  else
    mask ← go_index BitMask (8 - bitsoffset w - 1);
    b ← or_byte (wbits w) (byteoffset w) (Z.land (u8 (Z.shiftr v (n - (8 - bitsoffset w)))) mask);
    let n := n - (8 - bitsoffset w) in
    '(n, w) ← put_loop (S (Z.to_nat n)) v n (w_at w b (byteoffset w + 1) (bitsoffset w));
    if n >? 0 then
      mask ← go_index BitMask (n - 1);
      b ← or_byte (wbits w) (byteoffset w) (u8 (Z.shiftl (Z.land (u8 v) mask) (8 - n)));
      Ret (w_at w b (byteoffset w) n)
    else Ret (w_at w (wbits w) (byteoffset w) n).

Definition PutUint8 := PutUint64.
Definition PutUint16 := PutUint64.
Definition PutUint32 := PutUint64.

Definition SetByte (v where_ : Z) (w : BitStreamWriter) : outcome BitStreamWriter :=
  b ← go_set (wbits w) where_ v; Ret (w_at w b (byteoffset w) (bitsoffset w)).

(** [binary.BigEndian.PutUint16(bits[where:where+2], v)] *)
Definition SetUint16 (v where_ : Z) (w : BitStreamWriter) : outcome BitStreamWriter :=
  _ ← go_slice (wbits w) where_ (where_ + 2);
  b ← go_copy_at (wbits w) where_ (be_bytes 2 v);
  Ret (w_at w b (byteoffset w) (bitsoffset w)).

Definition Bits_ (w : BitStreamWriter) : outcome (list Z) :=
  if byteoffset w =? len (wbits w) then Ret (wbits w)
  else go_slice (wbits w) 0 (if bitsoffset w >? 0 then byteoffset w + 1 else byteoffset w).

Definition FillRemainData (v : Z) (w : BitStreamWriter) : BitStreamWriter :=
  w_at w (take (Z.to_nat (byteoffset w)) (wbits w) ++ replicate (length (wbits w) - Z.to_nat (byteoffset w)) v)
    (len (wbits w)) 0.

Definition Reset_ (w : BitStreamWriter) : BitStreamWriter := mkWriter (go_make (len (wbits w))) 0 0 0 0.

(** ** The writer appends bits *)

(** A buffer that holds the bits [acc] and then zeros. *)
Definition buf_rep (acc : list bool) (b : list Z) : Prop :=
  is_bytes b ∧ (length acc ≤ 8 * length b)%nat ∧
  byte_bits b = acc ++ replicate (8 * length b - length acc) false.

Lemma bits_val_zeros n : bits_val (replicate n false) = 0.
Proof. induction n as [|n IH]; [done|]. cbn [replicate]. rewrite bits_val_cons, IH. cbn [Z.b2z]. lia. Qed.
Lemma num_bits_zero n : num_bits n 0 = replicate n false.
Proof. induction n as [|n IH]; [done|]. cbn [num_bits replicate]. by rewrite Z.bits_0, IH. Qed.
Lemma byte_bits_zeros n : byte_bits (replicate n 0) = replicate (8 * n) false.
Proof.
  induction n as [|n IH]; [done|]. cbn [replicate]. rewrite byte_bits_cons, IH, num_bits_zero, <- replicate_add.
  f_equal. lia.
Qed.

Lemma buf_split acc b i off :
  buf_rep acc b → len acc = 8 * Z.of_nat i + off → 0 ≤ off < 8 → (i < length b)%nat →
  ∃ pre c post tail, b = pre ++ c :: post ∧ length pre = i ∧ acc = byte_bits pre ++ tail ∧
    len tail = off ∧ num_bits 8 c = tail ++ replicate (8 - length tail) false ∧
    byte_bits post = replicate (8 * length post) false.
Proof.
  intros (Hb & Hl & Hbits) Hacc Ho Hi. destruct (lookup_lt_is_Some_2 b i Hi) as [c Hc].
  pose proof (take_drop_middle b i c Hc) as Hsplit. set (pre := take i b) in *. set (post := drop (S i) b) in *.
  assert (Hpre : length pre = i) by (unfold pre; rewrite length_take; lia).
  exists pre, c, post, (drop (8 * i) acc).
  rewrite <- Hsplit, byte_bits_app, byte_bits_cons, Hsplit in Hbits.
  assert (Hpb : length (byte_bits pre) = (8 * i)%nat) by (rewrite byte_bits_length; lia).
  assert (Ht : byte_bits pre = take (8 * i) acc).
  { pose proof (f_equal (take (8 * i)) Hbits) as E. rewrite !take_app_le in E by lia.
    by rewrite take_ge in E by lia. }
  assert (Hlt : length (drop (8 * i) acc) = Z.to_nat off) by (rewrite length_drop; lia).
  assert (Hd : num_bits 8 c ++ byte_bits post =
    drop (8 * i) acc ++ replicate (8 * length b - length acc) false).
  { pose proof (f_equal (drop (8 * i)) Hbits) as E. rewrite (drop_app_le acc) in E by lia.
    by rewrite drop_app_ge, Hpb, Nat.sub_diag in E by lia. }
  assert (Hlp : length post = (length b - S i)%nat) by (unfold post; by rewrite length_drop).
  replace (8 * length b - length acc)%nat with ((8 - Z.to_nat off) + 8 * length post)%nat in Hd by lia.
  rewrite replicate_add, app_assoc in Hd.
  apply app_inj_1 in Hd as [H1 H2]; [|rewrite num_bits_length, length_app, length_replicate; lia].
  split; [done|]. split; [done|]. split; [by rewrite Ht, take_drop|]. split; [lia|].
  rewrite Hlt. done.
Qed.

(** A field of [n] bits into the byte being filled. *)
Lemma buf_put acc b i off n y :
  buf_rep acc b → len acc = 8 * Z.of_nat i + off → 0 ≤ off → (i < length b)%nat →
  0 ≤ y < 2 ^ Z.of_nat n → off + Z.of_nat n ≤ 8 → off < 8 →
  ∃ c, b !! i = Some c ∧ (off = 0 → c = 0) ∧
    Z.lor c (y * 2 ^ (8 - off - Z.of_nat n)) = c + y * 2 ^ (8 - off - Z.of_nat n) ∧
    buf_rep (acc ++ num_bits n y) (<[i := c + y * 2 ^ (8 - off - Z.of_nat n)]> b).
Proof.
  intros Hb Hacc Ho Hi Hy Hn Ho8. destruct (buf_split acc b i off Hb Hacc) as (pre & c & post & tl & -> & Hp & Ha & Ht & Hc & Hpost); [lia|done|].
  destruct Hb as (Hbytes & Hl & _). exists c.
  assert (Hlook : (pre ++ c :: post) !! i = Some c) by (by rewrite lookup_app_r, <- Hp, Nat.sub_diag by lia).
  split; [done|].
  apply is_bytes_app in Hbytes as [Hb1 Hb2]. apply is_bytes_cons in Hb2 as [Hcb Hb2].
  set (r := (8 - length tl - n)%nat).
  assert (Er : 8 - off - Z.of_nat n = Z.of_nat r) by lia. rewrite Er.
  assert (Ec : c = bits_val tl * 2 ^ Z.of_nat (n + r)).
  { rewrite <- (bits_val_num_small 8 c), Hc, bits_val_app, bits_val_zeros, length_replicate by done.
    rewrite Z.add_0_r. f_equal. f_equal. lia. }
  assert (Hy2 : 0 ≤ y * 2 ^ Z.of_nat r < 2 ^ Z.of_nat (n + r)).
  { rewrite Nat2Z.inj_add, Z.pow_add_r by lia. nia. }
  split; [intros ->; destruct tl; [by rewrite Ec|cbn in Ht; lia]|].
  assert (El : Z.lor c (y * 2 ^ Z.of_nat r) = c + y * 2 ^ Z.of_nat r).
  { rewrite Ec. apply lor_disjoint; [lia|done]. }
  split; [done|].
  assert (Hnum : num_bits 8 (c + y * 2 ^ Z.of_nat r) = tl ++ num_bits n y ++ replicate r false).
  { replace 8%nat with (length tl + (n + r))%nat by lia. rewrite Ec, num_bits_add, num_bits_val by done. f_equal.
    rewrite <- (Z.add_0_r (y * _)), num_bits_add, num_bits_zero by lia. done. }
  assert (Hu8 : is_u8 (c + y * 2 ^ Z.of_nat r)).
  { pose proof (bits_val_range tl). rewrite Ec. assert (2 ^ Z.of_nat (n + r) * 2 ^ off = 256).
    { rewrite <- Z.pow_add_r by lia. replace (Z.of_nat (n + r) + off) with 8 by lia. done. }
    rewrite Ht in *.
    assert (bits_val tl * 2 ^ Z.of_nat (n + r) ≤ (2 ^ off - 1) * 2 ^ Z.of_nat (n + r))
      by (apply Z.mul_le_mono_nonneg_r; lia).
    rewrite Z.mul_sub_distr_r, (Z.mul_comm (2 ^ off)) in *. lia. }
  rewrite <- Hp, insert_app_r_alt, Nat.sub_diag by lia. cbn [insert list_insert].
  split; [apply is_bytes_app; split; [done|by apply is_bytes_cons]|].
  rewrite length_app in Hl |- *. cbn [length] in Hl |- *. rewrite !length_app, num_bits_length.
  assert (length acc = 8 * length pre + length tl)%nat by lia.
  cbn [length]. split; [lia|].
  rewrite byte_bits_app, byte_bits_cons, Hnum, Hpost, Ha, <- !app_assoc. do 3 f_equal.
  rewrite <- replicate_add, length_app, byte_bits_length. f_equal. lia.
Qed.

(** The writer has written the bits [acc]. *)
Record w_rep (acc : list bool) (w : BitStreamWriter) : Prop := {
  wr_buf : buf_rep acc (wbits w);
  wr_pos : len acc = 8 * byteoffset w + bitsoffset w;
  wr_off : 0 ≤ bitsoffset w < 8;
  wr_byte : 0 ≤ byteoffset w;
}.

Lemma w_rep_new n : w_rep [] (NewBitStreamWriter n).
Proof.
  split; cbn; [|lia..]. split; [apply is_bytes_make|]. split; [apply Nat.le_0_l|].
  unfold go_make. rewrite byte_bits_zeros, length_replicate. cbn [length app]. f_equal. lia.
Qed.

Lemma buf_rep_grow acc b k : buf_rep acc b → buf_rep acc (b ++ replicate k 0).
Proof.
  intros (Hb & Hl & Hbits). split; [|split].
  - apply is_bytes_app. split; [done|]. apply Forall_replicate. lia.
  - rewrite length_app. lia.
  - rewrite byte_bits_app, Hbits, byte_bits_zeros, <- app_assoc, <- replicate_add. f_equal. f_equal.
    rewrite length_app, length_replicate. lia.
Qed.

Lemma expandSpace_rep acc n w : w_rep acc w → 0 ≤ n →
  w_rep acc (expandSpace n w) ∧ byteoffset (expandSpace n w) = byteoffset w ∧
  bitsoffset (expandSpace n w) = bitsoffset w ∧ wbytemark (expandSpace n w) = wbytemark w ∧
  wbitsmark (expandSpace n w) = wbitsmark w ∧ len acc + n ≤ 8 * len (wbits (expandSpace n w)).
Proof.
  intros [Hb Hp Ho Hy] Hn. unfold expandSpace. destruct (Z.ltb_spec ((len (wbits w) - byteoffset w - 1) * 8 + 8 - bitsoffset w) n).
  2:{ split; [done|]. do 4 (split; [done|]). lia. }
  set (newlen := if _ <? _ then _ else _). pose proof (proj1 (proj2 Hb)) as Hl.
  assert (Hn1 : len (wbits w) ≤ newlen ∧ len acc + n ≤ 8 * newlen).
  { unfold newlen. destruct (Z.ltb_spec (len (wbits w) * 8) n); zdm. }
  destruct Hn1 as [Hn1 Hn2]. cbn [w_at wbits byteoffset bitsoffset wbytemark wbitsmark]. rewrite go_copy_make by done. unfold go_make.
  split; [split; cbn; try done; by apply buf_rep_grow|]. do 4 (split; [done|]).
  rewrite length_app, length_replicate. lia.
Qed.

Lemma bit_mask n : 1 ≤ n ≤ 8 → go_index BitMask (n - 1) = Ret (Z.ones n).
Proof.
  intros Hn. assert (n = 1 ∨ n = 2 ∨ n = 3 ∨ n = 4 ∨ n = 5 ∨ n = 6 ∨ n = 7 ∨ n = 8) as H by lia.
  repeat destruct H as [->|H]; subst; reflexivity.
Qed.

Lemma or_byte_put acc b i off n y :
  buf_rep acc b → len acc = 8 * i + off → 0 ≤ i → 0 ≤ off → i < len b →
  0 ≤ y < 2 ^ n → 0 ≤ n → off + n ≤ 8 → off < 8 →
  ∃ b', or_byte b i (y * 2 ^ (8 - off - n)) = Ret b' ∧ length b' = length b ∧
    buf_rep (acc ++ num_bits (Z.to_nat n) y) b'.
Proof.
  intros Hb Hacc Hi Ho Hib Hy Hn H8 Ho8.
  destruct (buf_put acc b (Z.to_nat i) off (Z.to_nat n) y) as (c & Hc & _ & Hlor & Hrep);
    [done|lia|done|lia|by rewrite Z2Nat.id|lia|done|].
  rewrite Z2Nat.id in * by done.
  eexists. unfold or_byte. rewrite (go_index_Ret _ _ c), bind_Ret by (done || lia). rewrite Hlor.
  unfold go_set. rewrite (proj2 (Z.leb_le _ _)), (proj2 (Z.ltb_lt _ _)) by done.
  split; [reflexivity|]. split; [by rewrite length_insert|done].
Qed.

Lemma go_set_put acc b i n y :
  buf_rep acc b → len acc = 8 * i → 0 ≤ i → i < len b → 0 ≤ y < 2 ^ n → 0 ≤ n ≤ 8 →
  ∃ b', go_set b i (y * 2 ^ (8 - n)) = Ret b' ∧ length b' = length b ∧
    buf_rep (acc ++ num_bits (Z.to_nat n) y) b'.
Proof.
  intros Hb Hacc Hi Hib Hy Hn.
  destruct (buf_put acc b (Z.to_nat i) 0 (Z.to_nat n) y) as (c & Hc & H0 & _ & Hrep);
    [done|lia|done|lia|by rewrite Z2Nat.id by lia|lia|done|].
  rewrite Z2Nat.id, H0, Z.add_0_l, Z.sub_0_r in Hrep by lia. eexists.
  unfold go_set. rewrite (proj2 (Z.leb_le _ _)), (proj2 (Z.ltb_lt _ _)) by done.
  split; [reflexivity|]. split; [by rewrite length_insert|done].
Qed.

Lemma put_loop_rep v n : 0 ≤ n → ∀ fuel w acc,
  buf_rep acc (wbits w) → len acc = 8 * byteoffset w → 0 ≤ byteoffset w → len acc + n ≤ 8 * len (wbits w) →
  n < Z.of_nat fuel →
  ∃ w', put_loop fuel v n w = Ret (n mod 8, w') ∧
    buf_rep (acc ++ num_bits (Z.to_nat (8 * (n / 8))) (v / 2 ^ (n mod 8))) (wbits w') ∧
    byteoffset w' = byteoffset w + n / 8 ∧ len (wbits w') = len (wbits w) ∧
    wbytemark w' = wbytemark w ∧ wbitsmark w' = wbitsmark w.
Proof.
  intros Hn fuel. revert n Hn. induction fuel as [|fuel IH]; intros n Hn w acc Hb Hacc Hbo Hl Hf; [lia|].
  cbn [put_loop]. rewrite Z.geb_leb. destruct (Z.leb_spec 0 (n - 8)).
  - destruct (go_set_put acc (wbits w) (byteoffset w) 8 (v / 2 ^ (n - 8) mod 256)) as (b & Eb & Hlb & Hrep);
      [done|done|done|lia|by apply Z.mod_pos_bound|lia|].
    change (2 ^ (8 - 8)) with 1 in Eb. rewrite Z.mul_1_r in Eb. change 255 with (Z.ones 8). unfold u8.
    rewrite Z.land_ones, Z.shiftr_div_pow2 by lia. change (2 ^ 8) with 256. rewrite Zmod_mod, Eb, bind_Ret.
    destruct (IH (n - 8) ltac:(lia) (w_at w b (byteoffset w + 1) (bitsoffset w)) (acc ++ num_bits 8 (v / 2 ^ (n - 8) mod 256)))
      as (w' & E & Hrep' & H1 & H2 & H3); [done|cbn [w_at byteoffset]; rewrite length_app, num_bits_length; lia|cbn [w_at byteoffset]; lia| |lia|].
    { cbn [w_at wbits]. rewrite length_app, num_bits_length. lia. }
    assert (Em : (n - 8) mod 8 = n mod 8) by zdm. assert (Ed : (n - 8) / 8 = n / 8 - 1) by zdm.
    exists w'. rewrite E, Em. split; [done|]. rewrite Em, Ed in *. cbn [w_at wbits byteoffset wbytemark wbitsmark] in H1, H2, H3.
    split; [|split; [lia|split; [congruence|done]]].
    rewrite <- app_assoc in Hrep'. replace (Z.to_nat (8 * (n / 8))) with (8 + Z.to_nat (8 * (n / 8 - 1)))%nat by zdm.
    rewrite num_bits_split, Z2Nat.id by zdm. rewrite Z.div_div, <- Z.pow_add_r by zdm.
    replace (n mod 8 + 8 * (n / 8 - 1)) with (n - 8) by zdm.
    by rewrite <- (num_bits_mod 8 (v / _)).
  - exists w. rewrite Z.mod_small, Z.div_small by lia. split; [done|]. cbn. rewrite app_nil_r. split; [done|]. lia.
Qed.

(** What an operation that appends keeps. *)
Definition marks_same (w w' : BitStreamWriter) : Prop :=
  wbytemark w' = wbytemark w ∧ wbitsmark w' = wbitsmark w.

Lemma u8_mask v n : 0 ≤ n ≤ 8 → Z.land (u8 v) (Z.ones n) = v mod 2 ^ n.
Proof.
  intros Hn. rewrite Z.land_ones by lia. unfold u8. apply Z.mod_mod_divide.
  change 256 with (2 ^ 8). exists (2 ^ (8 - n)). rewrite <- Z.pow_add_r by lia. f_equal. lia.
Qed.

Lemma u8_shiftl x n k : 0 ≤ x < 2 ^ n → 0 ≤ n → 0 ≤ k → n + k ≤ 8 → u8 (Z.shiftl x k) = x * 2 ^ k.
Proof.
  intros Hx Hn Hk H8. rewrite Z.shiftl_mul_pow2 by done. apply u8_small.
  assert (2 ^ n * 2 ^ k ≤ 2 ^ 8) by (rewrite <- Z.pow_add_r by lia; by apply Z.pow_le_mono_r).
  assert (x * 2 ^ k ≤ (2 ^ n - 1) * 2 ^ k) by (apply Z.mul_le_mono_nonneg_r; lia).
  rewrite Z.mul_sub_distr_r in *. change (2 ^ 8) with 256 in *. lia.
Qed.

Lemma num_bits_z n v : num_bits (Z.to_nat n) (v mod 2 ^ n) = num_bits (Z.to_nat n) v.
Proof.
  destruct (Z.leb_spec 0 n); [|by destruct n].
  rewrite <- (Z2Nat.id n) at 2 by done. apply num_bits_mod.
Qed.

Lemma put_tail acc v k w :
  buf_rep acc (wbits w) → len acc = 8 * byteoffset w → 0 ≤ byteoffset w → 0 ≤ k < 8 →
  len acc + k ≤ 8 * len (wbits w) →
  ∃ w', (if k >? 0 then
           mask ← go_index BitMask (k - 1);
           b ← or_byte (wbits w) (byteoffset w) (u8 (Z.shiftl (Z.land (u8 v) mask) (8 - k)));
           Ret (w_at w b (byteoffset w) k)
         else Ret (w_at w (wbits w) (byteoffset w) k)) = Ret w' ∧
    w_rep (acc ++ num_bits (Z.to_nat k) v) w' ∧ marks_same w w'.
Proof.
  intros Hb Hacc Hby Hk Hl. rewrite Z.gtb_ltb. destruct (Z.ltb_spec 0 k).
  - rewrite bit_mask, bind_Ret, u8_mask, (u8_shiftl _ k) by (try apply Z.mod_pos_bound; lia).
    destruct (or_byte_put acc (wbits w) (byteoffset w) 0 k (v mod 2 ^ k)) as (b & Eb & Hlb & Hrep);
      [done|lia|done|lia|lia|apply Z.mod_pos_bound; lia|lia|lia|lia|].
    rewrite Z.sub_0_r in Eb. rewrite Eb, bind_Ret. rewrite num_bits_z in Hrep. eexists. split; [reflexivity|].
    split; [split|done]; cbn [w_at wbits byteoffset bitsoffset]; [done|..]; rewrite ?length_app, ?num_bits_length; lia.
  - replace k with 0 by lia. eexists. split; [reflexivity|]. cbn [Z.to_nat num_bits]. rewrite app_nil_r.
    split; [split|done]; cbn [w_at wbits byteoffset bitsoffset]; [done|lia..].
Qed.

Lemma PutUint64_rep acc v n w :
  w_rep acc w → 1 ≤ n → 0 ≤ v →
  ∃ w', PutUint64 v n w = Ret w' ∧ w_rep (acc ++ num_bits (Z.to_nat n) v) w' ∧ marks_same w w'.
Proof.
  intros Hw Hn Hv. unfold PutUint64.
  destruct (expandSpace_rep acc n w Hw ltac:(lia)) as (Hw1 & _ & _ & E3 & E4 & Hroom).
  set (w1 := expandSpace n w) in *. clearbody w1.
  assert (Hm : marks_same w w1) by done. clear E3 E4. destruct Hw1 as [Hb Hp Ho Hby]. cbv zeta. rewrite Z.geb_leb.
  destruct (Z.leb_spec n (8 - bitsoffset w1)).
  - rewrite bit_mask, bind_Ret, u8_mask, (u8_shiftl _ n) by (try apply Z.mod_pos_bound; lia).
    destruct (or_byte_put acc (wbits w1) (byteoffset w1) (bitsoffset w1) n (v mod 2 ^ n)) as (b & Eb & Hlb & Hrep);
      [done|done|done|lia|lia|apply Z.mod_pos_bound; lia|lia|lia|lia|].
    rewrite Eb, bind_Ret. rewrite num_bits_z in Hrep. eexists. split; [reflexivity|].
    destruct (Z.eqb_spec (bitsoffset w1 + n) 8); (split; [split|done]; cbn [w_at wbits byteoffset bitsoffset]; [done|..]);
      rewrite ?length_app, ?num_bits_length; lia.
  - set (r := 8 - bitsoffset w1) in *. rewrite bit_mask, bind_Ret, u8_mask, Z.shiftr_div_pow2 by lia.
    destruct (or_byte_put acc (wbits w1) (byteoffset w1) (bitsoffset w1) r (v / 2 ^ (n - r) mod 2 ^ r)) as (b & Eb & Hlb & Hrep);
      [done|done|done|lia|lia|apply Z.mod_pos_bound; lia|lia|lia|lia|].
    replace (8 - bitsoffset w1 - r) with 0 in Eb by lia. rewrite Z.pow_0_r, Z.mul_1_r in Eb. rewrite Eb, bind_Ret.
    rewrite num_bits_z in Hrep. set (m := n - r) in *.
    destruct (put_loop_rep v m ltac:(lia) (S (Z.to_nat m)) (w_at w1 b (byteoffset w1 + 1) (bitsoffset w1))
      (acc ++ num_bits (Z.to_nat r) (v / 2 ^ m))) as (w2 & E2 & Hrep2 & Hby2 & Hl2 & Hm2 & Hm3);
      [done|..]; cbn [w_at wbits byteoffset]; rewrite ?length_app, ?num_bits_length; try lia.
    rewrite E2, bind_Ret. cbn [w_at wbits byteoffset] in Hby2, Hl2.
    pose proof (Z.div_mod m 8 ltac:(lia)). pose proof (Z.mod_pos_bound m 8 ltac:(lia)).
    assert (0 ≤ m / 8) by (apply Z.div_pos; lia).
    destruct (put_tail _ v (m mod 8) w2 Hrep2) as (w3 & E3 & Hw3 & Hm4);
      rewrite ?length_app, ?num_bits_length; [lia|lia|lia|lia|].
    rewrite E3. eexists. split; [reflexivity|]. split; [|unfold marks_same in *; cbn [w_at wbytemark wbitsmark] in *; intuition congruence].
    replace (num_bits (Z.to_nat n) v) with (num_bits (Z.to_nat r) (v / 2 ^ m) ++
      num_bits (Z.to_nat (8 * (m / 8))) (v / 2 ^ (m mod 8)) ++ num_bits (Z.to_nat (m mod 8)) v);
      [by rewrite !app_assoc in *|].
    replace (Z.to_nat n) with (Z.to_nat r + Z.to_nat m)%nat by lia. rewrite num_bits_split, Z2Nat.id by lia.
    f_equal. replace (Z.to_nat m) with (Z.to_nat (8 * (m / 8)) + Z.to_nat (m mod 8))%nat by zdm.
    by rewrite num_bits_split, Z2Nat.id by zdm.
Qed.

(** ** Whole bytes *)

Lemma is_bytes_1 x : is_u8 x → is_bytes [x].
Proof. intros Hx. apply is_bytes_cons. split; [done|apply is_bytes_nil]. Qed.

Lemma byte_bits_inj a b : is_bytes a → is_bytes b → byte_bits a = byte_bits b → a = b.
Proof.
  intros Ha Hb E. assert (length a = length b).
  { pose proof (f_equal length E) as H. rewrite !byte_bits_length in H. lia. }
  rewrite <- (pack_byte_bits a), <- (pack_byte_bits b), E by done. by f_equal.
Qed.

(** The writer has written the bytes [out]. *)
Record w_bytes (out : list Z) (w : BitStreamWriter) : Prop := {
  wb_bytes : is_bytes out;
  wb_buf : wbits w = out ++ replicate (length (wbits w) - length out) 0;
  wb_byte : byteoffset w = len out;
  wb_bit : bitsoffset w = 0;
}.

Lemma w_bytes_rep out w : w_bytes out w → w_rep (byte_bits out) w.
Proof.
  intros [Hb Hbuf Hby Hbit]. set (k := (length (wbits w) - length out)%nat) in *.
  assert (Hl : length (wbits w) = (length out + k)%nat) by (rewrite Hbuf; by rewrite length_app, length_replicate).
  split; rewrite ?byte_bits_length; [|lia..]. rewrite Hbuf at 1. apply buf_rep_grow. split; [done|].
  split; [by rewrite byte_bits_length|]. by rewrite byte_bits_length, Nat.sub_diag, app_nil_r.
Qed.

Lemma w_rep_bytes out w : is_bytes out → w_rep (byte_bits out) w → w_bytes out w.
Proof.
  intros Ho [(Hb & Hl & Hbits) Hp Hoff Hby]. rewrite byte_bits_length in *. split; [done| |lia|lia].
  apply byte_bits_inj; [done|apply is_bytes_app; split; [done|apply Forall_replicate; lia]|].
  rewrite byte_bits_app, byte_bits_zeros, Hbits. do 2 f_equal. lia.
Qed.

Lemma w_bytes_new n : w_bytes [] (NewBitStreamWriter n).
Proof. apply (w_rep_bytes []); [constructor|]. apply w_rep_new. Qed.

Lemma expandSpace_bytes out n w : w_bytes out w → 0 ≤ n →
  w_bytes out (expandSpace n w) ∧ marks_same w (expandSpace n w) ∧ 8 * len out + n ≤ 8 * len (wbits (expandSpace n w)).
Proof.
  intros Hw Hn. destruct (expandSpace_rep (byte_bits out) n w (w_bytes_rep _ _ Hw) Hn) as (H & _ & _ & H1 & H2 & H3).
  split; [apply w_rep_bytes; [by destruct Hw|done]|]. split; [done|]. rewrite byte_bits_length in H3. lia.
Qed.

Lemma PutBytes_bytes out v w : w_bytes out w → is_bytes v →
  ∃ w', PutBytes v w = Ret w' ∧ w_bytes (out ++ v) w' ∧ marks_same w w'.
Proof.
  intros Hw Hv. unfold PutBytes. rewrite (wb_bit _ _ Hw). cbn [Z.eqb negb].
  destruct (expandSpace_bytes out (8 * len v) w Hw ltac:(lia)) as (Hw1 & Hm & Hroom).
  set (w1 := expandSpace _ w) in *. clearbody w1. destruct Hw1 as [Hb Hbuf Hby Hbit]. cbv zeta.
  set (k := (length (wbits w1) - length out)%nat) in *.
  assert (Hl : length (wbits w1) = (length out + k)%nat) by (rewrite Hbuf; by rewrite length_app, length_replicate).
  assert (Ec : go_copy_at (wbits w1) (byteoffset w1) v = Ret (out ++ v ++ replicate (k - length v) 0)).
  { unfold go_copy_at, go_upd_from, go_from. rewrite Hby, (proj2 (Z.leb_le _ _)), (proj2 (Z.leb_le _ _)) by lia.
    cbn [andb]. rewrite Nat2Z.id, bind_Ret, bind_Ret, Hbuf, drop_app_length, take_app_length. do 2 f_equal.
    unfold go_copy. by rewrite length_replicate, take_ge, drop_replicate by lia. }
  rewrite Ec, bind_Ret. eexists. split; [reflexivity|]. split; [|done].
  split; cbn [w_at wbits byteoffset bitsoffset]; [by apply is_bytes_app| | |done].
  - rewrite <- app_assoc, !length_app, length_replicate. do 3 f_equal. lia.
  - rewrite length_app. lia.
Qed.

Lemma PutByte_bytes out v w : w_bytes out w → is_u8 v →
  ∃ w', PutByte v w = Ret w' ∧ w_bytes (out ++ [v]) w' ∧ marks_same w w'.
Proof.
  intros Hw Hv. unfold PutByte.
  destruct (expandSpace_bytes out 8 w Hw ltac:(lia)) as (Hw1 & Hm & Hroom).
  set (w1 := expandSpace _ w) in *. clearbody w1. destruct Hw1 as [Hb Hbuf Hby Hbit]. cbv zeta.
  rewrite Hbit. cbn [Z.eqb]. set (k := (length (wbits w1) - length out)%nat) in *.
  assert (Hl : length (wbits w1) = (length out + k)%nat) by (rewrite Hbuf; by rewrite length_app, length_replicate).
  unfold go_set. rewrite Hby, (proj2 (Z.leb_le _ _)), (proj2 (Z.ltb_lt _ _)) by lia. cbn [andb]. rewrite bind_Ret.
  eexists. split; [reflexivity|]. split; [|done].
  split; cbn [w_at wbits byteoffset bitsoffset]; [apply is_bytes_app; split; [done|by apply is_bytes_1]| | |done].
  - rewrite length_insert, Nat2Z.id, length_app. cbn [length]. rewrite Hbuf, insert_app_r_alt, Nat.sub_diag by lia.
    destruct k as [|k]; [lia|]. cbn [replicate insert list_insert]. rewrite <- app_assoc. cbn [app]. do 3 f_equal.
    rewrite length_app. cbn [length]. rewrite length_replicate. lia.
  - rewrite length_app. cbn [length]. lia.
Qed.

Lemma put_repeat_bytes v n : is_u8 v → ∀ out w, w_bytes out w → len out + Z.of_nat n ≤ len (wbits w) →
  ∃ w', put_repeat n v w = Ret w' ∧ w_bytes (out ++ replicate n v) w' ∧ marks_same w w'.
Proof.
  intros Hv. induction n as [|n IH]; intros out w Hw Hl; cbn [put_repeat replicate].
  { exists w. by rewrite app_nil_r. }
  destruct Hw as [Hb Hbuf Hby Hbit]. set (k := (length (wbits w) - length out)%nat) in *.
  unfold go_set. rewrite Hby, (proj2 (Z.leb_le _ _)), (proj2 (Z.ltb_lt _ _)) by lia. cbn [andb]. rewrite bind_Ret, <- Hby.
  destruct (IH (out ++ [v]) (w_at w (<[Z.to_nat (len out) := v]> (wbits w)) (byteoffset w + 1) (bitsoffset w)))
    as (w' & E & H & Hm).
  { split; cbn [w_at wbits byteoffset bitsoffset]; [apply is_bytes_app; split; [done|by apply is_bytes_1]| | |done].
    - rewrite length_insert, Nat2Z.id, length_app. cbn [length]. rewrite Hbuf, insert_app_r_alt, Nat.sub_diag by lia.
      destruct k as [|k0] eqn:Ek; [lia|]. cbn [replicate insert list_insert]. rewrite <- app_assoc. cbn [app]. do 3 f_equal.
      rewrite length_app. cbn [length]. rewrite length_replicate. lia.
    - rewrite length_app. cbn [length]. lia. }
  { cbn [w_at wbits]. rewrite length_insert, length_app. cbn [length]. lia. }
  exists w'. rewrite Hby in *. rewrite <- app_assoc in H. split; [exact E|]. by split.
Qed.

Lemma PutRepetValue_bytes out v n w : w_bytes out w → is_u8 v → 0 ≤ n →
  ∃ w', PutRepetValue v n w = Ret w' ∧ w_bytes (out ++ replicate (Z.to_nat n) v) w' ∧ marks_same w w'.
Proof.
  intros Hw Hv Hn. unfold PutRepetValue. rewrite (wb_bit _ _ Hw). cbn [Z.eqb negb].
  destruct (expandSpace_bytes out (8 * n) w Hw ltac:(lia)) as (Hw1 & Hm & Hroom).
  destruct (put_repeat_bytes v (Z.to_nat n) Hv out _ Hw1 ltac:(lia)) as (w' & E & H & Hm').
  exists w'. split; [done|]. split; [done|]. unfold marks_same in *. intuition congruence.
Qed.

Lemma Bits_bytes out w : w_bytes out w → Bits_ w = Ret out.
Proof.
  intros [Hb Hbuf Hby Hbit]. unfold Bits_. rewrite Hby, Hbit. cbn [Z.gtb Z.compare].
  set (k := (length (wbits w) - length out)%nat) in *.
  assert (Hl : length (wbits w) = (length out + k)%nat) by (rewrite Hbuf; by rewrite length_app, length_replicate).
  destruct (Z.eqb_spec (len out) (len (wbits w))).
  - rewrite Hbuf. assert (k = O) as -> by lia. by rewrite app_nil_r.
  - unfold go_slice. rewrite (proj2 (Z.leb_le 0 (len out))), (proj2 (Z.leb_le (len out) _)) by lia. cbn [Z.leb Z.compare andb].
    by rewrite Z.sub_0_r, Nat2Z.id, Hbuf, drop_0, take_app_length.
Qed.

(** The bytes at [i] are replaced. *)
Lemma SetUint16_bytes a x y b v w : w_bytes (a ++ [x; y] ++ b) w → is_u16 v →
  ∃ w', SetUint16 v (len a) w = Ret w' ∧ w_bytes (a ++ be_bytes 2 v ++ b) w' ∧ marks_same w w'.
Proof.
  intros [Hb Hbuf Hby Hbit] Hv. set (k := (length (wbits w) - _)%nat) in *. unfold SetUint16.
  assert (Hl : length (wbits w) = (length (a ++ [x; y] ++ b) + k)%nat)
    by (rewrite Hbuf; by rewrite length_app, length_replicate).
  rewrite !length_app in Hl. cbn [length] in Hl.
  unfold go_slice. rewrite (proj2 (Z.leb_le 0 (len a))), (proj2 (Z.leb_le (len a) _)), (proj2 (Z.leb_le _ (len (wbits w)))) by lia.
  cbn [andb]. rewrite bind_Ret.
  assert (Ec : go_copy_at (wbits w) (len a) (be_bytes 2 v) = Ret ((a ++ be_bytes 2 v ++ b) ++ replicate k 0)).
  { unfold go_copy_at, go_upd_from, go_from. rewrite (proj2 (Z.leb_le 0 (len a))), (proj2 (Z.leb_le _ _)) by lia.
    cbn [andb]. rewrite Nat2Z.id, bind_Ret, bind_Ret, Hbuf, <- !app_assoc, drop_app_length, take_app_length. do 2 f_equal.
    unfold go_copy. rewrite be_bytes_length, take_ge by (rewrite be_bytes_length; cbn [app length]; lia). done. }
  rewrite Ec, bind_Ret. eexists. split; [reflexivity|]. split; [|done].
  apply is_bytes_app in Hb as [H1 H2]. apply is_bytes_app in H2 as [H2 H3].
  split; cbn [w_at wbits byteoffset bitsoffset].
  - apply is_bytes_app. split; [done|]. apply is_bytes_app. split; [apply is_bytes_be_bytes|done].
  - f_equal. f_equal. rewrite !length_app, length_replicate, be_bytes_length. cbn [length]. lia.
  - rewrite Hby, !length_app, be_bytes_length. done.
  - done.
Qed.

(** ** The reader takes bits *)

(** The reader is at bit [p] of the buffer [b]. *)
Record r_at (b : list Z) (p : nat) (bs : BitStream) : Prop := {
  ra_buf : bits bs = b;
  ra_pos : 8 * bytesOffset bs + bitsOffset bs = Z.of_nat p;
  ra_off : 0 ≤ bitsOffset bs < 8;
  ra_byte : 0 ≤ bytesOffset bs;
}.

Definition r_marks (bs bs' : BitStream) : Prop := bytemark bs' = bytemark bs ∧ bitsmark bs' = bitsmark bs.

Lemma r_at_new b : r_at b 0 (NewBitStream b).
Proof. by split. Qed.

Lemma drop_byte_bits i b c : b !! i = Some c →
  drop (8 * i) (byte_bits b) = num_bits 8 c ++ drop (8 * S i) (byte_bits b).
Proof.
  intros Hc. pose proof (take_drop_middle b i c Hc) as Hs. pose proof (lookup_lt_Some _ _ _ Hc).
  rewrite <- Hs, byte_bits_app, byte_bits_cons.
  assert (E : length (byte_bits (take i b)) = (8 * i)%nat) by (rewrite byte_bits_length, length_take; lia).
  rewrite drop_app_length' by done. f_equal. rewrite app_assoc, drop_app_length'; [done|].
  rewrite length_app, num_bits_length. lia.
Qed.

(** The byte the reader is in, when bits are left. *)
Lemma r_at_byte b p bs : r_at b p bs → (p < 8 * length b)%nat →
  ∃ c, go_index b (bytesOffset bs) = Ret c ∧ (bytesOffset bs >=? len b) = false ∧
    drop p (byte_bits b) = drop (Z.to_nat (bitsOffset bs)) (num_bits 8 c) ++
      drop (8 * S (Z.to_nat (bytesOffset bs))) (byte_bits b).
Proof.
  intros [Hb Hp Ho Hby] Hlt. destruct (lookup_lt_is_Some_2 b (Z.to_nat (bytesOffset bs))) as [c Hc]; [lia|].
  exists c. split; [by apply go_index_Ret|]. split; [rewrite Z.geb_leb; apply Z.leb_gt; lia|].
  replace p with (8 * Z.to_nat (bytesOffset bs) + Z.to_nat (bitsOffset bs))%nat by lia.
  rewrite <- drop_drop, (drop_byte_bits _ _ c), drop_app_le by (done || (rewrite num_bits_length; lia)). done.
Qed.

Lemma num_bits_inj n a b x y : num_bits n a ++ x = num_bits n b ++ y →
  a mod 2 ^ Z.of_nat n = b mod 2 ^ Z.of_nat n ∧ x = y.
Proof.
  intros E. apply app_inj_1 in E as [E1 E2]; [|by rewrite !num_bits_length].
  split; [|done]. by rewrite <- !bits_val_num, E1.
Qed.

Lemma mod_pow_join v k m : 0 ≤ k → 0 ≤ m →
  (v / 2 ^ m) mod 2 ^ k * 2 ^ m + v mod 2 ^ m = v mod 2 ^ (k + m).
Proof.
  intros Hk Hm. rewrite (Z.add_comm k m), Z.pow_add_r, Z.rem_mul_r by lia. ring.
Qed.

(** A further field of [n] bits of a number whose high [k] bits were read. *)
Lemma lor_field v k n m : 0 ≤ k → 0 ≤ n → 0 ≤ m → k + n ≤ 64 →
  u64 (Z.lor (Z.shiftl ((v / 2 ^ (n + m)) mod 2 ^ k) n) ((v / 2 ^ m) mod 2 ^ n)) = (v / 2 ^ m) mod 2 ^ (k + n).
Proof.
  intros Hk Hn Hm H64. rewrite Z.shiftl_mul_pow2, lor_disjoint by (try apply Z.mod_pos_bound; lia).
  rewrite (Z.add_comm n m), Z.pow_add_r, <- Z.div_div by lia. rewrite mod_pow_join by lia.
  unfold u64. change 18446744073709551616 with (2 ^ 64). apply Z.mod_small.
  pose proof (Z.mod_pos_bound (v / 2 ^ m) (2 ^ (k + n)) ltac:(lia)).
  assert (2 ^ (k + n) ≤ 2 ^ 64) by (apply Z.pow_le_mono_r; lia). lia.
Qed.

Lemma get_loop_at b v rest : is_bytes b → ∀ fuel m k p bs,
  r_at b p bs → bitsOffset bs = 0 → 0 ≤ m → 0 ≤ k → k + m ≤ 64 → m < Z.of_nat fuel →
  drop p (byte_bits b) = num_bits (Z.to_nat m) v ++ rest →
  ∃ bs', get_loop fuel m ((v / 2 ^ m) mod 2 ^ k) bs = (bs', Ret (v mod 2 ^ (k + m))) ∧
    r_at b (p + Z.to_nat m) bs' ∧ r_marks bs bs'.
Proof.
  intros Hb fuel. induction fuel as [|fuel IH]; intros m k p bs Hr H0 Hm Hk H64 Hf Hd; [lia|].
  cbn [get_loop]. rewrite Z.gtb_ltb. destruct (Z.ltb_spec 0 m).
  2:{ replace m with 0 by lia. exists bs. rewrite Z.pow_0_r, Z.div_1_r, !Z.add_0_r. cbn [Z.to_nat].
      rewrite Nat.add_0_r. by split. }
  assert (Hlt : (p < 8 * length b)%nat).
  { pose proof (f_equal length Hd) as E. rewrite length_drop, byte_bits_length, length_app, num_bits_length in E. lia. }
  destruct (r_at_byte b p bs Hr Hlt) as (c & Ec & Eg & Hsp). pose proof Hr as [Hbuf Hp Ho Hby].
  assert (Hc : is_u8 c) by (by eapply go_index_bytes).
  unfold mbind, eff_bind, bs_get. rewrite Hbuf, Eg. unfold lift. rewrite Ec. rewrite H0 in Hsp. cbn [Z.to_nat] in Hsp. rewrite drop_0 in Hsp.
  rewrite Z.geb_leb. destruct (Z.leb_spec 8 m).
  - rewrite Hsp in Hd. replace (Z.to_nat m) with (8 + Z.to_nat (m - 8))%nat in Hd by lia.
    rewrite num_bits_split, <- app_assoc, Z2Nat.id in Hd by lia. apply num_bits_inj in Hd as [Hv Hd].
    change (2 ^ Z.of_nat 8) with (2 ^ 8) in Hv. rewrite (Z.mod_small c) in Hv by done. rewrite Hv.
    pose proof (lor_field v k 8 (m - 8) Hk ltac:(lia) ltac:(lia) ltac:(lia)) as Hl.
    replace (8 + (m - 8)) with m in Hl by lia. change (2 ^ Z.of_nat 8) with (2 ^ 8). rewrite Hl. clear Hl.
    destruct (IH (m - 8) (k + 8) (p + 8)%nat (bs_at bs (bytesOffset bs + 1) (bitsOffset bs))) as (bs' & E & Hr' & Hm');
      [split; cbn; lia || done|done|lia|lia|lia|lia| |].
    { rewrite <- Hd. f_equal. lia. }
    exists bs'. unfold bs_put. rewrite E. replace (k + 8 + (m - 8)) with (k + m) by lia. split; [done|]. split; [|done].
    replace (p + Z.to_nat m)%nat with (p + 8 + Z.to_nat (m - 8))%nat by lia. done.
  - rewrite bit_mask by lia. rewrite Hsp in Hd.
    replace 8%nat with (Z.to_nat m + Z.to_nat (8 - m))%nat in Hd at 1 by lia.
    rewrite num_bits_split, Z2Nat.id, <- app_assoc in Hd by lia. apply num_bits_inj in Hd as [Hv _].
    rewrite Z2Nat.id in Hv by lia. rewrite Z.land_ones, Z.shiftr_div_pow2, Hv by lia.
    pose proof (lor_field v k m 0 Hk Hm ltac:(lia) H64) as Hl. rewrite !Z.add_0_r, !Z.pow_0_r, !Z.div_1_r in Hl. rewrite Hl.
    eexists. split; [reflexivity|]. split; [split; cbn; lia || done|done].
Qed.

Lemma GetBits_at b p n v rest bs :
  r_at b p bs → is_bytes b → 1 ≤ n ≤ 64 → drop p (byte_bits b) = num_bits (Z.to_nat n) v ++ rest →
  ∃ bs', GetBits n bs = (bs', Ret (v mod 2 ^ n)) ∧ r_at b (p + Z.to_nat n) bs' ∧ r_marks bs bs'.
Proof.
  intros Hr Hb Hn Hd. assert (Hlt : (p < 8 * length b)%nat).
  { pose proof (f_equal length Hd) as E. rewrite length_drop, byte_bits_length, length_app, num_bits_length in E. lia. }
  destruct (r_at_byte b p bs Hr Hlt) as (c & Ec & Eg & Hsp). pose proof Hr as [Hbuf Hp Ho Hby].
  assert (Hc : is_u8 c) by (by eapply go_index_bytes).
  unfold GetBits, mbind, eff_bind, bs_get. rewrite Hbuf, Eg. unfold lift. rewrite Ec, Z.geb_leb. rewrite Hsp in Hd.
  set (r := 8 - bitsOffset bs) in *.
  assert (Hsp8 : drop (Z.to_nat (bitsOffset bs)) (num_bits 8 c) = num_bits (Z.to_nat r) c).
  { replace 8%nat with (Z.to_nat (bitsOffset bs) + Z.to_nat r)%nat by lia. rewrite num_bits_split.
    by rewrite drop_app_length' by (by rewrite num_bits_length). }
  rewrite Hsp8 in Hd. destruct (Z.leb_spec n r).
  - rewrite bit_mask by lia.
    replace (Z.to_nat r) with (Z.to_nat n + Z.to_nat (r - n))%nat in Hd by lia.
    rewrite num_bits_split, Z2Nat.id, <- app_assoc in Hd by lia. apply num_bits_inj in Hd as [Hv _].
    rewrite Z2Nat.id in Hv by lia. rewrite Z.land_ones, Z.shiftr_div_pow2, Hv by lia.
    destruct (Z.eqb_spec (bitsOffset bs + n) 8); eexists; (split; [reflexivity|]); (split; [split; cbn; lia || done|done]).
  - rewrite bit_mask by lia. set (m := n - r) in *.
    replace (Z.to_nat n) with (Z.to_nat r + Z.to_nat m)%nat in Hd by lia.
    rewrite num_bits_split, Z2Nat.id, <- app_assoc in Hd by lia. apply num_bits_inj in Hd as [Hv Hd].
    rewrite Z2Nat.id in Hv by lia. rewrite Z.land_ones, Hv by lia. unfold bs_put.
    destruct (get_loop_at b v rest Hb (S (Z.to_nat m)) m r (p + Z.to_nat r)%nat (bs_at bs (bytesOffset bs + 1) 0))
      as (bs' & E & Hr' & Hm'); [split; cbn; lia || done|done|lia|lia|lia|lia| |].
    { rewrite <- Hd. f_equal. lia. }
    exists bs'. rewrite E. replace (r + m) with n by lia. split; [done|]. split; [|done].
    replace (p + Z.to_nat n)%nat with (p + Z.to_nat r + Z.to_nat m)%nat by lia. done.
Qed.

(** Forwards, or back to the start of a byte. *)
Lemma SkipBits_at b p n q bs :
  r_at b p bs → Z.of_nat p + n = Z.of_nat q → 0 ≤ n ∨ Z.of_nat q mod 8 = 0 →
  ∃ bs', SkipBits n bs = (bs', Ret tt) ∧ r_at b q bs' ∧ r_marks bs bs'.
Proof.
  intros [Hb Hp Ho Hby] Hq Hd. unfold SkipBits, mbind, eff_bind, bs_get. cbv zeta.
  pose proof (Z.quot_rem' n 8) as E. assert (-8 < Z.rem n 8 < 8).
  { pose proof (Z.rem_bound_abs n 8 ltac:(lia)). lia. }
  assert (0 ≤ n → 0 ≤ Z.rem n 8) by (intros; apply Z.rem_nonneg; lia).
  assert (n ≤ 0 → Z.rem n 8 ≤ 0) by (intros; apply Z.rem_nonpos; lia).
  set (r := Z.rem n 8) in *. set (u := Z.quot n 8) in *. clearbody r u.
  destruct (Z.ltb_spec (bitsOffset bs + r) 8); eexists; (split; [reflexivity|]); (split; [|done]);
    split; cbn [bs_at bits bytesOffset bitsOffset]; try done; try lia; destruct Hd; try lia; zdm.
Qed.

Lemma UnRead_at b p n q bs :
  r_at b p bs → Z.of_nat p - n = Z.of_nat q →
  n ≤ bitsOffset bs ∨ bitsOffset bs = 0 ∨ (n - bitsOffset bs) mod 8 ≠ 0 → 0 ≤ n →
  ∃ bs', UnRead n bs = (bs', Ret tt) ∧ r_at b q bs' ∧ r_marks bs bs'.
Proof.
  intros [Hb Hp Ho Hby] Hq Hd Hn. unfold UnRead, mbind, eff_bind, bs_get. cbv zeta.
  destruct (Z.leb_spec (n - bitsOffset bs) 0).
  { eexists. split; [reflexivity|]. split; [split; cbn; lia || done|done]. }
  rewrite Z.gtb_ltb. pose proof (Z.div_mod (n - bitsOffset bs) 8 ltac:(lia)).
  pose proof (Z.mod_pos_bound (n - bitsOffset bs) 8 ltac:(lia)).
  destruct (Z.ltb_spec 0 ((n - bitsOffset bs) mod 8));
    eexists; (split; [reflexivity|]); (split; [|done]); split; cbn; try done; lia.
Qed.

(** A look ahead from the start of a byte. *)
Lemma NextBits_at b p n v rest bs :
  r_at b p bs → bitsOffset bs = 0 → is_bytes b → 1 ≤ n < 8 ∨ n = 8 ∨ n = 32 →
  drop p (byte_bits b) = num_bits (Z.to_nat n) v ++ rest →
  ∃ bs', NextBits n bs = (bs', Ret (v mod 2 ^ n)) ∧ r_at b p bs' ∧ r_marks bs bs'.
Proof.
  intros Hr H0 Hb Hn Hd. unfold NextBits.
  destruct (GetBits_at b p n v rest bs Hr Hb ltac:(lia) Hd) as (bs1 & E1 & Hr1 & Hm1).
  assert (Ho : bitsOffset bs1 = n mod 8) by (destruct Hr, Hr1; zdm).
  destruct (UnRead_at b (p + Z.to_nat n) n p bs1 Hr1) as (bs2 & E2 & Hr2 & Hm2); [lia|rewrite Ho; zdm|lia|].
  exists bs2. rewrite (eff_bind_Ret _ _ _ _ _ E1), (eff_bind_Ret _ _ _ _ _ E2).
  split; [done|]. split; [done|]. unfold r_marks in *. intuition congruence.
Qed.

(** ** Round trip of fields *)

Fixpoint put_all (fields : list (Z * Z)) (w : BitStreamWriter) : outcome BitStreamWriter :=
  match fields with [] => Ret w | (v, n) :: fields => w ← PutUint64 v n w; put_all fields w end.
Fixpoint get_all (widths : list Z) : eff BitStream (list Z) :=
  match widths with [] => mret [] | n :: widths => v ← GetBits n; l ← get_all widths; mret (v :: l) end.

Definition fields_bits (fields : list (Z * Z)) : list bool :=
  mjoin ((λ f, num_bits (Z.to_nat f.2) f.1) <$> fields).

Definition field_ok (f : Z * Z) : Prop := 1 ≤ f.2 ≤ 64 ∧ 0 ≤ f.1 < 2 ^ f.2.

Lemma put_all_rep fields : Forall field_ok fields → ∀ acc w, w_rep acc w →
  ∃ w', put_all fields w = Ret w' ∧ w_rep (acc ++ fields_bits fields) w'.
Proof.
  induction fields as [|[v n] fields IH]; intros Hf acc w Hw; cbn [put_all].
  { exists w. by rewrite app_nil_r. }
  apply Forall_cons in Hf as [[Hn Hv] Hf]. cbn [fst snd] in *.
  destruct (PutUint64_rep acc v n w Hw ltac:(lia) ltac:(lia)) as (w1 & E1 & Hw1 & _). rewrite E1, bind_Ret.
  destruct (IH Hf _ w1 Hw1) as (w2 & E2 & Hw2). exists w2. by rewrite E2, <- app_assoc in *.
Qed.

Lemma get_all_at b fields : is_bytes b → Forall field_ok fields → ∀ p rest bs, r_at b p bs →
  drop p (byte_bits b) = fields_bits fields ++ rest →
  ∃ bs', get_all fields.*2 bs = (bs', Ret fields.*1).
Proof.
  intros Hb Hf. induction Hf as [|[v n] fields [Hn Hv] Hf IH]; intros p rest bs Hr Hd; [by exists bs|].
  cbn [fmap list_fmap get_all fst snd] in *. unfold fields_bits in Hd. cbn [fmap list_fmap mjoin list_join fst snd] in Hd.
  rewrite <- app_assoc in Hd.
  destruct (GetBits_at b p n v _ bs Hr Hb ltac:(lia) Hd) as (bs1 & E1 & Hr1 & _).
  rewrite Z.mod_small in E1 by done. rewrite (eff_bind_Ret _ _ _ _ _ E1).
  destruct (IH (p + Z.to_nat n)%nat rest bs1 Hr1) as (bs2 & E2).
  { rewrite <- drop_drop, Hd, drop_app_length' by (by rewrite num_bits_length). done. }
  exists bs2. by rewrite (eff_bind_Ret _ _ _ _ _ E2).
Qed.

(** The bytes of the writer are its bits and less than a byte of zeros. *)
Lemma Bits_rep acc w : w_rep acc w →
  ∃ out k, Bits_ w = Ret out ∧ is_bytes out ∧ byte_bits out = acc ++ replicate k false ∧ (k < 8)%nat.
Proof.
  intros [(Hb & Hl & Hbits) Hp Ho Hby]. unfold Bits_. rewrite Z.gtb_ltb.
  destruct (Z.eqb_spec (byteoffset w) (len (wbits w))).
  { eexists _, _. split; [done|]. split; [done|]. split; [exact Hbits|]. lia. }
  set (m := if 0 <? bitsoffset w then byteoffset w + 1 else byteoffset w).
  assert (Hm : 0 ≤ m ≤ len (wbits w) ∧ len acc ≤ 8 * m < len acc + 8) by (unfold m; destruct (Z.ltb_spec 0 (bitsoffset w)); lia).
  unfold go_slice. rewrite (proj2 (Z.leb_le 0 m)), (proj2 (Z.leb_le m _)) by lia. cbn [Z.leb Z.compare andb].
  rewrite Z.sub_0_r, drop_0. exists (take (Z.to_nat m) (wbits w)), (8 * Z.to_nat m - length acc)%nat.
  split; [done|]. split; [by apply is_bytes_take|]. split; [|lia].
  assert (Ht : byte_bits (take (Z.to_nat m) (wbits w)) = take (8 * Z.to_nat m) (byte_bits (wbits w))).
  { rewrite <- (take_drop (Z.to_nat m) (wbits w)) at 2. rewrite byte_bits_app, take_app_length'; [done|].
    rewrite byte_bits_length, length_take. lia. }
  rewrite Ht, Hbits, take_app_ge, take_replicate by lia. do 2 f_equal. lia.
Qed.

(** Any fields of 1 to 64 bits written one after the other, from a buffer
    of any size, are read back in order, whatever their alignment. *)
Theorem ps_bits_roundtrip fields n :
  Forall field_ok fields →
  ∃ w out bs, put_all fields (NewBitStreamWriter n) = Ret w ∧ Bits_ w = Ret out ∧
    get_all fields.*2 (NewBitStream out) = (bs, Ret fields.*1).
Proof.
  intros Hf. destruct (put_all_rep fields Hf [] _ (w_rep_new n)) as (w & E & Hw).
  destruct (Bits_rep _ w Hw) as (out & k & Eo & Ho & Hbits & _).
  destruct (get_all_at out fields Ho Hf 0 (replicate k false) (NewBitStream out) (r_at_new out)) as (bs & Eb); [done|].
  by exists w, out, bs.
Qed.

Lemma ps_bits_roundtrip_witness :
  ∃ w out bs, put_all [(5, 3); (1023, 11); (1, 1); (4660, 33)] (NewBitStreamWriter 1) = Ret w ∧ Bits_ w = Ret out ∧
    get_all [3; 11; 1; 33] (NewBitStream out) = (bs, Ret [5; 1023; 1; 4660]).
Proof.
  apply (ps_bits_roundtrip [(5, 3); (1023, 11); (1, 1); (4660, 33)] 1).
  rewrite !Forall_cons, Forall_nil. unfold field_ok. cbn [fst snd]. lia.
Defined.

(** Going back over twelve bits from the fourth bit of a byte does not reach the
    start of the byte before. *)
Lemma UnRead_misaligned :
  UnRead 12 (mkBitStream [170; 170] 1 4 0 0) = (mkBitStream [170; 170] 0 4 0 0, Ret tt).
Proof. reflexivity. Qed.

(** A byte put after one bit loses its low bits' place. *)
Lemma PutByte_misaligned :
  (w ← PutUint64 1 1 (NewBitStreamWriter 4); w ← PutByte 255 w; Bits_ w) = Ret [255; 1] ∧
  (w ← PutUint64 1 1 (NewBitStreamWriter 4); w ← PutUint64 255 8 w; Bits_ w) = Ret [255; 128].
Proof. split; reflexivity. Qed.
