(* ===== verification/PsUtil.v ===== *)
(** * Start codes, codec detection and the checksum of the program stream code
    (src/pkg/gb28181/mpegps/util.go) *)

From S2P Require Import Prelude.
From S2P Require Crc32.

(** ** Checksum *)

Definition crc32table : list Z :=
  [0; 3072180484; 1849393673; 3643163405; 3698721811; 1802224919; 2991425050; 89147166;
   3102541862; 267438370; 3604384303; 1640713003; 1687882805; 3548826929; 178294332; 3183300408;
   1893405004; 3351695432; 518034245; 2851951169; 2897024351; 464573531; 3264649046; 1972065874;
   3358988650; 2133579886; 2785909603; 286284391; 339746169; 2740837501; 2054922096; 3446038132;
   3770033048; 1470882460; 2391646609; 965763221; 1019225995; 2346575503; 1392223618; 3857081478;
   1482369982; 4014402234; 912304567; 2172479667; 2217553837; 858844841; 3927354788; 1561029792;
   2423075540; 661713872; 4267094237; 1229681113; 1276851911; 4211537859; 572568782; 2503833034;
   679492338; 2677930998; 1186707707; 4054219263; 4109778657; 1139539941; 2597174504; 768638444;
   2003863092; 3228387120; 424346685; 2924922169; 2869330471; 471548707; 3309109294; 1914749226;
   3483209234; 2021674774; 2712013851; 381406495; 334203393; 2767604485; 2110785544; 3402483980;
   128685944; 2964739708; 1771050353; 3733836917; 3688731499; 1824543343; 3051753826; 50057318;
   3209076574; 140205658; 3514637655; 1717623891; 1664129869; 3559742025; 218831172; 3122059328;
   2546378156; 551249064; 4194117541; 1323361953; 1269866943; 4239220923; 629875638; 2459361970;
   791391626; 2553703566; 1091579779; 4128108167; 4083001753; 1145071773; 2640718736; 712764052;
   3877483744; 1342207460; 2300983017; 1044117485; 996913395; 2356572663; 1431319290; 3796759550;
   1609612486; 3907878338; 835403471; 2262237131; 2206644437; 882604497; 3988601564; 1520499672;
   4007660649; 1509805421; 2161872480; 935743332; 848693370; 2240530814; 1554877043; 3954199415;
   1443693647; 3775972683; 943097414; 2401978178; 2323316828; 1030144344; 3829432917; 1398621009;
   2654674213; 690412577; 4026572588; 1193106984; 1112348982; 4115716146; 745970495; 2607503931;
   651564291; 2446054407; 1223530250; 4293940750; 4204794128; 1304285204; 2493223705; 596005405;
   240529393; 3108761333; 1617800696; 3614469372; 3525323746; 1698556646; 3155929579; 184969455;
   3065718743; 27715283; 3632309726; 1872585946; 1791828932; 3721454272; 83272141; 3018547401;
   2123185853; 3381723065; 280411316; 2813033904; 2734373550; 367459242; 3435182247; 2078112163;
   3328194203; 1904080799; 2824582290; 524711318; 437662344; 2903241612; 1949151361; 3274731909;
   2576386653; 781011801; 4155181140; 1085720912; 1172737614; 4076556106; 735906887; 2629881155;
   561873531; 2522891135; 1329987698; 4166762870; 4245390952; 1242974060; 2469397601; 606979429;
   3914046225; 1582717461; 2272270616; 812505116; 893230850; 2183159302; 1527127307; 3961248783;
   1369871159; 3871035955; 1067258174; 2290143290; 2379257636; 986535456; 3823834413; 1425462313;
   2032576965; 3459999937; 387787724; 2684414664; 2773528022; 307064018; 3412799455; 2088169179;
   3251347939; 1993760999; 2951750634; 418243310; 498968048; 2862638324; 1938171897; 3298551549;
   167622793; 3202382221; 1741044352; 3504077700; 3582704794; 1654029726; 3148889747; 212729751;
   2970661039; 101544363; 3744150182; 1748431778; 1835447484; 3665524152; 56440501; 3024156593].

Fixpoint crc_loop (crc : Z) (buffer : list Z) : Z :=
  match buffer with
  | [] => crc
  | b :: buffer =>
      crc_loop (Z.lxor (nth (Z.to_nat (Z.land (Z.lxor crc b) 255)) crc32table 0) (Z.shiftr crc 8)) buffer
  end.
Definition CalcCrc32 (crc : Z) (buffer : list Z) : Z := crc_loop crc buffer.

(** ** Start codes *)

(** [bytes.Index(b, []byte{0, 0, 1})], -1 when there is none. *)
Fixpoint index001 (b : list Z) : Z :=
  match b with
  | [] => -1
  | x :: b' =>
      if bool_decide (take 3 b = [0; 0; 1]) then 0
      else let i := index001 b' in if i <? 0 then -1 else i + 1
  end.

(** The position and the length of the start code. *)
Definition FindStartCode (nalu : list Z) (offset : Z) : outcome (Z * Z) :=
  t ← go_from nalu offset;
  let idx := index001 t in
  if idx >? 0 then
    b ← go_index nalu (offset + idx - 1);
    Ret (if b =? 0 then (offset + idx - 1, 4) else (offset + idx, 3))
  else if idx =? 0 then Ret (offset + idx, 3)
  else Ret (-1, 3).

(** The callback returns false to stop; [S] is what it keeps. *)
Section SplitFrame.
Context {S : Type} (onFrame : list Z → eff S bool).
Fixpoint split_loop (fuel : nat) (frames : list Z) (beg sc : Z) : eff S unit :=
  match fuel with
  | O => lift (Fail OutOfFuel)
  | Datatypes.S fuel =>
      if beg >=? 0 then
        '(end_, sc2) ← lift (FindStartCode frames (beg + sc));
        if end_ =? -1 then
          t ← lift (go_from frames (beg + sc)); _ ← onFrame t; mret tt
        else
          t ← lift (go_slice frames (beg + sc) end_);
          go ← onFrame t;
          if go : bool then split_loop fuel frames end_ sc2 else mret tt
      else mret tt
  end.
Definition SplitFrame (frames : list Z) : eff S unit :=
  '(beg, sc) ← lift (FindStartCode frames 0);
  split_loop (Datatypes.S (length frames)) frames beg sc.
End SplitFrame.

Definition H264NaluType (h264 : list Z) : outcome Z :=
  '(loc, sc) ← FindStartCode h264 0;
  if loc <? 0 then Ret 0 else
  if loc + sc >=? len h264 then Ret 0 else
  b ← go_index h264 (loc + sc); Ret (Z.land b 31).

Definition H265NaluType (h265 : list Z) : outcome Z :=
  '(loc, sc) ← FindStartCode h265 0;
  if loc <? 0 then Ret 0 else
  if loc + sc >=? len h265 then Ret 0 else
  b ← go_index h265 (loc + sc); Ret (Z.land (Z.shiftr b 1) 63).

(** ** Which codec *)

Inductive Codec := CodecUnknown | CodecH264 | CodecH265 | CodecH266 | CodecMpeg4.

(** [for i = 0; i+2 < len(data); i++]: the position after the first 1 behind two
    zeros. *)
Fixpoint find_nalu (data : list Z) (i zeros : Z) : option Z :=
  match data with
  | [] => None
  | x :: data =>
      if len data <? 2 then None
      else if (x =? 1) && (zeros >=? 2) then Some (i + 1)
      else find_nalu data (i + 1) (if x =? 0 then zeros + 1 else 0)
  end.
Definition mpegH264FindNALU (data : list Z) : option Z := find_nalu data 0 0.

(** The two bytes after each of the first ten start codes. *)
Fixpoint nalu_heads (fuel : nat) (data : list Z) (p count : Z) : outcome (list (Z * Z)) :=
  match fuel with
  | O => Fail OutOfFuel
  | S fuel =>
      if (p <? len data) && (count <? 10) then
        t ← go_from data p;
        match mpegH264FindNALU t with
        | None => Ret []
        | Some n =>
            if p + n + 1 >? len data then Ret [] else
            b0 ← go_index data (p + n); b1 ← go_index data (p + n + 1);
            l ← nalu_heads fuel data (p + n) (count + 1);
            Ret ((b0, b1) :: l)
        end
      else Ret []
  end.

Definition mpegH26xVerify (data : list Z) : outcome Codec :=
  heads ← nalu_heads 11 data 0 0;
  let clear flags (f : Z * Z → Z) := foldl (λ fl h, Z.ldiff fl (Z.shiftl 1 (f h))) flags heads in
  let h264Flags := clear 416 (λ h, Z.land h.1 31) in
  let h265Flags := clear 30064771072 (λ h, Z.land (Z.shiftr h.1 1) 63) in
  let h266Flags := clear 49152 (λ h, Z.land (Z.shiftr h.2 3) 31) in
  let '(b3, b4) := default (0, 0) (head heads) in
  Ret (if (h264Flags =? 0) && negb (h265Flags =? 0) && negb (h266Flags =? 0) then CodecH264
       else if (h265Flags =? 0) && negb (h264Flags =? 0) && negb (h266Flags =? 0) then CodecH265
       else if (h266Flags =? 0) && negb (h264Flags =? 0) && negb (h265Flags =? 0) then CodecH266
       else if (b3 =? 176) && (Z.land b4 48 =? 0) then CodecMpeg4
       else CodecUnknown).

Definition PsStreamUnknow : Z := 255.
Definition PsStreamAac : Z := 15.
Definition PsStreamH264 : Z := 27.
Definition PsStreamH265 : Z := 36.
Definition PsStreamG711A : Z := 144.
Definition PsStreamG711U : Z := 145.

Definition audioVerify (data : list Z) : outcome Z :=
  adts ← go_and (b0 ← go_index data 0; Ret (b0 =? 255))
           (go_and (b1 ← go_index data 1; Ret (Z.land b1 240 =? 240)) (Ret (len data >? 7)));
  if adts : bool then
    b3 ← go_index data 3; b4 ← go_index data 4; b5 ← go_index data 5;
    let aacLen := Z.lor (Z.lor (Z.shiftl (Z.land b3 3) 11) (Z.shiftl b4 3)) (Z.land (Z.shiftr b5 5) 7) in
    Ret (if len data =? aacLen then PsStreamAac else PsStreamG711A)
  else Ret PsStreamG711A.
