(* ===== verification/PsProto.v ===== *)
(** * Headers of the program stream (src/pkg/gb28181/mpegps/ps_proto.go,
    pes_proto.go)

    The pack header, the system header, the stream map and PES packets, written
    and read bit by bit.  A decoder changes the record it is called on and the
    stream; what it has done is kept when it fails.  PrettyPrint is left out. *)

From S2P Require Import Prelude Bits PsBits.
From S2P Require PsUtil.

(** A decoder's state: the record and the stream. *)
Definition on {T A} (m : eff BitStream A) : eff (T * BitStream) A := λ '(t, bs),
  let '(bs, r) := m bs in ((t, bs), r).
Definition rec_upd {T} (f : T → T) : eff (T * BitStream) unit := λ '(t, bs), ((f t, bs), Ret tt).
Definition rec_get {T} : eff (T * BitStream) T := λ '(t, bs), ((t, bs), Ret t).
Definition here {T} : eff (T * BitStream) BitStream := λ '(t, bs), ((t, bs), Ret bs).
Definition need_more {T} : eff (T * BitStream) unit := lift (Fail ErrNeedMore).

(** Reading on, or the error and nothing else. *)
Definition enough {T} (n : Z) (m : eff (T * BitStream) unit) : eff (T * BitStream) unit :=
  bs ← here; if RemainBytes bs <? n then need_more else m.
(** As [enough], but what was read so far is unread. *)
Definition enough_or_back {T} (n back : Z) (m : eff (T * BitStream) unit) : eff (T * BitStream) unit :=
  bs ← here; if RemainBytes bs <? n then _ ← on (UnRead back); need_more else m.

(** The rest of a clock: 3, 15 and 15 bits, each before a marker bit. *)
Definition get_clock : eff BitStream Z :=
  h ← GetBits 3; _ ← SkipBits 1;
  m ← GetBits 15; _ ← SkipBits 1;
  l ← GetBits 15; _ ← SkipBits 1;
  mret (u64 (Z.lor (Z.shiftl (u64 (Z.lor (Z.shiftl h 15) m)) 15) l)).

Definition put_clock (v : Z) (w : BitStreamWriter) : outcome BitStreamWriter :=
  w ← PutUint64 (Z.shiftr v 30) 3 w; w ← PutUint8 1 1 w;
  w ← PutUint64 (Z.shiftr v 15) 15 w; w ← PutUint8 1 1 w;
  w ← PutUint64 v 15 w; PutUint8 1 1 w.

(** ** The pack header *)

Record PsPackHeader := mkPack {
  IsMpeg1 : bool;
  SystemClockReferenceBase : Z;
  SystemClockReferenceExtension : Z;
  ProgramMuxRate : Z;
  PackStuffingLength : Z;
}.

Definition zero_pack : PsPackHeader := mkPack false 0 0 0 0.

Definition pack_decodeMpeg2 : eff (PsPackHeader * BitStream) unit :=
  _ ← on (SkipBits 2);
  base ← on get_clock;
  ext ← on (Uint16 9); _ ← on (SkipBits 1);
  rate ← on (Uint32 22); _ ← on (SkipBits 1); _ ← on (SkipBits 1); _ ← on (SkipBits 5);
  stuff ← on (Uint8 3);
  _ ← rec_upd (λ h, mkPack (IsMpeg1 h) base ext rate stuff);
  enough_or_back stuff (10 * 8) (on (SkipBits (stuff * 8))).

Definition pack_decodeMpeg1 : eff (PsPackHeader * BitStream) unit :=
  _ ← on (SkipBits 4);
  base ← on get_clock;
  hi ← on (Uint32 7); _ ← on (SkipBits 1);
  lo ← on (Uint32 15); _ ← on (SkipBits 1);
  rec_upd (λ h, mkPack (IsMpeg1 h) base 1 (u32 (Z.lor (Z.shiftl hi 15) lo)) (PackStuffingLength h)).

Definition pack_Decode : eff (PsPackHeader * BitStream) unit :=
  enough 5 (
    code ← on (Uint32 32);
    if negb (code =? 442) then lift (Fail ErrFmt) else
    two ← on (NextBits 2);
    if two =? 1 then enough 10 pack_decodeMpeg2 else
    four ← on (NextBits 4);
    if four =? 2 then
      enough 8 (_ ← rec_upd (λ h, mkPack true (SystemClockReferenceBase h) (SystemClockReferenceExtension h)
                                    (ProgramMuxRate h) (PackStuffingLength h));
                pack_decodeMpeg1)
    else lift (Fail ErrParser)).

Definition pack_Encode (h : PsPackHeader) (w : BitStreamWriter) : outcome BitStreamWriter :=
  w ← PutBytes [0; 0; 1; 186] w;
  w ← PutUint8 1 2 w;
  w ← put_clock (SystemClockReferenceBase h) w;
  w ← PutUint16 (SystemClockReferenceExtension h) 9 w;
  w ← PutUint8 1 1 w;
  w ← PutUint32 (ProgramMuxRate h) 22 w;
  w ← PutUint8 1 1 w; w ← PutUint8 1 1 w; w ← PutUint8 31 5 w;
  w ← PutUint8 (PackStuffingLength h) 3 w;
  PutRepetValue 255 (PackStuffingLength h) w.

(** ** The system header *)

Record ElementaryStream := mkEs { esStreamId : Z; PStdBufferBoundScale : Z; PStdBufferSizeBound : Z }.
Definition NewElementaryStream (sid : Z) : ElementaryStream := mkEs sid 0 0.

Record SystemHeader := mkSystem {
  HeaderLength : Z;
  RateBound : Z;
  AudioBound : Z;
  FixedFlag : Z;
  CspsFlag : Z;
  SystemAudioLockFlag : Z;
  SystemVideoLockFlag : Z;
  VideoBound : Z;
  PacketRateRestrictionFlag : Z;
  Streams : list ElementaryStream;
}.

Definition zero_system : SystemHeader := mkSystem 0 0 0 0 0 0 0 0 0 [].

Fixpoint put_streams (l : list ElementaryStream) (w : BitStreamWriter) : outcome BitStreamWriter :=
  match l with
  | [] => Ret w
  | s :: l =>
      w ← PutUint8 (esStreamId s) 8 w; w ← PutUint8 3 2 w;
      w ← PutUint8 (PStdBufferBoundScale s) 1 w; w ← PutUint16 (PStdBufferSizeBound s) 13 w;
      put_streams l w
  end.

(** What is behind the length. *)
Definition put_system (h : SystemHeader) (w : BitStreamWriter) : outcome BitStreamWriter :=
  w ← PutUint8 1 1 w; w ← PutUint32 (RateBound h) 22 w; w ← PutUint8 1 1 w;
  w ← PutUint8 (AudioBound h) 6 w; w ← PutUint8 (FixedFlag h) 1 w; w ← PutUint8 (CspsFlag h) 1 w;
  w ← PutUint8 (SystemAudioLockFlag h) 1 w; w ← PutUint8 (SystemVideoLockFlag h) 1 w; w ← PutUint8 1 1 w;
  w ← PutUint8 (VideoBound h) 5 w; w ← PutUint8 (PacketRateRestrictionFlag h) 1 w; w ← PutUint8 127 7 w;
  put_streams (Streams h) w.

Definition system_Encode (h : SystemHeader) (w : BitStreamWriter) : outcome BitStreamWriter :=
  w ← PutBytes [0; 0; 1; 187] w;
  let loc := ByteOffset w in
  w ← PutUint16 0 16 w;
  let w := w_Markdot w in
  w ← put_system h w;
  let length := Z.quot (w_DistanceFromMarkDot w) 8 in
  SetUint16 (u16 length) loc w.

(** [for least > 0 && bs.NextBits(1) == 0x01]; one round per three bytes. *)
Fixpoint get_streams (fuel : nat) (least : Z) : eff (SystemHeader * BitStream) Z :=
  match fuel with
  | O => lift (Fail OutOfFuel)
  | S fuel =>
      if least >? 0 then
        next ← on (NextBits 1);
        if next =? 1 then
          sid ← on (Uint8 8); _ ← on (SkipBits 2);
          scale ← on GetBit; size ← on (Uint16 13);
          _ ← rec_upd (λ h, mkSystem (HeaderLength h) (RateBound h) (AudioBound h) (FixedFlag h) (CspsFlag h)
                 (SystemAudioLockFlag h) (SystemVideoLockFlag h) (VideoBound h) (PacketRateRestrictionFlag h)
                 (Streams h ++ [mkEs sid scale size]));
          get_streams fuel (u16 (least - 3))
        else mret least
      else mret least
  end.

Definition system_Decode : eff (SystemHeader * BitStream) unit :=
  enough 12 (
    code ← on (Uint32 32);
    if negb (code =? 443) then lift (Fail ErrFmt) else
    hlen ← on (Uint16 16);
    _ ← rec_upd (λ h, mkSystem hlen (RateBound h) (AudioBound h) (FixedFlag h) (CspsFlag h)
           (SystemAudioLockFlag h) (SystemVideoLockFlag h) (VideoBound h) (PacketRateRestrictionFlag h) (Streams h));
    enough_or_back hlen (6 * 8) (
      if (hlen <? 6) || negb (Z.rem (u16 (hlen - 6)) 3 =? 0) then lift (Fail ErrParser) else
      _ ← on (SkipBits 1);
      rate ← on (Uint32 22); _ ← on (SkipBits 1);
      audio ← on (Uint8 6); fixed ← on (Uint8 1); csps ← on (Uint8 1);
      alock ← on (Uint8 1); vlock ← on (Uint8 1); _ ← on (SkipBits 1);
      video ← on (Uint8 5); restriction ← on (Uint8 1); _ ← on (SkipBits 7);
      _ ← rec_upd (λ h, mkSystem hlen rate audio fixed csps alock vlock video restriction []);
      least ← get_streams (S (Z.to_nat hlen)) (u16 (hlen - 6));
      if least >? 0 then lift (Fail ErrParser) else mret tt)).

(** ** The stream map *)

Record ElementaryStreamElem := mkElem { StreamType : Z; ElementaryStreamId : Z; ElementaryStreamInfoLength : Z }.
Definition NewElementaryStreamElem (stype esid : Z) : ElementaryStreamElem := mkElem stype esid 0.

Record ProgramStreamMap := mkPsm {
  MapStreamId : Z;
  ProgramStreamMapLength : Z;
  CurrentNextIndicator : Z;
  ProgramStreamMapVersion : Z;
  ProgramStreamInfoLength : Z;
  ElementaryStreamMapLength : Z;
  StreamMap : list ElementaryStreamElem;
}.

Definition zero_psm : ProgramStreamMap := mkPsm 0 0 0 0 0 0 [].

Fixpoint put_elems (l : list ElementaryStreamElem) (w : BitStreamWriter) : outcome BitStreamWriter :=
  match l with
  | [] => Ret w
  | e :: l =>
      w ← PutUint8 (StreamType e) 8 w; w ← PutUint8 (ElementaryStreamId e) 8 w; w ← PutUint16 0 16 w;
      put_elems l w
  end.

Definition put_map (m : ProgramStreamMap) (w : BitStreamWriter) : outcome BitStreamWriter :=
  w ← PutUint8 (CurrentNextIndicator m) 1 w; w ← PutUint8 3 2 w; w ← PutUint8 (ProgramStreamMapVersion m) 5 w;
  w ← PutUint8 127 7 w; w ← PutUint8 1 1 w;
  w ← PutUint16 0 16 w;
  w ← PutUint16 (ElementaryStreamMapLength m) 16 w;
  put_elems (StreamMap m) w.

(** The map's own length field is set on the way. *)
Definition psm_Encode (m : ProgramStreamMap) (w : BitStreamWriter) : outcome (ProgramStreamMap * BitStreamWriter) :=
  w ← PutBytes [0; 0; 1; 188] w;
  let loc := ByteOffset w in
  w ← PutUint16 (ElementaryStreamMapLength m) 16 w;
  let w := w_Markdot w in
  let n := u16 (len (StreamMap m) * 4) in
  let m := mkPsm (MapStreamId m) (ProgramStreamMapLength m) (CurrentNextIndicator m) (ProgramStreamMapVersion m)
             (ProgramStreamInfoLength m) n (StreamMap m) in
  w ← put_map m w;
  let length := Z.quot (w_DistanceFromMarkDot w) 8 + 4 in
  w ← SetUint16 (u16 length) loc w;
  b ← Bits_ w;
  b ← go_slice b (ByteOffset w - (length - 4) - 4) (ByteOffset w);
  w ← PutBytes (le_bytes 4 (PsUtil.CalcCrc32 4294967295 b)) w;
  Ret (m, w).

(** [for i < int(psm.ElementaryStreamMapLength)]; a round reads four bytes. *)
Fixpoint get_elems (fuel : nat) (n i : Z) : eff (ProgramStreamMap * BitStream) Z :=
  match fuel with
  | O => lift (Fail OutOfFuel)
  | S fuel =>
      if i <? n then
        stype ← on (Uint8 8); esid ← on (Uint8 8); ilen ← on (Uint16 16);
        bs ← here;
        if RemainBytes bs <? ilen then lift (Fail ErrParser) else
        _ ← on (SkipBits (ilen * 8));
        _ ← rec_upd (λ m, mkPsm (MapStreamId m) (ProgramStreamMapLength m) (CurrentNextIndicator m)
               (ProgramStreamMapVersion m) (ProgramStreamInfoLength m) (ElementaryStreamMapLength m)
               (StreamMap m ++ [mkElem stype esid ilen]));
        get_elems fuel n (i + u16 (4 + ilen))
      else mret i
  end.

Definition psm_Decode : eff (ProgramStreamMap * BitStream) unit :=
  enough 16 (
    prefix ← on (Uint32 24);
    if negb (prefix =? 1) then lift (Fail ErrFmt) else
    sid ← on (Uint8 8);
    _ ← rec_upd (λ m, mkPsm sid (ProgramStreamMapLength m) (CurrentNextIndicator m) (ProgramStreamMapVersion m)
           (ProgramStreamInfoLength m) (ElementaryStreamMapLength m) (StreamMap m));
    if negb (sid =? 188) then lift (Fail ErrFmt) else
    mlen ← on (Uint16 16);
    _ ← rec_upd (λ m, mkPsm sid mlen (CurrentNextIndicator m) (ProgramStreamMapVersion m)
           (ProgramStreamInfoLength m) (ElementaryStreamMapLength m) (StreamMap m));
    enough_or_back mlen (6 * 8) (
      cur ← on (Uint8 1); _ ← on (SkipBits 2);
      version ← on (Uint8 5); _ ← on (SkipBits 8);
      ilen ← on (Uint16 16);
      _ ← rec_upd (λ m, mkPsm sid mlen cur version ilen (ElementaryStreamMapLength m) (StreamMap m));
      enough_or_back (ilen + 2) (10 * 8) (
        _ ← on (SkipBits (ilen * 8));
        _ ← on (Uint16 16);
        let n := u16 (mlen - ilen - 10) in
        _ ← rec_upd (λ m, mkPsm sid mlen cur version ilen n (StreamMap m));
        enough_or_back (n + 4) (12 * 8 + ilen * 8) (
          _ ← rec_upd (λ m, mkPsm sid mlen cur version ilen n []);
          bs ← here;
          i ← get_elems (S (length (bits bs))) n 0;
          if negb (i =? n) then lift (Fail ErrParser) else on (SkipBits 32))))).

(** ** Packets that are skipped *)

Record ProgramStreamDirectory := mkPsd { psdLength : Z }.
Definition psd_Decode : eff (ProgramStreamDirectory * BitStream) unit :=
  enough 6 (
    code ← on (Uint32 32);
    if negb (code =? 511) then lift (Fail ErrFmt) else
    n ← on (Uint16 16);
    _ ← rec_upd (λ _, mkPsd n);
    enough_or_back n (6 * 8) (on (SkipBits (n * 8)))).

Record CommonPesPacket := mkCommon { commonStreamId : Z; commonLength : Z }.
Definition common_Decode : eff (CommonPesPacket * BitStream) unit :=
  enough 6 (
    _ ← on (SkipBits 24);
    sid ← on (Uint8 8); n ← on (Uint16 16);
    _ ← rec_upd (λ _, mkCommon sid n);
    enough_or_back n (6 * 8) (on (SkipBits (n * 8)))).
