(* ===== verification/PsPes.v ===== *)
(** * PES packets (src/pkg/gb28181/mpegps/pes_proto.go)

    The record is reused from packet to packet: fields a packet does not carry
    keep the values of an earlier one. *)

From S2P Require Import Prelude Bits PsBits PsProto.

Definition PesStreamAudio : Z := 192.
Definition PesStreamVideo : Z := 224.
Definition H264AudNalu : list Z := [0; 0; 0; 1; 9; 240].
Definition H265AudNalu : list Z := [0; 0; 0; 1; 70; 1; 80].

(** The fields up to PesHeaderDataLength. *)
Record PesHead := mkHead {
  StreamId : Z;
  PesPacketLength : Z;
  PesScramblingControl : Z;
  PesPriority : Z;
  DataAlignmentIndicator : Z;
  Copyright : Z;
  OriginalOrCopy : Z;
  PtsDtsFlags : Z;
  EscrFlag : Z;
  EsRateFlag : Z;
  DsmTrickModeFlag : Z;
  AdditionalCopyInfoFlag : Z;
  PesCrcFlag : Z;
  PesExtensionFlag : Z;
  PesHeaderDataLength : Z;
}.

Record PesPacket := mkPes {
  pes_head : PesHead;
  Pts : Z;
  Dts : Z;
  EscrBase : Z;
  EscrExtension : Z;
  EsRate : Z;
  TrickModeControl : Z;
  TrickValue : Z;
  AdditionalCopyInfo : Z;
  PreviousPesPacketCrc : Z;
  PesPayload : list Z;
}.

Definition zero_head : PesHead := mkHead 0 0 0 0 0 0 0 0 0 0 0 0 0 0 0.
Definition NewPesPacket : PesPacket := mkPes zero_head 0 0 0 0 0 0 0 0 0 [].

Definition set_head (h : PesHead) (p : PesPacket) : PesPacket :=
  mkPes h (Pts p) (Dts p) (EscrBase p) (EscrExtension p) (EsRate p) (TrickModeControl p) (TrickValue p)
    (AdditionalCopyInfo p) (PreviousPesPacketCrc p) (PesPayload p).
Definition set_pts (v : Z) (p : PesPacket) : PesPacket :=
  mkPes (pes_head p) v (Dts p) (EscrBase p) (EscrExtension p) (EsRate p) (TrickModeControl p) (TrickValue p)
    (AdditionalCopyInfo p) (PreviousPesPacketCrc p) (PesPayload p).
Definition set_dts (v : Z) (p : PesPacket) : PesPacket :=
  mkPes (pes_head p) (Pts p) v (EscrBase p) (EscrExtension p) (EsRate p) (TrickModeControl p) (TrickValue p)
    (AdditionalCopyInfo p) (PreviousPesPacketCrc p) (PesPayload p).
Definition set_escr (b e : Z) (p : PesPacket) : PesPacket :=
  mkPes (pes_head p) (Pts p) (Dts p) b e (EsRate p) (TrickModeControl p) (TrickValue p)
    (AdditionalCopyInfo p) (PreviousPesPacketCrc p) (PesPayload p).
Definition set_rate (v : Z) (p : PesPacket) : PesPacket :=
  mkPes (pes_head p) (Pts p) (Dts p) (EscrBase p) (EscrExtension p) v (TrickModeControl p) (TrickValue p)
    (AdditionalCopyInfo p) (PreviousPesPacketCrc p) (PesPayload p).
Definition set_trick (c v : Z) (p : PesPacket) : PesPacket :=
  mkPes (pes_head p) (Pts p) (Dts p) (EscrBase p) (EscrExtension p) (EsRate p) c v
    (AdditionalCopyInfo p) (PreviousPesPacketCrc p) (PesPayload p).
Definition set_copy (v : Z) (p : PesPacket) : PesPacket :=
  mkPes (pes_head p) (Pts p) (Dts p) (EscrBase p) (EscrExtension p) (EsRate p) (TrickModeControl p) (TrickValue p)
    v (PreviousPesPacketCrc p) (PesPayload p).
Definition set_crc (v : Z) (p : PesPacket) : PesPacket :=
  mkPes (pes_head p) (Pts p) (Dts p) (EscrBase p) (EscrExtension p) (EsRate p) (TrickModeControl p) (TrickValue p)
    (AdditionalCopyInfo p) v (PesPayload p).
Definition set_payload (b : list Z) (p : PesPacket) : PesPacket :=
  mkPes (pes_head p) (Pts p) (Dts p) (EscrBase p) (EscrExtension p) (EsRate p) (TrickModeControl p) (TrickValue p)
    (AdditionalCopyInfo p) (PreviousPesPacketCrc p) b.

(** ** Decoding *)

Definition dec : Type := eff (PesPacket * BitStream) unit.

Definition get_head : eff BitStream PesHead :=
  _ ← SkipBits 24;
  sid ← Uint8 8; plen ← Uint16 16; _ ← SkipBits 2;
  scr ← Uint8 2; prio ← Uint8 1; align ← Uint8 1; copy ← Uint8 1; orig ← Uint8 1;
  pd ← Uint8 2; escr ← Uint8 1; rate ← Uint8 1; trick ← Uint8 1; add ← Uint8 1; crc ← Uint8 1; ext ← Uint8 1;
  hlen ← Uint8 8;
  mret (mkHead sid plen scr prio align copy orig pd escr rate trick add crc ext hlen).

(** A time stamp behind its four bits of prefix. *)
Definition get_stamp : eff BitStream Z := _ ← SkipBits 4; get_clock.

Definition get_times (h : PesHead) : dec :=
  _ ← (if Z.land (PtsDtsFlags h) 2 =? 2 then v ← on get_stamp; rec_upd (set_pts v) else mret tt);
  if Z.land (PtsDtsFlags h) 3 =? 3 then v ← on get_stamp; rec_upd (set_dts v)
  else p ← rec_get; rec_upd (set_dts (Pts p)).

(** The base is put together with the PTS, not with its own high bits. *)
Definition get_escr (h : PesHead) : dec :=
  if EscrFlag h =? 1 then
    p ← rec_get;
    _ ← on (SkipBits 2); _ ← on (GetBits 3); _ ← on (SkipBits 1);
    _ ← on (GetBits 15); _ ← on (SkipBits 1);
    l ← on (GetBits 15); _ ← on (SkipBits 1);
    e ← on (Uint16 9); _ ← on (SkipBits 1);
    rec_upd (set_escr (u64 (Z.lor (Z.shiftl (Pts p) 15) l)) e)
  else mret tt.

Definition get_options (h : PesHead) : dec :=
  _ ← (if EsRateFlag h =? 1 then
         _ ← on (SkipBits 1); v ← on (Uint32 22); _ ← on (SkipBits 1); rec_upd (set_rate v) else mret tt);
  _ ← (if DsmTrickModeFlag h =? 1 then
         c ← on (Uint8 3); v ← on (Uint8 5); rec_upd (set_trick c v) else mret tt);
  _ ← (if AdditionalCopyInfoFlag h =? 1 then v ← on (Uint8 7); rec_upd (set_copy v) else mret tt);
  if PesCrcFlag h =? 1 then v ← on (Uint16 16); rec_upd (set_crc v) else mret tt.

(** [bs.RemainData()], or its first [n] bytes, as the payload. *)
Definition take_rest : dec :=
  bs ← here; b ← lift (RemainData bs); rec_upd (set_payload b).
Definition take_payload (n : Z) : dec :=
  bs ← here; t ← lift (RemainData bs); b ← lift (go_slice t 0 n); rec_upd (set_payload b).
Definition skip_rest : dec := bs ← here; on (SkipBits (RemainBits bs)).

Definition pes_Decode : dec :=
  enough 9 (
    h ← on get_head;
    _ ← rec_upd (set_head h);
    enough_or_back (PesHeaderDataLength h) (9 * 8) (
      _ ← on Markdot;
      _ ← get_times h;
      _ ← get_escr h;
      _ ← get_options h;
      bs ← here;
      _ ← on (SkipBits (PesHeaderDataLength h * 8 - DistanceFromMarkDot bs));
      let dataLen := u16 (u16 (PesPacketLength h - 3) - PesHeaderDataLength h) in
      bs ← here;
      if RemainBytes bs <? dataLen then
        _ ← take_rest; _ ← on (UnRead ((9 + PesHeaderDataLength h) * 8)); need_more
      else if (PesPacketLength h =? 0) || (RemainBytes bs <=? dataLen) then _ ← take_rest; skip_rest
      else _ ← take_payload dataLen; on (SkipBits (dataLen * 8)))).

(** [for bs.NextBits(8) == 0xFF]; the reader panics at the end. *)
Fixpoint skip_stuffing (fuel : nat) : eff BitStream unit :=
  match fuel with
  | O => lift (Fail OutOfFuel)
  | S fuel => v ← NextBits 8; if v =? 255 then _ ← SkipBits 8; skip_stuffing fuel else mret tt
  end.

Definition set_ids (sid plen : Z) (p : PesPacket) : PesPacket :=
  let h := pes_head p in
  set_head (mkHead sid plen (PesScramblingControl h) (PesPriority h) (DataAlignmentIndicator h) (Copyright h)
    (OriginalOrCopy h) (PtsDtsFlags h) (EscrFlag h) (EsRateFlag h) (DsmTrickModeFlag h) (AdditionalCopyInfoFlag h)
    (PesCrcFlag h) (PesExtensionFlag h) (PesHeaderDataLength h)) p.

(** The two times of MPEG-1; the second is put together with the first. *)
Definition get_times1 : dec :=
  pts ← on get_stamp; _ ← rec_upd (set_pts pts);
  _ ← on (GetBits 3); _ ← on (SkipBits 1);
  _ ← on (GetBits 15); _ ← on (SkipBits 1);
  l ← on (GetBits 15); _ ← on (SkipBits 1);
  rec_upd (set_dts (u64 (Z.lor (Z.shiftl pts 15) l))).

Definition pes1_times : dec :=
  four ← on (NextBits 4);
  if four =? 2 then v ← on get_stamp; rec_upd (set_pts v) else
  four ← on (NextBits 4);
  if four =? 3 then get_times1 else
  eight ← on (NextBits 8);
  if eight =? 15 then on (SkipBits 8) else lift (Fail ErrParser).

Definition pes_DecodeMpeg1 : dec :=
  enough 6 (
    _ ← on (SkipBits 24); sid ← on (Uint8 8); plen ← on (Uint16 16);
    _ ← rec_upd (set_ids sid plen);
    bs ← here;
    if negb (plen =? 0) && (RemainBytes bs <? plen) then _ ← on (UnRead (6 * 8)); need_more else
    _ ← on Markdot;
    _ ← on (skip_stuffing (S (length (bits bs))));
    two ← on (NextBits 2);
    _ ← (if two =? 1 then on (SkipBits 16) else mret tt);
    _ ← pes1_times;
    bs ← here;
    let loc := u16 (Z.quot (DistanceFromMarkDot bs) 8) in
    if plen <? loc then lift (Fail ErrParser) else
    let n := u16 (plen - loc) in
    if (plen =? 0) || (RemainBits bs <=? n * 8) then _ ← take_rest; skip_rest
    else _ ← take_payload n; on (SkipBits (n * 8))).

(** ** Encoding *)

Definition put_head (h : PesHead) (w : BitStreamWriter) : outcome BitStreamWriter :=
  w ← PutBytes [0; 0; 1] w;
  w ← PutByte (StreamId h) w;
  w ← PutUint16 (PesPacketLength h) 16 w;
  w ← PutUint8 2 2 w; w ← PutUint8 (PesScramblingControl h) 2 w; w ← PutUint8 (PesPriority h) 1 w;
  w ← PutUint8 (DataAlignmentIndicator h) 1 w; w ← PutUint8 (Copyright h) 1 w; w ← PutUint8 (OriginalOrCopy h) 1 w;
  w ← PutUint8 (PtsDtsFlags h) 2 w; w ← PutUint8 (EscrFlag h) 1 w; w ← PutUint8 (EsRateFlag h) 1 w;
  w ← PutUint8 (DsmTrickModeFlag h) 1 w; w ← PutUint8 (AdditionalCopyInfoFlag h) 1 w;
  w ← PutUint8 (PesCrcFlag h) 1 w; w ← PutUint8 (PesExtensionFlag h) 1 w;
  PutByte (PesHeaderDataLength h) w.

Definition put_stamp (prefix v : Z) (w : BitStreamWriter) : outcome BitStreamWriter :=
  w ← PutUint8 prefix 4 w; put_clock v w.

Definition pes_Encode (p : PesPacket) (w : BitStreamWriter) : outcome BitStreamWriter :=
  let h := pes_head p in
  w ← put_head h w;
  w ← (if PtsDtsFlags h =? 2 then put_stamp 2 (Pts p) w else Ret w);
  w ← (if PtsDtsFlags h =? 3 then w ← put_stamp 3 (Pts p) w; put_stamp 1 (Dts p) w else Ret w);
  w ← (if EscrFlag h =? 1 then w ← PutUint8 3 2 w; put_clock (EscrBase p) w else Ret w);
  PutBytes (PesPayload p) w.
