(* ===== verification/PsWire.v ===== *)
(** * The wire format of the program stream (src/pkg/gb28181/mpegps)

    What reading and writing a list of bits means, with a rule for each
    operation of the bit streams and for their sequence; then the bits of each
    header: the encoder writes them, and the decoder reads them back whatever
    follows. *)

From S2P Require Import Prelude Bits PsBits PsProto PsPes.

(** ** Readers *)

(** The bits from [p] on. *)
Definition ahead (b : list Z) (p : nat) (l : list bool) : Prop :=
  (p ≤ 8 * length b)%nat ∧ drop p (byte_bits b) = l.

(** [m] reads the bits [l] and returns [a]. *)
Definition reads {A} (m : eff BitStream A) (l : list bool) (a : A) : Prop :=
  ∀ b p bs rest, is_bytes b → r_at b p bs → ahead b p (l ++ rest) →
  ∃ bs', m bs = (bs', Ret a) ∧ r_at b (p + length l) bs' ∧ r_marks bs bs'.

(** [m] reads the bits [l], takes the record from [t] to [t'] and returns [a]. *)
Definition runs {T A} (m : eff (T * BitStream) A) (t : T) (l : list bool) (t' : T) (a : A) : Prop :=
  ∀ b p bs rest, is_bytes b → r_at b p bs → ahead b p (l ++ rest) →
  ∃ bs', m (t, bs) = ((t', bs'), Ret a) ∧ r_at b (p + length l) bs' ∧ r_marks bs bs'.

Lemma r_marks_trans a b c : r_marks a b → r_marks b c → r_marks a c.
Proof. unfold r_marks. intuition congruence. Qed.

Lemma ahead_past b p l l' rest : ahead b p ((l ++ l') ++ rest) → ahead b (p + length l) (l' ++ rest).
Proof.
  intros [Hp E]. split; [|by rewrite <- drop_drop, E, <- app_assoc, drop_app_length].
  pose proof (f_equal length E) as H. rewrite length_drop, byte_bits_length, !length_app in H. lia.
Qed.

Lemma reads_ret {A} (a : A) : reads (mret a) [] a.
Proof. intros b p bs rest _ Hr _. exists bs. cbn [length]. rewrite Nat.add_0_r. by split. Qed.

Lemma reads_bind {A B} (m : eff BitStream A) (f : A → eff BitStream B) l l' a c :
  reads m l a → reads (f a) l' c → reads (m ≫= f) (l ++ l') c.
Proof.
  intros Hm Hf b p bs rest Hb Hr Hd. rewrite <- app_assoc in Hd.
  destruct (Hm b p bs _ Hb Hr Hd) as (bs1 & E1 & Hr1 & M1). rewrite app_assoc in Hd.
  destruct (Hf b _ bs1 rest Hb Hr1 (ahead_past _ _ _ _ _ Hd)) as (bs2 & E2 & Hr2 & M2).
  exists bs2. rewrite (eff_bind_Ret _ _ _ _ _ E1), length_app, Nat.add_assoc. split; [done|].
  split; [done|]. by eapply r_marks_trans.
Qed.

Lemma wire_ret {T A} (t : T) (a : A) : runs (mret a) t [] t a.
Proof. intros b p bs rest _ Hr _. exists bs. cbn [length]. rewrite Nat.add_0_r. by split. Qed.

Lemma wire_bind {T A B} (m : eff (T * BitStream) A) (f : A → eff (T * BitStream) B) t t1 t2 l l' a c :
  runs m t l t1 a → runs (f a) t1 l' t2 c → runs (m ≫= f) t (l ++ l') t2 c.
Proof.
  intros Hm Hf b p bs rest Hb Hr Hd. rewrite <- app_assoc in Hd.
  destruct (Hm b p bs _ Hb Hr Hd) as (bs1 & E1 & Hr1 & M1). rewrite app_assoc in Hd.
  destruct (Hf b _ bs1 rest Hb Hr1 (ahead_past _ _ _ _ _ Hd)) as (bs2 & E2 & Hr2 & M2).
  exists bs2. rewrite (eff_bind_Ret _ _ _ _ _ E1), length_app, Nat.add_assoc. split; [done|].
  split; [done|]. by eapply r_marks_trans.
Qed.

(** Sequences that read nothing first. *)
Lemma runs_upd {T B} (g : T → T) (f : unit → eff (T * BitStream) B) t t2 l c :
  runs (f tt) (g t) l t2 c → runs (rec_upd g ≫= f) t l t2 c.
Proof. intros H b p bs rest Hb Hr Hd. apply (H b p bs rest Hb Hr Hd). Qed.
Lemma wire_get {T B} (f : T → eff (T * BitStream) B) t t2 l c :
  runs (f t) t l t2 c → runs (rec_get ≫= f) t l t2 c.
Proof. intros H b p bs rest Hb Hr Hd. apply (H b p bs rest Hb Hr Hd). Qed.
Lemma runs_upd_last {T} (g : T → T) t : runs (rec_upd g) t [] (g t) tt.
Proof. intros b p bs rest _ Hr _. exists bs. cbn [length]. rewrite Nat.add_0_r. by split. Qed.

Lemma runs_on {T A} (m : eff BitStream A) (t : T) l a : reads m l a → runs (on m) t l t a.
Proof.
  intros H b p bs rest Hb Hr Hd. destruct (H b p bs rest Hb Hr Hd) as (bs' & E & H').
  exists bs'. unfold on. by rewrite E.
Qed.

Lemma reads_GetBits n v : 1 ≤ n ≤ 64 → reads (GetBits n) (num_bits (Z.to_nat n) v) (v mod 2 ^ n).
Proof.
  intros Hn b p bs rest Hb Hr [_ Hd]. rewrite num_bits_length. by eapply GetBits_at.
Qed.

Lemma reads_SkipBits n l : n = len l → reads (SkipBits n) l tt.
Proof.
  intros -> b p bs rest Hb Hr Hd. eapply SkipBits_at; [done|lia|lia].
Qed.

Lemma reads_conv {A B} (m : eff BitStream A) (g : A → B) l a c :
  reads m l a → g a = c → reads (v ← m; mret (g v)) l c.
Proof.
  intros H <-. rewrite <- (app_nil_r l). eapply reads_bind; [exact H|apply reads_ret].
Qed.

Lemma pow_le_8 n : 1 ≤ n ≤ 8 → 2 ^ n ≤ 256.
Proof. intros. change 256 with (2 ^ 8). apply Z.pow_le_mono_r; lia. Qed.
Lemma pow_le_16 n : 1 ≤ n ≤ 16 → 2 ^ n ≤ 65536.
Proof. intros. change 65536 with (2 ^ 16). apply Z.pow_le_mono_r; lia. Qed.
Lemma pow_le_32 n : 1 ≤ n ≤ 32 → 2 ^ n ≤ 4294967296.
Proof. intros. change 4294967296 with (2 ^ 32). apply Z.pow_le_mono_r; lia. Qed.

Lemma reads_Uint8 n v : 1 ≤ n ≤ 8 → 0 ≤ v < 2 ^ n → reads (Uint8 n) (num_bits (Z.to_nat n) v) v.
Proof.
  intros Hn Hv. pose proof (pow_le_8 n Hn). eapply reads_conv; [apply reads_GetBits; lia|].
  rewrite Z.mod_small by done. apply u8_small. lia.
Qed.
Lemma reads_Uint16 n v : 1 ≤ n ≤ 16 → 0 ≤ v < 2 ^ n → reads (Uint16 n) (num_bits (Z.to_nat n) v) v.
Proof.
  intros Hn Hv. pose proof (pow_le_16 n Hn). eapply reads_conv; [apply reads_GetBits; lia|].
  rewrite Z.mod_small by done. apply u16_small. lia.
Qed.
Lemma reads_Uint32 n v : 1 ≤ n ≤ 32 → 0 ≤ v < 2 ^ n → reads (Uint32 n) (num_bits (Z.to_nat n) v) v.
Proof.
  intros Hn Hv. pose proof (pow_le_32 n Hn). eapply reads_conv; [apply reads_GetBits; lia|].
  rewrite Z.mod_small by done. apply u32_small. lia.
Qed.

(** A look ahead, from any position. *)
Lemma NextBits_any b p n v rest bs : r_at b p bs → is_bytes b → 1 ≤ n < 8 ∨ n = 8 ∨ n = 32 →
  ahead b p (num_bits (Z.to_nat n) v ++ rest) →
  ∃ bs', NextBits n bs = (bs', Ret (v mod 2 ^ n)) ∧ r_at b p bs' ∧ r_marks bs bs'.
Proof.
  intros Hr Hb Hn [_ Hd]. unfold NextBits.
  destruct (GetBits_at b p n v rest bs Hr Hb ltac:(lia) Hd) as (bs1 & E1 & Hr1 & Hm1).
  assert (Ho : bitsOffset bs1 = (bitsOffset bs + n) mod 8) by (destruct Hr, Hr1; zdm).
  destruct (UnRead_at b (p + Z.to_nat n) n p bs1 Hr1) as (bs2 & E2 & Hr2 & Hm2); [lia|rewrite Ho; destruct Hr; zdm|lia|].
  exists bs2. rewrite (eff_bind_Ret _ _ _ _ _ E1), (eff_bind_Ret _ _ _ _ _ E2).
  split; [done|]. split; [done|]. by eapply r_marks_trans.
Qed.

Lemma runs_next {T B} n v (f : Z → eff (T * BitStream) B) t l t2 c :
  1 ≤ n < 8 ∨ n = 8 ∨ n = 32 → 0 ≤ v < 2 ^ n →
  runs (f v) t (num_bits (Z.to_nat n) v ++ l) t2 c →
  runs (on (NextBits n) ≫= f) t (num_bits (Z.to_nat n) v ++ l) t2 c.
Proof.
  intros Hn Hv Hf b p bs rest Hb Hr Hd. pose proof Hd as Hd'. rewrite <- app_assoc in Hd'.
  destruct (NextBits_any b p n v _ bs Hr Hb Hn Hd') as (bs1 & E1 & Hr1 & M1). rewrite Z.mod_small in E1 by done.
  destruct (Hf b p bs1 rest Hb Hr1 Hd) as (bs2 & E2 & Hr2 & M2). exists bs2.
  assert (E : on (NextBits n) (t, bs) = ((t, bs1), Ret v)) by (unfold on; by rewrite E1).
  rewrite (eff_bind_Ret _ _ _ _ _ E). split; [done|]. split; [done|]. by eapply r_marks_trans.
Qed.

(** Bytes that are left. *)
Lemma RemainBytes_at b p bs l : r_at b p bs → ahead b p l → RemainBytes bs = len l / 8.
Proof.
  intros [Hb Hp Ho Hy] [Hle Hd]. pose proof (f_equal length Hd) as E.
  rewrite length_drop, byte_bits_length in E. unfold RemainBytes. rewrite Hb, Z.gtb_ltb.
  destruct (Z.ltb_spec 0 (bitsOffset bs)); zdm.
Qed.

Lemma enough_at b p bs l rest n : r_at b p bs → ahead b p (l ++ rest) → 8 * n ≤ len l →
  (RemainBytes bs <? n) = false.
Proof.
  intros Hr Hd Hn. apply Z.ltb_ge. rewrite (RemainBytes_at _ _ _ _ Hr Hd), length_app. zdm.
Qed.

Lemma runs_enough {T} n (m : eff (T * BitStream) unit) t l t' a :
  8 * n ≤ len l → runs m t l t' a → runs (enough n m) t l t' a.
Proof.
  intros Hn H b p bs rest Hb Hr Hd. destruct (H b p bs rest Hb Hr Hd) as (bs' & E & H'). exists bs'.
  split; [|done]. rewrite <- E. unfold enough, here, mbind, eff_bind.
  by rewrite (enough_at b p bs l rest n).
Qed.

Lemma runs_enough_or_back {T} n k (m : eff (T * BitStream) unit) t l t' a :
  8 * n ≤ len l → runs m t l t' a → runs (enough_or_back n k m) t l t' a.
Proof.
  intros Hn H b p bs rest Hb Hr Hd. destruct (H b p bs rest Hb Hr Hd) as (bs' & E & H'). exists bs'.
  split; [|done]. rewrite <- E. unfold enough_or_back, here, mbind, eff_bind.
  by rewrite (enough_at b p bs l rest n).
Qed.

(** ** Writers *)

(** [f] appends the bits [l] to a writer at a bit offset of [k]. *)
Definition puts (k : Z) (f : BitStreamWriter → outcome BitStreamWriter) (l : list bool) : Prop :=
  ∀ acc w, len acc mod 8 = k → w_rep acc w →
  ∃ w', f w = Ret w' ∧ w_rep (acc ++ l) w' ∧ marks_same w w'.

Lemma marks_trans a b c : marks_same a b → marks_same b c → marks_same a c.
Proof. unfold marks_same. intuition congruence. Qed.

Lemma puts_bind k f g l l' :
  puts k f l → puts ((k + len l) mod 8) g l' → puts k (λ w, w ← f w; g w) (l ++ l').
Proof.
  intros Hf Hg acc w Hk Hw. destruct (Hf acc w Hk Hw) as (w1 & E1 & Hw1 & M1).
  destruct (Hg (acc ++ l) w1) as (w2 & E2 & Hw2 & M2); [rewrite length_app; zdm|done|].
  exists w2. rewrite E1, bind_Ret, app_assoc. split; [done|]. split; [done|]. by eapply marks_trans.
Qed.
Lemma puts_ret k : puts k (λ w, Ret w) [].
Proof. intros acc w _ Hw. exists w. rewrite app_nil_r. by split. Qed.

Lemma puts_field k v n : 1 ≤ n → 0 ≤ v → puts k (PutUint64 v n) (num_bits (Z.to_nat n) v).
Proof. intros Hn Hv acc w _ Hw. by apply PutUint64_rep. Qed.

(** Bits that make whole bytes. *)
Lemma whole_bytes l : len l mod 8 = 0 → ∃ b, is_bytes b ∧ l = byte_bits b.
Proof.
  intros H. exists (pack_bits (length l / 8) l). assert (length l = (8 * (length l / 8))%nat).
  { pose proof (Nat.div_mod_eq (length l) 8). assert (length l mod 8 = 0)%nat; [|lia].
    apply Nat2Z.inj. by rewrite Nat2Z.inj_mod. }
  split; [apply is_bytes_pack_bits; lia|by rewrite byte_bits_pack].
Qed.

Lemma puts_bytes f v : is_bytes v →
  (∀ out w, w_bytes out w → ∃ w', f w = Ret w' ∧ w_bytes (out ++ v) w' ∧ marks_same w w') →
  puts 0 f (byte_bits v).
Proof.
  intros Hv Hf acc w Hk Hw. destruct (whole_bytes acc Hk) as (out & Ho & ->).
  destruct (Hf out w (w_rep_bytes _ _ Ho Hw)) as (w' & E & H & M). exists w'. split; [done|]. split; [|done].
  rewrite <- byte_bits_app. by apply w_bytes_rep.
Qed.
Lemma puts_PutBytes v : is_bytes v → puts 0 (PutBytes v) (byte_bits v).
Proof. intros Hv. apply puts_bytes; [done|]. intros out w Hw. by apply PutBytes_bytes. Qed.
Lemma puts_PutByte v : is_u8 v → puts 0 (PutByte v) (num_bits 8 v).
Proof.
  intros Hv. replace (num_bits 8 v) with (byte_bits [v]) by apply app_nil_r.
  apply puts_bytes; [by apply is_bytes_1|]. intros out w Hw. by apply PutByte_bytes.
Qed.
Lemma puts_PutRepet v n : is_u8 v → 0 ≤ n → puts 0 (PutRepetValue v n) (byte_bits (replicate (Z.to_nat n) v)).
Proof.
  intros Hv Hn. apply puts_bytes; [by apply Forall_replicate|]. intros out w Hw. by apply PutRepetValue_bytes.
Qed.

(** On whole bytes. *)
Lemma puts_out f l out w : puts 0 f (byte_bits l) → is_bytes l → w_bytes out w →
  ∃ w', f w = Ret w' ∧ w_bytes (out ++ l) w' ∧ marks_same w w'.
Proof.
  intros Hf Hl Hw. pose proof (wb_bytes _ _ Hw) as Ho.
  destruct (Hf (byte_bits out) w) as (w' & E & H & M); [rewrite byte_bits_length; zdm|by apply w_bytes_rep|].
  exists w'. split; [done|]. split; [|done]. apply w_rep_bytes; [by apply is_bytes_app|by rewrite byte_bits_app].
Qed.

(** Reading and writing field by field. *)
Ltac rd_field :=
  first [ apply reads_Uint8 | apply reads_Uint16 | apply reads_Uint32 | apply reads_SkipBits | eassumption ];
  try reflexivity; try (cbn [length]; rewrite ?length_app, ?num_bits_length; lia).
Ltac rd := eapply wire_bind; [apply runs_on; rd_field|cbv beta].
Ltac wr_field :=
  first [ apply puts_PutBytes | apply puts_PutByte | apply puts_PutRepet | apply puts_field | eassumption ].
Ltac wr := eapply puts_bind; [wr_field; try lia|].

(** ** Clocks *)

Definition marker : list bool := num_bits 1 1.
Definition clock_bits (v : Z) : list bool :=
  num_bits 3 (v / 2 ^ 30) ++ marker ++ num_bits 15 (v / 2 ^ 15) ++ marker ++ num_bits 15 v ++ marker.

Lemma clock_bits_length v : length (clock_bits v) = 36%nat.
Proof. unfold clock_bits, marker. by rewrite !length_app, !num_bits_length. Qed.

(** Lengths of wires. *)
Ltac wire_len := unfold marker in *; rewrite ?length_app, ?num_bits_length, ?clock_bits_length, ?byte_bits_length in *; cbn [length]; lia.

Lemma reads_clock v : reads get_clock (clock_bits v) (v mod 2 ^ 33).
Proof.
  unfold get_clock, clock_bits.
  eapply reads_bind; [apply (reads_GetBits 3); lia|]. eapply reads_bind; [by apply reads_SkipBits|].
  eapply reads_bind; [apply (reads_GetBits 15); lia|]. eapply reads_bind; [by apply reads_SkipBits|].
  eapply reads_bind; [apply (reads_GetBits 15); lia|].
  rewrite <- (app_nil_r marker). eapply reads_bind; [by apply reads_SkipBits|].
  pose proof (lor_field v 3 15 15 ltac:(lia) ltac:(lia) ltac:(lia) ltac:(lia)) as H1.
  pose proof (lor_field v 18 15 0 ltac:(lia) ltac:(lia) ltac:(lia) ltac:(lia)) as H2.
  rewrite Z.add_0_r, Z.pow_0_r, !Z.div_1_r in H2.
  change (15 + 15) with 30 in H1. change (3 + 15) with 18 in H1. change (18 + 15) with 33 in H2.
  rewrite H1, H2. apply reads_ret.
Qed.

Lemma puts_clock k v : 0 ≤ v → puts k (put_clock v) (clock_bits v).
Proof.
  intros Hv. unfold put_clock, clock_bits, PutUint8. rewrite !Z.shiftr_div_pow2 by lia.
  assert (0 ≤ v / 2 ^ 30 ∧ 0 ≤ v / 2 ^ 15) as [] by (split; apply Z.div_pos; lia).
  do 5 wr. apply (puts_field _ 1 1); lia.
Qed.

(** ** The pack header *)

Definition pack_wire (h : PsPackHeader) : list bool :=
  num_bits 32 442 ++ num_bits 2 1 ++ clock_bits (SystemClockReferenceBase h) ++
  num_bits 9 (SystemClockReferenceExtension h) ++ marker ++ num_bits 22 (ProgramMuxRate h) ++
  marker ++ marker ++ num_bits 5 31 ++ num_bits 3 (PackStuffingLength h) ++
  byte_bits (replicate (Z.to_nat (PackStuffingLength h)) 255).

Record pack_ok (h : PsPackHeader) : Prop := {
  po_base : 0 ≤ SystemClockReferenceBase h;
  po_ext : 0 ≤ SystemClockReferenceExtension h < 2 ^ 9;
  po_rate : 0 ≤ ProgramMuxRate h < 2 ^ 22;
  po_stuff : 0 ≤ PackStuffingLength h < 2 ^ 3;
}.

Lemma puts_pack h : pack_ok h → puts 0 (pack_Encode h) (pack_wire h).
Proof.
  intros [Hb He Hr Hs]. unfold pack_Encode, pack_wire, PutUint8, PutUint16, PutUint32.
  eapply puts_bind; [by apply (puts_PutBytes [0; 0; 1; 186]); vm_compute; repeat constructor|].
  wr. eapply puts_bind; [by apply puts_clock|]. do 7 wr.
  match goal with |- puts ?k _ _ => replace k with 0 end; [apply puts_PutRepet; lia|].
  rewrite clock_bits_length, !num_bits_length. reflexivity.
Qed.

Lemma runs_pack_body h t : pack_ok h →
  runs pack_decodeMpeg2 t
    (num_bits 2 1 ++ clock_bits (SystemClockReferenceBase h) ++
     num_bits 9 (SystemClockReferenceExtension h) ++ marker ++ num_bits 22 (ProgramMuxRate h) ++
     marker ++ marker ++ num_bits 5 31 ++ num_bits 3 (PackStuffingLength h) ++
     byte_bits (replicate (Z.to_nat (PackStuffingLength h)) 255))
    (mkPack (IsMpeg1 t) (SystemClockReferenceBase h mod 2 ^ 33) (SystemClockReferenceExtension h)
       (ProgramMuxRate h) (PackStuffingLength h)) tt.
Proof.
  intros [Hb He Hr Hs]. unfold pack_decodeMpeg2.
  rd. eapply wire_bind; [apply runs_on, reads_clock|cbv beta]. do 7 rd.
  eapply runs_upd. apply runs_enough_or_back; rewrite ?byte_bits_length, ?length_replicate; [lia|].
  apply runs_on, reads_SkipBits. rewrite byte_bits_length, length_replicate. lia.
Qed.

Lemma runs_pack h t : pack_ok h →
  runs pack_Decode t (pack_wire h)
    (mkPack (IsMpeg1 t) (SystemClockReferenceBase h mod 2 ^ 33) (SystemClockReferenceExtension h)
       (ProgramMuxRate h) (PackStuffingLength h)) tt.
Proof.
  intros H. unfold pack_Decode, pack_wire. apply runs_enough.
  { wire_len. }
  rd. cbn [Z.eqb Pos.eqb negb]. eapply (runs_next 2 1); [lia..|]. cbn [Z.eqb Pos.eqb].
  apply runs_enough; [|by apply runs_pack_body].
  wire_len.
Qed.

(** ** PES packets *)

Definition head_wire (h : PesHead) : list bool :=
  num_bits 24 1 ++ num_bits 8 (StreamId h) ++ num_bits 16 (PesPacketLength h) ++
  num_bits 2 2 ++ num_bits 2 (PesScramblingControl h) ++ num_bits 1 (PesPriority h) ++
  num_bits 1 (DataAlignmentIndicator h) ++ num_bits 1 (Copyright h) ++ num_bits 1 (OriginalOrCopy h) ++
  num_bits 2 (PtsDtsFlags h) ++ num_bits 1 (EscrFlag h) ++ num_bits 1 (EsRateFlag h) ++
  num_bits 1 (DsmTrickModeFlag h) ++ num_bits 1 (AdditionalCopyInfoFlag h) ++ num_bits 1 (PesCrcFlag h) ++
  num_bits 1 (PesExtensionFlag h) ++ num_bits 8 (PesHeaderDataLength h).

(** The times the flags ask for. *)
Definition times_wire (flags pts dts : Z) : list bool :=
  if flags =? 3 then num_bits 4 3 ++ clock_bits pts ++ num_bits 4 1 ++ clock_bits dts
  else if flags =? 2 then num_bits 4 2 ++ clock_bits pts else [].
Definition times_length (flags : Z) : Z := if flags =? 3 then 10 else if flags =? 2 then 5 else 0.

Definition pes_wire (p : PesPacket) : list bool :=
  head_wire (pes_head p) ++ times_wire (PtsDtsFlags (pes_head p)) (Pts p) (Dts p) ++ byte_bits (PesPayload p).

(** A packet without the optional fields. *)
Record pes_ok (p : PesPacket) : Prop := {
  eo_sid : is_u8 (StreamId (pes_head p));
  eo_scr : 0 ≤ PesScramblingControl (pes_head p) < 4;
  eo_prio : 0 ≤ PesPriority (pes_head p) < 2;
  eo_align : 0 ≤ DataAlignmentIndicator (pes_head p) < 2;
  eo_copy : 0 ≤ Copyright (pes_head p) < 2;
  eo_orig : 0 ≤ OriginalOrCopy (pes_head p) < 2;
  eo_flags : 0 ≤ PtsDtsFlags (pes_head p) < 4;
  eo_escr : EscrFlag (pes_head p) = 0;
  eo_rate : EsRateFlag (pes_head p) = 0;
  eo_trick : DsmTrickModeFlag (pes_head p) = 0;
  eo_add : AdditionalCopyInfoFlag (pes_head p) = 0;
  eo_crc : PesCrcFlag (pes_head p) = 0;
  eo_ext : 0 ≤ PesExtensionFlag (pes_head p) < 2;
  eo_hlen : PesHeaderDataLength (pes_head p) = times_length (PtsDtsFlags (pes_head p));
  eo_times : 0 ≤ Pts p ∧ 0 ≤ Dts p;
  eo_bytes : is_bytes (PesPayload p);
  eo_len : PesPacketLength (pes_head p) = 3 + PesHeaderDataLength (pes_head p) + len (PesPayload p);
  eo_max : PesPacketLength (pes_head p) < 65536;
}.

Lemma times_length_range f : 0 ≤ times_length f ≤ 10.
Proof. unfold times_length. repeat case_match; lia. Qed.

Lemma times_wire_length f pts dts : len (times_wire f pts dts) = 8 * times_length f.
Proof. unfold times_wire, times_length. repeat case_match; rewrite ?length_app, ?clock_bits_length, ?num_bits_length; done. Qed.

Lemma puts_stamp k prefix v : 0 ≤ prefix → 0 ≤ v → puts k (put_stamp prefix v) (num_bits 4 prefix ++ clock_bits v).
Proof. intros Hp Hv. unfold put_stamp, PutUint8. wr. by apply puts_clock. Qed.

Lemma puts_head h : is_u8 (StreamId h) → is_u8 (PesHeaderDataLength h) → 0 ≤ PesPacketLength h →
  0 ≤ PesScramblingControl h → 0 ≤ PesPriority h → 0 ≤ DataAlignmentIndicator h → 0 ≤ Copyright h →
  0 ≤ OriginalOrCopy h → 0 ≤ PtsDtsFlags h → 0 ≤ EscrFlag h → 0 ≤ EsRateFlag h → 0 ≤ DsmTrickModeFlag h →
  0 ≤ AdditionalCopyInfoFlag h → 0 ≤ PesCrcFlag h → 0 ≤ PesExtensionFlag h → puts 0 (put_head h) (head_wire h).
Proof.
  intros. unfold put_head, head_wire, PutUint8, PutUint16.
  eapply puts_bind; [by apply (puts_PutBytes [0; 0; 1]); vm_compute; repeat constructor|].
  eapply puts_bind; [rewrite num_bits_length; by apply puts_PutByte|]. do 14 wr.
  match goal with |- puts ?k _ _ => replace k with 0; [by apply puts_PutByte|] end.
  by rewrite !num_bits_length.
Qed.

Lemma head_wire_length h : length (head_wire h) = 72%nat.
Proof. unfold head_wire. by rewrite !length_app, !num_bits_length. Qed.

Lemma puts_if k (c : bool) f l : puts k f l → puts k (λ w, if c then f w else Ret w) (if c then l else []).
Proof. destruct c; [done|]. intros _. apply puts_ret. Qed.

Lemma times_wire_split f pts dts :
  times_wire f pts dts = (if f =? 2 then num_bits 4 2 ++ clock_bits pts else []) ++
    (if f =? 3 then (num_bits 4 3 ++ clock_bits pts) ++ num_bits 4 1 ++ clock_bits dts else []).
Proof. unfold times_wire. repeat case_match; try lia; by rewrite <- ?app_assoc, ?app_nil_r. Qed.

Lemma puts_pes p : pes_ok p → puts 0 (pes_Encode p) (pes_wire p).
Proof.
  intros H. destruct H, eo_times0 as [Hpts Hdts]. pose proof (times_length_range (PtsDtsFlags (pes_head p))).
  unfold pes_Encode, pes_wire. set (h := pes_head p) in *. rewrite times_wire_split, <- app_assoc, eo_escr0.
  eapply puts_bind; [apply puts_head; lia|]. rewrite head_wire_length. change ((0 + Z.of_nat 72) mod 8) with 0.
  eapply puts_bind; [apply puts_if, puts_stamp; lia|].
  eapply puts_bind; [apply puts_if; eapply puts_bind; apply puts_stamp; lia|].
  cbn [Z.eqb Pos.eqb]. intros acc w Hk Hw. rewrite bind_Ret. apply puts_PutBytes; [done| |done]. rewrite Hk.
  destruct (PtsDtsFlags h =? 2), (PtsDtsFlags h =? 3); by rewrite ?length_app, ?clock_bits_length, ?num_bits_length.
Qed.

(** The times a packet of [p] leaves, from the record it is read into. *)
Definition put_times (p t : PesPacket) : PesPacket :=
  let f := PtsDtsFlags (pes_head p) in
  if f =? 3 then set_dts (Dts p mod 2 ^ 33) (set_pts (Pts p mod 2 ^ 33) t)
  else if f =? 2 then set_dts (Pts p mod 2 ^ 33) (set_pts (Pts p mod 2 ^ 33) t)
  else set_dts (Pts t) t.

Lemma reads_stamp prefix v : reads get_stamp (num_bits 4 prefix ++ clock_bits v) (v mod 2 ^ 33).
Proof. unfold get_stamp. eapply reads_bind; [by apply reads_SkipBits|]. apply reads_clock. Qed.

Lemma runs_times p t : 0 ≤ PtsDtsFlags (pes_head p) < 4 →
  runs (get_times (pes_head p)) t (times_wire (PtsDtsFlags (pes_head p)) (Pts p) (Dts p)) (put_times p t) tt.
Proof.
  intros Hf. unfold get_times, times_wire, put_times. set (f := PtsDtsFlags (pes_head p)) in *. clearbody f.
  assert (f = 0 ∨ f = 1 ∨ f = 2 ∨ f = 3) as H by lia. repeat destruct H as [->|H]; subst; cbn [Z.land Pos.land Pos.Nsucc_double Pos.Ndouble Z.of_N Z.eqb Pos.eqb].
  - intros b q bs rest _ Hr _. exists bs. cbn [length]. rewrite Nat.add_0_r. by split.
  - intros b q bs rest _ Hr _. exists bs. cbn [length]. rewrite Nat.add_0_r. by split.
  - rewrite <- (app_nil_r (_ ++ _)). eapply wire_bind; [|apply (wire_get _ _ _ []), runs_upd_last].
    rewrite <- (app_nil_r (_ ++ _)). eapply wire_bind; [apply runs_on, reads_stamp|apply runs_upd_last].
  - rewrite app_assoc. eapply wire_bind.
    + rewrite <- (app_nil_r (_ ++ _)). eapply wire_bind; [apply runs_on, reads_stamp|apply runs_upd_last].
    + rewrite <- (app_nil_r (_ ++ _)). eapply wire_bind; [apply runs_on, reads_stamp|apply runs_upd_last].
Qed.

Ltac rdb := eapply reads_bind; [rd_field|cbv beta].

Lemma reads_head p : pes_ok p → reads get_head (head_wire (pes_head p)) (pes_head p).
Proof.
  intros []. pose proof (times_length_range (PtsDtsFlags (pes_head p))). set (h := pes_head p) in *.
  unfold get_head, head_wire. do 16 rdb. eapply reads_conv; [rd_field|]. by destruct h.
Qed.

Lemma DistanceFromMarkDot_at b p q bs : r_at b p bs → 8 * bytemark bs + bitsmark bs = Z.of_nat q →
  DistanceFromMarkDot bs = Z.of_nat p - Z.of_nat q.
Proof. intros [Hb Hp Ho Hy] Hq. unfold DistanceFromMarkDot. lia. Qed.

Lemma Markdot_at b p bs : r_at b p bs →
  ∃ bs', Markdot bs = (bs', Ret tt) ∧ r_at b p bs' ∧ 8 * bytemark bs' + bitsmark bs' = Z.of_nat p.
Proof. intros [Hb Hp Ho Hy]. eexists. split; [reflexivity|]. split; [by split|]. done. Qed.

(** At the start of a byte. *)
Lemma r_at_whole b i bs : r_at b (8 * i) bs → bytesOffset bs = Z.of_nat i ∧ bitsOffset bs = 0.
Proof. intros [Hb Hp Ho Hy]. split; zdm. Qed.

Lemma RemainData_at b i bs : r_at b (8 * i) bs → (i ≤ length b)%nat → RemainData bs = Ret (drop i b).
Proof.
  intros Hr Hi. pose proof (r_at_whole _ _ _ Hr) as [H1 _]. destruct Hr as [Hb _ _ _].
  unfold RemainData. rewrite Hb, H1, go_from_Ret by lia. by rewrite Nat2Z.id.
Qed.

Lemma ahead_bytes b i r : (i ≤ length b)%nat → drop i b = r → ahead b (8 * i) (byte_bits r).
Proof.
  intros Hi <-. split; [lia|]. rewrite <- (take_drop i b) at 1. rewrite byte_bits_app.
  apply drop_app_length'. rewrite byte_bits_length, length_take. lia.
Qed.

Lemma here_bind {T A} (f : BitStream → eff (T * BitStream) A) t bs : (here ≫= f) (t, bs) = f bs (t, bs).
Proof. reflexivity. Qed.
Lemma on_bind {T A B} (m : eff BitStream A) (f : A → eff (T * BitStream) B) t bs bs' a :
  m bs = (bs', Ret a) → (on m ≫= f) (t, bs) = f a (t, bs').
Proof. intros E. unfold mbind, eff_bind, on. by rewrite E. Qed.
Lemma on_last {T A} (m : eff BitStream A) (t : T) bs bs' a : m bs = (bs', Ret a) → on m (t, bs) = ((t, bs'), Ret a).
Proof. intros E. unfold on. by rewrite E. Qed.

Lemma take_rest_at t bs r : RemainData bs = Ret r → take_rest (t, bs) = ((set_payload r t, bs), Ret tt).
Proof. intros E. unfold take_rest. rewrite here_bind. by rewrite E. Qed.
Lemma take_payload_Ret t bs a r : RemainData bs = Ret (a ++ r) →
  take_payload (len a) (t, bs) = ((set_payload a t, bs), Ret tt).
Proof.
  intros E. unfold take_payload. rewrite here_bind, E, eff_bind_lift.
  by rewrite (go_slice_app [] a r) by (cbn [length]; lia).
Qed.

(** The payload, and what is behind it. *)
Lemma take_payload_at b i bs (t : PesPacket) payload rest (plen : bool) : is_bytes b → r_at b (8 * i) bs →
  (i ≤ length b)%nat → drop i b = payload ++ rest → plen = false →
  ∃ bs', (bs0 ← here;
          if plen || (RemainBytes bs0 <=? len payload) then _ ← take_rest; skip_rest
          else _ ← take_payload (len payload); on (SkipBits (len payload * 8))) (t, bs)
         = ((set_payload payload t, bs'), Ret tt) ∧ r_at b (8 * (i + length payload)) bs'.
Proof.
  intros Hb Hr Hi Hd ->. pose proof (RemainBytes_at b _ bs _ Hr (ahead_bytes b i _ Hi Hd)) as Hrem.
  rewrite byte_bits_length, length_app in Hrem. pose proof (RemainData_at b i bs Hr Hi) as Hdata. rewrite Hd in Hdata.
  rewrite here_bind. cbn [orb]. destruct (Z.leb_spec (RemainBytes bs) (len payload)).
  - assert (rest = []) as -> by (destruct rest; [done|cbn [length] in Hrem; zdm]). rewrite app_nil_r in Hdata.
    rewrite (eff_bind_Ret _ _ _ _ _ (take_rest_at _ _ _ Hdata)). unfold skip_rest. rewrite here_bind.
    destruct (SkipBits_at b (8 * i) (RemainBits bs) (8 * (i + length payload)) bs Hr) as (bs' & E & Hr' & _).
    { unfold RemainBits. destruct (r_at_whole _ _ _ Hr) as [_ H0]. rewrite H0. cbn [Z.gtb Z.compare].
      cbn [length] in Hrem. zdm. }
    { right. zdm. }
    exists bs'. split; [by apply on_last|done].
  - rewrite (eff_bind_Ret _ _ _ _ _ (take_payload_Ret _ _ _ _ Hdata)).
    destruct (SkipBits_at b (8 * i) (len payload * 8) (8 * (i + length payload)) bs Hr) as (bs' & E & Hr' & _); [lia|lia|].
    exists bs'. split; [by apply on_last|done].
Qed.

Lemma get_nothing (p t : PesPacket) s : pes_ok p → (get_escr (pes_head p) (t, s)) = ((t, s), Ret tt) ∧
  (get_options (pes_head p) (t, s)) = ((t, s), Ret tt).
Proof. intros []. unfold get_escr, get_options. rewrite eo_escr0, eo_rate0, eo_trick0, eo_add0, eo_crc0. done. Qed.

(** The record after a packet: every field the packet carries, and the old
    values of the others. *)
Definition decoded (p t : PesPacket) : PesPacket :=
  set_payload (PesPayload p) (put_times p (set_head (pes_head p) t)).

(** The header: what [pes_Decode] does up to the payload. *)
Lemma pes_header_at p t b i bs rest : pes_ok p → is_bytes b → r_at b (8 * i) bs →
  ahead b (8 * i) (head_wire (pes_head p) ++ times_wire (PtsDtsFlags (pes_head p)) (Pts p) (Dts p) ++ rest) →
  let n := times_length (PtsDtsFlags (pes_head p)) in
  ∃ bs1 bs2 bs3,
    on get_head (t, bs) = ((t, bs1), Ret (pes_head p)) ∧ (RemainBytes bs1 <? n) = false ∧
    Markdot bs1 = (bs2, Ret tt) ∧
    get_times (pes_head p) (set_head (pes_head p) t, bs2) = ((put_times p (set_head (pes_head p) t), bs3), Ret tt) ∧
    n * 8 - DistanceFromMarkDot bs3 = 0 ∧ r_at b (8 * (i + 9 + Z.to_nat n)) bs3.
Proof.
  intros Hp Hb Hr Ha n. pose proof (times_length_range (PtsDtsFlags (pes_head p))). pose proof (times_wire_length (PtsDtsFlags (pes_head p)) (Pts p) (Dts p)) as Htl.
  destruct (runs_on get_head t _ _ (reads_head p Hp) b _ bs _ Hb Hr Ha) as (bs1 & E1 & Hr1 & _).
  rewrite app_assoc in Ha. apply ahead_past in Ha. rewrite head_wire_length in *.
  destruct (Markdot_at b _ bs1 Hr1) as (bs2 & E2 & Hr2 & M2).
  destruct (runs_times p (set_head (pes_head p) t) (eo_flags p Hp) b _ bs2 _ Hb Hr2 Ha) as (bs3 & E3 & Hr3 & [M3 M4]).
  exists bs1, bs2, bs3. split; [done|]. split; [by eapply enough_at; [done|done|lia]|]. split; [done|]. split; [done|].
  rewrite <- M3, <- M4 in M2. rewrite (DistanceFromMarkDot_at b _ _ bs3 Hr3 M2).
  assert (Hn : length (times_wire (PtsDtsFlags (pes_head p)) (Pts p) (Dts p)) = (8 * Z.to_nat n)%nat) by (subst n; lia).
  rewrite Hn in *. split; [lia|]. replace (8 * (i + 9 + Z.to_nat n))%nat with (8 * i + 72 + 8 * Z.to_nat n)%nat by lia. done.
Qed.

Lemma pes_wire_length p : len (pes_wire p) = 8 * (9 + times_length (PtsDtsFlags (pes_head p)) + len (PesPayload p)).
Proof.
  unfold pes_wire. rewrite !length_app, head_wire_length, byte_bits_length.
  pose proof (times_wire_length (PtsDtsFlags (pes_head p)) (Pts p) (Dts p)). lia.
Qed.

(** Bytes are determined by their bits, from the end. *)
Lemma bytes_suffix wire l tl : is_bytes wire → is_bytes tl → byte_bits wire = l ++ byte_bits tl →
  ∃ pre, wire = pre ++ tl ∧ (8 * length pre)%nat = length l.
Proof.
  intros Hw Ht E. pose proof (f_equal length E) as Hl. rewrite length_app, !byte_bits_length in Hl.
  set (k := (length wire - length tl)%nat). exists (take k wire).
  rewrite <- (take_drop k wire), byte_bits_app in E. apply app_inj_1 in E as [_ E].
  2:{ rewrite byte_bits_length, length_take. lia. }
  apply byte_bits_inj in E; [|by apply is_bytes_drop|done]. split; [by rewrite <- E, take_drop|].
  rewrite length_take. lia.
Qed.

(** A packet is decoded whatever follows it. *)
Lemma pes_Decode_at p t b i bs wire rest : pes_ok p → is_bytes b → r_at b (8 * i) bs → (i ≤ length b)%nat →
  drop i b = wire ++ rest → byte_bits wire = pes_wire p →
  ∃ bs', pes_Decode (t, bs) = ((decoded p t, bs'), Ret tt) ∧ r_at b (8 * (i + length wire)) bs'.
Proof.
  intros Hp Hb Hr Hi Hd Hw. pose proof (ahead_bytes b i _ Hi Hd) as Ha. rewrite byte_bits_app, Hw in Ha.
  pose proof (pes_wire_length p) as Hlen. pose proof (f_equal length Hw) as Hwl. rewrite byte_bits_length in Hwl.
  pose proof (times_length_range (PtsDtsFlags (pes_head p))) as Hn.
  pose proof Ha as Hah. unfold pes_wire in Hah. rewrite <- !app_assoc in Hah.
  destruct (pes_header_at p t b i bs _ Hp Hb Hr Hah) as (bs1 & bs2 & bs3 & E1 & Hen & E2 & E3 & Hdist & Hr3).
  set (n := times_length _) in *. assert (Hwb : is_bytes (wire ++ rest)) by (rewrite <- Hd; by apply is_bytes_drop).
  apply is_bytes_app in Hwb as [Hwb _]. unfold pes_wire in Hw. rewrite app_assoc in Hw.
  destruct (bytes_suffix wire _ _ Hwb (eo_bytes p Hp) Hw) as (pre & Hpre & Hpl).
  rewrite length_app, head_wire_length in Hpl. pose proof (times_wire_length (PtsDtsFlags (pes_head p)) (Pts p) (Dts p)) as Htl.
  pose proof (f_equal length Hpre) as Hpl2. rewrite length_app in Hpl2.
  assert (Hd3 : drop (i + 9 + Z.to_nat n) b = PesPayload p ++ rest).
  { rewrite <- Nat.add_assoc, <- drop_drop, Hd, Hpre, <- app_assoc. apply drop_app_length'. lia. }
  assert (Hi3 : (i + length wire ≤ length b)%nat).
  { pose proof (f_equal length Hd) as H. rewrite length_drop, length_app in H. lia. }
  pose proof (ahead_bytes b (i + 9 + Z.to_nat n) _ ltac:(lia) Hd3) as Ha3.
  destruct (SkipBits_at b _ 0 (8 * (i + 9 + Z.to_nat n)) bs3 Hr3) as (bs4 & E4 & Hr4 & _); [lia|lia|].
  destruct (take_payload_at b (i + 9 + Z.to_nat n) bs4 (put_times p (set_head (pes_head p) t)) (PesPayload p) rest false)
    as (bs5 & E5 & Hr5); [done|done|lia|done|done|].
  exists bs5. split; [|replace (i + length wire)%nat with (i + 9 + Z.to_nat n + length (PesPayload p))%nat by lia; done].
  destruct (get_nothing p (put_times p (set_head (pes_head p) t)) bs3 Hp) as [Ee Eo].
  pose proof (eo_hlen p Hp) as Hh. pose proof (eo_len p Hp) as Hpn. pose proof (eo_max p Hp). fold n in Hh. rewrite Hh in Hpn.
  unfold pes_Decode, enough, enough_or_back.
  rewrite here_bind, (enough_at b _ bs _ _ 9 Hr Ha), (eff_bind_Ret _ _ _ _ _ E1) by lia.
  erewrite eff_bind_Ret by reflexivity. rewrite here_bind, Hh, Hen.
  rewrite (on_bind _ _ _ _ _ _ E2), (eff_bind_Ret _ _ _ _ _ E3), (eff_bind_Ret _ _ _ _ _ Ee), (eff_bind_Ret _ _ _ _ _ Eo).
  rewrite here_bind, Hdist, (on_bind _ _ _ _ _ _ E4), here_bind, Hpn.
  rewrite (u16_small (3 + _ + _ - 3)) by lia. rewrite u16_small by lia.
  replace (3 + n + len (PesPayload p) - 3 - n) with (len (PesPayload p)) by lia.
  rewrite (RemainBytes_at b _ bs4 _ Hr4 Ha3), byte_bits_length, length_app.
  rewrite (proj2 (Z.ltb_ge _ _)) by zdm. rewrite (proj2 (Z.eqb_neq _ 0)) by lia. rewrite here_bind in E5.
  unfold decoded. rewrite <- E5, (RemainBytes_at b _ bs4 _ Hr4 Ha3), byte_bits_length, length_app. done.
Qed.

(** ** The system header *)

Definition es_wire (e : ElementaryStream) : list bool :=
  num_bits 8 (esStreamId e) ++ num_bits 2 3 ++ num_bits 1 (PStdBufferBoundScale e) ++
  num_bits 13 (PStdBufferSizeBound e).
Definition system_body (h : SystemHeader) : list bool :=
  marker ++ num_bits 22 (RateBound h) ++ marker ++ num_bits 6 (AudioBound h) ++ num_bits 1 (FixedFlag h) ++
  num_bits 1 (CspsFlag h) ++ num_bits 1 (SystemAudioLockFlag h) ++ num_bits 1 (SystemVideoLockFlag h) ++
  marker ++ num_bits 5 (VideoBound h) ++ num_bits 1 (PacketRateRestrictionFlag h) ++ num_bits 7 127 ++
  mjoin (es_wire <$> Streams h).

Record es_ok (e : ElementaryStream) : Prop := {
  so_sid : 128 ≤ esStreamId e < 256;
  so_scale : 0 ≤ PStdBufferBoundScale e < 2;
  so_size : 0 ≤ PStdBufferSizeBound e < 2 ^ 13;
}.

Record system_ok (h : SystemHeader) : Prop := {
  yo_rate : 0 ≤ RateBound h < 2 ^ 22;
  yo_audio : 0 ≤ AudioBound h < 2 ^ 6;
  yo_fixed : 0 ≤ FixedFlag h < 2;
  yo_csps : 0 ≤ CspsFlag h < 2;
  yo_alock : 0 ≤ SystemAudioLockFlag h < 2;
  yo_vlock : 0 ≤ SystemVideoLockFlag h < 2;
  yo_video : 0 ≤ VideoBound h < 2 ^ 5;
  yo_restrict : 0 ≤ PacketRateRestrictionFlag h < 2;
  yo_streams : Forall es_ok (Streams h);
  yo_count : (length (Streams h) ≤ 1000)%nat;
}.

Lemma es_wire_length e : length (es_wire e) = 24%nat.
Proof. unfold es_wire. by rewrite !length_app, !num_bits_length. Qed.
Lemma join_length {A} (f : A → list bool) k l : (∀ x, length (f x) = k) → length (mjoin (f <$> l)) = (k * length l)%nat.
Proof. 
  intros H. induction l as [|x l IH]; [cbn; lia|].
  change (mjoin (f <$> x :: l)) with (f x ++ mjoin (f <$> l)). rewrite length_app, H, IH. cbn [length]. lia.
Qed.

Lemma puts_streams l : Forall es_ok l → ∀ k, puts k (put_streams l) (mjoin (es_wire <$> l)).
Proof.
  induction 1 as [|e l [] Hl IH]; intros k; cbn [put_streams]; [apply puts_ret|].
  change (mjoin (es_wire <$> e :: l)) with (es_wire e ++ mjoin (es_wire <$> l)).
  unfold es_wire at 1, PutUint8, PutUint16. rewrite <- !app_assoc. do 4 wr. apply IH.
Qed.

Lemma puts_system h : system_ok h → puts 0 (put_system h) (system_body h).
Proof.
  intros []. unfold put_system, system_body, PutUint8, PutUint32. do 12 wr. by apply puts_streams.
Qed.

Lemma system_body_length h : len (system_body h) = 8 * (6 + 3 * len (Streams h)).
Proof.
  unfold system_body, marker. rewrite !length_app, !num_bits_length, (join_length es_wire 24) by apply es_wire_length. lia.
Qed.

(** The writer after a mark. *)
Lemma Markdot_bytes out w : w_bytes out w → w_bytes out (w_Markdot w) ∧ wbytemark (w_Markdot w) = len out ∧ wbitsmark (w_Markdot w) = 0.
Proof. intros [H1 H2 H3 H4]. cbn. by split. Qed.
Lemma w_Distance_bytes out body w : w_bytes (out ++ body) w → wbytemark w = len out → wbitsmark w = 0 →
  w_DistanceFromMarkDot w = 8 * len body.
Proof.
  intros [H1 H2 H3 H4] Hm Hb. unfold w_DistanceFromMarkDot. rewrite H3, H4, Hm, Hb, length_app. lia.
Qed.

(** Bits of whole bytes, appended. *)
Lemma puts_whole f l out w : puts 0 f l → len l mod 8 = 0 → w_bytes out w →
  ∃ w' b, f w = Ret w' ∧ is_bytes b ∧ byte_bits b = l ∧ w_bytes (out ++ b) w' ∧ marks_same w w'.
Proof.
  intros Hf Hl Hw. destruct (whole_bytes l Hl) as (b & Hb & ->).
  destruct (puts_out f b out w Hf Hb Hw) as (w' & E & H & M). by exists w', b.
Qed.

(** A start code, a length set once what is behind it is written, and the body. *)
Lemma framed out w code x f l : is_bytes code → 0 ≤ x → puts 0 f l → len l mod 8 = 0 → w_bytes out w →
  ∃ w1 w2 w4 body, PutBytes code w = Ret w1 ∧ ByteOffset w1 = len (out ++ code) ∧
    PutUint16 x 16 w1 = Ret w2 ∧ f (w_Markdot w2) = Ret w4 ∧ w_DistanceFromMarkDot w4 = 8 * len body ∧
    is_bytes body ∧ byte_bits body = l ∧ 8 * len body = len l ∧
    ∀ v, is_u16 v → ∃ w5, SetUint16 v (len (out ++ code)) w4 = Ret w5 ∧ w_bytes ((out ++ code) ++ be_bytes 2 v ++ body) w5.
Proof.
  intros Hc Hx Hf Hl Hw. destruct (PutBytes_bytes out code w Hw Hc) as (w1 & E1 & Hw1 & _).
  destruct (puts_whole _ _ _ w1 (puts_field 0 x 16 ltac:(lia) Hx) ltac:(by rewrite num_bits_length) Hw1)
    as (w2 & b & E2 & _ & Hlb & Hw2 & _).
  apply (f_equal length) in Hlb. rewrite byte_bits_length, num_bits_length in Hlb.
  destruct b as [|x0 [|y0 [|z0 b]]]; cbn [length] in Hlb; try lia.
  destruct (Markdot_bytes _ w2 Hw2) as (Hw3 & M1 & M2).
  destruct (puts_whole _ _ _ (w_Markdot w2) Hf Hl Hw3) as (w4 & body & E4 & Hb & Hbits & Hw4 & M3 & M4).
  rewrite M1 in M3. rewrite M2 in M4. exists w1, w2, w4, body.
  split; [done|]. split; [by apply wb_byte|]. split; [done|]. split; [done|].
  split; [by apply (w_Distance_bytes _ _ _ Hw4 M3 M4)|]. split; [done|]. split; [done|].
  split; [rewrite <- Hbits, byte_bits_length; lia|]. intros v Hv. rewrite <- app_assoc in Hw4.
  destruct (SetUint16_bytes _ _ _ _ v w4 Hw4 Hv) as (w5 & E5 & Hw5 & _). by exists w5.
Qed.

Lemma system_out h out w : system_ok h → w_bytes out w →
  ∃ w' body, system_Encode h w = Ret w' ∧ is_bytes body ∧ byte_bits body = system_body h ∧
    w_bytes (out ++ [0; 0; 1; 187] ++ be_bytes 2 (len body) ++ body) w'.
Proof.
  intros Hh Hw. pose proof (system_body_length h) as Hl. pose proof (yo_count h Hh).
  destruct (framed out w [0; 0; 1; 187] 0 _ _ ltac:(repeat constructor; lia) ltac:(lia) (puts_system h Hh)
    ltac:(rewrite Hl; zdm) Hw) as (w1 & w2 & w4 & body & E1 & Ho & E2 & E4 & Hd & Hb & Hbits & Hbl & Hset).
  destruct (Hset (len body)) as (w5 & E5 & Hw5); [lia|]. exists w5, body. unfold system_Encode.
  rewrite E1, bind_Ret, E2, bind_Ret, E4, bind_Ret, Hd, (Z.mul_comm 8), Z.quot_mul, u16_small, Ho by lia.
  split; [done|]. split; [done|]. split; [done|]. by rewrite <- app_assoc in Hw5.
Qed.

Lemma GetBit_GetBits bs : 0 ≤ bitsOffset bs < 8 → GetBit bs = GetBits 1 bs.
Proof.
  intros Ho. unfold GetBit, GetBits, mbind, eff_bind, bs_get. destruct (_ >=? len _); [done|].
  unfold lift. destruct (go_index (bits bs) (bytesOffset bs)) as [c| |]; [|done..].
  rewrite (Z.geb_leb (8 - _) 1), (proj2 (Z.leb_le 1 _)) by lia. change (go_index BitMask (1 - 1)) with (@Ret Z 1).
  cbv beta iota zeta. replace (8 - bitsOffset bs - 1) with (7 - bitsOffset bs) by lia.
  rewrite Z.geb_leb. destruct (Z.leb_spec 8 (bitsOffset bs + 1)), (Z.eqb_spec (bitsOffset bs + 1) 8); done || lia.
Qed.

Lemma reads_GetBit v : 0 ≤ v < 2 → reads GetBit (num_bits 1 v) v.
Proof.
  intros Hv b p bs rest Hb Hr Hd. rewrite GetBit_GetBits by by destruct Hr.
  destruct (reads_GetBits 1 v ltac:(lia) b p bs rest Hb Hr Hd) as (bs' & E & H).
  rewrite Z.mod_small in E by done. by exists bs'.
Qed.

Definition with_streams (l : list ElementaryStream) (h : SystemHeader) : SystemHeader :=
  mkSystem (HeaderLength h) (RateBound h) (AudioBound h) (FixedFlag h) (CspsFlag h) (SystemAudioLockFlag h)
    (SystemVideoLockFlag h) (VideoBound h) (PacketRateRestrictionFlag h) l.

(** A stream id has its top bit set. *)
Lemma es_wire_top e l : es_ok e → ∃ tl, es_wire e ++ l = num_bits 1 1 ++ tl.
Proof.
  intros []. exists (num_bits 7 (esStreamId e) ++ num_bits 2 3 ++ num_bits 1 (PStdBufferBoundScale e) ++
    num_bits 13 (PStdBufferSizeBound e) ++ l). unfold es_wire. rewrite <- !app_assoc, (num_bits_split 1 7), <- app_assoc. do 2 f_equal.
  assert (E : esStreamId e / 2 ^ Z.of_nat 7 = 1) by (change (2 ^ Z.of_nat 7) with 128; zdm). by rewrite E.
Qed.

Lemma runs_streams l : Forall es_ok l → ∀ fuel t, (length l < fuel)%nat → (length l ≤ 1000)%nat →
  runs (get_streams fuel (3 * len l)) t (mjoin (es_wire <$> l)) (with_streams (Streams t ++ l) t) 0.
Proof.
  induction 1 as [|e l He Hl IH]; intros fuel t Hf Hn; (destruct fuel as [|fuel]; [cbn [length] in Hf; lia|]); cbn [get_streams].
  - rewrite app_nil_r. destruct t. apply wire_ret.
  - rewrite Z.gtb_ltb, (proj2 (Z.ltb_lt _ _)) by (cbn [length]; lia).
    change (mjoin (es_wire <$> e :: l)) with (es_wire e ++ mjoin (es_wire <$> l)).
    destruct (es_wire_top e (mjoin (es_wire <$> l)) He) as [tl Htl]. rewrite Htl.
    apply (runs_next 1 1); [lia..|]. cbn [Z.eqb Pos.eqb]. change (num_bits (Z.to_nat 1) 1) with (num_bits 1 1).
    rewrite <- Htl. clear Htl tl. destruct He. unfold es_wire at 1. rewrite <- !app_assoc.
    do 2 rd. eapply wire_bind; [apply runs_on, reads_GetBit; done|cbv beta]. rd. apply runs_upd.
    replace (u16 (3 * len (e :: l) - 3)) with (3 * len l) by (rewrite u16_small; cbn [length] in *; lia).
    cbn [length] in Hf, Hn. specialize (IH fuel (with_streams (Streams t ++ [e]) t) ltac:(lia) ltac:(lia)).
    replace (with_streams (Streams t ++ e :: l) t) with
      (with_streams (Streams (with_streams (Streams t ++ [e]) t) ++ l) (with_streams (Streams t ++ [e]) t)).
    { destruct e. exact IH. }
    unfold with_streams. cbn [Streams HeaderLength RateBound AudioBound FixedFlag CspsFlag SystemAudioLockFlag
      SystemVideoLockFlag VideoBound PacketRateRestrictionFlag]. by rewrite <- app_assoc.
Qed.

Lemma runs_system h t : system_ok h → let n := 6 + 3 * len (Streams h) in
  runs system_Decode t (num_bits 32 443 ++ num_bits 16 n ++ system_body h)
    (mkSystem n (RateBound h) (AudioBound h) (FixedFlag h) (CspsFlag h) (SystemAudioLockFlag h)
       (SystemVideoLockFlag h) (VideoBound h) (PacketRateRestrictionFlag h) (Streams h)) tt.
Proof.
  intros Hh n. pose proof (system_body_length h) as Hl. fold n in Hl. pose proof (yo_count h Hh) as Hc.
  assert (6 ≤ n ≤ 3006 ∧ n < 65536) by lia. unfold system_Decode. apply runs_enough; [rewrite !length_app, !num_bits_length; lia|].
  rd. cbn [Z.eqb Pos.eqb negb]. rd. apply runs_upd. apply runs_enough_or_back; [lia|].
  rewrite (proj2 (Z.ltb_ge _ _)), u16_small by lia. replace (n - 6) with (len (Streams h) * 3) by lia.
  rewrite Z.rem_mul by lia. cbn [Z.eqb negb orb]. destruct Hh. unfold system_body. do 12 rd. apply runs_upd.
  rewrite <- (app_nil_r (mjoin _)), (Z.mul_comm (len _)). eapply wire_bind; [apply runs_streams; [done|lia|lia]|].
  cbn [Z.gtb Z.compare]. apply wire_ret.
Qed.

(** ** The stream map *)

Definition elem_wire (e : ElementaryStreamElem) : list bool :=
  num_bits 8 (StreamType e) ++ num_bits 8 (ElementaryStreamId e) ++ num_bits 16 0.
Definition map_body (m : ProgramStreamMap) : list bool :=
  num_bits 1 (CurrentNextIndicator m) ++ num_bits 2 3 ++ num_bits 5 (ProgramStreamMapVersion m) ++
  num_bits 7 127 ++ marker ++ num_bits 16 0 ++ num_bits 16 (4 * len (StreamMap m)) ++
  mjoin (elem_wire <$> StreamMap m).

Record psm_ok (m : ProgramStreamMap) : Prop := {
  mo_cur : 0 ≤ CurrentNextIndicator m < 2;
  mo_version : 0 ≤ ProgramStreamMapVersion m < 32;
  mo_elems : Forall (λ e, is_u8 (StreamType e) ∧ is_u8 (ElementaryStreamId e) ∧ ElementaryStreamInfoLength e = 0) (StreamMap m);
  mo_count : (length (StreamMap m) ≤ 1000)%nat;
  mo_len : 0 ≤ ElementaryStreamMapLength m;
}.

Lemma elem_wire_length e : length (elem_wire e) = 32%nat.
Proof. unfold elem_wire. by rewrite !length_app, !num_bits_length. Qed.
Lemma map_body_length m : len (map_body m) = 8 * (8 + 4 * len (StreamMap m)) - 16.
Proof.
  unfold map_body, marker. rewrite !length_app, !num_bits_length, (join_length elem_wire 32) by apply elem_wire_length. lia.
Qed.

(** The map once it is written. *)
Definition with_length (m : ProgramStreamMap) : ProgramStreamMap :=
  mkPsm (MapStreamId m) (ProgramStreamMapLength m) (CurrentNextIndicator m) (ProgramStreamMapVersion m)
    (ProgramStreamInfoLength m) (4 * len (StreamMap m)) (StreamMap m).

Lemma puts_elems l : Forall (λ e, is_u8 (StreamType e) ∧ is_u8 (ElementaryStreamId e) ∧ ElementaryStreamInfoLength e = 0) l →
  ∀ k, puts k (put_elems l) (mjoin (elem_wire <$> l)).
Proof.
  induction 1 as [|e l (H1 & H2 & _) Hl IH]; intros k; cbn [put_elems]; [apply puts_ret|].
  change (mjoin (elem_wire <$> e :: l)) with (elem_wire e ++ mjoin (elem_wire <$> l)).
  unfold elem_wire at 1, PutUint8, PutUint16. rewrite <- !app_assoc. do 3 wr. apply IH.
Qed.
Lemma puts_map m : psm_ok m → puts 0 (put_map (with_length m)) (map_body m).
Proof.
  intros []. unfold put_map, map_body, PutUint8, PutUint16, with_length.
  cbn [CurrentNextIndicator ProgramStreamMapVersion ElementaryStreamMapLength StreamMap]. do 7 wr. by apply puts_elems.
Qed.

Lemma psm_out m out w : psm_ok m → w_bytes out w →
  ∃ w' body crc, psm_Encode m w = Ret (with_length m, w') ∧ is_bytes body ∧ byte_bits body = map_body m ∧
    is_bytes crc ∧ length crc = 4%nat ∧
    w_bytes (out ++ [0; 0; 1; 188] ++ be_bytes 2 (len body + 4) ++ body ++ crc) w'.
Proof.
  intros Hm Hw. pose proof (map_body_length m) as Hl. pose proof (mo_count m Hm).
  destruct (framed out w [0; 0; 1; 188] _ _ _ ltac:(repeat constructor; lia) (mo_len m Hm) (puts_map m Hm)
    ltac:(rewrite Hl; zdm) Hw) as (w1 & w2 & w4 & body & E1 & Ho & E2 & E4 & Hd & Hb & Hbits & Hbl & Hset).
  destruct (Hset (len body + 4)) as (w5 & E5 & Hw5); [lia|]. pose proof (wb_byte _ _ Hw5) as Hpos.
  rewrite !length_app, be_bytes_length in Hpos. cbn [length] in Hpos.
  set (all := (out ++ [0; 0; 1; 188]) ++ be_bytes 2 (len body + 4) ++ body) in *.
  assert (Hall : len all = len out + 6 + len body) by (unfold all; rewrite !length_app, be_bytes_length; cbn [length]; lia).
  set (crc := le_bytes 4 (PsUtil.CalcCrc32 4294967295 (take (Z.to_nat (4 + len body)) (drop (Z.to_nat (len out + 2)) all)))).
  destruct (PutBytes_bytes all crc w5 Hw5) as (w6 & E6 & Hw6 & _); [apply is_bytes_le_bytes|].
  exists w6, body, crc. split; [|split; [done|]; split; [done|]; split; [apply is_bytes_le_bytes|split; [done|]]].
  - unfold psm_Encode. rewrite E1, bind_Ret, E2, bind_Ret. rewrite (u16_small (len (StreamMap m) * 4)) by lia.
    rewrite (Z.mul_comm (len (StreamMap m))). fold (with_length m). rewrite E4, bind_Ret, Hd.
    rewrite (Z.mul_comm 8), Z.quot_mul, (u16_small (len body + 4)), Ho, E5, bind_Ret by lia.
    rewrite (Bits_bytes _ _ Hw5), bind_Ret. unfold ByteOffset. rewrite Hpos, go_slice_Ret, bind_Ret by lia.
    match goal with |- context [drop (Z.to_nat ?x) all] => replace x with (len out + 2) by lia end.
    match goal with |- context [take (Z.to_nat ?x) _] => replace x with (4 + len body) by lia end.
    fold crc. by rewrite E6.
  - unfold all in Hw6. by rewrite <- !app_assoc in Hw6.
Qed.

Lemma runs_here {T A} (f : BitStream → eff (T * BitStream) A) t l t2 c :
  (∀ bs, len l ≤ 8 * len (bits bs) → len l / 8 ≤ RemainBytes bs → runs (f bs) t l t2 c) → runs (here ≫= f) t l t2 c.
Proof.
  intros H b p bs rest Hb Hr Ha. rewrite here_bind. apply (H bs) with (b := b) (rest := rest); try done.
  - rewrite (ra_buf _ _ _ Hr). destruct Ha as [Hp Hd]. apply (f_equal length) in Hd.
    rewrite length_drop, byte_bits_length, length_app in Hd. lia.
  - rewrite (RemainBytes_at _ _ _ _ Hr Ha), length_app. zdm.
Qed.

Definition with_elems (l : list ElementaryStreamElem) (m : ProgramStreamMap) : ProgramStreamMap :=
  mkPsm (MapStreamId m) (ProgramStreamMapLength m) (CurrentNextIndicator m) (ProgramStreamMapVersion m)
    (ProgramStreamInfoLength m) (ElementaryStreamMapLength m) l.

Lemma runs_elems l : Forall (λ e, is_u8 (StreamType e) ∧ is_u8 (ElementaryStreamId e) ∧ ElementaryStreamInfoLength e = 0) l →
  ∀ fuel n i t, (length l < fuel)%nat → n = i + 4 * len l →
  runs (get_elems fuel n i) t (mjoin (elem_wire <$> l)) (with_elems (StreamMap t ++ l) t) n.
Proof.
  induction 1 as [|e l (H1 & H2 & H3) Hl IH]; intros fuel n i t Hf Hn;
    (destruct fuel as [|fuel]; [cbn [length] in Hf; lia|]); cbn [get_elems]; cbn [length] in Hf, Hn.
  - rewrite (proj2 (Z.ltb_ge _ _)) by lia. replace i with n by lia. rewrite app_nil_r. destruct t. apply wire_ret.
  - rewrite (proj2 (Z.ltb_lt _ _)) by lia.
    change (mjoin (elem_wire <$> e :: l)) with (elem_wire e ++ mjoin (elem_wire <$> l)).
    unfold elem_wire at 1. rewrite <- !app_assoc. do 3 rd. apply runs_here. intros bs _ Hrem.
    rewrite (proj2 (Z.ltb_ge _ _)) by zdm. rewrite <- (app_nil_l (mjoin _)).
    eapply wire_bind; [by apply runs_on, reads_SkipBits|]. apply runs_upd.
    specialize (IH fuel n (i + u16 (4 + 0)) (with_elems (StreamMap t ++ [e]) t) ltac:(lia)
      ltac:(change (u16 (4 + 0)) with 4; lia)).
    replace (with_elems (StreamMap t ++ e :: l) t) with
      (with_elems (StreamMap (with_elems (StreamMap t ++ [e]) t) ++ l) (with_elems (StreamMap t ++ [e]) t)).
    { destruct e. cbn in H3. subst. exact IH. }
    unfold with_elems. cbn [StreamMap MapStreamId ProgramStreamMapLength CurrentNextIndicator ProgramStreamMapVersion
      ProgramStreamInfoLength ElementaryStreamMapLength]. by rewrite <- app_assoc.
Qed.

Definition psm_wire (m : ProgramStreamMap) (crc : list bool) : list bool :=
  num_bits 24 1 ++ num_bits 8 188 ++ num_bits 16 (10 + 4 * len (StreamMap m)) ++ map_body m ++ crc.

Lemma runs_psm m t crc : psm_ok m → len crc = 32 →
  runs psm_Decode t (psm_wire m crc)
    (mkPsm 188 (10 + 4 * len (StreamMap m)) (CurrentNextIndicator m) (ProgramStreamMapVersion m) 0
       (4 * len (StreamMap m)) (StreamMap m)) tt.
Proof.
  intros Hm Hcrc. pose proof (map_body_length m) as Hl. pose proof (mo_count m Hm) as Hc. destruct Hm.
  assert (Hj : len (mjoin (elem_wire <$> StreamMap m)) = 32 * len (StreamMap m)).
  { rewrite (join_length elem_wire 32) by apply elem_wire_length. lia. }
  unfold psm_Decode, psm_wire. apply runs_enough; [rewrite !length_app, !num_bits_length; lia|].
  rd. cbn [Z.eqb Pos.eqb negb]. rd. apply runs_upd. cbn [Z.eqb Pos.eqb negb]. rd. apply runs_upd.
  apply runs_enough_or_back; [rewrite length_app; lia|]. unfold map_body. rewrite <- !app_assoc. do 3 rd.
  rewrite app_assoc. rd. rd. apply runs_upd. apply runs_enough_or_back; [rewrite !length_app, num_bits_length; lia|].
  rewrite <- (app_nil_l (num_bits 16 _ ++ _)). eapply wire_bind; [by apply runs_on, reads_SkipBits|]. rd. apply runs_upd.
  rewrite (u16_small (10 + _ - 0 - 10)) by lia. replace (10 + 4 * len (StreamMap m) - 0 - 10) with (4 * len (StreamMap m)) by lia.
  apply runs_enough_or_back; [rewrite length_app; lia|]. apply runs_upd. apply runs_here. intros bs Hbs _.
  rewrite length_app in Hbs. eapply wire_bind; [apply runs_elems; [done|lia|lia]|]. rewrite Z.eqb_refl. cbn [negb].
  by apply runs_on, reads_SkipBits.
Qed.
