(* ===== verification/PsMux.v ===== *)
(** * Making a program stream (src/pkg/gb28181/mpegps/ps_muxer.go)

    A muxer holds the system header and the stream map; [Write] turns a frame
    into packets, the first of which starts with a pack header, and with the
    system header and the map on the first frame and on key frames.  The
    packets given to OnPacket are collected with their time. *)

From S2P Require Import Prelude Bits PsBits PsUtil PsProto PsPes.
From S2P Require Avc Hevc.

Record PsMuxer := mkMuxer {
  system : SystemHeader;
  psm : ProgramStreamMap;
  firstframe : bool;
}.

Definition NewPsMuxer : PsMuxer :=
  mkMuxer (mkSystem 0 26234 0 0 0 0 0 0 0 []) (mkPsm 0 0 1 1 0 0 []) true.

(** A stream of the system header and of the map. *)
Definition add_elem (cid sid : Z) (m : ProgramStreamMap) : ProgramStreamMap :=
  mkPsm (MapStreamId m) (ProgramStreamMapLength m) (CurrentNextIndicator m) (u8 (ProgramStreamMapVersion m + 1))
    (ProgramStreamInfoLength m) (ElementaryStreamMapLength m)
    (StreamMap m ++ [NewElementaryStreamElem (u8 cid) sid]).
Definition add_es (audio video : Z) (es : ElementaryStream) (h : SystemHeader) : SystemHeader :=
  mkSystem (HeaderLength h) (RateBound h) audio (FixedFlag h) (CspsFlag h) (SystemAudioLockFlag h)
    (SystemVideoLockFlag h) video (PacketRateRestrictionFlag h) (Streams h ++ [es]).

Definition AddStream (cid : Z) (mx : PsMuxer) : Z * PsMuxer :=
  let h := system mx in
  if (cid =? PsStreamH265) || (cid =? PsStreamH264) then
    let sid := u8 (PesStreamVideo + VideoBound h) in
    (sid, mkMuxer (add_es (AudioBound h) (u8 (VideoBound h + 1)) (mkEs sid 1 400) h)
            (add_elem cid sid (psm mx)) (firstframe mx))
  else
    let sid := u8 (PesStreamAudio + AudioBound h) in
    (sid, mkMuxer (add_es (u8 (AudioBound h + 1)) (VideoBound h) (mkEs sid 0 32) h)
            (add_elem cid sid (psm mx)) (firstframe mx)).

(** What the units of a frame are found to be: a delimiter, a key frame, a
    slice.  The first delimiter or slice ends the search. *)
Record Found := mkFound { withaud : bool; idrFlag : bool; vcl : bool }.

Definition see_h264 (t : Z) : eff Found bool := λ f,
  if t =? Avc.NaluTypeAud then (mkFound true (idrFlag f) (vcl f), Ret false)
  else if (t >=? Avc.NaluTypeSlice) && (t <=? Avc.NaluTypeIdrSlice) then
    (mkFound (withaud f) (if t =? Avc.NaluTypeIdrSlice then true else idrFlag f) true, Ret false)
  else (f, Ret true).

Definition see_h265 (t : Z) : eff Found bool := λ f,
  let irap := (t >=? Hevc.NaluTypeSliceBlaWlp) && (t <=? Hevc.NaluTypeSliceRsvIrapVcl23) in
  if t =? Hevc.NaluTypeAud then (mkFound true (idrFlag f) (vcl f), Ret false)
  else if irap || ((t >=? Hevc.NaluTypeSliceTrailN) && (t <=? Hevc.NaluTypeSliceRaslR)) then
    (mkFound (withaud f) (if irap then true else idrFlag f) true, Ret false)
  else (f, Ret true).

(** The callback of [SplitFrame]; an empty unit panics. *)
Definition see_nalu (stype : Z) (nalu : list Z) : eff Found bool :=
  b ← lift (go_index nalu 0);
  if stype =? PsStreamH264 then see_h264 (Avc.ParseNaluType b) else see_h265 (Hevc.ParseNaluType b).

Definition look_at (stype : Z) (frame : list Z) : outcome Found :=
  let none := mkFound false false false in
  if (stype =? PsStreamH264) || (stype =? PsStreamH265) then
    let '(f, r) := SplitFrame (see_nalu stype) frame none in _ ← r; Ret f
  else Ret none.

(** The PES packet of a part of the frame; fields that are not set stay zero. *)
Definition frame_pes (sid : Z) (idr : bool) (plen pts dts : Z) (payload : list Z) : PesPacket :=
  mkPes (mkHead sid plen 0 0 (if idr then 1 else 0) 0 0 3 0 0 0 0 0 0 10) pts dts 0 0 0 0 0 0 0 payload.

(** The delimiter put before the first slice. *)
Definition lead (stype : Z) (f : Found) (first : bool) : list Z :=
  if first && negb (withaud f) && vcl f then
    if stype =? PsStreamH264 then H264AudNalu
    else if stype =? PsStreamH265 then H265AudNalu else []
  else [].

Definition packets : Type := list (list Z * Z).
Definition emit (pkt : list Z) (pts : Z) : eff packets unit := λ out, (out ++ [(pkt, pts)], Ret tt).

Section write.
Context (sid stype : Z) (f : Found) (pts dts : Z).

(** [for len(frame) > 0]; a round takes at least one byte. *)
Fixpoint write_loop (fuel : nat) (frame : list Z) (first : bool) (w : BitStreamWriter) : eff packets unit :=
  match fuel with
  | O => lift (Fail OutOfFuel)
  | S fuel =>
      if len frame >? 0 then
        let aud := lead stype f first in
        let peshdrlen := 13 + len aud in
        let big := peshdrlen + len frame >=? 65535 in
        part ← lift (if big then go_slice frame 0 (65535 - peshdrlen) else Ret frame);
        rest ← lift (if big then go_from frame (65535 - peshdrlen) else Ret []);
        let plen := if big then 65535 else u16 (peshdrlen + len frame) in
        w ← lift (pes_Encode (frame_pes sid (idrFlag f) plen pts dts (aud ++ part)) w);
        b ← lift (Bits_ w);
        _ ← emit b pts;
        write_loop fuel rest false (Reset_ w)
      else mret tt
  end.
End write.

Definition find_stream (sid : Z) (m : ProgramStreamMap) : option ElementaryStreamElem :=
  List.find (λ e, ElementaryStreamId e =? sid) (StreamMap m).

Definition write_tables (mx : PsMuxer) (w : BitStreamWriter) : outcome (PsMuxer * BitStreamWriter) :=
  w ← system_Encode (system mx) w;
  '(m, w) ← psm_Encode (psm mx) w;
  Ret (mkMuxer (system mx) m false, w).

(** The packets come with the new muxer; the frame, what [SplitFrame] found
    and the time stamps are read before anything is written. *)
Definition Write (sid : Z) (frame : list Z) (pts dts : Z) (mx : PsMuxer) : outcome (PsMuxer * packets) :=
  match find_stream sid (psm mx) with
  | None => Fail ErrStreamIdNotFound
  | Some stream =>
      if len frame <=? 0 then Ret (mx, []) else
      f ← look_at (StreamType stream) frame;
      let dts := u64 (dts * 90) in
      let pts := u64 (pts * 90) in
      w ← pack_Encode (mkPack false (u64 (dts - 3600)) 0 6106 0) (NewBitStreamWriter 1024);
      '(mx, w) ← (if firstframe mx || idrFlag f then write_tables mx w else Ret (mx, w));
      let '(out, r) := write_loop sid (StreamType stream) f pts dts (S (length frame)) frame true w [] in
      _ ← r;
      Ret (mx, out)
  end.
