(* ===== verification/PsDemux.v ===== *)
(** * Reading a program stream (src/pkg/gb28181/mpegps/ps_demuxer.go)

    [Input] reads the packets of the bytes it is given behind the bytes it
    kept, and hands the frames it finds to OnFrame; they are collected in
    order.  OnPacket, a hook for debugging, is left unset, as the server does. *)

From stdpp Require Import gmap.
From S2P Require Import Prelude Bits PsBits PsUtil PsProto PsPes.
From S2P Require Avc Hevc.

Record psStream := mkStream {
  sid : Z;
  cid : Z;
  s_pts : Z;
  s_dts : Z;
  streamBuf : list Z;
}.
Definition newPsStream (sid cid : Z) : psStream := mkStream sid cid 0 0 [].
Definition setCid (c : Z) (s : psStream) : psStream := mkStream (sid s) c (s_pts s) (s_dts s) (streamBuf s).

(** A frame as OnFrame gets it: bytes, codec, and times in milliseconds. *)
Definition frame : Type := list Z * Z * Z * Z.

(** The demuxer, with the frames given out. *)
Record PsDemuxer := mkDemuxer {
  streamMap : gmap Z psStream;
  Header : option PsPackHeader;
  System : option SystemHeader;
  Psm : option ProgramStreamMap;
  CommPes : option CommonPesPacket;
  Psd : option ProgramStreamDirectory;
  Pes : option PesPacket;
  mpeg1 : bool;
  cache : list Z;
  verifyBuf : list Z;
  onFrame : list frame;
}.
Definition NewPsDemuxer : PsDemuxer := mkDemuxer ∅ None None None None None None false [] [] [].

Definition set_streams (m : gmap Z psStream) (d : PsDemuxer) : PsDemuxer :=
  mkDemuxer m (Header d) (System d) (Psm d) (CommPes d) (Psd d) (Pes d) (mpeg1 d) (cache d) (verifyBuf d) (onFrame d).
Definition set_header (h : PsPackHeader) (d : PsDemuxer) : PsDemuxer :=
  mkDemuxer (streamMap d) (Some h) (System d) (Psm d) (CommPes d) (Psd d) (Pes d) (mpeg1 d) (cache d) (verifyBuf d) (onFrame d).
Definition set_system (h : SystemHeader) (d : PsDemuxer) : PsDemuxer :=
  mkDemuxer (streamMap d) (Header d) (Some h) (Psm d) (CommPes d) (Psd d) (Pes d) (mpeg1 d) (cache d) (verifyBuf d) (onFrame d).
Definition set_psm (m : ProgramStreamMap) (d : PsDemuxer) : PsDemuxer :=
  mkDemuxer (streamMap d) (Header d) (System d) (Some m) (CommPes d) (Psd d) (Pes d) (mpeg1 d) (cache d) (verifyBuf d) (onFrame d).
Definition set_common (p : CommonPesPacket) (d : PsDemuxer) : PsDemuxer :=
  mkDemuxer (streamMap d) (Header d) (System d) (Psm d) (Some p) (Psd d) (Pes d) (mpeg1 d) (cache d) (verifyBuf d) (onFrame d).
Definition set_psd (p : ProgramStreamDirectory) (d : PsDemuxer) : PsDemuxer :=
  mkDemuxer (streamMap d) (Header d) (System d) (Psm d) (CommPes d) (Some p) (Pes d) (mpeg1 d) (cache d) (verifyBuf d) (onFrame d).
Definition set_pes (p : PesPacket) (d : PsDemuxer) : PsDemuxer :=
  mkDemuxer (streamMap d) (Header d) (System d) (Psm d) (CommPes d) (Psd d) (Some p) (mpeg1 d) (cache d) (verifyBuf d) (onFrame d).
Definition set_mpeg1 (b : bool) (d : PsDemuxer) : PsDemuxer :=
  mkDemuxer (streamMap d) (Header d) (System d) (Psm d) (CommPes d) (Psd d) (Pes d) b (cache d) (verifyBuf d) (onFrame d).
Definition set_cache (c : list Z) (d : PsDemuxer) : PsDemuxer :=
  mkDemuxer (streamMap d) (Header d) (System d) (Psm d) (CommPes d) (Psd d) (Pes d) (mpeg1 d) c (verifyBuf d) (onFrame d).
Definition set_verify (v : list Z) (d : PsDemuxer) : PsDemuxer :=
  mkDemuxer (streamMap d) (Header d) (System d) (Psm d) (CommPes d) (Psd d) (Pes d) (mpeg1 d) (cache d) v (onFrame d).
Definition give (l : list frame) (d : PsDemuxer) : PsDemuxer :=
  mkDemuxer (streamMap d) (Header d) (System d) (Psm d) (CommPes d) (Psd d) (Pes d) (mpeg1 d) (cache d) (verifyBuf d) (onFrame d ++ l).
Definition set_stream (s : psStream) (d : PsDemuxer) : PsDemuxer :=
  set_streams (<[sid s := s]> (streamMap d)) d.

(** ** The payload of a packet *)

(** The units of the gathered bytes, without delimiters and empty units;
    [for start >= 0 && start < len(buf)]. *)
Fixpoint split_units (fuel : nat) (s : psStream) (start sc : Z) : outcome (list frame) :=
  match fuel with
  | O => Fail OutOfFuel
  | S fuel =>
      let buf := streamBuf s in
      if (start >=? 0) && (start <? len buf) then
        '(e, sc2) ← FindStartCode buf (start + sc);
        let e := if e <? 0 then len buf else e in
        if e <=? start + sc then split_units fuel s e sc2 else
        t ← go_from buf start;
        aud ← (if cid s =? PsStreamH264 then typ ← H264NaluType t; Ret (typ =? Avc.NaluTypeAud)
               else if cid s =? PsStreamH265 then typ ← H265NaluType t; Ret (typ =? Hevc.NaluTypeAud)
               else Ret true);
        u ← go_slice buf start e;
        l ← split_units fuel s e sc2;
        Ret (if aud : bool then l else (u, cid s, s_pts s / 90, s_dts s / 90) :: l)
      else Ret []
  end.

(** The stream then, and the frames given out. *)
Definition demuxH26x (s : psStream) (p : PesPacket) : outcome (psStream * list frame) :=
  let next := mkStream (sid s) (cid s) (Pts p) (Dts p) in
  if s_pts s =? 0 then Ret (next (streamBuf s ++ PesPayload p), [])
  else if (s_pts s =? Pts p) || (Pts p =? 0) then
    Ret (mkStream (sid s) (cid s) (s_pts s) (s_dts s) (streamBuf s ++ PesPayload p), [])
  else
    '(start, sc) ← FindStartCode (streamBuf s) 0;
    l ← split_units (S (length (streamBuf s))) s start sc;
    Ret (next (PesPayload p), l).

Definition demuxAudio (s : psStream) (p : PesPacket) : outcome (psStream * list frame) :=
  Ret (s, [(PesPayload p, cid s, Pts p / 90, Dts p / 90)]).

Definition demux_unknown (s : psStream) (p : PesPacket) : psStream :=
  mkStream (sid s) (cid s) (Pts p) (Dts p)
    ((if negb (s_pts s =? Pts p) then [] else streamBuf s) ++ PesPayload p).

Definition demuxPespacket (s : psStream) (p : PesPacket) : outcome (psStream * list frame) :=
  if (cid s =? PsStreamAac) || (cid s =? PsStreamG711A) || (cid s =? PsStreamG711U) then demuxAudio s p
  else if (cid s =? PsStreamH264) || (cid s =? PsStreamH265) then demuxH26x s p
  else if cid s =? PsStreamUnknow then Ret (demux_unknown s p, [])
  else Ret (s, []).

Definition guessCodecid (s : psStream) (p : PesPacket) : outcome psStream :=
  if Z.land (sid s) 224 =? PesStreamAudio then
    c ← audioVerify (PesPayload p); Ret (setCid c s)
  else if Z.land (sid s) 224 =? PesStreamVideo then
    c ← mpegH26xVerify (streamBuf s);
    Ret (match c with CodecH264 => setCid PsStreamH264 s | CodecH265 => setCid PsStreamH265 s | _ => s end)
  else Ret s.

(** The stream is the one of the map or a new one; either way it is in the map
    after it. *)
Definition demux_into (s : psStream) (p : PesPacket) (d : PsDemuxer) : outcome PsDemuxer :=
  '(s, l) ← demuxPespacket s p; Ret (give l (set_stream s d)).

Definition known_stream (s : psStream) (p : PesPacket) (d : PsDemuxer) : outcome PsDemuxer :=
  s ← (if mpeg1 d && (cid s =? PsStreamUnknow) then guessCodecid s p else Ret s);
  demux_into s p d.

Definition unknown_video (p : PesPacket) (d : PsDemuxer) : outcome PsDemuxer :=
  let v := (if len (verifyBuf d) >? 256 then [] else verifyBuf d) ++ PesPayload p in
  let d := set_verify v d in
  c ← mpegH26xVerify v;
  match c with
  | CodecH264 => demux_into (newPsStream PesStreamVideo PsStreamH264) p d
  | CodecH265 => demux_into (newPsStream PesStreamVideo PsStreamH265) p d
  | _ => Ret d
  end.

Definition unknown_audio (p : PesPacket) (d : PsDemuxer) : outcome PsDemuxer :=
  match streamMap d !! PesStreamVideo with
  | Some _ => c ← audioVerify (PesPayload p); demux_into (newPsStream PesStreamAudio c) p d
  | None => Ret d
  end.

Definition got_pes (p : PesPacket) (d : PsDemuxer) : outcome PsDemuxer :=
  let id := StreamId (pes_head p) in
  match streamMap d !! id with
  | Some s => known_stream s p d
  | None =>
      if mpeg1 d then
        Ret (set_stream (mkStream id PsStreamUnknow (Pts p) (Dts p) (PesPayload p)) d)
      else if id =? PesStreamVideo then unknown_video p d
      else if id =? PesStreamAudio then unknown_audio p d
      else Ret d
  end.

(** The streams of a map, with the ones that are there. *)
Definition map_stream (m : gmap Z psStream) (e : ElementaryStreamElem) : gmap Z psStream :=
  let s := match m !! ElementaryStreamId e with
           | None => newPsStream (ElementaryStreamId e) (StreamType e)
           | Some s => setCid (StreamType e) s
           end in
  <[ElementaryStreamId e := s]> m.

(** ** Input *)

Abbreviation st := (PsDemuxer * BitStream)%type.

(** A decoder run on the record [get] finds, or on a new one; its error is a
    value. *)
Definition decode {R} (get : PsDemuxer → option R) (zero : R) (set : R → PsDemuxer → PsDemuxer)
    (m : eff (R * BitStream) unit) : eff st (option goerr) := λ '(d, bs),
  let '((r, bs), res) := m (default zero (get d), bs) in
  ((set r d, bs), match res with
                  | Ret _ => Ret None
                  | Fail OutOfFuel => Fail OutOfFuel
                  | Fail e => Ret (Some e)
                  | Panic => Panic
                  end).

Definition upd_o (f : PsDemuxer → outcome PsDemuxer) : eff st unit := λ '(d, bs),
  match f d with Ret d => ((d, bs), Ret tt) | Fail e => ((d, bs), Fail e) | Panic => ((d, bs), Panic) end.

Definition in_pack : eff st (option goerr) :=
  ret ← decode Header zero_pack set_header pack_Decode;
  _ ← rec_upd (λ d, set_mpeg1 (match Header d with Some h => IsMpeg1 h | None => false end) d);
  mret ret.

Definition in_psm : eff st (option goerr) :=
  ret ← decode Psm zero_psm set_psm psm_Decode;
  _ ← (match ret with
       | None => rec_upd (λ d, match Psm d with
                               | Some m => set_streams (foldl map_stream (streamMap d) (StreamMap m)) d
                               | None => d
                               end)
       | Some _ => mret tt
       end);
  mret ret.

Definition in_pes : eff st (option goerr) :=
  d ← rec_get;
  ret ← decode Pes NewPesPacket set_pes (if mpeg1 d then pes_DecodeMpeg1 else pes_Decode);
  _ ← (match ret with
       | None => upd_o (λ d, match Pes d with Some p => got_pes p d | None => Ret d end)
       | Some _ => mret tt
       end);
  mret ret.

Definition common_codes : list Z :=
  [445; 446; 447; 496; 497; 498; 499; 500; 501; 502; 503; 504; 505; 506; 507].

(** What a packet does; the second result is true when Input returns at once. *)
Definition in_packet (code : Z) (ret : option goerr) : eff st (option goerr * bool) :=
  let go (m : eff st (option goerr)) : eff st (option goerr * bool) := r ← m; mret (r, false) in
  if code =? 442 then go in_pack
  else if code =? 443 then
    d ← rec_get;
    match Header d with
    | None => mret (Some ErrFmt, true)
    | Some _ => go (decode System zero_system set_system system_Decode)
    end
  else if code =? 444 then go in_psm
  else if bool_decide (code ∈ common_codes) then go (decode CommPes (mkCommon 0 0) set_common common_Decode)
  else if code =? 511 then go (decode Psd (mkPsd 0) set_psd psd_Decode)
  else if code =? 441 then mret (ret, false)
  else if (Z.land code 4294967264 =? 448) || (Z.land code 4294967264 =? 480) then go in_pes
  else _ ← on (SkipBits 8); mret (ret, false).

(** The bytes not read are kept. *)
Definition saveReseved : eff st unit :=
  bs ← here;
  b ← lift (RemainData bs);
  c ← lift (go_make_checked (RemainBytes bs));
  rec_upd (set_cache (go_copy c b)).

(** Errors of the package, which end the loop; the others do not. *)
Definition is_ps_error (e : goerr) : bool :=
  bool_decide (e = ErrNeedMore) || bool_decide (e = ErrParser) || bool_decide (e = ErrStreamIdNotFound).

Fixpoint in_loop (fuel : nat) (ret : option goerr) : eff st (option goerr * bool) :=
  match fuel with
  | O => lift (Fail OutOfFuel)
  | S fuel =>
      bs ← here;
      if EOS bs then mret (ret, false) else
      match ret with
      | Some ErrNeedMore => _ ← saveReseved; mret (ret, false)
      | _ =>
          if match ret with Some e => is_ps_error e | None => false end then mret (ret, false) else
          if RemainBits bs <? 32 then _ ← saveReseved; mret (Some ErrNeedMore, false) else
          code ← on (NextBits 32);
          '(ret, now) ← in_packet code ret;
          if now : bool then mret (ret, true) else in_loop fuel ret
      end
  end.

(** The error Input returns is its value here; [b] is what it reads. *)
Definition in_buffer (d : PsDemuxer) (data : list Z) : list Z :=
  if len (cache d) >? 0 then cache d ++ data else data.
Definition Input_fuel (b : list Z) : nat := S (S (8 * length b)).

Definition Input (data : list Z) : eff PsDemuxer (option goerr) := λ d,
  let b := in_buffer d data in
  let d := if len (cache d) >? 0 then set_cache b d else d in
  let '((d, _), res) := in_loop (Input_fuel b) None (d, NewBitStream b) in
  match res with
  | Ret (ret, now) =>
      (if negb now && bool_decide (ret = None) && (len (cache d) >? 0) then set_cache [] d else d, Ret ret)
  | Fail e => (d, Fail e)
  | Panic => (d, Panic)
  end.

(** The frame gathered for each stream; Go visits a map in any order. *)
Definition flush_frame (s : psStream) : list frame :=
  if len (streamBuf s) =? 0 then [] else [(streamBuf s, cid s, s_pts s / 90, s_dts s / 90)].
Definition Flush (order : list (Z * psStream)) (d : PsDemuxer) : PsDemuxer :=
  give (mjoin (flush_frame <$> order.*2)) d.
