(* ===== verification/PsInput.v ===== *)
(** * A program stream, cut anywhere (src/pkg/gb28181/mpegps/ps_demuxer.go)

    The packets of a stream have an effect on the demuxer's streams and frames
    that does not depend on how its bytes are cut: a packet of which some bytes
    are missing is kept and decoded when they come.  Cuts inside a pack header
    are left out; the demuxer loses such a header. *)

From stdpp Require Import gmap.
From S2P Require Import Prelude Bits PsBits PsUtil PsProto PsPes PsWire PsDemux.

(** ** Packets and their effect *)

Inductive item :=
  | EPack (h : PsPackHeader)
  | ESystem (h : SystemHeader)
  | EPsm (m : ProgramStreamMap) (crc : list Z)
  | EPes (p : PesPacket).

Definition item_wire (e : item) : list bool :=
  match e with
  | EPack h => pack_wire h
  | ESystem h => num_bits 32 443 ++ num_bits 16 (6 + 3 * len (Streams h)) ++ system_body h
  | EPsm m crc => psm_wire m (byte_bits crc)
  | EPes p => pes_wire p
  end.

Definition code_of (e : item) : Z :=
  match e with EPack _ => 442 | ESystem _ => 443 | EPsm _ _ => 444 | EPes p => 256 + StreamId (pes_head p) end.

Definition item_ok (e : item) : Prop :=
  match e with
  | EPack h => pack_ok h
  | ESystem h => system_ok h
  | EPsm m crc => psm_ok m ∧ is_bytes crc ∧ length crc = 4%nat
  | EPes p => pes_ok p ∧ 192 ≤ StreamId (pes_head p) < 240 ∧ 2 ≤ PtsDtsFlags (pes_head p)
  end.

(** The bytes of a packet. *)
Definition item_bytes (e : item) (w : list Z) : Prop := item_ok e ∧ is_bytes w ∧ byte_bits w = item_wire e.

(** A pack header was seen, the streams, the frames given out. *)
Record view := mkView { v_header : bool; v_streams : gmap Z psStream; v_frames : list frame }.

(** The effect of a packet; none for a system header without pack header and
    for a packet of an unknown stream. *)
Definition effect (e : item) (v : view) : option view :=
  match e with
  | EPack _ => Some (mkView true (v_streams v) (v_frames v))
  | ESystem _ => if v_header v then Some v else None
  | EPsm m _ => Some (mkView (v_header v) (foldl map_stream (v_streams v) (StreamMap m)) (v_frames v))
  | EPes p =>
      s ← v_streams v !! StreamId (pes_head p);
      match demuxPespacket s (decoded p NewPesPacket) with
      | Ret (s, l) => Some (mkView (v_header v) (<[sid s := s]> (v_streams v)) (v_frames v ++ l))
      | _ => None
      end
  end.

Fixpoint effects (l : list item) (v : view) : option view :=
  match l with [] => Some v | e :: l => v ← effect e v; effects l v end.

(** The demuxer shows the view. *)
Record shows (d : PsDemuxer) (v : view) : Prop := {
  sh_streams : streamMap d = v_streams v;
  sh_frames : onFrame d = v_frames v;
  sh_mpeg1 : mpeg1 d = false;
  sh_header : match Header d with Some h => IsMpeg1 h = false | None => v_header v = false end;
}.

Lemma shows_new : shows NewPsDemuxer (mkView false ∅ []).
Proof. by split. Qed.

(** ** One round of the loop *)

Lemma EOS_at b i bs : r_at b (8 * i) bs → EOS bs = bool_decide (i = length b).
Proof.
  intros Hr. pose proof (r_at_whole _ _ _ Hr) as [H1 H2]. destruct Hr as [Hb _ _ _]. unfold EOS.
  rewrite Hb, H1, H2. cbn [Z.eqb]. rewrite andb_true_r. case_bool_decide; lia.
Qed.
Lemma RemainBytes_whole b i bs : r_at b (8 * i) bs → (i ≤ length b)%nat → RemainBytes bs = len (drop i b).
Proof.
  intros Hr Hi. rewrite (RemainBytes_at b _ bs _ Hr (ahead_bytes b i _ Hi eq_refl)), byte_bits_length. zdm.
Qed.
Lemma RemainBits_whole b i bs : r_at b (8 * i) bs → (i ≤ length b)%nat → RemainBits bs = 8 * len (drop i b).
Proof.
  intros Hr Hi. unfold RemainBits. rewrite (RemainBytes_whole b i bs Hr Hi).
  pose proof (r_at_whole _ _ _ Hr) as [_ H2]. rewrite H2. cbn [Z.gtb Z.compare]. lia.
Qed.

Lemma save_at b i bs (d : PsDemuxer) : r_at b (8 * i) bs → (i ≤ length b)%nat →
  saveReseved (d, bs) = ((set_cache (drop i b) d, bs), Ret tt).
Proof.
  intros Hr Hi. unfold saveReseved. rewrite here_bind, (RemainData_at b i bs Hr Hi), eff_bind_lift.
  rewrite (RemainBytes_whole b i bs Hr Hi). unfold go_make_checked. rewrite (proj2 (Z.ltb_ge _ 0)) by lia.
  rewrite eff_bind_lift, go_copy_full by (rewrite length_go_make; lia). done.
Qed.

Lemma loop_end fuel ret b bs (d : PsDemuxer) : r_at b (8 * length b) bs → in_loop (S fuel) ret (d, bs) = ((d, bs), Ret (ret, false)).
Proof. intros Hr. cbn [in_loop].
  rewrite here_bind, (EOS_at b _ bs Hr), bool_decide_true by done. done. Qed.

Lemma loop_save fuel b i bs (d : PsDemuxer) : r_at b (8 * i) bs → (i < length b)%nat →
  in_loop (S fuel) (Some ErrNeedMore) (d, bs) = ((set_cache (drop i b) d, bs), Ret (Some ErrNeedMore, false)).
Proof.
  intros Hr Hi. cbn [in_loop]. rewrite here_bind, (EOS_at b i bs Hr), bool_decide_false by lia.
  by rewrite (eff_bind_Ret _ _ _ _ _ (save_at b i bs d Hr ltac:(lia))).
Qed.

Lemma loop_short fuel b i bs (d : PsDemuxer) : r_at b (8 * i) bs → (i < length b)%nat → len (drop i b) < 4 →
  in_loop (S fuel) None (d, bs) = ((set_cache (drop i b) d, bs), Ret (Some ErrNeedMore, false)).
Proof.
  intros Hr Hi Hl. cbn [in_loop]. rewrite here_bind, (EOS_at b i bs Hr), bool_decide_false by lia.
  rewrite (RemainBits_whole b i bs Hr), (proj2 (Z.ltb_lt _ _)) by lia.
  by rewrite (eff_bind_Ret _ _ _ _ _ (save_at b i bs d Hr ltac:(lia))).
Qed.

Lemma loop_step fuel b i bs bs1 bs2 (d d2 : PsDemuxer) code ret : r_at b (8 * i) bs → (i < length b)%nat → 4 ≤ len (drop i b) →
  NextBits 32 bs = (bs1, Ret code) → in_packet code None (d, bs1) = ((d2, bs2), Ret (ret, false)) →
  in_loop (S fuel) None (d, bs) = in_loop fuel ret (d2, bs2).
Proof.
  intros Hr Hi Hl E1 E2. cbn [in_loop]. rewrite here_bind, (EOS_at b i bs Hr), bool_decide_false by lia.
  rewrite (RemainBits_whole b i bs Hr), (proj2 (Z.ltb_ge _ _)) by lia.
  by rewrite (on_bind _ _ _ _ _ _ E1), (eff_bind_Ret _ _ _ _ _ E2).
Qed.

(** ** The start code *)

Lemma head_code p : is_u8 (StreamId (pes_head p)) →
  pes_wire p = num_bits 32 (256 + StreamId (pes_head p)) ++ drop 32 (pes_wire p).
Proof.
  intros H. unfold pes_wire, head_wire. set (s := StreamId _) in *. rewrite <- !app_assoc.
  replace (256 + s) with (1 * 2 ^ Z.of_nat 8 + s) by (change (2 ^ Z.of_nat 8) with 256; lia).
  rewrite (num_bits_add 24 8), <- app_assoc by done. by do 2 f_equal.
Qed.

Lemma item_code e : item_ok e → ∃ l, item_wire e = num_bits 32 (code_of e) ++ l.
Proof.
  destruct e as [h|h|m crc|p]; intros H; cbn [item_wire code_of].
  - by eexists.
  - by eexists.
  - unfold psm_wire. eexists. rewrite (app_assoc (num_bits 24 1)). reflexivity.
  - eexists. apply head_code. destruct H as [[] _]. done.
Qed.

(** The code is seen as soon as its four bytes are there. *)
Lemma next_code e w b i bs v : item_bytes e w → is_bytes b → r_at b (8 * i) bs → (i ≤ length b)%nat →
  drop i b = v → take 4 v = take 4 w → (4 ≤ length w)%nat →
  ∃ bs1, NextBits 32 bs = (bs1, Ret (code_of e)) ∧ r_at b (8 * i) bs1.
Proof.
  intros (He & Hw & Hbits) Hb Hr Hi Hv Ht Hl. destruct (item_code e He) as [l El].
  pose proof (ahead_bytes b i v Hi Hv) as Ha. rewrite <- (take_drop 4 v), Ht, byte_bits_app in Ha.
  assert (E4 : byte_bits (take 4 w) = num_bits 32 (code_of e)).
  { rewrite El, <- (take_drop 4 w), byte_bits_app in Hbits. apply app_inj_1 in Hbits as [H _]; [done|].
    rewrite byte_bits_length, length_take, num_bits_length. lia. }
  rewrite E4 in Ha. destruct (NextBits_any b (8 * i) 32 _ _ bs Hr Hb ltac:(lia) Ha) as (bs1 & E & Hr1 & _).
  exists bs1. rewrite E, Z.mod_small; [by split|]. destruct e; cbn [code_of]; try lia.
  destruct He as [[] _]. lia.
Qed.

(** ** A whole packet *)

Lemma decode_Ret {R} get zero set (m : eff (R * BitStream) unit) d bs r bs' :
  m (default zero (get d), bs) = ((r, bs'), Ret tt) → decode get zero set m (d, bs) = ((set r d, bs'), Ret None).
Proof. intros E. unfold decode. by rewrite E. Qed.
Lemma decode_need {R} get zero set (m : eff (R * BitStream) unit) d bs r bs' :
  m (default zero (get d), bs) = ((r, bs'), Fail ErrNeedMore) →
  decode get zero set m (d, bs) = ((set r d, bs'), Ret (Some ErrNeedMore)).
Proof. intros E. unfold decode. by rewrite E. Qed.

Definition is_pes_code (c : Z) : bool :=
  negb (c =? 442) && negb (c =? 443) && negb (c =? 444) && negb (bool_decide (c ∈ common_codes)) &&
  negb (c =? 511) && negb (c =? 441) && ((Z.land c 4294967264 =? 448) || (Z.land c 4294967264 =? 480)).

Lemma in_packet_pes s ret : 192 ≤ s < 240 → in_packet (256 + s) ret = (r ← in_pes; mret (r, false)).
Proof.
  intros Hs. assert (H : is_pes_code (256 + s) = true).
  { replace s with (192 + (s - 192)) by lia. generalize (s - 192), (ltac:(lia) : 0 ≤ s - 192 < 48).
    apply for_range_spec. vm_compute. reflexivity. }
  unfold is_pes_code in H. unfold in_packet.
  rewrite !andb_true_iff, !negb_true_iff in H. destruct H as [[[[[[H1 H2] H3] H4] H5] H6] H7].
  by rewrite H1, H2, H3, H4, H5, H6, H7.
Qed.

Lemma runs_whole {T} (m : eff (T * BitStream) unit) t l t' b i bs w rest : runs m t l t' tt →
  is_bytes b → r_at b (8 * i) bs → (i ≤ length b)%nat → drop i b = w ++ rest → byte_bits w = l →
  ∃ bs', m (t, bs) = ((t', bs'), Ret tt) ∧ r_at b (8 * (i + length w)) bs'.
Proof.
  intros Hm Hb Hr Hi Hd Hw. pose proof (ahead_bytes b i _ Hi Hd) as Ha. rewrite byte_bits_app, Hw in Ha.
  destruct (Hm b _ bs _ Hb Hr Ha) as (bs' & E & Hr' & _). exists bs'. split; [done|].
  replace (8 * (i + length w))%nat with (8 * i + length l)%nat by (rewrite <- Hw, byte_bits_length; lia). done.
Qed.

(** The effect needs only what the packet carries. *)
Lemma demuxPespacket_ext s p q : Pts p = Pts q → Dts p = Dts q → PesPayload p = PesPayload q →
  demuxPespacket s p = demuxPespacket s q.
Proof. intros H1 H2 H3. unfold demuxPespacket, demuxAudio, demuxH26x, demux_unknown. by rewrite H1, H2, H3. Qed.

Lemma decoded_times p t : 2 ≤ PtsDtsFlags (pes_head p) → pes_ok p →
  Pts (decoded p t) = Pts (decoded p NewPesPacket) ∧ Dts (decoded p t) = Dts (decoded p NewPesPacket).
Proof.
  intros H Hp. pose proof (eo_flags p Hp). unfold decoded, put_times.
  destruct (Z.eqb_spec (PtsDtsFlags (pes_head p)) 3); [done|]. rewrite (proj2 (Z.eqb_eq _ 2)) by lia. done.
Qed.

Lemma decoded_head p t : pes_head (decoded p t) = pes_head p.
Proof. unfold decoded, put_times. by repeat case_match. Qed.
Lemma decoded_payload p t : PesPayload (decoded p t) = PesPayload p.
Proof. done. Qed.

Lemma whole_pes p w b i bs rest d v v' : item_bytes (EPes p) w → is_bytes b → r_at b (8 * i) bs → (i ≤ length b)%nat →
  drop i b = w ++ rest → shows d v → effect (EPes p) v = Some v' →
  ∃ d' bs', in_packet (code_of (EPes p)) None (d, bs) = ((d', bs'), Ret (None, false)) ∧
    r_at b (8 * (i + length w)) bs' ∧ shows d' v'.
Proof.
  intros ((Hp & Hsid & Hf) & Hw & Hbits) Hb Hr Hi Hd [S1 S2 S3 S4] He. cbn [code_of item_wire effect] in *.
  apply bind_Some in He as (s & Hs & He).
  destruct (demuxPespacket s (decoded p NewPesPacket)) as [[s' l]| |] eqn:Es; [|done..]. injection He as <-.
  set (t := default NewPesPacket (Pes d)). destruct (pes_Decode_at p t b i bs w rest Hp Hb Hr Hi Hd Hbits) as (bs' & E & Hr').
  exists (give l (set_stream s' (set_pes (decoded p t) d))), bs'. rewrite in_packet_pes by done. split; [|split; [done|]].
  - assert (Ei : in_pes (d, bs) = ((give l (set_stream s' (set_pes (decoded p t) d)), bs'), Ret None)).
    { unfold in_pes. erewrite eff_bind_Ret by reflexivity. rewrite S3.
      rewrite (eff_bind_Ret _ _ _ _ _ (decode_Ret Pes NewPesPacket set_pes pes_Decode d bs _ _ E)).
      assert (Eg : got_pes (decoded p t) (set_pes (decoded p t) d) = Ret (give l (set_stream s' (set_pes (decoded p t) d)))).
      { unfold got_pes, known_stream, demux_into. rewrite decoded_head. cbn [set_pes streamMap mpeg1]. rewrite S1, Hs, S3.
        cbn [andb]. destruct (decoded_times p t Hf Hp). rewrite bind_Ret.
        by rewrite (demuxPespacket_ext s _ (decoded p NewPesPacket)), Es, bind_Ret by done. }
      erewrite eff_bind_Ret; [reflexivity|]. unfold upd_o. cbn [set_pes Pes]. by rewrite Eg. }
    by rewrite (eff_bind_Ret _ _ _ _ _ Ei).
  - split; cbn; [by rewrite S1|by rewrite S2|done|done].
Qed.

Lemma whole_pack h w b i bs rest d v v' : item_bytes (EPack h) w → is_bytes b → r_at b (8 * i) bs → (i ≤ length b)%nat →
  drop i b = w ++ rest → shows d v → effect (EPack h) v = Some v' →
  ∃ d' bs', in_packet 442 None (d, bs) = ((d', bs'), Ret (None, false)) ∧ r_at b (8 * (i + length w)) bs' ∧ shows d' v'.
Proof.
  intros (Hh & Hw & Hbits) Hb Hr Hi Hd [S1 S2 S3 S4] [= <-]. cbn [item_wire item_ok] in *.
  set (t := default zero_pack (Header d)). assert (Ht : IsMpeg1 t = false) by (unfold t; destruct (Header d); done).
  destruct (runs_whole _ _ _ _ b i bs w rest (runs_pack h t Hh) Hb Hr Hi Hd Hbits) as (bs' & E & Hr').
  set (t' := mkPack _ _ _ _ _) in E. exists (set_mpeg1 false (set_header t' d)), bs'. split; [|split; [done|by split]].
  unfold in_packet, in_pack. cbn [Z.eqb Pos.eqb].
  assert (Ei : (ret ← decode Header zero_pack set_header pack_Decode;
                _ ← rec_upd (λ d, set_mpeg1 (match Header d with Some h => IsMpeg1 h | None => false end) d);
                mret ret) (d, bs) = ((set_mpeg1 false (set_header t' d), bs'), Ret None)).
  { rewrite (eff_bind_Ret _ _ _ _ _ (decode_Ret Header zero_pack set_header pack_Decode d bs _ _ E)).
    unfold t'. rewrite Ht. reflexivity. }
  by rewrite (eff_bind_Ret _ _ _ _ _ Ei).
Qed.

Lemma whole_system h w b i bs rest d v v' : item_bytes (ESystem h) w → is_bytes b → r_at b (8 * i) bs → (i ≤ length b)%nat →
  drop i b = w ++ rest → shows d v → effect (ESystem h) v = Some v' →
  ∃ d' bs', in_packet 443 None (d, bs) = ((d', bs'), Ret (None, false)) ∧ r_at b (8 * (i + length w)) bs' ∧ shows d' v'.
Proof.
  intros (Hh & Hw & Hbits) Hb Hr Hi Hd [S1 S2 S3 S4]. cbn [item_wire item_ok effect] in *.
  destruct (v_header v) eqn:Ev; [|done]. intros [= <-]. destruct (Header d) as [hd|] eqn:Eh; [|done].
  destruct (runs_whole _ _ _ _ b i bs w rest (runs_system h (default zero_system (System d)) Hh) Hb Hr Hi Hd Hbits) as (bs' & E & Hr').
  exists (set_system (mkSystem (6 + 3 * len (Streams h)) (RateBound h) (AudioBound h) (FixedFlag h) (CspsFlag h)
    (SystemAudioLockFlag h) (SystemVideoLockFlag h) (VideoBound h) (PacketRateRestrictionFlag h) (Streams h)) d), bs'.
  split; [|split; [done|split; cbn; try done; by rewrite Eh]].
  unfold in_packet. cbn [Z.eqb Pos.eqb]. erewrite eff_bind_Ret by reflexivity. rewrite Eh.
  by rewrite (eff_bind_Ret _ _ _ _ _ (decode_Ret System zero_system set_system system_Decode d bs _ _ E)).
Qed.

Lemma whole_psm m crc w b i bs rest d v v' : item_bytes (EPsm m crc) w → is_bytes b → r_at b (8 * i) bs → (i ≤ length b)%nat →
  drop i b = w ++ rest → shows d v → effect (EPsm m crc) v = Some v' →
  ∃ d' bs', in_packet 444 None (d, bs) = ((d', bs'), Ret (None, false)) ∧ r_at b (8 * (i + length w)) bs' ∧ shows d' v'.
Proof.
  intros ((Hm & Hc & Hc4) & Hw & Hbits) Hb Hr Hi Hd [S1 S2 S3 S4] [= <-]. cbn [item_wire item_ok effect] in *.
  assert (Hc32 : len (byte_bits crc) = 32) by (rewrite byte_bits_length; lia).
  destruct (runs_whole _ _ _ _ b i bs w rest (runs_psm m (default zero_psm (Psm d)) _ Hm Hc32) Hb Hr Hi Hd Hbits) as (bs' & E & Hr').
  set (t' := mkPsm _ _ _ _ _ _ _) in E.
  exists (set_streams (foldl map_stream (streamMap d) (StreamMap m)) (set_psm t' d)), bs'.
  split; [|split; [done|split; cbn; rewrite ?S1; done]]. unfold in_packet. cbn [Z.eqb Pos.eqb].
  assert (Ei : in_psm (d, bs) = ((set_streams (foldl map_stream (streamMap d) (StreamMap m)) (set_psm t' d), bs'), Ret None)).
  { unfold in_psm. by rewrite (eff_bind_Ret _ _ _ _ _ (decode_Ret Psm zero_psm set_psm psm_Decode d bs _ _ E)). }
  by rewrite (eff_bind_Ret _ _ _ _ _ Ei).
Qed.

Lemma whole_item e w b i bs rest d v v' : item_bytes e w → is_bytes b → r_at b (8 * i) bs → (i ≤ length b)%nat →
  drop i b = w ++ rest → shows d v → effect e v = Some v' →
  ∃ d' bs', in_packet (code_of e) None (d, bs) = ((d', bs'), Ret (None, false)) ∧
    r_at b (8 * (i + length w)) bs' ∧ shows d' v'.
Proof.
  destruct e; cbn [code_of]; [apply whole_pack|apply whole_system|apply whole_psm|apply whole_pes].
Qed.

(** ** A packet that is cut *)

(** Where a decoder stops for want of bytes: the record may have changed, the
    position has not. *)
Definition needs {T} (m : eff (T * BitStream) unit) (b : list Z) (i : nat) : Prop :=
  ∀ t bs, r_at b (8 * i) bs → ∃ t' bs', m (t, bs) = ((t', bs'), Fail ErrNeedMore) ∧ r_at b (8 * i) bs'.

Lemma needs_few {T} n (m : eff (T * BitStream) unit) b i : (i ≤ length b)%nat → len (drop i b) < n → needs (enough n m) b i.
Proof.
  intros Hi Hn t bs Hr. exists t, bs. split; [|done]. unfold enough. rewrite here_bind, (RemainBytes_whole b i bs Hr Hi).
  by rewrite (proj2 (Z.ltb_lt _ _)).
Qed.

Lemma needs_enough {T} n (m : eff (T * BitStream) unit) b i : (i ≤ length b)%nat → n ≤ len (drop i b) → needs m b i → needs (enough n m) b i.
Proof.
  intros Hi Hn Hm t bs Hr. unfold enough. rewrite here_bind, (RemainBytes_whole b i bs Hr Hi), (proj2 (Z.ltb_ge _ _)) by done.
  by apply Hm.
Qed.

(** Too few bytes at [j], and what was read from [i] is unread. *)
Lemma back_at {T} n k (m : eff (T * BitStream) unit) t b i j bs : r_at b (8 * j) bs → (i ≤ j ≤ length b)%nat →
  len (drop j b) < n → k = 8 * (Z.of_nat j - Z.of_nat i) →
  ∃ bs', enough_or_back n k m (t, bs) = ((t, bs'), Fail ErrNeedMore) ∧ r_at b (8 * i) bs'.
Proof.
  intros Hr Hj Hn Hk. pose proof (r_at_whole _ _ _ Hr) as [_ H0].
  destruct (UnRead_at b (8 * j) k (8 * i) bs Hr) as (bs' & E & Hr' & _); [lia|by right; left|lia|].
  exists bs'. split; [|done]. unfold enough_or_back.
  rewrite here_bind, (RemainBytes_whole b j bs Hr), (proj2 (Z.ltb_lt _ _)), (on_bind _ _ _ _ _ _ E) by lia. done.
Qed.

(** The first bits of a cut packet are those of the packet. *)
Lemma prefix_bits w r z l l' : w = r ++ z → byte_bits w = l ++ l' → len l ≤ 8 * len r → ∃ x, byte_bits r = l ++ x.
Proof.
  intros -> E Hl. rewrite byte_bits_app in E. exists (drop (length l) (byte_bits r)).
  rewrite <- (take_drop (length l) (byte_bits r)) at 1. f_equal.
  apply (f_equal (take (length l))) in E. rewrite take_app_length, take_app_le in E; [done|].
  rewrite byte_bits_length. lia.
Qed.

Lemma cut_bits b i w r z l l' : (i ≤ length b)%nat → drop i b = r → w = r ++ z → byte_bits w = l ++ l' → len l ≤ 8 * len r →
  ∃ x, ahead b (8 * i) (l ++ x).
Proof.
  intros Hi Hd Hw Hl Hle. destruct (prefix_bits w r z l l' Hw Hl Hle) as [x Hx]. exists x.
  rewrite <- Hx. by apply ahead_bytes.
Qed.

Lemma needs_system h w r z b i : item_bytes (ESystem h) w → is_bytes b → (i ≤ length b)%nat → drop i b = r →
  w = r ++ z → z ≠ [] → needs system_Decode b i.
Proof.
  intros (Hh & Hw & Hbits) Hb Hi Hd Hwr Hz. cbn [item_wire] in Hbits. pose proof (system_body_length h) as Hl.
  pose proof (yo_count h Hh) as Hc. set (n := 6 + 3 * len (Streams h)) in *.
  assert (Hlr : len r < 6 + n).
  { apply (f_equal length) in Hbits. rewrite byte_bits_length, !length_app, !num_bits_length in Hbits.
    apply (f_equal length) in Hwr. rewrite length_app in Hwr. destruct z; [done|]. cbn [length] in Hwr. lia. }
  unfold system_Decode. destruct (decide (len r < 12)); [apply needs_few; [done|by rewrite Hd]|].
  apply needs_enough; [done|rewrite Hd; lia|]. intros t bs Hr. rewrite app_assoc in Hbits.
  destruct (cut_bits b i w r z _ _ Hi Hd Hwr Hbits) as [x Hx]; [rewrite length_app, !num_bits_length; lia|].
  rewrite <- app_assoc in Hx.
  destruct (runs_on (Uint32 32) t _ _ (reads_Uint32 32 443 ltac:(lia) ltac:(lia)) b _ bs _ Hb Hr Hx) as (bs1 & E1 & Hr1 & _).
  rewrite app_assoc in Hx. apply ahead_past in Hx. rewrite num_bits_length in *.
  destruct (runs_on (Uint16 16) t _ _ (reads_Uint16 16 n ltac:(lia) ltac:(lia)) b _ bs1 _ Hb Hr1 Hx) as (bs2 & E2 & Hr2 & _).
  rewrite num_bits_length in Hr2. replace (8 * i + Z.to_nat 32 + Z.to_nat 16)%nat with (8 * (i + 6))%nat in Hr2 by lia.
  pose proof (f_equal length Hd) as Hdl. rewrite length_drop in Hdl.
  rewrite (eff_bind_Ret _ _ _ _ _ E1). cbn [Z.eqb Pos.eqb negb]. rewrite (eff_bind_Ret _ _ _ _ _ E2).
  erewrite eff_bind_Ret by reflexivity.
  edestruct (back_at (T := SystemHeader) n (6 * 8)) as (bs3 & E3 & Hr3); [exact Hr2| | | |].
  4: { eexists _, bs3. split; [exact E3|exact Hr3]. }
  all: rewrite ?length_drop; lia.
Qed.

Lemma needs_psm m crc w r z b i : item_bytes (EPsm m crc) w → is_bytes b → (i ≤ length b)%nat → drop i b = r →
  w = r ++ z → z ≠ [] → needs psm_Decode b i.
Proof.
  intros ((Hm & Hcb & Hc4) & Hw & Hbits) Hb Hi Hd Hwr Hz. cbn [item_wire] in Hbits. pose proof (map_body_length m) as Hl.
  pose proof (mo_count m Hm) as Hc. unfold psm_wire in Hbits. set (n := 10 + 4 * len (StreamMap m)) in *.
  assert (Hlr : len r < 6 + n).
  { apply (f_equal length) in Hbits. rewrite byte_bits_length, !length_app, !num_bits_length, byte_bits_length in Hbits.
    apply (f_equal length) in Hwr. rewrite length_app in Hwr. destruct z; [done|]. cbn [length] in Hwr. lia. }
  unfold psm_Decode. destruct (decide (len r < 16)); [apply needs_few; [done|by rewrite Hd]|].
  apply needs_enough; [done|rewrite Hd; lia|]. intros t bs Hr. rewrite 2 app_assoc in Hbits.
  destruct (cut_bits b i w r z _ _ Hi Hd Hwr Hbits) as [x Hx]; [rewrite !length_app, !num_bits_length; lia|].
  rewrite <- !app_assoc in Hx.
  destruct (runs_on (Uint32 24) t _ _ (reads_Uint32 24 1 ltac:(lia) ltac:(lia)) b _ bs _ Hb Hr Hx) as (bs1 & E1 & Hr1 & _).
  rewrite app_assoc in Hx. apply ahead_past in Hx. rewrite num_bits_length in *. rewrite (eff_bind_Ret _ _ _ _ _ E1).
  destruct (runs_on (Uint8 8) t _ _ (reads_Uint8 8 188 ltac:(lia) ltac:(lia)) b _ bs1 _ Hb Hr1 Hx) as (bs2 & E2 & Hr2 & _).
  rewrite app_assoc in Hx. apply ahead_past in Hx. rewrite num_bits_length in *. cbn [Z.eqb Pos.eqb negb].
  rewrite (eff_bind_Ret _ _ _ _ _ E2). erewrite eff_bind_Ret by reflexivity.
  destruct (runs_on (Uint16 16) (mkPsm 188 (ProgramStreamMapLength t) (CurrentNextIndicator t) (ProgramStreamMapVersion t)
     (ProgramStreamInfoLength t) (ElementaryStreamMapLength t) (StreamMap t)) _ _
     (reads_Uint16 16 n ltac:(lia) ltac:(lia)) b _ bs2 _ Hb Hr2 Hx) as (bs3 & E3 & Hr3 & _).
  cbn [Z.eqb Pos.eqb negb]. rewrite (eff_bind_Ret _ _ _ _ _ E3). erewrite eff_bind_Ret by reflexivity.
  rewrite num_bits_length in Hr3. replace (8 * i + Z.to_nat 24 + Z.to_nat 8 + Z.to_nat 16)%nat with (8 * (i + 6))%nat in Hr3 by lia.
  pose proof (f_equal length Hd) as Hdl. rewrite length_drop in Hdl.
  edestruct (back_at (T := ProgramStreamMap) n (6 * 8)) as (bs4 & E4 & Hr4); [exact Hr3| | | |].
  4: { eexists _, bs4. split; [exact E4|exact Hr4]. }
  all: rewrite ?length_drop; lia.
Qed.

(** The payload is not all there. *)
Lemma pes_short_payload p t b i bs r n : pes_ok p → is_bytes b → r_at b (8 * i) bs → (i ≤ length b)%nat → drop i b = r →
  n = times_length (PtsDtsFlags (pes_head p)) → 9 + n ≤ len r < 9 + n + len (PesPayload p) →
  (∃ x, ahead b (8 * i) (head_wire (pes_head p) ++ times_wire (PtsDtsFlags (pes_head p)) (Pts p) (Dts p) ++ x)) →
  ∃ t' bs', pes_Decode (t, bs) = ((t', bs'), Fail ErrNeedMore) ∧ r_at b (8 * i) bs'.
Proof.
  intros Hp Hb Hr Hi Hd Hn Hlr [x Hx]. pose proof (times_length_range (PtsDtsFlags (pes_head p))) as Hnr.
  destruct (pes_header_at p t b i bs _ Hp Hb Hr Hx) as (bs1 & bs2 & bs3 & E1 & Hen & E2 & E3 & Hdist & Hr3).
  rewrite <- Hn in *. pose proof (f_equal length Hd) as Hdl. rewrite length_drop in Hdl.
  destruct (SkipBits_at b _ 0 (8 * (i + 9 + Z.to_nat n)) bs3 Hr3) as (bs4 & E4 & Hr4 & _); [lia|lia|].
  destruct (UnRead_at b _ ((9 + n) * 8) (8 * i) bs4 Hr4) as (bs5 & E5 & Hr5 & _);
    [lia|right; left; by apply (r_at_whole b (i + 9 + Z.to_nat n))|lia|].
  destruct (get_nothing p (put_times p (set_head (pes_head p) t)) bs3 Hp) as [Ee Eo].
  pose proof (eo_hlen p Hp) as Hh. pose proof (eo_len p Hp) as Hpn. pose proof (eo_max p Hp). rewrite <- Hn in Hh. rewrite Hh in Hpn.
  eexists (set_payload _ (put_times p (set_head (pes_head p) t))), bs5. split; [|done].
  unfold pes_Decode, enough, enough_or_back.
  rewrite here_bind, (RemainBytes_whole b i bs Hr Hi), (proj2 (Z.ltb_ge _ _)) by (rewrite Hd; lia).
  rewrite (eff_bind_Ret _ _ _ _ _ E1). erewrite eff_bind_Ret by reflexivity. rewrite here_bind, Hh, Hen.
  rewrite (on_bind _ _ _ _ _ _ E2), (eff_bind_Ret _ _ _ _ _ E3), (eff_bind_Ret _ _ _ _ _ Ee), (eff_bind_Ret _ _ _ _ _ Eo).
  rewrite here_bind, Hdist, (on_bind _ _ _ _ _ _ E4), here_bind, Hpn.
  rewrite (u16_small (3 + _ + _ - 3)) by lia. rewrite u16_small by lia.
  assert (Hl4 : len (drop (i + 9 + Z.to_nat n) b) = len r - 9 - n) by (rewrite length_drop; lia).
  rewrite (RemainBytes_whole b (i + 9 + Z.to_nat n) bs4 Hr4), Hl4, (proj2 (Z.ltb_lt _ _)) by lia.
  rewrite (eff_bind_Ret _ _ _ _ _ (take_rest_at _ _ _ (RemainData_at b _ bs4 Hr4 ltac:(lia)))).
  by rewrite (on_bind _ _ _ _ _ _ E5).
Qed.

Lemma needs_pes p w r z b i : item_bytes (EPes p) w → is_bytes b → (i ≤ length b)%nat → drop i b = r →
  w = r ++ z → z ≠ [] → needs pes_Decode b i.
Proof.
  intros ((Hp & _) & Hw & Hbits) Hb Hi Hd Hwr Hz. cbn [item_wire] in Hbits. pose proof (pes_wire_length p) as Hl.
  pose proof (times_length_range (PtsDtsFlags (pes_head p))) as Hn. pose proof (times_wire_length (PtsDtsFlags (pes_head p)) (Pts p) (Dts p)) as Htl.
  set (n := times_length _) in *.
  assert (Hlr : len r < 9 + n + len (PesPayload p)).
  { apply (f_equal length) in Hbits. rewrite byte_bits_length in Hbits.
    apply (f_equal length) in Hwr. rewrite length_app in Hwr. destruct z; [done|]. cbn [length] in Hwr. lia. }
  unfold pes_wire in Hbits. destruct (decide (len r < 9)); [apply needs_few; [done|by rewrite Hd]|].
  destruct (decide (len r < 9 + n)).
  - apply needs_enough; [done|rewrite Hd; lia|]. intros t bs Hr.
    destruct (cut_bits b i w r z _ _ Hi Hd Hwr Hbits) as [x Hx]; [rewrite head_wire_length; lia|].
    destruct (runs_on get_head t _ _ (reads_head p Hp) b _ bs _ Hb Hr Hx) as (bs1 & E1 & Hr1 & _).
    rewrite head_wire_length in Hr1. replace (8 * i + 72)%nat with (8 * (i + 9))%nat in Hr1 by lia.
    rewrite (eff_bind_Ret _ _ _ _ _ E1). erewrite eff_bind_Ret by reflexivity.
    rewrite (eo_hlen p Hp). fold n. pose proof (f_equal length Hd) as Hdl. rewrite length_drop in Hdl.
    edestruct (back_at (T := PesPacket) n (9 * 8)) as (bs2 & E2 & Hr2); [exact Hr1| | | |].
    4: { eexists _, bs2. split; [exact E2|exact Hr2]. }
    all: rewrite ?length_drop; lia.
  - intros t bs Hr. apply (pes_short_payload p t b i bs r n); try done; [lia|]. rewrite app_assoc in Hbits.
    destruct (cut_bits b i w r z _ _ Hi Hd Hwr Hbits) as [x Hx]; [rewrite length_app, head_wire_length; lia|].
    rewrite <- app_assoc in Hx. by exists x.
Qed.

Lemma decode_needs {R} get zero set (m : eff (R * BitStream) unit) d bs b i : needs m b i → r_at b (8 * i) bs →
  ∃ t bs', decode get zero set m (d, bs) = ((set t d, bs'), Ret (Some ErrNeedMore)) ∧ r_at b (8 * i) bs'.
Proof.
  intros Hm Hr. destruct (Hm (default zero (get d)) bs Hr) as (t & bs' & E & Hr'). exists t, bs'. split; [by apply decode_need|done].
Qed.

(** A pack header may only be cut before the fifth byte. *)
Definition cut_allowed (e : item) (n : Z) : Prop := match e with EPack _ => n ≤ 4 | _ => True end.

Lemma cut_item e w r z b i bs d v v' : item_bytes e w → is_bytes b → r_at b (8 * i) bs → (i ≤ length b)%nat →
  drop i b = r → w = r ++ z → z ≠ [] → cut_allowed e (len r) → shows d v → effect e v = Some v' →
  ∃ d' bs', in_packet (code_of e) None (d, bs) = ((d', bs'), Ret (Some ErrNeedMore, false)) ∧
    r_at b (8 * i) bs' ∧ shows d' v.
Proof.
  intros He Hb Hr Hi Hd Hw Hz Hc [S1 S2 S3 S4] Hv. destruct e as [h|h|m crc|p]; cbn [code_of cut_allowed] in *.
  - assert (Hn : needs pack_Decode b i) by (apply needs_few; [done|rewrite Hd; lia]).
    destruct (Hn (default zero_pack (Header d)) bs Hr) as (t & bs' & E & Hr').
    assert (Ht : IsMpeg1 t = false).
    { unfold pack_Decode, enough in E. rewrite here_bind, (RemainBytes_whole b i bs Hr Hi), (proj2 (Z.ltb_lt _ _)) in E by (rewrite Hd; lia).
      injection E as <- _. by destruct (Header d). }
    exists (set_mpeg1 false (set_header t d)), bs'. split; [|split; [done|by split]].
    unfold in_packet, in_pack. cbn [Z.eqb Pos.eqb].
    assert (Ei : (ret ← decode Header zero_pack set_header pack_Decode;
                  _ ← rec_upd (λ d, set_mpeg1 (match Header d with Some h => IsMpeg1 h | None => false end) d);
                  mret ret) (d, bs) = ((set_mpeg1 false (set_header t d), bs'), Ret (Some ErrNeedMore))).
    { rewrite (eff_bind_Ret _ _ _ _ _ (decode_need Header zero_pack set_header pack_Decode d bs _ _ E)). rewrite <- Ht. done. }
    by rewrite (eff_bind_Ret _ _ _ _ _ Ei).
  - cbn [effect] in Hv. destruct (v_header v) eqn:Ev; [|done]. destruct (Header d) as [hd|] eqn:Eh; [|done].
    destruct (decode_needs System zero_system set_system _ d bs b i (needs_system h w r z b i He Hb Hi Hd Hw Hz) Hr) as (t & bs' & E & Hr').
    exists (set_system t d), bs'. split; [|split; [done|split; cbn; try done; by rewrite Eh]].
    unfold in_packet. cbn [Z.eqb Pos.eqb]. erewrite eff_bind_Ret by reflexivity. rewrite Eh. by rewrite (eff_bind_Ret _ _ _ _ _ E).
  - destruct (decode_needs Psm zero_psm set_psm _ d bs b i (needs_psm m crc w r z b i He Hb Hi Hd Hw Hz) Hr) as (t & bs' & E & Hr').
    exists (set_psm t d), bs'. split; [|split; [done|by split]].
    unfold in_packet, in_psm. cbn [Z.eqb Pos.eqb].
    erewrite eff_bind_Ret; [reflexivity|]. by rewrite (eff_bind_Ret _ _ _ _ _ E).
  - pose proof He as ((_ & Hsid & _) & _).
    destruct (decode_needs Pes NewPesPacket set_pes _ d bs b i (needs_pes p w r z b i He Hb Hi Hd Hw Hz) Hr) as (t & bs' & E & Hr').
    exists (set_pes t d), bs'. rewrite in_packet_pes by done. split; [|split; [done|by split]].
    erewrite eff_bind_Ret; [reflexivity|]. unfold in_pes. erewrite eff_bind_Ret by reflexivity. rewrite S3.
    by rewrite (eff_bind_Ret _ _ _ _ _ E).
Qed.

(** ** The loop *)

Lemma item_length e w : item_bytes e w → (4 ≤ length w)%nat.
Proof.
  intros (He & _ & Hb). destruct (item_code e He) as [l El]. rewrite El in Hb. apply (f_equal length) in Hb.
  rewrite byte_bits_length, length_app, num_bits_length in Hb. lia.
Qed.

(** What is left behind the last whole packet. *)
Definition tail_ok (r : list Z) (e : option item) (v : view) : Prop :=
  r = [] ∨ ∃ e' w z v', e = Some e' ∧ item_bytes e' w ∧ w = r ++ z ∧ r ≠ [] ∧ z ≠ [] ∧ cut_allowed e' (len r) ∧ effect e' v = Some v'.

Definition tail_error (r : list Z) : option goerr := match r with [] => None | _ => Some ErrNeedMore end.

Lemma loop_tail fuel b i bs d v r e : is_bytes b → r_at b (8 * i) bs → (i ≤ length b)%nat → drop i b = r → shows d v →
  tail_ok r e v → ∃ d' bs', in_loop (S (S fuel)) None (d, bs) = ((d', bs'), Ret (tail_error r, false)) ∧ shows d' v ∧
    (r ≠ [] → cache d' = r).
Proof.
  intros Hb Hr Hi Hd Hs [->|(e' & w & z & v' & -> & He & Hw & Hr0 & Hz & Hc & Hv)].
  - assert (i = length b) as -> by (apply (f_equal length) in Hd; rewrite length_drop in Hd; cbn [length] in Hd; lia).
    exists d, bs. by rewrite (loop_end _ _ b).
  - assert (Hlt : (i < length b)%nat).
    { destruct r; [done|]. apply (f_equal length) in Hd. rewrite length_drop in Hd. cbn [length] in Hd. lia. }
    assert (tail_error r = Some ErrNeedMore) as -> by by destruct r.
    destruct (decide (len r < 4)).
    { eexists _, bs. split; [apply (loop_short _ b i); [done|done|by rewrite Hd]|]. rewrite Hd. split; [|done].
      destruct Hs. by split. }
    destruct (next_code e' w b i bs r He Hb Hr Hi Hd) as (bs1 & E1 & Hr1).
    { rewrite Hw, take_app_le by lia. done. } { rewrite Hw, length_app. lia. }
    destruct (cut_item e' w r z b i bs1 d v v' He Hb Hr1 Hi Hd Hw Hz Hc Hs Hv) as (d2 & bs2 & E2 & Hr2 & Hs2).
    eexists _, bs2. split.
    + rewrite (loop_step (S fuel) b i bs bs1 bs2 d d2 (code_of e') (Some ErrNeedMore)) by (done || (rewrite Hd; lia)).
      by apply loop_save.
    + rewrite Hd. split; [|done]. destruct Hs2. by split.
Qed.

Lemma loop_items es ws : Forall2 item_bytes es ws → ∀ fuel b i bs d v v' r e, is_bytes b → r_at b (8 * i) bs →
  (i ≤ length b)%nat → drop i b = mjoin ws ++ r → effects es v = Some v' → shows d v → tail_ok r e v' →
  (length es + 2 ≤ fuel)%nat →
  ∃ d' bs', in_loop fuel None (d, bs) = ((d', bs'), Ret (tail_error r, false)) ∧ shows d' v' ∧ (r ≠ [] → cache d' = r).
Proof.
  induction 1 as [|e0 w es ws He Hes IH]; intros fuel b i bs d v v' r e Hb Hr Hi Hd Hv Hs Ht Hf.
  - injection Hv as <-. destruct fuel as [|[|fuel]]; cbn [length] in Hf; try lia. by eapply loop_tail.
  - cbn [effects] in Hv. apply bind_Some in Hv as (v1 & Hv1 & Hv). cbn [length] in Hf. destruct fuel as [|fuel]; [lia|].
    change (mjoin (w :: ws)) with (w ++ mjoin ws) in Hd. rewrite <- app_assoc in Hd.
    pose proof (item_length e0 w He) as Hwl. pose proof (f_equal length Hd) as Hdl. rewrite length_drop, length_app in Hdl.
    destruct (next_code e0 w b i bs _ He Hb Hr Hi Hd) as (bs1 & E1 & Hr1); [by rewrite take_app_le by lia|done|].
    destruct (whole_item e0 w b i bs1 _ d v v1 He Hb Hr1 Hi Hd Hs Hv1) as (d2 & bs2 & E2 & Hr2 & Hs2).
    rewrite (loop_step fuel b i bs bs1 bs2 d d2 (code_of e0) None) by (done || (rewrite ?length_drop; lia)).
    apply (IH fuel b (i + length w)%nat bs2 d2 v1 v' r e); try done; [lia| |lia].
    by rewrite <- drop_drop, Hd, drop_app_length.
Qed.

(** ** Input *)

Lemma items_bytes es ws : Forall2 item_bytes es ws → is_bytes (mjoin ws) ∧ (4 * length es ≤ length (mjoin ws))%nat.
Proof.
  induction 1 as [|e w es ws He _ [IH1 IH2]]; [split; [constructor|cbn; lia]|].
  change (mjoin (w :: ws)) with (w ++ mjoin ws). pose proof (item_length e w He) as Hw.
  split; [apply is_bytes_app; split; [by destruct He as (_ & H & _)|done]|rewrite length_app; cbn [length]; lia].
Qed.

(** The bytes kept and the new ones are whole packets and the start of one. *)
Lemma Input_items es ws data d v v' r e : Forall2 item_bytes es ws → is_bytes (cache d ++ data) →
  cache d ++ data = mjoin ws ++ r → effects es v = Some v' → shows d v → tail_ok r e v' →
  ∃ d', Input data d = (d', Ret (tail_error r)) ∧ shows d' v' ∧ cache d' = r.
Proof.
  intros Hes Hb Hd Hv Hs Ht. unfold Input.
  assert (Eb : in_buffer d data = cache d ++ data).
  { unfold in_buffer. rewrite Z.gtb_ltb. destruct (Z.ltb_spec 0 (len (cache d))); [done|]. by destruct (cache d). }
  rewrite Eb. set (b := cache d ++ data) in *. set (d0 := if len (cache d) >? 0 then set_cache b d else d).
  assert (Hs0 : shows d0 v) by (unfold d0; case_match; [destruct Hs; by split|done]).
  destruct (items_bytes es ws Hes) as [_ Hn].
  assert (Hf : (length es + 2 ≤ Input_fuel b)%nat) by (unfold Input_fuel; rewrite Hd, length_app; lia).
  destruct (loop_items es ws Hes (Input_fuel b) b 0 (NewBitStream b) d0 v v' r e Hb (r_at_new b) ltac:(lia) Hd Hv Hs0 Ht Hf)
    as (d1 & bs1 & E & Hs1 & Hc1).
  cbv zeta. rewrite E. cbn [negb andb]. destruct r as [|x r]; cbn [tail_error] in *.
  - rewrite bool_decide_true by done. cbn [andb]. eexists. split; [reflexivity|].
    rewrite Z.gtb_ltb. destruct (Z.ltb_spec 0 (len (cache d1))).
    + split; [destruct Hs1; by split|done].
    + split; [done|]. by destruct (cache d1).
  - exists d1. split; [done|]. split; [done|]. by apply Hc1.
Qed.

Fixpoint inputs (chunks : list (list Z)) : eff PsDemuxer (list (option goerr)) :=
  match chunks with
  | [] => mret []
  | c :: chunks => r ← Input c; rs ← inputs chunks; mret (r :: rs)
  end.

(** A prefix of the stream is some whole packets and the start of the next. *)
Lemma wires_split (ws : list (list Z)) : ∀ q t, q ++ t = mjoin ws →
  ∃ k r, q = mjoin (take k ws) ++ r ∧ (k ≤ length ws)%nat ∧ r ++ t = mjoin (drop k ws) ∧
    (r = [] ∨ ∃ w z, ws !! k = Some w ∧ w = r ++ z ∧ z ≠ []).
Proof.
  induction ws as [|w ws IH]; intros q t E.
  - apply app_nil in E as [-> ->]. exists 0%nat, []. split; [done|]. split; [done|]. split; [done|by left].
  - change (mjoin (w :: ws)) with (w ++ mjoin ws) in E. destruct (decide (length w ≤ length q)%nat).
    + assert (Hq : q = w ++ drop (length w) q).
      { rewrite <- (take_drop (length w) q) at 1. f_equal. apply (f_equal (take (length w))) in E.
        by rewrite take_app_le, take_app_length in E by done. }
      rewrite Hq, <- app_assoc in E. apply app_inv_head in E.
      destruct (IH _ _ E) as (k & r & Hr & Hk & Ht & Hw). exists (S k), r. cbn [take drop length lookup].
      change (mjoin (w :: take k ws)) with (w ++ mjoin (take k ws)). rewrite Hq, Hr, app_assoc. split; [done|].
      split; [lia|]. by split.
    + exists 0%nat, q. split; [done|]. split; [cbn; lia|]. split; [done|]. right.
      exists w, (drop (length q) w). split; [done|]. split.
      * rewrite <- (take_drop (length q) w) at 1. f_equal. apply (f_equal (take (length q))) in E.
        by rewrite take_app_length, take_app_le in E by lia.
      * intros H. apply (f_equal length) in H. rewrite length_drop in H. cbn [length] in H. lia.
Qed.

(** No cut at [n] is inside a pack header behind its fourth byte. *)
Definition cut_ok (es : list item) (ws : list (list Z)) (n : Z) : Prop :=
  ∀ k h w, es !! k = Some (EPack h) → ws !! k = Some w →
  n ≤ len (mjoin (take k ws)) + 4 ∨ len (mjoin (take k ws)) + len w ≤ n.

Lemma effects_app a b v : effects (a ++ b) v = effects a v ≫= effects b.
Proof. revert v. induction a as [|e a IH]; intros v; cbn; [done|]. destruct (effect e v); cbn; [apply IH|done]. Qed.

Section cuts.
Context (es : list item) (ws : list (list Z)) (v0 vf : view).
Context (Hes : Forall2 item_bytes es ws) (Hvf : effects es v0 = Some vf).

(** What the demuxer holds once it was given the bytes [done]. *)
Definition held (d : PsDemuxer) (bytes : list Z) : Prop :=
  ∃ k r v, bytes = mjoin (take k ws) ++ r ∧ (k ≤ length ws)%nat ∧ effects (take k es) v0 = Some v ∧ shows d v ∧ cache d = r ∧
    (r = [] ∨ ∃ w z, ws !! k = Some w ∧ w = r ++ z ∧ z ≠ []).

Lemma effects_prefix k : ∃ v, effects (take k es) v0 = Some v ∧ effects (drop k es) v = Some vf.
Proof. rewrite <- (take_drop k es), effects_app in Hvf. by apply bind_Some in Hvf. Qed.

Lemma effects_next k j v : effects (take k es) v0 = Some v →
  ∃ v', effects (take j (drop k es)) v = Some v' ∧ effects (take (k + j) es) v0 = Some v'.
Proof.
  intros Hv. destruct (effects_prefix k) as (v1 & E1 & E2). rewrite Hv in E1. injection E1 as <-.
  rewrite <- (take_drop j (drop k es)), effects_app in E2. apply bind_Some in E2 as (v' & E & _). exists v'. split; [done|].
  rewrite <- take_take_drop, effects_app, Hv. done.
Qed.

Lemma tail_held j v bytes r : effects (take j es) v0 = Some v → bytes = mjoin (take j ws) ++ r → cut_ok es ws (len bytes) →
  (r = [] ∨ ∃ w z, ws !! j = Some w ∧ w = r ++ z ∧ z ≠ []) → tail_ok r (es !! j) v.
Proof.
  intros Hv Hb Hc [->|(w & z & Hw & -> & Hz)]; [by left|]. destruct r as [|x r]; [by left|]. right.
  destruct (Forall2_lookup_r _ _ _ _ _ Hes Hw) as (e & He & Hew). rewrite He.
  destruct (effects_prefix j) as (v1 & E1 & E2). rewrite Hv in E1. injection E1 as <-.
  rewrite (drop_S es e j He) in E2. cbn [effects] in E2. apply bind_Some in E2 as (v' & Hv' & _).
  exists e, ((x :: r) ++ z), z, v'. do 5 (split; [done|]). split; [|done]. destruct e; try done. cbn [cut_allowed].
  destruct (Hc j h _ He Hw) as [H|H]; rewrite Hb, length_app in H; [lia|]. rewrite length_app in H. destruct z; [done|]. cbn [length] in H. lia.
Qed.

Lemma held_Input d bytes c t : held d bytes → (bytes ++ c) ++ t = mjoin ws → cut_ok es ws (len (bytes ++ c)) →
  ∃ d' r, Input c d = (d', Ret r) ∧ (r = None ∨ r = Some ErrNeedMore) ∧ held d' (bytes ++ c).
Proof.
  intros (k & r & v & Hb & Hk & Hv & Hs & Hc & _) Ht Hcut.
  assert (E : (r ++ c) ++ t = mjoin (drop k ws)).
  { rewrite <- (take_drop k ws), join_app, Hb, <- !app_assoc in Ht. apply app_inv_head in Ht. by rewrite <- app_assoc. }
  destruct (wires_split _ _ _ E) as (j & r' & Hq & Hj & _ & Hr'). rewrite length_drop in Hj.
  destruct (effects_next k j v Hv) as (v' & Hv1 & Hv2). rewrite lookup_drop in Hr'.
  assert (Hbc : bytes ++ c = mjoin (take (k + j) ws) ++ r').
  { by rewrite Hb, <- app_assoc, Hq, app_assoc, <- join_app, take_take_drop. }
  assert (Hby : is_bytes (mjoin ws)) by (by destruct (items_bytes es ws Hes)).
  destruct (Input_items (take j (drop k es)) (take j (drop k ws)) c d v v' r' (es !! (k + j)%nat)) as (d' & Ei & Hs' & Hc').
  - by apply Forall2_take, Forall2_drop.
  - rewrite <- (take_drop k ws), join_app in Hby. apply is_bytes_app in Hby as [_ Hby]. rewrite <- E in Hby.
    apply is_bytes_app in Hby as [Hby _]. by rewrite Hc.
  - by rewrite Hc.
  - done.
  - done.
  - by eapply tail_held.
  - exists d', (tail_error r'). split; [done|]. split; [destruct r'; auto|].
    exists (k + j)%nat, r', v'. do 5 (split; [done || lia|]). done.
Qed.

Lemma held_inputs chunks : ∀ d bytes, held d bytes → bytes ++ mjoin chunks = mjoin ws →
  (∀ j, cut_ok es ws (len (bytes ++ mjoin (take j chunks)))) →
  ∃ d' rs, inputs chunks d = (d', Ret rs) ∧ Forall (λ r, r = None ∨ r = Some ErrNeedMore) rs ∧ held d' (mjoin ws).
Proof.
  induction chunks as [|c chunks IH]; intros d bytes Hd Hb Hc.
  - cbn in Hb. rewrite app_nil_r in Hb. subst. by exists d, [].
  - change (mjoin (c :: chunks)) with (c ++ mjoin chunks) in Hb. rewrite app_assoc in Hb.
    destruct (held_Input d bytes c _ Hd Hb) as (d1 & r & E & Hr & Hd1).
    { pose proof (Hc 1%nat) as H. cbn in H. by rewrite app_nil_r in H. }
    destruct (IH d1 (bytes ++ c) Hd1 Hb) as (d' & rs & Es & Hrs & Hd').
    { intros j. specialize (Hc (S j)). rewrite <- app_assoc. apply Hc. }
    exists d', (r :: rs). cbn [inputs]. rewrite (eff_bind_Ret _ _ _ _ _ E), (eff_bind_Ret _ _ _ _ _ Es).
    split; [done|]. split; [by constructor|done].
Qed.
End cuts.

Lemma input_cuts es ws chunks v :
  Forall2 item_bytes es ws → effects es (mkView false ∅ []) = Some v → mjoin chunks = mjoin ws →
  (∀ j, cut_ok es ws (len (mjoin (take j chunks)))) →
  ∃ d rs, inputs chunks NewPsDemuxer = (d, Ret rs) ∧ Forall (λ r, r = None ∨ r = Some ErrNeedMore) rs ∧
    onFrame d = v_frames v ∧ streamMap d = v_streams v ∧ cache d = [].
Proof.
  intros Hes Hv Hch Hc.
  assert (Hd : held es ws (mkView false ∅ []) NewPsDemuxer []).
  { exists 0%nat, [], (mkView false ∅ []). split; [done|]. split; [lia|]. do 2 (split; [done || apply shows_new|]). split; [done|by left]. }
  destruct (held_inputs es ws _ v Hes Hv chunks _ [] Hd Hch Hc) as (d & rs & E & Hrs & (k & r & v' & Hb & Hk & Hv' & [S1 S2 _ _] & Hcd & Hr)).
  exists d, rs. split; [done|]. split; [done|].
  assert (Er : r = mjoin (drop k ws)) by (apply (app_inv_head (mjoin (take k ws))); by rewrite <- Hb, <- join_app, take_drop).
  assert (r = []) as ->.
  { destruct Hr as [->|(w & z & Hw & Ewz & Hz)]; [done|]. rewrite (drop_S ws w k Hw) in Er.
    change (mjoin (w :: drop (S k) ws)) with (w ++ mjoin (drop (S k) ws)) in Er.
    apply (f_equal length) in Er. rewrite Ewz, !length_app in Er. destruct z; [done|cbn [length] in Er; lia]. }
  assert (Hk' : (length ws ≤ k)%nat).
  { destruct (items_bytes _ _ (Forall2_drop _ es ws k Hes)) as [_ H]. rewrite <- Er in H. cbn [length] in H.
    rewrite length_drop in H. apply Forall2_length in Hes. lia. }
  rewrite take_ge in Hv' by (apply Forall2_length in Hes; lia). rewrite Hv in Hv'. injection Hv' as <-. done.
Qed.

(** C19: however the bytes of a sequence of packets are cut into inputs, but not
    inside a pack header, the demuxer gives out the frames of the packets in
    order, gathers the same streams, and keeps nothing at the end; an input
    that ends inside a packet only asks for more.  The packets ([item_ok]) are the
    headers, stream maps and PES packets that lal itself writes: MPEG-2 pack and
    system headers, maps without descriptors, PES packets of audio and video
    streams announced before, of a given length, with a presentation time and no
    optional fields but the times.  End codes, private streams and packets of
    unbounded length are not among them ([ps_end_code_hangs], [ps_unbounded_waits]). *)
Theorem ps_input_cuts es ws chunks v :
  Forall2 item_bytes es ws → effects es (mkView false ∅ []) = Some v → mjoin chunks = mjoin ws →
  (∀ j, cut_ok es ws (len (mjoin (take j chunks)))) →
  ∃ d rs, inputs chunks NewPsDemuxer = (d, Ret rs) ∧ Forall (λ r, r = None ∨ r = Some ErrNeedMore) rs ∧
    onFrame d = v_frames v ∧ streamMap d = v_streams v ∧ cache d = [].
Proof. apply input_cuts. Qed.

(** A stream of a pack header, a map with one audio stream and two frames, cut
    in the start code, in the map and in the second frame. *)
Definition bytes_of (l : list bool) : list Z := pack_bits (length l / 8) l.
Definition cut_items : list item :=
  [EPack (mkPack false 900 0 6106 0); EPsm (mkPsm 0 0 1 2 0 0 [mkElem 144 192 0]) [1; 2; 3; 4];
   EPes (mkPes (mkHead 192 16 0 0 0 0 0 3 0 0 0 0 0 0 10) 3600 3600 0 0 0 0 0 0 0 [7; 8; 9]);
   EPes (mkPes (mkHead 192 15 0 0 0 0 0 3 0 0 0 0 0 0 10) 7200 7200 0 0 0 0 0 0 0 [5; 6])].
Definition cut_wires : list (list Z) := (bytes_of ∘ item_wire) <$> cut_items.
Definition cut_chunks : list (list Z) :=
  let b := mjoin cut_wires in [take 2 b; take 20 (drop 2 b); take 36 (drop 22 b); drop 58 b].

Lemma cut_items_bytes : Forall2 item_bytes cut_items cut_wires.
Proof.
  assert (is_bytes (mjoin cut_wires)) as Hb by (vm_compute; repeat constructor; discriminate).
  repeat constructor; try (vm_compute; reflexivity || discriminate); cbn; lia || (vm_compute; repeat constructor; discriminate).
Qed.

Lemma ps_input_cuts_witness :
  ∃ d rs, inputs cut_chunks NewPsDemuxer = (d, Ret rs) ∧ Forall (λ r, r = None ∨ r = Some ErrNeedMore) rs ∧
    onFrame d = [([7; 8; 9], 144, 40, 40); ([5; 6], 144, 80, 80)] ∧
    streamMap d = {[192 := mkStream 192 144 0 0 []]} ∧ cache d = [].
Proof.
  destruct (ps_input_cuts cut_items cut_wires cut_chunks (mkView true {[192 := mkStream 192 144 0 0 []]}
    [([7; 8; 9], 144, 40, 40); ([5; 6], 144, 80, 80)])) as (d & rs & H1 & H2 & H3 & H4 & H5).
  - exact cut_items_bytes.
  - vm_compute. reflexivity.
  - vm_compute. reflexivity.
  - intros j k h w Hk Hw. destruct k as [|[|[|[|k]]]]; try discriminate Hk. injection Hw as <-.
    destruct j as [|[|j]]; [left; vm_compute; discriminate..|right].
    destruct j as [|[|j]]; [vm_compute; discriminate..|].
    change (take (S (S (S (S j)))) cut_chunks) with (take 4 cut_chunks ++ take j []). rewrite take_nil, app_nil_r.
    vm_compute. discriminate.
  - exists d, rs. split; [exact H1|]. split; [exact H2|]. split; [exact H3|]. split; [exact H4|exact H5].
Defined.

(** ** Inputs the demuxer does not stand *)

(** At a program end code the loop makes no progress. *)
Lemma ps_end_code_hangs rest : is_bytes rest → ∀ fuel d bs, r_at ([0; 0; 1; 185] ++ rest) (8 * 0) bs →
  ∃ s, in_loop fuel None (d, bs) = (s, Fail OutOfFuel).
Proof.
  intros Hb fuel. induction fuel as [|fuel IH]; intros d bs Hr; [by eexists|].
  set (b := [0; 0; 1; 185] ++ rest) in *. assert (Hbb : is_bytes b).
  { apply is_bytes_app. split; [repeat constructor; lia|done]. }
  destruct (NextBits_any b (8 * 0) 32 441 (byte_bits rest) bs Hr Hbb ltac:(lia)) as (bs1 & E & Hr1 & _).
  { split; [lia|]. unfold b. by rewrite byte_bits_app. }
  rewrite (loop_step fuel b 0 bs bs1 bs1 d d 441 None); [by apply IH|done|cbn; lia|rewrite drop_0; unfold b; len_lia|done|done].
Qed.

(** A packet whose second half comes with a broken pack header: its frame is
    given out, and given out again by every later input. *)
Example ps_error_keeps_cache :
  let bad := [0; 0; 1; 186; 0; 0; 0; 0; 0] in
  let b := mjoin cut_wires in
  let '(d, r) := inputs [take 60 b; drop 60 b ++ bad; []; []] NewPsDemuxer in
  r = Ret [Some ErrNeedMore; Some ErrParser; Some ErrParser; Some ErrParser] ∧
  (λ f : frame, f.1.1.1) <$> onFrame d = [[7; 8; 9]; [5; 6]; [5; 6]; [5; 6]].
Proof. vm_compute. done. Qed.

(** The start code of a pack header cut behind it is not read again. *)
Example ps_cut_header_lost :
  let b := mjoin cut_wires in
  let '(d, r) := inputs [take 8 b; drop 8 b] NewPsDemuxer in
  SystemClockReferenceBase <$> Header d = Some 0 ∧ r = Ret [Some ErrNeedMore; None].
Proof. vm_compute. done. Qed.

(** An audio packet without payload panics when its stream is not known. *)
Example ps_empty_audio_panics : audioVerify [] = Panic.
Proof. reflexivity. Qed.

(** A packet of no given length waits for 65533 bytes less its header. *)
Example ps_unbounded_waits :
  let p := [0; 0; 1; 224; 0; 0; 128; 0; 0; 1; 2; 3] in
  let '(d, r) := Input p NewPsDemuxer in r = Ret (Some ErrNeedMore) ∧ cache d = p.
Proof. vm_compute. done. Qed.

(** Writing the clock reference leaves the writer inside a byte. *)
Example pes_escr_panics :
  pes_Encode (mkPes (mkHead 224 3 0 0 0 0 0 0 1 0 0 0 0 0 0) 0 0 0 0 0 0 0 0 0 []) (NewBitStreamWriter 64) = Panic.
Proof. vm_compute. reflexivity. Qed.
