(* ===== verification/PsFlow.v ===== *)
(** * From the muxer to the demuxer (src/pkg/gb28181/mpegps)

    The packets a muxer makes of frames, cut anywhere but in a pack header and
    given to a demuxer, give the frames back: audio frames at once, the units of
    a video frame, without delimiters, when the next frame of its stream
    comes. *)

From stdpp Require Import gmap.
From S2P Require Import Prelude Bits PsBits PsUtil PsProto PsPes PsWire PsMux PsDemux PsInput.
From S2P Require Avc Hevc.

Import Avc (start_code, mixed_join, clean_nal).

(** ** Start codes *)

Lemma index001_step x l : take 3 (x :: l) ≠ [0; 0; 1] → index001 (x :: l) = if index001 l <? 0 then -1 else index001 l + 1.
Proof. intros H. cbn [index001]. by rewrite bool_decide_false. Qed.

Definition no_code (n : list Z) : Prop := ¬ ∃ a b, n = a ++ [0; 0; 1] ++ b.
Lemma no_code_tail x n : no_code (x :: n) → no_code n.
Proof. intros H (a & b & ->). apply H. by exists (x :: a), b. Qed.

Lemma index001_none n : no_code n → index001 n = -1.
Proof.
  induction n as [|x n IH]; intros H; [done|]. rewrite index001_step, IH; [done|by eapply no_code_tail|].
  intros E. apply H. exists [], (drop 3 (x :: n)). by rewrite app_nil_l, <- E, take_drop.
Qed.

Lemma index001_next n s : no_code n → (∃ s', s = 0 :: 0 :: s') → 0 ≤ index001 s → index001 (n ++ s) = len n + index001 s.
Proof.
  intros H [s' Hs] H0. induction n as [|x n IH]; [done|]. cbn [app]. rewrite index001_step, IH.
  - rewrite (proj2 (Z.ltb_ge _ _)) by lia. cbn [length]. lia.
  - by eapply no_code_tail.
  - intros E. destruct n as [|y [|z n]]; [subst; by injection E|subst; by injection E|].
    apply H. exists [], n. injection E as -> -> ->. done.
Qed.

Lemma index001_code c rest : index001 (start_code c ++ rest) = if c then 1 else 0.
Proof. by destruct c. Qed.

Lemma FindStartCode_none pre n : clean_nal n → FindStartCode (pre ++ n) (len pre) = Ret (-1, 3).
Proof.
  intros (_ & _ & H). unfold FindStartCode. rewrite go_from_app, bind_Ret by done. by rewrite index001_none.
Qed.

Lemma FindStartCode_next c pre n rest : clean_nal n →
  FindStartCode (pre ++ n ++ start_code c ++ rest) (len pre) = Ret (len pre + len n, len (start_code c)).
Proof.
  intros (Hn & Hl & H). unfold FindStartCode. rewrite go_from_app, bind_Ret by done.
  rewrite (index001_next n), index001_code; [|done|by destruct c; eexists|rewrite index001_code; by destruct c].
  assert (0 < len n) by (destruct n; [done|cbn; lia]). rewrite (proj2 (Z.gtb_lt _ _)) by (destruct c; lia).
  destruct (exists_last Hn) as (n' & x & ->). rewrite last_snoc in Hl. rewrite length_app in *. cbn [length] in *.
  destruct c.
  - replace (pre ++ (n' ++ [x]) ++ start_code true ++ rest) with ((pre ++ n' ++ [x]) ++ 0 :: [0; 0; 1] ++ rest)
      by (by rewrite <- !app_assoc). rewrite go_index_app by (rewrite !length_app; cbn [length]; lia).
    rewrite bind_Ret. cbn [Z.eqb]. do 2 f_equal. lia.
  - replace (pre ++ (n' ++ [x]) ++ start_code false ++ rest) with ((pre ++ n') ++ x :: [0; 0; 1] ++ rest)
      by (by rewrite <- !app_assoc). rewrite go_index_app by (rewrite !length_app; cbn [length]; lia).
    rewrite bind_Ret, (proj2 (Z.eqb_neq x 0)) by congruence. do 2 f_equal. lia.
Qed.

Lemma FindStartCode_here c rest : FindStartCode (start_code c ++ rest) 0 = Ret (0, len (start_code c)).
Proof.
  unfold FindStartCode. rewrite go_from_Ret by len_lia. rewrite bind_Ret. change (drop (Z.to_nat 0) ?l) with l.
  rewrite index001_code. by destruct c.
Qed.

(** ** The units of a gathered frame *)

Definition unit_bytes (u : bool * list Z) : list Z := start_code u.1 ++ u.2.

(** An access unit delimiter, by the first byte of the unit. *)
Definition is_aud (cid : Z) (n : list Z) : bool :=
  let b := default 0 (head n) in
  if cid =? PsStreamH264 then b mod 32 =? 9 else (b / 2) mod 64 =? 35.

Definition shown (cid pts dts : Z) (us : list (bool * list Z)) : list frame :=
  (λ u, (unit_bytes u, cid, pts, dts)) <$> List.filter (λ u, negb (is_aud cid u.2)) us.

Definition is_video (cid : Z) : Prop := cid = PsStreamH264 ∨ cid = PsStreamH265.

Lemma type_check cid c n rest : is_video cid → clean_nal n → is_bytes n →
  (if cid =? PsStreamH264 then typ ← H264NaluType (start_code c ++ n ++ rest); Ret (typ =? Avc.NaluTypeAud)
   else if cid =? PsStreamH265 then typ ← H265NaluType (start_code c ++ n ++ rest); Ret (typ =? Hevc.NaluTypeAud)
   else Ret true) = Ret (is_aud cid n).
Proof.
  intros Hcid (Hn & _) Hb. destruct n as [|x n]; [done|]. apply is_bytes_cons in Hb as [Hx _].
  assert (Hg : go_index (start_code c ++ (x :: n) ++ rest) (0 + len (start_code c)) = Ret x).
  { cbn [app]. by apply go_index_app. }
  assert (Hlt : (0 + len (start_code c) >=? len (start_code c ++ (x :: n) ++ rest)) = false).
  { rewrite Z.geb_leb. apply Z.leb_gt. len_lia. }
  unfold is_aud. cbn [head default]. destruct Hcid as [->| ->].
  - cbn [Z.eqb Pos.eqb PsStreamH264]. unfold H264NaluType. rewrite FindStartCode_here, bind_Ret. cbn [Z.ltb Z.compare].
    rewrite Hlt, Hg, bind_Ret, bind_Ret. change 31 with (Z.ones 5). by rewrite Z.land_ones.
  - change (PsStreamH265 =? PsStreamH264) with false. cbn [Z.eqb Pos.eqb PsStreamH265]. unfold H265NaluType.
    rewrite FindStartCode_here, bind_Ret. cbn [Z.ltb Z.compare].
    rewrite Hlt, Hg, bind_Ret, bind_Ret. change 63 with (Z.ones 6). by rewrite Z.land_ones, Z.shiftr_div_pow2.
Qed.

Definition unit_ok (u : bool * list Z) : Prop := clean_nal u.2 ∧ is_bytes u.2.

Lemma split_step fuel sd cd pts dts pre c n rest e sc2 : let s := mkStream sd cd pts dts (pre ++ start_code c ++ n ++ rest) in
  is_video cd → unit_ok (c, n) → FindStartCode (streamBuf s) (len pre + len (start_code c)) = Ret (e, sc2) →
  (if e <? 0 then len (streamBuf s) else e) = len pre + len (start_code c) + len n →
  split_units (S fuel) s (len pre) (len (start_code c)) =
    (l ← split_units fuel s (len pre + len (start_code c) + len n) sc2;
     Ret (if is_aud cd n then l else (start_code c ++ n, cd, pts / 90, dts / 90) :: l)).
Proof.
  intros s Hcid [Hn Hb] E1 E2. cbn [fst snd] in *.
  assert (0 < len n) by (destruct Hn as [H _]; destruct n; [done|cbn; lia]).
  assert (Hl : len (streamBuf s) = len pre + len (start_code c) + len n + len rest) by (cbn [s streamBuf]; len_lia).
  cbn [split_units]. rewrite Z.geb_leb, (proj2 (Z.leb_le 0 _)), (proj2 (Z.ltb_lt _ _)) by lia. cbn [andb].
  rewrite E1, bind_Ret, E2. rewrite (proj2 (Z.leb_gt _ _)) by lia.
  replace (go_from (streamBuf s) (len pre)) with (Ret (start_code c ++ n ++ rest)) by (symmetry; by apply go_from_app).
  rewrite bind_Ret. change (cid s) with cd. rewrite type_check, bind_Ret by done.
  replace (go_slice (streamBuf s) (len pre) (len pre + len (start_code c) + len n)) with (Ret (start_code c ++ n)); [done|].
  symmetry. cbn [s streamBuf]. rewrite (app_assoc (start_code c)). apply go_slice_app; len_lia.
Qed.

Lemma split_end fuel s sc : split_units (S fuel) s (len (streamBuf s)) sc = Ret [].
Proof. cbn [split_units]. rewrite Z.ltb_irrefl, andb_false_r. done. Qed.

Lemma split_units_join sd cd pts dts : is_video cd → ∀ us u pre fuel, Forall unit_ok (u :: us) →
  (length us < fuel)%nat →
  split_units (S fuel) (mkStream sd cd pts dts (pre ++ mixed_join (u :: us))) (len pre) (len (start_code u.1))
  = Ret (shown cd (pts / 90) (dts / 90) (u :: us)).
Proof.
  intros Hcid us. induction us as [|u' us IH]; intros [c n] pre fuel Hok Hf;
    apply Forall_cons in Hok as [Hu Hok]; rewrite Avc.mixed_join_cons; cbn [fst snd]; pose proof Hu as [Hn Hb]; cbn [fst snd] in *.
  - change (mixed_join []) with (@nil Z). rewrite (split_step _ _ _ _ _ _ _ _ _ (-1) 3); [|done|done| |cbn; len_lia].
    2:{ cbn [streamBuf]. rewrite app_nil_r, app_assoc. replace (len pre + len (start_code c)) with (len (pre ++ start_code c)) by len_lia.
        by apply FindStartCode_none. }
    destruct fuel as [|fuel]; [cbn in Hf; lia|].
    match goal with |- context [split_units _ ?s (len pre + _ + _)] => replace (len pre + len (start_code c) + len n) with (len (streamBuf s)) by (cbn [streamBuf]; len_lia) end.
    rewrite split_end, bind_Ret. unfold shown. cbn [List.filter snd]. by destruct (is_aud cd n).
  - rewrite (split_step _ _ _ _ _ _ _ _ _ (len pre + len (start_code c) + len n) (len (start_code u'.1))); [|done|done| |].
    2:{ cbn [streamBuf]. rewrite Avc.mixed_join_cons, app_assoc. replace (len pre + len (start_code c)) with (len (pre ++ start_code c)) by len_lia.
        by apply FindStartCode_next. }
    2:{ by rewrite (proj2 (Z.ltb_ge _ 0)) by lia. }
    destruct fuel as [|fuel]; [cbn in Hf; lia|]. cbn [length] in Hf.
    specialize (IH u' (pre ++ start_code c ++ n) fuel Hok ltac:(lia)). rewrite <- !app_assoc in IH.
    replace (len (pre ++ start_code c ++ n)) with (len pre + len (start_code c) + len n) in IH by len_lia.
    rewrite IH, bind_Ret. unfold shown. cbn [List.filter snd]. by destruct (is_aud cd n).
Qed.

Lemma split_whole sd cd pts dts us : is_video cd → Forall unit_ok us → us ≠ [] →
  let s := mkStream sd cd pts dts (mixed_join us) in
  ('(start, sc) ← FindStartCode (streamBuf s) 0; split_units (S (length (streamBuf s))) s start sc)
  = Ret (shown cd (pts / 90) (dts / 90) us).
Proof.
  intros Hcid Hok Hne s. destruct us as [|u us]; [done|].
  assert (Hl : (length us < length (mixed_join (u :: us)))%nat).
  { clear. rewrite Avc.mixed_join_cons. pose proof (Avc.start_code_length u.1). revert u H.
    induction us as [|u' us IH]; intros u H; [len_lia|]. pose proof (Avc.start_code_length u'.1) as H'.
    specialize (IH u' H'). rewrite Avc.mixed_join_cons. len_lia. }
  pose proof (split_units_join sd cd pts dts Hcid us u [] _ Hok Hl) as H. rewrite app_nil_l in H. cbn [s streamBuf].
  rewrite Avc.mixed_join_cons at 1. rewrite FindStartCode_here, bind_Ret. exact H.
Qed.

(** ** Looking at a frame *)

(** The unit the muxer puts first. *)
Definition lead_units (stype : Z) (f : Found) (first : bool) : list (bool * list Z) :=
  if first && negb (withaud f) && vcl f then
    if stype =? PsStreamH264 then [(true, [9; 240])]
    else if stype =? PsStreamH265 then [(true, [70; 1; 80])] else []
  else [].

Lemma lead_join stype f first : lead stype f first = mixed_join (lead_units stype f first).
Proof. unfold lead, lead_units. by repeat case_match. Qed.

Lemma lead_units_ok stype f first : Forall unit_ok (lead_units stype f first).
Proof.
  unfold lead_units. repeat case_match; repeat apply List.Forall_cons; try apply List.Forall_nil.
  all: split; cbn [snd]; [|repeat constructor; lia]; split; [done|]; split; [done|]; intros (a & b' & E).
  all: do 4 (destruct a as [|? a]; [discriminate E|]); discriminate E.
Qed.

Lemma shown_lead stype f first cid pts dts us : stype = cid → shown cid pts dts (lead_units stype f first ++ us) = shown cid pts dts us.
Proof.
  intros ->. unfold lead_units. destruct (_ && _); [|done]. unfold shown. destruct (Z.eqb_spec cid PsStreamH264) as [->|]; [done|].
  destruct (Z.eqb_spec cid PsStreamH265) as [->|]; done.
Qed.

Lemma see_nalu_total stype n f : n ≠ [] → ∃ f' go, see_nalu stype n f = (f', Ret go).
Proof.
  intros Hn. destruct n as [|x n]; [done|]. unfold see_nalu. change (go_index (x :: n) 0) with (@Ret Z x). rewrite eff_bind_lift.
  destruct (stype =? PsStreamH264); [unfold see_h264|unfold see_h265]; repeat case_match; eauto.
Qed.

Lemma split_loop_total stype us : ∀ u pre fuel f, Forall unit_ok (u :: us) → (length us < fuel)%nat →
  ∃ f', split_loop (see_nalu stype) fuel (pre ++ mixed_join (u :: us)) (len pre) (len (start_code u.1)) f = (f', Ret tt).
Proof.
  induction us as [|u' us IH]; intros [c n] pre fuel f Hok Hf; apply Forall_cons in Hok as [[Hn Hb] Hok]; cbn [fst snd] in *;
    (destruct fuel as [|fuel]; [cbn in Hf; lia|]); rewrite Avc.mixed_join_cons; cbn [fst snd split_loop];
    rewrite Z.geb_leb, (proj2 (Z.leb_le 0 _)) by lia;
    replace (len pre + len (start_code c)) with (len (pre ++ start_code c)) by len_lia.
  - change (mixed_join []) with (@nil Z). rewrite app_nil_r, app_assoc, FindStartCode_none, eff_bind_lift by done.
    cbn [Z.eqb Pos.eqb]. rewrite go_from_app, eff_bind_lift by done.
    destruct (see_nalu_total stype n f (proj1 Hn)) as (f' & go & E). rewrite (eff_bind_Ret _ _ _ _ _ E). by eexists.
  - rewrite Avc.mixed_join_cons, app_assoc, FindStartCode_next, eff_bind_lift by done. rewrite (proj2 (Z.eqb_neq _ (-1))) by lia.
    replace (pre ++ start_code c) with ((pre ++ start_code c) ++ []) at 1 by apply app_nil_r.
    rewrite go_slice_app, eff_bind_lift by (rewrite ?app_nil_r; len_lia).
    destruct (see_nalu_total stype n f (proj1 Hn)) as (f' & go & E). rewrite (eff_bind_Ret _ _ _ _ _ E).
    destruct go; [|by eexists]. cbn [length] in Hf.
    destruct (IH u' ((pre ++ start_code c) ++ n) fuel f' Hok ltac:(lia)) as [f'' E']. exists f''. rewrite <- E'.
    rewrite Avc.mixed_join_cons, <- !app_assoc. f_equal. len_lia.
Qed.

Lemma look_at_video stype us : is_video stype → Forall unit_ok us → us ≠ [] → ∃ f, look_at stype (mixed_join us) = Ret f.
Proof.
  intros Hs Hok Hne. unfold look_at.
  assert ((stype =? PsStreamH264) || (stype =? PsStreamH265) = true) as -> by (by destruct Hs as [->| ->]).
  destruct us as [|u us]; [done|]. unfold SplitFrame.
  assert (Hl : (length us < S (length (mixed_join (u :: us))))%nat).
  { clear. induction us as [|u' us IH]; [cbn; lia|]. rewrite !Avc.mixed_join_cons in *. pose proof (Avc.start_code_length u'.1). len_lia. }
  destruct (split_loop_total stype us u [] _ (mkFound false false false) Hok Hl) as [f' E]. rewrite app_nil_l in E.
  exists f'. rewrite Avc.mixed_join_cons at 1. rewrite FindStartCode_here, eff_bind_lift.
  change (len []) with 0 in E. by rewrite E.
Qed.

(** ** The packets of a frame *)

Lemma pes_out p out w : pes_ok p → w_bytes out w →
  ∃ w' wire, pes_Encode p w = Ret w' ∧ is_bytes wire ∧ byte_bits wire = pes_wire p ∧ w_bytes (out ++ wire) w'.
Proof.
  intros Hp Hw. pose proof (pes_wire_length p) as Hl. pose proof (times_length_range (PtsDtsFlags (pes_head p))).
  destruct (puts_whole _ _ out w (puts_pes p Hp) ltac:(rewrite Hl; zdm) Hw) as (w' & b & E & Hb & Hbits & Hw' & _).
  by exists w', b.
Qed.

Lemma Reset_bytes w : w_bytes [] (Reset_ w).
Proof. apply (w_bytes_new (len (wbits w))). Qed.

(** A packet of the frame with the given payload. *)
Definition part_of (sid pts dts : Z) (p : PesPacket) : Prop :=
  StreamId (pes_head p) = sid ∧ PtsDtsFlags (pes_head p) = 3 ∧ Pts p = pts ∧ Dts p = dts.

Lemma frame_pes_ok sid idr plen pts dts payload : is_u8 sid → 0 ≤ pts → 0 ≤ dts → is_bytes payload →
  plen = 13 + len payload → plen < 65536 → pes_ok (frame_pes sid idr plen pts dts payload).
Proof. intros Hs Hp Hd Hb -> Hl. split; cbn; try done; try lia. by destruct idr. Qed.

Lemma lead_length stype f first : 0 ≤ len (lead stype f first) ≤ 7.
Proof. unfold lead. repeat case_match; cbn; lia. Qed.
Lemma lead_bytes stype f first : is_bytes (lead stype f first).
Proof. unfold lead. repeat case_match; repeat constructor; lia. Qed.
Lemma lead_false stype f : lead stype f false = [].
Proof. done. Qed.

(** What a packet takes of the frame. *)
Lemma part_split a fr : is_bytes fr → 0 ≤ a ≤ 7 → 0 < len fr → let big := 13 + a + len fr >=? 65535 in
  ∃ part rest, (if big then go_slice fr 0 (65535 - (13 + a)) else Ret fr) = Ret part ∧
    (if big then go_from fr (65535 - (13 + a)) else Ret []) = Ret rest ∧
    (if big then 65535 else u16 (13 + a + len fr)) = 13 + (a + len part) ∧ 13 + (a + len part) < 65536 ∧
    part ++ rest = fr ∧ len rest < len fr ∧ is_bytes part ∧ is_bytes rest ∧ (a + len fr ≤ 65522 → rest = []).
Proof.
  intros Hb Ha Hl big. unfold big. rewrite Z.geb_leb. destruct (Z.leb_spec 65535 (13 + a + len fr)).
  - eexists _, _. rewrite go_slice_Ret, go_from_Ret by lia. do 2 (split; [done|]).
    rewrite Z.sub_0_r, drop_0, take_drop, length_take, length_drop.
    split; [lia|]. split; [lia|]. split; [done|]. split; [lia|]. split; [by apply is_bytes_take|]. split; [by apply is_bytes_drop|].
    intros ?. apply drop_ge. lia.
  - exists fr, []. rewrite u16_small, app_nil_r by lia. cbn [length]. do 2 (split; [done|]). split; [lia|]. split; [lia|].
    split; [done|]. split; [lia|]. split; [done|]. by split; [constructor|].
Qed.

Section writing.
Context (sid stype : Z) (f : Found) (pts dts : Z) (Hsid : 192 ≤ sid < 240) (Hpts : 0 ≤ pts) (Hdts : 0 ≤ dts).

(** The packets of what is left of a frame: whole PES packets, the first one
    behind what was written before. *)
Lemma write_loop_items : ∀ fuel fr first w out acc, is_bytes fr → w_bytes out w → (length fr < fuel)%nat →
  ∃ pkts ps ws, write_loop sid stype f pts dts fuel fr first w acc = (acc ++ pkts, Ret tt) ∧
    Forall2 item_bytes (EPes <$> ps) ws ∧ Forall (part_of sid pts dts) ps ∧ length pkts = length ps ∧
    (fr = [] → ps = [] ∧ pkts = []) ∧
    (fr ≠ [] → ps ≠ [] ∧ mjoin pkts.*1 = out ++ mjoin ws ∧ mjoin (PesPayload <$> ps) = lead stype f first ++ fr ∧
      (len (lead stype f first) + len fr ≤ 65522 → length ps = 1%nat) ∧
      ∃ w0, head ws = Some w0 ∧ (fst <$> head pkts) = Some (out ++ w0)).
Proof.
  induction fuel as [|fuel IH]; intros fr first w out acc Hfr Hw Hf; [lia|]. cbn [write_loop].
  destruct (decide (fr = [])) as [->|Hne].
  { cbn [length Z.of_nat Z.gtb Z.compare]. exists [], [], []. rewrite app_nil_r. repeat split; try done. }
  assert (Hl : 0 < len fr) by (destruct fr; [done|cbn; lia]). rewrite Z.gtb_ltb, (proj2 (Z.ltb_lt _ _)) by lia.
  set (aud := lead stype f first). pose proof (lead_length stype f first) as Haud. fold aud in Haud.
  destruct (part_split (len aud) fr Hfr Haud Hl) as (part & rest & E1 & E2 & Eplen & Hmax & Hsplit & Hrl & Hb1 & Hb2 & Hone).
  set (plen := if _ >=? _ then 65535 else _) in *. rewrite E1, eff_bind_lift, E2, eff_bind_lift.
  set (p := frame_pes sid (idrFlag f) plen pts dts (aud ++ part)).
  assert (Hp : pes_ok p).
  { apply frame_pes_ok; rewrite ?length_app; try lia. apply is_bytes_app. split; [apply lead_bytes|done]. }
  destruct (pes_out p out w Hp Hw) as (w' & wire & E & Hwb & Hbits & Hw'). rewrite E, eff_bind_lift.
  rewrite (Bits_bytes _ _ Hw'), eff_bind_lift. erewrite eff_bind_Ret by reflexivity.
  destruct (IH rest false (Reset_ w') [] (acc ++ [(out ++ wire, pts)]) Hb2 (Reset_bytes w') ltac:(lia))
    as (pkts & ps & ws & E' & Hws & Hps & Hlen & Hnil & Hcons).
  exists ((out ++ wire, pts) :: pkts), (p :: ps), (wire :: ws). rewrite E', <- app_assoc. split; [done|].
  split; [constructor; [by split|done]|]. split; [constructor; [done|done]|]. split; [cbn; lia|]. split; [done|]. intros _.
  split; [done|]. assert (Hrec : mjoin pkts.*1 = mjoin ws ∧ mjoin (PesPayload <$> ps) = rest).
  { destruct (decide (rest = [])) as [Er|Er].
    - destruct (Hnil Er) as [-> ->]. apply Forall2_nil_inv_l in Hws as ->. by rewrite Er.
    - destruct (Hcons Er) as (_ & H1 & H2 & _). by rewrite H1, H2. }
  destruct Hrec as [R1 R2]. split; [|split; [|split]].
  - change (mjoin ((out ++ wire, pts) :: pkts).*1) with ((out ++ wire) ++ mjoin pkts.*1). rewrite R1, <- app_assoc. done.
  - change (mjoin (PesPayload <$> p :: ps)) with ((aud ++ part) ++ mjoin (PesPayload <$> ps)). by rewrite R2, <- app_assoc, Hsplit.
  - intros H. destruct (Hnil (Hone H)) as [-> _]. done.
  - by exists wire.
Qed.
End writing.

(** ** A write *)

Definition is_audio (cid : Z) : Prop := cid = PsStreamAac ∨ cid = PsStreamG711A ∨ cid = PsStreamG711U.

(** A muxer whose streams have ids of their own. *)
Record mux_ok (mx : PsMuxer) : Prop := {
  mk_system : system_ok (system mx);
  mk_psm : psm_ok (psm mx);
  mk_nodup : NoDup (ElementaryStreamId <$> StreamMap (psm mx));
  mk_ids : Forall (λ e, 192 ≤ ElementaryStreamId e < 240 ∧ (is_video (StreamType e) ∨ is_audio (StreamType e))) (StreamMap (psm mx));
}.

(** The muxer after the tables. *)
Definition tabled (mx : PsMuxer) : PsMuxer := mkMuxer (system mx) (with_length (psm mx)) false.

Lemma tabled_ok mx : mux_ok mx → mux_ok (tabled mx).
Proof. intros []. split; try done. destruct mk_psm0. by split; cbn; try done; lia. Qed.

Lemma pack_out h out w : pack_ok h → PackStuffingLength h = 0 → w_bytes out w →
  ∃ w' b, pack_Encode h w = Ret w' ∧ item_bytes (EPack h) b ∧ w_bytes (out ++ b) w' ∧ len b = 14.
Proof.
  intros Hh Hs Hw. assert (Hl : len (pack_wire h) = 112).
  { unfold pack_wire. rewrite Hs. cbn [Z.to_nat replicate]. rewrite !length_app, !num_bits_length, clock_bits_length. done. }
  destruct (puts_whole _ _ out w (puts_pack h Hh) ltac:(by rewrite Hl) Hw) as (w' & b & E & Hb & Hbits & Hw' & _).
  exists w', b. split; [done|]. split; [done|]. split; [done|].
  apply (f_equal length) in Hbits. rewrite byte_bits_length in Hbits. lia.
Qed.

Lemma system_item h out w : system_ok h → w_bytes out w →
  ∃ w' b, system_Encode h w = Ret w' ∧ item_bytes (ESystem h) b ∧ w_bytes (out ++ b) w'.
Proof.
  intros Hh Hw. destruct (system_out h out w Hh Hw) as (w' & body & E & Hb & Hbits & Hw').
  pose proof (system_body_length h) as Hl. pose proof (f_equal length Hbits) as Hbl. rewrite byte_bits_length in Hbl.
  eexists w', _. split; [done|]. split; [|exact Hw']. split; [done|]. split.
  - apply is_bytes_app. split; [repeat constructor; lia|]. apply is_bytes_app. split; [apply is_bytes_be_bytes|done].
  - cbn [item_wire]. rewrite !byte_bits_app, byte_bits_be, Hbits. replace (len body) with (6 + 3 * len (Streams h)) by lia. done.
Qed.

Lemma psm_item m out w : psm_ok m → w_bytes out w →
  ∃ w' b crc, psm_Encode m w = Ret (with_length m, w') ∧ item_bytes (EPsm m crc) b ∧ w_bytes (out ++ b) w'.
Proof.
  intros Hm Hw. destruct (psm_out m out w Hm Hw) as (w' & body & crc & E & Hb & Hbits & Hc & Hc4 & Hw').
  pose proof (map_body_length m) as Hl. pose proof (f_equal length Hbits) as Hbl. rewrite byte_bits_length in Hbl.
  eexists w', _, crc. split; [done|]. split; [|exact Hw']. split; [done|]. split.
  - apply is_bytes_app. split; [repeat constructor; lia|]. apply is_bytes_app. split; [apply is_bytes_be_bytes|].
    by apply is_bytes_app.
  - cbn [item_wire]. unfold psm_wire. rewrite !byte_bits_app, byte_bits_be, Hbits.
    replace (len body + 4) with (10 + 4 * len (StreamMap m)) by lia. done.
Qed.

Lemma find_stream_Some m e : NoDup (ElementaryStreamId <$> StreamMap m) → e ∈ StreamMap m →
  find_stream (ElementaryStreamId e) m = Some e.
Proof.
  unfold find_stream. intros Hn He. induction (StreamMap m) as [|x l IH]; [by apply not_elem_of_nil in He|].
  rewrite fmap_cons in Hn. apply NoDup_cons in Hn as [Hx Hn]. cbn [List.find]. apply elem_of_cons in He as [->|He].
  - by rewrite Z.eqb_refl.
  - rewrite (proj2 (Z.eqb_neq _ _)); [by apply IH|]. intros E. apply Hx. rewrite E. by apply list_elem_of_fmap_2.
Qed.

(** The headers before the first PES packet. *)
Lemma write_head dts mx idr : mux_ok mx → ∃ mx' w hd tables ws out,
  (w ← pack_Encode (mkPack false (u64 (dts - 3600)) 0 6106 0) (NewBitStreamWriter 1024);
   if firstframe mx || idr then write_tables mx w else Ret (mx, w)) = Ret (mx', w) ∧
  w_bytes out w ∧ out = mjoin ws ∧ Forall2 item_bytes (EPack hd :: tables) ws ∧ (λ b : list Z, len b) <$> head ws = Some 14 ∧
  (mx' = mx ∧ firstframe mx = false ∧ tables = [] ∨
   mx' = tabled mx ∧ ∃ crc, tables = [ESystem (system mx); EPsm (psm mx) crc]).
Proof.
  intros Hm. set (hd := mkPack false (u64 (dts - 3600)) 0 6106 0).
  assert (Hh : pack_ok hd) by (split; cbn; try lia; apply Z.mod_pos_bound; lia).
  destruct (pack_out hd [] _ Hh eq_refl (w_bytes_new 1024)) as (w1 & b1 & E1 & Hb1 & Hw1 & Hl1). rewrite E1, bind_Ret.
  destruct (firstframe mx || idr) eqn:Ef.
  - unfold write_tables. destruct (system_item _ _ w1 (mk_system mx Hm) Hw1) as (w2 & b2 & E2 & Hb2 & Hw2).
    destruct (psm_item _ _ w2 (mk_psm mx Hm) Hw2) as (w3 & b3 & crc & E3 & Hb3 & Hw3).
    exists (tabled mx), w3, hd, [ESystem (system mx); EPsm (psm mx) crc], [b1; b2; b3], ((([] ++ b1) ++ b2) ++ b3). rewrite E2, bind_Ret, E3, bind_Ret.
    split; [done|]. split; [exact Hw3|]. split; [cbn; by rewrite app_nil_r, <- app_assoc|].
    split; [constructor; [exact Hb1|constructor; [exact Hb2|constructor; [exact Hb3|constructor]]]|]. split; [cbn; by rewrite Hl1|]. right. split; [done|]. by exists crc.
  - exists mx, w1, hd, [], [b1], ([] ++ b1). split; [done|]. split; [exact Hw1|]. split; [cbn; by rewrite app_nil_r|].
    split; [constructor; [exact Hb1|constructor]|]. split; [cbn; by rewrite Hl1|]. left. apply orb_false_iff in Ef as [Ef _]. split; [reflexivity|]. split; [exact Ef|reflexivity].
Qed.

(** A frame given to the muxer. *)
Inductive write :=
  | WVideo (sid : Z) (us : list (bool * list Z)) (pts dts : Z)
  | WAudio (sid : Z) (data : list Z) (pts dts : Z).
Definition w_sid (w : write) : Z := match w with WVideo s _ _ _ | WAudio s _ _ _ => s end.
Definition w_frame (w : write) : list Z := match w with WVideo _ us _ _ => mixed_join us | WAudio _ d _ _ => d end.
Definition w_pts (w : write) : Z := match w with WVideo _ _ p _ | WAudio _ _ p _ => p end.
Definition w_dts (w : write) : Z := match w with WVideo _ _ _ d | WAudio _ _ _ d => d end.

Fixpoint writes (l : list write) (mx : PsMuxer) : outcome (PsMuxer * packets) :=
  match l with
  | [] => Ret (mx, [])
  | w :: l =>
      '(mx, out) ← Write (w_sid w) (w_frame w) (w_pts w) (w_dts w) mx;
      '(mx, out2) ← writes l mx;
      Ret (mx, out ++ out2)
  end.

Definition time_ok (t : Z) : Prop := 0 ≤ t ∧ 90 * t < 2 ^ 33.

(** A frame of a stream of the muxer: video in units that Annex-B can carry and
    with a time, audio that fits a packet. *)
Definition write_ok (mx : PsMuxer) (w : write) : Prop :=
  time_ok (w_pts w) ∧ time_ok (w_dts w) ∧ ∃ e, e ∈ StreamMap (psm mx) ∧ ElementaryStreamId e = w_sid w ∧
  match w with
  | WVideo _ us pts _ => is_video (StreamType e) ∧ us ≠ [] ∧ Forall unit_ok us ∧ 0 < pts
  | WAudio _ data _ _ => is_audio (StreamType e) ∧ data ≠ [] ∧ is_bytes data ∧ len data ≤ 65522
  end.

Lemma mixed_join_bytes us : Forall unit_ok us → is_bytes (mixed_join us).
Proof.
  induction 1 as [|[c n] us [_ Hb] _ IH]; [constructor|]. rewrite Avc.mixed_join_cons. cbn [fst snd] in *.
  apply is_bytes_app. split; [destruct c; repeat constructor; lia|by apply is_bytes_app].
Qed.
Lemma mixed_join_nonempty us : us ≠ [] → mixed_join us ≠ [].
Proof.
  destruct us as [|[c n] us]; [done|]. rewrite Avc.mixed_join_cons. intros _ E. apply (f_equal length) in E.
  pose proof (Avc.start_code_length c). revert E. cbn [fst]. rewrite length_app. cbn [length]. lia.
Qed.

Lemma unique_elem mx e e' : mux_ok mx → e ∈ StreamMap (psm mx) → e' ∈ StreamMap (psm mx) →
  ElementaryStreamId e' = ElementaryStreamId e → e' = e.
Proof.
  intros Hm He He' E. pose proof (find_stream_Some _ _ (mk_nodup mx Hm) He).
  pose proof (find_stream_Some _ _ (mk_nodup mx Hm) He'). congruence.
Qed.

(** The frame, and what the muxer finds in it. *)
Lemma write_ok_look mx w e : write_ok mx w → e ∈ StreamMap (psm mx) → ElementaryStreamId e = w_sid w → mux_ok mx →
  w_frame w ≠ [] ∧ is_bytes (w_frame w) ∧ (∃ f, look_at (StreamType e) (w_frame w) = Ret f) ∧ 192 ≤ w_sid w < 240 ∧
  match w with
  | WVideo _ us pts _ => is_video (StreamType e) ∧ us ≠ [] ∧ Forall unit_ok us ∧ 0 < pts
  | WAudio _ data _ _ => is_audio (StreamType e) ∧ data ≠ [] ∧ is_bytes data ∧ len data ≤ 65522
  end.
Proof.
  intros (_ & _ & e' & He' & Hid' & Hw) He Hid Hm. assert (e' = e) as -> by (apply (unique_elem mx); congruence || done).
  pose proof (proj1 (Forall_forall _ _) (mk_ids mx Hm) e He) as [Hr _]. rewrite Hid in Hr.
  destruct w as [sd us pts dts|sd data pts dts]; cbn [w_frame w_sid] in *.
  - destruct Hw as (Hv & Hne & Hok & Hp). split; [by apply mixed_join_nonempty|]. split; [by apply mixed_join_bytes|].
    split; [by apply look_at_video|]. done.
  - destruct Hw as (Ha & Hne & Hb & Hl). split; [done|]. split; [done|]. split; [|done].
    unfold look_at. assert ((StreamType e =? PsStreamH264) || (StreamType e =? PsStreamH265) = false) as ->.
    { by destruct Ha as [->|[->| ->]]. } by eexists.
Qed.

(** The items of a write. *)
Record written (mx mx' : PsMuxer) (w : write) (e : ElementaryStreamElem) (es : list item) (ws : list (list Z)) (pkts : packets) : Prop := {
  wn_items : Forall2 item_bytes es ws;
  wn_bytes : mjoin pkts.*1 = mjoin ws;
  wn_same : psm mx' = psm mx ∨ psm mx' = with_length (psm mx);
  wn_ok : mux_ok mx';
  wn_first : firstframe mx' = false;
  wn_shape : ∃ hd tables ps f, es = EPack hd :: tables ++ (EPes <$> ps) ∧
    (tables = [] ∧ firstframe mx = false ∨ ∃ crc, tables = [ESystem (system mx); EPsm (psm mx) crc]) ∧
    Forall (part_of (w_sid w) (90 * w_pts w) (90 * w_dts w)) ps ∧ ps ≠ [] ∧
    mjoin (PesPayload <$> ps) = lead (StreamType e) f true ++ w_frame w ∧
    (len (lead (StreamType e) f true) + len (w_frame w) ≤ 65522 → length ps = 1%nat);
  wn_head : ∃ w0 p0 tl, ws = w0 :: tl ∧ head pkts = Some p0 ∧ len w0 = 14 ∧ ∃ z, p0.1 = w0 ++ z;
}.

Lemma Write_items mx w e : mux_ok mx → write_ok mx w → e ∈ StreamMap (psm mx) → ElementaryStreamId e = w_sid w →
  ∃ mx' pkts es ws, Write (w_sid w) (w_frame w) (w_pts w) (w_dts w) mx = Ret (mx', pkts) ∧ written mx mx' w e es ws pkts.
Proof.
  intros Hm Hw He Hid. destruct (write_ok_look mx w e Hw He Hid Hm) as (Hne & Hb & [f Ef] & Hr & _).
  destruct Hw as ([Hp1 Hp2] & [Hd1 Hd2] & _). assert (2 ^ 33 < 2 ^ 64) by done.
  assert (Eu : ∀ t, 0 ≤ t → 90 * t < 2 ^ 33 → u64 (t * 90) = 90 * t).
  { intros t H1 H2. rewrite (Z.mul_comm t). apply Z.mod_small. change 18446744073709551616 with (2 ^ 64). lia. }
  assert (Ef0 : find_stream (w_sid w) (psm mx) = Some e) by (rewrite <- Hid; by apply find_stream_Some; [apply mk_nodup|]).
  unfold Write. rewrite Ef0.
  rewrite (proj2 (Z.leb_gt _ 0)) by (destruct (w_frame w); [done|cbn; lia]). rewrite Ef, bind_Ret, (Eu (w_pts w)), (Eu (w_dts w)) by done.
  destruct (write_head (90 * w_dts w) mx (idrFlag f) Hm) as (mx' & w1 & hd & tables & wsh & out & E1 & Hw1 & Hout & Hitems & Hh & Hmx).
  
  destruct (pack_Encode _ _) as [w0| |] eqn:E0; [|done..].
  rewrite (bind_Ret w0) in E1. rewrite (bind_Ret w0), E1, bind_Ret.
  destruct (write_loop_items (w_sid w) (StreamType e) f (90 * w_pts w) (90 * w_dts w) Hr ltac:(lia) ltac:(lia)
    (S (length (w_frame w))) (w_frame w) true w1 out [] Hb Hw1 ltac:(lia)) as (pkts & ps & ws & El & Hws & Hps & Hlen & _ & Hcons).
  rewrite El. cbn [app]. destruct (Hcons Hne) as (Hpne & Hbytes & Hpay & Hone & w0' & Hw0 & Hp0).
  exists mx', pkts, ((EPack hd :: tables) ++ (EPes <$> ps)), (wsh ++ ws). split; [done|]. split.
  - by apply Forall2_app.
  - by rewrite join_app, <- Hout.
  - destruct Hmx as [(-> & _)|(-> & _)]; [left|right]; reflexivity.
  - destruct Hmx as [(-> & _)|(-> & _)]; [exact Hm|by apply tabled_ok].
  - destruct Hmx as [(-> & H1 & _)|(-> & _)]; [exact H1|reflexivity].
  - exists hd, tables, ps, f. split; [reflexivity|]. split; [|auto].
    destruct Hmx as [(_ & H1 & H2)|(_ & H1)]; [left; auto|right; exact H1].
  - destruct wsh as [|x wsh]; [discriminate Hh|]. injection Hh as Hx. destruct pkts as [|p0 pkts]; [discriminate Hp0|].
    exists x, p0, (wsh ++ ws). split; [reflexivity|]. split; [reflexivity|]. split; [exact Hx|]. injection Hp0 as Hp0.
    exists (mjoin wsh ++ w0'). rewrite Hp0, Hout, app_assoc. reflexivity.
Qed.

(** ** What the demuxer gathers *)

(** The access unit of each video stream that was not given out yet. *)
Abbreviation pending := (gmap Z (list (bool * list Z) * Z * Z)).

Definition shown_pending (cid : Z) (o : option (list (bool * list Z) * Z * Z)) : list frame :=
  match o with Some (us, pts, dts) => shown cid pts dts us | None => [] end.

(** The frames the demuxer gives out. *)
Fixpoint expect (codec : Z → Z) (l : list write) (pend : pending) : list frame :=
  match l with
  | [] => []
  | WAudio s data pts dts :: l => (data, codec s, pts, dts) :: expect codec l pend
  | WVideo s us pts dts :: l => shown_pending (codec s) (pend !! s) ++ expect codec l (<[s := (us, pts, dts)]> pend)
  end.

Definition pend_after (w : write) (pend : pending) : pending :=
  match w with WVideo s us pts dts => <[s := (us, pts, dts)]> pend | WAudio _ _ _ _ => pend end.

(** Frames the muxer takes, two frames of a stream never at the same time. *)
Fixpoint writes_ok (mx : PsMuxer) (l : list write) (pend : pending) : Prop :=
  match l with
  | [] => True
  | w :: l => write_ok mx w ∧ (∀ us p d, pend !! w_sid w = Some (us, p, d) → p ≠ w_pts w) ∧ writes_ok mx l (pend_after w pend)
  end.

(** The demuxer's stream for [e], when [o] is pending. *)
Definition gathered (e : ElementaryStreamElem) (o : option (list (bool * list Z) * Z * Z)) (s : option psStream) : Prop :=
  match o with
  | None => s = Some (mkStream (ElementaryStreamId e) (StreamType e) 0 0 [])
  | Some (us, pts, dts) => is_video (StreamType e) ∧ 0 < pts ∧ ∃ us', s = Some (mkStream (ElementaryStreamId e) (StreamType e) (90 * pts) (90 * dts) (mixed_join us')) ∧
      us' ≠ [] ∧ Forall unit_ok us' ∧ ∀ p d, shown (StreamType e) p d us' = shown (StreamType e) p d us
  end.

Definition gathers (mx : PsMuxer) (pend : pending) (v : view) : Prop :=
  v_header v = true ∧ ∀ e, e ∈ StreamMap (psm mx) →
    gathered e (pend !! ElementaryStreamId e) (v_streams v !! ElementaryStreamId e).

(** Nothing before the first tables, the streams of the map after them. *)
Definition view_ok (mx : PsMuxer) (pend : pending) (v : view) : Prop :=
  if firstframe mx then v_streams v = ∅ ∧ pend = ∅ else gathers mx pend v.

Lemma map_streams_other l : ∀ M i, i ∉ (ElementaryStreamId <$> l) → foldl map_stream M l !! i = M !! i.
Proof.
  induction l as [|x l IH]; intros M i Hi; [done|]. rewrite fmap_cons, not_elem_of_cons in Hi. destruct Hi as [H1 H2].
  cbn [foldl]. rewrite IH by done. unfold map_stream. by rewrite lookup_insert_ne.
Qed.

Lemma map_streams_lookup l e : NoDup (ElementaryStreamId <$> l) → e ∈ l → ∀ M,
  foldl map_stream M l !! ElementaryStreamId e = Some (match M !! ElementaryStreamId e with
    | None => newPsStream (ElementaryStreamId e) (StreamType e) | Some s => setCid (StreamType e) s end).
Proof.
  induction l as [|x l IH]; intros Hn He M; [by apply not_elem_of_nil in He|].
  rewrite fmap_cons in Hn. apply NoDup_cons in Hn as [Hx Hn]. cbn [foldl]. apply elem_of_cons in He as [->|He].
  - rewrite map_streams_other by done. unfold map_stream. by rewrite lookup_insert_eq.
  - rewrite IH by done. unfold map_stream. rewrite lookup_insert_ne; [done|].
    intros E. apply Hx. rewrite E. by apply list_elem_of_fmap_2.
Qed.

Lemma gathered_setCid e o s : gathered e o (Some s) → setCid (StreamType e) s = s.
Proof.
  unfold gathered. destruct o as [[[us p] d]|]; [intros (_ & _ & us' & E & _)|intros E]; injection E as ->; done.
Qed.

(** The headers of a write. *)
Lemma head_effects mx hd tables pend v : mux_ok mx → view_ok mx pend v →
  (tables = [] ∧ firstframe mx = false ∨ ∃ crc, tables = [ESystem (system mx); EPsm (psm mx) crc]) →
  ∃ v1, effects (EPack hd :: tables) v = Some v1 ∧ v_frames v1 = v_frames v ∧ gathers mx pend v1.
Proof.
  intros Hm Hv Ht. unfold view_ok in Hv. destruct Ht as [[-> Hf]|[crc ->]].
  - rewrite Hf in Hv. destruct Hv as [Hh Hv]. eexists. split; [reflexivity|]. split; [reflexivity|]. split; [reflexivity|exact Hv].
  - eexists. split; [reflexivity|]. split; [reflexivity|]. split; [reflexivity|]. cbn [v_streams]. intros e He.
    rewrite (map_streams_lookup _ e (mk_nodup mx Hm) He). destruct (firstframe mx).
    + destruct Hv as [-> ->]. by rewrite !lookup_empty.
    + destruct Hv as [_ Hv]. specialize (Hv e He). destruct (v_streams v !! ElementaryStreamId e) as [s|] eqn:Es.
      * by rewrite (gathered_setCid e _ s Hv).
      * unfold gathered in Hv. destruct (pend !! _) as [[[us p] d]|]; [destruct Hv as (_ & _ & us' & E & _)|]; discriminate.
Qed.

Lemma effect_pes p v s s' l : v_streams v !! StreamId (pes_head p) = Some s →
  demuxPespacket s (decoded p NewPesPacket) = Ret (s', l) →
  effect (EPes p) v = Some (mkView (v_header v) (<[sid s' := s']> (v_streams v)) (v_frames v ++ l)).
Proof. intros Hs Hd. cbn [effect]. rewrite Hs. cbn [mbind option_bind]. by rewrite Hd. Qed.

Lemma part_times sd pts dts p : part_of sd (90 * pts) (90 * dts) p → time_ok pts → time_ok dts →
  Pts (decoded p NewPesPacket) = 90 * pts ∧ Dts (decoded p NewPesPacket) = 90 * dts.
Proof.
  intros (_ & Hf & Hp & Hd) [H1 H2] [H3 H4]. unfold decoded, put_times. rewrite Hf. cbn. rewrite Hp, Hd, !Z.mod_small by lia. done.
Qed.

Lemma demux_video s p : is_video (cid s) → demuxPespacket s p = demuxH26x s p.
Proof. unfold demuxPespacket. intros [->| ->]; done. Qed.
Lemma demux_audio s p : is_audio (cid s) → demuxPespacket s p = demuxAudio s p.
Proof. unfold demuxPespacket. intros [->|[->| ->]]; done. Qed.

(** Further packets of a frame are appended. *)
Lemma video_rest sd cd pts dts ps : is_video cd → 0 < pts → time_ok pts → time_ok dts →
  Forall (part_of sd (90 * pts) (90 * dts)) ps → ∀ buf v,
  v_streams v !! sd = Some (mkStream sd cd (90 * pts) (90 * dts) buf) →
  ∃ m, effects (EPes <$> ps) v = Some (mkView (v_header v) m (v_frames v)) ∧
    m !! sd = Some (mkStream sd cd (90 * pts) (90 * dts) (buf ++ mjoin (PesPayload <$> ps))) ∧
    ∀ i, i ≠ sd → m !! i = v_streams v !! i.
Proof.
  intros Hcd Hp0 Hp Hd. induction 1 as [|p ps Hpart Hps IH]; intros buf v Hs.
  - exists (v_streams v). cbn. rewrite app_nil_r. by destruct v.
  - pose proof Hpart as (Hid & _). destruct (part_times _ _ _ _ Hpart Hp Hd) as [E1 E2].
    set (s' := mkStream sd cd (90 * pts) (90 * dts) (buf ++ PesPayload p)).
    assert (Ed : demuxPespacket (mkStream sd cd (90 * pts) (90 * dts) buf) (decoded p NewPesPacket) = Ret (s', [])).
    { rewrite demux_video by done. unfold demuxH26x. cbn [s_pts s_dts sid cid streamBuf].
      rewrite (proj2 (Z.eqb_neq _ 0)) by lia. rewrite E1, Z.eqb_refl. done. }
    rewrite fmap_cons. cbn [effects]. rewrite (effect_pes p v _ s' []) by (rewrite ?Hid; done). cbn [mbind option_bind].
    rewrite app_nil_r.
    destruct (IH (buf ++ PesPayload p) (mkView (v_header v) (<[sd := s']> (v_streams v)) (v_frames v))) as (m & E & Hm & Ho);
      [cbn; by rewrite lookup_insert_eq|].
    exists m. split; [exact E|]. split.
    + rewrite Hm, <- app_assoc. done.
    + intros i Hi. rewrite (Ho i Hi). cbn. by rewrite lookup_insert_ne.
Qed.

(** The first packet of a frame gives the frame before out. *)
Lemma video_first e o s p pts dts : is_video (StreamType e) → gathered e o (Some s) → 0 < pts → time_ok pts → time_ok dts →
  (∀ us q d, o = Some (us, q, d) → q ≠ pts) → part_of (ElementaryStreamId e) (90 * pts) (90 * dts) p →
  demuxPespacket s (decoded p NewPesPacket) =
    Ret (mkStream (ElementaryStreamId e) (StreamType e) (90 * pts) (90 * dts) (PesPayload p), shown_pending (StreamType e) o).
Proof.
  intros Hcd Hg Hp0 Hp Hd Hne Hpart. destruct (part_times _ _ _ _ Hpart Hp Hd) as [E1 E2].
  unfold gathered in Hg. destruct o as [[[us q] d]|].
  - destruct Hg as (_ & Hq & us' & Es & Hus & Hok & Hsh). injection Es as ->. specialize (Hne us q d eq_refl).
    rewrite demux_video by done. unfold demuxH26x. cbn [s_pts s_dts sid cid streamBuf]. rewrite E1, E2.
    rewrite !(proj2 (Z.eqb_neq _ _)) by lia. cbn [orb].
    pose proof (split_whole (ElementaryStreamId e) (StreamType e) (90 * q) (90 * d) us' Hcd Hok Hus) as Hw.
    cbn [streamBuf] in Hw. destruct (FindStartCode (mixed_join us') 0) as [[a b]| |]; [|discriminate Hw..].
    rewrite bind_Ret in Hw. rewrite bind_Ret, Hw, bind_Ret. cbn [shown_pending]. rewrite Hsh.
    by rewrite !(Z.mul_comm 90), !Z.div_mul by done.
  - injection Hg as ->. rewrite demux_video by done. unfold demuxH26x. cbn [s_pts s_dts sid cid streamBuf]. by rewrite E1, E2.
Qed.

Lemma gathered_known e o S : gathered e o S → ∃ s, S = Some s.
Proof. unfold gathered. destruct o as [[[? ?] ?]|]; [intros (_ & _ & us' & -> & _)|intros ->]; by eexists. Qed.

(** A stream and what is pending for it change together. *)
Lemma gathers_update mx pend v e o m fs : mux_ok mx → e ∈ StreamMap (psm mx) → gathers mx pend v →
  gathered e (Some o) (m !! ElementaryStreamId e) → (∀ i, i ≠ ElementaryStreamId e → m !! i = v_streams v !! i) →
  gathers mx (<[ElementaryStreamId e := o]> pend) (mkView (v_header v) m fs).
Proof.
  intros Hm He [Hh Hg] Hge Ho. split; [done|]. intros e' He'. cbn [v_streams].
  destruct (decide (ElementaryStreamId e' = ElementaryStreamId e)) as [E|Hn].
  - assert (e' = e) as -> by (by apply (unique_elem mx)). by rewrite lookup_insert_eq.
  - rewrite lookup_insert_ne, (Ho _ Hn) by done. by apply Hg.
Qed.

(** The packets of a video frame. *)
Lemma video_effects mx e f us pts dts ps pend v : mux_ok mx → e ∈ StreamMap (psm mx) → gathers mx pend v →
  is_video (StreamType e) → us ≠ [] → Forall unit_ok us → 0 < pts → time_ok pts → time_ok dts →
  (∀ us p d, pend !! ElementaryStreamId e = Some (us, p, d) → p ≠ pts) →
  Forall (part_of (ElementaryStreamId e) (90 * pts) (90 * dts)) ps → ps ≠ [] →
  mjoin (PesPayload <$> ps) = lead (StreamType e) f true ++ mixed_join us →
  ∃ v', effects (EPes <$> ps) v = Some v' ∧ gathers mx (<[ElementaryStreamId e := (us, pts, dts)]> pend) v' ∧
    v_frames v' = v_frames v ++ shown_pending (StreamType e) (pend !! ElementaryStreamId e).
Proof.
  intros Hm He Hg Hcd Hus Hok Hp0 Hp Hd Hfresh Hps Hne Hpay. pose proof (proj2 Hg e He) as Hge.
  destruct ps as [|p ps]; [done|]. apply Forall_cons in Hps as [Hpart Hps]. pose proof Hpart as (Hpid & _).
  destruct (gathered_known _ _ _ Hge) as [s Es]. rewrite Es in Hge.
  pose proof (video_first e _ s p pts dts Hcd Hge Hp0 Hp Hd Hfresh Hpart) as Ed.
  set (s' := mkStream _ _ _ _ (PesPayload p)) in Ed. rewrite fmap_cons. cbn [effects].
  rewrite (effect_pes p v s s' _) by (rewrite ?Hpid; done). cbn [mbind option_bind].
  destruct (video_rest (ElementaryStreamId e) (StreamType e) pts dts ps Hcd Hp0 Hp Hd Hps (PesPayload p)
    (mkView (v_header v) (<[ElementaryStreamId e := s']> (v_streams v))
       (v_frames v ++ shown_pending (StreamType e) (pend !! ElementaryStreamId e)))) as (m & E & Hm' & Ho);
    [cbn; by rewrite lookup_insert_eq|].
  eexists. split; [exact E|]. split; [|done]. apply (gathers_update mx pend v); [done..| |].
  - rewrite Hm'. split; [done|]. split; [done|]. exists (lead_units (StreamType e) f true ++ us).
    rewrite Avc.mixed_join_app, <- lead_join, <- Hpay.
    split; [done|]. split; [intros H; apply app_nil in H as [_ H]; done|].
    split; [apply Forall_app; split; [apply lead_units_ok|done]|]. intros. by apply shown_lead.
  - intros i Hi. rewrite (Ho _ Hi). cbn [v_streams]. by rewrite lookup_insert_ne.
Qed.

(** The packet of an audio frame. *)
Lemma audio_effects mx e data pts dts p pend v : mux_ok mx → e ∈ StreamMap (psm mx) → gathers mx pend v →
  is_audio (StreamType e) → time_ok pts → time_ok dts →
  part_of (ElementaryStreamId e) (90 * pts) (90 * dts) p → PesPayload p = data →
  ∃ v', effects [EPes p] v = Some v' ∧ gathers mx pend v' ∧ v_frames v' = v_frames v ++ [(data, StreamType e, pts, dts)].
Proof.
  intros Hm He Hg Hcd Hp Hd Hpart <-. pose proof (proj2 Hg e He) as Hge. unfold gathered in Hge.
  destruct (pend !! ElementaryStreamId e) as [[[us' q] d]|].
  { destruct Hge as ([Hv|Hv] & _); rewrite Hv in Hcd; destruct Hcd as [H|[H|H]]; discriminate. }
  destruct (part_times _ _ _ _ Hpart Hp Hd) as [E1 E2]. pose proof Hpart as (Hpid & _). cbn [effects].
  set (s := mkStream _ _ 0 0 []) in Hge.
  assert (Ed : demuxPespacket s (decoded p NewPesPacket) = Ret (s, [(PesPayload p, StreamType e, pts, dts)])).
  { rewrite demux_audio by done. unfold demuxAudio. rewrite E1, E2, decoded_payload, !(Z.mul_comm 90), !Z.div_mul by done. done. }
  rewrite (effect_pes p v s s _) by (rewrite ?Hpid; done). cbn [mbind option_bind]. eexists. split; [done|]. split; [|done].
  destruct Hg as [Hh Hg]. split; [done|]. intros e' He'. cbn [v_streams s sid]. rewrite insert_id by done. by apply Hg.
Qed.

Lemma written_map mx mx' w e es ws pkts : written mx mx' w e es ws pkts → StreamMap (psm mx') = StreamMap (psm mx).
Proof. intros []. by destruct wn_same0 as [->| ->]. Qed.

(** A write, taken by the demuxer. *)
Lemma write_effects codec mx mx' w e es ws pkts pend v : mux_ok mx → write_ok mx w → e ∈ StreamMap (psm mx) →
  ElementaryStreamId e = w_sid w → codec (w_sid w) = StreamType e → written mx mx' w e es ws pkts → view_ok mx pend v →
  (∀ us p d, pend !! w_sid w = Some (us, p, d) → p ≠ w_pts w) →
  ∃ v', effects es v = Some v' ∧ view_ok mx' (pend_after w pend) v' ∧ v_frames v' = v_frames v ++ expect codec [w] pend.
Proof.
  intros Hm Hw He Hid Hco Hwn Hv Hfresh. pose proof (written_map _ _ _ _ _ _ _ Hwn) as Hmap.
  destruct (wn_shape _ _ _ _ _ _ _ Hwn) as (hd & tables & ps & f & -> & Ht & Hps & Hne & Hpay & Hone).
  destruct (head_effects mx hd tables pend v Hm Hv Ht) as (v1 & E1 & Hf1 & Hg1).
  destruct (write_ok_look mx w e Hw He Hid Hm) as (_ & _ & _ & _ & Hk). destruct Hw as (Hp & Hd & _).
  assert (Hmain : ∃ v', effects (EPes <$> ps) v1 = Some v' ∧ gathers mx (pend_after w pend) v' ∧
    v_frames v' = v_frames v1 ++ expect codec [w] pend).
  { destruct w as [sd us pts dts|sd data pts dts]; cbn [w_sid w_pts w_dts w_frame pend_after expect] in *; subst sd; rewrite Hco.
    - destruct Hk as (Hcd & Hus & Hok & Hp0). rewrite app_nil_r. by eapply video_effects.
    - destruct Hk as (Hcd & _ & _ & Hl). assert (Hlead : lead (StreamType e) f true = []).
      { unfold lead. destruct Hcd as [->|[->| ->]]; cbn; by destruct (_ && _). }
      rewrite Hlead in *. destruct ps as [|p [|p2 ps]]; [done| |specialize (Hone ltac:(cbn [length]; lia)); done].
      apply Forall_cons in Hps as [Hpart _]. apply (audio_effects mx e data pts dts p); try done.
      cbn in Hpay. by rewrite app_nil_r in Hpay. }
  destruct Hmain as (v' & E' & Hg' & Hf'). exists v'. rewrite app_comm_cons, effects_app, E1. cbn [mbind option_bind].
  split; [done|]. split; [|by rewrite Hf', Hf1]. unfold view_ok. rewrite (wn_first _ _ _ _ _ _ _ Hwn).
  destruct Hg' as [H1 H2]. split; [done|]. by rewrite Hmap.
Qed.

(** ** Cuts *)

(** A cut at [n] is not behind the fourth and before the fourteenth byte of a
    packet. *)
Definition clear_of (pkts : list (list Z)) (n : Z) : Prop :=
  ∀ k, (k < length pkts)%nat → n ≤ len (mjoin (take k pkts)) + 4 ∨ len (mjoin (take k pkts)) + 14 ≤ n.

Lemma clear_of_app p1 p2 n : clear_of (p1 ++ p2) n → clear_of p1 n ∧ clear_of p2 (n - len (mjoin p1)).
Proof.
  intros H. split; intros k Hk.
  - specialize (H k). rewrite take_app_le, length_app in H by lia. apply H. lia.
  - specialize (H (length p1 + k)%nat). rewrite take_app_add, join_app, !length_app in H. destruct (H ltac:(lia)); lia.
Qed.

Lemma cut_ok_app es1 ws1 es2 ws2 n : length es1 = length ws1 → cut_ok es1 ws1 n → cut_ok es2 ws2 (n - len (mjoin ws1)) →
  cut_ok (es1 ++ es2) (ws1 ++ ws2) n.
Proof.
  intros Hl H1 H2 k h w He Hw. destruct (decide (k < length es1)%nat).
  - rewrite lookup_app_l in He by lia. rewrite lookup_app_l in Hw by lia. rewrite take_app_le by lia. by eapply H1.
  - rewrite lookup_app_r in He by lia. rewrite lookup_app_r in Hw by lia. replace k with (length ws1 + (k - length ws1))%nat by lia.
    rewrite take_app_add, join_app, length_app. rewrite Hl in He. destruct (H2 _ h w He Hw); lia.
Qed.

Lemma written_cuts mx mx' w e es ws pkts n : written mx mx' w e es ws pkts → clear_of pkts.*1 n → cut_ok es ws n.
Proof.
  intros Hwn Hc. destruct (wn_shape _ _ _ _ _ _ _ Hwn) as (hd & tables & ps & f & -> & Ht & _).
  destruct (wn_head _ _ _ _ _ _ _ Hwn) as (w0 & p0 & tl & -> & Hp & Hl & _). destruct pkts as [|p pkts]; [done|].
  intros k h w' Hk Hw'. destruct k as [|k].
  - injection Hw' as <-. destruct (Hc 0%nat) as [H|H]; [cbn; lia| |]; cbn in H |- *; lia.
  - exfalso. cbn [lookup list_lookup] in Hk. apply lookup_app_Some in Hk as [Hk|[_ Hk]].
    + destruct Ht as [[-> _]|[crc ->]]; [done|]. by destruct k as [|[|k]].
    + apply list_lookup_fmap_Some in Hk as (? & ? & _). discriminate.
Qed.

(** ** The whole flow *)

Lemma writes_ok_map mx mx' l : StreamMap (psm mx') = StreamMap (psm mx) → ∀ pend, writes_ok mx l pend → writes_ok mx' l pend.
Proof.
  intros E. induction l as [|w l IH]; intros pend; [done|]. cbn [writes_ok]. intros (Hw & Hf & Hl).
  split; [|auto]. unfold write_ok in *. by rewrite E.
Qed.

Lemma writes_flow codec l : ∀ mx pend v, mux_ok mx → (∀ e, e ∈ StreamMap (psm mx) → codec (ElementaryStreamId e) = StreamType e) →
  view_ok mx pend v → writes_ok mx l pend →
  ∃ mx' pkts es ws v', writes l mx = Ret (mx', pkts) ∧ Forall2 item_bytes es ws ∧ mjoin pkts.*1 = mjoin ws ∧
    effects es v = Some v' ∧ v_frames v' = v_frames v ++ expect codec l pend ∧ (∀ n, clear_of pkts.*1 n → cut_ok es ws n).
Proof.
  induction l as [|w l IH]; intros mx pend v Hm Hco Hv Hl.
  - exists mx, [], [], [], v. cbn [writes effects expect]. rewrite app_nil_r. do 5 (split; [done || constructor|]).
    intros n _ k h w Hk. done.
  - cbn [writes_ok] in Hl. destruct Hl as (Hw & Hf & Hl). pose proof Hw as (_ & _ & e & He & Hid & _).
    destruct (Write_items mx w e Hm Hw He Hid) as (mx1 & pk1 & es1 & ws1 & E1 & Hwn).
    pose proof (Hco e He) as Hce. rewrite Hid in Hce. pose proof (written_map _ _ _ _ _ _ _ Hwn) as Hmap.
    destruct (write_effects codec mx mx1 w e es1 ws1 pk1 pend v Hm Hw He Hid Hce Hwn Hv Hf) as (v1 & Ev1 & Hv1 & Hf1).
    destruct (IH mx1 (pend_after w pend) v1) as (mx2 & pk2 & es2 & ws2 & v2 & E2 & Hi2 & Hb2 & Ev2 & Hf2 & Hc2).
    { apply (wn_ok _ _ _ _ _ _ _ Hwn). } { intros e' He'. rewrite Hmap in He'. by apply Hco. } { done. }
    { by apply (writes_ok_map mx). }
    exists mx2, (pk1 ++ pk2), (es1 ++ es2), (ws1 ++ ws2), v2. cbn [writes]. rewrite E1, bind_Ret, E2, bind_Ret.
    pose proof (wn_items _ _ _ _ _ _ _ Hwn) as Hi1. pose proof (wn_bytes _ _ _ _ _ _ _ Hwn) as Hb1.
    split; [done|]. split; [by apply Forall2_app|]. split; [by rewrite fmap_app, !join_app, Hb1, Hb2|].
    split; [rewrite effects_app, Ev1; exact Ev2|]. split.
    + rewrite Hf2, Hf1, <- app_assoc. f_equal. by destruct w; cbn [expect pend_after]; rewrite ?app_nil_r.
    + intros n Hn. rewrite fmap_app in Hn. apply clear_of_app in Hn as [Hn1 Hn2]. apply cut_ok_app.
      * by eapply Forall2_length.
      * by eapply written_cuts.
      * apply Hc2. by rewrite <- Hb1.
Qed.

(** A muxer with a stream for each codec. *)
Definition muxer (cids : list Z) : PsMuxer := foldl (λ mx c, (AddStream c mx).2) NewPsMuxer cids.

Definition video_codec (c : Z) : bool := (c =? PsStreamH265) || (c =? PsStreamH264).

(** An element of a map with [nv] video and [na] audio streams. *)
Definition elem_in (nv na : Z) (e : ElementaryStreamElem) : Prop :=
  ElementaryStreamInfoLength e = 0 ∧ (is_video (StreamType e) ∧ 224 ≤ ElementaryStreamId e < 224 + nv ∨
                     is_audio (StreamType e) ∧ 192 ≤ ElementaryStreamId e < 192 + na).

(** A new element with the next id of its kind. *)
Lemma elem_add nv na nv' na' l e : Forall (elem_in nv na) l → NoDup (ElementaryStreamId <$> l) → 0 ≤ nv ≤ 32 → na ≤ 32 →
  nv ≤ nv' → na ≤ na' → elem_in nv' na' e → ElementaryStreamId e = 224 + nv ∨ ElementaryStreamId e = 192 + na ∧ na < 32 →
  Forall (elem_in nv' na') (l ++ [e]) ∧ NoDup (ElementaryStreamId <$> l ++ [e]).
Proof.
  intros Hl Hn Hv Ha Hv' Ha' He Hid. split.
  - apply Forall_app. split; [|by constructor]. eapply Forall_impl; [exact Hl|].
    intros x (H0 & [[? ?]|[? ?]]); (split; [done|]); [left|right]; (split; [done|lia]).
  - rewrite fmap_app. apply NoDup_app. split; [done|]. split; [|cbn; apply NoDup_singleton].
    intros i Hi Hi2. cbn in Hi2. apply list_elem_of_singleton in Hi2 as ->. apply list_elem_of_fmap in Hi as (x & Ei & Hx).
    rewrite Forall_forall in Hl. destruct (Hl x Hx) as (_ & [[? ?]|[? ?]]); lia.
Qed.

(** A muxer with [nv] video and [na] audio streams. *)
Record counted (nv na : Z) (mx : PsMuxer) : Prop := {
  ct_video : VideoBound (system mx) = nv;
  ct_audio : AudioBound (system mx) = na;
  ct_version : ProgramStreamMapVersion (psm mx) = 1 + nv + na;
  ct_count : len (StreamMap (psm mx)) = nv + na ∧ len (Streams (system mx)) = nv + na;
  ct_elems : Forall (elem_in nv na) (StreamMap (psm mx));
  ct_nodup : NoDup (ElementaryStreamId <$> StreamMap (psm mx));
  ct_streams : Forall es_ok (Streams (system mx));
  ct_rest : RateBound (system mx) = 26234 ∧ FixedFlag (system mx) = 0 ∧ CspsFlag (system mx) = 0 ∧
    SystemAudioLockFlag (system mx) = 0 ∧ SystemVideoLockFlag (system mx) = 0 ∧
    PacketRateRestrictionFlag (system mx) = 0 ∧ CurrentNextIndicator (psm mx) = 1 ∧ ElementaryStreamMapLength (psm mx) = 0;
  ct_first : firstframe mx = true;
}.

Lemma counted_ok nv na mx : counted nv na mx → nv ≤ 16 → nv + na ≤ 30 → 0 ≤ nv → 0 ≤ na → mux_ok mx.
Proof.
  intros [] Hv Ha Hnv Hna. destruct ct_rest0 as (H1 & H2 & H3 & H4 & H5 & H6 & H7 & H8). split; [| |done|].
  - split; rewrite ?H1, ?H2, ?H3, ?H4, ?H5, ?H6; try done; lia.
  - split; rewrite ?H7, ?H8; try done; try lia. eapply Forall_impl; [exact ct_elems0|].
    intros e (Hi & [[[->| ->] He]|[[->|[->| ->]] He]]); unfold PsStreamH264, PsStreamH265, PsStreamAac, PsStreamG711A, PsStreamG711U; lia.
  - eapply Forall_impl; [exact ct_elems0|]. intros e (_ & [[Ht He]|[Ht He]]); (split; [lia|]); auto.
Qed.

Lemma counted_new : counted 0 0 NewPsMuxer.
Proof. split; try done; constructor. Qed.

Lemma counted_add nv na mx c : counted nv na mx → is_video c ∨ is_audio c → 0 ≤ nv ≤ 16 → 0 ≤ na < 30 →
  counted (nv + if video_codec c then 1 else 0) (na + if video_codec c then 0 else 1) (AddStream c mx).2.
Proof.
  intros [] Hc Hv Ha. destruct ct_count0 as [Hc1 Hc2].
  assert (Hu8 : u8 c = c) by (destruct Hc as [[->| ->]|[->|[->| ->]]]; done).
  unfold AddStream. fold (video_codec c). destruct (video_codec c) eqn:Ec; cbn [snd]; rewrite ?ct_video0, ?ct_audio0.
  - assert (Hvid : is_video c) by (apply orb_true_iff in Ec as [E|E]; apply Z.eqb_eq in E; [right|left]; done).
    rewrite (u8_small (PesStreamVideo + nv)), (u8_small (nv + 1)) by (unfold PesStreamVideo; lia).
    destruct (elem_add nv na (nv + 1) na _ (mkElem (u8 c) (PesStreamVideo + nv) 0) ct_elems0 ct_nodup0) as [H1 H2];
      [lia|lia|lia|lia|split; [done|left]; cbn; rewrite Hu8; unfold PesStreamVideo; split; [done|lia]|by left|].
    split; cbn -[PesStreamVideo]; rewrite ?ct_version0, ?Z.add_0_r; try done; try lia.
    + rewrite u8_small; lia.
    + rewrite !length_app. cbn [length]. lia.
    + apply Forall_app. split; [done|]. constructor; [|constructor]. split; cbn -[Z.pow]; unfold PesStreamVideo; lia.
  - assert (Haud : is_audio c) by (destruct Hc as [[->| ->]|Hc]; done).
    rewrite (u8_small (PesStreamAudio + na)), (u8_small (na + 1)) by (unfold PesStreamAudio; lia).
    destruct (elem_add nv na nv (na + 1) _ (mkElem (u8 c) (PesStreamAudio + na) 0) ct_elems0 ct_nodup0) as [H1 H2];
      [lia|lia|lia|lia|split; [done|right]; cbn; rewrite Hu8; unfold PesStreamAudio; split; [done|lia]|right; cbn; unfold PesStreamAudio; lia|].
    split; cbn -[PesStreamAudio]; rewrite ?ct_version0, ?Z.add_0_r; try done; try lia.
    + rewrite u8_small; lia.
    + rewrite !length_app. cbn [length]. lia.
    + apply Forall_app. split; [done|]. constructor; [|constructor]. split; cbn -[Z.pow]; unfold PesStreamAudio; lia.
Qed.

Lemma muxer_counted cids : Forall (λ c, is_video c ∨ is_audio c) cids → len cids ≤ 30 →
  len (List.filter video_codec cids) ≤ 16 →
  counted (len (List.filter video_codec cids)) (len cids - len (List.filter video_codec cids)) (muxer cids).
Proof.
  induction cids as [|c cids IH] using rev_ind; intros Hc Hn Hv; [apply counted_new|].
  apply Forall_app in Hc as [Hcs Hc]. apply Forall_cons in Hc as [Hc _]. unfold muxer. rewrite foldl_app. cbn [foldl].
  rewrite List.filter_app, !length_app in *. cbn [List.filter length] in *.
  pose proof (List.filter_length_le video_codec cids).
  pose proof (counted_add _ _ _ c (IH Hcs ltac:(lia) ltac:(lia)) Hc) as H1. unfold muxer in H1.
  destruct (video_codec c); cbn [length] in *; specialize (H1 ltac:(lia) ltac:(lia)).
  - replace (Z.of_nat (length (List.filter video_codec cids) + 1)) with (len (List.filter video_codec cids) + 1) by lia.
    replace (Z.of_nat (length cids + 1) - (len (List.filter video_codec cids) + 1)) with (len cids - len (List.filter video_codec cids) + 0) by lia.
    done.
  - replace (Z.of_nat (length (List.filter video_codec cids) + 0)) with (len (List.filter video_codec cids) + 0) by lia.
    replace (Z.of_nat (length cids + 1) - (len (List.filter video_codec cids) + 0)) with (len cids - len (List.filter video_codec cids) + 1) by lia.
    done.
Qed.

(** The codec of a stream id. *)
Definition codec_of (mx : PsMuxer) (s : Z) : Z :=
  from_option StreamType 0 (List.find (λ e, ElementaryStreamId e =? s) (StreamMap (psm mx))).

(** C7: frames of up to 30 streams, at most 16 of them video, put into a program stream by a muxer
    and given to a demuxer in whatever pieces, but without a cut inside the
    header of a packet, come out as they were: each audio frame at once with
    its codec and times, each video frame, when the next one of its stream
    comes, as its units with their start codes and without delimiters.  The
    frames are those that the format of the two sides can carry ([writes_ok]):
    units and audio frames that are not empty, audio of at most 65522 bytes,
    times below 2^33 in units of 1/90 ms, video frames with a time other than zero
    (a zero is taken for none, [ps_zero_time_merged]) and never two of the same
    time one after the other in a stream. *)
Theorem ps_mux_demux cids l :
  Forall (λ c, is_video c ∨ is_audio c) cids → len cids ≤ 30 → len (List.filter video_codec cids) ≤ 16 →
  writes_ok (muxer cids) l ∅ →
  ∃ mx pkts, writes l (muxer cids) = Ret (mx, pkts) ∧
    ∀ chunks, mjoin chunks = mjoin pkts.*1 → (∀ j, clear_of pkts.*1 (len (mjoin (take j chunks)))) →
    ∃ d rs, inputs chunks NewPsDemuxer = (d, Ret rs) ∧ onFrame d = expect (codec_of (muxer cids)) l ∅ ∧ cache d = [].
Proof.
  intros Hc Hn Hv Hl. pose proof (muxer_counted cids Hc Hn Hv) as Hct. pose proof (List.filter_length_le video_codec cids).
  assert (Hm : mux_ok (muxer cids)) by (apply (counted_ok _ _ _ Hct); lia).
  destruct (writes_flow (codec_of (muxer cids)) l (muxer cids) ∅ (mkView false ∅ [])) as (mx & pkts & es & ws & v & E & Hi & Hb & Hef & Hfr & Hcuts).
  - done.
  - intros e He. unfold codec_of. pose proof (find_stream_Some _ e (mk_nodup _ Hm) He) as Hf. unfold find_stream in Hf. by rewrite Hf.
  - unfold view_ok. by rewrite (ct_first _ _ _ Hct).
  - done.
  - exists mx, pkts. split; [done|]. intros chunks Hch Hcl.
    destruct (input_cuts es ws chunks v Hi Hef) as (d & rs & Ed & _ & Hfd & _ & Hcd); [congruence|intros j; by apply Hcuts|].
    exists d, rs. split; [done|]. by rewrite Hfd, Hfr.
Qed.

Definition demo_writes : list write :=
  [WVideo 224 [(true, [103; 66]); (false, [101; 136; 7])] 40 40; WAudio 192 [1; 2; 3] 50 50; WVideo 224 [(true, [65; 9])] 80 80].
Definition demo_packets : list (list Z) :=
  match writes demo_writes (muxer [27; 144]) with Ret (_, p) => p.*1 | _ => [] end.
Definition demo_chunks : list (list Z) :=
  let b := mjoin demo_packets in [take 3 b; take 60 (drop 3 b); drop 63 b].

Lemma clear_of_check pk n :
  forallb (λ k, (n <=? len (mjoin (take k pk)) + 4) || (len (mjoin (take k pk)) + 14 <=? n)) (seq 0 (length pk)) = true → clear_of pk n.
Proof.
  intros H k Hk. rewrite forallb_forall in H. specialize (H k ltac:(apply in_seq; lia)).
  apply orb_true_iff in H as [H|H]; apply Z.leb_le in H; auto.
Qed.

Lemma demo_clear j : clear_of demo_packets (len (mjoin (take j demo_chunks))).
Proof.
  assert (Hl3 : length demo_chunks = 3%nat) by (vm_compute; reflexivity).
  destruct (decide (3 ≤ j)%nat); [rewrite take_ge by lia|destruct j as [|[|[|j]]]; [..|lia]];
    apply clear_of_check; vm_compute; reflexivity.
Qed.

Lemma demo_clean_nal n : n ≠ [] → (length n ≤ 3)%nat → nth 0 n 0 ≠ 0 → last n ≠ Some 0 → clean_nal n.
Proof.
  intros H0 H3 Hn Hl. split; [done|]. split; [done|]. intros (a & b & ->). rewrite !length_app in H3.
  destruct a; [by apply Hn|]. cbn in H3. lia.
Qed.

Lemma ps_mux_demux_witness :
  ∃ d rs, inputs demo_chunks NewPsDemuxer = (d, Ret rs) ∧
    onFrame d = [([1; 2; 3], 144, 50, 50); ([0; 0; 0; 1; 103; 66], 27, 40, 40); ([0; 0; 1; 101; 136; 7], 27, 40, 40)] ∧
    cache d = [].
Proof.
  destruct (ps_mux_demux [27; 144] demo_writes) as (mx & pkts & E & H).
  - repeat apply List.Forall_cons; try apply List.Forall_nil; [left; left|right; right; left]; reflexivity.
  - vm_compute. discriminate.
  - vm_compute. discriminate.
  - assert (Hc : ∀ n, n ≠ [] → (length n ≤ 3)%nat → nth 0 n 0 ≠ 0 → last n ≠ Some 0 → is_bytes n → ∀ c, unit_ok (c, n))
      by (intros; split; [by apply demo_clean_nal|done]).
    assert (Hb : ∀ n, forallb (λ x, (0 <=? x) && (x <? 256)) n = true → is_bytes n).
    { intros n Hf. apply List.Forall_forall. intros x Hx. rewrite forallb_forall in Hf. specialize (Hf x Hx). lia. }
    repeat split; try (vm_compute; discriminate); try (intros ? ? ? [= <- <- <-]; discriminate).
    + exists (mkElem 27 224 0). repeat split; try discriminate; [by left|by left|].
      repeat apply List.Forall_cons; try apply List.Forall_nil; apply Hc; try apply Hb; vm_compute; try done; lia.
    + exists (mkElem 144 192 0). repeat split; try discriminate; [right; by left|right; by left|by apply Hb].
    + exists (mkElem 27 224 0). repeat split; try discriminate; [by left|by left|].
      repeat apply List.Forall_cons; try apply List.Forall_nil; apply Hc; try apply Hb; vm_compute; try done; lia.
  - assert (Ep : demo_packets = pkts.*1) by (unfold demo_packets; by rewrite E).
    destruct (H demo_chunks) as (d & rs & Ed & Hf & Hcd).
    + rewrite <- Ep. vm_compute. reflexivity.
    + rewrite <- Ep. exact demo_clear.
    + exists d, rs. split; [exact Ed|]. split; [|exact Hcd]. rewrite Hf. vm_compute. reflexivity.
Defined.

(** ** What does not come out as it was *)

(** An empty unit in a frame: the muxer reads its first byte. *)
Example ps_empty_unit_panics : Write 224 [0; 0; 1; 0; 0; 1; 101; 9] 40 40 (muxer [27]) = Panic.
Proof. vm_compute. reflexivity. Qed.

(** A frame at time 0 is not told from none: the next frame is put behind it
    and both are given out at the time of the second. *)
Example ps_zero_time_merged :
  match writes [WVideo 224 [(true, [65; 1])] 0 0; WVideo 224 [(true, [65; 2])] 40 40; WVideo 224 [(true, [65; 3])] 80 80] (muxer [27]) with
  | Ret (_, pkts) => onFrame (inputs pkts.*1 NewPsDemuxer).1
  | _ => []
  end = [([0; 0; 0; 1; 65; 1], 27, 40, 40); ([0; 0; 0; 1; 65; 2], 27, 40, 40)].
Proof. vm_compute. reflexivity. Qed.

(** Flush gives the last access unit whole, with the delimiter that Input leaves
    out. *)
Example ps_flush_whole :
  match writes [WVideo 224 [(true, [65; 1]); (true, [65; 2])] 40 40] (muxer [27]) with
  | Ret (_, pkts) => let d := (inputs pkts.*1 NewPsDemuxer).1 in onFrame (Flush (map_to_list (streamMap d)) d)
  | _ => []
  end = [([0; 0; 0; 1; 9; 240; 0; 0; 0; 1; 65; 1; 0; 0; 0; 1; 65; 2], 27, 40, 40)].
Proof. vm_compute. reflexivity. Qed.
