(* ===== verification/GoText.v ===== *)
(** * Text of Go's standard library

    The functions of strings, strconv, encoding/base64 and encoding/hex the
    modelled code uses, on strings as lists of bytes. *)

From S2P Require Import Prelude.

(** ** strings *)

Definition HasPrefix (s p : list Z) : bool := bool_decide (take (length p) s = p).
Definition HasSuffix (s p : list Z) : bool :=
  (len p <=? len s) && bool_decide (drop (length s - length p) s = p).
Definition TrimPrefix (s p : list Z) : list Z := if HasPrefix s p then drop (length p) s else s.

(** Before and after the first [sep]. *)
Fixpoint Cut (sep s : list Z) : option (list Z * list Z) :=
  if HasPrefix s sep then Some ([], drop (length sep) s) else
  match s with
  | [] => None
  | x :: s => '(a, b) ← Cut sep s; Some (x :: a, b)
  end.

(** At most [n] cuts. *)
Fixpoint split_times (n : nat) (sep s : list Z) : list (list Z) :=
  match n with
  | O => [s]
  | S n => match Cut sep s with Some (a, b) => a :: split_times n sep b | None => [s] end
  end.

(** For a separator that is not empty; each cut takes at least a byte. *)
Definition Split (s sep : list Z) : list (list Z) := split_times (length s) sep s.
Definition SplitN (s sep : list Z) (n : nat) : list (list Z) := split_times (n - 1) sep s.

Fixpoint Join (l : list (list Z)) (sep : list Z) : list Z :=
  match l with [] => [] | [s] => s | s :: l => s ++ sep ++ Join l sep end.
Definition ReplaceAll (s old new : list Z) : list Z := Join (Split s old) new.

Fixpoint trim_left (p : Z → bool) (s : list Z) : list Z :=
  match s with x :: t => if p x then trim_left p t else s | [] => [] end.
Definition TrimLeft (s : list Z) (c : Z) : list Z := trim_left (Z.eqb c) s.
Definition TrimRight (s : list Z) (c : Z) : list Z := reverse (trim_left (Z.eqb c) (reverse s)).

(** The white space of Unicode, in UTF-8. *)
Definition spaces : list (list Z) :=
  [[9]; [10]; [11]; [12]; [13]; [32]; [194; 133]; [194; 160]; [225; 154; 128];
   [226; 128; 128]; [226; 128; 129]; [226; 128; 130]; [226; 128; 131]; [226; 128; 132]; [226; 128; 133];
   [226; 128; 134]; [226; 128; 135]; [226; 128; 136]; [226; 128; 137]; [226; 128; 138];
   [226; 128; 168]; [226; 128; 169]; [226; 128; 175]; [226; 129; 159]; [227; 128; 128]].

Fixpoint trim_any (n : nat) (l : list (list Z)) (s : list Z) : list Z :=
  match n with
  | O => s
  | S n => match List.find (HasPrefix s) l with Some p => trim_any n l (drop (length p) s) | None => s end
  end.
Definition TrimSpace (s : list Z) : list Z :=
  let s := trim_any (length s) spaces s in
  reverse (trim_any (length s) (reverse <$> spaces) (reverse s)).

Definition lower (c : Z) : Z := if (65 <=? c) && (c <=? 90) then c + 32 else c.

(** [EqualFold] with an ASCII [t]: two letters have another form outside ASCII,
    the long s and the Kelvin sign. *)
Fixpoint EqualFold (s t : list Z) : bool :=
  match t with
  | [] => bool_decide (s = [])
  | c :: t =>
      match s with
      | 197 :: 191 :: s' => if lower c =? 115 then EqualFold s' t else false
      | 226 :: 132 :: 170 :: s' => if lower c =? 107 then EqualFold s' t else false
      | x :: s' => if lower x =? lower c then EqualFold s' t else false
      | [] => false
      end
  end.

(** ** strconv *)

Definition is_digit (c : Z) : bool := (48 <=? c) && (c <=? 57).
Definition MaxUint64 : Z := 18446744073709551615.

(** [ParseUint(s, 10, 64)] from [n] on; [None] is a syntax error, and a number
    out of range gives the largest one. *)
Fixpoint parse_uint (s : list Z) (n : Z) : option Z :=
  match s with
  | [] => Some n
  | c :: s =>
      if is_digit c then
        let n := n * 10 + (c - 48) in
        if n >? MaxUint64 then Some MaxUint64 else parse_uint s n
      else None
  end.

(** The value next to the error. *)
Definition Atoi (s : list Z) : Z * option goerr :=
  let '(neg, ds) := match s with 45 :: ds => (true, ds) | 43 :: ds => (false, ds) | _ => (false, s) end in
  match ds with
  | [] => (0, Some ErrFmt)
  | _ =>
      match parse_uint ds 0 with
      | None => (0, Some ErrFmt)
      | Some n =>
          if neg : bool then if n >? 2 ^ 63 then (- 2 ^ 63, Some ErrFmt) else (- n, None)
          else if n >=? 2 ^ 63 then (2 ^ 63 - 1, Some ErrFmt) else (n, None)
      end
  end.

Fixpoint dec_digits (fuel : nat) (n : Z) : list Z :=
  match fuel with
  | O => []
  | S fuel => (if n <? 10 then [] else dec_digits fuel (n / 10)) ++ [48 + n mod 10]
  end.
(** [%d]; a number has at most as many digits as bits. *)
Definition Itoa (n : Z) : list Z :=
  let digits n := dec_digits (S (Z.to_nat (Z.log2 n))) n in
  if n <? 0 then 45 :: digits (- n) else digits n.

(** ** encoding/hex *)

Definition hex_digit (v : Z) : Z := if v <? 10 then 48 + v else 87 + v.
Definition hex_EncodeToString (b : list Z) : list Z := mjoin ((λ x, [hex_digit (x / 16); hex_digit (x mod 16)]) <$> b).

Definition hex_value (c : Z) : option Z :=
  if is_digit c then Some (c - 48)
  else if (97 <=? c) && (c <=? 102) then Some (c - 87)
  else if (65 <=? c) && (c <=? 70) then Some (c - 55) else None.

(** What was decoded before the error comes with it. *)
Fixpoint hex_DecodeString (s : list Z) : list Z * option goerr :=
  match s with
  | [] => ([], None)
  | [_] => ([], Some ErrFmt)
  | a :: b :: s =>
      match hex_value a, hex_value b with
      | Some x, Some y => let '(l, e) := hex_DecodeString s in (x * 16 + y :: l, e)
      | _, _ => ([], Some ErrFmt)
      end
  end.

(** ** encoding/base64, the standard encoding with padding *)

Definition b64_char (v : Z) : Z :=
  if v <? 26 then 65 + v else if v <? 52 then 71 + v else if v <? 62 then v - 4 else if v =? 62 then 43 else 47.

Definition b64_value (c : Z) : option Z :=
  if (65 <=? c) && (c <=? 90) then Some (c - 65)
  else if (97 <=? c) && (c <=? 122) then Some (c - 71)
  else if is_digit c then Some (c + 4)
  else if c =? 43 then Some 62 else if c =? 47 then Some 63 else None.

Fixpoint b64_EncodeToString (b : list Z) : list Z :=
  match b with
  | [] => []
  | [x] => [b64_char (x / 4); b64_char (x mod 4 * 16); 61; 61]
  | [x; y] => [b64_char (x / 4); b64_char (x mod 4 * 16 + y / 16); b64_char (y mod 16 * 4); 61]
  | x :: y :: z :: b =>
      b64_char (x / 4) :: b64_char (x mod 4 * 16 + y / 16) :: b64_char (y mod 16 * 4 + z / 64) :: b64_char (z mod 64) ::
      b64_EncodeToString b
  end.

Definition is_newline (c : Z) : bool := (c =? 10) || (c =? 13).

(** [decodeQuantum]: [q] are the values of the quantum so far.  It returns what
    is left, the bytes of the quantum and whether it is an error. *)
Definition quantum_bytes (q : list Z) : list Z :=
  let at_ i := nth i q 0 in
  take (length q - 1)
    [at_ 0%nat * 4 + at_ 1%nat / 16; at_ 1%nat mod 16 * 16 + at_ 2%nat / 4; at_ 2%nat mod 4 * 64 + at_ 3%nat].

Definition padded (q s : list Z) : list Z * list Z * bool :=
  let s := trim_left is_newline s in (s, quantum_bytes q, negb (bool_decide (s = []))).

Fixpoint quantum (s q : list Z) : list Z * list Z * bool :=
  if 4 <=? len q then (s, quantum_bytes q, false) else
  match s with
  | [] => ([], [], negb (len q =? 0))
  | c :: s =>
      match b64_value c with
      | Some v => quantum s (q ++ [v])
      | None =>
          if is_newline c then quantum s q
          else if negb (c =? 61) then (s, [], true)
          else if len q <? 2 then (s, [], true)
          else if len q =? 2 then
            match trim_left is_newline s with
            | c :: s => if c =? 61 then padded q s else (c :: s, [], true)
            | [] => ([], [], true)
            end
          else padded q s
      end
  end.

(** Each quantum takes a byte; the bytes before an error come with it. *)
Fixpoint b64_loop (fuel : nat) (s : list Z) : list Z * option goerr :=
  match fuel, s with
  | O, _ | _, [] => ([], None)
  | S fuel, _ =>
      let '(s, l, bad) := quantum s [] in
      if bad : bool then (l, Some ErrFmt) else let '(l', e) := b64_loop fuel s in (l ++ l', e)
  end.
Definition b64_DecodeString (s : list Z) : list Z * option goerr := b64_loop (length s) s.

(** * Lemmas *)

(** ** Cutting *)

Lemma HasPrefix_app p s : HasPrefix (p ++ s) p = true.
Proof. unfold HasPrefix. rewrite take_app_length. by apply bool_decide_true. Qed.

Lemma HasPrefix_head c p x s : x ≠ c → HasPrefix (x :: s) (c :: p) = false.
Proof. intros Hx. unfold HasPrefix. apply bool_decide_false. cbn. congruence. Qed.

Lemma HasSuffix_app a s : HasSuffix (a ++ s) s = true.
Proof.
  unfold HasSuffix. rewrite (proj2 (Z.leb_le _ _)) by len_lia. apply bool_decide_true.
  rewrite length_app, Nat.add_sub. apply drop_app_length.
Qed.

Lemma Cut_found c p a b : c ∉ a → Cut (c :: p) (a ++ (c :: p) ++ b) = Some (a, b).
Proof.
  induction a as [|x a IH]; intros Ha.
  - cbn [app]. assert (E := HasPrefix_app (c :: p) b). cbn [app] in E. cbn [Cut]. rewrite E.
    do 2 f_equal. cbn [length drop]. apply drop_app_length.
  - apply not_elem_of_cons in Ha as [Hx Ha]. cbn [app Cut]. rewrite HasPrefix_head by congruence.
    change (c :: p ++ b) with ((c :: p) ++ b). by rewrite IH.
Qed.

Lemma Cut_none c p s : c ∉ s → Cut (c :: p) s = None.
Proof.
  induction s as [|x s IH]; intros Hs; [done|]. apply not_elem_of_cons in Hs as [Hx Hs].
  cbn [Cut]. rewrite HasPrefix_head by congruence. by rewrite IH.
Qed.

Lemma split_times_join c p : ∀ l s n, c ∉ s → Forall (λ s, c ∉ s) l → (length l ≤ n)%nat →
  split_times n (c :: p) (Join (s :: l) (c :: p)) = s :: l.
Proof.
  induction l as [|t l IH]; intros s n Hs Hl Hn.
  - cbn [Join]. destruct n; [done|]. cbn [split_times]. by rewrite Cut_none.
  - apply Forall_cons in Hl as [Ht Hl]. destruct n as [|n]; [cbn in Hn; lia|].
    change (Join (s :: t :: l) (c :: p)) with (s ++ (c :: p) ++ Join (t :: l) (c :: p)).
    cbn [split_times]. rewrite Cut_found by done. f_equal. apply IH; [done|done|cbn in Hn; lia].
Qed.

Lemma length_Join sep : ∀ l s, (length l * length sep ≤ length (Join (s :: l) sep))%nat.
Proof.
  induction l as [|t l IH]; intros s; [cbn; lia|]. change (Join (s :: t :: l) sep) with (s ++ sep ++ Join (t :: l) sep).
  rewrite !length_app. specialize (IH t). cbn [length Nat.mul]. lia.
Qed.

Lemma Split_Join c p s l : c ∉ s → Forall (λ s, c ∉ s) l → Split (Join (s :: l) (c :: p)) (c :: p) = s :: l.
Proof.
  intros Hs Hl. apply split_times_join; [done|done|]. pose proof (length_Join (c :: p) l s). cbn [length] in *. lia.
Qed.

(** Lines, each with its end. *)
Definition lines (e : list Z) (l : list (list Z)) : list Z := mjoin ((λ s, s ++ e) <$> l).

Lemma lines_cons e s l : lines e (s :: l) = s ++ e ++ lines e l.
Proof. unfold lines. cbn. by rewrite <- app_assoc. Qed.
Lemma lines_app e l m : lines e (l ++ m) = lines e l ++ lines e m.
Proof. unfold lines. by rewrite fmap_app, join_app. Qed.

Lemma lines_Join e l : lines e l = Join (l ++ [[]]) e.
Proof.
  induction l as [|s l IH]; [done|]. rewrite lines_cons, IH. cbn [app]. destruct l; [done|]. reflexivity.
Qed.

Lemma Split_lines c p l : Forall (λ s, c ∉ s) l → Split (lines (c :: p) l) (c :: p) = l ++ [[]].
Proof.
  intros Hl. rewrite lines_Join. destruct l as [|s l]; [reflexivity|]. cbn [app].
  apply Forall_cons in Hl as [Hs Hl]. apply Split_Join; [done|]. apply Forall_app. split; [done|].
  apply Forall_cons. split; [apply not_elem_of_nil|by apply Forall_nil].
Qed.

Lemma ReplaceAll_lines c p new l : Forall (λ s, c ∉ s) l → ReplaceAll (lines (c :: p) l) (c :: p) new = lines new l.
Proof. intros Hl. unfold ReplaceAll. by rewrite Split_lines, lines_Join. Qed.

(** ** Trimming *)

Definition graph (x : Z) : Prop := 33 ≤ x ≤ 126.

Lemma TrimLeft_other x s c : x ≠ c → TrimLeft (x :: s) c = x :: s.
Proof. intros Hx. unfold TrimLeft. cbn. by rewrite (proj2 (Z.eqb_neq _ _)) by congruence. Qed.

Lemma TrimRight_other s x c : x ≠ c → TrimRight (s ++ [x]) c = s ++ [x].
Proof.
  intros Hx. unfold TrimRight. rewrite reverse_app. cbn [reverse app].
  change (reverse [x] ++ reverse s) with (x :: reverse s). cbn [trim_left].
  rewrite (proj2 (Z.eqb_neq _ _)) by congruence. by rewrite reverse_cons, reverse_involutive.
Qed.

Lemma no_space n l x s : graph x → (l = spaces ∨ l = reverse <$> spaces) → trim_any n l (x :: s) = x :: s.
Proof.
  intros Hx Hl. destruct n; [done|]. cbn [trim_any]. destruct (List.find _ l) as [p|] eqn:E; [exfalso|done].
  apply List.find_some in E as [Hin Hp]. unfold HasPrefix in Hp. apply bool_decide_eq_true in Hp.
  assert (H : forallb (λ p, match p with y :: _ => negb ((33 <=? y) && (y <=? 126)) | [] => false end) l = true)
    by (destruct Hl as [-> | ->]; reflexivity).
  rewrite forallb_forall in H. specialize (H p Hin). destruct p as [|y p]; [done|]. cbn in Hp. injection Hp as <- _.
  unfold graph in Hx. lia.
Qed.

Lemma TrimSpace_both x s y : graph x → graph y → TrimSpace (x :: s ++ [y]) = x :: s ++ [y].
Proof.
  intros Hx Hy. unfold TrimSpace. rewrite no_space by auto. rewrite app_comm_cons, reverse_app.
  change (reverse [y] ++ ?t) with (y :: t). rewrite no_space by auto.
  by rewrite reverse_cons, reverse_involutive.
Qed.

Lemma TrimSpace_blank s : TrimSpace (32 :: s) = TrimSpace s.
Proof. reflexivity. Qed.

(** ** Numbers *)

Lemma dec_digits_digit fuel : ∀ n, 0 ≤ n → Forall (λ c, 48 ≤ c ≤ 57) (dec_digits fuel n).
Proof.
  induction fuel as [|fuel IH]; intros n Hn; [by apply Forall_nil|]. cbn [dec_digits]. apply Forall_app. split.
  - case_match; [by apply Forall_nil|]. apply IH. zdm.
  - apply Forall_cons. split; [zdm|by apply Forall_nil].
Qed.

Lemma parse_uint_app s t n m : parse_uint s n = Some m → m ≤ MaxUint64 → m ≠ MaxUint64 ∨ t = [] →
  parse_uint (s ++ t) n = parse_uint t m.
Proof.
  revert n. induction s as [|c s IH]; intros n; cbn [parse_uint app]; [by intros [= ->]|].
  destruct (is_digit c); [|done]. destruct (Z.gtb_spec (n * 10 + (c - 48)) MaxUint64); [|apply IH].
  intros [= <-] _ [H' | ->]; [done|]. done.
Qed.

Lemma parse_dec_digits fuel : ∀ n, 0 ≤ n < 2 ^ 64 - 1 → n < 2 ^ Z.of_nat fuel → parse_uint (dec_digits fuel n) 0 = Some n.
Proof.
  induction fuel as [|fuel IH]; intros n Hn Hf; [cbn; f_equal; lia|]. cbn [dec_digits].
  assert (Hd : is_digit (48 + n mod 10) = true) by (unfold is_digit; zdm).
  assert (Hlast : ∀ m, m * 10 + n mod 10 = n → 0 ≤ m → parse_uint [48 + n mod 10] m = Some n).
  { intros m Hm Hm0. cbn [parse_uint]. rewrite Hd. replace (m * 10 + (48 + n mod 10 - 48)) with n by lia.
    destruct (Z.gtb_spec n MaxUint64); [unfold MaxUint64 in *; lia|done]. }
  destruct (Z.ltb_spec n 10); [apply Hlast; zdm|].
  rewrite (parse_uint_app _ _ 0 (n / 10)); [apply Hlast; zdm| |unfold MaxUint64; zdm|left; unfold MaxUint64; zdm].
  apply IH; [zdm|]. rewrite Nat2Z.inj_succ, Z.pow_succ_r in Hf by lia. zdm.
Qed.

Lemma dec_digits_nonempty fuel n : dec_digits (S fuel) n ≠ [].
Proof. cbn [dec_digits]. intros E. by apply app_nil in E as [_ E]. Qed.

Lemma Atoi_Itoa n : - 2 ^ 63 < n < 2 ^ 63 → Atoi (Itoa n) = (n, None).
Proof.
  intros Hn. unfold Atoi, Itoa.
  assert (Hfuel : ∀ m, 0 ≤ m < 2 ^ 63 → m < 2 ^ Z.of_nat (S (Z.to_nat (Z.log2 m)))).
  { intros m Hm. rewrite Nat2Z.inj_succ, Z2Nat.id by apply Z.log2_nonneg.
    destruct (Z.eq_dec m 0) as [->|]; [done|]. apply Z.log2_spec. lia. }
  destruct (Z.ltb_spec n 0).
  - set (k := S _). pose proof (dec_digits_nonempty (Z.to_nat (Z.log2 (- n))) (- n)). fold k in H0.
    destruct (dec_digits k (- n)) as [|c l] eqn:E; [done|]. rewrite <- E.
    rewrite parse_dec_digits by first [lia | apply Hfuel; lia].
    destruct (Z.gtb_spec (- n) (2 ^ 63)); [lia|]. do 2 f_equal. lia.
  - set (k := S _). pose proof (dec_digits_nonempty (Z.to_nat (Z.log2 n)) n) as H0. fold k in H0.
    pose proof (dec_digits_digit k n ltac:(lia)) as Hd. pose proof (parse_dec_digits k n ltac:(lia) (Hfuel n ltac:(lia))) as E.
    destruct (dec_digits k n) as [|c l]; [done|]. apply Forall_cons in Hd as [Hd _].
    assert (H1 : c = 48 ∨ c = 49 ∨ c = 50 ∨ c = 51 ∨ c = 52 ∨ c = 53 ∨ c = 54 ∨ c = 55 ∨ c = 56 ∨ c = 57) by lia.
    destruct H1 as [-> |[-> |[-> |[-> |[-> |[-> |[-> |[-> |[-> | ->]]]]]]]]]; rewrite E;
      (destruct (Z.geb_spec n (2 ^ 63)); [lia|done]).
Qed.

Lemma Itoa_char n c : c ∈ Itoa n → c = 45 ∨ 48 ≤ c ≤ 57.
Proof.
  unfold Itoa. intros H. assert (Hd : ∀ m, 0 ≤ m → c ∈ dec_digits (S (Z.to_nat (Z.log2 m))) m → 48 ≤ c ≤ 57).
  { intros m Hm Hc. pose proof (dec_digits_digit (S (Z.to_nat (Z.log2 m))) m Hm) as Hf.
    rewrite Forall_forall in Hf. by apply Hf. }
  destruct (Z.ltb_spec n 0).
  - apply elem_of_cons in H as [->|H]; [by left|right]. apply (Hd (- n)); [lia|done].
  - right. by apply (Hd n).
Qed.

Lemma Itoa_digits n c : 0 ≤ n → c ∈ Itoa n → 48 ≤ c ≤ 57.
Proof.
  intros Hn Hc. unfold Itoa in Hc. rewrite (proj2 (Z.ltb_ge n 0)) in Hc by done.
  pose proof (dec_digits_digit (S (Z.to_nat (Z.log2 n))) n Hn) as H. rewrite Forall_forall in H. by apply H.
Qed.
Lemma Itoa_no c n : 0 ≤ n → ¬ (48 ≤ c ≤ 57) → c ∉ Itoa n.
Proof. intros Hn H Hc. apply Itoa_digits in Hc; lia. Qed.

(** ** Hexadecimal and base64 *)

Lemma hex_value_digit v : 0 ≤ v < 16 → hex_value (hex_digit v) = Some v.
Proof.
  intros Hv. apply (bool_decide_eq_true_1 _). revert v Hv.
  apply (for_range_spec 16 (λ v, bool_decide (hex_value (hex_digit v) = Some v))). vm_compute. reflexivity.
Qed.

Lemma hex_cons x b : hex_EncodeToString (x :: b) = hex_digit (x / 16) :: hex_digit (x mod 16) :: hex_EncodeToString b.
Proof. reflexivity. Qed.

Lemma hex_roundtrip b : is_bytes b → hex_DecodeString (hex_EncodeToString b) = (b, None).
Proof.
  induction b as [|x b IH]; intros Hb; [done|]. apply is_bytes_cons in Hb as [Hx Hb].
  rewrite hex_cons. cbn [hex_DecodeString]. rewrite !hex_value_digit by zdm. rewrite (IH Hb). do 2 f_equal. zdm.
Qed.

Lemma length_hex b : len (hex_EncodeToString b) = 2 * len b.
Proof. induction b as [|x b IH]; [done|]. rewrite hex_cons. cbn [length]. lia. Qed.

Lemma hex_char b c : is_bytes b → c ∈ hex_EncodeToString b → 48 ≤ c ≤ 57 ∨ 97 ≤ c ≤ 102.
Proof.
  induction b as [|x b IH]; intros Hb; [by intros ?%elem_of_nil|]. apply is_bytes_cons in Hb as [Hx Hb].
  rewrite hex_cons. assert (Hd : ∀ v, 0 ≤ v < 16 → 48 ≤ hex_digit v ≤ 57 ∨ 97 ≤ hex_digit v ≤ 102).
  { intros v Hv. unfold hex_digit. destruct (Z.ltb_spec v 10); lia. }
  rewrite !elem_of_cons. intros [->|[->|H]]; [apply Hd; zdm|apply Hd; zdm|by apply IH].
Qed.

Lemma b64_value_char v : 0 ≤ v < 64 → b64_value (b64_char v) = Some v.
Proof.
  intros Hv. apply (bool_decide_eq_true_1 _). revert v Hv.
  apply (for_range_spec 64 (λ v, bool_decide (b64_value (b64_char v) = Some v))). vm_compute. reflexivity.
Qed.

(** What base64 is made of. *)
Definition b64_alpha (c : Z) : Prop := 65 ≤ c ≤ 90 ∨ 97 ≤ c ≤ 122 ∨ 48 ≤ c ≤ 57 ∨ c = 43 ∨ c = 47 ∨ c = 61.

Lemma b64_char_alpha v : 0 ≤ v < 64 → b64_alpha (b64_char v).
Proof.
  intros Hv. unfold b64_alpha, b64_char. repeat (case_match; try lia).
Qed.

(** Induction by groups of three bytes. *)
Lemma three_ind (P : list Z → Prop) : P [] → (∀ x, P [x]) → (∀ x y, P [x; y]) →
  (∀ x y z b, P b → P (x :: y :: z :: b)) → ∀ b, P b.
Proof.
  intros H0 H1 H2 H3. fix IH 1. intros [|x [|y [|z b]]]; [exact H0|apply H1|apply H2|]. apply H3, IH.
Qed.

Lemma b64_chars b : is_bytes b → Forall b64_alpha (b64_EncodeToString b).
Proof.
  assert (Hp : b64_alpha 61) by (unfold b64_alpha; lia).
  induction b as [|x|x y|x y z b IH] using three_ind; intros Hb; cbn [b64_EncodeToString];
    rewrite ?is_bytes_cons in Hb; destruct_and?; repeat (apply Forall_cons; split); try apply Forall_nil;
    try (apply b64_char_alpha; zdm); try done. by apply IH.
Qed.

Lemma quantum_value c v s q : (length q < 4)%nat → b64_value c = Some v → quantum (c :: s) q = quantum s (q ++ [v]).
Proof. intros Hq Hv. cbn [quantum]. rewrite (proj2 (Z.leb_gt _ _)) by lia. by rewrite Hv. Qed.

Lemma quantum_full s a b c d : quantum s [a; b; c; d] = (s, quantum_bytes [a; b; c; d], false).
Proof. by destruct s. Qed.

Local Ltac b64_step :=
  match goal with |- context [quantum (b64_char ?v :: ?s) ?q] =>
    rewrite (quantum_value (b64_char v) v s q); [cbn [app]|cbn; lia|apply b64_value_char; zdm] end.

Lemma b64_loop_encode : ∀ b fuel, is_bytes b → (length (b64_EncodeToString b) ≤ fuel)%nat →
  b64_loop fuel (b64_EncodeToString b) = (b, None).
Proof.
  induction b as [|x|x y|x y z b IH] using three_ind; intros fuel Hb Hf; cbn [b64_EncodeToString length] in *;
    rewrite ?is_bytes_cons in Hb; destruct_and?; (destruct fuel as [|fuel]; [first [lia|done]|]); [done|..]; cbn [b64_loop].
  - do 2 b64_step. cbn -[quantum_bytes]. destruct fuel; [lia|]. f_equal. cbn. f_equal. zdm.
  - do 3 b64_step. cbn -[quantum_bytes]. destruct fuel; [lia|]. f_equal. cbn. f_equal; [zdm|]. f_equal. zdm.
  - do 4 b64_step. rewrite quantum_full, IH by (done || lia). f_equal. cbn. do 2 (f_equal; [zdm|]). f_equal. zdm.
Qed.

Lemma b64_roundtrip b : is_bytes b → b64_DecodeString (b64_EncodeToString b) = (b, None).
Proof. intros Hb. by apply b64_loop_encode. Qed.
