(* ===== verification/Sdp.v ===== *)
(** * Session descriptions (src/pkg/sdp)

    Packing a description of the media of a stream (pack.go), parsing one into
    its media (parse_raw.go) and into what the RTSP sessions use of it
    (parse_logic.go, avconfig.go). *)

From stdpp Require Import gmap.
From S2P Require Import Prelude GoText Base.

(** ** parse_raw.go *)

Record M := mkM { Media : list Z; PT : Z }.
Record ARtpMap := mkARtpMap {
  mapPayloadType : Z;
  EncodingName : list Z;
  ClockRate : Z;
  EncodingParameters : list Z;
}.
Record AFmtPBase := mkAFmtP { Format : Z; Parameters : gmap (list Z) (list Z) }.
Record MediaDesc := mkMediaDesc {
  md_M : M;
  md_ARtpMap : ARtpMap;
  md_AFmtPBase : option AFmtPBase;
  AControl : list Z;
}.

Definition zero_ARtpMap : ARtpMap := mkARtpMap 0 [] 0 [].

(** [err] of strconv as the error of the function. *)
Definition atoi (s : list Z) : outcome Z :=
  match Atoi s with (n, None) => Ret n | (_, Some e) => Fail e end.

Definition ParseM (s : list Z) : outcome M :=
  let items := Split (TrimPrefix s (str "m=")) (str " ") in
  if len items <? 1 then Fail ErrSdp else
  media ← go_index items 0;
  pt ← (if len items >? 3 then s3 ← go_index items 3; Ret (Atoi s3).1 else Ret 0);
  Ret (mkM media pt).

(** The part after the first [c]. *)
Definition after (s c : list Z) : outcome (list Z * list Z) :=
  match SplitN s c 2 with [a; b] => Ret (a, b) | _ => Fail ErrSdp end.

Definition ParseARtpMap (s : list Z) : outcome ARtpMap :=
  '(_, s) ← after s (str ":");
  '(pt, s) ← after s (str " ");
  payloadType ← atoi pt;
  match SplitN s (str "/") 3 with
  | [name; rate; params] => clockRate ← atoi rate; Ret (mkARtpMap payloadType name clockRate params)
  | [name; rate] => clockRate ← atoi rate; Ret (mkARtpMap payloadType name clockRate [])
  | _ => Fail ErrSdp
  end.

Fixpoint parse_parameters (items : list (list Z)) (m : gmap (list Z) (list Z)) : outcome (gmap (list Z) (list Z)) :=
  match items with
  | [] => Ret m
  | pp :: items => '(k, v) ← after (TrimSpace pp) (str "="); parse_parameters items (<[k := v]> m)
  end.

Definition ParseAFmtPBase (s : list Z) : outcome AFmtPBase :=
  '(_, s) ← after s (str ":");
  '(f, s) ← after s (str " ");
  format ← atoi f;
  m ← parse_parameters (Split (TrimRight (TrimLeft s 59) 59) (str ";")) ∅;
  Ret (mkAFmtP format m).

Definition ParseAControl (s : list Z) : outcome (list Z) :=
  if negb (HasPrefix s (str "a=control:")) then Fail ErrSdp else Ret (TrimPrefix s (str "a=control:")).

(** The media so far and the one being read. *)
Abbreviation raw := (list MediaDesc * option MediaDesc)%type.

Definition finish (c : raw) : list MediaDesc := c.1 ++ match c.2 with Some md => [md] | None => [] end.
Definition set_md (f : MediaDesc → MediaDesc) (c : raw) : raw := (c.1, f <$> c.2).

Definition line_m (line : list Z) (c : raw) : outcome raw :=
  if HasPrefix line (str "m=") then m ← ParseM line; Ret (finish c, Some (mkMediaDesc m zero_ARtpMap None [])) else Ret c.
Definition line_rtpmap (line : list Z) (c : raw) : outcome raw :=
  if HasPrefix line (str "a=rtpmap") then
    r ← ParseARtpMap line; Ret (set_md (λ md, mkMediaDesc (md_M md) r (md_AFmtPBase md) (AControl md)) c)
  else Ret c.
Definition line_fmtp (line : list Z) (c : raw) : outcome raw :=
  if HasPrefix line (str "a=fmtp") then
    f ← ParseAFmtPBase line; Ret (set_md (λ md, mkMediaDesc (md_M md) (md_ARtpMap md) (Some f) (AControl md)) c)
  else Ret c.
Definition line_control (line : list Z) (c : raw) : outcome raw :=
  if HasPrefix line (str "a=control") then
    v ← ParseAControl line; Ret (set_md (λ md, mkMediaDesc (md_M md) (md_ARtpMap md) (md_AFmtPBase md) v) c)
  else Ret c.

(** The four tests on a line exclude one another. *)
Definition parse_line (line : list Z) (c : raw) : outcome raw :=
  c ← line_m line c; c ← line_rtpmap line c; c ← line_fmtp line c; line_control line c.

Fixpoint parse_lines (lines : list (list Z)) (c : raw) : outcome raw :=
  match lines with [] => Ret c | line :: lines => c ← parse_line line c; parse_lines lines c end.

Definition parseSdp2RawContext (lines : list (list Z)) : outcome (list MediaDesc) :=
  c ← parse_lines lines ([], None); Ret (finish c).

(** Lines after an fmtp line that start no attribute or media are joined to it. *)
Definition starts_line (l : list Z) : bool := HasPrefix l (str "m=") || HasPrefix l (str "a=").
Fixpoint join_fmtp (lines : list (list Z)) (fmtp : option (list Z)) : list (list Z) :=
  let flush := match fmtp with Some l => [l] | None => [] end in
  match lines with
  | [] => flush
  | l :: lines =>
      match fmtp with
      | Some l0 =>
          if negb (starts_line l) then join_fmtp lines (Some (l0 ++ l))
          else if HasPrefix l (str "a=fmtp") then l0 :: join_fmtp lines (Some l) else l0 :: l :: join_fmtp lines None
      | None => if HasPrefix l (str "a=fmtp") then join_fmtp lines (Some l) else l :: join_fmtp lines None
      end
  end.

Definition crlf : list Z := [13; 10].

Definition ParseSdp2RawContext (b : list Z) : outcome (list MediaDesc) :=
  let lines := Split b crlf in
  match parseSdp2RawContext lines with
  | Fail _ => parseSdp2RawContext (join_fmtp lines None)
  | r => r
  end.

(** ** avconfig.go

    The slices next to the error; [None] is nil. *)

Definition ParseAsc (a : AFmtPBase) : option (list Z) :=
  match Parameters a !! str "config" with
  | None => None
  | Some v => if (len v <? 4) || negb (len v mod 2 =? 0) then None else Some (hex_DecodeString v).1
  end.

Definition decode_param (a : AFmtPBase) (key : list Z) : option (list Z) :=
  match Parameters a !! key with
  | Some v => match b64_DecodeString v with (b, None) => Some b | _ => None end
  | None => None
  end.

Definition sets : Type := option (list Z) * option (list Z) * option (list Z).

Definition ParseVpsSpsPps (a : AFmtPBase) : sets :=
  match decode_param a (str "sprop-vps"), decode_param a (str "sprop-sps"), decode_param a (str "sprop-pps") with
  | Some vps, Some sps, Some pps => (Some vps, Some sps, Some pps)
  | _, _, _ => (None, None, None)
  end.

(** When only the second set is wrong, what was decoded of it is returned. *)
Definition ParseSpsPps (a : AFmtPBase) : option (list Z) * option (list Z) :=
  match Parameters a !! str "sprop-parameter-sets" with
  | None => (None, None)
  | Some v =>
      match SplitN v (str ",") 2 with
      | [s; p] =>
          match b64_DecodeString s with
          | (sps, None) => (Some sps, Some (b64_DecodeString p).1)
          | _ => (None, None)
          end
      | _ => (None, None)
      end
  end.

(** ** parse_logic.go *)

Record LogicContext := mkLogic {
  RawSdp : list Z;
  AudioClockRate : Z;
  VideoClockRate : Z;
  Asc : option (list Z);
  Vps : option (list Z);
  Sps : option (list Z);
  Pps : option (list Z);
  audioPayloadTypeBase : Z;
  videoPayloadTypeBase : Z;
  audioPayloadTypeOrigin : Z;
  videoPayloadTypeOrigin : Z;
  audioAControl : list Z;
  videoAControl : list Z;
  hasAudio : bool;
  hasVideo : bool;
}.

(** The zero value; a payload type of zero is that of G.711 mu-law. *)
Definition zero_logic : LogicContext := mkLogic [] 0 0 None None None None 0 0 0 0 [] [] false false.

Definition ARtpMapEncodingNameH265 : list Z := str "H265".
Definition ARtpMapEncodingNameH264 : list Z := str "H264".
Definition ARtpMapEncodingNameAac : list Z := str "MPEG4-GENERIC".
Definition ARtpMapEncodingNameG711A : list Z := str "PCMA".
Definition ARtpMapEncodingNameG711U : list Z := str "PCMU".
Definition ArtpMapEncodingNameOpus : list Z := str "opus".

Definition set_audio (base rate origin : Z) (asc : option (list Z)) (control : list Z) (c : LogicContext) : LogicContext :=
  mkLogic (RawSdp c) rate (VideoClockRate c) asc (Vps c) (Sps c) (Pps c) base (videoPayloadTypeBase c)
    origin (videoPayloadTypeOrigin c) control (videoAControl c) true (hasVideo c).
Definition set_video (base rate origin : Z) (s : sets) (control : list Z) (c : LogicContext) : LogicContext :=
  mkLogic (RawSdp c) (AudioClockRate c) rate (Asc c) s.1.1 s.1.2 s.2 (audioPayloadTypeBase c) base
    (audioPayloadTypeOrigin c) origin (audioAControl c) control (hasAudio c) true.

(** A media whose format is told by the number of the media line. *)
Definition static_audio (pt rate : Z) (map_pt : Z) : Z * Z * Z :=
  let rate8 := if rate =? 0 then 8000 else rate in
  if pt =? AvPacketPtG711U then (AvPacketPtG711U, rate8, AvPacketPtG711U)
  else if pt =? AvPacketPtG711A then (AvPacketPtG711A, rate8, AvPacketPtG711A)
  else if pt =? AvPacketPtMp2 then (AvPacketPtMp2, rate8, AvPacketPtMp2)
  else (AvPacketPtUnknown, rate, map_pt).

Definition logic_audio (md : MediaDesc) (c : LogicContext) : LogicContext :=
  let m := md_ARtpMap md in
  let name := EncodingName m in
  let known base asc := set_audio base (ClockRate m) (mapPayloadType m) asc (AControl md) c in
  if EqualFold name ARtpMapEncodingNameAac then
    known AvPacketPtAac (match md_AFmtPBase md with Some a => ParseAsc a | None => Asc c end)
  else if EqualFold name ARtpMapEncodingNameG711A then known AvPacketPtG711A (Asc c)
  else if EqualFold name ARtpMapEncodingNameG711U then known AvPacketPtG711U (Asc c)
  else if EqualFold name ArtpMapEncodingNameOpus then known AvPacketPtOpus (Asc c)
  else
    let '(base, rate, origin) := static_audio (PT (md_M md)) (ClockRate m) (mapPayloadType m) in
    set_audio base rate origin (Asc c) (AControl md) c.

Definition logic_video (md : MediaDesc) (c : LogicContext) : LogicContext :=
  let m := md_ARtpMap md in
  let known base s := set_video base (ClockRate m) (mapPayloadType m) s (AControl md) c in
  if bool_decide (EncodingName m = ARtpMapEncodingNameH264) then
    known AvPacketPtAvc (match md_AFmtPBase md with
                         | Some a => let '(sps, pps) := ParseSpsPps a in (Vps c, sps, pps)
                         | None => (Vps c, Sps c, Pps c)
                         end)
  else if bool_decide (EncodingName m = ARtpMapEncodingNameH265) then
    known AvPacketPtHevc (match md_AFmtPBase md with
                          | Some a => ParseVpsSpsPps a
                          | None => (Vps c, Sps c, Pps c)
                          end)
  else known AvPacketPtUnknown (Vps c, Sps c, Pps c).

Definition logic_media (c : LogicContext) (md : MediaDesc) : LogicContext :=
  if bool_decide (Media (md_M md) = str "audio") then logic_audio md c
  else if bool_decide (Media (md_M md) = str "video") then logic_video md c
  else c.

Definition set_raw (b : list Z) (c : LogicContext) : LogicContext :=
  mkLogic b (AudioClockRate c) (VideoClockRate c) (Asc c) (Vps c) (Sps c) (Pps c) (audioPayloadTypeBase c)
    (videoPayloadTypeBase c) (audioPayloadTypeOrigin c) (videoPayloadTypeOrigin c) (audioAControl c) (videoAControl c)
    (hasAudio c) (hasVideo c).

Definition ParseSdp2LogicContext (b : list Z) : outcome LogicContext :=
  l ← ParseSdp2RawContext b;
  Ret (set_raw b (foldl logic_media zero_logic l)).

Definition is_some {A} (o : option A) : bool := match o with Some _ => true | None => false end.

Definition IsAudioPayloadTypeOrigin (lc : LogicContext) (t : Z) : bool := audioPayloadTypeOrigin lc =? t.
Definition IsVideoPayloadTypeOrigin (lc : LogicContext) (t : Z) : bool := videoPayloadTypeOrigin lc =? t.
Definition IsPayloadTypeOrigin (lc : LogicContext) (t : Z) : bool :=
  (audioPayloadTypeOrigin lc =? t) || (videoPayloadTypeOrigin lc =? t).
Definition IsAudioUnpackable (lc : LogicContext) : bool :=
  ((audioPayloadTypeBase lc =? AvPacketPtAac) && is_some (Asc lc)) || (audioPayloadTypeBase lc =? AvPacketPtG711A) ||
  (audioPayloadTypeBase lc =? AvPacketPtG711U) || (audioPayloadTypeBase lc =? AvPacketPtOpus).
Definition IsVideoUnpackable (lc : LogicContext) : bool :=
  (videoPayloadTypeBase lc =? AvPacketPtAvc) || (videoPayloadTypeBase lc =? AvPacketPtHevc).
Definition IsAudioUri (lc : LogicContext) (uri : list Z) : bool :=
  negb (bool_decide (audioAControl lc = [])) && HasSuffix uri (audioAControl lc).
Definition IsVideoUri (lc : LogicContext) (uri : list Z) : bool :=
  negb (bool_decide (videoAControl lc = [])) && HasSuffix uri (videoAControl lc).
Definition HasAudioAControl (lc : LogicContext) : bool := negb (bool_decide (audioAControl lc = [])).
Definition HasVideoAControl (lc : LogicContext) : bool := negb (bool_decide (videoAControl lc = [])).
Definition makeSetupUri (uri aControl : list Z) : list Z :=
  if HasPrefix aControl (str "rtsp://") then aControl else uri ++ str "/" ++ aControl.
Definition MakeAudioSetupUri (lc : LogicContext) (uri : list Z) : list Z := makeSetupUri uri (audioAControl lc).
Definition MakeVideoSetupUri (lc : LogicContext) (uri : list Z) : list Z := makeSetupUri uri (videoAControl lc).
Definition GetAudioPayloadTypeBase (lc : LogicContext) : Z := audioPayloadTypeBase lc.
Definition GetVideoPayloadTypeBase (lc : LogicContext) : Z := videoPayloadTypeBase lc.

(** ** pack.go *)

Record VideoInfo := mkVideoInfo { VideoPt : Z; viVps : option (list Z); viSps : option (list Z); viPps : option (list Z) }.
Record AudioInfo := mkAudioInfo { AudioPt : Z; SamplingFrequency : Z; aiAsc : option (list Z) }.

Definition nl : list Z := [10].

Definition buildVideoSdpInfo (v : VideoInfo) (streamid : Z) : list Z :=
  if VideoPt v =? AvPacketPtAvc then
    match viSps v, viPps v with
    | Some sps, Some pps =>
        str "m=video 0 RTP/AVP " ++ Itoa AvPacketPtAvc ++ nl ++
        str "a=rtpmap:96 H264/90000" ++ nl ++
        str "a=fmtp:96 packetization-mode=1; sprop-parameter-sets=" ++ b64_EncodeToString sps ++ str "," ++
          b64_EncodeToString pps ++ str "; profile-level-id=640016" ++ nl ++
        str "a=control:streamid=" ++ Itoa streamid ++ nl
    | _, _ => []
    end
  else if VideoPt v =? AvPacketPtHevc then
    match viSps v, viPps v, viVps v with
    | Some sps, Some pps, Some vps =>
        str "m=video 0 RTP/AVP " ++ Itoa AvPacketPtHevc ++ nl ++
        str "a=rtpmap:98 H265/90000" ++ nl ++
        str "a=fmtp:98 profile-id=1;sprop-sps=" ++ b64_EncodeToString sps ++ str ";sprop-pps=" ++
          b64_EncodeToString pps ++ str ";sprop-vps=" ++ b64_EncodeToString vps ++ nl ++
        str "a=control:streamid=" ++ Itoa streamid ++ nl
    | _, _, _ => []
    end
  else [].

Definition buildAudioSdpInfo (a : AudioInfo) (streamid : Z) : list Z :=
  let pt := Itoa (AudioPt a) in
  let control := str "a=control:streamid=" ++ Itoa streamid ++ nl in
  if AudioPt a =? AvPacketPtAac then
    match aiAsc a with
    | Some asc =>
        str "m=audio 0 RTP/AVP " ++ pt ++ nl ++
        str "b=AS:128" ++ nl ++
        str "a=rtpmap:" ++ pt ++ str " MPEG4-GENERIC/" ++ Itoa (SamplingFrequency a) ++ str "/2" ++ nl ++
        str "a=fmtp:" ++ pt ++
          str " profile-level-id=1;mode=AAC-hbr;sizelength=13;indexlength=3;indexdeltalength=3; config=" ++
          hex_EncodeToString asc ++ nl ++
        control
    | None => []
    end
  else if AudioPt a =? AvPacketPtG711A then
    str "m=audio 0 RTP/AVP " ++ pt ++ nl ++
    str "a=rtpmap:" ++ pt ++ str " PCMA/" ++ Itoa (SamplingFrequency a) ++ nl ++ control
  else if AudioPt a =? AvPacketPtG711U then
    str "m=audio 0 RTP/AVP " ++ pt ++ nl ++
    str "a=rtpmap:" ++ pt ++ str " PCMU/" ++ Itoa (SamplingFrequency a) ++ nl ++ control
  else if AudioPt a =? AvPacketPtOpus then
    str "m=audio 0 RTP/AVP " ++ pt ++ nl ++
    str "a=rtpmap:" ++ pt ++ str " opus/48000/2" ++ nl ++ control
  else [].

(** [tool] is the version string of the library. *)
Definition sdp_head (tool : list Z) : list Z :=
  str "v=0" ++ nl ++ str "o=- 0 0 IN IP4 127.0.0.1" ++ nl ++ str "s=No Name" ++ nl ++
  str "c=IN IP4 127.0.0.1" ++ nl ++ str "t=0 0" ++ nl ++ str "a=tool:" ++ tool ++ nl.

Definition Pack (tool : list Z) (v : VideoInfo) (a : AudioInfo) : outcome LogicContext :=
  let video := buildVideoSdpInfo v 0 in
  let audio := buildAudioSdpInfo a (if bool_decide (video = []) then 0 else 1) in
  if bool_decide (video = []) && bool_decide (audio = []) then Fail ErrFmt else
  ParseSdp2LogicContext (ReplaceAll (sdp_head tool ++ video ++ audio) nl crlf).

(** ** The media of a description *)

Inductive VideoSpec := NoVideo | AvcVideo (sps pps : list Z) | HevcVideo (vps sps pps : list Z).
Inductive AudioSpec := NoAudio | AacAudio (rate : Z) (asc : list Z) | PcmaAudio (rate : Z) | PcmuAudio (rate : Z) | OpusAudio (rate : Z).

Definition video_info (v : VideoSpec) : VideoInfo :=
  match v with
  | NoVideo => mkVideoInfo AvPacketPtUnknown None None None
  | AvcVideo sps pps => mkVideoInfo AvPacketPtAvc None (Some sps) (Some pps)
  | HevcVideo vps sps pps => mkVideoInfo AvPacketPtHevc (Some vps) (Some sps) (Some pps)
  end.
Definition audio_info (a : AudioSpec) : AudioInfo :=
  match a with
  | NoAudio => mkAudioInfo AvPacketPtUnknown (-1) None
  | AacAudio rate asc => mkAudioInfo AvPacketPtAac rate (Some asc)
  | PcmaAudio rate => mkAudioInfo AvPacketPtG711A rate None
  | PcmuAudio rate => mkAudioInfo AvPacketPtG711U rate None
  | OpusAudio rate => mkAudioInfo AvPacketPtOpus rate None
  end.

Definition video_ok (v : VideoSpec) : Prop :=
  match v with
  | NoVideo => True
  | AvcVideo sps pps => is_bytes sps ∧ is_bytes pps
  | HevcVideo vps sps pps => is_bytes vps ∧ is_bytes sps ∧ is_bytes pps
  end.
Definition rate_ok (rate : Z) : Prop := - 2 ^ 63 < rate < 2 ^ 63.
Definition audio_ok (a : AudioSpec) : Prop :=
  match a with
  | NoAudio => True
  | AacAudio rate asc => rate_ok rate ∧ is_bytes asc ∧ 2 ≤ len asc
  | PcmaAudio rate | PcmuAudio rate => rate_ok rate
  | OpusAudio _ => True
  end.

(** What the logic context should say of them. *)
Definition has_video (v : VideoSpec) : bool := match v with NoVideo => false | _ => true end.
Definition has_audio (a : AudioSpec) : bool := match a with NoAudio => false | _ => true end.
Definition video_sets (v : VideoSpec) : sets :=
  match v with
  | NoVideo => (None, None, None)
  | AvcVideo sps pps => (None, Some sps, Some pps)
  | HevcVideo vps sps pps => (Some vps, Some sps, Some pps)
  end.
Definition video_pt (v : VideoSpec) : Z := match v with NoVideo => 0 | AvcVideo _ _ => 96 | HevcVideo _ _ _ => 98 end.
Definition audio_pt (a : AudioSpec) : Z :=
  match a with NoAudio => 0 | AacAudio _ _ => 97 | PcmaAudio _ => 8 | PcmuAudio _ => 0 | OpusAudio _ => 101 end.
Definition audio_asc (a : AudioSpec) : option (list Z) := match a with AacAudio _ asc => Some asc | _ => None end.
Definition audio_rate (a : AudioSpec) : Z :=
  match a with NoAudio => 0 | AacAudio r _ | PcmaAudio r | PcmuAudio r => r | OpusAudio _ => 48000 end.
Definition control (id : Z) : list Z := str "streamid=" ++ Itoa id.
Definition audio_id (v : VideoSpec) : Z := if has_video v then 1 else 0.

Definition expected (raw : list Z) (v : VideoSpec) (a : AudioSpec) : LogicContext :=
  mkLogic raw (audio_rate a) (if has_video v then 90000 else 0) (audio_asc a)
    (video_sets v).1.1 (video_sets v).1.2 (video_sets v).2 (audio_pt a) (video_pt v) (audio_pt a) (video_pt v)
    (if has_audio a then control (audio_id v) else []) (if has_video v then control 0 else [])
    (has_audio a) (has_video v).

(** ** The lines of a description *)

Definition head_lines (tool : list Z) : list (list Z) :=
  [str "v=0"; str "o=- 0 0 IN IP4 127.0.0.1"; str "s=No Name"; str "c=IN IP4 127.0.0.1"; str "t=0 0"; str "a=tool:" ++ tool].
Definition control_line (id : Z) : list Z := str "a=control:" ++ control id.

(** A parameter: a blank or nothing, a name and a value. *)
Abbreviation param := (list Z * list Z * list Z)%type.
Definition item (p : param) : list Z := let '(blank, k, v) := p in blank ++ k ++ [61] ++ v.

Definition avc_params (sps pps : list Z) : list param :=
  [([], str "packetization-mode", str "1");
   ([32], str "sprop-parameter-sets", b64_EncodeToString sps ++ [44] ++ b64_EncodeToString pps);
   ([32], str "profile-level-id", str "640016")].
Definition hevc_params (vps sps pps : list Z) : list param :=
  [([], str "profile-id", str "1"); ([], str "sprop-sps", b64_EncodeToString sps);
   ([], str "sprop-pps", b64_EncodeToString pps); ([], str "sprop-vps", b64_EncodeToString vps)].
Definition aac_params (asc : list Z) : list param :=
  [([], str "profile-level-id", str "1"); ([], str "mode", str "AAC-hbr"); ([], str "sizelength", str "13");
   ([], str "indexlength", str "3"); ([], str "indexdeltalength", str "3"); ([32], str "config", hex_EncodeToString asc)].
Definition fmtp_line (pt : Z) (params : list param) : list Z :=
  str "a=fmtp:" ++ Itoa pt ++ str " " ++ Join (item <$> params) [59].
Definition rtpmap_line (pt : Z) (name : list Z) (rate : Z) (tail : list Z) : list Z :=
  str "a=rtpmap:" ++ Itoa pt ++ str " " ++ name ++ str "/" ++ Itoa rate ++ tail.
Definition m_line (media : list Z) (pt : Z) : list Z := str "m=" ++ media ++ str " 0 RTP/AVP " ++ Itoa pt.

Definition video_lines (v : VideoSpec) (id : Z) : list (list Z) :=
  match v with
  | NoVideo => []
  | AvcVideo sps pps =>
      [m_line (str "video") 96; rtpmap_line 96 (str "H264") 90000 []; fmtp_line 96 (avc_params sps pps); control_line id]
  | HevcVideo vps sps pps =>
      [m_line (str "video") 98; rtpmap_line 98 (str "H265") 90000 []; fmtp_line 98 (hevc_params vps sps pps); control_line id]
  end.
Definition audio_lines (a : AudioSpec) (id : Z) : list (list Z) :=
  match a with
  | NoAudio => []
  | AacAudio rate asc =>
      [m_line (str "audio") 97; str "b=AS:128"; rtpmap_line 97 (str "MPEG4-GENERIC") rate (str "/2");
       fmtp_line 97 (aac_params asc); control_line id]
  | PcmaAudio rate => [m_line (str "audio") 8; rtpmap_line 8 (str "PCMA") rate []; control_line id]
  | PcmuAudio rate => [m_line (str "audio") 0; rtpmap_line 0 (str "PCMU") rate []; control_line id]
  | OpusAudio _ => [m_line (str "audio") 101; rtpmap_line 101 (str "opus") 48000 (str "/2"); control_line id]
  end.

Lemma video_text v id : buildVideoSdpInfo (video_info v) id = lines nl (video_lines v id).
Proof.
  destruct v; cbn [video_info video_lines]; [reflexivity|..]; rewrite !lines_cons;
    unfold m_line, rtpmap_line, fmtp_line, control_line, control, avc_params, hevc_params; cbn [Join fmap list_fmap item];
    rewrite <- !app_assoc; reflexivity.
Qed.

Lemma audio_text a id : buildAudioSdpInfo (audio_info a) id = lines nl (audio_lines a id).
Proof.
  destruct a; cbn [audio_info audio_lines]; [reflexivity|..]; rewrite !lines_cons;
    unfold m_line, rtpmap_line, fmtp_line, control_line, control, aac_params; cbn [Join fmap list_fmap item];
    rewrite <- !app_assoc; reflexivity.
Qed.

Lemma head_text tool : sdp_head tool = lines nl (head_lines tool).
Proof. unfold head_lines. rewrite !lines_cons, <- !app_assoc. reflexivity. Qed.

(** ** Parsing the lines *)

Lemma after_spec a c b : c ∉ a → after (a ++ [c] ++ b) [c] = Ret (a, b).
Proof. intros Ha. unfold after, SplitN. cbn [split_times Nat.sub]. by rewrite Cut_found. Qed.

(** A byte does not occur in a string that is known. *)
Local Ltac not_in := apply (bool_decide_eq_true_1 _); vm_compute; reflexivity.

(** The tests of prefixes that the start of a line decides. *)
Local Ltac prefixes := repeat match goal with
  | |- context [HasPrefix ?s ?p] => let b := eval vm_compute in (HasPrefix s p) in change (HasPrefix s p) with b; cbv iota
  end.

Lemma parse_line_rtpmap s c : parse_line (str "a=rtpmap:" ++ s) c =
  (r ← ParseARtpMap (str "a=rtpmap:" ++ s); Ret (set_md (λ md, mkMediaDesc (md_M md) r (md_AFmtPBase md) (AControl md)) c)).
Proof.
  unfold parse_line, line_m, line_rtpmap, line_fmtp, line_control. prefixes. rewrite bind_Ret.
  by destruct (ParseARtpMap _).
Qed.

Lemma parse_line_fmtp s c : parse_line (str "a=fmtp:" ++ s) c =
  (f ← ParseAFmtPBase (str "a=fmtp:" ++ s); Ret (set_md (λ md, mkMediaDesc (md_M md) (md_ARtpMap md) (Some f) (AControl md)) c)).
Proof.
  unfold parse_line, line_m, line_rtpmap, line_fmtp, line_control. prefixes. rewrite !bind_Ret.
  by destruct (ParseAFmtPBase _).
Qed.

Lemma parse_line_control s c : parse_line (str "a=control:" ++ s) c =
  Ret (set_md (λ md, mkMediaDesc (md_M md) (md_ARtpMap md) (md_AFmtPBase md) s) c).
Proof.
  unfold parse_line, line_m, line_rtpmap, line_fmtp, line_control, ParseAControl, TrimPrefix. prefixes.
  rewrite !bind_Ret. reflexivity.
Qed.

Lemma parse_line_tool s c : parse_line (str "a=tool:" ++ s) c = Ret c.
Proof. unfold parse_line, line_m, line_rtpmap, line_fmtp, line_control. prefixes. by rewrite !bind_Ret. Qed.

Lemma digits_no n c : 45 < c < 48 ∨ 57 < c ∨ c < 45 → c ∉ Itoa n.
Proof. intros Hc H. apply Itoa_char in H. lia. Qed.

Lemma atoi_Itoa n : rate_ok n → atoi (Itoa n) = Ret n.
Proof. intros Hn. unfold atoi. by rewrite Atoi_Itoa. Qed.

Lemma ParseARtpMap_line pt name rate tail : rate_ok pt → rate_ok rate → 32 ∉ name → 47 ∉ name →
  tail = [] ∨ (∃ p, tail = str "/" ++ p) →
  ParseARtpMap (rtpmap_line pt name rate tail) =
    Ret (mkARtpMap pt name rate (match tail with [] => [] | _ => drop 1 tail end)).
Proof.
  intros Hpt Hr H32 H47 Ht. unfold ParseARtpMap, rtpmap_line.
  change (str "a=rtpmap:" ++ ?s) with (str "a=rtpmap" ++ [58] ++ s). change (str ":") with [58].
  rewrite after_spec, bind_Ret by not_in.
  change (str " ") with [32]. rewrite after_spec, bind_Ret by (apply digits_no; lia).
  rewrite atoi_Itoa, bind_Ret by done. unfold SplitN. change (3 - 1)%nat with 2%nat.
  change (str "/") with [47]. cbn [split_times]. rewrite Cut_found by done.
  destruct Ht as [->|[p ->]].
  - rewrite app_nil_r. rewrite Cut_none by (apply digits_no; lia). by rewrite atoi_Itoa.
  - change (str "/" ++ p) with ([47] ++ p). rewrite Cut_found by (apply digits_no; lia). by rewrite atoi_Itoa.
Qed.

Lemma parse_rtpmap pt name rate tail ls l md : rate_ok pt → rate_ok rate → 32 ∉ name → 47 ∉ name →
  tail = [] ∨ (∃ p, tail = str "/" ++ p) →
  parse_lines (rtpmap_line pt name rate tail :: ls) (l, Some md) =
    parse_lines ls (l, Some (mkMediaDesc (md_M md) (mkARtpMap pt name rate (match tail with [] => [] | _ => drop 1 tail end))
      (md_AFmtPBase md) (AControl md))).
Proof.
  intros. cbn [parse_lines]. unfold rtpmap_line at 1. rewrite parse_line_rtpmap.
  fold (rtpmap_line pt name rate tail). by rewrite ParseARtpMap_line.
Qed.

Record item_ok (p : param) : Prop := {
  item_blank : p.1.1 = [] ∨ p.1.1 = [32];
  item_key : p.1.2 ≠ [] ∧ Forall (λ c, graph c ∧ c ≠ 61 ∧ c ≠ 59) p.1.2;
  item_value : Forall (λ c, graph c ∧ c ≠ 59) p.2;
}.

(** The first and the last byte of a name and its value are visible. *)
Lemma item_ends k v : k ≠ [] → Forall (λ c, graph c ∧ c ≠ 61 ∧ c ≠ 59) k → Forall (λ c, graph c ∧ c ≠ 59) v →
  ∃ x s y, k ++ [61] ++ v = x :: s ++ [y] ∧ graph x ∧ graph y ∧ x ≠ 59 ∧ y ≠ 59.
Proof.
  intros Hk Fk Fv. destruct k as [|x k]; [done|]. apply Forall_cons in Fk as [(Hx & _ & Hx') Fk].
  destruct (exists_last (l := [61] ++ v)) as (s & y & E); [done|]. exists x, (k ++ s), y.
  split; [by rewrite E, <- app_assoc|]. split; [done|].
  assert (Fe : Forall (λ c, graph c ∧ c ≠ 59) (s ++ [y])).
  { rewrite <- E. apply Forall_app. split; [|done]. apply Forall_cons. split; [unfold graph; lia|by apply Forall_nil]. }
  apply Forall_app in Fe as [_ Fe]. apply Forall_cons in Fe as [[Hy Hy'] _]. done.
Qed.

Lemma TrimSpace_item p : item_ok p → after (TrimSpace (item p)) [61] = Ret (p.1.2, p.2).
Proof.
  intros [Hb [Hk Fk] Fv]. destruct p as [[b k] v]; cbn [fst snd item] in *.
  destruct (item_ends k v Hk Fk Fv) as (x & s & y & E & Hx & Hy & _).
  assert (Et : TrimSpace (b ++ k ++ [61] ++ v) = k ++ [61] ++ v).
  { destruct Hb as [-> | ->]; [rewrite app_nil_l|change ([32] ++ ?t) with (32 :: t); rewrite TrimSpace_blank];
      rewrite E; by apply TrimSpace_both. }
  rewrite Et. apply after_spec. intros H. rewrite Forall_forall in Fk. by destruct (Fk 61 H) as (_ & ? & _).
Qed.

Definition add_param (m : gmap (list Z) (list Z)) (p : param) : gmap (list Z) (list Z) := <[p.1.2 := p.2]> m.

Lemma parse_parameters_items l : ∀ m, Forall item_ok l →
  parse_parameters (item <$> l) m = Ret (foldl add_param m l).
Proof.
  induction l as [|p l IH]; intros m Hl; [done|]. apply Forall_cons in Hl as [Hp Hl].
  cbn [fmap list_fmap parse_parameters]. change (str "=") with [61]. rewrite TrimSpace_item, bind_Ret by done.
  by apply IH.
Qed.

Lemma item_no_semicolon p : item_ok p → 59 ∉ item p.
Proof.
  intros [Hb [Hk Fk] Fv]. destruct p as [[b k] v]; cbn [fst snd item] in *. rewrite !not_elem_of_app.
  rewrite Forall_forall in Fk, Fv. split_and!.
  - destruct Hb as [-> | ->]; not_in.
  - intros H. by destruct (Fk 59 H) as (_ & _ & ?).
  - not_in.
  - intros H. by destruct (Fv 59 H) as (_ & ?).
Qed.

(** The joined parameters start and end with something else than a semicolon. *)
Lemma Join_ends : ∀ l p, item_ok p → Forall item_ok l →
  (∃ x s, Join (item <$> (p :: l)) [59] = x :: s ∧ x ≠ 59) ∧ (∃ s y, Join (item <$> (p :: l)) [59] = s ++ [y] ∧ y ≠ 59).
Proof.
  assert (H1 : ∀ p, item_ok p → ∃ x s, item p = x :: s ∧ x ≠ 59).
  { intros [[b k] v] [Hb [Hk Fk] Fv]. cbn [fst snd item] in *. destruct (item_ends k v Hk Fk Fv) as (x & s & y & E & _ & _ & Hx & _).
    rewrite E. destruct Hb as [-> | ->]; cbn; eauto. }
  assert (H2 : ∀ p, item_ok p → ∃ s y, item p = s ++ [y] ∧ y ≠ 59).
  { intros [[b k] v] [Hb [Hk Fk] Fv]. cbn [fst snd item] in *. destruct (item_ends k v Hk Fk Fv) as (x & s & y & E & _ & _ & _ & Hy).
    exists (b ++ x :: s), y. rewrite E. by rewrite <- app_assoc. }
  induction l as [|q l IH]; intros p Hp Hl; cbn [fmap list_fmap].
  - cbn [Join]. split; [by apply H1|by apply H2].
  - apply Forall_cons in Hl as [Hq Hl]. destruct (IH q Hq Hl) as [_ (s & y & E & Hy)]. cbn [fmap list_fmap] in E.
    change (Join (item p :: item q :: ?t) [59]) with (item p ++ [59] ++ Join (item q :: t) [59]). split.
    + destruct (H1 p Hp) as (x & t & -> & Hx). cbn. eauto.
    + rewrite E. exists (item p ++ [59] ++ s), y. by rewrite <- !app_assoc.
Qed.

Lemma ParseAFmtPBase_line pt p l : rate_ok pt → Forall item_ok (p :: l) →
  ParseAFmtPBase (fmtp_line pt (p :: l)) = Ret (mkAFmtP pt (foldl add_param ∅ (p :: l))).
Proof.
  intros Hpt Hl. unfold ParseAFmtPBase, fmtp_line.
  change (str "a=fmtp:" ++ ?s) with (str "a=fmtp" ++ [58] ++ s). change (str ":") with [58].
  rewrite after_spec, bind_Ret by not_in.
  change (str " ") with [32]. rewrite after_spec, bind_Ret by (apply digits_no; lia).
  rewrite atoi_Itoa, bind_Ret by done. pose proof Hl as Hl'. apply Forall_cons in Hl' as [Hp Hl'].
  destruct (Join_ends l p Hp Hl') as [(x & s & E1 & Hx) (s' & y & E2 & Hy)].
  rewrite E1, TrimLeft_other, <- E1, E2, TrimRight_other, <- E2 by done. change (str ";") with [59].
  cbn [fmap list_fmap]. rewrite Split_Join.
  - change (item p :: ?t) with (item <$> (p :: l)). by rewrite parse_parameters_items.
  - by apply item_no_semicolon.
  - apply Forall_fmap. eapply Forall_impl; [exact Hl'|]. apply item_no_semicolon.
Qed.

Lemma parse_fmtp pt ps ls media md : rate_ok pt → ps ≠ [] → Forall item_ok ps →
  parse_lines (fmtp_line pt ps :: ls) (media, Some md) =
    parse_lines ls (media, Some (mkMediaDesc (md_M md) (md_ARtpMap md) (Some (mkAFmtP pt (foldl add_param ∅ ps))) (AControl md))).
Proof.
  intros Hpt Hps Hl. destruct ps as [|p l]; [done|]. cbn [parse_lines]. unfold fmtp_line at 1. rewrite parse_line_fmtp.
  fold (fmtp_line pt (p :: l)). by rewrite ParseAFmtPBase_line.
Qed.

(** ** The media read back *)

Lemma alpha_value c : b64_alpha c → graph c ∧ c ≠ 59.
Proof. unfold b64_alpha, graph. lia. Qed.

Lemma b64_value_ok b : is_bytes b → Forall (λ c, graph c ∧ c ≠ 59) (b64_EncodeToString b).
Proof. intros Hb. eapply Forall_impl; [by apply b64_chars|]. apply alpha_value. Qed.

Local Ltac known := match goal with |- Forall _ ?l => let l' := eval vm_compute in l in change l with l' end;
  apply Forall_forall; intros c Hc; repeat (apply elem_of_cons in Hc as [->|Hc]; [unfold graph; lia|]); by apply elem_of_nil in Hc.
Local Ltac items := repeat (apply Forall_cons; split); try apply List.Forall_nil;
  (split; [first [by left | by right]|split; [done|cbn [fst snd]; known]|cbn [fst snd]]).

Lemma avc_params_ok sps pps : is_bytes sps → is_bytes pps → Forall item_ok (avc_params sps pps).
Proof.
  intros Hs Hp. unfold avc_params. items; [known| |known].
  rewrite !Forall_app. split_and!; [by apply b64_value_ok|known|by apply b64_value_ok].
Qed.
Lemma hevc_params_ok vps sps pps : is_bytes vps → is_bytes sps → is_bytes pps → Forall item_ok (hevc_params vps sps pps).
Proof. intros Hv Hs Hp. unfold hevc_params. items; [known|by apply b64_value_ok..]. Qed.
Lemma aac_params_ok asc : is_bytes asc → Forall item_ok (aac_params asc).
Proof.
  intros Ha. unfold aac_params. items; [known..|]. apply Forall_forall. intros c Hc.
  apply hex_char in Hc; [|done]. unfold graph. lia.
Qed.

Definition video_md (v : VideoSpec) (id : Z) : MediaDesc :=
  let md name params := mkMediaDesc (mkM (str "video") (video_pt v)) (mkARtpMap (video_pt v) name 90000 [])
                          (Some (mkAFmtP (video_pt v) (foldl add_param ∅ params))) (control id) in
  match v with
  | HevcVideo vps sps pps => md (str "H265") (hevc_params vps sps pps)
  | AvcVideo sps pps => md (str "H264") (avc_params sps pps)
  | NoVideo => md [] []
  end.
Definition audio_md (a : AudioSpec) (id : Z) : MediaDesc :=
  let md name rate params fmtp :=
    mkMediaDesc (mkM (str "audio") (audio_pt a)) (mkARtpMap (audio_pt a) name rate params) fmtp (control id) in
  match a with
  | AacAudio rate asc => md (str "MPEG4-GENERIC") rate (str "2") (Some (mkAFmtP 97 (foldl add_param ∅ (aac_params asc))))
  | PcmaAudio rate => md (str "PCMA") rate [] None
  | PcmuAudio rate => md (str "PCMU") rate [] None
  | OpusAudio _ => md (str "opus") 48000 (str "2") None
  | NoAudio => md [] 0 [] None
  end.

Lemma parse_control id ls l md :
  parse_lines (control_line id :: ls) (l, Some md) =
    parse_lines ls (l, Some (mkMediaDesc (md_M md) (md_ARtpMap md) (md_AFmtPBase md) (control id))).
Proof. cbn [parse_lines]. unfold control_line. by rewrite parse_line_control. Qed.

Lemma parse_m s ls c m : parse_line s c = Ret (finish c, Some (mkMediaDesc m zero_ARtpMap None [])) →
  parse_lines (s :: ls) c = parse_lines ls (finish c, Some (mkMediaDesc m zero_ARtpMap None [])).
Proof. intros E. cbn [parse_lines]. by rewrite E. Qed.

Local Ltac small := unfold rate_ok; lia.
Local Ltac map_line := rewrite parse_rtpmap by first [small | done | not_in | by left | by right; eexists].

Lemma parse_video v id rest c : video_ok v → v ≠ NoVideo →
  parse_lines (video_lines v id ++ rest) c = parse_lines rest (finish c, Some (video_md v id)).
Proof.
  intros Hv Hn. destruct v as [|sps pps|vps sps pps]; [done|..]; cbn [video_ok video_lines app] in *.
  - rewrite (parse_m _ _ _ (mkM (str "video") 96)) by reflexivity. map_line.
    rewrite parse_fmtp; [|small|discriminate|destruct_and?; by apply avc_params_ok]. by rewrite parse_control.
  - rewrite (parse_m _ _ _ (mkM (str "video") 98)) by reflexivity. map_line.
    rewrite parse_fmtp; [|small|discriminate|destruct_and?; by apply hevc_params_ok]. by rewrite parse_control.
Qed.

Lemma parse_audio a id rest c : audio_ok a → a ≠ NoAudio →
  parse_lines (audio_lines a id ++ rest) c = parse_lines rest (finish c, Some (audio_md a id)).
Proof.
  intros Ha Hn. destruct a as [|rate asc|rate|rate|rate]; [done|..]; cbn [audio_ok audio_lines app] in *.
  - rewrite (parse_m _ _ _ (mkM (str "audio") 97)) by reflexivity.
    assert (Eb : ∀ ls c, parse_lines (str "b=AS:128" :: ls) c = parse_lines ls c) by reflexivity. rewrite Eb.
    destruct Ha as (Hr & Ha & Hl). map_line. rewrite parse_fmtp; [|small|discriminate|destruct_and?; by apply aac_params_ok]. by rewrite parse_control.
  - rewrite (parse_m _ _ _ (mkM (str "audio") 8)) by reflexivity. map_line. by rewrite parse_control.
  - rewrite (parse_m _ _ _ (mkM (str "audio") 0)) by reflexivity. map_line. by rewrite parse_control.
  - rewrite (parse_m _ _ _ (mkM (str "audio") 101)) by reflexivity. map_line. by rewrite parse_control.
Qed.

(** ** The whole description *)

Lemma b64_sets b b' : is_bytes b → is_bytes b' →
  SplitN (b64_EncodeToString b ++ [44] ++ b64_EncodeToString b') [44] 2 = [b64_EncodeToString b; b64_EncodeToString b'].
Proof.
  intros Hb Hb'. unfold SplitN. cbn [split_times Nat.sub]. rewrite Cut_found; [done|].
  intros H. pose proof (b64_chars b Hb) as Hf. rewrite Forall_forall in Hf. specialize (Hf 44 H). unfold b64_alpha in Hf. lia.
Qed.

Lemma avc_sets sps pps pt : is_bytes sps → is_bytes pps →
  ParseSpsPps (mkAFmtP pt (foldl add_param ∅ (avc_params sps pps))) = (Some sps, Some pps).
Proof.
  intros Hs Hp. unfold ParseSpsPps, avc_params. cbn [Parameters foldl]. unfold add_param. cbn [fst snd].
  rewrite lookup_insert_ne by done. rewrite lookup_insert_eq. change (str ",") with [44].
  by rewrite b64_sets, !b64_roundtrip.
Qed.

Lemma hevc_sets vps sps pps pt : is_bytes vps → is_bytes sps → is_bytes pps →
  ParseVpsSpsPps (mkAFmtP pt (foldl add_param ∅ (hevc_params vps sps pps))) = (Some vps, Some sps, Some pps).
Proof.
  intros Hv Hs Hp. unfold ParseVpsSpsPps, decode_param, hevc_params. cbn [Parameters foldl]. unfold add_param. cbn [fst snd].
  rewrite lookup_insert_eq. rewrite (lookup_insert_ne _ _ (str "sprop-sps")) by done.
  rewrite (lookup_insert_ne _ _ (str "sprop-sps")) by done. rewrite lookup_insert_eq.
  rewrite (lookup_insert_ne _ _ (str "sprop-pps")) by done. rewrite lookup_insert_eq. by rewrite !b64_roundtrip.
Qed.

Lemma aac_config asc pt : is_bytes asc → 2 ≤ len asc →
  ParseAsc (mkAFmtP pt (foldl add_param ∅ (aac_params asc))) = Some asc.
Proof.
  intros Ha Hl. unfold ParseAsc, aac_params. cbn [Parameters foldl]. unfold add_param. cbn [fst snd].
  rewrite lookup_insert_eq. rewrite length_hex, (proj2 (Z.ltb_ge _ _)) by lia.
  rewrite (Z.mul_comm 2), Z_mod_mult. cbn [Z.eqb negb orb]. by rewrite hex_roundtrip.
Qed.

Lemma logic_video_md v id c : video_ok v → v ≠ NoVideo → Vps c = None → Sps c = None → Pps c = None →
  logic_media c (video_md v id) = set_video (video_pt v) 90000 (video_pt v) (video_sets v) (control id) c.
Proof.
  intros Hv Hn E1 E2 E3. destruct v as [|sps pps|vps sps pps]; [done|..]; cbn [video_ok] in Hv; destruct_and?.
  - unfold logic_media, logic_video. cbn [video_md md_M md_ARtpMap md_AFmtPBase AControl Media EncodingName].
    rewrite avc_sets, E1 by done. reflexivity.
  - unfold logic_media, logic_video. cbn [video_md md_M md_ARtpMap md_AFmtPBase AControl Media EncodingName].
    rewrite hevc_sets by done. reflexivity.
Qed.

Lemma logic_audio_md a id c : audio_ok a → a ≠ NoAudio → Asc c = None →
  logic_media c (audio_md a id) = set_audio (audio_pt a) (audio_rate a) (audio_pt a) (audio_asc a) (control id) c.
Proof.
  intros Ha Hn E. destruct a as [|rate asc|rate|rate|rate]; [done|..]; cbn [audio_ok] in Ha; destruct_and?;
    unfold logic_media, logic_audio; cbn [audio_md md_M md_ARtpMap md_AFmtPBase AControl Media EncodingName].
  - rewrite aac_config by done. reflexivity.
  - rewrite E. reflexivity.
  - rewrite E. reflexivity.
  - rewrite E. reflexivity.
Qed.

Definition clean_line (s : list Z) : Prop := (10 ∉ s) ∧ (13 ∉ s).

Lemma clean_app s t : clean_line (s ++ t) ↔ clean_line s ∧ clean_line t.
Proof. unfold clean_line. rewrite !not_elem_of_app. tauto. Qed.
Lemma clean_Itoa n : clean_line (Itoa n).
Proof. split; apply digits_no; lia. Qed.
Lemma clean_item p : item_ok p → clean_line (item p).
Proof.
  intros [Hb [Hk Fk] Fv]. destruct p as [[b k] v]; cbn [fst snd item] in *. rewrite !clean_app.
  assert (H : ∀ s, Forall graph s → clean_line s).
  { intros s Hs. rewrite Forall_forall in Hs. split; intros H; apply Hs in H; unfold graph in H; lia. }
  split_and!; [destruct Hb as [-> | ->]; (split; not_in)| |split; not_in|].
  - apply H. eapply Forall_impl; [exact Fk|]. by intros x (? & _).
  - apply H. eapply Forall_impl; [exact Fv|]. by intros x (? & _).
Qed.
Lemma clean_Join l : Forall clean_line l → clean_line (Join l [59]).
Proof.
  induction l as [|s l IH]; intros Hl; [split; apply not_elem_of_nil|]. apply Forall_cons in Hl as [Hs Hl].
  destruct l as [|t l]; [done|]. change (Join (s :: t :: l) [59]) with (s ++ [59] ++ Join (t :: l) [59]).
  rewrite !clean_app. split; [done|]. split; [split; not_in|by apply IH].
Qed.
Lemma clean_fmtp pt ps : Forall item_ok ps → clean_line (fmtp_line pt ps).
Proof.
  intros Hps. unfold fmtp_line. rewrite !clean_app. split; [split; not_in|]. split; [apply clean_Itoa|].
  split; [split; not_in|]. apply clean_Join, Forall_fmap. eapply Forall_impl; [exact Hps|]. apply clean_item.
Qed.

Local Ltac clean := repeat (apply Forall_cons; split); try apply List.Forall_nil;
  lazymatch goal with
  | |- clean_line (fmtp_line _ _) => apply clean_fmtp
  | |- _ => rewrite ?clean_app; split_and?; first [done | apply clean_Itoa | split; not_in]
  end.

Lemma clean_video v id : video_ok v → Forall clean_line (video_lines v id).
Proof.
  intros Hv. destruct v as [|sps pps|vps sps pps]; cbn [video_ok video_lines] in *; destruct_and?; [by apply List.Forall_nil|..];
    unfold rtpmap_line, m_line, control_line, control; clean; [by apply avc_params_ok|by apply hevc_params_ok].
Qed.
Lemma clean_audio a id : audio_ok a → Forall clean_line (audio_lines a id).
Proof.
  intros Ha. destruct a as [|rate asc|rate|rate|rate]; cbn [audio_ok audio_lines] in *; destruct_and?; [by apply List.Forall_nil|..];
    unfold rtpmap_line, m_line, control_line, control; clean.
  by apply aac_params_ok.
Qed.
Lemma clean_head tool : clean_line tool → Forall clean_line (head_lines tool).
Proof. intros Ht. unfold head_lines. clean. Qed.

Lemma parse_head tool : ∀ rest c, parse_lines (head_lines tool ++ rest) c = parse_lines rest c.
Proof.
  intros rest c. unfold head_lines. cbn [app].
  assert (E : ∀ s, s ∈ [str "v=0"; str "o=- 0 0 IN IP4 127.0.0.1"; str "s=No Name"; str "c=IN IP4 127.0.0.1"; str "t=0 0"] →
    ∀ ls c, parse_lines (s :: ls) c = parse_lines ls c).
  { intros s Hs. repeat (apply elem_of_cons in Hs as [->|Hs]; [reflexivity|]). by apply elem_of_nil in Hs. }
  rewrite !E by (rewrite !elem_of_cons; auto 6). cbn [parse_lines]. by rewrite parse_line_tool.
Qed.

Lemma parse_description tool v a : video_ok v → audio_ok a →
  parse_lines (head_lines tool ++ video_lines v 0 ++ audio_lines a (audio_id v) ++ [[]]) ([], None) = Ret
    (match v, a with
     | NoVideo, NoAudio => ([], None)
     | NoVideo, _ => ([], Some (audio_md a (audio_id v)))
     | _, NoAudio => ([], Some (video_md v 0))
     | _, _ => ([video_md v 0], Some (audio_md a (audio_id v)))
     end).
Proof.
  intros Hv Ha. rewrite parse_head.
  assert (Ev : ∀ rest, parse_lines (video_lines v 0 ++ rest) ([], None) =
    parse_lines rest ([], match v with NoVideo => None | _ => Some (video_md v 0) end)).
  { intros rest. destruct v eqn:Dv; [done|..]; rewrite <- Dv in *; (rewrite parse_video; [done|done|by subst]). }
  rewrite Ev.
  destruct a as [|rate asc|rate|rate|rate] eqn:Da; [by destruct v|..]; rewrite <- Da in *;
    (rewrite parse_audio; [|done|by subst]); by destruct v, a.
Qed.

Lemma text_nil v id : lines nl (video_lines v id) = [] ↔ v = NoVideo.
Proof. by destruct v. Qed.

(** The URI made for a medium is recognised as that medium's and no other's. *)
Definition uris_ok (lc : LogicContext) (v : VideoSpec) (a : AudioSpec) : Prop :=
  ∀ uri,
    (v ≠ NoVideo → IsVideoUri lc (MakeVideoSetupUri lc uri) = true ∧ IsAudioUri lc (MakeVideoSetupUri lc uri) = false) ∧
    (a ≠ NoAudio → IsAudioUri lc (MakeAudioSetupUri lc uri) = true ∧ IsVideoUri lc (MakeAudioSetupUri lc uri) = false).

Lemma suffix_control uri i j : i = 0 ∨ i = 1 → j = 0 ∨ j = 1 →
  HasSuffix (uri ++ str "/" ++ control i) (control j) = bool_decide (i = j).
Proof.
  intros Hi Hj. replace (uri ++ str "/" ++ control i) with ((uri ++ str "/") ++ control i) by (by rewrite <- app_assoc).
  destruct Hi as [-> | ->], Hj as [-> | ->]; try apply HasSuffix_app; unfold HasSuffix;
    rewrite (proj2 (Z.leb_le _ _)) by (rewrite length_app; cbn; lia);
    replace (length ((uri ++ str "/") ++ control _) - _)%nat with (length (uri ++ str "/"))
      by (rewrite (length_app (uri ++ str "/")); cbn; lia); rewrite drop_app_length; reflexivity.
Qed.

Lemma expected_uris raw v a : uris_ok (expected raw v a) v a.
Proof.
  intros uri. unfold IsVideoUri, IsAudioUri, MakeVideoSetupUri, MakeAudioSetupUri, makeSetupUri, expected.
  cbn [videoAControl audioAControl].
  split; intros Hn; destruct v, a; try done; cbn [has_video has_audio audio_id];
    change (HasPrefix (control _) _) with false; cbv iota;
    change (bool_decide (control _ = [])) with false; cbn [negb andb];
    rewrite ?suffix_control by auto; done.
Qed.

Lemma Pack_expected tool v a : clean_line tool → video_ok v → audio_ok a → v ≠ NoVideo ∨ a ≠ NoAudio →
  let raw := lines crlf (head_lines tool ++ video_lines v 0 ++ audio_lines a (audio_id v)) in
  Pack tool (video_info v) (audio_info a) = Ret (expected raw v a).
Proof.
  intros Ht Hv Ha Hn raw. unfold Pack. cbv zeta. rewrite video_text, audio_text, head_text.
  assert (Eid : (if bool_decide (lines nl (video_lines v 0) = []) then 0 else 1) = audio_id v) by (by destruct v).
  rewrite Eid.
  assert (En : bool_decide (lines nl (video_lines v 0) = []) && bool_decide (lines nl (audio_lines a (audio_id v)) = []) = false).
  { destruct Hn as [Hn|Hn].
    - rewrite bool_decide_false; [done|]. by rewrite text_nil.
    - apply andb_false_intro2, bool_decide_false. by destruct a. }
  rewrite En.
  rewrite <- !lines_app.
  assert (Hc : Forall clean_line (head_lines tool ++ video_lines v 0 ++ audio_lines a (audio_id v))).
  { rewrite !Forall_app. split_and!; [by apply clean_head|by apply clean_video|by apply clean_audio]. }
  assert (Hc10 : Forall (λ s, 10 ∉ s) (head_lines tool ++ video_lines v 0 ++ audio_lines a (audio_id v))).
  { eapply Forall_impl; [exact Hc|]. by intros s [? _]. }
  assert (Hc13 : Forall (λ s, 13 ∉ s) (head_lines tool ++ video_lines v 0 ++ audio_lines a (audio_id v))).
  { eapply Forall_impl; [exact Hc|]. by intros s [_ ?]. }
  unfold nl. rewrite ReplaceAll_lines by done. fold raw. unfold ParseSdp2LogicContext, ParseSdp2RawContext, parseSdp2RawContext.
  assert (Es : Split raw crlf = (head_lines tool ++ video_lines v 0 ++ audio_lines a (audio_id v)) ++ [[]]).
  { unfold raw, crlf. by apply Split_lines. }
  rewrite Es, <- !app_assoc, parse_description by done. rewrite bind_Ret. clearbody raw.
  destruct v eqn:Dv, a eqn:Da; try (by destruct Hn); rewrite <- ?Dv, <- ?Da in *; cbn [finish fst snd app foldl];
    rewrite bind_Ret; cbn [foldl];
    rewrite ?logic_video_md by (done || by subst); rewrite ?logic_audio_md by (done || by subst); subst v a; reflexivity.
Qed.

(** ** Properties *)

(** C23: A description packed for a stream, with AVC, HEVC or no video and AAC,
    G.711, Opus or no audio, parses into a context that has exactly its
    parameter sets, its audio configuration, its clock rates, its payload types
    and its control attributes; and the URI of each medium is recognised as that
    medium's alone. *)
Theorem sdp_pack_parse tool v a : clean_line tool → video_ok v → audio_ok a → v ≠ NoVideo ∨ a ≠ NoAudio →
  let raw := lines crlf (head_lines tool ++ video_lines v 0 ++ audio_lines a (audio_id v)) in
  Pack tool (video_info v) (audio_info a) = Ret (expected raw v a) ∧ uris_ok (expected raw v a) v a.
Proof. intros Ht Hv Ha Hn raw. split; [by apply Pack_expected|apply expected_uris]. Qed.

(** ** Findings *)

(** A description without audio says that its audio can be unpacked: the zero
    payload type is that of G.711 mu-law. *)
Lemma sdp_no_audio_unpackable raw v : IsAudioUnpackable (expected raw v NoAudio) = true.
Proof. reflexivity. Qed.

(** An unknown codec on a media line without a number is taken for G.711 mu-law. *)
Example sdp_unknown_codec_is_pcmu :
  match ParseSdp2LogicContext (str "m=audio" ++ crlf ++ str "a=rtpmap:99 SPEEX/16000") with
  | Ret lc => (audioPayloadTypeBase lc, audioPayloadTypeOrigin lc, AudioClockRate lc)
  | _ => (-1, -1, -1)
  end = (0, 0, 16000).
Proof. vm_compute. reflexivity. Qed.

(** ** Witnesses *)

Lemma sdp_pack_parse_witness :
  let v := HevcVideo [64; 1; 12] [66; 1; 1; 255] [68; 0] in
  let a := AacAudio 44100 [18; 16] in
  let raw := lines crlf (head_lines (str "lal 0.37.4") ++ video_lines v 0 ++ audio_lines a 1) in
  Pack (str "lal 0.37.4") (video_info v) (audio_info a) = Ret (expected raw v a) ∧ uris_ok (expected raw v a) v a.
Proof.
  apply (sdp_pack_parse (str "lal 0.37.4") (HevcVideo [64; 1; 12] [66; 1; 1; 255] [68; 0]) (AacAudio 44100 [18; 16])).
  - split; not_in.
  - split; [|split]; apply (bool_decide_unpack _); vm_compute; exact I.
  - split; [small|]. split; [apply (bool_decide_unpack _); vm_compute; exact I|by vm_compute].
  - by left.
Defined.
