(* ===== verification/AvRemux.v ===== *)
(** * Audio/video packets and RTMP messages (src/pkg/remux/avpacket2rtmp.go,
    rtmp2avpacket.go)

    What comes in over RTSP, GB28181 or from the application as packets becomes
    messages, with sequence headers made of the parameter sets found in the
    stream; and the video of messages becomes packets again.  The callbacks are
    the lists of what they were given. *)

From S2P Require Import Prelude Naza Bits Base RtmpMsg.
From S2P Require Avc Hevc AvcSeq HevcSeq Aac Metadata FlvRemux.

Definition AvPacketStreamAudioFormatRawAac : Z := 1.
Definition AvPacketStreamAudioFormatAdtsAac : Z := 2.
Definition AvPacketStreamVideoFormatAvcc : Z := 1.
Definition AvPacketStreamVideoFormatAnnexb : Z := 2.

(** A call whose error the caller looks at. *)
Definition attempt {A} (m : outcome A) : outcome (A + goerr) :=
  match m with
  | Ret a => Ret (inl a)
  | Fail OutOfFuel => Fail OutOfFuel
  | Fail e => Ret (inr e)
  | Panic => Panic
  end.

(** ** From packets to messages *)

Record AvPacket2RtmpRemuxer := mkAv2Rtmp {
  AudioFormat : Z;
  VideoFormat : Z;
  hasEmittedMetadata : bool;
  audioType : Z;
  videoType : Z;
  r_vps : list Z;
  r_sps : list Z;
  r_pps : list Z;
  hasAdts2Asc : bool;
}.

Definition NewAvPacket2RtmpRemuxer (audioFormat videoFormat : Z) : AvPacket2RtmpRemuxer :=
  mkAv2Rtmp audioFormat videoFormat false AvPacketPtUnknown AvPacketPtUnknown [] [] [] false.

Definition DefaultAv2Rtmp : AvPacket2RtmpRemuxer :=
  NewAvPacket2RtmpRemuxer AvPacketStreamAudioFormatRawAac AvPacketStreamVideoFormatAvcc.

Definition set_emitted (r : AvPacket2RtmpRemuxer) : AvPacket2RtmpRemuxer :=
  mkAv2Rtmp (AudioFormat r) (VideoFormat r) true (audioType r) (videoType r) (r_vps r) (r_sps r) (r_pps r) (hasAdts2Asc r).
Definition set_types (r : AvPacket2RtmpRemuxer) (a v : Z) : AvPacket2RtmpRemuxer :=
  mkAv2Rtmp (AudioFormat r) (VideoFormat r) (hasEmittedMetadata r) a v (r_vps r) (r_sps r) (r_pps r) (hasAdts2Asc r).
Definition set_sets (vps sps pps : list Z) (r : AvPacket2RtmpRemuxer) : AvPacket2RtmpRemuxer :=
  mkAv2Rtmp (AudioFormat r) (VideoFormat r) (hasEmittedMetadata r) (audioType r) (videoType r) vps sps pps (hasAdts2Asc r).
Definition set_asc_done (r : AvPacket2RtmpRemuxer) : AvPacket2RtmpRemuxer :=
  mkAv2Rtmp (AudioFormat r) (VideoFormat r) (hasEmittedMetadata r) (audioType r) (videoType r) (r_vps r) (r_sps r) (r_pps r) true.

Definition setVps (b : list Z) (r : AvPacket2RtmpRemuxer) : AvPacket2RtmpRemuxer := set_sets b (r_sps r) (r_pps r) r.
Definition setSps (b : list Z) (r : AvPacket2RtmpRemuxer) : AvPacket2RtmpRemuxer := set_sets (r_vps r) b (r_pps r) r.
Definition setPps (b : list Z) (r : AvPacket2RtmpRemuxer) : AvPacket2RtmpRemuxer := set_sets (r_vps r) (r_sps r) b r.
Definition clearVideoSeqHeader (r : AvPacket2RtmpRemuxer) : AvPacket2RtmpRemuxer := set_sets [] [] [] r.

(** The remuxer and the messages given to [onRtmpMsg]. *)
Abbreviation World := (AvPacket2RtmpRemuxer * list RtmpMsg)%type.
Definition here : eff World AvPacket2RtmpRemuxer := λ w, (w, Ret w.1).
Definition upd (f : AvPacket2RtmpRemuxer → AvPacket2RtmpRemuxer) : eff World unit := λ '(r, out), ((f r, out), Ret tt).
Definition onRtmpMsg (msg : RtmpMsg) : eff World unit := λ '(r, out), ((r, out ++ [msg]), Ret tt).

Section Av2Rtmp.
Context {B : Bele} {BS : BeleStream} {NB : NazaBuffer} {BI : NazaBits}.
Variable ver : Metadata.Versions.

Definition metadata_codecs (r : AvPacket2RtmpRemuxer) : Z * Z :=
  (if audioType r =? AvPacketPtAac then RtmpSoundFormatAac else -1,
   if videoType r =? AvPacketPtAvc then RtmpCodecIdAvc
   else if videoType r =? AvPacketPtHevc then RtmpCodecIdHevc else -1).

Definition metadata_msg (b : list Z) : RtmpMsg :=
  mkRtmpMsg (mkRtmpHeader FlvRemux.CsidAmf (u32 (len b)) RtmpTypeIdMetadata FlvRemux.Msid1 0) b.
Definition av_msg (isAudio : bool) (payload : list Z) (timestamp : Z) : RtmpMsg :=
  mkRtmpMsg (mkRtmpHeader (if isAudio then FlvRemux.CsidAudio else FlvRemux.CsidVideo) (u32 (len payload))
    (if isAudio then RtmpTypeIdAudio else RtmpTypeIdVideo) FlvRemux.Msid1 (u32 timestamp)) payload.

(** Without metadata nothing is sent. *)
Definition emitRtmpAvMsg (isAudio : bool) (payload : list Z) (timestamp : Z) : eff World unit :=
  r ← here;
  ok ← (if hasEmittedMetadata r then mret true else
          let '(a, v) := metadata_codecs r in
          res ← lift (attempt (Metadata.BuildMetadata ver (-1) (-1) a v));
          match res with
          | inr _ => mret false
          | inl b => _ ← onRtmpMsg (metadata_msg b); _ ← upd set_emitted; mret true
          end);
  if ok : bool then onRtmpMsg (av_msg isAudio payload timestamp) else mret tt.

Definition config_types (asc vps sps pps : option (list Z)) (r : AvPacket2RtmpRemuxer) : AvPacket2RtmpRemuxer :=
  set_types r (match asc with Some _ => AvPacketPtAac | None => audioType r end)
    (match sps, pps with
     | Some _, Some _ => match vps with Some _ => AvPacketPtHevc | None => AvPacketPtAvc end
     | _, _ => videoType r
     end).

(** [None] is a nil slice; the two headers are made before either is sent. *)
Definition InitWithAvConfig (asc vps sps pps : option (list Z)) : eff World unit :=
  _ ← upd (config_types asc vps sps pps);
  r ← here;
  if (audioType r =? AvPacketPtUnknown) && (videoType r =? AvPacketPtUnknown) then mret tt else
  ash ← lift (if negb (audioType r =? AvPacketPtUnknown) then
                attempt (Aac.MakeAudioDataSeqHeaderWithAsc (default [] asc)) else Ret (inl []));
  match ash with
  | inr _ => mret tt
  | inl bAsh =>
      vsh ← lift (if negb (videoType r =? AvPacketPtUnknown) then
                    attempt (if videoType r =? AvPacketPtHevc then
                               HevcSeq.BuildSeqHeaderFromVpsSpsPps (default [] vps) (default [] sps) (default [] pps)
                             else AvcSeq.BuildSeqHeaderFromSpsPps (default [] sps) (default [] pps))
                  else Ret (inl []));
      match vsh with
      | inr _ => mret tt
      | inl bVsh =>
          _ ← (if negb (audioType r =? AvPacketPtUnknown) then emitRtmpAvMsg true bAsh 0 else mret tt);
          if negb (videoType r =? AvPacketPtUnknown) then emitRtmpAvMsg false bVsh 0 else mret tt
      end
  end.

(** The payload built so far and the position after it. *)
Abbreviation acc := (list Z * Z)%type.

(** The header of a complete group of parameter sets; one that cannot be made
    leaves the sets. *)
Definition emit_header (sh : outcome (list Z)) (ts : Z) : eff World unit :=
  res ← lift (attempt sh);
  match res with
  | inl b => _ ← emitRtmpAvMsg false b ts; upd clearVideoSeqHeader
  | inr _ => mret tt
  end.

Definition add_nal (frame packetType : Z) (nal : list Z) : acc → outcome acc := λ '(payload, pos),
  payload ← go_set payload 0 frame;
  payload ← go_set payload 1 packetType;
  payload ← go_upd_from payload pos (BePutUint32 (u32 (len nal)));
  payload ← go_copy_at payload (pos + 4) nal;
  Ret (payload, pos + 4 + len nal).

Definition feed_avc_nal (ts : Z) (nal : list Z) (a : acc) : eff World acc :=
  b ← lift (go_index nal 0);
  let t := Avc.ParseNaluType b in
  if t =? Avc.NaluTypeAud then mret a
  else if (t =? Avc.NaluTypeSps) || (t =? Avc.NaluTypePps) then
    _ ← upd (if t =? Avc.NaluTypeSps then setSps nal else setPps nal);
    r ← here;
    _ ← (if (len (r_sps r) >? 0) && (len (r_pps r) >? 0) then
           emit_header (AvcSeq.BuildSeqHeaderFromSpsPps (r_sps r) (r_pps r)) ts
         else mret tt);
    mret a
  else
    lift (add_nal (if t =? Avc.NaluTypeIdrSlice then RtmpAvcKeyFrame else RtmpAvcInterFrame)
            RtmpAvcPacketTypeNalu nal a).

Definition feed_hevc_nal (ts : Z) (nal : list Z) (a : acc) : eff World acc :=
  b ← lift (go_index nal 0);
  let t := Hevc.ParseNaluType b in
  if t =? Hevc.NaluTypeAud then mret a
  else if (t =? Hevc.NaluTypeVps) || (t =? Hevc.NaluTypeSps) || (t =? Hevc.NaluTypePps) then
    _ ← upd (if t =? Hevc.NaluTypeVps then setVps nal else if t =? Hevc.NaluTypeSps then setSps nal else setPps nal);
    r ← here;
    _ ← (if (len (r_vps r) >? 0) && (len (r_sps r) >? 0) && (len (r_pps r) >? 0) then
           emit_header (HevcSeq.BuildSeqHeaderFromVpsSpsPps (r_vps r) (r_sps r) (r_pps r)) ts
         else mret tt);
    mret a
  else
    lift (add_nal (if Hevc.IsIrapNalu t then RtmpHevcKeyFrame else RtmpHevcInterFrame)
            RtmpHevcPacketTypeNalu nal a).

Fixpoint feed_nals (pt ts : Z) (nals : list (list Z)) (a : acc) : eff World acc :=
  match nals with
  | [] => mret a
  | nal :: nals =>
      a ← (if pt =? AvPacketPtAvc then feed_avc_nal ts nal a else feed_hevc_nal ts nal a);
      feed_nals pt ts nals a
  end.

Definition split_units (r : AvPacket2RtmpRemuxer) (payload : list Z) : outcome Avc.nal_result :=
  if VideoFormat r =? AvPacketStreamVideoFormatAvcc then Avc.SplitNaluAvcc (Some payload)
  else Ret (Avc.SplitNaluAnnexb (Some payload)).

Definition feed_video (pkt : AvPacket) : eff World unit :=
  r ← here;
  res ← lift (split_units r (Payload pkt));
  match res with
  | None => lift (Fail OutOfFuel)
  | Some (_, Some _) => mret tt
  | Some (nals, None) =>
      let payload := go_make (len (Payload pkt) + 5 + len nals) in
      '(payload, pos) ← feed_nals (PayloadType pkt) (avTimestamp pkt) nals (payload, 5);
      if pos >? 5 then
        p ← lift (go_slice payload 0 pos);
        emitRtmpAvMsg false p (avTimestamp pkt)
      else mret tt
  end.

Definition feed_adts (pkt : AvPacket) : eff World unit :=
  r ← here;
  _ ← (if hasAdts2Asc r then mret tt else
         res ← lift (attempt (Aac.MakeAudioDataSeqHeaderWithAdtsHeader (Payload pkt)));
         _ ← emitRtmpAvMsg true (match res with inl b => b | inr _ => [] end) (avTimestamp pkt);
         upd set_asc_done);
  let length := len (Payload pkt) - 5 in
  if length <? 7 then mret tt else
  payload ← lift (go_set (go_make length) 0 175);
  payload ← lift (go_set payload 1 RtmpAacPacketTypeRaw);
  raw ← lift (go_from (Payload pkt) 7);
  payload ← lift (go_copy_at payload 2 raw);
  emitRtmpAvMsg true payload (avTimestamp pkt).

Definition feed_raw_aac (pkt : AvPacket) : eff World unit :=
  payload ← lift (go_set (go_make (len (Payload pkt) + 2)) 0 175);
  payload ← lift (go_set payload 1 RtmpAacPacketTypeRaw);
  payload ← lift (go_copy_at payload 2 (Payload pkt));
  emitRtmpAvMsg true payload (avTimestamp pkt).

(** G.711 and Opus: one byte before the data. *)
Definition feed_plain (first : Z) (pkt : AvPacket) : eff World unit :=
  payload ← lift (go_set (go_make (len (Payload pkt) + 1)) 0 first);
  payload ← lift (go_copy_at payload 1 (Payload pkt));
  emitRtmpAvMsg true payload (avTimestamp pkt).

Definition FeedAvPacket (pkt : AvPacket) : eff World unit :=
  let pt := PayloadType pkt in
  if (pt =? AvPacketPtAvc) || (pt =? AvPacketPtHevc) then feed_video pkt
  else if pt =? AvPacketPtAac then
    r ← here;
    if AudioFormat r =? AvPacketStreamAudioFormatRawAac then feed_raw_aac pkt
    else if AudioFormat r =? AvPacketStreamAudioFormatAdtsAac then feed_adts pkt
    else mret tt
  else if pt =? AvPacketPtG711A then feed_plain 114 pkt
  else if pt =? AvPacketPtG711U then feed_plain 130 pkt
  else if pt =? AvPacketPtOpus then feed_plain 223 pkt
  else mret tt.

Fixpoint feed_packets (l : list AvPacket) : eff World unit :=
  match l with [] => mret tt | pkt :: l => _ ← FeedAvPacket pkt; feed_packets l end.
End Av2Rtmp.

(** ** From messages to packets *)

Record Rtmp2AvPacketRemuxer := mkRtmp2Av { EraseSeiFlag : bool; spspps : list Z }.

Definition NewRtmp2AvPacketRemuxer : Rtmp2AvPacketRemuxer := mkRtmp2Av true [].

(** The remuxer and the packets given to [onAvPacket]. *)
Abbreviation AvWorld := (Rtmp2AvPacketRemuxer * list AvPacket)%type.
Definition av_here : eff AvWorld Rtmp2AvPacketRemuxer := λ w, (w, Ret w.1).
Definition set_spspps (b : list Z) : eff AvWorld unit := λ '(r, out), ((mkRtmp2Av (EraseSeiFlag r) b, out), Ret tt).
Definition onAvPacket (pkt : AvPacket) : eff AvWorld unit := λ '(r, out), ((r, out ++ [pkt]), Ret tt).

(** What the callback of the iteration keeps. *)
Record AvLoop := mkAvLoop { l_out : list Z; l_flag : bool; l_vps : list Z; l_sps : list Z; l_pps : list Z }.

Definition add_unit (nal : list Z) (s : AvLoop) : AvLoop :=
  mkAvLoop (Avc.annexb_append (l_out s) nal) (l_flag s) (l_vps s) (l_sps s) (l_pps s).
(** The parameter sets go before the first slice of a key frame. *)
Definition add_key (sets nal : list Z) (s : AvLoop) : AvLoop :=
  add_unit nal (if l_flag s then s
                else mkAvLoop (l_out s ++ sets) true (l_vps s) (l_sps s) (l_pps s)).

Definition annexb_of (l : list (list Z)) : list Z := foldl Avc.annexb_append [] l.

Definition visit_avc (nal : list Z) (s : AvLoop) : eff AvWorld AvLoop :=
  b ← lift (go_index nal 0);
  let t := Avc.ParseNaluType b in
  if t =? Avc.NaluTypeSps then mret (mkAvLoop (l_out s) (l_flag s) (l_vps s) nal (l_pps s))
  else if t =? Avc.NaluTypePps then
    _ ← (if negb (len (l_sps s) =? 0) && negb (len nal =? 0) then set_spspps (annexb_of [l_sps s; nal]) else mret tt);
    mret (mkAvLoop (l_out s) (l_flag s) (l_vps s) (l_sps s) nal)
  else if t =? Avc.NaluTypeIdrSlice then r ← av_here; mret (add_key (spspps r) nal s)
  else if t =? Avc.NaluTypeSei then r ← av_here; mret (if EraseSeiFlag r then s else add_unit nal s)
  else mret (add_unit nal s).

Definition visit_hevc (nal : list Z) (s : AvLoop) : eff AvWorld AvLoop :=
  b ← lift (go_index nal 0);
  let t := Hevc.ParseNaluType b in
  if t =? Hevc.NaluTypeVps then mret (mkAvLoop (l_out s) (l_flag s) nal (l_sps s) (l_pps s))
  else if t =? Hevc.NaluTypeSps then mret (mkAvLoop (l_out s) (l_flag s) (l_vps s) nal (l_pps s))
  else if t =? Hevc.NaluTypePps then
    _ ← (if negb (len (l_vps s) =? 0) && negb (len (l_sps s) =? 0) && negb (len nal =? 0) then
           set_spspps (annexb_of [l_vps s; l_sps s; nal]) else mret tt);
    mret (mkAvLoop (l_out s) (l_flag s) (l_vps s) (l_sps s) nal)
  else if Hevc.IsIrapNalu t then r ← av_here; mret (add_key (spspps r) nal s)
  else if t =? Hevc.NaluTypeSei then r ← av_here; mret (if EraseSeiFlag r then s else add_unit nal s)
  else mret (add_unit nal s).

Fixpoint visit_all (isH264 : bool) (nals : list (list Z)) (s : AvLoop) : eff AvWorld AvLoop :=
  match nals with
  | [] => mret s
  | nal :: nals => s ← (if isH264 then visit_avc nal s else visit_hevc nal s); visit_all isH264 nals s
  end.

Section Rtmp2Av.
Context {B : Bele} {BI : NazaBits}.
(** [hevc.TryAnnexb...], a flag of package hevc. *)
Variable TryAnnexb : bool.

Definition SeqHeader2Annexb (isH264 : bool) (payload : list Z) : outcome (list Z) :=
  if isH264 then AvcSeq.SpsPpsSeqHeader2Annexb payload else HevcSeq.VpsSpsPpsSeqHeader2Annexb TryAnnexb payload.

(** The error of the header is returned, with the sets emptied. *)
Definition keep_header (isH264 : bool) (payload : list Z) : eff AvWorld unit :=
  res ← lift (attempt (SeqHeader2Annexb isH264 payload));
  match res with
  | inl b => set_spspps b
  | inr e => _ ← set_spspps []; lift (Fail e)
  end.

Definition av_packet (isH264 : bool) (msg : RtmpMsg) (pts : Z) (out : list Z) : AvPacket :=
  mkAvPacket (if isH264 then AvPacketPtAvc else AvPacketPtHevc) (TimestampAbs (msgHeader msg)) pts out.

Definition feedVideo (msg : RtmpMsg) : eff AvWorld unit :=
  if len (msgPayload msg) <=? 5 then mret tt else
  codecId ← lift (VideoCodecId msg);
  let isH264 := codecId =? RtmpCodecIdAvc in
  key ← lift (IsVideoKeySeqHeader msg);
  if key : bool then keep_header isH264 (msgPayload msg) else
  payload ← lift (go_from (msgPayload msg) 5);
  res ← lift (Avc.IterateNaluAvcc (Some payload));
  match res with
  | None => lift (Fail OutOfFuel)
  | Some (nals, err) =>
      s ← visit_all isH264 nals (mkAvLoop [] false [] [] []);
      _ ← (if len (l_out s) >? 0 then
             pts ← lift (Pts msg); onAvPacket (av_packet isH264 msg pts (l_out s))
           else mret tt);
      match err with Some e => lift (Fail e) | None => mret tt end
  end.

Definition FeedRtmpMsg (msg : RtmpMsg) : eff AvWorld unit :=
  if MsgTypeId (msgHeader msg) =? RtmpTypeIdVideo then feedVideo msg else mret tt.

(** The caller looks at no error. *)
Fixpoint feed_msgs (l : list RtmpMsg) : eff AvWorld unit :=
  match l with
  | [] => mret tt
  | msg :: l => _ ← (λ w, let '(w, r) := FeedRtmpMsg msg w in
                       (w, match r with Fail OutOfFuel => Fail OutOfFuel | Fail _ => Ret tt | r => r end));
                feed_msgs l
  end.
End Rtmp2Av.
