(* ===== verification/AvFlow.v ===== *)
(** * From packets to messages and back

    The video of a stream of access units, fed as packets to the remuxer that
    makes messages of it (AvRemux, [FeedAvPacket]) and from there to the one
    that makes packets (AvRemux, [FeedRtmpMsg]), in either framing and for both
    codecs. *)

From S2P Require Import Prelude Naza Bits Base RtmpMsg AvRemux.
From S2P Require Avc Hevc AvcSeq HevcSeq Metadata FlvRemux.

(** ** The two codecs *)

Inductive Codec := H264 | H265.

Definition pt (c : Codec) : Z := match c with H264 => AvPacketPtAvc | H265 => AvPacketPtHevc end.
Definition is_h264 (c : Codec) : bool := match c with H264 => true | H265 => false end.

Inductive Kind := Delimiter | ParameterSet | KeySlice | Sei | OtherUnit.

(** Of the type in the first byte (H.264 table 7-1, H.265 table 7-1). *)
Definition kind (c : Codec) (nal : list Z) : Kind :=
  match nal with
  | [] => OtherUnit
  | b :: _ =>
      match c with
      | H264 =>
          let t := b mod 32 in
          if t =? 9 then Delimiter else if (t =? 7) || (t =? 8) then ParameterSet
          else if t =? 5 then KeySlice else if t =? 6 then Sei else OtherUnit
      | H265 =>
          let t := b / 2 mod 64 in
          if t =? 35 then Delimiter else if (t =? 32) || (t =? 33) || (t =? 34) then ParameterSet
          else if (16 <=? t) && (t <=? 23) then KeySlice else if t =? 39 then Sei else OtherUnit
      end
  end.
#[global] Instance Kind_eq_dec : EqDecision Kind.
Proof. solve_decision. Defined.

(** The parameter sets of a unit of the stream, in the order they are sent. *)
Definition sets_units (c : Codec) (u : HevcSeq.Units) : list (list Z) :=
  match c with H264 => [HevcSeq.uSps u; HevcSeq.uPps u] | H265 => [HevcSeq.uVps u; HevcSeq.uSps u; HevcSeq.uPps u] end.

(** An access unit: time, an optional delimiter, optional parameter sets, and
    the units of the picture. *)
Record AccessUnit := mkAu {
  auTime : Z;
  auDelimiter : option (list Z);
  auSets : option HevcSeq.Units;
  auSlices : list (list Z);
}.

Definition opt_units {A} (f : A → list (list Z)) (o : option A) : list (list Z) :=
  match o with Some a => f a | None => [] end.
Definition au_units (c : Codec) (a : AccessUnit) : list (list Z) :=
  opt_units (λ d, [d]) (auDelimiter a) ++ opt_units (sets_units c) (auSets a) ++ auSlices a.

(** The framing: lengths, or start codes of three and four bytes. *)
Inductive Framing := Avcc | Annexb (codes : nat → bool).
Definition video_format (f : Framing) : Z :=
  match f with Avcc => AvPacketStreamVideoFormatAvcc | Annexb _ => AvPacketStreamVideoFormatAnnexb end.
Definition framed (f : Framing) (l : list (list Z)) : list Z :=
  match f with
  | Avcc => Avc.avcc_join l
  | Annexb codes => Avc.mixed_join (imap (λ i n, (codes i, n)) l)
  end.

Definition au_packet (c : Codec) (f : Framing) (a : AccessUnit) : AvPacket :=
  mkAvPacket (pt c) (auTime a) (auTime a) (framed f (au_units c a)).

(** ** What should come out

    The picture without its SEI, the sets in force before the first slice of a
    key frame, four-byte start codes. *)
Fixpoint out_units (c : Codec) (sets : list (list Z)) (done : bool) (l : list (list Z)) : list (list Z) :=
  match l with
  | [] => []
  | n :: l =>
      match kind c n with
      | KeySlice => (if done then [] else sets) ++ n :: out_units c sets true l
      | Sei => out_units c sets done l
      | _ => n :: out_units c sets done l
      end
  end.

Definition out_packet (c : Codec) (ts : Z) (l : list (list Z)) : list AvPacket :=
  match l with [] => [] | _ => [mkAvPacket (pt c) (u32 ts) (u32 ts) (Avc.annexb_join l)] end.

Definition sets_after (c : Codec) (sets : list (list Z)) (a : AccessUnit) : list (list Z) :=
  match auSets a with Some u => sets_units c u | None => sets end.

Fixpoint out_stream (c : Codec) (sets : list (list Z)) (l : list AccessUnit) : list AvPacket :=
  match l with
  | [] => []
  | a :: l =>
      let sets := sets_after c sets a in
      out_packet c (auTime a) (out_units c sets false (auSlices a)) ++ out_stream c sets l
  end.

(** ** The stream *)

Section Wf.
Context {B : Bele} {BI : NazaBits}.

(** The sets parse, in the sense of the code's own parsers. *)
Definition sets_parse (c : Codec) (u : HevcSeq.Units) : Prop :=
  match c with
  | H264 => ∃ ctx, AvcSeq.ParseSps (HevcSeq.uSps u) = Ret ctx ∧ is_u8 (AvcSeq.Profile ctx) ∧ is_u8 (AvcSeq.Level ctx)
  | H265 => ∃ c1 c2, HevcSeq.ParseVps (HevcSeq.uVps u) HevcSeq.newContext = Ret c1 ∧ HevcSeq.ParseSps (HevcSeq.uSps u) c1 = Ret c2
  end.

Definition nal_of (c : Codec) (t : Z) (n : list Z) : Prop :=
  ∃ b l, n = b :: l ∧ is_u8 b ∧ match c with H264 => b mod 32 | H265 => b / 2 mod 64 end = t.

Record sets_ok (c : Codec) (u : HevcSeq.Units) : Prop := {
  sets_len : HevcSeq.units_ok u;
  sets_bytes : is_bytes (HevcSeq.uSps u) ∧ is_bytes (HevcSeq.uPps u);
  sets_types : match c with
               | H264 => nal_of c 7 (HevcSeq.uSps u) ∧ nal_of c 8 (HevcSeq.uPps u)
               | H265 => nal_of c 32 (HevcSeq.uVps u) ∧ nal_of c 33 (HevcSeq.uSps u) ∧ nal_of c 34 (HevcSeq.uPps u)
               end;
  sets_sps : sets_parse c u;
}.

Definition picture_unit (c : Codec) (n : list Z) : Prop :=
  n ≠ [] ∧ is_bytes n ∧ kind c n ≠ Delimiter ∧ kind c n ≠ ParameterSet.

Definition fits (f : Framing) (l : list (list Z)) : Prop :=
  Forall (λ n, is_u32 (len n)) l ∧ match f with Avcc => True | Annexb _ => Forall Avc.clean_nal l end.

Record au_ok (c : Codec) (f : Framing) (a : AccessUnit) : Prop := {
  au_fits : fits f (au_units c a);
  au_delimiter : ∀ d, auDelimiter a = Some d → is_bytes d ∧ kind c d = Delimiter;
  au_sets : ∀ u, auSets a = Some u → sets_ok c u;
  au_slices : Forall (picture_unit c) (auSlices a) ∧ auSlices a ≠ [];
}.
End Wf.

(** ** Units and their kinds *)

Lemma avc_type b : Avc.ParseNaluType b = b mod 32.
Proof. exact (land_mask b 5 ltac:(lia)). Qed.

Lemma irap_range t : Hevc.IsIrapNalu t = (16 <=? t) && (t <=? 23).
Proof. unfold Hevc.IsIrapNalu. by rewrite Z.geb_leb. Qed.

(** What [FeedAvPacket] does with a unit of a picture. *)
Definition frame_byte (c : Codec) (n : list Z) : Z :=
  match c with
  | H264 => if decide (kind c n = KeySlice) then RtmpAvcKeyFrame else RtmpAvcInterFrame
  | H265 => if decide (kind c n = KeySlice) then RtmpHevcKeyFrame else RtmpHevcInterFrame
  end.

Section Facts.
Context {B : Bele} {HB : BeleLaws B} {BS : BeleStream} {HBS : BeleStreamLaws BS}.
Context {NB : NazaBuffer} {HNB : NazaBufferLaws NB} {BI : NazaBits} {HBI : NazaBitsLaws BI}.
Variable ver : Metadata.Versions.
Hypothesis Hver : Metadata.versions_ok ver.

Abbreviation feed_nal c := (if pt c =? AvPacketPtAvc then feed_avc_nal ver else feed_hevc_nal ver).

Lemma feed_nals_cons c ts n l a :
  feed_nals ver (pt c) ts (n :: l) a = (a ← feed_nal c ts n a; feed_nals ver (pt c) ts l a).
Proof. by destruct c. Qed.

Lemma feed_picture_unit c ts n a w : picture_unit c n →
  feed_nal c ts n a w = (w, add_nal (frame_byte c n) 1 n a).
Proof.
  intros (Hn & Hb & Hd & Hp). destruct n as [|b n]; [done|]. apply is_bytes_cons in Hb as [Hb _].
  unfold frame_byte. destruct c; cbn [pt kind] in *.
  - change (AvPacketPtAvc =? AvPacketPtAvc) with true. cbv iota. unfold feed_avc_nal. rewrite go_index_head by done.
    rewrite eff_bind_lift, avc_type. cbv zeta. unfold Avc.NaluTypeAud, Avc.NaluTypeSps, Avc.NaluTypePps, Avc.NaluTypeIdrSlice.
    destruct (b mod 32 =? 9), (b mod 32 =? 7), (b mod 32 =? 8); cbn [orb] in *; try done.
    by destruct (b mod 32 =? 5), (b mod 32 =? 6).
  - change (AvPacketPtHevc =? AvPacketPtAvc) with false. cbv iota. unfold feed_hevc_nal. rewrite go_index_head by done.
    rewrite eff_bind_lift, Hevc.ParseNaluType_arith by done. cbv zeta. rewrite irap_range.
    unfold Hevc.NaluTypeAud, Hevc.NaluTypeVps, Hevc.NaluTypeSps, Hevc.NaluTypePps.
    set (t := b / 2 mod 64) in *. clearbody t.
    destruct (t =? 35), (t =? 32), (t =? 33), (t =? 34); cbn [orb] in *; try done.
    by destruct ((16 <=? t) && (t <=? 23)), (t =? 39).
Qed.

Lemma feed_delimiter c ts n a w : is_bytes n → kind c n = Delimiter → feed_nal c ts n a w = (w, Ret a).
Proof.
  intros Hb Hk. destruct n as [|b n]; [done|]. apply is_bytes_cons in Hb as [Hb _]. destruct c; cbn [pt kind] in *.
  - change (AvPacketPtAvc =? AvPacketPtAvc) with true. cbv iota. unfold feed_avc_nal. rewrite go_index_head by done.
    rewrite eff_bind_lift, avc_type. unfold Avc.NaluTypeAud. destruct (b mod 32 =? 9); [done|]. by repeat case_match.
  - change (AvPacketPtHevc =? AvPacketPtAvc) with false. cbv iota. unfold feed_hevc_nal. rewrite go_index_head by done.
    rewrite eff_bind_lift, Hevc.ParseNaluType_arith by done. unfold Hevc.NaluTypeAud. destruct (b / 2 mod 64 =? 35); [done|]. by repeat case_match.
Qed.

(** ** The payload that is built *)

Definition buf (f g : Z) (body : list Z) (k : Z) : list Z := [f; g; 0; 0; 0] ++ body ++ go_make k.

Lemma add_nal_spec f g n f0 g0 body k : is_u32 (len n) → 4 + len n ≤ k →
  add_nal f g n (buf f0 g0 body k, 5 + len body) =
    Ret (buf f g (body ++ be_bytes 4 (len n) ++ n) (k - 4 - len n), 5 + len (body ++ be_bytes 4 (len n) ++ n)).
Proof.
  intros Hn Hk. unfold add_nal, buf. cbn [app]. rewrite go_set_head, bind_Ret by done.
  rewrite go_set_cons_r, go_set_head, !bind_Ret by done. rewrite u32_small by done.
  change (f :: g :: 0 :: 0 :: 0 :: body ++ go_make k) with (([f; g; 0; 0; 0] ++ body) ++ go_make k).
  assert (E5 : 5 + len body = len ([f; g; 0; 0; 0] ++ body)) by len_lia.
  rewrite (upd_fill _ k _ _ (be_bytes 4 (len n))); [|done|rewrite be_bytes_length; lia|].
  2:{ apply BePutUint32_writes; [reflexivity|exact Hn]. }
  rewrite bind_Ret, copy_fill by len_lia. rewrite bind_Ret. f_equal. f_equal.
  - rewrite <- !app_assoc. cbn [app]. do 7 f_equal.
  - len_lia.
Qed.

(** The frame byte after the units; the last one decides. *)
Definition last_byte (c : Codec) (f0 : Z) (l : list (list Z)) : Z := foldl (λ _ n, frame_byte c n) f0 l.

Lemma feed_picture c ts : ∀ l f0 g0 body k w,
  Forall (picture_unit c) l → Forall (λ n, is_u32 (len n)) l → len (Avc.avcc_join l) ≤ k → l ≠ [] →
  feed_nals ver (pt c) ts l (buf f0 g0 body k, 5 + len body) w =
    (w, Ret (buf (last_byte c f0 l) 1 (body ++ Avc.avcc_join l) (k - len (Avc.avcc_join l)),
             5 + len (body ++ Avc.avcc_join l))).
Proof.
  induction l as [|n l IH]; intros f0 g0 body k w Hp Hu Hk Hl; [done|].
  apply Forall_cons in Hp as [Hn Hp]. apply Forall_cons in Hu as [Hn32 Hu].
  rewrite Avc.avcc_join_cons in Hk |- *. assert (Hlen : len (be_bytes 4 (len n)) = 4) by reflexivity.
  rewrite feed_nals_cons. erewrite eff_bind_Ret.
  2:{ rewrite feed_picture_unit by exact Hn. f_equal. apply add_nal_spec; [exact Hn32|revert Hk; len_lia]. }
  set (body1 := body ++ be_bytes 4 (len n) ++ n). destruct l as [|m l].
  - cbn [last_byte foldl Avc.avcc_join map concat]. rewrite app_nil_r. cbn [feed_nals]. unfold mret, eff_ret.
    fold body1. do 4 f_equal. revert Hk. unfold body1. len_lia.
  - rewrite IH; [|done|done|revert Hk; len_lia|done]. unfold body1. rewrite <- !app_assoc.
    do 4 f_equal. revert Hk. len_lia.
Qed.

(** ** Messages sent *)

(** The remuxer and its output, when it holds the sets [u], its metadata is
    [meta] and it sent the messages [l] after it. *)
Definition sent (fa fv : Z) (meta : RtmpMsg) (u : HevcSeq.Units) (l : list RtmpMsg) : World :=
  (mkAv2Rtmp fa fv (match l with [] => false | _ => true end) AvPacketPtUnknown AvPacketPtUnknown
     (HevcSeq.uVps u) (HevcSeq.uSps u) (HevcSeq.uPps u) false,
   match l with [] => [] | _ => meta :: l end).

Definition no_sets : HevcSeq.Units := HevcSeq.mkUnits [] [] [].

Lemma metadata_ok : ∃ b, Metadata.BuildMetadata ver (-1) (-1) (-1) (-1) = Ret b.
Proof. eexists. by apply Metadata.BuildMetadata_bytes. Qed.

Lemma emit_sent fa fv b u l p ts : Metadata.BuildMetadata ver (-1) (-1) (-1) (-1) = Ret b →
  emitRtmpAvMsg ver false p ts (sent fa fv (metadata_msg b) u l) =
    (sent fa fv (metadata_msg b) u (l ++ [av_msg false p ts]), Ret tt).
Proof.
  intros E. unfold emitRtmpAvMsg. destruct l as [|m l]; [|done].
  unfold mbind, eff_bind, here, lift, attempt, metadata_codecs, sent. cbn [fst hasEmittedMetadata audioType videoType].
  change (AvPacketPtUnknown =? _) with false. cbv iota beta. by rewrite E.
Qed.

(** ** Parameter sets *)

Definition key_byte (c : Codec) : Z := match c with H264 => 23 | H265 => 28 end.
Definition build_header (c : Codec) (u : HevcSeq.Units) : outcome (list Z) :=
  match c with
  | H264 => AvcSeq.BuildSeqHeaderFromSpsPps (HevcSeq.uSps u) (HevcSeq.uPps u)
  | H265 => HevcSeq.BuildSeqHeaderFromVpsSpsPps (HevcSeq.uVps u) (HevcSeq.uSps u) (HevcSeq.uPps u)
  end.

Lemma header_made c u flag : sets_ok c u →
  ∃ sh tl, build_header c u = Ret sh ∧ sh = key_byte c :: 0 :: 0 :: 0 :: 0 :: 1 :: tl ∧
    SeqHeader2Annexb flag (is_h264 c) sh = Ret (Avc.annexb_join (sets_units c u)).
Proof.
  intros [(Lv & Ls & Lp) [Bs Bp] _ Hsps]. destruct c; cbn [build_header sets_parse SeqHeader2Annexb is_h264] in *.
  - destruct Hsps as (ctx & E & Hpr & Hlv).
    pose proof (AvcSeq.avc_BuildSeqHeader_spec _ _ ctx E Ls Lp) as Eb. eexists. eexists.
    split; [exact Eb|]. split; [reflexivity|]. cbn [sets_units]. unfold AvcSeq.SpsPpsSeqHeader2Annexb.
    rewrite AvcSeq.parse_lists_spec; [|done| |done..].
    2:{ apply Forall_cons; split; [lia|]. repeat (apply Forall_cons; split; [lia|]). by apply Forall_nil. }
    rewrite bind_Ret, !Avc.annexb_append_all. cbn [app]. unfold Avc.annexb_join. cbn [map concat]. by rewrite !app_nil_r.
  - destruct Hsps as (c1 & c2 & E1 & E2).
    destruct (HevcSeq.hevc_BuildSeqHeader_spec u c1 c2 (conj Lv (conj Ls Lp)) E1 E2) as (cfg & Hc & Eb).
    eexists. eexists. split; [exact Eb|]. split; [reflexivity|]. unfold HevcSeq.VpsSpsPpsSeqHeader2Annexb.
    rewrite HevcSeq.ParseSeqHeader_spec by done. rewrite bind_Ret. unfold HevcSeq.units_annexb, Avc.annexb_join.
    cbn [sets_units map concat]. rewrite app_nil_r, <- !app_assoc. reflexivity.
Qed.

Lemma emit_header_sent fa fv b u ms sh ts : Metadata.BuildMetadata ver (-1) (-1) (-1) (-1) = Ret b →
  emit_header ver (Ret sh) ts (sent fa fv (metadata_msg b) u ms) =
    (sent fa fv (metadata_msg b) no_sets (ms ++ [av_msg false sh ts]), Ret tt).
Proof.
  intros E. unfold emit_header, attempt. rewrite eff_bind_lift.
  rewrite (eff_bind_Ret _ _ _ _ _ (emit_sent fa fv b u ms sh ts E)). by destruct ms.
Qed.

(** The steps over one set: it is kept, and when all are there the header is
    sent. *)
Definition keep_set (t : Z) (n : list Z) (u : HevcSeq.Units) : HevcSeq.Units :=
  HevcSeq.mkUnits (if t =? 32 then n else HevcSeq.uVps u) (if (t =? 7) || (t =? 33) then n else HevcSeq.uSps u)
    (if (t =? 8) || (t =? 34) then n else HevcSeq.uPps u).
Definition complete (c : Codec) (u : HevcSeq.Units) : bool :=
  match c with
  | H264 => (len (HevcSeq.uSps u) >? 0) && (len (HevcSeq.uPps u) >? 0)
  | H265 => (len (HevcSeq.uVps u) >? 0) && (len (HevcSeq.uSps u) >? 0) && (len (HevcSeq.uPps u) >? 0)
  end.
Definition set_types (c : Codec) : list Z := match c with H264 => [7; 8] | H265 => [32; 33; 34] end.

Lemma feed_set c t n ts a fa fv meta u ms : nal_of c t n → t ∈ set_types c →
  let u' := keep_set t n u in
  feed_nal c ts n a (sent fa fv meta u ms) =
    (_ ← (if complete c u' then emit_header ver (build_header c u') ts else mret tt); mret a)
      (sent fa fv meta u' ms).
Proof.
  intros (b & l & -> & Hb & Ht) Hin. destruct c; cbn [pt set_types] in *.
  - change (AvPacketPtAvc =? AvPacketPtAvc) with true. cbv iota. unfold feed_avc_nal. rewrite go_index_head by done.
    rewrite eff_bind_lift, avc_type, Ht.
    apply elem_of_cons in Hin as [->|Hin]; [by destruct u, ms|]. apply list_elem_of_singleton in Hin as ->. by destruct u, ms.
  - change (AvPacketPtHevc =? AvPacketPtAvc) with false. cbv iota. unfold feed_hevc_nal. rewrite go_index_head by done.
    rewrite eff_bind_lift, Hevc.ParseNaluType_arith, Ht by done.
    apply elem_of_cons in Hin as [->|Hin]; [by destruct u, ms|].
    apply elem_of_cons in Hin as [->|Hin]; [by destruct u, ms|]. apply list_elem_of_singleton in Hin as ->. by destruct u, ms.
Qed.

Lemma keep_partial c t n ts l a fa fv meta u ms : nal_of c t n → t ∈ set_types c → complete c (keep_set t n u) = false →
  feed_nals ver (pt c) ts (n :: l) a (sent fa fv meta u ms) = feed_nals ver (pt c) ts l a (sent fa fv meta (keep_set t n u) ms).
Proof.
  intros Hn Ht Hc. rewrite feed_nals_cons. erewrite eff_bind_Ret; [reflexivity|].
  rewrite (feed_set c t n ts a fa fv meta u ms Hn Ht). cbv zeta. by rewrite Hc.
Qed.

Lemma keep_last c t n ts l a fa fv b u ms sh : nal_of c t n → t ∈ set_types c → complete c (keep_set t n u) = true →
  Metadata.BuildMetadata ver (-1) (-1) (-1) (-1) = Ret b → build_header c (keep_set t n u) = Ret sh →
  feed_nals ver (pt c) ts (n :: l) a (sent fa fv (metadata_msg b) u ms) =
    feed_nals ver (pt c) ts l a (sent fa fv (metadata_msg b) no_sets (ms ++ [av_msg false sh ts])).
Proof.
  intros Hn Ht Hc E Es. rewrite feed_nals_cons. erewrite eff_bind_Ret; [reflexivity|].
  rewrite (feed_set c t n ts a fa fv (metadata_msg b) u ms Hn Ht). cbv zeta. rewrite Hc, Es.
  by rewrite (eff_bind_Ret _ _ _ _ _ (emit_header_sent fa fv b _ ms sh ts E)).
Qed.

Lemma nal_of_pos c t n : nal_of c t n → (len n >? 0) = true.
Proof. intros (b & l & -> & _). apply Z.gtb_lt. len_lia. Qed.

Local Ltac in_types := cbn [set_types]; rewrite !elem_of_cons; auto.

Lemma feed_sets c u ts l a fa fv b ms sh : sets_ok c u →
  Metadata.BuildMetadata ver (-1) (-1) (-1) (-1) = Ret b → build_header c u = Ret sh →
  feed_nals ver (pt c) ts (sets_units c u ++ l) a (sent fa fv (metadata_msg b) no_sets ms) =
    feed_nals ver (pt c) ts l a (sent fa fv (metadata_msg b) no_sets (ms ++ [av_msg false sh ts])).
Proof.
  intros [_ _ Ht _] E Es. destruct c, u as [v s p]; cbn [sets_units HevcSeq.uVps HevcSeq.uSps HevcSeq.uPps app] in *.
  - destruct Ht as [H7 H8]. rewrite (keep_partial H264 7); [|done|in_types|cbn; apply andb_false_r].
    apply (keep_last H264 8); [done|in_types| |done|done].
    cbn. by rewrite (nal_of_pos _ _ _ H7), (nal_of_pos _ _ _ H8).
  - destruct Ht as (H32 & H33 & H34).
    rewrite (keep_partial H265 32); [|done|in_types|cbn; by rewrite !andb_false_r].
    rewrite (keep_partial H265 33); [|done|in_types|cbn; by rewrite !andb_false_r].
    apply (keep_last H265 34); [done|in_types| |done|done].
    cbn. by rewrite (nal_of_pos _ _ _ H32), (nal_of_pos _ _ _ H33), (nal_of_pos _ _ _ H34).
Qed.

(** ** A packet *)

Lemma framed_units f l r : fits f l → Forall (λ n, n ≠ []) l → l ≠ [] → VideoFormat r = video_format f →
  split_units r (framed f l) = Ret (Some (l, None)) ∧ len (Avc.avcc_join l) ≤ len (framed f l) + len l.
Proof.
  intros [Hu Hf] Hne Hl Hv. unfold split_units. rewrite Hv. destruct f as [|codes]; cbn [video_format framed].
  - change (AvPacketStreamVideoFormatAvcc =? AvPacketStreamVideoFormatAvcc) with true. cbv iota. split; [|lia].
    apply Avc.SplitNaluAvcc_join_aux; [done|]. by apply Forall_and.
  - change (AvPacketStreamVideoFormatAnnexb =? AvPacketStreamVideoFormatAvcc) with false. cbv iota.
    assert (E2 : ∀ g, (imap (λ i n, (g i : bool, n)) l).*2 = l).
    { clear. induction l as [|n l IH]; intros g; [done|]. cbn. f_equal. apply (IH (g ∘ S)). }
    split.
    + rewrite Avc.SplitNaluAnnexb_mixed; [by rewrite E2| |].
      * intros E. apply (f_equal length) in E. rewrite length_imap in E. by destruct l.
      * rewrite <- (Forall_fmap snd), E2. done.
    + rewrite Avc.avcc_join_length. clear. generalize codes. induction l as [|n l IH]; intros g; [cbn; lia|].
      cbn [imap]. rewrite Avc.mixed_join_cons. cbn [fst snd concat]. pose proof (Avc.start_code_length (g 0%nat)).
      pose proof (IH (g ∘ S)). revert H H0. unfold compose. len_lia.
Qed.

(** The message of the picture. *)
Definition picture_msg (c : Codec) (a : AccessUnit) : RtmpMsg :=
  av_msg false ([last_byte c 0 (auSlices a); 1; 0; 0; 0] ++ Avc.avcc_join (auSlices a)) (auTime a).
Definition au_msgs (c : Codec) (a : AccessUnit) : list RtmpMsg :=
  match auSets a with
  | Some u => match build_header c u with Ret sh => [av_msg false sh (auTime a)] | _ => [] end
  | None => []
  end ++ [picture_msg c a].

Lemma au_units_nonempty c f a : au_ok c f a → Forall (λ n, n ≠ []) (au_units c a) ∧ au_units c a ≠ [].
Proof.
  intros [_ Hd Hs [Hp Hl]]. split.
  - unfold au_units. rewrite !Forall_app. split_and!.
    + destruct (auDelimiter a) as [d|]; [|by apply Forall_nil]. apply Forall_cons; split; [|by apply Forall_nil].
      intros ->. by destruct (Hd [] eq_refl).
    + destruct (auSets a) as [u|]; [|by apply Forall_nil]. destruct (Hs u eq_refl) as [_ _ Ht _].
      assert (Hn : ∀ t n, nal_of c t n → n ≠ []) by (by intros t n (? & ? & -> & _)).
      destruct c; cbn [opt_units sets_units]; destruct_and!; rewrite !Forall_cons, Forall_nil; split_and!;
        first [exact I | eapply Hn; eassumption].
    + eapply Forall_impl; [exact Hp|]. by intros n (Hn & _).
  - unfold au_units. intros E. apply app_nil in E as [_ E]. by apply app_nil in E as [_ E].
Qed.

Lemma avcc_join_app l m : Avc.avcc_join (l ++ m) = Avc.avcc_join l ++ Avc.avcc_join m.
Proof. unfold Avc.avcc_join. by rewrite map_app, concat_app. Qed.

Lemma feed_au_units c f a k fa fv b ms : au_ok c f a → Metadata.BuildMetadata ver (-1) (-1) (-1) (-1) = Ret b →
  len (Avc.avcc_join (auSlices a)) ≤ k →
  ∃ ms' acc, feed_nals ver (pt c) (auTime a) (au_units c a) (buf 0 0 [] k, 5) (sent fa fv (metadata_msg b) no_sets ms) =
    (sent fa fv (metadata_msg b) no_sets ms', Ret acc) ∧
    ms' ++ [picture_msg c a] = ms ++ au_msgs c a ∧ acc.2 = 5 + len (Avc.avcc_join (auSlices a)) ∧
    go_slice acc.1 0 acc.2 = Ret (msgPayload (picture_msg c a)).
Proof.
  intros [[Hu _] Hd Hs [Hp Hl]] E Hk. unfold au_units in *. rewrite !Forall_app in Hu. destruct Hu as (_ & _ & Hu).
  assert (Eslices : ∀ w, feed_nals ver (pt c) (auTime a) (auSlices a) (buf 0 0 [] k, 5) w = (w, Ret
    (buf (last_byte c 0 (auSlices a)) 1 (Avc.avcc_join (auSlices a)) (k - len (Avc.avcc_join (auSlices a))),
     5 + len (Avc.avcc_join (auSlices a))))).
  { intros w. exact (feed_picture c (auTime a) (auSlices a) 0 0 [] k w Hp Hu Hk Hl). }
  assert (Edel : ∀ l w, feed_nals ver (pt c) (auTime a) (opt_units (λ d, [d]) (auDelimiter a) ++ l) (buf 0 0 [] k, 5) w =
    feed_nals ver (pt c) (auTime a) l (buf 0 0 [] k, 5) w).
  { intros l w. destruct (auDelimiter a) as [d|]; [|done]. destruct (Hd d eq_refl) as [Bd Kd]. cbn [opt_units app].
    by rewrite feed_nals_cons, (eff_bind_Ret _ _ _ _ _ (feed_delimiter c (auTime a) d _ w Bd Kd)). }
  rewrite Edel. unfold au_msgs. destruct (auSets a) as [u|] eqn:Eu; cbn [opt_units app].
  - destruct (header_made c u true (Hs u eq_refl)) as (sh & tl & Esh & _). rewrite Esh, (feed_sets c u _ _ _ _ _ b ms sh (Hs u eq_refl) E Esh).
    rewrite Eslices. do 2 eexists. split; [reflexivity|]. split; [by rewrite <- app_assoc|]. split; [done|].
    unfold buf, picture_msg, av_msg. cbn [fst snd msgPayload]. rewrite app_assoc. apply go_slice_head; len_lia.
  - rewrite Eslices. do 2 eexists. split; [reflexivity|]. split; [done|]. split; [done|].
    unfold buf, picture_msg, av_msg. cbn [fst snd msgPayload]. rewrite app_assoc. apply go_slice_head; len_lia.
Qed.

Lemma feed_au c f a fa b ms : au_ok c f a → Metadata.BuildMetadata ver (-1) (-1) (-1) (-1) = Ret b →
  FeedAvPacket ver (au_packet c f a) (sent fa (video_format f) (metadata_msg b) no_sets ms) =
    (sent fa (video_format f) (metadata_msg b) no_sets (ms ++ au_msgs c a), Ret tt).
Proof.
  intros Ha E. destruct (au_units_nonempty c f a Ha) as [Hne Hnil].
  set (w := sent fa (video_format f) (metadata_msg b) no_sets ms).
  destruct (framed_units f (au_units c a) w.1 (au_fits _ _ _ Ha) Hne Hnil eq_refl) as [Es Hlen].
  assert (Hpos : 0 < len (Avc.avcc_join (auSlices a))).
  { destruct (au_slices _ _ _ Ha) as [_ Hl]. rewrite Avc.avcc_join_length. destruct (auSlices a); [done|len_lia]. }
  assert (Hk : len (Avc.avcc_join (auSlices a)) ≤ len (framed f (au_units c a)) + len (au_units c a)).
  { unfold au_units in *. rewrite !avcc_join_app in Hlen. revert Hlen. len_lia. }
  destruct (feed_au_units c f a _ fa (video_format f) b ms Ha E Hk) as (ms' & [p pos] & Ef & Ems & Epos & Esl).
  cbn [fst snd] in Epos, Esl. unfold FeedAvPacket. 
  assert (Ept : (PayloadType (au_packet c f a) =? AvPacketPtAvc) || (PayloadType (au_packet c f a) =? AvPacketPtHevc) = true) by (by destruct c).
  rewrite Ept. unfold feed_video.
  rewrite (eff_bind_Ret here _ w w w.1 eq_refl). cbn [au_packet Payload PayloadType avTimestamp].
  rewrite Es, eff_bind_lift. unfold w. 
  replace (len (framed f (au_units c a)) + 5 + len (au_units c a))
    with (5 + (len (framed f (au_units c a)) + len (au_units c a))) by lia.
  rewrite go_make_add by lia. change (go_make 5 ++ go_make ?k) with (buf 0 0 [] k).
  rewrite (eff_bind_Ret _ _ _ _ _ Ef). rewrite (proj2 (Z.gtb_lt _ _)) by lia. rewrite Esl, eff_bind_lift, emit_sent by done.
  by rewrite <- Ems.
Qed.

Lemma feed_stream c f fa b : Metadata.BuildMetadata ver (-1) (-1) (-1) (-1) = Ret b → ∀ l ms, Forall (au_ok c f) l →
  feed_packets ver (au_packet c f <$> l) (sent fa (video_format f) (metadata_msg b) no_sets ms) =
    (sent fa (video_format f) (metadata_msg b) no_sets (ms ++ mjoin (au_msgs c <$> l)), Ret tt).
Proof.
  intros E. induction l as [|a l IH]; intros ms Hl; cbn [fmap list_fmap feed_packets].
  - by rewrite app_nil_r.
  - apply Forall_cons in Hl as [Ha Hl]. rewrite (eff_bind_Ret _ _ _ _ _ (feed_au c f a fa b ms Ha E)).
    rewrite IH by done. by rewrite <- app_assoc.
Qed.

(** ** Packets of messages *)

Definition visit (c : Codec) (n : list Z) (s : AvLoop) : eff AvWorld AvLoop :=
  if is_h264 c then visit_avc n s else visit_hevc n s.
Definition visited (c : Codec) (sets n : list Z) (s : AvLoop) : AvLoop :=
  match kind c n with KeySlice => add_key sets n s | Sei => s | _ => add_unit n s end.

Lemma visit_picture_unit c n s sets pk : picture_unit c n →
  visit c n s (mkRtmp2Av true sets, pk) = ((mkRtmp2Av true sets, pk), Ret (visited c sets n s)).
Proof.
  intros (Hn & Hb & Hd & Hp). destruct n as [|b n]; [done|]. apply is_bytes_cons in Hb as [Hb _].
  unfold visit, visited. destruct c; cbn [is_h264 kind] in *.
  - unfold visit_avc. rewrite go_index_head by done. rewrite eff_bind_lift, avc_type. cbv zeta.
    unfold Avc.NaluTypeSps, Avc.NaluTypePps, Avc.NaluTypeIdrSlice, Avc.NaluTypeSei.
    destruct (b mod 32 =? 9), (b mod 32 =? 7), (b mod 32 =? 8); cbn [orb] in *; try done.
    by destruct (b mod 32 =? 5), (b mod 32 =? 6).
  - unfold visit_hevc. rewrite go_index_head by done. rewrite eff_bind_lift, Hevc.ParseNaluType_arith by done. cbv zeta.
    rewrite irap_range. unfold Hevc.NaluTypeVps, Hevc.NaluTypeSps, Hevc.NaluTypePps, Hevc.NaluTypeSei.
    set (t := b / 2 mod 64) in *. clearbody t.
    destruct (t =? 35), (t =? 32), (t =? 33), (t =? 34); cbn [orb] in *; try done.
    by destruct ((16 <=? t) && (t <=? 23)), (t =? 39).
Qed.

Lemma visit_picture c sets pk : ∀ l s, Forall (picture_unit c) l →
  ∃ s', visit_all (is_h264 c) l s (mkRtmp2Av true (Avc.annexb_join sets), pk) =
    ((mkRtmp2Av true (Avc.annexb_join sets), pk), Ret s') ∧
    l_out s' = l_out s ++ Avc.annexb_join (out_units c sets (l_flag s) l).
Proof.
  assert (Happ : ∀ a b, Avc.annexb_join (a ++ b) = Avc.annexb_join a ++ Avc.annexb_join b).
  { intros a b. unfold Avc.annexb_join. by rewrite map_app, concat_app. }
  induction l as [|n l IH]; intros s Hl; [exists s; split; [done|]; cbn; by rewrite app_nil_r|].
  apply Forall_cons in Hl as [Hn Hl]. cbn [visit_all].
  change (if is_h264 c then visit_avc n s else visit_hevc n s) with (visit c n s).
  rewrite (eff_bind_Ret _ _ _ _ _ (visit_picture_unit c n s _ pk Hn)).
  destruct (IH (visited c (Avc.annexb_join sets) n s) Hl) as (s' & E & E'). exists s'. split; [done|]. rewrite E'. clear E E'.
  cbn [out_units]. unfold visited. destruct (kind c n); try done;
    unfold add_key, add_unit, Avc.annexb_append; cbn [l_out l_flag];
    rewrite ?Happ, ?Avc.annexb_join_cons, <- ?app_assoc; try done.
  destruct (l_flag s) eqn:Ef; cbn [l_out l_flag]; rewrite ?Ef; [change (Avc.annexb_join []) with (@nil Z)|];
    rewrite <- ?app_assoc, ?app_nil_l; reflexivity.
Qed.

Lemma last_byte_range c f0 l : l ≠ [] →
  last_byte c f0 l = key_byte c ∨ last_byte c f0 l = key_byte c + 16.
Proof.
  intros Hl. destruct (exists_last Hl) as (l' & n & ->). unfold last_byte. rewrite foldl_app. cbn [foldl].
  unfold frame_byte. destruct c; case_decide; first [left; reflexivity | right; reflexivity].
Qed.

Lemma feed_picture_msg c f flag a sets pk : au_ok c f a →
  feedVideo flag (picture_msg c a) (mkRtmp2Av true (Avc.annexb_join sets), pk) =
    ((mkRtmp2Av true (Avc.annexb_join sets), pk ++ out_packet c (auTime a) (out_units c sets false (auSlices a))), Ret tt).
Proof.
  intros [[Hu _] _ _ [Hp Hl]]. unfold au_units in Hu. rewrite !Forall_app in Hu. destruct Hu as (_ & _ & Hu).
  set (k := last_byte c 0 (auSlices a)). assert (Hk := last_byte_range c 0 (auSlices a) Hl). fold k in Hk.
  set (m := picture_msg c a). assert (Em : msgPayload m = [k; 1; 0; 0; 0] ++ Avc.avcc_join (auSlices a)) by done.
  assert (Hj : 0 < len (Avc.avcc_join (auSlices a))).
  { rewrite Avc.avcc_join_length. assert (0 < length (auSlices a))%nat by (destruct (auSlices a); [done|cbn; lia]). lia. }
  assert (Ec : VideoCodecId m = Ret (if is_h264 c then RtmpCodecIdAvc else RtmpCodecIdHevc)).
  { unfold VideoCodecId, IsEnhanced. rewrite Em. cbn [app]. rewrite !go_index_head by done. by destruct c, Hk as [-> | ->]. }
  assert (Ek : IsVideoKeySeqHeader m = Ret false).
  { unfold IsVideoKeySeqHeader, IsAvcKeySeqHeader, IsHevcKeySeqHeader, IsEnhanced, at_is. rewrite Em. cbn [app].
    rewrite !go_index_head by done. rewrite !go_index_cons_r, !go_index_head by done. by destruct c, Hk as [-> | ->]. }
  assert (Ep : Pts m = Ret (u32 (auTime a))).
  { unfold Pts. rewrite Em. cbn [app]. rewrite !go_from_cons_r, go_from_head, bind_Ret by done.
    change (0 :: 0 :: 0 :: ?t) with (be_bytes 3 0 ++ t). rewrite BeUint24_be, bind_Ret by lia.
    cbn [m picture_msg av_msg msgHeader TimestampAbs]. rewrite Z.add_0_r. f_equal. apply u32_small, u32_range. }
  unfold feedVideo. fold m. rewrite (proj2 (Z.leb_gt _ _)) by (rewrite Em; len_lia).
  rewrite Ec, eff_bind_lift. cbv zeta. rewrite Ek, eff_bind_lift. rewrite Em, go_from_app, eff_bind_lift by done.
  assert (Ei : Avc.IterateNaluAvcc (Some (Avc.avcc_join (auSlices a))) = Ret (Some (auSlices a, None))).
  { apply Avc.SplitNaluAvcc_join_aux; [done|]. apply Forall_and. split; [|done].
    eapply Forall_impl; [exact Hp|]. by intros n [Hn _]. }
  rewrite Ei, eff_bind_lift.
  assert (Eh : ((if is_h264 c then RtmpCodecIdAvc else RtmpCodecIdHevc) =? RtmpCodecIdAvc) = is_h264 c) by by destruct c.
  rewrite Eh. destruct (visit_picture c sets pk (auSlices a) (mkAvLoop [] false [] [] []) Hp) as (s' & Ev & Es).
  rewrite (eff_bind_Ret _ _ _ _ _ Ev). cbn [l_out l_flag app] in Es. rewrite Es. unfold out_packet.
  destruct (out_units c sets false (auSlices a)) as [|n l]; [cbn; by rewrite app_nil_r|].
  rewrite Avc.annexb_join_cons at 1. rewrite (proj2 (Z.gtb_lt _ _)) by (cbn; lia).
  rewrite Ep. unfold mbind, eff_bind, lift, onAvPacket, av_packet. cbn [m picture_msg av_msg msgHeader TimestampAbs]. by destruct c.
Qed.

Lemma feed_header_msg c flag u sh ts sets pk : sets_ok c u → build_header c u = Ret sh →
  feedVideo flag (av_msg false sh ts) (mkRtmp2Av true (Avc.annexb_join sets), pk) =
    ((mkRtmp2Av true (Avc.annexb_join (sets_units c u)), pk), Ret tt).
Proof.
  intros Hu E. destruct (header_made c u flag Hu) as (sh' & tl & E1 & E2 & E3). rewrite E1 in E. injection E as <-.
  set (m := av_msg false sh' ts). assert (Em : msgPayload m = sh') by done.
  assert (Ec : VideoCodecId m = Ret (if is_h264 c then RtmpCodecIdAvc else RtmpCodecIdHevc)).
  { unfold VideoCodecId, IsEnhanced. rewrite Em, E2. rewrite !go_index_head by done. by destruct c. }
  assert (Ek : IsVideoKeySeqHeader m = Ret true).
  { unfold IsVideoKeySeqHeader, IsAvcKeySeqHeader, IsHevcKeySeqHeader, IsEnhanced, at_is. rewrite Em, E2.
    rewrite !go_index_head by done. rewrite !go_index_cons_r, !go_index_head by done. by destruct c. }
  unfold feedVideo. fold m. rewrite (proj2 (Z.leb_gt _ _)) by (rewrite Em, E2; cbn [length]; lia).
  rewrite Ec, eff_bind_lift. cbv zeta. rewrite Ek, eff_bind_lift.
  assert (Eh : ((if is_h264 c then RtmpCodecIdAvc else RtmpCodecIdHevc) =? RtmpCodecIdAvc) = is_h264 c) by by destruct c.
  rewrite Eh. unfold keep_header. rewrite Em, E3. reflexivity.
Qed.

Lemma feed_msgs_app flag l1 l2 w w' : feed_msgs flag l1 w = (w', Ret tt) →
  feed_msgs flag (l1 ++ l2) w = feed_msgs flag l2 w'.
Proof.
  revert w. induction l1 as [|m l1 IH]; intros w; cbn [feed_msgs app]; [by intros [= <-]|].
  unfold mbind, eff_bind. destruct (FeedRtmpMsg flag m w) as [w1 [[]|[]|]]; try discriminate; apply IH.
Qed.

Lemma feed_msgs_one flag m w w' : MsgTypeId (msgHeader m) = RtmpTypeIdVideo →
  feedVideo flag m w = (w', Ret tt) → feed_msgs flag [m] w = (w', Ret tt).
Proof.
  intros Ht E. cbn [feed_msgs]. unfold FeedRtmpMsg. rewrite Ht. change (RtmpTypeIdVideo =? RtmpTypeIdVideo) with true.
  cbv iota. unfold mbind, eff_bind. by rewrite E.
Qed.

Lemma read_au c f flag a sets pk : au_ok c f a →
  feed_msgs flag (au_msgs c a) (mkRtmp2Av true (Avc.annexb_join sets), pk) =
    ((mkRtmp2Av true (Avc.annexb_join (sets_after c sets a)),
      pk ++ out_packet c (auTime a) (out_units c (sets_after c sets a) false (auSlices a))), Ret tt).
Proof.
  intros Ha. unfold au_msgs, sets_after. destruct (auSets a) as [u|] eqn:Eu.
  - pose proof (au_sets _ _ _ Ha u Eu) as Hu. destruct (header_made c u flag Hu) as (sh & tl & Esh & _). rewrite Esh.
    erewrite feed_msgs_app; [|apply feed_msgs_one; [done|by apply feed_header_msg]].
    apply feed_msgs_one; [done|]. by eapply feed_picture_msg.
  - apply feed_msgs_one; [done|]. by eapply feed_picture_msg.
Qed.

Lemma read_stream c f flag : ∀ l sets pk, Forall (au_ok c f) l →
  ∃ r, feed_msgs flag (mjoin (au_msgs c <$> l)) (mkRtmp2Av true (Avc.annexb_join sets), pk) =
    ((r, pk ++ out_stream c sets l), Ret tt).
Proof.
  induction l as [|a l IH]; intros sets pk Hl; [eexists; cbn; by rewrite app_nil_r|].
  apply Forall_cons in Hl as [Ha Hl]. cbn [fmap list_fmap mjoin list_join out_stream].
  rewrite (feed_msgs_app _ _ _ _ _ (read_au c f flag a sets pk Ha)).
  destruct (IH (sets_after c sets a) (pk ++ out_packet c (auTime a) (out_units c (sets_after c sets a) false (auSlices a))) Hl) as (r & E).
  exists r. etransitivity; [exact E|]. by rewrite <- app_assoc.
Qed.
End Facts.

(** ** Properties *)

(** C24: Access units fed as packets, AVC or HEVC, in AVCC or in Annex-B framing
    with start codes of either length, become one metadata message, a sequence
    header for each group of parameter sets, and a message per picture; and
    those messages become Annex-B packets again: one per picture, with its time
    cut to 32 bits, its units in order without delimiters and SEI, and the
    parameter sets in force before the first slice of a key frame. *)
Theorem av_rtmp_roundtrip {B : Bele} (HB : BeleLaws B) {BS : BeleStream} (HBS : BeleStreamLaws BS)
    {NB : NazaBuffer} (HNB : NazaBufferLaws NB) {BI : NazaBits} (HBI : NazaBitsLaws BI) ver flag c f fa l :
  Metadata.versions_ok ver → Forall (au_ok c f) l →
  ∃ r msgs r2 b,
    feed_packets ver (au_packet c f <$> l) (NewAvPacket2RtmpRemuxer fa (video_format f), []) = ((r, msgs), Ret tt) ∧
    (l ≠ [] → msgs = metadata_msg b :: mjoin (au_msgs c <$> l)) ∧
    feed_msgs flag msgs (NewRtmp2AvPacketRemuxer, []) = ((r2, out_stream c [] l), Ret tt).
Proof.
  intros Hver Hl. destruct (metadata_ok ver Hver) as (b & E).
  pose proof (feed_stream ver c f fa b E l [] Hl) as Ef. change (sent _ _ _ _ []) with (NewAvPacket2RtmpRemuxer fa (video_format f), @nil RtmpMsg) in Ef.
  destruct (read_stream c f flag l [] [] Hl) as (r2 & Er). cbn [app] in Er, Ef.
  assert (Hm : mjoin (au_msgs c <$> l) = [] → l = []).
  { destruct l as [|a l]; [done|]. cbn. unfold au_msgs. intros H. apply app_nil in H as [H _]. by apply app_nil in H as [_ H]. }
  unfold sent in Ef. destruct (mjoin (au_msgs c <$> l)) as [|m ms] eqn:Em.
  - rewrite (Hm eq_refl) in *. do 3 eexists. exists b. split; [exact Ef|]. by split.
  - do 3 eexists. exists b. split; [exact Ef|]. split; [done|]. exact Er.
Qed.

(** ** Findings *)

(** A key frame followed by another unit (filler data, type 12) is announced as
    an inter frame. *)
Example av_key_then_filler_inter :
  let au := mkAu 40 None None [[101; 1; 2]; [12; 255]] in
  (λ m, take 1 (msgPayload m)) <$> (feed_packets (B := bele_impl) (BS := bele_stream_impl) (BI := bits_impl)
     Metadata.demo_versions [au_packet H264 Avcc au] (DefaultAv2Rtmp, [])).1.2 = [[2]; [39]].
Proof. vm_compute. reflexivity. Qed.

(** An ADTS frame of four bytes of data is not sent. *)
Example av_short_adts_dropped :
  let r := mkAv2Rtmp AvPacketStreamAudioFormatAdtsAac AvPacketStreamVideoFormatAvcc true AvPacketPtAac AvPacketPtUnknown [] [] [] true in
  FeedAvPacket (BS := bele_stream_impl) (B := bele_impl) (BI := bits_impl) Metadata.demo_versions
    (mkAvPacket AvPacketPtAac 0 0 [255; 241; 76; 128; 1; 127; 252; 1; 2; 3; 4]) (r, []) = ((r, []), Ret tt).
Proof. vm_compute. reflexivity. Qed.

(** ** Witnesses *)

Definition demo_aus : list AccessUnit :=
  [mkAu 40 (Some [9; 240]) (Some (HevcSeq.mkUnits [] AvcSeq.demo_sps [104; 206; 60; 128])) [[6; 5]; [101; 1; 2]];
   mkAu 4294967376 None None [[65; 9]; [65; 7]]].

Lemma demo_aus_ok : Forall (au_ok (BI := bits_impl) H264 Avcc) demo_aus.
Proof.
  assert (Hb : ∀ b, forallb (λ x, (0 <=? x) && (x <? 256)) b = true → is_bytes b).
  { intros b E. apply Forall_forall. intros x Hx. rewrite forallb_forall in E. apply list_elem_of_In in Hx.
    specialize (E x Hx). lia. }
  unfold demo_aus. rewrite !Forall_cons, Forall_nil. split_and!; [| |done]; split; cbn [auDelimiter auSets auSlices].
  - split; [|done]. apply (bool_decide_unpack _). vm_compute. exact I.
  - intros d [= <-]. split; [by apply Hb|done].
  - intros u [= <-]. split; cbn [HevcSeq.uSps HevcSeq.uPps].
    + repeat split; by vm_compute.
    + split; by apply Hb.
    + split; (do 2 eexists; split; [reflexivity|]; split; [by vm_compute|by vm_compute]).
    + exists (AvcSeq.sps_context AvcSeq.demo_1080i). split; [exact AvcSeq.demo_parses|]. by vm_compute.
  - split; [|done]. rewrite !Forall_cons, Forall_nil. unfold picture_unit.
    split_and!; [done|by apply Hb|done|done|done|by apply Hb|done|done|done].
  - split; [|done]. apply (bool_decide_unpack _). vm_compute. exact I.
  - done.
  - done.
  - split; [|done]. rewrite !Forall_cons, Forall_nil. unfold picture_unit.
    split_and!; [done|by apply Hb|done|done|done|by apply Hb|done|done|done].
Qed.

Lemma av_rtmp_roundtrip_witness :
  ∃ r msgs r2 b,
    feed_packets (B := bele_impl) (BS := bele_stream_impl) (BI := bits_impl) Metadata.demo_versions
      (au_packet H264 Avcc <$> demo_aus) (DefaultAv2Rtmp, []) = ((r, msgs), Ret tt) ∧
    (demo_aus ≠ [] → msgs = metadata_msg b :: mjoin (au_msgs (B := bele_impl) (BI := bits_impl) H264 <$> demo_aus)) ∧
    feed_msgs (B := bele_impl) (BI := bits_impl) true msgs (NewRtmp2AvPacketRemuxer, []) =
      ((r2, [mkAvPacket 96 40 40 ([0; 0; 0; 1] ++ AvcSeq.demo_sps ++ [0; 0; 0; 1; 104; 206; 60; 128; 0; 0; 0; 1; 101; 1; 2]);
             mkAvPacket 96 80 80 [0; 0; 0; 1; 65; 9; 0; 0; 0; 1; 65; 7]]), Ret tt).
Proof.
  exact (av_rtmp_roundtrip bele_impl_laws bele_stream_impl_laws buffer_impl_laws bits_impl_laws Metadata.demo_versions true
    H264 Avcc AvPacketStreamAudioFormatRawAac demo_aus (conj eq_refl eq_refl) demo_aus_ok).
Defined.
