(* ===== verification/GroupIn.v ===== *)
(** * The publishers and the relays of a group (src/pkg/logic/group__in.go,
    group__relay_pull.go, group__relay_push.go, group__.go)

    A group has at most one session it takes media from: one of a publisher, or
    one of its own that pulls the stream from elsewhere.  The pulls run in
    goroutines that take the lock of the group for each of their sections; an
    [Op] is one such section, of an attempt to pull, of a session or of a
    caller, and [exec] a sequence of them, in any order.  The clock stands
    still within a section.  What the media of the group do at the ends of a
    session is reached through a class that [GroupMedia] implements. *)

From stdpp Require Import gmap.
From S2P Require Import Prelude Naza Bits RtmpMsg GoText.
From S2P Require GopCache GroupStream Group DummyAudio Rtmp2Mpegts AvRemux.
Import GroupStream(update).

(** naza/unique: a prefix with a counter. *)
Class Unique := {
  GenUniqueKey : list Z → Z → list Z;
  GenUniqueKey_inj : ∀ p n m, 0 ≤ n → 0 ≤ m → GenUniqueKey p n = GenUniqueKey p m → n = m;
  GenUniqueKey_prefix : ∀ p n, HasPrefix (GenUniqueKey p n) p = true;
}.

(** What [addIn], [delIn] and their callers do to the media: [md_addIn key stores]
    without the pushes, [stores] telling whether HLS and the records are started. *)
Class MediaSide (M : Type) := {
  md_addIn : list Z → bool → M → M;
  md_startRtspRemuxer : M → M;
  md_startRtmpRemuxer : M → M;
  md_delIn : eff M unit;
  md_hasSubSession : M → bool;
}.

(** ** State *)

Definition UkPreRtmpPullSession : list Z := str "RTMPPULL".
Definition UkPreRtspPullSession : list Z := str "RTSPPULL".
Definition UkPreCustomizePubSessionContext : list Z := str "CUSTOMIZEPUB".

Definition minPullBackoffMs : Z := 1000.
Definition maxPullBackoffMs : Z := 30 * 1000.
Definition pullBackoffJitterMs : Z := 250.
Definition StaticRelayPullTimeoutMs : Z := 20000.
Definition PullRetryNumForever : Z := -1.
Definition AutoStopPullAfterNoOutMsImmediately : Z := 0.

(** A pull session is its unique key. *)
Record PullProxy := mkPull {
  staticRelayPullEnable : bool;
  apiEnable : bool;
  pullUrl : list Z;
  pullTimeoutMs : Z;
  pullRetryNum : Z;
  autoStopPullAfterNoOutMs : Z;
  rtspMode : Z;
  debugDumpPacket : list Z;
  startCount : Z;
  lastHasOutTs : Z;
  isSessionPulling : bool;
  pullingSessionId : list Z;
  nextPullTsMs : Z;
  backoffMs : Z;
  rtmpSession : option (list Z);
  rtspSession : option (list Z);
}.

Definition set_task (p : PullProxy) (b : bool) (id : list Z) : PullProxy :=
  mkPull (staticRelayPullEnable p) (apiEnable p) (pullUrl p) (pullTimeoutMs p) (pullRetryNum p)
    (autoStopPullAfterNoOutMs p) (rtspMode p) (debugDumpPacket p) (startCount p) (lastHasOutTs p) b id
    (nextPullTsMs p) (backoffMs p) (rtmpSession p) (rtspSession p).
Definition set_backoff (p : PullProxy) (next backoff : Z) : PullProxy :=
  mkPull (staticRelayPullEnable p) (apiEnable p) (pullUrl p) (pullTimeoutMs p) (pullRetryNum p)
    (autoStopPullAfterNoOutMs p) (rtspMode p) (debugDumpPacket p) (startCount p) (lastHasOutTs p)
    (isSessionPulling p) (pullingSessionId p) next backoff (rtmpSession p) (rtspSession p).
Definition set_sessions (p : PullProxy) (r s : option (list Z)) : PullProxy :=
  mkPull (staticRelayPullEnable p) (apiEnable p) (pullUrl p) (pullTimeoutMs p) (pullRetryNum p)
    (autoStopPullAfterNoOutMs p) (rtspMode p) (debugDumpPacket p) (startCount p) (lastHasOutTs p)
    (isSessionPulling p) (pullingSessionId p) (nextPullTsMs p) (backoffMs p) r s.
Definition set_counts (p : PullProxy) (count last : Z) : PullProxy :=
  mkPull (staticRelayPullEnable p) (apiEnable p) (pullUrl p) (pullTimeoutMs p) (pullRetryNum p)
    (autoStopPullAfterNoOutMs p) (rtspMode p) (debugDumpPacket p) count last
    (isSessionPulling p) (pullingSessionId p) (nextPullTsMs p) (backoffMs p) (rtmpSession p) (rtspSession p).
Definition set_api (p : PullProxy) (enable : bool) : PullProxy :=
  mkPull (staticRelayPullEnable p) enable (pullUrl p) (pullTimeoutMs p) (pullRetryNum p)
    (autoStopPullAfterNoOutMs p) (rtspMode p) (debugDumpPacket p) (startCount p) (lastHasOutTs p)
    (isSessionPulling p) (pullingSessionId p) (nextPullTsMs p) (backoffMs p) (rtmpSession p) (rtspSession p).

Record ApiCtrlStartRelayPullReq := mkPullReq {
  req_Url : list Z;
  req_PullTimeoutMs : Z;
  req_PullRetryNum : Z;
  req_AutoStopPullAfterNoOutMs : Z;
  req_RtspMode : Z;
  req_DebugDumpPacket : list Z;
}.
Definition set_req (p : PullProxy) (i : ApiCtrlStartRelayPullReq) : PullProxy :=
  mkPull (staticRelayPullEnable p) true (req_Url i) (req_PullTimeoutMs i) (req_PullRetryNum i)
    (req_AutoStopPullAfterNoOutMs i) (req_RtspMode i) (req_DebugDumpPacket i) (startCount p) (lastHasOutTs p)
    (isSessionPulling p) (pullingSessionId p) (nextPullTsMs p) (backoffMs p) (rtmpSession p) (rtspSession p).

Record pushProxy := mkPushProxy { isPushing : bool; pushSession : option (list Z) }.

(** The goroutine of an attempt to pull: it waits for a slot, starts its session
    (which calls Add when it has the answer), waits for its end, has told the
    group of it, is over. *)
Inductive Phase := Queued | Starting | Called | Running | Exited | Over.
#[global] Instance Phase_eq_dec : EqDecision Phase.
Proof. solve_decision. Defined.
Record Attempt := mkAttempt {
  isPullByRtmp : bool;
  at_url : list Z;
  at_timeoutMs : Z;
  OverTcp : bool;
  phase : Phase;
}.
Definition set_phase (x : Phase) (a : Attempt) : Attempt :=
  mkAttempt (isPullByRtmp a) (at_url a) (at_timeoutMs a) (OverTcp a) x.

(** What the world sees. *)
Inductive Event :=
  | Dispose (key : list Z)
  | OnRelayPullStart (key : list Z) (hasIn hasOut : bool)
  | OnRelayPullStop (key : list Z) (hasIn hasOut : bool).

Section In.
Context {U : Unique} {M : Type} {MS : MediaSide M}.

Record Group := mkGroup {
  media : M;
  rtmpPubSession : option (list Z);
  rtspPubSession : option (list Z);
  customizePubSession : option (list Z * list Z); (* key, stream name *)
  pullProxy : PullProxy;
  hlsSubSessionSet : gset (list Z);
  pushEnable : bool;
  url2PushProxy : gmap (list Z) pushProxy;
  isRelaying : bool;
  nowMs : Z;
  attempts : gmap (list Z) Attempt;
  rtmpPulls : Z; rtspPulls : Z; customizePubs : Z; (* keys made *)
  events : list Event;
}.

Definition set_media (g : Group) (m : M) : Group :=
  mkGroup m (rtmpPubSession g) (rtspPubSession g) (customizePubSession g) (pullProxy g) (hlsSubSessionSet g)
    (pushEnable g) (url2PushProxy g) (isRelaying g) (nowMs g) (attempts g) (rtmpPulls g) (rtspPulls g)
    (customizePubs g) (events g).
Definition set_pubs (g : Group) (r s : option (list Z)) (c : option (list Z * list Z)) : Group :=
  mkGroup (media g) r s c (pullProxy g) (hlsSubSessionSet g)
    (pushEnable g) (url2PushProxy g) (isRelaying g) (nowMs g) (attempts g) (rtmpPulls g) (rtspPulls g)
    (customizePubs g) (events g).
Definition set_pull (g : Group) (p : PullProxy) : Group :=
  mkGroup (media g) (rtmpPubSession g) (rtspPubSession g) (customizePubSession g) p (hlsSubSessionSet g)
    (pushEnable g) (url2PushProxy g) (isRelaying g) (nowMs g) (attempts g) (rtmpPulls g) (rtspPulls g)
    (customizePubs g) (events g).
Definition set_hls (g : Group) (s : gset (list Z)) : Group :=
  mkGroup (media g) (rtmpPubSession g) (rtspPubSession g) (customizePubSession g) (pullProxy g) s
    (pushEnable g) (url2PushProxy g) (isRelaying g) (nowMs g) (attempts g) (rtmpPulls g) (rtspPulls g)
    (customizePubs g) (events g).
Definition set_push (g : Group) (m : gmap (list Z) pushProxy) : Group :=
  mkGroup (media g) (rtmpPubSession g) (rtspPubSession g) (customizePubSession g) (pullProxy g) (hlsSubSessionSet g)
    (pushEnable g) m (isRelaying g) (nowMs g) (attempts g) (rtmpPulls g) (rtspPulls g)
    (customizePubs g) (events g).
Definition set_now (g : Group) (t : Z) : Group :=
  mkGroup (media g) (rtmpPubSession g) (rtspPubSession g) (customizePubSession g) (pullProxy g) (hlsSubSessionSet g)
    (pushEnable g) (url2PushProxy g) (isRelaying g) t (attempts g) (rtmpPulls g) (rtspPulls g)
    (customizePubs g) (events g).
Definition set_attempts (g : Group) (m : gmap (list Z) Attempt) (r s : Z) : Group :=
  mkGroup (media g) (rtmpPubSession g) (rtspPubSession g) (customizePubSession g) (pullProxy g) (hlsSubSessionSet g)
    (pushEnable g) (url2PushProxy g) (isRelaying g) (nowMs g) m r s (customizePubs g) (events g).
Definition count_customize (g : Group) : Group :=
  mkGroup (media g) (rtmpPubSession g) (rtspPubSession g) (customizePubSession g) (pullProxy g) (hlsSubSessionSet g)
    (pushEnable g) (url2PushProxy g) (isRelaying g) (nowMs g) (attempts g) (rtmpPulls g) (rtspPulls g)
    (customizePubs g + 1) (events g).
Definition emit (e : Event) (g : Group) : Group :=
  mkGroup (media g) (rtmpPubSession g) (rtspPubSession g) (customizePubSession g) (pullProxy g) (hlsSubSessionSet g)
    (pushEnable g) (url2PushProxy g) (isRelaying g) (nowMs g) (attempts g) (rtmpPulls g) (rtspPulls g)
    (customizePubs g) (events g ++ [e]).
Definition on_pull (f : PullProxy → PullProxy) (g : Group) : Group := set_pull g (f (pullProxy g)).
Definition move (x : Phase) (k : list Z) (g : Group) : Group :=
  set_attempts g (alter (set_phase x) k (attempts g)) (rtmpPulls g) (rtspPulls g).
Definition some {A} (o : option A) : bool := bool_decide (is_Some o).

(** ** What the group has *)

Definition hasPubSession (g : Group) : bool :=
  some (rtmpPubSession g) || some (rtspPubSession g) || some (customizePubSession g).
Definition hasPullSession (g : Group) : bool := some (rtmpSession (pullProxy g)) || some (rtspSession (pullProxy g)).
Definition hasSubSession (g : Group) : bool :=
  md_hasSubSession (media g) || negb (bool_decide (hlsSubSessionSet g = ∅)).
Definition pushing (p : pushProxy) : bool := isPushing p && some (pushSession p).
Definition hasPushSession (g : Group) : bool := existsb (λ x, pushing x.2) (map_to_list (url2PushProxy g)).
Definition hasInSession (g : Group) : bool := hasPubSession g || hasPullSession g.
Definition hasOutSession (g : Group) : bool := hasSubSession g || hasPushSession g.
Definition isTotalEmpty (g : Group) : bool := negb (hasInSession g) && negb (hasOutSession g).

Definition pullSessionUniqueKey (g : Group) : list Z :=
  match rtmpSession (pullProxy g), rtspSession (pullProxy g) with
  | Some k, _ => k
  | None, Some k => k
  | None, None => []
  end.
Definition inSessionUniqueKey (g : Group) : list Z :=
  match rtmpPubSession g, rtspPubSession g, customizePubSession g with
  | Some k, _, _ => k
  | None, Some k, _ => k
  | None, None, Some (k, _) => k
  | None, None, None => pullSessionUniqueKey g
  end.

(** ** Relay pull *)

Definition resetPullBackoff (p : PullProxy) : PullProxy := set_backoff p 0 0.

Definition schedulePullBackoff (now : Z) (p : PullProxy) : PullProxy :=
  let backoff :=
    if backoffMs p <=? 0 then minPullBackoffMs
    else if backoffMs p * 2 >? maxPullBackoffMs then maxPullBackoffMs else backoffMs p * 2 in
  set_backoff p (now + backoff + Z.rem now pullBackoffJitterMs) backoff.

Definition is_pulling (k : list Z) (p : PullProxy) : bool :=
  isSessionPulling p && bool_decide (pullingSessionId p = k).
Definition clear_task (p : PullProxy) : PullProxy := set_task p false [].

Definition onPullStartFailed (k : list Z) (g : Group) : Group :=
  if negb (is_pulling k (pullProxy g)) then g
  else on_pull (λ p, schedulePullBackoff (nowMs g) (clear_task p)) g.

(** [failed]: the error is not nil. *)
Definition onPullSessionExited (k : list Z) (failed : bool) (g : Group) : Group :=
  if negb (bool_decide (k = pullSessionUniqueKey g)) then g
  else on_pull (if failed then schedulePullBackoff (nowMs g) else resetPullBackoff) g.

Definition setRtmpPullSession (k : list Z) (p : PullProxy) : PullProxy := set_sessions p (Some k) (rtspSession p).
Definition setRtspPullSession (k : list Z) (p : PullProxy) : PullProxy := set_sessions p (rtmpSession p) (Some k).
Definition resetRelayPullSession (p : PullProxy) : PullProxy := set_sessions (clear_task p) None None.

Definition shouldAutoStopPull (g : Group) : bool :=
  let p := pullProxy g in
  if autoStopPullAfterNoOutMs p <? 0 then false
  else if hasOutSession g then false
  else if autoStopPullAfterNoOutMs p =? 0 then true
  else negb (lastHasOutTs p =? -1) && (nowMs g - lastHasOutTs p >=? autoStopPullAfterNoOutMs p).

(** The error, if it should not. *)
Definition shouldStartPull (g : Group) : option goerr :=
  let p := pullProxy g in
  if negb (nextPullTsMs p =? 0) && (nowMs g <? nextPullTsMs p) then Some ErrFmt
  else if hasInSession g then Some ErrDupInStream
  else if isSessionPulling p then Some ErrDupInStream
  else if negb (staticRelayPullEnable p) && negb (apiEnable p) then Some ErrFmt
  else if shouldAutoStopPull g then Some ErrFmt
  else if (pullRetryNum p >=? 0) && (startCount p >? pullRetryNum p) then Some ErrFmt
  else None.

(** The session made and its goroutine started. *)
Definition pullIfNeeded (g : Group) : Group * (list Z * option goerr) :=
  match shouldStartPull g with
  | Some e => (g, ([], Some e))
  | None =>
      let p := pullProxy g in
      let rtmp := HasPrefix (pullUrl p) (str "rtmp") in
      let uk := if rtmp then GenUniqueKey UkPreRtmpPullSession (rtmpPulls g)
                else GenUniqueKey UkPreRtspPullSession (rtspPulls g) in
      let a := mkAttempt rtmp (pullUrl p) (pullTimeoutMs p) (rtspMode p =? 0) Queued in
      let g := on_pull (λ p, set_task p true uk) g in
      let g := set_attempts g (<[uk := a]> (attempts g)) (rtmpPulls g + if rtmp then 1 else 0)
                 (rtspPulls g + if rtmp then 0 else 1) in
      (g, (uk, None))
  end.

Definition stopPull (g : Group) : Group * list Z :=
  let g := on_pull (λ p, resetPullBackoff (clear_task (set_counts p 0 (lastHasOutTs p)))) g in
  match rtmpSession (pullProxy g), rtspSession (pullProxy g) with
  | Some k, _ => (emit (Dispose k) g, k)
  | None, Some k => (emit (Dispose k) g, k)
  | None, None => (g, [])
  end.

Definition StartPull (i : ApiCtrlStartRelayPullReq) (g : Group) : Group * (list Z * option goerr) :=
  pullIfNeeded (on_pull (λ p, set_req (resetPullBackoff p) i) g).
Definition StopPull (g : Group) : Group * list Z := stopPull (on_pull (λ p, set_api p false) g).

Definition kickPull (k : list Z) (g : Group) : Group * bool :=
  let p := pullProxy g in
  if bool_decide (rtmpSession p = Some k) || bool_decide (rtspSession p = Some k)
  then ((stopPull (on_pull (λ p, set_api p false) g)).1, true) else (g, false).

Definition tickPullModule (g : Group) : Group :=
  let g := if hasSubSession g then on_pull (λ p, set_counts p (startCount p) (nowMs g)) g else g in
  if shouldAutoStopPull g then (stopPull g).1 else (pullIfNeeded g).1.

Definition isPullModuleAlive (g : Group) : bool :=
  let p := pullProxy g in
  if hasPullSession g || isSessionPulling p then true
  else if (staticRelayPullEnable p || apiEnable p) && negb (bool_decide (pullUrl p = [])) &&
          negb (shouldAutoStopPull g) && ((pullRetryNum p <? 0) || (startCount p <=? pullRetryNum p)) then true
  else negb (some (shouldStartPull g)).
Definition IsInactive (g : Group) : bool := isTotalEmpty g && negb (isPullModuleAlive g).

(** ** Relay push *)

(** The targets whose goroutines it starts. *)
Definition startPushIfNeeded (g : Group) : Group * gset (list Z) :=
  if negb (pushEnable g) then (g, ∅)
  else if negb (some (rtmpPubSession g)) && negb (some (rtspPubSession g)) then (g, ∅)
  else
    (set_push g ((λ v, if isPushing v then v else mkPushProxy true (pushSession v)) <$> url2PushProxy g),
     dom (filter (λ x, isPushing x.2 = false) (url2PushProxy g))).

Definition stopPushIfNeeded (g : Group) : Group :=
  if negb (pushEnable g) then g
  else
    let sessions := omap (λ x, pushSession x.2) (map_to_list (url2PushProxy g)) in
    set_push (foldl (λ g k, emit (Dispose k) g) g sessions) ((λ v, mkPushProxy (isPushing v) None) <$> url2PushProxy g).

(** The goroutine of a target adds its session when it is started, and deletes
    it at its end; both index the map without looking. *)
Definition AddRtmpPushSession (url k : list Z) : eff Group unit := λ g,
  match url2PushProxy g !! url with
  | Some v => (set_push g (<[url := mkPushProxy (isPushing v) (Some k)]> (url2PushProxy g)), Ret tt)
  | None => (g, Panic)
  end.
Definition DelRtmpPushSession (url : list Z) : eff Group unit := λ g,
  match url2PushProxy g !! url with
  | Some v => (set_push g (<[url := mkPushProxy false None]> (url2PushProxy g)), Ret tt)
  | None => (g, Panic)
  end.
Definition clearPushingFlag (url : list Z) (g : Group) : Group :=
  set_push g (alter (λ v, mkPushProxy false (pushSession v)) url (url2PushProxy g)).

(** ** Input sessions *)

Definition addIn (g : Group) : Group :=
  let g := set_media g (md_addIn (inSessionUniqueKey g) (negb (isRelaying g)) (media g)) in
  (startPushIfNeeded g).1.

Definition delIn : eff Group unit := λ g,
  match md_delIn (media g) with
  | (m, Ret _) => (set_pubs (stopPushIfNeeded (set_media g m)) None None None, Ret tt)
  | (m, r) => (set_media g m, r)
  end.

Definition delCustomizePubSession (k : list Z) : eff Group unit := λ g,
  if bool_decide (fst <$> customizePubSession g = Some k) then delIn g else (g, Ret tt).
Definition delRtmpPubSession (k : list Z) : eff Group unit := λ g,
  if bool_decide (rtmpPubSession g = Some k) then delIn g else (g, Ret tt).
Definition delRtspPubSession (k : list Z) : eff Group unit := λ g,
  if bool_decide (rtspPubSession g = Some k) then delIn g else (g, Ret tt).

(** Whether it was the session of the group. *)
Definition delPullSession (k : list Z) : eff Group bool := λ g,
  if bool_decide (rtmpSession (pullProxy g) = Some k) || bool_decide (rtspSession (pullProxy g) = Some k) then
    (_ ← delIn; mret true) (on_pull resetRelayPullSession g)
  else (if is_pulling k (pullProxy g) then on_pull clear_task g else g, Ret false).

Definition DelPullSession (k : list Z) : eff Group unit :=
  removed ← delPullSession k;
  if (removed : bool) then update (λ g, emit (OnRelayPullStop k (hasInSession g) (hasOutSession g)) g) else mret tt.

(** The part of [AddCustomizePubSession] that follows its test. *)
Definition putCustomizePubSession (streamName : list Z) : eff Group (list Z * option goerr) := λ g,
  let k := GenUniqueKey UkPreCustomizePubSessionContext (customizePubs g) in
  let g := set_pubs (count_customize g) (rtmpPubSession g) (rtspPubSession g) (Some (k, streamName)) in
  let g := addIn g in
  (set_media g (md_startRtspRemuxer (media g)), Ret (k, None)).

(** A session of another stream name takes the place of the one there. *)
Definition AddCustomizePubSession (streamName : list Z) : eff Group (list Z * option goerr) := λ g,
  if negb (hasInSession g) then putCustomizePubSession streamName g
  else match customizePubSession g with
  | Some (k, name) =>
      if bool_decide (name = streamName) then (g, Ret ([], Some ErrDupInStream))
      else if negb (some (rtmpPubSession g)) && negb (some (rtspPubSession g)) && negb (hasPullSession g) then
        (_ ← delCustomizePubSession k; putCustomizePubSession streamName) (emit (Dispose k) g)
      else (g, Ret ([], Some ErrDupInStream))
  | None => (g, Ret ([], Some ErrDupInStream))
  end.

Definition AddRtmpPubSession (k : list Z) (g : Group) : Group * option goerr :=
  if hasInSession g then (g, Some ErrDupInStream)
  else
    let g := addIn (set_pubs g (Some k) (rtspPubSession g) (customizePubSession g)) in
    (set_media g (md_startRtspRemuxer (media g)), None).

Definition AddRtspPubSession (k : list Z) (g : Group) : Group * option goerr :=
  if hasInSession g then (g, Some ErrDupInStream)
  else
    let g := addIn (set_pubs g (rtmpPubSession g) (Some k) (customizePubSession g)) in
    (set_media g (md_startRtmpRemuxer (media g)), None).

Definition leave_task (k : list Z) (p : PullProxy) : PullProxy := if is_pulling k p then clear_task p else p.
Definition succeed (k : list Z) (p : PullProxy) : PullProxy :=
  if is_pulling k p then resetPullBackoff (clear_task p) else p.

Definition AddRtmpPullSession (k : list Z) (g : Group) : Group * option goerr :=
  if hasInSession g then (on_pull (leave_task k) g, Some ErrDupInStream)
  else
    let g := addIn (on_pull (setRtmpPullSession k) (on_pull (succeed k) g)) in
    let g := set_media g (md_startRtspRemuxer (media g)) in
    (emit (OnRelayPullStart k (hasInSession g) (hasOutSession g)) g, None).

Definition AddRtspPullSession (k : list Z) (g : Group) : Group * option goerr :=
  if hasInSession g then (on_pull (leave_task k) g, Some ErrDupInStream)
  else
    let g := addIn (on_pull (setRtspPullSession k) (on_pull (succeed k) g)) in
    let g := set_media g (md_startRtmpRemuxer (media g)) in
    (emit (OnRelayPullStart k (hasInSession g) (hasOutSession g)) g, None).

(** ** The goroutine of an attempt *)

(** It has waited too long for a slot. *)
Definition attempt_timeout (k : list Z) (g : Group) : Group :=
  emit (Dispose k) (move Over k (onPullStartFailed k g)).

(** It has a slot: if it was not cancelled it starts, and counts. *)
Definition attempt_begin (k : list Z) (g : Group) : Group :=
  if negb (is_pulling k (pullProxy g)) then emit (Dispose k) (move Over k g)
  else move Starting k (on_pull (λ p, set_counts p (startCount p + 1) (lastHasOutTs p)) g).

(** The callback of the session when it has its answer. *)
Definition attempt_add (rtmp : bool) (k : list Z) (g : Group) : Group :=
  let '(g, r) := if rtmp then AddRtmpPullSession k g else AddRtspPullSession k g in
  let g := match r with Some _ => emit (Dispose k) g | None => g end in
  move Called k g.

Definition attempt_failed (k : list Z) (g : Group) : Group := move Over k (onPullStartFailed k g).
Definition attempt_started (k : list Z) (g : Group) : Group := move Running k g.
Definition attempt_exited (k : list Z) (failed : bool) (g : Group) : Group :=
  move Exited k (onPullSessionExited k failed g).
Definition attempt_del (k : list Z) : eff Group unit := _ ← DelPullSession k; update (move Over k).

(** ** The group *)

Definition Tick (g : Group) : Group := (startPushIfNeeded (tickPullModule g)).1.

(** A subscriber joins, or plays: [addSub] after the media took it. *)
Definition join_sub (f : M → M) (g : Group) : Group := (pullIfNeeded (set_media g (f (media g)))).1.
Definition AddHlsSubSession (k : list Z) (g : Group) : Group :=
  (pullIfNeeded (set_hls g ({[k]} ∪ hlsSubSessionSet g))).1.
Definition DelHlsSubSession (k : list Z) (g : Group) : Group := set_hls g (hlsSubSessionSet g ∖ {[k]}).

(** [initRelayPullByConfig], [initRelayPushByConfig]: [pull] is the address of the
    static relay. *)
Definition initRelayPull (now : Z) (pull : option (list Z)) : PullProxy :=
  mkPull (some pull) false (default [] pull) StaticRelayPullTimeoutMs PullRetryNumForever
    AutoStopPullAfterNoOutMsImmediately 0 [] 0 now false [] 0 0 None None.
Definition relay_url (addr appName streamName : list Z) : list Z :=
  str "rtmp://" ++ addr ++ str "/" ++ appName ++ str "/" ++ streamName.
Definition initRelayPush (appName streamName : list Z) (addrs : list (list Z)) : gmap (list Z) pushProxy :=
  list_to_map ((λ a, (relay_url a appName streamName, mkPushProxy false None)) <$> addrs).

Definition NewGroup (m : M) (now : Z) (appName streamName : list Z) (pull : option (list Z))
    (push : option (list (list Z))) : Group :=
  mkGroup m None None None (initRelayPull now ((λ a, relay_url a appName streamName) <$> pull)) ∅
    (some push) (initRelayPush appName streamName (default [] push)) false now ∅ 0 0 0 [].

(** ** Sequences of sections *)

Inductive Op :=
  | OAdvance (ms : Z)
  | OAddCustomize (name : list Z) | OAddRtmpPub (k : list Z) | OAddRtspPub (k : list Z)
  | ODelCustomize (k : list Z) | ODelRtmpPub (k : list Z) | ODelRtspPub (k : list Z)
  | OStartPull (i : ApiCtrlStartRelayPullReq) | OStopPull | OKickPull (k : list Z) | OTick
  | OJoin (f : M → M) | OMedia (f : M → M) | OAddHls (k : list Z) | ODelHls (k : list Z)
  | OSlotTimeout (k : list Z) | OBegin (k : list Z) | OAddPull (k : list Z) | OStartFailed (k : list Z)
  | OStarted (k : list Z) | OExited (k : list Z) (failed : bool) | ODelPull (k : list Z)
  | OPushAdd (url k : list Z) | OPushDel (url : list Z) | OPushTimeout (url : list Z).

(** What an attempt does when it is in one of the phases, else nothing. *)
Definition when (ps : list Phase) (k : list Z) (f : Attempt → Group → Group) (g : Group) : Group :=
  match attempts g !! k with
  | Some a => if bool_decide (phase a ∈ ps) then f a g else g
  | None => g
  end.

(** The session answers while it starts, before its start is over. *)
Definition run (o : Op) (g : Group) : Group :=
  match o with
  | OAdvance ms => set_now g (nowMs g + Z.max 0 ms)
  | OAddCustomize name => (AddCustomizePubSession name g).1
  | OAddRtmpPub k => (AddRtmpPubSession k g).1
  | OAddRtspPub k => (AddRtspPubSession k g).1
  | ODelCustomize k => (delCustomizePubSession k g).1
  | ODelRtmpPub k => (delRtmpPubSession k g).1
  | ODelRtspPub k => (delRtspPubSession k g).1
  | OStartPull i => (StartPull i g).1
  | OStopPull => (StopPull g).1
  | OKickPull k => (kickPull k g).1
  | OTick => Tick g
  | OJoin f => join_sub f g
  | OMedia f => set_media g (f (media g))
  | OAddHls k => AddHlsSubSession k g
  | ODelHls k => DelHlsSubSession k g
  | OSlotTimeout k => when [Queued] k (λ _, attempt_timeout k) g
  | OBegin k => when [Queued] k (λ _, attempt_begin k) g
  | OAddPull k => when [Starting] k (λ a, attempt_add (isPullByRtmp a) k) g
  | OStartFailed k => when [Starting; Called] k (λ _, attempt_failed k) g
  | OStarted k => when [Called] k (λ _, attempt_started k) g
  | OExited k failed => when [Running] k (λ _, attempt_exited k failed) g
  | ODelPull k => when [Exited] k (λ _ g, (attempt_del k g).1) g
  | OPushAdd url k => (AddRtmpPushSession url k g).1
  | OPushDel url => (DelRtmpPushSession url g).1
  | OPushTimeout url => clearPushingFlag url g
  end.
Definition exec (l : list Op) (g : Group) : Group := foldl (λ g o, run o g) g l.
End In.

(** ** The media of a group *)

Definition FlvHeader : list Z := [70; 76; 86; 1; 5; 0; 0; 0; 9; 0; 0; 0; 0].

Section GroupMedia.
Import GroupStream Group.
Context {RO : RangeOrder} {B : Bele} {BS : BeleStream} {NB : NazaBuffer} {BI : NazaBits}.
Context {H : Type} {HM : HlsMuxer H} {R Sdp : Type} {SC : SdpContext Sdp} {RR : RtspRemuxer R Sdp}.
Context {P : Type} {SR : SnapshotRemuxer P}.

(** What the configuration asks for: the new remuxer to RTSP, the wait of the
    dummy audio filter, a hook, the new HLS muxer, the records; and the one from
    RTSP that the media do not show. *)
Context (mpegts : bool) (rtsp : option R) (waitAudioMs : option Z) (hooked : bool) (hls : option H) (flv ts : bool).

Abbreviation GroupMedium := (Media (H := H) (R := R) (Sdp := Sdp) (P := P)).
Abbreviation GMedia := (GroupMedium * option AvRemux.AvPacket2RtmpRemuxer)%type.

Definition start_stores (g : GroupMedium) : GroupMedium :=
  let g := match hls with
           | Some h => Group.set_ts g (rtmp2MpegtsRemuxer g) (GroupStream.set_hls (tsOut g) (Some h))
           | None => g end in
  let g := if flv then Group.set_flv g (set_flv_record (flvOut g) (Some [FlvHeader])) else g in
  if ts then Group.set_ts g (rtmp2MpegtsRemuxer g) (set_ts_record (tsOut g) (Some [])) else g.

Definition start_in (stores : bool) (g : GroupMedium) : GroupMedium :=
  let g := if mpegts then Group.set_ts g (Some Rtmp2Mpegts.NewRtmp2MpegtsRemuxer) (tsOut g) else g in
  let g := match waitAudioMs with
           | Some w => Group.set_filter g (Some (DummyAudio.NewDummyAudioFilter w)) | None => g end in
  let g := if hooked then Group.set_hook g (Some []) else g in
  if stores then start_stores g else g.

Definition media_delIn : eff GMedia unit := λ m,
  match Group.delIn m.1 with
  | (g, Ret _) => ((g, None), Ret tt)
  | (g, r) => ((g, m.2), r)
  end.

Definition media_has_sub (g : GroupMedium) : bool :=
  negb (bool_decide (rtmpSubSessionSet (rtmpOut g) = ∅)) || negb (bool_decide (httpflvSubSessionSet (flvOut g) = ∅)) ||
  negb (bool_decide (httptsSubSessionSet (tsOut g) = ∅)) ||
  negb (bool_decide (dom (rtspSubSessionSet (rtspOut g)) = ∅)) || some (hook g).

#[export] Instance GroupMedia : MediaSide GMedia := {
  md_addIn _ stores m := (start_in stores m.1, m.2);
  md_startRtspRemuxer m :=
    (match rtsp with Some r => Group.set_rtsp m.1 (Some r) (rtspOut m.1) | None => m.1 end, m.2);
  md_startRtmpRemuxer m := (m.1, Some AvRemux.DefaultAv2Rtmp);
  md_delIn := media_delIn;
  md_hasSubSession m := media_has_sub m.1;
}.

End GroupMedia.
