(* ===== verification/GroupTurns.v ===== *)
(** * Publishers and relays of a group: what holds of every interleaving

    The invariant [wf] of the sections of [GroupIn], kept by each of them; at most
    one session in, the backoff and the retries of relay pull, what one publisher
    leaves to the next, and two ways the code goes wrong. *)

From stdpp Require Import gmap.
From S2P Require Import Prelude Naza Bits RtmpMsg GoText GroupIn.
From S2P Require GopCache GroupStream Group DummyAudio Rtmp2Mpegts AvRemux.
Import GroupStream(update).

(** ** One session in, and no task without its goroutine *)

Section InFacts.
Context {U : Unique} {M : Type} {MS : MediaSide M}.

Definition in_count (g : Group (M := M)) : nat :=
  Nat.b2n (some (rtmpPubSession g)) + Nat.b2n (some (rtspPubSession g)) + Nat.b2n (some (customizePubSession g)) +
  Nat.b2n (some (rtmpSession (pullProxy g))) + Nat.b2n (some (rtspSession (pullProxy g))).

Lemma hasInSession_count g : hasInSession g = negb (in_count g =? 0)%nat.
Proof.
  unfold hasInSession, hasPubSession, hasPullSession, in_count.
  by repeat (match goal with |- context [some ?o] => destruct (some o) end; try done).
Qed.

(** What the invariant is about. *)
Definition core (g : Group (M := M)) :=
  (rtmpPubSession g, rtspPubSession g, customizePubSession g, pullProxy g, nowMs g, attempts g, rtmpPulls g, rtspPulls g).

Definition key_of (a : Attempt) (n : Z) : list Z :=
  GenUniqueKey (if isPullByRtmp a then UkPreRtmpPullSession else UkPreRtspPullSession) n.

Definition backoff_ok (now : Z) (p : PullProxy) : Prop :=
  (backoffMs p = 0 ∨ minPullBackoffMs ≤ backoffMs p ≤ maxPullBackoffMs) ∧
  nextPullTsMs p ≤ now + maxPullBackoffMs + (pullBackoffJitterMs - 1).

Record wf (g : Group (M := M)) : Prop := {
  wf_one : (in_count g ≤ 1)%nat;
  wf_task : isSessionPulling (pullProxy g) = true →
    ∃ a, attempts g !! pullingSessionId (pullProxy g) = Some a ∧ phase a ∈ [Queued; Starting];
  wf_idle : isSessionPulling (pullProxy g) = false → pullingSessionId (pullProxy g) = [];
  wf_now : 0 ≤ nowMs g;
  wf_backoff : backoff_ok (nowMs g) (pullProxy g);
  wf_counts : 0 ≤ rtmpPulls g ∧ 0 ≤ rtspPulls g;
  wf_keys : ∀ k a, attempts g !! k = Some a →
    ∃ n, k = key_of a n ∧ 0 ≤ n < (if isPullByRtmp a then rtmpPulls g else rtspPulls g);
}.

Lemma wf_core g g' : core g = core g' → wf g → wf g'.
Proof.
  unfold core. intros E [H1 H2 H3 H4 H5 H6 H7]. injection E as E1 E2 E3 E4 E5 E6 E7 E8.
  split; unfold in_count in *; rewrite <-?E1, <-?E2, <-?E3, <-?E4, <-?E5, <-?E6, <-?E7, <-?E8; done.
Qed.

(** Another state of the pull, with the attempts and the sessions of publishers
    as they are. *)
Lemma wf_pull g p : wf g →
  (in_count (set_pull g p) ≤ 1)%nat →
  isSessionPulling p = false ∧ pullingSessionId p = [] ∨
  isSessionPulling p = isSessionPulling (pullProxy g) ∧ pullingSessionId p = pullingSessionId (pullProxy g) →
  backoff_ok (nowMs g) p → wf (set_pull g p).
Proof.
  intros [H1 H2 H3 H4 H5 H6 H7] Hc Ht Hb. split; try done; cbn.
  - destruct Ht as [[-> _]|[-> ->]]; [done|auto].
  - destruct Ht as [[_ ->]|[-> ->]]; [done|auto].
Qed.

(** The sessions of the pull as they are. *)
Lemma wf_pull_same g p : wf g →
  rtmpSession p = rtmpSession (pullProxy g) → rtspSession p = rtspSession (pullProxy g) →
  isSessionPulling p = false ∧ pullingSessionId p = [] ∨
  isSessionPulling p = isSessionPulling (pullProxy g) ∧ pullingSessionId p = pullingSessionId (pullProxy g) →
  backoff_ok (nowMs g) p → wf (set_pull g p).
Proof.
  intros H E1 E2 Ht Hb. apply wf_pull; [done| |done|done].
  destruct H as [H1 _ _ _ _ _ _]. revert H1. unfold in_count. cbn. by rewrite E1, E2.
Qed.

Lemma backoff_reset now p : 0 ≤ now → backoff_ok now (resetPullBackoff p).
Proof. intros H. split; [by left|]. cbn. unfold maxPullBackoffMs, pullBackoffJitterMs. lia. Qed.

Lemma backoff_schedule now p : 0 ≤ now → backoff_ok now p → backoff_ok now (schedulePullBackoff now p).
Proof.
  intros H [Hb _]. unfold backoff_ok, schedulePullBackoff, minPullBackoffMs, maxPullBackoffMs, pullBackoffJitterMs in *.
  cbn. pose proof (Z.rem_bound_pos now 250 H ltac:(lia)).
  destruct (Z.leb_spec (backoffMs p) 0); [lia|]. destruct (Z.gtb_spec (backoffMs p * 2) (30 * 1000)); lia.
Qed.

Lemma wf_move g x k : wf g → (is_pulling k (pullProxy g) = true → x ∈ [Queued; Starting]) → wf (move x k g).
Proof.
  intros [H1 H2 H3 H4 H5 H6 H7] Hx. split; try done; cbn.
  - intros E. destruct (H2 E) as (a & Ea & Ha). unfold is_pulling in Hx. rewrite E in Hx. cbn in Hx.
    destruct (decide (pullingSessionId (pullProxy g) = k)) as [<-|Hk].
    + rewrite lookup_alter_eq, Ea. exists (set_phase x a). split; [done|]. by apply Hx, bool_decide_eq_true_2.
    + rewrite lookup_alter_ne by done. by exists a.
  - intros k' a. intros E.
    assert (∃ b, attempts g !! k' = Some b ∧ isPullByRtmp a = isPullByRtmp b ∧ (a = b ∨ k = k' ∧ a = set_phase x b))
      as (b & Eb & Er & _).
    { destruct (decide (k = k')) as [->|Hk].
      - rewrite lookup_alter_eq in E. destruct (attempts g !! k') as [b|]; [|done]. injection E as <-. eauto 6.
      - rewrite lookup_alter_ne in E by done. eauto 6. }
    destruct (H7 k' b Eb) as (n & Hn). exists n. unfold key_of. rewrite Er. done.
Qed.

Lemma wf_pulling g : wf g → isSessionPulling (pullProxy g) = false → ∀ k, is_pulling k (pullProxy g) = false.
Proof. unfold is_pulling. intros _ ->. done. Qed.

Lemma foldl_emit_core (l : list (list Z)) : ∀ g, core (foldl (λ g k, emit (Dispose k) g) g l) = core g.
Proof. induction l as [|k l IH]; intros g; [done|]. cbn [foldl]. by rewrite IH. Qed.

Lemma core_stopPush g : core (stopPushIfNeeded g) = core g.
Proof.
  unfold stopPushIfNeeded. destruct (pushEnable g); [|done]. cbn [negb].
  exact (foldl_emit_core _ g).
Qed.

Lemma core_startPush g : core (startPushIfNeeded g).1 = core g.
Proof. unfold startPushIfNeeded. repeat case_match; done. Qed.

Lemma core_addIn g : core (addIn g) = core g.
Proof. unfold addIn. by rewrite core_startPush. Qed.

Lemma wf_pubs g : wf g → (in_count g = 0)%nat → ∀ r s c,
  (Nat.b2n (some r) + Nat.b2n (some s) + Nat.b2n (some c) ≤ 1)%nat → wf (set_pubs g r s c).
Proof.
  intros [H1 H2 H3 H4 H5 H6 H7] H0 r s c Hc. split; try done. revert H0. unfold in_count. cbn. lia.
Qed.

Lemma wf_no_pubs g : wf g → wf (set_pubs g None None None).
Proof.
  intros [H1 H2 H3 H4 H5 H6 H7]. split; try done. revert H1. unfold in_count. cbn. lia.
Qed.

Lemma wf_delIn g : wf g → wf (delIn g).1.
Proof.
  intros H. unfold delIn. destruct (md_delIn (media g)) as [m [[]|e|]]; cbn [fst]; [|by apply (wf_core g)..].
  apply wf_no_pubs. apply (wf_core g); [|done]. by rewrite core_stopPush.
Qed.

Lemma not_in g : hasInSession g = false → (in_count g = 0)%nat.
Proof. rewrite hasInSession_count. intros H%negb_false_iff. by apply Nat.eqb_eq. Qed.

Lemma wf_pullIfNeeded g : wf g → wf (pullIfNeeded g).1.
Proof.
  intros H. unfold pullIfNeeded. case_match eqn:Es; [done|].
  destruct H as [H1 H2 H3 H4 H5 [H6 H6'] H7].
  set (rtmp := HasPrefix _ _). set (uk := if rtmp then _ else _). cbn [fst].
  split; try done; cbn.
  - intros _. eexists. rewrite lookup_insert_eq. split; [done|]. cbn. set_solver.
  - destruct rtmp; lia.
  - intros k a E. destruct (decide (uk = k)) as [<-|Hk].
    + rewrite lookup_insert_eq in E. injection E as <-. unfold key_of. cbn. unfold uk.
      destruct rtmp; eexists; (split; [done|lia]).
    + rewrite lookup_insert_ne in E by done. destruct (H7 k a E) as (n & Hn & Hb). exists n. split; [done|].
      destruct (isPullByRtmp a), rtmp; lia.
Qed.

Lemma wf_on_pull g f : wf g →
  (∀ p, rtmpSession (f p) = rtmpSession p ∧ rtspSession (f p) = rtspSession p) →
  (∀ p, isSessionPulling (f p) = false ∧ pullingSessionId (f p) = [] ∨
        isSessionPulling (f p) = isSessionPulling p ∧ pullingSessionId (f p) = pullingSessionId p) →
  backoff_ok (nowMs g) (f (pullProxy g)) → wf (on_pull f g).
Proof.
  intros H Hs Ht Hb. destruct (Hs (pullProxy g)) as [E1 E2]. by apply wf_pull_same.
Qed.

Lemma wf_stopPull g : wf g → wf (stopPull g).1.
Proof.
  intros H. unfold stopPull. set (g' := on_pull _ g).
  assert (Hg : wf g').
  { apply wf_on_pull; [done|done|by left|]. apply backoff_reset. by destruct H. }
  destruct (rtmpSession (pullProxy g')), (rtspSession (pullProxy g')); by apply (wf_core g').
Qed.

Lemma wf_set_api g b : wf g → wf (on_pull (λ p, set_api p b) g).
Proof. intros H. apply wf_on_pull; [done|done|by right|]. by destruct H. Qed.

Lemma wf_set_counts g c l : wf g → wf (on_pull (λ p, set_counts p (c p) (l p)) g).
Proof. intros H. apply wf_on_pull; [done|done|by right|]. by destruct H. Qed.

Lemma wf_StartPull i g : wf g → wf (StartPull i g).1.
Proof.
  intros H. apply wf_pullIfNeeded, wf_on_pull; [done|done|by right|]. apply (backoff_reset (nowMs g)). by destruct H.
Qed.

Lemma wf_start_failed k g : wf g → wf (onPullStartFailed k g).
Proof.
  intros H. unfold onPullStartFailed. destruct (is_pulling k (pullProxy g)); [|done].
  apply wf_on_pull; [done|done|by left|]. destruct H. by apply backoff_schedule.
Qed.

Lemma failed_not_pulling k (g : Group (M := M)) : is_pulling k (pullProxy (onPullStartFailed k g)) = false.
Proof. unfold onPullStartFailed. by destruct (is_pulling k (pullProxy g)) eqn:E. Qed.

Lemma wf_exited k failed g : wf g → wf (onPullSessionExited k failed g).
Proof.
  intros H. unfold onPullSessionExited. destruct (bool_decide _); [|done].
  destruct failed; (apply wf_on_pull; [done|done|by right|]); destruct H;
    (by apply backoff_schedule) || by apply (backoff_reset (nowMs g)).
Qed.

Lemma wf_leave k g : wf g → wf (on_pull (leave_task k) g).
Proof.
  intros H. apply wf_on_pull; [done| | |]; unfold leave_task; try (intros p); destruct (is_pulling k _); try done;
    ((by left) || (by right) || by destruct H).
Qed.

Lemma leave_not_pulling k p : is_pulling k (leave_task k p) = false.
Proof. unfold leave_task. by destruct (is_pulling k p) eqn:E. Qed.

(** A session of the pull where there was none. *)
Lemma wf_pull_in k (rtmp : bool) g : wf g → hasInSession g = false →
  wf (on_pull (if rtmp then setRtmpPullSession k else setRtspPullSession k) (on_pull (succeed k) g)).
Proof.
  intros H H0%not_in. unfold on_pull at 2. apply wf_pull.
  - apply wf_on_pull; [done| | |]; unfold succeed; try (intros p); destruct (is_pulling k _); try done;
      ((by left) || (by right) || (destruct H; by apply (backoff_reset (nowMs g))) || by destruct H).
  - revert H0. unfold in_count. destruct rtmp; cbn; unfold succeed; destruct (is_pulling k _); cbn;
      repeat match goal with |- context [some ?o] => destruct (some o) end; cbn; lia.
  - right. by destruct rtmp.
  - cbn. unfold succeed. destruct rtmp, (is_pulling k _); cbn; destruct H as [_ _ _ Hn Hb _ _];
      (apply backoff_reset; assumption) || exact Hb.
Qed.

Lemma wf_addPull (rtmp : bool) k g : wf g →
  let r := if rtmp then AddRtmpPullSession k g else AddRtspPullSession k g in
  wf r.1 ∧ is_pulling k (pullProxy r.1) = false.
Proof.
  intros H. unfold AddRtmpPullSession, AddRtspPullSession. destruct (hasInSession g) eqn:Hin.
  - destruct rtmp; (split; [by apply wf_leave|apply leave_not_pulling]).
  - pose proof (wf_pull_in k rtmp g H Hin) as Hw.
    set (g1 := on_pull _ (on_pull _ g)) in Hw.
    assert (Hc : ∀ h e, core (emit e (set_media (addIn g1) h)) = core g1) by (intros; apply (core_addIn g1)).
    assert (Hp : is_pulling k (pullProxy g1) = false).
    { unfold g1, is_pulling. destruct rtmp; cbn; unfold succeed; destruct (is_pulling k (pullProxy g)) eqn:E; done. }
    assert (Hd : ∀ h e, pullProxy (emit e (set_media (addIn g1) h)) = pullProxy g1).
    { intros h e. pose proof (Hc h e) as E. unfold core in E. by injection E. }
    destruct rtmp; cbn [fst]; (split; [apply (wf_core g1); [symmetry; apply Hc|done]|by rewrite Hd]).
Qed.

Lemma wf_put name g : wf g → hasInSession g = false → wf (putCustomizePubSession name g).1.
Proof.
  intros H H0%not_in. unfold putCustomizePubSession. set (k := GenUniqueKey _ _). set (g1 := set_pubs _ _ _ _). cbn [fst].
  apply (wf_core g1); [symmetry; apply (core_addIn g1)|]. apply wf_pubs; [by apply (wf_core g)|done|].
  revert H0. unfold in_count. cbn. lia.
Qed.

Lemma delIn_no_pubs g g' : delIn g = (g', Ret tt) →
  rtmpPubSession g' = None ∧ rtspPubSession g' = None ∧ customizePubSession g' = None ∧ pullProxy g' = pullProxy g.
Proof.
  unfold delIn. destruct (md_delIn (media g)) as [m [[]|e|]]; [|done..]. intros [= <-].
  pose proof (core_stopPush (set_media g m)) as E. unfold core in E. by injection E.
Qed.

Lemma wf_AddCustomize name g : wf g → wf (AddCustomizePubSession name g).1.
Proof.
  intros H. unfold AddCustomizePubSession. destruct (hasInSession g) eqn:Hin; cbn [negb]; [|by apply wf_put].
  destruct (customizePubSession g) as [[k n]|] eqn:Ec; [|done]. case_bool_decide as Hname; [done|].
  destruct (some (rtmpPubSession g)) eqn:Er; [done|]. destruct (some (rtspPubSession g)) eqn:Es; [done|].
  destruct (hasPullSession g) eqn:Ep; [done|]. cbn [negb andb].
  set (g1 := emit (Dispose k) g). assert (Hw : wf g1) by by apply (wf_core g).
  unfold mbind, eff_bind, delCustomizePubSession. rewrite bool_decide_eq_true_2.
  2:{ unfold g1. cbn. rewrite Ec. done. }
  pose proof (wf_delIn g1 Hw) as Hd. destruct (delIn g1) as [g2 [[]|e|]] eqn:Ed; [|done..].
  apply wf_put; [done|]. destruct (delIn_no_pubs _ _ Ed) as (E1 & E2 & E3 & E4).
  unfold hasInSession, hasPubSession, hasPullSession. rewrite E1, E2, E3, E4. exact Ep.
Qed.

Lemma wf_AddPub (r s : option (list Z)) (f : M → M) g : wf g → hasInSession g = false →
  (Nat.b2n (some r) + Nat.b2n (some s) ≤ 1)%nat →
  let g1 := addIn (set_pubs g r s (customizePubSession g)) in wf (set_media g1 (f (media g1))).
Proof.
  intros H H0%not_in Hrs. cbn. apply (wf_core (set_pubs g r s (customizePubSession g))).
  { symmetry. apply (core_addIn (set_pubs g r s (customizePubSession g))). }
  apply wf_pubs; [done..|]. revert H0. unfold in_count. lia.
Qed.

Lemma wf_delPull k g : wf g → wf (delPullSession k g).1.
Proof.
  intros H. unfold delPullSession. destruct (_ || _).
  - assert (Hw : wf (on_pull resetRelayPullSession g)).
    { apply wf_pull; [done| |by left|by destruct H]. destruct H as [H1 _ _ _ _ _ _]. revert H1. unfold in_count. cbn. lia. }
    pose proof (wf_delIn _ Hw) as Hd. unfold mbind, eff_bind. by destruct (delIn _) as [g2 [[]|e|]].
  - fold (leave_task k (pullProxy g)). destruct (is_pulling k (pullProxy g)) eqn:E; [|done].
    pose proof (wf_leave k g H) as Hl. unfold on_pull, leave_task in Hl. by rewrite E in Hl.
Qed.

Lemma wf_DelPull k g : wf g → wf (DelPullSession k g).1.
Proof.
  intros H. pose proof (wf_delPull k g H) as Hd. unfold DelPullSession, mbind, eff_bind.
  destruct (delPullSession k g) as [g1 [[]|e|]]; [by apply (wf_core g1)|done..].
Qed.

Lemma wf_del_pub (b : bool) g : wf g → wf ((if b then delIn g else (g, Ret tt)).1).
Proof. intros H. destruct b; [by apply wf_delIn|done]. Qed.

Lemma wf_when ps k f g : wf g →
  (∀ a, attempts g !! k = Some a → phase a ∈ ps → wf (f a g)) → wf (when ps k f g).
Proof.
  intros H Hf. unfold when. destruct (attempts g !! k) as [a|] eqn:E; [|done]. case_bool_decide; [by apply Hf|done].
Qed.

(** An attempt past its start is not the one in progress. *)
Lemma not_the_task g k a : wf g → attempts g !! k = Some a → phase a ∉ [Queued; Starting] →
  is_pulling k (pullProxy g) = false.
Proof.
  intros H Ea Hp. unfold is_pulling. destruct (isSessionPulling (pullProxy g)) eqn:E; [|done]. cbn.
  apply bool_decide_eq_false_2. intros <-. destruct (wf_task g H E) as (b & Eb & Hb). rewrite Ea in Eb. by injection Eb as <-.
Qed.

Lemma wf_Tick g : wf g → wf (Tick g).
Proof.
  intros H. unfold Tick. apply (wf_core (tickPullModule g)); [by rewrite core_startPush|]. unfold tickPullModule.
  set (g1 := if hasSubSession g then _ else g).
  assert (wf g1). { unfold g1. destruct (hasSubSession g); [|done]. by apply (wf_set_counts g startCount (λ _, nowMs g)). }
  destruct (shouldAutoStopPull g1); [by apply wf_stopPull|by apply wf_pullIfNeeded].
Qed.

Lemma wf_attempt_failed k g : wf g → wf (move Over k (onPullStartFailed k g)).
Proof. intros H. apply wf_move; [by apply wf_start_failed|]. by rewrite failed_not_pulling. Qed.

Lemma wf_attempt_begin k g : wf g → wf (attempt_begin k g).
Proof.
  intros H. unfold attempt_begin. destruct (is_pulling k (pullProxy g)) eqn:E; cbn [negb].
  - apply wf_move; [by apply (wf_set_counts g (λ p, startCount p + 1) lastHasOutTs)|]. set_solver.
  - apply (wf_core (move Over k g)); [done|]. apply wf_move; [done|]. by rewrite E.
Qed.

Lemma wf_attempt_add rtmp k g : wf g → wf (attempt_add rtmp k g).
Proof.
  intros H. unfold attempt_add. destruct (wf_addPull rtmp k g H) as [Hw Hp].
  destruct (if rtmp then _ else _) as [g1 r]. cbn [fst] in Hw, Hp.
  assert (∃ g2, g2 = match r with Some _ => emit (Dispose k) g1 | None => g1 end ∧ wf g2 ∧ pullProxy g2 = pullProxy g1)
    as (g2 & <- & Hw2 & E2).
  { eexists. split; [done|]. destruct r; [|done]. by split; [apply (wf_core g1)|]. }
  apply wf_move; [done|]. by rewrite E2, Hp.
Qed.

Lemma wf_past k x (f : Group → Group) g a : wf g → attempts g !! k = Some a → phase a ∉ [Queued; Starting] →
  wf (f g) → (isSessionPulling (pullProxy (f g)) = true → is_pulling k (pullProxy (f g)) = is_pulling k (pullProxy g)) →
  wf (move x k (f g)).
Proof.
  intros H Ea Hp Hf Hk. apply wf_move; [done|]. intros E. rewrite Hk in E.
  - by rewrite (not_the_task g k a) in E.
  - unfold is_pulling in E. by apply andb_true_iff in E as [E _].
Qed.

Lemma DelPull_task k g : isSessionPulling (pullProxy (DelPullSession k g).1) = true →
  is_pulling k (pullProxy (DelPullSession k g).1) = is_pulling k (pullProxy g).
Proof.
  unfold DelPullSession, delPullSession, mbind, eff_bind. destruct (_ || _).
  - destruct (delIn (on_pull resetRelayPullSession g)) as [g1 r] eqn:E.
    assert (Hp : pullProxy g1 = resetRelayPullSession (pullProxy g)).
    { revert E. unfold delIn. destruct (md_delIn _) as [m [[]|e|]]; intros [= <- <-]; [|done..].
      pose proof (core_stopPush (set_media (on_pull resetRelayPullSession g) m)) as E. unfold core in E. by injection E. }
    destruct r as [[]|e|]; cbn; by rewrite Hp.
  - destruct (is_pulling k (pullProxy g)) eqn:E; cbn; done.
Qed.

Lemma late (x y : Phase) : x ∈ [y] → bool_decide (y ∈ [Queued; Starting]) = false → x ∉ [Queued; Starting].
Proof. intros ->%list_elem_of_singleton. by intros ?%bool_decide_eq_false_1. Qed.

Lemma wf_run o g : wf g → wf (run o g).
Proof.
  intros H. destruct o; cbn [run].
  - destruct H as [H1 H2 H3 H4 [H5 H5'] H6 H7]. split; try done; cbn; [lia|]. split; [done|lia].
  - by apply wf_AddCustomize.
  - unfold AddRtmpPubSession. destruct (hasInSession g) eqn:Hin; [done|].
    apply (wf_AddPub (Some k) (rtspPubSession g)); [done..|]. apply not_in in Hin. revert Hin. unfold in_count. cbn. lia.
  - unfold AddRtspPubSession. destruct (hasInSession g) eqn:Hin; [done|].
    apply (wf_AddPub (rtmpPubSession g) (Some k)); [done..|]. apply not_in in Hin. revert Hin. unfold in_count. cbn. lia.
  - by apply wf_del_pub.
  - by apply wf_del_pub.
  - by apply wf_del_pub.
  - by apply wf_StartPull.
  - by apply wf_stopPull, wf_set_api.
  - unfold kickPull. destruct (_ || _); [|done]. by apply wf_stopPull, wf_set_api.
  - by apply wf_Tick.
  - apply wf_pullIfNeeded. by apply (wf_core g).
  - by apply (wf_core g).
  - apply wf_pullIfNeeded. by apply (wf_core g).
  - by apply (wf_core g).
  - apply wf_when; [done|]. intros a Ea Ha. apply (wf_core (move Over k (onPullStartFailed k g))); [done|].
    by apply wf_attempt_failed.
  - apply wf_when; [done|]. intros a Ea Ha. by apply wf_attempt_begin.
  - apply wf_when; [done|]. intros a Ea Ha. by apply wf_attempt_add.
  - apply wf_when; [done|]. intros a Ea Ha. by apply wf_attempt_failed.
  - apply wf_when; [done|]. intros a Ea Ha. apply (wf_past k Running (λ g, g) g a); try done. by apply (late _ _ Ha).
  - apply wf_when; [done|]. intros a Ea Ha. apply (wf_past k Exited (onPullSessionExited k failed) g a); try done.
    + by apply (late _ _ Ha).
    + by apply wf_exited.
    + unfold onPullSessionExited. destruct (bool_decide _); [|done]. by destruct failed.
  - apply wf_when; [done|]. intros a Ea Ha. pose proof (wf_DelPull k g H) as Hd.
    pose proof (DelPull_task k g) as Ht. unfold attempt_del, mbind, eff_bind.
    destruct (DelPullSession k g) as [g1 [[]|e|]] eqn:E; cbn [fst] in *; [|done..]. unfold update. cbn [fst].
    apply (wf_past k Over (λ _, g1) g a); try done. by apply (late _ _ Ha).
  - unfold AddRtmpPushSession. destruct (url2PushProxy g !! url); [by apply (wf_core g)|done].
  - unfold DelRtmpPushSession. destruct (url2PushProxy g !! url); [by apply (wf_core g)|done].
  - by apply (wf_core g).
Qed.

Lemma wf_exec l : ∀ g, wf g → wf (exec l g).
Proof. induction l as [|o l IH]; intros g H; [done|]. cbn. by apply IH, wf_run. Qed.

Lemma wf_NewGroup m now app name pull push : 0 ≤ now → wf (NewGroup m now app name pull push).
Proof.
  intros H. split; try done; cbn; [lia|]. split; [by left|]. cbn.
  unfold maxPullBackoffMs, pullBackoffJitterMs. lia.
Qed.

(** ** The way back after a failure *)

(** The pull is on, wanted by someone, and has tries left after one more. *)
Record eager (g : Group (M := M)) : Prop := {
  eager_on : staticRelayPullEnable (pullProxy g) || apiEnable (pullProxy g) = true;
  eager_out : hasSubSession g = true;
  eager_tries : pullRetryNum (pullProxy g) < 0 ∨ startCount (pullProxy g) + 1 ≤ pullRetryNum (pullProxy g);
  eager_free : hasInSession g = false;
}.

(** The rest of a failing attempt. *)
Definition failing (g : Group (M := M)) (ops : list (Op (M := M))) : Prop :=
  let k := pullingSessionId (pullProxy g) in
  ops = match phase <$> attempts g !! k with
        | Some Queued => [OBegin k; OStartFailed k]
        | _ => [OStartFailed k]
        end ∨
  phase <$> attempts g !! k = Some Queued ∧ ops = [OSlotTimeout k].

(** What the failure leaves. *)
Definition failed_as (g g1 : Group (M := M)) : Prop :=
  wf g1 ∧ media g1 = media g ∧ hlsSubSessionSet g1 = hlsSubSessionSet g ∧ hasInSession g1 = hasInSession g ∧
  nowMs g1 = nowMs g ∧ (rtmpPulls g1 = rtmpPulls g ∧ rtspPulls g1 = rtspPulls g) ∧
  let p := pullProxy g in let p1 := pullProxy g1 in
  isSessionPulling p1 = false ∧
  (staticRelayPullEnable p1 = staticRelayPullEnable p ∧ apiEnable p1 = apiEnable p) ∧
  pullRetryNum p1 = pullRetryNum p ∧ startCount p1 ≤ startCount p + 1 ∧
  autoStopPullAfterNoOutMs p1 = autoStopPullAfterNoOutMs p ∧ pullUrl p1 = pullUrl p.

Lemma when_in (g : Group (M := M)) ps k f a : attempts g !! k = Some a → bool_decide (phase a ∈ ps) = true → when ps k f g = f a g.
Proof. unfold when. by intros -> ->. Qed.

Lemma failing_fails g ops : wf g → isSessionPulling (pullProxy g) = true → failing g ops → failed_as g (exec ops g).
Proof.
  intros H E Hf. destruct (wf_task g H E) as (a & Ea & Ha). unfold failing in Hf. rewrite Ea in Hf. cbn in Hf.
  set (k := pullingSessionId (pullProxy g)) in *.
  assert (Hk : is_pulling k (pullProxy g) = true).
  { unfold is_pulling. rewrite E. by apply bool_decide_eq_true_2. }
  assert (Hw : wf (exec ops g)) by by apply wf_exec.
  split; [done|]. unfold exec in *.
  destruct Hf as [->|[Hq ->]].
  - assert (phase a = Queued ∨ phase a = Starting) as [Ep|Ep].
    { apply elem_of_cons in Ha as [?|Ha]; [by left|]. apply list_elem_of_singleton in Ha. by right. }
    all: rewrite Ep.
    + cbn [foldl run] in *. rewrite (when_in g [Queued] k _ a) in * by (rewrite ?Ep; done).
      unfold attempt_begin in *. rewrite Hk in *. cbn [negb] in *.
      rewrite (when_in _ [Starting; Called] k _ (set_phase Starting a)) in *
        by (cbn; rewrite ?lookup_alter_eq, ?Ea; done).
      unfold attempt_failed, onPullStartFailed in *. cbn in *. unfold is_pulling. cbn. fold k.
      rewrite E, bool_decide_eq_true_2 by done. cbn. repeat split; (done || (cbn; lia)).
    + cbn [foldl run] in *. rewrite (when_in g [Starting; Called] k _ a) by (rewrite ?Ep; done).
      unfold attempt_failed, onPullStartFailed. rewrite Hk. cbn. repeat split; (done || (cbn; lia)).
  - cbn [foldl run]. injection Hq as Hq. rewrite (when_in g [Queued] k _ a) by (rewrite ?Hq; done).
    unfold attempt_timeout, onPullStartFailed. rewrite Hk. cbn. repeat split; (done || (cbn; lia)).
Qed.

(** Keys of the two kinds of session differ. *)
Lemma key_kind n n' : GenUniqueKey UkPreRtmpPullSession n ≠ GenUniqueKey UkPreRtspPullSession n'.
Proof.
  intros E. pose proof (GenUniqueKey_prefix UkPreRtmpPullSession n) as H1.
  pose proof (GenUniqueKey_prefix UkPreRtspPullSession n') as H2. rewrite E in H1.
  unfold HasPrefix in *. apply bool_decide_eq_true_1 in H1, H2. pose proof (eq_trans (eq_sym H1) H2) as E2.
  discriminate E2.
Qed.

Lemma fresh_key g (rtmp : bool) : wf g →
  attempts g !! (if rtmp then GenUniqueKey UkPreRtmpPullSession (rtmpPulls g)
                 else GenUniqueKey UkPreRtspPullSession (rtspPulls g)) = None.
Proof.
  intros H. destruct (attempts g !! _) as [b|] eqn:E; [|done]. destruct (wf_keys g H _ _ E) as (n & Hn & Hb).
  destruct (wf_counts g H) as [H1 H2]. unfold key_of in Hn.
  destruct rtmp, (isPullByRtmp b); try (by apply key_kind in Hn); try (by symmetry in Hn; apply key_kind in Hn);
    apply GenUniqueKey_inj in Hn; lia.
Qed.

(** The key the next attempt gets. *)
Definition next_key (g : Group (M := M)) : list Z :=
  if HasPrefix (pullUrl (pullProxy g)) (str "rtmp") then GenUniqueKey UkPreRtmpPullSession (rtmpPulls g)
  else GenUniqueKey UkPreRtspPullSession (rtspPulls g).

Lemma pull_starts g : shouldStartPull g = None →
  let g' := (pullIfNeeded g).1 in
  isSessionPulling (pullProxy g') = true ∧ pullingSessionId (pullProxy g') = next_key g ∧
  phase <$> attempts g' !! next_key g = Some Queued.
Proof.
  intros E. unfold pullIfNeeded. rewrite E. cbn. split; [done|split; [done|]]. by rewrite lookup_insert_eq.
Qed.

(** Whatever the backoff, 30249 milliseconds and a tick later. *)
Lemma tick_retries g : wf g → isSessionPulling (pullProxy g) = false →
  staticRelayPullEnable (pullProxy g) || apiEnable (pullProxy g) = true → hasSubSession g = true →
  pullRetryNum (pullProxy g) < 0 ∨ startCount (pullProxy g) ≤ pullRetryNum (pullProxy g) → hasInSession g = false →
  let g' := exec [OAdvance 30249; OTick] g in
  isSessionPulling (pullProxy g') = true ∧ pullingSessionId (pullProxy g') = next_key g ∧
  phase <$> attempts g' !! next_key g = Some Queued.
Proof.
  intros H E Hon Hout Htry Hfree. unfold exec. cbn [foldl run]. set (g2 := set_now g _).
  unfold Tick, tickPullModule. change (hasSubSession g2) with (hasSubSession g). rewrite Hout.
  set (g3 := on_pull (λ p, set_counts p (startCount p) (nowMs g2)) g2).
  assert (Hauto : shouldAutoStopPull g3 = false).
  { unfold shouldAutoStopPull, hasOutSession. destruct (_ <? 0); [done|].
    change (hasSubSession g3) with (hasSubSession g). by rewrite Hout. }
  rewrite Hauto.
  assert (Hs : shouldStartPull g3 = None).
  { unfold shouldStartPull. destruct (wf_backoff g H) as [_ Hb]. unfold maxPullBackoffMs, pullBackoffJitterMs in Hb.
    change (pullProxy g3) with (set_counts (pullProxy g) (startCount (pullProxy g)) (nowMs g2)). cbn.
    rewrite (proj2 (Z.ltb_ge _ _)) by lia. rewrite andb_false_r. change (hasInSession g3) with (hasInSession g).
    rewrite Hfree, E, <-negb_orb, Hon. cbn. rewrite Hauto.
    destruct (Z.geb_spec (pullRetryNum (pullProxy g)) 0), (Z.gtb_spec (startCount (pullProxy g)) (pullRetryNum (pullProxy g)));
      done || lia. }
  destruct (pull_starts g3 Hs) as (E1 & E2 & E3). set (g4 := (pullIfNeeded g3).1) in *.
  assert (Hc : core (startPushIfNeeded g4).1 = core g4) by apply core_startPush. unfold core in Hc.
  injection Hc as _ _ _ Hp _ Hat _ _. by rewrite Hp, Hat.
Qed.

(** C21: a pull is tried again: whatever the sections that led to a state with an
    attempt in progress, once that attempt has failed (no slot, or its session
    did not start), 30249 milliseconds and a tick later there is a new attempt
    in the queue, under a new key, as long as the pull is on, has a subscriber,
    has tries left and no other session has come in. *)
Theorem pull_retried m now app name pull push ops fails (g := exec ops (NewGroup m now app name pull push)) :
  0 ≤ now → isSessionPulling (pullProxy g) = true → eager g → failing g fails →
  let g' := exec (fails ++ [OAdvance 30249; OTick]) g in
  let k := pullingSessionId (pullProxy g') in
  isSessionPulling (pullProxy g') = true ∧ attempts g !! k = None ∧ phase <$> attempts g' !! k = Some Queued.
Proof.
  intros Hnow E [Hon Hout Htry Hfree] Hf. assert (H : wf g) by by apply wf_exec, wf_NewGroup.
  destruct (failing_fails g fails H E Hf) as (H1 & Em & Eh & Ei & En & [Er Es] & E1 & [Eo Ea] & Et & Ec & Eu & Ew).
  cbn zeta. replace (exec (fails ++ [OAdvance 30249; OTick]) g) with (exec [OAdvance 30249; OTick] (exec fails g))
    by (unfold exec; by rewrite foldl_app).
  destruct (tick_retries (exec fails g)) as (T1 & T2 & T3).
  - done.
  - done.
  - by rewrite Eo, Ea.
  - unfold hasSubSession. by rewrite Em, Eh.
  - rewrite Et. lia.
  - by rewrite Ei.
  - rewrite T1, T2. split; [done|split; [|exact T3]].
    unfold next_key. rewrite Er, Es, Ew. by apply fresh_key.
Qed.

(** ** Waiting after a failure *)

Definition all_over (g : Group (M := M)) : Prop := ∀ k a, attempts g !! k = Some a → phase a = Over.

(** No attempt is on its way, and none is wanted before [t]. *)
Definition backing_off (t : Z) (g : Group (M := M)) : Prop :=
  let p := pullProxy g in
  all_over g ∧ isSessionPulling p = false ∧ rtmpSession p = None ∧ rtspSession p = None ∧
  autoStopPullAfterNoOutMs p < 0 ∧ t ≤ nextPullTsMs p ∧ nextPullTsMs p ≠ 0.

(** Calls from outside that start or stop the pull. *)
Definition calm (o : Op (M := M)) : Prop := match o with OStartPull _ | OStopPull => False | _ => True end.

Lemma not_over (ps : list Phase) : bool_decide (Over ∈ ps) = false → Over ∉ ps.
Proof. apply bool_decide_eq_false_1. Qed.

Lemma when_over g ps k f : all_over g → Over ∉ ps → when ps k f g = g.
Proof.
  intros H Hp. unfold when. destruct (attempts g !! k) as [a|] eqn:E; [|done].
  rewrite bool_decide_eq_false_2; [done|]. by rewrite (H k a E).
Qed.

Lemma off_core t g g' : core g = core g' → backing_off t g → backing_off t g' ∧ attempts g' = attempts g.
Proof.
  unfold core, backing_off, all_over. intros E. injection E as _ _ _ E _ E' _ _. by rewrite <-E, <-E'.
Qed.

Lemma off_no_start t g : backing_off t g → nowMs g < t → (pullIfNeeded g).1 = g.
Proof.
  intros (_ & _ & _ & _ & _ & Ht & Hn) Hnow. unfold pullIfNeeded, shouldStartPull.
  rewrite (proj2 (Z.eqb_neq _ _) Hn), (proj2 (Z.ltb_lt _ _)) by lia. done.
Qed.

Lemma core_delIn g : core (delIn g).1 = core (set_pubs g None None None) ∨ core (delIn g).1 = core g.
Proof.
  unfold delIn. destruct (md_delIn (media g)) as [m [[]|e|]]; [|by right..]. left. cbn [fst].
  pose proof (core_stopPush (set_media g m)) as E. unfold core in *. cbn. injection E as _ _ _ E4 E5 E6 E7 E8. congruence.
Qed.

Lemma off_pubs t g r s c : backing_off t g → backing_off t (set_pubs g r s c).
Proof. done. Qed.

Lemma off_delIn t g : backing_off t g → backing_off t (delIn g).1 ∧ attempts (delIn g).1 = attempts g.
Proof.
  intros H. destruct (core_delIn g) as [E|E]; symmetry in E.
  - by apply (off_core t) in E.
  - by apply (off_core t) in E.
Qed.

Lemma off_put t name g : backing_off t g →
  backing_off t (putCustomizePubSession name g).1 ∧ attempts (putCustomizePubSession name g).1 = attempts g.
Proof.
  intros H. unfold putCustomizePubSession. set (k := GenUniqueKey _ _). set (g1 := set_pubs _ _ _ _). cbn [fst].
  apply (off_core t g1); [symmetry; apply (core_addIn g1)|done].
Qed.

Lemma off_AddCustomize t name g : backing_off t g →
  backing_off t (AddCustomizePubSession name g).1 ∧ attempts (AddCustomizePubSession name g).1 = attempts g.
Proof.
  intros H. unfold AddCustomizePubSession. destruct (hasInSession g); cbn [negb]; [|by apply off_put].
  destruct (customizePubSession g) as [[k n]|]; [|done]. case_bool_decide; [done|].
  destruct (_ && _); [|done]. set (g1 := emit (Dispose k) g).
  unfold mbind, eff_bind, delCustomizePubSession. case_bool_decide; [|by apply (off_put t name g1)].
  destruct (off_delIn t g1 H) as [Hd E1]. destruct (delIn g1) as [g2 [[]|e|]]; [|done..].
  cbn [fst] in *. destruct (off_put t name g2 Hd) as [Hq E2]. by rewrite E2.
Qed.

Lemma off_del t (b : bool) g : backing_off t g →
  backing_off t (if b then delIn g else (g, Ret tt)).1 ∧ attempts (if b then delIn g else (g, Ret tt)).1 = attempts g.
Proof. destruct b; [by apply off_delIn|done]. Qed.

Lemma off_Tick t g : backing_off t g → nowMs g < t → backing_off t (Tick g) ∧ attempts (Tick g) = attempts g.
Proof.
  intros H Hnow. unfold Tick, tickPullModule. set (g1 := if hasSubSession g then _ else g).
  assert (H1 : backing_off t g1 ∧ attempts g1 = attempts g ∧ nowMs g1 = nowMs g).
  { unfold g1. by destruct (hasSubSession g). }
  clearbody g1. destruct H1 as (Hg & E1 & En). unfold shouldAutoStopPull.
  rewrite (proj2 (Z.ltb_lt (autoStopPullAfterNoOutMs _) 0)) by (unfold backing_off in Hg; tauto).
  rewrite (off_no_start t) by (done || by rewrite En). rewrite <-E1.
  apply (off_core t g1); [by rewrite core_startPush|done].
Qed.

(** The clock. *)
Lemma now_pullIfNeeded (g : Group (M := M)) : nowMs (pullIfNeeded g).1 = nowMs g.
Proof. unfold pullIfNeeded. by destruct (shouldStartPull g). Qed.

Lemma now_stopPull (g : Group (M := M)) : nowMs (stopPull g).1 = nowMs g.
Proof. unfold stopPull. by repeat case_match. Qed.

Lemma now_core g g' : core g = core g' → nowMs g = nowMs g'.
Proof. unfold core. by intros [=]. Qed.

Lemma now_Tick (g : Group (M := M)) : nowMs (Tick g) = nowMs g.
Proof.
  unfold Tick, tickPullModule. rewrite (now_core _ _ (core_startPush _)). set (g1 := if hasSubSession g then _ else g).
  assert (E : nowMs g1 = nowMs g) by (unfold g1; by destruct (hasSubSession g)).
  destruct (shouldAutoStopPull g1); by rewrite ?now_stopPull, ?now_pullIfNeeded.
Qed.

Lemma now_delIn (g : Group (M := M)) : nowMs (delIn g).1 = nowMs g.
Proof. destruct (core_delIn g) as [E|E]; by rewrite (now_core _ _ E). Qed.

Lemma now_put name (g : Group (M := M)) : nowMs (putCustomizePubSession name g).1 = nowMs g.
Proof.
  unfold putCustomizePubSession. set (k := GenUniqueKey _ _). set (g1 := set_pubs _ _ _ _). cbn [fst].
  exact (now_core _ _ (core_addIn g1)).
Qed.

Lemma now_AddCustomize name (g : Group (M := M)) : nowMs (AddCustomizePubSession name g).1 = nowMs g.
Proof.
  unfold AddCustomizePubSession. destruct (hasInSession g); cbn [negb]; [|apply now_put].
  destruct (customizePubSession g) as [[k n]|]; [|done]. destruct (bool_decide (n = name)); [done|].
  destruct (_ && _); [|done]. set (g1 := emit (Dispose k) g).
  unfold mbind, eff_bind, delCustomizePubSession. destruct (bool_decide _); [|apply (now_put name g1)].
  pose proof (now_delIn g1) as E. destruct (delIn g1) as [g2 [[]|e|]]; [|done..]. by rewrite now_put.
Qed.

Lemma now_DelPull k (g : Group (M := M)) : nowMs (DelPullSession k g).1 = nowMs g.
Proof.
  unfold DelPullSession, delPullSession, mbind, eff_bind. destruct (_ || _); [|by destruct (is_pulling k (pullProxy g))].
  pose proof (now_delIn (on_pull resetRelayPullSession g)) as E. by destruct (delIn _) as [g2 [[]|e|]].
Qed.

Lemma now_addPull (rtmp : bool) k (g : Group (M := M)) :
  nowMs (if rtmp then AddRtmpPullSession k g else AddRtspPullSession k g).1 = nowMs g.
Proof.
  unfold AddRtmpPullSession, AddRtspPullSession. destruct (hasInSession g); [by destruct rtmp|].
  destruct rtmp; cbn [fst]; set (g1 := on_pull _ (on_pull _ g)); exact (now_core _ _ (core_addIn g1)).
Qed.

Lemma now_when ps k f (g : Group (M := M)) : (∀ a, nowMs (f a g) = nowMs g) → nowMs (when ps k f g) = nowMs g.
Proof. intros H. unfold when. destruct (attempts g !! k); [|done]. by case_bool_decide. Qed.

Lemma now_run o (g : Group (M := M)) : nowMs g ≤ nowMs (run o g).
Proof.
  destruct o as [ms| | | | | | | | | | | | | | | | | | | | | | | |]; cbn [run]; [cbn; lia|..];
    (match goal with |- nowMs _ ≤ ?n => cut (n = nowMs g); [lia|] end).
  - apply now_AddCustomize.
  - unfold AddRtmpPubSession. destruct (hasInSession g); [done|]. exact (now_core _ _ (core_addIn _)).
  - unfold AddRtspPubSession. destruct (hasInSession g); [done|]. exact (now_core _ _ (core_addIn _)).
  - unfold delCustomizePubSession. case_bool_decide; [apply now_delIn|done].
  - unfold delRtmpPubSession. case_bool_decide; [apply now_delIn|done].
  - unfold delRtspPubSession. case_bool_decide; [apply now_delIn|done].
  - exact (now_pullIfNeeded (on_pull _ g)).
  - exact (now_stopPull (on_pull _ g)).
  - unfold kickPull. destruct (_ || _); [exact (now_stopPull (on_pull _ g))|done].
  - apply now_Tick.
  - exact (now_pullIfNeeded (set_media g _)).
  - done.
  - exact (now_pullIfNeeded (set_hls g _)).
  - done.
  - apply now_when. intros _. unfold attempt_timeout, onPullStartFailed. by destruct (is_pulling _ _).
  - apply now_when. intros _. unfold attempt_begin. by destruct (is_pulling _ _).
  - apply now_when. intros a. unfold attempt_add. pose proof (now_addPull (isPullByRtmp a) k g) as E.
    destruct (if isPullByRtmp a then _ else _) as [g1 r]. by destruct r.
  - apply now_when. intros _. unfold attempt_failed, onPullStartFailed. by destruct (is_pulling _ _).
  - by apply now_when.
  - apply now_when. intros _. unfold attempt_exited, onPullSessionExited. destruct (bool_decide _); [|done]. by destruct failed.
  - apply now_when. intros _. unfold attempt_del, mbind, eff_bind. pose proof (now_DelPull k g) as E.
    by destruct (DelPullSession k g) as [g1 [[]|e|]].
  - unfold AddRtmpPushSession. by destruct (url2PushProxy g !! url).
  - unfold DelRtmpPushSession. by destruct (url2PushProxy g !! url).
  - done.
Qed.

Lemma off_run t o g : calm o → backing_off t g → nowMs (run o g) < t →
  backing_off t (run o g) ∧ attempts (run o g) = attempts g.
Proof.
  intros Hc H Hnow. destruct o; try done; cbn [run] in *; try (rewrite when_over; [done|apply H|by apply not_over]).
  - by apply off_AddCustomize.
  - unfold AddRtmpPubSession in *. destruct (hasInSession g); [done|]. set (g1 := set_pubs _ _ _ _).
    apply (off_core t g1); [symmetry; apply (core_addIn g1)|done].
  - unfold AddRtspPubSession in *. destruct (hasInSession g); [done|]. set (g1 := set_pubs _ _ _ _).
    apply (off_core t g1); [symmetry; apply (core_addIn g1)|done].
  - by apply off_del.
  - by apply off_del.
  - by apply off_del.
  - unfold kickPull. destruct H as (Ha & Hb & Hr & Hs & Hd). rewrite Hr, Hs. done.
  - apply off_Tick; [done|]. by rewrite now_Tick in Hnow.
  - unfold join_sub in *. rewrite now_pullIfNeeded in Hnow. by rewrite (off_no_start t).
  - unfold AddHlsSubSession in *. rewrite now_pullIfNeeded in Hnow. by rewrite (off_no_start t).
  - unfold AddRtmpPushSession. by destruct (url2PushProxy g !! url).
  - unfold DelRtmpPushSession. by destruct (url2PushProxy g !! url).
Qed.

Lemma off_exec t l : ∀ g, Forall calm l → backing_off t g → nowMs (exec l g) < t → attempts (exec l g) = attempts g.
Proof.
  induction l as [|o l IH]; intros g Hc H Hnow; [done|]. apply Forall_cons in Hc as [Ho Hl].
  change (exec (o :: l) g) with (exec l (run o g)) in *.
  assert (nowMs (run o g) ≤ nowMs (exec l (run o g))).
  { clear. revert g. generalize (run o) as f. induction l as [|o' l IH]; intros f g; [done|].
    change (exec (o' :: l) (f g)) with (exec l (run o' (f g))). pose proof (now_run o' (f g)).
    specialize (IH (λ g, run o' (f g)) g). cbn in IH. lia. }
  destruct (off_run t o g Ho H ltac:(lia)) as [H1 E1]. by rewrite (IH _ Hl H1 Hnow).
Qed.

(** The backoff of a pull that is not stopped for want of players
    ([autoStopPullAfterNoOutMs] negative; otherwise such a stop forgets the wait):
    when the attempt in progress fails for want of its start and no other one is
    about, the wait doubles from one second up to thirty, and however the sections
    that follow are ordered, ticks, subscribers and publishers coming and going,
    none makes an attempt before it has passed, unless a call starts or stops the
    pull. *)
Theorem pull_backoff m now app name pull push ops k (g := exec ops (NewGroup m now app name pull push))
    (g1 := run (OStartFailed k) g) :
  0 ≤ now → phase <$> attempts g !! k = Some Starting → is_pulling k (pullProxy g) = true →
  (∀ k' a, k' ≠ k → attempts g !! k' = Some a → phase a = Over) → hasInSession g = false →
  autoStopPullAfterNoOutMs (pullProxy g) < 0 →
  backoffMs (pullProxy g1) = Z.min 30000 (Z.max 1000 (2 * backoffMs (pullProxy g))) ∧
  ∀ l, Forall calm l → nowMs (exec l g1) < nowMs g + backoffMs (pullProxy g1) → attempts (exec l g1) = attempts g1.
Proof.
  intros Hnow Hs Hk Ho Hin Hauto. assert (H : wf g) by by apply wf_exec, wf_NewGroup.
  destruct (attempts g !! k) as [a|] eqn:Ea; [|done]. injection Hs as Hs.
  unfold g1. cbn [run]. rewrite (when_in g _ k _ a) by (rewrite ?Hs; done).
  unfold attempt_failed, onPullStartFailed. rewrite Hk. cbn [negb]. set (g2 := move Over k _).
  destruct (wf_backoff g H) as [Hb _]. pose proof (wf_now g H) as Hn.
  pose proof (Z.rem_bound_pos (nowMs g) 250 Hn ltac:(lia)) as Hr.
  assert (Eb : backoffMs (pullProxy g2) = Z.min 30000 (Z.max 1000 (2 * backoffMs (pullProxy g))) ∧
               nextPullTsMs (pullProxy g2) = nowMs g + backoffMs (pullProxy g2) + Z.rem (nowMs g) 250).
  { unfold g2, schedulePullBackoff, minPullBackoffMs, maxPullBackoffMs, pullBackoffJitterMs in *. cbn. split; [|done].
    destruct (Z.leb_spec (backoffMs (pullProxy g)) 0), (Z.gtb_spec (backoffMs (pullProxy g) * 2) (30 * 1000)); lia. }
  destruct Eb as [E1 E2]. split; [done|]. intros l Hl Ht. apply (off_exec _ l g2 Hl) in Ht; [done|].
  apply not_in in Hin. unfold in_count in Hin.

  repeat split; try done.
  - intros k' b E. unfold g2 in E. cbn in E. destruct (decide (k = k')) as [<-|Hne].
    + rewrite lookup_alter_eq, Ea in E. by injection E as <-.
    + rewrite lookup_alter_ne in E by done. by eapply Ho.
  - change (rtmpSession (pullProxy g) = None). destruct (rtmpSession (pullProxy g)); [cbn in Hin; lia|done].
  - change (rtspSession (pullProxy g) = None). destruct (rtspSession (pullProxy g)); [cbn in Hin; lia|done].
  - rewrite E2. lia.
  - rewrite E2. lia.
Qed.

(** C20: however publishers, attempts to pull, subscribers and callers interleave,
    a group never has two sessions to take media from, and its task of pulling
    never is in progress without a goroutine that will finish it. *)
Theorem group_one_in m now app name pull push ops (g := exec ops (NewGroup m now app name pull push)) : 0 ≤ now →
  (length (omap id [rtmpPubSession g; rtspPubSession g; fst <$> customizePubSession g;
                    rtmpSession (pullProxy g); rtspSession (pullProxy g)]) ≤ 1)%nat ∧
  (isSessionPulling (pullProxy g) = true →
     ∃ a, attempts g !! pullingSessionId (pullProxy g) = Some a ∧ (phase a = Queued ∨ phase a = Starting)) ∧
  (isSessionPulling (pullProxy g) = false → pullingSessionId (pullProxy g) = []).
Proof.
  intros Hnow. assert (H : wf g) by by apply wf_exec, wf_NewGroup. split; [|split].
  - pose proof (wf_one g H) as H1. unfold in_count in H1.
    destruct (rtmpPubSession g), (rtspPubSession g), (customizePubSession g), (rtmpSession (pullProxy g)),
      (rtspSession (pullProxy g)); cbn in *; lia.
  - intros E. destruct (wf_task g H E) as (a & Ea & Ha). exists a. split; [done|].
    apply elem_of_cons in Ha as [?|Ha]; [by left|]. apply list_elem_of_singleton in Ha. by right.
  - apply H.
Qed.

(** ** What goes wrong *)

(** An RTSP session the group has although its attempt is over. *)
Definition stuck (k : list Z) (g : Group (M := M)) : Prop :=
  rtmpPubSession g = None ∧ rtspPubSession g = None ∧ customizePubSession g = None ∧
  rtmpSession (pullProxy g) = None ∧ rtspSession (pullProxy g) = Some k ∧
  phase <$> attempts g !! k = Some Over.

Lemma stuck_in k g : stuck k g → hasInSession g = true.
Proof. intros (E1 & E2 & E3 & E4 & E5 & _). unfold hasInSession, hasPubSession, hasPullSession. by rewrite E1, E2, E3, E4, E5. Qed.

Lemma stuck_core k g g' : core g = core g' → stuck k g → stuck k g'.
Proof. unfold core, stuck. intros E. injection E as -> -> -> -> _ -> _ _. done. Qed.

Lemma stuck_pull k f g : stuck k g →
  (∀ p, rtmpSession (f p) = rtmpSession p ∧ rtspSession (f p) = rtspSession p) → stuck k (on_pull f g).
Proof. intros H Hf. unfold stuck in *. cbn. by rewrite !(proj1 (Hf _)), !(proj2 (Hf _)). Qed.

Lemma stuck_no_pull k g : stuck k g → (pullIfNeeded g).1 = g.
Proof.
  intros H%stuck_in. unfold pullIfNeeded, shouldStartPull. rewrite H. by destruct (negb _ && _).
Qed.

Lemma stuck_stop k g : stuck k g → stuck k (stopPull g).1.
Proof.
  intros H. unfold stopPull. set (g' := on_pull _ g). assert (Hg : stuck k g') by by apply stuck_pull.
  destruct (rtmpSession (pullProxy g')), (rtspSession (pullProxy g')); by apply (stuck_core k g').
Qed.

Lemma stuck_move k k' x g : stuck k g → k ≠ k' → stuck k (move x k' g).
Proof.
  intros (E1 & E2 & E3 & E4 & E5 & E6) Hk. repeat split; try done. cbn. by rewrite lookup_alter_ne.
Qed.

Lemma stuck_when k ps k' f g : stuck k g → Over ∉ ps → (k ≠ k' → ∀ a, stuck k (f a g)) → stuck k (when ps k' f g).
Proof.
  intros H Hp Hf. unfold when. destruct (attempts g !! k') as [a|] eqn:E; [|done]. case_bool_decide as Ha; [|done].
  apply Hf. intros ->. destruct H as (_ & _ & _ & _ & _ & H). rewrite E in H. injection H as H. by rewrite H in Ha.
Qed.

Lemma stuck_DelPull k k' g : stuck k g → k ≠ k' → ∃ g', DelPullSession k' g = (g', Ret tt) ∧ stuck k g'.
Proof.
  intros H Hk. destruct H as (E1 & E2 & E3 & E4 & E5 & E6). unfold DelPullSession, delPullSession, mbind, eff_bind.
  rewrite E4, E5, (bool_decide_eq_false_2 (None = _)), bool_decide_eq_false_2 by congruence. cbn.
  destruct (is_pulling k' (pullProxy g)); eexists; (split; [done|]); by repeat split.
Qed.

Lemma stuck_Tick k g : stuck k g → stuck k (Tick g).
Proof.
  intros H. unfold Tick. apply (stuck_core k (tickPullModule g)); [by rewrite core_startPush|]. unfold tickPullModule.
  set (g1 := if hasSubSession g then _ else g).
  assert (Hg : stuck k g1). { unfold g1. destruct (hasSubSession g); [by apply stuck_pull|done]. }
  destruct (shouldAutoStopPull g1); [by apply stuck_stop|by rewrite (stuck_no_pull k)].
Qed.

Lemma stuck_run k o g : stuck k g → stuck k (run o g).
Proof.
  intros H. pose proof (stuck_in k g H) as Hin.
  destruct o as [ms|name|k'|k'|k'|k'|k'|i| |k'| |f|f|k'|k'|k'|k'|k'|k'|k'|k' failed|k'|url k'|url|url]; cbn [run].
  - done.
  - unfold AddCustomizePubSession. rewrite Hin. destruct H as (E1 & E2 & E3 & E). by rewrite E3.
  - unfold AddRtmpPubSession. by rewrite Hin.
  - unfold AddRtspPubSession. by rewrite Hin.
  - unfold delCustomizePubSession. destruct H as (E1 & E2 & E3 & E). by rewrite E3.
  - unfold delRtmpPubSession. destruct H as (E1 & E). by rewrite E1.
  - unfold delRtspPubSession. destruct H as (E1 & E2 & E). by rewrite E2.
  - unfold StartPull. set (g' := on_pull _ g). rewrite (stuck_no_pull k g'); by apply stuck_pull.
  - by apply stuck_stop, stuck_pull.
  - unfold kickPull. destruct (_ || _); [by apply stuck_stop, stuck_pull|done].
  - by apply stuck_Tick.
  - unfold join_sub. by rewrite (stuck_no_pull k (set_media g (f (media g)))).
  - done.
  - unfold AddHlsSubSession. by rewrite (stuck_no_pull k (set_hls g _)).
  - done.
  - apply stuck_when; [done|by apply not_over|]. intros Hk a. apply (stuck_core k (move Over k' (onPullStartFailed k' g))); [done|].
    apply stuck_move; [|done]. unfold onPullStartFailed. destruct (is_pulling _ _); [by apply stuck_pull|done].
  - apply stuck_when; [done|by apply not_over|]. intros Hk a. unfold attempt_begin. destruct (is_pulling _ _); cbn [negb].
    + apply stuck_move; [by apply stuck_pull|done].
    + apply (stuck_core k (move Over k' g)); [done|]. by apply stuck_move.
  - apply stuck_when; [done|by apply not_over|]. intros Hk a. unfold attempt_add, AddRtmpPullSession, AddRtspPullSession.
    rewrite Hin. destruct (isPullByRtmp a); (apply stuck_move; [|done]); apply (stuck_core k (on_pull (leave_task k') g));
      try done; apply stuck_pull; try done; intros p; unfold leave_task; by destruct (is_pulling k' p).
  - apply stuck_when; [done|by apply not_over|]. intros Hk a. apply stuck_move; [|done].
    unfold onPullStartFailed. destruct (is_pulling _ _); [by apply stuck_pull|done].
  - apply stuck_when; [done|by apply not_over|]. intros Hk a. by apply stuck_move.
  - apply stuck_when; [done|by apply not_over|]. intros Hk a. apply stuck_move; [|done].
    unfold onPullSessionExited. destruct (bool_decide _); [|done]. by destruct failed; apply stuck_pull.
  - apply stuck_when; [done|by apply not_over|]. intros Hk a. unfold attempt_del, mbind, eff_bind.
    destruct (stuck_DelPull k k' g H Hk) as (g' & -> & H'). by apply stuck_move.
  - unfold AddRtmpPushSession. by destruct (url2PushProxy g !! url).
  - unfold DelRtmpPushSession. by destruct (url2PushProxy g !! url).
  - done.
Qed.

Lemma stuck_exec k l : ∀ g, stuck k g → stuck k (exec l g).
Proof. induction l as [|o l IH]; intros g H; [done|]. cbn. by apply IH, stuck_run. Qed.

(** An RTSP server that answers DESCRIBE and then refuses SETUP: the attempt is
    over, its session stays that of the group whatever comes next, every
    publisher is turned away and the group is never taken for inactive. *)
Lemma rtsp_pull_stuck k g l key (g' := exec (OAddPull k :: OStartFailed k :: l) g) :
  wf g → hasInSession g = false →
  (∃ a, attempts g !! k = Some a ∧ isPullByRtmp a = false ∧ phase a = Starting) →
  rtspSession (pullProxy g') = Some k ∧ AddRtmpPubSession key g' = (g', Some ErrDupInStream) ∧ IsInactive g' = false.
Proof.
  intros H Hin (a & Ea & Hr & Hp).
  assert (Hs : stuck k (run (OStartFailed k) (run (OAddPull k) g))).
  { cbn [run]. rewrite (when_in g _ k _ a) by (rewrite ?Hp; done). rewrite Hr.
    unfold attempt_add, AddRtspPullSession. rewrite Hin. set (g1 := on_pull _ (on_pull _ g)).
    set (g2 := set_media (addIn g1) _). set (g3 := emit _ _).
    assert (Ec : core g3 = core g1) by apply (core_addIn g1).
    assert (Hg : rtmpPubSession g1 = None ∧ rtspPubSession g1 = None ∧ customizePubSession g1 = None ∧
      rtmpSession (pullProxy g1) = None ∧ rtspSession (pullProxy g1) = Some k ∧ attempts g1 = attempts g ∧
      is_pulling k (pullProxy g1) = false).
    { apply not_in in Hin. unfold in_count in Hin.
      unfold g1. cbn. unfold succeed, is_pulling.
      destruct (rtmpPubSession g), (rtspPubSession g), (customizePubSession g), (rtmpSession (pullProxy g)) eqn:Es;
        cbn in *; try lia. destruct (isSessionPulling (pullProxy g) && bool_decide _) eqn:E; cbn;
        repeat split; done || exact E || exact Es. }
    clearbody g3. clear g2. clearbody g1. unfold core in Ec. injection Ec as E1 E2 E3 E4 _ E5 _ _. destruct Hg as (F1 & F2 & F3 & F4 & F5 & F6 & F7).
    rewrite (when_in _ _ k _ (set_phase Called a)) by (cbn; rewrite ?E5, ?F6, ?lookup_alter_eq, ?Ea; done).
    unfold attempt_failed, onPullStartFailed. cbn [move set_attempts pullProxy]. rewrite E4, F7. cbn [negb].
    unfold stuck. cbn. rewrite E1, E2, E3, E4, E5, F6, !lookup_alter_eq, Ea. done. }
  assert (Hs' : stuck k g') by by apply (stuck_exec k l).
  pose proof (stuck_in k g' Hs') as Hin'. split; [by destruct Hs' as (_ & _ & _ & _ & E & _)|].
  split; [unfold AddRtmpPubSession; by rewrite Hin'|]. unfold IsInactive, isTotalEmpty. by rewrite Hin'.
Qed.

Lemma core_StopPull g : let g' := run OStopPull g in
  rtmpPubSession g' = rtmpPubSession g ∧ rtspPubSession g' = rtspPubSession g ∧
  customizePubSession g' = customizePubSession g ∧ rtmpSession (pullProxy g') = rtmpSession (pullProxy g) ∧
  rtspSession (pullProxy g') = rtspSession (pullProxy g) ∧ attempts g' = attempts g ∧ apiEnable (pullProxy g') = false.
Proof.
  cbn [run]. unfold StopPull, stopPull. set (g2 := on_pull _ (on_pull _ g)).
  by destruct (rtmpSession (pullProxy g2)), (rtspSession (pullProxy g2)).
Qed.

Lemma core_AddRtmpPull k g : hasInSession g = false →
  pullProxy (AddRtmpPullSession k g).1 = setRtmpPullSession k (succeed k (pullProxy g)) ∧
  (AddRtmpPullSession k g).2 = None.
Proof.
  unfold AddRtmpPullSession. intros ->. cbn [fst snd]. split; [|done]. set (g1 := on_pull _ (on_pull _ g)).
  pose proof (core_addIn g1) as E. unfold core in E. by injection E.
Qed.

(** Stopping the pull while its session is starting stops nothing: the session
    comes in when it has its answer. *)
Lemma stop_while_starting_lost k g a : hasInSession g = false →
  attempts g !! k = Some a → isPullByRtmp a = true → phase a = Starting →
  let g' := exec [OStopPull; OAddPull k] g in
  apiEnable (pullProxy g') = false ∧ rtmpSession (pullProxy g') = Some k.
Proof.
  intros Hin Ea Hr Hp. change (exec [OStopPull; OAddPull k] g) with (run (OAddPull k) (run OStopPull g)).
  destruct (core_StopPull g) as (E1 & E2 & E3 & E4 & E5 & E6 & E7). generalize dependent (run OStopPull g). intros g1 ? ? ? ? ? ? ?.
  assert (Hin1 : hasInSession g1 = false).
  { unfold hasInSession, hasPubSession, hasPullSession. by rewrite E1, E2, E3, E4, E5. }
  unfold run. rewrite (when_in g1 _ k _ a) by (by rewrite ?E6, ?Hp). rewrite Hr.
  destruct (core_AddRtmpPull k g1 Hin1) as [F1 F2]. unfold attempt_add.
  destruct (AddRtmpPullSession k g1) as [g2 r]. cbn [fst snd] in *. rewrite F2. cbn. rewrite F1. split; [|done].
  unfold succeed. by destruct (is_pulling k (pullProxy g1)).
Qed.
End InFacts.


(** ** One publisher after another *)

Section Turns.
Import GroupStream(RangeOrder, HlsMuxer, SdpContext, headers, rtmpGopCache, httpflvGopCache, cached).
Import Group(RtspRemuxer, SnapshotRemuxer, Media, flowing, rtmpOut, flvOut, delIn_ends, cleared_cache).
Context {RO : RangeOrder} {B : Bele} {BS : BeleStream} {NB : NazaBuffer} {BI : NazaBits} {U : Unique}.
Context {H : Type} {HM : HlsMuxer H} {R Sdp : Type} {SC : SdpContext Sdp} {RR : RtspRemuxer R Sdp}.
Context {P : Type} {SR : SnapshotRemuxer P}.
Context (mpegts : bool) (rtsp : option R) (waitAudioMs : option Z) (hooked : bool) (hls : option H) (flv ts : bool).
#[local] Instance side : MediaSide _ := GroupMedia (Sdp := Sdp) (P := P) mpegts rtsp waitAudioMs hooked hls flv ts.

Lemma start_in_flows stores (g : Media (H := H) (R := R) (Sdp := Sdp) (P := P)) qr qf :
  flowing qr qf g → let g' := start_in mpegts waitAudioMs hooked hls flv ts stores g in
  flowing qr qf g' ∧ rtmpGopCache (rtmpOut g') = rtmpGopCache (rtmpOut g) ∧
  httpflvGopCache (flvOut g') = httpflvGopCache (flvOut g).
Proof.
  intros [H1 H2 H3]. unfold start_in, start_stores.
  destruct mpegts, waitAudioMs, hooked, stores, hls, flv, ts; (split; [by split|done]).
Qed.

Lemma media_startPush {M} (g : Group (M := M)) : media (startPushIfNeeded g).1 = media g.
Proof. unfold startPushIfNeeded. by repeat case_match. Qed.

Lemma media_addIn {M} {MS : MediaSide M} (g : Group (M := M)) :
  ∃ key b, media (addIn g) = md_addIn key b (media g).
Proof. unfold addIn. rewrite media_startPush. by eexists _, _. Qed.

Lemma media_stopPush (g : Group (M := Media (H := H) (R := R) (Sdp := Sdp) (P := P) * option AvRemux.AvPacket2RtmpRemuxer)) :
  media (stopPushIfNeeded g) = media g.
Proof.
  unfold stopPushIfNeeded. destruct (pushEnable g); [|done]. cbn [negb set_push media].
  generalize (omap (λ x, pushSession x.2) (map_to_list (url2PushProxy g))). intros l. revert g.
  induction l as [|k l IH]; intros g; [done|]. cbn [foldl]. by rewrite IH.
Qed.

Abbreviation GroupM := (Group (M := Media (H := H) (R := R) (Sdp := Sdp) (P := P) * option AvRemux.AvPacket2RtmpRemuxer)).

(** The five ways in: what the group has of each, how its session is deleted and
    how one comes in (a customized one by the name of the stream). *)
Inductive InKind := InRtmp | InRtsp | InCustomize | InRtmpPull | InRtspPull.
Definition in_session (i : InKind) (g : GroupM) : option (list Z) :=
  match i with
  | InRtmp => rtmpPubSession g | InRtsp => rtspPubSession g | InCustomize => fst <$> customizePubSession g
  | InRtmpPull => rtmpSession (pullProxy g) | InRtspPull => rtspSession (pullProxy g)
  end.
Definition leave_in (i : InKind) (k : list Z) : eff GroupM unit :=
  match i with
  | InRtmp => delRtmpPubSession k | InRtsp => delRtspPubSession k | InCustomize => delCustomizePubSession k
  | InRtmpPull | InRtspPull => DelPullSession k
  end.
Definition enter_in (j : InKind) (k : list Z) : eff GroupM (option goerr) := λ g,
  let ret (r : GroupM * option goerr) := (r.1, Ret r.2) in
  match j with
  | InRtmp => ret (AddRtmpPubSession k g) | InRtsp => ret (AddRtspPubSession k g)
  | InCustomize => ('(_, e) ← AddCustomizePubSession k; mret e) g
  | InRtmpPull => ret (AddRtmpPullSession k g) | InRtspPull => ret (AddRtspPullSession k g)
  end.

(** Nothing is in and the caches are empty. *)
Record cleared (m : Media (H := H) (R := R) (Sdp := Sdp) (P := P)) : Prop := {
  cl_flows : flowing [] [] m;
  cl_rtmp : headers (rtmpGopCache (rtmpOut m)) = [];
  cl_flv : headers (httpflvGopCache (flvOut m)) = [];
}.

Lemma delIn_clears (g g2 : GroupM) qr qf : hasPullSession g = false → flowing qr qf (media g).1 → delIn g = (g2, Ret tt) →
  hasInSession g2 = false ∧ cleared (media g2).1.
Proof.
  intros Ep [Hr Hf Hm]. unfold delIn. cbn [md_delIn side GroupMedia]. unfold media_delIn.
  destruct (Group.delIn (media g).1) as [g1 [[]|e|]] eqn:Ed; [|done..]. intros [= <-].
  destruct (delIn_ends _ _ Ed) as (C1 & C2 & _ & _ & C3). set (g3 := set_media g (g1, None)). split.
  - unfold hasInSession, hasPullSession, hasPubSession in *. cbn.
    pose proof (core_stopPush g3) as E. unfold core in E. injection E as _ _ _ E _ _ _ _. by rewrite E.
  - cbn [set_pubs media]. rewrite media_stopPush. cbn [g3 set_media media fst].
    destruct (cleared_cache _ _ Hr) as [F1 F2], (cleared_cache _ _ Hf) as [F3 F4].
    split; [split; [by rewrite C1|by rewrite C2|by apply C3]|by rewrite C1|by rewrite C2].
Qed.

Lemma leave_clears i k (g : GroupM) qr qf : (in_count g ≤ 1)%nat → in_session i g = Some k → flowing qr qf (media g).1 →
  (leave_in i k g).2 = Ret tt → let g2 := (leave_in i k g).1 in hasInSession g2 = false ∧ cleared (media g2).1.
Proof.
  intros Hc Hi Hf.
  assert (Hpub : hasPullSession g = false → leave_in i k g = delIn g →
    (leave_in i k g).2 = Ret tt → let g2 := (leave_in i k g).1 in hasInSession g2 = false ∧ cleared (media g2).1).
  { intros Ep ->. destruct (delIn g) as [g2 [[]|e|]] eqn:Ed; [|done..]. intros _. by apply (delIn_clears g g2 qr qf). }
  assert (Hpull : is_Some (rtmpSession (pullProxy g)) ∨ is_Some (rtspSession (pullProxy g)) → leave_in i k g = DelPullSession k g →
    bool_decide (rtmpSession (pullProxy g) = Some k) || bool_decide (rtspSession (pullProxy g) = Some k) = true →
    (leave_in i k g).2 = Ret tt → let g2 := (leave_in i k g).1 in hasInSession g2 = false ∧ cleared (media g2).1).
  { intros _ -> Hk. unfold DelPullSession, delPullSession, mbind, eff_bind, mret, eff_ret. rewrite Hk.
    destruct (delIn (on_pull resetRelayPullSession g)) as [g2 [[]|e|]] eqn:Ed; [|done..]. intros _.
    by apply (delIn_clears _ g2 qr qf) in Ed. }
  unfold in_count in Hc. unfold hasPullSession in Hpub.
  destruct i; cbn [in_session leave_in] in *.
  1-3: apply Hpub; [rewrite ?Hi in Hc; destruct (rtmpSession (pullProxy g)), (rtspSession (pullProxy g)), (customizePubSession g); cbn in *; done || lia|].
  - unfold delRtmpPubSession. by rewrite bool_decide_eq_true_2.
  - unfold delRtspPubSession. by rewrite bool_decide_eq_true_2.
  - unfold delCustomizePubSession. by rewrite bool_decide_eq_true_2.
  - apply Hpull; [left; by eexists|done|]. by rewrite bool_decide_eq_true_2.
  - apply Hpull; [right; by eexists|done|]. by rewrite (bool_decide_eq_true_2 (rtspSession _ = _)), orb_true_r.
Qed.

Lemma enter_clear (g : GroupM) : cleared (media g).1 →
  cleared (media (addIn g)).1 ∧ cleared (md_startRtspRemuxer (media (addIn g))).1 ∧ cleared (md_startRtmpRemuxer (media (addIn g))).1.
Proof.
  intros [Hf H1 H2]. destruct (media_addIn g) as (key & b & ->). cbn [md_addIn md_startRtspRemuxer md_startRtmpRemuxer side GroupMedia fst snd].
  destruct (start_in_flows b (media g).1 [] [] Hf) as (Hs & S1 & S2). generalize dependent (start_in mpegts waitAudioMs hooked hls flv ts b (media g).1).
  intros m Hs S1 S2. rewrite <- S1 in H1. rewrite <- S2 in H2. destruct rtsp; split_and!; destruct Hs; by split.
Qed.

Lemma enters_in j k (g : GroupM) : hasInSession g = false → cleared (media g).1 →
  ∃ g', enter_in j k g = (g', Ret None) ∧ is_Some (in_session j g') ∧ cleared (media g').1.
Proof.
  intros Hin Hc.
  assert (Ha : ∀ g0 : GroupM, media g0 = media g → cleared (media (addIn g0)).1 ∧ cleared (md_startRtspRemuxer (media (addIn g0))).1 ∧
    cleared (md_startRtmpRemuxer (media (addIn g0))).1) by (intros g0 E; apply enter_clear; by rewrite E).
  assert (Hcore : ∀ g0 : GroupM, rtmpPubSession (addIn g0) = rtmpPubSession g0 ∧ rtspPubSession (addIn g0) = rtspPubSession g0 ∧
    customizePubSession (addIn g0) = customizePubSession g0 ∧ pullProxy (addIn g0) = pullProxy g0).
  { intros g0. pose proof (core_addIn g0) as E. unfold core in E. by injection E. }
  destruct j; cbn [enter_in]; unfold AddRtmpPubSession, AddRtspPubSession, AddCustomizePubSession, AddRtmpPullSession, AddRtspPullSession,
    mbind, eff_bind, putCustomizePubSession; rewrite Hin; cbn [fst snd negb]; eexists; (split; [reflexivity|]);
    match goal with |- context [addIn ?g0] => destruct (Ha g0 eq_refl) as (A1 & A2 & A3); destruct (Hcore g0) as (B1 & B2 & B3 & B4) end;
    (split; [|assumption]); cbn [in_session set_media emit rtmpPubSession rtspPubSession customizePubSession pullProxy];
    rewrite ?B1, ?B2, ?B3, ?B4; cbn; try by eexists.
  all: unfold succeed; case_match; by eexists.
Qed.

(** C22: what a session leaves to the next one: when the session of a group (the
    publisher over RTMP, RTSP or by the API, or the relay pull over RTMP or RTSP) with
    the invariant of all reachable groups ([wf]), and with caches and writers in the
    state that messages leave them in ([flowing]), is deleted, and the remuxer to
    MPEG-TS did not panic at its end, a session of any of these kinds can come in,
    and it starts with empty caches of RTMP and FLV whatever the first one had
    filled them with; so what [group_fans_out] says of the messages of
    a session holds of each one in turn. *)
Theorem group_publisher_turn (g : GroupM) i j k k' qr qf :
  wf g → in_session i g = Some k → flowing qr qf (media g).1 → (leave_in i k g).2 = Ret tt →
  ∃ g', enter_in j k' (leave_in i k g).1 = (g', Ret None) ∧ is_Some (in_session j g') ∧ flowing [] [] (media g').1 ∧
    headers (rtmpGopCache (rtmpOut (media g').1)) = [] ∧ headers (httpflvGopCache (flvOut (media g').1)) = [].
Proof.
  intros Hw Hi Hf Hl. destruct (leave_clears i k g qr qf (wf_one _ Hw) Hi Hf Hl) as [Hin Hc].
  destruct (enters_in j k' _ Hin Hc) as (g' & E & Hj & [C1 C2 C3]). by exists g'.
Qed.
End Turns.

(** ** Witnesses *)

#[local] Instance demo_unique : Unique.
Proof.
  refine {| GenUniqueKey p n := p ++ replicate (Z.to_nat n) 49 |}.
  - intros p n m Hn Hm E%app_inv_head. apply (f_equal length) in E. rewrite !length_replicate in E. lia.
  - intros p n. apply HasPrefix_app.
Defined.
#[local] Existing Instances bele_impl bele_stream_impl buffer_impl bits_impl.
#[local] Existing Instances Group.range_impl Group.no_hls Group.no_sdp Group.no_rtsp Group.no_snapshot.
#[local] Instance demo_side : MediaSide _ :=
  GroupMedia (H := unit) (R := unit) (Sdp := unit) (P := unit) true (Some tt) (Some 100) false None true false.

Abbreviation demo_media := (Group.demo_group, None : option AvRemux.AvPacket2RtmpRemuxer).
Definition demo_start : list (Op (M := Group.Media (H := unit) (R := unit) (Sdp := unit) (P := unit) * option AvRemux.AvPacket2RtmpRemuxer)) := [OTick].
Definition demo_relay : option (list Z) := Some (str "127.0.0.1:19350").
(** A static relay with two players; a tick has started the pull. *)
Definition demo_pull := exec demo_start (NewGroup demo_media 5000 (str "live") (str "test") demo_relay None).
Definition demo_key : list Z := pullingSessionId (pullProxy demo_pull).

Lemma pull_retried_witness :
  let g' := exec ([OBegin demo_key; OStartFailed demo_key] ++ [OAdvance 30249; OTick]) demo_pull in
  let k := pullingSessionId (pullProxy g') in
  isSessionPulling (pullProxy g') = true ∧ attempts demo_pull !! k = None ∧ phase <$> attempts g' !! k = Some Queued.
Proof.
  apply (pull_retried demo_media 5000 (str "live") (str "test") demo_relay None demo_start).
  - lia.
  - vm_compute. reflexivity.
  - split; [vm_compute; reflexivity|vm_compute; reflexivity|left; by vm_compute|vm_compute; reflexivity].
  - left. vm_compute. reflexivity.
Defined.

Lemma pull_backoff_witness :
  let i := mkPullReq (str "rtmp://127.0.0.1/live/test") 10000 (-1) (-1) 0 [] in
  let k := UkPreRtmpPullSession in
  let g := exec [OStartPull i; OBegin k] (NewGroup demo_media 5000 [] (str "test") None None) in
  let g1 := run (OStartFailed k) g in
  backoffMs (pullProxy g1) = Z.min 30000 (Z.max 1000 (2 * backoffMs (pullProxy g))) ∧
  ∀ l, Forall calm l → nowMs (exec l g1) < nowMs g + backoffMs (pullProxy g1) → attempts (exec l g1) = attempts g1.
Proof.
  cbn zeta. apply (pull_backoff demo_media 5000 [] (str "test") None None
    [OStartPull (mkPullReq (str "rtmp://127.0.0.1/live/test") 10000 (-1) (-1) 0 []); OBegin UkPreRtmpPullSession]).
  - lia.
  - vm_compute. reflexivity.
  - vm_compute. reflexivity.
  - intros k' a Hk E. exfalso.
    assert (E' : map_to_list (attempts (exec [OStartPull (mkPullReq (str "rtmp://127.0.0.1/live/test") 10000 (-1) (-1) 0 []);
      OBegin UkPreRtmpPullSession] (NewGroup demo_media 5000 [] (str "test") None None))) =
      [(UkPreRtmpPullSession, mkAttempt true (str "rtmp://127.0.0.1/live/test") 10000 true Starting)]) by (vm_compute; reflexivity).
    apply elem_of_map_to_list in E. rewrite E' in E. apply list_elem_of_singleton in E. congruence.
  - vm_compute. reflexivity.
  - vm_compute. reflexivity.
Defined.

Lemma group_one_in_witness :
  let g := exec [OTick; OAddRtmpPub [1]; OBegin UkPreRtmpPullSession; OAddPull UkPreRtmpPullSession; OAddCustomize [2]]
             (NewGroup demo_media 5000 [] (str "test") demo_relay None) in
  (length (omap id [rtmpPubSession g; rtspPubSession g; fst <$> customizePubSession g;
                    rtmpSession (pullProxy g); rtspSession (pullProxy g)]) ≤ 1)%nat ∧
  (isSessionPulling (pullProxy g) = true →
     ∃ a, attempts g !! pullingSessionId (pullProxy g) = Some a ∧ (phase a = Queued ∨ phase a = Starting)) ∧
  (isSessionPulling (pullProxy g) = false → pullingSessionId (pullProxy g) = []).
Proof.
  apply (group_one_in demo_media 5000 [] (str "test") demo_relay None
    [OTick; OAddRtmpPub [1]; OBegin UkPreRtmpPullSession; OAddPull UkPreRtmpPullSession; OAddCustomize [2]]). lia.
Defined.

(** The publisher [1] is followed by the publisher [2]. *)
Definition demo_turn := run (OAddRtmpPub [1]) (NewGroup demo_media 5000 [] (str "test") None None).
Lemma group_publisher_turn_witness :
  ∃ g', enter_in (P := unit) true (Some tt) (Some 100) false None true false InRtspPull [2] (leave_in true (Some tt) (Some 100) false None true false InRtmp [1] demo_turn).1 = (g', Ret None) ∧
  is_Some (in_session InRtspPull g') ∧ Group.flowing [] [] (media g').1 ∧
  GroupStream.headers (GroupStream.rtmpGopCache (Group.rtmpOut (media g').1)) = [] ∧
  GroupStream.headers (GroupStream.httpflvGopCache (Group.flvOut (media g').1)) = [].
Proof.
  apply (group_publisher_turn true (Some tt) (Some 100) false None true false demo_turn InRtmp InRtspPull [1] [2] [] []).
  - apply (wf_exec [OAddRtmpPub [1]]), wf_NewGroup. lia.
  - vm_compute. reflexivity.
  - destruct Group.demo_flowing as [H1 H2 H3]. split; [exact H1|exact H2|exact H3].
  - vm_compute. reflexivity.
Defined.

(** A publisher comes in while an RTSP pull starts, goes, and the pull is refused
    at SETUP: nothing can come in any more. *)
Example rtsp_pull_stuck_example :
  let i := mkPullReq (str "rtsp://127.0.0.1/live/test") 10000 (-1) (-1) 0 [] in
  let k := UkPreRtspPullSession in
  let g := exec [OStartPull i; OBegin k; OAddPull k; OStartFailed k; OStopPull; OAdvance 3600000; OTick]
             (NewGroup demo_media 5000 [] (str "test") None None) in
  rtspSession (pullProxy g) = Some k ∧ (AddRtmpPubSession [1] g).2 = Some ErrDupInStream.
Proof. vm_compute. done. Qed.
