(* ===== verification/Rtmp2Rtsp.v ===== *)
(** * RTMP messages to a description and RTP packets (src/pkg/remux/rtmp2rtsp.go)

    [FeedRtmpMsg] gathers the headers of the stream, caching the messages before
    they are all there, then gives the description of the stream and the packets
    of its messages: the events of the state are what went to the two callbacks,
    a description on the left, a packet on the right.  The random numbers of the
    packers are arguments.  A failing assertion of the code only logs. *)

From S2P Require Import Prelude Naza GoFloat Bits GoText Base RtmpMsg RtpPacket RtpPack.
From S2P Require Avc Aac AvcSeq HevcSeq Amf0 Metadata Sdp Group.

Definition maxAnalyzeAvMsgSize : Z := 16.
Definition pcmDefaultSampleRate : Z := 8000.
Definition opusDefaultSampleRate : Z := 48000.

(** The payload packers a remuxer makes, and the packer with the one it has. *)
Inductive PayloadKind := KindPcm | KindOpus | KindAac | KindVideo (pt : Z).
Definition Packer : Type := PayloadKind * RtpPacker.

(** A nil slice is [None]. *)
Record Rtmp2RtspRemuxer := mkR2r {
  analyzeDone : bool;
  msgCache : list RtmpMsg;
  r_vps : option (list Z); r_sps : option (list Z); r_pps : option (list Z); r_asc : option (list Z);
  audioPt : Z;
  videoPt : Z;
  audioSampleRate : Z;
  audioPacker : option Packer;
  videoPacker : option Packer;
}.

Definition NewRtmp2RtspRemuxer : Rtmp2RtspRemuxer :=
  mkR2r false [] None None None None AvPacketPtUnknown AvPacketPtUnknown (-1) None None.

Definition set_done (r : Rtmp2RtspRemuxer) : Rtmp2RtspRemuxer :=
  mkR2r true [] (r_vps r) (r_sps r) (r_pps r) (r_asc r) (audioPt r) (videoPt r) (audioSampleRate r)
    (audioPacker r) (videoPacker r).
Definition set_cache (r : Rtmp2RtspRemuxer) (l : list RtmpMsg) : Rtmp2RtspRemuxer :=
  mkR2r (analyzeDone r) l (r_vps r) (r_sps r) (r_pps r) (r_asc r) (audioPt r) (videoPt r) (audioSampleRate r)
    (audioPacker r) (videoPacker r).
Definition set_sets (r : Rtmp2RtspRemuxer) (v s p : option (list Z)) : Rtmp2RtspRemuxer :=
  mkR2r (analyzeDone r) (msgCache r) v s p (r_asc r) (audioPt r) (videoPt r) (audioSampleRate r)
    (audioPacker r) (videoPacker r).
Definition set_asc (r : Rtmp2RtspRemuxer) (a : option (list Z)) : Rtmp2RtspRemuxer :=
  mkR2r (analyzeDone r) (msgCache r) (r_vps r) (r_sps r) (r_pps r) a (audioPt r) (videoPt r) (audioSampleRate r)
    (audioPacker r) (videoPacker r).
Definition set_audio (r : Rtmp2RtspRemuxer) (pt rate : Z) : Rtmp2RtspRemuxer :=
  mkR2r (analyzeDone r) (msgCache r) (r_vps r) (r_sps r) (r_pps r) (r_asc r) pt (videoPt r) rate
    (audioPacker r) (videoPacker r).
Definition set_videoPt (r : Rtmp2RtspRemuxer) (pt : Z) : Rtmp2RtspRemuxer :=
  mkR2r (analyzeDone r) (msgCache r) (r_vps r) (r_sps r) (r_pps r) (r_asc r) (audioPt r) pt (audioSampleRate r)
    (audioPacker r) (videoPacker r).
Definition set_packers (r : Rtmp2RtspRemuxer) (a v : option Packer) : Rtmp2RtspRemuxer :=
  mkR2r (analyzeDone r) (msgCache r) (r_vps r) (r_sps r) (r_pps r) (r_asc r) (audioPt r) (videoPt r)
    (audioSampleRate r) a v.

Section Remux.
Context {B : Bele} {BS : BeleStream} {BI : NazaBits}.
(** [base.LalPackSdp], the variables of the packages, the random numbers. *)
Context (tool : list Z) (TryAnnexb RtspRemuxerAddSpsPps2KeyFrameFlag : bool).
Context (audioSsrc videoSsrc audioSeq videoSeq : Z).

Definition World : Type := Rtmp2RtspRemuxer * list (Sdp.LogicContext + RtpPacket).
Definition here : eff World Rtmp2RtspRemuxer := λ w, (w, Ret w.1).
Definition upd (f : Rtmp2RtspRemuxer → Rtmp2RtspRemuxer) : eff World unit := λ '(r, ev), ((f r, ev), Ret tt).
Definition emit (e : Sdp.LogicContext + RtpPacket) : eff World unit := λ '(r, ev), ((r, ev ++ [e]), Ret tt).
Fixpoint emit_all (l : list RtpPacket) : eff World unit :=
  match l with [] => mret tt | p :: l => _ ← emit (inr p); emit_all l end.

(** ** Packers *)

Definition NewRtpPacker (clockRate ssrc seq : Z) : RtpPacker := mkPacker clockRate ssrc 1200 (u16 seq).

Definition payload_packer (k : PayloadKind) : PackerPayload :=
  match k with
  | KindPcm => pcm_packer
  | KindOpus => opus_packer
  | KindAac => aac_packer
  | KindVideo pt => avchevc_packer pt RtpPackerPayloadAvcHevcTypeAvcc
  end.

Definition packer_Pack (p : Packer) (pkt : AvPacket) : outcome (list RtpPacket * Packer) :=
  '(l, q) ← Pack (PP := payload_packer p.1) p.2 pkt; Ret (l, (p.1, q)).

(** [GetSamplingFrequency] returns -1 with its error. *)
Definition sampling_frequency (c : Aac.AscContext) : Z :=
  match Aac.GetSamplingFrequency c with Ret f => f | _ => -1 end.

Definition newAudioPacker (r : Rtmp2RtspRemuxer) : outcome (option Packer) :=
  if (audioPt r =? AvPacketPtG711A) || (audioPt r =? AvPacketPtG711U) then
    Ret (Some (KindPcm, NewRtpPacker (audioSampleRate r) audioSsrc audioSeq))
  else if audioPt r =? AvPacketPtOpus then
    Ret (Some (KindOpus, NewRtpPacker (audioSampleRate r) audioSsrc audioSeq))
  else if audioPt r =? AvPacketPtAac then
    match r_asc r with
    | None => Ret None
    | Some asc =>
        match Aac.NewAscContext asc with
        | Ret c => Ret (Some (KindAac, NewRtpPacker (sampling_frequency c) audioSsrc audioSeq))
        | Fail _ => Ret None
        | Panic => Panic
        end
    end
  else Ret None.

Definition getAudioPacker : eff World (option Packer) :=
  r ← here;
  match audioPacker r with
  | Some p => mret (Some p)
  | None =>
      p ← lift (newAudioPacker r);
      _ ← upd (λ r, set_packers r p (videoPacker r));
      mret p
  end.

Definition getVideoPacker : eff World (option Packer) :=
  r ← here;
  match r_sps r, videoPacker r with
  | None, _ => mret None
  | Some _, Some p => mret (Some p)
  | Some _, None =>
      let p := (KindVideo (videoPt r), NewRtpPacker 90000 videoSsrc videoSeq) in
      _ ← upd (λ r, set_packers r (audioPacker r) (Some p));
      mret (Some p)
  end.

(** ** Packets of a message *)

Definition audio_payload (msg : RtmpMsg) : outcome (list Z) :=
  c ← AudioCodecId msg;
  if (c =? RtmpSoundFormatG711A) || (c =? RtmpSoundFormatG711U) || (c =? RtmpSoundFormatOpus)
  then go_from (msgPayload msg) 1 else go_from (msgPayload msg) 2.

(** The parameter sets before the unit of a key frame. *)
Definition with_sets (key : outcome bool) (sets : list (option (list Z))) (msg : RtmpMsg) (payload : list Z)
    : outcome (list Z) :=
  k ← key;
  match (if k : bool then mapM id sets else None) with
  | Some l => rest ← go_from (msgPayload msg) 9; Avc.JoinNaluAvcc (l ++ [rest])
  | None => Ret payload
  end.

Definition video_payload (r : Rtmp2RtspRemuxer) (msg : RtmpMsg) : outcome (list Z) :=
  enhanced ← go_and (c ← VideoCodecId msg; Ret (c =? RtmpCodecIdHevc)) (IsEnchanedHevcNalu msg);
  payload ← (if enhanced : bool then index ← GetEnchanedHevcNaluIndex msg; go_from (msgPayload msg) index
             else go_from (msgPayload msg) 5);
  if RtspRemuxerAddSpsPps2KeyFrameFlag then
    payload ← with_sets (IsAvcKeyNalu msg) [r_sps r; r_pps r] msg payload;
    with_sets (IsHevcKeyNalu msg) [r_vps r; r_sps r; r_pps r] msg payload
  else Ret payload.

Definition remux_audio (msg : RtmpMsg) : eff World unit :=
  packer ← getAudioPacker;
  match packer with
  | None => mret tt
  | Some p =>
      r ← here;
      payload ← lift (audio_payload msg);
      '(l, p) ← lift (packer_Pack p (mkAvPacket (audioPt r) (TimestampAbs (msgHeader msg)) 0 payload));
      _ ← upd (λ r, set_packers r (Some p) (videoPacker r));
      emit_all l
  end.

Definition remux_video (msg : RtmpMsg) : eff World unit :=
  packer ← getVideoPacker;
  match packer with
  | None => mret tt
  | Some p =>
      r ← here;
      payload ← lift (video_payload r msg);
      '(l, p) ← lift (packer_Pack p (mkAvPacket (videoPt r) (TimestampAbs (msgHeader msg)) 0 payload));
      _ ← upd (λ r, set_packers r (audioPacker r) (Some p));
      emit_all l
  end.

Definition remux (msg : RtmpMsg) : eff World unit :=
  if MsgTypeId (msgHeader msg) =? RtmpTypeIdAudio then remux_audio msg
  else if MsgTypeId (msgHeader msg) =? RtmpTypeIdVideo then remux_video msg
  else mret tt.
Fixpoint remux_all (l : list RtmpMsg) : eff World unit :=
  match l with [] => mret tt | m :: l => _ ← remux m; remux_all l end.

(** ** Analysis *)

Definition some {A} (o : option A) : bool := match o with Some _ => true | None => false end.

Definition isAnalyzeEnough (r : Rtmp2RtspRemuxer) : bool :=
  if some (r_sps r) && some (r_pps r) && (some (r_asc r) || negb (audioPt r =? AvPacketPtUnknown)) then true
  else len (msgCache r) >=? maxAnalyzeAvMsgSize.

(** The clock of AAC is that of its configuration; whether it could be read. *)
Definition read_asc (r : Rtmp2RtspRemuxer) : outcome (bool * Rtmp2RtspRemuxer) :=
  match r_asc r with
  | None => Ret (true, r)
  | Some asc =>
      let r := set_audio r AvPacketPtAac (audioSampleRate r) in
      match Aac.NewAscContext asc with
      | Panic => Panic
      | Fail _ => Ret (false, set_asc r None)
      | Ret c =>
          match Aac.GetSamplingFrequency c with
          | Panic => Panic
          | Fail _ => Ret (false, set_asc (set_audio r AvPacketPtAac (-1)) None)
          | Ret f => Ret (true, set_audio r AvPacketPtAac f)
          end
      end
  end.

Definition known_video (r : Rtmp2RtspRemuxer) : Rtmp2RtspRemuxer :=
  if some (r_sps r) && some (r_pps r)
  then set_videoPt r (if some (r_vps r) then AvPacketPtHevc else AvPacketPtAvc) else r.

(** A description that cannot be made is the zero one. *)
Definition describe (r : Rtmp2RtspRemuxer) : outcome Sdp.LogicContext :=
  match Sdp.Pack tool (Sdp.mkVideoInfo (videoPt r) (r_vps r) (r_sps r) (r_pps r))
                      (Sdp.mkAudioInfo (audioPt r) (audioSampleRate r) (r_asc r)) with
  | Fail _ => Ret Sdp.zero_logic
  | m => m
  end.

Definition doAnalyze : eff World unit :=
  r ← here;
  if negb (isAnalyzeEnough r) then mret tt else
  '(ok, r) ← lift (read_asc (known_video r));
  _ ← upd (λ _, r);
  if negb ok then mret tt else
  ctx ← lift (describe r);
  _ ← emit (inl ctx);
  _ ← remux_all (msgCache r);
  upd set_done.

(** ** FeedRtmpMsg *)

(** [uint8(f)] on amd64: by way of 32 bits, whose out-of-range value ends in zeros. *)
Definition uint8_of_float64 (bits : Z) : Z :=
  let i := int_of_float64 bits in
  if (- 2 ^ 31 <=? i) && (i <? 2 ^ 31) then u8 i else 0.

Definition feed_metadata (msg : RtmpMsg) (r : Rtmp2RtspRemuxer) : outcome Rtmp2RtspRemuxer :=
  match Metadata.ParseMetadata (msgPayload msg) with
  | Panic => Panic
  | Fail _ => Ret r
  | Ret meta =>
      let r := match Amf0.Find meta (str "audiocodecid") with
               | Some (Amf0.AmfNumber bits) =>
                   let c := uint8_of_float64 bits in
                   if c =? RtmpSoundFormatG711U then set_audio r AvPacketPtG711U (audioSampleRate r)
                   else if c =? RtmpSoundFormatG711A then set_audio r AvPacketPtG711A (audioSampleRate r)
                   else if c =? RtmpSoundFormatOpus then set_audio r AvPacketPtOpus (audioSampleRate r)
                   else r
               | _ => r
               end in
      Ret (match Amf0.Find meta (str "audiosamplerate") with
           | Some (Amf0.AmfNumber bits) => set_audio r (audioPt r) (int_of_float64 bits)
           | _ => r
           end)
  end.

Definition rate_or (r : Rtmp2RtspRemuxer) (d : Z) : Z := if audioSampleRate r <? 0 then d else audioSampleRate r.

(** What the first message of G.711 or Opus tells, when nothing has. *)
Definition audio_codec (msg : RtmpMsg) (r : Rtmp2RtspRemuxer) : outcome Rtmp2RtspRemuxer :=
  if negb (audioPt r =? AvPacketPtUnknown) then Ret r else
  c ← AudioCodecId msg;
  Ret (if c =? RtmpSoundFormatG711U then set_audio r AvPacketPtG711U (rate_or r pcmDefaultSampleRate)
       else if c =? RtmpSoundFormatG711A then set_audio r AvPacketPtG711A (rate_or r pcmDefaultSampleRate)
       else if c =? RtmpSoundFormatOpus then set_audio r AvPacketPtOpus (rate_or r opusDefaultSampleRate)
       else r).

(** [append] of nothing to nil is nil. *)
Definition copied (b : list Z) : option (list Z) := match b with [] => None | _ => Some b end.

(** An error of the parser leaves the sets nil. *)
Definition read_avc (msg : RtmpMsg) (r : Rtmp2RtspRemuxer) : outcome Rtmp2RtspRemuxer :=
  match AvcSeq.ParseSpsPpsFromSeqHeader (msgPayload msg) with
  | Panic => Panic
  | Fail _ => Ret (set_sets r (r_vps r) None None)
  | Ret (sps, pps) => Ret (set_sets r (r_vps r) (copied sps) (copied pps))
  end.

Definition read_hevc (msg : RtmpMsg) (r : Rtmp2RtspRemuxer) : outcome Rtmp2RtspRemuxer :=
  enhanced ← IsEnhanced msg;
  let copy := if enhanced : bool then Some else copied in
  match (if enhanced : bool then HevcSeq.ParseVpsSpsPpsFromEnhancedSeqHeader (msgPayload msg)
         else HevcSeq.ParseVpsSpsPpsFromSeqHeader TryAnnexb (msgPayload msg)) with
  | Panic => Panic
  | Fail _ => Ret (set_sets r None None None)
  | Ret u => Ret (set_sets r (copy (HevcSeq.uVps u)) (copy (HevcSeq.uSps u)) (copy (HevcSeq.uPps u)))
  end.

Definition update_with (f : Rtmp2RtspRemuxer → outcome Rtmp2RtspRemuxer) : eff World unit :=
  r ← here; r ← lift (f r); upd (λ _, r).

(** The headers and, before the analysis is over, the other messages. *)
Definition analyze (msg : RtmpMsg) : eff World unit :=
  avc ← lift (IsAvcKeySeqHeader msg);
  hevc ← (if (avc : bool) then mret false else lift (IsHevcKeySeqHeader msg));
  aac ← (if (avc || hevc)%bool then mret false else lift (IsAacSeqHeader msg));
  _ ← (if (avc : bool) then update_with (read_avc msg)
       else if (hevc : bool) then update_with (read_hevc msg)
       else if (aac : bool) then asc ← lift (go_from (msgPayload msg) 2); upd (λ r, set_asc r (Some asc))
       else upd (λ r, set_cache r (msgCache r ++ [msg])));
  doAnalyze.

Definition is_header (msg : RtmpMsg) : outcome bool :=
  go_or (IsAvcKeySeqHeader msg) (go_or (IsHevcKeySeqHeader msg) (IsAacSeqHeader msg)).

Definition feed_av (msg : RtmpMsg) : eff World unit :=
  r ← here;
  if negb (analyzeDone r) then analyze msg else
  h ← lift (is_header msg);
  if (h : bool) then mret tt else remux msg.

Definition FeedRtmpMsg (msg : RtmpMsg) : eff World unit :=
  if MsgTypeId (msgHeader msg) =? RtmpTypeIdMetadata then update_with (feed_metadata msg)
  else if MsgTypeId (msgHeader msg) =? RtmpTypeIdAudio then
    if len (msgPayload msg) <=? 2 then mret tt
    else _ ← update_with (audio_codec msg); feed_av msg
  else if MsgTypeId (msgHeader msg) =? RtmpTypeIdVideo then
    if len (msgPayload msg) <=? 5 then mret tt else feed_av msg
  else feed_av msg.

(** The remuxer of a group. *)
#[export] Instance remuxer : Group.RtspRemuxer Rtmp2RtspRemuxer Sdp.LogicContext := {
  rtsp_FeedRtmpMsg msg r := FeedRtmpMsg msg (r, []);
}.
#[export] Instance context : GroupStream.SdpContext Sdp.LogicContext := {
  GetVideoPayloadTypeBase := Sdp.GetVideoPayloadTypeBase;
}.
End Remux.
