(* ===== verification/Rtmp2RtspFlow.v ===== *)
(** * The output of the RTMP to RTSP remuxer

    Whatever is fed, one description comes first and each source numbers its
    packets; the video of a stream, sent over RTP and reordered within its units,
    comes out of a container unit by unit. *)

From S2P Require Import Prelude Naza GoFloat Bits GoText Base RtmpMsg RtpSeq RtpPacket RtpList RtpContainer.
From S2P Require Import RtpUnpack RtpPack RtpFlow Rtmp2Rtsp.
From S2P Require Avc Hevc Aac AvcSeq HevcSeq Sdp.

(** ** Specification *)

(** The packets of a source. *)
Definition source (s : Z) (l : list RtpPacket) : list RtpPacket := filter (λ p, Ssrc (Header p) = s) l.

(** Nothing yet, or one description and then packets of the two sources, each
    numbered from where it starts. *)
Inductive described (a v aseq vseq : Z) : list (Sdp.LogicContext + RtpPacket) → Prop :=
| described_not_yet : described a v aseq vseq []
| described_once ctx l :
    Forall (λ p, Ssrc (Header p) = a ∨ Ssrc (Header p) = v) l →
    numbered (u16 aseq) 0 (source a l) → numbered (u16 vseq) 0 (source v l) →
    described a v aseq vseq (inl ctx :: (inr <$> l)).

(** A picture of AVC: its units behind their lengths. *)
Record Frame := mkFrame { frKey : bool; frTime : Z; frUnits : list (list Z) }.

Definition video_msg (ts : Z) (payload : list Z) : RtmpMsg :=
  mkRtmpMsg (mkRtmpHeader 6 (len payload) RtmpTypeIdVideo 1 ts) payload.
Definition audio_msg (ts : Z) (payload : list Z) : RtmpMsg :=
  mkRtmpMsg (mkRtmpHeader 4 (len payload) RtmpTypeIdAudio 1 ts) payload.
Definition frame_msg (f : Frame) : RtmpMsg :=
  video_msg (frTime f) ((if frKey f then 23 else 39) :: [1; 0; 0; 0] ++ Avc.avcc_join (frUnits f)).

(** The units that are sent: not the delimiters. *)
Definition is_delimiter (u : list Z) : bool := match u with h :: _ => h mod 32 =? 9 | [] => false end.
Definition sent_units (f : Frame) : list (Z * list Z) := (λ u, (frTime f, u)) <$> filter (λ u, ¬ is_delimiter u) (frUnits f).

Record frame_ok (f : Frame) : Prop := {
  frame_units : frUnits f ≠ [];
  frame_packable : Forall (λ u, packable AvPacketPtAvc u = true ∧ len u < 4294967280) (frUnits f);
  frame_time : 0 ≤ frTime f ∧ frTime f * 90 < 4294967296;
}.

(** What a unit is after it. *)
Definition received_unit (u : Z * list Z) : AvPacket := mkAvPacket AvPacketPtAvc u.1 0 (be_bytes 4 (len u.2) ++ u.2).

(** ** One description, consecutive numbers *)

Section Output.
Context {B : Bele} {HB : BeleLaws B} {BS : BeleStream} {BI : NazaBits}.
Context (tool : list Z) (TryAnnexb flag : bool) (a v aseq vseq : Z).
Hypothesis Ha : is_u32 a.
Hypothesis Hv : is_u32 v.
Hypothesis Hav : a ≠ v.

(** A packer of the source [s] that has sent the packets [l]. *)
Definition track (s start : Z) (p : option Packer) (l : list RtpPacket) : Prop :=
  numbered start 0 l ∧
  match p with None => l = [] | Some q => ssrc q.2 = s ∧ pseqno q.2 = seq_at start (len l) end.

Definition talking (d : bool) (w : World) : Prop := analyzeDone w.1 = d ∧ ∃ ctx l,
  w.2 = inl ctx :: (inr <$> l) ∧ Forall (λ p, Ssrc (Header p) = a ∨ Ssrc (Header p) = v) l ∧
  track a (u16 aseq) (audioPacker w.1) (source a l) ∧ track v (u16 vseq) (videoPacker w.1) (source v l).
Definition quiet (w : World) : Prop := analyzeDone w.1 = false ∧ w.2 = [] ∧ audioPacker w.1 = None ∧ videoPacker w.1 = None.

Definition before (w : World) : Prop := quiet w ∨ talking true w.
Definition after (w : World) : Prop := quiet w ∨ ∃ d, talking d w.

(** From [P], [after] holds wherever [m] stops, and [Q] when it returns. *)
Definition safe {A} (P : World → Prop) (m : eff World A) (Q : A → World → Prop) : Prop :=
  ∀ w, P w → after (m w).1 ∧ ∀ x, (m w).2 = Ret x → Q x (m w).1.

Lemma safe_bind {A C} P (m : eff World A) (f : A → eff World C) Q R :
  safe P m Q → (∀ x, safe (Q x) (f x) R) → safe P (m ≫= f) R.
Proof.
  intros Hm Hf w Hw. destruct (Hm w Hw) as [H1 H2]. unfold mbind, eff_bind. destruct (m w) as [w' [x|e|]]; [|by split..].
  apply Hf. by apply H2.
Qed.
Lemma safe_ret {A} (P : World → Prop) (Q : A → World → Prop) x : (∀ w, P w → Q x w) → (∀ w, P w → after w) → safe P (mret x) Q.
Proof. intros H H' w Hw. split; [by apply H'|]. intros y [= <-]. by apply H. Qed.
Lemma safe_lift {A} (P : World → Prop) (Q : A → World → Prop) m :
  (∀ w, P w → after w) → (∀ x w, m = Ret x → P w → Q x w) → safe P (lift m) Q.
Proof. intros H H' w Hw. split; [by apply H|]. intros x E. by apply H'. Qed.
Lemma safe_here P : (∀ w, P w → after w) → safe P here (λ r w, P w ∧ w.1 = r).
Proof. intros H w Hw. split; [by apply H|]. by intros x [= <-]. Qed.
Lemma safe_upd (P Q : World → Prop) f : (∀ w, P w → Q (f w.1, w.2)) → (∀ w, Q w → after w) → safe P (upd f) (λ _, Q).
Proof. intros H H' [r ev] Hw. pose proof (H _ Hw). cbn. auto. Qed.
Lemma safe_weaken {A} (P P' : World → Prop) (m : eff World A) Q Q' :
  safe P m Q → (∀ w, P' w → P w) → (∀ x w, Q x w → Q' x w) → safe P' m Q'.
Proof. intros H HP HQ w Hw. destruct (H w (HP w Hw)). auto. Qed.
Lemma safe_pure {A} (P : World → Prop) (φ : Prop) (m : eff World A) Q : (∀ w, P w → φ) → (φ → safe P m Q) → safe P m Q.
Proof. intros H H' w Hw. by apply H'; [apply (H w)|]. Qed.

Lemma talking_after d w : talking d w → after w.
Proof. right. by exists d. Qed.
Local Hint Resolve talking_after : core.

(** ** Packets *)

Lemma emit_all_spec l r ev : emit_all l (r, ev) = ((r, ev ++ (inr <$> l)), Ret tt).
Proof.
  revert ev. induction l as [|p l IH]; intros ev; cbn [emit_all]; [by rewrite app_nil_r|].
  rewrite (eff_bind_Ret _ _ _ (r, ev ++ [inr p]) tt) by done. by rewrite IH, <- app_assoc.
Qed.

Lemma numbered_app s i l m : numbered s i l → numbered s (i + length l) m → numbered s i (l ++ m).
Proof.
  intros Hl Hm j p Hj. destruct (decide (j < length l)%nat) as [H|H].
  - rewrite lookup_app_l in Hj by done. by apply Hl.
  - rewrite lookup_app_r in Hj by lia. rewrite (Hm _ _ Hj). do 2 f_equal. lia.
Qed.

(** Packing continues the numbers of the packer. *)
Lemma pack_track s start q pkt l l' q' : is_u32 s → track s start (Some q) l → packer_Pack q pkt = Ret (l', q') →
  track s start (Some q') (l ++ l') ∧ Forall (λ p, Ssrc (Header p) = s) l'.
Proof.
  intros Hs (Hn & Hq & Hseq). unfold packer_Pack, Pack. destruct (PayloadPack _ _) as [pls| |]; try done. rewrite bind_Ret.
  assert (Hr : is_u16 (pseqno q.2)) by (rewrite Hseq; apply seq_at_range).
  rewrite <- (with_seq_0 q.2) at 1 by done. rewrite pack_payloads_spec by (by rewrite Hq). rewrite bind_Ret.
  intros [= <- <-]. cbn [fst snd]. set (m := sent q.2 pkt 0 pls).
  assert (Hm : ∀ j p, m !! j = Some p → pseq p = seq_at start (len l + Z.of_nat j) ∧ Ssrc (Header p) = s).
  { intros j p Hj. apply sent_lookup in Hj as (pl & mark & _ & _ & ->). cbn. split; [|done].
    rewrite Hseq. unfold seq_at. wrap. }
  split; [split; [|split]|].
  - apply numbered_app; [done|]. intros j p Hj. rewrite (proj1 (Hm j p Hj)). f_equal. lia.
  - done.
  - cbn. unfold m. rewrite Hseq, length_app, length_sent. unfold seq_at. wrap.
  - apply Forall_lookup. intros j p Hj. by apply (Hm j p).
Qed.

Lemma source_app s l m : source s (l ++ m) = source s l ++ source s m.
Proof. apply filter_app. Qed.
Lemma source_all s l : Forall (λ p, Ssrc (Header p) = s) l → source s l = l.
Proof. unfold source. induction 1 as [|p l Hp H IH]; [done|]. by rewrite filter_cons_True, IH. Qed.
Lemma source_none s t l : s ≠ t → Forall (λ p, Ssrc (Header p) = t) l → source s l = [].
Proof.
  unfold source. intros Hst. induction 1 as [|p l Hp H IH]; [done|]. rewrite filter_cons_False, IH; [done|].
  by rewrite Hp.
Qed.

(** The packets of a source go out. *)
Lemma talk_audio d r ev q pkt l q' : talking d (r, ev) → audioPacker r = Some q → packer_Pack q pkt = Ret (l, q') →
  talking d (set_packers r (Some q') (videoPacker r), ev ++ (inr <$> l)).
Proof.
  intros (Hd & ctx & m & Em & Hs & Hta & Htv) Eq E. cbn [fst snd] in *. subst ev. rewrite Eq in Hta.
  destruct (pack_track _ _ _ _ _ _ _ Ha Hta E) as [Ht Hl].
  split; [done|]. exists ctx, (m ++ l). cbn [fst snd set_packers audioPacker videoPacker].
  rewrite !source_app, (source_all a l), (source_none v a l), app_nil_r by (done || lia).
  split; [by rewrite fmap_app|]. split; [|done]. apply Forall_app. split; [done|].
  eapply Forall_impl; [exact Hl|]. auto.
Qed.

Lemma talk_video d r ev q pkt l q' : talking d (r, ev) → videoPacker r = Some q → packer_Pack q pkt = Ret (l, q') →
  talking d (set_packers r (audioPacker r) (Some q'), ev ++ (inr <$> l)).
Proof.
  intros (Hd & ctx & m & Em & Hs & Hta & Htv) Eq E. cbn [fst snd] in *. subst ev. rewrite Eq in Htv.
  destruct (pack_track _ _ _ _ _ _ _ Hv Htv E) as [Ht Hl].
  split; [done|]. exists ctx, (m ++ l). cbn [fst snd set_packers audioPacker videoPacker].
  rewrite !source_app, (source_all v l), (source_none a v l), app_nil_r by done.
  split; [by rewrite fmap_app|]. split; [|done]. apply Forall_app. split; [done|].
  eapply Forall_impl; [exact Hl|]. auto.
Qed.

Local Abbreviation audioPacker_of := (getAudioPacker a aseq).
Local Abbreviation videoPacker_of := (getVideoPacker v vseq).

Lemma newAudioPacker_spec r q : newAudioPacker a aseq r = Ret (Some q) → ssrc q.2 = a ∧ pseqno q.2 = u16 aseq.
Proof.
  unfold newAudioPacker. repeat (case_match; try done); by intros [= <-].
Qed.

Lemma audioPacker_safe d : safe (talking d) audioPacker_of (λ p w, talking d w ∧ audioPacker w.1 = p).
Proof.
  unfold getAudioPacker. apply (safe_bind _ _ _ (λ r w, talking d w ∧ w.1 = r)); [apply safe_here; eauto|]. intros r.
  destruct (audioPacker r) as [q|] eqn:Eq.
  { apply safe_ret; [|naive_solver]. by intros w [H <-]. }
  apply (safe_bind _ _ _ (λ p w, (talking d w ∧ w.1 = r) ∧ newAudioPacker a aseq r = Ret p)).
  { apply safe_lift; [naive_solver|]. by intros p w ->. }
  intros p. apply (safe_bind _ _ _ (λ _ w, talking d w ∧ audioPacker w.1 = p)); [|intros _; apply safe_ret; naive_solver].
  apply safe_upd; [|naive_solver]. intros w [[(Hd & ctx & l & E & Hs & [Hn Hp] & Ht) Er] Ep]. subst r.
  split; [|done]. split; [done|]. exists ctx, l. cbn [fst snd set_packers audioPacker videoPacker].
  rewrite Eq in Hp. repeat (split; [done|]). split; [|done]. split; [done|]. rewrite Hp.
  destruct p as [q|]; [|done]. destruct (newAudioPacker_spec _ _ Ep) as [-> ->]. split; [done|].
  unfold seq_at. cbn. rewrite Z.add_0_r. symmetry. apply u16_small, u16_range.
Qed.

Lemma videoPacker_safe d : safe (talking d) videoPacker_of (λ p w, talking d w ∧ (p = None ∨ videoPacker w.1 = p)).
Proof.
  unfold getVideoPacker. apply (safe_bind _ _ _ (λ r w, talking d w ∧ w.1 = r)); [apply safe_here; eauto|]. intros r.
  destruct (r_sps r) as [sps|]; [|apply safe_ret; naive_solver].
  destruct (videoPacker r) as [q|] eqn:Eq.
  { apply safe_ret; [|naive_solver]. intros w [H <-]. auto. }
  set (p := (KindVideo _, _)).
  apply (safe_bind _ _ _ (λ _ w, talking d w ∧ videoPacker w.1 = Some p)); [|intros _; apply safe_ret; naive_solver].
  apply safe_upd; [|naive_solver]. intros w [(Hd & ctx & l & E & Hs & Ht & [Hn Hp]) Er]. subst r.
  split; [|done]. split; [done|]. exists ctx, l. cbn [fst snd set_packers audioPacker videoPacker].
  rewrite Eq in Hp. split; [done|]. split; [done|]. split; [done|]. split; [done|]. rewrite Hp. split; [done|].
  unfold seq_at. cbn. rewrite Z.add_0_r. symmetry. apply u16_small, u16_range.
Qed.

(** What follows the choice of a packer: its packets go out. *)
Lemma packed_safe d (m : outcome (list RtpPacket * Packer)) (put : Rtmp2RtspRemuxer → Packer → Rtmp2RtspRemuxer) r :
  (∀ ev l q, talking d (r, ev) → m = Ret (l, q) → talking d (put r q, ev ++ (inr <$> l))) →
  safe (λ w, talking d w ∧ w.1 = r)
    ('(l, p) ← lift m; _ ← upd (λ r, put r p); emit_all l) (λ _, talking d).
Proof.
  intros Hput [r' ev] [Hw Er]. cbn in Er. subst r'. destruct m as [[l q]|e|]; [|by split; [eauto|]..].
  rewrite eff_bind_lift. cbv beta iota zeta. rewrite (eff_bind_Ret _ _ _ (put r q, ev) tt) by done.
  rewrite emit_all_spec. cbn [fst snd]. split; [|intros _ _]; eauto.
Qed.

Lemma remux_audio_safe d msg : safe (talking d) (remux_audio a aseq msg) (λ _, talking d).
Proof.
  unfold remux_audio. apply (safe_bind _ _ _ _ _ (audioPacker_safe d)). intros [q|]; [|apply safe_ret; naive_solver].
  apply (safe_bind _ _ _ (λ r w, (talking d w ∧ audioPacker w.1 = Some q) ∧ w.1 = r)); [apply safe_here; naive_solver|].
  intros r. apply (safe_bind _ _ _ (λ _ w, (talking d w ∧ w.1 = r) ∧ audioPacker r = Some q)).
  { apply safe_lift; [naive_solver|]. intros x w _ [[H E] <-]. done. }
  intros payload. apply (safe_pure _ (audioPacker r = Some q)); [naive_solver|]. intros Eq.
  eapply safe_weaken; [apply (packed_safe d _ (λ r q, set_packers r (Some q) (videoPacker r)))|naive_solver|done].
  intros ev l q' Hw E. by eapply talk_audio.
Qed.

Lemma remux_video_safe d msg : safe (talking d) (remux_video flag v vseq msg) (λ _, talking d).
Proof.
  unfold remux_video. apply (safe_bind _ _ _ _ _ (videoPacker_safe d)). intros [q|]; [|apply safe_ret; naive_solver].
  apply (safe_weaken (λ w, talking d w ∧ videoPacker w.1 = Some q) _ _ (λ _, talking d)); [|naive_solver|done].
  apply (safe_bind _ _ _ (λ r w, (talking d w ∧ videoPacker w.1 = Some q) ∧ w.1 = r)); [apply safe_here; naive_solver|].
  intros r. apply (safe_bind _ _ _ (λ _ w, (talking d w ∧ w.1 = r) ∧ videoPacker r = Some q)).
  { apply safe_lift; [naive_solver|]. intros x w _ [[H E] <-]. done. }
  intros payload. apply (safe_pure _ (videoPacker r = Some q)); [naive_solver|]. intros Eq.
  eapply safe_weaken; [apply (packed_safe d _ (λ r q, set_packers r (audioPacker r) (Some q)))|naive_solver|done].
  intros ev l q' Hw E. by eapply talk_video.
Qed.

Local Abbreviation remux := (remux flag a v aseq vseq).
Local Abbreviation remux_all := (remux_all flag a v aseq vseq).

Lemma remux_safe d msg : safe (talking d) (remux msg) (λ _, talking d).
Proof.
  unfold Rtmp2Rtsp.remux. case_match; [apply remux_audio_safe|]. case_match; [apply remux_video_safe|].
  apply safe_ret; eauto.
Qed.
Lemma remux_all_safe d l : safe (talking d) (remux_all l) (λ _, talking d).
Proof.
  induction l as [|m l IH]; cbn [Rtmp2Rtsp.remux_all]; [apply safe_ret; eauto|].
  apply (safe_bind _ _ _ _ _ (remux_safe d m)). by intros [].
Qed.

(** ** Analysis and feeding *)

(** A step on the headers alone. *)
Definition keeps (r r' : Rtmp2RtspRemuxer) : Prop :=
  analyzeDone r' = analyzeDone r ∧ audioPacker r' = audioPacker r ∧ videoPacker r' = videoPacker r.

Lemma keeps_quiet r r' ev : keeps r r' → quiet (r, ev) → quiet (r', ev).
Proof. intros (Hd & Ha' & Hv') (Hq & E & E1 & E2). unfold quiet. cbn in *. by rewrite Hd, Ha', Hv'. Qed.
Lemma keeps_talking d r r' ev : keeps r r' → talking d (r, ev) → talking d (r', ev).
Proof. intros (Hd & Ha' & Hv') H. unfold talking in *. cbn in *. by rewrite Hd, Ha', Hv'. Qed.

Lemma before_after w : before w → after w.
Proof. intros [H|H]; [by left|eauto]. Qed.
Lemma quiet_before w : quiet w → before w.
Proof. by left. Qed.
Lemma quiet_after w : quiet w → after w.
Proof. by left. Qed.
Local Hint Resolve before_after quiet_before quiet_after : core.

Lemma update_safe (P : World → Prop) f : (∀ w, P w → after w) → (∀ r r' ev, keeps r r' → P (r, ev) → P (r', ev)) →
  (∀ r r', f r = Ret r' → keeps r r') → safe P (update_with f) (λ _, P).
Proof.
  intros HP Hk Hf. unfold update_with. apply (safe_bind _ _ _ _ _ (safe_here P HP)). intros r.
  apply (safe_bind _ _ _ (λ r' w, (P w ∧ w.1 = r) ∧ keeps r r')).
  { apply safe_lift; [naive_solver|]. intros r' w E H. split; [done|]. by apply Hf. }
  intros r'. apply safe_upd; [|done]. intros [r1 ev] [[H Er] Hk']. cbn in Er. subst r1. by apply (Hk r).
Qed.
Lemma before_update f : (∀ r r', f r = Ret r' → keeps r r') → safe before (update_with f) (λ _, before).
Proof.
  apply update_safe; [eauto|]. intros r r' ev Hk [H|H]; [left; by eapply keeps_quiet|right; by eapply keeps_talking].
Qed.
Lemma quiet_update f : (∀ r r', f r = Ret r' → keeps r r') → safe quiet (update_with f) (λ _, quiet).
Proof. apply update_safe; [eauto|]. intros r r' ev. apply keeps_quiet. Qed.

Ltac header_step := intros r r'; repeat (case_match; try done); by intros [= <-].

Lemma feed_metadata_keeps msg : ∀ r r', feed_metadata msg r = Ret r' → keeps r r'.
Proof. unfold feed_metadata. header_step. Qed.
Lemma audio_codec_keeps msg : ∀ r r', audio_codec msg r = Ret r' → keeps r r'.
Proof.
  intros r r'. unfold audio_codec. destruct (negb _); [by intros [= <-]|].
  intros (c & _ & E)%bind_Ret_inv. revert E. repeat case_match; by intros [= <-].
Qed.
Lemma read_avc_keeps msg : ∀ r r', read_avc msg r = Ret r' → keeps r r'.
Proof. unfold read_avc. header_step. Qed.
Lemma read_hevc_keeps msg : ∀ r r', read_hevc TryAnnexb msg r = Ret r' → keeps r r'.
Proof.
  intros r r'. unfold read_hevc. intros (e & _ & E)%bind_Ret_inv. revert E. cbv zeta. repeat (case_match; try done); by intros [= <-].
Qed.
Lemma read_asc_keeps r ok r' : read_asc (known_video r) = Ret (ok, r') → keeps r r'.
Proof. unfold read_asc, known_video. repeat (case_match; try done); by intros [= <- <-]. Qed.

Lemma doAnalyze_safe : safe quiet (doAnalyze tool flag a v aseq vseq) (λ _, before).
Proof.
  unfold doAnalyze. apply (safe_bind _ _ _ _ _ (safe_here quiet quiet_after)). intros r.
  destruct (negb _); [apply safe_ret; naive_solver|].
  apply (safe_bind _ _ _ (λ x w, (quiet w ∧ w.1 = r) ∧ keeps r x.2)).
  { apply safe_lift; [naive_solver|]. intros [ok r'] w E H. split; [done|]. by eapply read_asc_keeps. }
  intros [ok r']. apply (safe_bind _ _ _ (λ _, quiet)).
  { apply safe_upd; [|eauto]. intros [r1 ev] [[H Er] Hk]. cbn in Er. subst r1. by apply (keeps_quiet r). }
  intros _. destruct (negb ok); [apply safe_ret; eauto|].
  apply (safe_bind _ _ _ (λ _, quiet)); [apply safe_lift; eauto|]. intros ctx.
  apply (safe_bind _ _ _ (λ _, talking false)).
  { intros [r1 ev] (Hd & E & Ea & Ev). cbn in *. subst ev.
    assert (talking false (r1, [inl ctx])); [|split; [|intros _ _]; eauto].
    split; [done|]. exists ctx, []. cbn. rewrite Ea, Ev. repeat split; try constructor; intros j p Hj; done. }
  intros _. apply (safe_bind _ _ _ _ _ (remux_all_safe false _)). intros _.
  apply safe_upd; [|eauto]. intros [r1 ev] (_ & H). by right.
Qed.

Lemma analyze_safe msg : safe quiet (analyze tool TryAnnexb flag a v aseq vseq msg) (λ _, before).
Proof.
  assert (Hl : ∀ {A} (m : outcome A), safe quiet (lift m) (λ _, quiet)) by (intros; apply safe_lift; eauto).
  assert (Hr : safe quiet (mret false) (λ _, quiet)) by (apply safe_ret; eauto).
  unfold analyze. apply (safe_bind _ _ _ _ _ (Hl _ _)). intros avc.
  apply (safe_bind _ _ _ (λ _, quiet)); [by destruct avc|]. intros hevc.
  apply (safe_bind _ _ _ (λ _, quiet)); [by destruct (avc || hevc)%bool|]. intros aac.
  apply (safe_bind _ _ _ (λ _, quiet)); [|intros _; apply doAnalyze_safe].
  destruct avc; [apply quiet_update, read_avc_keeps|]. destruct hevc; [apply quiet_update, read_hevc_keeps|].
  destruct aac; [apply (safe_bind _ _ _ _ _ (Hl _ _)); intros asc|]; (apply safe_upd; [done|eauto]).
Qed.

Lemma feed_av_safe msg : safe before (feed_av tool TryAnnexb flag a v aseq vseq msg) (λ _, before).
Proof.
  unfold feed_av. apply (safe_bind _ _ _ _ _ (safe_here before before_after)). intros r.
  destruct (analyzeDone r) eqn:Ed; cbn [negb].
  - apply (safe_weaken (talking true) _ _ (λ _, talking true)); [| |by right].
    + apply (safe_bind _ _ _ (λ _, talking true)); [apply safe_lift; eauto|]. intros [|]; [apply safe_ret; eauto|].
      apply remux_safe.
    + intros w [[(Hd & _)|H] Er]; [congruence|done].
  - apply (safe_weaken quiet _ _ (λ _, before)); [apply analyze_safe| |done].
    intros w [[H|(Hd & _)] Er]; [done|congruence].
Qed.

Lemma FeedRtmpMsg_safe msg : safe before (FeedRtmpMsg tool TryAnnexb flag a v aseq vseq msg) (λ _, before).
Proof.
  assert (Hr : safe before (mret ()) (λ _, before)) by (apply safe_ret; eauto).
  unfold FeedRtmpMsg. case_match; [apply before_update, feed_metadata_keeps|].
  case_match; [case_match; [done|]|case_match; [case_match; [done|]|]; apply feed_av_safe].
  apply (safe_bind _ _ _ _ _ (before_update _ (audio_codec_keeps msg))). intros _. apply feed_av_safe.
Qed.

(** The messages one after the other. *)
Definition FeedAll : list RtmpMsg → eff World unit :=
  fix all l := match l with [] => mret tt | m :: l => _ ← FeedRtmpMsg tool TryAnnexb flag a v aseq vseq m; all l end.

Lemma FeedAll_safe l : safe before (FeedAll l) (λ _, before).
Proof.
  induction l as [|m l IH]; cbn [FeedAll]; [apply safe_ret; eauto|].
  apply (safe_bind _ _ _ _ _ (FeedRtmpMsg_safe m)). by intros [].
Qed.
End Output.

(** C29: whatever messages an RTMP to RTSP remuxer is fed, and wherever it stops,
    it has given at most one description, nothing before it, and then packets
    of its audio source and of its video source (two different ones) only, each numbered
    consecutively from the random number its packer began with, wrap-around
    included. *)
Theorem rtsp_output_described {B : Bele} (HB : BeleLaws B) {BS : BeleStream} {BI : NazaBits}
    tool TryAnnexb flag a v aseq vseq msgs :
  is_u32 a → is_u32 v → a ≠ v →
  described a v aseq vseq (FeedAll tool TryAnnexb flag a v aseq vseq msgs (NewRtmp2RtspRemuxer, [])).1.2.
Proof.
  intros Ha Hv Hav.
  destruct (FeedAll_safe tool TryAnnexb flag a v aseq vseq Ha Hv Hav msgs (NewRtmp2RtspRemuxer, [])) as [H _].
  { by left. }
  destruct H as [(_ & -> & _)|(d & _ & ctx & l & -> & Hs & [Hna _] & [Hnv _])]; by constructor.
Qed.

(** ** A stream of units *)

Section Stream.
Context {B : Bele} {HB : BeleLaws B}.
Variables (clock mx : Z).

(** The packets of units of AVC sent one after the other from the number [s]. *)
Inductive carried : Z → list (Z * list Z) → list (list RtpPacket) → Prop :=
| carried_nil s : carried s [] []
| carried_cons s ts u pls pkts us gs :
    packable AvPacketPtAvc u = true → len u < 4294967280 → PackNal (pack_fuel u) AvPacketPtAvc u mx = Ret pls →
    carries s clock ts pls pkts → carried (seq_at s (len pls)) us gs → carried s ((ts, u) :: us) (pkts :: gs).

Lemma carried_app s us gs us' gs' : is_u16 s → carried s us gs → carried (seq_at s (len (concat gs))) us' gs' →
  carried s (us ++ us') (gs ++ gs').
Proof.
  intros Hs H. revert us' gs'. induction H as [s|s ts u pls pkts us gs Hp Hl E [El Hc] H IH]; intros us' gs' H'.
  - cbn in H'. unfold seq_at in H'. rewrite Z.add_0_r, u16_small in H' by done. done.
  - cbn [app]. econstructor; eauto; [by split|]. apply IH; [apply seq_at_range|].
    replace (seq_at (seq_at s (len pls)) (len (concat gs))) with (seq_at s (len (concat (pkts :: gs)))); [done|].
    cbn [concat]. rewrite length_app, El. unfold seq_at. wrap.
Qed.

Lemma feed_all_app {P : UnpackerProtocol} l l1 out1 a b :
  feed_all l a = Ret (l1, out1) → feed_all l (a ++ b) = ('(l2, out2) ← feed_all l1 b; Ret (l2, out1 ++ out2)).
Proof.
  revert l out1. induction a as [|p a IH]; intros l out1; cbn [feed_all app].
  - intros [= <- <-]. by destruct (feed_all l b) as [[]| |].
  - destruct (Feed l p) as [[l' o]| |]; try done. rewrite !bind_Ret.
    destruct (feed_all l' a) as [[l2 o2]| |] eqn:E; try done. rewrite bind_Ret. intros [= <- <-].
    rewrite (IH _ _ E). destruct (feed_all l2 b) as [[]| |]; try done. rewrite !bind_Ret. by rewrite app_assoc.
Qed.

(** Each unit's packets may arrive in any order. *)
Lemma carried_received n : fu_size AvPacketPtAvc < mx → ∀ s us gs, carried s us gs → ∀ l gs',
  ready s n l → Forall2 (≡ₚ) gs' gs → Forall (λ g : list RtpPacket, len g ≤ 32767 ∧ len g ≤ n) gs →
  ∃ l', feed_all (P := RtpUnpackerAvcHevc AvPacketPtAvc clock) l (concat gs') = Ret (l', received_unit <$> us) ∧ items l' = [].
Proof.
  intros Hmx s us gs H. induction H as [s|s ts u pls pkts us gs Hp Hl E Hc H IH]; intros l gs' Hr Hperm Hn.
  { apply Forall2_nil_inv_r in Hperm as ->. exists l. split; [done|apply Hr]. }
  apply Forall2_cons_inv_r in Hperm as (g & gs1 & Hg & Hperm & ->). apply Forall_cons in Hn as [[H32 Hn] Hns].
  destruct Hc as [El Hc]. rewrite El in H32, Hn.
  destruct (unit_received s clock mx AvPacketPtAvc ts u n l pls pkts g (or_introl eq_refl) Hp Hmx Hl E (conj El Hc) Hr
    ltac:(lia) (or_intror H32) Hn Hg) as (l1 & E1 & Hr1).
  destruct (IH l1 gs1 Hr1 Hperm Hns) as (l' & E2 & Hi). exists l'. split; [|done].
  cbn [concat]. rewrite (feed_all_app _ _ _ _ _ E1), E2. done.
Qed.

(** The packets as they are sent are parsed back. *)
Lemma carried_parse s us gs : mx < 4294967280 → 2 < mx → carried s us gs → ∀ gs', Forall2 (≡ₚ) gs' gs →
  mapM ParseRtpPacket (Raw <$> concat gs') = Ret (concat gs').
Proof.
  intros Hmx Hmx2 H gs' Hperm. apply mapM_parse. revert gs' Hperm.
  induction H as [s|s ts u pls pkts us gs Hp Hl E [El Hc] H IH]; intros gs' Hperm.
  { apply Forall2_nil_inv_r in Hperm as ->. constructor. }
  apply Forall2_cons_inv_r in Hperm as (g & gs1 & Hg & Hperm & ->). cbn [concat]. apply Forall_app. split; [|by apply IH].
  rewrite Hg. apply Forall_lookup. intros j p Hj. destruct (Hc j p Hj) as (pl & Hpl & _ & _ & _ & Hparse).
  pose proof (unit_sendable AvPacketPtAvc u mx pls (or_introl eq_refl) Hp (conj Hmx2 Hmx) Hl E) as Hs.
  rewrite Forall_lookup in Hs. destruct (Hs _ _ Hpl). by apply Hparse.
Qed.
Lemma carries_split s ts pls rest pkts : carries s clock ts (pls ++ rest) pkts →
  ∃ g pkts', pkts = g ++ pkts' ∧ carries s clock ts pls g ∧ carries (seq_at s (len pls)) clock ts rest pkts'.
Proof.
  intros [El Hc]. rewrite length_app in El. exists (take (length pls) pkts), (drop (length pls) pkts).
  split; [by rewrite take_drop|]. split; split.
  - rewrite length_take. lia.
  - intros j p Hj. apply lookup_take_Some in Hj as [Hj Hlt]. destruct (Hc j p Hj) as (pl & Hpl & Hrest).
    rewrite lookup_app_l in Hpl by done. eauto.
  - rewrite length_drop. lia.
  - intros j p Hj. rewrite lookup_drop in Hj. destruct (Hc _ p Hj) as (pl & Hpl & Hsq & Hrest).
    rewrite lookup_app_r in Hpl by lia. replace (length pls + j - length pls)%nat with j in Hpl by lia.
    exists pl. split; [done|]. split; [|done]. rewrite Hsq. unfold seq_at. wrap.
Qed.

Lemma carried_units ts : ∀ us plss, Forall2 (λ u pls, PackNal (pack_fuel u) AvPacketPtAvc u mx = Ret pls) us plss →
  Forall (λ u, packable AvPacketPtAvc u = true ∧ len u < 4294967280) us → ∀ s pkts,
  carries s clock ts (concat plss) pkts →
  ∃ gs, pkts = concat gs ∧ carried s ((λ u, (ts, u)) <$> us) gs.
Proof.
  induction 1 as [|u pls us plss E H IH]; intros Hus s pkts Hc.
  { destruct Hc as [El _]. destruct pkts; [|done]. exists []. split; [done|constructor]. }
  apply Forall_cons in Hus as [[Hp Hl] Hus]. cbn [concat] in Hc.
  destruct (carries_split _ _ _ _ _ Hc) as (g & pkts' & -> & Hg & Hrest).
  destruct (IH Hus _ _ Hrest) as (gs & -> & Hgs). exists (g :: gs). split; [done|]. econstructor; eauto.
Qed.
End Stream.

(** ** The packets of a picture *)

Lemma packable_head u : packable AvPacketPtAvc u = true → ∃ h t, u = h :: t ∧ Avc.ParseNaluType h = h mod 32.
Proof.
  destruct u as [|h t]; [done|]. intros _. exists h, t. split; [done|]. unfold Avc.ParseNaluType.
  change 31 with (Z.ones 5). by rewrite Z.land_ones.
Qed.

Lemma pack_nals_spec mx us : fu_size AvPacketPtAvc < mx → Forall (λ u, packable AvPacketPtAvc u = true) us →
  ∃ plss, pack_nals AvPacketPtAvc mx us = Ret (concat plss) ∧
    Forall2 (λ u pls, PackNal (pack_fuel u) AvPacketPtAvc u mx = Ret pls) (filter (λ u, ¬ is_delimiter u) us) plss.
Proof.
  intros Hmx. induction 1 as [|u us Hp H IH]; [by exists []|]. destruct IH as (plss & E & IH).
  destruct (packable_head u Hp) as (h & t & -> & Hh). cbn [pack_nals]. rewrite go_index_head, bind_Ret by done.
  rewrite Z.eqb_refl, Hh. change Avc.NaluTypeAud with 9. cbv zeta.
  destruct (h mod 32 =? 9) eqn:Ed.
  - exists plss. split; [done|]. rewrite filter_cons_False; [done|]. cbn. rewrite Ed. auto.
  - destruct (PackNal_cases _ (or_introl eq_refl) (h :: t) mx Hp Hmx) as (pls & Epack & _).
    exists (pls :: plss). rewrite Epack, bind_Ret, E, bind_Ret. split; [done|].
    rewrite filter_cons_True by (cbn; rewrite Ed; auto). by constructor.
Qed.

Section Picture.
Context {B : Bele} {HB : BeleLaws B} {BS : BeleStream} {BI : NazaBits}.

(** A video packer of the remuxer. *)
Definition video_packer (v s : Z) : Packer := (KindVideo AvPacketPtAvc, mkPacker 90000 v 1200 s).

Lemma frame_packed v s f : is_u32 v → is_u16 s → frame_ok f →
  ∃ gs, packer_Pack (video_packer v s) (mkAvPacket AvPacketPtAvc (frTime f) 0 (Avc.avcc_join (frUnits f))) =
      Ret (concat gs, video_packer v (seq_at s (len (concat gs)))) ∧
    carried 90000 1200 s (sent_units f) gs.
Proof.
  intros Hv Hs [Hne Hu Ht]. set (av := mkAvPacket _ _ _ _). set (r := mkPacker 90000 v 1200 s).
  assert (Hp : Forall (λ u, packable AvPacketPtAvc u = true) (frUnits f)) by (eapply Forall_impl; [exact Hu|]; by intros u []).
  destruct (pack_nals_spec 1200 (frUnits f) ltac:(done) Hp) as (plss & E & H).
  assert (Esplit : Avc.SplitNaluAvcc (Some (Avc.avcc_join (frUnits f))) = Ret (Some (frUnits f, None))).
  { apply Avc.SplitNaluAvcc_join_aux; [done|]. eapply Forall_impl; [exact Hu|]. intros u [Hpu Hl].
    destruct (packable_head u Hpu) as (h & t & -> & _). split; [done|]. lia. }
  assert (Hc : carries s 90000 (frTime f) (concat plss) (sent r av 0 (concat plss))).
  { apply (sent_carries r AvPacketPtAvc (frTime f) 90 (Avc.avcc_join (frUnits f)) (concat plss)); try done.
    - by left.
    - lia. }
  destruct (carried_units 90000 1200 (frTime f) _ _ H) with (s := s) (pkts := sent r av 0 (concat plss))
    as (gs & Egs & Hgs); [|done|].
  { apply Forall_forall. intros u [_ Hin]%list_elem_of_filter. rewrite Forall_forall in Hu. by apply Hu. }
  exists gs. split; [|done]. unfold packer_Pack. change (fst (video_packer v s)) with (KindVideo AvPacketPtAvc).
  change (snd (video_packer v s)) with r. unfold Pack, PayloadPack, payload_packer, avchevc_packer, avchevc_Pack.
  change (MaxPayloadSize r <=? 0) with false. change (Payload av) with (Avc.avcc_join (frUnits f)). rewrite Z.eqb_refl.
  rewrite Esplit, bind_Ret. cbn [nals_or_none]. rewrite bind_Ret. change (MaxPayloadSize r) with 1200. rewrite E, bind_Ret.
  rewrite <- (with_seq_0 r) at 1 by done. rewrite pack_payloads_spec, bind_Ret by done. rewrite Egs.
  do 3 f_equal. rewrite <- Egs, length_sent. done.
Qed.
End Picture.

(** ** The remuxer on a stream of AVC and AAC *)

Section Run.
Context {B : Bele} {HB : BeleLaws B} {BS : BeleStream} {BI : NazaBits}.
Variables (tool : list Z) (TryAnnexb : bool) (a v aseq vseq : Z).
Variables (sps pps asc : list Z) (rate : Z) (c : Aac.AscContext).
Hypothesis Hv : is_u32 v.
Hypothesis Easc : Aac.NewAscContext asc = Ret c.
Hypothesis Erate : Aac.GetSamplingFrequency c = Ret rate.

Local Abbreviation remux := (remux false a v aseq vseq).
Local Abbreviation remux_all := (remux_all false a v aseq vseq).
Local Abbreviation Feed := (FeedRtmpMsg tool TryAnnexb false a v aseq vseq).
Local Abbreviation Feed_all := (FeedAll tool TryAnnexb false a v aseq vseq).

(** The sets are known, the configuration is not. *)
Definition waiting (l : list RtmpMsg) : Rtmp2RtspRemuxer :=
  mkR2r false l None (Some sps) (Some pps) None AvPacketPtUnknown AvPacketPtUnknown (-1) None None.
(** Everything is known. *)
Definition running (d : bool) (l : list RtmpMsg) (p : option Packer) : Rtmp2RtspRemuxer :=
  mkR2r d l None (Some sps) (Some pps) (Some asc) AvPacketPtAac AvPacketPtAvc rate None p.
(** The next packet has the number [s]. *)
Definition next (p : option Packer) (s : Z) : Prop :=
  is_u16 s ∧ (p = Some (video_packer v s) ∨ p = None ∧ s = u16 vseq).

Lemma frame_bytes f : frame_ok f → ∃ b rest, msgPayload (frame_msg f) = b :: 1 :: rest ∧ (b = 23 ∨ b = 39) ∧ 5 < len (msgPayload (frame_msg f)).
Proof.
  intros [Hne _ _]. eexists _, _. split; [reflexivity|]. split; [destruct (frKey f); auto|].
  cbn [msgPayload frame_msg video_msg]. pose proof (Avc.avcc_join_length (frUnits f)). destruct (frUnits f); [done|].
  revert H. cbn [length]. len_lia.
Qed.

Lemma frame_tests f : frame_ok f →
  IsAvcKeySeqHeader (frame_msg f) = Ret false ∧ IsHevcKeySeqHeader (frame_msg f) = Ret false ∧
  IsAacSeqHeader (frame_msg f) = Ret false ∧ VideoCodecId (frame_msg f) = Ret RtmpCodecIdAvc.
Proof.
  intros Hf. destruct (frame_bytes f Hf) as (b & rest & E & Hb & _).
  unfold IsAvcKeySeqHeader, IsHevcKeySeqHeader, IsAacSeqHeader, VideoCodecId, IsEnhanced, at_is. rewrite E.
  rewrite !go_index_head by done. rewrite !go_index_cons_r, !go_index_head by done. by destruct Hb as [-> | ->].
Qed.

Lemma remux_frame d l p s f ev : next p s → frame_ok f →
  ∃ gs, remux (frame_msg f) (running d l p, ev) =
      ((running d l (Some (video_packer v (seq_at s (len (concat gs))))), ev ++ (inr <$> concat gs)), Ret tt) ∧
    carried 90000 1200 s (sent_units f) gs.
Proof.
  intros [Hs Hp] Hf. destruct (frame_packed v s f Hv Hs Hf) as (gs & E & Hgs). exists gs. split; [|done].
  unfold Rtmp2Rtsp.remux. change (MsgTypeId _ =? RtmpTypeIdAudio) with false. rewrite Z.eqb_refl. unfold remux_video.
  assert (Eg : getVideoPacker v vseq (running d l p, ev) =
    ((running d l (Some (video_packer v s)), ev), Ret (Some (video_packer v s)))) by by destruct Hp as [-> | [-> ->]].
  rewrite (eff_bind_Ret _ _ _ _ _ Eg). rewrite (eff_bind_Ret here _ _ _ _ eq_refl).
  assert (Ey : video_payload false (running d l (Some (video_packer v s))) (frame_msg f) = Ret (Avc.avcc_join (frUnits f))).
  { unfold video_payload, go_and. destruct (frame_tests f Hf) as (_ & _ & _ & ->). rewrite !bind_Ret.
    change (RtmpCodecIdAvc =? RtmpCodecIdHevc) with false. cbv iota. rewrite ?bind_Ret. cbv iota.
    change (msgPayload (frame_msg f)) with (((if frKey f then 23 else 39) :: [1; 0; 0; 0]) ++ Avc.avcc_join (frUnits f)).
    by rewrite go_from_app, bind_Ret. }
  cbn [fst]. rewrite Ey, eff_bind_lift.
  change (mkAvPacket (videoPt _) (TimestampAbs _) 0 _) with (mkAvPacket AvPacketPtAvc (frTime f) 0 (Avc.avcc_join (frUnits f))).
  rewrite E, eff_bind_lift. cbn [fst snd].
  rewrite (eff_bind_Ret (upd _) _ _ (running d l (Some (video_packer v (seq_at s (len (concat gs))))), ev) tt) by done.
  by rewrite emit_all_spec.
Qed.

Lemma remux_frames d l : ∀ fs p s ev, next p s → Forall frame_ok fs →
  ∃ gs p', remux_all (frame_msg <$> fs) (running d l p, ev) = ((running d l p', ev ++ (inr <$> concat gs)), Ret tt) ∧
    carried 90000 1200 s (concat (sent_units <$> fs)) gs ∧ next p' (seq_at s (len (concat gs))).
Proof.
  induction fs as [|f fs IH]; intros p s ev Hn Hfs.
  { exists [], p. cbn. rewrite app_nil_r. split; [done|]. split; [constructor|]. unfold seq_at. rewrite Z.add_0_r.
    destruct Hn as [Hs Hn]. by rewrite u16_small. }
  apply Forall_cons in Hfs as [Hf Hfs]. destruct (remux_frame d l p s f ev Hn Hf) as (gs1 & E1 & H1).
  destruct (IH (Some (video_packer v (seq_at s (len (concat gs1))))) (seq_at s (len (concat gs1)))
    (ev ++ (inr <$> concat gs1))) as (gs2 & p' & E2 & H2 & Hn2); [split; [apply seq_at_range|by left]|done|].
  exists (gs1 ++ gs2), p'. cbn [fmap list_fmap Rtmp2Rtsp.remux_all concat]. rewrite (eff_bind_Ret _ _ _ _ _ E1).
  rewrite concat_app, fmap_app, length_app. split; [by rewrite E2, <- app_assoc|].
  split; [apply carried_app; [apply Hn|done|done]|].
  replace (seq_at s _) with (seq_at (seq_at s (len (concat gs1))) (len (concat gs2))); [done|]. unfold seq_at. wrap.
Qed.

(** Feeding a picture, while the configuration is missing and afterwards. *)
Lemma feed_frame f r ev : frame_ok f → Feed (frame_msg f) (r, ev) = feed_av tool TryAnnexb false a v aseq vseq (frame_msg f) (r, ev).
Proof.
  intros Hf. destruct (frame_bytes f Hf) as (b & rest & E & _ & Hl). unfold FeedRtmpMsg.
  change (MsgTypeId _ =? RtmpTypeIdMetadata) with false. change (MsgTypeId _ =? RtmpTypeIdAudio) with false.
  rewrite Z.eqb_refl. rewrite (proj2 (Z.leb_gt _ _)) by lia. done.
Qed.

Lemma feed_frame_running f p ev : frame_ok f → Feed (frame_msg f) (running true [] p, ev) = remux (frame_msg f) (running true [] p, ev).
Proof.
  intros Hf. rewrite feed_frame by done. unfold feed_av. rewrite (eff_bind_Ret here _ _ _ _ eq_refl). cbn [analyzeDone running fst negb].
  unfold is_header, go_or. destruct (frame_tests f Hf) as (-> & -> & -> & _). rewrite !bind_Ret. by rewrite eff_bind_lift.
Qed.

Lemma feed_frame_waiting f l : frame_ok f → len l + 1 < 16 →
  Feed (frame_msg f) (waiting l, []) = ((waiting (l ++ [frame_msg f]), []), Ret tt).
Proof.
  intros Hf Hl. rewrite feed_frame by done. unfold feed_av. rewrite (eff_bind_Ret here _ _ _ _ eq_refl).
  cbn [analyzeDone waiting fst negb]. unfold analyze. destruct (frame_tests f Hf) as (-> & -> & -> & _).
  rewrite eff_bind_lift. cbv iota. rewrite eff_bind_lift. cbn [orb]. rewrite eff_bind_lift. cbv iota.
  rewrite (eff_bind_Ret (upd _) _ _ (waiting (l ++ [frame_msg f]), []) tt) by done. unfold doAnalyze. rewrite (eff_bind_Ret here _ _ _ _ eq_refl).
  unfold isAnalyzeEnough. cbn [waiting set_cache r_sps r_pps r_asc audioPt msgCache fst some]. 
  change (false || _) with false. cbn [andb]. rewrite Z.geb_leb, (proj2 (Z.leb_gt _ _)); [done|].
  rewrite length_app. unfold maxAnalyzeAvMsgSize. cbn. lia.
Qed.

Lemma feed_frames_waiting : ∀ fs l, Forall frame_ok fs → len l + len fs < 16 →
  Feed_all (frame_msg <$> fs) (waiting l, []) = ((waiting (l ++ (frame_msg <$> fs)), []), Ret tt).
Proof.
  induction fs as [|f fs IH]; intros l Hfs Hl; cbn [fmap list_fmap FeedAll]; [by rewrite app_nil_r|].
  apply Forall_cons in Hfs as [Hf Hfs]. rewrite (eff_bind_Ret _ _ _ _ _ (feed_frame_waiting f l Hf ltac:(len_lia))).
  rewrite IH; [by rewrite <- app_assoc|done|]. rewrite length_app. revert Hl. len_lia.
Qed.

Lemma feed_frames_running : ∀ fs p ev, (∃ s, next p s) → Forall frame_ok fs →
  Feed_all (frame_msg <$> fs) (running true [] p, ev) = remux_all (frame_msg <$> fs) (running true [] p, ev).
Proof.
  induction fs as [|f fs IH]; intros p ev [s Hn] Hfs; [done|]. apply Forall_cons in Hfs as [Hf Hfs].
  cbn [fmap list_fmap FeedAll Rtmp2Rtsp.remux_all]. destruct (remux_frame true [] p s f ev Hn Hf) as (gs & E & _).
  rewrite (eff_bind_Ret (Feed _) _ _ _ _ (eq_trans (feed_frame_running f p ev Hf) E)), (eff_bind_Ret _ _ _ _ _ E).
  apply IH; [|done]. eexists. split; [apply seq_at_range|by left].
Qed.

Lemma feed_avc_header ts fixed tail : length fixed = 5%nat → sps ≠ [] → pps ≠ [] → is_u16 (len sps) → is_u16 (len pps) →
  Feed (video_msg ts (Avc.avc_seq_header fixed sps pps tail)) (NewRtmp2RtspRemuxer, []) = ((waiting [], []), Ret tt).
Proof.
  intros Hf Hs Hp Ls Lp. set (m := video_msg _ _).
  assert (Eh : IsAvcKeySeqHeader m = Ret true) by reflexivity.
  assert (Er : read_avc m NewRtmp2RtspRemuxer = Ret (waiting [])).
  { unfold read_avc, AvcSeq.ParseSpsPpsFromSeqHeader. cbn [m msgPayload video_msg].
    rewrite Avc.ParseSpsPps_layout by done.
    assert (Ec : ∀ b, b ≠ [] → copied b = Some b) by (by intros []). by rewrite !Ec. }
  unfold FeedRtmpMsg. change (MsgTypeId _ =? RtmpTypeIdMetadata) with false. change (MsgTypeId _ =? RtmpTypeIdAudio) with false.
  rewrite Z.eqb_refl. rewrite (proj2 (Z.leb_gt _ _)).
  2:{ cbn [m msgPayload video_msg]. unfold Avc.avc_seq_header. len_lia. }
  unfold feed_av. rewrite (eff_bind_Ret here _ _ _ _ eq_refl). cbn [fst NewRtmp2RtspRemuxer analyzeDone negb]. unfold analyze.
  rewrite Eh, eff_bind_lift. cbv iota.
 rewrite (eff_bind_Ret _ _ _ ((NewRtmp2RtspRemuxer, []) : World) false) by done. cbn [orb].
  rewrite (eff_bind_Ret _ _ _ ((NewRtmp2RtspRemuxer, []) : World) false) by done.
  rewrite (eff_bind_Ret (update_with _) _ _ (waiting [], []) tt); [reflexivity|].
  unfold update_with. rewrite (eff_bind_Ret here _ _ _ _ eq_refl). cbn [fst]. by rewrite Er, eff_bind_lift.
Qed.

(** The configuration ends the analysis. *)
Lemma feed_asc ts l ctx : 0 < len asc → describe tool (running false l None) = Ret ctx →
  Feed (audio_msg ts (175 :: 0 :: asc)) (waiting l, []) =
    (_ ← remux_all l; upd set_done) (running false l None, [inl ctx]).
Proof.
  intros Hl Ectx. set (m := audio_msg _ _).
  unfold FeedRtmpMsg. change (MsgTypeId _ =? RtmpTypeIdMetadata) with false. rewrite Z.eqb_refl.
  rewrite (proj2 (Z.leb_gt _ _)) by (cbn [m msgPayload audio_msg]; revert Hl; len_lia).
  rewrite (eff_bind_Ret (update_with _) _ _ (waiting l, []) tt) by done.
  unfold feed_av. rewrite (eff_bind_Ret here _ _ _ _ eq_refl). cbn [fst waiting analyzeDone negb]. unfold analyze.
  change (IsAvcKeySeqHeader m) with (Ret false). change (IsHevcKeySeqHeader m) with (Ret false). change (IsAacSeqHeader m) with (Ret true).
  rewrite eff_bind_lift. cbv iota. rewrite eff_bind_lift. cbn [orb]. rewrite eff_bind_lift. cbv iota.
  assert (Ea : go_from (msgPayload m) 2 = Ret asc) by (apply (go_from_app [175; 0]); done).
  set (r1 := set_asc (waiting l) (Some asc)).
  rewrite (eff_bind_Ret _ _ ((waiting l, []) : World) ((r1, []) : World) tt) by (by rewrite Ea, eff_bind_lift).
  unfold doAnalyze. rewrite (eff_bind_Ret here _ _ _ _ eq_refl). cbn [fst]. change (isAnalyzeEnough r1) with true. cbn [negb].
  assert (Er : read_asc (known_video r1) = Ret (true, running false l None)).
  { unfold read_asc, known_video. cbn. by rewrite Easc, Erate. }
  rewrite Er, eff_bind_lift. cbv beta iota. rewrite (eff_bind_Ret (upd _) _ _ (running false l None, []) tt) by done.
  cbn [negb]. rewrite Ectx, eff_bind_lift. by rewrite (eff_bind_Ret (emit _) _ _ (running false l None, [inl ctx]) tt).
Qed.

Lemma FeedAll_app l1 l2 w w' : Feed_all l1 w = (w', Ret tt) → Feed_all (l1 ++ l2) w = Feed_all l2 w'.
Proof.
  revert w. induction l1 as [|m l1 IH]; intros w; cbn [FeedAll app]; [by intros [= <-]|].
  unfold mbind, eff_bind. destruct (Feed m w) as [w1 [[]| |]]; try done. apply IH.
Qed.
Lemma FeedAll_one m w w' : Feed m w = (w', Ret tt) → Feed_all [m] w = (w', Ret tt).
Proof. intros E. cbn [FeedAll]. by rewrite (eff_bind_Ret _ _ _ _ _ E). Qed.

Lemma rtsp_feed_stream tv ta fixed tail fs1 fs2 ctx : length fixed = 5%nat → sps ≠ [] → pps ≠ [] → is_u16 (len sps) → is_u16 (len pps) →
  0 < len asc → (∀ l, describe tool (running false l None) = Ret ctx) → Forall frame_ok (fs1 ++ fs2) → len fs1 < 16 →
  ∃ r gs, Feed_all (video_msg tv (Avc.avc_seq_header fixed sps pps tail) :: (frame_msg <$> fs1) ++
            audio_msg ta (175 :: 0 :: asc) :: (frame_msg <$> fs2)) (NewRtmp2RtspRemuxer, []) =
      ((r, inl ctx :: (inr <$> concat gs)), Ret tt) ∧
    carried 90000 1200 (u16 vseq) (concat (sent_units <$> (fs1 ++ fs2))) gs.
Proof.
  intros Hf Hs Hp Ls Lp La Ectx [H1 H2]%Forall_app Hl1.
  destruct (remux_frames false (frame_msg <$> fs1) fs1 None (u16 vseq) [inl ctx]) as (gs1 & p1 & E1 & C1 & N1);
    [split; [apply u16_range|by right]|done|].
  destruct (remux_frames true [] fs2 p1 _ ([inl ctx] ++ (inr <$> concat gs1)) N1 H2) as (gs2 & p2 & E2 & C2 & N2).
  exists (running true [] p2), (gs1 ++ gs2). rewrite fmap_app, !concat_app. split; [|apply carried_app; [apply u16_range|done..]].
  cbn [FeedAll]. rewrite (eff_bind_Ret _ _ _ _ _ (feed_avc_header tv fixed tail Hf Hs Hp Ls Lp)).
  change ((fix all l := match l with [] => mret tt | m :: l => _ ← Feed m; all l end)) with Feed_all.
  rewrite (FeedAll_app _ _ _ _ (feed_frames_waiting fs1 [] H1 ltac:(cbn; lia))). cbn [app FeedAll].
  rewrite (eff_bind_Ret _ _ _ (running true [] p1, [inl ctx] ++ (inr <$> concat gs1)) tt).
  2:{ rewrite (feed_asc ta _ ctx La (Ectx _)). by rewrite (eff_bind_Ret _ _ _ _ _ E1). }
  rewrite feed_frames_running, E2; [|by eexists|done]. by rewrite fmap_app.
Qed.
End Run.

(** A stream of an AVC header, up to fifteen pictures, an AAC configuration
    and more pictures gives a description with exactly the sets and the
    configuration of the headers, and then the packets of the units of the pictures
    ([carried]: those that [PackNal] makes of each unit, numbered on from the first,
    with the time of its picture), those of the pictures kept meanwhile first; sent
    as datagrams that are reordered within each unit, they come out of one container
    as the units of all the pictures, in order, each with the time of its picture,
    without the delimiters, and nothing stays in the container. *)
Theorem rtmp_rtsp_video_received {B : Bele} (HB : BeleLaws B) {BS : BeleStream} {BI : NazaBits}
    tool TryAnnexb a v aseq vseq tv ta fixed sps pps tail asc c rate fs1 fs2 :
  is_u32 v → length fixed = 5%nat → sps ≠ [] → pps ≠ [] → is_u16 (len sps) → is_u16 (len pps) →
  Aac.NewAscContext asc = Ret c → Aac.GetSamplingFrequency c = Ret rate →
  Sdp.clean_line tool → Sdp.video_ok (Sdp.AvcVideo sps pps) → Sdp.audio_ok (Sdp.AacAudio rate asc) →
  Forall frame_ok (fs1 ++ fs2) → len fs1 < 16 →
  ∃ r raw gs,
    FeedAll tool TryAnnexb false a v aseq vseq
      (video_msg tv (Avc.avc_seq_header fixed sps pps tail) :: (frame_msg <$> fs1) ++
       audio_msg ta (175 :: 0 :: asc) :: (frame_msg <$> fs2)) (NewRtmp2RtspRemuxer, []) =
      ((r, inl (Sdp.expected raw (Sdp.AvcVideo sps pps) (Sdp.AacAudio rate asc)) :: (inr <$> concat gs)), Ret tt) ∧
    ∀ n gs', Forall2 (≡ₚ) gs' gs → Forall (λ g : list RtpPacket, len g ≤ 32767 ∧ len g ≤ n) gs →
      ∃ l, (received ← mapM ParseRtpPacket (Raw <$> concat gs');
            feed_all (P := RtpUnpackerAvcHevc AvPacketPtAvc 90000) (NewRtpUnpackContainer n) received) =
          Ret (l, received_unit <$> concat (sent_units <$> (fs1 ++ fs2))) ∧ items l = [].
Proof.
  intros Hv Hf Hs Hp Ls Lp Easc Erate Ht Hvok Haok Hfs Hl.
  assert (∃ raw, Sdp.Pack tool (Sdp.video_info (Sdp.AvcVideo sps pps)) (Sdp.audio_info (Sdp.AacAudio rate asc)) =
    Ret (Sdp.expected raw (Sdp.AvcVideo sps pps) (Sdp.AacAudio rate asc))) as [raw Ectx].
  { eexists. apply Sdp.Pack_expected; [done..|by left]. }
  destruct (rtsp_feed_stream tool TryAnnexb a v aseq vseq sps pps asc rate c Hv Easc Erate tv ta fixed tail fs1 fs2
    (Sdp.expected raw (Sdp.AvcVideo sps pps) (Sdp.AacAudio rate asc)) Hf Hs Hp Ls Lp) as (r & gs & E & C); [destruct Haok as (_ & _ & ?); lia| |done|done|].
  { intros l. unfold describe. cbn [running videoPt r_vps r_sps r_pps audioPt audioSampleRate r_asc].
    cbn [Sdp.video_info Sdp.audio_info] in Ectx. by rewrite Ectx. }
  exists r, raw, gs. split; [exact E|]. intros n gs' Hperm Hn.
  rewrite (carried_parse 90000 1200 _ _ _ ltac:(lia) ltac:(lia) C gs' Hperm), bind_Ret.
  apply (carried_received 90000 1200 n ltac:(done) _ _ _ C); [apply container_ready_new|done|done].
Qed.

(** ** Findings *)

Section Findings.
Let known : Rtmp2RtspRemuxer := running [103; 66] [104; 206] [18; 16] 44100 true [] None.

(** With the parameter sets before key frames, all that follows the first length
    is one unit: a key frame of two units becomes one with the second's length inside. *)
Example rtsp_key_frame_units_merged :
  video_payload (B := bele_impl) true known (frame_msg (mkFrame true 0 [[101; 1]; [101; 2]])) =
    Ret (Avc.avcc_join [[103; 66]; [104; 206]; [101; 1; 0; 0; 0; 2; 101; 2]]).
Proof. vm_compute. reflexivity. Qed.

(** And a key frame of six to eight bytes panics. *)
Example rtsp_key_frame_short_panics :
  video_payload (B := bele_impl) true known (video_msg 0 [23; 1; 0; 0; 0; 0]) = Panic.
Proof. vm_compute. reflexivity. Qed.
End Findings.

(** Sixteen messages without any header end the analysis with the zero description. *)
Example rtsp_headerless_zero_description :
  (FeedAll (B := bele_impl) (BS := bele_stream_impl) (BI := bits_impl) (str "lal") false false 7 8 100 65535
     (replicate 16 (frame_msg (mkFrame false 0 [[65; 1]]))) (NewRtmp2RtspRemuxer, [])).1.2 = [inl Sdp.zero_logic].
Proof. vm_compute. reflexivity. Qed.

(** ** Witnesses *)

Definition demo_frames1 : list Frame := [mkFrame true 0 [[9; 240]; [101; 136; 1; 2]]].
Definition demo_frames2 : list Frame := [mkFrame false 40 [[65; 154; 3]; [65; 155; 4]]].
Definition demo_feed : list RtmpMsg :=
  video_msg 0 (Avc.avc_seq_header [1; 66; 0; 30; 255] [103; 66; 0; 30] [104; 206] []) :: (frame_msg <$> demo_frames1) ++
  audio_msg 0 (175 :: 0 :: [18; 16]) :: (frame_msg <$> demo_frames2).

Lemma rtsp_output_described_witness :
  described 7 8 100 65535
    (FeedAll (B := bele_impl) (BS := bele_stream_impl) (BI := bits_impl) (str "lal") false false 7 8 100 65535
       demo_feed (NewRtmp2RtspRemuxer, [])).1.2.
Proof. apply (rtsp_output_described bele_impl_laws); lia. Defined.

Lemma rtmp_rtsp_video_received_witness : ∃ r raw gs,
    FeedAll (B := bele_impl) (BS := bele_stream_impl) (BI := bits_impl) (str "lal") false false 7 8 100 65535
      demo_feed (NewRtmp2RtspRemuxer, []) =
      ((r, inl (Sdp.expected raw (Sdp.AvcVideo [103; 66; 0; 30] [104; 206]) (Sdp.AacAudio 44100 [18; 16])) ::
           (inr <$> concat gs)), Ret tt) ∧
    ∀ n gs', Forall2 (≡ₚ) gs' gs → Forall (λ g : list RtpPacket, len g ≤ 32767 ∧ len g ≤ n) gs →
      ∃ l, (received ← mapM (ParseRtpPacket (B := bele_impl)) (Raw <$> concat gs');
            feed_all (P := RtpUnpackerAvcHevc (B := bele_impl) AvPacketPtAvc 90000) (NewRtpUnpackContainer n) received) =
          Ret (l, received_unit <$> concat (sent_units <$> (demo_frames1 ++ demo_frames2))) ∧ items l = [].
Proof.
  apply (rtmp_rtsp_video_received bele_impl_laws (str "lal") false 7 8 100 65535 0 0 [1; 66; 0; 30; 255]
    [103; 66; 0; 30] [104; 206] [] [18; 16] (Aac.mkAsc 2 4 2) 44100); try done.
  - split; apply (bool_decide_eq_true_1 _); vm_compute; reflexivity.
  - split; apply (bool_decide_unpack _); vm_compute; exact I.
  - split; [unfold Sdp.rate_ok; lia|]. split; [apply (bool_decide_unpack _); vm_compute; exact I|by vm_compute].
  - repeat constructor; vm_compute; auto; discriminate.
Defined.
