(* ===== verification/HlsPath.v ===== *)
(** * File names of HLS (src/pkg/hls/path_strategy.go)

    Where the files of a stream are, what they are called, and which file a
    request is for; with the functions of path/filepath and strings they use. *)

From S2P Require Import Prelude GoText.

(** ** The standard library *)

(** [strings.LastIndexFunc] of a function that counts: the index of the second
    [c] from the end. *)
Fixpoint second_last (c : Z) (seen : nat) (r : list Z) : option nat :=
  match r with
  | [] => None
  | x :: r =>
      let seen := if x =? c then S seen else seen in
      if bool_decide (seen = 2%nat) then Some (length r) else second_last c seen r
  end.

(** [filepath.Clean]: the elements without the empty ones and [.], a [..]
    removing the one before it; at the root it goes nowhere. *)
Definition dot : list Z := str ".".
Definition dotdot : list Z := str "..".
Definition push (rooted : bool) (out : list (list Z)) (e : list Z) : list (list Z) :=
  if bool_decide (e = []) || bool_decide (e = dot) then out
  else if bool_decide (e = dotdot) then
    match reverse out with
    | [] => if rooted then [] else [dotdot]
    | x :: r => if bool_decide (x = dotdot) then out ++ [dotdot] else reverse r
    end
  else out ++ [e].

Definition is_rooted (p : list Z) : bool := match p with 47 :: _ => true | _ => false end.
Definition elements (p : list Z) : list (list Z) := foldl (push (is_rooted p)) [] (Split p (str "/")).
Definition render (rooted : bool) (out : list (list Z)) : list Z :=
  if rooted then str "/" ++ Join out (str "/")
  else match out with [] => dot | _ => Join out (str "/") end.
Definition Clean (p : list Z) : list Z := render (is_rooted p) (elements p).

(** [filepath.Join]: from the first element that is not empty on. *)
Fixpoint filepath_Join (l : list (list Z)) : list Z :=
  match l with
  | [] => []
  | [] :: l => filepath_Join l
  | l => Clean (Join l (str "/"))
  end.

(** ** DefaultPathStrategy *)

Definition playlistM3u8FileName : list Z := str "playlist.m3u8".
Definition recordM3u8FileName : list Z := str "record.m3u8".

Definition GetMuxerOutPath (rootOutPath streamName : list Z) : list Z := filepath_Join [rootOutPath; streamName].
Definition GetLiveM3u8FileName (outPath streamName : list Z) : list Z := filepath_Join [outPath; playlistM3u8FileName].
Definition GetRecordM3u8FileName (outPath streamName : list Z) : list Z := filepath_Join [outPath; recordM3u8FileName].
Definition GetTsFileNameWithPath (outPath fileName : list Z) : list Z := filepath_Join [outPath; fileName].

(** [%s-%d-%d.ts] *)
Definition GetTsFileName (streamName : list Z) (index timestamp : Z) : list Z :=
  streamName ++ str "-" ++ Itoa timestamp ++ str "-" ++ Itoa index ++ str ".ts".

Definition getStreamNameFromTsFileName (fileName : list Z) : list Z :=
  match second_last 45 0 (reverse fileName) with
  | None => fileName
  | Some index => take index fileName
  end.

(** ** What of a URL the strategy reads (src/pkg/base/url.go) *)

(** [strings.LastIndexByte] and [strings.LastIndex] of one byte. *)
Fixpoint last_index (c : Z) (r : list Z) : option nat :=
  match r with
  | [] => None
  | x :: r => if x =? c then Some (length r) else last_index c r
  end.
Definition LastIndexByte (s : list Z) (c : Z) : option nat := last_index c (reverse s).

Record UrlContext := mkUrlContext {
  PathWithRawQuery : list Z;
  Path : list Z;
  PathWithoutLastItem : list Z;
  LastItemOfPath : list Z;
  RawQuery : list Z;
}.

(** [parseUrlPath] of the [Path] and the [RawQuery] of a parsed URL. *)
Definition parseUrlPath (path query : list Z) : UrlContext :=
  let '(without, item) :=
    match LastIndexByte path 47 with
    | None => ([], [])
    | Some 0%nat => ([], drop 1 path)
    | Some index => (drop 1 (take index path), drop (S index) path)
    end in
  mkUrlContext (match query with [] => path | _ => path ++ str "?" ++ query end) path without item query.

(** The name before the last dot and the type after it. *)
Definition calcFilenameAndType (u : UrlContext) : list Z * list Z :=
  match LastIndexByte (LastItemOfPath u) 46 with
  | Some index => (take index (LastItemOfPath u), drop (S index) (LastItemOfPath u))
  | None => ([], [])
  end.
Definition GetFilenameWithoutType (u : UrlContext) : list Z := (calcFilenameAndType u).1.
Definition GetFileType (u : UrlContext) : list Z := (calcFilenameAndType u).2.

(** ** GetRequestInfo *)

Record RequestInfo := mkRequestInfo { riStreamName : list Z; FileNameWithPath : list Z }.

Definition GetRequestInfo (urlCtx : UrlContext) (rootOutPath : list Z) : outcome RequestInfo :=
  let filename := LastItemOfPath urlCtx in
  if bool_decide (GetFileType urlCtx = (str "m3u8")) then
    if bool_decide (filename = playlistM3u8FileName) || bool_decide (filename = recordM3u8FileName) then
      let uriItems := Split (Path urlCtx) (str "/") in
      name ← go_index uriItems (len uriItems - 2);
      Ret (mkRequestInfo name (filepath_Join [rootOutPath; name; filename]))
    else
      let name := GetFilenameWithoutType urlCtx in
      Ret (mkRequestInfo name (filepath_Join [rootOutPath; name; playlistM3u8FileName]))
  else if bool_decide (GetFileType urlCtx = (str "ts")) then
    let name := getStreamNameFromTsFileName filename in
    Ret (mkRequestInfo name (filepath_Join [rootOutPath; name; filename]))
  else Ret (mkRequestInfo [] []).

Example clean_tests : Clean (str "/tmp/../a//b/./c/..") = (str "/a/b") ∧ Clean (str "../..") = (str "../..") ∧
  Clean [] = (str ".") ∧ Clean (str "/..") = (str "/") ∧ Clean (str "a/..") = (str ".").
Proof. vm_compute. done. Qed.

(** ** Lemmas *)

(** A file name: one element of a path. *)
Definition plain_name (s : list Z) : Prop := s ≠ [] ∧ (47 ∉ s) ∧ s ≠ dot ∧ s ≠ dotdot.

Lemma slash_Split s : ∃ x l, s = Join (x :: l) (str "/") ∧ (47 ∉ x) ∧ Forall (λ y, 47 ∉ y) l ∧ Split s (str "/") = x :: l.
Proof.
  assert (H : ∃ x l, s = Join (x :: l) (str "/") ∧ (47 ∉ x) ∧ Forall (λ y, 47 ∉ y) l).
  { induction s as [|c s (x & l & -> & Hx & Hl)]; [by exists [], []; repeat split; [apply not_elem_of_nil|constructor]|].
    destruct (decide (c = 47)) as [-> | Hc].
    - exists [], (x :: l). split; [done|]. split; [apply not_elem_of_nil|by constructor].
    - exists (c :: x), l. split; [by destruct l|]. split; [|done]. rewrite elem_of_cons. intros [?|?]; congruence. }
  destruct H as (x & l & -> & Hx & Hl). exists x, l. repeat split; [done..|]. by apply Split_Join.
Qed.

Lemma Join_snoc l x e : Join (l ++ [x]) e = lines e l ++ x.
Proof.
  induction l as [|s l IH]; [done|]. rewrite lines_cons, <- !app_assoc, <- IH. cbn [app]. by destruct l.
Qed.

Lemma Join_cons_app x l y m e : Join ((x :: l) ++ y :: m) e = Join (x :: l) e ++ e ++ Join (y :: m) e.
Proof.
  revert x. induction l as [|z l IH]; intros x; [done|].
  change (Join ((x :: z :: l) ++ y :: m) e) with (x ++ e ++ Join ((z :: l) ++ y :: m) e). rewrite IH.
  change (Join (x :: z :: l) e) with (x ++ e ++ Join (z :: l) e). by rewrite <- !app_assoc.
Qed.

Lemma Split_app s y m : 47 ∉ y → Forall (λ y, 47 ∉ y) m →
  Split (s ++ str "/" ++ Join (y :: m) (str "/")) (str "/") = Split s (str "/") ++ y :: m.
Proof.
  intros Hy Hm. destruct (slash_Split s) as (x & l & E & Hx & Hl & ->). rewrite E.
  rewrite <- Join_cons_app. cbn [app]. apply Split_Join; [done|]. apply Forall_app. split; [done|]. by constructor.
Qed.

(** What a path in a directory begins with. *)
Definition dir (out : list Z) : list Z :=
  match out with
  | [] => []
  | _ => (if is_rooted out then str "/" else []) ++ lines (str "/") (elements out)
  end.

Lemma push_plain r l x : plain_name x → push r l x = l ++ [x].
Proof. intros (? & _ & ? & ?). unfold push. by rewrite !bool_decide_false. Qed.
Lemma foldl_push_plain r : ∀ ps l, Forall plain_name ps → foldl (push r) l ps = l ++ ps.
Proof.
  induction ps as [|p ps IH]; intros l H; [by rewrite app_nil_r|]. apply Forall_cons in H as [Hp H]. cbn [foldl].
  rewrite push_plain, IH by done. by rewrite <- app_assoc.
Qed.

Lemma not_rooted x rest : x ≠ [] → 47 ∉ x → is_rooted (x ++ rest) = false.
Proof.
  destruct x as [|c x]; [done|]. intros _ H. cbn. destruct (decide (c = 47)) as [-> |Hc]; [by destruct H; constructor|].
  destruct c as [|p|p]; try done. repeat (destruct p as [p|p|]; try done).
Qed.

(** A path of plain elements below [out]. *)
Lemma Clean_below out y m : out ≠ [] → Forall plain_name (y :: m) →
  Clean (out ++ str "/" ++ Join (y :: m) (str "/")) = dir out ++ Join (y :: m) (str "/").
Proof.
  intros Hout Hm. destruct out as [|c out]; [done|]. set (p := c :: out).
  assert (Hs : Forall (λ y, 47 ∉ y) (y :: m)) by (eapply Forall_impl; [exact Hm|]; by intros x (_ & ? & _)).
  apply Forall_cons in Hs as [Hy Hs]. unfold Clean, elements.
  assert (Hr : is_rooted (p ++ str "/" ++ Join (y :: m) (str "/")) = is_rooted p) by done.
  rewrite Hr, Split_app, foldl_app, foldl_push_plain by done. unfold render. change (foldl (push (is_rooted p)) [] (Split p (str "/"))) with (elements p).
  assert (E : ∀ l, Join (l ++ y :: m) (str "/") = lines (str "/") l ++ Join (y :: m) (str "/")).
  { induction l as [|x l IH]; [done|]. rewrite lines_cons, <- !app_assoc, <- IH. cbn [app]. by destruct l. }
  change (dir p) with ((if is_rooted p then str "/" else []) ++ lines (str "/") (elements p)).
  destruct (is_rooted p); rewrite <- app_assoc, <- E; [done|]. by destruct (elements p).
Qed.

Lemma Clean_plain y m : Forall plain_name (y :: m) → Clean (Join (y :: m) (str "/")) = Join (y :: m) (str "/").
Proof.
  intros Hm. assert (Hs : Forall (λ y, 47 ∉ y) (y :: m)) by (eapply Forall_impl; [exact Hm|]; by intros x (_ & ? & _)).
  apply Forall_cons in Hs as [Hy Hs]. unfold Clean, elements.
  assert (Es : Split (Join (y :: m) (str "/")) (str "/") = y :: m) by by apply Split_Join.
  rewrite Es.
  assert (Hr : is_rooted (Join (y :: m) (str "/")) = false).
  { apply Forall_cons in Hm as [(Hne & _) _]. destruct m as [|z m]; [rewrite <- (app_nil_r (Join _ _))|]; by apply not_rooted. }
  rewrite Hr, foldl_push_plain by done. done.
Qed.

Lemma Join_below out y m : Forall plain_name (y :: m) → filepath_Join (out :: y :: m) = dir out ++ Join (y :: m) (str "/").
Proof.
  intros Hm. destruct out as [|c out]; [|by apply Clean_below].
  cbn [filepath_Join dir app]. destruct y as [|x y]; [by apply Forall_cons in Hm as [[? _] _]|]. by apply Clean_plain.
Qed.
Lemma Join_file out name : plain_name name → filepath_Join [out; name] = dir out ++ name.
Proof. intros Hn. apply (Join_below out name []). by apply Forall_singleton. Qed.
Lemma Join_file2 out s name : plain_name s → plain_name name →
  filepath_Join [out; s; name] = dir out ++ s ++ str "/" ++ name.
Proof. intros Hs Hn. apply (Join_below out s [name]). apply Forall_cons. split; [done|]. by apply Forall_singleton. Qed.

Lemma split_at_last (c : Z) a b a' b' : c ∉ b → c ∉ b' → a ++ c :: b = a' ++ c :: b' → a = a' ∧ b = b'.
Proof.
  intros Hb Hb' E. apply app_eq_inv in E as [(k & E1 & E2)|(k & E1 & E2)].
  - destruct k as [|x k]; [rewrite app_nil_r in E1; by simplify_eq/=|]. simplify_eq/=. destruct Hb'.
    rewrite elem_of_app, elem_of_cons. auto.
  - destruct k as [|x k]; [rewrite app_nil_r in E1; by simplify_eq/=|]. simplify_eq/=. destruct Hb.
    rewrite elem_of_app, elem_of_cons. auto.
Qed.

Lemma Itoa_not c n : c ≠ 45 → ¬ (48 ≤ c ≤ 57) → c ∉ Itoa n.
Proof. intros H1 H2 H. apply Itoa_char in H. lia. Qed.

(** ** Paths are clean *)

(** What cleaning leaves: [..] only in front, and not at the root. *)
Definition clean (rooted : bool) (l : list (list Z)) : Prop :=
  ∃ k ps, l = replicate k dotdot ++ ps ∧ Forall plain_name ps ∧ (rooted = true → k = 0%nat).

Lemma push_clean r l x : clean r l → 47 ∉ x → clean r (push r l x).
Proof.
  intros (k & ps & -> & Hps & Hr) Hx. unfold push. case_bool_decide as H1; [by exists k, ps|].
  case_bool_decide as H2; [by exists k, ps|]. cbn [orb]. case_bool_decide as H3.
  - rewrite reverse_app, reverse_replicate. destruct ps as [|p ps _] using rev_ind.
    + rewrite reverse_nil, app_nil_l, app_nil_r. destruct k as [|k]; cbn [replicate].
      * destruct r; [by exists 0%nat, []|]. by exists 1%nat, [].
      * rewrite bool_decide_true by done. exists (S (S k)), []. rewrite app_nil_r.
        split; [|split; [done|intros E; specialize (Hr E); lia]].
        change (dotdot :: replicate k dotdot) with (replicate (S k) dotdot). by rewrite <- replicate_S_end.
    + apply Forall_app in Hps as [Hps (_ & _ & _ & Hp)%Forall_singleton]. rewrite reverse_snoc. cbn [app].
      rewrite bool_decide_false by done. exists k, ps. split; [|done].
      by rewrite reverse_app, reverse_replicate, reverse_involutive.
  - exists k, (ps ++ [x]). rewrite app_assoc. split; [done|]. split; [|done]. apply Forall_app. split; [done|].
    apply Forall_singleton. done.
Qed.

Lemma foldl_push_clean r : ∀ l l0, Forall (λ x, 47 ∉ x) l → clean r l0 → clean r (foldl (push r) l0 l).
Proof.
  induction l as [|x l IH]; intros l0 Hl H0; [done|]. apply Forall_cons in Hl as [Hx Hl]. cbn [foldl].
  apply IH; [done|]. by apply push_clean.
Qed.

Lemma elements_clean p : clean (is_rooted p) (elements p).
Proof.
  unfold elements. destruct (slash_Split p) as (x & l & _ & Hx & Hl & ->). apply foldl_push_clean.
  - by constructor.
  - by exists 0%nat, [].
Qed.

Lemma foldl_push_same r l : clean r l → foldl (push r) [] l = l.
Proof.
  intros (k & ps & -> & Hps & Hr). rewrite foldl_app.
  assert (Hk : foldl (push r) [] (replicate k dotdot) = replicate k dotdot).
  { destruct r; [by rewrite Hr|]. clear. assert (∀ n, foldl (push false) (replicate n dotdot) (replicate k dotdot) = replicate (n + k) dotdot) as H;
      [|by apply (H 0%nat)].
    induction k as [|k IH]; intros n; cbn [replicate foldl]; [by rewrite Nat.add_0_r|].
    rewrite Nat.add_succ_r. change (S (n + k))%nat with (S n + k)%nat. rewrite <- (IH (S n)). f_equal. unfold push. rewrite reverse_replicate.
    change (bool_decide (dotdot = []) || bool_decide (dotdot = dot)) with false. cbv iota. rewrite (bool_decide_true (dotdot = dotdot)) by done.
    destruct n; [done|]. cbn [replicate]. rewrite bool_decide_true by done.
    change (dotdot :: replicate n dotdot) with (replicate (S n) dotdot). by rewrite <- replicate_S_end. }
  rewrite Hk. clear Hk Hr. generalize (replicate k dotdot). induction Hps as [|p ps Hp H IH]; intros l; cbn [foldl].
  - by rewrite app_nil_r.
  - by rewrite push_plain, IH, <- app_assoc by done.
Qed.

Lemma clean_no_slash r l : clean r l → Forall (λ x, (47 ∉ x) ∧ x ≠ []) l.
Proof.
  intros (k & ps & -> & Hps & _). apply Forall_app. split.
  - apply Forall_replicate. split; [|done]. apply (bool_decide_eq_true_1 _). by vm_compute.
  - eapply Forall_impl; [exact Hps|]. by intros x (? & ? & _).
Qed.

(** The directory of a file's path. *)
Lemma dir_file out s : plain_name s → dir (dir out ++ s) = dir out ++ s ++ str "/".
Proof.
  intros Hs. assert (Hs0 := Hs). destruct Hs0 as (Hne & Hsl & _ & _).
  set (r := is_rooted out). set (E := elements out). assert (HE : clean r E) by apply elements_clean.
  set (root := if r then str "/" else []).
  assert (Ed : dir out = root ++ lines (str "/") E).
  { unfold root, r, E. clear. destruct out; [|done]. by vm_compute. }
  rewrite Ed. clearbody E. assert (HEs : clean r (E ++ [s])).
  { destruct HE as (k & ps & -> & Hps & Hr). exists k, (ps ++ [s]). rewrite <- app_assoc. split; [done|]. split; [|done].
    apply Forall_app. by split; [|apply Forall_singleton]. }
  assert (Es : Split (lines (str "/") E ++ s) (str "/") = E ++ [s]).
  { rewrite <- Join_snoc. pose proof (clean_no_slash _ _ HEs) as H. destruct E as [|e E]; cbn [app].
    - by apply (Split_Join 47 [] s []).
    - cbn [app] in H. apply Forall_cons in H as [[He _] H]. apply Split_Join; [done|]. eapply Forall_impl; [exact H|]. by intros x []. }
  assert (Er : is_rooted ((root ++ lines (str "/") E) ++ s) = r).
  { unfold root. destruct r; [done|]. rewrite app_nil_l. pose proof (clean_no_slash _ _ HE) as H. destruct E as [|e E].
    - pose proof (not_rooted s [] Hne Hsl) as Hx. by rewrite app_nil_r in Hx.
    - apply Forall_cons in H as [[He Hn] _]. rewrite lines_cons, <- !app_assoc. by apply not_rooted. }
  assert (Ee : elements ((root ++ lines (str "/") E) ++ s) = E ++ [s]).
  { unfold elements. rewrite Er. unfold root. destruct r.
    - replace (Split ((str "/" ++ lines (str "/") E) ++ s) (str "/")) with ([] :: (E ++ [s])).
      { cbn [foldl]. change (push true [] []) with (@nil (list Z)). by apply foldl_push_same. }
      rewrite <- app_assoc, <- Es. symmetry. destruct (slash_Split (lines (str "/") E ++ s)) as (x & l & Ex & Hx & Hl & ->).
      rewrite Ex. change (str "/" ++ Join (x :: l) (str "/")) with (Join ([] :: x :: l) (str "/")).
      apply Split_Join; [apply not_elem_of_nil|by constructor].
    - rewrite app_nil_l, Es. by apply foldl_push_same. }
  unfold dir at 1. destruct ((root ++ lines (str "/") E) ++ s) as [|c p] eqn:Ep.
  - apply app_eq_nil in Ep as [_ Ep]. done.
  - rewrite <- Ep in *. rewrite Er, Ee, lines_app. fold root. rewrite <- app_assoc. unfold lines at 2. cbn. by rewrite app_nil_r.
Qed.


(** ** Names of segments *)

Lemma ts_suffix_no c n : 0 ≤ n → ¬ (48 ≤ c ≤ 57) → c ∉ str ".ts" → c ∉ Itoa n ++ str ".ts".
Proof. intros Hn H Hc. rewrite not_elem_of_app. split; [by apply Itoa_no|done]. Qed.

Definition dec_value (l : list Z) : Z := foldl (λ a c, a * 10 + (c - 48)) 0 l.
Lemma dec_value_digits fuel : ∀ n, 0 ≤ n < 2 ^ Z.of_nat fuel → dec_value (dec_digits fuel n) = n.
Proof.
  induction fuel as [|fuel IH]; intros n Hn; [cbn in *; lia|]. cbn [dec_digits]. unfold dec_value in *. rewrite foldl_app. cbn [foldl].
  rewrite Nat2Z.inj_succ, Z.pow_succ_r in Hn by lia. destruct (Z.ltb_spec n 10); cbn [foldl].
  - rewrite Z.mod_small by lia. lia.
  - rewrite IH; [|split; [apply Z.div_pos; lia|apply Z.div_lt_upper_bound; lia]]. pose proof (Z.div_mod n 10). lia.
Qed.
Lemma Itoa_inj a b : 0 ≤ a → 0 ≤ b → Itoa a = Itoa b → a = b.
Proof.
  assert (H : ∀ n, 0 ≤ n → dec_value (Itoa n) = n).
  { intros n Hn. unfold Itoa. rewrite (proj2 (Z.ltb_ge n 0)) by done. apply dec_value_digits. split; [done|].
    rewrite Nat2Z.inj_succ, Z2Nat.id by apply Z.log2_nonneg. destruct (Z.eq_dec n 0) as [-> |]; [done|]. apply Z.log2_spec. lia. }
  intros Ha Hb E. by rewrite <- (H a Ha), <- (H b Hb), E.
Qed.

(** Names of segments of different indices differ. *)
Lemma ts_name_inj s i t j u : 0 ≤ i → 0 ≤ j → GetTsFileName s i t = GetTsFileName s j u → i = j.
Proof.
  intros Hi Hj E. unfold GetTsFileName in E. rewrite !(app_assoc s), !(app_assoc (s ++ _)) in E.
  change (?x ++ str "-" ++ ?y) with (x ++ 45 :: y) in E.
  apply split_at_last in E as [_ E]; [|apply ts_suffix_no; [lia..|by apply (bool_decide_eq_true_1 _)]..].
  apply app_inj_2 in E as [E _]; [|done]. by apply Itoa_inj in E.
Qed.

Lemma ts_name_plain s i t : plain_name s → 0 ≤ i → plain_name (GetTsFileName s i t).
Proof.
  intros (Hne & Hs & _ & _) Hi. unfold GetTsFileName.
  assert (Hl : 3 ≤ len (s ++ str "-" ++ Itoa t ++ str "-" ++ Itoa i ++ str ".ts")).
  { rewrite !length_app. assert (len (str ".ts") = 3) by done. lia. }
  split; [|split; [|split]].
  - by destruct s.
  - rewrite !not_elem_of_app. split_and!; [done|by apply (bool_decide_eq_true_1 _)|by apply Itoa_not; lia|
      by apply (bool_decide_eq_true_1 _)|by apply Itoa_no; lia|by apply (bool_decide_eq_true_1 _)].
  - intros E. rewrite E in Hl. revert Hl. by vm_compute.
  - intros E. rewrite E in Hl. revert Hl. by vm_compute.
Qed.

(** ** Requests *)

Lemma last_index_found c a b : c ∉ b → LastIndexByte (a ++ c :: b) c = Some (length a).
Proof.
  intros Hb. unfold LastIndexByte. rewrite reverse_app, reverse_cons, <- app_assoc. cbn [app].
  assert (H : ∀ r, c ∉ r → last_index c (r ++ c :: reverse a) = Some (length a)).
  { induction r as [|x r IH]; intros Hr; cbn [app last_index].
    - by rewrite Z.eqb_refl, length_reverse.
    - apply not_elem_of_cons in Hr as [Hx Hr]. rewrite (proj2 (Z.eqb_neq x c)) by congruence. by apply IH. }
  apply H. by rewrite elem_of_reverse.
Qed.

Lemma drop_past (a : list Z) c b : drop (S (length a)) (a ++ c :: b) = b.
Proof. induction a as [|x a IH]; [done|]. apply IH. Qed.

Lemma parse_path a file q : 47 ∉ file →
  Path (parseUrlPath (a ++ str "/" ++ file) q) = a ++ str "/" ++ file ∧
  LastItemOfPath (parseUrlPath (a ++ str "/" ++ file) q) = file.
Proof.
  intros Hf. unfold parseUrlPath. change (a ++ str "/" ++ file) with (a ++ 47 :: file). rewrite last_index_found by done.
  destruct a as [|x a]; [done|]. cbn [length]. split; [done|]. cbn [LastItemOfPath].
  change (S (S (length a))) with (S (length (x :: a))). by rewrite drop_past.
Qed.

Lemma file_type u name t : 46 ∉ t → LastItemOfPath u = name ++ str "." ++ t →
  GetFilenameWithoutType u = name ∧ GetFileType u = t.
Proof.
  intros Ht E. unfold GetFilenameWithoutType, GetFileType, calcFilenameAndType. rewrite E.
  change (name ++ str "." ++ t) with (name ++ 46 :: t). rewrite last_index_found by done.
  by rewrite take_app_length, drop_past.
Qed.

Lemma second_last_found s a b : 45 ∉ a → 45 ∉ b → second_last 45 0 (reverse (s ++ str "-" ++ a ++ str "-" ++ b)) = Some (length s).
Proof.
  intros Ha Hb. change (s ++ str "-" ++ a ++ str "-" ++ b) with (s ++ 45 :: a ++ 45 :: b).
  rewrite !reverse_app, !reverse_cons, !reverse_app, !reverse_cons, <- !app_assoc. cbn [app].
  rewrite <- elem_of_reverse in Ha, Hb.
  assert (H : ∀ n r rest, (n < 2)%nat → 45 ∉ r → second_last 45 n (r ++ rest) = second_last 45 n rest).
  { intros n r rest Hn. induction r as [|x r IH]; intros Hr; [done|]. apply not_elem_of_cons in Hr as [Hx Hr].
    cbn [app second_last]. rewrite (proj2 (Z.eqb_neq x 45)) by congruence. rewrite bool_decide_false by lia. by apply IH. }
  rewrite H by (lia || done). cbn [app second_last]. rewrite Z.eqb_refl. cbn. rewrite H by (lia || done).
  cbn. by rewrite length_reverse.
Qed.

Lemma ts_stream s i t : 0 ≤ i → 0 ≤ t → getStreamNameFromTsFileName (GetTsFileName s i t) = s.
Proof.
  intros Hi Ht. unfold getStreamNameFromTsFileName, GetTsFileName. rewrite second_last_found.
  - by rewrite take_app_length.
  - apply Itoa_no; lia.
  - apply ts_suffix_no; [done|lia|by apply (bool_decide_eq_true_1 _)].
Qed.

Lemma below_stream root s name : plain_name s → plain_name name →
  filepath_Join [GetMuxerOutPath root s; name] = filepath_Join [root; s; name].
Proof.
  intros Hs Hn. unfold GetMuxerOutPath. rewrite Join_file2 by done. rewrite (Join_file root s) by done.
  rewrite Join_file, dir_file by done. by rewrite <- !app_assoc.
Qed.

Lemma playlist_plain : plain_name playlistM3u8FileName ∧ plain_name recordM3u8FileName.
Proof. split; split_and!; try done; by apply (bool_decide_eq_true_1 _). Qed.

Lemma request_playlist root pre q s file : plain_name s → file = playlistM3u8FileName ∨ file = recordM3u8FileName →
  GetRequestInfo (parseUrlPath (pre ++ str "/" ++ s ++ str "/" ++ file) q) root =
    Ret (mkRequestInfo s (filepath_Join [GetMuxerOutPath root s; file])).
Proof.
  intros Hs Hf. assert (Hp : plain_name file) by (destruct Hf as [-> | ->]; apply playlist_plain).
  rewrite (below_stream root s file) by done. rewrite (app_assoc (str "/")), (app_assoc pre).
  destruct (parse_path (pre ++ str "/" ++ s) file q) as [EP EL]; [apply Hp|].
  set (u := parseUrlPath _ q) in *. unfold GetRequestInfo. rewrite EL.
  assert (Et : GetFileType u = (str "m3u8")).
  { destruct Hf as [-> | ->]; [apply (file_type u (str "playlist") (str "m3u8"))|apply (file_type u (str "record") (str "m3u8"))];
      try (by apply (bool_decide_eq_true_1 _)); by rewrite EL. }
  rewrite Et, bool_decide_true by done.
  rewrite (proj2 (orb_true_iff _ _)); [|destruct Hf as [-> | ->]; [left|right]; by apply bool_decide_true].
  assert (Es : Split (Path u) (str "/") = Split pre (str "/") ++ [s; file]).
  { rewrite EP, <- !app_assoc. apply (Split_app pre s [file]); [apply Hs|]. apply Forall_singleton, Hp. }
  cbv zeta. rewrite Es, (go_index_app_r (Split pre (str "/"))) by (rewrite length_app; cbn; lia).
  rewrite go_index_head, bind_Ret by (rewrite length_app; cbn; lia). done.
Qed.

(** A request for a file of a stream is for the file that the muxer of that
    stream writes: the segments by their names, whatever the directory in the
    URI, and the playlists below the stream's name, for every stream name that is
    one element of a path, dashes in it included; and the live playlist as the
    stream's name with the type m3u8, for every such name but playlist and record
    (for which the request is taken for another one, [hls_playlist_stream_lost]). *)
Theorem hls_request_finds_file root pre q s i t : plain_name s → 0 ≤ i → 0 ≤ t →
  let out := GetMuxerOutPath root s in
  let req uri := GetRequestInfo (parseUrlPath uri q) root in
  req (pre ++ str "/" ++ GetTsFileName s i t) =
    Ret (mkRequestInfo s (GetTsFileNameWithPath out (GetTsFileName s i t))) ∧
  req (pre ++ str "/" ++ s ++ str "/playlist.m3u8") = Ret (mkRequestInfo s (GetLiveM3u8FileName out s)) ∧
  req (pre ++ str "/" ++ s ++ str "/record.m3u8") = Ret (mkRequestInfo s (GetRecordM3u8FileName out s)) ∧
  (s ≠ (str "playlist") → s ≠ (str "record") →
   req (pre ++ str "/" ++ s ++ str ".m3u8") = Ret (mkRequestInfo s (GetLiveM3u8FileName out s))).
Proof.
  intros Hs Hi Ht out req. split_and!.
  - assert (Hn := ts_name_plain s i t Hs Hi). unfold req, out, GetTsFileNameWithPath. rewrite below_stream by done.
    destruct (parse_path pre (GetTsFileName s i t) q) as [_ EL]; [apply Hn|]. set (u := parseUrlPath _ q) in *.
    assert (Et : GetFileType u = (str "ts")).
    { apply (file_type u (s ++ str "-" ++ Itoa t ++ str "-" ++ Itoa i)); [by apply (bool_decide_eq_true_1 _)|].
      rewrite EL. unfold GetTsFileName. by rewrite <- !app_assoc. }
    unfold GetRequestInfo. rewrite Et, (bool_decide_false (_ = _)) by done. rewrite bool_decide_true by done.
    by rewrite EL, ts_stream.
  - apply request_playlist; auto.
  - apply request_playlist; auto.
  - intros H1 H2. assert (Hp : 47 ∉ s ++ str ".m3u8").
    { rewrite not_elem_of_app. split; [apply Hs|by apply (bool_decide_eq_true_1 _)]. }
    destruct (parse_path pre (s ++ str ".m3u8") q Hp) as [_ EL]. unfold req. set (u := parseUrlPath _ q) in *.
    destruct (file_type u s (str "m3u8")) as [En Et]; [by apply (bool_decide_eq_true_1 _)|done|].
    unfold GetRequestInfo. rewrite Et, bool_decide_true, EL, En by done.
    rewrite (bool_decide_false (s ++ _ = _)).
    2:{ intros E. apply H1. change playlistM3u8FileName with (str "playlist" ++ str ".m3u8") in E.
      by apply app_inj_2 in E as [-> _]. }
    rewrite (bool_decide_false (s ++ _ = _)).
    2:{ intros E. apply H2. change recordM3u8FileName with (str "record" ++ str ".m3u8") in E.
      by apply app_inj_2 in E as [-> _]. }
    cbv iota zeta. cbn [orb]. unfold out, GetLiveM3u8FileName. by rewrite <- below_stream by (done || apply playlist_plain).
Qed.

(** A stream called [playlist] is not found by the short name of its playlist. *)
Example hls_playlist_stream_lost :
  GetRequestInfo (parseUrlPath (str "/hls/playlist.m3u8") []) (str "/tmp") =
    Ret (mkRequestInfo (str "hls") (str "/tmp/hls/playlist.m3u8")).
Proof. by vm_compute. Qed.

Lemma hls_request_finds_file_witness :
  let s := str "live-1" in
  let out := GetMuxerOutPath (str "/tmp/lal/hls/") s in
  let req uri := GetRequestInfo (parseUrlPath uri []) (str "/tmp/lal/hls/") in
  req (str "/hls" ++ str "/" ++ GetTsFileName s 3 1620540712084) =
    Ret (mkRequestInfo s (GetTsFileNameWithPath out (GetTsFileName s 3 1620540712084))) ∧
  req (str "/hls" ++ str "/" ++ s ++ str "/playlist.m3u8") = Ret (mkRequestInfo s (GetLiveM3u8FileName out s)) ∧
  req (str "/hls" ++ str "/" ++ s ++ str "/record.m3u8") = Ret (mkRequestInfo s (GetRecordM3u8FileName out s)) ∧
  (s ≠ (str "playlist") → s ≠ (str "record") →
   req (str "/hls" ++ str "/" ++ s ++ str ".m3u8") = Ret (mkRequestInfo s (GetLiveM3u8FileName out s))).
Proof.
  apply (hls_request_finds_file (str "/tmp/lal/hls/") (str "/hls") [] (str "live-1") 3 1620540712084); [|lia..].
  split_and!; try done; by apply (bool_decide_eq_true_1 _).
Defined.
