(* ===== verification/Hls.v ===== *)
(** * The HLS muxer (src/pkg/hls/muxer.go, fragment.go, m3u8.go)

    MPEG-TS packets go to segment files, cut where the caller allows it once a
    segment is long enough; each closed segment enters a ring, from which the
    live playlist is written, and the record playlist grows.

    The file system is a parameter with the operations of naza's
    filesystemlayer.  The observer is told of a new segment in the middle of
    [FeedMpegts] and may feed the muxer again: a feeding is in two steps,
    [FeedMpegts_begin] up to that call and [FeedMpegts_end] after it, and the
    calls under way form a stack.  The clock is an argument. *)

From stdpp Require Import gmap.
From S2P Require Import Prelude GoFloat GoText HlsPath.
From S2P Require TsPack.
From S2P Require Import GroupStream.

(** ** The file system (naza filesystemlayer) *)

(** What an operation answers when it succeeds, [None] on an error. *)
Class FileSystem (F : Type) := {
  Fd : Type;
  fs_Create : list Z → F → option Fd * F;
  fs_Write : Fd → list Z → F → option unit * F;
  fs_Close : Fd → F → option unit * F;
  fs_ReadFile : list Z → F → option (list Z) * F;
  fs_WriteFile : list Z → list Z → F → option unit * F;
  fs_Rename : list Z → list Z → F → option unit * F;
  fs_Remove : list Z → F → option unit * F;
  fs_MkdirAll : list Z → F → option unit * F;
}.

(** A file system that works: [fs_files] is what it holds, every operation
    succeeds while [fs_working], reading and renaming on files that exist. *)
Class FileSystemLaws (F : Type) {FS : FileSystem F} := {
  fs_files : F → gmap (list Z) (list Z);
  fs_path : Fd → list Z;
  fs_working : F → Prop;
  fs_create_law p f : fs_working f → ∃ d f', fs_Create p f = (Some d, f') ∧ fs_path d = p ∧ fs_working f' ∧
    fs_files f' = <[p := []]> (fs_files f);
  fs_write_law d b f c : fs_working f → fs_files f !! fs_path d = Some c →
    ∃ f', fs_Write d b f = (Some tt, f') ∧ fs_working f' ∧ fs_files f' = <[fs_path d := c ++ b]> (fs_files f);
  fs_close_law d f : fs_working f → ∃ f', fs_Close d f = (Some tt, f') ∧ fs_working f' ∧ fs_files f' = fs_files f;
  fs_read_law p f : fs_working f → ∃ f', fs_ReadFile p f = (fs_files f !! p, f') ∧ fs_working f' ∧ fs_files f' = fs_files f;
  fs_writefile_law p b f : fs_working f → ∃ f', fs_WriteFile p b f = (Some tt, f') ∧ fs_working f' ∧
    fs_files f' = <[p := b]> (fs_files f);
  fs_rename_law p q b f : fs_working f → fs_files f !! p = Some b → p ≠ q →
    ∃ f', fs_Rename p q f = (Some tt, f') ∧ fs_working f' ∧ fs_files f' = <[q := b]> (delete p (fs_files f));
  fs_remove_law p b f : fs_working f → fs_files f !! p = Some b →
    ∃ f', fs_Remove p f = (Some tt, f') ∧ fs_working f' ∧ fs_files f' = delete p (fs_files f);
}.

(** A file system in memory. *)
#[export] Instance memory_fs : FileSystem (gmap (list Z) (list Z)) := {
  Fd := list Z;
  fs_Create p m := (Some p, <[p := []]> m);
  fs_Write d b m := match m !! d with Some c => (Some tt, <[d := c ++ b]> m) | None => (None, m) end;
  fs_Close _ m := (Some tt, m);
  fs_ReadFile p m := (m !! p, m);
  fs_WriteFile p b m := (Some tt, <[p := b]> m);
  fs_Rename p q m := match m !! p with Some b => (Some tt, <[q := b]> (delete p m)) | None => (None, m) end;
  fs_Remove p m := match m !! p with Some _ => (Some tt, delete p m) | None => (None, m) end;
  fs_MkdirAll _ m := (Some tt, m);
}.
#[export] Instance memory_fs_laws : FileSystemLaws (gmap (list Z) (list Z)).
Proof.
  refine {| fs_files m := m; fs_path d := d; fs_working _ := True |}; intros; simpl.
  - eauto 6.
  - rewrite H0. eauto.
  - eauto.
  - eauto.
  - eauto.
  - rewrite H0. eauto.
  - rewrite H0. eauto.
Defined.

(** ** Numbers *)

Definition f64_zero : f64 := mkF64 0 1.
Definition f64_half : f64 := mkF64 1 2.
Definition f64_lt (x y : f64) : bool := num x * den y <? num y * den x.
Definition f64_le (x y : f64) : bool := num x * den y <=? num y * den x.

(** [%.3f] of a number that is not negative: the nearest thousandth, to even. *)
Definition fmt_3f (x : f64) : list Z :=
  let n := div_even (num x * 1000) (den x) in
  Itoa (n / 1000) ++ str "." ++ [48 + n / 100 mod 10; 48 + n / 10 mod 10; 48 + n mod 10].

(** ** Data *)

Record MuxerConfig := mkConfig {
  OutPath : list Z;
  FragmentDurationMs : Z;
  FragmentNum : Z;
  DeleteThreshold : Z;
  CleanupMode : Z;
  MaxFragmentDurationMs : Z;
}.
Definition CleanupModeNever : Z := 0.
Definition CleanupModeInTheEnd : Z := 1.
Definition CleanupModeAsap : Z := 2.
Definition negMaxfraglen : Z := 1000 * 90.

Record fragmentInfo := mkFragment {
  fid : Z;
  duration : f64;
  discont : bool;
  fname : list Z;
}.
Definition no_fragment : fragmentInfo := mkFragment 0 f64_zero false [].

Record HlsMakeTsInfo := mkMakeTs {
  tsOpen : bool; (* the event: open or close *)
  tsStreamName : list Z; tsCwd : list Z; tsFile : list Z; tsLiveM3u8File : list Z; tsRecordM3u8File : list Z;
  tsId : Z; tsDuration : f64;
}.

Record Muxer {F : Type} {FS : FileSystem F} := mkMuxer {
  fp : option Fd; (* of [fragment] *)
  opened : bool;
  fragTs : Z;
  recordMaxFragDuration : f64;
  nfrags : Z;
  frag : Z;
  frags : list fragmentInfo;
  m_patpmt : list Z;
  videoSeen : bool;
  fragLastTs : Z;
  forceCutOnNextKey : bool;
  forceCutOnNextAudioBoundary : bool;
}.
Arguments Muxer F {FS}.

(** What is left of a call of [FeedMpegts] after the observer has been told of a
    segment: nothing when it failed, all when it opened none, or the event of the
    segment, of the slot of the ring, with its number, path and time. *)
Inductive Pending := PFailed | PNone | POpened (slot id : Z) (path : list Z) (ts : Z).

Section Muxer.
Context {F : Type} {FS : FileSystem F}.
(** What is constant after [NewMuxer]; whether there is an observer; [base.GetWd]. *)
Context (streamName : list Z) (config : MuxerConfig) (observed : bool) (cwd : list Z).

Definition outPath : list Z := GetMuxerOutPath (OutPath config) streamName.
Definition playlistFilename : list Z := GetLiveM3u8FileName outPath streamName.
Definition recordPlayListFilename : list Z := GetRecordM3u8FileName outPath streamName.
Definition playlistFilenameBak : list Z := playlistFilename ++ str ".bak".
Definition recordPlayListFilenameBak : list Z := recordPlayListFilename ++ str ".bak".

Definition set_fp (d : option Fd) (m : Muxer F) : Muxer F :=
  mkMuxer _ _ d (opened m) (fragTs m) (recordMaxFragDuration m) (nfrags m) (frag m) (frags m) (m_patpmt m) (videoSeen m)
    (fragLastTs m) (forceCutOnNextKey m) (forceCutOnNextAudioBoundary m).
Definition set_opened (b : bool) (m : Muxer F) : Muxer F :=
  mkMuxer _ _ (fp m) b (fragTs m) (recordMaxFragDuration m) (nfrags m) (frag m) (frags m) (m_patpmt m) (videoSeen m)
    (fragLastTs m) (forceCutOnNextKey m) (forceCutOnNextAudioBoundary m).
Definition set_times (ts last : Z) (m : Muxer F) : Muxer F :=
  mkMuxer _ _ (fp m) (opened m) ts (recordMaxFragDuration m) (nfrags m) (frag m) (frags m) (m_patpmt m) (videoSeen m)
    last (forceCutOnNextKey m) (forceCutOnNextAudioBoundary m).
Definition set_record_max (d : f64) (m : Muxer F) : Muxer F :=
  mkMuxer _ _ (fp m) (opened m) (fragTs m) d (nfrags m) (frag m) (frags m) (m_patpmt m) (videoSeen m)
    (fragLastTs m) (forceCutOnNextKey m) (forceCutOnNextAudioBoundary m).
Definition set_counts (n f : Z) (m : Muxer F) : Muxer F :=
  mkMuxer _ _ (fp m) (opened m) (fragTs m) (recordMaxFragDuration m) n f (frags m) (m_patpmt m) (videoSeen m)
    (fragLastTs m) (forceCutOnNextKey m) (forceCutOnNextAudioBoundary m).
Definition set_frags (l : list fragmentInfo) (m : Muxer F) : Muxer F :=
  mkMuxer _ _ (fp m) (opened m) (fragTs m) (recordMaxFragDuration m) (nfrags m) (frag m) l (m_patpmt m) (videoSeen m)
    (fragLastTs m) (forceCutOnNextKey m) (forceCutOnNextAudioBoundary m).
Definition set_patpmt (b : list Z) (m : Muxer F) : Muxer F :=
  mkMuxer _ _ (fp m) (opened m) (fragTs m) (recordMaxFragDuration m) (nfrags m) (frag m) (frags m) b (videoSeen m)
    (fragLastTs m) (forceCutOnNextKey m) (forceCutOnNextAudioBoundary m).
Definition set_seen (m : Muxer F) : Muxer F :=
  mkMuxer _ _ (fp m) (opened m) (fragTs m) (recordMaxFragDuration m) (nfrags m) (frag m) (frags m) (m_patpmt m) true
    (fragLastTs m) (forceCutOnNextKey m) (forceCutOnNextAudioBoundary m).
Definition set_force (k a : bool) (m : Muxer F) : Muxer F :=
  mkMuxer _ _ (fp m) (opened m) (fragTs m) (recordMaxFragDuration m) (nfrags m) (frag m) (frags m) (m_patpmt m) (videoSeen m)
    (fragLastTs m) k a.

Record World := mkWorld { mux : Muxer F; disk : F; made : list HlsMakeTsInfo; calls : list Pending }.
Definition muxer : eff World (Muxer F) := λ w, (w, Ret (mux w)).
Definition change (f : Muxer F → Muxer F) : eff World unit := λ w,
  (mkWorld (f (mux w)) (disk w) (made w) (calls w), Ret tt).
Definition notify (e : HlsMakeTsInfo) : eff World unit := λ w,
  (mkWorld (mux w) (disk w) (made w ++ [e]) (calls w), Ret tt).
Definition on_disk {A} (op : F → option A * F) : eff World A := λ w,
  let '(r, f) := op (disk w) in
  (mkWorld (mux w) f (made w) (calls w), match r with Some a => Ret a | None => Fail ErrFmt end).
(** An error that is only logged. *)
Definition logged (m : eff World unit) : eff World unit := λ w,
  match m w with (w, Fail _) => (w, Ret tt) | r => r end.

(** ** The ring *)

Definition fragsCapacity : Z := FragmentNum config + DeleteThreshold config + 1.

Definition NewMuxer : outcome (Muxer F) :=
  if fragsCapacity <? 0 then Panic
  else Ret (mkMuxer _ _ None false 0 f64_zero 0 0 (replicate (Z.to_nat fragsCapacity) no_fragment) [] false 0 false false).

(** The slot of [getFrag]; [%] of Go takes the sign of its left side. *)
Definition slot_of (m : Muxer F) (n : Z) : outcome Z :=
  if fragsCapacity =? 0 then Panic else Ret (Z.rem (frag m + n) fragsCapacity).
Definition slot (n : Z) : eff World Z := m ← muxer; lift (slot_of m n).
Definition frag_in (i : Z) : eff World fragmentInfo := m ← muxer; lift (go_index (frags m) i).
Definition put_frag (i : Z) (f : fragmentInfo) : eff World unit := change (λ m, set_frags (<[Z.to_nat i := f]> (frags m)) m).

Definition getFrag (n : Z) : eff World fragmentInfo := i ← slot n; frag_in i.
Definition getCurrFrag : eff World fragmentInfo := m ← muxer; getFrag (nfrags m).
Definition getClosedFrag : eff World fragmentInfo := m ← muxer; getFrag (nfrags m - 1).
Definition getDeleteFrag : eff World fragmentInfo := m ← muxer; getFrag (nfrags m).
Definition getFragmentId (m : Muxer F) : Z := frag m + nfrags m.
Definition extXMediaSeq (m : Muxer F) : Z := frag m.
Definition incrFrag (m : Muxer F) : Muxer F :=
  if nfrags m =? FragmentNum config then set_counts (nfrags m) (frag m + 1) m else set_counts (nfrags m + 1) (frag m) m.

(** [f.duration = span] of the current one. *)
Definition set_duration (d : f64) : eff World unit :=
  m ← muxer; i ← slot (nfrags m); f ← frag_in i;
  put_frag i (mkFragment (fid f) d (discont f) (fname f)).

Fixpoint frags_from (n : nat) (i : Z) : eff World (list fragmentInfo) :=
  match n with
  | O => mret []
  | S n => f ← getFrag i; l ← frags_from n (i + 1); mret (f :: l)
  end.
(** What [iterateFragsInPlaylist] goes over. *)
Definition playlist_frags : eff World (list fragmentInfo) := m ← muxer; frags_from (Z.to_nat (nfrags m)) 0.

(** ** Fragment *)

Definition OpenFile (filename : list Z) : eff World unit := λ w,
  let '(r, f) := fs_Create filename (disk w) in
  (mkWorld (set_fp r (mux w)) f (made w) (calls w), match r with Some _ => Ret tt | None => Fail ErrFmt end).
Definition file : eff World Fd := m ← muxer; lift (match fp m with Some d => Ret d | None => Panic end).
Definition WriteFile (b : list Z) : eff World unit := d ← file; on_disk (fs_Write d b).
Definition CloseFile : eff World unit := d ← file; on_disk (fs_Close d).

(** ** Times *)

Definition fragmentClockTs (frame : TsPack.Frame) : Z :=
  if TsPack.Sid frame =? TsPack.StreamIdAudio then TsPack.Pts frame else TsPack.Dts frame.
Definition drivesFragmentTimeline (m : Muxer F) (frame : TsPack.Frame) : bool :=
  if TsPack.Sid frame =? TsPack.StreamIdVideo then true else negb (videoSeen m).

Definition safetyFragmentDurationMs : Z :=
  if FragmentDurationMs config <=? 0 then 3000 else FragmentDurationMs config.
Definition fragmentTargetSec : f64 :=
  if FragmentDurationMs config <=? 0 then f64_zero
  else f64_div (f64_of_int (FragmentDurationMs config)) (f64_of_int 1000).
Definition maxFragmentDurationSec : f64 :=
  let maxMs := if MaxFragmentDurationMs config <=? 0
               then (if FragmentDurationMs config <=? 0 then i64 (safetyFragmentDurationMs * 2)
                     else i64 (FragmentDurationMs config * 2))
               else MaxFragmentDurationMs config in
  f64_div (f64_of_int maxMs) (f64_of_int 1000).

Definition shouldForceSplitByTimestamp (m : Muxer F) (ts : Z) : bool :=
  let maxfraglen := u64 (i64 (safetyFragmentDurationMs * 90 * 10)) in
  (ts >? fragTs m) && (ts - fragTs m >? maxfraglen) || (fragTs m >? ts) && (fragTs m - ts >? negMaxfraglen).

Definition updateFragLastTs (ts : Z) (m : Muxer F) : Muxer F :=
  if negb (opened m) then m else if ts >? fragLastTs m then set_times (fragTs m) ts m else m.

(** The duration of the segment so far, if it is longer than what is noted. *)
Definition raise_duration : eff World unit :=
  m ← muxer; f ← getCurrFrag;
  if fragLastTs m >? fragTs m then
    let span := f64_div (f64_of_int (fragLastTs m - fragTs m)) (f64_of_int 90000) in
    if f64_lt (duration f) span then set_duration span else mret tt
  else mret tt.
Definition finalizeClosingFragmentDuration : eff World unit := raise_duration.

(** ** Playlists *)

Definition nl : list Z := [10].

Definition writeM3u8File (content filename filenameBak : list Z) : eff World unit :=
  _ ← on_disk (fs_WriteFile filenameBak content); on_disk (fs_Rename filenameBak filename).

Definition TrimSuffix (s p : list Z) : list Z := if HasSuffix s p then take (length s - length p) s else s.

(** The content and an error. *)
Definition updateTargetDurationInM3u8 (content : list Z) (currDuration : Z) : list Z * option goerr :=
  let key := str "#EXT-X-TARGETDURATION:" in
  match Cut key content with
  | None => (content, Some ErrHls)
  | Some (before, after) =>
      match Cut nl after with
      | None => (content, Some ErrHls)
      | Some (old, rest) =>
          match Atoi old with
          | (_, Some e) => (content, Some e)
          | (oldDuration, None) =>
              if currDuration >? oldDuration then (before ++ key ++ Itoa currDuration ++ nl ++ rest, None)
              else (content, None)
          end
      end
  end.

Definition discont_line (f : fragmentInfo) : list Z := if discont f then str "#EXT-X-DISCONTINUITY" ++ nl else [].
Definition frag_lines (f : fragmentInfo) : list Z :=
  str "#EXTINF:" ++ fmt_3f (duration f) ++ str "," ++ nl ++ fname f ++ nl.
Definition endlist : list Z := str "#EXT-X-ENDLIST" ++ nl.

Definition record_content (old : option (list Z)) (curr : fragmentInfo) (recordMax : f64) : option (list Z) :=
  match old with
  | Some content =>
      match updateTargetDurationInM3u8 (TrimSuffix content endlist) (f64_trunc recordMax) with
      | (_, Some _) => None
      | (content, None) => Some (content ++ discont_line curr ++ frag_lines curr ++ endlist)
      end
  | None =>
      Some (str "#EXTM3U" ++ nl ++ str "#EXT-X-VERSION:3" ++ nl ++
            str "#EXT-X-TARGETDURATION:" ++ Itoa (f64_trunc recordMax) ++ nl ++
            str "#EXT-X-MEDIA-SEQUENCE:" ++ Itoa 0 ++ nl ++ nl ++
            discont_line curr ++ frag_lines curr ++ endlist)
  end.

Definition read_file (p : list Z) : eff World (option (list Z)) := λ w,
  let '(r, f) := fs_ReadFile p (disk w) in (mkWorld (mux w) f (made w) (calls w), Ret r).

Definition writeRecordPlaylist : eff World unit :=
  currFrag ← getClosedFrag;
  _ ← change (λ m, if f64_lt (recordMaxFragDuration m) (duration currFrag)
                   then set_record_max (f64_add (duration currFrag) f64_half) m else m);
  old ← read_file recordPlayListFilename;
  m ← muxer;
  match record_content old currFrag (recordMaxFragDuration m) with
  | None => mret tt
  | Some content => logged (writeM3u8File content recordPlayListFilename recordPlayListFilenameBak)
  end.

Definition longest (l : list fragmentInfo) : f64 :=
  foldl (λ maxFrag f, if f64_lt maxFrag (duration f) then f64_add (duration f) f64_half else maxFrag) fragmentTargetSec l.

Definition live_content (l : list fragmentInfo) (seq : Z) (isLast : bool) : list Z :=
  str "#EXTM3U" ++ nl ++ str "#EXT-X-VERSION:3" ++ nl ++ str "#EXT-X-ALLOW-CACHE:NO" ++ nl ++
  str "#EXT-X-TARGETDURATION:" ++ Itoa (f64_trunc (longest l)) ++ nl ++
  str "#EXT-X-MEDIA-SEQUENCE:" ++ Itoa seq ++ nl ++ nl ++
  mjoin ((λ f, discont_line f ++ frag_lines f) <$> l) ++ (if isLast then endlist else []).

Definition writePlaylist (isLast : bool) : eff World unit :=
  l ← playlist_frags;
  m ← muxer;
  logged (writeM3u8File (live_content l (extXMediaSeq m) isLast) playlistFilename playlistFilenameBak).

(** ** Opening and closing a segment *)

Definition make_ts (isOpen : bool) (path : list Z) (id : Z) (d : f64) : HlsMakeTsInfo :=
  mkMakeTs isOpen streamName cwd path playlistFilename recordPlayListFilename id d.

(** Up to the call of the observer. *)
Definition openFragment (now ts : Z) (dis : bool) : eff World Pending :=
  m ← muxer;
  if opened m then lift (Fail ErrHls) else
  let id := getFragmentId m in
  let filename := GetTsFileName streamName id now in
  let path := GetTsFileNameWithPath outPath filename in
  _ ← OpenFile path;
  m ← muxer;
  _ ← WriteFile (m_patpmt m);
  _ ← change (set_opened true);
  i ← slot (nfrags m);
  _ ← frag_in i;
  _ ← put_frag i (mkFragment id f64_zero dis filename);
  _ ← change (set_times ts ts);
  mret (POpened i id path ts).

Definition delete_stale : eff World unit :=
  f ← getDeleteFrag;
  if bool_decide (fname f = []) then mret tt
  else logged (on_disk (fs_Remove (GetTsFileNameWithPath outPath (fname f)))).

Definition closeFragment (isLast : bool) : eff World unit :=
  m ← muxer;
  if negb (opened m) then mret tt else
  _ ← finalizeClosingFragmentDuration;
  _ ← CloseFile;
  _ ← change (λ m, incrFrag (set_opened false m));
  _ ← writePlaylist isLast;
  _ ← (if (CleanupMode config =? CleanupModeNever) || (CleanupMode config =? CleanupModeInTheEnd)
       then writeRecordPlaylist else mret tt);
  _ ← (if CleanupMode config =? CleanupModeAsap then delete_stale else mret tt);
  if negb observed then mret tt else
  currFrag ← getClosedFrag;
  notify (make_ts false (GetTsFileNameWithPath outPath (fname currFrag)) (fid currFrag) (duration currFrag)).

(** ** updateFragment *)

(** While a segment is open: whether the function returns here. *)
Definition update_opened (now ts : Z) (boundary : bool) (frame : TsPack.Frame) : eff World (option Pending) :=
  _ ← change (updateFragLastTs ts);
  _ ← raise_duration;
  m ← muxer;
  if drivesFragmentTimeline m frame && shouldForceSplitByTimestamp m ts then
    _ ← change (set_force false false);
    _ ← closeFragment false;
    p ← openFragment now ts true;
    mret (Some p)
  else
  f ← getCurrFrag;
  _ ← (if f64_le maxFragmentDurationSec (duration f) then
         change (λ m, if videoSeen m then set_force true (forceCutOnNextAudioBoundary m) m
                      else set_force (forceCutOnNextKey m) true m)
       else mret tt);
  m ← muxer;
  mret (if f64_lt (duration f) fragmentTargetSec &&
           negb (boundary && (forceCutOnNextKey m || forceCutOnNextAudioBoundary m)) then Some PNone else None).

(** Whether to cut at a boundary, and whether that is a discontinuity. *)
Definition cut_here : eff World (bool * bool) :=
  m ← muxer;
  if negb (opened m) then mret (true, true) else
  f ← getCurrFrag;
  if forceCutOnNextKey m then
    _ ← change (λ m, set_force false (forceCutOnNextAudioBoundary m) m); mret (true, true)
  else if forceCutOnNextAudioBoundary m then
    _ ← change (λ m, set_force (forceCutOnNextKey m) false m); mret (true, true)
  else mret (f64_le fragmentTargetSec (duration f), false).

Definition updateFragment (now ts : Z) (boundary : bool) (frame : TsPack.Frame) : eff World Pending :=
  m ← muxer;
  early ← (if opened m then update_opened now ts boundary frame else mret None);
  match early with
  | Some p => mret p
  | None =>
      '(needCut, discontNext) ← (if boundary then cut_here else mret (false, true));
      if (needCut : bool) then
        _ ← closeFragment false;
        openFragment now ts discontNext
      else _ ← change (updateFragLastTs ts); mret PNone
  end.

(** ** Feeding *)

Definition FeedPatPmt (b : list Z) : eff World unit := change (set_patpmt b).

Definition enter (p : Pending) : eff World unit := λ w, (mkWorld (mux w) (disk w) (made w) (p :: calls w), Ret tt).
Definition leave : eff World (option Pending) := λ w,
  match calls w with
  | [] => (w, Ret None)
  | p :: c => (mkWorld (mux w) (disk w) (made w) c, Ret (Some p))
  end.
Definition or_failed (m : eff World Pending) : eff World Pending := λ w,
  match m w with (w, Fail _) => (w, Ret PFailed) | r => r end.

(** Up to the call of [OnFragmentOpen]: whether there is one. *)
Definition FeedMpegts_begin (now : Z) (frame : TsPack.Frame) (boundary : bool) : eff World bool :=
  _ ← (if TsPack.Sid frame =? TsPack.StreamIdVideo then change set_seen else mret tt);
  p ← or_failed (updateFragment now (fragmentClockTs frame) boundary frame);
  _ ← enter p;
  mret (match p with POpened _ _ _ _ => observed | _ => false end).

(** The rest. *)
Definition FeedMpegts_end (tsPackets : list Z) : eff World unit :=
  p ← leave;
  match p with
  | None | Some PFailed => mret tt
  | Some p =>
      _ ← match p with
          | POpened i id path ts =>
              _ ← (if observed then f ← frag_in i; notify (make_ts true path id (duration f)) else mret tt);
              change (updateFragLastTs ts)
          | _ => mret tt
          end;
      m ← muxer;
      if opened m then logged (WriteFile tsPackets) else mret tt
  end.

Definition Start : eff World unit := logged (on_disk (fs_MkdirAll outPath)).
Definition Dispose : eff World unit := logged (closeFragment true).

(** The muxer of a group, at the time [now]; a ring without slots panics there. *)
Definition hls_muxer (now : Z) : HlsMuxer World := {|
  GroupStream.FeedPatPmt b w := (FeedPatPmt b w).1;
  FeedMpegts_open frame boundary w :=
    match FeedMpegts_begin now frame boundary w with (w, Ret b) => (b, w) | (w, _) => (false, (enter PFailed w).1) end;
  FeedMpegts_write b _ _ w := (FeedMpegts_end b w).1;
|}.
End Muxer.
