(* ===== verification/HlsFlow.v ===== *)
(** * What the HLS muxer leaves on the disk

    Whatever the order in which a muxer on a working disk is fed, re-entered and
    disposed of, the ring behaves as the list of all its segments: the live
    playlist is that of the last ones, the record playlist that of all, the
    segment files hold everything that was fed since the first cut, and cleaning
    up removes exactly the files no playlist needs. *)

From stdpp Require Import gmap.
From S2P Require Import Prelude GoFloat GoText HlsPath Hls.
From S2P Require TsPack.

(** ** Specification *)

(** A segment: what it is called, what it began with and what was fed into it. *)
Record Seg := mkSeg { sName : list Z; sDur : f64; sDis : bool; sHead : list Z; sBody : list Z }.
Definition sData (s : Seg) : list Z := sHead s ++ sBody s.

(** What happens to a muxer: the tables, the two parts of feeding, the end. *)
Inductive Step :=
| SPatPmt (b : list Z)
| SBegin (now : Z) (frame : TsPack.Frame) (boundary : bool)
| SEnd (tsPackets : list Z)
| SDispose.

(** What has been fed since the first boundary, between feedings that began. *)
Fixpoint fed (isOpen : bool) (depth : nat) (l : list Step) : list Z :=
  match l with
  | [] => []
  | SPatPmt _ :: l => fed isOpen depth l
  | SBegin _ _ boundary :: l => fed (isOpen || boundary) (S depth) l
  | SEnd b :: l => match depth with
                   | O => fed isOpen O l
                   | S depth => (if isOpen then b else []) ++ fed isOpen depth l
                   end
  | SDispose :: l => fed false depth l
  end.

(** Text of the playlists. *)
Definition line (s : list Z) : list Z := s ++ [10].
Definition seg_text (s : Seg) : list Z :=
  (if sDis s then line (str "#EXT-X-DISCONTINUITY") else []) ++
  line (str "#EXTINF:" ++ fmt_3f (sDur s) ++ str ",") ++ line (sName s).
Definition ends (b : bool) : list Z := if b then line (str "#EXT-X-ENDLIST") else [].

(** A longer segment raises the duration to half a second more than its own. *)
Definition raised (mx d : f64) : f64 := if f64_lt mx d then f64_add d f64_half else mx.

Definition live_text (target : f64) (segs : list Seg) (seq : Z) (isLast : bool) : list Z :=
  line (str "#EXTM3U") ++ line (str "#EXT-X-VERSION:3") ++ line (str "#EXT-X-ALLOW-CACHE:NO") ++
  line (str "#EXT-X-TARGETDURATION:" ++ Itoa (f64_trunc (foldl raised target (sDur <$> segs)))) ++
  line (str "#EXT-X-MEDIA-SEQUENCE:" ++ Itoa seq) ++ line [] ++ mjoin (seg_text <$> segs) ++ ends isLast.

(** The largest target duration there was. *)
Fixpoint record_target (mx : f64) (t : Z) (l : list f64) : Z :=
  match l with
  | [] => t
  | d :: l => let mx := raised mx d in record_target mx (Z.max t (f64_trunc mx)) l
  end.
Definition record_text (segs : list Seg) : list Z :=
  line (str "#EXTM3U") ++ line (str "#EXT-X-VERSION:3") ++
  line (str "#EXT-X-TARGETDURATION:" ++ Itoa (record_target f64_zero 0 (sDur <$> segs))) ++
  line (str "#EXT-X-MEDIA-SEQUENCE:0") ++ line [] ++ mjoin (seg_text <$> segs) ++ ends true.

Section Spec.
Context (streamName : list Z) (config : MuxerConfig).
Local Abbreviation out := (outPath streamName config).

(** The files of the segments [segs], the last of which may be open, on a disk. *)
Record on_disk_ok (segs : list Seg) (cur : option Seg) (ended : bool) (files : gmap (list Z) (list Z)) : Prop := {
  od_names : ∀ i s, (segs ++ option_list cur) !! i = Some s → ∃ t, sName s = GetTsFileName streamName (Z.of_nat i) t;
  od_live : segs ≠ [] → files !! GetLiveM3u8FileName out streamName =
    Some (let n := Z.to_nat (len segs - FragmentNum config) in
          live_text (fragmentTargetSec config) (drop n segs) (Z.of_nat n) ended);
  od_record : CleanupMode config = 0 ∨ CleanupMode config = 1 → segs ≠ [] →
    files !! GetRecordM3u8FileName out streamName = Some (record_text segs);
  od_kept : ∀ i s, segs !! i = Some s →
    (CleanupMode config = 2 → len segs - FragmentNum config - DeleteThreshold config ≤ Z.of_nat i) →
    files !! GetTsFileNameWithPath out (sName s) = Some (sData s);
  od_removed : ∀ i s, segs !! i = Some s → CleanupMode config = 2 →
    Z.of_nat i < len segs - FragmentNum config - DeleteThreshold config →
    files !! GetTsFileNameWithPath out (sName s) = None;
  od_open : ∀ c, cur = Some c → files !! GetTsFileNameWithPath out (sName c) = Some (sData c);
}.
End Spec.

(** Whether a segment is open after these steps, and whether there was an end. *)
Fixpoint open_after (isOpen : bool) (l : list Step) : bool :=
  match l with
  | [] => isOpen
  | SBegin _ _ boundary :: l => open_after (isOpen || boundary) l
  | SDispose :: l => open_after false l
  | _ :: l => open_after isOpen l
  end.
Definition disposed : list Step → bool := existsb (λ s, match s with SDispose => true | _ => false end).

(** ** The muxer step by step *)

Section Proofs.
Context {F : Type} {FS : FileSystem F} {FL : FileSystemLaws F}.
Context (streamName : list Z) (config : MuxerConfig) (observed : bool) (cwd : list Z).
Hypothesis Hstream : plain_name streamName.
Hypothesis Hnum : 0 ≤ FragmentNum config.
Hypothesis Hdel : 0 ≤ DeleteThreshold config.

Local Abbreviation out := (outPath streamName config).
Local Abbreviation N := (FragmentNum config).
Local Abbreviation cap := (fragsCapacity config).
Local Abbreviation path s := (GetTsFileNameWithPath out s).
Local Abbreviation Disk := (gmap (list Z) (list Z)).

(** The muxer [m] on a working disk that holds [fl], with the calls [cs] under way. *)
Definition at_ (m : Muxer F) (fl : Disk) (cs : list Pending) (w : World) : Prop :=
  mux w = m ∧ fs_working (disk w) ∧ fs_files (disk w) = fl ∧ calls w = cs.

Lemma cap_pos : 1 ≤ cap.
Proof. unfold fragsCapacity. lia. Qed.

(** [op] answers [x] and leaves the muxer and the disk like this. *)
Abbreviation runs m fl cs op x m' fl' cs' := (ensures (at_ m fl cs) op (λ y w, y = x ∧ at_ m' fl' cs' w)).

Lemma hls_runs_bind {A C} m fl cs (op : eff World A) (f : A → eff World C) x m1 fl1 cs1 Q :
  runs m fl cs op x m1 fl1 cs1 → ensures (at_ m1 fl1 cs1) (f x) Q → ensures (at_ m fl cs) (op ≫= f) Q.
Proof.
  intros H Hf. eapply ensures_bind; [exact H|]. intros y. apply (ensures_pure _ (y = x)); [by intros w []|].
  intros ->. eapply ensures_weaken; [exact Hf|by intros w []|done].
Qed.
Lemma hls_runs_ret {A} m fl cs (x : A) : runs m fl cs (mret x) x m fl cs.
Proof. by apply ensures_ret. Qed.
Lemma runs_lift {A} m fl cs (o : outcome A) x : o = Ret x → runs m fl cs (lift o) x m fl cs.
Proof. intros E. apply (ensures_lift _ _ _ x); [done|]. by split. Qed.
Lemma runs_muxer m fl cs : runs m fl cs muxer m m fl cs.
Proof. intros w Hw. exists w, (mux w). split; [done|]. split; [apply Hw|done]. Qed.
Lemma runs_change m fl cs f : runs m fl cs (change f) tt (f m) fl cs.
Proof. intros w (<- & ? & ? & ?). eexists _, tt. by repeat split. Qed.
Lemma runs_notify m fl cs e : runs m fl cs (notify e) tt m fl cs.
Proof. intros w (<- & ? & ? & ?). eexists _, tt. by repeat split. Qed.
Lemma runs_enter m fl cs p : runs m fl cs (enter p) tt m fl (p :: cs).
Proof. intros w (<- & ? & ? & <-). eexists _, tt. by repeat split. Qed.
Lemma runs_on_disk {A} m fl cs (op : F → option A * F) x fl' :
  (∀ f, fs_working f → fs_files f = fl → ∃ f', op f = (Some x, f') ∧ fs_working f' ∧ fs_files f' = fl') →
  runs m fl cs (on_disk op) x m fl' cs.
Proof.
  intros H w (<- & Hw & Hf & Hc). destruct (H _ Hw Hf) as (f' & E & Hw' & Hf'). unfold on_disk. rewrite E.
  eexists _, x. split; [done|]. by repeat split.
Qed.
Lemma runs_logged m fl cs op m' fl' cs' : runs m fl cs op tt m' fl' cs' → runs m fl cs (logged op) tt m' fl' cs'.
Proof. intros H w Hw. destruct (H w Hw) as (w' & x & E & Hx). exists w', tt. unfold logged. rewrite E. by destruct x, Hx. Qed.

Ltac advance := first
  [ eapply hls_runs_bind; [first [apply runs_muxer|apply runs_change|apply hls_runs_ret|apply runs_notify|apply runs_enter
                             |by eapply runs_lift]|]
  | apply hls_runs_ret | apply runs_change ].

Lemma runs_slot m fl cs n : 0 ≤ frag m + n → runs m fl cs (slot config n) ((frag m + n) mod cap) m fl cs.
Proof.
  intros Hn. unfold slot. advance. apply runs_lift. unfold slot_of. pose proof cap_pos.
  rewrite (proj2 (Z.eqb_neq cap 0)) by lia. by rewrite Z.rem_mod_nonneg by lia.
Qed.
Lemma runs_frag_in m fl cs i f : 0 ≤ i → frags m !! Z.to_nat i = Some f → runs m fl cs (frag_in i) f m fl cs.
Proof. intros Hi E. unfold frag_in. advance. apply runs_lift. unfold go_index. rewrite (proj2 (Z.leb_le 0 i)) by done. by rewrite E. Qed.
Lemma runs_getFrag m fl cs n f : 0 ≤ frag m + n → frags m !! Z.to_nat ((frag m + n) mod cap) = Some f →
  runs m fl cs (getFrag config n) f m fl cs.
Proof.
  intros Hn E. unfold getFrag. eapply hls_runs_bind; [by apply runs_slot|]. apply runs_frag_in; [|done].
  apply Z.mod_pos_bound. pose proof cap_pos. lia.
Qed.

(** ** The ring as the list of all segments *)

Definition info (i : Z) (s : Seg) : fragmentInfo := mkFragment i (sDur s) (sDis s) (sName s).
Definition extra (cur : option Seg) : Z := match cur with Some _ => 1 | None => 0 end.
Definition slot_nat (i : Z) : nat := Z.to_nat (i mod cap).

Record ring (m : Muxer F) (segs : list Seg) (cur : option Seg) : Prop := {
  rg_len : len (frags m) = cap;
  rg_total : frag m + nfrags m = len segs;
  rg_n : nfrags m = Z.min N (len segs);
  rg_closed : ∀ i s, segs !! i = Some s → len segs - cap + extra cur ≤ Z.of_nat i →
    frags m !! slot_nat (Z.of_nat i) = Some (info (Z.of_nat i) s);
  rg_cur : ∀ c, cur = Some c → frags m !! slot_nat (len segs) = Some (info (len segs) c);
  rg_free : ∀ i, len segs + extra cur ≤ i < cap → frags m !! slot_nat i = Some no_fragment;
  rg_opened : opened m = match cur with Some _ => true | None => false end;
}.

Lemma slot_nat_lt m segs cur i : ring m segs cur → (slot_nat i < length (frags m))%nat.
Proof. intros H. pose proof (rg_len _ _ _ H). pose proof cap_pos. pose proof (Z.mod_pos_bound i cap). unfold slot_nat. lia. Qed.

(** Slots of indices less than the capacity apart differ. *)
Lemma slot_nat_inj i j : 0 < Z.abs (i - j) < cap → slot_nat i ≠ slot_nat j.
Proof.
  intros Hd E. pose proof cap_pos. unfold slot_nat in E.
  pose proof (Z.mod_pos_bound i cap). pose proof (Z.mod_pos_bound j cap).
  assert (Em : i mod cap = j mod cap) by lia.
  assert (Hz : (i - j) mod cap = 0) by (by rewrite Zminus_mod, Em, Z.sub_diag).
  apply Z.mod_divide in Hz; [|lia]. destruct Hz as [k Hk]. rewrite Hk in Hd.
  assert (k = 0 ∨ 1 ≤ k ∨ k ≤ -1) as [-> |[?|?]] by lia; nia.
Qed.

Lemma runs_curr m fl cs segs c : ring m segs (Some c) → runs m fl cs (getCurrFrag config) (info (len segs) c) m fl cs.
Proof.
  intros H. unfold getCurrFrag. advance. apply runs_getFrag; rewrite (rg_total _ _ _ H); [lia|]. by apply (rg_cur _ _ _ H).
Qed.
Lemma runs_closed m fl cs segs s : ring m (segs ++ [s]) None → runs m fl cs (getClosedFrag config) (info (len segs) s) m fl cs.
Proof.
  intros H. pose proof (rg_total _ _ _ H) as Ht. pose proof cap_pos. unfold getClosedFrag. advance.
  rewrite length_app in Ht. cbn [length] in Ht.
  replace (nfrags m - 1) with (len segs - frag m) by lia. apply runs_getFrag; replace (frag m + (len segs - frag m)) with (len segs) by lia; [lia|].
  apply (rg_closed _ _ _ H (length segs)); [by rewrite lookup_app_r, Nat.sub_diag|]. rewrite length_app. cbn. lia.
Qed.

(** The slot of the current segment is written. *)
Lemma ring_put m m' segs cur c : ring m segs cur → frag m' = frag m → nfrags m' = nfrags m → opened m' = true →
  frags m' = <[slot_nat (len segs) := info (len segs) c]> (frags m) → ring m' segs (Some c).
Proof.
  intros H Ef En Eo El. pose proof cap_pos. split; rewrite ?Ef, ?En, ?Eo, ?El.
  - rewrite length_insert. apply H.
  - apply H.
  - apply H.
  - intros i s Hi Hl. assert (Hlt := Hi). apply lookup_lt_Some in Hlt. rewrite list_lookup_insert_ne.
    + apply (rg_closed _ _ _ H); [done|]. destruct cur; cbn in *; lia.
    + apply slot_nat_inj. cbn in *. lia.
  - intros c' [= <-]. apply list_lookup_insert_eq. by eapply slot_nat_lt.
  - intros i Hi. rewrite list_lookup_insert_ne by (apply slot_nat_inj; cbn in *; lia).
    apply (rg_free _ _ _ H). destruct cur; cbn in *; lia.
  - done.
Qed.

(** Nothing but the ring's slots and counters matters. *)
Lemma ring_same m m' segs cur : ring m segs cur → frag m' = frag m → nfrags m' = nfrags m → opened m' = opened m →
  frags m' = frags m → ring m' segs cur.
Proof. intros [] Ef En Eo El. by split; rewrite ?Ef, ?En, ?Eo, ?El. Qed.

Lemma ring_close m segs c : ring m segs (Some c) → ring (incrFrag config (set_opened false m)) (segs ++ [c]) None.
Proof.
  intros H. pose proof cap_pos. assert (El : len (segs ++ [c]) = len segs + 1) by (rewrite length_app; cbn; lia).
  assert (Eq : frags (incrFrag config (set_opened false m)) = frags m ∧ opened (incrFrag config (set_opened false m)) = false ∧
    frag (incrFrag config (set_opened false m)) + nfrags (incrFrag config (set_opened false m)) = len segs + 1 ∧
    nfrags (incrFrag config (set_opened false m)) = Z.min N (len segs + 1)).
  { pose proof (rg_total _ _ _ H). pose proof (rg_n _ _ _ H). unfold incrFrag. cbn.
    destruct (Z.eqb_spec (nfrags m) N); cbn; repeat split; lia. }
  destruct Eq as (Ef & Eo & Et & En). split; rewrite ?El, ?Ef, ?Eo.
  - apply H.
  - done.
  - done.
  - intros i s Hi Hl. apply lookup_app_Some in Hi as [Hi|[Hge Hi]].
    + apply (rg_closed _ _ _ H); [done|]. cbn in *. lia.
    + apply list_lookup_singleton_Some in Hi as [Hi <-]. replace (Z.of_nat i) with (len segs) by lia. by apply (rg_cur _ _ _ H).
  - done.
  - intros i Hi. apply (rg_free _ _ _ H). cbn in *. lia.
  - done.
Qed.

(** The slot that will be written next: the oldest segment, or nothing. *)
Lemma ring_next m segs : ring m segs None →
  frags m !! slot_nat (len segs) =
    Some match (if cap <=? len segs then segs !! Z.to_nat (len segs - cap) else None) with
         | Some s => info (len segs - cap) s
         | None => no_fragment
         end.
Proof.
  intros H. pose proof cap_pos. destruct (Z.leb_spec cap (len segs)).
  - destruct (lookup_lt_is_Some_2 segs (Z.to_nat (len segs - cap))) as [s Hs]; [lia|]. rewrite Hs.
    pose proof (rg_closed _ _ _ H _ _ Hs) as Hc. rewrite Z2Nat.id in Hc by lia. cbn in Hc.
    rewrite <- Hc by lia. unfold slot_nat. do 2 f_equal.
    replace (len segs) with (len segs - cap + 1 * cap) at 1 by lia. by rewrite Z_mod_plus_full.
  - apply (rg_free _ _ _ H). cbn. lia.
Qed.

Lemma ring_new m : NewMuxer config = Ret m → ring m [] None.
Proof.
  pose proof cap_pos. unfold NewMuxer. rewrite (proj2 (Z.ltb_ge cap 0)) by lia. intros [= <-]. split; cbn.
  - rewrite length_replicate. lia.
  - done.
  - lia.
  - done.
  - done.
  - intros i Hi. apply lookup_replicate_2. unfold slot_nat. rewrite Z.mod_small by lia. lia.
  - done.
Qed.

(** What [iterateFragsInPlaylist] goes over is the end of the list. *)
Lemma runs_playlist m fl cs segs : ring m segs None →
  runs m fl cs (playlist_frags config)
    (imap (λ j s, info (frag m + Z.of_nat j) s) (drop (Z.to_nat (len segs - N)) segs)) m fl cs.
Proof.
  intros H. pose proof cap_pos. pose proof (rg_total _ _ _ H). pose proof (rg_n _ _ _ H).
  unfold playlist_frags. advance. set (l := drop _ segs). assert (El : len l = nfrags m) by (unfold l; rewrite length_drop; lia).
  assert (Hg : ∀ n i, (n + i = length l)%nat →
    runs m fl cs (frags_from config n (Z.of_nat i)) (imap (λ j s, info (frag m + Z.of_nat (i + j)) s) (drop i l)) m fl cs).
  2:{ specialize (Hg (length l) 0%nat). rewrite drop_0 in Hg. replace (Z.to_nat (nfrags m)) with (length l) by lia. apply Hg. lia. }
  induction n as [|n IH]; intros i Hi; cbn [frags_from].
  { rewrite drop_ge by lia. apply hls_runs_ret. }
  destruct (lookup_lt_is_Some_2 l i) as [s Hs]; [lia|]. rewrite (drop_S _ _ _ Hs).
  unfold l in Hs. rewrite lookup_drop in Hs.
  eapply hls_runs_bind.
  { apply (runs_getFrag _ _ _ _ (info (frag m + Z.of_nat i) s)); [lia|].
    pose proof (rg_closed _ _ _ H _ _ Hs) as Hc. cbn in Hc. unfold slot_nat in Hc.
    replace (Z.of_nat (Z.to_nat (len segs - N) + i)) with (frag m + Z.of_nat i) in Hc by lia. apply Hc. unfold fragsCapacity. lia. }
  specialize (IH (S i) ltac:(lia)). replace (Z.of_nat i + 1) with (Z.of_nat (S i)) by lia.
  eapply hls_runs_bind; [exact IH|]. replace (imap _ (s :: drop (S i) l)) with
    (info (frag m + Z.of_nat i) s :: imap (λ j s, info (frag m + Z.of_nat (S i + j)) s) (drop (S i) l)); [apply hls_runs_ret|].
  rewrite imap_cons, Nat.add_0_r. f_equal. apply imap_ext. intros j x _. cbn. f_equal. lia.
Qed.

(** ** Files *)

Local Abbreviation live := (playlistFilename streamName config).
Local Abbreviation record := (recordPlayListFilename streamName config).
Local Abbreviation live_bak := (playlistFilenameBak streamName config).
Local Abbreviation record_bak := (recordPlayListFilenameBak streamName config).

Lemma special_names : live = dir out ++ playlistM3u8FileName ∧ record = dir out ++ recordM3u8FileName ∧
  live_bak = dir out ++ str "playlist.m3u8.bak" ∧ record_bak = dir out ++ str "record.m3u8.bak".
Proof.
  unfold playlistFilenameBak, recordPlayListFilenameBak, playlistFilename, recordPlayListFilename, GetLiveM3u8FileName, GetRecordM3u8FileName.
  destruct playlist_plain. rewrite !Join_file by done. by rewrite <- !app_assoc.
Qed.

Lemma specials_differ : live ≠ record ∧ live ≠ live_bak ∧ live ≠ record_bak ∧ record ≠ live_bak ∧ record ≠ record_bak.
Proof.
  destruct special_names as (-> & -> & -> & ->). split_and!; intros E; apply app_inv_head in E; done.
Qed.

Definition special (p : list Z) : Prop := p = live ∨ p = record ∨ p = live_bak ∨ p = record_bak.

Lemma path_ts i t : 0 ≤ i → path (GetTsFileName streamName i t) = dir out ++ GetTsFileName streamName i t.
Proof. intros Hi. by apply Join_file, ts_name_plain. Qed.

Lemma path_special i t : 0 ≤ i → ¬ special (path (GetTsFileName streamName i t)).
Proof.
  intros Hi. rewrite path_ts by done. unfold special. destruct special_names as (-> & -> & -> & ->).
  assert (Hlast : ∀ x, GetTsFileName streamName i t = x → last x = Some 115).
  { intros x <-. unfold GetTsFileName. rewrite !last_app. by vm_compute. }
  intros [E|[E|[E|E]]]; apply app_inv_head in E; apply Hlast in E; revert E; by vm_compute.
Qed.

Lemma path_inj i j t u : 0 ≤ i → 0 ≤ j →
  path (GetTsFileName streamName i t) = path (GetTsFileName streamName j u) → i = j.
Proof. intros Hi Hj. rewrite !path_ts by lia. intros E%app_inv_head. by apply ts_name_inj in E. Qed.

Lemma runs_writeM3u8 m fl cs content p bak : p ≠ bak →
  runs m fl cs (writeM3u8File content p bak) tt m (<[p := content]> (delete bak fl)) cs.
Proof.
  intros Hp. unfold writeM3u8File. eapply hls_runs_bind.
  { apply (runs_on_disk _ _ _ _ tt (<[bak := content]> fl)). intros f Hw <-. by apply fs_writefile_law. }
  apply runs_on_disk. intros f Hw E.
  destruct (fs_rename_law bak p content f Hw) as (f' & E1 & Hw' & E2); [by rewrite E, lookup_insert_eq|done|].
  exists f'. split; [done|]. split; [done|]. by rewrite E2, E, delete_insert_eq.
Qed.

Lemma runs_read_file m fl cs p : runs m fl cs (read_file p) (fl !! p) m fl cs.
Proof.
  intros w (<- & Hw & <- & <-). destruct (fs_read_law p (disk w) Hw) as (f' & E & Hw' & E').
  unfold read_file. rewrite E. eexists _, _. split; [reflexivity|]. by repeat split.
Qed.

Lemma runs_Write m fl cs d b c : fp m = Some d → fl !! fs_path d = Some c →
  runs m fl cs (WriteFile b) tt m (<[fs_path d := c ++ b]> fl) cs.
Proof.
  intros Ed Ec. unfold WriteFile, file. eapply hls_runs_bind.
  { advance. apply runs_lift. by rewrite Ed. }
  apply runs_on_disk. intros f Hw <-. by apply fs_write_law.
Qed.
Lemma runs_Close m fl cs d : fp m = Some d → runs m fl cs CloseFile tt m fl cs.
Proof.
  intros Ed. unfold CloseFile, file. eapply hls_runs_bind.
  { advance. apply runs_lift. by rewrite Ed. }
  apply runs_on_disk. intros f Hw <-. by apply fs_close_law.
Qed.

(** ** Text *)

Lemma mjoin_imap_text f segs :
  mjoin ((λ x, discont_line x ++ frag_lines x) <$> imap (λ j s, info (f j) s) segs) = mjoin (seg_text <$> segs).
Proof.
  revert f. induction segs as [|s segs IH]; intros f; [done|].
  change (imap (λ j s, info (f j) s) (s :: segs)) with (info (f 0%nat) s :: imap (λ j s, info (f (S j)) s) segs).
  cbn [fmap list_fmap]. unfold mjoin, list_join in *. cbn. f_equal; [|by apply (IH (λ j, f (S j)))].
  unfold seg_text, discont_line, frag_lines, line, info. cbn. destruct (sDis s); by rewrite <- !app_assoc.
Qed.

Lemma longest_imap f segs : longest config (imap (λ j s, info (f j) s) segs) = foldl raised (fragmentTargetSec config) (sDur <$> segs).
Proof.
  unfold longest. generalize (fragmentTargetSec config). revert f. induction segs as [|s segs IH]; intros f d; [done|].
  change (imap (λ j s, info (f j) s) (s :: segs)) with (info (f 0%nat) s :: imap (λ j s, info (f (S j)) s) segs).
  cbn [foldl fmap list_fmap]. apply (IH (λ j, f (S j))).
Qed.

Lemma live_content_text f segs seq e :
  live_content config (imap (λ j s, info (f j) s) segs) seq e = live_text (fragmentTargetSec config) segs seq e.
Proof.
  unfold live_content, live_text. rewrite mjoin_imap_text, longest_imap. unfold line, nl, ends, endlist.
  rewrite <- !app_assoc. by destruct e.
Qed.

(** ** Durations *)

Definition within (k : Z) (x : f64) : Prop := 0 ≤ num x ≤ k * den x ∧ 0 < den x.
Abbreviation dur_ok := (within (2 ^ 40)).
Abbreviation max_ok := (within (2 ^ 40 + 1)).

Lemma within_trunc k x : within k x → 0 ≤ f64_trunc x ≤ k.
Proof.
  intros [Hx Hd]. unfold f64_trunc. rewrite Z.quot_div_nonneg by lia. split; [apply Z.div_pos; lia|].
  apply Z.div_le_upper_bound; lia.
Qed.
Lemma raised_within mx d : max_ok mx → dur_ok d → max_ok (raised mx d).
Proof.
  intros Hm [Hd Hd0]. unfold raised. destruct (f64_lt mx d); [|done]. unfold f64_add, within. cbn [num den f64_half].
  apply round_f64_range; lia.
Qed.
Lemma foldl_raised_within l mx : max_ok mx → Forall dur_ok l → max_ok (foldl raised mx l).
Proof. intros Hm Hl. revert mx Hm. induction Hl as [|d l Hd H IH]; intros mx Hm; [done|]. apply IH. by apply raised_within. Qed.
Lemma zero_within k : 0 ≤ k → within k f64_zero.
Proof. unfold within, f64_zero. cbn. lia. Qed.

Lemma span_within x : 0 ≤ x < 2 ^ 53 → dur_ok (f64_div (f64_of_int x) (f64_of_int 90000)).
Proof.
  intros Hx. destruct (f64_of_int_exact x Hx) as [E D]. destruct (f64_of_int_exact 90000 ltac:(lia)) as [E2 D2].
  unfold f64_div, within. rewrite Z.sgn_pos, Z.abs_eq, Z.mul_1_l, E, E2 by lia.
  set (d1 := den (f64_of_int x)) in *. set (d2 := den (f64_of_int 90000)) in *. clearbody d1 d2.
  assert (H0 : 0 < d1 * d2) by (apply Z.mul_pos_pos; lia).
  assert (H1 : x * (d1 * d2) ≤ 2 ^ 40 * 90000 * (d1 * d2)) by (apply Z.mul_le_mono_nonneg_r; lia).
  assert (H2 : 0 ≤ x * (d1 * d2)) by (apply Z.mul_nonneg_nonneg; lia).
  apply round_f64_range; lia.
Qed.

Lemma record_target_snoc l mx t d :
  record_target mx t (l ++ [d]) = Z.max (record_target mx t l) (f64_trunc (raised (foldl raised mx l) d)).
Proof. revert mx t. induction l as [|x l IH]; intros mx t; [done|]. cbn [app record_target foldl]. apply IH. Qed.
Lemma record_target_range l mx t : 0 ≤ t ≤ 2 ^ 40 + 1 → max_ok mx → Forall dur_ok l → 0 ≤ record_target mx t l ≤ 2 ^ 40 + 1.
Proof.
  intros Ht Hm Hl. revert mx t Ht Hm. induction Hl as [|d l Hd H IH]; intros mx t Ht Hm; [done|]. cbn [record_target].
  assert (Hr := raised_within mx d Hm Hd). apply IH; [|done]. pose proof (within_trunc _ _ Hr). lia.
Qed.

(** ** The record playlist *)

Definition record_head : list Z := line (str "#EXTM3U") ++ line (str "#EXT-X-VERSION:3").
Definition record_rest (segs : list Seg) : list Z :=
  line (str "#EXT-X-MEDIA-SEQUENCE:0") ++ line [] ++ mjoin (seg_text <$> segs).

Lemma TrimSuffix_app s p : TrimSuffix (s ++ p) p = s.
Proof.
  unfold TrimSuffix. rewrite HasSuffix_app, length_app. replace (length s + length p - length p)%nat with (length s) by lia.
  by rewrite take_app_length.
Qed.

Lemma Cut_target rest : Cut (str "#EXT-X-TARGETDURATION:") (record_head ++ str "#EXT-X-TARGETDURATION:" ++ rest) = Some (record_head, rest).
Proof.
  assert (H : ∀ a, (∀ n, (n < length a)%nat → HasPrefix (drop n a ++ str "#EXT-X-TARGETDURATION:" ++ rest) (str "#EXT-X-TARGETDURATION:") = false) →
    Cut (str "#EXT-X-TARGETDURATION:") (a ++ str "#EXT-X-TARGETDURATION:" ++ rest) = Some (a, rest)).
  { induction a as [|x a IH]; intros Ha; cbn [app].
    - cbn [Cut]. unfold HasPrefix in *. reflexivity.
    - cbn [Cut]. pose proof (Ha 0%nat ltac:(cbn; lia)) as H0. cbn [drop app] in H0. rewrite H0.
      rewrite IH; [done|]. intros n Hn. apply (Ha (S n)). cbn. lia. }
  apply H. change (length record_head) with 25%nat. intros n Hn. do 25 (destruct n as [|n]; [reflexivity|]). lia.
Qed.

Lemma update_target content t c : 0 ≤ t < 2 ^ 63 →
  updateTargetDurationInM3u8 (record_head ++ str "#EXT-X-TARGETDURATION:" ++ Itoa t ++ [10] ++ content) c =
    (record_head ++ str "#EXT-X-TARGETDURATION:" ++ Itoa (Z.max t c) ++ [10] ++ content, None).
Proof.
  intros Ht. unfold updateTargetDurationInM3u8. rewrite Cut_target. unfold nl. rewrite (Cut_found 10 []) by (apply Itoa_no; lia).
  rewrite Atoi_Itoa by lia. rewrite Z.gtb_ltb. destruct (Z.ltb_spec t c); [by rewrite Z.max_r by lia|by rewrite Z.max_l by lia].
Qed.

Lemma record_text_split segs : record_text segs =
  (record_head ++ str "#EXT-X-TARGETDURATION:" ++ Itoa (record_target f64_zero 0 (sDur <$> segs)) ++ [10] ++ record_rest segs) ++ endlist.
Proof. unfold record_text, record_head, record_rest, line, ends, endlist, nl. by rewrite <- !app_assoc. Qed.

Lemma record_content_text segs s i : Forall dur_ok (sDur <$> segs ++ [s]) →
  record_content (match segs with [] => None | _ => Some (record_text segs) end) (info i s)
    (raised (foldl raised f64_zero (sDur <$> segs)) (sDur s)) = Some (record_text (segs ++ [s])).
Proof.
  rewrite fmap_app, Forall_app. intros [Hl Hs]. cbn [fmap list_fmap] in Hs. apply Forall_cons in Hs as [Hs _].
  assert (Hm : max_ok (raised (foldl raised f64_zero (sDur <$> segs)) (sDur s))).
  { apply raised_within; [|done]. apply foldl_raised_within; [by apply zero_within|done]. }
  pose proof (within_trunc _ _ Hm).
  assert (Et : Itoa (record_target f64_zero 0 (sDur <$> segs ++ [s])) = Itoa (Z.max (record_target f64_zero 0 (sDur <$> segs))
    (f64_trunc (raised (foldl raised f64_zero (sDur <$> segs)) (sDur s))))) by (rewrite fmap_app; f_equal; apply record_target_snoc).
  assert (Er : record_rest (segs ++ [s]) = record_rest segs ++ discont_line (info i s) ++ frag_lines (info i s)).
  { unfold record_rest. rewrite fmap_app, join_app. change (mjoin (seg_text <$> [s])) with (seg_text s ++ []). rewrite app_nil_r.
    unfold seg_text, discont_line, frag_lines, line, info, nl. cbn [duration discont fname]. destruct (sDis s); by rewrite <- !app_assoc. }
  rewrite (record_text_split (segs ++ [s])), Er, Et. destruct segs as [|s0 segs].
  - unfold record_content. cbn [fmap list_fmap record_target foldl] in *. rewrite Z.max_r by lia.
    unfold record_head, record_rest, line, nl. cbn [fmap list_fmap]. change (mjoin []) with (@nil Z). by rewrite <- !app_assoc.
  - rewrite (record_text_split (s0 :: segs)). unfold record_content. rewrite TrimSuffix_app, update_target; [by rewrite <- !app_assoc|].
    pose proof (record_target_range (sDur <$> s0 :: segs) f64_zero 0 ltac:(lia) ltac:(by apply zero_within) Hl). lia.
Qed.

(** ** The disk when a segment is written, opened and closed *)

Local Abbreviation disk_ok := (on_disk_ok streamName config).
Definition with_dur (s : Seg) (d : f64) : Seg := mkSeg (sName s) d (sDis s) (sHead s) (sBody s).
Definition with_body (s : Seg) (b : list Z) : Seg := mkSeg (sName s) (sDur s) (sDis s) (sHead s) (sBody s ++ b).

Lemma disk_dur segs c d e fl : disk_ok segs (Some c) e fl → disk_ok segs (Some (with_dur c d)) e fl.
Proof.
  intros [Hn Hl Hr Hk Hd Ho]. split; try done.
  - intros i s Hi. apply lookup_app_Some in Hi as [Hi|[Hge Hi]]; [apply (Hn i); by apply lookup_app_l_Some|].
    apply list_lookup_singleton_Some in Hi as [Hi <-]. apply (Hn i c). rewrite lookup_app_r by done. by rewrite Hi.
  - intros c' [= <-]. exact (Ho c eq_refl).
Qed.

(** A segment's file is not a playlist, nor another segment's. *)
Lemma seg_path segs cur e fl i s : disk_ok segs cur e fl → (segs ++ option_list cur) !! i = Some s →
  ¬ special (path (sName s)) ∧
  ∀ j t, Z.of_nat i ≠ j → 0 ≤ j → path (GetTsFileName streamName j t) ≠ path (sName s).
Proof.
  intros H Hi. destruct (od_names _ _ _ _ _ _ H i s Hi) as [t ->]. split; [apply path_special; lia|].
  intros j u Hij Hj E. apply path_inj in E; lia.
Qed.
Lemma seg_path_ne segs cur e fl i j s s' : disk_ok segs cur e fl → (segs ++ option_list cur) !! i = Some s →
  (segs ++ option_list cur) !! j = Some s' → i ≠ j → path (sName s') ≠ path (sName s).
Proof.
  intros H Hi Hj Hij. destruct (od_names _ _ _ _ _ _ H j s' Hj) as [t ->]. apply (seg_path _ _ _ _ i s H Hi); lia.
Qed.
Lemma lookup_cur (segs : list Seg) c : (segs ++ option_list (Some c)) !! length segs = Some c.
Proof. rewrite lookup_app_r by done. by rewrite Nat.sub_diag. Qed.
Lemma lookup_old (segs : list Seg) cur i s : segs !! i = Some s → (segs ++ option_list cur) !! i = Some s.
Proof. apply lookup_app_l_Some. Qed.

Lemma disk_write segs c e fl b : disk_ok segs (Some c) e fl →
  disk_ok segs (Some (with_body c b)) e (<[path (sName c) := sData c ++ b]> fl).
Proof.
  intros H. destruct (seg_path _ _ _ _ _ _ H (lookup_cur segs c)) as [Hs _].
  assert (Hne : ∀ i s, segs !! i = Some s → path (sName c) ≠ path (sName s)).
  { intros i s Hi. assert (Hlt := Hi). apply lookup_lt_Some in Hlt.
    apply (seg_path_ne _ _ _ _ i (length segs) s c H); [by apply lookup_old|apply lookup_cur|lia]. }
  destruct H as [Hn Hl Hr Hk Hd Ho]. split.
  - intros i s Hi. apply lookup_app_Some in Hi as [Hi|[Hge Hi]]; [apply (Hn i); by apply lookup_old|].
    apply list_lookup_singleton_Some in Hi as [Hi <-]. apply (Hn i c). rewrite lookup_app_r by done. by rewrite Hi.
  - intros Hsegs. rewrite lookup_insert_ne; [by apply Hl|]. intros E. apply Hs. by left.
  - intros Hm Hsegs. rewrite lookup_insert_ne; [by apply Hr|]. intros E. apply Hs. right. by left.
  - intros i s Hi Hi'. rewrite lookup_insert_ne by (by eapply Hne). by eapply Hk.
  - intros i s Hi Hm Hi'. rewrite lookup_insert_ne by (by eapply Hne). by eapply Hd.
  - intros c' [= <-]. rewrite lookup_insert_eq. unfold sData, with_body. cbn. by rewrite app_assoc.
Qed.

Lemma disk_open segs e fl now dis head : disk_ok segs None e fl →
  let c := mkSeg (GetTsFileName streamName (len segs) now) f64_zero dis head [] in
  disk_ok segs (Some c) e (<[path (sName c) := head]> fl).
Proof.
  intros H c. assert (Hs : ¬ special (path (sName c))) by (apply path_special; lia).
  assert (Hne : ∀ i s, segs !! i = Some s → path (sName c) ≠ path (sName s)).
  { intros i s Hi. assert (Hlt := Hi). apply lookup_lt_Some in Hlt.
    apply (seg_path _ _ _ _ i s H); [by apply lookup_old|lia|lia]. }
  destruct H as [Hn Hl Hr Hk Hd Ho]. split.
  - intros i s Hi. apply lookup_app_Some in Hi as [Hi|[Hge Hi]]; [apply (Hn i); by apply lookup_old|].
    apply list_lookup_singleton_Some in Hi as [Hi <-]. exists now. replace (Z.of_nat i) with (len segs) by lia. done.
  - intros Hsegs. rewrite lookup_insert_ne; [by apply Hl|]. intros E. apply Hs. by left.
  - intros Hm Hsegs. rewrite lookup_insert_ne; [by apply Hr|]. intros E. apply Hs. right. by left.
  - intros i s Hi Hi'. rewrite lookup_insert_ne by (by eapply Hne). by eapply Hk.
  - intros i s Hi Hm Hi'. rewrite lookup_insert_ne by (by eapply Hne). by eapply Hd.
  - intros c' [= <-]. rewrite lookup_insert_eq. unfold sData. cbn. by rewrite app_nil_r.
Qed.

(** The disk after a segment is closed, before the cleaning. *)
Definition played (segs : list Seg) (e : bool) (fl : Disk) : Disk :=
  let n := Z.to_nat (len segs - N) in
  <[live := live_text (fragmentTargetSec config) (drop n segs) (Z.of_nat n) e]> (delete live_bak fl).
Definition recorded (segs : list Seg) (fl : Disk) : Disk :=
  if (CleanupMode config =? 0) || (CleanupMode config =? 1)
  then <[record := record_text segs]> (delete record_bak fl) else fl.
Definition cleaned (segs : list Seg) (fl : Disk) : Disk :=
  if CleanupMode config =? 2 then
    match (if cap <=? len segs then segs !! Z.to_nat (len segs - cap) else None) with
    | Some s => delete (path (sName s)) fl
    | None => fl
    end
  else fl.

Lemma recorded_other segs fl p : p ≠ record → p ≠ record_bak → recorded segs fl !! p = fl !! p.
Proof. intros H1 H2. unfold recorded. case_match; [|done]. rewrite lookup_insert_ne, lookup_delete_ne by congruence. done. Qed.
Lemma played_other segs e fl p : p ≠ live → p ≠ live_bak → played segs e fl !! p = fl !! p.
Proof. intros H1 H2. unfold played. rewrite lookup_insert_ne, lookup_delete_ne by congruence. done. Qed.
Lemma special_other segs e fl p : ¬ special p → recorded segs (played segs e fl) !! p = fl !! p.
Proof.
  intros H. rewrite recorded_other, played_other; [done|..]; intros ->; apply H; unfold special; auto.
Qed.

Lemma disk_close segs c e e' fl : disk_ok segs (Some c) e fl →
  disk_ok (segs ++ [c]) None e' (cleaned (segs ++ [c]) (recorded (segs ++ [c]) (played (segs ++ [c]) e' fl))).
Proof.
  intros H. set (l := segs ++ [c]). set (fl1 := recorded l _).
  assert (El : len l = len segs + 1) by (unfold l; rewrite length_app; cbn; lia).
  assert (Hother : ∀ p, ¬ special p → fl1 !! p = fl !! p) by (intros p Hp; by apply special_other).
  assert (Hclean : ∀ p, special p → cleaned l fl1 !! p = fl1 !! p).
  { intros p Hp. unfold cleaned. case_match; [|done]. case_match eqn:E; [|done]. apply lookup_delete_ne. intros <-.
    destruct (cap <=? len l); [|done]. by apply (seg_path _ _ _ _ _ _ H E). }
  assert (Hfile : ∀ i s, l !! i = Some s →
    (CleanupMode config = 2 → len segs - N - DeleteThreshold config ≤ Z.of_nat i) → fl !! path (sName s) = Some (sData s)).
  { intros i s Hi Hk. apply lookup_app_Some in Hi as [Hi|[Hge Hi]]; [by apply (od_kept _ _ _ _ _ _ H i)|].
    apply list_lookup_singleton_Some in Hi as [_ <-]. by apply (od_open _ _ _ _ _ _ H). }
  split.
  - rewrite app_nil_r. apply H.
  - intros _. rewrite Hclean by by left. unfold fl1. rewrite recorded_other by apply specials_differ.
    unfold played. by rewrite lookup_insert_eq.
  - intros Hm _. rewrite Hclean by by right; left. unfold fl1, recorded.
    replace ((CleanupMode config =? 0) || (CleanupMode config =? 1)) with true by (destruct Hm as [-> | ->]; done).
    by rewrite lookup_insert_eq.
  - intros i s Hi Hk. destruct (seg_path _ _ _ _ _ _ H Hi) as [Hs _].
    assert (Hf : fl1 !! path (sName s) = Some (sData s)) by (rewrite Hother by done; apply (Hfile i s Hi); intros Hm; specialize (Hk Hm); lia).
    unfold cleaned. destruct (Z.eqb_spec (CleanupMode config) 2) as [Hm|]; [|done]. case_match eqn:E; [|done].
    rewrite lookup_delete_ne; [done|]. destruct (Z.leb_spec cap (len l)); [|done].
    apply (seg_path_ne _ _ _ _ i (Z.to_nat (len l - cap)) s _ H Hi E). specialize (Hk Hm). unfold fragsCapacity in *. lia.
  - intros i s Hi Hm Hlt. destruct (seg_path _ _ _ _ _ _ H Hi) as [Hs _]. unfold cleaned.
    rewrite (proj2 (Z.eqb_eq _ 2)) by done. unfold fragsCapacity. rewrite (proj2 (Z.leb_le _ _)) by lia.
    destruct (decide (i = Z.to_nat (len l - (N + DeleteThreshold config + 1)))) as [-> |Hne].
    + rewrite Hi. apply lookup_delete_eq.
    + assert (Hi' : segs !! i = Some s).
      { apply lookup_app_Some in Hi as [Hi|[Hge Hi]]; [done|]. apply list_lookup_singleton_Some in Hi as [Hi _]. lia. }
      assert (Hn : fl1 !! path (sName s) = None) by (rewrite Hother by done; apply (od_removed _ _ _ _ _ _ H i s Hi' Hm); lia).
      case_match; [|done]. by rewrite lookup_delete_None; right.
  - done.
Qed.

(** ** The muxer and its disk *)

Definition ts_ok (t : Z) : Prop := 0 ≤ t < 2 ^ 53.
Definition records : Prop := CleanupMode config = 0 ∨ CleanupMode config = 1.

Record repr (m : Muxer F) (fl : Disk) (segs : list Seg) (cur : option Seg) (e : bool) : Prop := {
  rp_ring : ring m segs cur;
  rp_disk : disk_ok segs cur e fl;
  rp_fp : ∀ c, cur = Some c → ∃ d, fp m = Some d ∧ fs_path d = path (sName c);
  rp_times : ts_ok (fragTs m) ∧ ts_ok (fragLastTs m);
  rp_durs : Forall dur_ok (sDur <$> segs ++ option_list cur);
  rp_max : records → recordMaxFragDuration m = foldl raised f64_zero (sDur <$> segs);
  rp_fresh : records → segs = [] → fl !! record = None;
}.

(** Fields that the representation does not read may change. *)
Lemma repr_same m m' fl segs cur e : repr m fl segs cur e → frag m' = frag m → nfrags m' = nfrags m → opened m' = opened m →
  frags m' = frags m → fp m' = fp m → recordMaxFragDuration m' = recordMaxFragDuration m →
  ts_ok (fragTs m') → ts_ok (fragLastTs m') → repr m' fl segs cur e.
Proof.
  intros [] Ef En Eo El Efp Em H1 H2. split; try done; [by eapply ring_same|by rewrite Efp|by rewrite Em].
Qed.

Lemma repr_dur m fl segs c e d : repr m fl segs (Some c) e → dur_ok d →
  repr (set_frags (<[slot_nat (len segs) := info (len segs) (with_dur c d)]> (frags m)) m) fl segs (Some (with_dur c d)) e.
Proof.
  intros [] Hd. split; try done.
  - eapply ring_put; [exact rp_ring0|try done..]. apply rp_ring0.
  - by apply disk_dur.
  - intros c' [= <-]. by apply (rp_fp0 c).
  - rewrite fmap_app, Forall_app in rp_durs0 |- *. split; [apply rp_durs0|]. by apply Forall_singleton.
Qed.

(** A step on an open segment that may lengthen it. *)
Abbreviation lengthens m fl cs segs c e op x :=
  (ensures (at_ m fl cs) op (λ y w, y = x ∧ ∃ d l, dur_ok d ∧
     repr (set_frags l m) fl segs (Some (with_dur c d)) e ∧ at_ (set_frags l m) fl cs w)).

Lemma set_frags_same (m : Muxer F) : set_frags (frags m) m = m.
Proof. by destruct m. Qed.
Lemma with_dur_same c : with_dur c (sDur c) = c.
Proof. by destruct c. Qed.
Lemma dur_of m fl segs c e : repr m fl segs (Some c) e → dur_ok (sDur c).
Proof.
  intros H. pose proof (rp_durs _ _ _ _ _ H) as Hd. rewrite fmap_app, Forall_app in Hd. destruct Hd as [_ Hd].
  by apply Forall_cons in Hd as [Hd _].
Qed.

Lemma runs_raise m fl cs segs c e : repr m fl segs (Some c) e → lengthens m fl cs segs c e (raise_duration config) tt.
Proof.
  intros H. pose proof (rp_ring _ _ _ _ _ H) as Hr. pose proof (rg_total _ _ _ Hr) as Ht. pose proof cap_pos.
  assert (Hnoop : ensures (at_ m fl cs) (mret tt) (λ y w, y = tt ∧ ∃ d l, dur_ok d ∧
     repr (set_frags l m) fl segs (Some (with_dur c d)) e ∧ at_ (set_frags l m) fl cs w)).
  { apply ensures_ret. intros w Hw. split; [done|]. exists (sDur c), (frags m). rewrite set_frags_same, with_dur_same.
    split; [by eapply dur_of|done]. }
  unfold raise_duration. advance. eapply hls_runs_bind; [by apply runs_curr|].
  destruct (Z.gtb_spec (fragLastTs m) (fragTs m)) as [Hlt|]; [|exact Hnoop].
  destruct (f64_lt _ _); [|exact Hnoop]. set (d := f64_div _ _).
  assert (Hd : dur_ok d) by (apply span_within; destruct (rp_times _ _ _ _ _ H); unfold ts_ok in *; lia).
  unfold set_duration. advance. eapply hls_runs_bind; [apply runs_slot; lia|]. rewrite Ht.
  eapply hls_runs_bind.
  { apply runs_frag_in; [apply Z.mod_pos_bound; lia|]. by apply (rg_cur _ _ _ Hr). }
  unfold put_frag. eapply ensures_weaken; [apply runs_change|done|]. intros y w [-> Hw]. split; [done|].
  exists d, (<[slot_nat (len segs) := info (len segs) (with_dur c d)]> (frags m)). split; [done|]. split; [by apply repr_dur|done].
Qed.

(** Cleaning up. *)
Lemma runs_clean m fl cs l : ring m l None → CleanupMode config = 2 →
  (∀ i s, l !! i = Some s → sName s ≠ [] ∧ (len l - cap ≤ Z.of_nat i → fl !! path (sName s) = Some (sData s))) →
  runs m fl cs (delete_stale streamName config) tt m (cleaned l fl) cs.
Proof.
  intros H Hm Hl. pose proof (rg_total _ _ _ H) as Ht. pose proof (ring_next _ _ H) as Hnext. pose proof cap_pos.
  unfold delete_stale, getDeleteFrag. eapply hls_runs_bind.
  { advance. apply runs_getFrag; rewrite Ht; [lia|exact Hnext]. }
  unfold cleaned. rewrite (proj2 (Z.eqb_eq _ 2)) by done.
  destruct (cap <=? len l) eqn:Ec; [|rewrite bool_decide_true by done; apply hls_runs_ret].
  destruct (l !! _) as [s|] eqn:Es; [|rewrite bool_decide_true by done; apply hls_runs_ret].
  destruct (Hl _ _ Es) as [Hne Hf]. cbn [fname info]. rewrite bool_decide_false by done.
  apply runs_logged, runs_on_disk. intros f Hw <-. eapply fs_remove_law; [done|]. apply Hf. lia.
Qed.

Lemma runs_record m fl cs segs c : ring m (segs ++ [c]) None → Forall dur_ok (sDur <$> segs ++ [c]) →
  recordMaxFragDuration m = foldl raised f64_zero (sDur <$> segs) →
  fl !! record = match segs with [] => None | _ => Some (record_text segs) end →
  runs m fl cs (writeRecordPlaylist streamName config) tt
    (set_record_max (foldl raised f64_zero (sDur <$> segs ++ [c])) m)
    (<[record := record_text (segs ++ [c])]> (delete record_bak fl)) cs.
Proof.
  intros Hr Hd Em Ef. unfold writeRecordPlaylist. eapply hls_runs_bind; [by eapply runs_closed|].
  eapply hls_runs_bind; [apply runs_change|]. set (m1 := if f64_lt _ _ then _ else _).
  assert (E1 : m1 = set_record_max (raised (foldl raised f64_zero (sDur <$> segs)) (sDur c)) m).
  { unfold m1. rewrite <- Em. unfold raised. cbn [duration info]. destruct (f64_lt _ _); [done|]. by destruct m. }
  assert (E2 : foldl raised f64_zero (sDur <$> segs ++ [c]) = raised (foldl raised f64_zero (sDur <$> segs)) (sDur c)).
  { rewrite fmap_app, foldl_app. done. }
  rewrite E2, <- E1. eapply hls_runs_bind; [apply runs_read_file|]. advance.
  assert (E3 : recordMaxFragDuration m1 = raised (foldl raised f64_zero (sDur <$> segs)) (sDur c)) by by rewrite E1.
  rewrite E3, Ef, record_content_text by done. apply runs_logged, runs_writeM3u8. apply specials_differ.
Qed.

(** ** Closing *)

Lemma runs_writePlaylist m fl cs l e : ring m l None → runs m fl cs (writePlaylist streamName config e) tt m (played l e fl) cs.
Proof.
  intros H. unfold writePlaylist. eapply hls_runs_bind; [by apply runs_playlist|]. advance.
  rewrite live_content_text. unfold extXMediaSeq, played.
  replace (frag m) with (Z.of_nat (Z.to_nat (len l - N))); [|pose proof (rg_total _ _ _ H); pose proof (rg_n _ _ _ H); lia].
  apply runs_logged, runs_writeM3u8. apply specials_differ.
Qed.

(** What is left of [closeFragment] when the playlists are written. *)
Lemma runs_told m fl cs segs c : ring m (segs ++ [c]) None →
  runs m fl cs (if negb observed then mret tt else
    currFrag ← getClosedFrag config;
    notify (make_ts streamName config cwd false (path (fname currFrag)) (fid currFrag) (duration currFrag))) tt m fl cs.
Proof.
  intros H. destruct (negb observed); [apply hls_runs_ret|]. eapply hls_runs_bind; [by eapply runs_closed|]. apply runs_notify.
Qed.

Lemma records_spec : (CleanupMode config =? CleanupModeNever) || (CleanupMode config =? CleanupModeInTheEnd) = true ↔ records.
Proof. unfold records, CleanupModeNever, CleanupModeInTheEnd. rewrite orb_true_iff, !Z.eqb_eq. done. Qed.

Lemma runs_recording m fl cs segs c : ring m (segs ++ [c]) None → Forall dur_ok (sDur <$> segs ++ [c]) →
  (records → recordMaxFragDuration m = foldl raised f64_zero (sDur <$> segs)) →
  (records → fl !! record = match segs with [] => None | _ => Some (record_text segs) end) →
  ∃ x, (records → x = foldl raised f64_zero (sDur <$> segs ++ [c])) ∧
  runs m fl cs (if (CleanupMode config =? CleanupModeNever) || (CleanupMode config =? CleanupModeInTheEnd)
     then writeRecordPlaylist streamName config else mret tt) tt (set_record_max x m) (recorded (segs ++ [c]) fl) cs.
Proof.
  intros Hr Hd Hm Hf. pose proof records_spec as Hrec. unfold recorded. change (CleanupMode config =? 0) with (CleanupMode config =? CleanupModeNever).
  change (CleanupMode config =? 1) with (CleanupMode config =? CleanupModeInTheEnd). destruct (_ || _).
  - assert (records) by by apply Hrec. eexists. split; [done|]. apply runs_record; auto.
  - exists (recordMaxFragDuration m). split; [intros H; by apply Hrec in H|].
    replace (set_record_max (recordMaxFragDuration m) m) with m by by destruct m. apply hls_runs_ret.
Qed.

Lemma runs_cleaning m fl cs l : ring m l None →
  (∀ i s, l !! i = Some s → sName s ≠ [] ∧ (CleanupMode config = 2 → len l - cap ≤ Z.of_nat i → fl !! path (sName s) = Some (sData s))) →
  runs m fl cs (if CleanupMode config =? CleanupModeAsap then delete_stale streamName config else mret tt) tt m (cleaned l fl) cs.
Proof.
  intros Hr Hl. change CleanupModeAsap with 2. destruct (Z.eqb_spec (CleanupMode config) 2) as [Hm|Hm].
  - apply runs_clean; [done|done|]. intros i s Hi. destruct (Hl i s Hi). auto.
  - unfold cleaned. rewrite (proj2 (Z.eqb_neq _ 2)) by done. apply hls_runs_ret.
Qed.

Lemma seg_name_ne segs cur e fl i s : disk_ok segs cur e fl → (segs ++ option_list cur) !! i = Some s → sName s ≠ [].
Proof.
  intros H Hi. destruct (od_names _ _ _ _ _ _ H i s Hi) as [t ->]. destruct Hstream as [Hne _].
  unfold GetTsFileName. by destruct streamName.
Qed.

Lemma close_files segs c e e' fl i s : disk_ok segs (Some c) e fl → (segs ++ [c]) !! i = Some s →
  sName s ≠ [] ∧ (CleanupMode config = 2 → len (segs ++ [c]) - cap ≤ Z.of_nat i →
    recorded (segs ++ [c]) (played (segs ++ [c]) e' fl) !! path (sName s) = Some (sData s)).
Proof.
  intros H Hi. split; [by eapply (seg_name_ne _ (Some c))|]. intros Hm Hk. rewrite length_app in Hk. unfold fragsCapacity in Hk. cbn in Hk.
  destruct (seg_path _ _ _ _ _ _ H Hi) as [Hs _]. rewrite special_other by done.
  apply lookup_app_Some in Hi as [Hi|[_ Hi]]; [apply (od_kept _ _ _ _ _ _ H i s Hi); intros _; lia|].
  apply list_lookup_singleton_Some in Hi as [_ <-]. by apply (od_open _ _ _ _ _ _ H).
Qed.

Lemma fresh_or_text m fl segs c e e' : repr m fl segs (Some c) e → records →
  played (segs ++ [c]) e' fl !! record = match segs with [] => None | _ => Some (record_text segs) end.
Proof.
  intros H Hr. rewrite played_other by apply not_eq_sym, specials_differ || apply specials_differ.
  destruct segs as [|s l].
  - by apply (rp_fresh _ _ _ _ _ H).
  - by apply (od_record _ _ _ _ _ _ (rp_disk _ _ _ _ _ H) Hr).
Qed.

Lemma close_spec m fl cs segs c e isLast : repr m fl segs (Some c) e →
  ensures (at_ m fl cs) (closeFragment streamName config observed cwd isLast) (λ _ w, ∃ m' fl' d,
    dur_ok d ∧ repr m' fl' (segs ++ [with_dur c d]) None isLast ∧ at_ m' fl' cs w).
Proof.
  intros H. unfold closeFragment. advance. rewrite (rg_opened _ _ _ (rp_ring _ _ _ _ _ H)). cbn [negb].
  eapply ensures_bind; [by apply runs_raise|]. intros y. intros w (_ & d & l & Hd & H1 & Hw). revert w Hw.
  change (ensures (at_ (set_frags l m) fl cs)
    (_ ← CloseFile; _ ← change (λ m, incrFrag config (set_opened false m)); _ ← writePlaylist streamName config isLast;
     _ ← (if (CleanupMode config =? CleanupModeNever) || (CleanupMode config =? CleanupModeInTheEnd)
          then writeRecordPlaylist streamName config else mret tt);
     _ ← (if CleanupMode config =? CleanupModeAsap then delete_stale streamName config else mret tt);
     if negb observed then mret tt else
     currFrag ← getClosedFrag config;
     notify (make_ts streamName config cwd false (path (fname currFrag)) (fid currFrag) (duration currFrag)))
    (λ _ w, ∃ m' fl' d, dur_ok d ∧ repr m' fl' (segs ++ [with_dur c d]) None isLast ∧ at_ m' fl' cs w)).
  set (m1 := set_frags l m) in *. set (c1 := with_dur c d) in *. clearbody m1.
  destruct (rp_fp _ _ _ _ _ H1 c1 eq_refl) as (h & Eh & _).
  eapply hls_runs_bind; [by eapply runs_Close|]. eapply hls_runs_bind; [apply runs_change|]. cbv beta.
  set (m2 := incrFrag config (set_opened false m1)).
  assert (Hr2 : ring m2 (segs ++ [c1]) None) by (apply ring_close, H1).
  assert (E2 : fp m2 = fp m1 ∧ recordMaxFragDuration m2 = recordMaxFragDuration m1 ∧ fragTs m2 = fragTs m1 ∧ fragLastTs m2 = fragLastTs m1)
    by (unfold m2, incrFrag; by destruct (_ =? _)).
  destruct E2 as (_ & Em & Et & El). clearbody m2.
  pose proof (rp_durs _ _ _ _ _ H1) as Hd1. cbn [option_list option_rect] in Hd1.
  eapply hls_runs_bind; [by apply runs_writePlaylist|].
  destruct (runs_recording m2 (played (segs ++ [c1]) isLast fl) cs segs c1 Hr2 Hd1) as (x & Hx & Hrun).
  { intros Hrec. rewrite Em. by apply (rp_max _ _ _ _ _ H1). }
  { intros Hrec. by eapply fresh_or_text. }
  eapply hls_runs_bind; [exact Hrun|]. set (m3 := set_record_max x m2).
  assert (Hr3 : ring m3 (segs ++ [c1]) None) by by eapply ring_same.
  eapply hls_runs_bind; [apply runs_cleaning; [done|]; intros i s Hi; eapply close_files; [apply H1|exact Hi]|].
  eapply ensures_weaken; [by eapply runs_told|done|]. intros y2 w [_ Hw].
  eexists m3, _, d. split; [done|]. split; [|exact Hw]. split.
  - done.
  - apply disk_close with (e := e), H1.
  - done.
  - cbn. rewrite Et, El. apply H1.
  - by rewrite app_nil_r.
  - done.
  - intros _ E. by apply app_eq_nil in E as [_ ?].
Qed.

(** ** Opening *)

(** What a call under way may still do. *)
Definition pend_ok (p : Pending) : Prop :=
  match p with PFailed => False | PNone => True | POpened i _ _ ts => 0 ≤ i < cap ∧ ts_ok ts end.

Definition bodies (segs : list Seg) (cur : option Seg) : list Z := mjoin (sBody <$> segs ++ option_list cur).

Lemma bodies_close segs c d : bodies (segs ++ [with_dur c d]) None = bodies segs (Some c).
Proof. unfold bodies. cbn [option_list option_rect]. rewrite app_nil_r, !fmap_app. done. Qed.
Lemma bodies_dur segs c d : bodies segs (Some (with_dur c d)) = bodies segs (Some c).
Proof. unfold bodies. cbn [option_list option_rect]. by rewrite !fmap_app. Qed.
Lemma bodies_write segs c b : bodies segs (Some (with_body c b)) = bodies segs (Some c) ++ b.
Proof.
  unfold bodies. cbn [option_list option_rect]. rewrite !fmap_app, !join_app, <- app_assoc. f_equal. cbn. by rewrite !app_nil_r.
Qed.

Lemma runs_OpenFile m fl cs p : ensures (at_ m fl cs) (OpenFile p)
  (λ _ w, ∃ d, fs_path d = p ∧ at_ (set_fp (Some d) m) (<[p := []]> fl) cs w).
Proof.
  intros w (<- & Hw & <- & <-). destruct (fs_create_law p (disk w) Hw) as (d & f' & E & Hd & Hw' & E').
  unfold OpenFile. rewrite E. eexists _, tt. split; [reflexivity|]. exists d. split; [done|]. by repeat split.
Qed.

Lemma open_spec m fl cs segs e now ts dis : repr m fl segs None e → ts_ok ts →
  ensures (at_ m fl cs) (openFragment streamName config now ts dis) (λ p w, pend_ok p ∧ ∃ m' fl' c,
    repr m' fl' segs (Some c) e ∧ sBody c = [] ∧ sDis c = dis ∧ at_ m' fl' cs w).
Proof.
  intros H Hts. pose proof (rp_ring _ _ _ _ _ H) as Hr. pose proof (rg_total _ _ _ Hr) as Ht. pose proof cap_pos.
  unfold openFragment. advance. rewrite (rg_opened _ _ _ Hr).
  set (c := mkSeg (GetTsFileName streamName (len segs) now) f64_zero dis (m_patpmt m) []).
  unfold getFragmentId. rewrite Ht. change (GetTsFileName streamName (len segs) now) with (sName c).
  eapply ensures_bind; [apply runs_OpenFile|]. intros [] w (d & Hd & Hw). revert w Hw.
  apply (ensures_weaken (at_ (set_fp (Some d) m) (<[path (sName c) := []]> fl) cs) _ _
    (λ p w, pend_ok p ∧ ∃ m' fl' c, repr m' fl' segs (Some c) e ∧ sBody c = [] ∧ sDis c = dis ∧ at_ m' fl' cs w)); [|done|done].
  advance. set (m1 := set_fp (Some d) m).
  eapply hls_runs_bind.
  { apply (runs_Write _ _ _ d _ []); [done|]. rewrite Hd. apply lookup_insert_eq. }
  rewrite Hd, insert_insert_eq, app_nil_l. eapply hls_runs_bind; [apply runs_change|].
  assert (Hslot : frag m + nfrags m = len segs) by done.
  eapply hls_runs_bind; [apply runs_slot; cbn; lia|]. change (frag (set_opened true m1) + nfrags m1) with (frag m + nfrags m).
  rewrite Ht. eapply hls_runs_bind.
  { apply runs_frag_in; [apply Z.mod_pos_bound; lia|]. exact (ring_next _ _ Hr). }
  eapply hls_runs_bind; [apply runs_change|]. eapply hls_runs_bind; [apply runs_change|].
  set (m' := set_times ts ts _).
  eapply ensures_weaken; [apply hls_runs_ret|done|]. intros p w [-> Hw].
  split; [split; [apply Z.mod_pos_bound; lia|done]|].
  exists m', (<[path (sName c) := m_patpmt m]> fl), c. split; [|done].
  destruct H as [Hr' Hdisk Hfp Htimes Hdurs Hmax Hfresh]. split.
  - by eapply (ring_put m m' segs None c).
  - by apply disk_open.
  - intros c' [= <-]. exists d. split; [done|]. exact Hd.
  - done.
  - cbn [option_list option_rect] in *. rewrite app_nil_r in Hdurs. rewrite fmap_app, Forall_app. split; [done|].
    apply Forall_singleton. apply zero_within. lia.
  - done.
  - intros Hrec E. rewrite lookup_insert_ne; [by apply Hfresh|]. intros Ep.
    apply (path_special (len segs) now ltac:(lia)). right. by left.
Qed.

(** A cut: the open segment, if any, is closed and another one begins. *)
Lemma cut_spec m fl cs segs cur e now ts dis : repr m fl segs cur e → ts_ok ts →
  ensures (at_ m fl cs) (_ ← closeFragment streamName config observed cwd false; openFragment streamName config now ts dis)
    (λ p w, pend_ok p ∧ ∃ m' fl' segs' c e', repr m' fl' segs' (Some c) e' ∧ bodies segs' (Some c) = bodies segs cur ∧
       (e' = true → e = true) ∧ at_ m' fl' cs w).
Proof.
  intros H Hts. destruct cur as [c|].
  - eapply ensures_bind; [by eapply close_spec|]. intros [] w (m1 & fl1 & d & Hd & H1 & Hw).
    destruct (open_spec m1 fl1 cs _ false now ts dis H1 Hts w Hw) as (w' & p & E & Hp & m' & fl' & c' & H' & Hb & _ & Hw').
    exists w', p. split; [done|]. split; [done|]. exists m', fl', (segs ++ [with_dur c d]), c', false.
    split; [done|]. split; [|done]. unfold bodies. cbn [option_list option_rect].
    rewrite !fmap_app, !join_app. cbn. rewrite Hb. by rewrite !app_nil_r.
  - unfold closeFragment. eapply (hls_runs_bind _ _ _ _ _ tt).
    { advance. rewrite (rg_opened _ _ _ (rp_ring _ _ _ _ _ H)). apply hls_runs_ret. }
    eapply ensures_weaken; [by apply open_spec|done|]. intros p w (Hp & m' & fl' & c & H' & Hb & _ & Hw).
    split; [done|]. exists m', fl', segs, c, e. split; [done|]. split; [|done]. unfold bodies. cbn [option_list option_rect].
    rewrite app_nil_r, fmap_app, join_app. cbn. rewrite Hb. by rewrite !app_nil_r.
Qed.
(** ** Feeding *)

Definition is_open (cur : option Seg) : bool := match cur with Some _ => true | None => false end.

(** The muxer of [w] stands for some segments, which hold [b] in all, the last open
    when [o]; the live playlist has ended only if [e]. *)
Definition state_ok (o : bool) (b : list Z) (e : bool) (cs : list Pending) (w : World) : Prop :=
  ∃ m fl segs cur e', at_ m fl cs w ∧ repr m fl segs cur e' ∧ is_open cur = o ∧ bodies segs cur = b ∧
    (e' = true → e = true) ∧ (cur = None → segs ≠ [] → e' = true).

Lemma state_intro m fl segs cur e' b e cs w : at_ m fl cs w → repr m fl segs cur e' → bodies segs cur = b →
  (e' = true → e = true) → (cur = None → segs ≠ [] → e' = true) → state_ok (is_open cur) b e cs w.
Proof. intros. by exists m, fl, segs, cur, e'. Qed.

(** Fields that the representation does not read. *)
Definition harmless (f : Muxer F → Muxer F) : Prop := ∀ m, ts_ok (fragTs m) → ts_ok (fragLastTs m) →
  frag (f m) = frag m ∧ nfrags (f m) = nfrags m ∧ opened (f m) = opened m ∧ frags (f m) = frags m ∧ fp (f m) = fp m ∧
  recordMaxFragDuration (f m) = recordMaxFragDuration m ∧ ts_ok (fragTs (f m)) ∧ ts_ok (fragLastTs (f m)).

Lemma state_change o b e cs f : harmless f → ensures (state_ok o b e cs) (change f) (λ _, state_ok o b e cs).
Proof.
  intros Hf w (m & fl & segs & cur & e' & Hw & H & Hrest). destruct (runs_change m fl cs f w Hw) as (w' & x & E & _ & Hw').
  exists w', x. split; [done|]. exists (f m), fl, segs, cur, e'. split; [done|]. split; [|done].
  destruct (rp_times _ _ _ _ _ H) as [H1 H2]. destruct (Hf m H1 H2) as (?&?&?&?&?&?&?&?). by eapply repr_same.
Qed.
Lemma harmless_last ts : ts_ok ts → harmless (updateFragLastTs ts).
Proof. intros Hts m H1 H2. unfold updateFragLastTs. destruct (negb (opened m)); [done|]. by destruct (ts >? fragLastTs m). Qed.
Lemma harmless_force (k a : Muxer F → bool) : harmless (λ m, set_force (k m) (a m) m).
Proof. by intros m H1 H2. Qed.
Lemma harmless_seen : harmless set_seen.
Proof. by intros m H1 H2. Qed.
Lemma harmless_patpmt b : harmless (set_patpmt b).
Proof. by intros m H1 H2. Qed.

(** From the muxer of a state to the state. *)
Lemma state_elim {A} o b e cs (op : eff World A) Q :
  (∀ m fl segs cur e', repr m fl segs cur e' → is_open cur = o → bodies segs cur = b → (e' = true → e = true) →
     (cur = None → segs ≠ [] → e' = true) → ensures (at_ m fl cs) op Q) → ensures (state_ok o b e cs) op Q.
Proof. intros H w (m & fl & segs & cur & e' & Hw & ? & ? & ? & ? & ?). by eapply H. Qed.

(** Reading changes nothing. *)
Lemma state_reads {A} o b e cs (op : eff World A) (P : A → Prop) :
  (∀ m fl segs cur e', repr m fl segs cur e' → is_open cur = o → ∃ x, P x ∧ runs m fl cs op x m fl cs) →
  ensures (state_ok o b e cs) op (λ x w, P x ∧ state_ok o b e cs w).
Proof.
  intros H. apply state_elim. intros m fl segs cur e' Hr <- Hb He Hn. destruct (H m fl segs cur e' Hr eq_refl) as (x & Hx & Hrun).
  eapply ensures_weaken; [exact Hrun|done|]. intros y w [-> Hw]. split; [done|]. by eapply state_intro.
Qed.
Lemma state_muxer o b e cs : ensures (state_ok o b e cs) muxer (λ m w, opened m = o ∧ state_ok o b e cs w).
Proof.
  apply state_reads. intros m fl segs cur e' H Ho. exists m. split; [|apply runs_muxer].
  rewrite (rg_opened _ _ _ (rp_ring _ _ _ _ _ H)). exact Ho.
Qed.
Lemma state_curr b e cs : ensures (state_ok true b e cs) (getCurrFrag config) (λ _ w, True ∧ state_ok true b e cs w).
Proof.
  apply state_reads. intros m fl segs [c|] e' H Ho; [|done]. eexists. split; [done|].
  eapply runs_curr, rp_ring, H.
Qed.

Lemma state_raise b e cs : ensures (state_ok true b e cs) (raise_duration config) (λ _, state_ok true b e cs).
Proof.
  apply state_elim. intros m fl segs [c|] e' H Ho Hb He Hn; [|done].
  eapply ensures_weaken; [by eapply runs_raise|done|]. intros y w (_ & d & l & Hd & Hr & Hw).
  by apply (state_intro (set_frags l m) fl segs (Some (with_dur c d)) e'); [..|rewrite bodies_dur| |].
Qed.

Lemma state_cut o b e cs now ts dis : ts_ok ts → ensures (state_ok o b e cs)
  (_ ← closeFragment streamName config observed cwd false; openFragment streamName config now ts dis)
  (λ p w, pend_ok p ∧ state_ok true b e cs w).
Proof.
  intros Hts. apply state_elim. intros m fl segs cur e' H _ <- He _.
  eapply ensures_weaken; [by apply cut_spec|done|]. intros p w (Hp & m' & fl' & segs' & c & e2 & H' & Hb & He2 & Hw).
  split; [done|]. rewrite <- Hb. apply (state_intro m' fl' segs' (Some c) e2); auto. done.
Qed.
Lemma hls_state_bind {A C} o b e cs (op : eff World A) (f : A → eff World C) (P : A → Prop) Q :
  ensures (state_ok o b e cs) op (λ x w, P x ∧ state_ok o b e cs w) →
  (∀ x, P x → ensures (state_ok o b e cs) (f x) Q) → ensures (state_ok o b e cs) (op ≫= f) Q.
Proof.
  intros H Hf. eapply ensures_bind; [exact H|]. intros x. apply (ensures_pure _ (P x)); [by intros w []|]. intros Hx.
  eapply ensures_weaken; [by apply Hf|by intros w []|done].
Qed.
Lemma state_change_bind {C} o b e cs f (g : () → eff World C) Q : harmless f →
  ensures (state_ok o b e cs) (g ()) Q → ensures (state_ok o b e cs) (change f ≫= g) Q.
Proof. intros Hf Hg. eapply ensures_bind; [by apply state_change|]. by intros []. Qed.

Lemma update_opened_spec b e cs now ts boundary frame : ts_ok ts →
  ensures (state_ok true b e cs) (update_opened streamName config observed cwd now ts boundary frame)
    (λ y w, match y with Some p => pend_ok p | None => True end ∧ state_ok true b e cs w).
Proof.
  intros Hts. unfold update_opened. apply state_change_bind; [by apply harmless_last|].
  eapply ensures_bind; [apply state_raise|]. intros []. eapply hls_state_bind; [apply state_muxer|]. intros m Hm.
  destruct (_ && _).
  - apply state_change_bind; [exact (harmless_force (λ _, false) (λ _, false))|].
    assert (H := state_cut true b e cs now ts true Hts). revert H. generalize (closeFragment streamName config observed cwd false).
    generalize (openFragment streamName config now ts true). intros op1 op2 H w Hw. destruct (H w Hw) as (w' & p & E & Hp & Hw').
    exists w', (Some p). split; [|done]. unfold mbind, eff_bind in E |- *. destruct (op2 w) as [w1 [| |]]; [|done..].
    destruct (op1 w1) as [w2 [| |]]; [|done..]. by injection E as -> ->.
  - eapply hls_state_bind; [apply state_curr|]. intros f _.
    eapply ensures_bind.
    { instantiate (1 := λ _, state_ok true b e cs). destruct (f64_le _ _); [|by apply ensures_ret]. apply state_change.
      intros m'. destruct (videoSeen m'); [apply (harmless_force (λ _, true) forceCutOnNextAudioBoundary)|apply (harmless_force forceCutOnNextKey (λ _, true))]. }
    intros []. eapply hls_state_bind; [apply state_muxer|]. intros m' Hm'. apply ensures_ret. intros w Hw. by destruct (_ && _).
Qed.

Lemma cut_here_spec o b e cs :
  ensures (state_ok o b e cs) (cut_here config) (λ y w, (o = false → y.1 = true) ∧ state_ok o b e cs w).
Proof.
  unfold cut_here. eapply hls_state_bind; [apply state_muxer|]. intros m Hm. rewrite Hm. destruct o; cbn [negb]; [|by apply ensures_ret].
  eapply hls_state_bind; [apply state_curr|]. intros f _. destruct (forceCutOnNextKey m).
  - apply state_change_bind; [exact (harmless_force (λ _, false) forceCutOnNextAudioBoundary)|]. by apply ensures_ret.
  - destruct (forceCutOnNextAudioBoundary m); [|by apply ensures_ret].
    apply state_change_bind; [exact (harmless_force forceCutOnNextKey (λ _, false))|]. by apply ensures_ret.
Qed.

Lemma updateFragment_spec o b e cs now ts boundary frame : ts_ok ts →
  ensures (state_ok o b e cs) (updateFragment streamName config observed cwd now ts boundary frame)
    (λ p w, pend_ok p ∧ state_ok (o || boundary) b e cs w).
Proof.
  intros Hts. unfold updateFragment. eapply hls_state_bind; [apply state_muxer|]. intros m Hm. rewrite Hm.
  eapply (hls_state_bind _ _ _ _ _ _ (λ y, match y with Some p => o = true ∧ pend_ok p | None => True end)).
  { destruct o; [|by apply ensures_ret]. eapply ensures_weaken; [by apply update_opened_spec|done|]. intros [p|] w [Hp Hw]; done. }
  intros [p|] Hp.
  { apply ensures_ret. intros w Hw. destruct Hp as [-> Hp]. done. }
  eapply (hls_state_bind _ _ _ _ _ _ (λ y, (boundary = true → o = false → y.1 = true) ∧ (boundary = false → y.1 = false))).
  { destruct boundary; [|by apply ensures_ret]. eapply ensures_weaken; [apply cut_here_spec|done|]. intros y w [Hy Hw]. done. }
  intros [need dis] [Hy Hn]. cbn in Hy, Hn. destruct need.
  { destruct boundary; [|by specialize (Hn eq_refl)]. rewrite orb_true_r. by apply state_cut. }
  apply state_change_bind; [by apply harmless_last|]. apply ensures_ret. intros w Hw. split; [done|].
  replace (o || boundary) with o; [done|]. destruct o, boundary; try done. by specialize (Hy eq_refl eq_refl).
Qed.
Lemma state_enter o b e cs p : ensures (state_ok o b e cs) (enter p) (λ _, state_ok o b e (p :: cs)).
Proof.
  intros w (m & fl & segs & cur & e' & Hw & H). destruct (runs_enter m fl cs p w Hw) as (w' & x & E & _ & Hw').
  exists w', x. split; [done|]. by exists m, fl, segs, cur, e'.
Qed.

Lemma begin_spec o b e cs now frame boundary : ts_ok (TsPack.Pts frame) → ts_ok (TsPack.Dts frame) →
  ensures (state_ok o b e cs) (FeedMpegts_begin streamName config observed cwd now frame boundary)
    (λ _ w, ∃ p, pend_ok p ∧ state_ok (o || boundary) b e (p :: cs) w).
Proof.
  intros H1 H2. unfold FeedMpegts_begin. eapply ensures_bind.
  { instantiate (1 := λ _, state_ok o b e cs). destruct (_ =? _); [apply state_change, harmless_seen|by apply ensures_ret]. }
  intros []. eapply ensures_bind.
  { intros w Hw. destruct (updateFragment_spec o b e cs now (fragmentClockTs frame) boundary frame) with (s := w) as (w' & p & E & Hp); [|done|].
    { unfold fragmentClockTs. by destruct (_ =? _). }
    exists w', p. split; [|exact Hp]. unfold or_failed. by rewrite E. }
  intros p. apply (ensures_pure _ (pend_ok p)); [by intros w []|]. intros Hp.
  eapply ensures_bind; [eapply ensures_weaken; [apply state_enter|by intros w [_ Hw]; exact Hw|done]|].
  intros []. apply ensures_ret. intros w Hw. by exists p.
Qed.

(** The current segment grows. *)
Lemma repr_write m fl segs c e b : repr m fl segs (Some c) e →
  repr m (<[path (sName c) := sData c ++ b]> fl) segs (Some (with_body c b)) e.
Proof.
  intros H. pose proof (disk_write segs c e fl b (rp_disk _ _ _ _ _ H)) as Hdisk.
  destruct (seg_path _ _ _ _ _ _ (rp_disk _ _ _ _ _ H) (lookup_cur segs c)) as [Hs _].
  destruct H as [Hr Hd Hfp Ht Hdur Hm Hf]. split; try done.
  - destruct Hr as [Hlen Htot Hn Hc Hcur Hfree Hop]. split; try done. intros c' [= <-]. exact (Hcur c eq_refl).
  - intros c' [= <-]. exact (Hfp c eq_refl).
  - cbn [option_list option_rect] in *. rewrite fmap_app in Hdur |- *. exact Hdur.
  - intros Hrec E. rewrite lookup_insert_ne; [by apply Hf|]. intros Ep. apply Hs. right. by left.
Qed.

Lemma state_write o b e cs bytes :
  ensures (state_ok o b e cs) (m ← muxer; if opened m then logged (WriteFile bytes) else mret tt)
    (λ _, state_ok o (b ++ if o then bytes else []) e cs).
Proof.
  apply state_elim. intros m fl segs cur e' H <- <- He Hn. advance.
  rewrite (rg_opened _ _ _ (rp_ring _ _ _ _ _ H)). destruct cur as [c|]; cbn [is_open].
  - destruct (rp_fp _ _ _ _ _ H c eq_refl) as (d & Ed & Ep).
    eapply ensures_weaken; [apply runs_logged; eapply runs_Write; [exact Ed|]|done|].
    { rewrite Ep. by apply (od_open _ _ _ _ _ _ (rp_disk _ _ _ _ _ H)). }
    intros y w [_ Hw]. rewrite Ep in Hw. rewrite <- bodies_write.
    eapply (state_intro m _ segs (Some (with_body c bytes)) e'); [exact Hw|by apply repr_write|done..].
  - apply ensures_ret. intros w Hw. rewrite app_nil_r. by apply (state_intro m fl segs None e').
Qed.

Lemma state_frag_in o b e cs i : 0 ≤ i < cap → ensures (state_ok o b e cs) (frag_in i) (λ _ w, True ∧ state_ok o b e cs w).
Proof.
  intros Hi. apply state_reads. intros m fl segs cur e' H _. pose proof (rg_len _ _ _ (rp_ring _ _ _ _ _ H)) as Hl.
  destruct (lookup_lt_is_Some_2 (frags m) (Z.to_nat i)) as [f Hf]; [lia|]. exists f. split; [done|]. apply runs_frag_in; [lia|done].
Qed.
Lemma state_notify o b e cs x : ensures (state_ok o b e cs) (notify x) (λ _, state_ok o b e cs).
Proof.
  intros w (m & fl & segs & cur & e' & Hw & H). destruct (runs_notify m fl cs x w Hw) as (w' & y & E & _ & Hw').
  exists w', y. split; [done|]. by exists m, fl, segs, cur, e'.
Qed.

Lemma end_spec o b e p cs bytes : pend_ok p →
  ensures (state_ok o b e (p :: cs)) (FeedMpegts_end streamName config observed cwd bytes)
    (λ _, state_ok o (b ++ if o then bytes else []) e cs).
Proof.
  intros Hp. unfold FeedMpegts_end.
  apply (ensures_bind _ _ _ (λ x w, x = Some p ∧ state_ok o b e cs w)).
  { intros w (m & fl & segs & cur & e' & (<- & Hw & Hf & Hc) & H). unfold leave. rewrite Hc. eexists _, _. split; [reflexivity|].
    split; [done|]. eexists _, fl, segs, cur, e'. split; [|exact H]. by repeat split. }
  intros x. apply (ensures_pure _ (x = Some p)); [by intros w []|]. intros ->.
  apply (ensures_weaken (state_ok o b e cs) _ _ (λ _, state_ok o (b ++ if o then bytes else []) e cs)); [|by intros w []|done].
  destruct p as [| |i id pa ts]; [done|..].
  - exact (state_write o b e cs bytes).
  - destruct Hp as [Hi Hts]. apply (ensures_bind _ _ _ (λ _, state_ok o b e cs)); [|intros []; exact (state_write o b e cs bytes)].
    apply (ensures_bind _ _ _ (λ _, state_ok o b e cs)); [|intros []; by apply state_change, harmless_last].
    destruct observed; [|by apply ensures_ret]. eapply hls_state_bind; [by apply state_frag_in|]. intros f _. apply state_notify.
Qed.

Lemma dispose_spec o b e cs : ensures (state_ok o b e cs) (Dispose streamName config observed cwd) (λ _, state_ok false b true cs).
Proof.
  apply state_elim. intros m fl segs cur e' H Ho Hb He Hn.
  assert (Hc : ensures (at_ m fl cs) (closeFragment streamName config observed cwd true) (λ _, state_ok false b true cs)).
  { destruct cur as [c|].
    - eapply ensures_weaken; [by eapply close_spec|done|]. intros y w (m' & fl' & d & Hd & H' & Hw).
      rewrite <- Hb, <- (bodies_close segs c d). by eapply (state_intro m' fl' _ None true); [exact Hw|exact H'|done..].
    - unfold closeFragment. advance. rewrite (rg_opened _ _ _ (rp_ring _ _ _ _ _ H)). apply ensures_ret. intros w Hw.
      by apply (state_intro m fl segs None e'). }
  intros w Hw. destruct (Hc w Hw) as (w' & [] & E & Hx). exists w', tt. unfold Dispose, logged. by rewrite E.
Qed.
(** ** Any order of steps *)

Definition do_step (s : Step) : eff World unit :=
  match s with
  | SPatPmt b => FeedPatPmt b
  | SBegin now frame boundary => _ ← FeedMpegts_begin streamName config observed cwd now frame boundary; mret tt
  | SEnd b => FeedMpegts_end streamName config observed cwd b
  | SDispose => Dispose streamName config observed cwd
  end.
Fixpoint run (l : list Step) : eff World unit :=
  match l with
  | [] => mret tt
  | s :: l => _ ← do_step s; run l
  end.

Definition step_ok (s : Step) : Prop :=
  match s with SBegin _ frame _ => ts_ok (TsPack.Pts frame) ∧ ts_ok (TsPack.Dts frame) | _ => True end.

Lemma state_e o b e e' cs w : (e = true → e' = true) → state_ok o b e cs w → state_ok o b e' cs w.
Proof. intros H (m & fl & segs & cur & e2 & Hw & Hr & <- & Hb & He & Hn). by apply (state_intro m fl segs cur e2); auto. Qed.

Lemma run_spec l o b e cs : Forall step_ok l → Forall pend_ok cs →
  ensures (state_ok o b e cs) (run l)
    (λ _ w, ∃ cs', state_ok (open_after o l) (b ++ fed o (length cs) l) (e || disposed l) cs' w).
Proof.
  intros Hl. revert o b e cs. induction Hl as [|s l Hs Hl IH]; intros o b e cs Hcs; cbn [run].
  { apply ensures_ret. intros w Hw. exists cs. cbn. by rewrite app_nil_r, orb_false_r. }
  assert (Hmono : ∀ e1 w, (e1 = true → s = SDispose ∨ e = true) → ∀ o b cs,
    state_ok o b (e1 || disposed l) cs w → state_ok o b (e || disposed (s :: l)) cs w).
  { intros e1 w He1 o1 b1 cs1. apply state_e. unfold disposed. cbn [existsb]. rewrite !orb_true_iff.
    intros [H|H]; [|auto]. destruct (He1 H) as [-> |]; auto. }
  destruct s as [pp|now frame boundary|pk|]; cbn [do_step].
  - eapply ensures_bind; [apply state_change, harmless_patpmt|]. intros [].
    eapply ensures_weaken; [by apply IH|done|]. intros y w (cs' & Hw). exists cs'. cbn. eapply Hmono; [|exact Hw]. auto.
  - destruct Hs as [H1 H2].
    apply (ensures_bind _ _ _ (λ _ w, ∃ p, pend_ok p ∧ state_ok (o || boundary) b e (p :: cs) w)).
    { eapply ensures_bind; [by apply begin_spec|]. intros r. by apply ensures_ret. }
    intros [] w (p & Hp & Hw). destruct (IH _ _ _ (p :: cs) (Forall_cons_2 _ _ _ Hp Hcs) w Hw) as (w' & x & E & cs' & Hw').
    exists w', x. split; [done|]. exists cs'. cbn. eapply Hmono; [|exact Hw']. auto.
  - destruct cs as [|p cs].
    + apply (ensures_bind _ _ _ (λ _, state_ok o b e [])).
      { intros w Hw. exists w, tt. split; [|done]. destruct Hw as (m & fl & segs & cur & e' & (_ & _ & _ & Hc) & _).
        unfold FeedMpegts_end, mbind, eff_bind, leave. by rewrite Hc. }
      intros []. eapply ensures_weaken; [by apply IH|done|]. intros y w (cs' & Hw). exists cs'. cbn. eapply Hmono; [|exact Hw]. auto.
    + apply Forall_cons in Hcs as [Hp Hcs]. eapply ensures_bind; [by apply end_spec|]. intros [].
      eapply ensures_weaken; [by apply IH|done|]. intros y w (cs' & Hw). exists cs'. cbn. rewrite app_assoc. eapply Hmono; [|exact Hw]. auto.
  - eapply ensures_bind; [apply dispose_spec|]. intros [].
    eapply ensures_weaken; [by apply IH|done|]. intros y w (cs' & Hw). exists cs'. cbn. eapply Hmono; [|exact Hw]. auto.
Qed.

Lemma state_new m f : NewMuxer config = Ret m → fs_working f → (records → fs_files f !! record = None) →
  state_ok false [] false [] (mkWorld m f [] []).
Proof.
  intros Hm Hw Hf. apply (state_intro m (fs_files f) [] None false); [by repeat split| |done..].
  assert (Ht : fragTs m = 0 ∧ fragLastTs m = 0 ∧ recordMaxFragDuration m = f64_zero).
  { unfold NewMuxer in Hm. destruct (_ <? 0); [done|]. by injection Hm as <-. }
  destruct Ht as (E1 & E2 & E3). split; rewrite ?E1, ?E2; try done.
  - by apply ring_new.
  - intros Hr _. by apply Hf.
Qed.
End Proofs.

(** C30: whatever the order in which a muxer is fed, fed again from its observer
    and disposed of, on a disk that works and that, in the modes with a record
    playlist, holds none of the stream at the start: no step fails or panics, and
    the disk is that of some list of segments, numbered from 0.  The live playlist
    is that of the last [FragmentNum] closed ones and starts at the number of the
    first of these; the record playlist, in those modes, is that of all; every
    segment file holds its head and what was written to it, until in the mode ASAP
    the segment is [FragmentNum + DeleteThreshold] behind, when it is gone.  The
    segments hold, in order, what was fed since the first boundary, nothing twice
    and nothing lost; one is open exactly when there was a boundary since the last
    dispose.  The live playlist is marked as ended only after a dispose, and is so
    when there are segments and none is open.  The counts of the configuration are
    not negative, the stream's name is one element of a path, and the times of the
    frames are below 2^53. *)
Theorem hls_playlists {F} `{FL : FileSystemLaws F} streamName config observed cwd steps (m : Muxer F) disk :
  plain_name streamName → 0 ≤ FragmentNum config → 0 ≤ DeleteThreshold config →
  NewMuxer config = Ret m → fs_working disk →
  (CleanupMode config = 0 ∨ CleanupMode config = 1 →
   fs_files disk !! GetRecordM3u8FileName (outPath streamName config) streamName = None) →
  Forall step_ok steps →
  ∃ w, run streamName config observed cwd steps (mkWorld m disk [] []) = (w, Ret tt) ∧
  ∃ segs cur ended, on_disk_ok streamName config segs cur ended (fs_files (Hls.disk w)) ∧
    mjoin (sBody <$> segs ++ option_list cur) = fed false 0 steps ∧
    is_open cur = open_after false steps ∧
    (disposed steps = false → ended = false) ∧ (cur = None → segs ≠ [] → ended = true).
Proof.
  intros Hs Hn Hd Hm Hw Hf Hsteps.
  destruct (run_spec streamName config observed cwd Hs Hn Hd steps false [] false [] Hsteps (Forall_nil_2 _)
    (mkWorld m disk [] []) (state_new streamName config Hn Hd m disk Hm Hw Hf)) as (w & [] & E & cs & Hst).
  exists w. split; [exact E|]. destruct Hst as (m' & fl & segs & cur & e & (_ & _ & <- & _) & Hr & Ho & Hb & He & Hc).
  exists segs, cur, e. split; [apply Hr|]. split; [exact Hb|]. split; [exact Ho|]. split; [|exact Hc].
  intros Hdis. cbn in He. rewrite Hdis in He. destruct e; [by specialize (He eq_refl)|done].
Qed.

(** A muxer that is fed by its observer while it opens a segment, and ended. *)
Definition demo_config : MuxerConfig := mkConfig (str "/tmp/hls") 3000 2 1 1 0.
Definition demo_frame (dts : Z) : TsPack.Frame := TsPack.mkFrame dts 0 dts 0 256 TsPack.StreamIdVideo true [].
Definition demo_steps : list Step :=
  [SPatPmt [1; 2]; SBegin 100 (demo_frame 0) true; SBegin 101 (demo_frame 90) false; SEnd [3]; SEnd [4];
   SBegin 200 (demo_frame 360000) true; SEnd [5]; SDispose].
Definition demo_disk : gmap (list Z) (list Z) := ∅.

Lemma hls_playlists_witness :
  ∃ m, NewMuxer demo_config = Ret m ∧
  ∃ w, run (str "a") demo_config true (str "/") demo_steps (mkWorld m demo_disk [] []) = (w, Ret tt) ∧
  ∃ segs cur ended, on_disk_ok (str "a") demo_config segs cur ended (fs_files (Hls.disk w)) ∧
    mjoin (sBody <$> segs ++ option_list cur) = fed false 0 demo_steps ∧
    is_open cur = open_after false demo_steps ∧
    (disposed demo_steps = false → ended = false) ∧ (cur = None → segs ≠ [] → ended = true).
Proof.
  eexists. split; [reflexivity|].
  apply (hls_playlists (str "a") demo_config true (str "/") demo_steps _ demo_disk).
  - split_and!; try done; by apply (bool_decide_eq_true_1 _).
  - done.
  - done.
  - reflexivity.
  - done.
  - done.
  - repeat (constructor; [first [exact I|by vm_compute]|]). constructor.
Defined.

(** The files of that, read back. *)
Example hls_demo_playlist :
  (λ r, match r with
        | (w, Ret _) => Some (fs_files (Hls.disk w) !! (str "/tmp/hls/a/record.m3u8"))
        | _ => None
        end) <$> (m ← match NewMuxer demo_config with Ret m => Some m | _ => None end;
   Some (run (str "a") demo_config true (str "/") demo_steps (mkWorld m demo_disk [] []))) =
  Some (Some (Some (
    line (str "#EXTM3U") ++ line (str "#EXT-X-VERSION:3") ++ line (str "#EXT-X-TARGETDURATION:4") ++
    line (str "#EXT-X-MEDIA-SEQUENCE:0") ++ line [] ++
    line (str "#EXT-X-DISCONTINUITY") ++ line (str "#EXTINF:4.000,") ++ line (str "a-100-0.ts") ++
    line (str "#EXTINF:0.000,") ++ line (str "a-200-1.ts") ++ line (str "#EXT-X-ENDLIST")))).
Proof. by vm_compute. Qed.

(** A segment of 3.4 s raises the target duration to 3.9 s, cut to 3; one of 3.6 s
    that follows does not raise it, and its duration rounds to 4. *)
Example hls_target_duration_too_small :
  let s ms := mkFragment 0 (f64_div (f64_of_int ms) (f64_of_int 1000)) false [] in
  f64_trunc (longest demo_config [s 3400; s 3600]) = 3 ∧
  div_even (num (duration (s 3600))) (den (duration (s 3600))) = 4.
Proof. by vm_compute. Qed.
