(* ===== verification/WebSocket.v ===== *)
(** * WebSocket frames (src/pkg/base/websocket.go)

    The header written before what a session sends, reading the payload of a
    frame, and its unmasking, eight bytes at a time. *)

From S2P Require Import Prelude Naza.

(** bele.BePutUint64 of the naza library. *)
Class Bele64 := { BePutUint64 : Z → list Z → outcome (list Z) }.
Class Bele64Laws (B : Bele64) : Prop := { BePutUint64_writes : writes 8 (be_bytes 8) BePutUint64 }.

Definition bele64_impl : Bele64 := {| BePutUint64 := write_n 8 (be_bytes 8) |}.
#[global] Instance bele64_impl_laws : Bele64Laws bele64_impl.
Proof. split. apply write_n_writes. Qed.

Definition Wso_Continuous : Z := 0.
Definition Wso_Text : Z := 1.
Definition Wso_Binary : Z := 2.

Record WsHeader := mkWsHeader {
  Fin : bool;
  Rsv1 : bool;
  Rsv2 : bool;
  Rsv3 : bool;
  Opcode : Z;
  PayloadLength : Z;
  Masked : bool;
  MaskKey : Z;
}.

Section Frames.
Context {B : Bele} {B8 : Bele64}.

Definition flag (b : bool) (n : Z) : Z := if b then Z.shiftl 1 n else 0.

Definition MakeWsFrameHeader (h : WsHeader) : outcome (list Z) :=
  let '(payload, headerSize) :=
    if PayloadLength h <? 126 then (PayloadLength h, 2)
    else if PayloadLength h <=? 65535 then (126, 4)
    else (127, 10) in
  let headerSize := headerSize + (if Masked h then 4 else 0) in
  let buf := go_make headerSize in
  buf ← go_set buf 0 (Z.lor (Z.lor (Z.lor (Z.lor (flag (Fin h) 7) (flag (Rsv1 h) 6)) (flag (Rsv2 h) 5)) (flag (Rsv3 h) 4))
                            (Opcode h));
  buf ← go_set buf 1 (Z.lor (flag (Masked h) 7) (Z.land (u8 payload) 127));
  buf ← (if payload =? 126 then go_upd_from buf 2 (BePutUint16 (u16 (PayloadLength h)))
         else if payload =? 127 then go_upd_from buf 2 (BePutUint64 (PayloadLength h))
         else Ret buf);
  if Masked h then go_upd_from buf (headerSize - 4) (LePutUint32 (MaskKey h)) else Ret buf.

(** ** Unmasking *)

(** [payload[i] ^= mask[(mpos+i)%4]] for [n] indices from [i]. *)
Fixpoint cipher_bytes (n : nat) (i mpos : Z) (mask payload : list Z) : outcome (list Z) :=
  match n with
  | O => Ret payload
  | S n =>
      x ← go_index payload i;
      k ← go_index mask (Z.rem (mpos + i) 4);
      payload ← go_set payload i (Z.lxor x k);
      cipher_bytes n (i + 1) mpos mask payload
  end.

(** The loop over [n] words from [j], as numbers of 64 bits, the low byte first. *)
Fixpoint cipher_words (n : nat) (j m2 : Z) (payload : list Z) : outcome (list Z) :=
  match n with
  | O => Ret payload
  | S n =>
      chunk ← go_slice payload j (j + 8);
      payload ← go_copy_at payload j (le_bytes 8 (Z.lxor (le_val chunk) m2));
      cipher_words n (j + 8) m2 payload
  end.

Definition remain : list Z := [0; 3; 2; 1].

Definition cipher (payload mask : list Z) (offset : Z) : outcome (list Z) :=
  let n := len payload in
  if n <? 8 then cipher_bytes (length payload) 0 offset mask payload
  else
    let mpos := Z.rem offset 4 in
    ln ← go_index remain mpos;
    let rn := Z.rem (n - ln) 8 in
    payload ← cipher_bytes (Z.to_nat ln) 0 mpos mask payload;
    payload ← cipher_bytes (Z.to_nat rn) (n - rn) mpos mask payload;
    m4 ← go_slice mask 0 4;
    let m := le_val m4 in
    let m2 := Z.lor (u64 (Z.shiftl m 32)) m in
    cipher_words (Z.to_nat (Z.shiftr (n - ln - rn) 3)) ln m2 payload.

(** ** Reading *)

(** The runtime refuses more than this; less is taken from memory. *)
Definition maxAlloc : Z := Z.shiftl 1 48.

(** The payload of a frame and what follows it. *)
Definition ReadWsPayload (r : list Z) : outcome (list Z * list Z) :=
  '(buf, r) ← read 2 r;
  b1 ← go_index buf 1;
  let masked := negb (Z.land b1 128 =? 0) in
  let length := Z.land b1 127 in
  '(payloadLength, r) ←
    (if length <? 126 then Ret (length, r)
     else if length =? 126 then '(buf, r) ← read 2 r; Ret (be_val buf, r)
     else '(buf, r) ← read 8 r; Ret (be_val buf, r));
  '(maskKey, r) ← (if masked then '(buf, r) ← read 4 r; k ← BeUint32 buf; Ret (k, r) else Ret (0, r));
  if payloadLength >? maxAlloc then Panic else
  '(payload, r) ← read payloadLength r;
  payload ← (if masked then cipher payload (be_bytes 4 maskKey) 0 else Ret payload);
  Ret (payload, r).
End Frames.

(** ** Proofs *)

Lemma lxor_u8 a b : is_u8 a → is_u8 b → is_u8 (Z.lxor a b).
Proof.
  intros Ha Hb. assert (0 ≤ Z.lxor a b) by (apply Z.lxor_nonneg; lia). split; [done|].
  destruct (Z.eq_dec (Z.lxor a b) 0) as [->|]; [lia|]. apply Z.log2_lt_pow2 with (b := 8); [lia|].
  pose proof (Z.log2_lxor a b ltac:(lia) ltac:(lia)). pose proof (Z.log2_le_mono a 255 ltac:(lia)).
  pose proof (Z.log2_le_mono b 255 ltac:(lia)). change (Z.log2 255) with 7 in *. lia.
Qed.

(** Bytes on top of each other do not meet. *)
Lemma lxor_low x y a b : is_u8 x → is_u8 y → Z.lxor (x + 256 * a) (y + 256 * b) = Z.lxor x y + 256 * Z.lxor a b.
Proof.
  intros Hx Hy. assert (H : ∀ u v, is_u8 u → u + 256 * v = Z.lor (Z.shiftl v 8) u).
  { intros u v Hu. rewrite Z.shiftl_mul_pow2, lor_disjoint by (change (2 ^ 8) with 256; lia). change (2 ^ 8) with 256. lia. }
  rewrite !H by (done || by apply lxor_u8). apply Z.bits_inj'. intros n Hn.
  rewrite Z.lxor_spec, !Z.lor_spec, !Z.shiftl_spec, !Z.lxor_spec by done.
  assert (Hhigh : ∀ u, is_u8 u → 8 ≤ n → Z.testbit u n = false).
  { intros u Hu Hn8. destruct (Z.eq_dec u 0) as [->|]; [apply Z.bits_0|]. apply Z.bits_above_log2; [lia|].
    pose proof (Z.log2_le_mono u 255 ltac:(lia)). change (Z.log2 255) with 7 in *. lia. }
  destruct (Z.lt_ge_cases n 8) as [Hlt|Hge].
  - rewrite (Z.testbit_neg_r a), (Z.testbit_neg_r b) by lia. done.
  - rewrite (Hhigh x), (Hhigh y) by done. by rewrite !orb_false_r.
Qed.

Lemma le_val_cons x l : le_val (x :: l) = x + 256 * le_val l.
Proof. unfold le_val, be_val. rewrite reverse_cons, foldl_app. cbn. lia. Qed.
Lemma le_bytes_le_val b : is_bytes b → le_bytes (length b) (le_val b) = b.
Proof.
  intros Hb. unfold le_bytes, le_val. rewrite <- (length_reverse b), be_bytes_be_val by by apply is_bytes_reverse.
  apply reverse_involutive.
Qed.

Lemma le_val_lxor a b : length a = length b → is_bytes a → is_bytes b → le_val (zip_with Z.lxor a b) = Z.lxor (le_val a) (le_val b).
Proof.
  revert b. induction a as [|x a IH]; intros [|y b] Hl Ha Hb; try done.
  apply Forall_cons in Ha as [Hx Ha]. apply Forall_cons in Hb as [Hy Hb]. cbn [zip_with].
  rewrite !le_val_cons, IH, lxor_low by (done || by injection Hl). done.
Qed.
Lemma zip_lxor_bytes a b : is_bytes a → is_bytes b → is_bytes (zip_with Z.lxor a b).
Proof.
  intros Ha. revert b. induction Ha as [|x a Hx Ha IH]; intros b Hb; [constructor|]. destruct Hb as [|y b Hy Hb]; [constructor|].
  cbn [zip_with]. constructor; [by apply lxor_u8|by apply IH].
Qed.

(** A word is masked by the four bytes, twice. *)
Lemma word_xor chunk mask : length chunk = 8%nat → length mask = 4%nat → is_bytes chunk → is_bytes mask →
  le_bytes 8 (Z.lxor (le_val chunk) (Z.lor (u64 (Z.shiftl (le_val mask) 32)) (le_val mask))) = zip_with Z.lxor chunk (mask ++ mask).
Proof.
  intros Hc Hm Hbc Hbm. assert (Hv : 0 ≤ le_val mask < 2 ^ 32).
  { pose proof (le_val_le_bytes 4 (le_val mask)) as H. rewrite <- Hm in H at 1. rewrite le_bytes_le_val in H by done.
    rewrite H. apply Z.mod_pos_bound. lia. }
  assert (E : Z.lor (u64 (Z.shiftl (le_val mask) 32)) (le_val mask) = le_val (mask ++ mask)).
  { rewrite Z.shiftl_mul_pow2 by lia. unfold u64. rewrite Z.mod_small by (change 18446744073709551616 with (2 ^ 32 * 2 ^ 32); nia).
    rewrite lor_disjoint by lia. destruct mask as [|a [|b [|c [|d [|]]]]]; try done. cbn [app]. rewrite !le_val_cons. change (le_val []) with 0. lia. }
  rewrite E, <- le_val_lxor; [|rewrite length_app; lia|done|by apply Forall_app].
  replace 8%nat with (length (zip_with Z.lxor chunk (mask ++ mask))) by (rewrite length_zip_with, length_app; lia).
  apply le_bytes_le_val, zip_lxor_bytes; [done|by apply Forall_app].
Qed.

(** The byte of the mask for an index. *)
Definition mask_at (mask : list Z) (i : Z) : Z := mask !!! Z.to_nat (i mod 4).
(** The definition of masking in RFC 6455. *)
Definition masked_by (mask : list Z) (offset : Z) (payload : list Z) : list Z :=
  imap (λ i x, Z.lxor x (mask_at mask (offset + Z.of_nat i))) payload.

Section Masking.
Context (mask : list Z) (Hlen : length mask = 4%nat) (Hmask : is_bytes mask).

Lemma mask_lookup i : mask !! Z.to_nat (i mod 4) = Some (mask_at mask i).
Proof.
  unfold mask_at. apply list_lookup_lookup_total_lt. pose proof (Z.mod_pos_bound i 4). lia.
Qed.
Lemma mask_at_u8 i : is_u8 (mask_at mask i).
Proof. apply (proj1 (Forall_lookup (λ x, is_u8 x) mask) Hmask _ _ (mask_lookup i)). Qed.
Lemma mask_at_mod i : mask_at mask (i mod 4) = mask_at mask i.
Proof. unfold mask_at. by rewrite Z.mod_mod. Qed.

Lemma masked_by_app offset a b : masked_by mask offset (a ++ b) = masked_by mask offset a ++ masked_by mask (offset + len a) b.
Proof.
  unfold masked_by. rewrite imap_app. f_equal. apply imap_ext. intros i x _. cbn. do 2 f_equal. lia.
Qed.
Lemma masked_by_cons offset x b : masked_by mask offset (x :: b) = Z.lxor x (mask_at mask offset) :: masked_by mask (offset + 1) b.
Proof.
  pose proof (masked_by_app offset [x] b) as H. cbn [app] in H. rewrite H. unfold masked_by at 1. cbn. by rewrite Z.add_0_r.
Qed.
Lemma masked_by_mod offset b : masked_by mask (offset mod 4) b = masked_by mask offset b.
Proof.
  apply imap_ext. intros i x _. f_equal. rewrite <- (mask_at_mod (offset mod 4 + _)), <- (mask_at_mod (offset + _)).
  by rewrite Zplus_mod_idemp_l.
Qed.
Lemma length_masked_by offset b : length (masked_by mask offset b) = length b.
Proof. apply length_imap. Qed.

Lemma cipher_bytes_spec mpos : 0 ≤ mpos → ∀ b a c,
  cipher_bytes (length b) (len a) mpos mask (a ++ b ++ c) = Ret (a ++ masked_by mask (mpos + len a) b ++ c).
Proof.
  intros Hm. induction b as [|x b IH]; intros a c; [done|]. cbn [length cipher_bytes app].
  rewrite go_index_app by done. cbn [mbind outcome_bind]. rewrite (go_index_Ret mask _ (mask_at mask (mpos + len a))).
  2:{ apply Z.rem_nonneg; lia. }
  2:{ rewrite Z.rem_mod_nonneg by lia. apply mask_lookup. }
  cbn [mbind outcome_bind]. rewrite (go_set_app a _ _ x) by done. cbn [mbind outcome_bind].
  replace (len a + 1) with (len (a ++ [Z.lxor x (mask_at mask (mpos + len a))])) by (rewrite length_app; cbn [length]; lia).
  change (a ++ Z.lxor x (mask_at mask (mpos + len a)) :: b ++ c) with (a ++ [Z.lxor x (mask_at mask (mpos + len a))] ++ b ++ c).
  rewrite (app_assoc a), IH, masked_by_cons, <- app_assoc. 
  replace (mpos + len (a ++ [_])) with (mpos + len a + 1) by (rewrite length_app; cbn [length]; lia). done.
Qed.

Lemma cipher_words_spec : ∀ n b a c, length b = (8 * n)%nat → is_bytes b →
  cipher_words n (len a) (Z.lor (u64 (Z.shiftl (le_val mask) 32)) (le_val mask)) (a ++ b ++ c) =
    Ret (a ++ masked_by mask 0 b ++ c).
Proof.
  induction n as [|n IH]; intros b a c Hb Hbb; [destruct b; [done|cbn in Hb; lia]|].
  rewrite <- (take_drop 8 b) in Hbb |- *. set (w := take 8 b) in *. set (b' := drop 8 b) in *.
  assert (Hw : length w = 8%nat) by (unfold w; rewrite length_take; lia).
  assert (Hb' : length b' = (8 * n)%nat) by (unfold b'; rewrite length_drop; lia). clearbody w b'.
  apply Forall_app in Hbb as [Hw' Hbb]. cbn [cipher_words]. rewrite <- (app_assoc w).
  rewrite (go_slice_app a w) by lia. cbn [mbind outcome_bind]. rewrite word_xor by done.
  assert (E : zip_with Z.lxor w (mask ++ mask) = masked_by mask 0 w).
  { destruct mask as [|k0 [|k1 [|k2 [|k3 [|]]]]]; try done.
    destruct w as [|x0 [|x1 [|x2 [|x3 [|x4 [|x5 [|x6 [|x7 [|]]]]]]]]]; try done. }
  rewrite E, (go_copy_at_app a w (b' ++ c)) by (rewrite ?length_masked_by; done). cbn [mbind outcome_bind].
  replace (len a + 8) with (len (a ++ masked_by mask 0 w)) by (rewrite length_app, length_masked_by; lia).
  rewrite (app_assoc a), IH, masked_by_app, <- !app_assoc by done. do 3 f_equal. f_equal.
  rewrite Hw. rewrite <- (masked_by_mod (0 + Z.of_nat 8)). done.
Qed.

Lemma cipher_spec payload offset : 0 ≤ offset → is_bytes payload → cipher payload mask offset = Ret (masked_by mask offset payload).
Proof.
  intros Ho Hb. unfold cipher. destruct (Z.ltb_spec (len payload) 8) as [Hn|Hn].
  { pose proof (cipher_bytes_spec offset Ho payload [] []) as H. cbn [app length] in H.
    rewrite !app_nil_r in H. change (Z.of_nat 0) with 0 in H. by rewrite H, Z.add_0_r. }
  rewrite Z.rem_mod_nonneg by lia. rewrite <- masked_by_mod. pose proof (Z.mod_pos_bound offset 4 ltac:(lia)) as Hm.
  set (mpos := offset mod 4) in *. clearbody mpos. clear Ho offset.
  assert (Hln : ∃ ln, go_index remain mpos = Ret ln ∧ 0 ≤ ln < 4 ∧ (mpos + ln) mod 4 = 0).
  { assert (mpos = 0 ∨ mpos = 1 ∨ mpos = 2 ∨ mpos = 3) as [-> |[-> |[-> | ->]]] by lia; by eexists. }
  destruct Hln as (ln & -> & Hln & Hzero). cbn [mbind outcome_bind]. rewrite Z.rem_mod_nonneg by lia.
  pose proof (Z.mod_pos_bound (len payload - ln) 8 ltac:(lia)) as Hrn. set (rn := (len payload - ln) mod 8) in *.
  assert (Hw : ∃ w, len payload - ln - rn = 8 * w ∧ 0 ≤ w).
  { exists ((len payload - ln) / 8). unfold rn. pose proof (Z.div_mod (len payload - ln) 8). split; [lia|]. apply Z.div_pos; lia. }
  destruct Hw as (w & Hw & Hw0). clearbody rn.
  rewrite <- (take_drop (Z.to_nat ln) payload) in Hb |- *. set (p1 := take _ _) in *. set (q := drop _ _) in *.
  assert (H1 : len p1 = ln) by (unfold p1; rewrite length_take; lia).
  assert (Hq : len q = 8 * w + rn) by (unfold q; rewrite length_drop; lia).
  assert (Hlen' : len payload = len p1 + len q) by lia. rewrite Hlen' in Hn, Hw. clearbody p1 q. clear Hlen'.
  rewrite <- (take_drop (Z.to_nat (8 * w)) q) in Hb |- *. set (p2 := take _ _) in *. set (p3 := drop _ _) in *.
  assert (H2 : len p2 = 8 * w) by (unfold p2; rewrite length_take; lia).
  assert (H3 : len p3 = rn) by (unfold p3; rewrite length_drop; lia). clearbody p2 p3.
  pose proof (cipher_bytes_spec mpos ltac:(lia) p1 [] (p2 ++ p3)) as E1. cbn [app length] in E1. change (Z.of_nat 0) with 0 in E1.
  replace (Z.to_nat ln) with (length p1) by lia. rewrite E1. cbn [mbind outcome_bind].
  pose proof (cipher_bytes_spec mpos ltac:(lia) p3 (masked_by mask (mpos + 0) p1 ++ p2) []) as E2.
  rewrite length_app, length_masked_by, Nat2Z.inj_add, !app_nil_r in E2. rewrite <- app_assoc in E2.
  replace (Z.to_nat rn) with (length p3) by lia. replace (len (p1 ++ p2 ++ p3) - rn) with (len p1 + len p2) by (rewrite !length_app; lia).
  rewrite E2. cbn [mbind outcome_bind]. rewrite (go_slice_all mask) by (rewrite ?Hlen; done). cbn [mbind outcome_bind].
  replace (Z.to_nat (Z.shiftr (len (p1 ++ p2 ++ p3) - ln - rn) 3)) with (Z.to_nat w).
  2:{ f_equal. rewrite Z.shiftr_div_pow2 by lia. change (2 ^ 3) with 8.
      apply Z.div_unique_exact; [lia|]. rewrite !length_app. lia. }
  rewrite <- app_assoc. apply Forall_app in Hb as [_ Hb]. apply Forall_app in Hb as [Hb _].
  pose proof (cipher_words_spec (Z.to_nat w) p2 (masked_by mask (mpos + 0) p1)
    (masked_by mask (mpos + (len p1 + len p2)) p3) ltac:(lia) Hb) as E3.
  rewrite length_masked_by in E3. rewrite <- H1, E3, !masked_by_app, Z.add_0_r, <- Z.add_assoc. do 3 f_equal.
  rewrite <- (masked_by_mod (mpos + len p1)). by rewrite H1, Hzero.
Qed.
End Masking.

(** The first byte of a header, and the length in the two after it. *)
Definition ws_first (h : WsHeader) : Z :=
  Z.lor (Z.lor (Z.lor (Z.lor (flag (Fin h) 7) (flag (Rsv1 h) 6)) (flag (Rsv2 h) 5)) (flag (Rsv3 h) 4)) (Opcode h).
Definition ws_length (m n : Z) : list Z :=
  if n <? 126 then [m + n] else if n <=? 65535 then (m + 126) :: be_bytes 2 n else (m + 127) :: be_bytes 8 n.
Definition ws_wire (h : WsHeader) : list Z :=
  ws_first h :: ws_length (if Masked h then 128 else 0) (PayloadLength h) ++ (if Masked h then le_bytes 4 (MaskKey h) else []).

Section Wire.
Context {B : Bele} {HB : BeleLaws B} {B8 : Bele64} {HB8 : Bele64Laws B8}.

Definition ws_ok (h : WsHeader) : Prop := 0 ≤ PayloadLength h < 2 ^ 64 ∧ is_u32 (MaskKey h).

(** A number put where the buffer is still empty. *)
Lemma upd_number n enc f v h m i : writes n enc f → length (enc v) = n → 0 ≤ v < 256 ^ Z.of_nat n → len h = i → Z.of_nat n ≤ m →
  go_upd_from (h ++ go_make m) i (f v) = Ret ((h ++ enc v) ++ go_make (m - Z.of_nat n)).
Proof.
  intros Hf Hl Hv Hi Hm. rewrite <- Hl. apply upd_fill; [done|lia|]. apply Hf; [|done].
  unfold go_make. rewrite length_replicate. lia.
Qed.

Lemma length_byte (m : bool) p : 0 ≤ p < 128 → Z.lor (flag m 7) (Z.land (u8 p) 127) = (if m then 128 else 0) + p.
Proof.
  intros Hp. change 127 with (2 ^ 7 - 1). rewrite land_mask by lia. change (2 ^ 7) with 128. unfold u8. rewrite (Z.mod_small p 256), Z.mod_small by lia.
  destruct m; cbn [flag]; [|rewrite Z.lor_0_l; lia]. apply (lor_disjoint 1 p 7); lia.
Qed.

Lemma mask_fill h pre m i : is_u32 (MaskKey h) → m = (if Masked h then 4 else 0) → i + 4 = len pre + m →
  (if Masked h then go_upd_from (pre ++ go_make m) i (LePutUint32 (MaskKey h)) else Ret (pre ++ go_make m)) =
    Ret (pre ++ if Masked h then le_bytes 4 (MaskKey h) else []).
Proof.
  intros Hk -> Hi. destruct (Masked h); [|done]. replace i with (len pre) by lia. rewrite (upd_number 4 (le_bytes 4)); [by rewrite app_nil_r|apply LePutUint32_writes|done..].
Qed.

Lemma MakeWsFrameHeader_spec h : ws_ok h → MakeWsFrameHeader h = Ret (ws_wire h).
Proof.
  intros [Hl Hk]. unfold MakeWsFrameHeader. set (m := if Masked h then 4 else 0).
  assert (Hm : 0 ≤ m ≤ 4) by (unfold m; destruct (Masked h); lia).
  assert (Hset : ∀ n p, 0 ≤ n → 0 ≤ p < 128 → ∀ f : list Z → outcome (list Z),
    (buf ← go_set (go_make (2 + n)) 0 (ws_first h); buf ← go_set buf 1 (Z.lor (flag (Masked h) 7) (Z.land (u8 p) 127)); f buf) =
      f ([ws_first h; (if Masked h then 128 else 0) + p] ++ go_make n)).
  { intros n p Hn Hp f. rewrite length_byte by done. pose proof (set_fill [] (2 + n) 0 (ws_first h) eq_refl ltac:(lia)) as E.
    cbn [app] in E. rewrite E, bind_Ret. pose proof (set_fill [ws_first h] (2 + n - 1) 1 ((if Masked h then 128 else 0) + p) eq_refl ltac:(lia)) as E2.
    cbn [app] in E2. rewrite E2, bind_Ret. cbn [app]. do 4 f_equal. lia. }
  unfold ws_wire, ws_length. destruct (Z.ltb_spec (PayloadLength h) 126); [|destruct (Z.leb_spec (PayloadLength h) 65535)].
  - rewrite Hset by lia. go_test. go_test. rewrite bind_Ret. apply mask_fill; [done|done|cbn [length]; lia].
  - replace (4 + m) with (2 + (2 + m)) by lia. rewrite Hset by lia. change (126 =? 126) with true. cbv iota.
    unfold u16. rewrite Z.mod_small by lia.
    rewrite (upd_number 2 (be_bytes 2)) by first [apply BePutUint16_writes|apply be_bytes_length|done|lia].
    rewrite bind_Ret, mask_fill; [by rewrite <- app_assoc|done|unfold m; lia|rewrite length_app, be_bytes_length; cbn; lia].
  - replace (10 + m) with (2 + (8 + m)) by lia. rewrite Hset by lia. change (127 =? 126) with false. change (127 =? 127) with true. cbv iota.
    rewrite (upd_number 8 (be_bytes 8)) by first [apply BePutUint64_writes|apply be_bytes_length|done|lia].
    rewrite bind_Ret, mask_fill; [by rewrite <- app_assoc|done|unfold m; lia|rewrite length_app, be_bytes_length; cbn; lia].
Qed.

(** The second byte of a header. *)
Lemma second_byte (m : bool) p : 0 ≤ p < 128 →
  Z.land ((if m then 128 else 0) + p) 127 = p ∧ negb (Z.land ((if m then 128 else 0) + p) 128 =? 0) = m.
Proof.
  intros Hp. assert (H : forallb (λ p, (Z.land ((if m then 128 else 0) + p) 127 =? p) &&
    Bool.eqb (negb (Z.land ((if m then 128 else 0) + p) 128 =? 0)) m) (seqZ 0 128) = true) by (by destruct m; vm_compute).
  rewrite forallb_forall in H. specialize (H p). rewrite andb_true_iff, Z.eqb_eq, eqb_true_iff in H.
  apply H. apply list_elem_of_In, elem_of_seqZ. lia.
Qed.

(** The key, if there is one. *)
Lemma read_key h r : is_u32 (MaskKey h) →
  (if Masked h then '(buf, r) ← read 4 ((if Masked h then le_bytes 4 (MaskKey h) else []) ++ r); k ← BeUint32 buf; Ret (k, r)
   else Ret (0, (if Masked h then le_bytes 4 (MaskKey h) else []) ++ r)) =
    Ret (if Masked h then be_val (le_bytes 4 (MaskKey h)) else 0, r).
Proof.
  intros _. destruct (Masked h); [|done]. rewrite read_app by (rewrite le_bytes_length; done). rewrite bind_Ret.
  pose proof (BeUint32_reads (le_bytes 4 (MaskKey h)) [] (le_bytes_length _ _) (is_bytes_le_bytes _ _)) as E.
  rewrite app_nil_r in E. by rewrite E.
Qed.

(** A number after the two bytes. *)
Lemma read_number n v t : 0 ≤ v < 256 ^ Z.of_nat n → ('(buf, r) ← read (Z.of_nat n) (be_bytes n v ++ t); Ret (be_val buf, r)) = Ret (v, t).
Proof. intros Hv. rewrite read_app by by rewrite be_bytes_length. rewrite bind_Ret. by rewrite be_val_be_bytes_small. Qed.

(** What a header is read as. *)
Lemma ReadWs_header h r : ws_ok h →
  ReadWsPayload (ws_wire h ++ r) =
    if PayloadLength h >? maxAlloc then Panic else
    '(payload, r) ← read (PayloadLength h) r;
    payload ← (if Masked h then cipher payload (le_bytes 4 (MaskKey h)) 0 else Ret payload);
    Ret (payload, r).
Proof.
  intros [Hl Hk]. assert (Hkey : be_bytes 4 (be_val (le_bytes 4 (MaskKey h))) = le_bytes 4 (MaskKey h)).
  { rewrite <- (le_bytes_length 4 (MaskKey h)) at 1. apply be_bytes_be_val, is_bytes_le_bytes. }
  set (t := (if Masked h then le_bytes 4 (MaskKey h) else []) ++ r).
  assert (Hlen : ∃ p ext, ws_wire h ++ r = [ws_first h; (if Masked h then 128 else 0) + p] ++ ext ++ t ∧ 0 ≤ p < 128 ∧
    (if p <? 126 then Ret (p, ext ++ t)
     else if p =? 126 then '(buf, r) ← read 2 (ext ++ t); Ret (be_val buf, r)
     else '(buf, r) ← read 8 (ext ++ t); Ret (be_val buf, r)) = Ret (PayloadLength h, t)).
  { unfold ws_wire, ws_length, t. destruct (Z.ltb_spec (PayloadLength h) 126); [|destruct (Z.leb_spec (PayloadLength h) 65535)].
    - exists (PayloadLength h), []. split; [done|]. split; [lia|]. by go_test.
    - exists 126, (be_bytes 2 (PayloadLength h)). split; [cbn [app]; by rewrite <- !app_assoc|]. split; [lia|].
      apply (read_number 2). change (256 ^ Z.of_nat 2) with 65536. lia.
    - exists 127, (be_bytes 8 (PayloadLength h)). split; [cbn [app]; by rewrite <- !app_assoc|]. split; [lia|].
      by apply (read_number 8). }
  destruct Hlen as (p & ext & -> & Hp & El). destruct (second_byte (Masked h) p Hp) as [E1 E2].
  unfold ReadWsPayload. rewrite read_app by done. rewrite bind_Ret. cbv beta iota zeta. cbn [app].
  rewrite (go_index_Ret _ 1 ((if Masked h then 128 else 0) + p)), bind_Ret by done. cbv zeta. rewrite E1, E2, El, bind_Ret. cbv beta iota. unfold t. rewrite read_key, bind_Ret by done.
  cbv beta iota. destruct (Masked h); [by rewrite Hkey|done].
Qed.
End Wire.

Lemma masked_by_involutive mask offset b : masked_by mask offset (masked_by mask offset b) = b.
Proof.
  unfold masked_by. apply list_eq. intros i. rewrite !list_lookup_imap.
  destruct (b !! i); [|done]. cbn. f_equal. by rewrite Z.lxor_assoc, Z.lxor_nilpotent, Z.lxor_0_r.
Qed.
Lemma is_bytes_masked mask offset b : length mask = 4%nat → is_bytes mask → is_bytes b → is_bytes (masked_by mask offset b).
Proof.
  intros Hl Hm Hb. apply Forall_lookup. intros i x Hx. unfold masked_by in Hx. rewrite list_lookup_imap in Hx.
  destruct (b !! i) eqn:E; [|done]. injection Hx as <-. apply lxor_u8; [|by apply mask_at_u8].
  apply (proj1 (Forall_lookup (λ x, is_u8 x) b) Hb _ _ E).
Qed.

(** C31: the payload behind a header that [MakeWsFrameHeader] wrote is read back,
    masked or not, in each of the three forms of the length, and what follows the
    frame is left: the unmasking eight bytes at a time agrees with the byte by byte
    definition of RFC 6455 ([masked_by]), whatever the length. *)
Theorem ws_frame_roundtrip {B : Bele} (HB : BeleLaws B) {B8 : Bele64} (HB8 : Bele64Laws B8) h payload rest :
  is_u32 (MaskKey h) → is_bytes payload → len payload = PayloadLength h → PayloadLength h ≤ maxAlloc →
  let sent := if Masked h then masked_by (le_bytes 4 (MaskKey h)) 0 payload else payload in
  (hd ← MakeWsFrameHeader h; ReadWsPayload (hd ++ sent ++ rest)) = Ret (payload, rest).
Proof.
  intros Hk Hb Hl Hmax sent. assert (H : ws_ok h) by (split; [change maxAlloc with (2 ^ 48) in Hmax; lia|done]).
  rewrite MakeWsFrameHeader_spec, bind_Ret, ReadWs_header by done.
  rewrite Z.gtb_ltb, (proj2 (Z.ltb_ge _ _)) by done. unfold sent. destruct (Masked h).
  - rewrite read_app by by rewrite length_masked_by. rewrite bind_Ret. cbv beta iota.
    rewrite cipher_spec, masked_by_involutive; [done|apply le_bytes_length|apply is_bytes_le_bytes|lia|].
    apply is_bytes_masked; [apply le_bytes_length|apply is_bytes_le_bytes|done].
  - by rewrite read_app.
Qed.

Lemma ws_frame_roundtrip_witness :
  let h := mkWsHeader true false false false Wso_Binary 130 true 16909060 in
  let payload := replicate 130 7 in
  (hd ← MakeWsFrameHeader (B := bele_impl) (B8 := bele64_impl) h;
   ReadWsPayload (B := bele_impl) (hd ++ masked_by (le_bytes 4 16909060) 0 payload ++ [9])) = Ret (payload, [9]).
Proof.
  apply (ws_frame_roundtrip bele_impl_laws bele64_impl_laws
    (mkWsHeader true false false false Wso_Binary 130 true 16909060) (replicate 130 7) [9]); try done.
  by apply (bool_decide_eq_true_1 _); vm_compute.
Defined.

(** A frame of ten bytes that announces more than the address space panics. *)
Example ws_length_panics :
  ReadWsPayload (B := bele_impl) [130; 127; 255; 255; 255; 255; 255; 255; 255; 255] = Panic.
Proof. by vm_compute. Qed.
