(* ===== verification/RtspMsg.v ===== *)
(** * Messages of RTSP (src/pkg/rtsp/rtsp.go, pack.go, auth.go, interleaved.go)

    The text of the responses and requests, the fields of the Transport header,
    the credentials of both authentication schemes, and the frames that carry
    RTP on the command connection.  The date and the random bytes of a nonce are
    arguments; nazamd5 is a class. *)

From S2P Require Import Prelude Naza GoText.

(** ** rtsp.go *)

Definition MethodOptions : list Z := str "OPTIONS".
Definition MethodAnnounce : list Z := str "ANNOUNCE".
Definition MethodDescribe : list Z := str "DESCRIBE".
Definition MethodSetup : list Z := str "SETUP".
Definition MethodRecord : list Z := str "RECORD".
Definition MethodPlay : list Z := str "PLAY".
Definition MethodTeardown : list Z := str "TEARDOWN".
Definition MethodGetParameter : list Z := str "GET_PARAMETER".

Definition HeaderAccept : list Z := str "Accept".
Definition HeaderUserAgent : list Z := str "User-Agent".
Definition HeaderCSeq : list Z := str "CSeq".
Definition HeaderContentLength : list Z := str "Content-Length".
Definition HeaderTransport : list Z := str "Transport".
Definition HeaderSession : list Z := str "Session".
Definition HeaderRange : list Z := str "Range".
Definition HeaderScale : list Z := str "Scale".
Definition HeaderWwwAuthenticate : list Z := str "WWW-Authenticate".
Definition HeaderAuthorization : list Z := str "Authorization".
Definition HeaderPublic : list Z := str "Public".
Definition HeaderAcceptApplicationSdp : list Z := str "application/sdp".
Definition HeaderRangeDefault : list Z := str "npt=0.000-".

(** The templates with two and four numbers in their places. *)
Definition HeaderTransportClientPlay (a b : Z) : list Z :=
  str "RTP/AVP/UDP;unicast;client_port=" ++ Itoa a ++ str "-" ++ Itoa b.
Definition HeaderTransportClientPlayTcp (a b : Z) : list Z :=
  str "RTP/AVP/TCP;unicast;interleaved=" ++ Itoa a ++ str "-" ++ Itoa b.
Definition HeaderTransportClientRecord (a b : Z) : list Z :=
  str "RTP/AVP/UDP;unicast;client_port=" ++ Itoa a ++ str "-" ++ Itoa b ++ str ";mode=record".
Definition HeaderTransportClientRecordTcp (a b : Z) : list Z :=
  str "RTP/AVP/TCP;unicast;interleaved=" ++ Itoa a ++ str "-" ++ Itoa b ++ str ";mode=record".
Definition HeaderTransportServerPlay (a b c d : Z) : list Z :=
  str "RTP/AVP/UDP;unicast;client_port=" ++ Itoa a ++ str "-" ++ Itoa b ++ str ";server_port=" ++ Itoa c ++ str "-" ++ Itoa d.
Definition HeaderTransportServerRecord (a b c d : Z) : list Z :=
  HeaderTransportServerPlay a b c d ++ str ";mode=record".

Definition TransportFieldClientPort : list Z := str "client_port".
Definition TransportFieldServerPort : list Z := str "server_port".
Definition TransportFieldInterleaved : list Z := str "interleaved".

Definition Interleaved : Z := 36.
Definition sessionId : list Z := str "191201771".
Definition unpackerItemMaxSize : Z := 1024.

(** The last item with this prefix and one [=] counts. *)
Definition transport_value (setupTransport key : list Z) : list Z :=
  foldl (λ clientPort item,
    if HasPrefix item key then match Split item (str "=") with [_; v] => v | _ => clientPort end else clientPort)
    [] (Split setupTransport (str ";")).

Definition parseTransport (setupTransport key : list Z) : outcome (Z * Z) :=
  match Split (transport_value setupTransport key) (str "-") with
  | [first; second] =>
      match Atoi first with
      | (_, Some e) => Fail e
      | (iFirst, None) =>
          match Atoi second with
          | (_, Some e) => Fail e
          | (iSecond, None) => Ret (u16 iFirst, u16 iSecond)
          end
      end
  | _ => Fail ErrRtsp
  end.
Definition parseRtpRtcpChannel (t : list Z) : outcome (Z * Z) := parseTransport t TransportFieldInterleaved.
Definition parseClientPort (t : list Z) : outcome (Z * Z) := parseTransport t TransportFieldClientPort.
Definition parseServerPort (t : list Z) : outcome (Z * Z) := parseTransport t TransportFieldServerPort.

(** ** pack.go *)

Definition crlf : list Z := [13; 10].
Definition rtsp_ok : list Z := str "RTSP/1.0 200 OK" ++ crlf.
Definition field (k v : list Z) : list Z := k ++ str ": " ++ v ++ crlf.

(** [server] is LalRtspOptionsResponseServer. *)
Definition PackResponseOptions (server cseq : list Z) : list Z :=
  rtsp_ok ++ field (str "Server") server ++ field HeaderCSeq cseq ++
  field HeaderPublic (str "DESCRIBE, ANNOUNCE, SETUP, PLAY, PAUSE, RECORD, TEARDOWN") ++ crlf.
Definition PackResponseAnnounce (cseq : list Z) : list Z := rtsp_ok ++ field HeaderCSeq cseq ++ crlf.
Definition PackResponseDescribe (date cseq sdp : list Z) : list Z :=
  rtsp_ok ++ field HeaderCSeq cseq ++ field (str "Date") date ++ field (str "Content-Type") (str "application/sdp") ++
  field HeaderContentLength (Itoa (len sdp)) ++ crlf ++ sdp.
Definition PackResponseSetup (date cseq htv : list Z) : list Z :=
  rtsp_ok ++ field HeaderCSeq cseq ++ field (str "Date") date ++ field HeaderSession sessionId ++ field HeaderTransport htv ++ crlf.
Definition PackResponseRecord (cseq : list Z) : list Z :=
  rtsp_ok ++ field HeaderCSeq cseq ++ field HeaderSession sessionId ++ crlf.
Definition PackResponsePlay (date cseq : list Z) : list Z := rtsp_ok ++ field HeaderCSeq cseq ++ field (str "Date") date ++ crlf.
Definition PackResponseTeardown (cseq : list Z) : list Z := rtsp_ok ++ field HeaderCSeq cseq ++ crlf.
Definition PackResponseAuthorized (date cseq authenticate : list Z) : list Z :=
  str "RTSP/1.0 401 Unauthorized" ++ crlf ++ field HeaderCSeq cseq ++ field (str "Date") date ++
  field HeaderWwwAuthenticate authenticate ++ crlf.

(** The headers in the order in which the map is ranged over. *)
Definition PackRequest (method uri : list Z) (headers : list (list Z * list Z)) (body : list Z) : list Z :=
  method ++ str " " ++ uri ++ str " RTSP/1.0" ++ crlf ++ mjoin ((λ kv, field kv.1 kv.2) <$> headers) ++ crlf ++ body.

(** ** auth.go *)

(** naza/nazamd5: the digest in hexadecimal. *)
Class Md5 := { md5 : list Z → list Z }.

Definition AuthTypeDigest : list Z := str "Digest".
Definition AuthTypeBasic : list Z := str "Basic".
Definition AuthAlgorithm : list Z := str "MD5".

Record Auth := mkAuth {
  Username : list Z;
  Password : list Z;
  Typ : list Z;
  Realm : list Z;
  Nonce : list Z;
  Algorithm : list Z;
  auth_Uri : list Z;
  Response : list Z;
  Opaque : list Z;
  Stale : list Z;
}.
Definition no_auth : Auth := mkAuth [] [] [] [] [] [] [] [] [] [].

Definition quote : list Z := [34].
(** [key=] and a quote. *)
Definition pre (key : list Z) : list Z := key ++ str "=" ++ quote.

Definition getV (s pre : list Z) : list Z :=
  match Cut pre s with
  | None => []
  | Some (_, rest) => match Cut quote rest with None => [] | Some (v, _) => v end
  end.

Definition set_typ (a : Auth) (t : list Z) : Auth :=
  mkAuth (Username a) (Password a) t (Realm a) (Nonce a) (Algorithm a) (auth_Uri a) (Response a) (Opaque a) (Stale a).
Definition set_user (a : Auth) (u p : list Z) : Auth :=
  mkAuth u p (Typ a) (Realm a) (Nonce a) (Algorithm a) (auth_Uri a) (Response a) (Opaque a) (Stale a).

Definition ParseAuthorization (a : Auth) (authStr : list Z) : Auth * option goerr :=
  if HasPrefix authStr (str "Basic ") then
    let a := set_typ a AuthTypeDigest in
    match b64_DecodeString (TrimPrefix authStr (str "Basic ")) with
    | (_, Some e) => (a, Some e)
    | (authInfo, None) =>
        match Split authInfo (str ":") with
        | [u; p] => (set_user a u p, None)
        | _ => (a, Some ErrFmt)
        end
    end
  else if HasPrefix authStr (str "Digest ") then
    let s := TrimPrefix authStr (str "Digest ") in
    (mkAuth (getV s (pre (str "username"))) (Password a) AuthTypeDigest (getV s (pre (str "realm"))) (getV s (pre (str "nonce")))
       (getV s (pre (str "algorithm"))) (getV s (pre (str "uri"))) (getV s (pre (str "response"))) (getV s (pre (str "opaque")))
       (getV s (pre (str "stale"))), None)
  else (a, None).

Definition FeedWwwAuthenticate (a : Auth) (auths : list (list Z)) (username password : list Z) : Auth :=
  let a := set_user a username password in
  match auths with
  | [] => a
  | s :: _ =>
      let s := TrimSpace (TrimPrefix s HeaderWwwAuthenticate) in
      if HasPrefix s AuthTypeBasic then set_typ a AuthTypeBasic
      else if negb (HasPrefix s AuthTypeDigest) then a
      else
        let alg := getV s (pre (str "algorithm")) in
        mkAuth username password AuthTypeDigest (getV s (pre (str "realm"))) (getV s (pre (str "nonce")))
          (if bool_decide (alg = []) then AuthAlgorithm else alg) (auth_Uri a) (Response a) (Opaque a) (Stale a)
  end.

Section Digest.
Context {M : Md5}.

(** [md5(md5(username:realm:password):nonce:md5(cmd:url))] *)
Definition digest (username realm password nonce method uri : list Z) : list Z :=
  let ha1 := md5 (username ++ str ":" ++ realm ++ str ":" ++ password) in
  let ha2 := md5 (method ++ str ":" ++ uri) in
  md5 (ha1 ++ str ":" ++ nonce ++ str ":" ++ ha2).

Definition quoted (key v : list Z) : list Z := pre key ++ v ++ quote.

Definition MakeAuthorization (a : Auth) (method uri : list Z) : list Z :=
  if bool_decide (Username a = []) then []
  else if bool_decide (Typ a = AuthTypeBasic) then
    Typ a ++ str " " ++ b64_EncodeToString (Username a ++ str ":" ++ Password a)
  else if bool_decide (Typ a = AuthTypeDigest) then
    let response := digest (Username a) (Realm a) (Password a) (Nonce a) method uri in
    Typ a ++ str " " ++ Join [quoted (str "username") (Username a); quoted (str "realm") (Realm a); quoted (str "nonce") (Nonce a);
      quoted (str "uri") uri; quoted (str "response") response; quoted (str "algorithm") (Algorithm a)] (str ", ")
  else [].

Definition LalRtspRealm : list Z := str "lal".
(** [k]: what crypto/rand gives for the nonce. *)
Definition MakeAuthenticate (k method : list Z) : list Z :=
  if bool_decide (method = AuthTypeBasic) then method ++ str " " ++ quoted (str "realm") LalRtspRealm
  else if bool_decide (method = AuthTypeDigest) then
    method ++ str " " ++ quoted (str "realm") LalRtspRealm ++ str ", " ++ quoted (str "nonce") (md5 k)
  else [].

Definition CheckAuthorization (a : Auth) (method username password : list Z) : bool :=
  if bool_decide (Typ a = AuthTypeBasic) then bool_decide (username = Username a) && bool_decide (password = Password a)
  else if bool_decide (Typ a = AuthTypeDigest) then
    bool_decide (Response a = digest username (Realm a) password (Nonce a) method (auth_Uri a))
  else false.
End Digest.

(** ** interleaved.go *)

Section Interleaved.
Context {B : Bele}.

(** Whether there is a packet, the packet and its channel, and what follows. *)
Definition readInterleaved (r : list Z) : outcome (bool * list Z * Z * list Z) :=
  match r with
  | [] => Fail EOF
  | flag :: r' =>
      if negb (flag =? Interleaved) then Ret (false, [], 0, r) else
      match r' with
      | [] => Fail EOF
      | channel :: r =>
          '(rtpLenBuf, r) ← read 2 r;
          rtpLen ← BeUint16 rtpLenBuf;
          if rtpLen >? 65507 then Fail UnexpectedEOF else
          '(rtpBuf, r) ← read rtpLen r;
          Ret (true, rtpBuf, channel, r)
      end
  end.

Definition packInterleaved (channel : Z) (rtpPacket : list Z) : outcome (list Z) :=
  let channel := if (channel <? 0) || (channel >? 255) then 0 else channel in
  let packetLen := len rtpPacket in
  let ret := go_make (4 + packetLen) in
  ret ← go_set ret 0 Interleaved;
  ret ← go_set ret 1 (u8 channel);
  ret ← go_upd_from ret 2 (BePutUint16 (u16 packetLen));
  if packetLen >? 0 then go_copy_at ret 4 rtpPacket else Ret ret.
End Interleaved.

(** ** Proofs: the credentials *)

Lemma HasPrefix_inv s p : HasPrefix s p = true → ∃ t, s = p ++ t.
Proof. intros H%bool_decide_eq_true. exists (drop (length p) s). rewrite <- H at 1. by rewrite take_drop. Qed.

(** Where the first [c] is. *)
Lemma first_inj (c : Z) a b r t : c ∉ a → c ∉ b → a ++ c :: r = b ++ c :: t → a = b ∧ r = t.
Proof.
  revert b. induction a as [|x a IH]; intros [|y b] Ha Hb E; cbn in E.
  - by injection E.
  - apply not_elem_of_cons in Hb as [Hy _]. by injection E as ->.
  - apply not_elem_of_cons in Ha as [Hx _]. by injection E as ->.
  - apply not_elem_of_cons in Ha as [_ Ha]. apply not_elem_of_cons in Hb as [_ Hb]. injection E as -> E.
    by destruct (IH b Ha Hb E) as [-> ->].
Qed.

Lemma pre_split key t : pre key ++ t = (key ++ str "=") ++ 34 :: t.
Proof. unfold pre, quote. by rewrite <- !app_assoc. Qed.
Lemma quote_free_key (key : list Z) : 34 ∉ key → 34 ∉ key ++ str "=".
Proof. intros Hk. rewrite not_elem_of_app. split; [done|]. by apply (bool_decide_eq_true_1 _). Qed.

(** A text without quotes before a quote, whether [key=] ends it or not. *)
Lemma Cut_quote_found key q rest : 34 ∉ q → 34 ∉ key → Cut (pre key) (q ++ pre key ++ rest) = Some (q, rest).
Proof.
  intros Hq Hk. induction q as [|x q IH]; cbn [app].
  - destruct (pre key ++ rest) as [|y t] eqn:E; [by destruct key|]. cbn [Cut]. rewrite <- E, HasPrefix_app. by rewrite drop_app_length.
  - apply not_elem_of_cons in Hq as [Hx Hq]. cbn [Cut]. destruct (HasPrefix _ _) eqn:E; [|by rewrite IH].
    exfalso. apply HasPrefix_inv in E as [t E]. rewrite !pre_split in E. change (x :: q ++ ?r) with ((x :: q) ++ r) in E.
    rewrite app_assoc in E. apply first_inj in E as [E _].
    + apply (f_equal length) in E. rewrite length_app in E. cbn in E. lia.
    + rewrite not_elem_of_app, not_elem_of_cons. auto using quote_free_key.
    + by apply quote_free_key.
Qed.

Lemma Cut_quote_skip key p rest : 34 ∉ p → 34 ∉ key → (∀ q, p ≠ q ++ key ++ str "=") →
  Cut (pre key) (p ++ 34 :: rest) = '(a, b) ← Cut (pre key) rest; Some (p ++ 34 :: a, b).
Proof.
  intros Hp Hk. induction p as [|x p IH]; intros Hend; cbn [app Cut].
  - destruct (HasPrefix _ _) eqn:E; [|by destruct (Cut (pre key) rest) as [[a b]|]].
    apply HasPrefix_inv in E as [t E]. rewrite pre_split in E. apply (first_inj 34 []) in E as [E _]; [|apply not_elem_of_nil|by apply quote_free_key].
    by destruct key.
  - apply not_elem_of_cons in Hp as [Hx Hp]. destruct (HasPrefix _ _) eqn:E.
    + apply HasPrefix_inv in E as [t E]. rewrite pre_split in E. change (x :: p ++ ?r) with ((x :: p) ++ r) in E.
      apply first_inj in E as [E _]; [|by apply not_elem_of_cons|by apply quote_free_key]. by destruct (Hend []).
    + rewrite IH; [|done|intros q ->; by apply (Hend (x :: q))]. by destruct (Cut (pre key) rest) as [[a b]|].
Qed.

(** Values that can stand between quotes. *)
Definition value_ok (v : list Z) : Prop := (34 ∉ v) ∧ last v ≠ Some 61.

Definition fields (fs : list (list Z * list Z)) : list Z := Join ((λ kv, quoted kv.1 kv.2) <$> fs) (str ", ").

Lemma fields_cons lead k v fs : lead ++ fields ((k, v) :: fs) =
  (lead ++ k ++ str "=") ++ 34 :: v ++ 34 :: match fs with [] => [] | _ => str ", " ++ fields fs end.
Proof.
  unfold fields. destruct fs as [|[k' v'] fs]; cbn [fmap list_fmap Join]; unfold quoted at 1, pre, quote; cbn [fst snd].
  - by rewrite <- !app_assoc.
  - rewrite <- !app_assoc. done.
Qed.

Lemma value_end v key : value_ok v → ∀ q, v ≠ q ++ key ++ str "=".
Proof. intros [_ Hv] q ->. apply Hv. by rewrite !last_app. Qed.

(** No field before that of [k] is taken for it. *)
Fixpoint not_before (lead k : list Z) (fs : list (list Z * list Z)) : Prop :=
  match fs with
  | [] => True
  | (k', v) :: fs => (∀ q, lead ++ k' ++ str "=" ≠ q ++ k ++ str "=") ∧ (34 ∉ k') ∧ value_ok v ∧ not_before (str ", ") k fs
  end.

Lemma getV_field k v fs' : 34 ∉ k → 34 ∉ v → ∀ fs lead, 34 ∉ lead → not_before lead k fs →
  getV (lead ++ fields (fs ++ (k, v) :: fs')) (pre k) = v.
Proof.
  intros Hk Hv. unfold getV.
  assert (H : ∀ fs lead, 34 ∉ lead → not_before lead k fs →
    ∃ a b, Cut (pre k) (lead ++ fields (fs ++ (k, v) :: fs')) = Some (a, v ++ 34 :: b)).
  2:{ intros fs lead Hl Hn. destruct (H fs lead Hl Hn) as (a & b & ->). unfold quote.
    pose proof (Cut_found 34 [] v b Hv) as E. cbn [app] in E. by rewrite E. }
  induction fs as [|[k' v'] fs IH]; intros lead Hl Hn; cbn [app].
  - rewrite fields_cons. eexists lead, _. rewrite <- !app_assoc.
    change (lead ++ k ++ str "=" ++ 34 :: v ++ ?r) with (lead ++ k ++ str "=" ++ [34] ++ v ++ r).
    rewrite (app_assoc (str "=")), (app_assoc k). by apply Cut_quote_found.
  - destruct Hn as (Hend & Hk' & [Hv1 Hv2] & Hn). rewrite fields_cons.
    destruct (IH (str ", ")) as (a & b & E); [by apply (bool_decide_eq_true_1 _)|done|].
    destruct (fs ++ (k, v) :: fs') as [|kv l] eqn:El; [by destruct fs|].
    rewrite Cut_quote_skip; [|rewrite !not_elem_of_app; split_and!; try done; by apply (bool_decide_eq_true_1 _)|done|exact Hend].
    rewrite Cut_quote_skip; [|done|done|by apply value_end]. rewrite E. cbn. by eexists _, b.
Qed.

Lemma getV_none k : 34 ∉ k → ∀ fs lead, 34 ∉ lead → not_before lead k fs → fs ≠ [] → getV (lead ++ fields fs) (pre k) = [].
Proof.
  intros Hk. unfold getV. assert (H : ∀ fs lead, 34 ∉ lead → not_before lead k fs → fs ≠ [] → Cut (pre k) (lead ++ fields fs) = None).
  2:{ intros fs lead Hl Hn Hne. by rewrite H. }
  induction fs as [|[k' v'] fs IH]; intros lead Hl Hn Hne; [done|]. destruct Hn as (Hend & Hk' & Hv & Hn). rewrite fields_cons.
  rewrite Cut_quote_skip; [|rewrite !not_elem_of_app; split_and!; try done; by apply (bool_decide_eq_true_1 _)|done|exact Hend].
  rewrite Cut_quote_skip; [|apply Hv|done|by apply value_end].
  destruct fs as [|kv fs]; [|rewrite IH; [done|by apply (bool_decide_eq_true_1 _)|done|done]].
  cbn [Cut]. unfold HasPrefix. rewrite take_nil, bool_decide_false; [done|]. by destruct k.
Qed.

(** nazamd5 gives hexadecimal digits. *)
Class Md5Laws (M : Md5) : Prop := { md5_hex b : Forall (λ c, 48 ≤ c ≤ 57 ∨ 97 ≤ c ≤ 102) (md5 b) }.

Lemma hex_value_ok l : Forall (λ c, 48 ≤ c ≤ 57 ∨ 97 ≤ c ≤ 102) l → value_ok l.
Proof.
  intros H. split.
  - intros Hin. rewrite Forall_forall in H. specialize (H _ Hin). cbn in H. lia.
  - intros E. apply last_Some_elem_of in E. rewrite Forall_forall in H. specialize (H _ E). cbn in H. lia.
Qed.

(** A key that no field before [k] ends with. *)
Lemma label_ok lead k' k : (∀ q, lead ++ k' ≠ q ++ k) → ∀ q, lead ++ k' ++ str "=" ≠ q ++ k ++ str "=".
Proof. intros H q E. rewrite !app_assoc in E. apply app_inj_tail in E as [E _]. by apply (H q). Qed.

(** Decides that one constant text does not end with another. *)
Lemma not_end (a k : list Z) : bool_decide (drop (length a - length k) a = k) = false → ∀ q, a ≠ q ++ k.
Proof.
  intros H%bool_decide_eq_false q ->. apply H. rewrite length_app, Nat.add_sub. apply drop_app_length.
Qed.
Ltac fields_ok :=
  repeat (split; [apply label_ok, not_end; reflexivity|split; [by apply (bool_decide_eq_true_1 _)|
    split; [first [done|split; [by apply (bool_decide_eq_true_1 _)|done]]|]]]); exact I.
Ltac no_quote := by apply (bool_decide_eq_true_1 _).

Section AuthProofs.
Context {M : Md5} {HM : Md5Laws M}.

Lemma digest_ok u r p n m uri : value_ok (digest u r p n m uri).
Proof. apply hex_value_ok, md5_hex. Qed.

(** What the server reads in the header of a client. *)
Lemma ParseAuthorization_digest a0 s0 method uri : Typ a0 = AuthTypeDigest → Username a0 ≠ [] → value_ok (Username a0) →
  value_ok (Realm a0) → value_ok (Nonce a0) → value_ok uri → value_ok (Algorithm a0) →
  let a := (ParseAuthorization s0 (MakeAuthorization a0 method uri)).1 in
  Typ a = AuthTypeDigest ∧ Realm a = Realm a0 ∧ Nonce a = Nonce a0 ∧ auth_Uri a = uri ∧
  Response a = digest (Username a0) (Realm a0) (Password a0) (Nonce a0) method uri.
Proof.
  intros Ht Hu0 Hu Hr Hn Huri Ha. unfold MakeAuthorization. rewrite Ht, (bool_decide_false (Username a0 = [])) by done.
  rewrite bool_decide_false, bool_decide_true by done. set (resp := digest _ _ _ _ _ _). assert (Hresp : value_ok resp) by apply digest_ok.
  clearbody resp. set (u := Username a0) in *. set (r := Realm a0) in *. set (n := Nonce a0) in *. set (al := Algorithm a0) in *.
  set (s := Join _ _). assert (Es : s = [] ++ fields [(str "username", u); (str "realm", r); (str "nonce", n); (str "uri", uri);
    (str "response", resp); (str "algorithm", al)]) by done.
  unfold ParseAuthorization. change (AuthTypeDigest ++ str " " ++ s) with (str "Digest " ++ s).
  change (HasPrefix (str "Digest " ++ s) (str "Basic ")) with false. cbv iota. unfold TrimPrefix. rewrite HasPrefix_app.
  rewrite drop_app_length. cbn [fst Typ Realm Nonce auth_Uri Response]. rewrite Es. split; [done|]. split_and!.
  - apply (getV_field (str "realm") r _ ltac:(no_quote) ltac:(apply Hr) [_]); [no_quote|]. fields_ok.
  - apply (getV_field (str "nonce") n _ ltac:(no_quote) ltac:(apply Hn) [_; _]); [no_quote|]. fields_ok.
  - apply (getV_field (str "uri") uri _ ltac:(no_quote) ltac:(apply Huri) [_; _; _]); [no_quote|]. fields_ok.
  - apply (getV_field (str "response") resp _ ltac:(no_quote) ltac:(apply Hresp) [_; _; _; _]); [no_quote|]. fields_ok.
Qed.

(** What the client keeps of the challenge of a server. *)
Lemma FeedWwwAuthenticate_digest a k u p :
  let a' := FeedWwwAuthenticate a [MakeAuthenticate k AuthTypeDigest] u p in
  Typ a' = AuthTypeDigest ∧ Username a' = u ∧ Password a' = p ∧ Realm a' = LalRtspRealm ∧ Nonce a' = md5 k ∧ Algorithm a' = AuthAlgorithm.
Proof.
  pose proof (hex_value_ok _ (md5_hex k)) as Hk. set (n := md5 k) in *.
  assert (E : MakeAuthenticate k AuthTypeDigest = str "Digest " ++ fields [(str "realm", LalRtspRealm); (str "nonce", n)]) by done.
  set (f := fields _) in *.
  assert (Ef : str "Digest " ++ f = 68 :: (drop 1 (str "Digest ") ++ quoted (str "realm") LalRtspRealm ++ str ", " ++ pre (str "nonce") ++ n) ++ [34]).
  { rewrite <- !app_assoc. done. }
  assert (Et : TrimSpace (TrimPrefix (str "Digest " ++ f) HeaderWwwAuthenticate) = str "Digest " ++ f).
  { unfold TrimPrefix. change (HasPrefix (str "Digest " ++ f) HeaderWwwAuthenticate) with false. cbv iota.
    rewrite Ef. apply TrimSpace_both; unfold graph; lia. }
  assert (E1 : getV (str "Digest " ++ f) (pre (str "realm")) = LalRtspRealm).
  { apply (getV_field (str "realm") LalRtspRealm _ ltac:(no_quote) ltac:(no_quote) []); [no_quote|exact I]. }
  assert (E2 : getV (str "Digest " ++ f) (pre (str "nonce")) = n).
  { apply (getV_field (str "nonce") n _ ltac:(no_quote) ltac:(apply Hk) [_]); [no_quote|]. fields_ok. }
  assert (E3 : getV (str "Digest " ++ f) (pre (str "algorithm")) = []).
  { apply getV_none; [no_quote|no_quote| |done]. fields_ok. }
  unfold FeedWwwAuthenticate. rewrite E. cbv zeta. rewrite Et, E1, E2, E3.
  change (HasPrefix (str "Digest " ++ f) AuthTypeBasic) with false. change (HasPrefix (str "Digest " ++ f) AuthTypeDigest) with true.
  by split_and!.
Qed.
End AuthProofs.

(** ** Proofs: transport *)

Lemma parse_ports key setupTransport a b : 0 ≤ a < 65536 → 0 ≤ b < 65536 →
  transport_value setupTransport key = Itoa a ++ str "-" ++ Itoa b → parseTransport setupTransport key = Ret (a, b).
Proof.
  intros Ha Hb E. unfold parseTransport. rewrite E.
  assert (Es : Split (Itoa a ++ str "-" ++ Itoa b) (str "-") = [Itoa a; Itoa b]).
  { apply (Split_Join 45 [] (Itoa a) [Itoa b]); [|constructor; [|constructor]]; apply Itoa_no; lia. }
  rewrite Es, !Atoi_Itoa by lia. unfold u16. by rewrite !Z.mod_small by lia.
Qed.

(** An item [k=a-b]. *)
Definition item (k : list Z) (ab : Z * Z) : list Z := k ++ str "=" ++ Itoa ab.1 ++ str "-" ++ Itoa ab.2.
Lemma item_no c k ab : 0 ≤ ab.1 → 0 ≤ ab.2 → ¬ (48 ≤ c ≤ 57) → c ≠ 61 → c ≠ 45 → c ∉ k → c ∉ item k ab.
Proof.
  intros H1 H2 Hc E1 E2 Hk. unfold item. rewrite !not_elem_of_app. split_and!; [done| |by apply Itoa_no| |by apply Itoa_no].
  - by intros [?|?%not_elem_of_nil]%elem_of_cons.
  - by intros [?|?%not_elem_of_nil]%elem_of_cons.
Qed.
Lemma item_value k ab : 0 ≤ ab.1 → 0 ≤ ab.2 → 61 ∉ k → Split (item k ab) (str "=") = [k; Itoa ab.1 ++ str "-" ++ Itoa ab.2].
Proof.
  intros H1 H2 Hk. apply (Split_Join 61 [] k [_]); [done|]. constructor; [|constructor]. rewrite !not_elem_of_app.
  split_and!; [apply Itoa_no; lia| |apply Itoa_no; lia]. by intros [?|?%not_elem_of_nil]%elem_of_cons.
Qed.

Definition ports_ok (ab : Z * Z) : Prop := 0 ≤ ab.1 < 65536 ∧ 0 ≤ ab.2 < 65536.

Lemma transport_value_Join key x l : 59 ∉ x → Forall (λ s, 59 ∉ s) l →
  transport_value (Join (x :: l) (str ";")) key =
    foldl (λ clientPort item,
      if HasPrefix item key then match Split item (str "=") with [_; v] => v | _ => clientPort end else clientPort) [] (x :: l).
Proof. intros Hx Hl. unfold transport_value. f_equal. by apply (Split_Join 59 []). Qed.

Lemma item_prefix k ab : HasPrefix (item k ab) k = true.
Proof. apply HasPrefix_app. Qed.

Ltac items_ok := repeat first [apply Forall_nil_2|apply Forall_cons_2]; first [by apply (bool_decide_eq_true_1 _) | apply item_no; [cbn; lia..|by apply (bool_decide_eq_true_1 _)]].
(** The value of the field [k] of a header made of these items. *)
Ltac value_is x l k ab :=
  rewrite (transport_value_Join _ x l) by items_ok; cbn [foldl];
  rewrite (item_prefix k ab), (item_value k ab) by first [cbn; lia | by apply (bool_decide_eq_true_1 _)]; reflexivity.

(** The channels and ports that either side writes in a Transport header,
    playing or recording, over TCP or UDP, are those that the other side reads. *)
Theorem rtsp_transport_roundtrip c s : ports_ok c → ports_ok s →
  parseRtpRtcpChannel (HeaderTransportClientPlayTcp c.1 c.2) = Ret c ∧
  parseRtpRtcpChannel (HeaderTransportClientRecordTcp c.1 c.2) = Ret c ∧
  parseClientPort (HeaderTransportClientPlay c.1 c.2) = Ret c ∧
  parseClientPort (HeaderTransportClientRecord c.1 c.2) = Ret c ∧
  (let h := HeaderTransportServerPlay c.1 c.2 s.1 s.2 in parseClientPort h = Ret c ∧ parseServerPort h = Ret s) ∧
  (let h := HeaderTransportServerRecord c.1 c.2 s.1 s.2 in parseClientPort h = Ret c ∧ parseServerPort h = Ret s).
Proof.
  destruct c as [a b], s as [c d]. intros [Ha Hb] [Hc Hd]. cbn [fst snd] in *.
  set (udp := str "RTP/AVP/UDP"). set (tcp := str "RTP/AVP/TCP"). set (uni := str "unicast"). set (md := str "mode=record").
  set (ci := item TransportFieldInterleaved (a, b)). set (cp := item TransportFieldClientPort (a, b)).
  set (sp := item TransportFieldServerPort (c, d)).
  assert (E1 : HeaderTransportClientPlayTcp a b = Join [tcp; uni; ci] (str ";")) by done.
  assert (E2 : HeaderTransportClientRecordTcp a b = Join [tcp; uni; ci; md] (str ";")).
  { unfold ci, item. cbn [Join fst snd]. rewrite <- !app_assoc. done. }
  assert (E3 : HeaderTransportClientPlay a b = Join [udp; uni; cp] (str ";")) by done.
  assert (E4 : HeaderTransportClientRecord a b = Join [udp; uni; cp; md] (str ";")).
  { unfold cp, item. cbn [Join fst snd]. rewrite <- !app_assoc. done. }
  assert (E5 : HeaderTransportServerPlay a b c d = Join [udp; uni; cp; sp] (str ";")).
  { unfold cp, item. cbn [Join fst snd]. rewrite <- !app_assoc. done. }
  assert (E6 : HeaderTransportServerRecord a b c d = Join [udp; uni; cp; sp; md] (str ";")).
  { unfold HeaderTransportServerRecord. rewrite E5. cbn [Join]. rewrite <- !app_assoc. done. }
  rewrite E1, E2, E3, E4, E5, E6. unfold parseRtpRtcpChannel, parseClientPort, parseServerPort.
  split_and!; apply parse_ports; try done; unfold ci, cp, sp in *.
  - value_is tcp [uni; item TransportFieldInterleaved (a, b)] TransportFieldInterleaved (a, b).
  - value_is tcp [uni; item TransportFieldInterleaved (a, b); md] TransportFieldInterleaved (a, b).
  - value_is udp [uni; item TransportFieldClientPort (a, b)] TransportFieldClientPort (a, b).
  - value_is udp [uni; item TransportFieldClientPort (a, b); md] TransportFieldClientPort (a, b).
  - value_is udp [uni; item TransportFieldClientPort (a, b); item TransportFieldServerPort (c, d)] TransportFieldClientPort (a, b).
  - value_is udp [uni; item TransportFieldClientPort (a, b); item TransportFieldServerPort (c, d)] TransportFieldServerPort (c, d).
  - value_is udp [uni; item TransportFieldClientPort (a, b); item TransportFieldServerPort (c, d); md] TransportFieldClientPort (a, b).
  - value_is udp [uni; item TransportFieldClientPort (a, b); item TransportFieldServerPort (c, d); md] TransportFieldServerPort (c, d).
Qed.

(** C32: the header that a client makes of a digest challenge, whatever was in its
    own and the server's state before, is accepted by the server that made the
    challenge exactly when the digest of the name and password the server is
    configured with is that of the client's; so with the same name and password it
    is.  The name is not empty, and neither it nor the URI has a quote in it or an
    equals sign at its end. *)
Theorem rtsp_digest_auth {M : Md5} (HM : Md5Laws M) (client server : Auth) k method uri u p u' p' :
  u ≠ [] → value_ok u → value_ok uri →
  let challenged := FeedWwwAuthenticate client [MakeAuthenticate k AuthTypeDigest] u p in
  let answered := (ParseAuthorization server (MakeAuthorization challenged method uri)).1 in
  CheckAuthorization answered method u' p' =
    bool_decide (digest u LalRtspRealm p (md5 k) method uri = digest u' LalRtspRealm p' (md5 k) method uri) ∧
  (u' = u → p' = p → CheckAuthorization answered method u' p' = true).
Proof.
  intros Hu0 Hu Huri challenged answered. destruct (FeedWwwAuthenticate_digest client k u p) as (E1 & E2 & E3 & E4 & E5 & E6).
  fold challenged in E1, E2, E3, E4, E5, E6. clearbody challenged.
  destruct (ParseAuthorization_digest challenged server method uri) as (F1 & F2 & F3 & F4 & F5); rewrite ?E2, ?E4, ?E5, ?E6; try done.
  - by split; [no_quote|].
  - apply hex_value_ok, md5_hex.
  - by split; [no_quote|].
  - fold answered in F1, F2, F3, F4, F5. rewrite E2, E3, E4, E5 in F5. rewrite E4 in F2. rewrite E5 in F3.
    assert (E : CheckAuthorization answered method u' p' =
      bool_decide (digest u LalRtspRealm p (md5 k) method uri = digest u' LalRtspRealm p' (md5 k) method uri)).
    { unfold CheckAuthorization. rewrite F1, F2, F3, F4, F5. done. }
    split; [exact E|]. intros -> ->. rewrite E. by apply bool_decide_true.
Qed.

(** The server never finds out about credentials of the Basic scheme. *)
Lemma basic_never a authStr : Typ a ≠ AuthTypeBasic → Typ (ParseAuthorization a authStr).1 ≠ AuthTypeBasic.
Proof.
  intros Ha. unfold ParseAuthorization. destruct (HasPrefix authStr (str "Basic ")).
  - destruct (b64_DecodeString _) as [info [e|]]; [done|]. destruct (Split _ _) as [|? [|? [|]]]; done.
  - by destruct (HasPrefix authStr (str "Digest ")).
Qed.

(** Nothing ties an answer to the challenge: the nonce and the realm are the client's. *)
Lemma nonce_not_checked {M : Md5} (HM : Md5Laws M) (server : Auth) u p realm nonce method uri :
  u ≠ [] → value_ok u → value_ok realm → value_ok nonce → value_ok uri →
  let answer := mkAuth u p AuthTypeDigest realm nonce AuthAlgorithm [] [] [] [] in
  CheckAuthorization (ParseAuthorization server (MakeAuthorization answer method uri)).1 method u p = true.
Proof.
  intros Hu0 Hu Hr Hn Huri answer.
  destruct (ParseAuthorization_digest answer server method uri) as (F1 & F2 & F3 & F4 & F5); try done.
  - by split; [no_quote|].
  - unfold CheckAuthorization. rewrite F1, F2, F3, F4, F5. by apply bool_decide_true.
Qed.

Lemma packInterleaved_run {B : Bele} (HB : BeleLaws B) channel packet :
  packInterleaved channel packet =
    Ret ((Interleaved :: (if (channel <? 0) || (channel >? 255) then 0 else channel) :: be_bytes 2 (u16 (len packet))) ++ packet).
Proof.
  unfold packInterleaved. rewrite !Z.gtb_ltb. set (ch := if _ || _ then 0 else channel).
  assert (u8 ch = ch) as ->.
  { unfold u8. apply Z.mod_small. unfold ch.
    destruct (Z.ltb_spec channel 0); cbn [orb]; [lia|]. destruct (Z.ltb_spec 255 channel); lia. }
  set (n := len packet). assert (0 ≤ n) by (unfold n; lia). set (k := u16 n).
  pose proof (set_fill [] (4 + n) 0 Interleaved eq_refl ltac:(lia)) as E1. cbn [app] in E1. rewrite E1, bind_Ret.
  pose proof (set_fill [Interleaved] (4 + n - 1) 1 ch eq_refl ltac:(lia)) as E2. cbn [app] in E2. rewrite E2, bind_Ret.
  assert (E3 : go_upd_from (Interleaved :: ch :: go_make (4 + n - 1 - 1)) 2 (BePutUint16 k) =
    Ret ((Interleaved :: ch :: be_bytes 2 k) ++ go_make n)).
  { pose proof (upd_fill [Interleaved; ch] (2 + n) 2 (BePutUint16 k) (be_bytes 2 k) eq_refl) as E.
    cbn [app] in E. replace (4 + n - 1 - 1) with (2 + n) by lia. rewrite E; rewrite ?be_bytes_length.
    - replace (2 + n - Z.of_nat 2) with n by lia. done.
    - lia.
    - apply BePutUint16_writes; [by rewrite length_go_make|]. unfold k, u16. by apply Z.mod_pos_bound. }
  rewrite E3, bind_Ret. destruct (Z.ltb_spec 0 n) as [Hn|Hn].
  - rewrite copy_fill by (rewrite ?be_bytes_length; cbn; rewrite ?be_bytes_length; unfold n; lia).
    unfold n. rewrite Z.sub_diag. by rewrite app_nil_r.
  - unfold n in *. destruct packet; [done|cbn in Hn; lia].
Qed.

Lemma readInterleaved_run {B : Bele} (HB : BeleLaws B) channel packet rest : len packet < 65536 →
  readInterleaved ((Interleaved :: channel :: be_bytes 2 (len packet)) ++ packet ++ rest) =
    (if len packet <=? 65507 then Ret (true, packet, channel, rest) else Fail UnexpectedEOF).
Proof.
  intros Hl. set (n := len packet) in *.
  cbn [app readInterleaved]. rewrite Z.eqb_refl. cbn [negb]. rewrite read_app, bind_Ret by by rewrite be_bytes_length.
  cbv beta iota. pose proof (BeUint16_be n [] ltac:(lia)) as E. rewrite app_nil_r in E. rewrite E, bind_Ret, Z.gtb_ltb.
  destruct (Z.ltb_spec 65507 n), (Z.leb_spec n 65507); try lia; [done|]. by rewrite read_app.
Qed.

(** A packet framed for the command connection is read back with its channel,
    and what follows is left; one that is too long is refused by the reader.  Any
    other byte in front is left for the reader of messages. *)
Theorem rtsp_interleaved_roundtrip {B : Bele} (HB : BeleLaws B) channel packet rest :
  0 ≤ channel ≤ 255 → len packet < 65536 →
  ∃ b, packInterleaved channel packet = Ret b ∧ len b = 4 + len packet ∧
    readInterleaved (b ++ rest) =
      (if len packet <=? 65507 then Ret (true, packet, channel, rest) else Fail UnexpectedEOF) ∧
    (∀ x, x ≠ Interleaved → readInterleaved (x :: b) = Ret (false, [], 0, x :: b)).
Proof.
  intros Hc Hl. eexists. split; [by apply packInterleaved_run|].
  rewrite Z.gtb_ltb, (proj2 (Z.ltb_ge channel 0)), (proj2 (Z.ltb_ge 255 channel)) by lia. cbn [orb].
  unfold u16. rewrite Z.mod_small by lia. split; [rewrite length_app; cbn; rewrite be_bytes_length; lia|]. split.
  - rewrite <- app_assoc. by apply readInterleaved_run.
  - intros x Hx. cbn [readInterleaved app]. by rewrite (proj2 (Z.eqb_neq x Interleaved)).
Qed.

Lemma rtsp_transport_roundtrip_witness :
  let c := (8000, 8001) in let s := (30000, 30001) in
  parseRtpRtcpChannel (HeaderTransportClientPlayTcp c.1 c.2) = Ret c ∧
  parseRtpRtcpChannel (HeaderTransportClientRecordTcp c.1 c.2) = Ret c ∧
  parseClientPort (HeaderTransportClientPlay c.1 c.2) = Ret c ∧
  parseClientPort (HeaderTransportClientRecord c.1 c.2) = Ret c ∧
  (let h := HeaderTransportServerPlay c.1 c.2 s.1 s.2 in parseClientPort h = Ret c ∧ parseServerPort h = Ret s) ∧
  (let h := HeaderTransportServerRecord c.1 c.2 s.1 s.2 in parseClientPort h = Ret c ∧ parseServerPort h = Ret s).
Proof. apply (rtsp_transport_roundtrip (8000, 8001) (30000, 30001)); split; cbn; lia. Defined.

Lemma rtsp_digest_auth_witness :
  let M := {| md5 := λ _, str "0123456789abcdef" |} in
  let challenged := FeedWwwAuthenticate no_auth [MakeAuthenticate (M := M) [7] AuthTypeDigest] (str "q") (str "p") in
  let answered := (ParseAuthorization no_auth (MakeAuthorization (M := M) challenged MethodDescribe (str "rtsp://h/live/a"))).1 in
  CheckAuthorization (M := M) answered MethodDescribe (str "q") (str "p") =
    bool_decide (digest (M := M) (str "q") LalRtspRealm (str "p") (md5 [7]) MethodDescribe (str "rtsp://h/live/a") =
                 digest (M := M) (str "q") LalRtspRealm (str "p") (md5 [7]) MethodDescribe (str "rtsp://h/live/a")) ∧
  ((str "q") = (str "q") → (str "p") = (str "p") →
   CheckAuthorization (M := M) answered MethodDescribe (str "q") (str "p") = true).
Proof.
  intros M. assert (HM : Md5Laws M) by (split; intros b; by apply (bool_decide_eq_true_1 _)).
  apply (rtsp_digest_auth HM no_auth no_auth [7] MethodDescribe (str "rtsp://h/live/a") (str "q") (str "p") (str "q") (str "p")).
  - done.
  - by split; [no_quote|].
  - by split; [no_quote|].
Defined.

Lemma rtsp_interleaved_roundtrip_witness :
  ∃ b, packInterleaved (B := bele_impl) 2 [9; 8; 7] = Ret b ∧ len b = 4 + len [9; 8; 7] ∧
    readInterleaved (B := bele_impl) (b ++ [1]) =
      (if len [9; 8; 7] <=? 65507 then Ret (true, [9; 8; 7], 2, [1]) else Fail UnexpectedEOF) ∧
    (∀ x, x ≠ Interleaved → readInterleaved (B := bele_impl) (x :: b) = Ret (false, [], 0, x :: b)).
Proof. apply (rtsp_interleaved_roundtrip bele_impl_laws 2 [9; 8; 7] [1]); [lia|done]. Defined.
