(* ===== verification/SessionStat.v ===== *)
(** * Statistics of sessions (src/pkg/base/basic_session_stat.go, t_session.go,
    t_unique.go)

    The static part of a session's statistics, its counters, and the bit rates and
    the signs of life taken from the counters at intervals. *)

From stdpp Require Import gmap.
From S2P Require Import Prelude GoText.
From S2P Require Import GroupIn.

(** ** Kinds of sessions *)

Definition SessionProtocolCustomize : Z := 1.
Definition SessionProtocolRtmp : Z := 2.
Definition SessionProtocolRtsp : Z := 3.
Definition SessionProtocolFlv : Z := 4.
Definition SessionProtocolTs : Z := 5.
Definition SessionProtocolPs : Z := 6.
Definition SessionProtocolHls : Z := 7.

Definition SessionBaseTypePubSub : Z := 1.
Definition SessionBaseTypePub : Z := 2.
Definition SessionBaseTypeSub : Z := 3.
Definition SessionBaseTypePush : Z := 4.
Definition SessionBaseTypePull : Z := 5.

Definition session_type (protocol base : Z) : Z := Z.lor (Z.shiftl protocol 8) base.
Definition SessionTypeCustomizePub : Z := session_type SessionProtocolCustomize SessionBaseTypePub.
Definition SessionTypeRtmpServerSession : Z := session_type SessionProtocolRtmp SessionBaseTypePubSub.
Definition SessionTypeRtmpPush : Z := session_type SessionProtocolRtmp SessionBaseTypePush.
Definition SessionTypeRtmpPull : Z := session_type SessionProtocolRtmp SessionBaseTypePull.
Definition SessionTypeRtspPub : Z := session_type SessionProtocolRtsp SessionBaseTypePub.
Definition SessionTypeRtspSub : Z := session_type SessionProtocolRtsp SessionBaseTypeSub.
Definition SessionTypeRtspPush : Z := session_type SessionProtocolRtsp SessionBaseTypePush.
Definition SessionTypeRtspPull : Z := session_type SessionProtocolRtsp SessionBaseTypePull.
Definition SessionTypeFlvSub : Z := session_type SessionProtocolFlv SessionBaseTypeSub.
Definition SessionTypeFlvPull : Z := session_type SessionProtocolFlv SessionBaseTypePull.
Definition SessionTypeTsSub : Z := session_type SessionProtocolTs SessionBaseTypeSub.
Definition SessionTypePsPub : Z := session_type SessionProtocolPs SessionBaseTypePub.
Definition SessionTypeHlsSub : Z := session_type SessionProtocolHls SessionBaseTypeSub.

Definition SessionProtocolRtmpStr : list Z := str "RTMP".
Definition SessionProtocolRtspStr : list Z := str "RTSP".
Definition SessionProtocolFlvStr : list Z := str "FLV".
Definition SessionProtocolTsStr : list Z := str "TS".
Definition SessionProtocolPsStr : list Z := str "PS".
Definition SessionProtocolHlsStr : list Z := str "HLS".
Definition SessionBaseTypePubSubStr : list Z := str "PUBSUB".
Definition SessionBaseTypePubStr : list Z := str "PUB".
Definition SessionBaseTypeSubStr : list Z := str "SUB".
Definition SessionBaseTypePushStr : list Z := str "PUSH".
Definition SessionBaseTypePullStr : list Z := str "PULL".

Definition UkPreRtmpServerSession : list Z := SessionProtocolRtmpStr ++ SessionBaseTypePubSubStr.
Definition UkPreRtmpPushSession : list Z := SessionProtocolRtmpStr ++ SessionBaseTypePushStr.
Definition UkPreRtspPubSession : list Z := SessionProtocolRtspStr ++ SessionBaseTypePubStr.
Definition UkPreRtspSubSession : list Z := SessionProtocolRtspStr ++ SessionBaseTypeSubStr.
Definition UkPreRtspPushSession : list Z := SessionProtocolRtspStr ++ SessionBaseTypePushStr.
Definition UkPreFlvSubSession : list Z := SessionProtocolFlvStr ++ SessionBaseTypePubSubStr.
Definition UkPreFlvPullSession : list Z := SessionProtocolFlvStr ++ SessionBaseTypePullStr.
Definition UkPreTsSubSession : list Z := SessionProtocolTsStr ++ SessionBaseTypePubSubStr.
Definition UkPrePsPubSession : list Z := SessionProtocolPsStr ++ SessionBaseTypePubStr.
Definition UkPreHlsSubSession : list Z := SessionProtocolHlsStr ++ SessionBaseTypeSubStr.
Definition UkPreRtspServerCommandSession : list Z := str "RTSPSRVCMD".

(** ** Data *)

Record StatSession := mkStat {
  SessionId : list Z;
  Protocol : list Z;
  BaseType : list Z;
  RemoteAddr : list Z;
  StartTime : list Z;
  ReadBytesSum : Z;
  WroteBytesSum : Z;
  BitrateKbits : Z;
  ReadBitrateKbits : Z;
  WriteBitrateKbits : Z;
  typ : Z;
}.

(** Counters of bytes read and written, of naza's connection.Stat. *)
Record ConnStat := mkConn { connRead : Z; connWrote : Z }.

Record BasicSessionStat := mkBasic {
  stat : StatSession;
  prevConnStat : ConnStat;
  staleStat : option ConnStat;
  currConnStat : ConnStat;
}.

Definition set_stat (s : BasicSessionStat) (x : StatSession) : BasicSessionStat :=
  mkBasic x (prevConnStat s) (staleStat s) (currConnStat s).
Definition set_curr (s : BasicSessionStat) (c : ConnStat) : BasicSessionStat :=
  mkBasic (stat s) (prevConnStat s) (staleStat s) c.
Definition set_stale (s : BasicSessionStat) (c : ConnStat) : BasicSessionStat :=
  mkBasic (stat s) (prevConnStat s) (Some c) (currConnStat s).
Definition set_BaseType (x : StatSession) (t : list Z) : StatSession :=
  mkStat (SessionId x) (Protocol x) t (RemoteAddr x) (StartTime x) (ReadBytesSum x) (WroteBytesSum x) (BitrateKbits x)
    (ReadBitrateKbits x) (WriteBitrateKbits x) (typ x).
Definition set_RemoteAddr (x : StatSession) (a : list Z) : StatSession :=
  mkStat (SessionId x) (Protocol x) (BaseType x) a (StartTime x) (ReadBytesSum x) (WroteBytesSum x) (BitrateKbits x)
    (ReadBitrateKbits x) (WriteBitrateKbits x) (typ x).
Definition set_sums (x : StatSession) (r w : Z) : StatSession :=
  mkStat (SessionId x) (Protocol x) (BaseType x) (RemoteAddr x) (StartTime x) r w (BitrateKbits x)
    (ReadBitrateKbits x) (WriteBitrateKbits x) (typ x).
Definition set_rates (x : StatSession) (b r w : Z) : StatSession :=
  mkStat (SessionId x) (Protocol x) (BaseType x) (RemoteAddr x) (StartTime x) (ReadBytesSum x) (WroteBytesSum x) b r w (typ x).

(** ** Operations *)

(** Prefix of the key, base type and protocol of a kind of session. *)
Definition session_kinds : list (Z * (list Z * list Z * list Z)) := [
  (SessionTypeRtmpServerSession, (UkPreRtmpServerSession, SessionBaseTypePubSubStr, SessionProtocolRtmpStr));
  (SessionTypeRtmpPush, (UkPreRtmpPushSession, SessionBaseTypePushStr, SessionProtocolRtmpStr));
  (SessionTypeRtmpPull, (UkPreRtmpPullSession, SessionBaseTypePullStr, SessionProtocolRtmpStr));
  (SessionTypeRtspPub, (UkPreRtspPubSession, SessionBaseTypePubStr, SessionProtocolRtspStr));
  (SessionTypeRtspSub, (UkPreRtspSubSession, SessionBaseTypeSubStr, SessionProtocolRtspStr));
  (SessionTypeRtspPush, (UkPreRtspPushSession, SessionBaseTypePushStr, SessionProtocolRtspStr));
  (SessionTypeRtspPull, (UkPreRtspPullSession, SessionBaseTypePullStr, SessionProtocolRtspStr));
  (SessionTypeFlvSub, (UkPreFlvSubSession, SessionBaseTypeSubStr, SessionProtocolFlvStr));
  (SessionTypeFlvPull, (UkPreFlvPullSession, SessionBaseTypePullStr, SessionProtocolFlvStr));
  (SessionTypePsPub, (UkPrePsPubSession, SessionBaseTypePubStr, SessionProtocolPsStr));
  (SessionTypeHlsSub, (UkPreHlsSubSession, SessionBaseTypeSubStr, SessionProtocolHlsStr));
  (SessionTypeTsSub, (UkPreTsSubSession, SessionBaseTypeSubStr, SessionProtocolTsStr))].

(** [n] sessions of the kind have been made before, at the time [now]. *)
Definition NewBasicSessionStat {U : Unique} (sessionType : Z) (remoteAddr now : list Z) (n : Z) : BasicSessionStat :=
  let zero := mkConn 0 0 in
  let '(id, b, p) := match List.find (λ k, k.1 =? sessionType) session_kinds with
                     | Some (_, (uk, b, p)) => (GenUniqueKey uk n, b, p)
                     | None => ([], [], [])
                     end in
  mkBasic (mkStat id p b remoteAddr now 0 0 0 0 0 sessionType) zero None zero.

Definition SetBaseType (s : BasicSessionStat) (t : list Z) : BasicSessionStat := set_stat s (set_BaseType (stat s) t).
Definition SetRemoteAddr (s : BasicSessionStat) (a : list Z) : BasicSessionStat := set_stat s (set_RemoteAddr (stat s) a).

Definition AddReadBytes (s : BasicSessionStat) (n : Z) : BasicSessionStat :=
  set_curr s (mkConn (u64 (connRead (currConnStat s) + u64 n)) (connWrote (currConnStat s))).
Definition AddWriteBytes (s : BasicSessionStat) (n : Z) : BasicSessionStat :=
  set_curr s (mkConn (connRead (currConnStat s)) (u64 (connWrote (currConnStat s) + u64 n))).

(** Kilobits per second of the difference of two counters. *)
Definition kbits (curr prev intervalSec : Z) : outcome Z :=
  if intervalSec =? 0 then Panic else Ret (i64 (u64 (u64 (curr - prev) * 8) / 1024 / intervalSec)).

Definition updateStat (s : BasicSessionStat) (c : ConnStat) (typ : list Z) (intervalSec : Z) : outcome BasicSessionStat :=
  r ← kbits (connRead c) (connRead (prevConnStat s)) intervalSec;
  w ← kbits (connWrote c) (connWrote (prevConnStat s)) intervalSec;
  let b := if bool_decide (typ = SessionBaseTypePubStr ∨ typ = SessionBaseTypePullStr) then r
           else if bool_decide (typ = SessionBaseTypeSubStr ∨ typ = SessionBaseTypePushStr) then w
           else BitrateKbits (stat s) in
  Ret (mkBasic (set_rates (stat s) b r w) c (staleStat s) (currConnStat s)).
Definition UpdateStat (s : BasicSessionStat) (intervalSec : Z) : outcome BasicSessionStat :=
  updateStat s (currConnStat s) (BaseType (stat s)) intervalSec.
Definition UpdateStatWitchConn (s : BasicSessionStat) (conn : ConnStat) (intervalSec : Z) : outcome BasicSessionStat :=
  updateStat s conn (BaseType (stat s)) intervalSec.

Definition GetStat (s : BasicSessionStat) : BasicSessionStat * StatSession :=
  let x := set_sums (stat s) (connRead (currConnStat s)) (connWrote (currConnStat s)) in (set_stat s x, x).
Definition GetStatWithConn (s : BasicSessionStat) (conn : option ConnStat) : BasicSessionStat * StatSession :=
  match conn with
  | None => (s, stat s)
  | Some c => let x := set_sums (stat s) (connRead c) (connWrote c) in (set_stat s x, x)
  end.

Definition isAlive (s : BasicSessionStat) (c : ConnStat) : BasicSessionStat * (bool * bool) :=
  match staleStat s with
  | None => (set_stale s c, (true, true))
  | Some p => (set_stale s c, (negb (u64 (connRead c - connRead p) =? 0), negb (u64 (connWrote c - connWrote p) =? 0)))
  end.
Definition IsAlive (s : BasicSessionStat) : BasicSessionStat * (bool * bool) := isAlive s (currConnStat s).
Definition IsAliveWitchConn (s : BasicSessionStat) (conn : option ConnStat) : BasicSessionStat * (bool * bool) :=
  isAlive s (match conn with None => mkConn 0 0 | Some c => c end).

(** ** The rates and signs of life of an interval *)

Inductive Count := CRead (n : Z) | CWrite (n : Z).
Definition count (s : BasicSessionStat) (c : Count) : BasicSessionStat :=
  match c with CRead n => AddReadBytes s n | CWrite n => AddWriteBytes s n end.
Definition read_of (c : Count) : Z := match c with CRead n => n | CWrite _ => 0 end.
Definition wrote_of (c : Count) : Z := match c with CRead _ => 0 | CWrite n => n end.
Definition sum_of (f : Count → Z) (l : list Count) : Z := foldr (λ c t, f c + t) 0 l.

Lemma counted l : ∀ s, let s' := foldl count s l in
  u64 (connRead (currConnStat s')) = u64 (connRead (currConnStat s) + sum_of read_of l) ∧
  u64 (connWrote (currConnStat s')) = u64 (connWrote (currConnStat s) + sum_of wrote_of l) ∧
  stat s' = stat s ∧ prevConnStat s' = prevConnStat s ∧ staleStat s' = staleStat s.
Proof.
  induction l as [|c l IH]; intros s; cbn [foldl sum_of foldr]; [by rewrite !Z.add_0_r|].
  destruct (IH (count s c)) as (E1 & E2 & E3 & E4 & E5). fold (sum_of read_of l) (sum_of wrote_of l).
  rewrite E1, E2, E3, E4, E5. unfold sum_of. destruct c; cbn; unfold u64; split_and!; try done; zdm.
Qed.

Lemma since x y n : u64 x = u64 (y + n) → 0 ≤ n < 2 ^ 64 → u64 (x - y) = n.
Proof. unfold u64. change 18446744073709551616 with (2 ^ 64). intros E Hn. rewrite Zminus_mod, E, <- Zminus_mod, Z.add_simpl_l. by apply Z.mod_small. Qed.

(** C33: between two updates of the statistics the bit rates are those of exactly
    the bytes counted meanwhile, also when a counter of 64 bits has gone round, and
    the rate of the session is the one of the side its kind is about; between two
    calls of [IsAlive] a side is alive exactly when it counted a byte. *)
Theorem session_interval s i1 i2 s1 l :
  UpdateStat s i1 = Ret s1 → 0 < i2 →
  0 ≤ sum_of read_of l < 2 ^ 60 → 0 ≤ sum_of wrote_of l < 2 ^ 60 →
  let rate n := 8 * n / 1024 / i2 in
  (∃ s2, UpdateStat (foldl count s1 l) i2 = Ret s2 ∧
     ReadBitrateKbits (stat s2) = rate (sum_of read_of l) ∧ WriteBitrateKbits (stat s2) = rate (sum_of wrote_of l) ∧
     (BaseType (stat s) = SessionBaseTypePubStr ∨ BaseType (stat s) = SessionBaseTypePullStr →
        BitrateKbits (stat s2) = rate (sum_of read_of l)) ∧
     (BaseType (stat s) = SessionBaseTypeSubStr ∨ BaseType (stat s) = SessionBaseTypePushStr →
        BitrateKbits (stat s2) = rate (sum_of wrote_of l))) ∧
  (let s1 := (IsAlive s).1 in
   (IsAlive (foldl count s1 l)).2 = (negb (sum_of read_of l =? 0), negb (sum_of wrote_of l =? 0))).
Proof.
  intros Hu Hi Hr Hw rate. split.
  - assert (E0 : prevConnStat s1 = currConnStat s ∧ currConnStat s1 = currConnStat s ∧ BaseType (stat s1) = BaseType (stat s)).
    { unfold UpdateStat, updateStat in Hu. apply bind_Ret_inv in Hu as (r & _ & Hu). apply bind_Ret_inv in Hu as (w & _ & Hu).
      by injection Hu as <-. }
    destruct E0 as (E1 & E2 & E3). destruct (counted l s1) as (F1 & F2 & F3 & F4 & _). rewrite E2 in F1, F2.
    set (s' := foldl count s1 l) in *. unfold UpdateStat, updateStat, kbits. rewrite F4, E1, F3, E3.
    rewrite (proj2 (Z.eqb_neq i2 0)), !bind_Ret by lia. rewrite (since _ _ _ F1), (since _ _ _ F2) by lia.
    assert (Hrate : ∀ n, 0 ≤ n < 2 ^ 60 → i64 (u64 (n * 8) / 1024 / i2) = rate n).
    { intros n Hn. unfold rate, u64, i64. change 18446744073709551616 with (2 ^ 64). rewrite (Z.mod_small (n * 8)), (Z.mul_comm n) by lia.
      assert (0 ≤ 8 * n / 1024 / i2 < 2 ^ 60); [|zdm]. split; [apply Z.div_pos; [apply Z.div_pos|]; lia|].
      apply Z.div_lt_upper_bound; [lia|]. apply Z.div_lt_upper_bound; nia. }
    rewrite !Hrate by done. eexists. split; [reflexivity|]. cbn [stat set_rates ReadBitrateKbits WriteBitrateKbits BitrateKbits].
    split; [done|]. split; [done|]. split; intros Ht; [by rewrite bool_decide_true|].
    rewrite bool_decide_false by (by destruct Ht as [-> | ->]; intros [|]). by rewrite bool_decide_true.
  - set (s1' := (IsAlive s).1). cbn zeta. assert (E : staleStat s1' = Some (currConnStat s) ∧ currConnStat s1' = currConnStat s).
    { unfold s1', IsAlive, isAlive. by destruct (staleStat s). }
    destruct E as [E1 E2]. destruct (counted l s1') as (F1 & F2 & _ & _ & F5). rewrite E2 in F1, F2.
    unfold IsAlive, isAlive. rewrite F5, E1. cbn. by rewrite (since _ _ _ F1), (since _ _ _ F2) by lia.
Qed.

Lemma session_interval_witness :
  let zero := mkConn 0 0 in
  let s := mkBasic (mkStat [] [] SessionBaseTypePubStr [] [] 0 0 0 0 0 SessionTypeRtspPub) zero None (mkConn (2 ^ 64 - 1) 5) in
  let l := [CRead 4096; CWrite 1024] in
  let rate n := 8 * n / 1024 / 2 in
  ∃ s1, UpdateStat s 5 = Ret s1 ∧
  (∃ s2, UpdateStat (foldl count s1 l) 2 = Ret s2 ∧
     ReadBitrateKbits (stat s2) = rate (sum_of read_of l) ∧ WriteBitrateKbits (stat s2) = rate (sum_of wrote_of l) ∧
     (BaseType (stat s) = SessionBaseTypePubStr ∨ BaseType (stat s) = SessionBaseTypePullStr →
        BitrateKbits (stat s2) = rate (sum_of read_of l)) ∧
     (BaseType (stat s) = SessionBaseTypeSubStr ∨ BaseType (stat s) = SessionBaseTypePushStr →
        BitrateKbits (stat s2) = rate (sum_of wrote_of l))) ∧
  (let s1 := (IsAlive s).1 in
   (IsAlive (foldl count s1 l)).2 = (negb (sum_of read_of l =? 0), negb (sum_of wrote_of l =? 0))).
Proof.
  intros zero s l rate. eexists. split; [reflexivity|].
  apply (session_interval s 5 2 _ l); [reflexivity|lia|vm_compute; done..].
Defined.

(** The prefix of the keys of FLV players is not the one the comment gives. *)
Example flv_sub_prefix : UkPreFlvSubSession = (str "FLVPUBSUB").
Proof. done. Qed.
