(* ===== verification/RtspIn.v ===== *)
(** * The receiving side of RTSP (src/pkg/rtsp/base_in_session.go)

    What a publisher's or a pull's session does with the RTP and RTCP packets
    it reads, from the command connection or from datagrams: the packets go to
    the observer and to the unpacker of their medium, what that makes of them
    to the observer, through the queue when the session plays fast, and sender
    reports are answered.  Every handler recovers from panics: what was changed
    before one stays changed.  The factory of unpackers (rtp_unpacker.go) is
    here too.

    A handler is one step.  A datagram's handler may run at the same time as
    that of the other medium; the two share the queue alone, which has no lock
    (a finding), and the model takes them one after the other. *)

From stdpp Require Import gmap.
From S2P Require Import Prelude Naza GoFloat GoText Rtcp RtpSeq RtpPacket Base RtpList RtpContainer RtpUnpack Sdp AvQueue GroupIn SessionStat RtspMsg.

(** [defer func() { recover() }()]: a panic ends the function with the value [d]. *)
Definition recovered {W A} (d : A) (m : eff W A) : eff W A := λ w,
  match m w with (w, Panic) => (w, Ret d) | r => r end.
(** [_ = f()]: an error is dropped; running out of fuel is none. *)
Definition dropped {W} (m : eff W unit) : eff W unit := λ w,
  match m w with
  | (w, Fail OutOfFuel) => (w, Fail OutOfFuel)
  | (w, Fail _) => (w, Ret tt)
  | r => r
  end.

(** ** The container when its unpacker panics

    [emitted l]: what [TryUnpackOne] gave to its callback before it panicked on
    [l].  The state is the list and what has been given to the callback, which
    sees nothing of the container. *)

Section Container.
Context {P : UnpackerProtocol} (emitted : RtpPacketList → list AvPacket).

Definition Box : Type := RtpPacketList * list AvPacket.

Definition tryUnpackOne_e : eff Box bool := λ '(l, out),
  match TryUnpackOne l with
  | Ret (flag, seq, l', o) => ((if flag : bool then SetDoneSeq l' seq else l', out ++ o), Ret flag)
  | Panic => ((l, out ++ emitted l), Panic)
  | Fail e => ((l, out), Fail e)
  end.
Definition tryUnpackOneSequential_e : eff Box bool := λ b,
  if negb (IsFirstSequential b.1) then (b, Ret false) else tryUnpackOne_e b.

Fixpoint unpack_loop_e (fuel : nat) (count : Z) : eff Box Z :=
  match fuel with
  | O => lift (Fail OutOfFuel)
  | S fuel =>
      ok ← tryUnpackOneSequential_e;
      if negb ok then mret count else unpack_loop_e fuel (count + 1)
  end.
Definition unpack_all_e : eff Box Z := λ b, unpack_loop_e (loop_fuel b.1) 0 b.

Definition popFirst_e : eff Box unit := λ '(l, out),
  match PopFirst l with Ret (_, l) => ((l, out), Ret tt) | Fail e => ((l, out), Fail e) | Panic => ((l, out), Panic) end.

Definition Feed_e (pkt : RtpPacket) : eff Box unit := λ '(l, out),
  if IsStale l (pseq pkt) then ((l, out), Ret tt) else
  (pkt ← lift (CalcPositionIfNeeded pkt);
   _ ← (λ '(l, out), ((Insert l pkt, out), Ret tt));
   count ← unpack_all_e;
   if count >? 0 then mret tt else
   full ← (λ b, (b, Ret (Full b.1)));
   if full : bool then
     packed ← tryUnpackOne_e;
     if negb packed then popFirst_e else _ ← unpack_all_e; mret tt
   else mret tt) (l, out).
End Container.

(** Of several units in one packet, those before the one that panics. *)
Fixpoint aac_units_emitted (payloadType clockRate : Z) (p : RtpPacket) (b : list Z) (aus : list au) (i : Z) : list AvPacket :=
  match aus with
  | [] => []
  | a :: aus =>
      match rtp_ms (Timestamp (Header p)) clockRate, go_slice b (au_pos a) (au_pos a + au_size a) with
      | Ret ts, Ret payload =>
          mkAvPacket payloadType (ts + u32 (Z.quot (i * (1024 * 1000)) clockRate)) 0 payload ::
          aac_units_emitted payloadType clockRate p b aus (i + 1)
      | _, _ => []
      end
  end.
Definition aac_emitted (payloadType clockRate : Z) (l : RtpPacketList) : list AvPacket :=
  match items l with
  | [] => []
  | p :: _ =>
      match (b ← Body p; parseAu b), body_memory p with
      | Ret [_], _ => []
      | Ret aus, Ret mem => aac_units_emitted payloadType clockRate p mem aus 0
      | _, _ => []
      end
  end.

(** ** Unpackers *)

Section Unpackers.
Context {B : Bele}.

Record Unpacker := mkUnpacker {
  u_protocol : UnpackerProtocol;
  u_emitted : RtpPacketList → list AvPacket;
  u_list : RtpPacketList;
}.

(** [None]: [Log.Fatalf] ends the process. *)
Definition DefaultRtpUnpackerFactory (payloadType clockRate maxSize : Z) : option Unpacker :=
  let container p e := Some (mkUnpacker p e (NewRtpUnpackContainer maxSize)) in
  if payloadType =? AvPacketPtAac then container (RtpUnpackerAac payloadType clockRate) (aac_emitted payloadType clockRate)
  else if (payloadType =? AvPacketPtG711U) || (payloadType =? AvPacketPtG711A) || (payloadType =? AvPacketPtOpus) then
    container (RtpUnpackerRaw payloadType clockRate) (λ _, [])
  else if (payloadType =? AvPacketPtAvc) || (payloadType =? AvPacketPtHevc) then
    container (RtpUnpackerAvcHevc payloadType clockRate) (λ _, [])
  else None.

(** The unpacker left, what it gave to its callback, and how [Feed] ended. *)
Definition unpacker_Feed (u : Unpacker) (pkt : RtpPacket) : Unpacker * list AvPacket * outcome unit :=
  let '((l, out), r) := Feed_e (P := u_protocol u) (u_emitted u) pkt (u_list u, []) in
  (mkUnpacker (u_protocol u) (u_emitted u) l, out, r).
End Unpackers.

(** ** The queue of a session without an observer

    The callback calls a nil interface and panics, after the packet was taken
    out; [Feed], [PopAllByForce] and the two [popAll]s each recover. *)

Section NoObserver.
Context {Q : CircularQueue AvPacket}.

Definition pop_one (q : cqueue AvPacket) : cqueue AvPacket := if cqEmpty q then q else (cqPopFront q).2.

Definition PopAllByForce_nil (a : AvPacketQueue) : AvPacketQueue :=
  let a := set_bases a (-1) (-1) in
  if cqEmpty (audioQueue a) && cqEmpty (videoQueue a) then a
  else if negb (cqEmpty (audioQueue a)) && cqEmpty (videoQueue a) then set_audioQueue a (pop_one (audioQueue a))
  else set_videoQueue a (pop_one (videoQueue a)).

Definition adjustTs_nil (a : AvPacketQueue) (pkt : AvPacket) : AvPacketQueue :=
  let ts := avTimestamp pkt in
  if IsVideo pkt then
    let a := if ts <? videoBaseTs a then PopAllByForce_nil a else a in
    let a := if videoBaseTs a =? -1 then set_bases a (audioBaseTs a) ts else a in
    set_videoQueue a (cqPushBack (with_ts pkt (i64 (ts - videoBaseTs a))) (videoQueue a)).2
  else
    let a := if ts <? audioBaseTs a then PopAllByForce_nil a else a in
    let a := if audioBaseTs a =? -1 then set_bases a ts (videoBaseTs a) else a in
    set_audioQueue a (cqPushBack (with_ts pkt (i64 (ts - audioBaseTs a))) (audioQueue a)).2.

Definition Feed_nil (TimestampFilterHandleRotateFlag : bool) (a : AvPacketQueue) (pkt : AvPacket) : AvPacketQueue :=
  let a := if TimestampFilterHandleRotateFlag then adjustTsHandleRotate a pkt else adjustTs_nil a pkt in
  if negb (cqEmpty (audioQueue a)) && negb (cqEmpty (videoQueue a)) then
    match merge_step a with Some (a, _) => a | None => a end
  else if cqFull (videoQueue a) then set_videoQueue a (pop_one (videoQueue a))
  else if cqFull (audioQueue a) then set_audioQueue a (pop_one (audioQueue a))
  else a.
End NoObserver.

(** ** The session *)

Inductive Event :=
  | EvSdp (c : LogicContext)
  | EvRtp (p : RtpPacket)
  | EvAv (p : AvPacket)
  | EvInterleaved (b : list Z) (channel : Z)
  | EvWrite (conn : Z) (b : list Z)
  | EvWriteTo (conn : Z) (b addr : list Z)
  | EvClose (conn : Z).

(** The fields of the session whose names begin with one of the media. *)
Inductive medium := Audio | Video.

Record InSide := mkSide {
  rtpConn : option Z;
  rtcpConn : option Z;
  rtpChannel : Z;
  rtcpChannel : Z;
  rrProducer : option RrProducer;
  unpacker : option Unpacker;
  ssrc : Z;
}.

Record BaseInSession {Q : CircularQueue AvPacket} := mkIn {
  observer : bool;
  audio : InSide;
  video : InSide;
  sessionStat : BasicSessionStat;
  sdpCtx : LogicContext;
  avPacketQueue : option AvPacketQueue;
  in_scale : f64;
  disposed : bool; (* of disposeOnce *)
  waitChan : list (option goerr);
}.
Arguments BaseInSession : clear implicits.
Arguments BaseInSession {Q}.

Definition set_conns (r c : option Z) (x : InSide) : InSide :=
  mkSide r c (rtpChannel x) (rtcpChannel x) (rrProducer x) (unpacker x) (ssrc x).
Definition set_channels (r c : Z) (x : InSide) : InSide :=
  mkSide (rtpConn x) (rtcpConn x) r c (rrProducer x) (unpacker x) (ssrc x).
Definition set_producer (r : option RrProducer) (x : InSide) : InSide :=
  mkSide (rtpConn x) (rtcpConn x) (rtpChannel x) (rtcpChannel x) r (unpacker x) (ssrc x).
Definition set_unpacker (u : option Unpacker) (x : InSide) : InSide :=
  mkSide (rtpConn x) (rtcpConn x) (rtpChannel x) (rtcpChannel x) (rrProducer x) u (ssrc x).
Definition set_ssrc (n : Z) (x : InSide) : InSide :=
  mkSide (rtpConn x) (rtcpConn x) (rtpChannel x) (rtcpChannel x) (rrProducer x) (unpacker x) n.

(** What reaches a session: a frame of the command connection, or what a read of
    a datagram gave. *)
Inductive Input := InFrame (b : list Z) (channel : Z) | InRtp (b : option (list Z)) | InRtcp (b : option (list Z)) (rAddr : list Z).

Section Session.
Context {B : Bele} {Q : CircularQueue AvPacket}.
(** BaseInSessionTimestampFilterFlag and TimestampFilterHandleRotateFlag of var.go. *)
Variables FilterFlag HandleRotateFlag : bool.

Definition side (m : medium) (s : BaseInSession) : InSide := match m with Audio => audio s | Video => video s end.
Definition on_side (m : medium) (f : InSide → InSide) (s : BaseInSession) : BaseInSession :=
  let '(a, v) := match m with Audio => (f (audio s), video s) | Video => (audio s, f (video s)) end in
  mkIn _ (observer s) a v (sessionStat s) (sdpCtx s) (avPacketQueue s) (in_scale s) (disposed s) (waitChan s).
Definition set_queue (q : option AvPacketQueue) (s : BaseInSession) : BaseInSession :=
  mkIn _ (observer s) (audio s) (video s) (sessionStat s) (sdpCtx s) q (in_scale s) (disposed s) (waitChan s).
Definition set_observer (s : BaseInSession) : BaseInSession :=
  mkIn _ true (audio s) (video s) (sessionStat s) (sdpCtx s) (avPacketQueue s) (in_scale s) (disposed s) (waitChan s).
Definition set_sdp (c : LogicContext) (s : BaseInSession) : BaseInSession :=
  mkIn _ (observer s) (audio s) (video s) (sessionStat s) c (avPacketQueue s) (in_scale s) (disposed s) (waitChan s).
Definition set_in_scale (x : f64) (s : BaseInSession) : BaseInSession :=
  mkIn _ (observer s) (audio s) (video s) (sessionStat s) (sdpCtx s) (avPacketQueue s) x (disposed s) (waitChan s).
Definition set_sessionStat (x : BasicSessionStat) (s : BaseInSession) : BaseInSession :=
  mkIn _ (observer s) (audio s) (video s) x (sdpCtx s) (avPacketQueue s) (in_scale s) (disposed s) (waitChan s).
Definition set_disposed (w : list (option goerr)) (s : BaseInSession) : BaseInSession :=
  mkIn _ (observer s) (audio s) (video s) (sessionStat s) (sdpCtx s) (avPacketQueue s) (in_scale s) true w.

(** The session and what it has called and written, in order. *)
Definition World : Type := BaseInSession * list Event.
Definition here : eff World BaseInSession := λ w, (w, Ret w.1).
Definition upd (f : BaseInSession → BaseInSession) : eff World unit := λ '(s, ev), ((f s, ev), Ret tt).
Definition emit (l : list Event) : eff World unit := λ '(s, ev), ((s, ev ++ l), Ret tt).

Definition no_side : InSide := mkSide None None 0 0 None None 0.

Definition NewBaseInSession (stat : BasicSessionStat) : BaseInSession :=
  mkIn _ false no_side no_side stat zero_logic None (mkF64 0 1) false [].
Definition NewBaseInSessionWithObserver (stat : BasicSessionStat) : BaseInSession := set_observer (NewBaseInSession stat).

Definition f64_gt1 (x : f64) : bool := den x <? num x.

Definition session_SetScale (scale : f64) : eff World unit := recovered tt (
  _ ← upd (set_in_scale scale);
  if negb FilterFlag then mret tt else
  if f64_gt1 scale then
    s ← here;
    _ ← (match avPacketQueue s with
         | None => if IsAudioUnpackable (sdpCtx s) && IsVideoUnpackable (sdpCtx s) then upd (set_queue (Some NewAvPacketQueue)) else mret tt
         | Some _ => mret tt
         end);
    upd (λ s, set_queue ((λ q, AvQueue.SetScale q scale) <$> avPacketQueue s) s)
  else upd (set_queue None)).

(** The unpacker a medium gets; [Log.Fatalf] would end the process. *)
Definition make_unpacker (unpackable : bool) (payloadType clockRate : Z) (m : medium) : eff World unit :=
  if negb unpackable then mret tt else
  match DefaultRtpUnpackerFactory payloadType clockRate unpackerItemMaxSize with
  | Some u => upd (on_side m (set_unpacker (Some u)))
  | None => lift Panic
  end.

Definition InitWithSdp (c : LogicContext) : eff World unit :=
  _ ← upd (set_sdp c);
  _ ← make_unpacker (IsAudioUnpackable c) (GetAudioPayloadTypeBase c) (AudioClockRate c) Audio;
  _ ← make_unpacker (IsVideoUnpackable c) (GetVideoPayloadTypeBase c) (VideoClockRate c) Video;
  _ ← upd (on_side Audio (set_producer (Some (NewRrProducer (AudioClockRate c)))));
  _ ← upd (on_side Video (set_producer (Some (NewRrProducer (VideoClockRate c)))));
  s ← here;
  if observer s then emit [EvSdp c] else mret tt.

(** The call of [OnSdp], made by another goroutine, is a step of its own. *)
Definition SetObserver : eff World unit := upd set_observer.
Definition SetObserver_go : eff World unit := s ← here; emit [EvSdp (sdpCtx s)].

Definition setup (uri : list Z) (f : InSide → InSide) : eff World unit :=
  s ← here;
  if IsAudioUri (sdpCtx s) uri then upd (on_side Audio f)
  else if IsVideoUri (sdpCtx s) uri then upd (on_side Video f)
  else lift (Fail ErrRtsp).

(** The reading goroutines it starts call [onReadRtpPacket] and [onReadRtcpPacket]. *)
Definition SetupWithConn (uri : list Z) (rtp rtcp : Z) : eff World unit := setup uri (set_conns (Some rtp) (Some rtcp)).
Definition SetupWithChannel (uri : list Z) (rtp rtcp : Z) : eff World unit := setup uri (set_channels rtp rtcp).

Definition GetSdp : eff World LogicContext := s ← here; mret (sdpCtx s).

(** Callback of the unpackers. *)
Definition onAvPacketUnpacked (pkt : AvPacket) : eff World unit := recovered tt (
  s ← here;
  match avPacketQueue s with
  | Some q =>
      if observer s then
        let '(q, out) := AvQueue.Feed HandleRotateFlag q pkt in
        _ ← upd (set_queue (Some q)); emit (EvAv <$> out)
      else upd (set_queue (Some (Feed_nil HandleRotateFlag q pkt)))
  | None => if observer s then emit [EvAv pkt] else mret tt
  end).

Fixpoint unpacked_all (l : list AvPacket) : eff World unit :=
  match l with [] => mret tt | p :: l => _ ← onAvPacketUnpacked p; unpacked_all l end.

Definition feed_unpacker (m : medium) (pkt : RtpPacket) : eff World unit :=
  s ← here;
  match unpacker (side m s) with
  | None => mret tt
  | Some u =>
      let '(u, out, r) := unpacker_Feed u pkt in
      _ ← upd (on_side m (set_unpacker (Some u)));
      _ ← unpacked_all out;
      lift r
  end.

Definition handle_medium (m : medium) (pkt : RtpPacket) : eff World unit :=
  _ ← upd (on_side m (set_ssrc (Ssrc (Header pkt))));
  s ← here;
  _ ← (if observer s then emit [EvRtp pkt] else mret tt);
  _ ← upd (on_side m (λ x, set_producer ((λ r, FeedRtpPacket r (pseq pkt)) <$> rrProducer x) x));
  feed_unpacker m pkt.

Definition read_bytes (n : Z) : eff World unit := upd (λ s, set_sessionStat (AddReadBytes (sessionStat s) n) s).
Definition wrote_bytes (n : Z) : eff World unit := upd (λ s, set_sessionStat (AddWriteBytes (sessionStat s) n) s).

Definition handleRtpPacket (b : list Z) : eff World unit := recovered tt (
  if len b =? 0 then lift (Fail ErrRtsp) else
  _ ← read_bytes (len b);
  if len b <? RtpFixedHeaderLength then lift (Fail ErrRtsp) else
  b1 ← lift (go_index b 1);
  let packetType := Z.land b1 127 in
  s ← here;
  if negb (IsPayloadTypeOrigin (sdpCtx s) packetType) then lift (Fail ErrRtsp) else
  h ← lift (ParseRtpHeader b);
  let pkt := mkRtpPacket h b 0 in
  if IsAudioPayloadTypeOrigin (sdpCtx s) packetType then handle_medium Audio pkt
  else if IsVideoPayloadTypeOrigin (sdpCtx s) packetType then handle_medium Video pkt
  else mret tt).

(** The answer to a sender report of [n] bytes, to where it came from. *)
Definition answer_sr (m : medium) (sr : Sr) (n : Z) (rAddr : option (list Z)) : eff World unit :=
  s ← here;
  match rrProducer (side m s) with
  | None => lift Panic
  | Some r =>
      '(rrBuf, r) ← lift (Produce r (GetMiddleNtp sr));
      _ ← upd (on_side m (set_producer (Some r)));
      match rrBuf with
      | None => mret tt
      | Some b =>
          _ ← (match rAddr with
               | Some a => match rtcpConn (side m s) with Some c => emit [EvWriteTo c b a] | None => lift Panic end
               | None => emit [EvInterleaved b (rtcpChannel (side m s))]
               end);
          wrote_bytes n
      end
  end.

Definition handleRtcpPacket (b : list Z) (rAddr : option (list Z)) : eff World unit := recovered tt (
  if len b <? 4 then lift (Fail ErrRtsp) else
  _ ← read_bytes (len b);
  packetType ← lift (go_index b 1);
  if packetType =? RtcpPacketTypeSr then
    sr ← lift (ParseSr b);
    s ← here;
    if SenderSsrc sr =? ssrc (audio s) then answer_sr Audio sr (len b) rAddr
    else if SenderSsrc sr =? ssrc (video s) then answer_sr Video sr (len b) rAddr
    else mret tt
  else lift (Fail ErrRtsp)).

Definition HandleInterleavedPacket (b : list Z) (channel : Z) : eff World unit := recovered tt (
  if len b =? 0 then mret tt else
  s ← here;
  if (channel =? rtpChannel (audio s)) || (channel =? rtpChannel (video s)) then dropped (handleRtpPacket b)
  else if (channel =? rtcpChannel (audio s)) || (channel =? rtcpChannel (video s)) then dropped (handleRtcpPacket b None)
  else mret tt).

(** Callbacks of the datagram connections; [None]: the read failed. *)
Definition onReadRtpPacket (b : option (list Z)) : eff World unit :=
  match b with Some b => dropped (handleRtpPacket b) | None => mret tt end.
Definition onReadRtcpPacket (b : option (list Z)) (rAddr : list Z) : eff World unit :=
  match b with Some b => dropped (handleRtcpPacket b (Some rAddr)) | None => mret tt end.

Definition dummyRtpPacket : list Z := [128; 0; 0; 0; 0; 0; 0; 0; 0; 0; 0; 0].
Definition dummyRtcpPacket : list Z := [128; 201; 0; 1; 0; 0; 0; 0].

Definition on_conn (c : option Z) (f : Z → Event) : list Event := match c with Some c => [f c] | None => [] end.

Definition WriteRtpRtcpDummy : eff World unit :=
  s ← here;
  emit (on_conn (rtpConn (video s)) (λ c, EvWrite c dummyRtpPacket) ++ on_conn (rtcpConn (video s)) (λ c, EvWrite c dummyRtcpPacket) ++
        on_conn (rtpConn (audio s)) (λ c, EvWrite c dummyRtpPacket) ++ on_conn (rtcpConn (audio s)) (λ c, EvWrite c dummyRtcpPacket)).

(** The channel holds one error; what disposing of the connections returns is left out. *)
Definition dispose (err : option goerr) : eff World unit :=
  s ← here;
  if disposed s then mret tt else
  _ ← emit (on_conn (rtpConn (audio s)) EvClose ++ on_conn (rtcpConn (audio s)) EvClose ++
            on_conn (rtpConn (video s)) EvClose ++ on_conn (rtcpConn (video s)) EvClose);
  _ ← upd (on_side Audio (λ x, set_unpacker None (set_conns None None x)));
  _ ← upd (on_side Video (λ x, set_unpacker None (set_conns None None x)));
  _ ← upd (set_queue None);
  upd (λ s, set_disposed (if bool_decide (waitChan s = []) then [err] else waitChan s) s).
Definition Dispose : eff World unit := dispose None.

Definition session_GetStat : eff World StatSession := λ '(s, ev),
  let '(x, r) := GetStat (sessionStat s) in ((set_sessionStat x s, ev), Ret r).
Definition session_UpdateStat (intervalSec : Z) : eff World unit := λ '(s, ev),
  match UpdateStat (sessionStat s) intervalSec with
  | Ret x => ((set_sessionStat x s, ev), Ret tt)
  | Fail e => ((s, ev), Fail e)
  | Panic => ((s, ev), Panic)
  end.
Definition session_IsAlive : eff World (bool * bool) := λ '(s, ev),
  let '(x, r) := IsAlive (sessionStat s) in ((set_sessionStat x s, ev), Ret r).

Definition handle (i : Input) : eff World unit :=
  match i with
  | InFrame b ch => HandleInterleavedPacket b ch
  | InRtp b => onReadRtpPacket b
  | InRtcp b a => onReadRtcpPacket b a
  end.
Fixpoint handle_all (l : list Input) : eff World unit :=
  match l with [] => mret tt | i :: l => _ ← handle i; handle_all l end.
End Session.

(** ** The recovering container is the container *)

Section ContainerFacts.
Context {P : UnpackerProtocol} (emitted : RtpPacketList → list AvPacket).

Lemma tryUnpackOne_e_eq l out :
  tryUnpackOne_e emitted (l, out) =
    match tryUnpackOne l with
    | Ret (flag, l', o) => ((l', out ++ o), Ret flag)
    | Panic => ((l, out ++ emitted l), Panic)
    | Fail e => ((l, out), Fail e)
    end.
Proof. unfold tryUnpackOne_e, tryUnpackOne. by destruct (TryUnpackOne l) as [[[[flag seq] l'] o]|e|]. Qed.

Lemma unpack_loop_e_Ret fuel l count out c l' o :
  unpack_loop fuel l count = Ret (c, l', o) → unpack_loop_e emitted fuel count (l, out) = ((l', out ++ o), Ret c).
Proof.
  revert l count out o. induction fuel as [|fuel IH]; intros l count out o H; [done|].
  rewrite unpack_loop_S in H. cbn [unpack_loop_e]. unfold tryUnpackOneSequential_e, tryUnpackOneSequential in *. cbn [fst].
  unfold mbind at 1, eff_bind. cbn [fst]. destruct (IsFirstSequential l); cbn [negb] in *.
  - rewrite tryUnpackOne_e_eq. destruct (tryUnpackOne l) as [[[[|] l1] o1]|e|]; try done; rewrite ?bind_Ret in H; cbv beta iota in *; cbn [negb] in *.
    + apply bind_Ret_inv in H as ([[c1 l2] o2] & H1 & [= <- <- <-]). by rewrite (IH _ _ _ _ H1), app_assoc.
    + by injection H as <- <- <-.
  - rewrite bind_Ret in H. cbn in H. injection H as <- <- <-. by rewrite app_nil_r.
Qed.

Lemma unpack_all_e_Ret l out c l' o :
  unpack_loop (loop_fuel l) l 0 = Ret (c, l', o) → unpack_all_e emitted (l, out) = ((l', out ++ o), Ret c).
Proof. apply unpack_loop_e_Ret. Qed.

(** As long as nothing panics. *)
Lemma Feed_e_Ret l pkt out l' o : RtpContainer.Feed l pkt = Ret (l', o) → Feed_e emitted pkt (l, out) = ((l', out ++ o), Ret tt).
Proof.
  unfold RtpContainer.Feed, Feed_e. destruct (IsStale l (pseq pkt)); [intros [= <- <-]; by rewrite app_nil_r|].
  intros H. apply bind_Ret_inv in H as (q & Eq & H). rewrite Eq, eff_bind_lift.
  rewrite (eff_bind_Ret _ _ _ (Insert l q, out) tt) by done.
  apply bind_Ret_inv in H as ([[c l1] o1] & E1 & H). rewrite (eff_bind_Ret _ _ _ _ _ (unpack_all_e_Ret _ _ _ _ _ E1)).
  destruct (c >? 0); [by injection H as <- <-|].
  rewrite (eff_bind_Ret _ _ _ (l1, out ++ o1) (Full l1)) by done.
  destruct (Full l1); [|by injection H as <- <-].
  unfold mbind at 1, eff_bind. rewrite tryUnpackOne_e_eq. cbn [fst]. apply bind_Ret_inv in H as ([[packed l2] o2] & -> & H).
  destruct packed; cbn [negb] in *.
  - apply bind_Ret_inv in H as ([[c3 l3] o3] & E3 & [= <- <-]). rewrite (eff_bind_Ret _ _ _ _ _ (unpack_all_e_Ret _ _ _ _ _ E3)). by rewrite !app_assoc.
  - unfold popFirst_e. apply bind_Ret_inv in H as ([q' l3] & -> & [= <- <-]). by rewrite app_assoc.
Qed.

(** What the list holds is bytes, what is given away has [Q]; the fuel is enough. *)
Context {HP : UnpackerLaws P} (R : list AvPacket → Prop).
Hypothesis R_app : ∀ l k, R l → R k → R (l ++ k).
Hypothesis R_try : ∀ l seq flag l' o, TryUnpackOne l = Ret (flag, seq, l', o) → R o.
Hypothesis R_emitted : ∀ l, R (emitted l).

Definition boxed (b : Box) : Prop := bytes_list b.1 ∧ R b.2.
(** It ends with a value or a panic. *)
Definition ended {A} (P' : Box → Prop) (r : Box * outcome A) : Prop := P' r.1 ∧ ∀ e, r.2 = Fail e → e ≠ OutOfFuel.

Lemma tryUnpackOne_e_boxed b : boxed b → ended (λ b', boxed b' ∧ (length (items b'.1) ≤ length (items b.1))%nat) (tryUnpackOne_e emitted b) ∧
  ((tryUnpackOne_e emitted b).2 = Ret true → (length (items (tryUnpackOne_e emitted b).1.1) < length (items b.1))%nat).
Proof.
  destruct b as [l out]. intros [Hl Hout]. cbn [fst snd] in *. unfold tryUnpackOne_e.
  destruct (TryUnpackOne l) as [[[[flag seq] l'] o]|e|] eqn:E.
  - pose proof (R_try _ _ _ _ _ E). destruct flag.
    + destruct (try_consumed _ _ _ _ E) as [used Hu]. pose proof (consumed_shorter _ _ _ _ Hu).
      split; [|done]. split; [|done]. split; [split; [apply (consumed_bytes _ _ _ _ Hu Hl)|by apply R_app]|cbn; lia].
    + apply try_failed in E as [-> ->]. rewrite app_nil_r. split; [|done]. split; [|done]. by split; [split|].
  - split; [|done]. split; [by split; [split|]|]. intros e' [= <-] ->. by apply (try_no_fuel l).
  - split; [|done]. split; [|done]. split; [split; [done|by apply R_app]|done].
Qed.

Lemma unpack_loop_e_boxed fuel count b : boxed b → (length (items b.1) < fuel)%nat → ended boxed (unpack_loop_e emitted fuel count b).
Proof.
  revert count b. induction fuel as [|fuel IH]; intros count b Hb Hf; [lia|]. cbn [unpack_loop_e].
  unfold mbind, eff_bind, tryUnpackOneSequential_e. destruct (IsFirstSequential b.1); cbn [negb]; [|by split].
  destruct (tryUnpackOne_e_boxed b Hb) as [[[H1 H1'] H2] H3]. destruct (tryUnpackOne_e emitted b) as [b' [[]|e|]]; cbn [fst snd] in *.
  - apply IH; [done|]. specialize (H3 eq_refl). lia.
  - by split.
  - split; [done|]. by intros e' [= <-]; apply H2.
  - by split.
Qed.

Lemma unpack_all_e_boxed b : boxed b → ended boxed (unpack_all_e emitted b).
Proof. intros Hb. unfold unpack_all_e. by apply unpack_loop_e_boxed; [|unfold loop_fuel; lia]. Qed.

Lemma ended_bind {A C} (m : eff Box A) (f : A → eff Box C) b :
  ended boxed (m b) → (∀ a b', boxed b' → ended boxed (f a b')) → ended boxed ((m ≫= f) b).
Proof.
  intros [H1 H2] Hf. unfold mbind, eff_bind. destruct (m b) as [b' [a|e|]]; cbn [fst snd] in *; [by apply Hf| |by split].
  split; [done|]. by intros e' [= <-]; apply H2.
Qed.

Lemma Feed_e_boxed pkt b : boxed b → is_bytes (Raw pkt) → ended boxed (Feed_e emitted pkt b).
Proof.
  destruct b as [l out]. intros Hb Hp. unfold Feed_e. destruct (IsStale l (pseq pkt)); [by split|].
  destruct (CalcPositionIfNeeded pkt) as [q|e|] eqn:Eq; [|by split; [|intros e' [= <-] ->; by apply (calc_no_fuel pkt)]|by split].
  rewrite eff_bind_lift, (eff_bind_Ret _ _ _ (Insert l q, out) tt) by done.
  assert (Hq : is_bytes (Raw q)). { destruct (calc_position _ _ Eq) as [pos ->]. done. }
  assert (H1 : boxed (Insert l q, out)). { destruct Hb. split; [by apply Insert_bytes|done]. }
  apply ended_bind; [by apply unpack_all_e_boxed|]. intros c b2 H2. destruct (c >? 0); [by split|].
  rewrite (eff_bind_Ret _ _ _ b2 (Full b2.1)) by done. destruct (Full b2.1); [|by split].
  apply ended_bind; [destruct (tryUnpackOne_e_boxed b2 H2) as [[[? _] ?] _]; by split|]. intros [] b3 H3; cbn [negb].
  - apply ended_bind; [by apply unpack_all_e_boxed|]. intros c4 b4 H4. by split.
  - destruct b3 as [l3 o3], H3 as [Hl3 Ho3]. unfold popFirst_e. unfold PopFirst. cbn [fst snd] in *.
    unfold bytes_list in Hl3. destruct (items l3) as [|x rest] eqn:E3.
    + split; [|done]. split; [|done]. unfold bytes_list. cbn. by rewrite E3.
    + split; [|done]. split; [|done]. by inversion Hl3.
Qed.
End ContainerFacts.

(** ** What the observer gets *)

#[global] Instance medium_eq_dec : EqDecision medium.
Proof. solve_decision. Defined.

(** An unpacker that gives packets of type [pt] only. *)
Record unpacks (pt : Z) (u : Unpacker) : Prop := {
  up_laws : UnpackerLaws (u_protocol u);
  up_bytes : bytes_list (u_list u);
  up_try l flag seq l' o : TryUnpackOne (UnpackerProtocol := u_protocol u) l = Ret (flag, seq, l', o) →
    Forall (λ p, PayloadType p = pt) o;
  up_emitted l : Forall (λ p, PayloadType p = pt) (u_emitted u l);
}.

Lemma aac_units_type pt clock p b aus i out :
  aac_units pt clock p b aus i = Ret out → Forall (λ p, PayloadType p = pt) out.
Proof.
  revert i out. induction aus as [|a aus IH]; intros i out; cbn [aac_units]; [by intros [= <-]|].
  intros H. bind_inv H. bind_inv H. bind_inv H. injection H as <-. constructor; eauto.
Qed.
Lemma aac_units_emitted_type pt clock p b aus i : Forall (λ p, PayloadType p = pt) (aac_units_emitted pt clock p b aus i).
Proof.
  revert i. induction aus as [|a aus IH]; intros i; cbn [aac_units_emitted]; [done|].
  destruct (rtp_ms _ _); [|done..]. destruct (go_slice _ _ _); [|done..]. by constructor.
Qed.
Lemma aac_emitted_type pt clock l : Forall (λ p, PayloadType p = pt) (aac_emitted pt clock l).
Proof.
  unfold aac_emitted. repeat match goal with |- context [match ?x with _ => _ end] => destruct x end; auto using aac_units_emitted_type.
Qed.

Ltac try_type H := repeat first
  [ done
  | injection H as <- <- <- <-; by repeat constructor
  | bind_inv H
  | match type of H with context [match ?x with _ => _ end] => destruct x end ].

Lemma raw_try_type pt clock l flag seq l' o :
  raw_TryUnpackOne pt clock l = Ret (flag, seq, l', o) → Forall (λ p, PayloadType p = pt) o.
Proof. unfold raw_TryUnpackOne, try_no. intros H. try_type H. Qed.

Lemma aac_try_type pt clock l flag seq l' o :
  aac_TryUnpackOne pt clock l = Ret (flag, seq, l', o) → Forall (λ p, PayloadType p = pt) o.
Proof.
  unfold aac_TryUnpackOne, try_no. intros H. destruct (items l) as [|p rest]; [try_type H|].
  bind_inv H. bind_inv H. destruct a0 as [|x [|]].
  - bind_inv H. bind_inv H. injection H as <- <- <- <-. by eapply aac_units_type.
  - bind_inv H. destruct (_ <=? _); [try_type H|]. bind_inv H. try_type H.
  - bind_inv H. bind_inv H. injection H as <- <- <- <-. by eapply aac_units_type.
Qed.

Section Unpacks.
Context {B : Bele} {HB : BeleLaws B}.

Lemma avchevc_try_type pt clock l flag seq l' o :
  avchevc_TryUnpackOne pt clock l = Ret (flag, seq, l', o) → Forall (λ p, PayloadType p = pt) o.
Proof.
  unfold avchevc_TryUnpackOne, try_no. destruct (items l) as [|p rest]; [intros H; try_type H|].
  destruct (_ =? PositionTypeSingle).
  { intros H. bind_inv H. injection H as <- <- <- <-. unfold unpack_single in E. repeat bind_inv E. injection E as <-. by constructor. }
  destruct (_ || _).
  { intros H. bind_inv H. destruct a as [q|]; injection H as <- <- <- <-; [|done].
    unfold unpack_aggregate in E. repeat bind_inv E. destruct a2; [|done]. bind_inv E. injection E as <-. by constructor. }
  destruct (_ =? PositionTypeFuaStart); [|intros H; try_type H].
  destruct (fua_walk p rest) as [[used rest']|]; [|intros H; try_type H]. intros H. bind_inv H. injection H as <- <- <- <-.
  unfold unpack_fua in E. repeat bind_inv E. injection E as <-. by constructor.
Qed.

Lemma DefaultRtpUnpackerFactory_ok pt clock mx u : DefaultRtpUnpackerFactory pt clock mx = Some u → unpacks pt u.
Proof.
  unfold DefaultRtpUnpackerFactory. intros H.
  repeat match type of H with (if ?x then _ else _) = _ => destruct x end; try done; injection H as <-; split; cbn.
  - apply _.
  - constructor.
  - apply aac_try_type.
  - apply aac_emitted_type.
  - apply _.
  - constructor.
  - apply raw_try_type.
  - done.
  - apply _.
  - constructor.
  - apply avchevc_try_type.
  - done.
Qed.
End Unpacks.

Lemma unpacker_Feed_ok pt u pkt u' out r :
  unpacks pt u → is_bytes (Raw pkt) → unpacker_Feed u pkt = (u', out, r) →
  unpacks pt u' ∧ Forall (λ p, PayloadType p = pt) out ∧ r ≠ Fail OutOfFuel.
Proof.
  intros [H1 H2 H3 H4] Hp. unfold unpacker_Feed.
  destruct (Feed_e_boxed (P := u_protocol u) (u_emitted u) (Forall (λ p, PayloadType p = pt))) with (b := (u_list u, @nil AvPacket)) (pkt := pkt)
    as [[F1 F2] F3]; try done.
  - intros l k ? ?. by apply Forall_app.
  - intros l seq flag l' o E. by apply (H3 l flag seq l' o).
  - destruct (Feed_e _ _ _) as [[l o] res]. cbn [fst snd] in *. intros [= <- <- <-]. split; [by split|]. split; [done|].
    intros E. by apply (F3 _ E).
Qed.

Definition rtps (l : list Event) : list RtpPacket := omap (λ e, match e with EvRtp p => Some p | _ => None end) l.
Definition avs (l : list Event) : list AvPacket := omap (λ e, match e with EvAv p => Some p | _ => None end) l.

Lemma rtps_app l k : rtps (l ++ k) = rtps l ++ rtps k.
Proof. apply omap_app. Qed.
Lemma avs_app l k : avs (l ++ k) = avs l ++ avs k.
Proof. apply omap_app. Qed.
Lemma avs_EvAv l : avs (EvAv <$> l) = l.
Proof. induction l; cbn; [done|]. by f_equal. Qed.
Lemma rtps_EvAv l : rtps (EvAv <$> l) = [].
Proof. by induction l. Qed.

(** The medium and the packet that a datagram is for a session with this description. *)
Section Accepted.
Context {B : Bele}.
Definition accepted (c : LogicContext) (b : list Z) : option (medium * RtpPacket) :=
  if len b <? RtpFixedHeaderLength then None else
  let t := Z.land (b !!! 1%nat) 127 in
  match ParseRtpHeader b with
  | Ret h =>
      if IsAudioPayloadTypeOrigin c t then Some (Audio, mkRtpPacket h b 0)
      else if IsVideoPayloadTypeOrigin c t then Some (Video, mkRtpPacket h b 0)
      else None
  | _ => None
  end.
End Accepted.

(** The RTP datagram of an input, for these channels. *)
Definition datagram (ra rv : Z) (i : Input) : option (list Z) :=
  match i with
  | InFrame b ch => if (ch =? ra) || (ch =? rv) then Some b else None
  | InRtp b => b
  | InRtcp _ _ => None
  end.

Definition of_medium (m : medium) (l : list (medium * RtpPacket)) : list RtpPacket :=
  omap (λ x, if decide (x.1 = m) then Some x.2 else None) l.

(** An unpacker that recovers, on its own. *)
Fixpoint feed_alone (u : option Unpacker) (ps : list RtpPacket) : option Unpacker * list AvPacket :=
  match ps, u with
  | p :: ps, Some u =>
      let '(u, out, _) := unpacker_Feed u p in
      let '(u, out') := feed_alone (Some u) ps in
      (u, out ++ out')
  | _, _ => (u, [])
  end.

Section Playing.
Context {B : Bele} {HB : BeleLaws B} {Q : CircularQueue AvPacket}.
Variables (FilterFlag HandleRotateFlag : bool) (c : LogicContext) (ra rv apt vpt : Z).
Hypotheses (Ha : IsVideo (mkAvPacket apt 0 0 []) = false) (Hv : IsVideo (mkAvPacket vpt 0 0 []) = true).

Abbreviation W := (BaseInSession * list Event)%type.

Definition pt_of (m : medium) : Z := match m with Audio => apt | Video => vpt end.

(** A session at normal speed, with these unpackers. *)
Record playing (u : medium → option Unpacker) (s : BaseInSession) : Prop := {
  pl_observer : observer s = true;
  pl_sdp : sdpCtx s = c;
  pl_queue : avPacketQueue s = None;
  pl_channels : rtpChannel (audio s) = ra ∧ rtpChannel (video s) = rv;
  pl_unpacker m : unpacker (side m s) = u m;
  pl_ok m x : u m = Some x → unpacks (pt_of m) x;
}.

(** A handler that tells the observer nothing. *)
Definition quiet {A} (m : eff W A) : Prop := ∀ u s ev, playing u s → ∃ s' evs r,
  m (s, ev) = ((s', ev ++ evs), r) ∧ playing u s' ∧ rtps evs = [] ∧ avs evs = [] ∧ r ≠ Fail OutOfFuel.

Lemma quiet_lift {A} (m : outcome A) : m ≠ Fail OutOfFuel → quiet (lift m).
Proof. intros Hm u s ev Hs. exists s, [], m. by rewrite app_nil_r. Qed.
Lemma quiet_ret {A} (a : A) : quiet (mret a).
Proof. by apply (quiet_lift (Ret a)). Qed.
Lemma quiet_here : quiet here.
Proof. intros u s ev Hs. exists s, [], (Ret s). by rewrite app_nil_r. Qed.
Lemma quiet_upd f : (∀ u s, playing u s → playing u (f s)) → quiet (upd f).
Proof. intros Hf u s ev Hs. exists (f s), [], (Ret tt). rewrite app_nil_r. split; [done|]. split; [by apply Hf|done]. Qed.
Lemma quiet_emit l : rtps l = [] → avs l = [] → quiet (emit l).
Proof. intros H1 H2 u s ev Hs. by exists s, l, (Ret tt). Qed.
Lemma quiet_bind {A C} (m : eff W A) (f : A → eff W C) : quiet m → (∀ a, quiet (f a)) → quiet (m ≫= f).
Proof.
  intros Hm Hf u s ev Hs. destruct (Hm u s ev Hs) as (s1 & e1 & r & E1 & H1 & R1 & A1 & N1).
  unfold mbind, eff_bind. rewrite E1. destruct r as [a|e|].
  - destruct (Hf a u s1 (ev ++ e1) H1) as (s2 & e2 & r2 & E2 & H2 & R2 & A2 & N2).
    exists s2, (e1 ++ e2), r2. rewrite E2, app_assoc, rtps_app, avs_app, R1, A1. done.
  - exists s1, e1, (Fail e). split; [done|]. split; [done|]. split; [done|]. split; [done|]. congruence.
  - by exists s1, e1, Panic.
Qed.

(** The events [evs] and no error. *)
Definition does (m : eff W unit) (u : medium → option Unpacker) (s : BaseInSession) (ev : list Event)
    (u' : medium → option Unpacker) (rs : list RtpPacket) (av : list AvPacket) : Prop := ∃ s' evs,
  m (s, ev) = ((s', ev ++ evs), Ret tt) ∧ playing u' s' ∧ rtps evs = rs ∧ avs evs = av.

Lemma ends_well {A} (d : A) (m : eff W A) (w w' : W) r : m w = (w', r) → r ≠ Fail OutOfFuel →
  ∃ r', recovered d m w = (w', r') ∧ r' ≠ Panic ∧ r' ≠ Fail OutOfFuel.
Proof. intros E H. unfold recovered. rewrite E. destruct r; eauto 10. Qed.
Lemma dropped_well (m : eff W unit) (w w' : W) r : m w = (w', r) → r ≠ Panic → r ≠ Fail OutOfFuel → dropped m w = (w', Ret tt).
Proof. intros E H1 H2. unfold dropped. rewrite E. destruct r as [[]|[]|]; done. Qed.

Lemma quiet_done m u s ev : quiet m → playing u s → does (dropped (recovered tt m)) u s ev u [] [].
Proof.
  intros Hm Hs. destruct (Hm u s ev Hs) as (s1 & e1 & r & E1 & H1 & R1 & A1 & N1).
  destruct (ends_well tt _ _ _ _ E1 N1) as (r' & E2 & N2 & N3). exists s1, e1. by rewrite (dropped_well _ _ _ _ E2 N2 N3).
Qed.

Lemma playing_side u s m f : playing u s →
  (∀ x, rtpChannel (f x) = rtpChannel x ∧ unpacker (f x) = unpacker x) → playing u (on_side m f s).
Proof.
  intros [H1 H2 H3 [H4 H5] H6 H7] Hf. pose proof (Hf (side m s)) as [F1 F2].
  split; try done; destruct m; cbn in *; rewrite ?F1; try done; intros []; cbn; rewrite ?F2; by apply (H6 Audio) || apply (H6 Video).
Qed.
Lemma quiet_side m f : (∀ x, rtpChannel (f x) = rtpChannel x ∧ unpacker (f x) = unpacker x) → quiet (upd (on_side m f)).
Proof. intros Hf. apply quiet_upd. intros u s Hs. by apply playing_side. Qed.
Lemma quiet_read n : quiet (read_bytes n).
Proof. apply quiet_upd. by intros u s [? ? ? ? ? ?]. Qed.
Lemma quiet_wrote n : quiet (wrote_bytes n).
Proof. apply quiet_upd. by intros u s [? ? ? ? ? ?]. Qed.


Lemma Produce_no_fuel r n : Produce r n ≠ Fail OutOfFuel.
Proof. unfold Produce. destruct (_ =? -1); [done|]. destruct (produce_report r n) as [rr r']. unfold rr_Pack, rtcp_PackTo. no_fuel. Qed.
Lemma ParseSr_no_fuel b : ParseSr b ≠ Fail OutOfFuel.
Proof. unfold ParseSr. no_fuel. Qed.
Lemma parse_csrc_no_fuel b n offset : parse_csrc b n offset ≠ Fail OutOfFuel.
Proof. revert offset. induction n as [|n IH]; intros offset; cbn [parse_csrc]; no_fuel. Qed.
Hint Resolve Produce_no_fuel ParseSr_no_fuel parse_csrc_no_fuel : fuel.
Lemma ParseRtpHeader_no_fuel b : ParseRtpHeader b ≠ Fail OutOfFuel.
Proof. unfold ParseRtpHeader, parse_extension. no_fuel. Qed.

Lemma quiet_answer m sr n a : quiet (answer_sr m sr n a).
Proof.
  apply quiet_bind; [apply quiet_here|]. intros s. destruct (rrProducer (side m s)) as [r|]; [|by apply quiet_lift].
  apply quiet_bind; [apply quiet_lift; no_fuel|]. intros [rr r']. apply quiet_bind; [by apply quiet_side|]. intros _.
  destruct rr as [b|]; [|apply quiet_ret]. apply quiet_bind; [|intros _; apply quiet_wrote].
  destruct a as [a|]; [|by apply quiet_emit]. destruct (rtcpConn _); [by apply quiet_emit|by apply quiet_lift].
Qed.

Lemma quiet_rtcp b a u s ev : playing u s → does (dropped (handleRtcpPacket b a)) u s ev u [] [].
Proof.
  intros Hs. apply quiet_done; [|done]. destruct (_ <? 4); [by apply quiet_lift|].
  apply quiet_bind; [apply quiet_read|]. intros _. apply quiet_bind; [apply quiet_lift; no_fuel|]. intros t.
  destruct (t =? RtcpPacketTypeSr); [|by apply quiet_lift]. apply quiet_bind; [apply quiet_lift; no_fuel|]. intros sr.
  apply quiet_bind; [apply quiet_here|]. intros s'. destruct (_ =? _); [apply quiet_answer|].
  destruct (_ =? _); [apply quiet_answer|apply quiet_ret].
Qed.

(** ** RTP *)

Definition set_u (m : medium) (x : option Unpacker) (u : medium → option Unpacker) : medium → option Unpacker :=
  λ m', if decide (m' = m) then x else u m'.

Lemma unpacked_all_run l u s ev : playing u s →
  unpacked_all HandleRotateFlag l (s, ev) = ((s, ev ++ (EvAv <$> l)), Ret tt).
Proof.
  intros Hs. revert ev. induction l as [|p l IH]; intros ev; cbn [unpacked_all]; [by rewrite app_nil_r|].
  unfold onAvPacketUnpacked, mbind, eff_bind, recovered, here. cbn [fst]. rewrite (pl_queue _ _ Hs), (pl_observer _ _ Hs).
  unfold emit. rewrite IH. by rewrite <- app_assoc.
Qed.

Lemma playing_set u s m x : playing u s → unpacks (pt_of m) x →
  playing (set_u m (Some x) u) (on_side m (set_unpacker (Some x)) s).
Proof.
  intros [H1 H2 H3 [H4 H5] H6 H7] Hx. unfold set_u. split; try done; destruct m; cbn; try done.
  - intros []; [done|]. apply (H6 Video).
  - intros []; [|done]. apply (H6 Audio).
  - intros [] y; cbn; [by intros [= <-]|apply (H7 Video)].
  - intros [] y; cbn; [apply (H7 Audio)|by intros [= <-]].
Qed.

Lemma feed_unpacker_run m pkt u s ev : playing u s → is_bytes (Raw pkt) →
  let r := feed_alone (u m) [pkt] in
  ∃ s' o, feed_unpacker HandleRotateFlag m pkt (s, ev) = ((s', ev ++ (EvAv <$> r.2)), o) ∧ playing (set_u m r.1 u) s' ∧ o ≠ Fail OutOfFuel ∧
    Forall (λ p, PayloadType p = pt_of m) r.2.
Proof.
  intros Hs Hp. unfold feed_unpacker. rewrite (eff_bind_Ret _ _ _ (s, ev) s) by done. rewrite (pl_unpacker _ _ Hs).
  cbn [feed_alone]. destruct (u m) as [x|] eqn:E.
  - destruct (unpacker_Feed x pkt) as [[x' out] o] eqn:Ef. destruct (unpacker_Feed_ok _ _ _ _ _ _ (pl_ok _ _ Hs m x E) Hp Ef) as (F1 & F2 & F3).
    cbn [feed_alone fst snd]. rewrite app_nil_r. pose proof (playing_set _ _ m x' Hs F1) as Hs'.
    exists (on_side m (set_unpacker (Some x')) s), o. split; [|done].
    rewrite (eff_bind_Ret _ _ _ (on_side m (set_unpacker (Some x')) s, ev) tt) by done.
    by rewrite (eff_bind_Ret _ _ _ _ _ (unpacked_all_run out _ _ ev Hs')).
  - exists s, (Ret tt). cbn [fst snd fmap]. rewrite app_nil_r. split; [done|]. split; [|done].
    destruct Hs as [H1 H2 H3 H4 H5 H6]. split; try done; unfold set_u.
    + intros m'. destruct (decide (m' = m)) as [->|]; [by rewrite H5|apply H5].
    + intros m' y. destruct (decide (m' = m)); [done|apply H6].
Qed.

Lemma handle_medium_run m pkt u s ev : playing u s → is_bytes (Raw pkt) →
  let r := feed_alone (u m) [pkt] in
  ∃ s' o, handle_medium HandleRotateFlag m pkt (s, ev) = ((s', ev ++ EvRtp pkt :: (EvAv <$> r.2)), o) ∧ playing (set_u m r.1 u) s' ∧
    o ≠ Fail OutOfFuel ∧ Forall (λ p, PayloadType p = pt_of m) r.2.
Proof.
  intros Hs Hp. unfold handle_medium. set (s1 := on_side m (set_ssrc (Ssrc (Header pkt))) s).
  assert (H1 : playing u s1) by by apply playing_side.
  rewrite (eff_bind_Ret _ _ _ (s1, ev) tt), (eff_bind_Ret _ _ _ (s1, ev) s1) by done. rewrite (pl_observer _ _ H1).
  rewrite (eff_bind_Ret _ _ _ (s1, ev ++ [EvRtp pkt]) tt) by done.
  set (s2 := on_side m (λ x, set_producer ((λ r, FeedRtpPacket r (pseq pkt)) <$> rrProducer x) x) s1).
  rewrite (eff_bind_Ret _ _ _ (s2, ev ++ [EvRtp pkt]) tt) by done.
  assert (H2 : playing u s2) by by apply playing_side.
  destruct (feed_unpacker_run m pkt u s2 (ev ++ [EvRtp pkt]) H2 Hp) as (s' & o & E & F). exists s', o.
  rewrite E. by rewrite <- app_assoc.
Qed.

(** The unpackers and the packets given after the packets [l]. *)
Fixpoint take_all (u : medium → option Unpacker) (l : list (medium * RtpPacket)) : (medium → option Unpacker) * list AvPacket :=
  match l with
  | [] => (u, [])
  | (m, p) :: l =>
      let r := feed_alone (u m) [p] in
      let '(u', out) := take_all (set_u m r.1 u) l in
      (u', r.2 ++ out)
  end.
Abbreviation take1 u b := (take_all u (match accepted c b with Some x => [x] | None => [] end)).

Lemma handleRtp_run b u s ev : playing u s → is_bytes b →
  let l := match accepted c b with Some x => [x] | None => [] end in
  does (dropped (handleRtpPacket HandleRotateFlag b)) u s ev (take_all u l).1 (snd <$> l) (take_all u l).2.
Proof.
  intros Hs Hb. unfold accepted. destruct (Z.ltb_spec (len b) RtpFixedHeaderLength) as [Hl|Hl].
  { apply quiet_done; [|done]. destruct (_ =? 0); [by apply quiet_lift|]. apply quiet_bind; [apply quiet_read|]. intros _.
    rewrite (proj2 (Z.ltb_lt _ _) Hl). by apply quiet_lift. }
  assert (E1 : go_index b 1 = Ret (b !!! 1%nat)).
  { unfold RtpFixedHeaderLength in Hl. unfold go_index. cbn [Z.leb Z.compare]. destruct b as [|x0 [|x1 b]]; cbn in Hl; [lia|lia|done]. }
  set (t := Z.land (b !!! 1%nat) 127).
  set (s1 := set_sessionStat (AddReadBytes (sessionStat s) (len b)) s).
  assert (H1 : playing u s1) by by destruct Hs.
  enough (∀ m : eff W unit, m = (s ← here; if negb (IsPayloadTypeOrigin (sdpCtx s) t) then lift (Fail ErrRtsp) else
      h ← lift (ParseRtpHeader b); let pkt := mkRtpPacket h b 0 in
      if IsAudioPayloadTypeOrigin (sdpCtx s) t then handle_medium HandleRotateFlag Audio pkt
      else if IsVideoPayloadTypeOrigin (sdpCtx s) t then handle_medium HandleRotateFlag Video pkt else mret tt) →
      ∃ s' evs o, m (s1, ev) = ((s', ev ++ evs), o) ∧ playing (take1 u b).1 s' ∧
        rtps evs = snd <$> (match accepted c b with Some x => [x] | None => [] end) ∧ avs evs = (take1 u b).2 ∧ o ≠ Fail OutOfFuel) as Hbody.
  { destruct (Hbody _ eq_refl) as (s' & evs & o & Eb & P1 & P2 & P3 & P4). unfold accepted in P1, P2, P3.
    rewrite (proj2 (Z.ltb_ge (len b) _) Hl) in P1, P2, P3. exists s', evs. split; [|done].
    destruct (ends_well tt _ _ _ _ Eb P4) as (o' & Eo & N1 & N2). apply (dropped_well _ _ _ o'); [|done..].
    rewrite <- Eo. unfold handleRtpPacket, recovered. rewrite (proj2 (Z.eqb_neq (len b) 0)) by (unfold RtpFixedHeaderLength in Hl; lia).
    rewrite (eff_bind_Ret _ _ _ (s1, ev) tt) by done. by rewrite (proj2 (Z.ltb_ge (len b) _) Hl), E1, eff_bind_lift. }
  intros m ->. rewrite (eff_bind_Ret _ _ _ (s1, ev) s1) by done. rewrite (pl_sdp _ _ H1). unfold accepted.
  rewrite (proj2 (Z.ltb_ge (len b) _) Hl). fold t.
  assert (Hnone : ∀ o : outcome unit, o ≠ Fail OutOfFuel → ∃ s' evs o', ((s1, ev), o) = ((s', ev ++ evs), o') ∧ playing u s' ∧ rtps evs = [] ∧ avs evs = [] ∧ o' ≠ Fail OutOfFuel).
  { intros o Ho. exists s1, [], o. by rewrite app_nil_r. }
  unfold IsPayloadTypeOrigin, IsAudioPayloadTypeOrigin, IsVideoPayloadTypeOrigin.
  pose proof (ParseRtpHeader_no_fuel b) as Hh.
  destruct (ParseRtpHeader b) as [h|e|]; cycle 1.
  1-2: destruct (_ || _); cbn [negb]; apply Hnone; congruence.
  destruct (audioPayloadTypeOrigin c =? t); [|destruct (videoPayloadTypeOrigin c =? t)]; cbn [orb negb]; [..|by apply Hnone].
  all: rewrite eff_bind_lift; match goal with |- context [handle_medium _ ?m ?p] => destruct (handle_medium_run m p u s1 ev H1 Hb) as (s' & o & E & F1 & F2 & _) end.
  all: rewrite E; eexists s', _, o; split; [done|]; cbn [take_all fst snd fmap list_fmap]; rewrite app_nil_r.
  all: split; [done|]; cbn; by rewrite rtps_EvAv, avs_EvAv.
Qed.

(** ** Any input *)

Definition input_bytes (i : Input) : Prop :=
  match i with InFrame b _ | InRtp (Some b) => is_bytes b | _ => True end.

Lemma handle_run i u s ev : playing u s → input_bytes i →
  let l := omap (accepted c) (omap (datagram ra rv) [i]) in
  does (handle HandleRotateFlag i) u s ev (take_all u l).1 (snd <$> l) (take_all u l).2.
Proof.
  intros Hs Hb. assert (Hskip : does (mret tt) u s ev u [] []) by (exists s, []; by rewrite app_nil_r).
  assert (Hrtp : ∀ b, is_bytes b → let l := omap (accepted c) [b] in
    does (dropped (handleRtpPacket HandleRotateFlag b)) u s ev (take_all u l).1 (snd <$> l) (take_all u l).2).
  { intros b H. pose proof (handleRtp_run b u s ev Hs H) as Hr. cbn [omap list_omap]. by destruct (accepted c b). }
  destruct i as [b ch|[b|]|[b|] a]; cbn [handle datagram omap list_omap].
  - unfold HandleInterleavedPacket. destruct (pl_channels _ _ Hs) as [Er Ev]. destruct (Z.eqb_spec (len b) 0) as [H0|H0].
    { assert (b = []) as -> by (destruct b; [done|cbn in H0; lia]).
      exists s, []. rewrite app_nil_r. by destruct (_ || _). }
    cbn [fst]. assert (Hin : ∀ m : eff W unit, m = (s ← here;
        if (ch =? rtpChannel (audio s)) || (ch =? rtpChannel (video s)) then dropped (handleRtpPacket HandleRotateFlag b)
        else if (ch =? rtcpChannel (audio s)) || (ch =? rtcpChannel (video s)) then dropped (handleRtcpPacket b None)
        else mret tt) →
      let l := omap (accepted c) (if (ch =? ra) || (ch =? rv) then [b] else []) in
      does m u s ev (take_all u l).1 (snd <$> l) (take_all u l).2).
    { intros m ->. unfold does. rewrite (eff_bind_Ret _ _ _ (s, ev) s) by done. rewrite Er, Ev.
      destruct ((ch =? ra) || (ch =? rv)); [by apply Hrtp|]. destruct (_ || _); [by apply quiet_rtcp|apply Hskip]. }
    specialize (Hin _ eq_refl). destruct Hin as (s' & evs & E & F). unfold does, recovered. rewrite E. exists s', evs.
    by destruct ((ch =? ra) || (ch =? rv)).
  - by apply Hrtp.
  - apply Hskip.
  - by apply quiet_rtcp.
  - apply Hskip.
Qed.

Lemma take_all_app u l k : take_all u (l ++ k) =
  let r := take_all u l in let r2 := take_all r.1 k in (r2.1, r.2 ++ r2.2).
Proof.
  revert u. induction l as [|[m p] l IH]; intros u; cbn [app take_all]; [cbn; by destruct (take_all u k)|].
  rewrite IH. destruct (take_all _ l) as [u1 o1]. cbn [fst snd]. destruct (take_all u1 k). cbn [fst snd]. by rewrite app_assoc.
Qed.

Lemma handle_all_run ins u s ev : playing u s → Forall input_bytes ins →
  let l := omap (accepted c) (omap (datagram ra rv) ins) in
  does (handle_all HandleRotateFlag ins) u s ev (take_all u l).1 (snd <$> l) (take_all u l).2.
Proof.
  intros Hs Hb. revert u s ev Hs. induction Hb as [|i ins Hi _ IH]; intros u s ev Hs; cbn [handle_all].
  { exists s, []. by rewrite app_nil_r. }
  destruct (handle_run i u s ev Hs Hi) as (s1 & e1 & E1 & P1 & R1 & A1).
  destruct (IH _ s1 (ev ++ e1) P1) as (s2 & e2 & E2 & P2 & R2 & A2). exists s2, (e1 ++ e2).
  rewrite (eff_bind_Ret _ _ _ _ _ E1), E2, app_assoc, rtps_app, avs_app, R1, A1, R2, A2.
  change (i :: ins) with ([i] ++ ins). rewrite !omap_app, take_all_app, fmap_app. done.
Qed.

(** ** Each medium alone *)

Lemma feed_alone_cons u p ps : feed_alone u (p :: ps) =
  let r := feed_alone u [p] in let r2 := feed_alone r.1 ps in (r2.1, r.2 ++ r2.2).
Proof.
  cbn [feed_alone]. destruct u as [u|]; [|by destruct ps].
  destruct (unpacker_Feed u p) as [[u1 o1] r1]. cbn [feed_alone fst snd]. rewrite app_nil_r. by destruct (feed_alone (Some u1) ps).
Qed.

Lemma feed_alone_ok m x ps : (∀ y, x = Some y → unpacks (pt_of m) y) → Forall (λ p, is_bytes (Raw p)) ps →
  (∀ y, (feed_alone x ps).1 = Some y → unpacks (pt_of m) y) ∧ Forall (λ p, PayloadType p = pt_of m) (feed_alone x ps).2.
Proof.
  intros Hx Hp. revert x Hx. induction Hp as [|p ps Hp _ IH]; intros x Hx; [by destruct x|]. destruct x as [x|]; [|done].
  cbn [feed_alone]. destruct (unpacker_Feed x p) as [[x1 o1] r1] eqn:E.
  destruct (unpacker_Feed_ok _ _ _ _ _ _ (Hx x eq_refl) Hp E) as (F1 & F2 & _).
  destruct (IH (Some x1)) as [G1 G2]; [by intros y [= <-]|]. destruct (feed_alone (Some x1) ps) as [x2 o2]. cbn in *.
  split; [done|]. by apply Forall_app.
Qed.

Lemma of_type m o : Forall (λ p, PayloadType p = pt_of m) o →
  audio_of o = (match m with Audio => o | Video => [] end) ∧ video_of o = match m with Audio => [] | Video => o end.
Proof.
  intros Ho. destruct m; [apply of_all_audio|apply of_all_video]; unfold all_audio, all_video; eapply Forall_impl; try exact Ho;
    intros p E; cbn [pt_of] in E; unfold IsVideo in *; cbn [PayloadType] in *; by rewrite E.
Qed.

Lemma take_all_media u l : (∀ m y, u m = Some y → unpacks (pt_of m) y) → Forall (λ x, is_bytes (Raw x.2)) l →
  audio_of (take_all u l).2 = (feed_alone (u Audio) (of_medium Audio l)).2 ∧
  video_of (take_all u l).2 = (feed_alone (u Video) (of_medium Video l)).2.
Proof.
  intros Hu Hl. revert u Hu. induction Hl as [|[m p] l Hp _ IH]; intros u Hu; [by cbn; destruct (u Audio), (u Video)|].
  cbn [take_all]. destruct (feed_alone_ok m (u m) [p] (Hu m)) as [F1 F2]; [by constructor|].
  destruct (IH (set_u m (feed_alone (u m) [p]).1 u)) as [G1 G2].
  { intros m' y. unfold set_u. destruct (decide (m' = m)) as [->|]; [apply F1|apply Hu]. }
  destruct (take_all _ l) as [u' o']. cbn [fst snd] in *. rewrite audio_of_app, video_of_app, G1, G2.
  destruct (of_type _ _ F2) as [-> ->].
  destruct m; cbn [set_u].
  - change (of_medium Audio ((Audio, p) :: l)) with (p :: of_medium Audio l).
    change (of_medium Video ((Audio, p) :: l)) with (of_medium Video l). by rewrite (feed_alone_cons _ p (of_medium Audio l)).
  - change (of_medium Video ((Video, p) :: l)) with (p :: of_medium Video l).
    change (of_medium Audio ((Video, p) :: l)) with (of_medium Audio l). by rewrite (feed_alone_cons _ p (of_medium Video l)).
Qed.
End Playing.

(** ** A session from its description on *)

Section Described.
Context {B : Bele} {HB : BeleLaws B} {Q : CircularQueue AvPacket}.

(** The unpacker of a medium of the description, if it has one. *)
Definition made (m : medium) (c : LogicContext) : option Unpacker :=
  match m with
  | Audio => if IsAudioUnpackable c then DefaultRtpUnpackerFactory (GetAudioPayloadTypeBase c) (AudioClockRate c) unpackerItemMaxSize else None
  | Video => if IsVideoUnpackable c then DefaultRtpUnpackerFactory (GetVideoPayloadTypeBase c) (VideoClockRate c) unpackerItemMaxSize else None
  end.

(** SETUP requests; one that fails changes nothing. *)
Fixpoint setup_all (l : list (list Z * (Z * Z))) : eff (BaseInSession * list Event) unit :=
  match l with [] => mret tt | (uri, (rtp, rtcp)) :: l => _ ← dropped (SetupWithChannel uri rtp rtcp); setup_all l end.

Definition session_pt (m : medium) (c : LogicContext) : Z :=
  match m with
  | Audio => if IsAudioUnpackable c then GetAudioPayloadTypeBase c else AvPacketPtAac
  | Video => if IsVideoUnpackable c then GetVideoPayloadTypeBase c else AvPacketPtAvc
  end.

Ltac by_type H := unfold AvPacketPtAac, AvPacketPtG711A, AvPacketPtG711U, AvPacketPtOpus, AvPacketPtAvc, AvPacketPtHevc in *;
  repeat match type of H with _ || _ = true => apply orb_prop in H as [H|H] end;
  repeat match type of H with _ && _ = true => apply andb_prop in H as [H _] end; apply Z.eqb_eq in H; rewrite H.

Lemma session_pt_audio c : IsVideo (mkAvPacket (session_pt Audio c) 0 0 []) = false.
Proof. cbn [session_pt]. destruct (IsAudioUnpackable c) eqn:E; [|done]. unfold IsAudioUnpackable, GetAudioPayloadTypeBase in *. by_type E; done. Qed.
Lemma session_pt_video c : IsVideo (mkAvPacket (session_pt Video c) 0 0 []) = true.
Proof. cbn [session_pt]. destruct (IsVideoUnpackable c) eqn:E; [|done]. unfold IsVideoUnpackable, GetVideoPayloadTypeBase in *. by_type E; done. Qed.

(** What can be unpacked has an unpacker: the process is not ended. *)
Lemma made_some m c : (match m with Audio => IsAudioUnpackable c | Video => IsVideoUnpackable c end) = true → ∃ u, made m c = Some u.
Proof.
  destruct m; cbn [made]; intros E; rewrite E; unfold IsAudioUnpackable, IsVideoUnpackable, GetAudioPayloadTypeBase, GetVideoPayloadTypeBase in *;
    unfold DefaultRtpUnpackerFactory; by_type E; cbn; eauto.
Qed.
Lemma made_ok m c u : made m c = Some u → unpacks (session_pt m c) u.
Proof.
  destruct m; cbn [made session_pt]; [destruct (IsAudioUnpackable c)|destruct (IsVideoUnpackable c)]; try done; apply DefaultRtpUnpackerFactory_ok.
Qed.

Lemma InitWithSdp_run stat c :
  ∃ s, InitWithSdp c (NewBaseInSessionWithObserver stat, []) = ((s, [EvSdp c]), Ret tt) ∧
    observer s = true ∧ sdpCtx s = c ∧ avPacketQueue s = None ∧ ∀ m, unpacker (side m s) = made m c.
Proof.
  pose proof (made_some Audio c) as Ma. pose proof (made_some Video c) as Mv. unfold InitWithSdp, make_unpacker. cbn [made] in *. cbv beta iota in Ma, Mv.
  destruct (IsAudioUnpackable c) eqn:Ea; destruct (IsVideoUnpackable c) eqn:Ev; cbn [negb];
    repeat match goal with H : true = true → _ |- _ => let x := fresh "x" in let Ex := fresh "Ex" in destruct (H eq_refl) as [x Ex]; clear H; rewrite Ex end;
    eexists; split; try reflexivity; split; try done; split; try done; split; try done;
    intros []; cbn [made]; rewrite ?Ea, ?Ev; first [done|by rewrite Ex|by rewrite Ex0].
Qed.

Lemma setup_all_run l s ev : ∃ s', setup_all l (s, ev) = ((s', ev), Ret tt) ∧
  observer s' = observer s ∧ sdpCtx s' = sdpCtx s ∧ avPacketQueue s' = avPacketQueue s ∧ ∀ m, unpacker (side m s') = unpacker (side m s).
Proof.
  revert s. induction l as [|[uri [rtp rtcp]] l IH]; intros s; cbn [setup_all]; [by exists s|].
  assert (∃ s1, dropped (SetupWithChannel uri rtp rtcp) (s, ev) = ((s1, ev), Ret tt) ∧
    observer s1 = observer s ∧ sdpCtx s1 = sdpCtx s ∧ avPacketQueue s1 = avPacketQueue s ∧ ∀ m, unpacker (side m s1) = unpacker (side m s))
    as (s1 & E1 & A1 & A2 & A3 & A4).
  { unfold dropped, SetupWithChannel, setup, here, mbind, eff_bind. cbn [fst].
    destruct (IsAudioUri _ _); [|destruct (IsVideoUri _ _)]; eexists; (split; [reflexivity|]); split; try done; split; try done; split; try done; by intros []. }
  destruct (IH s1) as (s2 & E2 & B1 & B2 & B3 & B4). exists s2. rewrite (eff_bind_Ret _ _ _ _ _ E1), E2, B1, B2, B3.
  split; [done|]. split; [done|]. split; [done|]. split; [done|]. intros m. by rewrite B4.
Qed.

Lemma described_playing stat c setups : ∃ s,
  (_ ← InitWithSdp c; setup_all setups) (NewBaseInSessionWithObserver stat, []) = ((s, [EvSdp c]), Ret tt) ∧
  playing c (rtpChannel (audio s)) (rtpChannel (video s)) (session_pt Audio c) (session_pt Video c) (λ m, made m c) s.
Proof.
  destruct (InitWithSdp_run stat c) as (s0 & E0 & A1 & A2 & A3 & A4).
  destruct (setup_all_run setups s0 [EvSdp c]) as (s & E & B1 & B2 & B3 & B4). exists s.
  rewrite (eff_bind_Ret _ _ _ _ _ E0), E. split; [done|]. split; [congruence..|done| |].
  - intros m. by rewrite B4.
  - intros m x Hx. apply made_ok in Hx. by destruct m.
Qed.

Lemma accepted_bytes c ds : Forall is_bytes ds → Forall (λ x, is_bytes (Raw x.2)) (omap (accepted c) ds).
Proof.
  induction 1 as [|b ds Hb _ IH]; cbn [omap list_omap]; [done|]. destruct (accepted c b) as [x|] eqn:E; [|done]. constructor; [|done].
  revert E. unfold accepted. destruct (_ <? _); [done|]. destruct (ParseRtpHeader b); [|done..].
  destruct (IsAudioPayloadTypeOrigin _ _); [by intros [= <-]|]. destruct (IsVideoPayloadTypeOrigin _ _); [by intros [= <-]|done].
Qed.
Lemma datagrams_bytes ra rv ins : Forall input_bytes ins → Forall is_bytes (omap (datagram ra rv) ins).
Proof.
  induction 1 as [|i ins Hi _ IH]; cbn [omap list_omap]; [done|].
  destruct i as [b ch|[b|]|b a]; cbn [datagram]; try done; [destruct (_ || _)|]; auto.
Qed.
End Described.

(** A session made from any description, with any channels set up, fed any frames
    and datagrams, does not panic or stop; the observer gets the description, then
    each well-formed RTP packet of the payload types of the description, in order of
    arrival, and of each medium the packets that the unpacker of that medium alone,
    recovering from its panics, makes of the packets of that medium: neither the other
    medium nor anything else that arrives has an effect on it. *)
Theorem rtsp_in_streams {B : Bele} (HB : BeleLaws B) {Q : CircularQueue AvPacket} flag stat c setups ins :
  Forall input_bytes ins →
  ∃ s, (_ ← InitWithSdp c; setup_all setups) (NewBaseInSessionWithObserver stat, []) = ((s, [EvSdp c]), Ret tt) ∧
  let l := omap (accepted c) (omap (datagram (rtpChannel (audio s)) (rtpChannel (video s))) ins) in
  ∃ s' ev, handle_all flag ins (s, [EvSdp c]) = ((s', EvSdp c :: ev), Ret tt) ∧
    rtps ev = snd <$> l ∧
    audio_of (avs ev) = (feed_alone (made Audio c) (of_medium Audio l)).2 ∧
    video_of (avs ev) = (feed_alone (made Video c) (of_medium Video l)).2.
Proof.
  intros Hins. destruct (described_playing stat c setups) as (s & E & Hs). exists s. split; [exact E|]. intros l.
  destruct (handle_all_run flag c _ _ _ _ ins _ s [EvSdp c] Hs Hins) as (s' & ev & E' & _ & R1 & R2).
  exists s', ev. split; [exact E'|]. split; [exact R1|]. rewrite R2.
  apply (take_all_media _ _ (session_pt_audio c) (session_pt_video c)); [apply (pl_ok _ _ _ _ _ _ _ Hs)|].
  by apply accepted_bytes, datagrams_bytes.
Qed.


Definition demo_ctx : LogicContext :=
  mkLogic [] 8000 90000 None None None None AvPacketPtG711A AvPacketPtAvc 8 96 (str "streamid=0") (str "streamid=1") true true.
Definition demo_stat : BasicSessionStat := mkBasic (mkStat [] [] [] [] [] 0 0 0 0 0 0) (mkConn 0 0) None (mkConn 0 0).
Definition demo_setups : list (list Z * (Z * Z)) := [(str "rtsp://h/live/a/streamid=0", (0, 1)); (str "rtsp://h/live/a/streamid=1", (2, 3))].
(** Two packets of audio around rubbish, a short packet of video and a report. *)
Definition demo_ins : list Input := [
  InFrame [128; 8; 0; 1; 0; 0; 0; 160; 0; 0; 0; 9; 77] 0; InFrame [1; 2; 3] 7;
  InFrame [160; 96; 0; 1; 0; 0; 0; 0; 0; 0; 0; 8; 200; 255] 2; InFrame [128; 200] 1;
  InRtp (Some [128; 8; 0; 2; 0; 0; 1; 64; 0; 0; 0; 9; 78])].

Lemma rtsp_in_streams_witness :
  Forall input_bytes demo_ins ∧ ∃ s,
  (_ ← InitWithSdp (B := bele_impl) demo_ctx; setup_all demo_setups)
    (NewBaseInSessionWithObserver (Q := queue_impl AvPacket) demo_stat, []) = ((s, [EvSdp demo_ctx]), Ret tt) ∧
  let l := omap (accepted (B := bele_impl) demo_ctx) (omap (datagram (rtpChannel (audio s)) (rtpChannel (video s))) demo_ins) in
  ∃ s' ev, handle_all (B := bele_impl) true demo_ins (s, [EvSdp demo_ctx]) = ((s', EvSdp demo_ctx :: ev), Ret tt) ∧
    rtps ev = snd <$> l ∧
    audio_of (avs ev) = (feed_alone (made (B := bele_impl) Audio demo_ctx) (of_medium Audio l)).2 ∧
    video_of (avs ev) = (feed_alone (made (B := bele_impl) Video demo_ctx) (of_medium Video l)).2.
Proof.
  assert (H : Forall input_bytes demo_ins).
  { unfold demo_ins. repeat first [apply Forall_nil_2|apply Forall_cons_2]; cbn [input_bytes]; by apply (bool_decide_eq_true_1 _); vm_compute. }
  split; [exact H|]. exact (rtsp_in_streams bele_impl_laws true demo_stat demo_ctx demo_setups demo_ins H).
Defined.

(** ** Findings *)

(** An AAC packet whose body cannot be read, right after the last one processed, is
    never taken out of the list: each packet that follows panics on it, whatever it
    is, and the medium gives nothing any more. *)
Definition stuck (l : RtpPacketList) : Prop :=
  doneSeqFlag l = true ∧ is_u16 (doneSeq l) ∧
  ∃ p rest, items l = p :: rest ∧ pseq p = seq_at (doneSeq l) 1 ∧ (b ← Body p; parseAu b) = Panic.

Lemma insert_stuck l q : stuck l → is_u16 (pseq q) → IsStale l (pseq q) = false → stuck (Insert l q).
Proof.
  intros (Hd & Hu & p & rest & Ei & Ep & Eb) Hq Hs. unfold IsStale in Hs. rewrite Hd in Hs. cbn [negb] in Hs. apply Z.leb_gt in Hs.
  unfold Insert. rewrite Ei. cbn [insert_walk].
  assert (CompareSeq (pseq q) (pseq p) ≠ -1).
  { rewrite Ep. revert Hs. unfold seq_at, CompareSeq. rewrite !Z.gtb_ltb. zcases; intros; wrap. }
  destruct (CompareSeq (pseq q) (pseq p) =? 0); [cbn; by split; [|split; [|exists p, rest]]|].
  destruct (Z.eqb_spec (CompareSeq (pseq q) (pseq p)) (-1)); [done|].
  destruct (insert_walk q rest) as [its|]; cbn; [|by split; [|split; [|exists p, rest]]].
  split; [done|]. split; [done|]. by exists p, its.
Qed.

Lemma stuck_tries pt clock l out : stuck l →
  unpack_all_e (P := RtpUnpackerAac pt clock) (aac_emitted pt clock) (l, out) = ((l, out), Panic).
Proof.
  intros (Hd & Hu & p & rest & Ei & Ep & Eb). unfold unpack_all_e, loop_fuel. cbn [unpack_loop_e fst].
  assert (IsFirstSequential l = true) as Ef.
  { unfold IsFirstSequential. rewrite Ei, Hd. cbn [negb]. apply Z.eqb_eq. rewrite Ep. unfold SubSeq, seq_at. rewrite !Z.gtb_ltb. zcases; intros; wrap. }
  unfold mbind, eff_bind, tryUnpackOneSequential_e. cbn [fst]. rewrite Ef. cbn [negb].
  unfold tryUnpackOne_e. cbn [TryUnpackOne RtpUnpackerAac]. unfold aac_TryUnpackOne, aac_emitted. rewrite Ei.
  revert Eb. unfold mbind, outcome_bind. destruct (Body p) as [b|e|]; [|done|by rewrite app_nil_r].
  destruct (parseAu b); [done..|]. by rewrite app_nil_r.
Qed.

Lemma stuck_feed pt clock l q : stuck l → is_u16 (pseq q) →
  let u := mkUnpacker (RtpUnpackerAac pt clock) (aac_emitted pt clock) in
  ∃ l' r, unpacker_Feed (u l) q = (u l', [], r) ∧ stuck l'.
Proof.
  intros Hl Hq u. unfold unpacker_Feed, u. cbn [u_protocol u_emitted u_list]. unfold Feed_e.
  destruct (IsStale l (pseq q)) eqn:Es; [by exists l, (Ret tt)|].
  pose proof (insert_stuck l q Hl Hq Es) as H. exists (Insert l q), Panic. split; [|done].
  cbn [CalcPositionIfNeeded RtpUnpackerAac]. unfold mbind, eff_bind, lift. by rewrite (stuck_tries _ _ _ _ H).
Qed.

Lemma rtsp_aac_stuck pt clock l qs : stuck l → Forall (λ q, is_u16 (pseq q)) qs →
  (feed_alone (Some (mkUnpacker (RtpUnpackerAac pt clock) (aac_emitted pt clock) l)) qs).2 = [].
Proof.
  intros Hl Hq. revert l Hl. induction Hq as [|q qs Hq _ IH]; intros l Hl; [done|]. cbn [feed_alone].
  destruct (stuck_feed pt clock l q Hl Hq) as (l' & r & -> & Hl'). specialize (IH l' Hl').
  by destruct (feed_alone _ qs).
Qed.

(** One octet of payload is enough. *)
Example rtsp_aac_short_stuck :
  stuck (Insert (mkList [] 0 true 4 1024) (mkRtpPacket (mkRtpHeader 2 0 0 0 1 97 5 0 7 [] 0 [] 12 0) [128; 97; 0; 5; 0; 0; 0; 0; 0; 0; 0; 7; 0] 0)).
Proof. split; [done|]. split; [cbn; lia|]. eexists _, _. split; [reflexivity|]. split; by vm_compute. Qed.

(** What an answer adds to the bytes written is the size of the report it answers. *)
Example rtsp_rr_counted :
  let s := on_side Audio (set_producer (Some (FeedRtpPacket (NewRrProducer 8000) 7))) (NewBaseInSession (Q := queue_impl AvPacket) demo_stat) in
  let sr := [128; 200; 0; 6] ++ replicate 24 0 in
  match handleRtcpPacket (B := bele_impl) sr None (s, []) with
  | ((s', [EvInterleaved rr 0]), Ret tt) => len rr = 32 ∧ connWrote (currConnStat (sessionStat s')) = 28
  | _ => False
  end.
Proof. vm_compute. by split. Qed.
