(* ===== verification/RtspFlow.v ===== *)
(** * From RTMP over RTSP into a publisher's session

    The packets that Rtmp2Rtsp makes of a stream, received by the session of
    RtspIn with whatever else arrives on its connections. *)

From stdpp Require Import gmap.
From S2P Require Import Prelude Naza GoFloat Bits RtpSeq Base RtpPacket RtpList RtpContainer RtpUnpack RtpPack RtpFlow Sdp AvQueue SessionStat RtspMsg RtspIn Rtmp2Rtsp Rtmp2RtspFlow.

Section Video.
Context {B : Bele} {HB : BeleLaws B}.

(** The datagrams with the payload type of the video of the description. *)
Definition is_video_datagram (c : LogicContext) (b : list Z) : bool :=
  (RtpFixedHeaderLength <=? len b) && IsVideoPayloadTypeOrigin c (Z.land (b !!! 1%nat) 127).

Lemma ParseRtpPacket_header b p : ParseRtpPacket b = Ret p → ∃ h, ParseRtpHeader b = Ret h ∧ p = mkRtpPacket h b 0.
Proof.
  unfold ParseRtpPacket. intros H. bind_inv H. injection H as <-. exists a. split; [done|].
  by rewrite go_copy_full by (rewrite length_go_make; lia).
Qed.

Lemma accepted_video c b : audioPayloadTypeOrigin c ≠ videoPayloadTypeOrigin c →
  of_medium Video (match accepted c b with Some x => [x] | None => [] end) =
    if is_video_datagram c b then match ParseRtpHeader b with Ret h => [mkRtpPacket h b 0] | _ => [] end else [].
Proof.
  intros Hne. unfold accepted, is_video_datagram, IsAudioPayloadTypeOrigin, IsVideoPayloadTypeOrigin.
  rewrite (Z.leb_antisym (len b)). destruct (_ <? _); cbn [negb andb]; [done|]. set (t := Z.land _ 127).
  destruct (Z.eqb_spec (audioPayloadTypeOrigin c) t) as [E|]; destruct (Z.eqb_spec (videoPayloadTypeOrigin c) t) as [E'|]; try congruence;
    by destruct (ParseRtpHeader b).
Qed.

Lemma video_packets c ds received : audioPayloadTypeOrigin c ≠ videoPayloadTypeOrigin c →
  mapM ParseRtpPacket (List.filter (is_video_datagram c) ds) = Ret received →
  of_medium Video (omap (accepted c) ds) = received.
Proof.
  intros Hne. revert received. induction ds as [|b ds IH]; intros received; [by intros [= <-]|].
  assert (E : omap (accepted c) (b :: ds) = (match accepted c b with Some x => [x] | None => [] end) ++ omap (accepted c) ds)
    by (cbn [omap list_omap]; by destruct (accepted c b)).
  rewrite E. unfold of_medium. rewrite omap_app. fold (of_medium Video (match accepted c b with Some x => [x] | None => [] end)).
  fold (of_medium Video (omap (accepted c) ds)). rewrite accepted_video by done. cbn [List.filter].
  destruct (is_video_datagram c b); [|apply IH]. cbn [mapM]. intros H. bind_inv H. bind_inv H. injection H as <-.
  destruct (ParseRtpPacket_header _ _ E0) as (h & -> & ->). by rewrite (IH _ E1).
Qed.

Lemma feed_alone_Ret (P : UnpackerProtocol) e l ps l' out : feed_all (P := P) l ps = Ret (l', out) →
  feed_alone (Some (mkUnpacker P e l)) ps = (Some (mkUnpacker P e l'), out).
Proof.
  revert l out. induction ps as [|p ps IH]; intros l out H; cbn [feed_all] in H; [by injection H as <- <-|].
  bind_inv H. destruct a as [l1 o1]. bind_inv H. destruct a as [l2 o2]. injection H as <- <-.
  cbn [feed_alone]. unfold unpacker_Feed. cbn [u_protocol u_emitted u_list]. rewrite (Feed_e_Ret e _ _ [] _ _ E).
  by rewrite (IH _ _ E0).
Qed.

Lemma made_video raw sps pps rate asc :
  made Video (expected raw (AvcVideo sps pps) (AacAudio rate asc)) =
    Some (mkUnpacker (RtpUnpackerAvcHevc AvPacketPtAvc 90000) (λ _, []) (NewRtpUnpackContainer unpackerItemMaxSize)).
Proof. reflexivity. Qed.
End Video.

(** C25: a publisher that gives over RTSP an RTMP stream of an AVC header, up to
    fifteen pictures, an AAC configuration and more pictures (parameter sets are not
    put before key frames): the description has exactly the parameter sets and the
    configuration of the stream, and the packets are those of the units of the
    pictures, numbered on, unit by unit ([carried]); the server's session, whatever
    other frames and datagrams reach it meanwhile, and in whatever order those of a
    unit come, gives its observer of video exactly the units of the pictures, in
    order, each with the time of its picture and without delimiters.  The units are
    AVC units of the types 1 to 23, the names,
    sets and configuration can stand in a description, the times of the pictures are
    below the wrap-around of the RTP clock and the packets of a unit fit the container. *)
Theorem rtsp_publish_received {B : Bele} (HB : BeleLaws B) {BS : BeleStream} {BI : NazaBits} {Q : CircularQueue AvPacket}
    tool TryAnnexb a v aseq vseq tv ta fixed sps pps tail asc c rate fs1 fs2 :
  is_u32 v → length fixed = 5%nat → sps ≠ [] → pps ≠ [] → is_u16 (len sps) → is_u16 (len pps) →
  Aac.NewAscContext asc = Ret c → Aac.GetSamplingFrequency c = Ret rate →
  Sdp.clean_line tool → Sdp.video_ok (Sdp.AvcVideo sps pps) → Sdp.audio_ok (Sdp.AacAudio rate asc) →
  Forall frame_ok (fs1 ++ fs2) → len fs1 < 16 →
  ∃ r raw gs, let ctx := expected raw (AvcVideo sps pps) (AacAudio rate asc) in
    FeedAll tool TryAnnexb false a v aseq vseq
      (video_msg tv (Avc.avc_seq_header fixed sps pps tail) :: (frame_msg <$> fs1) ++
       audio_msg ta (175 :: 0 :: asc) :: (frame_msg <$> fs2)) (NewRtmp2RtspRemuxer, []) =
      ((r, inl ctx :: (inr <$> concat gs)), Ret tt) ∧
    carried 90000 1200 (u16 vseq) (concat (sent_units <$> (fs1 ++ fs2))) gs ∧
    ∀ flag stat setups ins gs', Forall input_bytes ins → Forall2 (≡ₚ) gs' gs → Forall (λ g : list RtpPacket, len g ≤ unpackerItemMaxSize) gs →
    ∃ s, (_ ← InitWithSdp ctx; setup_all setups) (NewBaseInSessionWithObserver stat, []) = ((s, [EvSdp ctx]), Ret tt) ∧
      (List.filter (is_video_datagram ctx) (omap (datagram (rtpChannel (audio s)) (rtpChannel (video s))) ins) = Raw <$> concat gs' →
       ∃ s' ev, handle_all flag ins (s, [EvSdp ctx]) = ((s', EvSdp ctx :: ev), Ret tt) ∧
         video_of (avs ev) = received_unit <$> concat (sent_units <$> (fs1 ++ fs2))).
Proof.
  intros Hv Hf Hs Hp Ls Lp Easc Erate Ht Hvok Haok Hfs Hl.
  assert (∃ raw, Sdp.Pack tool (Sdp.video_info (Sdp.AvcVideo sps pps)) (Sdp.audio_info (Sdp.AacAudio rate asc)) =
    Ret (expected raw (AvcVideo sps pps) (AacAudio rate asc))) as [raw Ectx].
  { eexists. apply Sdp.Pack_expected; [done..|by left]. }
  destruct (rtsp_feed_stream tool TryAnnexb a v aseq vseq sps pps asc rate c Hv Easc Erate tv ta fixed tail fs1 fs2
    (expected raw (AvcVideo sps pps) (AacAudio rate asc)) Hf Hs Hp Ls Lp) as (r & gs & E & C); [destruct Haok as (_ & _ & ?); lia| |done|done|].
  { intros l. unfold describe. cbn [running videoPt r_vps r_sps r_pps audioPt audioSampleRate r_asc].
    cbn [Sdp.video_info Sdp.audio_info] in Ectx. by rewrite Ectx. }
  exists r, raw, gs. split; [exact E|]. split; [exact C|]. intros flag stat setups ins gs' Hins Hperm Hn.
  set (ctx := expected raw (AvcVideo sps pps) (AacAudio rate asc)).
  destruct (described_playing stat ctx setups) as (s & Es & Hpl). exists s. split; [exact Es|]. intros Hd.
  destruct (handle_all_run flag ctx _ _ _ _ ins _ s [EvSdp ctx] Hpl Hins) as (s' & ev & E' & _ & _ & R).
  exists s', ev. split; [exact E'|]. rewrite R.
  destruct (take_all_media _ _ (session_pt_audio ctx) (session_pt_video ctx) _ (omap (accepted ctx) (omap (datagram (rtpChannel (audio s)) (rtpChannel (video s))) ins))
    (pl_ok _ _ _ _ _ _ _ Hpl)) as [_ ->]; [by apply accepted_bytes, datagrams_bytes|].
  pose proof (carried_parse 90000 1200 _ _ _ ltac:(lia) ltac:(lia) C gs' Hperm) as Ep. rewrite <- Hd in Ep.
  rewrite (video_packets ctx _ _ ltac:(done) Ep). cbv beta. unfold ctx. rewrite made_video.
  destruct (carried_received 90000 1200 unpackerItemMaxSize ltac:(done) _ _ _ C _ gs' (container_ready_new _ _) Hperm) as (l' & El & _).
  { eapply Forall_impl; [exact Hn|]. intros g Hg. cbv beta in *. unfold unpackerItemMaxSize in *. lia. }
  by rewrite (feed_alone_Ret _ _ _ _ _ _ El).
Qed.

Lemma rtsp_publish_received_witness :
  ∃ r raw gs, let ctx := expected raw (AvcVideo [103; 66; 0; 30] [104; 206]) (AacAudio 44100 [18; 16]) in
    FeedAll (B := bele_impl) (BS := bele_stream_impl) (BI := bits_impl) (str "lal") false false 7 8 100 65535
      demo_feed (NewRtmp2RtspRemuxer, []) = ((r, inl ctx :: (inr <$> concat gs)), Ret tt) ∧
    carried (B := bele_impl) 90000 1200 65535 (concat (sent_units <$> (demo_frames1 ++ demo_frames2))) gs ∧
    ∀ flag stat setups ins gs', Forall input_bytes ins → Forall2 (≡ₚ) gs' gs → Forall (λ g : list RtpPacket, len g ≤ unpackerItemMaxSize) gs →
    ∃ s, (_ ← InitWithSdp (B := bele_impl) (Q := queue_impl AvPacket) ctx; setup_all setups) (NewBaseInSessionWithObserver stat, []) = ((s, [EvSdp ctx]), Ret tt) ∧
      (List.filter (is_video_datagram ctx) (omap (datagram (rtpChannel (audio s)) (rtpChannel (video s))) ins) = Raw <$> concat gs' →
       ∃ s' ev, handle_all (B := bele_impl) flag ins (s, [EvSdp ctx]) = ((s', EvSdp ctx :: ev), Ret tt) ∧
         video_of (avs ev) = received_unit <$> concat (sent_units <$> (demo_frames1 ++ demo_frames2))).
Proof.
  apply (rtsp_publish_received bele_impl_laws (str "lal") false 7 8 100 65535 0 0 [1; 66; 0; 30; 255]
    [103; 66; 0; 30] [104; 206] [] [18; 16] (Aac.mkAsc 2 4 2) 44100); try done.
  - split; apply (bool_decide_eq_true_1 _); vm_compute; reflexivity.
  - split; apply (bool_decide_unpack _); vm_compute; exact I.
  - split; [unfold Sdp.rate_ok; lia|]. split; [apply (bool_decide_unpack _); vm_compute; exact I|by vm_compute].
  - repeat constructor; vm_compute; auto; discriminate.
Defined.
