(* ===== verification/Url.v ===== *)
(** * URLs (src/pkg/base/url.go)

    A URL parsed by net/url, whose own parser is a parameter, is taken apart into
    what the sessions use: where to connect to, the application and the stream, and
    the URL without the name and password in it. *)

From S2P Require Import Prelude GoText HlsPath.

(** ** The standard library *)

Record StdUrl := mkStdUrl {
  std_Scheme : list Z;
  std_User : option (list Z * list Z); (* name and password *)
  std_Host : list Z; (* host or host:port *)
  std_Path : list Z;
  std_RawQuery : list Z;
}.
Class NetUrl := { url_Parse : list Z → outcome StdUrl }.

Fixpoint IndexByte (s : list Z) (c : Z) : option nat :=
  match s with [] => None | x :: s => if x =? c then Some 0%nat else S <$> IndexByte s c end.
Definition Count (s : list Z) (c : Z) : Z := len (List.filter (Z.eqb c) s).
Definition Contains (s sub : list Z) : bool := match Cut sub s with Some _ => true | None => false end.

(** [net.SplitHostPort]; the brackets of an IPv6 address are taken off. *)
Definition SplitHostPort (hostport : list Z) : outcome (list Z * list Z) :=
  match LastIndexByte hostport 58 with
  | None => Fail ErrFmt
  | Some i =>
      let finish host j k :=
        match IndexByte (drop j hostport) 91, IndexByte (drop k hostport) 93 with
        | None, None => Ret (host, drop (S i) hostport)
        | _, _ => Fail ErrFmt
        end in
      if HasPrefix hostport [91] then
        match IndexByte hostport 93 with
        | None => Fail ErrFmt
        | Some e => if Nat.eqb (S e) i then finish (drop 1 (take e hostport)) 1%nat (S e) else Fail ErrFmt
        end
      else
        let host := take i hostport in
        match IndexByte host 58 with Some _ => Fail ErrFmt | None => finish host 0%nat 0%nat end
  end.
Definition JoinHostPort (host port : list Z) : list Z :=
  match IndexByte host 58 with Some _ => [91] ++ host ++ str "]:" ++ port | None => host ++ str ":" ++ port end.

(** ** url.go *)

Definition DefaultRtmpPort : Z := 1935.
Definition DefaultHttpPort : Z := 80.
Definition DefaultHttpsPort : Z := 443.
Definition DefaultRtspPort : Z := 554.
Definition DefaultRtmpsPort : Z := 443.
Definition DefaultRtspsPort : Z := 322.

(** The fields of the path are those of [HlsPath.UrlContext]. *)
Record UrlContext := mkUrl {
  Url : list Z;
  Scheme : list Z;
  Username : list Z;
  Password : list Z;
  StdHost : list Z;
  HostWithPort : list Z;
  Host : list Z;
  Port : Z;
  path : HlsPath.UrlContext;
  RawUrlWithoutUserInfo : list Z;
}.

Section Parse.
Context {U : NetUrl}.

Definition default_port (scheme : list Z) (defaultPort : Z) : Z :=
  if negb (defaultPort =? -1) then defaultPort
  else if bool_decide (scheme = str "http") then DefaultHttpPort
  else if bool_decide (scheme = str "https") then DefaultHttpsPort
  else if bool_decide (scheme = str "rtmp") then DefaultRtmpPort
  else if bool_decide (scheme = str "rtsp") then DefaultRtspPort
  else if bool_decide (scheme = str "rtmps") then DefaultRtmpsPort
  else if bool_decide (scheme = str "rtsps") then DefaultRtspsPort
  else -1.

Definition ParseUrl (rawUrl : list Z) (defaultPort : Z) : outcome UrlContext :=
  stdUrl ← url_Parse rawUrl;
  if bool_decide (std_Scheme stdUrl = []) then Fail ErrInvalidUrl else
  let port := default_port (std_Scheme stdUrl) defaultPort in
  '(host, hostWithPort, port) ←
    match SplitHostPort (std_Host stdUrl) with
    | Ret (h, p) => match Atoi p with (_, Some e) => Fail e | (n, None) => Ret (h, std_Host stdUrl, n) end
    | _ =>
        Ret (if port =? -1 then (std_Host stdUrl, std_Host stdUrl, 0)
             else (std_Host stdUrl, JoinHostPort (std_Host stdUrl) (Itoa port), port))
    end;
  let p := parseUrlPath (std_Path stdUrl) (std_RawQuery stdUrl) in
  let '(name, password) := default ([], []) (std_User stdUrl) in
  Ret (mkUrl rawUrl (std_Scheme stdUrl) name password (std_Host stdUrl) hostWithPort host port p
    (std_Scheme stdUrl ++ str "://" ++ std_Host stdUrl ++ PathWithRawQuery p)).

Definition set_path (u : UrlContext) (p : HlsPath.UrlContext) : UrlContext :=
  mkUrl (Url u) (Scheme u) (Username u) (Password u) (StdHost u) (HostWithPort u) (Host u) (Port u) p (RawUrlWithoutUserInfo u).

Definition ParseRtmpUrl (rawUrl : list Z) : outcome UrlContext :=
  u ← ParseUrl rawUrl (-1);
  let p := path u in
  if (negb (bool_decide (Scheme u = str "rtmp")) && negb (bool_decide (Scheme u = str "rtmps"))) || bool_decide (Host u = []) ||
     bool_decide (Path p = []) then Fail ErrInvalidUrl else
  let p := if bool_decide (PathWithoutLastItem p = []) && negb (bool_decide (LastItemOfPath p = []))
           then mkUrlContext (PathWithRawQuery p) (Path p) (LastItemOfPath p) (PathWithoutLastItem p) (RawQuery p) else p in
  if Count (PathWithRawQuery p) 63 >? 1 then
    let whole := PathWithRawQuery p in
    let index := match LastIndexByte whole 47 with Some i => Z.of_nat i | None => -1 end in
    without ← go_slice whole 1 index;
    item ← go_from whole (index + 1);
    Ret (set_path u (mkUrlContext whole whole without item []))
  else Ret (set_path u p).

Definition ParseRtspUrl (rawUrl : list Z) : outcome UrlContext :=
  u ← ParseUrl rawUrl (-1);
  if (negb (bool_decide (Scheme u = str "rtsp")) && negb (bool_decide (Scheme u = str "rtsps"))) || bool_decide (Host u = [])
  then Fail ErrInvalidUrl else Ret u.

Definition parseHttpUrl (rawUrl filetype : list Z) : outcome UrlContext :=
  u ← ParseUrl rawUrl (-1);
  if (negb (bool_decide (Scheme u = str "http")) && negb (bool_decide (Scheme u = str "https"))) || bool_decide (Host u = []) ||
     bool_decide (Path (path u) = []) || negb (HasSuffix (LastItemOfPath (path u)) filetype) then Fail ErrInvalidUrl else Ret u.
Definition ParseHttpflvUrl (rawUrl : list Z) : outcome UrlContext := parseHttpUrl rawUrl (str ".flv").
End Parse.

(** [ParseHttpRequest]: the URL a request was for. *)
Definition ParseHttpRequest (tls : bool) (host requestUri : list Z) : list Z :=
  (if tls then str "https" else str "http") ++ str "://" ++ host ++ requestUri.

(** ** Hosts and ports *)

Lemma IndexByte_none s c : c ∉ s → IndexByte s c = None.
Proof.
  induction s as [|x s IH]; intros H; [done|]. cbn [IndexByte]. apply not_elem_of_cons in H as [H1 H2].
  rewrite (proj2 (Z.eqb_neq x c)) by done. by rewrite IH.
Qed.

(** No colon or bracket. *)
Definition plain_host (h : list Z) : Prop := h ≠ [] ∧ (58 ∉ h) ∧ (91 ∉ h) ∧ (93 ∉ h).

Lemma SplitHostPort_join h p : plain_host h → (58 ∉ p) ∧ (91 ∉ p) ∧ (93 ∉ p) → SplitHostPort (JoinHostPort h p) = Ret (h, p).
Proof.
  intros (Hne & H1 & H2 & H3) (P1 & P2 & P3). unfold JoinHostPort. rewrite (IndexByte_none h) by done. change (str ":") with [58]. cbn [app].
  unfold SplitHostPort. rewrite last_index_found by done.
  assert (E : ∀ x, x ∉ h → x ∉ p → x ≠ 58 → IndexByte (h ++ 58 :: p) x = None).
  { intros x Hx1 Hx2 Hx3. apply IndexByte_none. rewrite elem_of_app, elem_of_cons. intros [?|[?|?]]; done. }
  assert (Ed : drop (S (length h)) (h ++ 58 :: p) = p).
  { change (58 :: p) with ([58] ++ p). rewrite app_assoc. rewrite drop_app_ge by (rewrite length_app; cbn; lia).
    rewrite length_app. cbn. by replace (S (length h) - (length h + 1))%nat with 0%nat by lia. }
  assert (HasPrefix (h ++ 58 :: p) [91] = false) as ->.
  { destruct h as [|x h]; [done|]. apply bool_decide_false. cbn. intros [= ->]. apply H2. by left. }
  rewrite take_app_length, !drop_0, Ed. by rewrite (IndexByte_none h 58), !E.
Qed.
Lemma SplitHostPort_none h : (58 ∉ h) → SplitHostPort h = Fail ErrFmt.
Proof.
  intros H. unfold SplitHostPort, LastIndexByte.
  assert (last_index 58 (reverse h) = None) as ->; [|done].
  assert (H' : 58 ∉ reverse h) by by rewrite elem_of_reverse.
  revert H'. generalize (reverse h). intros l. induction l as [|x l IH]; intros Hl; [done|]. cbn [last_index].
  apply not_elem_of_cons in Hl as [Hl1 Hl2]. rewrite (proj2 (Z.eqb_neq x 58)) by done. by apply IH.
Qed.

Definition with_port (h : list Z) (port : option Z) : list Z := match port with Some p => JoinHostPort h (Itoa p) | None => h end.

(** What a session uses of the URL of a stream: the given port or that of the
    protocol, the application and the stream, and the URL as the peer is told it,
    in which a name and a password do not appear. *)
Lemma ParseRtspUrl_parts {U : NetUrl} raw user h port app name q :
  url_Parse raw = Ret (mkStdUrl (str "rtsp") user (with_port h port) (str "/" ++ app ++ str "/" ++ name) q) →
  plain_host h → (47 ∉ name) → match port with Some p => 0 ≤ p < 65536 | None => True end →
  ∃ u, ParseRtspUrl raw = Ret u ∧ Host u = h ∧ Port u = default 554 port ∧ HostWithPort u = JoinHostPort h (Itoa (default 554 port)) ∧
    PathWithoutLastItem (path u) = app ∧ LastItemOfPath (path u) = name ∧
    RawUrlWithoutUserInfo u = (str "rtsp://" ++ with_port h port ++ str "/" ++ app ++ str "/" ++ name ++
      match q with [] => [] | _ => str "?" ++ q end).
Proof.
  intros E Hh Hn Hp. unfold ParseRtspUrl, ParseUrl. rewrite E, bind_Ret.
  cbn [std_Scheme std_Host std_Path std_RawQuery std_User].
  rewrite (bool_decide_eq_false_2 (str "rtsp" = [])) by done.
  change (default_port (str "rtsp") (-1)) with 554.
  match goal with |- context [match SplitHostPort ?x with _ => _ end] => set (m := match SplitHostPort x with Ret (h0, p) => _ | _ => _ end) end.
  assert (m = Ret (h, JoinHostPort h (Itoa (default 554 port)), default 554 port)) as ->.
  { unfold m. destruct port as [p|]; cbn [with_port default].
    - assert (Hno : (58 ∉ Itoa p) ∧ (91 ∉ Itoa p) ∧ (93 ∉ Itoa p)) by (repeat split; apply Itoa_no; lia).
      rewrite SplitHostPort_join by done.
      rewrite Atoi_Itoa by lia. done.
    - rewrite SplitHostPort_none by apply Hh. done. }
  rewrite bind_Ret.
  set (pa := parseUrlPath _ q). destruct (default ([], []) user) as [un pw].
  rewrite bind_Ret. cbn [Scheme Host path]. rewrite (bool_decide_eq_false_2 (h = [])) by apply Hh.
  rewrite (bool_decide_eq_true_2 (str "rtsp" = str "rtsp")) by done. cbn [negb andb orb].
  eexists. split; [reflexivity|]. cbn [Host Port HostWithPort path RawUrlWithoutUserInfo]. split; [done|]. split; [done|]. split; [done|].
  assert (EL : LastIndexByte (str "/" ++ app ++ str "/" ++ name) 47 = Some (length (47 :: app))).
  { change (str "/" ++ app ++ str "/" ++ name) with ((47 :: app) ++ 47 :: name). by apply last_index_found. }
  unfold pa, parseUrlPath. rewrite EL. cbn [length PathWithoutLastItem LastItemOfPath PathWithRawQuery].
  change (str "/" ++ app ++ str "/" ++ name) with (47 :: app ++ 47 :: name). cbn [take drop].
  split; [by rewrite take_app_length|]. split.
  { change (47 :: name) with ([47] ++ name). rewrite app_assoc, drop_app_ge by (rewrite length_app; cbn; lia).
    rewrite length_app. cbn. by replace (S (length app) - (length app + 1))%nat with 0%nat by lia. }
  destruct q; cbn; rewrite ?app_nil_r; [done|]. by rewrite <- !app_assoc.
Qed.

(** An RTMP URL of one path item with two question marks panics. *)
Example rtmp_url_panics :
  ParseRtmpUrl (U := {| url_Parse _ := Ret (mkStdUrl (str "rtmp") None (str "127.0.0.1") (str "/live") (str "a=1?b=2")) |})
    (str "rtmp://127.0.0.1/live?a=1?b=2") = Panic.
Proof. by vm_compute. Qed.
