(* ===== verification/Http.v ===== *)
(** * Messages of RTSP (naza/nazahttp)

    lal reads requests and responses with the parser of the naza library, a class
    here with laws for messages in the form lal writes them (src/pkg/rtsp/pack.go);
    [http_impl] is an instance. *)

From S2P Require Import Prelude GoText RtspMsg.

Record Request := mkRequest {
  rq_Method : list Z;
  rq_Uri : list Z;
  rq_Headers : list (list Z * list Z);
  rq_Body : list Z;
}.
Record Reply := mkReply {
  rs_StatusCode : list Z;
  rs_Headers : list (list Z * list Z);
  rs_Body : list Z;
}.

(** [http.Header]: keys are the same up to case; [Get] is the first value or nothing. *)
Definition same_key (a b : list Z) : bool := bool_decide (lower <$> a = lower <$> b).
Definition Values (h : list (list Z * list Z)) (key : list Z) : list (list Z) :=
  snd <$> List.filter (λ kv, same_key kv.1 key) h.
Definition Get (h : list (list Z * list Z)) (key : list Z) : list Z := default [] (head (Values h key)).

Class HttpMsg := {
  ReadHttpRequestMessage : list Z → outcome (Request * list Z);
  ReadHttpResponseMessage : list Z → outcome (Reply * list Z);
}.

(** A message in the form of pack.go. *)
Definition msg_text (first : list Z) (headers : list (list Z * list Z)) (body : list Z) : list Z :=
  first ++ crlf ++ mjoin ((λ kv, field kv.1 kv.2) <$> headers) ++ crlf ++ body.

(** A word of the first line; the key and the value of a header. *)
Definition word (s : list Z) : Prop := s ≠ [] ∧ (32 ∉ s) ∧ (13 ∉ s) ∧ (10 ∉ s).
Definition field_ok (kv : list Z * list Z) : Prop :=
  word kv.1 ∧ (58 ∉ kv.1) ∧ (13 ∉ kv.2) ∧ (10 ∉ kv.2) ∧ head kv.2 ≠ Some 32 ∧ last kv.2 ≠ Some 32.
Definition length_ok (headers : list (list Z * list Z)) (body : list Z) : Prop :=
  Values headers HeaderContentLength = (if bool_decide (body = []) then [] else [Itoa (len body)]) ∧ len body < 2 ^ 63.

Class HttpMsgLaws (H : HttpMsg) : Prop := {
  read_request method uri headers body rest :
    word method → word uri → Forall field_ok headers → length_ok headers body →
    ∃ rq, ReadHttpRequestMessage (msg_text (method ++ str " " ++ uri ++ str " RTSP/1.0") headers body ++ rest) = Ret (rq, rest) ∧
      rq_Method rq = method ∧ rq_Uri rq = uri ∧ rq_Body rq = body ∧ ∀ k, Values (rq_Headers rq) k = Values headers k;
  read_response code reason headers body rest :
    word code → (13 ∉ reason) ∧ (10 ∉ reason) → Forall field_ok headers → length_ok headers body →
    ∃ rs, ReadHttpResponseMessage (msg_text (str "RTSP/1.0 " ++ code ++ str " " ++ reason) headers body ++ rest) = Ret (rs, rest) ∧
      rs_StatusCode rs = code ∧ rs_Body rs = body ∧ ∀ k, Values (rs_Headers rs) k = Values headers k;
  (* a message is at least one byte, and the parser is no loop of the model *)
  request_shorter r rq rest : ReadHttpRequestMessage r = Ret (rq, rest) → len rest < len r;
  request_no_fuel r : ReadHttpRequestMessage r ≠ Fail OutOfFuel;
  response_shorter r rs rest : ReadHttpResponseMessage r = Ret (rs, rest) → len rest < len r;
  response_no_fuel r : ReadHttpResponseMessage r ≠ Fail OutOfFuel;
}.

(** A character that no part of the text has. *)
Ltac no_char := rewrite ?elem_of_app; intros ?;
  repeat match goal with H : _ ∨ _ |- _ => destruct H as [H|H] end;
  first [done | match goal with H : _ |- False => revert H; apply (bool_decide_unpack _); by vm_compute end].

(** ** An instance *)

Fixpoint read_fields (n : nat) (s : list Z) : option (list (list Z * list Z) * list Z) :=
  match n, Cut crlf s with
  | S n, Some ([], rest) => Some ([], rest)
  | S n, Some (line, rest) =>
      match Cut (str ":") line with
      | Some (k, v) => '(h, rest) ← read_fields n rest; Some ((k, drop 1 v) :: h, rest)
      | None => None
      end
  | _, _ => None
  end.

Definition read_message (s : list Z) : outcome (list Z * list (list Z * list Z) * list Z * list Z) :=
  match Cut crlf s with
  | None => Fail UnexpectedEOF
  | Some (first, rest) =>
      match read_fields (length rest) rest with
      | None => Fail ErrFmt
      | Some (h, rest) =>
          match Values h HeaderContentLength with
          | [] => Ret (first, h, [], rest)
          | v :: _ =>
              let n := Z.to_nat (Atoi v).1 in
              if len rest <? Z.of_nat n then Fail UnexpectedEOF else Ret (first, h, take n rest, drop n rest)
          end
      end
  end.

Definition read_request_impl (s : list Z) : outcome (Request * list Z) :=
  '(first, h, body, rest) ← read_message s;
  match Cut (str " ") first with
  | Some (method, more) =>
      match Cut (str " ") more with
      | Some (uri, _) => Ret (mkRequest method uri h body, rest)
      | None => Fail ErrFmt
      end
  | None => Fail ErrFmt
  end.
Definition read_response_impl (s : list Z) : outcome (Reply * list Z) :=
  '(first, h, body, rest) ← read_message s;
  match Cut (str " ") first with
  | Some (_, more) =>
      match Cut (str " ") more with
      | Some (code, _) => Ret (mkReply code h body, rest)
      | None => Fail ErrFmt
      end
  | None => Fail ErrFmt
  end.
Definition http_impl : HttpMsg := {| ReadHttpRequestMessage := read_request_impl; ReadHttpResponseMessage := read_response_impl |}.

Lemma Cut_crlf a b : (13 ∉ a) → Cut crlf (a ++ crlf ++ b) = Some (a, b).
Proof. apply Cut_found. Qed.
Lemma Cut_shorter sep s a b : Cut sep s = Some (a, b) → (length a + length sep ≤ length s)%nat ∧ (length b + length sep ≤ length s)%nat.
Proof.
  revert a b. induction s as [|x s IH]; intros a b; cbn [Cut].
  - destruct (HasPrefix [] sep) eqn:E; [|done]. apply HasPrefix_inv in E as [t E]. destruct sep; [|done]. intros [= <- <-]. cbn. lia.
  - destruct (HasPrefix (x :: s) sep) eqn:E.
    + apply HasPrefix_inv in E as [t ->]. intros [= <- <-]. rewrite drop_app_length, length_app. cbn. lia.
    + destruct (Cut sep s) as [[a' b']|] eqn:E'; [|done]. cbn. intros [= <- <-]. destruct (IH _ _ eq_refl). cbn. lia.
Qed.

Lemma read_fields_spec h : Forall field_ok h → ∀ n body, (length h < n)%nat →
  read_fields n (mjoin ((λ kv, field kv.1 kv.2) <$> h) ++ crlf ++ body) = Some (h, body).
Proof.
  induction 1 as [|[k v] h [(Hk0 & Hk1 & Hk2 & Hk3) (Hc & Hv1 & Hv2 & _)] _ IH]; intros n body Hn; (destruct n as [|n]; [cbn in Hn; lia|]).
  - cbn [fmap list_fmap mjoin list_join app]. cbn [read_fields].
    assert (Cut crlf (crlf ++ body) = Some ([], body)) as -> by (apply (Cut_crlf [] body); intros H; by apply not_elem_of_nil in H). done.
  - cbn [fst snd] in *. cbn [fmap list_fmap mjoin list_join]. unfold field at 1. rewrite <- !app_assoc.
    set (rest := mjoin _ ++ crlf ++ body). cbn [read_fields]. rewrite (app_assoc k (str ": ")), (app_assoc _ v), Cut_crlf.
    2:{ rewrite !elem_of_app. intros [[?|H]|?]; try done. revert H. apply (bool_decide_unpack _). by vm_compute. }
    assert (Cut (str ":") ((k ++ str ": ") ++ v) = Some (k, 32 :: v)) as Ek.
    { rewrite <- app_assoc. change (str ": " ++ v) with (str ":" ++ 32 :: v). by apply Cut_found. }
    destruct ((k ++ str ": ") ++ v) as [|x line] eqn:El; [by destruct k|]. rewrite Ek. cbn [drop].
    unfold rest. rewrite IH by (cbn in Hn; lia). done.
Qed.

Lemma read_message_spec first h body rest : (13 ∉ first) → Forall field_ok h → length_ok h body →
  read_message (msg_text first h body ++ rest) = Ret (first, h, body, rest).
Proof.
  intros Hf Hh [Hl Hb]. unfold read_message, msg_text. rewrite <- !app_assoc, Cut_crlf by done.
  assert (Hlen : (length h < length (mjoin ((λ kv, field kv.1 kv.2) <$> h) ++ crlf ++ body ++ rest))%nat).
  { rewrite length_app, (length_app crlf). cbn [length crlf]. enough (length h ≤ length (mjoin ((λ kv, field kv.1 kv.2) <$> h)))%nat by lia.
    clear. induction h as [|kv h IH]; [done|].
    change (mjoin _) with (field kv.1 kv.2 ++ mjoin ((λ kv, field kv.1 kv.2) <$> h)). rewrite length_app. cbn [length].
    assert (2 ≤ length (field kv.1 kv.2))%nat; [|lia]. unfold field. rewrite !length_app. change (length (str ": ")) with 2%nat. lia. }
  rewrite read_fields_spec by done. rewrite Hl. destruct (bool_decide_reflect (body = [])) as [->|Hne]; [done|].
  rewrite Atoi_Itoa by lia. cbn [fst]. rewrite Nat2Z.id, (proj2 (Z.ltb_ge _ _)) by (rewrite length_app; lia).
  by rewrite take_app_length, drop_app_length.
Qed.

Lemma read_fields_shorter n s h rest : read_fields n s = Some (h, rest) → (length rest < length s)%nat.
Proof.
  revert s h rest. induction n as [|n IH]; intros s h rest; cbn [read_fields]; [done|].
  destruct (Cut crlf s) as [[line more]|] eqn:E; [|done]. apply Cut_shorter in E as [E1 E2]. cbn in E1, E2.
  destruct line as [|x line]; [intros [= <- <-]; lia|]. destruct (Cut (str ":") (x :: line)) as [[k v]|]; [|done].
  destruct (read_fields n more) as [[h' rest']|] eqn:Er; [|done]. intros [= <- <-]. apply IH in Er. lia.
Qed.
Lemma read_message_shorter s first h body rest : read_message s = Ret (first, h, body, rest) → len rest < len s.
Proof.
  unfold read_message. destruct (Cut crlf s) as [[a b]|] eqn:E; [|done]. apply Cut_shorter in E as [_ E]. cbn in E.
  destruct (read_fields _ b) as [[h' r]|] eqn:Er; [|done]. apply read_fields_shorter in Er.
  destruct (Values h' _) as [|v l]; [intros [= _ _ _ <-]; lia|]. destruct (_ <? _); [done|]. intros [= _ _ _ <-]. rewrite length_drop. lia.
Qed.
Lemma read_message_no_fuel s : read_message s ≠ Fail OutOfFuel.
Proof.
  unfold read_message. destruct (Cut crlf s) as [[a b]|]; [|done]. destruct (read_fields _ b) as [[h r]|]; [|done].
  destruct (Values h _); [done|]. by destruct (_ <? _).
Qed.

#[global] Instance http_impl_laws : HttpMsgLaws http_impl.
Proof.
  split; cbn [ReadHttpRequestMessage ReadHttpResponseMessage http_impl].
  - intros m u h body rest (_ & Hm1 & Hm2 & _) (_ & Hu1 & Hu2 & _) Hh Hl. exists (mkRequest m u h body). split; [|done].
    unfold read_request_impl. rewrite read_message_spec; [|no_char|done..]. rewrite bind_Ret.
    assert (Cut (str " ") (m ++ str " " ++ u ++ str " RTSP/1.0") = Some (m, u ++ str " RTSP/1.0")) as -> by by apply Cut_found.
    assert (Cut (str " ") (u ++ str " RTSP/1.0") = Some (u, str "RTSP/1.0")) as -> by by apply (Cut_found 32 [] u (str "RTSP/1.0")). done.
  - intros code reason h body rest (_ & Hc1 & Hc2 & _) [Hr _] Hh Hl. exists (mkReply code h body). split; [|done].
    unfold read_response_impl. rewrite read_message_spec; [|no_char|done..]. rewrite bind_Ret.
    assert (Cut (str " ") (str "RTSP/1.0 " ++ code ++ str " " ++ reason) = Some (str "RTSP/1.0", code ++ str " " ++ reason)) as ->.
    { apply (Cut_found 32 [] (str "RTSP/1.0")), (bool_decide_unpack _). by vm_compute. }
    assert (Cut (str " ") (code ++ str " " ++ reason) = Some (code, reason)) as -> by by apply Cut_found. done.
  - intros r rq rest H. unfold read_request_impl in H. bind_inv H. destruct a as [[[first h] body] rest'].
    apply read_message_shorter in E. destruct (Cut _ first) as [[? more]|]; [|done]. destruct (Cut _ more) as [[]|]; [|done]. by injection H as _ <-.
  - intros r. unfold read_request_impl. apply bind_no_fuel; [apply read_message_no_fuel|]. intros [[[first h] body] rest'] _.
    destruct (Cut _ first) as [[? more]|]; [|done]. by destruct (Cut _ more) as [[]|].
  - intros r rq rest H. unfold read_response_impl in H. bind_inv H. destruct a as [[[first h] body] rest'].
    apply read_message_shorter in E. destruct (Cut _ first) as [[? more]|]; [|done]. destruct (Cut _ more) as [[]|]; [|done]. by injection H as _ <-.
  - intros r. unfold read_response_impl. apply bind_no_fuel; [apply read_message_no_fuel|]. intros [[[first h] body] rest'] _.
    destruct (Cut _ first) as [[? more]|]; [|done]. by destruct (Cut _ more) as [[]|].
Qed.
