(* ===== verification/RtspOut.v ===== *)
(** * The sending side of RTSP (src/pkg/rtsp/base_out_session.go, server_sub_session.go)

    What a player's or a pusher's session does with RTP packets: each goes to
    the datagram connection and to the channel of its medium, whichever were
    set up.  What it writes on the command connection is left to that
    connection (RtspServer).  A packet that is written to a playing session and
    framed on the command connection reaches the session at the other end
    (RtspIn). *)

From stdpp Require Import gmap.
From S2P Require Import Prelude Naza GoFloat RtpPacket Base AvQueue Sdp GroupIn SessionStat RtspMsg Url.
From S2P Require HlsPath RtspIn.

Inductive OutEvent :=
  | OutInterleaved (b : list Z) (channel : Z)
  | OutUdp (conn : Z) (b : list Z)
  | OutClose (conn : Z).

Record OutSide := mkOutSide {
  rtpConn : option Z;
  rtcpConn : option Z;
  rtpChannel : Z;
  rtcpChannel : Z;
}.
Record BaseOutSession := mkOut {
  sdpCtx : LogicContext;
  audio : OutSide;
  video : OutSide;
  sessionStat : BasicSessionStat;
  disposed : bool; (* of disposeOnce *)
  waitChan : Z; (* how often nil was sent; it holds one *)
}.

Definition NewBaseOutSession (stat : BasicSessionStat) : BaseOutSession :=
  mkOut zero_logic (mkOutSide None None (-1) 0) (mkOutSide None None (-1) 0) stat false 0.
Definition InitWithSdp (c : LogicContext) (s : BaseOutSession) : BaseOutSession :=
  mkOut c (audio s) (video s) (sessionStat s) (disposed s) (waitChan s).
Definition set_sides (a v : OutSide) (s : BaseOutSession) : BaseOutSession :=
  mkOut (sdpCtx s) a v (sessionStat s) (disposed s) (waitChan s).
Definition set_stat (x : BasicSessionStat) (s : BaseOutSession) : BaseOutSession :=
  mkOut (sdpCtx s) (audio s) (video s) x (disposed s) (waitChan s).

Definition setup (uri : list Z) (f : OutSide → OutSide) (s : BaseOutSession) : outcome BaseOutSession :=
  if IsAudioUri (sdpCtx s) uri then Ret (set_sides (f (audio s)) (video s) s)
  else if IsVideoUri (sdpCtx s) uri then Ret (set_sides (audio s) (f (video s)) s)
  else Fail ErrRtsp.
(** The loops it starts only log what they read. *)
Definition SetupWithConn (uri : list Z) (rtp rtcp : Z) : BaseOutSession → outcome BaseOutSession :=
  setup uri (λ x, mkOutSide (Some rtp) (Some rtcp) (rtpChannel x) (rtcpChannel x)).
Definition SetupWithChannel (uri : list Z) (rtp rtcp : Z) : BaseOutSession → outcome BaseOutSession :=
  setup uri (λ x, mkOutSide (rtpConn x) (rtcpConn x) rtp rtcp).

(** It only logs. *)
Definition HandleInterleavedPacket (b : list Z) (channel : Z) (s : BaseOutSession) : BaseOutSession := s.

Definition out_GetStat (s : BaseOutSession) : BaseOutSession * StatSession :=
  let '(x, r) := GetStat (sessionStat s) in (set_stat x s, r).
Definition out_UpdateStat (intervalSec : Z) (s : BaseOutSession) : outcome BaseOutSession :=
  x ← UpdateStat (sessionStat s) intervalSec; Ret (set_stat x s).
Definition out_IsAlive (s : BaseOutSession) : BaseOutSession * (bool * bool) :=
  let '(x, r) := IsAlive (sessionStat s) in (set_stat x s, r).

Section Writes.
(** Whether a write fails, given all that was written before. *)
Variable write_fails : list OutEvent → option goerr.

Definition World : Type := BaseOutSession * list OutEvent.
Definition write (e : OutEvent) : eff World (option goerr) := λ '(s, ev), ((s, ev ++ [e]), Ret (write_fails (ev ++ [e]))).

(** The error of the channel hides that of the connection. *)
Definition write_side (x : OutSide) (raw : list Z) : eff World (option goerr) :=
  err ← (match rtpConn x with Some c => write (OutUdp c raw) | None => mret None end);
  if rtpChannel x =? -1 then mret err else write (OutInterleaved raw (rtpChannel x)).

Definition here : eff World BaseOutSession := λ w, (w, Ret w.1).
Definition wrote_bytes (n : Z) : eff World unit := λ '(s, ev), ((set_stat (AddWriteBytes (sessionStat s) n) s, ev), Ret tt).

Definition WriteRtpPacket (packet : RtpPacket) : eff World (option goerr) :=
  let t := PacketType (Header packet) in
  s ← here;
  err ← (if IsAudioPayloadTypeOrigin (sdpCtx s) t then write_side (audio s) (Raw packet)
         else if IsVideoPayloadTypeOrigin (sdpCtx s) t then write_side (video s) (Raw packet)
         else mret (Some ErrRtsp));
  _ ← (if some err then mret tt else wrote_bytes (len (Raw packet)));
  mret err.

Definition conns (s : BaseOutSession) : list Z :=
  option_list (rtpConn (audio s)) ++ option_list (rtcpConn (audio s)) ++
  option_list (rtpConn (video s)) ++ option_list (rtcpConn (video s)).
Definition dispose : eff World unit := λ '(s, ev),
  if disposed s then ((s, ev), Ret tt)
  else ((mkOut (sdpCtx s) (audio s) (video s) (sessionStat s) true (waitChan s + 1), ev ++ (OutClose <$> conns s)), Ret tt).

(** ** Players *)

Definition SubSessionStageReadDescribe : Z := 0.
Definition SubSessionStageWriteSdp : Z := 1.
Definition SubSessionStageReadPlay : Z := 2.

Record SubSession := mkSub {
  urlCtx : UrlContext;
  baseOutSession : BaseOutSession;
  ShouldWaitVideoKeyFrame : bool;
  Stage : Z;
}.

Definition NewSubSession (u : UrlContext) (stat : BasicSessionStat) : SubSession :=
  mkSub u (NewBaseOutSession stat) true SubSessionStageReadDescribe.
Definition with_out (b : BaseOutSession) (s : SubSession) : SubSession := mkSub (urlCtx s) b (ShouldWaitVideoKeyFrame s) (Stage s).
Definition with_stage (n : Z) (s : SubSession) : SubSession := mkSub (urlCtx s) (baseOutSession s) (ShouldWaitVideoKeyFrame s) n.
Definition sub_InitWithSdp (c : LogicContext) (s : SubSession) : SubSession :=
  with_out (InitWithSdp c (baseOutSession s)) (with_stage SubSessionStageWriteSdp s).
Definition sub_SetupWithConn (uri : list Z) (rtp rtcp : Z) (s : SubSession) : outcome SubSession :=
  b ← SetupWithConn uri rtp rtcp (baseOutSession s); Ret (with_out b s).
Definition sub_SetupWithChannel (uri : list Z) (rtp rtcp : Z) (s : SubSession) : outcome SubSession :=
  b ← SetupWithChannel uri rtp rtcp (baseOutSession s); Ret (with_out b s).

Definition sub_WriteRtpPacket (packet : RtpPacket) : eff (SubSession * list OutEvent) unit := λ '(s, ev),
  if negb (Stage s =? SubSessionStageReadPlay) then ((s, ev), Ret tt) else
  let '((b, ev), r) := WriteRtpPacket packet (baseOutSession s, ev) in
  ((with_out b s, ev), _ ← r; Ret tt).
Fixpoint sub_write_all (l : list RtpPacket) : eff (SubSession * list OutEvent) unit :=
  match l with [] => mret tt | p :: l => _ ← sub_WriteRtpPacket p; sub_write_all l end.
End Writes.

Definition AppName (s : SubSession) : list Z := HlsPath.PathWithoutLastItem (path (urlCtx s)).
Definition StreamName (s : SubSession) : list Z := HlsPath.LastItemOfPath (path (urlCtx s)).

(** ** The other end of the command connection *)

Section Reader.
Context {B : Bele} {Q : CircularQueue AvPacket}.
Variable HandleRotateFlag : bool.

(** [ClientCommandSession.runReadLoop] over TCP with a server that does not know
    GET_PARAMETER: every frame is given to the session.  A byte that does not
    begin a frame is left, so that the loop turns for ever. *)
Fixpoint runReadLoop (fuel : nat) (r : list Z) : eff RtspIn.World unit :=
  match fuel with
  | O => lift (Fail OutOfFuel)
  | S fuel =>
      '(isInterleaved, packet, channel, r) ← lift (readInterleaved r);
      _ ← (if isInterleaved : bool then RtspIn.HandleInterleavedPacket HandleRotateFlag packet channel else mret tt);
      runReadLoop fuel r
  end.
End Reader.

(** ** Packets to a playing session *)

Section Play.
Context {B : Bele} {HB : BeleLaws B} {Q : CircularQueue AvPacket}.
Variable c : LogicContext.

(** SETUP requests for channels; one that fails changes nothing. *)
Definition sub_setup1 (s : SubSession) (x : list Z * (Z * Z)) : SubSession :=
  match sub_SetupWithChannel x.1 x.2.1 x.2.2 s with Ret s => s | _ => s end.
Definition sub_setup_all (l : list (list Z * (Z * Z))) (s : SubSession) : SubSession := foldl sub_setup1 s l.

(** The media that the requests set up. *)
Definition sets_audio (x : list Z * (Z * Z)) : bool := IsAudioUri c x.1.
Definition sets_video (x : list Z * (Z * Z)) : bool := negb (IsAudioUri c x.1) && IsVideoUri c x.1.

(** The packets of the media set up, with their medium. *)
Definition carried (a v : bool) (p : RtpPacket) : option (RtspIn.medium * RtpPacket) :=
  let t := PacketType (Header p) in
  if IsAudioPayloadTypeOrigin c t then (if a then Some (RtspIn.Audio, p) else None)
  else if IsVideoPayloadTypeOrigin c t && v then Some (RtspIn.Video, p) else None.

(** A packet that was parsed and fits a frame. *)
Definition packet_ok (p : RtpPacket) : Prop := ParseRtpPacket (Raw p) = Ret p ∧ is_bytes (Raw p) ∧ len (Raw p) <= 65507.

Definition framed (e : OutEvent) : outcome (list Z) :=
  match e with OutInterleaved b ch => packInterleaved ch b | _ => Ret [] end.

(** The channel of a medium here and there, once it is set up or before. *)
Definition chan_ok (f : bool) (o i : Z) : Prop := if f then o = i ∧ 0 ≤ o ≤ 255 else o = -1.

Record agrees (a v : bool) (s : SubSession) (t : RtspIn.BaseInSession) : Prop := {
  ag_out : sdpCtx (baseOutSession s) = c;
  ag_in : RtspIn.sdpCtx t = c;
  ag_conns : rtpConn (audio (baseOutSession s)) = None ∧ rtpConn (video (baseOutSession s)) = None;
  ag_audio : chan_ok a (rtpChannel (audio (baseOutSession s))) (RtspIn.rtpChannel (RtspIn.audio t));
  ag_video : chan_ok v (rtpChannel (video (baseOutSession s))) (RtspIn.rtpChannel (RtspIn.video t));
}.

Lemma setup_agrees a v s t ev x : 0 ≤ x.2.1 ≤ 255 → agrees a v s t →
  ∃ t1, RtspIn.dropped (RtspIn.SetupWithChannel x.1 x.2.1 x.2.2) (t, ev) = ((t1, ev), Ret tt) ∧
    agrees (a || sets_audio x) (v || sets_video x) (sub_setup1 s x) t1 ∧ Stage (sub_setup1 s x) = Stage s.
Proof.
  intros Hx [H1 H2 H3 H4 H5]. destruct x as [uri [rtp rtcp]]. cbn [fst snd] in *.
  unfold RtspIn.SetupWithChannel, RtspIn.setup, RtspIn.here, RtspIn.dropped, mbind, eff_bind. cbn [fst snd]. rewrite H2.
  unfold sub_setup1, sub_SetupWithChannel, SetupWithChannel, setup, sets_audio, sets_video. cbn [fst snd]. rewrite H1.
  destruct (IsAudioUri c uri); [|destruct (IsVideoUri c uri)]; cbn [negb andb]; rewrite ?bind_Ret, ?orb_true_r, ?orb_false_r;
    (eexists; split; [reflexivity|]); (split; [|done]); by split.
Qed.

Lemma setups_agree l : Forall (λ x, 0 ≤ x.2.1 ≤ 255) l → ∀ a v s t ev, agrees a v s t →
  ∃ t', RtspIn.setup_all l (t, ev) = ((t', ev), Ret tt) ∧
  agrees (a || existsb sets_audio l) (v || existsb sets_video l) (sub_setup_all l s) t' ∧ Stage (sub_setup_all l s) = Stage s.
Proof.
  induction 1 as [|x l Hx _ IH]; intros a v s t ev Ha; cbn [RtspIn.setup_all existsb].
  { exists t. rewrite !orb_false_r. done. }
  destruct (setup_agrees a v s t ev x Hx Ha) as (t1 & E1 & A1 & S1). destruct (IH _ _ _ t1 ev A1) as (t2 & E2 & A2 & S2).
  exists t2. rewrite !orb_assoc. destruct x as [uri [rtp rtcp]]. rewrite (eff_bind_Ret _ _ _ _ _ E1). split; [done|].
  split; [done|]. unfold sub_setup_all in *. cbn [foldl]. by rewrite S2.
Qed.

Definition to_frame (t : RtspIn.BaseInSession) (x : RtspIn.medium * RtpPacket) : OutEvent :=
  OutInterleaved (Raw x.2) (RtspIn.rtpChannel (RtspIn.side x.1 t)).

Lemma write_one a v s t p ev : agrees a v s t → Stage s = SubSessionStageReadPlay →
  ∃ s', sub_WriteRtpPacket (λ _, None) p (s, ev) = ((s', ev ++ (to_frame t <$> option_list (carried a v p))), Ret tt) ∧
    agrees a v s' t ∧ Stage s' = SubSessionStageReadPlay.
Proof.
  intros [H1 H2 [H3 H3'] H4 H5] Hs. unfold sub_WriteRtpPacket. rewrite Hs. cbn [negb Z.eqb SubSessionStageReadPlay Pos.eqb].
  unfold WriteRtpPacket, carried, mbind, eff_bind, here. cbn [fst snd]. rewrite H1. unfold write_side. rewrite H3, H3'.
  destruct (IsAudioPayloadTypeOrigin c _); [|destruct (IsVideoPayloadTypeOrigin c _)]; cbn [andb].
  1: rename H4 into Hc; destruct a.
  3: rename H5 into Hc; destruct v.
  1, 3: destruct Hc as [E ?]; cbn; rewrite (proj2 (Z.eqb_neq _ _)) by lia; cbn; unfold to_frame; cbn; rewrite <- E;
    eexists; (split; [reflexivity|]); (split; [|done]); by split.
  1, 2: cbn in Hc; cbn; rewrite Hc; cbn; rewrite app_nil_r; eexists; (split; [reflexivity|]); (split; [|done]); by split.
  cbn. rewrite app_nil_r. eexists; (split; [reflexivity|]); (split; [|done]); by split.
Qed.

Lemma write_all a v t l : ∀ s ev, agrees a v s t → Stage s = SubSessionStageReadPlay →
  ∃ s', sub_write_all (λ _, None) l (s, ev) = ((s', ev ++ (to_frame t <$> omap (carried a v) l)), Ret tt).
Proof.
  induction l as [|p l IH]; intros s ev Ha Hs; cbn [sub_write_all]; [exists s; cbn; by rewrite app_nil_r|].
  destruct (write_one a v s t p ev Ha Hs) as (s1 & E1 & A1 & S1). rewrite (eff_bind_Ret _ _ _ _ _ E1).
  destruct (IH s1 (ev ++ (to_frame t <$> option_list (carried a v p))) A1 S1) as (s2 & E2). exists s2. rewrite E2, <- app_assoc. cbn [omap list_omap].
  by destruct (carried a v p).
Qed.

(** The frames of the packets, and what the reader makes of them. *)
Definition to_input (t : RtspIn.BaseInSession) (x : RtspIn.medium * RtpPacket) : RtspIn.Input :=
  RtspIn.InFrame (Raw x.2) (RtspIn.rtpChannel (RtspIn.side x.1 t)).

Definition frame_ok (t : RtspIn.BaseInSession) (x : RtspIn.medium * RtpPacket) : Prop :=
  packet_ok x.2 ∧ 0 ≤ RtspIn.rtpChannel (RtspIn.side x.1 t) ≤ 255.

Lemma frames_read flag t xs : Forall (frame_ok t) xs → ∃ frames, mapM framed (to_frame t <$> xs) = Ret frames ∧
  length frames = length xs ∧ ∀ w w', RtspIn.handle_all flag (to_input t <$> xs) w = (w', Ret tt) →
    runReadLoop flag (S (length frames)) (mjoin frames) w = (w', Fail EOF).
Proof.
  induction 1 as [|[m p] xs [(_ & _ & Hl) Hc] _ (frames & E & El & IH)].
  { exists []. split; [done|]. split; [done|]. intros w w' [= <-]. done. }
  cbn [fst snd] in *. destruct (rtsp_interleaved_roundtrip HB _ (Raw p) (mjoin frames) Hc ltac:(lia)) as (b & Eb & _ & Er & _).
  exists (b :: frames). cbn [fmap list_fmap mapM to_frame fst snd framed]. rewrite Eb, bind_Ret, E, bind_Ret. split; [done|].
  split; [cbn; by rewrite El|]. intros w w'. cbn [fmap list_fmap RtspIn.handle_all to_input fst snd RtspIn.handle]. intros H.
  change (mjoin (b :: frames)) with (b ++ mjoin frames). cbn [length]. change (runReadLoop flag (S ?n)) with (runReadLoop flag (S n)).
  cbn [runReadLoop]. rewrite Er, (proj2 (Z.leb_le _ _)), eff_bind_lift by lia. cbv beta iota.
  unfold mbind at 1, eff_bind in H. unfold mbind at 1, eff_bind.
  destruct (RtspIn.HandleInterleavedPacket _ _ _ w) as [w1 [[]|e|]]; [|done..]. by apply IH.
Qed.

Lemma ParseRtpHeader_type b h : ParseRtpHeader b = Ret h → RtpFixedHeaderLength ≤ len b ∧ PacketType h = Z.land (b !!! 1%nat) 127.
Proof.
  unfold ParseRtpHeader. destruct (Z.ltb_spec (len b) RtpFixedHeaderLength) as [|Hl]; [done|]. intros H. split; [done|].
  unfold RtpFixedHeaderLength in Hl. do 2 (bind_inv H). rewrite go_index_Ret with (x := b !!! 1%nat) in E0.
  2:{ lia. } 
  2:{ apply list_lookup_lookup_total_lt. lia. }
  injection E0 as <-. repeat first [bind_inv H | case_match; try done].
  all: by injection H as <-.
Qed.

Lemma carried_is a v p m q : carried a v p = Some (m, q) → q = p ∧ match m with RtspIn.Audio => a = true | RtspIn.Video => v = true end.
Proof.
  unfold carried. destruct (IsAudioPayloadTypeOrigin c _); [by destruct a; [intros [= <- <-]|]|].
  destruct (IsVideoPayloadTypeOrigin c _); cbn [andb]; [by destruct v; [intros [= <- <-]|]|done].
Qed.

Lemma carried_accepted a v p x : packet_ok p → carried a v p = Some x → RtspIn.accepted c (Raw p) = Some x.
Proof.
  intros (Hp & _ & _) Hc. destruct x as [m q]. pose proof (carried_is _ _ _ _ _ Hc) as [-> _].
  unfold ParseRtpPacket in Hp. bind_inv Hp. rewrite go_copy_full in Hp by (rewrite length_go_make; lia).
  destruct (ParseRtpHeader_type _ _ E) as [Hl Ht]. unfold RtspIn.accepted. rewrite (proj2 (Z.ltb_ge _ _)), E by lia.
  assert (Ep : mkRtpPacket a0 (Raw p) 0 = p) by by injection Hp. assert (EH : Header p = a0) by by rewrite <- Ep.
  rewrite <- Ht, Ep. revert Hc. unfold carried. rewrite EH. destruct (IsAudioPayloadTypeOrigin c _); [by destruct a|].
  destruct (IsVideoPayloadTypeOrigin c _); cbn [andb]; [by destruct v|done].
Qed.

Lemma frames_ok a v s t l : agrees a v s t → Forall packet_ok l → Forall (frame_ok t) (omap (carried a v) l) ∧
  Forall RtspIn.input_bytes (to_input t <$> omap (carried a v) l) ∧
  omap (RtspIn.accepted c) (omap (RtspIn.datagram (RtspIn.rtpChannel (RtspIn.audio t)) (RtspIn.rtpChannel (RtspIn.video t)))
    (to_input t <$> omap (carried a v) l)) = omap (carried a v) l.
Proof.
  intros [_ _ _ Ha Hv] Hl. induction Hl as [|p l Hp _ (IH1 & IH2 & IH3)]; [done|]. cbn [omap list_omap].
  destruct (carried a v p) as [[m q]|] eqn:Ec; [|done]. destruct (carried_is _ _ _ _ _ Ec) as [-> Hm].
  assert (Hch : 0 ≤ RtspIn.rtpChannel (RtspIn.side m t) ≤ 255) by (destruct m; subst; cbn; [destruct Ha as [<- ?]|destruct Hv as [<- ?]]; done).
  split; [by constructor|]. cbn [fmap list_fmap to_input fst snd]. split; [constructor; [apply Hp|done]|].
  cbn [omap list_omap]. unfold RtspIn.datagram at 1, to_input at 1. cbn [fst snd].
  assert ((RtspIn.rtpChannel (RtspIn.side m t) =? RtspIn.rtpChannel (RtspIn.audio t)) ||
    (RtspIn.rtpChannel (RtspIn.side m t) =? RtspIn.rtpChannel (RtspIn.video t)) = true) as ->
    by (destruct m; cbn [RtspIn.side]; rewrite Z.eqb_refl; [done|by rewrite orb_true_r]).
  cbn [omap list_omap]. rewrite (carried_accepted a v p _ Hp Ec). by f_equal.
Qed.
End Play.

(** C27: packets that are written to a player in play, over the command connection
    with writes that succeed, reach the session that pulls: when both have the
    description and the channels (at most 255) of the same SETUP requests, what the
    server writes is frames that the reading loop of the client (over TCP, with a server
    that does not know GET_PARAMETER) takes to the end of the bytes, and the client's
    observer gets exactly the packets of the media set up, in order, and of each medium
    what the unpacker of that medium alone makes of its packets.  The packets are ones
    that were parsed from at most 65507 bytes (a longer frame is refused). *)
Theorem rtsp_play_delivered {B : Bele} (HB : BeleLaws B) {Q : CircularQueue AvPacket} flag u stat stat' c setups l :
  Forall (λ x, 0 ≤ x.2.1 ≤ 255) setups → Forall packet_ok l →
  let s := with_stage SubSessionStageReadPlay (sub_setup_all setups (sub_InitWithSdp c (NewSubSession u stat))) in
  let sent := omap (carried c (existsb (sets_audio c) setups) (existsb (sets_video c) setups)) l in
  ∃ s' ev frames, sub_write_all (λ _, None) l (s, []) = ((s', ev), Ret tt) ∧ mapM framed ev = Ret frames ∧
  ∃ t t' ev', (_ ← RtspIn.InitWithSdp c; RtspIn.setup_all setups) (RtspIn.NewBaseInSessionWithObserver stat', []) =
      ((t, [RtspIn.EvSdp c]), Ret tt) ∧
    runReadLoop flag (S (length frames)) (mjoin frames) (t, [RtspIn.EvSdp c]) = ((t', RtspIn.EvSdp c :: ev'), Fail EOF) ∧
    RtspIn.rtps ev' = snd <$> sent ∧
    audio_of (RtspIn.avs ev') = (RtspIn.feed_alone (RtspIn.made RtspIn.Audio c) (RtspIn.of_medium RtspIn.Audio sent)).2 ∧
    video_of (RtspIn.avs ev') = (RtspIn.feed_alone (RtspIn.made RtspIn.Video c) (RtspIn.of_medium RtspIn.Video sent)).2.
Proof.
  intros Hch Hl s sent. destruct (RtspIn.InitWithSdp_run stat' c) as (t0 & E0 & _ & A2 & _ & _).
  destruct (setups_agree c setups Hch false false (sub_InitWithSdp c (NewSubSession u stat)) t0 [RtspIn.EvSdp c]) as (t & Et & Ha & _); [by split|].
  cbn [orb] in Ha. assert (Ha' : agrees c (existsb (sets_audio c) setups) (existsb (sets_video c) setups) s t) by by destruct Ha; split.
  destruct (write_all c _ _ t l s [] Ha' eq_refl) as (s' & Ew). destruct (frames_ok c _ _ s t l Ha' Hl) as (F1 & F2 & F3).
  destruct (frames_read flag t _ F1) as (frames & Ef & _ & Er).
  exists s', (to_frame t <$> sent), frames. split; [exact Ew|]. split; [exact Ef|].
  destruct (RtspIn.described_playing stat' c setups) as (t2 & E2 & Hp).
  assert (t2 = t) as -> by (rewrite (eff_bind_Ret _ _ _ _ _ E0), Et in E2; by injection E2). exists t.
  destruct (RtspIn.handle_all_run flag c _ _ _ _ _ _ t [RtspIn.EvSdp c] Hp F2) as (t' & ev & E' & _ & R1 & R2).
  exists t', ev. split; [exact E2|]. split; [by apply Er|]. rewrite R1, R2, F3. split; [done|].
  apply (RtspIn.take_all_media _ _ (RtspIn.session_pt_audio c) (RtspIn.session_pt_video c)); [apply (RtspIn.pl_ok _ _ _ _ _ _ _ Hp)|].
  unfold sent. rewrite <- F3. apply RtspIn.accepted_bytes, RtspIn.datagrams_bytes, F2.
Qed.

(** ** Examples *)

Definition demo_url : UrlContext :=
  mkUrl (str "rtsp://h/live/a") (str "rtsp") [] [] (str "h") (str "h:554") (str "h") 554
    (HlsPath.parseUrlPath (str "/live/a") []) (str "rtsp://h/live/a").
(** Two packets of audio around one of video. *)
Definition demo_raws : list (list Z) :=
  [[128; 8; 0; 1; 0; 0; 0; 160; 0; 0; 0; 9; 77]; [128; 96; 0; 1; 0; 0; 0; 0; 0; 0; 0; 8; 101; 7]; [128; 8; 0; 2; 0; 0; 1; 64; 0; 0; 0; 9; 78]].
Definition demo_packets : list RtpPacket :=
  match mapM (ParseRtpPacket (B := bele_impl)) demo_raws with Ret l => l | _ => [] end.

Lemma rtsp_play_delivered_witness :
  let s := with_stage SubSessionStageReadPlay (sub_setup_all RtspIn.demo_setups (sub_InitWithSdp RtspIn.demo_ctx (NewSubSession demo_url RtspIn.demo_stat))) in
  let c := RtspIn.demo_ctx in let setups := RtspIn.demo_setups in
  let sent := omap (carried c (existsb (sets_audio c) setups) (existsb (sets_video c) setups)) demo_packets in
  ∃ s' ev frames, sub_write_all (λ _, None) demo_packets (s, []) = ((s', ev), Ret tt) ∧ mapM (framed (B := bele_impl)) ev = Ret frames ∧
  ∃ t t' ev', (_ ← RtspIn.InitWithSdp (B := bele_impl) c; RtspIn.setup_all setups)
      (RtspIn.NewBaseInSessionWithObserver (Q := queue_impl AvPacket) RtspIn.demo_stat, []) = ((t, [RtspIn.EvSdp c]), Ret tt) ∧
    runReadLoop (B := bele_impl) false (S (length frames)) (mjoin frames) (t, [RtspIn.EvSdp c]) = ((t', RtspIn.EvSdp c :: ev'), Fail EOF) ∧
    RtspIn.rtps ev' = snd <$> sent ∧
    audio_of (RtspIn.avs ev') = (RtspIn.feed_alone (RtspIn.made (B := bele_impl) RtspIn.Audio c) (RtspIn.of_medium RtspIn.Audio sent)).2 ∧
    video_of (RtspIn.avs ev') = (RtspIn.feed_alone (RtspIn.made (B := bele_impl) RtspIn.Video c) (RtspIn.of_medium RtspIn.Video sent)).2.
Proof.
  apply (rtsp_play_delivered bele_impl_laws false demo_url RtspIn.demo_stat RtspIn.demo_stat RtspIn.demo_ctx RtspIn.demo_setups demo_packets).
  - repeat constructor; cbn; lia.
  - unfold demo_packets. set (l := mapM _ _). vm_compute in l. subst l. cbv beta iota.
    repeat first [apply Forall_nil_2|apply Forall_cons_2]; (split; [by vm_compute|]); (split; [by apply (bool_decide_eq_true_1 _); vm_compute|cbn; lia]).
Defined.

(** All three reach the other side. *)
Example play_delivers_all :
  omap (carried RtspIn.demo_ctx (existsb (sets_audio RtspIn.demo_ctx) RtspIn.demo_setups)
    (existsb (sets_video RtspIn.demo_ctx) RtspIn.demo_setups)) demo_packets = zip [RtspIn.Audio; RtspIn.Video; RtspIn.Audio] demo_packets ∧
  length demo_packets = 3%nat.
Proof. vm_compute. done. Qed.

(** ** Findings *)

(** A packet of a medium that was not set up is counted as written. *)
Lemma unwritten_counted c stat p : IsAudioPayloadTypeOrigin c (PacketType (Header p)) = true →
  WriteRtpPacket (λ _, None) p (InitWithSdp c (NewBaseOutSession stat), []) =
    ((set_stat (AddWriteBytes stat (len (Raw p))) (InitWithSdp c (NewBaseOutSession stat)), []), Ret None).
Proof. intros H. unfold WriteRtpPacket, mbind, eff_bind, here. cbn [fst snd InitWithSdp NewBaseOutSession sdpCtx]. by rewrite H. Qed.

(** The loop of a client whose server does not know GET_PARAMETER does not end at
    a byte that does not begin a frame: an answer, or the end of one. *)
Lemma client_loop_spins {B : Bele} {Q : CircularQueue AvPacket} flag fuel x r w : x ≠ Interleaved →
  runReadLoop flag fuel (x :: r) w = (w, Fail OutOfFuel).
Proof.
  intros Hx. revert w. induction fuel as [|fuel IH]; intros w; [done|]. cbn [runReadLoop readInterleaved].
  rewrite (proj2 (Z.eqb_neq x Interleaved)) by done. cbn [negb]. rewrite eff_bind_lift. cbv beta iota.
  rewrite (eff_bind_Ret _ _ w w tt) by done. apply IH.
Qed.
