(* ===== verification/RtspServer.v ===== *)
(** * RTSP servers (src/pkg/rtsp/server_command_session.go, server_pub_session.go, server.go)

    The command connection of a player or a publisher: requests, and frames
    between them, read from its bytes, plain or in WebSocket frames; every
    handler with what it writes and what it tells the server's observer.  The
    trace of events is the world of the observer: what it answers is a function
    of the trace so far. *)

From stdpp Require Import gmap.
From S2P Require Import Prelude Naza GoText RtpPacket Base AvQueue Sdp SessionStat RtspMsg Url Http WebSocket.
From S2P Require RtspIn RtspOut.

Record ServerAuthConfig := mkAuthConfig {
  AuthEnable : bool;
  AuthMethod : Z;
  UserName : list Z;
  PassWord : list Z;
}.

Record PubSession {Q : CircularQueue AvPacket} := mkPub {
  pub_urlCtx : UrlContext;
  baseInSession : RtspIn.BaseInSession;
}.
Arguments PubSession : clear implicits.
Arguments PubSession {Q}.
Arguments mkPub {Q}.

Record ServerCommandSession {Q : CircularQueue AvPacket} := mkServer {
  authConf : ServerAuthConfig;
  auth : Auth;
  pubSession : option PubSession;
  subSession : option RtspOut.SubSession;
  describeSeq : list Z;
  isWebSocket : bool;
}.
Arguments ServerCommandSession : clear implicits.
Arguments ServerCommandSession {Q}.
Arguments mkServer {Q}.

(** A request read, what is written on the connection and to datagram
    connections, what is told to the observer of the server and to that of a
    publisher, and closings. *)
Inductive Event :=
  | EvRequest (rq : Request)
  | EvWrite (b : list Z)
  | EvNewPub (u : UrlContext)
  | EvDescribe (u : UrlContext)
  | EvPlay (u : UrlContext)
  | EvIn (e : RtspIn.Event)
  | EvOut (e : RtspOut.OutEvent)
  | EvClose
  | EvConnect
  | EvDelPub (u : UrlContext)
  | EvDelSub (u : UrlContext)
  | EvDisconnect.

(** The rest of the world, given all that happened: the answers of the observer,
    whether a write fails, the datagram connections with their ports, the time,
    random bytes, and the statistics of a new session. *)
Class ServerEnv := {
  env_pub : list Event → option goerr;
  env_describe : list Event → bool * option (list Z);
  env_play : list Event → option goerr;
  env_write : list Event → option goerr;
  initConnWithClientPort : Z → Z → list Event → outcome (Z * Z * Z * Z);
  env_date : list Event → list Z;
  env_random : list Event → list Z;
  env_stat : list Event → BasicSessionStat;
  LalRtspOptionsResponseServer : list Z;
}.

Section Server.
Context {B : Bele} {B8 : Bele64} {Q : CircularQueue AvPacket} {M : Md5} {U : NetUrl} {H : HttpMsg} {En : ServerEnv}.
Variable HandleRotateFlag : bool.

Definition World : Type := ServerCommandSession * list Event.

Definition NewServerCommandSession (conf : ServerAuthConfig) (ws : bool) : ServerCommandSession :=
  mkServer conf no_auth None None [] ws.

Definition set_auth (a : Auth) (s : ServerCommandSession) : ServerCommandSession :=
  mkServer (authConf s) a (pubSession s) (subSession s) (describeSeq s) (isWebSocket s).
Definition set_pub (p : option PubSession) (s : ServerCommandSession) : ServerCommandSession :=
  mkServer (authConf s) (auth s) p (subSession s) (describeSeq s) (isWebSocket s).
Definition set_sub (p : option RtspOut.SubSession) (s : ServerCommandSession) : ServerCommandSession :=
  mkServer (authConf s) (auth s) (pubSession s) p (describeSeq s) (isWebSocket s).
Definition set_describeSeq (q : list Z) (s : ServerCommandSession) : ServerCommandSession :=
  mkServer (authConf s) (auth s) (pubSession s) (subSession s) q (isWebSocket s).

Definition here : eff World ServerCommandSession := λ w, (w, Ret w.1).
Definition past {A} (f : list Event → A) : eff World A := λ w, (w, Ret (f w.2)).
Definition upd (f : ServerCommandSession → ServerCommandSession) : eff World unit := λ '(s, ev), ((f s, ev), Ret tt).
Definition emit (l : list Event) : eff World unit := λ '(s, ev), ((s, ev ++ l), Ret tt).
Definition fail_with (e : option goerr) : eff World unit := lift (match e with Some e => Fail e | None => Ret tt end).

Definition conn_Write (b : list Z) : eff World unit := _ ← emit [EvWrite b]; e ← past env_write; fail_with e.

Definition Wso_Binary : Z := 2.
(** The result of the write is not looked at. *)
Definition writeWsFrameHeader (respLen : Z) : eff World unit :=
  b ← lift (MakeWsFrameHeader (mkWsHeader true false false false Wso_Binary (u64 respLen) false 0));
  emit [EvWrite b].
(** A message in a frame of its own: the header and the rest are two writes. *)
Definition respond (resp : list Z) : eff World unit :=
  s ← here;
  _ ← (if isWebSocket s then writeWsFrameHeader (len resp) else mret tt);
  conn_Write resp.

Definition WriteInterleavedPacket (packet : list Z) (channel : Z) : eff World unit :=
  b ← lift (packInterleaved channel packet); respond b.

(** What the session of a publisher does is done on this connection. *)
Fixpoint replay (l : list RtspIn.Event) : eff World unit :=
  match l with
  | [] => mret tt
  | RtspIn.EvInterleaved b ch :: l => _ ← RtspIn.dropped (WriteInterleavedPacket b ch); replay l
  | e :: l => _ ← emit [EvIn e]; replay l
  end.
Definition in_pub {A} (m : eff RtspIn.World A) : eff World A :=
  s ← here;
  match pubSession s with
  | None => lift Panic
  | Some p =>
      let '((b, ev), r) := m (baseInSession p, []) in
      _ ← upd (set_pub (Some (mkPub (pub_urlCtx p) b)));
      _ ← replay ev;
      lift r
  end.
Definition in_sub {A} (f : RtspOut.SubSession → outcome (RtspOut.SubSession * A)) : eff World A :=
  s ← here;
  match subSession s with
  | None => lift Panic
  | Some p => '(p, a) ← lift (f p); _ ← upd (set_sub (Some p)); mret a
  end.
Definition sub_upd (f : RtspOut.SubSession → outcome RtspOut.SubSession) : eff World unit :=
  in_sub (λ p, p ← f p; Ret (p, tt)).

(** ** Handlers *)

Definition cseq_of (rq : Request) : list Z := Get (rq_Headers rq) HeaderCSeq.

Definition handleOptions (rq : Request) : eff World unit :=
  respond (PackResponseOptions LalRtspOptionsResponseServer (cseq_of rq)).

(** A group that takes the publisher becomes its observer ([AddRtspPubSession]). *)
Definition OnNewRtspPubSession : eff World unit :=
  s ← here;
  match pubSession s with
  | None => lift Panic
  | Some p =>
      _ ← emit [EvNewPub (pub_urlCtx p)];
      e ← past env_pub;
      _ ← fail_with e;
      in_pub RtspIn.SetObserver
  end.

Definition handleAnnounce (rq : Request) : eff World unit :=
  u ← lift (ParseRtspUrl (rq_Uri rq));
  c ← lift (ParseSdp2LogicContext (rq_Body rq));
  stat ← past env_stat;
  _ ← upd (set_pub (Some (mkPub u (RtspIn.NewBaseInSession stat))));
  _ ← in_pub (RtspIn.InitWithSdp c);
  _ ← OnNewRtspPubSession;
  conn_Write (PackResponseAnnounce (cseq_of rq)).

(** The challenge to write, or nothing when the request may go on. *)
Definition handleAuthorized (rq : Request) : eff World (list Z) :=
  let authorization := Get (rq_Headers rq) HeaderAuthorization in
  s ← here;
  let conf := authConf s in
  if negb (bool_decide (authorization = [])) then
    let a := (ParseAuthorization (auth s) authorization).1 in
    _ ← upd (set_auth a);
    if (bool_decide (Typ a = AuthTypeBasic) && (AuthMethod conf =? 0) || bool_decide (Typ a = AuthTypeDigest) && (AuthMethod conf =? 1)) &&
       CheckAuthorization a (rq_Method rq) (UserName conf) (PassWord conf)
    then mret [] else lift (Fail ErrFmt)
  else if (AuthMethod conf =? 0) || (AuthMethod conf =? 1) then
    date ← past env_date; k ← past env_random;
    mret (PackResponseAuthorized date (cseq_of rq) (MakeAuthenticate k (if AuthMethod conf =? 0 then AuthTypeBasic else AuthTypeDigest)))
  else lift (Fail ErrFmt).

(** A description that cannot be parsed leaves the session without media. *)
Definition feedSdp (rawSdp : list Z) : eff World unit :=
  let c := match ParseSdp2LogicContext rawSdp with Ret c => c | _ => zero_logic end in
  _ ← sub_upd (λ p, Ret (RtspOut.sub_InitWithSdp c p));
  date ← past env_date; s ← here;
  respond (PackResponseDescribe date (describeSeq s) rawSdp).
Definition FeedSdp (b : list Z) : eff World unit := feedSdp b.

Definition describe (rq : Request) : eff World unit :=
  u ← lift (ParseRtspUrl (rq_Uri rq));
  _ ← upd (set_describeSeq (cseq_of rq));
  stat ← past env_stat;
  _ ← upd (set_sub (Some (RtspOut.NewSubSession u stat)));
  _ ← emit [EvDescribe u];
  '(ok, rawSdp) ← past env_describe;
  if negb ok then lift (Fail ErrRtsp)
  else match rawSdp with Some b => feedSdp b | None => mret tt end.
Definition handleDescribe (rq : Request) : eff World unit :=
  s ← here;
  if AuthEnable (authConf s) then
    authresp ← handleAuthorized rq;
    if negb (bool_decide (authresp = [])) then respond authresp else describe rq
  else describe rq.

(** The two sessions with what sets up a medium. *)
Definition setup_with (uri : list Z) (udp : bool) (a b : Z) : eff World unit :=
  s ← here;
  match pubSession s, subSession s with
  | Some _, _ => in_pub (if udp then RtspIn.SetupWithConn uri a b else RtspIn.SetupWithChannel uri a b)
  | None, Some _ => sub_upd (if udp then RtspOut.sub_SetupWithConn uri a b else RtspOut.sub_SetupWithChannel uri a b)
  | None, None => lift (Fail ErrRtsp)
  end.

Definition handleSetup (rq : Request) : eff World unit :=
  let htv := Get (rq_Headers rq) HeaderTransport in
  if Contains htv TransportFieldInterleaved then
    '(rtpChannel, rtcpChannel) ← lift (parseRtpRtcpChannel htv);
    _ ← setup_with (rq_Uri rq) false rtpChannel rtcpChannel;
    date ← past env_date;
    respond (PackResponseSetup date (cseq_of rq) htv)
  else
    '(rRtpPort, rRtcpPort) ← lift (parseClientPort htv);
    acquired ← past (initConnWithClientPort rRtpPort rRtcpPort);
    '(rtpConn, rtcpConn, lRtpPort, lRtcpPort) ← lift acquired;
    s ← here;
    _ ← setup_with (rq_Uri rq) true rtpConn rtcpConn;
    let tmpl := match pubSession s with Some _ => HeaderTransportServerRecord | None => HeaderTransportServerPlay end in
    date ← past env_date;
    respond (PackResponseSetup date (cseq_of rq) (tmpl rRtpPort rRtcpPort lRtpPort lRtcpPort)).

Definition handleRecord (rq : Request) : eff World unit := conn_Write (PackResponseRecord (cseq_of rq)).

Definition handlePlay (rq : Request) : eff World unit :=
  s ← here;
  match subSession s with
  | None => lift (Fail ErrRtsp)
  | Some p =>
      _ ← sub_upd (λ p, Ret (RtspOut.with_stage RtspOut.SubSessionStageReadPlay p));
      _ ← emit [EvPlay (RtspOut.urlCtx p)];
      e ← past env_play;
      _ ← fail_with e;
      date ← past env_date;
      respond (PackResponsePlay date (cseq_of rq))
  end.

Definition handleTeardown (rq : Request) : eff World unit := respond (PackResponseTeardown (cseq_of rq)).

(** ** The loop *)

(** Whether [m] returned no error. *)
Definition succeeds {A} (m : eff World A) : eff World bool := λ w,
  match m w with
  | (w, Ret _) => (w, Ret true)
  | (w, Fail OutOfFuel) => (w, Fail OutOfFuel)
  | (w, Fail _) => (w, Ret false)
  | (w, Panic) => (w, Panic)
  end.

(** Whether the loop goes on after the request; an unknown one is only logged. *)
Definition dispatch (rq : Request) : eff World bool :=
  _ ← emit [EvRequest rq];
  let m := rq_Method rq in
  if bool_decide (m = MethodOptions) then succeeds (handleOptions rq)
  else if bool_decide (m = MethodAnnounce) then succeeds (handleAnnounce rq)
  else if bool_decide (m = MethodDescribe) then succeeds (handleDescribe rq)
  else if bool_decide (m = MethodSetup) then succeeds (handleSetup rq)
  else if bool_decide (m = MethodRecord) then succeeds (handleRecord rq)
  else if bool_decide (m = MethodPlay) then succeeds (handlePlay rq)
  else if bool_decide (m = MethodTeardown) then _ ← succeeds (handleTeardown rq); mret false
  else mret true.

Definition handle_frame (packet : list Z) (channel : Z) : eff World bool :=
  s ← here;
  match pubSession s, subSession s with
  | Some _, _ => _ ← in_pub (RtspIn.HandleInterleavedPacket HandleRotateFlag packet channel); mret true
  | None, Some p =>
      _ ← sub_upd (λ p, Ret (RtspOut.with_out (RtspOut.HandleInterleavedPacket packet channel (RtspOut.baseOutSession p)) p)); mret true
  | None, None => mret false
  end.

(** What follows on the connection when the loop goes on; [None] when it ends. *)
Definition cmd_step (r : list Z) : eff World (option (list Z)) :=
  s ← here;
  let request (m : outcome (Request * list Z)) (rest : Request * list Z → list Z) : eff World (option (list Z)) :=
    match m with
    | Ret x => ok ← dispatch x.1; mret (if ok : bool then Some (rest x) else None)
    | Fail OutOfFuel => lift (Fail OutOfFuel)
    | Fail _ => mret None
    | Panic => lift Panic
    end in
  if isWebSocket s then
    match ReadWsPayload r with
    | Ret (payload, r) => request (ReadHttpRequestMessage payload) (λ _, r)
    | Fail OutOfFuel => lift (Fail OutOfFuel)
    | Fail _ => mret None
    | Panic => lift Panic
    end
  else
    match readInterleaved r with
    | Ret (true, packet, channel, r) => ok ← handle_frame packet channel; mret (if ok : bool then Some r else None)
    | Ret (false, _, _, r) => request (ReadHttpRequestMessage r) snd
    | Fail OutOfFuel => lift (Fail OutOfFuel)
    | Fail _ => mret None
    | Panic => lift Panic
    end.

Fixpoint runCmdLoop (fuel : nat) (r : list Z) : eff World unit :=
  match fuel with
  | O => lift (Fail OutOfFuel)
  | S fuel =>
      next ← cmd_step r;
      match next with
      | Some r => runCmdLoop fuel r
      | None => emit [EvClose]
      end
  end.

(** [Dispose] of the sessions. *)
Definition dispose_pub : eff World unit := _ ← emit [EvClose]; in_pub RtspIn.Dispose.
Definition dispose_sub : eff World unit :=
  s ← here;
  match subSession s with
  | None => lift Panic
  | Some p =>
      let '((b, ev), _) := RtspOut.dispose (RtspOut.baseOutSession p, []) in
      _ ← upd (set_sub (Some (RtspOut.with_out b p)));
      emit ((EvOut <$> ev) ++ [EvClose])
  end.

(** [Server.handleTcpConnect]: the bytes of a connection, from its first to its end. *)
Definition handleTcpConnect (fuel : nat) (r : list Z) : eff World unit :=
  _ ← emit [EvConnect];
  _ ← runCmdLoop fuel r;
  s ← here;
  _ ← (match pubSession s, subSession s with
       | Some p, _ => _ ← emit [EvDelPub (pub_urlCtx p)]; dispose_pub
       | None, Some p => _ ← emit [EvDelSub (RtspOut.urlCtx p)]; dispose_sub
       | None, None => mret tt
       end);
  emit [EvDisconnect].
End Server.

(** ** Termination: a turn of the loop takes bytes *)

Lemma read_shorter n r b r' : read n r = Ret (b, r') → (length r' ≤ length r)%nat ∧ (0 < n → (length r' < length r)%nat).
Proof.
  unfold read. repeat case_match; try done. intros [= <- <-]. rewrite length_drop. lia.
Qed.

Lemma readInterleaved_shorter {B : Bele} r x : readInterleaved r = Ret x → if x.1.1.1 then (length x.2 < length r)%nat else x.2 = r.
Proof.
  unfold readInterleaved. destruct r as [|y r]; [done|]. destruct (negb _); [by intros [= <-]|]. destruct r as [|ch r]; [done|].
  intros Hr. bind_inv Hr. destruct a as [b r1]. apply read_shorter in E as [E _]. bind_inv Hr. destruct (_ >? _); [done|].
  bind_inv Hr. destruct a0 as [b' r2]. apply read_shorter in E1 as [E1 _]. injection Hr as <-. cbn [fst snd length]. lia.
Qed.

Lemma ReadWsPayload_shorter {B : Bele} {B8 : Bele64} r b r' : ReadWsPayload r = Ret (b, r') → (length r' < length r)%nat.
Proof.
  unfold ReadWsPayload. intros Hr. bind_inv Hr. destruct a as [b0 r0]. apply read_shorter in E as [_ E]. bind_inv Hr. cbv zeta in Hr.
  bind_inv Hr. destruct a0 as [n r1]. assert (length r1 ≤ length r0)%nat as E3.
  { destruct (_ <? _); [by injection E1 as <- <-|]. destruct (_ =? _); bind_inv E1; destruct a0 as [? r2];
    injection E1 as <- <-; by eapply proj1, read_shorter. }
  bind_inv Hr. destruct a0 as [k r2]. assert (length r2 ≤ length r1)%nat as E4.
  { destruct (negb _); [|by injection E2 as <- <-]. bind_inv E2. destruct a0 as [? r3]. bind_inv E2. injection E2 as <- <-. by eapply proj1, read_shorter. }
  destruct (_ >? _); [done|]. bind_inv Hr. destruct a0 as [p r3]. apply read_shorter in E5 as [E5 _]. bind_inv Hr. injection Hr as <- <-. lia.
Qed.

Section Ends.
Context {B : Bele} {B8 : Bele64} {Q : CircularQueue AvPacket} {M : Md5} {U : NetUrl} {H : HttpMsg} {HH : HttpMsgLaws H} {En : ServerEnv}.

Lemma cmd_step_shorter flag r w w' r' : cmd_step flag r w = (w', Ret (Some r')) → (length r' < length r)%nat.
Proof.
  unfold cmd_step, mbind, eff_bind, here, lift. destruct (isWebSocket w.1); cbv zeta.
  - destruct (ReadWsPayload r) as [[b r1]|[]|] eqn:E; try done. apply ReadWsPayload_shorter in E.
    destruct (ReadHttpRequestMessage b) as [x|[]|]; try done. destruct (dispatch x.1 w) as [w1 [[]|?|]]; by intros [= <- <-].
  - destruct (readInterleaved r) as [[[[il b] ch] r1]|[]|] eqn:E; try done. apply readInterleaved_shorter in E. cbn [fst snd] in E.
    destruct il; [destruct (handle_frame flag b ch w) as [w1 [[]|?|]]; by intros [= <- <-]|]. subst r1.
    destruct (ReadHttpRequestMessage r) as [[rq r2]|[]|] eqn:E; try done. apply request_shorter in E. cbn [fst snd].
    destruct (dispatch rq w) as [w1 [[]|?|]]; intros [= <- <-]. lia.
Qed.

(** One more than the bytes is fuel enough: more changes nothing. *)
Lemma runCmdLoop_fuel flag fuel : ∀ r w k, (length r < fuel)%nat → runCmdLoop flag (k + fuel) r w = runCmdLoop flag fuel r w.
Proof.
  induction fuel as [|fuel IH]; intros r w k Hf; [lia|]. replace (k + S fuel)%nat with (S (k + fuel)) by lia. cbn [runCmdLoop].
  unfold mbind, eff_bind. destruct (cmd_step flag r w) as [w' [[r'|]|e|]] eqn:E; [|done..]. apply cmd_step_shorter in E. apply IH. lia.
Qed.
End Ends.

(** ** Who is let in

    [keeps] of the RTMP server: whatever a handler does, errors and panics
    included, an invariant of the session and its trace holds afterwards. *)

Section Auth.
Context {B : Bele} {B8 : Bele64} {Q : CircularQueue AvPacket} {M : Md5} {U : NetUrl} {H : HttpMsg} {En : ServerEnv}.
Context (Hmd5 : ∀ b, md5 b ≠ []).
Context (flag : bool) (conf : ServerAuthConfig) (Hon : AuthEnable conf = true).

(** A DESCRIBE request with a digest computed from the configured name and password. *)
Definition right_digest (rq : Request) : Prop :=
  rq_Method rq = MethodDescribe ∧ ∃ s, Get (rq_Headers rq) HeaderAuthorization = (str "Digest " ++ s) ∧
    getV s (pre (str "response")) =
      digest (UserName conf) (getV s (pre (str "realm"))) (PassWord conf) (getV s (pre (str "nonce"))) MethodDescribe (getV s (pre (str "uri"))).
Definition authorised (tr : list Event) : Prop := AuthMethod conf = 1 ∧ ∃ rq, EvRequest rq ∈ tr ∧ right_digest rq.
Definition is_player (e : Event) : Prop := match e with EvDescribe _ | EvPlay _ => True | _ => False end.

(** What the session remembers of credentials came with a DESCRIBE request. *)
Definition came_with (tr : list Event) (a : Auth) : Prop :=
  Response a = [] ∨ ∃ rq s, EvRequest rq ∈ tr ∧ rq_Method rq = MethodDescribe ∧
    Get (rq_Headers rq) HeaderAuthorization = (str "Digest " ++ s) ∧ Response a = getV s (pre (str "response")) ∧
    Realm a = getV s (pre (str "realm")) ∧ Nonce a = getV s (pre (str "nonce")) ∧ auth_Uri a = getV s (pre (str "uri")).

(** Each player is told of after such a request. *)
Definition let_in (tr : list Event) : Prop := ∀ l e l', tr = l ++ e :: l' → is_player e → authorised l.

Record secured (K : list Event → Prop) (w : World) : Prop := {
  sec_conf : authConf w.1 = conf;
  sec_typ : Typ (auth w.1) ≠ AuthTypeBasic;
  sec_auth : came_with w.2 (auth w.1);
  sec_sub : subSession w.1 ≠ None → authorised w.2;
  sec_player : let_in w.2;
  sec_more : K w.2;
}.

Lemma authorised_app tr l : authorised tr → authorised (tr ++ l).
Proof. intros (? & rq & ? & ?). split; [done|]. exists rq. split; [apply elem_of_app; by left|done]. Qed.
Lemma came_with_app tr l a : came_with tr a → came_with (tr ++ l) a.
Proof. intros [?|(rq & s & ? & ?)]; [by left|right]. exists rq, s. split; [apply elem_of_app; by left|done]. Qed.

Lemma let_in_app tr l : let_in tr → (∀ e, e ∈ l → is_player e → authorised tr) → let_in (tr ++ l).
Proof.
  intros Ht Hl l1 e l2 E Hp. apply app_eq_inv in E as [(k & -> & E)|(k & -> & ->)].
  - destruct k as [|x k]; cbn in E.
    + apply (Hl e) in Hp; [by rewrite app_nil_r in Hp|]. rewrite <- E. by left.
    + injection E as <- ->. by eapply Ht.
  - apply authorised_app, (Hl e); [|done]. apply elem_of_app. right. by left.
Qed.

Section Keeps.
Context (K : list Event → Prop) (K_app : ∀ tr l, K tr → K (tr ++ l)).
Abbreviation keeps := (Prelude.keeps (secured K)).

Lemma here_keeps : keeps here.
Proof. by intros w Hw. Qed.
Lemma past_keeps {A} (f : list Event → A) : keeps (past f).
Proof. by intros w Hw. Qed.

Lemma emit_keeps l : Forall (λ e, ¬ is_player e) l → keeps (emit l).
Proof.
  intros Hl [s tr] [H1 H2 H3 H4 H5 H6]. cbn [fst snd] in *. split; cbn [emit fst snd]; auto using came_with_app, authorised_app.
  apply let_in_app; [done|]. intros e He Hp. rewrite Forall_forall in Hl. by destruct (Hl e He).
Qed.

(** Changes that leave the credentials alone and make no player. *)
Lemma upd_keeps f : (∀ s, authConf (f s) = authConf s ∧ auth (f s) = auth s ∧ subSession (f s) = subSession s) → keeps (upd f).
Proof.
  intros Hf [s tr] [H1 H2 H3 H4 H5 H6]. cbn [fst snd upd] in *. destruct (Hf s) as (E1 & E2 & E3). split; cbn [fst snd]; rewrite ?E1, ?E2, ?E3; auto.
Qed.

Lemma fail_with_keeps e : keeps (fail_with e).
Proof. apply keeps_lift. Qed.

Ltac keep_with tac :=
  cbv zeta;
  repeat lazymatch goal with
    | |- Prelude.keeps _ (_ ≫= _) => apply keeps_bind; [|intros ?]
    | |- Prelude.keeps _ (lift _) => apply keeps_lift
    | |- Prelude.keeps _ (mret _) => apply keeps_ret
    | |- Prelude.keeps _ here => apply here_keeps
    | |- Prelude.keeps _ (past _) => apply past_keeps
    | |- Prelude.keeps _ (fail_with _) => apply fail_with_keeps
    | |- Prelude.keeps _ (emit _) => apply emit_keeps; repeat constructor; by intros []
    | |- Prelude.keeps _ (upd _) => apply upd_keeps; intros ?; by repeat split
    | |- _ => first [tac | case_match]
    end.

Lemma conn_Write_keeps b : keeps (conn_Write b).
Proof. unfold conn_Write. keep_with fail. Qed.
Lemma respond_keeps b : keeps (respond b).
Proof. unfold respond, writeWsFrameHeader. keep_with ltac:(apply conn_Write_keeps). Qed.

Lemma dropped_keeps m : keeps m → keeps (RtspIn.dropped m).
Proof. intros Hm w Hw. specialize (Hm w Hw). unfold RtspIn.dropped. by destruct (m w) as [w' [?|[]|]]. Qed.
Lemma WriteInterleavedPacket_keeps b ch : keeps (WriteInterleavedPacket b ch).
Proof. unfold WriteInterleavedPacket. keep_with ltac:(apply respond_keeps). Qed.

Lemma replay_keeps l : keeps (replay l).
Proof.
  induction l as [|e l IH]; cbn [replay]; [apply keeps_ret|].
  destruct e; (apply keeps_bind; [|intros _; exact IH]);
    first [apply dropped_keeps, WriteInterleavedPacket_keeps|apply emit_keeps; repeat constructor; by intros []].
Qed.

Lemma in_pub_keeps {A} (m : eff RtspIn.World A) : keeps (in_pub m).
Proof.
  unfold in_pub. keep_with ltac:(apply replay_keeps).
Qed.

Lemma sub_upd_keeps f : keeps (sub_upd f).
Proof.
  intros [s tr] Hw. unfold sub_upd, in_sub, mbind, eff_bind, here. cbn [fst snd].
  destruct (subSession s) as [p|] eqn:Es; [|done]. unfold lift. destruct (f p) as [p'|e|]; [|done..]. cbn.
  destruct Hw as [H1 H2 H3 H4 H5 H6]. cbn [fst snd] in *. split; cbn [fst snd set_sub authConf auth subSession]; auto.
  intros _. apply H4. by rewrite Es.
Qed.

Lemma succeeds_keeps {A} (m : eff World A) : keeps m → keeps (succeeds m).
Proof. intros Hm w Hw. specialize (Hm w Hw). unfold succeeds. by destruct (m w) as [w' [?|[]|]]. Qed.

Ltac quiet := keep_with ltac:(first [apply respond_keeps|apply conn_Write_keeps|apply in_pub_keeps|apply sub_upd_keeps]).

Lemma OnNewRtspPubSession_keeps : keeps OnNewRtspPubSession.
Proof. unfold OnNewRtspPubSession. quiet. Qed.
Lemma handleAnnounce_keeps rq : keeps (handleAnnounce rq).
Proof. unfold handleAnnounce. keep_with ltac:(first [apply conn_Write_keeps|apply in_pub_keeps|apply OnNewRtspPubSession_keeps]). Qed.
Lemma feedSdp_keeps b : keeps (feedSdp b).
Proof. unfold feedSdp. quiet. Qed.
Lemma handleSetup_keeps rq : keeps (handleSetup rq).
Proof. unfold handleSetup, setup_with. quiet. Qed.
Lemma handle_frame_keeps b ch : keeps (handle_frame flag b ch).
Proof. unfold handle_frame. quiet. Qed.

Lemma emit_player e w : secured K w → authorised w.2 → secured K (emit [e] w).1.
Proof.
  destruct w as [s tr]. intros [H1 H2 H3 H4 H5 H6] Ha. cbn [fst snd] in *.
  split; cbn [emit fst snd]; auto using came_with_app, authorised_app, let_in_app.
Qed.

Lemma handlePlay_keeps rq : keeps (handlePlay rq).
Proof.
  intros [s tr] Hw. unfold handlePlay. unfold mbind at 1, eff_bind, here. cbn [fst].
  destruct (subSession s) as [p|] eqn:Es; [|done].
  assert (Ha : authorised tr) by (apply (sec_sub _ _ Hw); cbn [fst]; by rewrite Es).
  set (f := λ p, Ret (RtspOut.with_stage RtspOut.SubSessionStageReadPlay p)).
  assert (E : sub_upd f (s, tr) = ((set_sub (Some (RtspOut.with_stage RtspOut.SubSessionStageReadPlay p)) s, tr), Ret tt)).
  { unfold sub_upd, in_sub, mbind, eff_bind, here. cbn [fst]. by rewrite Es. }
  pose proof (sub_upd_keeps f _ Hw) as H1. rewrite E in H1. rewrite (eff_bind_Ret _ _ _ _ _ E).
  rewrite (eff_bind_Ret (emit _) _ _ (set_sub (Some (RtspOut.with_stage RtspOut.SubSessionStageReadPlay p)) s, tr ++ [EvPlay (RtspOut.urlCtx p)]) tt) by done.
  apply (emit_player (EvPlay (RtspOut.urlCtx p))) in H1; [|done].
  assert (Hk : keeps (e ← past env_play; _ ← fail_with e; date ← past env_date; respond (PackResponsePlay date (cseq_of rq)))) by quiet.
  by apply Hk in H1.
Qed.

Lemma describe_keeps rq : (∀ tr, K tr → authorised tr) → keeps (describe rq).
Proof.
  intros HK. unfold describe.
  apply keeps_bind; [apply keeps_lift|]. intros u. apply keeps_bind; [apply upd_keeps; intros ?; by repeat split|]. intros _.
  apply keeps_bind; [apply past_keeps|]. intros stat. apply keeps_bind.
  { intros [s tr] [H1 H2 H3 H4 H5 H6]. cbn [fst snd upd] in *. split; cbn [fst snd set_sub authConf auth subSession]; auto. }
  intros _. apply keeps_bind; [intros w Hw; apply emit_player; [done|apply HK, Hw]|]. intros _.
  keep_with ltac:(apply feedSdp_keeps).
Qed.
End Keeps.

Abbreviation trivial := (λ _ : list Event, True).

Lemma secured_weaken K w : secured K w → secured trivial w.
Proof. by intros [H1 H2 H3 H4 H5 _]; split. Qed.

Lemma Digest_prefix authorization : HasPrefix authorization (str "Digest ") = true →
  authorization = (str "Digest ") ++ TrimPrefix authorization (str "Digest ").
Proof. intros Hp. unfold TrimPrefix. rewrite Hp. apply HasPrefix_inv in Hp as [t ->]. done. Qed.

Lemma ParseAuthorization_came tr a rq : EvRequest rq ∈ tr → rq_Method rq = MethodDescribe → came_with tr a →
  came_with tr (ParseAuthorization a (Get (rq_Headers rq) HeaderAuthorization)).1.
Proof.
  intros Hin Hm Ha. unfold ParseAuthorization. destruct (HasPrefix _ (str "Basic ")).
  { destruct (b64_DecodeString _) as [authInfo [e|]]; [exact Ha|]. repeat case_match; exact Ha. }
  destruct (HasPrefix _ (str "Digest ")) eqn:Ed; [|exact Ha].
  right. exists rq, (TrimPrefix (Get (rq_Headers rq) HeaderAuthorization) (str "Digest ")). split; [done|]. split; [done|].
  split; [by apply Digest_prefix|]. done.
Qed.

Lemma handleAuthorized_spec rq w : EvRequest rq ∈ w.2 → rq_Method rq = MethodDescribe → secured trivial w →
  secured trivial (handleAuthorized rq w).1 ∧ ((handleAuthorized rq w).2 = Ret [] → authorised (handleAuthorized rq w).1.2).
Proof.
  destruct w as [s tr]. cbn [snd]. intros Hin Hm [H1 H2 H3 H4 H5 _]. cbn [fst snd] in *. unfold handleAuthorized, mbind, eff_bind, here, upd.
  cbn [fst]. rewrite H1. destruct (bool_decide_reflect (Get (rq_Headers rq) HeaderAuthorization = [])) as [|Hne]; cbn [negb].
  { destruct (_ || _); (split; [by split|]); intros E; [by injection E|done]. }
  set (a := (ParseAuthorization _ _).1). pose proof (ParseAuthorization_came tr (auth s) rq Hin Hm H3) as Hc. fold a in Hc.
  assert (Ht : Typ a ≠ AuthTypeBasic) by by apply basic_never.
  assert (Hs : secured trivial (set_auth a s, tr)) by by split.
  rewrite (bool_decide_eq_false_2 (Typ a = AuthTypeBasic)) by done. cbn [andb orb].
  destruct (bool_decide_reflect (Typ a = AuthTypeDigest)) as [Ed|]; cbn [andb]; [|by split].
  destruct (Z.eqb_spec (AuthMethod conf) 1) as [E1|]; cbn [andb]; [|by split].
  destruct (CheckAuthorization _ _ _ _) eqn:Ec; [|by split]. split; [done|]. intros _. split; [done|].
  unfold CheckAuthorization in Ec. rewrite (bool_decide_eq_false_2 (Typ a = AuthTypeBasic)), (bool_decide_eq_true_2 (Typ a = _)) in Ec by done.
  apply bool_decide_eq_true_1 in Ec. rewrite Hm in Ec. destruct Hc as [Hr|(rq' & s' & C1 & C2 & C3 & C4 & C5 & C6 & C7)].
  { rewrite Hr in Ec. unfold digest in Ec. cbv zeta in Ec. symmetry in Ec. by apply Hmd5 in Ec. }
  exists rq'. split; [done|]. split; [done|]. exists s'. split; [done|]. by rewrite <- C4, <- C5, <- C6, <- C7.
Qed.

Abbreviation keeps := (Prelude.keeps (secured trivial)).
#[local] Definition trivial_app : ∀ tr l : list Event, trivial tr → trivial (tr ++ l) := λ _ _ _, I.

Lemma handleDescribe_spec rq w : EvRequest rq ∈ w.2 → rq_Method rq = MethodDescribe → secured trivial w →
  secured trivial (handleDescribe rq w).1.
Proof.
  intros Hin Hm Hw. unfold handleDescribe. unfold mbind at 1, eff_bind, here. rewrite (sec_conf _ _ Hw), Hon.
  destruct (handleAuthorized_spec rq w Hin Hm Hw) as [H1 H2]. unfold mbind at 1, eff_bind.
  destruct (handleAuthorized rq w) as [w' [resp|e|]]; cbn [fst snd] in *; [|done..].
  destruct (bool_decide_reflect (resp = [])) as [->|]; cbn [negb]; [|by apply (respond_keeps trivial trivial_app)].
  apply (secured_weaken authorised). apply (describe_keeps authorised authorised_app); [done|].
  specialize (H2 eq_refl). by destruct H1; split.
Qed.

Lemma dispatch_keeps rq : keeps (dispatch rq).
Proof.
  intros w Hw. unfold dispatch. rewrite (eff_bind_Ret (emit _) _ w (w.1, w.2 ++ [EvRequest rq]) tt) by by destruct w.
  assert (Hw' : secured trivial (w.1, w.2 ++ [EvRequest rq])).
  { destruct w as [s tr]. apply (emit_keeps trivial trivial_app [EvRequest rq]) in Hw; [done|]. by repeat constructor; intros []. }
  assert (Hin : EvRequest rq ∈ (w.1, w.2 ++ [EvRequest rq]).2) by (apply elem_of_app; right; by apply list_elem_of_singleton).
  revert Hw' Hin. generalize (w.1, w.2 ++ [EvRequest rq]). clear w Hw. intros w Hw Hin. cbv zeta.
  repeat case_bool_decide.
  - by apply succeeds_keeps; [apply respond_keeps|].
  - by apply succeeds_keeps; [apply handleAnnounce_keeps|].
  - pose proof (handleDescribe_spec rq w Hin ltac:(done) Hw) as Hd. unfold succeeds.
    by destruct (handleDescribe rq w) as [w' [?|[]|]].
  - by apply succeeds_keeps; [apply handleSetup_keeps|].
  - by apply succeeds_keeps; [apply conn_Write_keeps|].
  - by apply succeeds_keeps; [apply handlePlay_keeps|].
  - revert w Hw Hin. intros w Hw _. revert w Hw. apply keeps_bind; [|intros; apply keeps_ret].
    by apply succeeds_keeps, respond_keeps.
  - done.
Qed.

Lemma cmd_step_keeps r : keeps (cmd_step flag r).
Proof.
  unfold cmd_step. apply keeps_bind; [apply here_keeps|]. intros s. cbv zeta.
  repeat first [apply keeps_lift | apply keeps_ret | apply dispatch_keeps | apply (handle_frame_keeps trivial trivial_app)
    | apply keeps_bind; [|intros ?] | case_match].
Qed.

Lemma runCmdLoop_keeps fuel : ∀ r, keeps (runCmdLoop flag fuel r).
Proof.
  induction fuel as [|fuel IH]; intros r; cbn [runCmdLoop]; [apply keeps_lift|].
  apply keeps_bind; [apply cmd_step_keeps|]. intros [r'|]; [apply IH|]. apply emit_keeps; [apply trivial_app|]. by repeat constructor; intros [].
Qed.

Lemma emit_quiet l : Forall (λ e, ¬ is_player e) l → keeps (emit l).
Proof. apply emit_keeps, trivial_app. Qed.

Lemma dispose_sub_keeps : keeps dispose_sub.
Proof.
  intros [s tr] Hw. unfold dispose_sub. unfold mbind at 1, eff_bind, here. cbn [fst]. destruct (subSession s) as [p|] eqn:Es; [|done].
  destruct (RtspOut.dispose _) as [[b ev] r]. unfold mbind, eff_bind, upd. apply emit_quiet.
  - apply Forall_app. split; [|by repeat constructor; intros []]. apply Forall_fmap, Forall_true. by intros e [].
  - destruct Hw as [H1 H2 H3 H4 H5 H6]. cbn [fst snd] in *. split; cbn [fst snd set_sub authConf auth subSession]; auto.
    intros _. apply H4. by rewrite Es.
Qed.

Lemma handleTcpConnect_keeps fuel r : keeps (handleTcpConnect flag fuel r).
Proof.
  unfold handleTcpConnect, dispose_pub.
  apply keeps_bind; [apply emit_quiet; repeat constructor; by intros []|]. intros _. apply keeps_bind; [apply runCmdLoop_keeps|]. intros _.
  apply keeps_bind; [apply here_keeps|]. intros s. apply keeps_bind; [|intros _; apply emit_quiet; repeat constructor; by intros []].
  repeat case_match; repeat first [apply keeps_ret | apply (in_pub_keeps trivial trivial_app) | apply dispose_sub_keeps
    | apply emit_quiet; repeat constructor; by intros [] | apply keeps_bind; [|intros ?]].
Qed.
End Auth.

(** C28: with authentication on (digests are not empty), whatever bytes come on a connection (plain or in
    WebSocket frames), whatever the observer answers and wherever a handler fails or
    panics: before the server's observer is told of a player, or that one plays, the
    digest scheme is configured and a DESCRIBE request was read on this connection that
    carried the digest of the configured name and password with the realm, the nonce and the
    URI that it names.  With any other scheme no player ever comes in. *)
Theorem rtsp_players_authenticated {B : Bele} {B8 : Bele64} {Q : CircularQueue AvPacket} {M : Md5} {U : NetUrl} {H : HttpMsg}
    {En : ServerEnv} flag conf ws fuel r l e l' :
  (∀ b, md5 b ≠ []) → AuthEnable conf = true →
  (handleTcpConnect flag fuel r (NewServerCommandSession conf ws, [])).1.2 = l ++ e :: l' → is_player e →
  AuthMethod conf = 1 ∧ ∃ rq, EvRequest rq ∈ l ∧ right_digest conf rq.
Proof.
  intros Hmd5 Hon He Hp.
  assert (H0 : secured conf (λ _, True) (NewServerCommandSession conf ws, [])).
  { split; cbn; try done; [by left|]. by intros [] ? ?. }
  apply (handleTcpConnect_keeps Hmd5 flag conf Hon fuel r) in H0. by apply (sec_player _ _ _ H0 _ _ _ He).
Qed.

(** ** A publisher's dialogue *)

Section Publish.
Context {B : Bele} {HB : BeleLaws B} {B8 : Bele64} {Q : CircularQueue AvPacket} {M : Md5} {U : NetUrl} {H : HttpMsg} {HH : HttpMsgLaws H}.
Context {En : ServerEnv}.
Context (flag : bool) (Hwrite : ∀ tr, env_write tr = None) (Hpub : ∀ tr, env_pub tr = None).

(** What a request needs to be read as it was written. *)
Definition rq_ok (uri : list Z) (hs : list (list Z * list Z)) (body : list Z) : Prop :=
  word uri ∧ Forall field_ok hs ∧ length_ok hs body.

Lemma respond_plain b s tr : isWebSocket s = false → respond b (s, tr) = ((s, tr ++ [EvWrite b]), Ret tt).
Proof.
  intros Hs. unfold respond, mbind, eff_bind, here. cbn [fst]. rewrite Hs. unfold conn_Write, mbind, eff_bind, emit, past. cbn.
  by rewrite Hwrite.
Qed.
Lemma conn_Write_plain b s tr : conn_Write b (s, tr) = ((s, tr ++ [EvWrite b]), Ret tt).
Proof. unfold conn_Write, mbind, eff_bind, emit, past. cbn. by rewrite Hwrite. Qed.

(** A request of one of the methods is read and dispatched. *)
Lemma request_step m uri hs body rest s tr : word m → head m ≠ Some Interleaved → rq_ok uri hs body → isWebSocket s = false →
  ∃ rq, rq_Method rq = m ∧ rq_Uri rq = uri ∧ rq_Body rq = body ∧ (∀ k, Get (rq_Headers rq) k = Get hs k) ∧
    cmd_step flag (PackRequest m uri hs body ++ rest) (s, tr) = (ok ← dispatch rq; mret (if ok : bool then Some rest else None)) (s, tr).
Proof.
  intros Hm Hh (Hu & Hf & Hl) Hs. destruct (read_request m uri hs body rest Hm Hu Hf Hl) as (rq & E & E1 & E2 & E3 & E4).
  exists rq. split; [done|]. split; [done|]. split; [done|]. split; [intros k; unfold Get; by rewrite E4|].
  unfold cmd_step. unfold mbind at 1, eff_bind, here. cbn [fst]. rewrite Hs. cbv zeta.
  assert (Et : PackRequest m uri hs body ++ rest = msg_text (m ++ str " " ++ uri ++ str " RTSP/1.0") hs body ++ rest).
  { unfold PackRequest, msg_text. by rewrite <- !app_assoc. }
  assert (Ei : readInterleaved (PackRequest m uri hs body ++ rest) = Ret (false, [], 0, PackRequest m uri hs body ++ rest)).
  { destruct m as [|x m]; [by destruct Hm|]. unfold PackRequest. cbn [app readInterleaved].
    rewrite (proj2 (Z.eqb_neq x Interleaved)); [done|]. intros ->. by apply Hh. }
  rewrite Ei, Et, E. done.
Qed.

(** One turn of the loop for a request that is answered. *)
Lemma loop_turn m uri hs body rest s tr : word m → head m ≠ Some Interleaved → rq_ok uri hs body → isWebSocket s = false →
  ∃ rq, rq_Method rq = m ∧ rq_Uri rq = uri ∧ rq_Body rq = body ∧ (∀ k, Get (rq_Headers rq) k = Get hs k) ∧
    ∀ fuel w, dispatch rq (s, tr) = (w, Ret true) →
      runCmdLoop flag (S fuel) (PackRequest m uri hs body ++ rest) (s, tr) = runCmdLoop flag fuel rest w.
Proof.
  intros Hm Hh Hr Hs. destruct (request_step m uri hs body rest s tr Hm Hh Hr Hs) as (rq & E1 & E2 & E3 & E4 & E5).
  exists rq. do 4 (split; [done|]). intros fuel w Ed. cbn [runCmdLoop].
  rewrite (eff_bind_Ret _ _ (s, tr) w (Some rest)); [done|]. rewrite E5. by rewrite (eff_bind_Ret _ _ _ _ _ Ed).
Qed.

Lemma options_turn rq s tr : rq_Method rq = MethodOptions → isWebSocket s = false →
  dispatch rq (s, tr) = ((s, tr ++ [EvRequest rq; EvWrite (PackResponseOptions LalRtspOptionsResponseServer (cseq_of rq))]), Ret true).
Proof.
  intros Hm Hs. unfold dispatch. rewrite (eff_bind_Ret (emit _) _ _ (s, tr ++ [EvRequest rq]) tt) by done. cbv zeta. rewrite Hm.
  rewrite (bool_decide_eq_true_2 (MethodOptions = MethodOptions)) by done. unfold succeeds, handleOptions.
  by rewrite respond_plain, <- app_assoc by done.
Qed.

Ltac at_method Hm := unfold dispatch; rewrite (eff_bind_Ret (emit _) _ _ (_, _) tt) by done; cbv zeta; rewrite Hm;
  repeat (rewrite (bool_decide_eq_false_2 (_ = _)) by done); rewrite (bool_decide_eq_true_2 (_ = _)) by done.

Lemma record_turn rq s tr : rq_Method rq = MethodRecord →
  dispatch rq (s, tr) = ((s, tr ++ [EvRequest rq; EvWrite (PackResponseRecord (cseq_of rq))]), Ret true).
Proof. intros Hm. at_method Hm. unfold succeeds, handleRecord. by rewrite conn_Write_plain, <- app_assoc. Qed.

(** A session made by ANNOUNCE: that of RtspIn, whose observer comes after the description. *)
Lemma announced stat c : ∃ t0 t1, RtspIn.InitWithSdp c (RtspIn.NewBaseInSession stat, []) = ((t0, []), Ret tt) ∧
  RtspIn.InitWithSdp c (RtspIn.NewBaseInSessionWithObserver stat, []) = ((t1, [RtspIn.EvSdp c]), Ret tt) ∧ t1 = RtspIn.set_observer t0.
Proof.
  pose proof (RtspIn.made_some RtspIn.Audio c) as Ma. pose proof (RtspIn.made_some RtspIn.Video c) as Mv.
  unfold RtspIn.InitWithSdp, RtspIn.make_unpacker. cbn [RtspIn.made] in *. cbv beta iota in Ma, Mv.
  destruct (IsAudioUnpackable c); destruct (IsVideoUnpackable c); cbn [negb];
    repeat match goal with H : true = true → _ |- _ => let x := fresh "x" in let Ex := fresh "Ex" in destruct (H eq_refl) as [x Ex]; clear H; rewrite Ex end;
    eexists _, _; (split; [reflexivity|]); (split; [reflexivity|]); done.
Qed.

Lemma announce_turn rq u c s tr : rq_Method rq = MethodAnnounce → ParseRtspUrl (rq_Uri rq) = Ret u →
  ParseSdp2LogicContext (rq_Body rq) = Ret c →
  ∃ stat t1, RtspIn.InitWithSdp c (RtspIn.NewBaseInSessionWithObserver stat, []) = ((t1, [RtspIn.EvSdp c]), Ret tt) ∧
  dispatch rq (s, tr) = ((set_pub (Some (mkPub u t1)) s, tr ++ [EvRequest rq; EvNewPub u; EvWrite (PackResponseAnnounce (cseq_of rq))]), Ret true).
Proof.
  intros Hm Eu Ec. set (stat := env_stat (tr ++ [EvRequest rq])). destruct (announced stat c) as (t0 & t1 & E0 & E1 & ->).
  exists stat, (RtspIn.set_observer t0). split; [done|]. at_method Hm. unfold succeeds, handleAnnounce. rewrite Eu, eff_bind_lift, Ec, eff_bind_lift.
  unfold mbind at 1, eff_bind, past. cbn [snd]. fold stat.
  rewrite (eff_bind_Ret (upd _) _ _ (set_pub (Some (mkPub u (RtspIn.NewBaseInSession stat))) s, tr ++ [EvRequest rq]) tt) by done.
  rewrite (eff_bind_Ret (in_pub _) _ _ (set_pub (Some (mkPub u t0)) s, tr ++ [EvRequest rq]) tt).
  2:{ unfold in_pub, mbind, eff_bind, here. cbn [fst set_pub pubSession baseInSession]. by rewrite E0. }
  rewrite (eff_bind_Ret OnNewRtspPubSession _ _ (set_pub (Some (mkPub u (RtspIn.set_observer t0))) s, tr ++ [EvRequest rq; EvNewPub u]) tt).
  2:{ unfold OnNewRtspPubSession, mbind, eff_bind, here, emit, past, in_pub, fail_with. cbn. rewrite Hpub. cbn. by rewrite <- app_assoc. }
  by rewrite conn_Write_plain, <- app_assoc.
Qed.

Lemma Contains_app p sub t : Contains (p ++ sub ++ t) sub = true.
Proof.
  unfold Contains. induction p as [|x p IH].
  - cbn [app]. assert (Hp : HasPrefix (sub ++ t) sub = true) by apply HasPrefix_app. destruct (sub ++ t) as [|y l]; cbn [Cut]; by rewrite Hp.
  - cbn [app Cut]. destruct (HasPrefix _ sub); [done|]. by destruct (Cut sub (p ++ sub ++ t)) as [[? ?]|].
Qed.

Lemma setup_turn rq a b s tr p t' : rq_Method rq = MethodSetup → isWebSocket s = false → pubSession s = Some p →
  Get (rq_Headers rq) HeaderTransport = HeaderTransportClientRecordTcp a b → ports_ok (a, b) →
  RtspIn.SetupWithChannel (rq_Uri rq) a b (baseInSession p, []) = ((t', []), Ret tt) →
  ∃ date, dispatch rq (s, tr) = ((set_pub (Some (mkPub (pub_urlCtx p) t')) s,
    tr ++ [EvRequest rq; EvWrite (PackResponseSetup date (cseq_of rq) (HeaderTransportClientRecordTcp a b))]), Ret true).
Proof.
  intros Hm Hs Ep Et Hab E. exists (env_date (tr ++ [EvRequest rq])). at_method Hm. unfold succeeds, handleSetup. rewrite Et.
  assert (Contains (HeaderTransportClientRecordTcp a b) TransportFieldInterleaved = true) as ->.
  { unfold HeaderTransportClientRecordTcp. apply (Contains_app (str "RTP/AVP/TCP;unicast;") (str "interleaved")). }
  destruct (rtsp_transport_roundtrip (a, b) (a, b) Hab Hab) as (_ & Er & _). cbn [fst snd] in Er. rewrite Er, eff_bind_lift. cbv beta iota.
  rewrite (eff_bind_Ret (setup_with _ _ _ _) _ _ (set_pub (Some (mkPub (pub_urlCtx p) t')) s, tr ++ [EvRequest rq]) tt).
  2:{ unfold setup_with, in_pub, mbind, eff_bind, here. cbn [fst]. rewrite Ep. cbn [fst]. rewrite Ep, E. done. }
  unfold mbind, eff_bind, past. cbn [snd]. by rewrite respond_plain, <- app_assoc.
Qed.

(** What was written, announced, and told to the observer of the publisher. *)
Definition written (tr : list Event) : list (list Z) := omap (λ e, match e with EvWrite b => Some b | _ => None end) tr.
Definition announcedPubs (tr : list Event) : list UrlContext := omap (λ e, match e with EvNewPub u => Some u | _ => None end) tr.
Definition seen (tr : list Event) : list RtspIn.Event := omap (λ e, match e with EvIn e => Some e | _ => None end) tr.

(** A SETUP request for channels: its URI, its headers and the channels. *)
Definition Setup : Type := list Z * list (list Z * list Z) * (Z * Z).
Definition setup_ok (c : LogicContext) (x : Setup) : Prop :=
  rq_ok x.1.1 x.1.2 [] ∧ Get x.1.2 HeaderTransport = HeaderTransportClientRecordTcp x.2.1 x.2.2 ∧ ports_ok x.2 ∧
  IsAudioUri c x.1.1 || IsVideoUri c x.1.1 = true.
Definition setup_request (x : Setup) : list Z := PackRequest MethodSetup x.1.1 x.1.2 [].
Definition setup_answer (x : Setup) (b : list Z) : Prop :=
  ∃ date, b = PackResponseSetup date (Get x.1.2 HeaderCSeq) (HeaderTransportClientRecordTcp x.2.1 x.2.2).
Definition setup_channels (x : Setup) : list Z * (Z * Z) := (x.1.1, x.2).

Lemma SetupWithChannel_run uri a b t : IsAudioUri (RtspIn.sdpCtx t) uri || IsVideoUri (RtspIn.sdpCtx t) uri = true →
  ∃ t', (∀ ev : list RtspIn.Event, RtspIn.SetupWithChannel uri a b (t, ev) = ((t', ev), Ret tt)) ∧ RtspIn.sdpCtx t' = RtspIn.sdpCtx t.
Proof.
  intros Hu. unfold RtspIn.SetupWithChannel, RtspIn.setup, mbind, eff_bind, RtspIn.here. cbn [fst].
  destruct (IsAudioUri _ uri); [|destruct (IsVideoUri _ uri); [|done]]; eexists; split; intros; reflexivity.
Qed.

Lemma written_app l k : written (l ++ k) = written l ++ written k.
Proof. apply omap_app. Qed.
Lemma announcedPubs_app l k : announcedPubs (l ++ k) = announcedPubs l ++ announcedPubs k.
Proof. apply omap_app. Qed.
Lemma seen_app l k : seen (l ++ k) = seen l ++ seen k.
Proof. apply omap_app. Qed.

Lemma setups_run c xs rest : Forall (setup_ok c) xs → ∀ s tr u t, isWebSocket s = false → pubSession s = Some (mkPub u t) → RtspIn.sdpCtx t = c →
  ∃ t' l, (∀ ev, RtspIn.setup_all (setup_channels <$> xs) (t, ev) = ((t', ev), Ret tt)) ∧
    Forall2 setup_answer xs (written l) ∧ announcedPubs l = [] ∧ seen l = [] ∧
    ∀ fuel, runCmdLoop flag (length xs + fuel) (mjoin (setup_request <$> xs) ++ rest) (s, tr) =
      runCmdLoop flag fuel rest (set_pub (Some (mkPub u t')) s, tr ++ l).
Proof.
  induction 1 as [|[[uri hs] [a b]] xs (Hr & Ht & Hab & Hu) _ IH]; intros s tr u t Hs Ep Ec.
  { exists t, []. split; [done|]. split; [constructor|]. split; [done|]. split; [done|]. intros fuel. rewrite app_nil_r.
    by destruct s; cbn in *; subst. }
  cbn [fst snd] in *. rewrite <- Ec in Hu. destruct (SetupWithChannel_run uri a b t Hu) as (t1 & E1 & Ec1).
  destruct (loop_turn MethodSetup uri hs [] (mjoin (setup_request <$> xs) ++ rest) s tr) as (rq & R1 & R2 & R3 & R4 & Rl);
    [by apply (bool_decide_unpack _); vm_compute|done|done|done|].
  destruct (setup_turn rq a b s tr (mkPub u t) t1 R1 Hs Ep) as (date & Ed); [by rewrite R4|done|by rewrite R2|]. cbn [pub_urlCtx] in Ed.
  destruct (IH (set_pub (Some (mkPub u t1)) s) (tr ++ [EvRequest rq; EvWrite (PackResponseSetup date (cseq_of rq) (HeaderTransportClientRecordTcp a b))]) u t1)
    as (t' & l & A1 & A2 & A3 & A4 & A5); [done|done|congruence|].
  exists t', ([EvRequest rq; EvWrite (PackResponseSetup date (cseq_of rq) (HeaderTransportClientRecordTcp a b))] ++ l). split.
  { intros ev. cbn [fmap list_fmap setup_channels RtspIn.setup_all fst snd].
    rewrite (eff_bind_Ret _ _ _ (t1, ev) tt); [apply A1|]. unfold RtspIn.dropped. by rewrite E1. }
  split. { rewrite written_app. apply Forall2_cons. split; [|done]. exists date. by rewrite <- R4. }
  split; [by rewrite announcedPubs_app, A3|]. split; [by rewrite seen_app, A4|]. intros fuel. cbn [length fmap list_fmap mjoin list_join plus].
  rewrite <- app_assoc. unfold setup_request at 1. cbn [fst snd]. rewrite (Rl _ _ Ed), A5, app_assoc. done.
Qed.

(** ** The packets of a publisher *)

Lemma replay_run evs : ∀ s tr, isWebSocket s = false →
  ∃ l, replay evs (s, tr) = ((s, tr ++ l), Ret tt) ∧ announcedPubs l = [] ∧ RtspIn.rtps (seen l) = RtspIn.rtps evs ∧ RtspIn.avs (seen l) = RtspIn.avs evs.
Proof.
  induction evs as [|e evs IH]; intros s tr Hs; [by exists []; rewrite app_nil_r|].
  assert (Hone : ∀ m k, replay (e :: evs) = (_ ← m; replay evs) → m (s, tr) = ((s, tr ++ k), Ret tt) → announcedPubs k = [] →
    RtspIn.rtps (seen k) = RtspIn.rtps [e] → RtspIn.avs (seen k) = RtspIn.avs [e] →
    ∃ l, replay (e :: evs) (s, tr) = ((s, tr ++ l), Ret tt) ∧ announcedPubs l = [] ∧
      RtspIn.rtps (seen l) = RtspIn.rtps (e :: evs) ∧ RtspIn.avs (seen l) = RtspIn.avs (e :: evs)).
  { intros m k Em E K1 K2 K3. destruct (IH s (tr ++ k) Hs) as (l & El & L1 & L2 & L3). exists (k ++ l).
    rewrite Em, (eff_bind_Ret _ _ _ _ _ E), El, app_assoc, announcedPubs_app, seen_app, K1, L1, RtspIn.rtps_app, RtspIn.avs_app, K2, K3, L2, L3.
    change (e :: evs) with ([e] ++ evs). by rewrite RtspIn.rtps_app, RtspIn.avs_app. }
  destruct e as [x|x|x|b ch|x b|x b a|x]; try by eapply (Hone _ [EvIn _]); reflexivity.
  eapply (Hone _ [EvWrite _]); try reflexivity.
  unfold RtspIn.dropped, WriteInterleavedPacket. rewrite (packInterleaved_run HB), eff_bind_lift. by rewrite respond_plain.
Qed.

(** A frame of the command connection. *)
Definition framed (x : list Z * Z) : list Z := match packInterleaved x.2 x.1 with Ret b => b | _ => [] end.
Definition frame_ok (x : list Z * Z) : Prop := is_bytes x.1 ∧ len x.1 ≤ 65507 ∧ 0 ≤ x.2 ≤ 255.
Definition frame_input (x : list Z * Z) : RtspIn.Input := RtspIn.InFrame x.1 x.2.

Lemma framed_read x rest : frame_ok x → readInterleaved (framed x ++ rest) = Ret (true, x.1, x.2, rest).
Proof.
  intros (_ & Hl & Hc). unfold framed. rewrite (packInterleaved_run HB), Z.gtb_ltb, (proj2 (Z.ltb_ge x.2 0)), (proj2 (Z.ltb_ge 255 x.2)) by lia.
  cbn [orb]. unfold u16. rewrite Z.mod_small by lia. rewrite <- app_assoc, (readInterleaved_run HB) by lia. by rewrite (proj2 (Z.leb_le _ _) Hl).
Qed.

Section Frames.
Context (c : LogicContext) (ra rv apt vpt : Z).
Abbreviation playing := (RtspIn.playing c ra rv apt vpt).

Lemma frame_turn x rest un s tr u t : frame_ok x → isWebSocket s = false → pubSession s = Some (mkPub u t) → playing un t →
  let l := omap (RtspIn.accepted c) (omap (RtspIn.datagram ra rv) [frame_input x]) in
  ∃ t' k, playing (RtspIn.take_all un l).1 t' ∧ announcedPubs k = [] ∧
    RtspIn.rtps (seen k) = snd <$> l ∧ RtspIn.avs (seen k) = (RtspIn.take_all un l).2 ∧
    ∀ fuel, runCmdLoop flag (S fuel) (framed x ++ rest) (s, tr) = runCmdLoop flag fuel rest (set_pub (Some (mkPub u t')) s, tr ++ k).
Proof.
  intros Hx Hs Ep Ht l. destruct (RtspIn.handle_run flag c ra rv apt vpt (frame_input x) un t [] Ht ltac:(apply Hx)) as (t' & evs & E & Ht' & E1 & E2).
  destruct (replay_run evs (set_pub (Some (mkPub u t')) s) tr Hs) as (k & Ek & K1 & K2 & K3). exists t', k.
  split; [done|]. split; [done|]. split; [by rewrite K2|]. split; [by rewrite K3|]. intros fuel. cbn [runCmdLoop].
  rewrite (eff_bind_Ret _ _ _ (set_pub (Some (mkPub u t')) s, tr ++ k) (Some rest)); [done|].
  unfold cmd_step. unfold mbind at 1, eff_bind, here. cbn [fst]. rewrite Hs, framed_read by done.
  rewrite (eff_bind_Ret _ _ _ (set_pub (Some (mkPub u t')) s, tr ++ k) true); [done|].
  unfold handle_frame. unfold mbind at 1, eff_bind, here. cbn [fst]. rewrite Ep.
  rewrite (eff_bind_Ret _ _ _ (set_pub (Some (mkPub u t')) s, tr ++ k) tt); [done|].
  unfold in_pub. unfold mbind at 1, eff_bind, here. cbn [fst]. rewrite Ep. cbn [baseInSession pub_urlCtx].
  cbn [frame_input RtspIn.handle app] in E. rewrite E. rewrite (eff_bind_Ret (upd _) _ _ (set_pub (Some (mkPub u t')) s, tr) tt) by done.
  by rewrite (eff_bind_Ret _ _ _ _ _ Ek).
Qed.

Lemma frames_run xs rest : Forall frame_ok xs → ∀ un s tr u t, isWebSocket s = false → pubSession s = Some (mkPub u t) → playing un t →
  let l := omap (RtspIn.accepted c) (omap (RtspIn.datagram ra rv) (frame_input <$> xs)) in
  ∃ t' k, announcedPubs k = [] ∧ RtspIn.rtps (seen k) = snd <$> l ∧ RtspIn.avs (seen k) = (RtspIn.take_all un l).2 ∧
    ∀ fuel, runCmdLoop flag (length xs + fuel) (mjoin (framed <$> xs) ++ rest) (s, tr) =
      runCmdLoop flag fuel rest (set_pub (Some (mkPub u t')) s, tr ++ k).
Proof.
  induction 1 as [|x xs Hx _ IH]; intros un s tr u t Hs Ep Ht.
  { exists t, []. repeat (split; [done|]). intros fuel. rewrite app_nil_r. by destruct s; cbn in *; subst. }
  destruct (frame_turn x (mjoin (framed <$> xs) ++ rest) un s tr u t Hx Hs Ep Ht) as (t1 & k1 & Ht1 & A1 & A2 & A3 & A4).
  destruct (IH _ (set_pub (Some (mkPub u t1)) s) (tr ++ k1) u t1 Hs eq_refl Ht1) as (t' & k & B1 & B2 & B3 & B4).
  exists t', (k1 ++ k). rewrite announcedPubs_app, seen_app, RtspIn.rtps_app, RtspIn.avs_app, A1, A2, A3, B1, B2, B3.
  split; [done|]. change (frame_input <$> x :: xs) with ([frame_input x] ++ (frame_input <$> xs)).
  rewrite !omap_app, RtspIn.take_all_app, fmap_app. split; [done|]. split; [done|]. intros fuel. cbn [length fmap list_fmap mjoin list_join plus].
  rewrite <- app_assoc, A4. specialize (B4 fuel). cbn [plus] in B4. rewrite B4, app_assoc. done.
Qed.
End Frames.
End Publish.

Section Dialogue.
Context {B : Bele} {HB : BeleLaws B} {B8 : Bele64} {Q : CircularQueue AvPacket} {M : Md5} {U : NetUrl} {H : HttpMsg} {HH : HttpMsgLaws H}.
Context {En : ServerEnv}.
Context (flag : bool) (Hwrite : ∀ tr, env_write tr = None) (Hpub : ∀ tr, env_pub tr = None).

Lemma closings_replay l s tr : Forall (λ e, ∃ x, e = RtspIn.EvClose x) l → replay l (s, tr) = ((s, tr ++ (EvIn <$> l)), Ret tt).
Proof.
  intros Hl. revert tr. induction Hl as [|e l (x & ->) _ IH]; intros tr; cbn [replay fmap list_fmap]; [by rewrite app_nil_r|].
  rewrite (eff_bind_Ret (emit _) _ _ (s, tr ++ [EvIn (RtspIn.EvClose x)]) tt) by done. by rewrite IH, <- app_assoc.
Qed.

Lemma Dispose_run t : ∃ t' l, RtspIn.Dispose (t, []) = ((t', l), Ret tt) ∧ Forall (λ e, ∃ x, e = RtspIn.EvClose x) l.
Proof.
  unfold RtspIn.Dispose, RtspIn.dispose, mbind, eff_bind, RtspIn.here, RtspIn.emit, RtspIn.upd. cbn [fst].
  destruct (RtspIn.disposed t); [by exists t, []|]. eexists _, _. split; [reflexivity|]. cbn [app].
  rewrite !Forall_app. unfold RtspIn.on_conn. repeat split; case_match; repeat constructor; eauto.
Qed.

(** The connection of a publisher ends. *)
Lemma publisher_leaves s tr p fuel : isWebSocket s = false → pubSession s = Some p → ∃ s' l,
  (_ ← runCmdLoop flag (S fuel) [];
   s ← here;
   _ ← (match pubSession s, subSession s with
       | Some p, _ => _ ← emit [EvDelPub (pub_urlCtx p)]; dispose_pub
       | None, Some p => _ ← emit [EvDelSub (RtspOut.urlCtx p)]; dispose_sub
       | None, None => mret tt
       end);
   emit [EvDisconnect]) (s, tr) =
    ((s', tr ++ [EvClose; EvDelPub (pub_urlCtx p); EvClose] ++ (EvIn <$> l) ++ [EvDisconnect]), Ret tt) ∧
  Forall (λ e, ∃ x, e = RtspIn.EvClose x) l.
Proof.
  intros Hs Ep. destruct (Dispose_run (baseInSession p)) as (t' & l & Ed & Hl). exists (set_pub (Some (mkPub (pub_urlCtx p) t')) s), l.
  split; [|done]. rewrite (eff_bind_Ret _ _ _ (s, tr ++ [EvClose]) tt).
  2:{ cbn [runCmdLoop]. unfold cmd_step, mbind, eff_bind, here. cbn [fst]. by rewrite Hs. }
  unfold mbind at 1, eff_bind, here. cbn [fst]. rewrite Ep.
  rewrite (eff_bind_Ret _ _ _ (set_pub (Some (mkPub (pub_urlCtx p) t')) s, tr ++ [EvClose; EvDelPub (pub_urlCtx p); EvClose] ++ (EvIn <$> l)) tt).
  { unfold emit. by rewrite <- !app_assoc. }
  unfold dispose_pub, in_pub, mbind, eff_bind, emit, here. cbn [fst]. rewrite Ep, Ed. unfold upd. rewrite closings_replay by done.
  unfold lift. by rewrite <- !app_assoc.
Qed.

(** What a publisher sends: OPTIONS, ANNOUNCE, its SETUPs, RECORD and its packets. *)
Definition publisher_bytes uri0 hs0 uri hs raw xs uri2 hs2 fs : list Z :=
  PackRequest MethodOptions uri0 hs0 [] ++ PackRequest MethodAnnounce uri hs raw ++ mjoin (setup_request <$> xs) ++
  PackRequest MethodRecord uri2 hs2 [] ++ mjoin (framed <$> fs).

Lemma publisher_enters conf tr0 uri0 hs0 uri hs raw u c rest fuel :
  rq_ok uri0 hs0 [] → rq_ok uri hs raw → ParseRtspUrl uri = Ret u → ParseSdp2LogicContext raw = Ret c →
  ∃ stat t l, RtspIn.InitWithSdp c (RtspIn.NewBaseInSessionWithObserver stat, []) = ((t, [RtspIn.EvSdp c]), Ret tt) ∧
    written l = [PackResponseOptions LalRtspOptionsResponseServer (Get hs0 HeaderCSeq); PackResponseAnnounce (Get hs HeaderCSeq)] ∧
    announcedPubs l = [u] ∧ seen l = [] ∧
    runCmdLoop flag (S (S fuel)) (PackRequest MethodOptions uri0 hs0 [] ++ PackRequest MethodAnnounce uri hs raw ++ rest)
      (NewServerCommandSession conf false, tr0) =
    runCmdLoop flag fuel rest (set_pub (Some (mkPub u t)) (NewServerCommandSession conf false), tr0 ++ l).
Proof.
  intros H0 H1 Eu Ec. set (s := NewServerCommandSession conf false).
  destruct (loop_turn flag MethodOptions uri0 hs0 [] (PackRequest MethodAnnounce uri hs raw ++ rest) s tr0) as (rq0 & A1 & _ & _ & A4 & A5);
    [by apply (bool_decide_unpack _); vm_compute|done|done|done|].
  pose proof (options_turn Hwrite rq0 s tr0 A1 eq_refl) as D0. set (l0 := [EvRequest rq0; _]) in *.
  destruct (loop_turn flag MethodAnnounce uri hs raw rest s (tr0 ++ l0)) as (rq & B1 & B2 & B3 & B4 & B5);
    [by apply (bool_decide_unpack _); vm_compute|done|done|done|].
  destruct (announce_turn Hwrite Hpub rq u c s (tr0 ++ l0) B1) as (stat & t & Et & D1); [by rewrite B2|by rewrite B3|].
  eexists stat, t, (l0 ++ _). split; [done|]. unfold l0.
  split; [|split; [|split; [|by rewrite (A5 _ _ D0), (B5 _ _ D1), <- app_assoc]]]; cbn; unfold cseq_of; by rewrite ?A4, ?B4.
Qed.
End Dialogue.

(** C26: a publisher over TCP, plain, whose writes succeed and whose session the
    observer accepts.  It sends OPTIONS, ANNOUNCE with a URL and a description that
    parse, any SETUPs (of URIs that the description names, each with a pair of
    channels in the transport header that lal's own publisher writes), RECORD and
    framed packets of at most 65507 bytes, and closes; the requests have words and
    header fields without separators and the length of their body.  The server reads
    it all to the end without an error; it writes one answer to each request in this
    order, each with the CSeq of its request and a SETUP with the channels asked for,
    (what it writes after that, on account of the packets, is left open); the observer is told of one publisher,
    by its URL, and of its end when the connection ends; and the observer of the
    publisher gets each packet of the payload types of the description that is well
    formed and came on an RTP channel of its media, in order, and of each medium what
    the unpacker of that medium alone makes of its packets. *)
Theorem rtsp_publish_dialogue {B : Bele} (HB : BeleLaws B) {B8 : Bele64} {Q : CircularQueue AvPacket} {M : Md5} {U : NetUrl}
    {H : HttpMsg} {HH : HttpMsgLaws H} {En : ServerEnv} flag conf uri0 hs0 uri hs raw u c xs uri2 hs2 fs :
  (∀ tr, env_write tr = None) → (∀ tr, env_pub tr = None) →
  rq_ok uri0 hs0 [] → rq_ok uri hs raw → rq_ok uri2 hs2 [] → ParseRtspUrl uri = Ret u → ParseSdp2LogicContext raw = Ret c →
  Forall (setup_ok c) xs → Forall frame_ok fs →
  ∃ s tr gone, handleTcpConnect flag (4 + length xs + length fs) (publisher_bytes uri0 hs0 uri hs raw xs uri2 hs2 fs) (NewServerCommandSession conf false, []) =
      ((s, [EvConnect] ++ tr ++ [EvClose; EvDelPub u; EvClose] ++ (EvIn <$> gone) ++ [EvDisconnect]), Ret tt) ∧
    Forall (λ e, ∃ x, e = RtspIn.EvClose x) gone ∧
    announcedPubs tr = [u] ∧
    (∃ answers reports, Forall2 setup_answer xs answers ∧ written tr =
      [PackResponseOptions LalRtspOptionsResponseServer (Get hs0 HeaderCSeq); PackResponseAnnounce (Get hs HeaderCSeq)] ++
      answers ++ [PackResponseRecord (Get hs2 HeaderCSeq)] ++ reports) ∧
    ∃ stat t, (_ ← RtspIn.InitWithSdp c; RtspIn.setup_all (setup_channels <$> xs)) (RtspIn.NewBaseInSessionWithObserver stat, []) =
      ((t, [RtspIn.EvSdp c]), Ret tt) ∧
    let l := omap (RtspIn.accepted c) (omap (RtspIn.datagram (RtspIn.rtpChannel (RtspIn.audio t)) (RtspIn.rtpChannel (RtspIn.video t))) (frame_input <$> fs)) in
    RtspIn.rtps (seen tr) = snd <$> l ∧
    audio_of (RtspIn.avs (seen tr)) = (RtspIn.feed_alone (RtspIn.made RtspIn.Audio c) (RtspIn.of_medium RtspIn.Audio l)).2 ∧
    video_of (RtspIn.avs (seen tr)) = (RtspIn.feed_alone (RtspIn.made RtspIn.Video c) (RtspIn.of_medium RtspIn.Video l)).2.
Proof.
  intros Hw Hp H0 H1 H2 Eu Ec Hx Hf. unfold handleTcpConnect, publisher_bytes.
  rewrite (eff_bind_Ret (emit _) _ _ (NewServerCommandSession conf false, [EvConnect]) tt) by done.
  set (media := mjoin (framed <$> fs)). set (rest2 := PackRequest MethodRecord uri2 hs2 [] ++ media).
  edestruct (publisher_enters flag Hw Hp conf [EvConnect] uri0 hs0 uri hs raw u c (mjoin (setup_request <$> xs) ++ rest2))
    as (stat & t0 & l1 & E0 & W1 & N1 & S1 & R1); [done..|].
  set (s0 := set_pub (Some (mkPub u t0)) _) in *.
  assert (Ec0 : RtspIn.sdpCtx t0 = c).
  { destruct (RtspIn.InitWithSdp_run stat c) as (x & Ex & _ & A & _). rewrite E0 in Ex. by injection Ex as ->. }
  destruct (setups_run flag Hw c xs rest2 Hx s0 ([EvConnect] ++ l1) u t0 eq_refl eq_refl Ec0) as (t & l2 & E2 & W2 & N2 & S2 & R2).
  set (s1 := set_pub (Some (mkPub u t)) s0) in *.
  destruct (loop_turn flag MethodRecord uri2 hs2 [] media s1 (([EvConnect] ++ l1) ++ l2)) as (rq & A1 & _ & _ & A4 & R3);
    [by apply (bool_decide_unpack _); vm_compute|done|done|done|].
  pose proof (record_turn Hw rq s1 (([EvConnect] ++ l1) ++ l2) A1) as D3. set (l3 := [EvRequest rq; _]) in D3.
  destruct (RtspIn.described_playing stat c (setup_channels <$> xs)) as (t' & Et & Ht).
  assert (t' = t) as ->.
  { rewrite (eff_bind_Ret _ _ _ _ _ E0), E2 in Et. by injection Et. }
  destruct (frames_run flag Hw c _ _ _ _ fs [] Hf _ s1 ((([EvConnect] ++ l1) ++ l2) ++ l3) u t eq_refl eq_refl Ht) as (t4 & l4 & N4 & P4 & V4 & R4).
  destruct (publisher_leaves flag (set_pub (Some (mkPub u t4)) s1) (((([EvConnect] ++ l1) ++ l2) ++ l3) ++ l4) (mkPub u t4) 0 eq_refl eq_refl)
    as (s5 & gone & R5 & Hg).
  exists s5, (l1 ++ l2 ++ l3 ++ l4), gone. split.
  { unfold mbind at 1, eff_bind at 1. rewrite app_nil_r in R4.
    replace (4 + length xs + length fs)%nat with (S (S (length xs + S (length fs + 1))))%nat by lia.
    unfold rest2 in R1, R2. rewrite R1, R2, (R3 _ _ D3), R4. unfold mbind at 1, eff_bind at 1 in R5. rewrite R5.
    do 2 f_equal. by rewrite <- !app_assoc. }
  split; [done|]. rewrite !announcedPubs_app, N1, N2, N4. split; [done|]. split.
  { exists (written l2), (written l4). split; [done|]. rewrite !written_app, W1. unfold l3. cbn. unfold cseq_of. by rewrite A4. }
  exists stat, t. split; [exact Et|]. cbv zeta. rewrite !seen_app, S1, S2. cbn [seen omap list_omap l3 app].
  change (omap _ l4) with (seen l4). rewrite P4, V4. split; [done|].
  apply (RtspIn.take_all_media _ _ (RtspIn.session_pt_audio c) (RtspIn.session_pt_video c)); [apply (RtspIn.pl_ok _ _ _ _ _ _ _ Ht)|].
  apply RtspIn.accepted_bytes, RtspIn.datagrams_bytes, Forall_fmap. apply (Forall_impl _ _ _ Hf). by intros x (Hb & _).
Qed.

(** ** Examples *)

Definition demo_env : ServerEnv := {|
  env_pub := λ _, None; env_describe := λ _, (true, Some (str "v=0")); env_play := λ _, None; env_write := λ _, None;
  initConnWithClientPort := λ _ _ _, Fail ErrFmt; env_date := λ _, str "now"; env_random := λ tr, [len tr];
  env_stat := λ _, RtspIn.demo_stat; LalRtspOptionsResponseServer := str "lal" |}.
Definition demo_md5 : Md5 := {| md5 := λ _, str "0123456789abcdef" |}.
Definition demo_neturl : NetUrl := {| url_Parse := λ _, Ret (mkStdUrl (str "rtsp") None (str "h") (str "/live/a") []) |}.
Definition demo_conf : ServerAuthConfig := mkAuthConfig true 1 (str "q") (str "p").
Definition demo_uri : list Z := str "rtsp://h/live/a".

(** A player who answers the challenge, then plays. *)
Definition demo_player : list Z :=
  let challenged := FeedWwwAuthenticate no_auth [MakeAuthenticate (M := demo_md5) [7] AuthTypeDigest] (str "q") (str "p") in
  PackRequest MethodDescribe demo_uri [(HeaderCSeq, str "1")] [] ++
  PackRequest MethodDescribe demo_uri [(HeaderCSeq, str "2"); (HeaderAuthorization, MakeAuthorization (M := demo_md5) challenged MethodDescribe demo_uri)] [] ++
  PackRequest MethodPlay demo_uri [(HeaderCSeq, str "3")] [].

Abbreviation demo_serve := (handleTcpConnect (B := bele_impl) (B8 := bele64_impl) (Q := queue_impl AvPacket) (M := demo_md5) (U := demo_neturl) (H := http_impl) (En := demo_env) true).

Example player_plays :
  omap (λ e, match e with EvDescribe u => Some (0, u) | EvPlay u => Some (1, u) | EvDelSub u => Some (2, u) | _ => None end)
    (demo_serve 9%nat demo_player (NewServerCommandSession demo_conf false, [])).1.2 =
  [(0, RtspOut.demo_url); (1, RtspOut.demo_url); (2, RtspOut.demo_url)].
Proof. vm_compute. reflexivity. Qed.

Lemma rtsp_players_authenticated_witness :
  let tr := (demo_serve 9%nat demo_player (NewServerCommandSession demo_conf false, [])).1.2 in
  (∀ b, md5 (Md5 := demo_md5) b ≠ []) ∧ AuthEnable demo_conf = true ∧ is_player (EvPlay RtspOut.demo_url) ∧
  tr = take 7 tr ++ EvPlay RtspOut.demo_url :: drop 8 tr ∧
  AuthMethod demo_conf = 1 ∧ ∃ rq, EvRequest rq ∈ take 7 tr ∧ right_digest (M := demo_md5) demo_conf rq.
Proof.
  intros tr. assert (Hm : ∀ b, md5 (Md5 := demo_md5) b ≠ []) by done.
  assert (Etr : tr = take 7 tr ++ EvPlay RtspOut.demo_url :: drop 8 tr) by (vm_compute; reflexivity).
  split; [done|]. split; [done|]. split; [exact I|]. split; [exact Etr|].
  apply (rtsp_players_authenticated (B := bele_impl) (B8 := bele64_impl) (Q := queue_impl AvPacket) (M := demo_md5) (U := demo_neturl)
    (H := http_impl) (En := demo_env) true demo_conf false 9 demo_player (take 7 tr) (EvPlay RtspOut.demo_url) (drop 8 tr) Hm eq_refl Etr I).
Defined.

(** A publisher of audio: one medium, two packets and a request that is not one. *)
Definition demo_raw : list Z := str "m=audio 0 RTP/AVP 8" ++ crlf ++ str "a=rtpmap:8 PCMA/8000" ++ crlf ++ str "a=control:streamid=0".
Definition demo_logic : LogicContext := match ParseSdp2LogicContext demo_raw with Ret c => c | _ => zero_logic end.
Definition demo_fields (n : Z) : list (list Z * list Z) := [(HeaderCSeq, Itoa n)].
Definition demo_announce : list (list Z * list Z) := demo_fields 2 ++ [(HeaderContentLength, Itoa (len demo_raw))].
Definition demo_setups : list Setup :=
  [(demo_uri ++ str "/streamid=0", demo_fields 3 ++ [(HeaderTransport, HeaderTransportClientRecordTcp 0 1)], (0, 1))].
Definition demo_frames : list (list Z * Z) :=
  [([128; 8; 0; 1; 0; 0; 0; 160; 0; 0; 0; 9; 77], 0); ([1; 2; 3], 7); ([128; 8; 0; 2; 0; 0; 1; 64; 0; 0; 0; 9; 78], 0)].
Definition demo_publish : list Z :=
  publisher_bytes (B := bele_impl) demo_uri (demo_fields 1) demo_uri demo_announce demo_raw demo_setups demo_uri (demo_fields 4) demo_frames.

Example publisher_heard :
  let tr := (demo_serve 8%nat demo_publish (NewServerCommandSession demo_conf false, [])).1.2 in
  announcedPubs tr = [RtspOut.demo_url] ∧ len (written tr) = 4 ∧
  RtspIn.avs (seen tr) = [mkAvPacket AvPacketPtG711A 20 0 [77]; mkAvPacket AvPacketPtG711A 40 0 [78]].
Proof. vm_compute. done. Qed.

#[local] Instance word_dec s : Decision (word s).
Proof. unfold word. apply _. Defined.
#[local] Instance field_ok_dec kv : Decision (field_ok kv).
Proof. unfold field_ok. apply _. Defined.
#[local] Instance rq_ok_dec uri hs body : Decision (rq_ok uri hs body).
Proof. unfold rq_ok, length_ok. apply _. Defined.
Ltac request_ok := apply (bool_decide_eq_true_1 _); by vm_compute.

Lemma rtsp_publish_dialogue_witness :
  let c := demo_logic in let xs := demo_setups in let fs := demo_frames in
  ∃ s tr gone, demo_serve (4 + length xs + length fs)%nat demo_publish (NewServerCommandSession demo_conf false, []) =
      ((s, [EvConnect] ++ tr ++ [EvClose; EvDelPub RtspOut.demo_url; EvClose] ++ (EvIn <$> gone) ++ [EvDisconnect]), Ret tt) ∧
    Forall (λ e, ∃ x, e = RtspIn.EvClose x) gone ∧
    announcedPubs tr = [RtspOut.demo_url] ∧
    (∃ answers reports, Forall2 setup_answer xs answers ∧ written tr =
      [PackResponseOptions (str "lal") (str "1"); PackResponseAnnounce (str "2")] ++ answers ++ [PackResponseRecord (str "4")] ++ reports) ∧
    ∃ stat t, (_ ← RtspIn.InitWithSdp (B := bele_impl) c; RtspIn.setup_all (setup_channels <$> xs))
        (RtspIn.NewBaseInSessionWithObserver (Q := queue_impl AvPacket) stat, []) = ((t, [RtspIn.EvSdp c]), Ret tt) ∧
    let l := omap (RtspIn.accepted (B := bele_impl) c)
      (omap (RtspIn.datagram (RtspIn.rtpChannel (RtspIn.audio t)) (RtspIn.rtpChannel (RtspIn.video t))) (frame_input <$> fs)) in
    RtspIn.rtps (seen tr) = snd <$> l ∧
    audio_of (RtspIn.avs (seen tr)) = (RtspIn.feed_alone (RtspIn.made (B := bele_impl) RtspIn.Audio c) (RtspIn.of_medium RtspIn.Audio l)).2 ∧
    video_of (RtspIn.avs (seen tr)) = (RtspIn.feed_alone (RtspIn.made (B := bele_impl) RtspIn.Video c) (RtspIn.of_medium RtspIn.Video l)).2.
Proof.
  apply (rtsp_publish_dialogue bele_impl_laws (B8 := bele64_impl) (Q := queue_impl AvPacket) (M := demo_md5) (U := demo_neturl)
    (H := http_impl) (En := demo_env) true demo_conf demo_uri (demo_fields 1) demo_uri demo_announce demo_raw RtspOut.demo_url demo_logic
    demo_setups demo_uri (demo_fields 4) demo_frames).
  - done.
  - done.
  - request_ok.
  - request_ok.
  - request_ok.
  - by vm_compute.
  - by vm_compute.
  - apply Forall_singleton. split; [request_ok|]. split; [by vm_compute|]. split; [split; cbn; lia|by vm_compute].
  - repeat first [apply Forall_nil_2|apply Forall_cons_2]; (split; [by apply (bool_decide_eq_true_1 _); vm_compute|cbn; lia]).
Defined.

(** ** Findings *)

(** A second ANNOUNCE on the connection takes the place of the first publisher,
    whose end is then told to nobody: two come and one leaves. *)
Example second_announce_leaks :
  let announce := PackRequest MethodAnnounce demo_uri demo_announce demo_raw in
  let tr := (demo_serve 4%nat (announce ++ announce) (NewServerCommandSession demo_conf false, [])).1.2 in
  announcedPubs tr = [RtspOut.demo_url; RtspOut.demo_url] ∧
  omap (λ e, match e with EvDelPub u => Some u | _ => None end) tr = [RtspOut.demo_url] ∧ last tr = Some EvDisconnect.
Proof. vm_compute. done. Qed.

(** In a WebSocket too the answer to RECORD has no frame around it. *)
Lemma record_unframed {B : Bele} {B8 : Bele64} {Q : CircularQueue AvPacket} {M : Md5} {U : NetUrl} {H : HttpMsg} {En : ServerEnv} rq w :
  (handleRecord rq w).1.2 = w.2 ++ [EvWrite (PackResponseRecord (cseq_of rq))].
Proof. destruct w as [s tr]. unfold handleRecord, conn_Write, mbind, eff_bind. cbn [emit past]. by destruct (fail_with _ _) eqn:E; unfold fail_with, lift in E; cbn in *; injection E as <- _. Qed.
